(* ===== verification/_CoqProject ===== *)
-Q . S2P
Prelude.v
Bits.v
Machine.v
Paging.v
PagingFacts.v
PagingSpec.v
Kernel.v
KList.v
Thread.v
ThreadFacts.v
Message.v
ThreadSpec.v
Fairness.v
MessageFacts.v
MessageSpec.v
BootMemory.v
Interrupt.v
Syscall.v
SyscallSpec.v
Numbers.v
NumbersSpec.v
Strings.v
StringsSpec.v
StringsSearch.v
Printf.v
PrintfSpec.v
PrintfRender.v
PrintfFormat.v
PrintfStandard.v
Calendar.v
CQueue.v
CircBuffer.v
DynArray.v
OsList.v
OsListSpec.v
Librust.v
Region.v
BitArray.v
BitArraySpec.v
PhysAlloc.v
PhysAllocSpec.v
PhysAllocSearch.v
PhysAllocOwners.v
PhysAllocInit.v
AddrSpace.v
AddrSpaceSpec.v
InitServer.v
InitServerSpec.v
Fat.v
FatLib.v
FatFile.v
FatSpec.v
FatNames.v
FatDir.v
FatRead.v
FatCreate.v
FatList.v
FatDisk.v
KPrintf.v
KPrintfSpec.v
KDebug.v
KDebugSpec.v
KStack.v
Loader.v
LoaderFacts.v
LoaderSpec.v
LoaderInit.v
LoaderExe.v
LoaderBoot.v
LoaderStrings.v
BootPaging.v
BootPagingSpec.v
Acpi.v
AcpiSpec.v
KInit.v
KInitSpec.v
KInitBoot.v
