(* ===== verification/Prelude.v ===== *)
(** * Silverbox OS: a verification development

  ** The program

  Silverbox OS is a small message-passing kernel for 32-bit x86 with user-space
  libraries, drivers and servers.  The kernel (src/kernel, headers under
  src/include/kernel) keeps one table of thread control blocks.  Each thread is
  in at most one queue: a run queue per priority, the list of paused or of
  zombie threads, or the queue of senders or of receivers of another thread.
  The queues are doubly linked through the control blocks.  Threads exchange
  synchronous messages, which the kernel copies between address spaces through
  a temporary mapping window at the top of every address space.  System calls
  enter through a table of handlers.  The initial server, in Rust
  (src/servers/init_server, on top of src/lib/librust), owns physical memory and
  the address spaces: it allocates blocks of frames, keeps what is mapped where,
  and answers the page faults the kernel reports to it as messages.  Beside the
  kernel and the initial server this development covers parts of the C library
  (src/lib/libc) and of the system library (src/lib/libos), and the FAT file
  system of the older initial server (src/apps/init_server_old/fs).

  ** Files

  - Prelude: this header; machine integers, the state and outcome monad of the
    translation, record update, weakest preconditions and their tactics.
  - Bits: bit fields of words, as C declares them in entries of page maps.
  - Machine: physical memory, CR3 and the two-level page walk.
  - Paging, PagingFacts, PagingSpec: kernel/paging.c, kernel/mem.c and
    include/kernel/paging.h; definitions, their lemmas, and the theorems.
  - Kernel: the data of the kernel as the record [kstate]
    (include/kernel/thread.h, list_struct.h, lowlevel.h, schedule.h).
  - KList: kernel/list.c, and the abstraction of the queues to sequences.
  - Thread, ThreadFacts, ThreadSpec: kernel/thread.c and kernel/schedule.c;
    Fairness: repeated calls of the scheduler.
  - Message, MessageFacts, MessageSpec: kernel/message.c.
  - BootMemory: kernel/init/memory.c, the allocator of frames during start-up.
  - Interrupt, Syscall, SyscallSpec: kernel/interrupt.c and kernel/syscall.c.
  - Numbers, NumbersSpec: lib/libc/ctype/ctype.c, stdlib/itoa.c, stdlib/strtol.c.
  - Strings, StringsSpec, StringsSearch: lib/libc/string.
  - Printf, PrintfSpec, PrintfRender, PrintfFormat: lib/libc/stdio/do_printf.c and
    vsprintf.c; the characters of a directive, its conversion, whole formats.
    PrintfStandard: the text ISO C defines, and where the code agrees with it.
  - Calendar: lib/libc/time/gmtime.c and mktime.c.
  - CQueue, CircBuffer, DynArray: lib/libos/ostypes/cqueue.c, circbuffer.c and
    dynarray.c; OsList, OsListSpec: lib/libos/ostypes/list.c.
  - Region: servers/init_server/src/region.rs.
  - BitArray, BitArraySpec: the module bit_array of lib/librust/src/types.rs, and
    align.rs.
  - PhysAlloc, PhysAllocSpec, PhysAllocSearch, PhysAllocOwners, PhysAllocInit:
    servers/init_server/src/phys_alloc.rs, on top of Region and BitArray.
  - Librust: lib/librust/src/message.rs, thread ids of types.rs and results of
    system calls of syscalls.rs.
  - AddrSpace, AddrSpaceSpec: device.rs, page.rs, mapping.rs, pager.rs and the
    mapping of frames in lowlevel.rs, of servers/init_server/src.
  - InitServer, InitServerSpec: the message loop of main.rs, and the way of an
    exception from the kernel through the bindings to the server.
  - Fat, FatLib, FatFile: fatfs.h, fat_alloc.c and fat_lib.c of
    apps/init_server_old/fs; volumes and tables, names and path lookup, files and
    directories, against the interface [World] of devices and memory.
  - FatSpec, FatNames, FatDir, FatRead, FatCreate, FatList: their theorems, under
    the laws [Storage] of the interface; FatDisk: an instance of the interface and
    of its laws, disks in memory, with a volume for the witnesses.
  - KPrintf, KPrintfSpec: formatted output of kernel/debug.c; KDebug, KDebugSpec:
    its serial port and screen, against the interface [Ports] with the laws
    [Board]; KStack: its stack traces, on top of Paging.
  - Loader, LoaderFacts, LoaderSpec, LoaderInit, LoaderExe, LoaderBoot, LoaderStrings:
    kernel/init/loader.c, kernel/init/libc.c and include/elf.h, on top of Paging,
    Thread and BootMemory.
  - BootPaging, BootPagingSpec: init_paging and setup_tss of kernel/init/memory.c,
    the page map that is built before paging is on.
  - Acpi, AcpiSpec: kernel/init/acpi.c, the tables of the BIOS.
  - KInit, KInitSpec, KInitBoot: kernel/init/init.c, against the interfaces [Ports]
    and [Lapic] with the laws [Chipset]; interrupts and timer, and the whole of
    start-up, on top of all of the kernel but for messages.

  ** How code is translated

  A function becomes a definition of the same name in the monad [M S A]: from a
  state of type [S] it returns a value and a state, leaves the kernel for user
  mode ([Leave]), halts in a failed assertion or PANIC ([Panic]), or does
  something undefined ([Fault]: a null pointer, an index out of bounds, an
  address without a translation).  The build that is modelled is the default
  one, with DEBUG, in which KASSERT is checked, and without PAE.  Calls that print
  on the console are dropped outside of the files about the console.  Unsigned
  integers are numbers kept in range by [wrap]; signed ones wrap around, as the
  instructions do that the default unoptimised build uses.  A pointer to a
  control block is its index.  Loops are structural where the code counts, and
  have fuel where it does not; running out of fuel is a fault, so that a
  theorem about a result also says that the fuel was enough.  The fuel of the
  copies is one more than the length, that of the search for a control block
  and of the draining of a queue one more than the number of blocks, that of
  number conversion the number of bits, that of [gmtime] one more than the
  number of days divided by 365.  The loops over page mappings take theirs as an
  argument, and more than the number of mappings is enough; so do the string
  functions, where more than the length of the strings is enough, and the loops
  over the pieces of a directory or file, where more than their number is.  A wait
  for the serial port takes at most as many steps as the port is busy.  Of the
  timer nothing is assumed but that it can be read, and of a chain of stack frames
  not that it ends: where the fuel of these two loops is not enough the theorems
  say so, as one of the outcomes.  An entry of an ACPI table has at least a byte,
  and the fuel of their loop is the length.

  Rust code becomes functions to [option], where [None] is a panic: a failed
  [unwrap] or index, or overflow, which the development profile of the build
  checks.  [usize] has 32 bits and a physical address 64.  A [BTreeSet] or
  [BTreeMap] is the list of its elements in order, a [Vec] a list.  Loops over
  iterators have one step per element, or one per bit and one more.

  ** What is proved

  [wp m Q L s] is total correctness: [m] run from [s] neither faults nor halts.
  [wpp R m Q L s] also allows the panics and faults that [R] names.

  - Paging: under the invariant [kmap] of an address space in which the window
    works, the window maps the frames asked for, entries of any page map and
    any block of physical memory are written and read back, and a new address
    space gets the kernel half of the current one and its own recursive entry.
  - Queues: the operations of kernel/list.c implement insertion and removal on
    sequences ([wf s Q]: queue [q] of state [s] holds the sequence [Q q]), and
    the run queues are first-in first-out.
  - Threads: [kinv s Q] says that queues, thread states and processors agree.
    Starting, waking, pausing and scheduling keep it and do not fault, so that
    it holds in every state [reachable] by them; starting, pausing, creating
    and scheduling threads are specified on every branch.
  - Messages: delivery, blocking and refusal of [send_message], and delivery of
    [receive_message], with registers, memory and queues; two uses of MSG_KERNEL
    that the code does not treat as its comment says.
  - System calls and interrupts: registration of interrupts; and, as for the
    other components, theorems that pin down where the code does not do what it
    is meant to: calls that lose threads, interrupts that are not delivered,
    page mappings that are not made.
  - Scheduling is fair within a priority: a thread in the highest run queue that
    has threads runs after as many calls as there are threads up to it.
  - Libraries: number to text and back in every base, the calendar computation
    against the Gregorian calendar, the circular queue against a bounded queue
    and the circular buffer against a sequence of bytes, appending to a dynamic
    array, the string functions against lists of characters, with [strtok]
    called in a loop against splitting into words; the linked list of libos
    against sequences of keys and elements; formatted output against the text ISO C
    defines, for the directives in which they agree, and against a rendering of all
    directives, into a function and into memory; and deviations of theirs.
  - Sets of memory regions have the operations of sets of addresses; arrays of
    bits have those of functions to booleans, with a word at a time equal to a
    bit at a time, and the iterator visits exactly the bits asked for.
  - Physical memory: for every sequence of allocations and releases no address
    is in two blocks that are held; the search through the levels gives the
    first free block; after initialisation, with memory up to 4G, nothing that is
    reserved, or is not memory, is free.  Where a block goes beyond the end of
    memory, or memory above 4G is reserved, the theorems say what happens instead.
    The frames handed out during start-up are distinct.
  - Address spaces: mapping and unmapping change the translation of exactly the
    pages they are for, ranges that are chosen are not in use, and a page fault
    is answered with the frame the address stands for, but for the zero device.
  - The FAT file system: an entry written to the allocation table is read back
    and no other changes, except at the places where the code damages another, a free cluster is found if there is one, a path leads to
    the entry the contents of its directories give, a file is read along its chain
    of clusters, a created file is found, the list of a directory has its entries,
    and names survive the way into an entry and back; and where the code goes
    beyond its buffers, loses an entry or miscounts the clusters of a volume.
  - The console of the kernel: what [kprintf] sends to the serial port is the text
    of the format; by the laws [Board] a byte is lost when the transmitter is full or
    the divisor is selected, so that the waiting and [init_serial] matter.  Numbers
    are converted digit by digit and fit their buffer, scrolling down and up again
    shows the same lines; a stack trace follows the chain of frames to its end, for
    ever where it has none, and the test for readable memory agrees with the page
    walk.
  - The loader: an ELF executable is loaded into a new address space with the
    bytes its sections ask for, and nothing else changes; starting the initial
    server leaves its thread ready in such an address space, with its stack,
    its arguments and the conventional memory mapped; which boot
    module is taken for the initial server, and for which ones the search goes
    wrong.
  - Start-up: the first page map has the kernel, with its code read-only, low
    memory and nothing else, and the temporary window works in it; the processors
    of the ACPI tables are found; every interrupt vector has its gate and all
    requests are masked; and [init], from the first page map, ends in the initial
    server at the entry point of its file, or in one of the ways [stops] names.
  - Across the kernel and the server: the layout of the message for an exception
    is the same in C and in Rust, and what keeps the server from answering it.

  Theorems with hypotheses have a witness that applies them to a concrete state:
  a machine with three mapped pages ([demo]), and kernel states reached from
  start-up by running the kernel's own operations ([boot], [one_running], ...).

  ** What is not modelled

  The TLB, caches and other processors; assembly entry and exit code; timing;
  of start-up, what it prints about the processor and the boot loader, and
  init_pic, which is not compiled in and waits with a function that is not in the
  repository; messages of failed assertions, and the time stamp counter; the files of standard I/O and the allocator of libc; hash
  tables, trees, strings and remote procedure calls of libos; of the initial server, names,
  requests of clients, the heap and reading of boot structures; drivers, other servers and
  applications, but for the FAT file system.  Of that, the size of the table in
  floating-point numbers (calcFatSize, which its comment calls broken), the
  release of memory, and the rest of the virtual file system.  Memory for the
  thread table, the kernel stack and the floating-point areas is kept apart from
  the memory reached through page maps: kernel data is not aliased by user
  mappings.  The address of local variables that are passed by reference to the
  copying routines is a parameter.  An allocator is a parameter with the
  documented behaviour of [realloc], or of [malloc] and [free], as a hypothesis.
  The conversion [itostr] of formatted output, which the repository does not
  declare, is a parameter; the conversions of itoa.c are put in its place.
  The system call with which the initial server maps pages is a parameter, and
  so is what the server's heap takes from the physical allocator while that is
  being initialised. *)

From stdpp Require Export base tactics numbers list gmap.
From Stdlib Require Export ZArith Lia Btauto.

#[global] Open Scope Z_scope.

(** ** Machine integers

  A w-bit unsigned integer is a [Z] in [[0, 2^w)]; [wrap w] is the reduction
  C performs on conversion to, and on arithmetic in, such a type. *)

Definition wrap (w x : Z) : Z := x mod 2 ^ w.

Abbreviation u8 := (wrap 8).
Abbreviation u16 := (wrap 16).
Abbreviation u32 := (wrap 32).
Abbreviation u64 := (wrap 64).

(** Conversion of a w-bit pattern to the signed type of that width. *)
Definition signed (w x : Z) : Z :=
  let y := wrap w x in if y <? 2 ^ (w - 1) then y else y - 2 ^ w.

Abbreviation i32 := (signed 32).

(** The C idiom [IS_FLAG_SET(value, flag)]. *)
Definition is_flag_set (value flag : Z) : bool := negb (Z.land value flag =? 0).

(** ** Outcomes of kernel code

  Kernel code either returns a value, leaves the kernel for user mode without
  returning to its caller ([thread_switch_context]), halts the machine
  ([PANIC], a failed [KASSERT] of the default DEBUG build) or performs an
  access the C language gives no meaning to. *)

Inductive fault :=
| NullDeref
| OutOfBounds
| PageFault
| DivideByZero
| Uninitialised
| OutOfFuel.

Inductive outcome (S A : Type) :=
| Ret (a : A) (s : S)
| Leave (s : S)
| Panic
| Fault (f : fault).

Arguments Ret {S A} a s.
Arguments Leave {S A} s.
Arguments Panic {S A}.
Arguments Fault {S A} f.

Definition M (S A : Type) : Type := S → outcome S A.

Section monad.
Context {S : Type}.

Definition ret {A} (a : A) : M S A := λ s, Ret a s.

Definition bind {A B} (m : M S A) (k : A → M S B) : M S B := λ s,
  match m s with
  | Ret a s' => k a s'
  | Leave s' => Leave s'
  | Panic => Panic
  | Fault f => Fault f
  end.

Definition gets {A} (f : S → A) : M S A := λ s, Ret (f s) s.
Definition modify (f : S → S) : M S unit := λ s, Ret tt (f s).
Definition leave {A} : M S A := λ s, Leave s.
Definition panic {A} : M S A := λ _, Panic.
Definition fail {A} (f : fault) : M S A := λ _, Fault f.

(** [KASSERT(b)]: the DEBUG build prints a message and halts. *)
Definition kassert (b : bool) : M S unit := if b then ret tt else panic.

(** [if(b) { m }]. *)
Definition when (b : bool) (m : M S unit) : M S unit := if b then m else ret tt.

(** Dereference: [None] stands for an access outside of the object. *)
Definition deref {A} (f : fault) (o : option A) : M S A :=
  match o with Some a => ret a | None => fail f end.
End monad.

Declare Scope kernel_scope.
Delimit Scope kernel_scope with kernel.
Notation "'let*' x ':=' m 'in' k" := (bind m (λ x, k))
  (at level 10, x name, m at level 100, k at level 200) : kernel_scope.
Notation "'let*' ' p ':=' m 'in' k" := (bind m (λ x, match x with p => k end))
  (at level 10, p strict pattern, m at level 100, k at level 200) : kernel_scope.
Notation "m ';;' k" := (bind m (λ _, k))
  (at level 100, k at level 200, right associativity) : kernel_scope.
#[global] Open Scope kernel_scope.

(** ** Record update

    [r <| field := v |>] assigns one field; a record type declares how it is
    rebuilt from its fields, and the assignment of any field is derived. *)

Class Update {R A : Type} (field : R → A) : Type := update : (A → A) → R → R.
#[export] Hint Mode Update + + + : typeclass_instances.
Arguments update {R A} field {Update} f r : simpl nomatch.

Ltac derive_update eta field :=
  lazymatch eval pattern field in eta with
  | ?k _ => let u := eval cbv beta in (λ f r, k (λ x, f (field x)) r) in exact u
  end.

Notation "r <| field ::= f |>" := (update field f r)
  (at level 1, f at level 99, left associativity) : kernel_scope.
Notation "r <| field := v |>" := (update field (λ _, v) r)
  (at level 1, v at level 99, left associativity) : kernel_scope.

(** ** Weakest preconditions (total correctness)

  [wp m Q L s]: run from [s], [m] does not fault, does not halt and does not
  run out of fuel; if it returns [a] in [s'] then [Q a s'], and if it leaves
  the kernel in [s'] then [L s']. *)

Section wp.
Context {S : Type}.

Definition wp {A} (m : M S A) (Q : A → S → Prop) (L : S → Prop) (s : S) : Prop :=
  match m s with
  | Ret a s' => Q a s'
  | Leave s' => L s'
  | Panic => False
  | Fault _ => False
  end.

Lemma wp_ret {A} (a : A) Q L s : Q a s → wp (ret a) Q L s.
Proof. done. Qed.

Lemma wp_bind {A B} (m : M S A) (k : A → M S B) Q L s :
  wp m (λ a s', wp (k a) Q L s') L s → wp (bind m k) Q L s.
Proof. unfold wp, bind. by destruct (m s). Qed.

Lemma wp_gets {A} (f : S → A) Q L s : Q (f s) s → wp (gets f) Q L s.
Proof. done. Qed.

Lemma wp_modify (f : S → S) Q L s : Q tt (f s) → wp (modify f) Q L s.
Proof. done. Qed.

Lemma wp_leave {A} (Q : A → S → Prop) L s : L s → wp leave Q L s.
Proof. done. Qed.

Lemma wp_kassert b Q L s : b = true → Q tt s → wp (kassert b) Q L s.
Proof. by intros ->. Qed.

Lemma wp_deref {A} f (o : option A) a Q L s :
  o = Some a → Q a s → wp (deref f o) Q L s.
Proof. by intros ->. Qed.

Lemma wp_mono {A} (m : M S A) (Q Q' : A → S → Prop) (L L' : S → Prop) s :
  wp m Q L s → (∀ a s', Q a s' → Q' a s') → (∀ s', L s' → L' s') → wp m Q' L' s.
Proof. unfold wp. destruct (m s); naive_solver. Qed.

(** A run that returns, read as a weakest precondition and back. *)
Lemma wp_of_ret {A} (m : M S A) a s s' (Q : A → S → Prop) L :
  m s = Ret a s' → Q a s' → wp m Q L s.
Proof. unfold wp. by intros ->. Qed.

Lemma wp_ret_inv {A} (m : M S A) Q s :
  wp m Q (λ _, False) s → ∃ a s', m s = Ret a s' ∧ Q a s'.
Proof. unfold wp. destruct (m s); naive_solver. Qed.

(** A specification in continuation form is a run. *)
Lemma wp_run {A} (m : M S A) a s s' :
  (∀ (Q : A → S → Prop) L, Q a s' → wp m Q L s) → m s = Ret a s'.
Proof.
  intros H. specialize (H (λ a0 s0, a0 = a ∧ s0 = s') (λ _, False) (conj eq_refl eq_refl)).
  unfold wp in H. destruct (m s); try done. by destruct H as [-> ->].
Qed.

(** The same for a value and a property of the state. *)
Lemma wp_runs {A} (m : M S A) a (P : S → Prop) s :
  (∀ Q L, (∀ s', P s' → Q a s') → wp m Q L s) → ∃ s', m s = Ret a s' ∧ P s'.
Proof.
  intros H. destruct (wp_ret_inv m (λ a' s', a' = a ∧ P s') s) as (? & s' & E & -> & ?); [by apply H|]. eauto.
Qed.

Lemma bind_run {A B} (m : M S A) (k : A → M S B) a s s' : m s = Ret a s' → bind m k s = k a s'.
Proof. unfold bind. by intros ->. Qed.

Lemma bind_inv {A B} (m : M S A) (k : A → M S B) b s s' :
  bind m k s = Ret b s' → ∃ a s1, m s = Ret a s1 ∧ k a s1 = Ret b s'.
Proof. unfold bind. destruct (m s); naive_solver. Qed.

Lemma wp_leave_inv {A} (m : M S A) L s :
  wp m (λ _ _, False) L s → ∃ s', m s = Leave s' ∧ L s'.
Proof. unfold wp. destruct (m s); naive_solver. Qed.
End wp.

(** Monadic code over a component of the state, run on the whole state. *)
Definition zoom {S T A} (get : S → T) (set : T → S → S) (m : M T A) : M S A := λ s,
  match m (get s) with
  | Ret a t => Ret a (set t s)
  | Leave t => Leave (set t s)
  | Panic => Panic
  | Fault f => Fault f
  end.

Lemma wp_zoom {S T A} (get : S → T) set (m : M T A) Q L s :
  wp m (λ a t, Q a (set t s)) (λ t, L (set t s)) (get s) → wp (zoom get set m) Q L s.
Proof. unfold wp, zoom. by destruct (m (get s)). Qed.

(** Like [wp], for code that may stop: [R None] where it may panic, and [R (Some f)]
    where it may end with the fault [f]. *)
Definition wpp {S A} (R : option fault → Prop) (m : M S A) (Q : A → S → Prop) (L : S → Prop) (s : S) : Prop :=
  match m s with
  | Ret a s' => Q a s'
  | Leave s' => L s'
  | Panic => R None
  | Fault f => R (Some f)
  end.

Lemma wpp_wp {S A} R (m : M S A) Q L s : wp m Q L s → wpp R m Q L s.
Proof. unfold wp, wpp. by destruct (m s). Qed.

Lemma wpp_bind {S A B} R (m : M S A) (k : A → M S B) Q L s : wpp R m (λ a s', wpp R (k a) Q L s') L s → wpp R (bind m k) Q L s.
Proof. unfold wpp, bind. by destruct (m s). Qed.

Lemma wpp_step {S A B} R (m : M S A) (k : A → M S B) Q L s : wp m (λ a s', wpp R (k a) Q L s') L s → wpp R (bind m k) Q L s.
Proof. intros H. by apply wpp_bind, wpp_wp. Qed.

Lemma wpp_of_ret {S A} R (m : M S A) Q L s a s' : m s = Ret a s' → Q a s' → wpp R m Q L s.
Proof. intros E H. unfold wpp. by rewrite E. Qed.

Lemma wpp_zoom {S T A} R (get : S → T) set (m : M T A) Q L s :
  wpp R m (λ a t, Q a (set t s)) (λ t, L (set t s)) (get s) → wpp R (zoom get set m) Q L s.
Proof. unfold wpp, zoom. by destruct (m (get s)). Qed.

(** ** Automation *)

Create HintDb silverbox.
#[export] Hint Resolve wp_ret wp_gets wp_modify wp_leave : silverbox.

(** One step of symbolic execution of monadic code. *)
Ltac wp_step :=
  lazymatch goal with
  | |- wp (bind _ _) _ _ _ => apply wp_bind
  | |- wp (ret _) _ _ _ => apply wp_ret
  | |- wp (gets _) _ _ _ => apply wp_gets
  | |- wp (modify _) _ _ _ => apply wp_modify
  | |- wp leave _ _ _ => apply wp_leave
  | |- wp (when true _) _ _ _ => unfold when
  | |- wp (when false _) _ _ _ => unfold when
  end; cbn beta.

Ltac wp_steps := repeat wp_step.

(** Close or normalise goals of division and remainder by constants. *)
Ltac zdiv := Z.to_euclidean_division_equations; lia.

(** ** Integer lemmas *)

Lemma wrap_range w x : 0 <= w → 0 <= wrap w x < 2 ^ w.
Proof. intros. unfold wrap. apply Z.mod_pos_bound. lia. Qed.

Lemma wrap_small w x : 0 <= x < 2 ^ w → wrap w x = x.
Proof. apply Z.mod_small. Qed.

Lemma signed_small w x : 0 < w → - 2 ^ (w - 1) <= x < 2 ^ (w - 1) → signed w x = x.
Proof.
  intros Hw Hx. unfold signed. assert (E : 2 ^ w = 2 * 2 ^ (w - 1)) by (rewrite <- Z.pow_succ_r by lia; f_equal; lia).
  destruct (Z.ltb_spec x 0).
  - assert (wrap w x = x + 2 ^ w) as -> by (unfold wrap; symmetry; apply (Z.mod_unique _ _ (-1)); lia).
    destruct (Z.ltb_spec (x + 2 ^ w) (2 ^ (w - 1))); lia.
  - rewrite wrap_small by lia. destruct (Z.ltb_spec x (2 ^ (w - 1))); lia.
Qed.

Lemma signed_range w x : 0 < w → - 2 ^ (w - 1) <= signed w x < 2 ^ (w - 1).
Proof.
  intros Hw. unfold signed. pose proof (wrap_range w x ltac:(lia)) as H.
  assert (E : 2 ^ w = 2 * 2 ^ (w - 1)) by (rewrite <- Z.pow_succ_r by lia; f_equal; lia).
  destruct (Z.ltb_spec (wrap w x) (2 ^ (w - 1))); lia.
Qed.

Lemma wrap_wrap w x : wrap w (wrap w x) = wrap w x.
Proof. unfold wrap. apply Zmod_mod. Qed.

Lemma wrap_add_l w x y : wrap w (wrap w x + y) = wrap w (x + y).
Proof. unfold wrap. apply Zplus_mod_idemp_l. Qed.

Lemma wrap_add_r w x y : wrap w (x + wrap w y) = wrap w (x + y).
Proof. unfold wrap. apply Zplus_mod_idemp_r. Qed.
