(* ===== verification/Bits.v ===== *)
(** * Bit fields of machine words

    C bit fields and mask arithmetic on words held as [Z].  [bits v lo len] is
    the value of the [len]-bit field of [v] that starts at bit [lo];
    [set_bits v lo len x] is the word after the assignment [v.field = x], where
    C keeps only the low [len] bits of [x]. *)

From S2P Require Import Prelude.

Definition bits (v lo len : Z) : Z := Z.land (Z.shiftr v lo) (Z.ones len).

Definition set_bits (v lo len x : Z) : Z :=
  Z.lor (Z.ldiff v (Z.shiftl (Z.ones len) lo))
        (Z.shiftl (Z.land x (Z.ones len)) lo).

(** A one-bit field read as a condition, and written from one. *)
Definition bit (v i : Z) : bool := Z.testbit v i.
Definition set_bit (v i : Z) (b : bool) : Z := set_bits v i 1 (Z.b2z b).

Lemma testbit_bits v lo len i :
  0 <= lo → 0 <= len →
  Z.testbit (bits v lo len) i = (0 <=? i) && (i <? len) && Z.testbit v (i + lo).
Proof.
  intros Hlo Hlen. unfold bits. rewrite Z.land_spec, Z.testbit_ones by lia.
  destruct (Z.leb_spec 0 i); simpl; [|by rewrite (Z.testbit_neg_r _ i)].
  rewrite Z.shiftr_spec by lia. apply andb_comm.
Qed.

Lemma testbit_set_bits v lo len x i :
  0 <= lo → 0 <= len →
  Z.testbit (set_bits v lo len x) i =
    if (lo <=? i) && (i <? lo + len) then Z.testbit x (i - lo) else Z.testbit v i.
Proof.
  intros Hlo Hlen. unfold set_bits.
  destruct (Z.ltb_spec i 0).
  { rewrite !Z.testbit_neg_r by lia. by destruct (_ && _). }
  rewrite Z.lor_spec, Z.ldiff_spec, !Z.shiftl_spec, Z.land_spec, !Z.testbit_ones by lia.
  replace (0 <=? i - lo) with (lo <=? i)
    by (destruct (Z.leb_spec lo i), (Z.leb_spec 0 (i - lo)); lia).
  replace (i - lo <? len) with (i <? lo + len)
    by (destruct (Z.ltb_spec i (lo + len)), (Z.ltb_spec (i - lo) len); lia).
  destruct (lo <=? i), (i <? lo + len); simpl;
    rewrite ?andb_true_r, ?andb_false_r, ?orb_false_r; done.
Qed.

Lemma bits_alt v lo len :
  0 <= lo → 0 <= len → bits v lo len = (v / 2 ^ lo) mod 2 ^ len.
Proof. intros. unfold bits. by rewrite Z.land_ones, Z.shiftr_div_pow2 by lia. Qed.

Lemma bits_range v lo len : 0 <= lo → 0 <= len → 0 <= bits v lo len < 2 ^ len.
Proof. intros. rewrite bits_alt by lia. apply Z.mod_pos_bound. lia. Qed.

(** Reading the field just written. *)
Lemma bits_set_eq v lo len x :
  0 <= lo → 0 <= len → bits (set_bits v lo len x) lo len = x mod 2 ^ len.
Proof.
  intros. rewrite <- Z.land_ones by lia. apply Z.bits_inj'. intros i Hi.
  rewrite testbit_bits, testbit_set_bits, Z.land_spec, Z.testbit_ones by lia.
  replace (lo <=? i + lo) with true by lia.
  replace (0 <=? i) with true by lia. simpl.
  replace (i + lo - lo) with i by lia.
  destruct (Z.ltb_spec i len), (Z.ltb_spec (i + lo) (lo + len)); simpl; try lia;
    by rewrite ?andb_true_r, ?andb_false_r.
Qed.

(** Reading a field disjoint from the one written. *)
Lemma bits_set_ne v lo len x lo' len' :
  0 <= lo → 0 <= len → 0 <= lo' → 0 <= len' →
  lo' + len' <= lo ∨ lo + len <= lo' →
  bits (set_bits v lo len x) lo' len' = bits v lo' len'.
Proof.
  intros. apply Z.bits_inj'. intros i Hi.
  rewrite !testbit_bits, testbit_set_bits by lia.
  destruct (Z.leb_spec 0 i), (Z.ltb_spec i len'); simpl; try done.
  destruct (Z.leb_spec lo (i + lo')), (Z.ltb_spec (i + lo') (lo + len)); simpl; try done.
  lia.
Qed.

Lemma bit_bits v i : 0 <= i → bit v i = (bits v i 1 =? 1).
Proof.
  intros. unfold bit. rewrite bits_alt by lia. change (2 ^ 1) with 2.
  destruct (Z.testbit v i) eqn:E.
  - rewrite Z.testbit_true in E by lia. by rewrite E.
  - rewrite Z.testbit_false in E by lia. by rewrite E.
Qed.

Lemma bit_set_eq v i b : 0 <= i → bit (set_bit v i b) i = b.
Proof.
  intros. unfold bit, set_bit. rewrite testbit_set_bits by lia.
  replace ((i <=? i) && (i <? i + 1)) with true by lia.
  replace (i - i) with 0 by lia. by destruct b.
Qed.

Lemma bit_set_bits_ne v lo len x i :
  0 <= lo → 0 <= len → i < lo ∨ lo + len <= i →
  bit (set_bits v lo len x) i = bit v i.
Proof.
  intros. unfold bit. rewrite testbit_set_bits by lia.
  by replace ((lo <=? i) && (i <? lo + len)) with false by lia.
Qed.

Lemma bit_set_ne v i j b : 0 <= i → i ≠ j → bit (set_bit v i b) j = bit v j.
Proof. intros. apply bit_set_bits_ne; lia. Qed.

(** A word stays a word under field assignment. *)
Lemma lt_pow2_testbit w v :
  0 <= w → 0 <= v < 2 ^ w ↔ 0 <= v ∧ ∀ i, w <= i → Z.testbit v i = false.
Proof.
  intros Hw. split.
  - intros [H0 H1]. split; [done|]. intros i Hi.
    rewrite <- (Z.mod_small v (2 ^ w)) by lia. by apply Z.mod_pow2_bits_high.
  - intros [H0 H]. split; [done|].
    assert (v = v mod 2 ^ w) as ->; [|apply Z.mod_pos_bound; lia].
    apply Z.bits_inj'. intros i Hi. destruct (Z.ltb_spec i w).
    + by rewrite Z.mod_pow2_bits_low.
    + rewrite Z.mod_pow2_bits_high by lia. auto.
Qed.

Lemma set_bits_range w v lo len x :
  0 <= lo → 0 <= len → lo + len <= w → 0 <= v < 2 ^ w →
  0 <= set_bits v lo len x < 2 ^ w.
Proof.
  intros Hlo Hlen Hw Hv. apply lt_pow2_testbit in Hv as [H0 H]; [|lia].
  apply lt_pow2_testbit; [lia|]. split.
  - unfold set_bits. apply Z.lor_nonneg. split.
    + apply Z.ldiff_nonneg. by left.
    + apply Z.shiftl_nonneg, Z.land_nonneg. right. rewrite Z.ones_equiv. lia.
  - intros i Hi. rewrite testbit_set_bits by lia.
    replace ((lo <=? i) && (i <? lo + len)) with false by lia. auto.
Qed.

Lemma set_bit_range w v i b :
  0 <= i < w → 0 <= v < 2 ^ w → 0 <= set_bit v i b < 2 ^ w.
Proof. intros. apply set_bits_range; lia. Qed.

(** Two 32-bit words with the same bits are the same word; the form in which
    equalities between assembled words are proved. *)
Ltac bits_ext :=
  apply Z.bits_inj'; let i := fresh "i" in intros i ?;
  rewrite ?testbit_set_bits by lia.

(** Joining disjoint fields is addition. *)
Lemma lor_add_high a b k : 0 <= k → 0 <= b < 2 ^ k → Z.lor (a * 2 ^ k) b = a * 2 ^ k + b.
Proof.
  intros Hk Hb. rewrite Z.add_nocarry_lxor, Z.lxor_lor; try done.
  all: apply Z.bits_inj'; intros i Hi; rewrite Z.land_spec, Z.bits_0, Z.mul_pow2_bits by lia.
  all: destruct (Z.ltb_spec i k); [by rewrite Z.testbit_neg_r by lia|].
  all: assert (Z.testbit b i = false) as -> by (apply (lt_pow2_testbit k); lia).
  all: apply andb_false_r.
Qed.

(** Masks that keep or clear the low [k] bits. *)
Lemma land_low_mask v k : 0 <= k → Z.land v (2 ^ k - 1) = v mod 2 ^ k.
Proof. intros. rewrite <- Z.land_ones by lia. by rewrite Z.ones_equiv. Qed.

(** [ALIGN_DOWN(addr, boundary)] of include/kernel/mm.h on 32-bit words. *)
Definition align_down (addr boundary : Z) : Z :=
  Z.land addr (u32 (Z.lnot (boundary - 1))).

Lemma align_down_pow2 a k :
  0 <= a < 2 ^ 32 → 0 <= k <= 32 → align_down a (2 ^ k) = a - a mod 2 ^ k.
Proof.
  intros Ha Hk. unfold align_down, wrap.
  assert (a - a mod 2 ^ k = Z.shiftl (Z.shiftr a k) k) as ->.
  { rewrite Z.shiftl_mul_pow2, Z.shiftr_div_pow2 by lia.
    pose proof (Z.div_mod a (2 ^ k) ltac:(lia)). lia. }
  apply Z.bits_inj'. intros i Hi.
  rewrite Z.land_spec, Z.shiftl_spec by lia.
  destruct (Z.ltb_spec i 32).
  - rewrite Z.mod_pow2_bits_low, Z.lnot_spec by lia.
    replace (2 ^ k - 1) with (Z.ones k) by (rewrite Z.ones_equiv; lia).
    rewrite Z.testbit_ones by lia. replace (0 <=? i) with true by lia. simpl.
    destruct (Z.ltb_spec i k); simpl.
    + by rewrite andb_false_r, (Z.testbit_neg_r _ (i - k)) by lia.
    + rewrite andb_true_r, Z.shiftr_spec by lia. f_equal. lia.
  - rewrite Z.mod_pow2_bits_high by lia. rewrite andb_false_r.
    symmetry. destruct (Z.ltb_spec i k); [by rewrite Z.testbit_neg_r by lia|].
    rewrite Z.shiftr_spec by lia.
    apply (lt_pow2_testbit 32); lia.
Qed.

Create Rewrite HintDb bits.
#[export] Hint Rewrite bits_set_eq bits_set_ne bit_set_eq bit_set_ne bit_set_bits_ne
  using lia : bits.
