(* ===== verification/Machine.v ===== *)
(** * The machine under the kernel

    Physical memory, the control register CR3 and the two-level page walk of a
    32-bit x86 processor with 4 MiB pages enabled (CR4.PSE), as
    kernel/init/memory.c:init_paging sets it up.  Memory is byte addressed; the
    kernel reaches it through virtual addresses, so every access is translated.
    CR0.WP is not set by [init_paging]: supervisor accesses ignore the
    read-only bit.  The TLB is not modelled: a translation always walks the
    tables ([map_temp] executes [invlpg] on each entry it writes). *)

From S2P Require Import Prelude Bits.

(** ** Physical memory *)

Abbreviation memory := (gmap Z Z).

Definition load8 (m : memory) (a : Z) : Z := u8 (default 0 (m !! a)).
Definition store8 (m : memory) (a v : Z) : memory := <[a := u8 v]> m.

(** Little-endian words. *)
Definition load32 (m : memory) (a : Z) : Z :=
  load8 m a + 2 ^ 8 * load8 m (a + 1) + 2 ^ 16 * load8 m (a + 2) + 2 ^ 24 * load8 m (a + 3).

Definition store32 (m : memory) (a v : Z) : memory :=
  store8 (store8 (store8 (store8 m a v) (a + 1) (v / 2 ^ 8)) (a + 2) (v / 2 ^ 16))
         (a + 3) (v / 2 ^ 24).

(** Two memories with the same contents. *)
Definition mem_eq (m1 m2 : memory) : Prop := ∀ a, load8 m1 a = load8 m2 a.

#[export] Instance mem_eq_equiv : Equivalence mem_eq.
Proof.
  split; [by intros m a | by intros m1 m2 H a | intros m1 m2 m3 H1 H2 a].
  by rewrite H1, H2.
Qed.

#[export] Instance load32_proper : Proper (mem_eq ==> eq ==> eq) load32.
Proof. intros m1 m2 H a _ <-. unfold load32. by rewrite !H. Qed.

Lemma load8_range m a : 0 <= load8 m a < 256.
Proof. apply (wrap_range 8). lia. Qed.

Lemma load8_store8_eq m a v : load8 (store8 m a v) a = u8 v.
Proof. unfold load8, store8. rewrite lookup_insert_eq. simpl. apply wrap_wrap. Qed.

Lemma load8_store8_ne m a b v : a ≠ b → load8 (store8 m a v) b = load8 m b.
Proof. intros. unfold load8, store8. by rewrite lookup_insert_ne. Qed.

Lemma load8_store8 m a b v :
  load8 (store8 m a v) b = if decide (a = b) then u8 v else load8 m b.
Proof. case_decide; subst; [apply load8_store8_eq | by apply load8_store8_ne]. Qed.

#[export] Instance store8_proper : Proper (mem_eq ==> eq ==> eq ==> mem_eq) store8.
Proof. intros m1 m2 H a _ <- v _ <- b. rewrite !load8_store8. by rewrite H. Qed.

#[export] Instance store32_proper : Proper (mem_eq ==> eq ==> eq ==> mem_eq) store32.
Proof. intros m1 m2 H a _ <- v _ <-. unfold store32. by rewrite H. Qed.

Lemma load32_range m a : 0 <= load32 m a < 2 ^ 32.
Proof.
  unfold load32. pose proof (load8_range m a). pose proof (load8_range m (a + 1)).
  pose proof (load8_range m (a + 2)). pose proof (load8_range m (a + 3)). lia.
Qed.

Lemma load8_store32_ne m a b v :
  b < a ∨ a + 4 <= b → load8 (store32 m a v) b = load8 m b.
Proof. intros. unfold store32. rewrite !load8_store8_ne by lia. done. Qed.

Lemma load32_store32_eq m a v : load32 (store32 m a v) a = u32 v.
Proof.
  unfold load32, store32. rewrite !load8_store8.
  repeat (case_decide; try lia). unfold wrap. zdiv.
Qed.

Lemma load32_store32_ne m a b v :
  b + 4 <= a ∨ a + 4 <= b → load32 (store32 m a v) b = load32 m b.
Proof. intros. unfold load32. rewrite !load8_store32_ne by lia. done. Qed.

Lemma load32_store8_ne m a b v :
  a < b ∨ b + 4 <= a → load32 (store8 m a v) b = load32 m b.
Proof. intros. unfold load32. rewrite !load8_store8_ne by lia. done. Qed.

(** A second store of a word hides the first. *)
Lemma store32_store32 m a v w : store32 (store32 m a v) a w = store32 m a w.
Proof.
  apply map_eq. intros b. unfold store32, store8. rewrite !lookup_insert.
  repeat case_decide; done || lia.
Qed.

(** Stores to disjoint words commute. *)
Lemma store8_store32_comm m a b v w :
  b < a ∨ a + 4 <= b → store8 (store32 m a v) b w = store32 (store8 m b w) a v.
Proof.
  intros. apply map_eq. intros c. unfold store32, store8. rewrite !lookup_insert.
  repeat case_decide; done || lia.
Qed.

Lemma store32_comm m a b v w :
  b + 4 <= a ∨ a + 4 <= b → store32 (store32 m a v) b w = store32 (store32 m b w) a v.
Proof.
  intros. unfold store32 at 1. rewrite !store8_store32_comm by lia. done.
Qed.

(** A block of bytes at consecutive addresses. *)
Fixpoint store_bytes (m : memory) (a : Z) (bs : list Z) : memory :=
  match bs with
  | [] => m
  | b :: bs' => store_bytes (store8 m a b) (a + 1) bs'
  end.

Definition load_bytes (m : memory) (a : Z) (n : nat) : list Z :=
  (λ i, load8 m (a + Z.of_nat i)) <$> seq 0 n.

Lemma load8_store_bytes m a bs b :
  load8 (store_bytes m a bs) b =
    if decide (a <= b < a + Z.of_nat (length bs))
    then u8 (default 0 (bs !! Z.to_nat (b - a))) else load8 m b.
Proof.
  revert m a. induction bs as [|x bs IH]; intros m a; simpl.
  { case_decide; [lia | done]. }
  rewrite IH, load8_store8. repeat case_decide; try lia; subst.
  - replace (Z.to_nat (b - a)) with (S (Z.to_nat (b - (a + 1)))) by lia. done.
  - by replace (Z.to_nat (b - b)) with O by lia.
Qed.

Lemma store_bytes_app m a bs1 bs2 :
  store_bytes m a (bs1 ++ bs2) =
  store_bytes (store_bytes m a bs1) (a + Z.of_nat (length bs1)) bs2.
Proof.
  revert m a. induction bs1 as [|x bs1 IH]; intros m a; simpl; [f_equal; lia|].
  rewrite IH. f_equal; lia.
Qed.

Lemma store_bytes_store32_comm m a b v bs :
  b + Z.of_nat (length bs) <= a ∨ a + 4 <= b →
  store_bytes (store32 m a v) b bs = store32 (store_bytes m b bs) a v.
Proof.
  revert m b. induction bs as [|x bs IH]; intros m b H; simpl in *; [done|].
  rewrite store8_store32_comm by lia. apply IH. lia.
Qed.

Lemma length_load_bytes m a n : length (load_bytes m a n) = n.
Proof. unfold load_bytes. by rewrite length_fmap, length_seq. Qed.

Lemma load_bytes_S m a n : load_bytes m a (S n) = load8 m a :: load_bytes m (a + 1) n.
Proof.
  unfold load_bytes. simpl. f_equal; [f_equal; lia|].
  rewrite <- fmap_S_seq, <- list_fmap_compose. apply list_fmap_ext. intros i x Hx. simpl.
  f_equal. lia.
Qed.

(** ** Processor state and address translation *)

Record machine := Machine {
  phys : memory;
  cr3 : Z
}.

Definition set_phys (m : memory) (c : machine) : machine :=
  {| phys := m; cr3 := cr3 c |}.

(** Fields of an entry (Intel SDM, 32-bit paging). *)
Definition ent_present (e : Z) : bool := bit e 0.
Definition ent_page_size (e : Z) : bool := bit e 7.
Definition ent_frame (e : Z) : Z := bits e 12 20.
(** Frame of a 4 MiB page: bits 22-31, and bits 13-20 as address bits 32-39. *)
Definition ent_large_frame (e : Z) : Z :=
  Z.lor (Z.shiftl (bits e 22 10) 10) (Z.shiftl (bits e 13 8) 20).

Definition pde_addr (c : machine) (va : Z) : Z := 4096 * (cr3 c / 4096) + 4 * (va / 2 ^ 22).
Definition pte_addr (pde va : Z) : Z := 4096 * ent_frame pde + 4 * ((va / 2 ^ 12) mod 1024).

Definition translate (c : machine) (va : Z) : option Z :=
  let pde := load32 (phys c) (pde_addr c va) in
  if ent_present pde then
    if ent_page_size pde then Some (4096 * ent_large_frame pde + va mod 2 ^ 22)
    else
      let pte := load32 (phys c) (pte_addr pde va) in
      if ent_present pte then Some (4096 * ent_frame pte + va mod 2 ^ 12) else None
  else None.

(** The words the walk for [va] reads. *)
Definition walk (c : machine) (va : Z) : list Z :=
  let pde := load32 (phys c) (pde_addr c va) in
  if ent_present pde && negb (ent_page_size pde)
  then [pde_addr c va; pte_addr pde va] else [pde_addr c va].

(** The walk's result depends on those words only. *)
Lemma translate_frame c c' va :
  cr3 c' = cr3 c →
  (∀ w, w ∈ walk c va → load32 (phys c') w = load32 (phys c) w) →
  translate c' va = translate c va ∧ walk c' va = walk c va.
Proof.
  intros Hcr Hw. unfold translate, walk in *.
  assert (pde_addr c' va = pde_addr c va) as Hpa by (unfold pde_addr; by rewrite Hcr).
  rewrite Hpa. set (pa := pde_addr c va) in *.
  destruct (ent_present (load32 (phys c) pa)) eqn:Hp; simpl in Hw;
    [destruct (ent_page_size (load32 (phys c) pa)) eqn:Hs; simpl in Hw|];
    rewrite (Hw pa) by set_solver; rewrite Hp, ?Hs; simpl; try done.
  by rewrite (Hw (pte_addr _ _)) by set_solver.
Qed.

(** ** Accesses through virtual addresses *)

Definition vload8 (va : Z) : M machine Z := λ c,
  match translate c va with
  | Some pa => Ret (load8 (phys c) pa) c
  | None => Fault PageFault
  end.

Definition vstore8 (va v : Z) : M machine unit := λ c,
  match translate c va with
  | Some pa => Ret tt (set_phys (store8 (phys c) pa v) c)
  | None => Fault PageFault
  end.

(** Word accesses of the kernel's page map entries are aligned, so that a word
    lies in one page and is translated once. *)
Definition vload32 (va : Z) : M machine Z := λ c,
  match translate c va with
  | Some pa => Ret (load32 (phys c) pa) c
  | None => Fault PageFault
  end.

Definition vstore32 (va v : Z) : M machine unit := λ c,
  match translate c va with
  | Some pa => Ret tt (set_phys (store32 (phys c) pa v) c)
  | None => Fault PageFault
  end.

(** Accesses to structures at arbitrary addresses, byte by byte. *)
Definition uload16 (va : Z) : M machine Z :=
  let* b0 := vload8 va in
  let* b1 := vload8 (u32 (va + 1)) in
  ret (b0 + 256 * b1).

Definition uload32 (va : Z) : M machine Z :=
  let* h0 := uload16 va in
  let* h1 := uload16 (u32 (va + 2)) in
  ret (h0 + 65536 * h1).

Definition ustore16 (va v : Z) : M machine unit :=
  vstore8 va (u8 v) ;;
  vstore8 (u32 (va + 1)) (u8 (v / 256)).

Definition ustore32 (va v : Z) : M machine unit :=
  ustore16 va (u16 v) ;;
  ustore16 (u32 (va + 2)) (u16 (v / 65536)).

Lemma wp_vload8 va pa Q L c :
  translate c va = Some pa → Q (load8 (phys c) pa) c → wp (vload8 va) Q L c.
Proof. unfold wp, vload8. by intros ->. Qed.

Lemma wp_vstore8 va v pa (Q : unit → machine → Prop) L c :
  translate c va = Some pa → Q tt (set_phys (store8 (phys c) pa v) c) →
  wp (vstore8 va v) Q L c.
Proof. unfold wp, vstore8. by intros ->. Qed.

Lemma wp_vload32 va pa Q L c :
  translate c va = Some pa → Q (load32 (phys c) pa) c → wp (vload32 va) Q L c.
Proof. unfold wp, vload32. by intros ->. Qed.

Lemma wp_vstore32 va v pa (Q : unit → machine → Prop) L c :
  translate c va = Some pa → Q tt (set_phys (store32 (phys c) pa v) c) →
  wp (vstore32 va v) Q L c.
Proof. unfold wp, vstore32. by intros ->. Qed.
