(* ===== verification/Paging.v ===== *)
(** * Paging: kernel/paging.c, include/kernel/paging.h, kernel/mem.c

    The kernel reaches physical frames through a temporary mapping window at
    [KERNEL_TEMP_START], whose page table it edits through the recursive
    page-directory entry 1023.  This file translates the page-map data layout
    and the operations of kernel/paging.c; PagingFacts.v proves them correct
    over the page walk of Machine.v. *)

From S2P Require Import Prelude Bits Machine.

(** ** Return codes (include/kernel/error.h) *)

Definition E_DONE : Z := 1.
Definition E_OK : Z := 0.
Definition E_FAIL : Z := -1.
Definition E_INVALID_ARG : Z := -2.
Definition E_NOT_MAPPED : Z := -3.
Definition E_OVERWRITE : Z := -4.
Definition E_BOUNDS : Z := -5.
Definition E_PERM : Z := -6.
Definition E_BLOCK : Z := -7.
Definition E_UNREACH : Z := -8.
Definition E_INTERRUPT : Z := -9.
Definition E_PREEMPT : Z := -10.

Definition is_error (x : Z) : bool := x <? 0.

(** ** Address arithmetic (include/kernel/paging.h, mm.h) *)

Definition PAGE_SIZE : Z := 0x1000.
Definition PAGE_TABLE_SIZE : Z := 0x400000.
Definition KERNEL_RECURSIVE_PDE : Z := 1023.
(** [kvirt_start] of kernel/link.ld. *)
Definition KERNEL_VSTART : Z := 0xFEC00000.
Definition KERNEL_TEMP_START : Z := 0xFF991000.
Definition KERNEL_TEMP_END : Z := 0xFFC00000.
Definition CURRENT_ROOT_PMAP : Z := 0xFFFFFFFF.
Definition CR3_BASE_MASK : Z := 0xFFFFF000.

Definition PDE_INDEX (a : Z) : Z := Z.land (Z.shiftr a 22) 0x3FF.
Definition PTE_INDEX (a : Z) : Z := Z.land (Z.shiftr a 12) 0x3FF.
Definition PAGE_OFFSET (a : Z) : Z := Z.land a (PAGE_SIZE - 1).

Definition NDX_TO_VADDR (pde pte offset : Z) : Z :=
  Z.lor (Z.lor (Z.shiftl (Z.land pde 0x3FF) 22) (Z.shiftl (Z.land pte 0x3FF) 12))
        (Z.shiftl (Z.land offset 0x3FF) 2).

Definition PTE (recursive_index vaddr : Z) : Z :=
  Z.lor (u32 (Z.shiftl recursive_index 22)) (Z.shiftr vaddr 10).
Definition CURRENT_PTE (vaddr : Z) : Z := PTE KERNEL_RECURSIVE_PDE vaddr.

Definition PBASE_TO_PADDR (frame : Z) : Z := u32 (Z.shiftl frame 12).
Definition PADDR_TO_PBASE (addr : Z) : Z := Z.shiftr addr 12.

(** ** Page map entries

    [pte_t], [pde_t] and [large_pde_t] are views of one 32-bit word
    ([pmap_entry_t] is their union), so an entry is that word and a field is an
    accessor on it. *)

Definition pte_is_present (v : Z) : bool := bit v 0.
Definition pte_is_read_write (v : Z) : bool := bit v 1.
Definition pte_is_user (v : Z) : bool := bit v 2.
Definition pte_pwt (v : Z) : bool := bit v 3.
Definition pte_pcd (v : Z) : bool := bit v 4.
Definition pte_accessed (v : Z) : bool := bit v 5.
Definition pte_dirty (v : Z) : bool := bit v 6.
Definition pte_available (v : Z) : Z := bits v 10 2.
Definition pte_base (v : Z) : Z := bits v 12 20.
Definition PTE_BASE (v : Z) : Z := u32 (Z.shiftl (pte_base v) 12).

Definition pte_set_is_present (v : Z) (b : bool) : Z := set_bit v 0 b.
Definition pte_set_is_read_write (v : Z) (b : bool) : Z := set_bit v 1 b.
Definition pte_set_is_user (v : Z) (b : bool) : Z := set_bit v 2 b.
Definition pte_set_base (v x : Z) : Z := set_bits v 12 20 x.

Definition pde_is_present (v : Z) : bool := bit v 0.
Definition pde_is_read_write (v : Z) : bool := bit v 1.
Definition pde_is_user (v : Z) : bool := bit v 2.
Definition pde_pwt (v : Z) : bool := bit v 3.
Definition pde_pcd (v : Z) : bool := bit v 4.
Definition pde_accessed (v : Z) : bool := bit v 5.
Definition pde_available2 (v : Z) : bool := bit v 6.
Definition pde_is_page_sized (v : Z) : bool := bit v 7.
Definition pde_available (v : Z) : Z := bits v 8 1.
Definition pde_base (v : Z) : Z := bits v 12 20.
Definition PDE_BASE (v : Z) : Z := u32 (Z.shiftl (pde_base v) 12).

Definition pde_set_is_present (v : Z) (b : bool) : Z := set_bit v 0 b.
Definition pde_set_is_read_write (v : Z) (b : bool) : Z := set_bit v 1 b.
Definition pde_set_base (v x : Z) : Z := set_bits v 12 20 x.

Definition large_pde_dirty (v : Z) : bool := bit v 6.
Definition large_pde_available (v : Z) : Z := bits v 10 2.
Definition large_pde_base_upper (v : Z) : Z := bits v 13 8.
Definition large_pde_base_lower (v : Z) : Z := bits v 22 10.

Definition get_pde_frame_number (pde : Z) : Z :=
  if pde_is_page_sized pde
  then Z.lor (u32 (Z.shiftl (large_pde_base_lower pde) 10))
             (u32 (Z.shiftl (large_pde_base_upper pde) 20))
  else pde_base pde.

Definition set_large_pde_base (large_pde pframe : Z) : Z :=
  set_bits (set_bits large_pde 22 10 (Z.land (Z.shiftr pframe 10) 0x3FF))
           13 8 (Z.land (Z.shiftr pframe 20) 0xFF).

(** ** Block operations on virtual memory (kernel/mem.c) *)

Fixpoint fill8 (n : nat) (p v : Z) : M machine unit :=
  match n with
  | O => ret tt
  | S n => vstore8 p v ;; fill8 n (u32 (p + 1)) v
  end.

Fixpoint fill32 (n : nat) (p v : Z) : M machine unit :=
  match n with
  | O => ret tt
  | S n => vstore32 p v ;; fill32 n (u32 (p + 4)) v
  end.

(** [while(len && p % 4) { *p++ = 0; len--; }]: at most three iterations. *)
Fixpoint memset_head (fuel : nat) (p len : Z) : M machine (Z * Z) :=
  match fuel with
  | O => ret (p, len)
  | S fuel =>
      if negb (len =? 0) && negb (p mod 4 =? 0)
      then vstore8 p 0 ;; memset_head fuel (u32 (p + 1)) (len - 1)
      else ret (p, len)
  end.

Definition memset (ptr value len : Z) : M machine unit :=
  if negb (u8 value =? 0) then fill8 (Z.to_nat len) ptr (u8 value)
  else
    let* '(p, len) := memset_head 4 ptr len in
    when (negb (len =? 0)) (fill32 (Z.to_nat (len / 4)) p 0) ;;
    let p := u32 (p + (len - len mod 4)) in
    fill8 (Z.to_nat (len mod 4)) p 0.

Fixpoint memcpy_loop (num : nat) (d s : Z) : M machine unit :=
  match num with
  | O => ret tt
  | S num =>
      let* b := vload8 s in
      vstore8 d b ;;
      memcpy_loop num (u32 (d + 1)) (u32 (s + 1))
  end.

Definition memcpy (dest src num : Z) : M machine unit :=
  memcpy_loop (Z.to_nat num) dest src.

(** ** The temporary mapping window *)

Definition get_root_page_map : M machine Z := gets (λ c, Z.land (cr3 c) CR3_BASE_MASK).

(** [invlpg]; see Machine.v for the TLB. *)
Definition invalidate_page (virt : Z) : M machine unit := ret tt.

(** A bit-field assignment through a pointer. *)
Definition pte_update (pte : Z) (f : Z → Z) : M machine unit :=
  let* v := vload32 pte in vstore32 pte (f v).

Fixpoint map_temp_loop (n : nat) (i addr paddr pte : Z) : M machine Z :=
  match n with
  | O => ret i
  | S n =>
      if addr <? KERNEL_TEMP_END then
        vstore32 pte 0 ;;
        pte_update pte (λ v, pte_set_base v (PADDR_TO_PBASE paddr)) ;;
        pte_update pte (λ v, pte_set_is_read_write v true) ;;
        pte_update pte (λ v, pte_set_is_present v true) ;;
        invalidate_page addr ;;
        map_temp_loop n (i + 1) (u32 (addr + PAGE_SIZE)) (u32 (paddr + PAGE_SIZE)) (u32 (pte + 4))
      else ret i
  end.

Definition map_temp (virt base count : Z) : M machine Z :=
  let addr := align_down virt PAGE_SIZE in
  let paddr := align_down base PAGE_SIZE in
  let pte := CURRENT_PTE addr in
  if addr <? KERNEL_TEMP_START then ret 0
  else map_temp_loop (Z.to_nat count) 0 addr paddr pte.

Fixpoint unmap_temp_loop (n : nat) (i addr pte : Z) : M machine Z :=
  match n with
  | O => ret i
  | S n =>
      if addr <? KERNEL_TEMP_END then
        vstore32 pte 0 ;;
        unmap_temp_loop n (i + 1) (u32 (addr + PAGE_SIZE)) (u32 (pte + 4))
      else ret i
  end.

Definition unmap_temp (virt count : Z) : M machine Z :=
  let addr := align_down virt PAGE_SIZE in
  let pte := CURRENT_PTE addr in
  if addr <? KERNEL_TEMP_START then ret 0
  else unmap_temp_loop (Z.to_nat count) 0 addr pte.

Definition clear_phys_frames_with_start (virt phys count : Z) : M machine Z :=
  let* total_pages := map_temp virt phys count in
  memset virt 0 (u32 (total_pages * PAGE_SIZE)) ;;
  let* _ := unmap_temp virt total_pages in
  ret total_pages.

Definition clear_phys_frames (phys count : Z) : M machine Z :=
  clear_phys_frames_with_start KERNEL_TEMP_START phys count.

(** ** Page map entries of any address space

    The entry read is returned as [Some]; [None] is the [E_FAIL] return, after
    which no caller looks at the buffer. *)

Definition read_pmap_entry (pbase entry : Z) : M machine (option Z) :=
  kassert (entry <? 1024) ;;
  let* root := get_root_page_map in
  let pbase := if pbase =? CURRENT_ROOT_PMAP then root else pbase in
  let* n := map_temp KERNEL_TEMP_START pbase 1 in
  if n <? 1 then ret None
  else
    let* v := vload32 (u32 (KERNEL_TEMP_START + 4 * entry)) in
    let* n := unmap_temp KERNEL_TEMP_START 1 in
    if negb (n =? 1) then ret None else ret (Some v).

Definition write_pmap_entry (pbase entry buffer : Z) : M machine Z :=
  kassert (entry <? 1024) ;;
  let* root := get_root_page_map in
  let pbase := if pbase =? CURRENT_ROOT_PMAP then root else pbase in
  let* n := map_temp KERNEL_TEMP_START pbase 1 in
  if n <? 1 then ret E_FAIL
  else
    vstore32 (u32 (KERNEL_TEMP_START + 4 * entry)) buffer ;;
    let* n := unmap_temp KERNEL_TEMP_START 1 in
    if negb (n =? 1) then ret E_FAIL else ret E_OK.

Definition read_pde (entry_num page_dir : Z) : M machine (option Z) :=
  read_pmap_entry page_dir entry_num.
Definition write_pde (entry_num pde page_dir : Z) : M machine Z :=
  write_pmap_entry page_dir entry_num pde.
Definition read_pte (entry_num page_table : Z) : M machine (option Z) :=
  read_pmap_entry page_table entry_num.
Definition write_pte (entry_num pte page_table : Z) : M machine Z :=
  write_pmap_entry page_table entry_num pte.

(** ** Physical memory

    The loop consumes at least one byte per iteration: [len + 1] iterations
    are enough fuel. *)

Fixpoint access_phys_loop (fuel : nat) (phys buffer buffer_offset len : Z) (read_phys : bool)
    : M machine Z :=
  match fuel with
  | O => fail OutOfFuel
  | S fuel =>
      if len =? 0 then ret E_OK
      else
        let* n := map_temp KERNEL_TEMP_START phys 1 in
        if n <? 1 then ret E_FAIL
        else
          let phys_offset := PAGE_OFFSET phys in
          let bytes := if PAGE_SIZE - phys_offset <? len then PAGE_SIZE - phys_offset else len in
          (if read_phys
           then memcpy (u32 (buffer + buffer_offset)) (KERNEL_TEMP_START + phys_offset) bytes
           else memcpy (KERNEL_TEMP_START + phys_offset) (u32 (buffer + buffer_offset)) bytes) ;;
          let* n := unmap_temp KERNEL_TEMP_START 1 in
          if n <? 1 then ret E_FAIL
          else access_phys_loop fuel (u32 (phys + bytes)) buffer (u32 (buffer_offset + bytes))
                 (len - bytes) read_phys
  end.

Definition access_phys (phys buffer len : Z) (read_phys : bool) : M machine Z :=
  if len =? 0 then ret E_FAIL
  else access_phys_loop (S (Z.to_nat len)) phys buffer 0 len read_phys.

Definition poke (phys buffer bytes : Z) : M machine Z := access_phys phys buffer bytes false.
Definition peek (phys buffer bytes : Z) : M machine Z := access_phys phys buffer bytes true.

(** ** Address spaces *)

(** [local_pde] is the address of the local variable [pde], which the function
    passes to [poke]. *)
Definition initialize_root_pmap (local_pde : Z) (pmap : Z) : M machine Z :=
  let vaddr := NDX_TO_VADDR KERNEL_RECURSIVE_PDE KERNEL_RECURSIVE_PDE (PDE_INDEX KERNEL_VSTART) in
  let vaddr_end := NDX_TO_VADDR KERNEL_RECURSIVE_PDE KERNEL_RECURSIVE_PDE (PDE_INDEX KERNEL_TEMP_END) in
  let pde := pde_set_is_present (pde_set_is_read_write (pde_set_base 0 (PADDR_TO_PBASE pmap)) true) true in
  vstore32 local_pde pde ;;
  let* r := poke (u32 (pmap + 4 * PDE_INDEX KERNEL_VSTART)) vaddr (vaddr_end - vaddr) in
  if is_error r then ret E_FAIL
  else
    let* r := poke (u32 (pmap + 4 * KERNEL_RECURSIVE_PDE)) local_pde 4 in
    if is_error r then ret E_FAIL else ret E_OK.

Definition is_accessible (addr pdir : Z) (is_read : bool) : M machine Z :=
  let* o := read_pde (PDE_INDEX addr) pdir in
  match o with
  | None => ret E_FAIL
  | Some pde =>
      if pde_is_page_sized pde then
        ret (if pde_is_present pde && (is_read || pde_is_read_write pde) then 1 else 0)
      else
        let* o := read_pte (PTE_INDEX addr) (PBASE_TO_PADDR (get_pde_frame_number pde)) in
        match o with
        | None => ret E_FAIL
        | Some pte => ret (if pte_is_present pte && (is_read || pte_is_read_write pte) then 1 else 0)
        end
  end.

Definition is_readable (addr pdir : Z) : M machine Z := is_accessible addr pdir true.
Definition is_writable (addr pdir : Z) : M machine Z := is_accessible addr pdir false.

(** The page lookup of one iteration of [access_mem]: the base address of the
    frame, or the error to return. *)
Definition access_mem_base (address pdir : Z) : M machine (Z + Z) :=
  let* o := read_pde (PDE_INDEX address) pdir in
  match o with
  | None => ret (inr E_FAIL)
  | Some pde =>
      if pde_is_present pde then
        if pde_is_page_sized pde then ret (inl (PBASE_TO_PADDR (get_pde_frame_number pde)))
        else
          let* o := read_pte (PTE_INDEX address) (PBASE_TO_PADDR (pde_base pde)) in
          match o with
          | None => ret (inr E_FAIL)
          | Some pte => if pte_is_present pte then ret (inl (PTE_BASE pte)) else ret (inr E_NOT_MAPPED)
          end
      else ret (inr E_NOT_MAPPED)
  end.

Fixpoint access_mem_loop (fuel : nat) (address len buffer buffer_offset pdir : Z) (read : bool)
    : M machine Z :=
  match fuel with
  | O => fail OutOfFuel
  | S fuel =>
      if len =? 0 then ret E_OK
      else
        let addr_offset := Z.land address (PAGE_SIZE - 1) in
        let bytes := if PAGE_SIZE - addr_offset <? len then PAGE_SIZE - addr_offset else len in
        let* b := access_mem_base address pdir in
        match b with
        | inr e => ret e
        | inl base_address =>
            let* r := (if read then peek else poke)
                        (u32 (base_address + addr_offset)) (u32 (buffer + buffer_offset)) bytes in
            if is_error r then ret E_FAIL
            else access_mem_loop fuel (u32 (address + bytes)) (len - bytes) buffer
                   (u32 (buffer_offset + bytes)) pdir read
        end
  end.

Definition access_mem (address len buffer pdir : Z) (read : bool) : M machine Z :=
  kassert (negb (address =? 0)) ;;
  access_mem_loop (S (Z.to_nat len)) address len buffer 0 pdir read.

Definition poke_virt (address len buffer pdir : Z) : M machine Z :=
  let* root := get_root_page_map in
  if (pdir =? root) || (pdir =? CURRENT_ROOT_PMAP)
  then memcpy address buffer len ;; ret E_OK
  else access_mem address len buffer pdir false.

Definition peek_virt (address len buffer pdir : Z) : M machine Z :=
  let* root := get_root_page_map in
  if (pdir =? root) || (pdir =? CURRENT_ROOT_PMAP)
  then memcpy buffer address len ;; ret E_OK
  else access_mem address len buffer pdir true.
