(* ===== verification/PagingFacts.v ===== *)
(** * Correctness of the paging operations

    [kmap c kt] is the invariant of an address space in which the kernel can
    run: entry 1023 of the current page directory maps the directory itself,
    and entry 1022 maps the page table (in frame [kt]) of the temporary window.
    Under it, editing the table through the recursive mapping does what the
    comments of kernel/paging.c say: a window page translates to the frame
    asked for, page-map entries of any address space are read and written in
    place, and blocks of physical memory are copied byte for byte. *)

From S2P Require Import Prelude Bits Machine Paging.

(** ** Address arithmetic, as division and remainder *)

Lemma PDE_INDEX_alt a : 0 <= a < 2 ^ 32 → PDE_INDEX a = a / 2 ^ 22.
Proof.
  intros. unfold PDE_INDEX. change 0x3FF with (2 ^ 10 - 1).
  rewrite land_low_mask, Z.shiftr_div_pow2 by lia. zdiv.
Qed.

Lemma PTE_INDEX_alt a : 0 <= a → PTE_INDEX a = (a / 2 ^ 12) mod 1024.
Proof.
  intros. unfold PTE_INDEX. change 0x3FF with (2 ^ 10 - 1).
  by rewrite land_low_mask, Z.shiftr_div_pow2 by lia.
Qed.

Lemma PAGE_OFFSET_alt a : PAGE_OFFSET a = a mod 4096.
Proof. unfold PAGE_OFFSET, PAGE_SIZE. change (0x1000 - 1) with (2 ^ 12 - 1). by apply land_low_mask. Qed.

Lemma align_down_page a : 0 <= a < 2 ^ 32 → align_down a PAGE_SIZE = 4096 * (a / 4096).
Proof.
  intros. change PAGE_SIZE with (2 ^ 12). rewrite align_down_pow2 by lia.
  change (2 ^ 12) with 4096. zdiv.
Qed.

Lemma CURRENT_PTE_alt va : 0 <= va < 2 ^ 32 → CURRENT_PTE va = 0xFFC00000 + va / 1024.
Proof.
  intros. unfold CURRENT_PTE, PTE, KERNEL_RECURSIVE_PDE.
  change (u32 (Z.shiftl 1023 22)) with (1023 * 2 ^ 22).
  rewrite Z.shiftr_div_pow2 by lia. change (2 ^ 10) with 1024.
  rewrite lor_add_high; [done | lia | zdiv].
Qed.

Lemma land_base_mask a : 0 <= a < 2 ^ 32 → Z.land a CR3_BASE_MASK = 4096 * (a / 4096).
Proof. intros. by rewrite <- align_down_page by lia. Qed.

Lemma PBASE_TO_PADDR_alt f : 0 <= f < 2 ^ 20 → PBASE_TO_PADDR f = 4096 * f.
Proof.
  intros. unfold PBASE_TO_PADDR. rewrite Z.shiftl_mul_pow2 by lia.
  rewrite wrap_small by lia. lia.
Qed.

(** ** The kernel's part of an address space *)

Record kmap (c : machine) (kt : Z) : Prop := {
  kmap_cr3 : 0 <= cr3 c < 2 ^ 32;
  kmap_rec_present : ent_present (load32 (phys c) (4096 * (cr3 c / 4096) + 4092)) = true;
  kmap_rec_small : ent_page_size (load32 (phys c) (4096 * (cr3 c / 4096) + 4092)) = false;
  kmap_rec_frame : ent_frame (load32 (phys c) (4096 * (cr3 c / 4096) + 4092)) = cr3 c / 4096;
  kmap_temp_present : ent_present (load32 (phys c) (4096 * (cr3 c / 4096) + 4088)) = true;
  kmap_temp_small : ent_page_size (load32 (phys c) (4096 * (cr3 c / 4096) + 4088)) = false;
  kmap_temp_frame : ent_frame (load32 (phys c) (4096 * (cr3 c / 4096) + 4088)) = kt;
  kmap_distinct : kt ≠ cr3 c / 4096
}.

(** Physical address of the table entry of a window page. *)
Definition slot (kt va : Z) : Z := 4096 * kt + 4 * ((va / 4096) mod 1024).

(** The entry of the first window page, the one single-page accesses use. *)
Definition slot0 (kt : Z) : Z := 4096 * kt + 4 * 0x191.

(** [kmap] rests on the last two directory entries only. *)
Lemma kmap_frame c kt m' :
  kmap c kt →
  load32 m' (4096 * (cr3 c / 4096) + 4092) = load32 (phys c) (4096 * (cr3 c / 4096) + 4092) →
  load32 m' (4096 * (cr3 c / 4096) + 4088) = load32 (phys c) (4096 * (cr3 c / 4096) + 4088) →
  kmap (set_phys m' c) kt.
Proof. intros [] E1 E2. split; simpl; rewrite ?E1, ?E2; done. Qed.

Lemma kmap_frame_slot c kt va v :
  kmap c kt → kmap (set_phys (store32 (phys c) (slot kt va) v) c) kt.
Proof.
  intros K. pose proof (kmap_distinct _ _ K). unfold slot.
  apply kmap_frame; [done | |]; apply load32_store32_ne; zdiv.
Qed.

Definition in_window (va : Z) : Prop := 0xFF800000 <= va < KERNEL_TEMP_END.

(** The recursive mapping: [CURRENT_PTE] of a window page is the address of the
    entry that maps it. *)
Lemma translate_current_pte c kt va :
  kmap c kt → in_window va → va mod 4096 = 0 →
  translate c (CURRENT_PTE va) = Some (slot kt va).
Proof.
  intros [Hcr R1 R2 R3 T1 T2 T3 D] Hw Ha. unfold in_window, KERNEL_TEMP_END in Hw.
  rewrite CURRENT_PTE_alt by lia.
  unfold translate, pde_addr.
  replace (4 * ((0xFFC00000 + va / 1024) / 2 ^ 22)) with 4092 by zdiv.
  rewrite R1, R2. unfold pte_addr. rewrite R3.
  replace (4 * (((0xFFC00000 + va / 1024) / 2 ^ 12) mod 1024)) with 4088 by zdiv.
  rewrite T1, T3. unfold slot. f_equal. zdiv.
Qed.

(** Stores to a slot are invisible to the walk for [CURRENT_PTE]. *)
Lemma wp_vstore32_slot c kt va v (Q : unit → machine → Prop) L :
  kmap c kt → in_window va → va mod 4096 = 0 →
  Q tt (set_phys (store32 (phys c) (slot kt va) v) c) →
  wp (vstore32 (CURRENT_PTE va) v) Q L c.
Proof. intros K Hw Ha HQ. eapply wp_vstore32; [by eapply translate_current_pte | done]. Qed.

Lemma wp_pte_update_slot c kt va v f (Q : unit → machine → Prop) L :
  let c1 := set_phys (store32 (phys c) (slot kt va) v) c in
  kmap c kt → in_window va → va mod 4096 = 0 →
  Q tt (set_phys (store32 (phys c) (slot kt va) (f (u32 v))) c) →
  wp (pte_update (CURRENT_PTE va) f) Q L c1.
Proof.
  intros c1 K Hw Ha HQ. unfold pte_update. wp_step.
  assert (kmap c1 kt) as K1 by by apply kmap_frame_slot.
  eapply wp_vload32; [by eapply translate_current_pte|].
  eapply wp_vstore32; [by eapply translate_current_pte|].
  unfold c1, set_phys. simpl. rewrite load32_store32_eq, store32_store32. done.
Qed.

(** The entry [map_temp] leaves in a slot. *)
Definition temp_pte (paddr : Z) : Z :=
  pte_set_is_present (pte_set_is_read_write (pte_set_base 0 (PADDR_TO_PBASE paddr)) true) true.

Lemma temp_pte_range p : 0 <= temp_pte p < 2 ^ 32.
Proof. unfold temp_pte. repeat (apply set_bit_range; [lia|]). apply set_bits_range; lia. Qed.

(** The four assignments of the loop body, each through a 32-bit store. *)
Lemma temp_pte_steps p :
  pte_set_is_present (u32 (pte_set_is_read_write (u32 (pte_set_base (u32 0)
    (PADDR_TO_PBASE p))) true)) true = temp_pte p.
Proof.
  unfold temp_pte. change (u32 0) with 0.
  rewrite (wrap_small 32 (pte_set_base _ _)) by (apply set_bits_range; lia).
  rewrite wrap_small; [done|]. apply set_bit_range; [lia|]. apply set_bits_range; lia.
Qed.

Lemma temp_pte_present p : ent_present (temp_pte p) = true.
Proof. apply bit_set_eq. lia. Qed.

Lemma temp_pte_frame p : 0 <= p < 2 ^ 32 → ent_frame (temp_pte p) = p / 4096.
Proof.
  intros. unfold ent_frame, temp_pte, pte_set_is_present, pte_set_is_read_write, set_bit.
  rewrite !bits_set_ne by lia. unfold pte_set_base. rewrite bits_set_eq by lia.
  unfold PADDR_TO_PBASE. rewrite Z.shiftr_div_pow2 by lia. zdiv.
Qed.

(** Entries of [k] consecutive window pages from [va], mapped to consecutive
    frames from [paddr]. *)
Fixpoint map_slots (m : memory) (kt va paddr : Z) (k : nat) : memory :=
  match k with
  | O => m
  | S k => map_slots (store32 m (slot kt va) (temp_pte paddr)) kt (va + 4096) (u32 (paddr + 4096)) k
  end.

Fixpoint unmap_slots (m : memory) (kt va : Z) (k : nat) : memory :=
  match k with
  | O => m
  | S k => unmap_slots (store32 m (slot kt va) 0) kt (va + 4096) k
  end.

(** Number of pages of a request for [n] pages at [va] that fit the window. *)
Definition window_pages (va : Z) (n : nat) : nat := n `min` Z.to_nat ((KERNEL_TEMP_END - va) / 4096).

Lemma CURRENT_PTE_next va :
  in_window va → va mod 4096 = 0 → u32 (CURRENT_PTE va + 4) = CURRENT_PTE (u32 (va + 4096)).
Proof.
  intros Hw Ha. unfold in_window, KERNEL_TEMP_END in Hw.
  rewrite !CURRENT_PTE_alt by (apply wrap_range || lia; lia).
  rewrite !wrap_small; zdiv.
Qed.

Lemma map_temp_loop_spec n : ∀ c kt i va paddr Q L,
  kmap c kt → in_window va ∨ va = KERNEL_TEMP_END → va mod 4096 = 0 →
  Q (i + Z.of_nat (window_pages va n))
    (set_phys (map_slots (phys c) kt va paddr (window_pages va n)) c) →
  wp (map_temp_loop n i va paddr (CURRENT_PTE va)) Q L c.
Proof.
  induction n as [|n IH]; intros c kt i va paddr Q L K Hw Ha HQ; simpl.
  { apply wp_ret. unfold window_pages in HQ. simpl in HQ. rewrite Z.add_0_r in HQ.
    by destruct c. }
  destruct (Z.ltb_spec va KERNEL_TEMP_END) as [Hlt|Hge]; cycle 1.
  { apply wp_ret. unfold window_pages in HQ.
    replace (_ `min` _)%nat with O in HQ by (destruct Hw; unfold in_window in *; zdiv).
    simpl in HQ. rewrite Z.add_0_r in HQ. by destruct c. }
  assert (in_window va) as Hin by (destruct Hw; [done | unfold in_window in *; lia]).
  assert (window_pages va (S n) = S (window_pages (va + 4096) n)) as Hwp.
  { unfold window_pages, in_window, KERNEL_TEMP_END in *. zdiv. }
  wp_step. eapply wp_vstore32_slot; [done..|].
  do 3 (wp_step; eapply wp_pte_update_slot; [done..|]).
  wp_step. apply wp_ret. cbn beta.
  rewrite CURRENT_PTE_next by done.
  assert (u32 (va + PAGE_SIZE) = va + 4096) as Hnext.
  { unfold in_window, KERNEL_TEMP_END, PAGE_SIZE in *. rewrite wrap_small; lia. }
  rewrite Hnext. replace (u32 (va + 4096)) with (va + 4096) by (symmetry; apply Hnext).
  rewrite temp_pte_steps.
  eapply IH; [by apply kmap_frame_slot | | zdiv |].
  { unfold in_window, KERNEL_TEMP_END in *. zdiv. }
  rewrite Hwp in HQ. simpl in HQ. unfold set_phys in *. simpl in *.
  replace (i + 1 + Z.of_nat (window_pages (va + 4096) n))
    with (i + Z.of_nat (S (window_pages (va + 4096) n))) by lia.
  exact HQ.
Qed.

Lemma unmap_temp_loop_spec n : ∀ c kt i va Q L,
  kmap c kt → in_window va ∨ va = KERNEL_TEMP_END → va mod 4096 = 0 →
  Q (i + Z.of_nat (window_pages va n))
    (set_phys (unmap_slots (phys c) kt va (window_pages va n)) c) →
  wp (unmap_temp_loop n i va (CURRENT_PTE va)) Q L c.
Proof.
  induction n as [|n IH]; intros c kt i va Q L K Hw Ha HQ; simpl.
  { apply wp_ret. unfold window_pages in HQ. simpl in HQ. rewrite Z.add_0_r in HQ.
    by destruct c. }
  destruct (Z.ltb_spec va KERNEL_TEMP_END) as [Hlt|Hge]; cycle 1.
  { apply wp_ret. unfold window_pages in HQ.
    replace (_ `min` _)%nat with O in HQ by (destruct Hw; unfold in_window in *; zdiv).
    simpl in HQ. rewrite Z.add_0_r in HQ. by destruct c. }
  assert (in_window va) as Hin by (destruct Hw; [done | unfold in_window in *; lia]).
  assert (window_pages va (S n) = S (window_pages (va + 4096) n)) as Hwp.
  { unfold window_pages, in_window, KERNEL_TEMP_END in *. zdiv. }
  wp_step. eapply wp_vstore32_slot; [done..|].
  rewrite CURRENT_PTE_next by done.
  assert (u32 (va + PAGE_SIZE) = va + 4096) as Hnext.
  { unfold in_window, KERNEL_TEMP_END, PAGE_SIZE in *. rewrite wrap_small; lia. }
  rewrite Hnext. replace (u32 (va + 4096)) with (va + 4096) by (symmetry; apply Hnext).
  eapply IH; [by apply kmap_frame_slot | | zdiv |].
  { unfold in_window, KERNEL_TEMP_END in *. zdiv. }
  rewrite Hwp in HQ. simpl in HQ. unfold set_phys in *. simpl in *.
  replace (i + 1 + Z.of_nat (window_pages (va + 4096) n))
    with (i + Z.of_nat (S (window_pages (va + 4096) n))) by lia.
  exact HQ.
Qed.

(** ** Translation of window addresses *)

Lemma translate_window c kt va :
  kmap c kt → in_window va →
  translate c va =
    let pte := load32 (phys c) (slot kt va) in
    if ent_present pte then Some (4096 * ent_frame pte + va mod 4096) else None.
Proof.
  intros [Hcr R1 R2 R3 T1 T2 T3 D] Hw. unfold in_window, KERNEL_TEMP_END in Hw.
  unfold translate, pde_addr.
  replace (4 * (va / 2 ^ 22)) with 4088 by zdiv.
  rewrite T1, T2. unfold pte_addr. rewrite T3. done.
Qed.

Lemma slot_inj kt va va' :
  in_window va → in_window va' → va / 4096 ≠ va' / 4096 →
  slot kt va + 4 <= slot kt va' ∨ slot kt va' + 4 <= slot kt va.
Proof. unfold in_window, KERNEL_TEMP_END, slot. zdiv. Qed.

(** Entries of pages after the block are not touched... *)
Lemma map_slots_before kt k : ∀ m va p a,
  in_window va → va mod 4096 = 0 → va + 4096 * Z.of_nat k <= KERNEL_TEMP_END →
  a + 4 <= slot kt va ∨ slot kt va + 4 * Z.of_nat k <= a →
  load32 (map_slots m kt va p k) a = load32 m a.
Proof.
  induction k as [|k IH]; intros m va p a Hw Ha Hfit Hdis; simpl; [done|].
  assert (slot kt (va + 4096) = slot kt va + 4 ∨ k = O) as [Hs| ->];
    [unfold slot, in_window, KERNEL_TEMP_END in *; zdiv | | simpl].
  - destruct k as [|k]; [simpl; apply load32_store32_ne; lia|].
    rewrite IH; [apply load32_store32_ne; lia | | zdiv | lia | lia].
    unfold in_window, KERNEL_TEMP_END in *. lia.
  - apply load32_store32_ne. lia.
Qed.

(** ...and the entry of the [j]-th page of the block maps its [j]-th frame. *)
Lemma map_slots_lookup kt k : ∀ m va p j,
  in_window va → va mod 4096 = 0 → va + 4096 * Z.of_nat k <= KERNEL_TEMP_END →
  0 <= p < 2 ^ 32 → (j < k)%nat →
  load32 (map_slots m kt va p k) (slot kt (va + 4096 * Z.of_nat j)) =
    temp_pte (u32 (p + 4096 * Z.of_nat j)).
Proof.
  induction k as [|k IH]; intros m va p j Hw Ha Hfit Hp Hj; [lia|]. simpl.
  destruct j as [|j].
  - rewrite Z.add_0_r, Z.add_0_r, (wrap_small 32 p) by lia.
    destruct k as [|k].
    + simpl. rewrite load32_store32_eq. apply wrap_small, temp_pte_range.
    + rewrite map_slots_before; [| | zdiv | lia |].
      * rewrite load32_store32_eq. apply wrap_small, temp_pte_range.
      * unfold in_window, KERNEL_TEMP_END in *. lia.
      * left. unfold slot, in_window, KERNEL_TEMP_END in *. zdiv.
  - replace (va + 4096 * Z.of_nat (S j)) with (va + 4096 + 4096 * Z.of_nat j) by lia.
    rewrite IH; [| | zdiv | lia | apply wrap_range; lia | lia].
    + rewrite wrap_add_l. do 2 f_equal. lia.
    + unfold in_window, KERNEL_TEMP_END in *. lia.
Qed.

Lemma kmap_map_slots c kt k va p :
  kmap c kt → in_window va → va mod 4096 = 0 → va + 4096 * Z.of_nat k <= KERNEL_TEMP_END →
  kmap (set_phys (map_slots (phys c) kt va p k) c) kt.
Proof.
  intros K Hw Ha Hfit. pose proof (kmap_distinct _ _ K).
  apply kmap_frame; [done | |]; apply map_slots_before; try done;
    unfold slot, in_window, KERNEL_TEMP_END in *; zdiv.
Qed.

Lemma window_pages_fit va n :
  in_window va → va + 4096 * Z.of_nat (window_pages va n) <= KERNEL_TEMP_END.
Proof. unfold window_pages, in_window, KERNEL_TEMP_END. zdiv. Qed.

(** ** Single-page accesses *)

Lemma slot_slot0 kt : slot kt KERNEL_TEMP_START = slot0 kt.
Proof. done. Qed.

Lemma wp_map_temp1 c kt p (Q : Z → machine → Prop) L :
  kmap c kt → 0 <= p < 2 ^ 32 →
  Q 1 (set_phys (store32 (phys c) (slot0 kt) (temp_pte (4096 * (p / 4096)))) c) →
  wp (map_temp KERNEL_TEMP_START p 1) Q L c.
Proof.
  intros K Hp HQ. unfold map_temp.
  rewrite (align_down_page p) by done.
  change (align_down KERNEL_TEMP_START PAGE_SIZE) with KERNEL_TEMP_START.
  rewrite Z.ltb_irrefl.
  eapply map_temp_loop_spec; [done | left; by unfold in_window, KERNEL_TEMP_START, KERNEL_TEMP_END | done |].
  exact HQ.
Qed.

Lemma wp_unmap_temp1 c kt (Q : Z → machine → Prop) L :
  kmap c kt →
  Q 1 (set_phys (store32 (phys c) (slot0 kt) 0) c) →
  wp (unmap_temp KERNEL_TEMP_START 1) Q L c.
Proof.
  intros K HQ. unfold unmap_temp.
  change (align_down KERNEL_TEMP_START PAGE_SIZE) with KERNEL_TEMP_START.
  rewrite Z.ltb_irrefl.
  eapply unmap_temp_loop_spec; [done | left; by unfold in_window, KERNEL_TEMP_START, KERNEL_TEMP_END | done |].
  exact HQ.
Qed.

Lemma translate_temp c kt p off :
  kmap c kt → 0 <= p < 2 ^ 32 → 0 <= off < 4096 →
  load32 (phys c) (slot0 kt) = temp_pte (4096 * (p / 4096)) →
  translate c (KERNEL_TEMP_START + off) = Some (4096 * (p / 4096) + off).
Proof.
  intros K Hp Hoff Hs. rewrite (translate_window c kt); [| done |].
  2: { unfold in_window, KERNEL_TEMP_START, KERNEL_TEMP_END. lia. }
  replace (slot kt (KERNEL_TEMP_START + off)) with (slot0 kt).
  2: { unfold slot, slot0, KERNEL_TEMP_START. zdiv. }
  cbv zeta. rewrite Hs, temp_pte_present, temp_pte_frame by zdiv.
  unfold KERNEL_TEMP_START. f_equal. zdiv.
Qed.

(** The state in which window page 0 maps the page of [p]. *)
Definition with_temp (c : machine) (kt p : Z) : machine :=
  set_phys (store32 (phys c) (slot0 kt) (temp_pte (4096 * (p / 4096)))) c.

Lemma with_temp_kmap c kt p : kmap c kt → kmap (with_temp c kt p) kt.
Proof. intros. apply (kmap_frame_slot c kt KERNEL_TEMP_START). done. Qed.

Lemma with_temp_slot c kt p :
  load32 (phys (with_temp c kt p)) (slot0 kt) = temp_pte (4096 * (p / 4096)).
Proof. simpl. rewrite load32_store32_eq. apply wrap_small, temp_pte_range. Qed.

(** The page-map entry [entry] of the table at [pbase], [CURRENT_ROOT_PMAP]
    standing for the current directory. *)
Definition pmap_addr (c : machine) (pbase entry : Z) : Z :=
  4096 * ((if pbase =? CURRENT_ROOT_PMAP then cr3 c else pbase) / 4096) + 4 * entry.

Lemma pmap_addr_resolve c pbase entry :
  0 <= cr3 c < 2 ^ 32 →
  pmap_addr c pbase entry =
  4096 * ((if pbase =? CURRENT_ROOT_PMAP then Z.land (cr3 c) CR3_BASE_MASK else pbase) / 4096) + 4 * entry.
Proof. intros. unfold pmap_addr. rewrite land_base_mask by done. case_match; [zdiv | done]. Qed.

Lemma wp_read_pmap_entry c kt pbase entry (Q : option Z → machine → Prop) L :
  kmap c kt → 0 <= entry < 1024 → 0 <= pbase < 2 ^ 32 →
  pmap_addr c pbase entry ≠ slot0 kt →
  Q (Some (load32 (phys c) (pmap_addr c pbase entry)))
    (set_phys (store32 (phys c) (slot0 kt) 0) c) →
  wp (read_pmap_entry pbase entry) Q L c.
Proof.
  intros K He Hp Hne HQ. unfold read_pmap_entry.
  pose proof (kmap_cr3 _ _ K) as Hcr.
  rewrite pmap_addr_resolve in * by done.
  wp_step. apply wp_kassert; [lia|].
  wp_step. unfold get_root_page_map. wp_step.
  set (pb := if pbase =? CURRENT_ROOT_PMAP then _ else _) in *.
  assert (0 <= pb < 2 ^ 32) as Hpb.
  { subst pb. case_match; [|done]. rewrite land_base_mask by done. zdiv. }
  wp_step. eapply wp_map_temp1; [done..|]. simpl.
  fold (with_temp c kt pb).
  assert (u32 (KERNEL_TEMP_START + 4 * entry) = KERNEL_TEMP_START + 4 * entry) as ->.
  { apply wrap_small. unfold KERNEL_TEMP_START. lia. }
  wp_step. eapply wp_vload32.
  { eapply (translate_temp _ kt pb); [by apply with_temp_kmap | done | lia | apply with_temp_slot]. }
  wp_step. eapply wp_unmap_temp1; [by apply with_temp_kmap|]. simpl.
  wp_step. rewrite store32_store32, load32_store32_ne by (unfold slot0 in *; lia).
  exact HQ.
Qed.

Lemma wp_write_pmap_entry c kt pbase entry v (Q : Z → machine → Prop) L :
  kmap c kt → 0 <= entry < 1024 → 0 <= pbase < 2 ^ 32 →
  pmap_addr c pbase entry ≠ slot0 kt →
  pmap_addr c pbase entry ≠ 4096 * (cr3 c / 4096) + 4088 →
  pmap_addr c pbase entry ≠ 4096 * (cr3 c / 4096) + 4092 →
  Q E_OK (set_phys (store32 (store32 (phys c) (pmap_addr c pbase entry) v) (slot0 kt) 0) c) →
  wp (write_pmap_entry pbase entry v) Q L c.
Proof.
  intros K He Hp Hne Hn1 Hn2 HQ. unfold write_pmap_entry.
  pose proof (kmap_cr3 _ _ K) as Hcr.
  rewrite pmap_addr_resolve in * by done.
  wp_step. apply wp_kassert; [lia|].
  wp_step. unfold get_root_page_map. wp_step.
  set (pb := if pbase =? CURRENT_ROOT_PMAP then _ else _) in *.
  assert (0 <= pb < 2 ^ 32) as Hpb.
  { subst pb. case_match; [|done]. rewrite land_base_mask by done. zdiv. }
  wp_step. eapply wp_map_temp1; [done..|]. simpl.
  fold (with_temp c kt pb).
  assert (u32 (KERNEL_TEMP_START + 4 * entry) = KERNEL_TEMP_START + 4 * entry) as ->.
  { apply wrap_small. unfold KERNEL_TEMP_START. lia. }
  wp_step. eapply wp_vstore32.
  { eapply (translate_temp _ kt pb); [by apply with_temp_kmap | done | lia | apply with_temp_slot]. }
  wp_step. eapply wp_unmap_temp1.
  { apply kmap_frame; [by apply with_temp_kmap | |]; simpl; apply load32_store32_ne; lia. }
  simpl. wp_step. unfold set_phys. simpl.
  rewrite (store32_comm _ (slot0 kt)) by (unfold slot0 in *; lia).
  rewrite store32_store32. exact HQ.
Qed.

(** ** Blocks of virtual memory

    [vmap c va pas]: the bytes from [va] on are the physical bytes [pas].
    [walk_free c va n W]: translating them reads no byte of the set [W]. *)

Definition vmap (c : machine) (va : Z) (pas : list Z) : Prop :=
  ∀ i pa, pas !! i = Some pa → translate c (u32 (va + Z.of_nat i)) = Some pa.

Definition walk_free (c : machine) (va : Z) (n : nat) (W : Z → Prop) : Prop :=
  ∀ i w k, (i < n)%nat → w ∈ walk c (u32 (va + Z.of_nat i)) → 0 <= k < 4 → ¬ W (w + k).

(** States that differ on [W] only. *)
Definition agree (W : Z → Prop) (c c' : machine) : Prop :=
  cr3 c' = cr3 c ∧ ∀ a, ¬ W a → load8 (phys c') a = load8 (phys c) a.

Lemma agree_trans W c1 c2 c3 : agree W c1 c2 → agree W c2 c3 → agree W c1 c3.
Proof. intros [H1 H2] [H3 H4]. split; [congruence|]. intros a Ha. by rewrite H4, H2. Qed.

Lemma agree_refl W c : agree W c c.
Proof. by split. Qed.

Lemma agree_mono (V W : Z → Prop) c c' : (∀ a, V a → W a) → agree V c c' → agree W c c'.
Proof. intros H [H1 H2]. split; [done|]. auto. Qed.

Lemma agree_word_free W c c' a : agree W c c' → (∀ k, 0 <= k < 4 → ¬ W (a + k)) → load32 (phys c') a = load32 (phys c) a.
Proof.
  intros [_ H] HW. unfold load32. rewrite (H (a + 1)), (H (a + 2)), (H (a + 3)) by (apply HW; lia).
  rewrite (H a); [done|]. rewrite <- (Z.add_0_r a). apply HW. lia.
Qed.

Fixpoint store_at (m : memory) (pas bs : list Z) : memory :=
  match pas, bs with
  | pa :: pas, b :: bs => store_at (store8 m pa b) pas bs
  | _, _ => m
  end.

Lemma agree_translate W c c' va n i :
  agree W c c' → walk_free c va n W → (i < n)%nat →
  translate c' (u32 (va + Z.of_nat i)) = translate c (u32 (va + Z.of_nat i)) ∧
  walk c' (u32 (va + Z.of_nat i)) = walk c (u32 (va + Z.of_nat i)).
Proof.
  intros [Hcr Hm] Hf Hi. apply translate_frame; [done|]. intros w Hw.
  pose proof (λ k, Hf i w k Hi Hw) as H.
  unfold load32. rewrite (Hm (w + 1)), (Hm (w + 2)), (Hm (w + 3)) by (apply H; lia).
  rewrite (Hm w); [done|]. rewrite <- (Z.add_0_r w). apply H. lia.
Qed.

Lemma agree_vmap W c c' va pas :
  agree W c c' → walk_free c va (length pas) W → vmap c va pas → vmap c' va pas.
Proof.
  intros Ha Hf Hv i pa Hi. pose proof (lookup_lt_Some _ _ _ Hi).
  destruct (agree_translate W c c' va (length pas) i) as [-> _]; auto.
Qed.

Lemma agree_walk_free W c c' va n :
  agree W c c' → walk_free c va n W → walk_free c' va n W.
Proof.
  intros Ha Hf i w k Hi. destruct (agree_translate W c c' va n i) as [_ ->]; auto. by apply Hf.
Qed.

(** The same with another set [V] that the walks avoid. *)
Lemma agree_walk_free_any W V c c' va n :
  agree W c c' → walk_free c va n W → walk_free c va n V → walk_free c' va n V.
Proof.
  intros Ha Hf Hv i w k Hi. destruct (agree_translate W c c' va n i) as [_ ->]; auto. by apply Hv.
Qed.

Lemma vmap_tail c va pa pas : vmap c va (pa :: pas) → vmap c (u32 (va + 1)) pas.
Proof.
  intros H i x Hi. rewrite wrap_add_l. specialize (H (S i) x Hi).
  replace (va + 1 + Z.of_nat i) with (va + Z.of_nat (S i)) by lia. done.
Qed.

Lemma walk_free_tail c va n W : walk_free c va (S n) W → walk_free c (u32 (va + 1)) n W.
Proof.
  intros H i w k Hi. rewrite wrap_add_l.
  replace (va + 1 + Z.of_nat i) with (va + Z.of_nat (S i)) by lia. apply H. lia.
Qed.

Lemma vmap_head c va pa pas : vmap c va (pa :: pas) → 0 <= va < 2 ^ 32 → translate c va = Some pa.
Proof.
  intros H Hv. specialize (H O pa eq_refl). by rewrite Z.add_0_r, wrap_small in H.
Qed.

(** [memcpy] between mapped blocks, when the destination overlaps neither the
    source nor the page tables in use. *)
Lemma wp_memcpy_loop W pas_d : ∀ pas_s c d s (Q : unit → machine → Prop) L,
  length pas_s = length pas_d → 0 <= d < 2 ^ 32 → 0 <= s < 2 ^ 32 →
  vmap c d pas_d → vmap c s pas_s →
  walk_free c d (length pas_d) W → walk_free c s (length pas_s) W →
  Forall W pas_d → Forall (λ a, ¬ W a) pas_s →
  Q tt (set_phys (store_at (phys c) pas_d (load8 (phys c) <$> pas_s)) c) →
  wp (memcpy_loop (length pas_d) d s) Q L c.
Proof.
  induction pas_d as [|pd pas_d IH]; intros [|ps pas_s] c d s Q L Hlen Hd Hs Vd Vs Fd Fs Wd Ws HQ;
    try done; simpl.
  { apply wp_ret. by destruct c. }
  wp_step. eapply wp_vload8; [by eapply vmap_head|].
  wp_step. eapply wp_vstore8; [by eapply vmap_head|].
  apply Forall_cons in Wd as [Wd1 Wd2]. apply Forall_cons in Ws as [Ws1 Ws2].
  set (c1 := set_phys _ c).
  assert (agree W c c1) as Hag.
  { split; [done|]. intros a Ha. simpl. apply load8_store8_ne. congruence. }
  eapply (IH pas_s).
  - simpl in Hlen. lia.
  - apply wrap_range. lia.
  - apply wrap_range. lia.
  - eapply agree_vmap; [done | by apply walk_free_tail | by eapply vmap_tail].
  - eapply agree_vmap; [done | by apply walk_free_tail | by eapply vmap_tail].
  - eapply agree_walk_free; [done|]. by apply walk_free_tail.
  - eapply agree_walk_free; [done|]. by apply walk_free_tail.
  - done.
  - done.
  - replace (load8 (phys c1) <$> pas_s) with (load8 (phys c) <$> pas_s); [exact HQ|].
    apply list_fmap_ext. intros i x Hx. symmetry. apply Hag.
    rewrite Forall_forall in Ws2. apply Ws2. by eapply list_elem_of_lookup_2.
Qed.

(** Consecutive physical bytes. *)
Definition consec (a : Z) (n : nat) : list Z := (λ i, a + Z.of_nat i) <$> seq 0 n.

Lemma length_consec a n : length (consec a n) = n.
Proof. unfold consec. by rewrite length_fmap, length_seq. Qed.

Lemma consec_S a n : consec a (S n) = a :: consec (a + 1) n.
Proof.
  unfold consec. simpl. f_equal; [lia|].
  rewrite <- fmap_S_seq, <- list_fmap_compose. apply list_fmap_ext. intros i x _. simpl. lia.
Qed.

Lemma consec_lookup a n i pa : consec a n !! i = Some pa ↔ pa = a + Z.of_nat i ∧ (i < n)%nat.
Proof.
  unfold consec. rewrite list_lookup_fmap, fmap_Some. split.
  - intros (j & Hj & ->). apply lookup_seq in Hj as [-> Hj]. simpl. lia.
  - intros [-> Hi]. exists i. split; [apply lookup_seq; lia | done].
Qed.

Lemma elem_of_consec a n pa : pa ∈ consec a n ↔ a <= pa < a + Z.of_nat n.
Proof.
  rewrite list_elem_of_lookup. split.
  - intros [i Hi]. apply consec_lookup in Hi. lia.
  - intros. exists (Z.to_nat (pa - a)). apply consec_lookup. lia.
Qed.

Lemma load8_consec m a n : load8 m <$> consec a n = load_bytes m a n.
Proof. unfold consec, load_bytes. by rewrite <- list_fmap_compose. Qed.

Lemma store_at_consec bs : ∀ m a, store_at m (consec a (length bs)) bs = store_bytes m a bs.
Proof.
  induction bs as [|b bs IH]; intros m a; [done|]. simpl length. rewrite consec_S. simpl. apply IH.
Qed.

Lemma vmap_app c va pas1 pas2 :
  vmap c va (pas1 ++ pas2) ↔ vmap c va pas1 ∧ vmap c (va + Z.of_nat (length pas1)) pas2.
Proof.
  split.
  - intros H. split; intros i pa Hi.
    + apply H. by apply lookup_app_l_Some.
    + specialize (H (length pas1 + i)%nat pa).
      rewrite lookup_app_r in H by lia.
      replace (va + Z.of_nat (length pas1) + Z.of_nat i)
        with (va + Z.of_nat (length pas1 + i)) by lia.
      apply H. by replace (length pas1 + i - length pas1)%nat with i by lia.
  - intros [H1 H2] i pa Hi. apply lookup_app_Some in Hi as [Hi|[Hl Hi]]; [by apply H1|].
    apply H2 in Hi. by replace (va + Z.of_nat i)
      with (va + Z.of_nat (length pas1) + Z.of_nat (i - length pas1)) by lia.
Qed.

Lemma vmap_wrap c va pas : vmap c (u32 va) pas ↔ vmap c va pas.
Proof. split; intros H i pa Hi; apply H in Hi; by rewrite wrap_add_l in *. Qed.

Lemma walk_free_wrap c va n W : walk_free c (u32 va) n W ↔ walk_free c va n W.
Proof.
  unfold walk_free. split; intros H i w k; specialize (H i w k);
    by rewrite wrap_add_l in *.
Qed.

Lemma walk_free_app c va n1 n2 W :
  walk_free c va (n1 + n2) W → walk_free c va n1 W ∧ walk_free c (va + Z.of_nat n1) n2 W.
Proof.
  intros H. split; intros i w k Hi.
  - apply H. lia.
  - replace (va + Z.of_nat n1 + Z.of_nat i) with (va + Z.of_nat (n1 + i)) by lia. apply H. lia.
Qed.

Lemma walk_window c kt va :
  kmap c kt → in_window va → walk c va = [4096 * (cr3 c / 4096) + 4088; slot kt va].
Proof.
  intros [Hcr R1 R2 R3 T1 T2 T3 D] Hw. unfold in_window, KERNEL_TEMP_END in Hw.
  unfold walk, pde_addr. replace (4 * (va / 2 ^ 22)) with 4088 by zdiv.
  rewrite T1, T2. simpl. unfold pte_addr. by rewrite T3.
Qed.

(** Window page 0 as a block: it maps the page of [p]. *)
Lemma temp_block c kt p n (W : Z → Prop) :
  kmap c kt → 0 <= p < 2 ^ 32 → p mod 4096 + Z.of_nat n <= 4096 →
  (∀ k, 0 <= k < 4 → ¬ W (slot0 kt + k)) →
  (∀ k, 0 <= k < 4 → ¬ W (4096 * (cr3 c / 4096) + 4088 + k)) →
  vmap (with_temp c kt p) (KERNEL_TEMP_START + p mod 4096) (consec p n) ∧
  walk_free (with_temp c kt p) (KERNEL_TEMP_START + p mod 4096) n W.
Proof.
  intros K Hp Hn W1 W2. pose proof (with_temp_kmap _ _ p K) as K'.
  assert (∀ i, (i < n)%nat → u32 (KERNEL_TEMP_START + p mod 4096 + Z.of_nat i) =
    KERNEL_TEMP_START + (p mod 4096 + Z.of_nat i)) as Hu.
  { intros i Hi. rewrite wrap_small; unfold KERNEL_TEMP_START; zdiv. }
  split.
  - intros i pa Hi. apply consec_lookup in Hi as [-> Hi]. rewrite Hu by done.
    rewrite (translate_temp _ kt p); [| done | done | zdiv | apply with_temp_slot].
    f_equal. zdiv.
  - intros i w k Hi Hw Hk. rewrite Hu in Hw by done.
    rewrite (walk_window _ kt) in Hw; [| done |].
    + replace (slot kt (KERNEL_TEMP_START + (p mod 4096 + Z.of_nat i))) with (slot0 kt) in Hw
        by (unfold slot, slot0, KERNEL_TEMP_START; zdiv).
      simpl in Hw. apply elem_of_cons in Hw as [->|Hw]; [by apply W2|].
      apply list_elem_of_singleton in Hw as ->. by apply W1.
    + unfold in_window, KERNEL_TEMP_START, KERNEL_TEMP_END. zdiv.
Qed.

(** ** Reading and writing physical memory *)

(** The physical block [p, p + n) is apart from the entries the window needs. *)
Definition apart (c : machine) (kt p n : Z) : Prop :=
  (p + n <= slot0 kt ∨ slot0 kt + 4 <= p) ∧
  (p + n <= 4096 * (cr3 c / 4096) + 4088 ∨ 4096 * (cr3 c / 4096) + 4096 <= p).

(** Bytes written by an access to the block: the block and the window entry. *)
Definition touched (kt p n : Z) (a : Z) : Prop :=
  p <= a < p + n ∨ slot0 kt <= a < slot0 kt + 4.

Lemma kmap_store_bytes c kt p bs :
  kmap c kt → apart c kt p (Z.of_nat (length bs)) →
  kmap (set_phys (store_bytes (phys c) p bs) c) kt.
Proof.
  intros K [_ A]. apply kmap_frame; [done | |]; unfold load32; rewrite !load8_store_bytes;
    repeat case_decide; done || lia.
Qed.

(** Final memory of a [poke] of [bs] at [p]. *)
Definition poked (m : memory) (kt p : Z) (bs : list Z) : memory :=
  store32 (store_bytes m p bs) (slot0 kt) 0.

Lemma load8_poked m kt p bs a :
  ¬ touched kt p (Z.of_nat (length bs)) a → load8 (poked m kt p bs) a = load8 m a.
Proof.
  intros H. unfold touched in H. unfold poked. rewrite load8_store32_ne by lia.
  rewrite load8_store_bytes. case_decide; [lia | done].
Qed.

Lemma poked_app m kt p bs1 bs2 :
  p + Z.of_nat (length bs1 + length bs2) <= slot0 kt ∨ slot0 kt + 4 <= p →
  poked (poked m kt p bs1) kt (p + Z.of_nat (length bs1)) bs2 = poked m kt p (bs1 ++ bs2).
Proof.
  intros H. unfold poked. rewrite store_bytes_store32_comm by lia.
  by rewrite store32_store32, store_bytes_app.
Qed.

Lemma walk_free_mono c va n (W W' : Z → Prop) :
  (∀ a, W' a → W a) → walk_free c va n W → walk_free c va n W'.
Proof. intros HW H i w k Hi Hw Hk Hc. by eapply H; eauto. Qed.

Lemma agree_with_temp kt p n c q : agree (touched kt p n) c (with_temp c kt q).
Proof.
  split; [done|]. intros a Ha. simpl. apply load8_store32_ne. unfold touched in Ha. lia.
Qed.

Lemma fmap_load8_agree W c c' pas :
  agree W c c' → Forall (λ a, ¬ W a) pas → load8 (phys c') <$> pas = load8 (phys c) <$> pas.
Proof.
  intros [_ H] HF. apply list_fmap_ext. intros i x Hx. apply H.
  rewrite Forall_forall in HF. apply HF. by eapply list_elem_of_lookup_2.
Qed.

(** A source block usable while [p, p + n) is being written. *)
Record source (c : machine) (kt p : Z) (s : Z) (pas : list Z) : Prop := {
  source_map : vmap c s pas;
  source_walk : walk_free c s (length pas) (touched kt p (Z.of_nat (length pas)));
  source_apart : Forall (λ a, ¬ touched kt p (Z.of_nat (length pas)) a) pas
}.

(** One iteration of the writing loop, up to the window being unmapped. *)
Lemma wp_poke_chunk c kt p s pas (Q : unit → machine → Prop) L :
  kmap c kt → 0 <= p → p + Z.of_nat (length pas) <= 2 ^ 32 → 0 <= s < 2 ^ 32 →
  (0 < length pas)%nat → p mod 4096 + Z.of_nat (length pas) <= 4096 →
  apart c kt p (Z.of_nat (length pas)) → source c kt p s pas →
  (let c2 := set_phys (store32 (store_bytes (phys c) p (load8 (phys c) <$> pas)) (slot0 kt)
                         (temp_pte (4096 * (p / 4096)))) c in
   kmap c2 kt → Q tt c2) →
  wp (memcpy (KERNEL_TEMP_START + PAGE_OFFSET p) s (Z.of_nat (length pas))) Q L (with_temp c kt p).
Proof.
  intros K Hp0 Hp1 Hs Hpos Hpage Hap [Vs Fs As] HQ.
  set (n := Z.of_nat (length pas)) in *.
  set (W := λ a, p <= a < p + n).
  assert (∀ a, W a → touched kt p n a) as HW by (unfold W, touched; auto).
  destruct (temp_block c kt p (length pas) W) as [Vd Fd];
    [done | lia | done | unfold W; destruct Hap; lia | unfold W; destruct Hap; lia |].
  unfold memcpy. replace (Z.to_nat n) with (length (consec p (length pas)))
    by (rewrite length_consec; lia).
  rewrite PAGE_OFFSET_alt.
  pose proof (agree_with_temp kt p n c p) as Hag.
  eapply (wp_memcpy_loop W _ pas).
  - by rewrite length_consec.
  - unfold KERNEL_TEMP_START. zdiv.
  - done.
  - done.
  - by eapply agree_vmap.
  - by rewrite length_consec.
  - eapply walk_free_mono; [exact HW|]. by eapply agree_walk_free.
  - apply Forall_forall. intros a Ha. apply elem_of_consec in Ha. done.
  - eapply Forall_impl; [exact As|]. auto.
  - rewrite (fmap_load8_agree (touched kt p n) c) by done.
    set (bs := load8 (phys c) <$> pas).
    replace (length pas) with (length bs) by (subst bs; by rewrite length_fmap).
    rewrite store_at_consec. simpl. unfold set_phys. simpl.
    assert (length bs = length pas) as Hl by (subst bs; by rewrite length_fmap).
    rewrite store_bytes_store32_comm by (rewrite Hl; destruct Hap; lia).
    apply HQ. cbv zeta. fold bs.
    apply (kmap_frame_slot (set_phys (store_bytes (phys c) p bs) c) kt KERNEL_TEMP_START).
    apply kmap_store_bytes; [done|]. by rewrite Hl.
Qed.

Lemma source_split c kt p s pas1 pas2 :
  source c kt p s (pas1 ++ pas2) → (0 < length pas1)%nat →
  apart c kt p (Z.of_nat (length pas1 + length pas2)) →
  source c kt p s pas1 ∧
  source (set_phys (poked (phys c) kt p (load8 (phys c) <$> pas1)) c) kt
    (p + Z.of_nat (length pas1)) (u32 (s + Z.of_nat (length pas1))) pas2 ∧
  load8 (poked (phys c) kt p (load8 (phys c) <$> pas1)) <$> pas2 = load8 (phys c) <$> pas2.
Proof.
  intros [V F A] Hpos Hap. rewrite length_app in *.
  set (n1 := Z.of_nat (length pas1)) in *. set (n2 := Z.of_nat (length pas2)) in *.
  apply vmap_app in V as [V1 V2]. apply walk_free_app in F as [F1 F2].
  apply Forall_app in A as [A1 A2].
  set (c' := set_phys _ c).
  assert (agree (touched kt p (n1 + n2)) c c') as Hag.
  { split; [done|]. intros a Ha. simpl. apply load8_poked. rewrite length_fmap.
    unfold touched in *. lia. }
  replace (Z.of_nat (length pas1 + length pas2)) with (n1 + n2) in * by lia.
  assert (∀ a, touched kt p n1 a → touched kt p (n1 + n2) a) as Hw1 by (unfold touched; lia).
  assert (∀ a, touched kt (p + n1) n2 a → touched kt p (n1 + n2) a) as Hw2 by (unfold touched; lia).
  split; [|split].
  - split; [done | by eapply walk_free_mono | eapply Forall_impl; [done|]; auto].
  - split.
    + apply vmap_wrap. by eapply agree_vmap.
    + apply walk_free_wrap. eapply walk_free_mono; [exact Hw2|]. by eapply agree_walk_free.
    + eapply Forall_impl; [exact A2|]. auto.
  - by apply (fmap_load8_agree (touched kt p (n1 + n2)) c c').
Qed.

Lemma wp_poke_loop fuel : ∀ c kt p s boff buffer pas (Q : Z → machine → Prop) L,
  kmap c kt → 0 <= p → p + Z.of_nat (length pas) <= 2 ^ 32 → s = u32 (buffer + boff) →
  (0 < length pas)%nat → (length pas < fuel)%nat →
  apart c kt p (Z.of_nat (length pas)) → source c kt p s pas →
  Q E_OK (set_phys (poked (phys c) kt p (load8 (phys c) <$> pas)) c) →
  wp (access_phys_loop fuel p buffer boff (Z.of_nat (length pas)) false) Q L c.
Proof.
  induction fuel as [|fuel IH]; intros c kt p s boff buffer pas Q L K Hp0 Hp1 Hs Hpos Hfuel Hap Hsrc HQ;
    [lia|]. simpl.
  replace (Z.of_nat (length pas) =? 0) with false by lia.
  wp_step. eapply wp_map_temp1; [done | lia |]. simpl. fold (with_temp c kt p).
  rewrite PAGE_OFFSET_alt.
  set (chunk := if PAGE_SIZE - p mod 4096 <? Z.of_nat (length pas)
                then PAGE_SIZE - p mod 4096 else Z.of_nat (length pas)).
  assert (0 < chunk <= Z.of_nat (length pas) ∧ p mod 4096 + chunk <= 4096) as [Hc1 Hc2].
  { subst chunk. unfold PAGE_SIZE.
    destruct (Z.ltb_spec (0x1000 - p mod 4096) (Z.of_nat (length pas))); zdiv. }
  assert (chunk = Z.of_nat (length pas) ∨ p mod 4096 + chunk = 4096) as Hc3.
  { subst chunk. unfold PAGE_SIZE.
    destruct (Z.ltb_spec (0x1000 - p mod 4096) (Z.of_nat (length pas))); zdiv. }
  clearbody chunk.
  assert (∃ pas1 pas2, pas = pas1 ++ pas2 ∧ length pas1 = Z.to_nat chunk) as (pas1 & pas2 & -> & Hl1).
  { exists (take (Z.to_nat chunk) pas), (drop (Z.to_nat chunk) pas).
    rewrite take_drop, length_take. split; [done | lia]. }
  rewrite length_app in *.
  apply source_split in Hsrc as (S1 & S2 & S3); [| lia | done].
  assert (apart c kt p (Z.of_nat (length pas1))) as Hap1 by (unfold apart in *; lia).
  wp_step. rewrite <- Hs. replace chunk with (Z.of_nat (length pas1)) by lia.
  replace (p mod 4096) with (PAGE_OFFSET p) by apply PAGE_OFFSET_alt.
  eapply wp_poke_chunk; try done; try lia; [subst s; apply wrap_range; lia|].
  intros c2 K2. wp_step. eapply wp_unmap_temp1; [done|]. simpl.
  rewrite store32_store32. fold (poked (phys c) kt p (load8 (phys c) <$> pas1)).
  unfold set_phys at 1. simpl. fold (set_phys (poked (phys c) kt p (load8 (phys c) <$> pas1)) c).
  set (c3 := set_phys (poked (phys c) kt p (load8 (phys c) <$> pas1)) c) in *.
  rewrite fmap_app in HQ.
  destruct (decide (length pas2 = 0%nat)) as [Hz|Hnz].
  { apply nil_length_inv in Hz. rewrite Hz in *. simpl in *. rewrite app_nil_r in HQ.
    replace (Z.of_nat (length pas1 + 0) - Z.of_nat (length pas1)) with 0 by lia.
    destruct fuel as [|fuel]; [lia|]. simpl. by apply wp_ret. }
  replace (Z.of_nat (length pas1 + length pas2) - Z.of_nat (length pas1))
    with (Z.of_nat (length pas2)) by lia.
  rewrite (wrap_small 32 (p + _)) by lia.
  assert (kmap c3 kt) as K3.
  { apply (kmap_frame_slot (set_phys (store_bytes (phys c) p (load8 (phys c) <$> pas1)) c) kt
             KERNEL_TEMP_START).
    apply kmap_store_bytes; [done|]. by rewrite length_fmap. }
  eapply (IH c3 kt _ (u32 (s + Z.of_nat (length pas1)))); try done; try lia.
  - subst s. rewrite wrap_add_l, wrap_add_r. f_equal. lia.
  - unfold apart in *. simpl. lia.
  - change (phys c3) with (poked (phys c) kt p (load8 (phys c) <$> pas1)).
    rewrite S3. unfold c3, set_phys. simpl.
    replace (length pas1) with (length (load8 (phys c) <$> pas1)) by apply length_fmap.
    rewrite poked_app; [done|]. rewrite !length_fmap. unfold apart in *. lia.
Qed.

(** ** The reading direction *)

Lemma load8_store_at_ne pas : ∀ m bs a, a ∉ pas → load8 (store_at m pas bs) a = load8 m a.
Proof.
  induction pas as [|pa pas IH]; intros m [|b bs] a Ha; try done. simpl.
  apply not_elem_of_cons in Ha as [Hne Ha]. rewrite IH by done. by apply load8_store8_ne.
Qed.

Lemma load8_store_at_eq pas : ∀ m bs,
  NoDup pas → length bs = length pas → Forall (λ b, 0 <= b < 256) bs →
  load8 (store_at m pas bs) <$> pas = bs.
Proof.
  induction pas as [|pa pas IH]; intros m [|b bs] Hn Hl Hb; try done. simpl.
  apply NoDup_cons in Hn as [Hni Hn]. apply Forall_cons in Hb as [Hb Hbs]. f_equal.
  - rewrite load8_store_at_ne, load8_store8_eq by done. by apply wrap_small.
  - apply IH; [done | by injection Hl | done].
Qed.

Lemma load_bytes_store_bytes m p bs :
  Forall (λ b, 0 <= b < 256) bs → load_bytes (store_bytes m p bs) p (length bs) = bs.
Proof.
  intros Hb. apply list_eq. intros i. unfold load_bytes. rewrite list_lookup_fmap.
  destruct (decide (i < length bs)%nat) as [Hi|Hi].
  - rewrite lookup_seq_lt by done. simpl. rewrite load8_store_bytes, decide_True by lia.
    replace (Z.to_nat (p + Z.of_nat i - p)) with i by lia.
    destruct (lookup_lt_is_Some_2 bs i Hi) as [b Hbi]. rewrite Hbi. simpl. f_equal.
    apply wrap_small. by eapply (Forall_lookup_1 _ bs i b) in Hb.
  - rewrite lookup_seq_ge, (lookup_ge_None_2 bs i) by lia. done.
Qed.

Lemma load8_bytes m pas : Forall (λ b, 0 <= b < 256) (load8 m <$> pas).
Proof. apply Forall_fmap, Forall_true. intros a. apply load8_range. Qed.

Lemma store_at_app pas1 : ∀ m pas2 bs1 bs2,
  length pas1 = length bs1 →
  store_at m (pas1 ++ pas2) (bs1 ++ bs2) = store_at (store_at m pas1 bs1) pas2 bs2.
Proof.
  induction pas1 as [|pa pas1 IH]; intros m pas2 [|b bs1] bs2 Hl; try done. simpl in *.
  apply IH. lia.
Qed.

Lemma store_at_store32_comm pas : ∀ m bs a v,
  Forall (λ pa, ¬ (a <= pa < a + 4)) pas →
  store_at (store32 m a v) pas bs = store32 (store_at m pas bs) a v.
Proof.
  induction pas as [|pa pas IH]; intros m [|b bs] a v HF; try done. simpl.
  apply Forall_cons in HF as [H HF]. rewrite store8_store32_comm by lia. by apply IH.
Qed.

(** Bytes written while reading into the block [pas]. *)
Definition written (kt : Z) (pas : list Z) (a : Z) : Prop :=
  a ∈ pas ∨ slot0 kt <= a < slot0 kt + 4.

(** A destination block usable while [p, p + length pas) is being read. *)
Record sink (c : machine) (kt p d : Z) (pas : list Z) : Prop := {
  sink_map : vmap c d pas;
  sink_walk : walk_free c d (length pas) (written kt pas);
  sink_slot : Forall (λ a, ¬ (slot0 kt <= a < slot0 kt + 4)) pas;
  sink_dir : Forall (λ a, ¬ (4096 * (cr3 c / 4096) + 4088 <= a < 4096 * (cr3 c / 4096) + 4096)) pas;
  sink_apart : ∀ a, p <= a < p + Z.of_nat (length pas) → ¬ written kt pas a
}.

(** Final memory of a [peek] of [bs] into [pas]. *)
Definition peeked (m : memory) (kt : Z) (pas bs : list Z) : memory :=
  store32 (store_at m pas bs) (slot0 kt) 0.

Lemma agree_peeked kt pas pas' bs c :
  (∀ a, a ∈ pas → a ∈ pas') →
  agree (written kt pas') c (set_phys (peeked (phys c) kt pas bs) c).
Proof.
  intros Hsub. split; [done|]. intros a Ha. simpl. unfold peeked, written in *.
  rewrite load8_store32_ne by lia. apply load8_store_at_ne. naive_solver.
Qed.

Lemma kmap_store_at c kt pas bs :
  kmap c kt →
  Forall (λ a, ¬ (4096 * (cr3 c / 4096) + 4088 <= a < 4096 * (cr3 c / 4096) + 4096)) pas →
  kmap (set_phys (store_at (phys c) pas bs) c) kt.
Proof.
  intros K HF. rewrite Forall_forall in HF.
  apply kmap_frame; [done | |]; unfold load32; rewrite !load8_store_at_ne; try done;
    intros Hin; apply HF in Hin; lia.
Qed.

Lemma agree_load_bytes W c c' p n :
  agree W c c' → (∀ a, p <= a < p + Z.of_nat n → ¬ W a) →
  load_bytes (phys c') p n = load_bytes (phys c) p n.
Proof.
  intros [_ H] HW. apply list_fmap_ext. intros i x Hx. apply lookup_seq in Hx as [-> Hi].
  apply H, HW. lia.
Qed.

Lemma load_bytes_app m p n1 n2 :
  load_bytes m p (n1 + n2) = load_bytes m p n1 ++ load_bytes m (p + Z.of_nat n1) n2.
Proof.
  revert p. induction n1 as [|n1 IH]; intros p.
  - simpl. by rewrite Z.add_0_r.
  - cbn [Nat.add]. rewrite !load_bytes_S, IH. simpl. do 3 f_equal. lia.
Qed.

Lemma wp_peek_chunk c kt p d pas (Q : unit → machine → Prop) L :
  kmap c kt → 0 <= p → p + Z.of_nat (length pas) <= 2 ^ 32 → 0 <= d < 2 ^ 32 →
  (0 < length pas)%nat → p mod 4096 + Z.of_nat (length pas) <= 4096 →
  sink c kt p d pas →
  (let c2 := set_phys (store32 (store_at (phys c) pas (load_bytes (phys c) p (length pas)))
                         (slot0 kt) (temp_pte (4096 * (p / 4096)))) c in
   kmap c2 kt → Q tt c2) →
  wp (memcpy d (KERNEL_TEMP_START + PAGE_OFFSET p) (Z.of_nat (length pas))) Q L (with_temp c kt p).
Proof.
  intros K Hp0 Hp1 Hd Hpos Hpage [Vd Fd S1 S2 Ha] HQ.
  set (W := λ a, a ∈ pas).
  assert (agree (written kt pas) c (with_temp c kt p)) as Hag.
  { split; [done|]. intros a Hw. simpl. apply load8_store32_ne. unfold written in Hw. lia. }
  destruct (temp_block c kt p (length pas) W) as [Vs Fs]; [done | lia | done | | |].
  { intros k Hk Hin. rewrite Forall_forall in S1. apply S1 in Hin. lia. }
  { intros k Hk Hin. rewrite Forall_forall in S2. apply S2 in Hin. lia. }
  unfold memcpy. rewrite Nat2Z.id, PAGE_OFFSET_alt.
  eapply (wp_memcpy_loop W _ (consec p (length pas))).
  - by rewrite length_consec.
  - done.
  - unfold KERNEL_TEMP_START. zdiv.
  - by eapply agree_vmap.
  - done.
  - eapply walk_free_mono; [|by eapply agree_walk_free]. unfold W, written. auto.
  - by rewrite length_consec.
  - by apply Forall_forall.
  - apply Forall_forall. intros a Hin. apply elem_of_consec in Hin.
    intros Hc. apply (Ha a Hin). by left.
  - rewrite load8_consec, (agree_load_bytes (written kt pas) c) by done.
    simpl. unfold set_phys. simpl. rewrite store_at_store32_comm by done.
    apply HQ. cbv zeta.
    apply (kmap_frame_slot (set_phys (store_at (phys c) pas _) c) kt KERNEL_TEMP_START).
    by apply kmap_store_at.
Qed.

Lemma sink_split c kt p d pas1 pas2 :
  sink c kt p d (pas1 ++ pas2) →
  let c' := set_phys (peeked (phys c) kt pas1 (load_bytes (phys c) p (length pas1))) c in
  sink c kt p d pas1 ∧
  sink c' kt (p + Z.of_nat (length pas1)) (u32 (d + Z.of_nat (length pas1))) pas2 ∧
  load_bytes (phys c') (p + Z.of_nat (length pas1)) (length pas2) =
    load_bytes (phys c) (p + Z.of_nat (length pas1)) (length pas2).
Proof.
  intros [V F S1 S2 A] c'. rewrite length_app in *.
  apply vmap_app in V as [V1 V2]. apply walk_free_app in F as [F1 F2].
  apply Forall_app in S1 as [S11 S12]. apply Forall_app in S2 as [S21 S22].
  assert (agree (written kt (pas1 ++ pas2)) c c') as Hag by (apply agree_peeked; intros a Ha; apply elem_of_app; auto).
  assert (∀ a, written kt pas1 a → written kt (pas1 ++ pas2) a) as H1
    by (intros a; unfold written; rewrite elem_of_app; tauto).
  assert (∀ a, written kt pas2 a → written kt (pas1 ++ pas2) a) as H2
    by (intros a; unfold written; rewrite elem_of_app; tauto).
  split; [|split].
  - split; try done; [by eapply walk_free_mono|]. intros a Ha Hc. apply (A a); [lia | auto].
  - split; try done.
    + apply vmap_wrap. by eapply agree_vmap.
    + apply walk_free_wrap. eapply walk_free_mono; [exact H2|]. by eapply agree_walk_free.
    + intros a Ha Hc. apply (A a); [lia | auto].
  - eapply agree_load_bytes; [done|]. intros a Ha. apply A. lia.
Qed.

Lemma wp_peek_loop fuel : ∀ c kt p d boff buffer pas (Q : Z → machine → Prop) L,
  kmap c kt → 0 <= p → p + Z.of_nat (length pas) <= 2 ^ 32 → d = u32 (buffer + boff) →
  (0 < length pas)%nat → (length pas < fuel)%nat → sink c kt p d pas →
  Q E_OK (set_phys (peeked (phys c) kt pas (load_bytes (phys c) p (length pas))) c) →
  wp (access_phys_loop fuel p buffer boff (Z.of_nat (length pas)) true) Q L c.
Proof.
  induction fuel as [|fuel IH]; intros c kt p d boff buffer pas Q L K Hp0 Hp1 Hd Hpos Hfuel Hsnk HQ;
    [lia|]. simpl.
  replace (Z.of_nat (length pas) =? 0) with false by lia.
  wp_step. eapply wp_map_temp1; [done | lia |]. simpl. fold (with_temp c kt p).
  rewrite PAGE_OFFSET_alt.
  set (chunk := if PAGE_SIZE - p mod 4096 <? Z.of_nat (length pas)
                then PAGE_SIZE - p mod 4096 else Z.of_nat (length pas)).
  assert (0 < chunk <= Z.of_nat (length pas) ∧ p mod 4096 + chunk <= 4096) as [Hc1 Hc2].
  { subst chunk. unfold PAGE_SIZE.
    destruct (Z.ltb_spec (0x1000 - p mod 4096) (Z.of_nat (length pas))); zdiv. }
  clearbody chunk.
  assert (∃ pas1 pas2, pas = pas1 ++ pas2 ∧ length pas1 = Z.to_nat chunk) as (pas1 & pas2 & -> & Hl1).
  { exists (take (Z.to_nat chunk) pas), (drop (Z.to_nat chunk) pas).
    rewrite take_drop, length_take. split; [done | lia]. }
  rewrite length_app in *.
  apply sink_split in Hsnk as (S1 & S2 & S3).
  wp_step. rewrite <- Hd. replace chunk with (Z.of_nat (length pas1)) by lia.
  replace (p mod 4096) with (PAGE_OFFSET p) by apply PAGE_OFFSET_alt.
  eapply wp_peek_chunk; try done; try lia; [subst d; apply wrap_range; lia|].
  intros c2 K2. wp_step. eapply wp_unmap_temp1; [done|]. simpl.
  rewrite store32_store32.
  set (bs1 := load_bytes (phys c) p (length pas1)) in *.
  assert (length bs1 = length pas1) as Hb1 by apply length_load_bytes.
  set (c3 := set_phys (peeked (phys c) kt pas1 bs1) c) in *.
  change (set_phys (store32 (store_at (phys c) pas1 bs1) (slot0 kt) 0) c2) with c3.
  rewrite load_bytes_app in HQ. fold bs1 in HQ.
  destruct (decide (length pas2 = 0%nat)) as [Hz|Hnz].
  { apply nil_length_inv in Hz. rewrite Hz in *. simpl in *. rewrite !app_nil_r in HQ.
    replace (Z.of_nat (length pas1 + 0) - Z.of_nat (length pas1)) with 0 by lia.
    destruct fuel as [|fuel]; [lia|]. simpl. by apply wp_ret. }
  replace (Z.of_nat (length pas1 + length pas2) - Z.of_nat (length pas1))
    with (Z.of_nat (length pas2)) by lia.
  rewrite (wrap_small 32 (p + _)) by lia.
  assert (kmap c3 kt) as K3.
  { apply (kmap_frame_slot (set_phys (store_at (phys c) pas1 bs1) c) kt KERNEL_TEMP_START).
    apply kmap_store_at; [done | apply S1]. }
  eapply (IH c3 kt _ (u32 (d + Z.of_nat (length pas1)))); try done; try lia.
  - subst d. rewrite wrap_add_l, wrap_add_r. f_equal. lia.
  - rewrite S3. unfold c3, set_phys, peeked in *. simpl.
    rewrite store_at_store32_comm, store32_store32 by apply S2.
    rewrite store_at_app in HQ by done. exact HQ.
Qed.

Lemma wp_poke c kt p s pas (Q : Z → machine → Prop) L :
  kmap c kt → 0 <= p → p + Z.of_nat (length pas) <= 2 ^ 32 → 0 <= s < 2 ^ 32 →
  (0 < length pas)%nat → apart c kt p (Z.of_nat (length pas)) → source c kt p s pas →
  Q E_OK (set_phys (poked (phys c) kt p (load8 (phys c) <$> pas)) c) →
  wp (poke p s (Z.of_nat (length pas))) Q L c.
Proof.
  intros. unfold poke, access_phys. replace (Z.of_nat (length pas) =? 0) with false by lia.
  eapply (wp_poke_loop _ _ _ _ s); try done; [|lia]. by rewrite Z.add_0_r, wrap_small.
Qed.

Lemma wp_peek c kt p d pas (Q : Z → machine → Prop) L :
  kmap c kt → 0 <= p → p + Z.of_nat (length pas) <= 2 ^ 32 → 0 <= d < 2 ^ 32 →
  (0 < length pas)%nat → sink c kt p d pas →
  Q E_OK (set_phys (peeked (phys c) kt pas (load_bytes (phys c) p (length pas))) c) →
  wp (peek p d (Z.of_nat (length pas))) Q L c.
Proof.
  intros. unfold peek, access_phys. replace (Z.of_nat (length pas) =? 0) with false by lia.
  eapply (wp_peek_loop _ _ _ _ d); try done; [|lia]. by rewrite Z.add_0_r, wrap_small.
Qed.

(** ** The current directory, seen through the recursive entry *)

Lemma translate_dir c kt off :
  kmap c kt → 0 <= off < 4096 →
  translate c (0xFFFFF000 + off) = Some (4096 * (cr3 c / 4096) + off) ∧
  walk c (0xFFFFF000 + off) =
    [4096 * (cr3 c / 4096) + 4092; 4096 * (cr3 c / 4096) + 4092].
Proof.
  intros [Hcr R1 R2 R3 T1 T2 T3 D] Ho. unfold translate, walk, pde_addr.
  replace (4 * ((0xFFFFF000 + off) / 2 ^ 22)) with 4092 by zdiv.
  rewrite R1, R2. unfold pte_addr. rewrite R3.
  replace (4 * (((0xFFFFF000 + off) / 2 ^ 12) mod 1024)) with 4092 by zdiv.
  rewrite R1, R3. split; [f_equal; zdiv | done].
Qed.

(** The kernel's directory entries as a source block. *)
Lemma dir_source c kt p off n :
  kmap c kt → 0 <= off → off + Z.of_nat n <= 4096 →
  (p + Z.of_nat n <= 4096 * (cr3 c / 4096) ∨ 4096 * (cr3 c / 4096) + 4096 <= p) →
  source c kt p (0xFFFFF000 + off) (consec (4096 * (cr3 c / 4096) + off) n).
Proof.
  intros K Ho Hn Hp. pose proof (kmap_distinct _ _ K) as HD.
  assert (∀ i, (i < n)%nat → u32 (0xFFFFF000 + off + Z.of_nat i) = 0xFFFFF000 + (off + Z.of_nat i)) as Hu.
  { intros i Hi. rewrite wrap_small; lia. }
  split; rewrite ?length_consec.
  - intros i pa Hi. apply consec_lookup in Hi as [-> Hi]. rewrite Hu by done.
    destruct (translate_dir c kt (off + Z.of_nat i)) as [-> _]; [done | lia | f_equal; lia].
  - intros i w k Hi Hw Hk. rewrite Hu in Hw by done.
    destruct (translate_dir c kt (off + Z.of_nat i)) as [_ Hwalk]; [done | lia |].
    rewrite Hwalk in Hw. unfold touched, slot0.
    apply elem_of_cons in Hw as [->|Hw]; [lia|]. apply list_elem_of_singleton in Hw. lia.
  - apply Forall_forall. intros a Ha. apply elem_of_consec in Ha. unfold touched, slot0. lia.
Qed.
