(* ===== verification/PagingSpec.v ===== *)
(** * Paging: the properties of kernel/paging.c

    The theorems about the temporary mapping window, about entries of page maps,
    about physical memory reached through the window and about the address
    spaces [initialize_root_pmap] sets up, each with a run on a small machine:
    a directory in frame 1, the window's page table in frame 2 and a data page
    in frame 4 mapped at 0x5000. *)

From S2P Require Import Prelude Bits Machine Paging PagingFacts.

(** ** A new address space *)

(** What [initialize_root_pmap] needs of the frame [nf] and of its own local
    variable, which lives at [va] and is stored at [lp]. *)
Record new_space (c : machine) (kt nf va lp : Z) : Prop := {
  ns_frame : 0 <= nf < 2 ^ 20;
  ns_va : 0 <= va < 2 ^ 32;
  ns_dir : nf ≠ cr3 c / 4096;
  ns_temp : nf ≠ kt;
  ns_map : vmap c va (consec lp 4);
  ns_walk : walk_free c va 4 (λ a, 4096 * nf <= a < 4096 * nf + 4096 ∨
              slot0 kt <= a < slot0 kt + 4 ∨ lp <= a < lp + 4);
  ns_lp_new : lp + 4 <= 4096 * nf ∨ 4096 * nf + 4096 <= lp;
  ns_lp_dir : lp + 4 <= 4096 * (cr3 c / 4096) ∨ 4096 * (cr3 c / 4096) + 4096 <= lp;
  ns_lp_slot : lp + 4 <= slot0 kt ∨ slot0 kt + 4 <= lp
}.

(** The entry that maps a directory into itself. *)
Definition self_pde (nf : Z) : Z :=
  pde_set_is_present (pde_set_is_read_write (pde_set_base 0 (PADDR_TO_PBASE (4096 * nf))) true) true.

(** The memory [initialize_root_pmap] leaves. *)
Definition new_space_memory (m : memory) (pd kt nf lp : Z) : memory :=
  let m1 := store32 m lp (self_pde nf) in
  let m2 := poked m1 kt (4096 * nf + 4076) (load_bytes m1 (4096 * pd + 4076) 16) in
  poked m2 kt (4096 * nf + 4092) (load_bytes m2 lp 4).

(** A machine with a directory in frame 1 whose first entry maps the page
    table in frame 3, which maps page 5 to frame 4; frame 2 holds the page
    table of the window. *)
Definition demo_memory : memory :=
  store_bytes
    (store32 (store32 (store32 (store32 ∅ 0x1FFC 0x1003) 0x1FF8 0x2003) 0x1000 0x3003) 0x3014 0x4003)
    0x4000 [1; 2; 3; 4; 5; 6; 7; 8].

Definition demo : machine := {| phys := demo_memory; cr3 := 0x1000 |}.

Lemma self_pde_range nf : 0 <= nf < 2 ^ 20 → 0 <= self_pde nf < 2 ^ 32.
Proof.
  intros H. unfold self_pde, pde_set_is_present, pde_set_is_read_write, pde_set_base.
  auto 6 using set_bit_range, set_bits_range with lia.
Qed.

Lemma self_pde_fields nf :
  0 <= nf < 2 ^ 20 →
  ent_present (self_pde nf) = true ∧ ent_page_size (self_pde nf) = false ∧
  ent_frame (self_pde nf) = nf.
Proof.
  intros H. unfold self_pde, ent_present, ent_page_size, ent_frame, pde_set_is_present,
    pde_set_is_read_write, pde_set_base, PADDR_TO_PBASE.
  rewrite Z.shiftr_div_pow2 by lia. replace (4096 * nf / 2 ^ 12) with nf by zdiv.
  split; [|split].
  - apply bit_set_eq; lia.
  - by rewrite !bit_set_ne, bit_set_bits_ne by lia.
  - unfold set_bit. rewrite !bits_set_ne, bits_set_eq by lia. apply wrap_small. lia.
Qed.

Lemma load32_as_bytes m a : load_bytes m a 4 = [load8 m a; load8 m (a+1); load8 m (a+2); load8 m (a+3)].
Proof. by rewrite !load_bytes_S, <- !Z.add_assoc. Qed.

(** A word inside a block that was stored. *)
Lemma load32_poked m m' kt p src n off :
  0 <= off → off + 4 <= Z.of_nat n →
  (p + Z.of_nat n <= slot0 kt ∨ slot0 kt + 4 <= p) →
  load32 (poked m kt p (load_bytes m' src n)) (p + off) = load32 m' (src + off).
Proof.
  intros H1 H2 H3. unfold poked. rewrite load32_store32_ne by lia.
  assert (∀ k, 0 <= k < 4 →
    load8 (store_bytes m p (load_bytes m' src n)) (p + off + k) = load8 m' (src + off + k)) as Hb.
  { intros k Hk. rewrite load8_store_bytes, length_load_bytes, decide_True by lia.
    unfold load_bytes. rewrite list_lookup_fmap, lookup_seq_lt by lia. simpl.
    rewrite wrap_small by apply load8_range. f_equal. lia. }
  unfold load32. pose proof (Hb 0) as H0. rewrite !Z.add_0_r in H0.
  by rewrite H0, !Hb by lia.
Qed.

Lemma load32_poked_ne m kt p bs a :
  (p + Z.of_nat (length bs) <= a ∨ a + 4 <= p) → (slot0 kt + 4 <= a ∨ a + 4 <= slot0 kt) →
  load32 (poked m kt p bs) a = load32 m a.
Proof.
  intros H1 H2. unfold load32. by rewrite !load8_poked by (unfold touched; lia).
Qed.

Lemma wp_initialize_root_pmap c kt nf va lp (Q : Z → machine → Prop) L :
  kmap c kt → new_space c kt nf va lp →
  Q E_OK (set_phys (new_space_memory (phys c) (cr3 c / 4096) kt nf lp) c) →
  wp (initialize_root_pmap va (4096 * nf)) Q L c.
Proof.
  intros K [Hnf Hva Hdir Htmp Hmap Hwalk Hl1 Hl2 Hl3] HQ. unfold initialize_root_pmap.
  change (pde_set_is_present _ true) with (self_pde nf).
  change (NDX_TO_VADDR _ _ (PDE_INDEX KERNEL_VSTART)) with (0xFFFFF000 + 4076).
  change (NDX_TO_VADDR _ _ _ - (0xFFFFF000 + 4076)) with (Z.of_nat 16).
  set (pd := cr3 c / 4096) in *.
  assert (translate c va = Some lp) as Htr.
  { pose proof (Hmap O lp) as H. rewrite Z.add_0_r, wrap_small in H by lia. apply H.
    unfold consec. simpl. f_equal. lia. }
  wp_step. eapply wp_vstore32; [done|].
  set (c1 := set_phys _ c).
  assert (kmap c1 kt) as K1.
  { apply kmap_frame; [done | |]; apply load32_store32_ne; fold pd; lia. }
  replace (u32 (4096 * nf + 4 * PDE_INDEX KERNEL_VSTART)) with (4096 * nf + 4076)
    by (change (PDE_INDEX KERNEL_VSTART) with 1019; rewrite wrap_small; lia).
  replace (u32 (4096 * nf + 4 * KERNEL_RECURSIVE_PDE)) with (4096 * nf + 4092)
    by (change KERNEL_RECURSIVE_PDE with 1023; rewrite wrap_small; lia).
  wp_step. rewrite <- (length_consec (4096 * pd + 4076) 16).
  apply (wp_poke c1 kt); rewrite ?length_consec; [exact K1 | lia | lia | lia | lia | | |].
  { change (cr3 c1 / 4096) with pd. unfold apart, slot0. fold pd. simpl. lia. }
  { apply (dir_source c1 kt _ 4076 16); [done | lia | lia |]. simpl. fold pd. lia. }
  rewrite load8_consec. cbv beta. change (is_error E_OK) with false. cbv iota. wp_step.
  set (m2 := poked _ kt _ _). set (c2 := set_phys m2 _).
  assert (∀ a, 4096 * pd <= a < 4096 * pd + 4096 - 3 → load32 m2 a = load32 (phys c1) a) as Hm2.
  { intros a Ha. pose proof (kmap_distinct _ _ K). fold pd in H.
    apply load32_poked_ne; rewrite ?length_load_bytes; unfold slot0; lia. }
  assert (agree (λ a, 4096 * nf <= a < 4096 * nf + 4096 ∨
              slot0 kt <= a < slot0 kt + 4 ∨ lp <= a < lp + 4) c c2) as Hag.
  { split; [done|]. intros a Ha. simpl. unfold m2.
    rewrite load8_poked by (unfold touched; rewrite length_load_bytes; lia).
    simpl. apply load8_store32_ne. lia. }
  change (poke _ va 4) with (poke (4096 * nf + 4092) va (Z.of_nat 4)). rewrite <- (length_consec lp 4).
  apply (wp_poke c2 kt); rewrite ?length_consec; [| lia | lia | lia | lia | | |].
  { apply (kmap_frame c1); [done | |]; simpl; fold pd; apply Hm2; lia. }
  { unfold apart, slot0. simpl. fold pd. lia. }
  { assert (∀ a, touched kt (4096 * nf + 4092) (Z.of_nat 4) a →
      4096 * nf <= a < 4096 * nf + 4096 ∨ slot0 kt <= a < slot0 kt + 4 ∨ lp <= a < lp + 4) as Hsub
      by (intros a; unfold touched; lia).
    split; rewrite ?length_consec.
    - eapply agree_vmap; [done | by rewrite length_consec | done].
    - eapply walk_free_mono; [exact Hsub|]. by eapply agree_walk_free.
    - apply Forall_forall. intros a Ha. apply elem_of_consec in Ha. unfold touched. lia. }
  rewrite load8_consec. exact HQ.
Qed.

(** Directory entries of the new space: the kernel's are shared, the last maps
    the directory itself. *)
Lemma new_space_entries c kt nf va lp k :
  kmap c kt → new_space c kt nf va lp → k = 0 ∨ k = 4 ∨ k = 8 ∨ k = 12 →
  let m := new_space_memory (phys c) (cr3 c / 4096) kt nf lp in
  load32 m (4096 * nf + 4076 + k) = load32 m (4096 * (cr3 c / 4096) + 4076 + k) ∧
  load32 m (4096 * (cr3 c / 4096) + 4076 + k) = load32 (phys c) (4096 * (cr3 c / 4096) + 4076 + k) ∧
  load32 m (4096 * nf + 4092) = self_pde nf.
Proof.
  intros K [Hnf Hva Hdir Htmp Hmap Hwalk Hl1 Hl2 Hl3] Hk. cbv zeta. unfold new_space_memory.
  pose proof (kmap_distinct _ _ K) as HD. set (pd := cr3 c / 4096) in *.
  set (m1 := store32 _ lp _). set (m2 := poked m1 _ _ _).
  assert (load32 m2 (4096 * nf + 4076 + k) = load32 m1 (4096 * pd + 4076 + k)) as E1.
  { unfold m2. replace (4096 * pd + 4076 + k) with ((4096 * pd + 4076) + k) by lia.
    apply load32_poked; unfold slot0; lia. }
  assert (load32 m2 (4096 * pd + 4076 + k) = load32 m1 (4096 * pd + 4076 + k)) as E2.
  { apply load32_poked_ne; rewrite ?length_load_bytes; unfold slot0; lia. }
  assert (load32 m1 (4096 * pd + 4076 + k) = load32 (phys c) (4096 * pd + 4076 + k)) as E3.
  { apply load32_store32_ne. lia. }
  split; [|split].
  - rewrite !load32_poked_ne by (rewrite ?length_load_bytes; unfold slot0; lia). congruence.
  - rewrite load32_poked_ne by (rewrite ?length_load_bytes; unfold slot0; lia). congruence.
  - pose proof (load32_poked m2 m2 kt (4096 * nf + 4092) lp 4 0) as E. rewrite !Z.add_0_r in E.
    rewrite E by (unfold slot0; lia). unfold m2.
    rewrite load32_poked_ne by (rewrite ?length_load_bytes; unfold slot0 in *; lia).
    unfold m1. rewrite load32_store32_eq. by apply wrap_small, self_pde_range.
Qed.

Lemma new_space_kmap c kt nf va lp :
  kmap c kt → new_space c kt nf va lp →
  kmap {| phys := new_space_memory (phys c) (cr3 c / 4096) kt nf lp; cr3 := 4096 * nf |} kt.
Proof.
  intros K N. pose proof (ns_frame _ _ _ _ _ N) as Hnf. pose proof (ns_temp _ _ _ _ _ N).
  destruct (new_space_entries c kt nf va lp 12 K N) as (E1 & E2 & E3); [auto|].
  destruct (self_pde_fields nf Hnf) as (P & S & F).
  rewrite E2 in E1. replace (4096 * nf + 4076 + 12) with (4096 * nf + 4088) in E1 by lia.
  replace (4096 * (cr3 c / 4096) + 4076 + 12) with (4096 * (cr3 c / 4096) + 4088) in E1 by lia.
  destruct K as [Hcr R1 R2 R3 T1 T2 T3 D].
  split; simpl; replace (4096 * nf / 4096) with nf by zdiv; rewrite ?E1, ?E3; done || lia.
Qed.

(** The facts the runs below use of the small machine. *)
Lemma demo_kmap : kmap demo 2.
Proof. split; vm_compute; done || lia. Qed.

Lemma demo_walk va : 0x5000 <= va < 0x6000 →
  translate demo va = Some (va - 0x1000) ∧ walk demo va = [0x1000; 0x3014].
Proof.
  intros H. unfold translate, walk, pde_addr.
  replace (4 * (va / 2 ^ 22)) with 0 by zdiv.
  change (4096 * (cr3 demo / 4096) + 0) with 0x1000.
  change (load32 (phys demo) 0x1000) with 0x3003.
  change (ent_present 0x3003) with true. change (ent_page_size 0x3003) with false.
  unfold pte_addr. replace ((va / 2 ^ 12) mod 1024) with 5 by zdiv.
  change (4096 * ent_frame 0x3003 + 4 * 5) with 0x3014.
  change (load32 (phys demo) 0x3014) with 0x4003. cbv iota.
  change (ent_present 0x4003) with true. change (ent_frame 0x4003) with 4. cbv iota.
  split; [f_equal; zdiv | done].
Qed.

Lemma demo_vmap va n :
  0x5000 <= va → va + Z.of_nat n <= 0x6000 → vmap demo va (consec (va - 0x1000) n).
Proof.
  intros H1 H2 i pa Hi. apply consec_lookup in Hi as [-> Hi]. rewrite wrap_small by lia.
  destruct (demo_walk (va + Z.of_nat i)) as [-> _]; [lia | f_equal; lia].
Qed.

Lemma demo_walk_free va n (W : Z → Prop) :
  0x5000 <= va → va + Z.of_nat n <= 0x6000 →
  (∀ a, 0x1000 <= a < 0x1004 ∨ 0x3014 <= a < 0x3018 → ¬ W a) → walk_free demo va n W.
Proof.
  intros H1 H2 HW i w k Hi Hw Hk. rewrite wrap_small in Hw by lia.
  destruct (demo_walk (va + Z.of_nat i)) as [_ E]; [lia|]. rewrite E in Hw. apply HW.
  apply elem_of_cons in Hw as [->|Hw]; [lia|]. apply list_elem_of_singleton in Hw. lia.
Qed.

Lemma demo_new_space : new_space demo 2 5 0x5004 0x4004.
Proof.
  split; change (cr3 demo / 4096) with 1; unfold slot0; try lia.
  - apply (demo_vmap 0x5004 4); lia.
  - apply demo_walk_free; lia.
Qed.

(** C5. [initialize_root_pmap] sets up an address space the kernel can run in:
    it returns [E_OK], every kernel address below the end of the temporary
    window translates in the new space as in the current one, the new space has
    its own recursive entry and the shared window table ([kmap]), and nothing
    else of memory changes apart from the local variable and the window's first
    entry. *)
Theorem initialize_root_pmap_shares_kernel c kt nf va lp :
  kmap c kt → new_space c kt nf va lp →
  ∃ c', initialize_root_pmap va (4096 * nf) c = Ret E_OK c' ∧ cr3 c' = cr3 c ∧
    kmap {| phys := phys c'; cr3 := 4096 * nf |} kt ∧
    (∀ v, KERNEL_VSTART <= v < KERNEL_TEMP_END →
       translate {| phys := phys c'; cr3 := 4096 * nf |} v = translate c' v) ∧
    (∀ a, ¬ (4096 * nf + 4076 <= a < 4096 * nf + 4096) → ¬ (lp <= a < lp + 4) →
       ¬ (slot0 kt <= a < slot0 kt + 4) → load8 (phys c') a = load8 (phys c) a).
Proof.
  intros K N. eexists. split; [|split; [|split; [|split]]].
  - apply wp_run. intros Q L HQ. eapply wp_initialize_root_pmap; done.
  - done.
  - by eapply new_space_kmap.
  - intros v Hv. unfold KERNEL_VSTART, KERNEL_TEMP_END in Hv.
    assert (load32 (new_space_memory (phys c) (cr3 c / 4096) kt nf lp) (4096 * nf + 4 * (v / 2 ^ 22)) =
      load32 (new_space_memory (phys c) (cr3 c / 4096) kt nf lp)
        (4096 * (cr3 c / 4096) + 4 * (v / 2 ^ 22))) as E.
    { destruct (new_space_entries c kt nf va lp (4 * (v / 2 ^ 22) - 4076) K N) as (E & _ & _); [zdiv|].
      replace (4096 * nf + 4 * (v / 2 ^ 22)) with (4096 * nf + 4076 + (4 * (v / 2 ^ 22) - 4076)) by lia.
      replace (4096 * (cr3 c / 4096) + 4 * (v / 2 ^ 22)) with
        (4096 * (cr3 c / 4096) + 4076 + (4 * (v / 2 ^ 22) - 4076)) by lia. exact E. }
    pose proof (ns_frame _ _ _ _ _ N). unfold translate, pde_addr. cbn [phys cr3 set_phys].
    replace (4096 * nf / 4096) with nf by zdiv. rewrite E. done.
  - intros a H1 H2 H3. simpl. unfold new_space_memory.
    rewrite !load8_poked by (unfold touched; rewrite length_load_bytes; lia).
    apply load8_store32_ne. lia.
Qed.

Lemma initialize_root_pmap_shares_kernel_witness :
  ∃ c', initialize_root_pmap 0x5004 (4096 * 5) demo = Ret E_OK c' ∧ load8 (phys c') 0x4000 = 1.
Proof.
  destruct (initialize_root_pmap_shares_kernel demo 2 5 0x5004 0x4004) as (c' & E & _ & _ & _ & F).
  - apply demo_kmap.
  - apply demo_new_space.
  - exists c'. split; [exact E|]. rewrite F by (unfold slot0; lia). reflexivity.
Defined.

(** [map_temp] maps consecutive frames at consecutive window pages: it
    returns the number of pages that fit below the window's end, each of them
    then translates to its frame, and it writes nothing but their entries. *)
Theorem map_temp_maps c kt va pa count :
  kmap c kt → KERNEL_TEMP_START <= va < KERNEL_TEMP_END → 0 <= pa < 2 ^ 32 → 0 <= count →
  ∃ n c', map_temp va pa count c = Ret n c' ∧ cr3 c' = cr3 c ∧ kmap c' kt ∧
    n = Z.min count ((KERNEL_TEMP_END - 4096 * (va / 4096)) / 4096) ∧
    (∀ i off, 0 <= i < n → 0 <= off < 4096 →
       translate c' (4096 * (va / 4096) + 4096 * i + off) =
         Some (u32 (4096 * (pa / 4096) + 4096 * i) + off)) ∧
    (∀ a, a + 4 <= slot kt va ∨ slot kt va + 4 * n <= a → load32 (phys c') a = load32 (phys c) a).
Proof.
  intros K Hva Hpa Hn.
  assert (in_window (4096 * (va / 4096))) as Hw
    by (unfold in_window, KERNEL_TEMP_START, KERNEL_TEMP_END in *; zdiv).
  assert (slot kt (4096 * (va / 4096)) = slot kt va) as Hslot by (unfold slot; zdiv).
  assert ((4096 * (va / 4096)) mod 4096 = 0) as Ha by zdiv.
  set (np := window_pages (4096 * (va / 4096)) (Z.to_nat count)).
  pose proof (window_pages_fit (4096 * (va / 4096)) (Z.to_nat count) Hw) as Hfit. fold np in Hfit.
  exists (Z.of_nat np). eexists. split; [|split; [|split; [|split; [|split]]]].
  - apply wp_run. intros Q L HQ. unfold map_temp.
    assert (0 <= va < 2 ^ 32) as Hva32 by (unfold KERNEL_TEMP_START, KERNEL_TEMP_END in Hva; lia).
    rewrite !align_down_page by done.
    replace (_ <? KERNEL_TEMP_START) with false by (unfold KERNEL_TEMP_START in *; zdiv).
    eapply map_temp_loop_spec; [done | by left | done |]. exact HQ.
  - done.
  - by apply kmap_map_slots.
  - subst np. unfold window_pages, in_window, KERNEL_TEMP_END in *. zdiv.
  - intros i off Hi Ho. rewrite (translate_window _ kt); [| by apply kmap_map_slots |].
    2: { unfold in_window, KERNEL_TEMP_END in *. lia. }
    replace (slot kt _) with (slot kt (4096 * (va / 4096) + 4096 * Z.of_nat (Z.to_nat i)))
      by (unfold slot; zdiv).
    cbn [set_phys phys]. rewrite map_slots_lookup; [| done | done | done | zdiv | lia].
    cbv zeta. rewrite temp_pte_present, temp_pte_frame, Z2Nat.id by (apply wrap_range || lia; lia).
    cbv iota. f_equal. pose proof (wrap_range 32 (4096 * (pa / 4096) + 4096 * i)).
    unfold wrap in *. zdiv.
  - intros a Hd. apply map_slots_before; [done | done | done |]. rewrite Hslot. lia.
Qed.

Lemma map_temp_maps_witness :
  ∃ n c', map_temp (KERNEL_TEMP_END - 0x2000) 0x7123 5 demo = Ret n c' ∧ n = 2 ∧
    translate c' (KERNEL_TEMP_END - 0x1000) = Some 0x8000.
Proof.
  destruct (map_temp_maps demo 2 (KERNEL_TEMP_END - 0x2000) 0x7123 5) as (n & c' & E & _ & _ & Hn & T & _);
    [apply demo_kmap | unfold KERNEL_TEMP_START, KERNEL_TEMP_END; lia | lia | lia |].
  change (Z.min _ _) with 2 in Hn. exists n, c'. split; [exact E | split; [exact Hn|]].
  apply (T 1 0); lia.
Defined.

(** An entry written with [write_pmap_entry] is the one [read_pmap_entry]
    then returns, in the current and in any other page map, unless the entry
    is one the temporary mapping itself goes through; other words of memory
    keep their value. *)
Theorem write_read_pmap_entry c kt pbase entry v :
  kmap c kt → 0 <= entry < 1024 → 0 <= pbase < 2 ^ 32 → 0 <= v < 2 ^ 32 →
  pmap_addr c pbase entry ≠ slot0 kt →
  pmap_addr c pbase entry ≠ 4096 * (cr3 c / 4096) + 4088 →
  pmap_addr c pbase entry ≠ 4096 * (cr3 c / 4096) + 4092 →
  ∃ c1 c2, write_pmap_entry pbase entry v c = Ret E_OK c1 ∧
    read_pmap_entry pbase entry c1 = Ret (Some v) c2 ∧ kmap c2 kt ∧
    load32 (phys c2) (pmap_addr c pbase entry) = v ∧
    (∀ a, ¬ (pmap_addr c pbase entry <= a < pmap_addr c pbase entry + 4) →
       ¬ (slot0 kt <= a < slot0 kt + 4) → load8 (phys c2) a = load8 (phys c) a).
Proof.
  intros K He Hp Hv N1 N2 N3. pose proof (kmap_distinct _ _ K) as HD.
  set (w := pmap_addr c pbase entry) in *.
  assert (w mod 4 = 0) as Hw by (unfold w, pmap_addr; zdiv).
  set (m1 := store32 (store32 (phys c) w v) (slot0 kt) 0). set (c1 := set_phys m1 c).
  assert (kmap c1 kt) as K1.
  { apply kmap_frame; [done | |]; unfold m1; rewrite !load32_store32_ne;
      unfold slot0 in *; done || zdiv. }
  assert (load32 m1 w = v) as Hl.
  { unfold m1. rewrite load32_store32_ne by (unfold slot0 in *; zdiv).
    rewrite load32_store32_eq. by apply wrap_small. }
  exists c1. eexists. split; [|split; [|split; [|split]]].
  - apply wp_run. intros Q L HQ. eapply wp_write_pmap_entry; done.
  - apply wp_run. intros Q L HQ. eapply (wp_read_pmap_entry c1 kt); [done..|].
    change (pmap_addr c1 pbase entry) with w. cbn [c1 set_phys phys]. rewrite Hl. exact HQ.
  - apply (kmap_frame_slot c1 kt KERNEL_TEMP_START). done.
  - cbn [c1 set_phys phys]. rewrite load32_store32_ne by (unfold slot0 in *; zdiv). done.
  - intros a A1 A2. cbn [c1 set_phys phys]. unfold m1. rewrite !load8_store32_ne by lia. done.
Qed.

Lemma write_read_pmap_entry_witness :
  ∃ c1 c2, write_pmap_entry CURRENT_ROOT_PMAP 1 0x9003 demo = Ret E_OK c1 ∧
    read_pmap_entry CURRENT_ROOT_PMAP 1 c1 = Ret (Some 0x9003) c2 ∧ load32 (phys c2) 0x1004 = 0x9003.
Proof.
  destruct (write_read_pmap_entry demo 2 CURRENT_ROOT_PMAP 1 0x9003) as (c1 & c2 & E1 & E2 & _ & E3 & _);
    [apply demo_kmap | lia | unfold CURRENT_ROOT_PMAP; lia | lia | vm_compute; done.. |].
  exists c1, c2. split; [exact E1 | split; [exact E2 | exact E3]].
Defined.

(** C16. Physical memory through the window: after [poke] has copied the block
    mapped at [s] to physical address [p], [peek] copies it from there to the
    block mapped at [d], whatever page boundaries the three blocks cross. *)
Theorem poke_peek c kt p s d ss ds :
  kmap c kt → 0 <= p → p + Z.of_nat (length ss) <= 2 ^ 32 → 0 <= s < 2 ^ 32 → 0 <= d < 2 ^ 32 →
  (0 < length ss)%nat → length ds = length ss → NoDup ds →
  apart c kt p (Z.of_nat (length ss)) → source c kt p s ss → sink c kt p d ds →
  walk_free c d (length ds) (touched kt p (Z.of_nat (length ss))) →
  ∃ c1 c2, poke p s (Z.of_nat (length ss)) c = Ret E_OK c1 ∧
    peek p d (Z.of_nat (length ss)) c1 = Ret E_OK c2 ∧
    load_bytes (phys c2) p (length ss) = load8 (phys c) <$> ss ∧
    load8 (phys c2) <$> ds = load8 (phys c) <$> ss.
Proof.
  intros K Hp0 Hp1 Hs Hd Hpos Hl Hn Hap Hsrc Hsnk Hwf.
  set (bs := load8 (phys c) <$> ss).
  assert (length bs = length ss) as Hb by apply length_fmap.
  set (c1 := set_phys (poked (phys c) kt p bs) c).
  assert (agree (touched kt p (Z.of_nat (length ss))) c c1) as Hag.
  { split; [done|]. intros a Ha. apply load8_poked. by rewrite Hb. }
  assert (kmap c1 kt) as K1.
  { apply (kmap_frame_slot (set_phys (store_bytes (phys c) p bs) c) kt KERNEL_TEMP_START).
    apply kmap_store_bytes; [done | by rewrite Hb]. }
  assert (load_bytes (phys c1) p (length ss) = bs) as Hbs.
  { rewrite <- Hb. cbn [c1 set_phys phys]. unfold poked.
    rewrite (agree_load_bytes (λ a, slot0 kt <= a < slot0 kt + 4)
      {| phys := store_bytes (phys c) p bs; cr3 := cr3 c |}
      {| phys := store32 (store_bytes (phys c) p bs) (slot0 kt) 0; cr3 := cr3 c |}).
    - apply load_bytes_store_bytes, load8_bytes.
    - split; [done|]. intros a Ha. apply load8_store32_ne. lia.
    - intros a Ha. destruct Hap as [Hap _]. lia. }
  assert (sink c1 kt p d ds) as Hsnk1.
  { destruct Hsnk. split; try done; [by eapply agree_vmap | by eapply agree_walk_free_any]. }
  exists c1, (set_phys (peeked (phys c1) kt ds bs) c1). split; [|split; [|split]].
  - apply wp_run. intros Q L HQ. by eapply wp_poke.
  - apply wp_run. intros Q L HQ. rewrite <- Hl. eapply wp_peek; try done; try lia.
    rewrite Hl, Hbs. exact HQ.
  - cbn [set_phys phys]. rewrite (agree_load_bytes (written kt ds) c1
      (set_phys (peeked (phys c1) kt ds bs) c1)); [done | by apply agree_peeked |].
    rewrite <- Hl. apply Hsnk.
  - cbn [set_phys phys]. unfold peeked.
    transitivity (load8 (store_at (phys c1) ds bs) <$> ds).
    + apply list_fmap_ext. intros i a Ha. apply load8_store32_ne.
      pose proof (Forall_lookup_1 _ _ _ _ (sink_slot _ _ _ _ _ Hsnk) Ha) as Hna.
      simpl in Hna. lia.
    + apply load8_store_at_eq; [done | lia | apply load8_bytes].
Qed.

Lemma poke_peek_witness :
  ∃ c1 c2, poke 0x6FFE 0x5000 (Z.of_nat 4) demo = Ret E_OK c1 ∧
    peek 0x6FFE 0x5100 (Z.of_nat 4) c1 = Ret E_OK c2 ∧
    load8 (phys c2) <$> consec 0x4100 4 = [1; 2; 3; 4].
Proof.
  destruct (poke_peek demo 2 0x6FFE 0x5000 0x5100 (consec 0x4000 4) (consec 0x4100 4))
    as (c1 & c2 & E1 & E2 & _ & E3); rewrite ?length_consec; try lia.
  - apply demo_kmap.
  - apply (bool_decide_unpack _). vm_compute. exact I.
  - unfold apart, slot0. change (cr3 demo / 4096) with 1. lia.
  - split; rewrite ?length_consec.
    + apply (demo_vmap 0x5000 4); lia.
    + apply demo_walk_free; unfold touched, slot0; lia.
    + apply Forall_forall. intros a Ha. apply elem_of_consec in Ha. unfold touched, slot0. lia.
  - split; rewrite ?length_consec; change (cr3 demo / 4096) with 1.
    + apply (demo_vmap 0x5100 4); lia.
    + apply demo_walk_free; [lia | lia |]. intros a Ha [Hin|Hin];
        [apply elem_of_consec in Hin; lia | unfold slot0 in Hin; lia].
    + apply Forall_forall. intros a Ha. apply elem_of_consec in Ha. unfold slot0. lia.
    + apply Forall_forall. intros a Ha. apply elem_of_consec in Ha. lia.
    + intros a Ha [Hin|Hin]; [apply elem_of_consec in Hin; lia | unfold slot0 in Hin; lia].
  - apply demo_walk_free; unfold touched, slot0; lia.
  - exists c1, c2. rewrite length_consec in E1, E2. split; [exact E1 | split; [exact E2 | exact E3]].
Defined.
