(* ===== verification/Kernel.v ===== *)
(** * The kernel's state: include/kernel/thread.h, list_struct.h, schedule.h,
      lowlevel.h, interrupt.h

    The data the kernel keeps about threads, as one record.  A [tcb_t *] is the
    index of the block in [tcb_table] ([option Z] where it may be NULL), and a
    [list_t *] is a [qref], the place the list lives in.  An access outside of
    an array is the outcome [Fault OutOfBounds], the dereference of NULL is
    [Fault NullDeref]. *)

From S2P Require Import Prelude Bits Machine Paging.

(** ** Threads *)

Definition NULL_TID : Z := 0.
Definition KERNEL_TID : Z := NULL_TID.
Definition ANY_SENDER : Z := NULL_TID.
Definition ANY_RECIPIENT : Z := NULL_TID.

(** Length of the table declared in kernel/thread.c. *)
Definition NUM_TCBS : Z := 16.
Definition MAX_THREADS : Z := 65536.
Definition MAX_PROCESSORS : Z := 64.
Definition NUM_IRQS : Z := 24.

Definition NUM_PRIORITIES : Z := 5.
Definition MIN_PRIORITY : Z := 0.
Definition MAX_PRIORITY : Z := 4.
Definition NORMAL_PRIORITY : Z := 2.

Inductive thread_state_t :=
| INACTIVE | PAUSED | ZOMBIE | READY | RUNNING | WAIT_FOR_SEND | WAIT_FOR_RECV | SLEEPING.

#[global] Instance thread_state_eq_dec : EqDecision thread_state_t.
Proof. solve_decision. Defined.

(** The saved registers of a thread. *)
Record ExecutionState := {
  gs : Z; fs : Z; es : Z; ds : Z;
  edi : Z; esi : Z; ebp : Z; ebx : Z; edx : Z; ecx : Z; eax : Z;
  eip : Z; cs : Z; avail : Z; eflags : Z; user_esp : Z; user_ss : Z; avail2 : Z
}.

#[export] Hint Extern 0 (@Update ExecutionState _ ?p) =>
  derive_update (λ r, {| gs := gs r; fs := fs r; es := es r; ds := ds r; edi := edi r;
    esi := esi r; ebp := ebp r; ebx := ebx r; edx := edx r; ecx := ecx r; eax := eax r;
    eip := eip r; cs := cs r; avail := avail r; eflags := eflags r; user_esp := user_esp r;
    user_ss := user_ss r; avail2 := avail2 r |}) p : typeclass_instances.

Record list_t := { head_tid : Z; tail_tid : Z }.

#[export] Hint Extern 0 (@Update list_t _ ?p) =>
  derive_update (λ l, {| head_tid := head_tid l; tail_tid := tail_tid l |}) p : typeclass_instances.

Record tcb_t := {
  wait_for_kernel_msg : bool;
  thread_state : thread_state_t;
  priority : Z;
  wait_tid : Z;
  receiver_wait_queue : list_t;
  sender_wait_queue : list_t;
  prev_tid : Z;
  next_tid : Z;
  ex_handler : Z;
  pager : Z;
  event_mask : Z;
  pending_events : Z;
  cap_table : Z;
  cap_table_size : Z;
  fxsave_state : option Z;
  fxsave_state_len : Z;
  xsave_rfbm : Z;
  user_exec_state : ExecutionState;
  root_pmap : Z
}.

#[export] Hint Extern 0 (@Update tcb_t _ ?p) =>
  derive_update (λ t, {| wait_for_kernel_msg := wait_for_kernel_msg t;
    thread_state := thread_state t; priority := priority t; wait_tid := wait_tid t;
    receiver_wait_queue := receiver_wait_queue t; sender_wait_queue := sender_wait_queue t;
    prev_tid := prev_tid t; next_tid := next_tid t; ex_handler := ex_handler t;
    pager := pager t; event_mask := event_mask t; pending_events := pending_events t;
    cap_table := cap_table t; cap_table_size := cap_table_size t;
    fxsave_state := fxsave_state t; fxsave_state_len := fxsave_state_len t;
    xsave_rfbm := xsave_rfbm t; user_exec_state := user_exec_state t;
    root_pmap := root_pmap t |}) p : typeclass_instances.

Record Processor := {
  is_online : bool; acpi_uid : Z; lapic_id : Z; running_thread : option Z
}.

#[export] Hint Extern 0 (@Update Processor _ ?p) =>
  derive_update (λ c, {| is_online := is_online c; acpi_uid := acpi_uid c;
    lapic_id := lapic_id c; running_thread := running_thread c |}) p : typeclass_instances.

(** ** The whole state

    [regs] holds the registers the processor runs user code with after the
    kernel is left; [fpu] stands for the contents of the floating-point unit and
    [fxsave_areas] for the memory its copies are kept in.  [tcb_table_addr] is
    the address of the table, which the kernel never changes. *)
Record kstate := {
  mach : machine;
  tcb_table : gmap Z tcb_t;
  run_queues : gmap Z list_t;
  paused_list : list_t;
  zombie_list : list_t;
  processors : gmap Z Processor;
  num_processors : Z;
  irq_handlers : gmap Z (option Z);
  last_tid : Z;
  lock_tcb_table : bool;
  init_server_thread : option Z;
  kernel_stack_top : Z;
  tss_esp0 : Z;
  regs : ExecutionState;
  fpu : Z;
  fxsave_areas : gmap Z Z;
  tcb_table_addr : Z
}.

#[export] Hint Extern 0 (@Update kstate _ ?p) =>
  derive_update (λ s, {| mach := mach s; tcb_table := tcb_table s; run_queues := run_queues s;
    paused_list := paused_list s; zombie_list := zombie_list s; processors := processors s;
    num_processors := num_processors s; irq_handlers := irq_handlers s;
    last_tid := last_tid s; lock_tcb_table := lock_tcb_table s;
    init_server_thread := init_server_thread s; kernel_stack_top := kernel_stack_top s;
    tss_esp0 := tss_esp0 s; regs := regs s; fpu := fpu s; fxsave_areas := fxsave_areas s;
    tcb_table_addr := tcb_table_addr s |}) p : typeclass_instances.

(** ** Pointers *)

(** Paging code, run on the machine of the state. *)
Definition vm {A} (m : M machine A) : M kstate A := zoom mach (λ c s, s <| mach := c |>) m.

(** [*thread] and [thread->field = value] for a pointer into the table. *)
Definition tcb_at (t : Z) : M kstate tcb_t :=
  let* T := gets tcb_table in deref OutOfBounds (T !! t).

Definition upd_tcb (t : Z) (f : tcb_t → tcb_t) : M kstate unit :=
  let* tc := tcb_at t in modify (λ s, s <| tcb_table ::= insert t (f tc) |>).

Definition upd_state (t : Z) (f : ExecutionState → ExecutionState) : M kstate unit :=
  upd_tcb t (λ tc, tc <| user_exec_state ::= f |>).

Definition nonnull (o : option Z) : M kstate Z := deref NullDeref o.

(** The difference of a pointer and the table, as [tid_t]; [sizeof(tcb_t)] is
    128.  For NULL it is whatever the address of the table makes it. *)
Definition get_tid (tcb : option Z) : M kstate Z :=
  match tcb with
  | Some t => ret (u16 t)
  | None => gets (λ s, u16 (Z.shiftr (- tcb_table_addr s) 7))
  end.

Definition get_tcb (tid : Z) : option Z := if tid =? NULL_TID then None else Some tid.

(** Where a [list_t] lives.  [LinkQ t] is the pair of link fields of [t] read as
    a list, which is what a pointer one past [sender_wait_queue] refers to. *)
Inductive qref :=
| RunQ (p : Z) | PausedQ | ZombieQ | SenderQ (t : Z) | ReceiverQ (t : Z) | LinkQ (t : Z).

#[global] Instance qref_eq_dec : EqDecision qref.
Proof. solve_decision. Defined.

Definition read_list (q : qref) : M kstate list_t :=
  match q with
  | RunQ p => let* R := gets run_queues in deref OutOfBounds (R !! p)
  | PausedQ => gets paused_list
  | ZombieQ => gets zombie_list
  | SenderQ t => let* tc := tcb_at t in ret (sender_wait_queue tc)
  | ReceiverQ t => let* tc := tcb_at t in ret (receiver_wait_queue tc)
  | LinkQ t => let* tc := tcb_at t in ret {| head_tid := prev_tid tc; tail_tid := next_tid tc |}
  end.

Definition upd_list (q : qref) (f : list_t → list_t) : M kstate unit :=
  match q with
  | RunQ p =>
      let* R := gets run_queues in
      let* l := deref OutOfBounds (R !! p) in
      modify (λ s, s <| run_queues ::= insert p (f l) |>)
  | PausedQ => modify (λ s, s <| paused_list ::= f |>)
  | ZombieQ => modify (λ s, s <| zombie_list ::= f |>)
  | SenderQ t => upd_tcb t (λ tc, tc <| sender_wait_queue ::= f |>)
  | ReceiverQ t => upd_tcb t (λ tc, tc <| receiver_wait_queue ::= f |>)
  | LinkQ t => upd_tcb t (λ tc,
      let l := f {| head_tid := prev_tid tc; tail_tid := next_tid tc |} in
      tc <| prev_tid := head_tid l |> <| next_tid := tail_tid l |>)
  end.

(** ** Processors *)

Definition processor_get_current : Z := 0.

Definition processor_at (p : Z) : M kstate Processor :=
  let* P := gets processors in deref OutOfBounds (P !! p).

Definition set_running_thread (p : Z) (o : option Z) : M kstate unit :=
  let* c := processor_at p in
  modify (λ s, s <| processors ::= insert p (c <| running_thread := o |>) |>).

Definition thread_get_current : M kstate (option Z) :=
  let* c := processor_at processor_get_current in ret (running_thread c).

Definition thread_set_current (o : option Z) : M kstate unit :=
  set_running_thread processor_get_current o.

Definition get_cr3 : M kstate Z := gets (λ s, cr3 (mach s)).
Definition set_cr3 (v : Z) : M kstate unit :=
  modify (λ s, s <| mach ::= λ c, {| phys := phys c; cr3 := v |} |>).

Definition fxsave (p : Z) : M kstate unit :=
  modify (λ s, s <| fxsave_areas ::= insert p (fpu s) |>).
Definition fxrstor (p : Z) : M kstate unit :=
  modify (λ s, s <| fpu := default 0 (fxsave_areas s !! p) |>).
