(* ===== verification/KList.v ===== *)
(** * Thread queues: kernel/list.c, include/kernel/list.h

    The kernel's queues are doubly linked through the thread control blocks.
    This file translates the operations of kernel/list.c and proves that they
    implement operations on finite sequences: [wf s Q] says that in state [s]
    every queue [q] holds the sequence [Q q], all of them disjoint, and [core s]
    is what is left of [s] when the links and queue heads are taken out. *)

From stdpp Require Import functions.
From S2P Require Import Prelude Bits Machine Paging Kernel.

(** ** The operations *)

Definition LIST_IS_EMPTY (l : list_t) : bool :=
  (head_tid l =? NULL_TID) && (tail_tid l =? NULL_TID).

Definition list_insert_at_end (list : qref) (thread : Z) (at_tail : bool) : M kstate unit :=
  let* threadTid := get_tid (Some thread) in
  let* l := read_list list in
  if LIST_IS_EMPTY l then
    upd_list list (λ l, l <| head_tid := threadTid |>) ;;
    upd_list list (λ l, l <| tail_tid := threadTid |>) ;;
    upd_tcb thread (λ tc, tc <| next_tid := NULL_TID |>) ;;
    upd_tcb thread (λ tc, tc <| prev_tid := NULL_TID |>)
  else if at_tail then
    upd_tcb thread (λ tc, tc <| next_tid := NULL_TID |>) ;;
    let* l := read_list list in
    match get_tcb (tail_tid l) with
    | Some t => upd_tcb t (λ tc, tc <| next_tid := threadTid |>)
    | None => ret tt
    end ;;
    let* l := read_list list in
    upd_tcb thread (λ tc, tc <| prev_tid := tail_tid l |>) ;;
    upd_list list (λ l, l <| tail_tid := threadTid |>)
  else
    upd_tcb thread (λ tc, tc <| prev_tid := NULL_TID |>) ;;
    let* l := read_list list in
    match get_tcb (head_tid l) with
    | Some t => upd_tcb t (λ tc, tc <| prev_tid := threadTid |>)
    | None => ret tt
    end ;;
    let* l := read_list list in
    upd_tcb thread (λ tc, tc <| next_tid := head_tid l |>) ;;
    upd_list list (λ l, l <| head_tid := threadTid |>).

Definition list_remove_from_end (list : qref) (at_tail : bool) : M kstate (option Z) :=
  let* l := read_list list in
  let removed_tcb := get_tcb (if at_tail then tail_tid l else head_tid l) in
  when ((head_tid l =? 0) || (tail_tid l =? 0))
    (kassert ((head_tid l =? NULL_TID) && (tail_tid l =? NULL_TID))) ;;
  when (negb (head_tid l =? 0) || negb (tail_tid l =? 0))
    (kassert (negb (head_tid l =? NULL_TID) && negb (tail_tid l =? NULL_TID))) ;;
  match removed_tcb with
  | Some r =>
      let* tc := tcb_at r in
      (if at_tail then
         upd_list list (λ l, l <| tail_tid := prev_tid tc |>) ;;
         let* l := read_list list in
         if tail_tid l =? NULL_TID then upd_list list (λ l, l <| head_tid := NULL_TID |>)
         else
           let* t := nonnull (get_tcb (tail_tid l)) in
           upd_tcb t (λ tc, tc <| next_tid := NULL_TID |>)
       else
         upd_list list (λ l, l <| head_tid := next_tid tc |>) ;;
         let* l := read_list list in
         if head_tid l =? NULL_TID then upd_list list (λ l, l <| tail_tid := NULL_TID |>)
         else
           let* t := nonnull (get_tcb (head_tid l)) in
           upd_tcb t (λ tc, tc <| prev_tid := NULL_TID |>)) ;;
      upd_tcb r (λ tc, tc <| prev_tid := NULL_TID |>) ;;
      upd_tcb r (λ tc, tc <| next_tid := NULL_TID |>) ;;
      ret (Some r)
  | None => ret None
  end.

Definition list_remove (list : qref) (thread : Z) : M kstate unit :=
  let* thread_tid := get_tid (Some thread) in
  let* tc := tcb_at thread in
  when (negb (next_tid tc =? NULL_TID))
    (let* t := nonnull (get_tcb (next_tid tc)) in
     upd_tcb t (λ u, u <| prev_tid := prev_tid tc |>)) ;;
  let* tc := tcb_at thread in
  when (negb (prev_tid tc =? NULL_TID))
    (let* t := nonnull (get_tcb (prev_tid tc)) in
     upd_tcb t (λ u, u <| next_tid := next_tid tc |>)) ;;
  let* l := read_list list in
  let* tc := tcb_at thread in
  when (head_tid l =? thread_tid) (upd_list list (λ l, l <| head_tid := next_tid tc |>)) ;;
  let* l := read_list list in
  let* tc := tcb_at thread in
  when (tail_tid l =? thread_tid) (upd_list list (λ l, l <| tail_tid := prev_tid tc |>)) ;;
  upd_tcb thread (λ tc, tc <| prev_tid := NULL_TID |>) ;;
  upd_tcb thread (λ tc, tc <| next_tid := NULL_TID |>).

Definition list_enqueue (list : qref) (thread : Z) : M kstate unit := list_insert_at_end list thread false.
Definition list_dequeue (list : qref) : M kstate (option Z) := list_remove_from_end list true.
Definition list_push (list : qref) (thread : Z) : M kstate unit := list_insert_at_end list thread false.
Definition list_pop (list : qref) : M kstate (option Z) := list_remove_from_end list false.

(** ** What the queues are, seen from the links *)

Abbreviation link_map := (Z → option (Z * Z)).
Abbreviation list_map := (qref → option list_t).

Definition link (s : kstate) : link_map := λ t,
  (λ tc, (prev_tid tc, next_tid tc)) <$> tcb_table s !! t.

Definition lst (s : kstate) : list_map := λ q,
  match q with
  | RunQ p => run_queues s !! p
  | PausedQ => Some (paused_list s)
  | ZombieQ => Some (zombie_list s)
  | SenderQ t => sender_wait_queue <$> tcb_table s !! t
  | ReceiverQ t => receiver_wait_queue <$> tcb_table s !! t
  | LinkQ _ => None
  end.

Definition nil_list : list_t := {| head_tid := 0; tail_tid := 0 |}.

Definition core_tcb (tc : tcb_t) : tcb_t :=
  tc <| prev_tid := 0 |> <| next_tid := 0 |>
     <| sender_wait_queue := nil_list |> <| receiver_wait_queue := nil_list |>.

(** The state without its links and queue heads. *)
Definition core (s : kstate) : kstate :=
  s <| tcb_table ::= fmap core_tcb |> <| run_queues := ∅ |>
    <| paused_list := nil_list |> <| zombie_list := nil_list |>.

Definition hd0 (n : Z) (xs : list Z) : Z := default n (head xs).
Definition last0 (p : Z) (xs : list Z) : Z := default p (last xs).

(** [xs] is linked in this order, after [p] and before [n]. *)
Fixpoint chain (lk : link_map) (p : Z) (xs : list Z) (n : Z) : Prop :=
  match xs with
  | [] => True
  | x :: xs => lk x = Some (p, hd0 n xs) ∧ chain lk x xs n
  end.

Definition valid_q (q : qref) : Prop :=
  match q with
  | RunQ p => 0 <= p < NUM_PRIORITIES
  | SenderQ t | ReceiverQ t => 0 <= t < NUM_TCBS
  | PausedQ | ZombieQ => True
  | LinkQ _ => False
  end.

Abbreviation queues := (qref → list Z).

Definition free (Q : queues) (t : Z) : Prop := ∀ q, t ∉ Q q.

Record qwf (lk : link_map) (ls : list_map) (Q : queues) : Prop := {
  qwf_links : ∀ t, is_Some (lk t) ↔ 0 <= t < NUM_TCBS;
  qwf_lists : ∀ q, is_Some (ls q) ↔ valid_q q;
  qwf_list : ∀ q l, ls q = Some l → head_tid l = hd0 0 (Q q) ∧ tail_tid l = last0 0 (Q q);
  qwf_chain : ∀ q, chain lk 0 (Q q) 0;
  qwf_valid : ∀ q t, t ∈ Q q → valid_q q ∧ 0 < t < NUM_TCBS;
  qwf_nodup : ∀ q, NoDup (Q q);
  qwf_disjoint : ∀ q q' t, t ∈ Q q → t ∈ Q q' → q = q';
  qwf_free : ∀ t, 0 <= t < NUM_TCBS → free Q t → lk t = Some (0, 0)
}.

(** The queues of [s] hold the sequences [Q]. *)
Definition wf (s : kstate) (Q : queues) : Prop := qwf (link s) (lst s) Q.

(** ** Chains *)

Lemma hd0_app n xs ys : hd0 n (xs ++ ys) = hd0 (hd0 n ys) xs.
Proof. by destruct xs. Qed.

Lemma last0_cons p x xs : last0 p (x :: xs) = last0 x xs.
Proof. unfold last0. rewrite last_cons. by destruct (last xs). Qed.

Lemma last0_snoc p xs x : last0 p (xs ++ [x]) = x.
Proof. unfold last0. by rewrite last_snoc. Qed.

Lemma chain_app lk xs : ∀ p ys n,
  chain lk p (xs ++ ys) n ↔ chain lk p xs (hd0 n ys) ∧ chain lk (last0 p xs) ys n.
Proof.
  induction xs as [|x xs IH]; intros p ys n; simpl; [tauto|].
  rewrite IH, hd0_app, last0_cons. tauto.
Qed.

Lemma chain_ext lk lk' xs : ∀ p n,
  (∀ x, x ∈ xs → lk' x = lk x) → chain lk p xs n → chain lk' p xs n.
Proof.
  induction xs as [|x xs IH]; intros p n Heq; simpl; [done|]. intros [H1 H2]. split.
  - rewrite Heq; [done | by left].
  - apply IH; [|done]. intros y Hy. apply Heq. by right.
Qed.

Lemma hd0_nonzero xs : Forall (λ x, 0 < x) xs → hd0 0 xs = 0 ↔ xs = [].
Proof. destruct xs; [done|]. intros [H _]%Forall_cons. unfold hd0. simpl. split; [lia | done]. Qed.

Lemma last0_elem p xs : xs ≠ [] → last0 p xs ∈ xs.
Proof.
  intros H. destruct (exists_last H) as (ys & y & ->). rewrite last0_snoc.
  apply elem_of_app. right. by left.
Qed.

(** The links determine the sequence. *)
Lemma chain_unique lk xs : ∀ p ys,
  Forall (λ x, 0 < x) xs → Forall (λ x, 0 < x) ys → chain lk p xs 0 → chain lk p ys 0 →
  hd0 0 xs = hd0 0 ys → xs = ys.
Proof.
  induction xs as [|x xs IH]; intros p ys Hx Hy Cx Cy E; [symmetry in E; by apply hd0_nonzero in E|].
  destruct ys as [|y ys]; [by apply hd0_nonzero in E|]. unfold hd0 in E. simpl in E. subst y. f_equal.
  simpl in Cx, Cy. destruct Cx as [Ex Cx], Cy as [Ey Cy]. rewrite Ex in Ey. injection Ey as Ey.
  apply Forall_cons in Hx as [_ Hx]. apply Forall_cons in Hy as [_ Hy]. by eapply IH.
Qed.

Lemma qwf_unique lk ls Q Q' q : qwf lk ls Q → qwf lk ls Q' → Q q = Q' q.
Proof.
  intros W W'.
  assert (∀ Q, qwf lk ls Q → Forall (λ x, 0 < x) (Q q)) as Hpos
    by (intros Q0 W0; apply Forall_forall; intros x Hx; by apply (qwf_valid _ _ _ W0) in Hx as [_ [? _]]).
  eapply chain_unique; [by apply Hpos | by apply Hpos | by eapply qwf_chain | by eapply qwf_chain |].
  destruct (ls q) as [l|] eqn:El.
  - destruct (qwf_list _ _ _ W _ _ El) as [<- _]. by destruct (qwf_list _ _ _ W' _ _ El) as [<- _].
  - assert (∀ Q, qwf lk ls Q → Q q = []) as Hnil; [|by rewrite !Hnil].
    intros Q0 W0. destruct (Q0 q) as [|x xs] eqn:EQ; [done|].
    assert (x ∈ Q0 q) as Hx by (rewrite EQ; by left). apply (qwf_valid _ _ _ W0) in Hx as [Hv _].
    apply (qwf_lists _ _ _ W0) in Hv. rewrite El in Hv. by destruct Hv.
Qed.

(** ** Symbolic steps of the operations *)

Definition repr (s : kstate) (lk : link_map) (ls : list_map) : Prop :=
  (∀ t, link s t = lk t) ∧ (∀ q, lst s q = ls q).

Lemma repr_refl s : repr s (link s) (lst s).
Proof. done. Qed.

Lemma core_table s g :
  core (s <| tcb_table ::= g |>) = (core s) <| tcb_table := core_tcb <$> g (tcb_table s) |>.
Proof. reflexivity. Qed.

Lemma core_insert s t tc tc' :
  tcb_table s !! t = Some tc → core_tcb tc' = core_tcb tc →
  core (s <| tcb_table ::= insert t tc' |>) = core s.
Proof.
  intros Ht Hc. rewrite core_table, fmap_insert, Hc, <- fmap_insert, insert_id by done. done.
Qed.

Section steps.
Context (Post : unit → kstate → Prop) (L : kstate → Prop).

Lemma wp_upd_link s lk ls t p n p' n' f :
  repr s lk ls → lk t = Some (p, n) →
  (∀ tc, core_tcb (f tc) = core_tcb tc ∧
     sender_wait_queue (f tc) = sender_wait_queue tc ∧
     receiver_wait_queue (f tc) = receiver_wait_queue tc) →
  (∀ tc, prev_tid tc = p → next_tid tc = n → prev_tid (f tc) = p' ∧ next_tid (f tc) = n') →
  (∀ s', repr s' (<[t := Some (p', n')]> lk) ls → core s' = core s → Post tt s') →
  wp (upd_tcb t f) Post L s.
Proof.
  intros [Hl Hq] Ht Hf Hpn HP. specialize (Hl t) as Hlt. rewrite Ht in Hlt. unfold link in Hlt.
  destruct (tcb_table s !! t) as [tc|] eqn:E; [|done]. simplify_eq/=.
  destruct (Hpn tc eq_refl eq_refl) as [P1 P2]. destruct (Hf tc) as (C1 & C2 & C3).
  unfold upd_tcb, tcb_at. wp_steps. eapply wp_deref; [done|]. apply wp_modify.
  apply HP; [|by eapply core_insert].
  split.
  - intros t'. unfold link. simpl. destruct (decide (t' = t)) as [->|Hne].
    + rewrite lookup_insert_eq, fn_lookup_insert. simpl. congruence.
    + rewrite lookup_insert_ne, fn_lookup_insert_ne by done. apply Hl.
  - intros q. rewrite <- Hq. unfold lst. simpl. destruct q as [| | |t'|t'|]; try done;
      (destruct (decide (t' = t)) as [->|Hne];
       [rewrite lookup_insert_eq, E; simpl; congruence | by rewrite lookup_insert_ne]).
Qed.

Lemma wp_set_prev s lk ls t p n v :
  repr s lk ls → lk t = Some (p, n) →
  (∀ s', repr s' (<[t := Some (v, n)]> lk) ls → core s' = core s → Post tt s') →
  wp (upd_tcb t (λ tc, tc <| prev_tid := v |>)) Post L s.
Proof. intros. eapply wp_upd_link; [done | done | done | | done]. by intros tc ? <-. Qed.

Lemma wp_set_next s lk ls t p n v :
  repr s lk ls → lk t = Some (p, n) →
  (∀ s', repr s' (<[t := Some (p, v)]> lk) ls → core s' = core s → Post tt s') →
  wp (upd_tcb t (λ tc, tc <| next_tid := v |>)) Post L s.
Proof. intros. eapply wp_upd_link; [done | done | done | | done]. by intros tc <- ?. Qed.

Lemma repr_upd_tcb_list s lk ls t tc f q l :
  repr s lk ls → tcb_table s !! t = Some tc →
  q = SenderQ t ∧ sender_wait_queue (f tc) = l ∧ receiver_wait_queue (f tc) = receiver_wait_queue tc ∨
  q = ReceiverQ t ∧ receiver_wait_queue (f tc) = l ∧ sender_wait_queue (f tc) = sender_wait_queue tc →
  prev_tid (f tc) = prev_tid tc → next_tid (f tc) = next_tid tc →
  repr (s <| tcb_table ::= insert t (f tc) |>) lk (<[q := Some l]> ls).
Proof.
  intros [Hl Hq] Ht Hf P N. split.
  - intros t'. rewrite <- Hl. unfold link. simpl. destruct (decide (t' = t)) as [->|Hne].
    + rewrite lookup_insert_eq, Ht. simpl. congruence.
    + by rewrite lookup_insert_ne.
  - intros q'. destruct (decide (q' = q)) as [->|Hne].
    + rewrite fn_lookup_insert.
      destruct Hf as [(-> & <- & _)|(-> & <- & _)]; simpl; by rewrite lookup_insert_eq.
    + rewrite fn_lookup_insert_ne, <- Hq by done. destruct q' as [| | |t'|t'|]; try done; simpl;
        (destruct (decide (t' = t)) as [->|Hne'];
         [rewrite lookup_insert_eq, Ht; simpl | by rewrite lookup_insert_ne]);
        destruct Hf as [(-> & _ & E)|(-> & _ & E)]; congruence.
Qed.

Lemma wp_upd_list s lk ls q l f :
  repr s lk ls → ls q = Some l →
  (∀ s', repr s' lk (<[q := Some (f l)]> ls) → core s' = core s → Post tt s') →
  wp (upd_list q f) Post L s.
Proof.
  intros R Hq HP. pose proof R as [Hl Hls]. pose proof (Hls q) as E. rewrite Hq in E.
  destruct q as [p| | |t|t|t]; simpl in E |- *; try done.
  - wp_steps. eapply wp_deref; [done|]. apply wp_modify. apply HP; [|done].
    split; [done|]. intros q.
    destruct (decide (q = RunQ p)) as [->|Hne]; [by rewrite fn_lookup_insert; simpl; rewrite lookup_insert_eq|].
    rewrite fn_lookup_insert_ne, <- Hls by done. destruct q as [p'| | | | |]; try done. simpl.
    by rewrite lookup_insert_ne by congruence.
  - apply wp_modify. apply HP; [|done]. split; [done|]. intros q. injection E as <-.
    destruct (decide (q = PausedQ)) as [->|Hne]; [by rewrite fn_lookup_insert|].
    rewrite fn_lookup_insert_ne, <- Hls by done. by destruct q.
  - apply wp_modify. apply HP; [|done]. split; [done|]. intros q. injection E as <-.
    destruct (decide (q = ZombieQ)) as [->|Hne]; [by rewrite fn_lookup_insert|].
    rewrite fn_lookup_insert_ne, <- Hls by done. by destruct q.
  - destruct (tcb_table s !! t) as [tc|] eqn:Ht; [|done]. injection E as <-.
    unfold upd_tcb, tcb_at. wp_steps. eapply wp_deref; [done|]. apply wp_modify.
    apply HP; [|by eapply core_insert]. eapply repr_upd_tcb_list; [done | done | by left | done | done].
  - destruct (tcb_table s !! t) as [tc|] eqn:Ht; [|done]. injection E as <-.
    unfold upd_tcb, tcb_at. wp_steps. eapply wp_deref; [done|]. apply wp_modify.
    apply HP; [|by eapply core_insert]. eapply repr_upd_tcb_list; [done | done | by right | done | done].
Qed.
End steps.

Lemma wp_read_list s lk ls q l Post L :
  repr s lk ls → ls q = Some l → Post l s → wp (read_list q) Post L s.
Proof.
  intros [_ Hls] Hq HP. specialize (Hls q). rewrite Hq in Hls.
  destruct q as [p| | |t|t|t]; simpl in Hls |- *; try done; wp_steps.
  - by eapply wp_deref.
  - by injection Hls as <-.
  - by injection Hls as <-.
  - unfold tcb_at. wp_steps. apply fmap_Some in Hls as (tc & Ht & ->). eapply wp_deref; [done|]. done.
  - unfold tcb_at. wp_steps. apply fmap_Some in Hls as (tc & Ht & ->). eapply wp_deref; [done|]. done.
Qed.

Lemma wp_tcb_at_link s lk ls t p n Post L :
  repr s lk ls → lk t = Some (p, n) →
  (∀ tc, tcb_table s !! t = Some tc → prev_tid tc = p → next_tid tc = n → Post tc s) →
  wp (tcb_at t) Post L s.
Proof.
  intros [Hl _] Ht HP. specialize (Hl t). rewrite Ht in Hl. unfold link in Hl.
  apply fmap_Some in Hl as (tc & E & H). injection H as -> ->.
  unfold tcb_at. wp_steps. eapply wp_deref; [done|]. by apply HP.
Qed.

(** ** Replacing the contents of one queue *)

Lemma qwf_replace lk ls Q lk' ls' q xs l' :
  qwf lk ls Q → valid_q q →
  (∀ t, is_Some (lk' t) ↔ is_Some (lk t)) →
  (∀ q', q' ≠ q → ls' q' = ls q') → ls' q = Some l' →
  head_tid l' = hd0 0 xs → tail_tid l' = last0 0 xs → chain lk' 0 xs 0 → NoDup xs →
  (∀ t, t ∈ xs → t ∈ Q q ∨ free Q t ∧ 0 < t < NUM_TCBS) →
  (∀ t, t ∉ Q q → t ∉ xs → lk' t = lk t) →
  (∀ t, t ∈ Q q → t ∉ xs → lk' t = Some (0, 0)) →
  qwf lk' ls' (<[q := xs]> Q).
Proof.
  intros W Hv Hdom Hls Hq Hh Ht Hch Hnd Hin Hout Hnew.
  assert (∀ q' t, q' ≠ q → t ∈ Q q' → (t ∉ Q q) ∧ t ∉ xs) as Hother.
  { intros q' t Hne Hm. assert (t ∉ Q q) by (intros H; apply Hne; by eapply qwf_disjoint).
    split; [done|]. intros Hx. destruct (Hin t Hx) as [|[Hf _]]; [done | by eapply Hf]. }
  assert (∀ q' t, t ∈ (<[q:=xs]> Q) q' → valid_q q' ∧ 0 < t < NUM_TCBS) as Hval.
  { intros q' t. destruct (decide (q' = q)) as [->|Hne].
    - rewrite fn_lookup_insert. intros Hx. split; [done|].
      destruct (Hin t Hx) as [Hm|[_ ?]]; [by eapply qwf_valid in Hm as [_ ?] | done].
    - rewrite fn_lookup_insert_ne by done. by eapply qwf_valid. }
  split.
  - intros t. rewrite Hdom. by eapply qwf_links.
  - intros q'. destruct (decide (q' = q)) as [->|Hne]; [rewrite Hq; split; done|].
    rewrite Hls by done. by eapply qwf_lists.
  - intros q' l Hl. destruct (decide (q' = q)) as [->|Hne].
    + rewrite fn_lookup_insert. rewrite Hq in Hl. by injection Hl as <-.
    + rewrite fn_lookup_insert_ne by done. rewrite Hls in Hl by done. by eapply qwf_list.
  - intros q'. destruct (decide (q' = q)) as [->|Hne]; [by rewrite fn_lookup_insert|].
    rewrite fn_lookup_insert_ne by done. eapply chain_ext; [|by eapply qwf_chain].
    intros x Hx. destruct (Hother q' x Hne Hx). by apply Hout.
  - done.
  - intros q'. destruct (decide (q' = q)) as [->|Hne]; [by rewrite fn_lookup_insert|].
    rewrite fn_lookup_insert_ne by done. by eapply qwf_nodup.
  - intros q1 q2 t. destruct (decide (q1 = q)) as [->|N1], (decide (q2 = q)) as [->|N2]; try done;
      rewrite ?fn_lookup_insert, ?fn_lookup_insert_ne by done; intros H1 H2.
    + by destruct (Hother q2 t N2 H2).
    + by destruct (Hother q1 t N1 H1).
    + by eapply qwf_disjoint.
  - intros t Hr Hf. pose proof (Hf q) as Hfq. rewrite fn_lookup_insert in Hfq.
    destruct (decide (t ∈ Q q)) as [Hm|Hm]; [by apply Hnew|].
    rewrite Hout by done. eapply qwf_free; [done | done |]. intros q'.
    destruct (decide (q' = q)) as [->|Hne]; [done|].
    specialize (Hf q'). by rewrite fn_lookup_insert_ne in Hf.
Qed.

(** The sequence after an insertion at one end. *)
Definition insert_end (t : Z) (at_tail : bool) (xs : list Z) : list Z :=
  if at_tail then xs ++ [t] else t :: xs.

Lemma link_insert_dom (lk : link_map) t v u : is_Some (lk t) → is_Some ((<[t := Some v]> lk) u) ↔ is_Some (lk u).
Proof.
  intros H. destruct (decide (t = u)) as [<-|Hne]; [by rewrite fn_lookup_insert | by rewrite fn_lookup_insert_ne].
Qed.

Ltac fn_simp :=
  repeat (rewrite fn_lookup_insert || rewrite fn_lookup_insert_ne by (done || congruence || lia)).

Lemma wp_get_tid t Post L s : 0 <= t < NUM_TCBS → Post t s → wp (get_tid (Some t)) Post L s.
Proof. intros Ht HP. apply wp_ret. rewrite wrap_small; [done | unfold NUM_TCBS in Ht; lia]. Qed.

Lemma get_tcb_some t : t ≠ 0 → get_tcb t = Some t.
Proof. intros H. unfold get_tcb, NULL_TID. by replace (t =? 0) with false by lia. Qed.

Lemma wp_insert_empty s Q q t l at_tail (Post : unit → kstate → Prop) L :
  wf s Q → free Q t → 0 < t < NUM_TCBS → valid_q q → lst s q = Some l → Q q = [] →
  (∀ s', wf s' (<[q := insert_end t at_tail (Q q)]> Q) → core s' = core s → Post tt s') →
  wp (upd_list q (λ l, l <| head_tid := t |>) ;;
      upd_list q (λ l, l <| tail_tid := t |>) ;;
      upd_tcb t (λ tc, tc <| next_tid := NULL_TID |>) ;;
      upd_tcb t (λ tc, tc <| prev_tid := NULL_TID |>)) Post L s.
Proof.
  intros W Hf Ht Hv Hl HQ HP.
  pose proof (qwf_free _ _ _ W t ltac:(lia) Hf) as Hlk.
  wp_step. eapply wp_upd_list; [apply repr_refl | done |]. intros s1 R1 C1.
  wp_step. eapply wp_upd_list; [done | by fn_simp |]. intros s2 R2 C2.
  wp_step. eapply wp_set_next; [done | done |]. intros s3 R3 C3.
  eapply wp_set_prev; [done | by fn_simp |]. intros s4 [R41 R42] C4.
  apply HP; [|congruence].
  assert (insert_end t at_tail (Q q) = [t]) as -> by (rewrite HQ; by destruct at_tail).
  eapply (qwf_replace _ _ _ _ _ q); [done | done | | | by rewrite R42; fn_simp | done | done | | | | |].
  - intros u. rewrite R41. rewrite !link_insert_dom; rewrite ?fn_lookup_insert; done.
  - intros q' Hne. rewrite R42. by fn_simp.
  - split; [|done]. rewrite R41. by fn_simp.
  - apply NoDup_singleton.
  - intros u ->%list_elem_of_singleton. by right.
  - intros u _ Hu. rewrite R41. assert (t ≠ u) by (intros ->; apply Hu; by left). by fn_simp.
  - intros u Hu. rewrite HQ in Hu. by apply elem_of_nil in Hu.
Qed.

(** Facts about a queue that is not empty. *)
Lemma queue_first lk ls Q q h ys :
  qwf lk ls Q → Q q = h :: ys →
  0 < h < NUM_TCBS ∧ lk h = Some (0, hd0 0 ys) ∧ chain lk h ys 0 ∧ (h ∉ ys) ∧ NoDup ys.
Proof.
  intros W E. pose proof (qwf_chain _ _ _ W q) as Hc. pose proof (qwf_nodup _ _ _ W q) as Hn.
  rewrite E in Hc, Hn. destruct Hc as [H1 H2]. apply NoDup_cons in Hn as [H3 H4].
  destruct (qwf_valid _ _ _ W q h) as [_ ?]; [rewrite E; by left | done].
Qed.

Lemma queue_last lk ls Q q ys z :
  qwf lk ls Q → Q q = ys ++ [z] →
  0 < z < NUM_TCBS ∧ lk z = Some (last0 0 ys, 0) ∧ chain lk 0 ys z ∧ (z ∉ ys) ∧ NoDup ys.
Proof.
  intros W E. pose proof (qwf_chain _ _ _ W q) as Hc. pose proof (qwf_nodup _ _ _ W q) as Hn.
  rewrite E in Hc, Hn. apply chain_app in Hc as [H1 [H2 _]].
  apply NoDup_app in Hn as (N1 & N2 & _).
  destruct (qwf_valid _ _ _ W q z) as [_ ?]; [rewrite E; apply elem_of_app; right; by left |].
  split; [done | split; [done | split; [done | split; [|done]]]].
  intros Hz. apply (N2 z Hz). by left.
Qed.

Lemma wp_insert_head s Q q t l h ys (Post : unit → kstate → Prop) L :
  wf s Q → free Q t → 0 < t < NUM_TCBS → valid_q q → lst s q = Some l → Q q = h :: ys →
  (∀ s', wf s' (<[q := t :: h :: ys]> Q) → core s' = core s → Post tt s') →
  wp (upd_tcb t (λ tc, tc <| prev_tid := NULL_TID |>) ;;
      let* l := read_list q in
      match get_tcb (head_tid l) with
      | Some u => upd_tcb u (λ tc, tc <| prev_tid := t |>)
      | None => ret tt
      end ;;
      let* l := read_list q in
      upd_tcb t (λ tc, tc <| next_tid := head_tid l |>) ;;
      upd_list q (λ l, l <| head_tid := t |>)) Post L s.
Proof.
  intros W Hf Ht Hv Hl HQ HP.
  pose proof (qwf_free _ _ _ W t ltac:(lia) Hf) as Hlk.
  destruct (queue_first _ _ _ _ _ _ W HQ) as (Hh & Hlh & Hch & Hhn & Hnd).
  destruct (qwf_list _ _ _ W q l Hl) as [E1 E2]. rewrite HQ in E1, E2. unfold hd0 in E1. simpl in E1.
  assert (t ∉ h :: ys) as Htn by (rewrite <- HQ; apply Hf).
  assert (t ≠ h ∧ t ∉ ys) as [Hth Hty] by (by apply not_elem_of_cons in Htn).
  wp_step. eapply wp_set_prev; [apply repr_refl | done |]. intros s1 R1 C1.
  wp_step. eapply wp_read_list; [done | done |]. cbn beta. rewrite E1, get_tcb_some by lia.
  wp_step. eapply wp_set_prev; [done | by fn_simp |]. intros s2 R2 C2.
  wp_step. eapply wp_read_list; [done | done |]. cbn beta. rewrite E1.
  wp_step. eapply wp_set_next; [done | by fn_simp |]. intros s3 R3 C3.
  eapply wp_upd_list; [done | done |]. intros s4 [R41 R42] C4. apply HP; [|congruence].
  eapply (qwf_replace _ _ _ _ _ q); [done | done | | | by rewrite R42; fn_simp | done | | | | | |].
  - intros u. rewrite R41. rewrite !link_insert_dom; fn_simp; done.
  - intros q' Hne. rewrite R42. by fn_simp.
  - simpl. rewrite E2, !last0_cons. done.
  - split; [rewrite R41; by fn_simp|]. split; [rewrite R41; by fn_simp|].
    eapply chain_ext; [|done]. intros x Hx. rewrite R41.
    assert (t ≠ x ∧ h ≠ x) as [? ?] by (split; intros ->; done). by fn_simp.
  - apply NoDup_cons. split; [done|]. by apply NoDup_cons.
  - intros u Hu. apply elem_of_cons in Hu as [->|Hu]; [by right | left; by rewrite HQ].
  - intros u Hu1 Hu2. rewrite R41. apply not_elem_of_cons in Hu2 as [Hu2 Hu3].
    apply not_elem_of_cons in Hu3 as [Hu3 _]. by fn_simp.
  - intros u Hu1 Hu2. exfalso. apply Hu2. right. by rewrite <- HQ.
Qed.

Lemma wp_insert_tail s Q q t l ys z (Post : unit → kstate → Prop) L :
  wf s Q → free Q t → 0 < t < NUM_TCBS → valid_q q → lst s q = Some l → Q q = ys ++ [z] →
  (∀ s', wf s' (<[q := (ys ++ [z]) ++ [t]]> Q) → core s' = core s → Post tt s') →
  wp (upd_tcb t (λ tc, tc <| next_tid := NULL_TID |>) ;;
      let* l := read_list q in
      match get_tcb (tail_tid l) with
      | Some u => upd_tcb u (λ tc, tc <| next_tid := t |>)
      | None => ret tt
      end ;;
      let* l := read_list q in
      upd_tcb t (λ tc, tc <| prev_tid := tail_tid l |>) ;;
      upd_list q (λ l, l <| tail_tid := t |>)) Post L s.
Proof.
  intros W Hf Ht Hv Hl HQ HP.
  pose proof (qwf_free _ _ _ W t ltac:(lia) Hf) as Hlk.
  destruct (queue_last _ _ _ _ _ _ W HQ) as (Hz & Hlz & Hch & Hzn & Hnd).
  destruct (qwf_list _ _ _ W q l Hl) as [E1 E2]. rewrite HQ in E1, E2. rewrite last0_snoc in E2.
  assert (t ∉ ys ++ [z]) as Htn by (rewrite <- HQ; apply Hf).
  assert ((t ∉ ys) ∧ t ≠ z) as [Hty Htz].
  { apply not_elem_of_app in Htn as [? Htn]. by apply not_elem_of_cons in Htn as [? _]. }
  wp_step. eapply wp_set_next; [apply repr_refl | done |]. intros s1 R1 C1.
  wp_step. eapply wp_read_list; [done | done |]. cbn beta. rewrite E2, get_tcb_some by lia.
  wp_step. eapply wp_set_next; [done | by fn_simp |]. intros s2 R2 C2.
  wp_step. eapply wp_read_list; [done | done |]. cbn beta. rewrite E2.
  wp_step. eapply wp_set_prev; [done | by fn_simp |]. intros s3 R3 C3.
  eapply wp_upd_list; [done | done |]. intros s4 [R41 R42] C4. apply HP; [|congruence].
  eapply (qwf_replace _ _ _ _ _ q); [done | done | | | by rewrite R42; fn_simp | | | | | | |].
  - intros u. rewrite R41. rewrite !link_insert_dom; fn_simp; done.
  - intros q' Hne. rewrite R42. by fn_simp.
  - simpl. rewrite E1, !hd0_app. done.
  - simpl. by rewrite last0_snoc.
  - apply chain_app. split; [apply chain_app; split|].
    + eapply chain_ext; [|done]. intros x Hx. rewrite R41.
      assert (t ≠ x ∧ z ≠ x) as [? ?] by (split; intros ->; done). by fn_simp.
    + split; [|done]. rewrite R41. by fn_simp.
    + split; [|done]. rewrite last0_snoc, R41. by fn_simp.
  - apply NoDup_app. split; [rewrite <- HQ; by eapply qwf_nodup|].
    split; [|apply NoDup_singleton]. by intros u Hu ->%list_elem_of_singleton.
  - intros u Hu. apply elem_of_app in Hu as [Hu| ->%list_elem_of_singleton]; [left; by rewrite HQ | by right].
  - intros u Hu1 Hu2. rewrite R41. apply not_elem_of_app in Hu2 as [Hu2 Hu3].
    apply not_elem_of_app in Hu2 as [_ Hu2]. apply not_elem_of_cons in Hu2 as [Hu2 _].
    apply not_elem_of_cons in Hu3 as [Hu3 _]. by fn_simp.
  - intros u Hu1 Hu2. exfalso. apply Hu2. apply elem_of_app. left. by rewrite <- HQ.
Qed.

Lemma empty_list_iff lk ls Q q l :
  qwf lk ls Q → ls q = Some l → LIST_IS_EMPTY l = bool_decide (Q q = []).
Proof.
  intros W Hl. destruct (qwf_list _ _ _ W q l Hl) as [E1 E2]. unfold LIST_IS_EMPTY, NULL_TID.
  destruct (Q q) as [|h ys] eqn:HQ; rewrite E1, E2; [done|].
  destruct (queue_first _ _ _ _ _ _ W HQ) as (Hh & _). unfold hd0. simpl.
  by replace (h =? 0) with false by lia.
Qed.

(** Insertion at either end. *)
Lemma wp_list_insert_at_end s Q q t at_tail (Post : unit → kstate → Prop) L :
  wf s Q → free Q t → 0 < t < NUM_TCBS → valid_q q →
  (∀ s', wf s' (<[q := insert_end t at_tail (Q q)]> Q) → core s' = core s → Post tt s') →
  wp (list_insert_at_end q t at_tail) Post L s.
Proof.
  intros W Hf Ht Hv HP. destruct (proj2 (qwf_lists _ _ _ W q) Hv) as [l Hl].
  unfold list_insert_at_end. wp_step. apply wp_get_tid; [lia|].
  wp_step. eapply wp_read_list; [apply repr_refl | done |].
  rewrite (empty_list_iff _ _ _ _ _ W Hl). case_bool_decide as HQ.
  - by eapply wp_insert_empty.
  - destruct at_tail.
    + destruct (exists_last HQ) as (ys & z & E). eapply wp_insert_tail; [done.. |].
      simpl in HP. by rewrite E in HP.
    + destruct (Q q) as [|h ys] eqn:E; [done|]. eapply wp_insert_head; done.
Qed.

Lemma wp_list_enqueue s Q q t (Post : unit → kstate → Prop) L :
  wf s Q → free Q t → 0 < t < NUM_TCBS → valid_q q →
  (∀ s', wf s' (<[q := t :: Q q]> Q) → core s' = core s → Post tt s') →
  wp (list_enqueue q t) Post L s.
Proof. intros. by eapply (wp_list_insert_at_end _ _ _ _ false). Qed.

Lemma wp_remove_empty s Q q at_tail (Post : option Z → kstate → Prop) L :
  wf s Q → valid_q q → Q q = [] → Post None s → wp (list_remove_from_end q at_tail) Post L s.
Proof.
  intros W Hv HQ HP. destruct (proj2 (qwf_lists _ _ _ W q) Hv) as [l Hl].
  destruct (qwf_list _ _ _ W q l Hl) as [E1 E2]. rewrite HQ in E1, E2.
  unfold list_remove_from_end. wp_step. eapply wp_read_list; [apply repr_refl | done |].
  rewrite E1, E2. by destruct at_tail.
Qed.

(** Both assertions at the start of a removal hold in a queue with members. *)
Lemma wp_remove_asserts h t (m : M kstate (option Z)) Post L s :
  h ≠ 0 → t ≠ 0 → wp m Post L s →
  wp (when ((h =? 0) || (t =? 0)) (kassert ((h =? NULL_TID) && (t =? NULL_TID))) ;;
      when (negb (h =? 0) || negb (t =? 0)) (kassert (negb (h =? NULL_TID) && negb (t =? NULL_TID))) ;;
      m) Post L s.
Proof.
  intros H1 H2 H. unfold NULL_TID. by replace (h =? 0) with false by lia; replace (t =? 0) with false by lia.
Qed.

(** The removed thread ends up unlinked: the common end of the removals. *)
Lemma wp_unlink {A} s lk ls z p n (k : M kstate A) Post L :
  repr s lk ls → lk z = Some (p, n) →
  (∀ s', repr s' (<[z := Some (0, 0)]> (<[z := Some (0, n)]> lk)) ls → core s' = core s → wp k Post L s') →
  wp (upd_tcb z (λ tc, tc <| prev_tid := NULL_TID |>) ;;
      upd_tcb z (λ tc, tc <| next_tid := NULL_TID |>) ;; k) Post L s.
Proof.
  intros R Hz HP. wp_step. eapply wp_set_prev; [done | done |]. intros s1 R1 C1.
  wp_step. eapply wp_set_next; [done | by fn_simp |]. intros s2 R2 C2. apply HP; [done | congruence].
Qed.

(** Taking [z] out of [xs ++ z :: ys]: the neighbours are linked to each other. *)
Lemma qwf_take_out lk ls Q lk' ls' q xs z ys l' :
  qwf lk ls Q → Q q = xs ++ z :: ys →
  (∀ q', q' ≠ q → ls' q' = ls q') → ls' q = Some l' →
  head_tid l' = hd0 0 (xs ++ ys) → tail_tid l' = last0 0 (xs ++ ys) →
  lk' z = Some (0, 0) →
  (∀ p, last xs = Some p → lk' p = (λ pn, (pn.1, hd0 0 ys)) <$> lk p) →
  (∀ n, head ys = Some n → lk' n = (λ pn, (last0 0 xs, pn.2)) <$> lk n) →
  (∀ u, u ≠ z → last xs ≠ Some u → head ys ≠ Some u → lk' u = lk u) →
  qwf lk' ls' (<[q := xs ++ ys]> Q).
Proof.
  intros W HQ Hls Hq Hh Ht Hz Hp Hn Hu.
  pose proof (qwf_chain _ _ _ W q) as Hc. rewrite HQ in Hc.
  apply chain_app in Hc as [C1 [C2 C3]].
  pose proof (qwf_nodup _ _ _ W q) as Hnd. rewrite HQ in Hnd.
  apply NoDup_app in Hnd as (N1 & N2 & N3). apply NoDup_cons in N3 as [N3 N4].
  assert (∀ u, u ∈ xs ++ z :: ys → u = z ∨ u ∈ xs ++ ys) as Hmem.
  { intros u. rewrite !elem_of_app, elem_of_cons. tauto. }
  assert (z ∉ xs) as Hzx by (intros H; apply (N2 z H); by left).
  assert (∀ p, last xs = Some p → p ∈ xs) as Hlast by (intros p; apply last_Some_elem_of).
  assert (∀ n, head ys = Some n → n ∈ ys) as Hhead by (intros n; apply head_Some_elem_of).
  assert (∀ u, u ∈ xs → u ∉ ys) as Hdis by (intros u H H'; apply (N2 u H); by right).
  eapply (qwf_replace _ _ _ _ _ q); try done.
  - apply (qwf_valid _ _ _ W q z). rewrite HQ. apply elem_of_app. right. by left.
  - intros u. destruct (decide (u = z)) as [->|Hne]; [by rewrite Hz, C2|].
    destruct (decide (last xs = Some u)) as [E|E]; [rewrite (Hp u E); apply fmap_is_Some|].
    destruct (decide (head ys = Some u)) as [E'|E']; [rewrite (Hn u E'); apply fmap_is_Some|].
    by rewrite Hu.
  - apply chain_app. split.
    + destruct xs as [|x xs' _] using rev_ind; [done|]. rewrite last_snoc in *.
      apply chain_app in C1 as [C11 [C12 _]]. apply chain_app. split; [|split; [|done]].
      * eapply chain_ext; [|exact C11]. apply NoDup_app in N1 as (_ & N1 & _).
        intros u Hux. assert (u ∈ xs' ++ [x]) by (apply elem_of_app; by left). apply Hu.
        -- by intros ->.
        -- intros [= ->]. apply (N1 u Hux). by left.
        -- intros E. by apply (Hdis u), Hhead.
      * rewrite (Hp x eq_refl), C12. done.
    + destruct ys as [|y ys']; [done|]. destruct C3 as [C31 C32]. apply NoDup_cons in N4 as [N4 _].
      split; [by rewrite (Hn y eq_refl), C31|]. eapply chain_ext; [|exact C32]. intros u Huy.
      assert (u ∈ y :: ys') by by right. apply Hu.
      * by intros ->.
      * intros E. by apply (Hdis u); [apply Hlast|].
      * by intros [= ->].
  - apply NoDup_app. done.
  - intros u Hux. left. rewrite HQ. rewrite elem_of_app in *. rewrite elem_of_cons. tauto.
  - intros u Hu1 Hu2. rewrite HQ in Hu1. rewrite elem_of_app, elem_of_cons in Hu1.
    apply Hu; [tauto | intros ?%Hlast; tauto | intros ?%Hhead; tauto].
  - intros u Hu1 Hu2. rewrite HQ in Hu1. by destruct (Hmem u Hu1) as [->|].
Qed.

Lemma queue_valid lk ls Q q xs z ys : qwf lk ls Q → Q q = xs ++ z :: ys → valid_q q.
Proof. intros W E. apply (qwf_valid _ _ _ W q z). rewrite E. apply elem_of_app. right. by left. Qed.

(** Facts about a member of a queue. *)
Lemma queue_member lk ls Q q xs z ys :
  qwf lk ls Q → Q q = xs ++ z :: ys →
  0 < z < NUM_TCBS ∧ lk z = Some (last0 0 xs, hd0 0 ys) ∧
  (∀ p, last xs = Some p → p ≠ 0 ∧ p ≠ z ∧ ∃ u, lk p = Some (u, z)) ∧
  (∀ n, head ys = Some n → n ≠ 0 ∧ n ≠ z ∧ last xs ≠ Some n ∧ ∃ u, lk n = Some (z, u)).
Proof.
  intros W HQ. pose proof (qwf_chain _ _ _ W q) as Hc. rewrite HQ in Hc.
  apply chain_app in Hc as [C1 [C2 C3]]. pose proof (qwf_nodup _ _ _ W q) as Hnd. rewrite HQ in Hnd.
  apply NoDup_app in Hnd as (N1 & N2 & N3). apply NoDup_cons in N3 as [N3 N4].
  assert (∀ u, u ∈ xs ++ z :: ys → 0 < u < NUM_TCBS) as Hv.
  { intros u Hu. rewrite <- HQ in Hu. by apply (qwf_valid _ _ _ W) in Hu as [_ ?]. }
  split; [apply Hv, elem_of_app; right; by left | split; [done|split]].
  - intros p Hp. pose proof (last_Some_elem_of _ _ Hp) as Hpx. split; [|split].
    + specialize (Hv p). rewrite elem_of_app in Hv. lia || (assert (0 < p < NUM_TCBS) by auto; lia).
    + intros ->. apply (N2 z Hpx). by left.
    + destruct xs as [|x xs' _] using rev_ind; [done|]. rewrite last_snoc in Hp. injection Hp as ->.
      apply chain_app in C1 as [_ [C12 _]]. eauto.
  - intros n Hn. pose proof (head_Some_elem_of _ _ Hn) as Hny. split; [|split; [|split]].
    + assert (0 < n < NUM_TCBS); [|lia]. apply Hv, elem_of_app. right. by right.
    + by intros ->.
    + intros Hl. apply (N2 n (last_Some_elem_of _ _ Hl)). by right.
    + destruct ys as [|y ys']; [done|]. injection Hn as ->. destruct C3 as [C31 _]. eauto.
Qed.

Lemma wp_remove_tail s Q q ys z (Post : option Z → kstate → Prop) L :
  wf s Q → Q q = ys ++ [z] →
  (∀ s', wf s' (<[q := ys]> Q) → core s' = core s → Post (Some z) s') →
  wp (list_remove_from_end q true) Post L s.
Proof.
  intros W HQ HP. pose proof (queue_valid _ _ _ _ _ _ _ W HQ) as Hv.
  destruct (proj2 (qwf_lists _ _ _ W q) Hv) as [l Hl].
  destruct (qwf_list _ _ _ W q l Hl) as [E1 E2]. rewrite HQ in E1, E2. rewrite last0_snoc in E2.
  destruct (queue_member _ _ _ _ _ _ _ W HQ) as (Hz & Hlz & Hprev & _).
  assert (head_tid l ≠ 0) as Hh0.
  { rewrite E1. destruct ys as [|y ys]; unfold hd0; simpl; [lia|].
    destruct (queue_first _ _ _ q y (ys ++ [z]) W HQ). lia. }
  unfold list_remove_from_end. wp_step. eapply wp_read_list; [apply repr_refl | done |]. cbn iota.
  apply wp_remove_asserts; [done | lia |]. rewrite E2, get_tcb_some by lia.
  wp_step. eapply wp_tcb_at_link; [apply repr_refl | done |]. intros tc Htc Hp _.
  wp_step. wp_step. eapply wp_upd_list; [apply repr_refl | done |]. intros s1 R1 C1.
  wp_step. eapply wp_read_list; [done | by fn_simp |]. simpl. rewrite Hp.
  replace ys with (ys ++ []) in HP by apply app_nil_r.
  destruct (last ys) as [y|] eqn:Ey; unfold last0; rewrite Ey; simpl.
  - destruct (Hprev y eq_refl) as (Hy0 & Hyz & u & Hly). unfold NULL_TID at 1.
    replace (y =? 0) with false by lia. rewrite get_tcb_some by done.
    wp_step. eapply wp_set_next; [done | done |]. intros s2 R2 C2.
    eapply wp_unlink; [done | by fn_simp |]. intros s3 [R31 R32] C3. apply wp_ret.
    apply HP; [|congruence].
    eapply (qwf_take_out _ _ _ _ _ q ys z []); [done | done | | by rewrite R32; fn_simp | | | | | |].
    + intros q' Hne. rewrite R32. by fn_simp.
    + simpl. rewrite E1, app_nil_r, hd0_app. by destruct ys.
    + simpl. rewrite app_nil_r, Hp. unfold last0. by rewrite Ey.
    + rewrite R31. by fn_simp.
    + intros p. rewrite Ey. intros [= <-]. rewrite R31. fn_simp. by rewrite Hly.
    + done.
    + intros v Hv1 Hv2 _. rewrite Ey in Hv2. rewrite R31. by fn_simp.
  - apply last_None in Ey as ->.
    eapply wp_upd_list; [done | by fn_simp |]. intros s2 R2 C2.
    eapply wp_unlink; [done | done |]. intros s3 [R31 R32] C3. apply wp_ret.
    apply HP; [|congruence].
    eapply (qwf_take_out _ _ _ _ _ q [] z []); [done | done | | by rewrite R32; fn_simp | | | | | |]; try done.
    + intros q' Hne. rewrite R32. by fn_simp.
    + rewrite R31. by fn_simp.
    + intros v Hv1 _ _. rewrite R31. by fn_simp.
Qed.

Lemma wp_remove_head s Q q h ys (Post : option Z → kstate → Prop) L :
  wf s Q → Q q = h :: ys →
  (∀ s', wf s' (<[q := ys]> Q) → core s' = core s → Post (Some h) s') →
  wp (list_remove_from_end q false) Post L s.
Proof.
  intros W HQ HP. pose proof (queue_valid _ _ _ q [] h ys W HQ) as Hv.
  destruct (proj2 (qwf_lists _ _ _ W q) Hv) as [l Hl].
  destruct (qwf_list _ _ _ W q l Hl) as [E1 E2]. rewrite HQ in E1, E2. unfold hd0 in E1. simpl in E1.
  destruct (queue_member _ _ _ q [] h ys W HQ) as (Hh & Hlh & _ & Hnext).
  assert (tail_tid l ≠ 0) as Ht0.
  { rewrite E2. assert (last0 0 (h :: ys) ∈ h :: ys) as Hm by by apply last0_elem.
    rewrite <- HQ in Hm at 2. apply (qwf_valid _ _ _ W) in Hm as [_ ?]. lia. }
  unfold list_remove_from_end. wp_step. eapply wp_read_list; [apply repr_refl | done |]. cbn iota.
  apply wp_remove_asserts; [lia | done |]. rewrite E1, get_tcb_some by lia.
  wp_step. eapply wp_tcb_at_link; [apply repr_refl | done |]. intros tc Htc _ Hn.
  wp_step. wp_step. eapply wp_upd_list; [apply repr_refl | done |]. intros s1 R1 C1.
  wp_step. eapply wp_read_list; [done | by fn_simp |]. simpl. rewrite Hn.
  destruct ys as [|y ys].
  - unfold hd0. simpl. eapply wp_upd_list; [done | by fn_simp |]. intros s2 R2 C2.
    eapply wp_unlink; [done | done |]. intros s3 [R31 R32] C3. apply wp_ret.
    apply HP; [|congruence].
    eapply (qwf_take_out _ _ _ _ _ q [] h []); [done | done | | by rewrite R32; fn_simp | | | | | |]; try done.
    + intros q' Hne. rewrite R32. by fn_simp.
    + rewrite R31. by fn_simp.
    + intros v Hv1 _ _. rewrite R31. by fn_simp.
  - unfold hd0. simpl. destruct (Hnext y eq_refl) as (Hy0 & Hyh & _ & u & Hly). unfold NULL_TID at 1.
    replace (y =? 0) with false by lia. rewrite get_tcb_some by done.
    wp_step. eapply wp_set_prev; [done | done |]. intros s2 R2 C2.
    eapply wp_unlink; [done | by fn_simp |]. intros s3 [R31 R32] C3. apply wp_ret.
    apply HP; [|congruence].
    eapply (qwf_take_out _ _ _ _ _ q [] h (y :: ys)); [done | done | | by rewrite R32; fn_simp | | | | | |]; try done.
    + intros q' Hne. rewrite R32. by fn_simp.
    + rewrite R31. by fn_simp.
    + intros n [= <-]. rewrite R31. fn_simp. by rewrite Hly.
    + intros v Hv1 _ Hv2. simpl in Hv2. rewrite R31. by fn_simp.
Qed.

(** The two relinking steps of [list_remove]: the neighbours, where there are
    any, point past the removed thread. *)
Lemma wp_relink_next s lk ls ys p (Post : unit → kstate → Prop) L :
  repr s lk ls → (∀ n, head ys = Some n → n ≠ 0 ∧ is_Some (lk n)) →
  (∀ s' lk', repr s' lk' ls → core s' = core s →
     (∀ n, head ys = Some n → lk' n = (λ pn, (p, pn.2)) <$> lk n) →
     (∀ u, head ys ≠ Some u → lk' u = lk u) → Post tt s') →
  wp (when (negb (hd0 0 ys =? NULL_TID))
        (let* t := nonnull (get_tcb (hd0 0 ys)) in upd_tcb t (λ u, u <| prev_tid := p |>))) Post L s.
Proof.
  intros R Hy HP. destruct ys as [|y ys].
  - apply wp_ret. by eapply HP.
  - unfold hd0, NULL_TID. simpl. destruct (Hy y eq_refl) as [Hy0 [[a b] Hly]].
    replace (y =? 0) with false by lia. rewrite get_tcb_some by done. simpl.
    wp_step. eapply wp_set_prev; [done | done |]. intros s1 R1 C1. eapply HP; [done | done | |].
    + intros n [= <-]. fn_simp. by rewrite Hly.
    + intros u Hu. simpl in Hu. by fn_simp.
Qed.

Lemma wp_relink_prev s lk ls xs n (Post : unit → kstate → Prop) L :
  repr s lk ls → (∀ p, last xs = Some p → p ≠ 0 ∧ is_Some (lk p)) →
  (∀ s' lk', repr s' lk' ls → core s' = core s →
     (∀ p, last xs = Some p → lk' p = (λ pn, (pn.1, n)) <$> lk p) →
     (∀ u, last xs ≠ Some u → lk' u = lk u) → Post tt s') →
  wp (when (negb (last0 0 xs =? NULL_TID))
        (let* t := nonnull (get_tcb (last0 0 xs)) in upd_tcb t (λ u, u <| next_tid := n |>))) Post L s.
Proof.
  intros R Hx HP. unfold last0. destruct (last xs) as [x|] eqn:E.
  - unfold NULL_TID. simpl. destruct (Hx x eq_refl) as [Hx0 [[a b] Hlx]].
    replace (x =? 0) with false by lia. rewrite get_tcb_some by done. simpl.
    wp_step. eapply wp_set_next; [done | done |]. intros s1 R1 C1. eapply HP; [done | done | |].
    + intros p [= <-]. fn_simp. by rewrite Hlx.
    + intros u Hu. by fn_simp.
  - apply wp_ret. by eapply HP.
Qed.

Lemma wp_when_upd_list s lk ls q l b f (Post : unit → kstate → Prop) L :
  repr s lk ls → ls q = Some l →
  (∀ s' ls', repr s' lk ls' → core s' = core s → ls' q = Some (if b : bool then f l else l) →
     (∀ q', q' ≠ q → ls' q' = ls q') → Post tt s') →
  wp (when b (upd_list q f)) Post L s.
Proof.
  intros R Hq HP. destruct b; simpl.
  - eapply wp_upd_list; [done | done |]. intros s1 R1 C1. eapply HP; [done | done | by fn_simp |].
    intros q' Hne. by fn_simp.
  - apply wp_ret. by eapply HP.
Qed.

Lemma hd0_remove xs z ys :
  z ∉ xs → (if hd0 0 (xs ++ z :: ys) =? z then hd0 0 ys else hd0 0 (xs ++ z :: ys)) = hd0 0 (xs ++ ys).
Proof.
  intros Hz. destruct xs as [|x xs]; unfold hd0; simpl; [by rewrite Z.eqb_refl|].
  apply not_elem_of_cons in Hz as [Hz _]. by replace (x =? z) with false by lia.
Qed.

Lemma last0_remove xs z ys :
  z ∉ ys → (if last0 0 (xs ++ z :: ys) =? z then last0 0 xs else last0 0 (xs ++ z :: ys)) = last0 0 (xs ++ ys).
Proof.
  intros Hz. destruct ys as [|y ys' _] using rev_ind.
  - by rewrite last0_snoc, Z.eqb_refl, app_nil_r.
  - rewrite app_comm_cons, !app_assoc, !last0_snoc. apply not_elem_of_app in Hz as [_ Hz].
    apply not_elem_of_cons in Hz as [Hz _]. by replace (y =? z) with false by lia.
Qed.

(** Removal of any member. *)
Lemma wp_list_remove s Q q xs z ys (Post : unit → kstate → Prop) L :
  wf s Q → Q q = xs ++ z :: ys →
  (∀ s', wf s' (<[q := xs ++ ys]> Q) → core s' = core s → Post tt s') →
  wp (list_remove q z) Post L s.
Proof.
  intros W HQ HP. pose proof (queue_valid _ _ _ _ _ _ _ W HQ) as Hv.
  destruct (proj2 (qwf_lists _ _ _ W q) Hv) as [l Hl].
  destruct (qwf_list _ _ _ W q l Hl) as [E1 E2]. rewrite HQ in E1, E2.
  destruct (queue_member _ _ _ _ _ _ _ W HQ) as (Hz & Hlz & Hprev & Hnext).
  assert ((z ∉ xs) ∧ z ∉ ys) as [Hzx Hzy].
  { pose proof (qwf_nodup _ _ _ W q) as Hnd. rewrite HQ in Hnd.
    apply NoDup_app in Hnd as (_ & N2 & N3). apply NoDup_cons in N3 as [N3 _].
    split; [|done]. intros H. apply (N2 z H). by left. }
  unfold list_remove. wp_step. apply wp_get_tid; [lia|].
  wp_step. eapply wp_tcb_at_link; [apply repr_refl | done |]. intros tc _ Hp Hn. rewrite Hp, Hn.
  wp_step. eapply wp_relink_next; [apply repr_refl | |].
  { intros n Hn'. destruct (Hnext n Hn') as (? & ? & ? & u & ->). done. }
  intros s1 lk1 R1 C1 F1 G1.
  assert (lk1 z = Some (last0 0 xs, hd0 0 ys)) as Hlz1.
  { rewrite G1; [done|]. intros H. by destruct (Hnext z H) as (_ & ? & _). }
  wp_step. eapply wp_tcb_at_link; [done | done |]. intros tc1 _ Hp1 Hn1. rewrite Hp1, Hn1.
  wp_step. eapply wp_relink_prev; [done | |].
  { intros p Hp'. destruct (Hprev p Hp') as (? & ? & u & Hu). split; [done|].
    rewrite G1, Hu; [done|]. intros H'. by destruct (Hnext p H') as (_ & _ & ? & _). }
  intros s2 lk2 R2 C2 F2 G2.
  assert (lk2 z = Some (last0 0 xs, hd0 0 ys)) as Hlz2.
  { rewrite G2; [done|]. intros H. by destruct (Hprev z H) as (_ & ? & _). }
  wp_step. eapply wp_read_list; [done | done |].
  wp_step. eapply wp_tcb_at_link; [done | done |]. intros tc2 _ _ Hn2. rewrite Hn2.
  wp_step. eapply wp_when_upd_list; [done | done |]. intros s3 ls3 R3 C3 F3 G3.
  wp_step. eapply wp_read_list; [done | done |].
  wp_step. eapply wp_tcb_at_link; [done | done |]. intros tc3 _ Hp3 _. rewrite Hp3.
  wp_step. eapply wp_when_upd_list; [done | done |]. intros s4 ls4 R4 C4 F4 G4.
  wp_step. eapply wp_set_prev; [done | done |]. intros s5 R5 C5.
  eapply wp_set_next; [done | by fn_simp |]. intros s6 [R61 R62] C6. apply HP; [|congruence].
  eapply (qwf_take_out _ _ _ _ _ q xs z ys); [done | done | | by rewrite R62 | | | | | |].
  - intros q' Hne. rewrite R62, G4, G3; done.
  - rewrite <- (hd0_remove xs z ys), <- E1 by done. by repeat case_match.
  - rewrite <- (last0_remove xs z ys), <- E2 by done. 
    destruct (head_tid l =? z), (tail_tid l =? z) eqn:E; simpl; rewrite ?E; done.
  - rewrite R61. by fn_simp.
  - intros p Hlp. rewrite R61. destruct (Hprev p Hlp) as (? & ? & ?). fn_simp. rewrite F2, G1; [done| |done].
    intros H'. by destruct (Hnext p H') as (_ & _ & ? & _).
  - intros n Hhn. rewrite R61. destruct (Hnext n Hhn) as (? & ? & ? & ?). fn_simp. by rewrite G2, F1.
  - intros u Hu1 Hu2 Hu3. rewrite R61. fn_simp. by rewrite G2, G1.
Qed.
