(* ===== verification/Thread.v ===== *)
(** * Threads: kernel/thread.c, kernel/schedule.c and the wait queues of
      kernel/message.c

    The operations that move threads between states and queues, and the
    scheduler.  ThreadFacts.v proves what they do to the queues. *)

From S2P Require Import Prelude Bits Machine Paging Kernel KList.

(** ** Wait queues (kernel/message.c) *)

Definition attach_sender_wait_queue (sender : Z) (recipient : option Z) : M kstate unit :=
  match recipient with
  | Some r => list_enqueue (SenderQ r) sender
  | None => ret tt
  end ;;
  upd_tcb sender (λ tc, tc <| thread_state := WAIT_FOR_RECV |>) ;;
  let* tid := get_tid recipient in
  upd_tcb sender (λ tc, tc <| wait_tid := tid |>).

Definition attach_receiver_wait_queue (recipient : Z) (sender : option Z) : M kstate unit :=
  match sender with
  | Some s => list_enqueue (ReceiverQ s) recipient
  | None => ret tt
  end ;;
  upd_tcb recipient (λ tc, tc <| thread_state := WAIT_FOR_SEND |>) ;;
  let* tid := get_tid sender in
  upd_tcb recipient (λ tc, tc <| wait_tid := tid |>).

Definition detach_sender_wait_queue (sender : Z) : M kstate unit :=
  let* tc := tcb_at sender in
  let recipient := get_tcb (wait_tid tc) in
  upd_tcb sender (λ tc, tc <| wait_tid := NULL_TID |>) ;;
  match recipient with
  | Some r => list_remove (SenderQ r) sender
  | None => ret tt
  end.

Definition detach_receiver_wait_queue (recipient : Z) : M kstate unit :=
  let* tc := tcb_at recipient in
  let sender := get_tcb (wait_tid tc) in
  upd_tcb recipient (λ tc, tc <| wait_tid := NULL_TID |>) ;;
  match sender with
  | Some s => list_remove (ReceiverQ s) recipient
  | None => ret tt
  end.

(** ** State changes (kernel/thread.c) *)

(** The loop over the processors of [thread_remove_from_list]; [n] counts the
    processors left. *)
Fixpoint clear_running (n : nat) (processor_id thread : Z) : M kstate unit :=
  match n with
  | O => ret tt
  | S n =>
      let* c := processor_at processor_id in
      if decide (running_thread c = Some thread) then set_running_thread processor_id None
      else clear_running n (processor_id + 1) thread
  end.

Definition thread_remove_from_list (thread : Z) : M kstate Z :=
  let* tc := tcb_at thread in
  match thread_state tc with
  | WAIT_FOR_RECV =>
      detach_sender_wait_queue thread ;;
      upd_tcb thread (λ tc, tc <| wait_tid := NULL_TID |>) ;;
      ret E_OK
  | WAIT_FOR_SEND =>
      detach_receiver_wait_queue thread ;;
      upd_tcb thread (λ tc, tc <| wait_tid := NULL_TID |>) ;;
      ret E_OK
  | READY => list_remove (RunQ (priority tc)) thread ;; ret E_OK
  | PAUSED => list_remove PausedQ thread ;; ret E_OK
  | ZOMBIE => list_remove ZombieQ thread ;; ret E_OK
  | RUNNING =>
      let* n := gets num_processors in
      clear_running (Z.to_nat n) 0 thread ;;
      ret E_OK
  | _ => ret E_FAIL
  end.

Definition thread_wakeup (thread : Z) : M kstate Z :=
  let* tc := tcb_at thread in
  match thread_state tc with
  | RUNNING | READY => ret E_DONE
  | ZOMBIE | INACTIVE => ret E_FAIL
  | _ =>
      let* r := thread_remove_from_list thread in
      if is_error r then ret E_FAIL
      else
        upd_tcb thread (λ tc, tc <| thread_state := READY |>) ;;
        let* tc := tcb_at thread in
        list_enqueue (RunQ (priority tc)) thread ;;
        ret E_OK
  end.

Definition thread_start (thread : Z) : M kstate Z :=
  let* tc := tcb_at thread in
  match thread_state tc with
  | WAIT_FOR_RECV | WAIT_FOR_SEND | PAUSED =>
      let* r := thread_remove_from_list thread in
      if is_error r then ret E_FAIL
      else
        upd_tcb thread (λ tc, tc <| thread_state := READY |>) ;;
        let* tc := tcb_at thread in
        list_enqueue (RunQ (priority tc)) thread ;;
        ret E_OK
  | READY | RUNNING => ret E_DONE
  | _ => ret E_FAIL
  end.

Definition thread_pause (thread : Z) : M kstate Z :=
  let* tc := tcb_at thread in
  match thread_state tc with
  | WAIT_FOR_RECV | WAIT_FOR_SEND | READY | RUNNING =>
      let* r := thread_remove_from_list thread in
      if is_error r then ret E_FAIL
      else
        upd_tcb thread (λ tc, tc <| thread_state := PAUSED |>) ;;
        list_enqueue PausedQ thread ;;
        ret E_OK
  | PAUSED => ret E_DONE
  | _ => ret E_FAIL
  end.

Definition thread_sleep (thread duration granularity : Z) : M kstate Z := ret E_FAIL.

(** ** Creation and destruction *)

Definition EFLAGS_IF : Z := Z.shiftl 1 9.
Definition EFLAGS_IOPL3 : Z := Z.shiftl 3 12.
Definition UCODE_SEL : Z := Z.lor 0x18 3.
Definition UDATA_SEL : Z := Z.lor 0x20 3.

Definition zero_state : ExecutionState := {|
  gs := 0; fs := 0; es := 0; ds := 0; edi := 0; esi := 0; ebp := 0; ebx := 0; edx := 0;
  ecx := 0; eax := 0; eip := 0; cs := 0; avail := 0; eflags := 0; user_esp := 0;
  user_ss := 0; avail2 := 0 |}.

(** A control block of zero bytes. *)
Definition zero_tcb : tcb_t := {|
  wait_for_kernel_msg := false; thread_state := INACTIVE; priority := 0; wait_tid := 0;
  receiver_wait_queue := nil_list; sender_wait_queue := nil_list; prev_tid := 0;
  next_tid := 0; ex_handler := 0; pager := 0; event_mask := 0; pending_events := 0;
  cap_table := 0; cap_table_size := 0; fxsave_state := None; fxsave_state_len := 0;
  xsave_rfbm := 0; user_exec_state := zero_state; root_pmap := 0 |}.

(** [while(lock) pause]: with the lock taken the loop does not end. *)
Definition spinlock_acquire : M kstate unit :=
  let* b := gets lock_tcb_table in if b : bool then fail OutOfFuel else ret tt.
Definition spinlock_release : M kstate unit := modify (λ s, s <| lock_tcb_table := false |>).

(** The search of [thread_create], from the [last_tid] already incremented.
    Each iteration that does not stop moves [last_tid] towards the end of the
    table, where the access is out of bounds: [NUM_TCBS + 1] steps are enough. *)
Fixpoint thread_create_search (fuel : nat) (prev_tid : Z) : M kstate unit :=
  match fuel with
  | O => fail OutOfFuel
  | S fuel =>
      let* last := gets last_tid in
      if negb (prev_tid =? last) || (last =? NULL_TID) then
        let* tc := tcb_at last in
        if decide (thread_state tc ≠ INACTIVE) then
          modify (λ s, s <| last_tid := u32 (last + 1) |>) ;;
          thread_create_search fuel prev_tid
        else ret tt
      else ret tt
  end.

(** [local_pde] is the address of a local of [initialize_root_pmap]. *)
Definition thread_create (local_pde entry_addr addr_space stack_top : Z) : M kstate (option Z) :=
  let* root := vm get_root_page_map in
  let pmap := if addr_space =? CURRENT_ROOT_PMAP then root else addr_space in
  let* r := vm (initialize_root_pmap local_pde pmap) in
  if is_error r then ret None
  else
    let* last := gets last_tid in
    let prev_tid := last mod MAX_THREADS in
    spinlock_acquire ;;
    modify (λ s, s <| last_tid := u32 (last + 1) |>) ;;
    thread_create_search (Z.to_nat (NUM_TCBS + 1)) prev_tid ;;
    let* last := gets last_tid in
    if prev_tid =? last then spinlock_release ;; ret None
    else
      let thread := last in
      let* tc := tcb_at thread in
      if decide (thread_state tc ≠ INACTIVE) then spinlock_release ;; ret None
      else
        upd_tcb thread (λ _, zero_tcb) ;;
        upd_tcb thread (λ tc, tc <| root_pmap := pmap |>) ;;
        upd_state thread (λ r, r <| eflags := Z.lor EFLAGS_IOPL3 EFLAGS_IF |>) ;;
        upd_state thread (λ r, r <| eip := entry_addr |>) ;;
        upd_state thread (λ r, r <| user_esp := stack_top |>) ;;
        upd_state thread (λ r, r <| ebp := user_esp r |>) ;;
        upd_state thread (λ r, r <| cs := UCODE_SEL |>) ;;
        upd_state thread (λ r, r <| ds := UDATA_SEL |>) ;;
        upd_state thread (λ r, r <| es := UDATA_SEL |>) ;;
        upd_state thread (λ r, r <| user_ss := UDATA_SEL |>) ;;
        upd_tcb thread (λ tc, tc <| priority := NORMAL_PRIORITY |>) ;;
        upd_tcb thread (λ tc, tc <| thread_state := PAUSED |>) ;;
        list_enqueue PausedQ thread ;;
        spinlock_release ;;
        ret (Some thread).

(** [while(queue->head_tid != NULL_TID)]: every iteration takes a thread out of
    the queue, so that one step per table entry and one more are enough. *)
Fixpoint release_queue (fuel : nat) (queue : qref) : M kstate unit :=
  match fuel with
  | O => fail OutOfFuel
  | S fuel =>
      let* l := read_list queue in
      if head_tid l =? NULL_TID then ret tt
      else
        let* o := list_dequeue queue in
        match o with
        | Some t =>
            upd_tcb t (λ tc, tc <| wait_tid := NULL_TID |>) ;;
            upd_state t (λ r, r <| eax := u32 E_UNREACH |>) ;;
            upd_tcb t (λ tc, tc <| thread_state := READY |>)
        | None => ret tt
        end ;;
        release_queue fuel queue
  end.

Fixpoint release_irqs (n : nat) (i thread : Z) : M kstate unit :=
  match n with
  | O => ret tt
  | S n =>
      let* I := gets irq_handlers in
      let* h := deref OutOfBounds (I !! i) in
      when (bool_decide (h = Some thread)) (modify (λ s, s <| irq_handlers ::= insert i None |>)) ;;
      release_irqs n (i + 1) thread
  end.

(** The loop starts at [sender_wait_queue] and increments the pointer itself, so
    that its second list is the one after that field in the block: the pair of
    links, [LinkQ]. *)
Definition thread_release (thread : Z) : M kstate Z :=
  let* tc := tcb_at thread in
  match thread_state tc with
  | INACTIVE => ret E_DONE
  | _ =>
      let* r := thread_remove_from_list thread in
      if is_error r then ret E_FAIL
      else
        release_queue (Z.to_nat (NUM_TCBS + 1)) (SenderQ thread) ;;
        release_queue (Z.to_nat (NUM_TCBS + 1)) (LinkQ thread) ;;
        release_irqs (Z.to_nat NUM_IRQS) 0 thread ;;
        upd_tcb thread (λ tc, tc <| thread_state := INACTIVE |>) ;;
        ret E_OK
  end.

(** ** Leaving the kernel

    [RESTORE_STATE] pops the registers from the frame that was stored below
    [kernel_stack_top]; the first word popped becomes [tss.esp0]. *)

Definition EXECUTION_STATE_SIZE : Z := 56.

Definition thread_switch_context {A} (thread : Z) (do_fxsave : bool) : M kstate A :=
  let* tc := tcb_at thread in
  kassert (bool_decide (thread_state tc = RUNNING)) ;;
  let* cr := get_cr3 in
  when (negb (Z.land (root_pmap tc) CR3_BASE_MASK =? Z.land cr CR3_BASE_MASK))
    (set_cr3 (root_pmap tc)) ;;
  let* current_thread := thread_get_current in
  match current_thread with
  | Some c =>
      let* cur := tcb_at c in
      match fxsave_state cur with
      | Some p => when do_fxsave (fxsave p)
      | None => ret tt
      end
  | None => ret tt
  end ;;
  modify (λ s, s <| tss_esp0 := u32 (kernel_stack_top s - EXECUTION_STATE_SIZE - 4) |>) ;;
  let* tc := tcb_at thread in
  let state := user_exec_state tc in
  let* o := gets init_server_thread in
  let* init := nonnull o in
  let* itc := tcb_at init in
  set_cr3 (root_pmap itc) ;;
  match fxsave_state tc with
  | Some p => when do_fxsave (fxrstor p)
  | None => ret tt
  end ;;
  modify (λ s, s <| tss_esp0 := kernel_stack_top s |> <| regs := state |>) ;;
  leave.

(** ** The scheduler (kernel/schedule.c) *)

(** The loop over the priorities: [n] is the number of priorities left, and
    [None] is the exit without a runnable thread. *)
Fixpoint schedule_loop (n : nat) (priority_ : Z) (processor_id : Z) (current_thread : option Z)
    : M kstate (option Z) :=
  match n with
  | O => ret None
  | S n =>
      let* l := read_list (RunQ priority_) in
      if negb (LIST_IS_EMPTY l) then
        let* o := list_dequeue (RunQ priority_) in
        match current_thread with
        | Some c =>
            upd_tcb c (λ tc, tc <| thread_state := READY |>) ;;
            let* tc := tcb_at c in
            list_enqueue (RunQ (priority tc)) c
        | None => ret tt
        end ;;
        let* new_thread := nonnull o in
        upd_tcb new_thread (λ tc, tc <| thread_state := RUNNING |>) ;;
        set_running_thread processor_id (Some new_thread) ;;
        ret (Some new_thread)
      else schedule_loop n (priority_ - 1) processor_id current_thread
  end.

Definition schedule (processor_id : Z) : M kstate Z :=
  let* c := processor_at processor_id in
  let current_thread := running_thread c in
  let* min_priority :=
    match current_thread with
    | Some t => let* tc := tcb_at t in ret (priority tc)
    | None => ret MIN_PRIORITY
    end in
  let* o := schedule_loop (Z.to_nat (MAX_PRIORITY - min_priority + 1)) MAX_PRIORITY processor_id current_thread in
  match o, current_thread with
  | Some new_thread, _ => ret new_thread
  | None, Some t => ret t
  | None, None => panic
  end.

(** [state] is the frame the interrupted context was saved in; the result is
    the frame that is restored. *)
Definition switch_stacks (state : ExecutionState) : M kstate ExecutionState :=
  let* old_tcb := thread_get_current in
  let* not_running :=
    match old_tcb with
    | Some t => let* tc := tcb_at t in ret (bool_decide (thread_state tc ≠ RUNNING))
    | None => ret true
    end in
  if not_running : bool then
    let* new_tcb := schedule processor_get_current in
    if decide (Some new_tcb ≠ old_tcb) then
      let* tc := tcb_at new_tcb in
      let* cr := get_cr3 in
      when (negb (Z.land cr CR3_BASE_MASK =? Z.land (root_pmap tc) CR3_BASE_MASK))
        (set_cr3 (root_pmap tc)) ;;
      match old_tcb with
      | Some t =>
          upd_tcb t (λ tc, tc <| user_exec_state := state |>) ;;
          let* otc := tcb_at t in
          match fxsave_state otc with Some p => fxsave p | None => ret tt end
      | None => ret tt
      end ;;
      let* tc := tcb_at new_tcb in
      match fxsave_state tc with
      | Some _ =>
          let* t := nonnull old_tcb in
          let* otc := tcb_at t in
          let* p := nonnull (fxsave_state otc) in
          fxrstor p
      | None => ret tt
      end ;;
      ret (user_exec_state tc)
    else ret state
  else ret state.
