(* ===== verification/ThreadFacts.v ===== *)
(** * Threads: the queue invariant and what the operations do

    [kinv s Q] ties the queues to the states of the threads: a thread is in the
    queue its state calls for and in no other.  The lemmas describe each
    operation of Thread.v by its effect on the pair of [core s], the state
    without links, and [Q], the contents of the queues. *)

From stdpp Require Import functions.
From S2P Require Import Prelude Bits Machine Paging Kernel KList Thread.

(** ** The invariant *)

(** The queue a thread belongs to. *)
Definition home (tc : tcb_t) : option qref :=
  match thread_state tc with
  | READY => Some (RunQ (priority tc))
  | PAUSED => Some PausedQ
  | ZOMBIE => Some ZombieQ
  | WAIT_FOR_RECV => if wait_tid tc =? NULL_TID then None else Some (SenderQ (wait_tid tc))
  | WAIT_FOR_SEND => if wait_tid tc =? NULL_TID then None else Some (ReceiverQ (wait_tid tc))
  | INACTIVE | RUNNING | SLEEPING => None
  end.

Definition running (c : kstate) (p : Z) : option (option Z) := running_thread <$> processors c !! p.

Record ci (c : kstate) (Q : queues) : Prop := {
  ci_home : ∀ t tc q, tcb_table c !! t = Some tc → t ∈ Q q ↔ home tc = Some q;
  ci_priority : ∀ t tc, tcb_table c !! t = Some tc → 0 <= priority tc < NUM_PRIORITIES;
  ci_null : ∀ tc, tcb_table c !! 0 = Some tc → thread_state tc = INACTIVE;
  ci_runs : ∀ p t, running c p = Some (Some t) →
    0 <= p < num_processors c ∧ ∃ tc, tcb_table c !! t = Some tc ∧ thread_state tc = RUNNING;
  ci_running : ∀ t tc, tcb_table c !! t = Some tc → thread_state tc = RUNNING →
    ∃ p, running c p = Some (Some t);
  ci_once : ∀ p p' t, running c p = Some (Some t) → running c p' = Some (Some t) → p = p';
  ci_processors : 0 < num_processors c <= MAX_PROCESSORS;
  ci_array : ∀ p, is_Some (running c p) ↔ 0 <= p < MAX_PROCESSORS
}.

Definition kinv (s : kstate) (Q : queues) : Prop := wf s Q ∧ ci (core s) Q.

(** Taking a thread out of every queue. *)
Definition Qdel (t : Z) (Q : queues) : queues := λ q, filter (λ x, x ≠ t) (Q q).

(** Assignment to a control block, on states. *)
Definition upd (t : Z) (f : tcb_t → tcb_t) (s : kstate) : kstate := s <| tcb_table ::= alter f t |>.

(** No processor runs [t]. *)
Definition unrun (t : Z) (s : kstate) : kstate :=
  s <| processors ::= fmap (λ c, if decide (running_thread c = Some t)
                                 then c <| running_thread := None |> else c) |>.

(** What [thread_remove_from_list] changes apart from the queues. *)
Definition detach (t : Z) (st : thread_state_t) (s : kstate) : kstate :=
  match st with
  | WAIT_FOR_RECV | WAIT_FOR_SEND => upd t (λ tc, tc <| wait_tid := NULL_TID |>) s
  | RUNNING => unrun t s
  | _ => s
  end.

(** A state change of [t] that puts it at the back of its run queue, or of any
    other queue. *)
Definition enq (q : qref) (t : Z) (Q : queues) : queues := <[q := t :: Qdel t Q q]> (Qdel t Q).

(** ** The core of a state *)

Lemma core_lookup s t : tcb_table (core s) !! t = core_tcb <$> tcb_table s !! t.
Proof. unfold core. simpl. apply lookup_fmap. Qed.

Lemma core_lookup_Some s t ctc :
  tcb_table (core s) !! t = Some ctc ↔ ∃ tc, tcb_table s !! t = Some tc ∧ ctc = core_tcb tc.
Proof. rewrite core_lookup. apply fmap_Some. Qed.

(** [f] leaves links and queue heads alone. *)
Definition nolink (f : tcb_t → tcb_t) : Prop := ∀ tc,
  core_tcb (f tc) = f (core_tcb tc) ∧ prev_tid (f tc) = prev_tid tc ∧ next_tid (f tc) = next_tid tc ∧
  sender_wait_queue (f tc) = sender_wait_queue tc ∧
  receiver_wait_queue (f tc) = receiver_wait_queue tc.

Lemma lookup_upd t f s : tcb_table (upd t f s) !! t = f <$> tcb_table s !! t.
Proof. unfold upd. simpl. apply lookup_alter_eq. Qed.

Lemma lookup_upd_ne t u f s : u ≠ t → tcb_table (upd t f s) !! u = tcb_table s !! u.
Proof. intros H. unfold upd. simpl. by apply lookup_alter_ne. Qed.

Lemma core_upd t f s :
  (∀ tc, core_tcb (f tc) = f (core_tcb tc)) → core (upd t f s) = upd t f (core s).
Proof.
  intros Hf. unfold upd. rewrite core_table. unfold core at 2. simpl.
  assert (core_tcb <$> alter f t (tcb_table s) = alter f t (core_tcb <$> tcb_table s)) as E.
  { apply map_eq. intros u. rewrite lookup_fmap. destruct (decide (u = t)) as [->|Hne].
    - rewrite !lookup_alter_eq, lookup_fmap. destruct (tcb_table s !! t); [|done]. simpl.
      f_equal. apply Hf.
    - by rewrite !lookup_alter_ne, lookup_fmap. }
  rewrite E. done.
Qed.

Lemma upd_insert t f s tc :
  tcb_table s !! t = Some tc → s <| tcb_table ::= insert t (f tc) |> = upd t f s.
Proof.
  intros H. unfold upd. assert (alter f t (tcb_table s) = <[t := f tc]> (tcb_table s)) as E.
  { apply map_eq. intros u. destruct (decide (u = t)) as [->|Hne].
    - by rewrite lookup_alter_eq, lookup_insert_eq, H.
    - by rewrite lookup_alter_ne, lookup_insert_ne. }
  change (s <| tcb_table ::= alter f t |>) with (s <| tcb_table := alter f t (tcb_table s) |>).
  rewrite E. done.
Qed.

Lemma qwf_ext lk ls Q Q' : (∀ q, Q' q = Q q) → qwf lk ls Q → qwf lk ls Q'.
Proof.
  intros E [H1 H2 H3 H4 H5 H6 H7 H8]. split; try done.
  - intros q l. rewrite E. apply H3.
  - intros q. rewrite E. apply H4.
  - intros q t. rewrite E. apply H5.
  - intros q. rewrite E. apply H6.
  - intros q q' t. rewrite !E. apply H7.
  - intros t Ht Hf. apply H8; [done|]. intros q. rewrite <- E. apply Hf.
Qed.

Lemma qwf_repr lk ls lk' ls' Q :
  (∀ t, lk' t = lk t) → (∀ q, ls' q = ls q) → qwf lk ls Q → qwf lk' ls' Q.
Proof.
  intros E1 E2 [H1 H2 H3 H4 H5 H6 H7 H8]. split; try done.
  - intros t. rewrite E1. apply H1.
  - intros q. rewrite E2. apply H2.
  - intros q l. rewrite E2. apply H3.
  - intros q. eapply chain_ext; [|apply H4]. intros x _. apply E1.
  - intros t Ht Hf. rewrite E1. by apply H8.
Qed.

Lemma wf_upd t f s Q : nolink f → wf s Q → wf (upd t f s) Q.
Proof.
  intros Hf. apply qwf_repr.
  - intros u. unfold link, upd. simpl. destruct (decide (u = t)) as [->|Hne].
    + rewrite lookup_alter_eq. destruct (tcb_table s !! t) as [tc|]; [|done]. simpl.
      by destruct (Hf tc) as (_ & -> & -> & _).
    + by rewrite lookup_alter_ne.
  - intros q. unfold lst, upd. simpl. destruct q as [| | |u|u|]; try done;
      (destruct (decide (u = t)) as [->|Hne]; [|by rewrite lookup_alter_ne]);
      rewrite lookup_alter_eq; (destruct (tcb_table s !! t) as [tc|]; [|done]); simpl;
      f_equal; apply Hf.
Qed.

(** ** Steps on control blocks *)

Lemma wp_tcb_at s t tc Post L : tcb_table s !! t = Some tc → Post tc s → wp (tcb_at t) Post L s.
Proof. intros Ht HP. unfold tcb_at. wp_steps. by eapply wp_deref. Qed.

(** Reading, seen from the core. *)
Lemma wp_tcb_at_core s t ctc Post L :
  tcb_table (core s) !! t = Some ctc →
  (∀ tc, tcb_table s !! t = Some tc → core_tcb tc = ctc → Post tc s) → wp (tcb_at t) Post L s.
Proof. intros (tc & Ht & ->)%core_lookup_Some HP. eapply wp_tcb_at; [done|]. by apply HP. Qed.

Lemma wp_upd_tcb s Q t f (Post : unit → kstate → Prop) L :
  nolink f → wf s Q → 0 <= t < NUM_TCBS →
  (∀ s', wf s' Q → core s' = upd t f (core s) → Post tt s') → wp (upd_tcb t f) Post L s.
Proof.
  intros Hf W Ht HP. destruct (proj2 (qwf_links _ _ _ W t) Ht) as [pn Hl].
  unfold link in Hl. apply fmap_Some in Hl as (tc & Htc & _).
  unfold upd_tcb. wp_step. eapply wp_tcb_at; [done|]. apply wp_modify. rewrite upd_insert by done.
  apply HP; [by apply wf_upd | apply core_upd; apply Hf].
Qed.

Lemma wp_upd_state s Q t f (Post : unit → kstate → Prop) L :
  wf s Q → 0 <= t < NUM_TCBS →
  (∀ s', wf s' Q → core s' = upd t (λ tc, tc <| user_exec_state ::= f |>) (core s) → Post tt s') →
  wp (upd_state t f) Post L s.
Proof. intros. by eapply wp_upd_tcb. Qed.

(** ** Queues without a thread *)

Lemma elem_of_Qdel t Q q u : u ∈ Qdel t Q q ↔ u ∈ Q q ∧ u ≠ t.
Proof. unfold Qdel. rewrite list_elem_of_filter. tauto. Qed.

Lemma filter_ne (t : Z) (xs : list Z) : t ∉ xs → filter (λ x, x ≠ t) xs = xs.
Proof.
  induction xs as [|x xs IH]; intros H; [done|]. apply not_elem_of_cons in H as [Hx Hxs].
  rewrite filter_cons_True by done. by rewrite IH.
Qed.

Lemma free_Qdel t Q : free (Qdel t Q) t.
Proof. intros q H. apply elem_of_Qdel in H as [_ ?]. done. Qed.

Lemma Qdel_free t Q : free Q t → ∀ q, Qdel t Q q = Q q.
Proof.
  intros Hf q. apply filter_ne, Hf.
Qed.

Lemma Qdel_split t Q q xs ys :
  (∀ q' q'' u, u ∈ Q q' → u ∈ Q q'' → q' = q'') → NoDup (Q q) → Q q = xs ++ t :: ys →
  ∀ q', (<[q := xs ++ ys]> Q) q' = Qdel t Q q'.
Proof.
  intros Hd Hn HQ q'. destruct (decide (q' = q)) as [->|Hne].
  - rewrite fn_lookup_insert. unfold Qdel. rewrite HQ in *.
    apply NoDup_app in Hn as (N1 & N2 & N3). apply NoDup_cons in N3 as [N3 N4].
    rewrite filter_app, filter_cons_False by tauto. rewrite !filter_ne; [done | done |].
    intros H. apply (N2 t H). by left.
  - rewrite fn_lookup_insert_ne by done. symmetry. apply filter_ne. intros Hu.
    apply Hne. eapply (Hd q' q t); [done|]. rewrite HQ. apply elem_of_app. right. by left.
Qed.

(** [list_remove] on the queue that holds the thread. *)
Lemma wp_list_remove_del s Q q t (Post : unit → kstate → Prop) L :
  wf s Q → t ∈ Q q →
  (∀ s', wf s' (Qdel t Q) → core s' = core s → Post tt s') → wp (list_remove q t) Post L s.
Proof.
  intros W Hin HP. apply list_elem_of_split in Hin as (xs & ys & HQ).
  eapply wp_list_remove; [done | done |]. intros s' W' C. apply HP; [|done].
  eapply qwf_ext; [|exact W']. intros q'. symmetry. apply Qdel_split; [|by eapply qwf_nodup | done].
  intros q1 q2 u. by eapply qwf_disjoint.
Qed.

(** ** Removal from whatever holds the thread *)

Lemma unrun_insert s t p c :
  processors s !! p = Some c → running_thread c = Some t →
  (∀ p', running s p' = Some (Some t) → p' = p) →
  s <| processors ::= insert p (c <| running_thread := None |>) |> = unrun t s.
Proof.
  intros Hp Hc Hu. unfold unrun.
  set (g := λ c : Processor, if decide (running_thread c = Some t)
                             then c <| running_thread := None |> else c).
  assert (<[p := c <| running_thread := None |>]> (processors s) = g <$> processors s) as E.
  { apply map_eq. intros i. rewrite lookup_fmap. destruct (decide (i = p)) as [->|Hne].
    - rewrite lookup_insert_eq, Hp. simpl. unfold g. by rewrite decide_True.
    - rewrite lookup_insert_ne by done. destruct (processors s !! i) as [ci|] eqn:Ei; [|done].
      simpl. unfold g. rewrite decide_False; [done|]. intros Hr. apply Hne, Hu.
      unfold running. by rewrite Ei, <- Hr. }
  change (s <| processors ::= insert p (c <| running_thread := None |>) |>) with
    (s <| processors := <[p := c <| running_thread := None |>]> (processors s) |>).
  rewrite E. done.
Qed.

Lemma wp_clear_running n : ∀ p p0 s t (Post : unit → kstate → Prop) L,
  (∀ i, p <= i < p + Z.of_nat n → is_Some (running s i)) →
  p <= p0 < p + Z.of_nat n → running s p0 = Some (Some t) →
  (∀ p', running s p' = Some (Some t) → p' = p0) →
  Post tt (unrun t s) → wp (clear_running n p t) Post L s.
Proof.
  induction n as [|n IH]; intros p p0 s t Post L Hd Hp Hr Hu HP; [lia|]. simpl.
  destruct (Hd p ltac:(lia)) as [o Ho]. unfold running in Ho.
  apply fmap_Some in Ho as (c & Hc & ->).
  wp_step. unfold processor_at. wp_step. wp_step. eapply wp_deref; [done|].
  destruct (decide (running_thread c = Some t)) as [Ht|Ht].
  - unfold set_running_thread, processor_at. wp_step. wp_step. wp_step. eapply wp_deref; [done|].
    apply wp_modify. erewrite unrun_insert; [done | done | done |].
    intros p' Hp'. rewrite (Hu p' Hp'). symmetry. apply Hu. unfold running. by rewrite Hc, <- Ht.
  - eapply (IH (p + 1) p0); try done.
    + intros i Hi. apply Hd. lia.
    + assert (p0 ≠ p); [|lia]. intros ->. unfold running in Hr. rewrite Hc in Hr. simpl in Hr. congruence.
Qed.

Lemma core_unrun t s : core (unrun t s) = unrun t (core s).
Proof. done. Qed.

(** The two detaching operations, for a thread in the queue of [wait_tid]. *)
Lemma wp_detach_wait s Q (q : Z → qref) t tc (Post : unit → kstate → Prop) L :
  wf s Q → tcb_table s !! t = Some tc → 0 <= t < NUM_TCBS →
  (if wait_tid tc =? NULL_TID then free Q t else t ∈ Q (q (wait_tid tc))) →
  (∀ s', wf s' (Qdel t Q) → core s' = upd t (λ tc, tc <| wait_tid := NULL_TID |>) (core s) → Post tt s') →
  wp (let* tc := tcb_at t in
      let r := get_tcb (wait_tid tc) in
      upd_tcb t (λ tc, tc <| wait_tid := NULL_TID |>) ;;
      match r with Some r => list_remove (q r) t | None => ret tt end) Post L s.
Proof.
  intros W Htc Ht Hq HP. wp_step. eapply wp_tcb_at; [done|]. cbv beta zeta.
  wp_step. eapply wp_upd_tcb; [done | done | done |]. intros s1 W1 C1. unfold get_tcb.
  destruct (wait_tid tc =? NULL_TID).
  - apply wp_ret. apply HP; [|done]. eapply qwf_ext; [|done]. by apply Qdel_free.
  - eapply wp_list_remove_del; [done | done |]. intros s2 W2 C2. apply HP; [done | congruence].
Qed.

Lemma upd_upd t f g s : upd t g (upd t f s) = upd t (λ tc, g (f tc)) s.
Proof.
  unfold upd. assert (alter g t (alter f t (tcb_table s)) = alter (λ tc, g (f tc)) t (tcb_table s)) as E.
  { apply map_eq. intros u. destruct (decide (u = t)) as [->|Hne].
    - rewrite !lookup_alter_eq. by destruct (tcb_table s !! t).
    - by rewrite !lookup_alter_ne. }
  change (s <| tcb_table ::= alter f t |> <| tcb_table ::= alter g t |>) with
    (s <| tcb_table := alter g t (alter f t (tcb_table s)) |>).
  rewrite E. done.
Qed.

Lemma upd_ext t f g s tc : tcb_table s !! t = Some tc → f tc = g tc → upd t f s = upd t g s.
Proof.
  intros Ht E. unfold upd. assert (alter f t (tcb_table s) = alter g t (tcb_table s)) as H.
  { apply map_eq. intros u. destruct (decide (u = t)) as [->|Hne].
    - rewrite !lookup_alter_eq, Ht. simpl. by rewrite E.
    - by rewrite !lookup_alter_ne. }
  change (s <| tcb_table ::= alter f t |>) with (s <| tcb_table := alter f t (tcb_table s) |>).
  rewrite H. done.
Qed.

Lemma kinv_lookup s Q t : kinv s Q → 0 <= t < NUM_TCBS → ∃ tc, tcb_table s !! t = Some tc.
Proof.
  intros [W _] Ht. destruct (proj2 (qwf_links _ _ _ W t) Ht) as [pn Hl].
  unfold link in Hl. apply fmap_Some in Hl as (tc & Htc & _). eauto.
Qed.

(** The queue of a thread follows from its block. *)
Lemma kinv_home s Q t tc q :
  kinv s Q → tcb_table s !! t = Some tc → t ∈ Q q ↔ home tc = Some q.
Proof.
  intros [_ I] Ht. apply (ci_home _ _ I t (core_tcb tc)). by rewrite core_lookup, Ht.
Qed.

Lemma kinv_homeless s Q t tc :
  kinv s Q → tcb_table s !! t = Some tc → home tc = None → free Q t.
Proof. intros K Ht Hh q Hin. apply (kinv_home _ _ _ _ _ K Ht) in Hin. congruence. Qed.

(** States [thread_remove_from_list] accepts. *)
Definition removable (st : thread_state_t) : Prop := st ≠ INACTIVE ∧ st ≠ SLEEPING.

Lemma wp_thread_remove_from_list s Q t tc (Post : Z → kstate → Prop) L :
  kinv s Q → 0 <= t < NUM_TCBS → tcb_table s !! t = Some tc → removable (thread_state tc) →
  (∀ s', wf s' (Qdel t Q) → core s' = detach t (thread_state tc) (core s) → Post E_OK s') →
  wp (thread_remove_from_list t) Post L s.
Proof.
  intros K Ht Htc [R1 R2] HP. pose proof K as [W I].
  unfold thread_remove_from_list. wp_step. eapply wp_tcb_at; [done|]. cbv beta.
  pose proof (kinv_home s Q t tc) as Hh. unfold home in Hh.
  destruct (thread_state tc) eqn:Est; try done.
  - wp_step. eapply wp_list_remove_del; [done | by apply Hh |]. intros s1 W1 C1. apply wp_ret. by apply HP.
  - wp_step. eapply wp_list_remove_del; [done | by apply Hh |]. intros s1 W1 C1. apply wp_ret. by apply HP.
  - wp_step. eapply wp_list_remove_del; [done | by apply Hh |]. intros s1 W1 C1. apply wp_ret. by apply HP.
  - wp_step. wp_step. wp_step.
    destruct (ci_running _ _ I t (core_tcb tc)) as [p Hp]; [by rewrite core_lookup, Htc | done |].
    destruct (ci_runs _ _ I p t Hp) as [Hpr _].
    pose proof (ci_processors _ _ I) as Hnp. change (num_processors (core s)) with (num_processors s) in *.
    eapply (wp_clear_running _ _ p).
    + intros i Hi. apply (ci_array _ _ I). lia.
    + lia.
    + exact Hp.
    + intros p' Hp'. by eapply (ci_once _ _ I).
    + apply wp_ret. apply HP; [|done]. eapply qwf_ext; [|exact W]. apply Qdel_free.
      eapply kinv_homeless; [done | done |]. unfold home. by rewrite Est.
  - wp_step. eapply (wp_detach_wait _ _ ReceiverQ); [done | done | done | |].
    { destruct (wait_tid tc =? NULL_TID) eqn:Ew; [|by apply Hh].
      eapply kinv_homeless; [done | done |]. unfold home. by rewrite Est, Ew. }
    intros s1 W1 C1. wp_step. eapply wp_upd_tcb; [done | done | done |]. intros s2 W2 C2.
    apply wp_ret. apply HP; [done|]. by rewrite C2, C1, upd_upd.
  - wp_step. eapply (wp_detach_wait _ _ SenderQ); [done | done | done | |].
    { destruct (wait_tid tc =? NULL_TID) eqn:Ew; [|by apply Hh].
      eapply kinv_homeless; [done | done |]. unfold home. by rewrite Est, Ew. }
    intros s1 W1 C1. wp_step. eapply wp_upd_tcb; [done | done | done |]. intros s2 W2 C2.
    apply wp_ret. apply HP; [done|]. by rewrite C2, C1, upd_upd.
Qed.

(** ** Keeping the invariant *)

(** The invariant of a state in which the thread [t] has changed, does not run
    and has moved to the queue its new block calls for. *)
Lemma ci_move c c' Q Q' t tc' :
  ci c Q → t ≠ 0 →
  tcb_table c' !! t = Some tc' → (∀ u, u ≠ t → tcb_table c' !! u = tcb_table c !! u) →
  (∀ p, running c' p = (λ o, if decide (o = Some t) then None else o) <$> running c p) →
  num_processors c' = num_processors c →
  0 <= priority tc' < NUM_PRIORITIES → thread_state tc' ≠ RUNNING →
  (∀ q, t ∈ Q' q ↔ home tc' = Some q) → (∀ u q, u ≠ t → u ∈ Q' q ↔ u ∈ Q q) →
  ci c' Q'.
Proof.
  intros I Ht0 Ht Hu Hr Hn Hp Hst Hq Hq'.
  assert (∀ p u, running c' p = Some (Some u) → running c p = Some (Some u) ∧ u ≠ t) as Hrun.
  { intros p u. rewrite Hr. destruct (running c p) as [[v|]|]; simpl; [|done|done].
    case_decide; [done|]. intros [= ->]. split; congruence. }
  split.
  - intros u tc q Hl. destruct (decide (u = t)) as [->|Hne].
    + rewrite Ht in Hl. injection Hl as <-. apply Hq.
    + rewrite Hq' by done. rewrite Hu in Hl by done. by apply (ci_home _ _ I).
  - intros u tc Hl. destruct (decide (u = t)) as [->|Hne]; [congruence|].
    rewrite Hu in Hl by done. by eapply (ci_priority _ _ I).
  - intros tc Hl. rewrite Hu in Hl by done. by eapply (ci_null _ _ I).
  - intros p u Hpu. apply Hrun in Hpu as [Hpu Hne]. rewrite Hn. rewrite Hu by done.
    by apply (ci_runs _ _ I).
  - intros u tc Hl Hs. destruct (decide (u = t)) as [->|Hne]; [congruence|].
    rewrite Hu in Hl by done. destruct (ci_running _ _ I u tc Hl Hs) as [p Hpu]. exists p.
    rewrite Hr, Hpu. simpl. rewrite decide_False; [done | congruence].
  - intros p p' u H1 H2. apply Hrun in H1 as [H1 _], H2 as [H2 _]. by eapply (ci_once _ _ I).
  - rewrite Hn. apply I.
  - intros p. rewrite Hr, fmap_is_Some. apply (ci_array _ _ I).
Qed.

Lemma running_detach t st c p :
  (st = RUNNING ∨ ∀ p, running c p ≠ Some (Some t)) →
  running (detach t st c) p = (λ o, if decide (o = Some t) then None else o) <$> running c p.
Proof.
  intros H. assert (st ≠ RUNNING → running c p = (λ o, if decide (o = Some t) then None else o) <$> running c p) as Hid.
  { intros Hst. destruct H as [|H]; [done|]. destruct (running c p) as [o|] eqn:E; [|done]. simpl.
    case_decide; [|done]. subst. by destruct (H p). }
  destruct st; try by apply Hid. simpl. unfold running, unrun. simpl. rewrite lookup_fmap.
  destruct (processors c !! p) as [cc|]; [|done]. simpl. f_equal. by case_decide.
Qed.

Lemma tcb_table_detach t st c u :
  u ≠ t → tcb_table (detach t st c) !! u = tcb_table c !! u.
Proof. intros H. destruct st; try done; simpl; by rewrite lookup_alter_ne. Qed.

(** The block a detached thread has before its new state is set. *)
Definition detached (tc : tcb_t) : tcb_t :=
  match thread_state tc with
  | WAIT_FOR_RECV | WAIT_FOR_SEND => tc <| wait_tid := NULL_TID |>
  | _ => tc
  end.

Lemma lookup_detach t tc c :
  tcb_table c !! t = Some tc → tcb_table (detach t (thread_state tc) c) !! t = Some (detached tc).
Proof.
  intros H. unfold detach, detached. destruct (thread_state tc); try done; simpl;
    by rewrite lookup_alter_eq, H.
Qed.

Lemma elem_of_enq q t Q u q' : u ∈ enq q t Q q' ↔ u = t ∧ q' = q ∨ u ∈ Q q' ∧ u ≠ t.
Proof.
  unfold enq. destruct (decide (q' = q)) as [->|Hne].
  - rewrite fn_lookup_insert, elem_of_cons, elem_of_Qdel. split; [intros [->|]; tauto|].
    intros [[-> _]|]; tauto.
  - rewrite fn_lookup_insert_ne, elem_of_Qdel by done. tauto.
Qed.

(** A detached thread given a state that does not run and queued there. *)
Lemma ci_requeue c Q t tc f q :
  ci c Q → t ≠ 0 → tcb_table c !! t = Some tc →
  priority (f (detached tc)) = priority tc → thread_state (f (detached tc)) ≠ RUNNING →
  home (f (detached tc)) = Some q →
  ci (upd t f (detach t (thread_state tc) c)) (enq q t Q).
Proof.
  intros I Ht0 Htc Hp Hs Hh.
  eapply (ci_move c _ Q _ t (f (detached tc))); [done | done | | | | | | done | |].
  - simpl. by rewrite lookup_alter_eq, (lookup_detach t tc).
  - intros u Hu. simpl. by rewrite lookup_alter_ne, tcb_table_detach.
  - intros p. apply running_detach. destruct (decide (thread_state tc = RUNNING)) as [|Hn]; [by left|].
    right. intros p' Hp'. destruct (ci_runs _ _ I p' t Hp') as [_ (tc2 & H2 & H3)]. congruence.
  - by destruct (thread_state tc).
  - rewrite Hp. by eapply (ci_priority _ _ I).
  - intros q'. rewrite elem_of_enq, Hh. split; [intros [[_ ->]|[_ ?]]; done|]. intros [= ->]. by left.
  - intros u q' Hu. rewrite elem_of_enq. tauto.
Qed.

(** ** The operations on states and queues *)

(** What moving [t] to state [st] and queue [q] leaves behind. *)
Definition moved (s : kstate) (Q : queues) (t : Z) (tc : tcb_t) (st : thread_state_t) (q : qref)
    (s' : kstate) : Prop :=
  kinv s' (enq q t Q) ∧
  core s' = upd t (λ tc, tc <| thread_state := st |>) (detach t (thread_state tc) (core s)).

Lemma wf_enq s Q q t (Post : unit → kstate → Prop) L :
  wf s (Qdel t Q) → 0 < t < NUM_TCBS → valid_q q →
  (∀ s', wf s' (enq q t Q) → core s' = core s → Post tt s') → wp (list_enqueue q t) Post L s.
Proof. intros. eapply wp_list_enqueue; [done | apply free_Qdel | done | done | done]. Qed.

Lemma home_core tc : home (core_tcb tc) = home tc.
Proof. done. Qed.

Lemma detached_core tc : detached (core_tcb tc) = core_tcb (detached tc).
Proof. unfold detached. simpl. by destruct (thread_state tc). Qed.

Lemma moved_intro s Q t tc st q s' :
  kinv s Q → t ≠ 0 → tcb_table s !! t = Some tc → st ≠ RUNNING →
  home ((detached tc) <| thread_state := st |>) = Some q →
  wf s' (enq q t Q) →
  core s' = upd t (λ tc, tc <| thread_state := st |>) (detach t (thread_state tc) (core s)) →
  moved s Q t tc st q s'.
Proof.
  intros [W I] Ht Htc Hst Hh W' C. split; [|done]. split; [done|]. rewrite C.
  change (thread_state tc) with (thread_state (core_tcb tc)).
  eapply ci_requeue; [done | done | by rewrite core_lookup, Htc | | done |].
  - unfold detached. simpl. by destruct (thread_state tc).
  - unfold home in *. rewrite detached_core. exact Hh.
Qed.

Lemma detached_fields tc : priority (detached tc) = priority tc.
Proof. unfold detached. by destruct (thread_state tc). Qed.

Lemma detach_lookup_core s t tc :
  tcb_table s !! t = Some tc →
  tcb_table (detach t (thread_state tc) (core s)) !! t = Some (core_tcb (detached tc)).
Proof.
  intros H. rewrite <- detached_core. change (thread_state tc) with (thread_state (core_tcb tc)).
  apply lookup_detach. by rewrite core_lookup, H.
Qed.

(** The common tail of [thread_start] and [thread_wakeup]. *)
Lemma wp_make_ready s Q t tc (Post : Z → kstate → Prop) L :
  kinv s Q → 0 < t < NUM_TCBS → tcb_table s !! t = Some tc → removable (thread_state tc) →
  (∀ s', moved s Q t tc READY (RunQ (priority tc)) s' → Post E_OK s') →
  wp (let* r := thread_remove_from_list t in
      if is_error r then ret E_FAIL
      else
        upd_tcb t (λ tc, tc <| thread_state := READY |>) ;;
        let* tc := tcb_at t in
        list_enqueue (RunQ (priority tc)) t ;;
        ret E_OK) Post L s.
Proof.
  intros K Ht Htc Hr HP. pose proof K as [W I].
  wp_step. eapply wp_thread_remove_from_list; [done | lia | done | done |]. intros s1 W1 C1.
  change (is_error E_OK) with false. cbv iota.
  wp_step. eapply wp_upd_tcb; [done | done | lia |]. intros s2 W2 C2.
  wp_step. eapply wp_tcb_at_core.
  { rewrite C2, C1. simpl. by rewrite lookup_alter_eq, (detach_lookup_core _ _ _ Htc). }
  intros tc2 Htc2 Hcore. assert (priority tc2 = priority tc) as Hpr.
  { change (priority tc2) with (priority (core_tcb tc2)). rewrite Hcore. apply detached_fields. }
  rewrite Hpr. wp_step. eapply wf_enq; [done | done | |].
  { apply (ci_priority _ _ I t (core_tcb tc)). by rewrite core_lookup, Htc. }
  intros s3 W3 C3. apply wp_ret. apply HP.
  eapply moved_intro; [done | lia | done | done | | done | congruence].
  unfold home. simpl. by rewrite detached_fields.
Qed.

Lemma wp_thread_start s Q t tc (Post : Z → kstate → Prop) L :
  kinv s Q → 0 < t < NUM_TCBS → tcb_table s !! t = Some tc →
  match thread_state tc with
  | WAIT_FOR_RECV | WAIT_FOR_SEND | PAUSED =>
      ∀ s', moved s Q t tc READY (RunQ (priority tc)) s' → Post E_OK s'
  | READY | RUNNING => Post E_DONE s
  | INACTIVE | ZOMBIE | SLEEPING => Post E_FAIL s
  end →
  wp (thread_start t) Post L s.
Proof.
  intros K Ht Htc HP. unfold thread_start. wp_step. eapply wp_tcb_at; [done|]. cbv beta.
  destruct (thread_state tc) eqn:Est; try (by apply wp_ret);
    (eapply wp_make_ready; [done | done | done | by rewrite Est | done]).
Qed.

Lemma wp_thread_wakeup s Q t tc (Post : Z → kstate → Prop) L :
  kinv s Q → 0 < t < NUM_TCBS → tcb_table s !! t = Some tc →
  match thread_state tc with
  | WAIT_FOR_RECV | WAIT_FOR_SEND | PAUSED =>
      ∀ s', moved s Q t tc READY (RunQ (priority tc)) s' → Post E_OK s'
  | READY | RUNNING => Post E_DONE s
  | INACTIVE | ZOMBIE | SLEEPING => Post E_FAIL s
  end →
  wp (thread_wakeup t) Post L s.
Proof.
  intros K Ht Htc HP. unfold thread_wakeup. wp_step. eapply wp_tcb_at; [done|]. cbv beta.
  destruct (thread_state tc) eqn:Est; try (by apply wp_ret);
    try (eapply wp_make_ready; [done | done | done | by rewrite Est | done]).
  unfold thread_remove_from_list. wp_step. wp_step. eapply wp_tcb_at; [done|]. cbv beta. rewrite Est.
  by apply wp_ret.
Qed.

Lemma wp_thread_pause s Q t tc (Post : Z → kstate → Prop) L :
  kinv s Q → 0 < t < NUM_TCBS → tcb_table s !! t = Some tc →
  match thread_state tc with
  | WAIT_FOR_RECV | WAIT_FOR_SEND | READY | RUNNING => ∀ s', moved s Q t tc PAUSED PausedQ s' → Post E_OK s'
  | PAUSED => Post E_DONE s
  | INACTIVE | ZOMBIE | SLEEPING => Post E_FAIL s
  end →
  wp (thread_pause t) Post L s.
Proof.
  intros K Ht Htc HP. unfold thread_pause. wp_step. eapply wp_tcb_at; [done|]. cbv beta.
  destruct (thread_state tc) eqn:Est; try (by apply wp_ret);
    (wp_step; eapply wp_thread_remove_from_list; [done | lia | done | by rewrite Est |]; intros s1 W1 C1;
     change (is_error E_OK) with false; cbv iota;
     wp_step; eapply wp_upd_tcb; [done | done | lia |]; intros s2 W2 C2;
     wp_step; eapply wf_enq; [done | done | done |]; intros s3 W3 C3; apply wp_ret; apply HP;
     eapply moved_intro; [done | lia | done | done | done | done | congruence]).
Qed.

(** ** The scheduler *)

(** Processor [p] runs [z]. *)
Definition run (p z : Z) (s : kstate) : kstate :=
  (upd z (λ tc, tc <| thread_state := RUNNING |>) s)
    <| processors ::= alter (λ c, c <| running_thread := Some z |>) p |>.

Lemma ci_ext c Q Q' : (∀ u q, u ∈ Q' q ↔ u ∈ Q q) → ci c Q → ci c Q'.
Proof.
  intros E [H1 H2 H3 H4 H5 H6 H7 H8]. split; try done.
  intros t tc q Ht. rewrite E. by apply H1.
Qed.

Lemma running_run p z c p' :
  running (run p z c) p' = if decide (p' = p) then (λ _, Some z) <$> running c p else running c p'.
Proof.
  unfold running, run. simpl. case_decide as Hp.
  - subst. rewrite lookup_alter_eq. by destruct (processors c !! p).
  - by rewrite lookup_alter_ne.
Qed.

Lemma ci_run c Q p z tc :
  ci c Q → running c p = Some None → 0 <= p < num_processors c →
  tcb_table c !! z = Some tc → thread_state tc = READY →
  ci (run p z c) (Qdel z Q).
Proof.
  intros I Hp Hpn Hz Hst.
  assert (z ≠ 0) as Hz0.
  { intros ->. pose proof (ci_null _ _ I tc Hz). congruence. }
  assert (∀ p', running c p' ≠ Some (Some z)) as Hnr.
  { intros p' H. destruct (ci_runs _ _ I p' z H) as [_ (tc2 & H2 & H3)]. congruence. }
  assert (tcb_table (run p z c) !! z = Some (tc <| thread_state := RUNNING |>)) as Hz'.
  { unfold run, upd. simpl. by rewrite lookup_alter_eq, Hz. }
  assert (∀ u, u ≠ z → tcb_table (run p z c) !! u = tcb_table c !! u) as Hu.
  { intros u Hu. unfold run, upd. simpl. by rewrite lookup_alter_ne. }
  assert (∀ p' u, running (run p z c) p' = Some (Some u) →
    p' = p ∧ u = z ∨ u ≠ z ∧ running c p' = Some (Some u)) as Hrun.
  { intros p' u. rewrite running_run. case_decide as E; [subst; rewrite Hp; simpl; intros [= <-]; by left|].
    intros H. right. split; [|done]. intros ->. by apply (Hnr p'). }
  split.
  - intros u tc' q Hl. rewrite elem_of_Qdel. destruct (decide (u = z)) as [->|Hne].
    + rewrite Hz' in Hl. injection Hl as <-. split; [tauto | done].
    + rewrite Hu in Hl by done. rewrite (ci_home _ _ I u tc' q Hl). tauto.
  - intros u tc' Hl. destruct (decide (u = z)) as [->|Hne].
    + rewrite Hz' in Hl. injection Hl as <-. exact (ci_priority _ _ I z tc Hz).
    + rewrite Hu in Hl by done. by eapply (ci_priority _ _ I).
  - intros tc' Hl. rewrite Hu in Hl by done. by eapply (ci_null _ _ I).
  - intros p' u H. destruct (Hrun p' u H) as [[-> ->]|[Hne H']]; [eauto|].
    rewrite Hu by done. by apply (ci_runs _ _ I).
  - intros u tc' Hl Hs. destruct (decide (u = z)) as [->|Hne].
    + exists p. rewrite running_run, decide_True, Hp by done. done.
    + rewrite Hu in Hl by done. destruct (ci_running _ _ I u tc' Hl Hs) as [p' Hp'].
      exists p'. rewrite running_run, decide_False; [done|]. intros ->. congruence.
  - intros p1 p2 u H1 H2.
    destruct (Hrun p1 u H1) as [[-> ->]|[N1 H1']], (Hrun p2 _ H2) as [[-> E]|[N2 H2']]; try done.
    by eapply (ci_once _ _ I).
  - apply I.
  - intros p'. rewrite running_run. case_decide as E; [|apply (ci_array _ _ I)].
    subst. rewrite fmap_is_Some. apply (ci_array _ _ I).
Qed.

(** A preempted thread that goes back to its run queue: whether its processor is
    cleared first does not matter to the thread that follows it. *)
Lemma run_unrun p z t f c :
  running c p = Some (Some t) → (∀ p', running c p' = Some (Some t) → p' = p) →
  run p z (upd t f (unrun t c)) = run p z (upd t f c).
Proof.
  intros Hp Hu. unfold run, upd, unrun.
  set (h := λ c : Processor, c <| running_thread := Some z |>).
  set (g := λ c : Processor, if decide (running_thread c = Some t)
                             then c <| running_thread := None |> else c).
  assert (alter h p (g <$> processors c) = alter h p (processors c)) as E.
  { apply map_eq. intros i. destruct (decide (i = p)) as [->|Hne].
    - rewrite !lookup_alter_eq, lookup_fmap. destruct (processors c !! p); [|done]. simpl.
      f_equal. unfold g, h. by case_decide.
    - rewrite !lookup_alter_ne, lookup_fmap by done. destruct (processors c !! i) as [ci|] eqn:Ei; [|done].
      simpl. unfold g. rewrite decide_False; [done|]. intros Hr. apply Hne, Hu. unfold running.
      by rewrite Ei, <- Hr. }
  unfold update. cbn [tcb_table processors mach run_queues paused_list zombie_list num_processors
    irq_handlers last_tid lock_tcb_table init_server_thread kernel_stack_top tss_esp0 regs fpu
    fxsave_areas tcb_table_addr]. rewrite E. done.
Qed.

(** The queues after [z] has been picked while [cur] was running. *)
Definition picked (s : kstate) (Q : queues) (cur : option Z) (z : Z) : queues :=
  match cur with
  | Some c =>
      match tcb_table s !! c with
      | Some tc => enq (RunQ (priority tc)) c (Qdel z Q)
      | None => Qdel z Q
      end
  | None => Qdel z Q
  end.

Definition preempt (cur : option Z) (s : kstate) : kstate :=
  match cur with
  | Some c => upd c (λ tc, tc <| thread_state := READY |>) s
  | None => s
  end.

(** Dispatching [z] on processor [p], which was running [cur]. *)
Definition dispatched (s : kstate) (Q : queues) (p : Z) (cur : option Z) (z : Z) (s' : kstate) : Prop :=
  kinv s' (picked s Q cur z) ∧ core s' = run p z (preempt cur (core s)).

Lemma Qdel_comm t u Q q : Qdel t (Qdel u Q) q = Qdel u (Qdel t Q) q.
Proof. unfold Qdel. rewrite !list_filter_filter. apply list_filter_iff. tauto. Qed.

Lemma ci_dispatch s Q p cur z ztc :
  kinv s Q → running s p = Some cur → 0 <= p < num_processors s →
  tcb_table s !! z = Some ztc → thread_state ztc = READY →
  ci (run p z (preempt cur (core s))) (picked s Q cur z).
Proof.
  intros [W I] Hp Hn Hz Hst.
  assert (tcb_table (core s) !! z = Some (core_tcb ztc)) as Hcz by by rewrite core_lookup, Hz.
  destruct cur as [c|]; [|by eapply ci_run].
  destruct (ci_runs _ _ I p c Hp) as [_ (ctc & Hc & Hcs)].
  apply core_lookup_Some in Hc as Hc'. destruct Hc' as (tc & Htc & ->).
  unfold picked. rewrite Htc. simpl.
  assert (∀ p', running (core s) p' = Some (Some c) → p' = p) as Hu by (intros p' H; by eapply (ci_once _ _ I)).
  assert (c ≠ z) as Hcz' by (intros ->; change (thread_state (core_tcb tc)) with (thread_state tc) in Hcs; congruence).
  assert (c ≠ 0) as Hc0 by (intros ->; pose proof (ci_null _ _ I _ Hc); congruence).
  rewrite <- run_unrun by done.
  assert (ci (upd c (λ tc, tc <| thread_state := READY |>) (unrun c (core s)))
             (enq (RunQ (priority tc)) c Q)) as I1.
  { pose proof (ci_requeue (core s) Q c (core_tcb tc) (λ tc, tc <| thread_state := READY |>)
      (RunQ (priority tc)) I Hc0 Hc) as H. rewrite Hcs in H. apply H; [by apply detached_fields | done |].
    unfold home. simpl. by rewrite detached_fields. }
  eapply ci_ext; [|eapply (ci_run _ _ p z (core_tcb ztc)); [exact I1 | | exact Hn | | exact Hst]].
  - intros u q. rewrite elem_of_Qdel, !elem_of_enq, elem_of_Qdel.
    split; [|tauto]. intros [[-> ->]|]; tauto.
  - change (running (detach c RUNNING (core s)) p = Some None).
    rewrite (running_detach c RUNNING) by by left. change (running (core s) p) with (running s p).
    rewrite Hp. simpl. by rewrite decide_True.
  - simpl. rewrite lookup_alter_ne by done. exact Hcz.
Qed.

Lemma wp_set_running s Q p c o (Post : unit → kstate → Prop) L :
  wf s Q → running s p = Some c →
  (∀ s', wf s' Q →
     core s' = (core s) <| processors ::= alter (λ c, c <| running_thread := o |>) p |> → Post tt s') →
  wp (set_running_thread p o) Post L s.
Proof.
  intros W Hr HP. unfold running in Hr. apply fmap_Some in Hr as (cc & Hc & _).
  unfold set_running_thread, processor_at. wp_step. wp_step. wp_step. eapply wp_deref; [done|].
  apply wp_modify. apply HP; [exact W|].
  assert (<[p := cc <| running_thread := o |>]> (processors s) =
          alter (λ c, c <| running_thread := o |>) p (processors s)) as E.
  { apply map_eq. intros i. destruct (decide (i = p)) as [->|Hne].
    - by rewrite lookup_insert_eq, lookup_alter_eq, Hc.
    - by rewrite lookup_insert_ne, lookup_alter_ne. }
  transitivity ((core s) <| processors := <[p := cc <| running_thread := o |>]> (processors s) |>); [done|].
  rewrite E. done.
Qed.

Lemma kinv_running s Q p c :
  kinv s Q → running s p = Some (Some c) →
  ∃ tc, tcb_table s !! c = Some tc ∧ thread_state tc = RUNNING ∧ 0 < c < NUM_TCBS ∧ free Q c.
Proof.
  intros K Hp. pose proof K as [W I]. destruct (ci_runs _ _ I p c Hp) as [_ (ctc & Hc & Hcs)].
  apply core_lookup_Some in Hc as Hc'. destruct Hc' as (tc & Htc & ->).
  change (thread_state (core_tcb tc)) with (thread_state tc) in Hcs.
  exists tc. split; [done | split; [done | split]].
  - pose proof (proj1 (qwf_links _ _ _ W c)) as H. unfold link in H. rewrite Htc in H.
    specialize (H ltac:(eauto)). assert (c ≠ 0); [|lia]. intros ->.
    pose proof (ci_null _ _ I _ Hc). simpl in *. congruence.
  - eapply kinv_homeless; [done | done |]. unfold home. by rewrite Hcs.
Qed.

Lemma wp_preempt s s1 Q p cur z (Post : unit → kstate → Prop) L :
  kinv s Q → running s p = Some cur → wf s1 (Qdel z Q) → core s1 = core s →
  (∀ s2, wf s2 (picked s Q cur z) → core s2 = preempt cur (core s) → Post tt s2) →
  wp (match cur with
      | Some c =>
          upd_tcb c (λ tc, tc <| thread_state := READY |>) ;;
          let* tc := tcb_at c in
          list_enqueue (RunQ (priority tc)) c
      | None => ret tt
      end) Post L s1.
Proof.
  intros K Hp W1 C1 HP. destruct cur as [c|]; [|by apply wp_ret, HP].
  destruct (kinv_running s Q p c K Hp) as (tc & Htc & Hcs & Hcr & Hf).
  assert (tcb_table (core s) !! c = Some (core_tcb tc)) as Hc by by rewrite core_lookup, Htc.
  wp_step. eapply wp_upd_tcb; [done | done | lia |]. intros s2 W2 C2.
  wp_step. eapply wp_tcb_at_core.
  { by rewrite C2, C1, lookup_upd, Hc. }
  intros tc2 Htc2 Hcore. assert (priority tc2 = priority tc) as Hpr.
  { change (priority tc2) with (priority (core_tcb tc2)). by rewrite Hcore. }
  rewrite Hpr. eapply (wf_enq _ (Qdel z Q)); [| done | |].
  { eapply qwf_ext; [|exact W2]. apply Qdel_free. intros q Hin. apply elem_of_Qdel in Hin as [Hin _].
    by apply (Hf q). }
  { destruct K as [_ I]. exact (ci_priority _ _ I c _ Hc). }
  intros s3 W3 C3. apply HP; [|rewrite C3, C2, C1; done]. unfold picked. by rewrite Htc.
Qed.

(** The body of the loop, once a queue with members has been found. *)
Lemma wp_dispatch s Q p cur pr ys z (Post : option Z → kstate → Prop) L :
  kinv s Q → running s p = Some cur → 0 <= p < num_processors s → Q (RunQ pr) = ys ++ [z] →
  (∀ s', dispatched s Q p cur z s' → Post (Some z) s') →
  wp (let* o := list_dequeue (RunQ pr) in
      match cur with
      | Some c =>
          upd_tcb c (λ tc, tc <| thread_state := READY |>) ;;
          let* tc := tcb_at c in
          list_enqueue (RunQ (priority tc)) c
      | None => ret tt
      end ;;
      let* new_thread := nonnull o in
      upd_tcb new_thread (λ tc, tc <| thread_state := RUNNING |>) ;;
      set_running_thread p (Some new_thread) ;;
      ret (Some new_thread)) Post L s.
Proof.
  intros K Hp Hn HQ HP. pose proof K as [W I].
  assert (z ∈ Q (RunQ pr)) as Hzin by (rewrite HQ; apply elem_of_app; right; by left).
  destruct (qwf_valid _ _ _ W _ _ Hzin) as [Hv Hzr].
  destruct (kinv_lookup s Q z K ltac:(lia)) as [ztc Hztc].
  pose proof (proj1 (kinv_home _ _ _ _ _ K Hztc) Hzin) as Hhome.
  assert (thread_state ztc = READY) as Hst.
  { unfold home in Hhome. destruct (thread_state ztc); try done; by destruct (wait_tid ztc =? NULL_TID). }
  pose proof (ci_dispatch s Q p cur z ztc K Hp Hn Hztc Hst) as Hci.
  wp_step. eapply wp_remove_tail; [done | done |]. intros s1 W1 C1.
  assert (wf s1 (Qdel z Q)) as W1'.
  { eapply qwf_ext; [|exact W1]. intros q. symmetry. rewrite <- (app_nil_r ys).
    apply Qdel_split; [|by eapply qwf_nodup | done]. intros q1 q2 u. by eapply qwf_disjoint. }
  wp_step. eapply wp_preempt; [done | done | done | done |]. intros s2 W2 C2.
  wp_step. eapply wp_deref; [done|].
  wp_step. eapply wp_upd_tcb; [done | done | lia |]. intros s3 W3 C3.
  wp_step. eapply (wp_set_running _ _ _ cur); [done | |].
  { change (running s3 p) with (running (core s3) p). rewrite C3, C2. by destruct cur. }
  intros s4 W4 C4. apply wp_ret. apply HP.
  assert (core s4 = run p z (preempt cur (core s))) as C by (rewrite C4, C3, C2; done).
  split; [split; [done|] | done]. by rewrite C.
Qed.

(** The choice of the scheduler: the oldest thread of the highest priority that
    has one, down to [min_priority]. *)
Definition chosen (Q : queues) (min_priority : Z) (z : Z) : Prop :=
  ∃ pr ys, min_priority <= pr <= MAX_PRIORITY ∧ Q (RunQ pr) = ys ++ [z] ∧
    ∀ i, pr < i <= MAX_PRIORITY → Q (RunQ i) = [].

Definition none_ready (Q : queues) (min_priority : Z) : Prop :=
  ∀ i, min_priority <= i <= MAX_PRIORITY → Q (RunQ i) = [].

#[global] Instance none_ready_dec Q m : Decision (none_ready Q m).
Proof.
  refine (cast_if (decide (Forall (λ i, Q (RunQ i) = []) (seqZ m (MAX_PRIORITY - m + 1))))).
  - intros i Hi. eapply Forall_forall in f; [done|]. apply elem_of_seqZ. lia.
  - intros H. apply n. apply Forall_forall. intros i Hi%elem_of_seqZ. apply H. lia.
Defined.

Lemma wp_schedule_loop n : ∀ pr s Q p cur (Post : option Z → kstate → Prop) L,
  kinv s Q → running s p = Some cur → 0 <= p < num_processors s →
  0 <= pr - Z.of_nat n + 1 → pr <= MAX_PRIORITY →
  (∀ i, pr < i <= MAX_PRIORITY → Q (RunQ i) = []) →
  (none_ready Q (pr - Z.of_nat n + 1) → Post None s) →
  (∀ z s', chosen Q (pr - Z.of_nat n + 1) z → dispatched s Q p cur z s' → Post (Some z) s') →
  wp (schedule_loop n pr p cur) Post L s.
Proof.
  induction n as [|n IH]; intros pr s Q p cur Post L K Hp Hn Hpr Hmax Hempty HN HS; cbn [schedule_loop].
  - apply wp_ret. apply HN. intros i Hi. apply Hempty. lia.
  - pose proof K as [W I]. assert (valid_q (RunQ pr)) as Hv by (simpl; unfold NUM_PRIORITIES, MAX_PRIORITY in *; lia).
    destruct (proj2 (qwf_lists _ _ _ W _) Hv) as [l Hl].
    wp_step. eapply wp_read_list; [apply repr_refl | done |].
    rewrite (empty_list_iff _ _ _ _ _ W Hl). case_bool_decide as HQ; cbn [negb].
    + eapply IH; try done; try lia.
      * intros i Hi. destruct (decide (i = pr)) as [->|]; [done | apply Hempty; lia].
      * intros H. apply HN. intros i Hi. apply H. lia.
      * intros z s' (q & ys & Hc1 & Hc2 & Hc3) D. apply (HS z s'); [|done]. exists q, ys.
        split; [lia | done].
    + destruct (exists_last HQ) as (ys & z & E).
      eapply wp_dispatch; [done | done | done | done |]. intros s' D. apply HS; [|done].
      exists pr, ys. split; [lia | done].
Qed.

(** The lowest priority that preempts the thread of a processor. *)
Definition threshold (s : kstate) (cur : option Z) : Z :=
  match cur with
  | Some c => match tcb_table s !! c with Some tc => priority tc | None => MIN_PRIORITY end
  | None => MIN_PRIORITY
  end.

Lemma wp_schedule s Q p cur (Post : Z → kstate → Prop) L :
  kinv s Q → running s p = Some cur → 0 <= p < num_processors s →
  match cur with Some c => none_ready Q (threshold s cur) → Post c s | None => ¬ none_ready Q (threshold s cur) end →
  (∀ z s', chosen Q (threshold s cur) z → dispatched s Q p cur z s' → Post z s') →
  wp (schedule p) Post L s.
Proof.
  intros K Hp Hn HN HS. pose proof Hp as Hc. unfold running in Hc. apply fmap_Some in Hc as (cc & Hcc & ->).
  unfold schedule, processor_at. wp_step. wp_step. wp_step. eapply wp_deref; [done|]. cbv beta zeta.
  wp_step. set (cur := running_thread cc) in *.
  assert (0 <= threshold s cur < NUM_PRIORITIES ∧
    ∀ (Post : Z → kstate → Prop), Post (threshold s cur) s →
      wp (match cur with Some t => let* tc := tcb_at t in ret (priority tc) | None => ret MIN_PRIORITY end) Post L s)
    as [Hth Hm].
  { unfold threshold. destruct cur as [c|]; [|by unfold MIN_PRIORITY, NUM_PRIORITIES].
    destruct (kinv_running s Q p c K Hp) as (tc & Htc & _). rewrite Htc. split.
    - destruct K as [_ I]. apply (ci_priority _ _ I c (core_tcb tc)). by rewrite core_lookup, Htc.
    - intros P HP. wp_step. by eapply wp_tcb_at. }
  apply Hm. wp_step.
  assert (MAX_PRIORITY - Z.of_nat (Z.to_nat (MAX_PRIORITY - threshold s cur + 1)) + 1 = threshold s cur) as E.
  { unfold MAX_PRIORITY, NUM_PRIORITIES in *. lia. }
  eapply wp_schedule_loop; [done | done | done | | lia | lia | |]; rewrite ?E; [lia | |].
  - intros H. destruct cur as [c|]; [by apply wp_ret, HN | done].
  - intros z s' H1 H2. apply wp_ret. by apply HS.
Qed.

(** Nothing to run. *)
Lemma schedule_panics s Q p :
  kinv s Q → running s p = Some None → 0 <= p < num_processors s → none_ready Q MIN_PRIORITY →
  schedule p s = Panic.
Proof.
  intros K Hp Hn Hnone. pose proof Hp as Hc. unfold running in Hc. apply fmap_Some in Hc as (cc & Hcc & E).
  assert (schedule_loop (Z.to_nat (MAX_PRIORITY - MIN_PRIORITY + 1)) MAX_PRIORITY p None s = Ret None s) as Hl.
  { apply wp_run. intros Q' L HQ. eapply wp_schedule_loop; [done | done | done | by vm_compute | done | lia | done |].
    intros z s' (pr & ys & H1 & H2 & _). rewrite Hnone in H2; [by destruct ys|].
    unfold MIN_PRIORITY, MAX_PRIORITY in *. lia. }
  unfold schedule, processor_at, bind, gets. rewrite Hcc. cbn [deref ret]. rewrite <- E. cbn [ret].
  by rewrite Hl.
Qed.

(** ** Fields the invariant does not look at *)

(** [f] changes neither links nor the state, priority or peer of a thread. *)
Definition quiet (f : tcb_t → tcb_t) : Prop :=
  nolink f ∧ ∀ tc, thread_state (f tc) = thread_state tc ∧ priority (f tc) = priority tc ∧
    wait_tid (f tc) = wait_tid tc.

Lemma ci_upd_quiet t f c Q : quiet f → ci c Q → ci (upd t f c) Q.
Proof.
  intros [_ Hf] [H1 H2 H3 H4 H5 H6 H7 H8].
  assert (∀ u tc, tcb_table (upd t f c) !! u = Some tc →
    ∃ tc0, tcb_table c !! u = Some tc0 ∧ thread_state tc = thread_state tc0 ∧
      priority tc = priority tc0 ∧ home tc = home tc0) as Hl.
  { intros u tc. destruct (decide (u = t)) as [->|Hne].
    - rewrite lookup_upd. intros (tc0 & Ht & ->)%fmap_Some. exists tc0.
      unfold home. destruct (Hf tc0) as (-> & -> & ->). done.
    - rewrite lookup_upd_ne by done. eauto. }
  split; try done.
  - intros u tc q (tc0 & E & _ & _ & ->)%Hl. by apply H1.
  - intros u tc (tc0 & E & _ & -> & _)%Hl. by eapply H2.
  - intros tc (tc0 & E & -> & _ & _)%Hl. by eapply H3.
  - intros p u H. destruct (H4 p u H) as (Hp & tc & Htc & Hs). split; [done|].
    destruct (decide (u = t)) as [->|Hne].
    + exists (f tc). rewrite lookup_upd, Htc. split; [done|]. destruct (Hf tc) as (-> & _). done.
    + exists tc. by rewrite lookup_upd_ne.
  - intros u tc (tc0 & E & -> & _ & _)%Hl. by eapply H5.
Qed.

Lemma wp_upd_quiet s Q t f (Post : unit → kstate → Prop) L :
  quiet f → kinv s Q → 0 <= t < NUM_TCBS →
  (∀ s', kinv s' Q → core s' = upd t f (core s) → Post tt s') → wp (upd_tcb t f) Post L s.
Proof.
  intros Hf [W I] Ht HP. eapply wp_upd_tcb; [apply Hf | done | done |]. intros s' W' C.
  apply HP; [|done]. split; [done|]. rewrite C. by apply ci_upd_quiet.
Qed.

Lemma wp_upd_state_quiet s Q t f (Post : unit → kstate → Prop) L :
  kinv s Q → 0 <= t < NUM_TCBS →
  (∀ s', kinv s' Q → core s' = upd t (λ tc, tc <| user_exec_state ::= f |>) (core s) → Post tt s') →
  wp (upd_state t f) Post L s.
Proof. intros. by eapply wp_upd_quiet. Qed.

(** States with the same threads, queues and processors. *)
Definition same_threads (s s' : kstate) : Prop :=
  tcb_table s' = tcb_table s ∧ run_queues s' = run_queues s ∧ paused_list s' = paused_list s ∧
  zombie_list s' = zombie_list s ∧ processors s' = processors s ∧ num_processors s' = num_processors s.

Lemma kinv_same s s' Q : same_threads s s' → kinv s Q → kinv s' Q.
Proof.
  intros (E1 & E2 & E3 & E4 & E5 & E6) [W I]. split.
  - eapply qwf_repr; [| |exact W].
    + intros t. unfold link. by rewrite E1.
    + intros q. unfold lst. by destruct q; rewrite ?E1, ?E2, ?E3, ?E4.
  - destruct I as [H1 H2 H3 H4 H5 H6 H7 H8].
    assert (tcb_table (core s') = tcb_table (core s)) as Et by (unfold core; simpl; by rewrite E1).
    assert (∀ p, running (core s') p = running (core s) p) as Er by (intros p; unfold running; simpl; by rewrite E5).
    assert (num_processors (core s') = num_processors (core s)) as En by done.
    split.
    + intros t tc q. rewrite Et. apply H1.
    + intros t tc. rewrite Et. apply H2.
    + intros tc. rewrite Et. apply H3.
    + intros p t. rewrite Er, En, Et. apply H4.
    + intros t tc. rewrite Et. intros Ht Hs. destruct (H5 t tc Ht Hs) as [p Hp]. exists p. by rewrite Er.
    + intros p p' t. rewrite !Er. apply H6.
    + by rewrite En.
    + intros p. rewrite Er. apply H8.
Qed.

(** ** Leaving the kernel *)

(** What [thread_switch_context] does to the state it leaves with. *)
Record switched (s : kstate) (tc itc : tcb_t) (s' : kstate) : Prop := {
  sw_same : same_threads s s';
  sw_regs : regs s' = user_exec_state tc;
  sw_mach : mach s' = {| phys := phys (mach s); cr3 := root_pmap itc |};
  sw_esp0 : tss_esp0 s' = kernel_stack_top s;
  sw_rest : irq_handlers s' = irq_handlers s ∧ last_tid s' = last_tid s ∧
    lock_tcb_table s' = lock_tcb_table s ∧ init_server_thread s' = init_server_thread s ∧
    kernel_stack_top s' = kernel_stack_top s ∧ tcb_table_addr s' = tcb_table_addr s
}.

Lemma wp_thread_get_current s o (Post : option Z → kstate → Prop) L :
  running s 0 = Some o → Post o s → wp thread_get_current Post L s.
Proof.
  intros Hr HP. unfold running in Hr. apply fmap_Some in Hr as (cc & Hc & ->).
  unfold thread_get_current, processor_at, processor_get_current. wp_step. wp_step. wp_step.
  eapply wp_deref; [done|]. by apply wp_ret.
Qed.

Lemma wp_thread_switch_context {A} s t tc i itc fx (Post : A → kstate → Prop) (L : kstate → Prop) :
  tcb_table s !! t = Some tc → thread_state tc = RUNNING → running s 0 = Some (Some t) →
  init_server_thread s = Some i → tcb_table s !! i = Some itc →
  (∀ s', switched s tc itc s' →
     (fx = true → fpu s' = fpu s ∧
        fxsave_areas s' = match fxsave_state tc with
                          | Some p => <[p := fpu s]> (fxsave_areas s)
                          | None => fxsave_areas s
                          end) → L s') →
  wp (thread_switch_context t fx) Post L s.
Proof.
  intros Ht Hs Hr Hi Hit HL. unfold running in Hr. apply fmap_Some in Hr as (cc & Hc & Hcur).
  unfold wp, thread_switch_context, get_cr3, set_cr3, thread_get_current, processor_at,
    processor_get_current, tcb_at, nonnull, fxsave, fxrstor, bind, gets, modify, leave.
  rewrite Ht. simpl. rewrite bool_decide_eq_true_2 by done. simpl.
  destruct (negb _); simpl; rewrite Hc; simpl; rewrite <- Hcur; simpl; rewrite Ht; simpl;
    destruct (fxsave_state tc) as [p|] eqn:Ef, fx; simpl; rewrite ?Ht; simpl; rewrite Hi; simpl;
    rewrite Hit; simpl; rewrite Ef; simpl; apply HL; try done; intros _; simpl; rewrite ?lookup_insert_eq; done.
Qed.

(** ** Creation *)

(** The block of a thread that has just been created. *)
Definition new_tcb (pmap entry stack : Z) : tcb_t :=
  zero_tcb <| root_pmap := pmap |>
    <| user_exec_state := zero_state <| eflags := Z.lor EFLAGS_IOPL3 EFLAGS_IF |> <| eip := entry |>
         <| user_esp := stack |> <| ebp := stack |> <| cs := UCODE_SEL |> <| ds := UDATA_SEL |>
         <| es := UDATA_SEL |> <| user_ss := UDATA_SEL |> |>
    <| priority := NORMAL_PRIORITY |> <| thread_state := PAUSED |>.

(** [t] is the first block after [last] that is not in use. *)
Definition first_free (s : kstate) (last t : Z) : Prop :=
  last < t < NUM_TCBS ∧ (thread_state <$> tcb_table s !! t = Some INACTIVE) ∧
  ∀ i, last < i < t → ∃ tc, tcb_table s !! i = Some tc ∧ thread_state tc ≠ INACTIVE.

Lemma wp_search fuel : ∀ s k t prev (Post : unit → kstate → Prop) L,
  last_tid s = k → 0 <= prev < k → first_free s (k - 1) t → t - k < Z.of_nat fuel →
  Post tt (s <| last_tid := t |>) → wp (thread_create_search fuel prev) Post L s.
Proof.
  induction fuel as [|fuel IH]; intros s k t prev Post L Hk Hprev (Ht & Hin & Hact) Hf HP; [lia|].
  cbn [thread_create_search]. wp_step. wp_step. rewrite Hk.
  replace (negb (prev =? k) || (k =? NULL_TID)) with true by lia.
  destruct (decide (k = t)) as [->|Hne].
  - apply fmap_Some in Hin as (tc & Htc & Hs). wp_step. eapply wp_tcb_at; [done|].
    rewrite decide_False by (by rewrite Hs; intros []). apply wp_ret.
    replace (s <| last_tid := t |>) with s in HP; [done|]. rewrite <- Hk. by destruct s.
  - destruct (Hact k ltac:(lia)) as (tc & Htc & Hs). wp_step. eapply wp_tcb_at; [done|].
    rewrite decide_True by done. wp_step. wp_step.
    eapply (IH _ (k + 1) t); [| lia | | lia | exact HP].
    + simpl. rewrite wrap_small; [done | unfold NUM_TCBS in *; lia].
    + split; [lia | split; [done|]]. intros i Hi. apply Hact. lia.
Qed.

Lemma wf_reset s Q t tc :
  wf s Q → free Q t → tcb_table s !! t = Some tc → 0 <= t < NUM_TCBS →
  Q (SenderQ t) = [] → Q (ReceiverQ t) = [] → wf (upd t (λ _, zero_tcb) s) Q.
Proof.
  intros W Hf Htc Ht HS HR. eapply qwf_repr; [| |exact W].
  - intros u. unfold link. destruct (decide (u = t)) as [->|Hne]; [|by rewrite lookup_upd_ne].
    rewrite lookup_upd, Htc. simpl. pose proof (qwf_free _ _ _ W t Ht Hf) as H.
    unfold link in H. rewrite Htc in H. simpl in H. congruence.
  - assert (∀ q l, lst s q = Some l → Q q = [] → l = nil_list) as Hnil.
    { intros q [h l] Hl HQ. destruct (qwf_list _ _ _ W q _ Hl) as [E1 E2]. rewrite HQ in E1, E2.
      simpl in E1, E2. by subst. }
    intros q. destruct q as [| | |u|u|]; try done; cbn [lst];
      (destruct (decide (u = t)) as [->|Hne]; [|by rewrite lookup_upd_ne]);
      rewrite lookup_upd, Htc; simpl; f_equal; symmetry.
    + apply (Hnil (SenderQ t)); [|done]. simpl. by rewrite Htc.
    + apply (Hnil (ReceiverQ t)); [|done]. simpl. by rewrite Htc.
Qed.

(** The assignments to a fresh block. *)
Lemma wp_fill_block s Q t pmap entry stack (k : M kstate (option Z)) Post L :
  wf s Q → 0 <= t < NUM_TCBS → tcb_table (core s) !! t = Some zero_tcb →
  (∀ s', wf s' Q → core s' = upd t (λ _, new_tcb pmap entry stack) (core s) → wp k Post L s') →
  wp (upd_tcb t (λ tc, tc <| root_pmap := pmap |>) ;;
      upd_state t (λ r, r <| eflags := Z.lor EFLAGS_IOPL3 EFLAGS_IF |>) ;;
      upd_state t (λ r, r <| eip := entry |>) ;;
      upd_state t (λ r, r <| user_esp := stack |>) ;;
      upd_state t (λ r, r <| ebp := user_esp r |>) ;;
      upd_state t (λ r, r <| cs := UCODE_SEL |>) ;;
      upd_state t (λ r, r <| ds := UDATA_SEL |>) ;;
      upd_state t (λ r, r <| es := UDATA_SEL |>) ;;
      upd_state t (λ r, r <| user_ss := UDATA_SEL |>) ;;
      upd_tcb t (λ tc, tc <| priority := NORMAL_PRIORITY |>) ;;
      upd_tcb t (λ tc, tc <| thread_state := PAUSED |>) ;; k) Post L s.
Proof.
  intros W Ht Hz HP.
  wp_step. eapply wp_upd_tcb; [done | done | done |]. intros s1 W1 C1.
  wp_step. eapply wp_upd_state; [done | done |]. intros s2 W2 C2.
  wp_step. eapply wp_upd_state; [done | done |]. intros s3 W3 C3.
  wp_step. eapply wp_upd_state; [done | done |]. intros s4 W4 C4.
  wp_step. eapply wp_upd_state; [done | done |]. intros s5 W5 C5.
  wp_step. eapply wp_upd_state; [done | done |]. intros s6 W6 C6.
  wp_step. eapply wp_upd_state; [done | done |]. intros s7 W7 C7.
  wp_step. eapply wp_upd_state; [done | done |]. intros s8 W8 C8.
  wp_step. eapply wp_upd_state; [done | done |]. intros s9 W9 C9.
  wp_step. eapply wp_upd_tcb; [done | done | done |]. intros s10 W10 C10.
  wp_step. eapply wp_upd_tcb; [done | done | done |]. intros s11 W11 C11.
  apply HP; [done|]. rewrite C11, C10, C9, C8, C7, C6, C5, C4, C3, C2, C1, !upd_upd.
  eapply upd_ext; [done|]. vm_compute. reflexivity.
Qed.

(** The address space [thread_create] is asked for. *)
Definition space_of (s : kstate) (addr_space : Z) : Z :=
  if addr_space =? CURRENT_ROOT_PMAP then Z.land (cr3 (mach s)) CR3_BASE_MASK else addr_space.

(** The part of the result that is not in the queues. *)
Definition created (s : kstate) (t pmap entry stack : Z) (m : machine) : kstate :=
  (upd t (λ _, new_tcb pmap entry stack) (core s)) <| mach := m |> <| last_tid := t |>
    <| lock_tcb_table := false |>.

Lemma ci_created s Q t pmap entry stack m :
  kinv s Q → 0 < t < NUM_TCBS → thread_state <$> tcb_table s !! t = Some INACTIVE →
  ci (created s t pmap entry stack m) (enq PausedQ t Q).
Proof.
  intros [W I] Ht Hin. apply fmap_Some in Hin as (tc & Htc & Hs).
  assert (tcb_table (core s) !! t = Some (core_tcb tc)) as Hc by by rewrite core_lookup, Htc.
  eapply (ci_move (core s) _ Q _ t (new_tcb pmap entry stack));
    [done | lia | | | | done | done | done | |].
  - change (tcb_table (upd t (λ _, new_tcb pmap entry stack) (core s)) !! t = Some (new_tcb pmap entry stack)).
    by rewrite lookup_upd, Hc.
  - intros u Hu. change (tcb_table (upd t (λ _, new_tcb pmap entry stack) (core s)) !! u = tcb_table (core s) !! u).
    by rewrite lookup_upd_ne.
  - intros p. change (running (detach t INACTIVE (core s)) p =
      (λ o, if decide (o = Some t) then None else o) <$> running (core s) p).
    apply running_detach. right. intros p' Hp'.
    destruct (ci_runs _ _ I p' t Hp') as [_ (tc2 & H2 & H3)]. rewrite Hc in H2. injection H2 as <-.
    change (thread_state (core_tcb tc)) with (thread_state tc) in H3. congruence.
  - intros q'. rewrite elem_of_enq. change (home (new_tcb pmap entry stack)) with (Some PausedQ).
    split; [intros [[_ ->]|[_ ?]]; done|]. intros [= <-]. by left.
  - intros u q' Hu. rewrite elem_of_enq. tauto.
Qed.

Lemma wp_thread_create s Q lp entry addr_space stack t m (Post : option Z → kstate → Prop) L :
  kinv s Q → initialize_root_pmap lp (space_of s addr_space) (mach s) = Ret E_OK m →
  lock_tcb_table s = false → 0 <= last_tid s < NUM_TCBS → first_free s (last_tid s) t →
  Q (SenderQ t) = [] → Q (ReceiverQ t) = [] →
  (∀ s', kinv s' (enq PausedQ t Q) → core s' = created s t (space_of s addr_space) entry stack m →
     Post (Some t) s') →
  wp (thread_create lp entry addr_space stack) Post L s.
Proof.
  intros K Hinit Hlock Hlast Hfree HS HR HP. pose proof K as [W I].
  pose proof Hfree as (Ht & Hin & Hact). pose proof Hin as Hin'. apply fmap_Some in Hin' as (tc & Htc & Hst).
  assert (free Q t) as Hf by (eapply kinv_homeless; [done | done | unfold home; by rewrite <- Hst]).
  unfold thread_create. wp_step. unfold vm at 1. apply wp_zoom. unfold get_root_page_map. wp_step.
  fold (space_of s addr_space). set (pmap := space_of s addr_space) in *.
  wp_step. unfold vm. apply wp_zoom. eapply wp_of_ret; [exact Hinit|].
  change (is_error E_OK) with false. cbv beta iota. set (s1 := _ <| mach := m |>).
  wp_step. wp_step. wp_step. unfold spinlock_acquire. wp_step. wp_step.
  change (lock_tcb_table s1) with (lock_tcb_table s). rewrite Hlock. apply wp_ret.
  change (last_tid s1) with (last_tid s). rewrite (Z.mod_small (last_tid s)) by (unfold NUM_TCBS, MAX_THREADS in *; lia).
  wp_step. wp_step. rewrite (wrap_small 32 (last_tid s + 1)) by (unfold NUM_TCBS in *; lia).
  wp_step. eapply (wp_search _ _ (last_tid s + 1) t); [done | lia | | unfold NUM_TCBS in *; lia |].
  { replace (last_tid s + 1 - 1) with (last_tid s) by lia. exact Hfree. }
  wp_step. wp_step. simpl. replace (last_tid s =? t) with false by lia.
  set (s2 := _ <| last_tid := t |>).
  wp_step. eapply (wp_tcb_at s2 _ tc); [done|]. rewrite decide_False by (rewrite <- Hst; intros []; done).
  wp_step. unfold upd_tcb at 1. wp_step. eapply (wp_tcb_at s2 _ tc); [done|]. apply wp_modify.
  rewrite (upd_insert t (λ _, zero_tcb) s2 tc) by done.
  eapply (wp_fill_block _ Q); [eapply (wf_reset s2); try done; lia | lia | |].
  { rewrite core_lookup, lookup_upd. change (tcb_table s2) with (tcb_table s). by rewrite Htc. }
  intros s3 W3 C3. wp_step. eapply wp_list_enqueue; [done | done | lia | done |]. intros s4 W4 C4.
  wp_step. unfold spinlock_release. wp_step. apply wp_ret.
  assert (core (s4 <| lock_tcb_table := false |>) = created s t pmap entry stack m) as C.
  { change ((core s4) <| lock_tcb_table := false |> = created s t pmap entry stack m).
    rewrite C4, C3, core_upd, upd_upd by done. done. }
  apply HP; [|done]. split; [|rewrite C; apply ci_created; [done | lia | done]].
  eapply qwf_ext; [|exact W4]. intros q. unfold enq. destruct (decide (q = PausedQ)) as [->|Hne].
  - by rewrite !fn_lookup_insert, Qdel_free.
  - by rewrite !fn_lookup_insert_ne, Qdel_free.
Qed.

(** ** Destruction *)

(** What happens to a thread that was waiting to send to a released one. *)
Definition release_tcb (tc : tcb_t) : tcb_t :=
  tc <| wait_tid := NULL_TID |> <| user_exec_state ::= λ r, r <| eax := u32 E_UNREACH |> |>
     <| thread_state := READY |>.

Definition release_all (xs : list Z) (c : kstate) : kstate := foldr (λ u c, upd u release_tcb c) c xs.

Lemma wp_release_queue fuel : ∀ s Q t (Post : unit → kstate → Prop) L,
  wf s Q → 0 <= t < NUM_TCBS → (length (Q (SenderQ t)) < fuel)%nat →
  (∀ s', wf s' (<[SenderQ t := []]> Q) → core s' = release_all (Q (SenderQ t)) (core s) → Post tt s') →
  wp (release_queue fuel (SenderQ t)) Post L s.
Proof.
  induction fuel as [|fuel IH]; intros s Q t Post L W Ht Hlen HP; [lia|]. cbn [release_queue].
  destruct (proj2 (qwf_lists _ _ _ W (SenderQ t)) Ht) as [l Hl].
  destruct (qwf_list _ _ _ W _ l Hl) as [E1 _].
  wp_step. eapply wp_read_list; [apply repr_refl | done |].
  destruct (Q (SenderQ t)) as [|z ys _] eqn:HQ using rev_ind.
  - rewrite E1. apply wp_ret. apply HP; [|done]. eapply qwf_ext; [|exact W].
    intros q. destruct (decide (q = SenderQ t)) as [->|Hne]; [by rewrite fn_lookup_insert|].
    by rewrite fn_lookup_insert_ne.
  - destruct (queue_member _ _ _ _ _ _ _ W HQ) as (Hz & _).
    assert (head_tid l ≠ 0) as Hh.
    { rewrite E1. destruct ys as [|y ys]; unfold hd0; simpl; [lia|].
      destruct (queue_first _ _ _ _ y (ys ++ [z]) W HQ). lia. }
    unfold NULL_TID at 1. replace (head_tid l =? 0) with false by lia.
    wp_step. eapply wp_remove_tail; [done | done |]. intros s1 W1 C1.
    wp_step. wp_step. eapply wp_upd_tcb; [done | done | lia |]. intros s2 W2 C2.
    wp_step. eapply wp_upd_state; [done | lia |]. intros s3 W3 C3.
    eapply wp_upd_tcb; [done | done | lia |]. intros s4 W4 C4.
    eapply IH; [done | done | |].
    + rewrite fn_lookup_insert. rewrite length_app in Hlen. simpl in Hlen. lia.
    + intros s5 W5 C5. apply HP.
      * eapply qwf_ext; [|exact W5]. intros q.
        destruct (decide (q = SenderQ t)) as [->|Hne]; [by rewrite !fn_lookup_insert|].
        by rewrite !fn_lookup_insert_ne.
      * rewrite C5, fn_lookup_insert. unfold release_all. rewrite foldr_app. simpl. f_equal.
        rewrite C4, C3, C2, C1, !upd_upd. done.
Qed.

Lemma queue_length lk ls Q q : qwf lk ls Q → (length (Q q) <= 15)%nat.
Proof.
  intros W. apply (submseteq_length _ (seqZ 1 15)). apply NoDup_submseteq; [by eapply qwf_nodup|].
  intros u Hu. apply (qwf_valid _ _ _ W) in Hu as [_ Hu]. unfold NUM_TCBS in Hu.
  apply elem_of_seqZ. lia.
Qed.

(** No interrupt is handled by [t]. *)
Definition unhandle (t : Z) (s : kstate) : kstate :=
  s <| irq_handlers ::= fmap (λ h, if decide (h = Some t) then None else h) |>.

Lemma wp_release_irqs n : ∀ i s t (Post : unit → kstate → Prop) L,
  (∀ j, is_Some (irq_handlers s !! j) ↔ 0 <= j < NUM_IRQS) → 0 <= i → i + Z.of_nat n = NUM_IRQS →
  (∀ j h, irq_handlers s !! j = Some h → j < i → h ≠ Some t) →
  Post tt (unhandle t s) → wp (release_irqs n i t) Post L s.
Proof.
  induction n as [|n IH]; intros i s t Post L Hd Hi Hn Hdone HP; cbn [release_irqs].
  - apply wp_ret. replace (unhandle t s) with s in HP; [done|]. unfold unhandle.
    assert ((λ h, if decide (h = Some t) then None else h) <$> irq_handlers s = irq_handlers s) as E.
    { apply map_eq. intros j. rewrite lookup_fmap. destruct (irq_handlers s !! j) as [h|] eqn:Ej; [|done].
      simpl. rewrite decide_False; [done|]. eapply Hdone; [done|].
      assert (0 <= j < NUM_IRQS) by (apply Hd; eauto). lia. }
    transitivity (s <| irq_handlers := (λ h, if decide (h = Some t) then None else h) <$> irq_handlers s |>);
      [|done]. rewrite E. by destruct s.
  - destruct (proj2 (Hd i) ltac:(lia)) as [h Hh]. wp_step. wp_step. wp_step. eapply wp_deref; [done|].
    wp_step. case_bool_decide as Eh; simpl.
    + apply wp_modify. eapply IH; [| lia | lia | |].
      * intros j. simpl. destruct (decide (j = i)) as [->|Hne].
        -- rewrite lookup_insert_eq. split; [intros _; apply Hd; eauto | eauto].
        -- rewrite lookup_insert_ne by done. apply Hd.
      * intros j h'. simpl. destruct (decide (j = i)) as [->|Hne]; [rewrite lookup_insert_eq; by intros [= <-]|].
        rewrite lookup_insert_ne by done. intros Hj Hlt. eapply Hdone; [done | lia].
      * replace (unhandle t (s <| irq_handlers ::= insert i None |>)) with (unhandle t s); [done|].
        unfold unhandle. simpl.
        assert ((λ h, if decide (h = Some t) then None else h) <$> <[i:=None]> (irq_handlers s) =
                (λ h, if decide (h = Some t) then None else h) <$> irq_handlers s) as E.
        { apply map_eq. intros j. rewrite !lookup_fmap. destruct (decide (j = i)) as [->|Hne].
          - rewrite lookup_insert_eq, Hh. simpl. by rewrite Eh, decide_True.
          - by rewrite lookup_insert_ne. }
        transitivity (s <| irq_handlers := (λ h, if decide (h = Some t) then None else h) <$>
          <[i:=None]> (irq_handlers s) |>); [|done]. rewrite E. done.
    + apply wp_ret. eapply IH; [done | lia | lia | | done].
      intros j h' Hj Hlt. destruct (decide (j = i)) as [->|]; [congruence | eapply Hdone; [done | lia]].
Qed.

(** The effect of [thread_release] apart from the queues. *)
Definition released (s : kstate) (Q : queues) (t : Z) (st : thread_state_t) : kstate :=
  upd t (λ tc, tc <| thread_state := INACTIVE |>)
    (unhandle t (release_all (Qdel t Q (SenderQ t)) (detach t st (core s)))).

Lemma unhandle_core t s : core (unhandle t s) = unhandle t (core s).
Proof. done. Qed.

Lemma wp_thread_release s Q t tc (Post : Z → kstate → Prop) L :
  kinv s Q → 0 < t < NUM_TCBS → tcb_table s !! t = Some tc → removable (thread_state tc) →
  (∀ j, is_Some (irq_handlers s !! j) ↔ 0 <= j < NUM_IRQS) →
  (∀ s', wf s' (<[SenderQ t := []]> (Qdel t Q)) → core s' = released s Q t (thread_state tc) → Post E_OK s') →
  wp (thread_release t) Post L s.
Proof.
  intros K Ht Htc Hr Hirq HP. unfold thread_release. wp_step. eapply wp_tcb_at; [done|]. cbv beta.
  assert (∀ A (x y : A), match thread_state tc with INACTIVE => x | _ => y end = y) as Hmatch
    by (intros; destruct Hr; by destruct (thread_state tc)).
  rewrite Hmatch. wp_step. eapply wp_thread_remove_from_list; [done | lia | done | done |]. intros s1 W1 C1.
  change (is_error E_OK) with false. cbv iota.
  wp_step. eapply wp_release_queue; [done | lia | |].
  { pose proof (queue_length _ _ _ (SenderQ t) W1). unfold NUM_TCBS. lia. }
  intros s2 W2 C2. wp_step.
  assert (free (<[SenderQ t:=[]]> (Qdel t Q)) t) as Hf.
  { intros q. destruct (decide (q = SenderQ t)) as [->|Hne]; [rewrite fn_lookup_insert; apply not_elem_of_nil|].
    rewrite fn_lookup_insert_ne by done. apply free_Qdel. }
  change (release_queue _ (LinkQ t)) with
    (let* l := read_list (LinkQ t) in
     if head_tid l =? NULL_TID then ret tt
     else
       let* o := list_dequeue (LinkQ t) in
       match o with
       | Some u =>
           upd_tcb u (λ tc, tc <| wait_tid := NULL_TID |>) ;;
           upd_state u (λ r, r <| eax := u32 E_UNREACH |>) ;;
           upd_tcb u (λ tc, tc <| thread_state := READY |>)
       | None => ret tt
       end ;;
       release_queue 16 (LinkQ t)).
  wp_step. unfold read_list. wp_step. eapply wp_tcb_at_link; [apply repr_refl | |].
  { eapply (qwf_free _ _ _ W2); [lia | done]. }
  intros tc2 _ Hp _. apply wp_ret. cbn [head_tid]. rewrite Hp. change (0 =? NULL_TID) with true.
  apply wp_ret.
  assert (irq_handlers s2 = irq_handlers s) as Ei.
  { change (irq_handlers (core s2) = irq_handlers (core s)). rewrite C2, C1. unfold release_all.
    generalize (Qdel t Q (SenderQ t)). intros xs. induction xs as [|x xs IH]; [|done].
    simpl. by destruct (thread_state tc). }
  wp_step. eapply wp_release_irqs; [by rewrite Ei | lia | done | |].
  { intros j h Hj Hlt. rewrite Ei in Hj. assert (0 <= j < NUM_IRQS) by (apply Hirq; eauto). lia. }
  wp_step. eapply (wp_upd_tcb (unhandle t s2)); [done | exact W2 | lia |]. intros s3 W3 C3.
  apply wp_ret. apply HP; [done|]. rewrite C3, unhandle_core, C2, C1. done.
Qed.
