(* ===== verification/Message.v ===== *)
(** * Messages: kernel/message.c, include/os/msg/message.h

    [send_message] and [receive_message].  Addresses of user buffers are
    32-bit numbers, with 0 for NULL; [vm] runs the copies of Paging.v on the
    machine of the state.  A call that blocks does not return: it leaves the
    kernel with the registers of another thread. *)

From S2P Require Import Prelude Bits Machine Paging Kernel KList Thread.

Definition MSG_NOBLOCK : Z := 0x01.
Definition MSG_STD : Z := 0x00.
Definition MSG_EMPTY : Z := 0x02.
Definition MSG_KERNEL : Z := 0x80.

Definition IS_FLAG_SET (value flag : Z) : bool := is_flag_set value flag.

(** The part of [send_message] that hands the message over to a waiting
    recipient. *)
Definition send_deliver (sender recipient sender_tid recipient_tid subject flags send_buffer
    send_buffer_length : Z) (is_transfer_kernel_msg : bool) : M kstate Z :=
  let* rtc := tcb_at recipient in
  kassert (negb (wait_for_kernel_msg rtc) || (wait_tid rtc =? NULL_TID)) ;;
  let recipient_buffer := ebx (user_exec_state rtc) in
  let recipient_buffer_length := edi (user_exec_state rtc) in
  let actually_sent := Z.min recipient_buffer_length send_buffer_length in
  let* r := vm (poke_virt recipient_buffer actually_sent send_buffer (root_pmap rtc)) in
  if is_error r then ret E_FAIL
  else
    let* r := thread_start recipient in
    if is_error r then ret E_FAIL
    else
      let* rtc := tcb_at recipient in
      upd_state recipient (λ x, x <| eax := u32 (if is_transfer_kernel_msg && negb (wait_for_kernel_msg rtc)
                                                  then E_PREEMPT else E_OK) |>) ;;
      upd_state recipient (λ x, x <| ebx := Z.lor (if is_transfer_kernel_msg then KERNEL_TID else sender_tid)
                                                   (u32 (Z.shiftl flags 16)) |>) ;;
      upd_state recipient (λ x, x <| esi := subject |>) ;;
      upd_state recipient (λ x, x <| edi := actually_sent |>) ;;
      upd_tcb recipient (λ tc, tc <| wait_for_kernel_msg := false |>) ;;
      upd_state sender (λ x, x <| ebx := recipient_tid |>) ;;
      upd_state sender (λ x, x <| esi := actually_sent |>) ;;
      ret E_OK.

(** The part that waits for the recipient. *)
Definition send_wait (sender : Z) (recipient : option Z) (subject flags send_buffer
    send_buffer_length : Z) (is_transfer_kernel_msg : bool) : M kstate Z :=
  let* r := thread_remove_from_list sender in
  if is_error r then ret E_FAIL
  else
    attach_sender_wait_queue sender recipient ;;
    upd_tcb sender (λ tc, tc <| wait_for_kernel_msg := is_transfer_kernel_msg |>) ;;
    upd_state sender (λ x, x <| eax := u32 E_INTERRUPT |>) ;;
    upd_state sender (λ x, x <| ebx := send_buffer |>) ;;
    upd_state sender (λ x, x <| ecx := flags |>) ;;
    upd_state sender (λ x, x <| esi := subject |>) ;;
    upd_state sender (λ x, x <| edi := send_buffer_length |>) ;;
    let* next := schedule processor_get_current in
    thread_switch_context next true.

Definition send_message (sender recipient_tid subject flags send_buffer send_buffer_length : Z)
    : M kstate Z :=
  let* sender_tid := get_tid (Some sender) in
  let recipient := get_tcb recipient_tid in
  let is_transfer_kernel_msg := IS_FLAG_SET flags MSG_KERNEL in
  if sender_tid =? recipient_tid then ret E_INVALID_ARG
  else if (0 <? send_buffer_length) && (send_buffer =? 0) then ret E_INVALID_ARG
  else
    let* l := read_list (ReceiverQ sender) in
    let* '(recipient, recipient_tid) :=
      (if (recipient_tid =? ANY_RECIPIENT) && negb (LIST_IS_EMPTY l) then
         let* recipient := list_dequeue (ReceiverQ sender) in
         let* recipient_tid := get_tid recipient in
         let* r := nonnull recipient in
         let* rtc := tcb_at r in
         kassert (bool_decide (thread_state rtc = WAIT_FOR_SEND)) ;;
         ret (recipient, recipient_tid)
       else ret (recipient, recipient_tid)) in
    let* rtc :=
      match recipient with
      | Some r => let* tc := tcb_at r in ret (Some tc)
      | None => ret None
      end in
    match recipient, rtc with
    | Some r, Some rtc =>
        if decide (thread_state rtc = INACTIVE ∨ thread_state rtc = ZOMBIE) then ret E_UNREACH
        else if bool_decide (thread_state rtc = WAIT_FOR_SEND) &&
                (is_transfer_kernel_msg ||
                 ((wait_tid rtc =? ANY_SENDER) && negb (wait_for_kernel_msg rtc)) ||
                 (wait_tid rtc =? sender_tid)) then
          send_deliver sender r sender_tid recipient_tid subject flags send_buffer
            send_buffer_length is_transfer_kernel_msg
        else if IS_FLAG_SET flags MSG_NOBLOCK then ret E_BLOCK
        else send_wait sender recipient subject flags send_buffer send_buffer_length
               is_transfer_kernel_msg
    | _, _ =>
        if IS_FLAG_SET flags MSG_NOBLOCK then ret E_BLOCK
        else send_wait sender None subject flags send_buffer send_buffer_length is_transfer_kernel_msg
    end.

(** The part of [receive_message] that takes the message of a waiting sender. *)
Definition receive_accept (recipient sender sender_tid recv_buffer recv_buffer_length : Z)
    (is_expecting_kernel_msg : bool) : M kstate Z :=
  let* stc := tcb_at sender in
  let send_buffer := ebx (user_exec_state stc) in
  let send_buffer_length := edi (user_exec_state stc) in
  let actually_recv := Z.min send_buffer_length recv_buffer_length in
  let* r := vm (peek_virt send_buffer actually_recv recv_buffer (root_pmap stc)) in
  if is_error r then ret E_FAIL
  else
    let* r := thread_start sender in
    if is_error r then ret E_FAIL
    else
      let* stc := tcb_at sender in
      let did_send_kernel_msg := wait_for_kernel_msg stc in
      upd_state recipient (λ x, x <| ebx := Z.lor (if wait_for_kernel_msg stc then KERNEL_TID else sender_tid)
                                                   (u32 (Z.shiftl (ecx (user_exec_state stc)) 16)) |>) ;;
      let* stc := tcb_at sender in
      upd_state recipient (λ x, x <| esi := esi (user_exec_state stc) |>) ;;
      upd_state recipient (λ x, x <| edi := actually_recv |>) ;;
      upd_tcb sender (λ tc, tc <| wait_for_kernel_msg := false |>) ;;
      upd_state sender (λ x, x <| eax := E_OK |>) ;;
      upd_state sender (λ x, x <| esi := actually_recv |>) ;;
      ret (if is_expecting_kernel_msg && negb did_send_kernel_msg then E_PREEMPT else E_OK).

(** The part that waits.  It is the [sender] that is detached and that is
    attached to the queue of the recipient. *)
Definition receive_wait (recipient : Z) (sender : option Z) (flags recv_buffer recv_buffer_length : Z)
    (is_expecting_kernel_msg : bool) : M kstate Z :=
  let* s := nonnull sender in
  let* r := thread_remove_from_list s in
  if is_error r then ret E_FAIL
  else
    attach_receiver_wait_queue s (Some recipient) ;;
    upd_tcb recipient (λ tc, tc <| wait_for_kernel_msg := is_expecting_kernel_msg |>) ;;
    upd_state recipient (λ x, x <| eax := u32 E_INTERRUPT |>) ;;
    upd_state recipient (λ x, x <| ebx := recv_buffer |>) ;;
    upd_state recipient (λ x, x <| ecx := flags |>) ;;
    upd_state recipient (λ x, x <| edi := recv_buffer_length |>) ;;
    let* next := schedule processor_get_current in
    thread_switch_context next true.

Definition receive_message (recipient sender_tid flags recv_buffer recv_buffer_length : Z)
    : M kstate Z :=
  let* recipient_tid := get_tid (Some recipient) in
  let sender := get_tcb sender_tid in
  let is_expecting_kernel_msg := IS_FLAG_SET flags MSG_KERNEL in
  if recipient_tid =? sender_tid then ret E_INVALID_ARG
  else if (0 <? recv_buffer_length) && (recv_buffer =? 0) then ret E_INVALID_ARG
  else
    let* l := read_list (SenderQ recipient) in
    let* '(sender, sender_tid) :=
      (if (sender_tid =? ANY_SENDER) && (0 <? recv_buffer_length) && negb (LIST_IS_EMPTY l) then
         let* sender := list_dequeue (SenderQ recipient) in
         let* sender_tid := get_tid sender in
         ret (sender, sender_tid)
       else ret (sender, sender_tid)) in
    let* stc :=
      match sender with
      | Some x => let* tc := tcb_at x in ret (Some tc)
      | None => ret None
      end in
    match sender, stc with
    | Some x, Some stc =>
        if bool_decide (thread_state stc = WAIT_FOR_RECV) &&
           (wait_for_kernel_msg stc || (wait_tid stc =? recipient_tid) ||
            (negb is_expecting_kernel_msg && (wait_tid stc =? ANY_RECIPIENT))) then
          receive_accept recipient x sender_tid recv_buffer recv_buffer_length is_expecting_kernel_msg
        else if IS_FLAG_SET flags MSG_NOBLOCK then ret E_BLOCK
        else receive_wait recipient sender flags recv_buffer recv_buffer_length is_expecting_kernel_msg
    | _, _ =>
        if IS_FLAG_SET flags MSG_NOBLOCK then ret E_BLOCK
        else receive_wait recipient None flags recv_buffer recv_buffer_length is_expecting_kernel_msg
    end.
