(* ===== verification/ThreadSpec.v ===== *)
(** * Threads: the properties of kernel/list.c, thread.c and schedule.c

    The theorems about thread queues, thread states, the scheduler, thread
    creation and destruction, each with a run that starts from [boot]: the
    sixteen control blocks unused, the queues empty and one processor idle. *)

From stdpp Require Import functions.
From S2P Require Import Prelude Bits Machine Paging PagingFacts PagingSpec.
From S2P Require Import Kernel KList Thread ThreadFacts.

(** ** States to run from *)

Definition array {A} (n : nat) (v : A) : gmap Z A :=
  list_to_map ((λ i, (Z.of_nat i, v)) <$> seq 0 n).
Arguments array : simpl never.

Definition boot : kstate := {|
  mach := demo;
  tcb_table := array 16 zero_tcb;
  run_queues := array 5 nil_list;
  paused_list := nil_list;
  zombie_list := nil_list;
  processors := array 64 {| is_online := true; acpi_uid := 0; lapic_id := 0; running_thread := None |};
  num_processors := 1;
  irq_handlers := array 24 None;
  last_tid := 0;
  lock_tcb_table := false;
  init_server_thread := Some 1;
  kernel_stack_top := 0xFEC10000;
  tss_esp0 := 0xFEC10000;
  regs := zero_state;
  fpu := 7;
  fxsave_areas := ∅;
  tcb_table_addr := 0xFEC20000
|}.

(** The state an operation leaves. *)
Definition after {A} (m : M kstate A) (s : kstate) : kstate :=
  match m s with Ret _ s' => s' | Leave s' => s' | _ => s end.

(** Two threads created, the second one in the current address space, then
    started, then one of them scheduled. *)
Definition one_created : kstate := after (thread_create 0x5004 0x1000 0x5000 0x2000) boot.
Definition two_created : kstate := after (thread_create 0x5004 0x1800 CURRENT_ROOT_PMAP 0x2800) one_created.
Definition one_started : kstate := after (thread_start 1) two_created.
Definition two_started : kstate := after (thread_start 2) one_started.
Definition one_running : kstate := after (schedule 0) two_started.

(** ** Operations as steps *)

Inductive kop :=
| OpStart (t : Z) | OpPause (t : Z) | OpWakeup (t : Z) | OpSchedule (p : Z).

Definition run_kop (op : kop) : M kstate unit :=
  match op with
  | OpStart t => let* _ := thread_start t in ret tt
  | OpPause t => let* _ := thread_pause t in ret tt
  | OpWakeup t => let* _ := thread_wakeup t in ret tt
  | OpSchedule p => let* _ := schedule p in ret tt
  end.

Definition valid_kop (s : kstate) (op : kop) : Prop :=
  match op with
  | OpStart t | OpPause t | OpWakeup t => 0 < t < NUM_TCBS
  | OpSchedule p => 0 <= p < num_processors s
  end.

Inductive reachable (s : kstate) : kstate → Prop :=
| reachable_refl : reachable s s
| reachable_step s1 s2 op :
    reachable s s1 → valid_kop s1 op → run_kop op s1 = Ret tt s2 → reachable s s2.

(** Enqueuing a sequence of threads. *)
Fixpoint enqueue_all (q : qref) (ts : list Z) : M kstate unit :=
  match ts with
  | [] => ret tt
  | t :: ts => list_enqueue q t ;; enqueue_all q ts
  end.

(** Dequeuing as many. *)
Fixpoint dequeue_all (n : nat) (q : qref) : M kstate (list (option Z)) :=
  match n with
  | O => ret []
  | S n =>
      let* o := list_dequeue q in
      let* os := dequeue_all n q in
      ret (o :: os)
  end.

Lemma array_lookup {A} n (v : A) i :
  array n v !! i = if decide (0 <= i < Z.of_nat n) then Some v else None.
Proof.
  unfold array. destruct (decide (0 <= i < Z.of_nat n)) as [Hi|Hi].
  - apply elem_of_list_to_map.
    + rewrite <- list_fmap_compose. apply (NoDup_fmap_2 Z.of_nat), NoDup_seq.
    + apply list_elem_of_fmap. exists (Z.to_nat i). rewrite Z2Nat.id by lia. split; [done|].
      apply elem_of_seq. lia.
  - apply not_elem_of_list_to_map. rewrite <- list_fmap_compose. intros Hin.
    apply list_elem_of_fmap in Hin as (k & -> & Hk). apply elem_of_seq in Hk. simpl in Hi. lia.
Qed.

Lemma boot_tcb t : tcb_table boot !! t = if decide (0 <= t < 16) then Some zero_tcb else None.
Proof. exact (array_lookup 16 zero_tcb t). Qed.

Lemma boot_running p : running boot p = if decide (0 <= p < 64) then Some None else None.
Proof.
  unfold running. rewrite (array_lookup 64 _ p : processors boot !! p = _). repeat case_decide; done || lia.
Qed.

Lemma boot_lst q : lst boot q = Some nil_list ∧ valid_q q ∨ lst boot q = None ∧ ¬ valid_q q.
Proof.
  destruct q as [p| | |t|t|t]; cbn [lst valid_q]; unfold NUM_PRIORITIES, NUM_TCBS; try tauto.
  - rewrite (array_lookup 5 _ p : run_queues boot !! p = _). case_decide; tauto.
  - rewrite boot_tcb. case_decide; simpl; tauto.
  - rewrite boot_tcb. case_decide; simpl; tauto.
Qed.

Lemma boot_link t : link boot t = if decide (0 <= t < 16) then Some (0, 0) else None.
Proof. unfold link. rewrite boot_tcb. by case_decide. Qed.

Lemma wf_boot : wf boot (λ _, []).
Proof.
  split; try done.
  - intros t. rewrite boot_link. unfold NUM_TCBS. case_decide; split; done || (intros []; done) || tauto.
  - intros q. destruct (boot_lst q) as [[-> ?]|[-> ?]]; split; done || (intros []; done).
  - intros q l. destruct (boot_lst q) as [[-> _]|[-> _]]; [by intros [= <-] | done].
  - intros q t Hin. by apply elem_of_nil in Hin.
  - intros q. apply NoDup_nil_2.
  - intros q q' t Hin. by apply elem_of_nil in Hin.
  - intros t Ht _. rewrite boot_link. by rewrite decide_True.
Qed.

Lemma kinv_boot : kinv boot (λ _, []).
Proof.
  split; [apply wf_boot|].
  assert (∀ t tc, tcb_table (core boot) !! t = Some tc → tc = zero_tcb) as Hc.
  { intros t tc. rewrite core_lookup, boot_tcb. case_decide; [by intros [= <-] | done]. }
  assert (∀ p, running (core boot) p = running boot p) as Er by done.
  split.
  - intros t tc q ->%Hc. split; [by intros ?%elem_of_nil | done].
  - intros t tc ->%Hc. done.
  - intros tc ->%Hc. done.
  - intros p t. rewrite Er, boot_running. by case_decide.
  - intros t tc ->%Hc. done.
  - intros p p' t. rewrite Er, boot_running. by case_decide.
  - done.
  - intros p. rewrite Er, boot_running. unfold MAX_PROCESSORS.
    case_decide; split; done || (intros []; done) || tauto.
Qed.

Lemma after_wp {A} (m : M kstate A) s (P : kstate → Prop) : wp m (λ _ s', P s') P s → P (after m s).
Proof. unfold wp, after. by destruct (m s). Qed.

Ltac run_state :=
  match goal with |- kinv ?s ?Q => unfold s; apply (after_wp _ _ (λ s', kinv s' Q)) end.

(** A block of a state that is at hand. *)
Ltac lookup_block := eexists; split; [vm_compute; reflexivity | vm_compute; split; reflexivity].

Definition Q0 : qref → list Z := λ _, [].
Definition Q1 : qref → list Z := enq PausedQ 1 Q0.
Definition Q2 : qref → list Z := enq PausedQ 2 Q1.
Definition Q3 : qref → list Z := enq (RunQ 2) 1 Q2.
Definition Q4 : qref → list Z := enq (RunQ 2) 2 Q3.
Definition Q5 : qref → list Z := Qdel 1 Q4.

Lemma kinv_one_created : kinv one_created Q1.
Proof.
  run_state.
  assert (∃ m, initialize_root_pmap 0x5004 (space_of boot 0x5000) (mach boot) = Ret E_OK m) as [m Hm]
    by (eexists; vm_compute; reflexivity).
  apply (wp_thread_create boot Q0 0x5004 0x1000 0x5000 0x2000 1 m);
    [apply kinv_boot | exact Hm | reflexivity | | | reflexivity | reflexivity |].
  - change (last_tid boot) with 0. unfold NUM_TCBS. lia.
  - change (last_tid boot) with 0. split; [unfold NUM_TCBS; lia|]. split; [by rewrite boot_tcb|]. lia.
  - intros s' K _. exact K.
Qed.

Lemma kinv_two_created : kinv two_created Q2.
Proof.
  run_state.
  assert (∃ m, initialize_root_pmap 0x5004 (space_of one_created CURRENT_ROOT_PMAP) (mach one_created) = Ret E_OK m) as [m Hm]
    by (eexists; vm_compute; reflexivity).
  assert (last_tid one_created = 1) as El by (vm_compute; reflexivity).
  apply (wp_thread_create one_created Q1 0x5004 0x1800 CURRENT_ROOT_PMAP 0x2800 2 m);
    [apply kinv_one_created | exact Hm | vm_compute; reflexivity | | | reflexivity | reflexivity |]; rewrite ?El.
  - unfold NUM_TCBS. lia.
  - split; [unfold NUM_TCBS; lia|]. split; [vm_compute; reflexivity|]. lia.
  - intros s' K _. exact K.
Qed.

Lemma kinv_one_started : kinv one_started Q3.
Proof.
  run_state. assert (∃ tc, tcb_table two_created !! 1 = Some tc ∧ thread_state tc = PAUSED ∧ priority tc = 2)
    as (tc & H1 & H2 & H3) by lookup_block.
  eapply wp_thread_start; [apply kinv_two_created | unfold NUM_TCBS; lia | exact H1 |]. rewrite H2, H3.
  intros s' [K _]. exact K.
Qed.

Lemma kinv_two_started : kinv two_started Q4.
Proof.
  run_state. assert (∃ tc, tcb_table one_started !! 2 = Some tc ∧ thread_state tc = PAUSED ∧ priority tc = 2)
    as (tc & H1 & H2 & H3) by lookup_block.
  eapply wp_thread_start; [apply kinv_one_started | unfold NUM_TCBS; lia | exact H1 |]. rewrite H2, H3.
  intros s' [K _]. exact K.
Qed.

Lemma Q4_ready : Q4 (RunQ 2) = [2; 1] ∧ ∀ i, i ≠ 2 → Q4 (RunQ i) = [].
Proof.
  split; [done|]. intros i Hi. unfold Q4, Q3, Q2, Q1, enq, Q0. unfold Qdel.
  fn_simp. by rewrite !filter_nil.
Qed.

Lemma Q4_chosen m z : chosen Q4 m z → z = 1.
Proof.
  intros (pr & ys & _ & H2 & _). destruct Q4_ready as [E1 E2].
  destruct (decide (pr = 2)) as [->|Hne]; [|rewrite E2 in H2 by exact Hne; by destruct ys].
  rewrite E1 in H2. apply (app_inj_tail [2]) in H2 as [_ <-]. reflexivity.
Qed.

Lemma kinv_one_running : kinv one_running Q5.
Proof.
  run_state. destruct Q4_ready as [E1 E2].
  assert (running two_started 0 = Some None) as Hr by (vm_compute; reflexivity).
  assert (num_processors two_started = 1) as Hn by (vm_compute; reflexivity).
  eapply (wp_schedule _ Q4 0 None); [apply kinv_two_started | exact Hr | lia | |].
  - intros H. specialize (H 2). rewrite E1 in H.
    discriminate H. unfold threshold, MIN_PRIORITY, MAX_PRIORITY. lia.
  - intros z s' ->%Q4_chosen [K _]. exact K.
Qed.

(** ** Queues *)

(** [list_insert_at_end] implements insertion at either end of a sequence:
    on well-formed queues it returns, the queue gains the thread at that end,
    every other queue keeps its contents, and nothing but links and queue
    heads changes. *)
Theorem list_insert_refines s Q q t at_tail :
  wf s Q → free Q t → 0 < t < NUM_TCBS → valid_q q →
  ∃ s', list_insert_at_end q t at_tail s = Ret tt s' ∧
    wf s' (<[q := if at_tail then Q q ++ [t] else t :: Q q]> Q) ∧ core s' = core s.
Proof.
  intros W Hf Ht Hv. destruct (wp_ret_inv (list_insert_at_end q t at_tail)
    (λ _ s', wf s' (<[q := insert_end t at_tail (Q q)]> Q) ∧ core s' = core s) s) as ([] & s' & E & H).
  - by eapply wp_list_insert_at_end.
  - exists s'. split; [exact E | exact H].
Qed.

Lemma list_insert_refines_witness :
  ∃ s', list_insert_at_end PausedQ 1 true boot = Ret tt s' ∧ wf s' (<[PausedQ := [1]]> Q0).
Proof.
  destruct (list_insert_refines boot Q0 PausedQ 1 true) as (s' & E & W & _).
  - apply wf_boot.
  - intros q. apply not_elem_of_nil.
  - unfold NUM_TCBS. lia.
  - exact I.
  - exists s'. split; [exact E | exact W].
Defined.

(** [list_remove_from_end] implements removal from either end: it returns
    the first or last thread of the sequence (NULL when it is empty), which is
    no longer in any queue. *)
Theorem list_remove_end_refines s Q q at_tail :
  wf s Q → valid_q q →
  ∃ s', list_remove_from_end q at_tail s = Ret (if at_tail then last (Q q) else head (Q q)) s' ∧
    wf s' (<[q := if at_tail then removelast (Q q) else tail (Q q)]> Q) ∧ core s' = core s.
Proof.
  intros W Hv. set (r := if at_tail then last (Q q) else head (Q q)).
  set (Q' := <[q := if at_tail then removelast (Q q) else tail (Q q)]> Q).
  destruct (wp_ret_inv (list_remove_from_end q at_tail)
    (λ o s', o = r ∧ wf s' Q' ∧ core s' = core s) s) as (o & s' & E & -> & H1 & H2); [|eauto].
  destruct (decide (Q q = [])) as [HQ|HQ].
  - eapply wp_remove_empty; [done | done | done |]. unfold r, Q'. rewrite HQ.
    split; [by destruct at_tail|]. split; [|done]. eapply qwf_ext; [|exact W].
    intros q'. destruct (decide (q' = q)) as [->|Hne]; [|by rewrite fn_lookup_insert_ne].
    rewrite fn_lookup_insert, HQ. by destruct at_tail.
  - unfold r, Q'. destruct at_tail.
    + destruct (exists_last HQ) as (ys & z & HQ'). rewrite HQ', last_snoc, removelast_last.
      eapply wp_remove_tail; [done | done |]. auto.
    + destruct (Q q) as [|h ys] eqn:HQ'; [done|]. eapply wp_remove_head; [done | done |]. auto.
Qed.

Lemma list_remove_end_refines_witness :
  ∃ s', list_remove_from_end PausedQ true two_created = Ret (Some 1) s' ∧ wf s' (<[PausedQ := [2]]> Q2).
Proof.
  destruct (list_remove_end_refines two_created Q2 PausedQ true) as (s' & E & W & _).
  - apply kinv_two_created.
  - exact I.
  - exists s'. split; [exact E | exact W].
Defined.

(** [list_remove] implements removal from the middle of a sequence. *)
Theorem list_remove_refines s Q q t :
  wf s Q → t ∈ Q q →
  ∃ s', list_remove q t s = Ret tt s' ∧ wf s' (Qdel t Q) ∧ core s' = core s.
Proof.
  intros W Hin. destruct (wp_ret_inv (list_remove q t)
    (λ _ s', wf s' (Qdel t Q) ∧ core s' = core s) s) as ([] & s' & E & H); [|eauto].
  eapply wp_list_remove_del; [done | done |]. auto.
Qed.

Lemma list_remove_refines_witness :
  ∃ s', list_remove PausedQ 2 two_created = Ret tt s' ∧ wf s' (Qdel 2 Q2).
Proof.
  destruct (list_remove_refines two_created Q2 PausedQ 2) as (s' & E & W & _).
  - apply kinv_two_created.
  - apply list_elem_of_lookup. exists 0%nat. reflexivity.
  - exists s'. split; [exact E | exact W].
Defined.

Lemma Forall_and_mem {P : Z → Prop} ts t : Forall P ts → t ∉ ts → Forall (λ u, P u ∧ u ≠ t) ts.
Proof.
  intros HF Hn. apply Forall_forall. intros u Hu. split; [by eapply Forall_forall in HF | by intros ->].
Qed.

Lemma wp_enqueue_all ts : ∀ s Q q (Post : unit → kstate → Prop) L,
  wf s Q → valid_q q → NoDup ts → Forall (λ t, free Q t ∧ 0 < t < NUM_TCBS) ts →
  (∀ s', wf s' (<[q := reverse ts ++ Q q]> Q) → core s' = core s → Post tt s') →
  wp (enqueue_all q ts) Post L s.
Proof.
  induction ts as [|t ts IH]; intros s Q q Post L W Hv Hn HF HP; cbn [enqueue_all].
  - apply wp_ret. apply HP; [|done]. eapply qwf_ext; [|exact W]. intros q'.
    destruct (decide (q' = q)) as [->|Hne]; [by rewrite fn_lookup_insert | by rewrite fn_lookup_insert_ne].
  - apply Forall_cons in HF as [[Hf Ht] HF]. apply NoDup_cons in Hn as [Hni Hn].
    wp_step. eapply wp_list_enqueue; [done | done | done | done |]. intros s1 W1 C1.
    eapply IH; [done | done | done | |].
    + eapply Forall_impl; [exact (Forall_and_mem ts t HF Hni)|]. intros u [[Hu Hr] Hne]. split; [|done].
      intros q'. destruct (decide (q' = q)) as [->|Hne']; [|rewrite fn_lookup_insert_ne by done; apply Hu].
      rewrite fn_lookup_insert. apply not_elem_of_cons. split; [done | apply Hu].
    + intros s2 W2 C2. apply HP; [|congruence]. eapply qwf_ext; [|exact W2]. intros q'.
      destruct (decide (q' = q)) as [->|Hne]; [|by rewrite !fn_lookup_insert_ne].
      rewrite !fn_lookup_insert, reverse_cons, <- app_assoc. done.
Qed.

Lemma wp_dequeue_all ts : ∀ s Q q (Post : list (option Z) → kstate → Prop) L,
  wf s Q → Q q = reverse ts →
  (∀ s', wf s' (<[q := []]> Q) → core s' = core s → Post (Some <$> ts) s') →
  wp (dequeue_all (length ts) q) Post L s.
Proof.
  induction ts as [|t ts IH]; intros s Q q Post L W HQ HP; cbn [dequeue_all length].
  - apply wp_ret. apply HP; [|done]. eapply qwf_ext; [|exact W]. intros q'.
    destruct (decide (q' = q)) as [->|Hne]; [by rewrite fn_lookup_insert, HQ | by rewrite fn_lookup_insert_ne].
  - rewrite reverse_cons in HQ. wp_step. eapply wp_remove_tail; [done | done |]. intros s1 W1 C1.
    wp_step. eapply IH; [done | by rewrite fn_lookup_insert |]. intros s2 W2 C2. apply wp_ret.
    apply HP; [|congruence]. eapply qwf_ext; [|exact W2]. intros q'.
    destruct (decide (q' = q)) as [->|Hne]; [by rewrite !fn_lookup_insert | by rewrite !fn_lookup_insert_ne].
Qed.

(** Queues are first in, first out: threads enqueued with [list_enqueue] on
    an empty queue come out of [list_dequeue] in the order they went in. *)
Theorem queue_fifo s Q q ts :
  wf s Q → valid_q q → Q q = [] → NoDup ts → Forall (λ t, free Q t ∧ 0 < t < NUM_TCBS) ts →
  ∃ s' s'', enqueue_all q ts s = Ret tt s' ∧
    dequeue_all (length ts) q s' = Ret (Some <$> ts) s'' ∧ wf s'' Q ∧ core s'' = core s.
Proof.
  intros W Hv HQ Hn HF. destruct (wp_ret_inv (enqueue_all q ts)
    (λ _ s', wf s' (<[q := reverse ts ++ Q q]> Q) ∧ core s' = core s) s) as ([] & s' & E1 & W1 & C1).
  { by eapply wp_enqueue_all. }
  rewrite HQ, app_nil_r in W1.
  destruct (wp_ret_inv (dequeue_all (length ts) q)
    (λ os s'', os = Some <$> ts ∧ wf s'' (<[q := []]> (<[q := reverse ts]> Q)) ∧ core s'' = core s') s')
    as (os & s'' & E2 & -> & W2 & C2).
  { eapply wp_dequeue_all; [done | by rewrite fn_lookup_insert |]. auto. }
  exists s', s''. split; [done | split; [done | split; [|congruence]]].
  eapply qwf_ext; [|exact W2]. intros q'.
  destruct (decide (q' = q)) as [->|Hne]; [by rewrite fn_lookup_insert | by rewrite !fn_lookup_insert_ne].
Qed.

Lemma queue_fifo_witness :
  ∃ s' s'', enqueue_all ZombieQ [3; 7; 5] two_created = Ret tt s' ∧
    dequeue_all 3 ZombieQ s' = Ret [Some 3; Some 7; Some 5] s''.
Proof.
  destruct (queue_fifo two_created Q2 ZombieQ [3; 7; 5]) as (s' & s'' & E1 & E2 & _).
  - apply kinv_two_created.
  - exact I.
  - reflexivity.
  - apply (bool_decide_unpack _). vm_compute. exact I.
  - assert (∀ t, t ≠ 1 → t ≠ 2 → free Q2 t) as Hfree.
    { intros t H1 H2 q Hin. unfold Q2, Q1 in Hin. rewrite !elem_of_enq in Hin.
      destruct Hin as [[? _]|[[[? _]|[Hin _]] _]]; [done | done | by apply elem_of_nil in Hin]. }
    unfold NUM_TCBS. repeat (apply Forall_cons; split; [split; [apply Hfree; lia | lia]|]). apply Forall_nil. exact I.
  - exists s', s''. split; [exact E1 | exact E2].
Defined.

(** ** Thread states *)

(** The outcome of an operation that moves [t] or refuses to. *)
Definition moves_to (s : kstate) (Q : queues) (t : Z) (st : thread_state_t) (q : qref) (s' : kstate) : Prop :=
  kinv s' (enq q t Q) ∧ thread_state <$> tcb_table s' !! t = Some st ∧
  ∀ u, u ≠ t → core_tcb <$> tcb_table s' !! u = core_tcb <$> tcb_table s !! u.

Lemma moved_moves_to s Q t tc st q s' :
  tcb_table s !! t = Some tc → moved s Q t tc st q s' → moves_to s Q t st q s'.
Proof.
  intros Ht [K C]. split; [done|]. split.
  - assert (tcb_table (core s') !! t = Some ((core_tcb (detached tc)) <| thread_state := st |>)) as H.
    { rewrite C, lookup_upd, (detach_lookup_core _ _ _ Ht). done. }
    apply core_lookup_Some in H as (tc' & -> & E). simpl. f_equal.
    change (thread_state tc') with (thread_state (core_tcb tc')). by rewrite <- E.
  - intros u Hu. rewrite <- !core_lookup, C, lookup_upd_ne by done. by apply tcb_table_detach.
Qed.

(** [thread_start] makes a paused or waiting thread ready: it leaves the
    queue it was in and goes to the back of the run queue of its priority, the
    invariant between thread states and queues still holds, and no other
    thread changes.  In any other state it returns [E_DONE] or [E_FAIL] and
    changes nothing. *)
Theorem thread_start_spec s Q t tc :
  kinv s Q → 0 < t < NUM_TCBS → tcb_table s !! t = Some tc →
  match thread_state tc with
  | WAIT_FOR_RECV | WAIT_FOR_SEND | PAUSED =>
      ∃ s', thread_start t s = Ret E_OK s' ∧ moves_to s Q t READY (RunQ (priority tc)) s'
  | READY | RUNNING => thread_start t s = Ret E_DONE s
  | INACTIVE | ZOMBIE | SLEEPING => thread_start t s = Ret E_FAIL s
  end.
Proof.
  intros K Ht Htc. pose proof (wp_thread_start s Q t tc) as H.
  destruct (thread_state tc) eqn:Est; try (apply wp_run; intros Post L HP; by eapply H);
    (destruct (wp_ret_inv (thread_start t) (λ r s', r = E_OK ∧ moved s Q t tc READY (RunQ (priority tc)) s') s)
      as (r & s' & E & -> & M); [eapply H; auto | exists s'; split; [done | by eapply moved_moves_to]]).
Qed.

Lemma thread_start_spec_witness :
  ∃ s', thread_start 1 two_created = Ret E_OK s' ∧ kinv s' (enq (RunQ 2) 1 Q2) ∧
    thread_state <$> tcb_table s' !! 1 = Some READY.
Proof.
  assert (∃ tc, tcb_table two_created !! 1 = Some tc ∧ thread_state tc = PAUSED ∧ priority tc = 2)
    as (tc & H1 & H2 & H3) by lookup_block.
  pose proof (thread_start_spec two_created Q2 1 tc kinv_two_created) as H.
  rewrite H2, H3 in H. destruct H as (s' & E & K & S & _); [unfold NUM_TCBS; lia | exact H1|].
  exists s'. split; [exact E | split; [exact K | exact S]].
Defined.

(** [thread_pause] takes a waiting, ready or running thread out of its queue
    or off its processor and puts it on the paused list; the invariant still
    holds and no other thread changes. *)
Theorem thread_pause_spec s Q t tc :
  kinv s Q → 0 < t < NUM_TCBS → tcb_table s !! t = Some tc →
  match thread_state tc with
  | WAIT_FOR_RECV | WAIT_FOR_SEND | READY | RUNNING =>
      ∃ s', thread_pause t s = Ret E_OK s' ∧ moves_to s Q t PAUSED PausedQ s' ∧
        ∀ p, running s' p ≠ Some (Some t)
  | PAUSED => thread_pause t s = Ret E_DONE s
  | INACTIVE | ZOMBIE | SLEEPING => thread_pause t s = Ret E_FAIL s
  end.
Proof.
  intros K Ht Htc. pose proof (wp_thread_pause s Q t tc) as H.
  destruct (thread_state tc) eqn:Est; try (apply wp_run; intros Post L HP; by eapply H);
    (destruct (wp_ret_inv (thread_pause t) (λ r s', r = E_OK ∧ moved s Q t tc PAUSED PausedQ s') s)
      as (r & s' & E & -> & M); [eapply H; auto |];
     apply (moved_moves_to _ _ _ _ _ _ _ Htc) in M as M'; exists s'; split; [done | split; [done|]];
     intros p Hp; destruct M as [K' _]; destruct (kinv_running _ _ _ _ K' Hp) as (tc' & T1 & T2 & _);
     destruct M' as (_ & S & _); rewrite T1 in S; injection S as S; congruence).
Qed.

Lemma thread_pause_spec_witness :
  ∃ s', thread_pause 1 one_running = Ret E_OK s' ∧ kinv s' (enq PausedQ 1 Q5) ∧ running s' 0 ≠ Some (Some 1).
Proof.
  assert (∃ tc, tcb_table one_running !! 1 = Some tc ∧ thread_state tc = RUNNING ∧ priority tc = 2)
    as (tc & H1 & H2 & H3) by lookup_block.
  pose proof (thread_pause_spec one_running Q5 1 tc kinv_one_running) as H.
  rewrite H2 in H. destruct H as (s' & E & (K & _) & R); [unfold NUM_TCBS; lia | exact H1|].
  exists s'. split; [exact E | split; [exact K | apply R]].
Defined.

(** [thread_wakeup] and [thread_start] do the same to every thread, a
    sleeping one included, which both refuse. *)
Theorem thread_wakeup_is_start t s : thread_wakeup t s = thread_start t s.
Proof.
  destruct (tcb_table s !! t) as [tc|] eqn:Et.
  - assert (∀ A (k : tcb_t → M kstate A), bind (tcb_at t) k s = k tc s) as Hb
      by (intros A k; unfold bind, tcb_at, bind, gets; by rewrite Et).
    unfold thread_wakeup, thread_start. rewrite !Hb. destruct (thread_state tc) eqn:Est; try done.
    unfold bind at 1, thread_remove_from_list. by rewrite Hb, Est.
  - unfold thread_wakeup, thread_start, tcb_at, bind, gets. by rewrite Et.
Qed.

(** ** Scheduling *)

(** C10. [schedule] gives the processor to the oldest thread of the highest
    priority that has one, provided that priority is at least the one of the
    thread it is running, which then goes to the back of its own run queue;
    otherwise the running thread stays and nothing changes.  The thread it
    returns is the one the processor runs, and the invariant holds. *)
Theorem schedule_spec s Q p cur :
  kinv s Q → running s p = Some cur → 0 <= p < num_processors s →
  cur ≠ None ∨ ¬ none_ready Q MIN_PRIORITY →
  ∃ z s', schedule p s = Ret z s' ∧ running s' p = Some (Some z) ∧
    thread_state <$> tcb_table s' !! z = Some RUNNING ∧
    ((none_ready Q (threshold s cur) ∧ cur = Some z ∧ s' = s) ∨
     (chosen Q (threshold s cur) z ∧ cur ≠ Some z ∧ kinv s' (picked s Q cur z))).
Proof.
  intros K Hr Hp Hsome.
  destruct (wp_ret_inv (schedule p) (λ z s',
    none_ready Q (threshold s cur) ∧ cur = Some z ∧ s' = s ∨
    chosen Q (threshold s cur) z ∧ dispatched s Q p cur z s') s) as (z & s' & E & H).
  { eapply wp_schedule; [done | done | done | |]; [|by right].
    destruct cur as [c|]; [by left|]. by destruct Hsome. }
  exists z, s'. split; [done|]. destruct H as [(HN & -> & ->)|[Hc [K' C]]].
  - split; [done|]. destruct (kinv_running s Q p z K Hr) as (tc & Htc & Hs & _).
    split; [by rewrite Htc, <- Hs | by left].
  - assert (running s' p = Some (Some z)) as Hr'.
    { change (running s' p) with (running (core s') p). rewrite C, running_run, decide_True by done.
      assert (running (preempt cur (core s)) p = running s p) as -> by by destruct cur. by rewrite Hr. }
    split; [done|]. destruct (kinv_running s' _ p z K' Hr') as (tc & Htc & Hs & _).
    split; [by rewrite Htc, <- Hs|]. right. split; [done|]. split; [|done]. intros ->.
    destruct (kinv_running s Q p z K Hr) as (tc0 & Htc0 & Hs0 & _ & Hf).
    destruct Hc as (pr & ys & _ & HQ & _). apply (Hf (RunQ pr)). rewrite HQ.
    apply elem_of_app. right. by left.
Qed.

Lemma schedule_spec_witness :
  ∃ z s', schedule 0 two_started = Ret z s' ∧ z = 1 ∧ running s' 0 = Some (Some 1).
Proof.
  destruct Q4_ready as [E1 E2].
  destruct (schedule_spec two_started Q4 0 None) as (z & s' & E & R & S & H).
  - apply kinv_two_started.
  - vm_compute. reflexivity.
  - assert (num_processors two_started = 1) as -> by (vm_compute; reflexivity). lia.
  - right. intros H. specialize (H 2). rewrite E1 in H. discriminate H. unfold MIN_PRIORITY, MAX_PRIORITY. lia.
  - assert (z = 1) as Hz by (destruct H as [(_ & Hc & _)|[Hc _]]; [discriminate Hc | exact (Q4_chosen _ _ Hc)]).
    exists z, s'. split; [exact E | split; [exact Hz | rewrite R, Hz; reflexivity]].
Defined.

(** The kernel halts in [schedule] when a processor is idle and every run
    queue is empty. *)
Theorem schedule_idle_halts s Q p :
  kinv s Q → running s p = Some None → 0 <= p < num_processors s → none_ready Q MIN_PRIORITY →
  schedule p s = Panic.
Proof. apply schedule_panics. Qed.

Lemma schedule_idle_halts_witness : schedule 0 two_created = Panic.
Proof.
  apply (schedule_idle_halts two_created Q2 0).
  - apply kinv_two_created.
  - vm_compute. reflexivity.
  - assert (num_processors two_created = 1) as -> by (vm_compute; reflexivity). lia.
  - intros i Hi. reflexivity.
Defined.

Lemma run_kop_kinv s Q op :
  kinv s Q → valid_kop s op →
  (∃ s' Q', run_kop op s = Ret tt s' ∧ kinv s' Q') ∨
  (∃ p, op = OpSchedule p ∧ running s p = Some None ∧ none_ready Q MIN_PRIORITY).
Proof.
  intros K Hv.
  assert (∀ m : M kstate Z, wp m (λ _ s', ∃ Q', kinv s' Q') (λ _, False) s →
    ∃ s' Q', (let* _ := m in ret tt) s = Ret tt s' ∧ kinv s' Q') as Hm.
  { intros m (r & s' & E & Q' & K')%wp_ret_inv. exists s', Q'. split; [|done]. unfold bind. by rewrite E. }
  destruct op as [t|t|t|p]; simpl in Hv |- *.
  - left. apply Hm. destruct (kinv_lookup s Q t K ltac:(lia)) as [tc Htc].
    eapply wp_thread_start; [done | done | done |]. destruct (thread_state tc); eauto; intros s' [K' _]; eauto.
  - left. apply Hm. destruct (kinv_lookup s Q t K ltac:(lia)) as [tc Htc].
    eapply wp_thread_pause; [done | done | done |]. destruct (thread_state tc); eauto; intros s' [K' _]; eauto.
  - left. apply Hm. destruct (kinv_lookup s Q t K ltac:(lia)) as [tc Htc].
    eapply wp_thread_wakeup; [done | done | done |]. destruct (thread_state tc); eauto; intros s' [K' _]; eauto.
  - pose proof K as [_ I]. pose proof (ci_processors _ _ I) as Hnp.
    destruct (proj2 (ci_array _ _ I p)) as [cur Hcur].
    { change (num_processors (core s)) with (num_processors s) in Hnp. lia. }
    change (running (core s) p) with (running s p) in Hcur.
    assert (∀ z s', chosen Q (threshold s cur) z → dispatched s Q p cur z s' → ∃ Q', kinv s' Q') as Hd
      by (intros z s' _ [K' _]; eauto).
    destruct cur as [c|].
    + left. apply Hm. eapply wp_schedule; [done | done | done | | done]. intros _. eauto.
    + destruct (decide (none_ready Q MIN_PRIORITY)) as [Hn|Hn]; [right; eauto|].
      left. apply Hm. by eapply wp_schedule.
Qed.

(** Safety of the thread operations: from a state that satisfies the
    invariant, [thread_start], [thread_pause], [thread_wakeup] on any thread
    and [schedule] on any processor return, in a state that satisfies it again;
    none of them dereferences NULL, leaves an array or fails an assertion.  The
    one exception is the halt of [schedule] with nothing to run. *)
Theorem kop_safe s Q op :
  kinv s Q → valid_kop s op →
  (∃ s' Q', run_kop op s = Ret tt s' ∧ kinv s' Q') ∨
  (∃ p, op = OpSchedule p ∧ running s p = Some None ∧ none_ready Q MIN_PRIORITY ∧ run_kop op s = Panic).
Proof.
  intros K Hv. destruct (run_kop_kinv s Q op K Hv) as [H|(p & -> & Hr & Hn)]; [by left|].
  right. exists p. split; [done | split; [done | split; [done|]]]. simpl. unfold bind.
  by rewrite (schedule_panics s Q p).
Qed.

Lemma kop_safe_witness :
  (∃ s' Q', run_kop (OpPause 2) two_started = Ret tt s' ∧ kinv s' Q') ∨
  (∃ p, OpPause 2 = OpSchedule p ∧ running two_started p = Some None ∧ none_ready Q4 MIN_PRIORITY ∧
     run_kop (OpPause 2) two_started = Panic).
Proof.
  apply (kop_safe two_started Q4 (OpPause 2)); [apply kinv_two_started | unfold valid_kop, NUM_TCBS; lia].
Defined.

(** C1. The invariant holds in every state the thread operations reach. *)
Theorem reachable_kinv s Q s' : kinv s Q → reachable s s' → ∃ Q', kinv s' Q'.
Proof.
  intros K H. induction H as [|s1 s2 op H [Q1 K1] Hv E]; [eauto|].
  destruct (run_kop_kinv s1 Q1 op K1 Hv) as [(s2' & Q' & E' & K')|(p & -> & Hr & Hn)].
  - rewrite E in E'. injection E' as <-. eauto.
  - simpl in E. unfold bind in E. by rewrite (schedule_panics s1 Q1 p) in E.
Qed.

Lemma reachable_kinv_witness : reachable two_created one_started ∧ ∃ Q', kinv one_started Q'.
Proof.
  assert (reachable two_created one_started) as H.
  { apply (reachable_step two_created two_created one_started (OpStart 1)).
    - apply reachable_refl.
    - unfold valid_kop, NUM_TCBS. lia.
    - assert (∃ s', thread_start 1 two_created = Ret E_OK s') as [s' E] by (eexists; vm_compute; reflexivity).
      unfold run_kop, bind, one_started, after. rewrite E. reflexivity. }
  split; [exact H | exact (reachable_kinv two_created Q2 one_started kinv_two_created H)].
Defined.

(** ** Creation and destruction *)

(** [thread_create] takes the first unused block after the last one it
    handed out, fills it for user mode with the given entry point, stack and
    address space, and leaves it paused, at the back of the paused list; the
    invariant holds and no other thread changes. *)
Theorem thread_create_spec s Q lp entry addr_space stack t m :
  kinv s Q → initialize_root_pmap lp (space_of s addr_space) (mach s) = Ret E_OK m →
  lock_tcb_table s = false → 0 <= last_tid s < NUM_TCBS → first_free s (last_tid s) t →
  Q (SenderQ t) = [] → Q (ReceiverQ t) = [] →
  ∃ s', thread_create lp entry addr_space stack s = Ret (Some t) s' ∧
    kinv s' (enq PausedQ t Q) ∧ mach s' = m ∧ last_tid s' = t ∧
    core_tcb <$> tcb_table s' !! t = Some (new_tcb (space_of s addr_space) entry stack) ∧
    (∀ u, u ≠ t → core_tcb <$> tcb_table s' !! u = core_tcb <$> tcb_table s !! u).
Proof.
  intros K Hi Hl Hlast Hf HS HR.
  destruct (wp_ret_inv (thread_create lp entry addr_space stack) (λ o s', o = Some t ∧
    kinv s' (enq PausedQ t Q) ∧ core s' = created s t (space_of s addr_space) entry stack m) s)
    as (o & s' & E & -> & K' & C); [by eapply wp_thread_create|].
  exists s'. split; [done|]. split; [done|].
  assert (∀ u, core_tcb <$> tcb_table s' !! u =
    tcb_table (upd t (λ _, new_tcb (space_of s addr_space) entry stack) (core s)) !! u) as Hu.
  { intros u. by rewrite <- core_lookup, C. }
  split; [change (mach s') with (mach (core s')); by rewrite C|].
  split; [change (last_tid s') with (last_tid (core s')); by rewrite C|].
  destruct Hf as (_ & Hin & _). apply fmap_Some in Hin as (tc & Htc & _). split.
  - by rewrite Hu, lookup_upd, core_lookup, Htc.
  - intros u Hne. by rewrite Hu, lookup_upd_ne, core_lookup.
Qed.

Lemma thread_create_spec_witness :
  ∃ s', thread_create 0x5004 0x1000 0x5000 0x2000 boot = Ret (Some 1) s' ∧ kinv s' (enq PausedQ 1 Q0) ∧
    core_tcb <$> tcb_table s' !! 1 = Some (new_tcb 0x5000 0x1000 0x2000).
Proof.
  assert (∃ m, initialize_root_pmap 0x5004 (space_of boot 0x5000) (mach boot) = Ret E_OK m) as [m Hm]
    by (eexists; vm_compute; reflexivity).
  destruct (thread_create_spec boot Q0 0x5004 0x1000 0x5000 0x2000 1 m) as (s' & E & K & _ & _ & T & _).
  - apply kinv_boot.
  - exact Hm.
  - reflexivity.
  - change (last_tid boot) with 0. unfold NUM_TCBS. lia.
  - change (last_tid boot) with 0. split; [unfold NUM_TCBS; lia|]. split; [by rewrite boot_tcb|]. lia.
  - reflexivity.
  - reflexivity.
  - exists s'. split; [exact E | split; [exact K | exact T]].
Defined.

Lemma search_overruns fuel : ∀ s k prev,
  last_tid s = k → 0 <= prev < k → k <= NUM_TCBS → (∀ i, is_Some (tcb_table s !! i) ↔ 0 <= i < NUM_TCBS) →
  (∀ i, k <= i < NUM_TCBS → ∃ tc, tcb_table s !! i = Some tc ∧ thread_state tc ≠ INACTIVE) →
  NUM_TCBS - k < Z.of_nat fuel → thread_create_search fuel prev s = Fault OutOfBounds.
Proof.
  induction fuel as [|fuel IH]; intros s k prev Hk Hp Hmax Hd Hact Hf; [lia|].
  cbn [thread_create_search]. unfold bind at 1, gets at 1. rewrite Hk.
  replace (negb (prev =? k) || (k =? NULL_TID)) with true by (unfold NULL_TID; lia).
  destruct (decide (k = NUM_TCBS)) as [->|Hne].
  - unfold bind, tcb_at, bind, gets. destruct (tcb_table s !! NUM_TCBS) eqn:E; [|done].
    assert (0 <= NUM_TCBS < NUM_TCBS) by (apply Hd; eauto). lia.
  - destruct (Hact k ltac:(lia)) as (tc & Htc & Hs). unfold bind, tcb_at, bind, gets. rewrite Htc.
    cbn [deref ret]. rewrite decide_True by done. unfold modify.
    apply (IH _ (k + 1)); try done; try lia.
    + simpl. rewrite wrap_small; [done | unfold NUM_TCBS in *; lia].
    + intros i Hi. apply Hact. lia.
Qed.

(** [thread_create] never goes back to blocks that have become free: once
    every block after the last one handed out is in use, it reads past the end
    of the table, whether or not earlier blocks are unused. *)
Theorem thread_create_overruns s Q lp entry addr_space stack m :
  kinv s Q → initialize_root_pmap lp (space_of s addr_space) (mach s) = Ret E_OK m →
  lock_tcb_table s = false → 0 <= last_tid s < NUM_TCBS →
  (∀ i, last_tid s < i < NUM_TCBS → ∃ tc, tcb_table s !! i = Some tc ∧ thread_state tc ≠ INACTIVE) →
  thread_create lp entry addr_space stack s = Fault OutOfBounds.
Proof.
  intros [W _] Hi Hl Hlast Hact. unfold thread_create, bind, vm, zoom.
  change (get_root_page_map (mach s)) with (Ret (S := machine) (Z.land (cr3 (mach s)) CR3_BASE_MASK) (mach s)).
  cbn iota beta. change (mach (s <| mach := mach s |>)) with (mach s).
  fold (space_of s addr_space). rewrite Hi. change (is_error E_OK) with false. cbn iota beta.
  unfold gets, spinlock_acquire, bind, gets. cbn iota beta.
  change (s <| mach := mach s |> <| mach := m |>) with (s <| mach := m |>).
  change (lock_tcb_table (s <| mach := m |>)) with (lock_tcb_table s). rewrite Hl.
  change (last_tid (s <| mach := m |>)) with (last_tid s). unfold ret, modify. cbn iota beta.
  rewrite (search_overruns _ _ (last_tid s + 1)); [done | | | lia | | | unfold NUM_TCBS in *; lia].
  - simpl. rewrite wrap_small; [done | unfold NUM_TCBS in *; lia].
  - rewrite Z.mod_small; [lia | unfold MAX_THREADS, NUM_TCBS in *; lia].
  - intros i. simpl. rewrite <- (qwf_links _ _ _ W i). unfold link. by rewrite fmap_is_Some.
  - intros i Hi'. apply Hact. lia.
Qed.

Lemma thread_create_overruns_witness :
  thread_create 0x5004 0x1000 0x5000 0x2000 (boot <| last_tid := 15 |>) = Fault OutOfBounds.
Proof.
  assert (∃ m, initialize_root_pmap 0x5004 (space_of (boot <| last_tid := 15 |>) 0x5000)
    (mach (boot <| last_tid := 15 |>)) = Ret E_OK m) as [m Hm] by (eexists; vm_compute; reflexivity).
  apply (thread_create_overruns (boot <| last_tid := 15 |>) Q0 _ _ _ _ m).
  - apply (kinv_same boot); [repeat split | apply kinv_boot].
  - exact Hm.
  - reflexivity.
  - change (last_tid (boot <| last_tid := 15 |>)) with 15. unfold NUM_TCBS. lia.
  - change (last_tid (boot <| last_tid := 15 |>)) with 15. unfold NUM_TCBS. lia.
Defined.
