(* ===== verification/Fairness.v ===== *)
(** * Fairness of the scheduler: kernel/schedule.c

    Round robin within a priority: what repeated calls of [schedule] do for a
    thread that waits in the highest run queue that has threads. *)

From stdpp Require Import functions.
From S2P Require Import Prelude Kernel KList Thread ThreadFacts ThreadSpec.

(** [schedule] on one processor, again and again; the last result. *)
Fixpoint schedules (n : nat) (processor_id : Z) : M kstate Z :=
  match n with
  | O => schedule processor_id
  | S n => schedule processor_id ;; schedules n processor_id
  end.

(** Run queue [pr] is the highest that has threads, and no lower than the thread
    that runs. *)
Definition top_queue (s : kstate) (Q : queues) (cur : option Z) (pr : Z) : Prop :=
  threshold s cur <= pr <= MAX_PRIORITY ∧ ∀ i, pr < i <= MAX_PRIORITY → Q (RunQ i) = [].

Lemma chosen_top s Q cur pr ys z z' : top_queue s Q cur pr → Q (RunQ pr) = ys ++ [z] → chosen Q (threshold s cur) z' → z' = z.
Proof.
  intros [H1 H2] E (pr' & ys' & H3 & E' & H4). destruct (Z.lt_trichotomy pr pr') as [L|[<-|L]].
  - rewrite H2 in E' by lia. by destruct ys'.
  - rewrite E in E'. by apply app_inj_tail in E' as [_ ->].
  - rewrite H4 in E by lia. by destruct ys.
Qed.

Lemma filter_ne_id (z : Z) (xs : list Z) : z ∉ xs → filter (λ x, x ≠ z) xs = xs.
Proof.
  induction xs as [|x xs IH]; [done|]. rewrite not_elem_of_cons. intros [H1 H2]. rewrite filter_cons, decide_True by done. by rewrite IH.
Qed.

Lemma Qdel_last Q q ys z : NoDup (Q q) → Q q = ys ++ [z] → Qdel z Q q = ys.
Proof.
  intros N E. unfold Qdel. rewrite E in *. apply NoDup_app in N as (_ & N & _). rewrite filter_app, filter_ne_id.
  - rewrite filter_cons, decide_False by tauto. cbn. apply app_nil_r.
  - intros H. apply (N z H). by left.
Qed.

(** The run queue after the oldest of its threads was picked: the thread that ran
    may be behind the others. *)
Lemma picked_top s Q p cur pr ys z : kinv s Q → running s p = Some cur → top_queue s Q cur pr → Q (RunQ pr) = ys ++ [z] →
  (∃ xs, picked s Q cur z (RunQ pr) = xs ++ ys) ∧ ∀ i, pr < i <= MAX_PRIORITY → picked s Q cur z (RunQ i) = [].
Proof.
  intros K Hr [H1 H2] E. pose proof K as [W _]. pose proof (Qdel_last Q _ ys z (qwf_nodup _ _ _ W _) E) as D.
  assert (D' : ∀ i, pr < i <= MAX_PRIORITY → Qdel z Q (RunQ i) = []) by (intros i Hi; unfold Qdel; by rewrite H2).
  destruct cur as [c|]; cbn [picked]; [|split; [by exists []|done]].
  destruct (kinv_running s Q p c K Hr) as (tc & Htc & _ & _ & F). unfold threshold in H1. rewrite Htc in *.
  assert (Fd : ∀ q, Qdel c (Qdel z Q) q = Qdel z Q q).
  { intros q. unfold Qdel at 1. apply filter_ne_id. unfold Qdel. rewrite list_elem_of_filter. intros [_ X]. by apply (F q). }
  unfold enq. split.
  - destruct (decide (RunQ (priority tc) = RunQ pr)) as [Eq|Ne].
    + exists [c]. rewrite Eq, fn_lookup_insert. by rewrite Fd, D.
    + exists []. rewrite fn_lookup_insert_ne by done. by rewrite Fd, D.
  - intros i Hi. rewrite fn_lookup_insert_ne by (intros [=]; lia). by rewrite Fd, D'.
Qed.

(** A thread in a run queue has its priority. *)
Lemma queued_priority s Q pr z : kinv s Q → z ∈ Q (RunQ pr) → ∃ tc, tcb_table s !! z = Some tc ∧ priority tc = pr.
Proof.
  intros [W I] Hz. destruct (qwf_valid _ _ _ W _ _ Hz) as [_ Hv]. pose proof (proj2 (qwf_links _ _ _ W z) ltac:(lia)) as [l Hl].
  unfold link in Hl. destruct (tcb_table s !! z) as [tc|] eqn:E; [|done]. exists tc. split; [done|].
  assert (Ec : tcb_table (core s) !! z = Some (core_tcb tc)) by (by rewrite core_lookup, E).
  apply (ci_home _ _ I z (core_tcb tc) (RunQ pr) Ec) in Hz. rewrite home_core in Hz. unfold home in Hz.
  destruct (thread_state tc); try done; [by injection Hz| |]; by destruct (wait_tid tc =? NULL_TID).
Qed.

Lemma upd_priority t f s u tc : (∀ tc, priority (f tc) = priority tc) → tcb_table s !! u = Some tc →
  ∃ tc', tcb_table (upd t f s) !! u = Some tc' ∧ priority tc' = priority tc.
Proof.
  intros F E. unfold upd. cbn [tcb_table]. destruct (decide (u = t)) as [->|].
  - exists (f tc). split; [|apply F]. change (alter f t (tcb_table s) !! t = Some (f tc)). by rewrite lookup_alter_eq, E.
  - exists tc. split; [|done]. change (alter f t (tcb_table s) !! u = Some tc). by rewrite lookup_alter_ne.
Qed.

Lemma dispatched_facts s Q p cur z s' : kinv s Q → running s p = Some cur → dispatched s Q p cur z s' →
  running s' p = Some (Some z) ∧ num_processors s' = num_processors s ∧
  ∀ tc, tcb_table s !! z = Some tc → threshold s' (Some z) = priority tc.
Proof.
  intros K Hr [K' C]. split; [|split].
  - change (running s' p) with (running (core s') p). rewrite C, running_run, decide_True by done.
    assert (running (preempt cur (core s)) p = running s p) as -> by by destruct cur. by rewrite Hr.
  - change (num_processors s') with (num_processors (core s')). rewrite C. by destruct cur.
  - intros tc E. assert (Ec : tcb_table (core s) !! z = Some (core_tcb tc)) by (by rewrite core_lookup, E).
    assert (P : ∃ tc1, tcb_table (preempt cur (core s)) !! z = Some tc1 ∧ priority tc1 = priority tc).
    { destruct cur as [c|]; cbn [preempt]; [|by exists (core_tcb tc)]. by apply (upd_priority c _ _ z (core_tcb tc)). }
    destruct P as (tc1 & E1 & P1).
    destruct (upd_priority z (λ tc, tc <| thread_state := RUNNING |>) (preempt cur (core s)) z tc1) as (tc2 & E2 & P2); [done|done|].
    assert (E3 : tcb_table (core s') !! z = Some tc2) by (rewrite C; exact E2).
    apply core_lookup_Some in E3 as (tc3 & E3 & ->). unfold threshold. rewrite E3.
    change (priority (core_tcb tc3)) with (priority tc3) in P2. congruence.
Qed.

(** C13. Round robin: a thread in the highest run queue that has threads, no lower
    than the thread that runs, is running after as many calls of [schedule] as
    there are threads in front of it, and one more; every call returns. *)
Theorem schedule_fair p t zs : ∀ s Q cur pr xs,
  kinv s Q → running s p = Some cur → 0 <= p < num_processors s → top_queue s Q cur pr → 
  Q (RunQ pr) = xs ++ t :: zs →
  ∃ s' Q', schedules (length zs) p s = Ret t s' ∧ running s' p = Some (Some t) ∧ kinv s' Q'.
Proof.
  induction zs as [|z zs IH] using rev_ind; intros s Q cur pr xs K Hr Hp T E.
  - destruct (wp_ret_inv (schedule p) (λ z s', z = t ∧ dispatched s Q p cur t s') s) as (z & s' & Es & -> & D).
    { eapply wp_schedule; [done|done|done| |].
      - destruct cur; intros H; rewrite H in E by (destruct T; lia); by destruct xs.
      - intros z s' C D. assert (z = t) as -> by (by apply (chosen_top s Q cur pr xs t)). done. }
    exists s', (picked s Q cur t). destruct (dispatched_facts s Q p cur t s' K Hr D) as (R & _). split; [done|]. split; [done|]. apply D.
  - rewrite app_comm_cons, app_assoc in E.
    destruct (wp_ret_inv (schedule p) (λ z' s', z' = z ∧ dispatched s Q p cur z s') s) as (z' & s1 & Es & -> & D).
    { eapply wp_schedule; [done|done|done| |].
      - destruct cur; intros H; rewrite H in E by (destruct T; lia); by destruct (xs ++ t :: zs).
      - intros z' s' C D. assert (z' = z) as -> by (by apply (chosen_top s Q cur pr (xs ++ t :: zs) z)). done. }
    destruct (dispatched_facts s Q p cur z s1 K Hr D) as (R1 & N1 & Th).
    destruct (queued_priority s Q pr z K) as (tc & Htc & Pr); [rewrite E; apply elem_of_app; right; by left|].
    destruct (picked_top s Q p cur pr _ z K Hr T E) as [[ws Ew] Em].
    destruct (IH s1 (picked s Q cur z) (Some z) pr (ws ++ xs)) as (s' & Q' & E' & K'); [apply D|done|by rewrite N1| | |].
    + split; [|done]. rewrite (Th tc Htc). destruct T. lia.
    + by rewrite Ew, app_assoc.
    + exists s', Q'. split; [|done]. rewrite length_app, Nat.add_1_r. cbn [schedules]. unfold bind. by rewrite Es.
Qed.

Lemma schedule_fair_witness : ∃ s', schedules 1 0 two_started = Ret 2 s' ∧ running s' 0 = Some (Some 2).
Proof.
  destruct Q4_ready as [E1 E2].
  destruct (schedule_fair 0 2 [1] two_started Q4 None 2 []) as (s' & Q' & E & R & _).
  - apply kinv_two_started.
  - vm_compute. reflexivity.
  - assert (num_processors two_started = 1) as -> by (vm_compute; reflexivity). lia.
  - split; [unfold threshold, MIN_PRIORITY, MAX_PRIORITY; lia|]. intros i Hi. apply E2. lia.
  - exact E1.
  - exists s'. split; [exact E|exact R].
Defined.
