(* ===== verification/MessageFacts.v ===== *)
(** * Messages: what sending and receiving do

    The blocking and the delivering halves of [send_message] and
    [receive_message], described by their effect on [core] and on the contents
    of the queues. *)

From stdpp Require Import functions.
From S2P Require Import Prelude Bits Machine Paging Kernel KList Thread ThreadFacts Message.

(** The registers a thread waits with. *)
Definition wait_regs (buffer flags subject length : Z) (x : ExecutionState) : ExecutionState :=
  x <| eax := u32 E_INTERRUPT |> <| ebx := buffer |> <| ecx := flags |> <| esi := subject |> <| edi := length |>.

(** The block of a thread that waits for [r] to receive. *)
Definition sender_waiting (r buffer flags subject length : Z) (kmsg : bool) (tc : tcb_t) : tcb_t :=
  tc <| thread_state := WAIT_FOR_RECV |> <| wait_tid := r |> <| wait_for_kernel_msg := kmsg |>
     <| user_exec_state ::= wait_regs buffer flags subject length |>.

(** After a blocking call: [t] waits in [q], [z] runs with its own registers. *)
Record gave_way (s : kstate) (Q : queues) (t : Z) (q : qref) (tc' : tcb_t) (z : Z) (s' : kstate) : Prop := {
  gw_kinv : kinv s' (Qdel z (enq q t Q));
  gw_waits : core_tcb <$> tcb_table s' !! t = Some tc';
  gw_runs : running s' 0 = Some (Some z);
  gw_regs : ∃ ztc, tcb_table s !! z = Some ztc ∧ regs s' = user_exec_state ztc;
  gw_others : ∀ u, u ≠ t → u ≠ z → core_tcb <$> tcb_table s' !! u = core_tcb <$> tcb_table s !! u;
  gw_phys : phys (mach s') = phys (mach s)
}.

Lemma chosen_enq Q m z q t :
  (∀ p, q ≠ RunQ p) → free Q t → chosen (enq q t Q) m z → chosen Q m z.
Proof.
  intros Hq Hf (pr & ys & H1 & H2 & H3). exists pr, ys. unfold enq in H2, H3.
  rewrite fn_lookup_insert_ne, Qdel_free in H2 by done.
  split; [done | split; [done|]]. intros i Hi. specialize (H3 i Hi).
  by rewrite fn_lookup_insert_ne, Qdel_free in H3.
Qed.

Lemma none_ready_enq Q m q t :
  (∀ p, q ≠ RunQ p) → free Q t → none_ready (enq q t Q) m → none_ready Q m.
Proof.
  intros Hq Hf H i Hi. specialize (H i Hi). unfold enq in H.
  by rewrite fn_lookup_insert_ne, Qdel_free in H.
Qed.

Lemma chosen_member s Q m z : kinv s Q → chosen Q m z → ∃ pr, z ∈ Q (RunQ pr) ∧ 0 < z < NUM_TCBS.
Proof.
  intros [W _] (pr & ys & _ & HQ & _). exists pr.
  assert (z ∈ Q (RunQ pr)) as Hin by (rewrite HQ; apply elem_of_app; right; by left).
  split; [done|]. by apply (qwf_valid _ _ _ W) in Hin as [_ ?].
Qed.

(** The tail of a blocking call: schedule and leave. *)
Lemma wp_give_way s Q i itc (Post : Z → kstate → Prop) (L : kstate → Prop) :
  kinv s Q → running s 0 = Some None → ¬ none_ready Q MIN_PRIORITY →
  init_server_thread s = Some i → tcb_table s !! i = Some itc →
  (∀ z s', chosen Q MIN_PRIORITY z → kinv s' (Qdel z Q) → running s' 0 = Some (Some z) →
     (∃ ztc, tcb_table s !! z = Some ztc ∧ regs s' = user_exec_state ztc) →
     (∀ u, u ≠ z → core_tcb <$> tcb_table s' !! u = core_tcb <$> tcb_table s !! u) →
     phys (mach s') = phys (mach s) → L s') →
  wp (let* next := schedule processor_get_current in thread_switch_context next true) Post L s.
Proof.
  intros K Hr Hn Hi Hit HL. pose proof K as [_ I]. pose proof (ci_processors _ _ I) as Hnp.
  wp_step. eapply (wp_schedule s Q _ None); [done | done | | done |].
  { unfold processor_get_current. change (num_processors (core s)) with (num_processors s) in Hnp. lia. }
  intros z s1 Hc [K1 C1]. unfold picked, preempt, processor_get_current in *.
  assert (running s1 0 = Some (Some z)) as Hr1.
  { change (running s1 0) with (running (core s1) 0). rewrite C1, running_run, decide_True by done.
    change (running (core s) 0) with (running s 0). by rewrite Hr. }
  destruct (kinv_running s1 _ 0 z K1 Hr1) as (tc1 & Htc1 & Hs1 & Hzr & _).
  assert (∀ u, tcb_table (core s1) !! u = tcb_table (upd z (λ tc, tc <| thread_state := RUNNING |>) (core s)) !! u)
    as Hu by (intros u; by rewrite C1).
  assert (∃ itc1, tcb_table s1 !! i = Some itc1) as [itc1 Hit1].
  { assert (is_Some (core_tcb <$> tcb_table s1 !! i)) as H.
    { rewrite <- core_lookup, Hu. destruct (decide (i = z)) as [->|Hne].
      - by rewrite lookup_upd, core_lookup, Hit.
      - by rewrite lookup_upd_ne, core_lookup, Hit. }
    by rewrite fmap_is_Some in H. }
  eapply wp_thread_switch_context; [done | done | done | | done |].
  { change (init_server_thread s1) with (init_server_thread (core s1)). by rewrite C1. }
  intros s2 [Same Hregs Hm _ _] _. destruct Same as (E1 & Es).
  eapply HL; [done | apply (kinv_same s1); [by split | done] | | | |].
  - unfold running. destruct Es as (_ & _ & _ & -> & _). exact Hr1.
  - destruct (kinv_lookup s Q z K ltac:(lia)) as [ztc Hz]. exists ztc. split; [done|].
    rewrite Hregs. change (user_exec_state tc1) with (user_exec_state (core_tcb tc1)).
    pose proof (Hu z) as Hz1. rewrite lookup_upd, !core_lookup, Htc1, Hz in Hz1. apply (inj Some) in Hz1.
    rewrite Hz1. done.
  - intros u Hne. by rewrite E1, <- core_lookup, Hu, lookup_upd_ne, core_lookup.
  - rewrite Hm. simpl. change (mach s1) with (mach (core s1)). by rewrite C1.
Qed.

(** ** Waiting to send *)

(** Detaching a thread and attaching it to the queue of a recipient. *)
Lemma wp_block_sender s Q t tc r (k : M kstate Z) Post L :
  kinv s Q → 0 < t < NUM_TCBS → tcb_table s !! t = Some tc → removable (thread_state tc) → 0 < r < NUM_TCBS →
  (∀ s', kinv s' (enq (SenderQ r) t Q) →
     core s' = upd t (λ tc, tc <| thread_state := WAIT_FOR_RECV |> <| wait_tid := r |>)
       (detach t (thread_state tc) (core s)) → wp k Post L s') →
  wp (let* e := thread_remove_from_list t in
      if is_error e then ret E_FAIL else attach_sender_wait_queue t (Some r) ;; k) Post L s.
Proof.
  intros K Htr Htc Hrem Hrr HP.
  wp_step. eapply wp_thread_remove_from_list; [done | lia | done | done |]. intros s1 W1 C1.
  change (is_error E_OK) with false. cbv iota. wp_step. unfold attach_sender_wait_queue.
  wp_step. eapply wf_enq; [done | lia | simpl; lia |]. intros s2 W2 C2.
  wp_step. eapply wp_upd_tcb; [done | done | lia |]. intros s3 W3 C3.
  wp_step. apply wp_get_tid; [lia|]. eapply wp_upd_tcb; [done | done | lia |]. intros s4 W4 C4.
  assert (core s4 = upd t (λ tc, tc <| thread_state := WAIT_FOR_RECV |> <| wait_tid := r |>)
    (detach t (thread_state tc) (core s))) as C by (rewrite C4, C3, C2, C1, upd_upd; done).
  apply HP; [|done]. split; [done|]. rewrite C. destruct K as [_ I].
  change (thread_state tc) with (thread_state (core_tcb tc)).
  eapply ci_requeue; [done | lia | by rewrite core_lookup, Htc | | done |].
  - apply (detached_fields (core_tcb tc)).
  - unfold home. simpl. by replace (r =? NULL_TID) with false by (unfold NULL_TID; lia).
Qed.

(** The registers a blocked thread is left with. *)
Lemma wp_set_wait_regs s Q t buf flags subject len (kmsg : bool) (k : M kstate Z) Post L :
  kinv s Q → 0 < t < NUM_TCBS →
  (∀ s', kinv s' Q →
     core s' = upd t (λ tc, tc <| wait_for_kernel_msg := kmsg |>
       <| user_exec_state ::= wait_regs buf flags subject len |>) (core s) → wp k Post L s') →
  wp (upd_tcb t (λ tc, tc <| wait_for_kernel_msg := kmsg |>) ;;
      upd_state t (λ x, x <| eax := u32 E_INTERRUPT |>) ;;
      upd_state t (λ x, x <| ebx := buf |>) ;;
      upd_state t (λ x, x <| ecx := flags |>) ;;
      upd_state t (λ x, x <| esi := subject |>) ;;
      upd_state t (λ x, x <| edi := len |>) ;; k) Post L s.
Proof.
  intros K Ht HP.
  wp_step. eapply wp_upd_quiet; [done | done | lia |]. intros s1 K1 C1.
  wp_step. eapply wp_upd_state_quiet; [done | lia |]. intros s2 K2 C2.
  wp_step. eapply wp_upd_state_quiet; [done | lia |]. intros s3 K3 C3.
  wp_step. eapply wp_upd_state_quiet; [done | lia |]. intros s4 K4 C4.
  wp_step. eapply wp_upd_state_quiet; [done | lia |]. intros s5 K5 C5.
  wp_step. eapply wp_upd_state_quiet; [done | lia |]. intros s6 K6 C6.
  apply HP; [done|]. rewrite C6, C5, C4, C3, C2, C1, !upd_upd. done.
Qed.

Lemma wp_send_wait s Q t tc r subject flags buf len kmsg i itc (Post : Z → kstate → Prop) (L : kstate → Prop) :
  kinv s Q → running s 0 = Some (Some t) → tcb_table s !! t = Some tc → 0 < r < NUM_TCBS →
  ¬ none_ready Q MIN_PRIORITY → init_server_thread s = Some i → tcb_table s !! i = Some itc →
  (∀ z s', chosen Q MIN_PRIORITY z →
     gave_way s Q t (SenderQ r) (sender_waiting r buf flags subject len kmsg (core_tcb tc)) z s' → L s') →
  wp (send_wait t (Some r) subject flags buf len kmsg) Post L s.
Proof.
  intros K Hr Htc Hrr Hn Hi Hit HL. destruct (kinv_running s Q 0 t K Hr) as (tc' & Htc' & Hs & Htr & Hf).
  rewrite Htc in Htc'. injection Htc' as <-.
  unfold send_wait. eapply wp_block_sender; [done | done | done | by rewrite Hs | done |]. intros s1 K1 C1.
  rewrite Hs in C1. simpl detach in C1.
  eapply wp_set_wait_regs; [done | done |]. intros s2 K2 C2. rewrite C1, upd_upd in C2.
  assert (∀ u, u ≠ t → core_tcb <$> tcb_table s2 !! u = core_tcb <$> tcb_table s !! u) as Hother.
  { intros u Hu. rewrite <- core_lookup, C2, lookup_upd_ne by done.
    change (tcb_table (unrun t (core s))) with (tcb_table (core s)). apply core_lookup. }
  assert (core_tcb <$> tcb_table s2 !! t = Some (sender_waiting r buf flags subject len kmsg (core_tcb tc))) as Ht.
  { rewrite <- core_lookup, C2, lookup_upd. change (tcb_table (unrun t (core s))) with (tcb_table (core s)).
    by rewrite core_lookup, Htc. }
  assert (∃ itc2, tcb_table s2 !! i = Some itc2) as [itc2 Hit2].
  { apply (fmap_is_Some core_tcb). destruct (decide (i = t)) as [->|Hne]; [by rewrite Ht|].
    by rewrite Hother, Hit. }
  eapply wp_give_way; [done | | | | done |].
  { change (running s2 0) with (running (core s2) 0). rewrite C2.
    change (running (detach t RUNNING (core s)) 0 = Some None). rewrite running_detach by by left.
    change (running (core s) 0) with (running s 0). rewrite Hr. simpl. by rewrite decide_True. }
  { intros H. apply Hn. by apply (none_ready_enq Q _ (SenderQ r) t). }
  { change (init_server_thread s2) with (init_server_thread (core s2)). by rewrite C2. }
  intros z s' Hc Kz Hrz (ztc & Hz & Hregs) Ho Hph. apply chosen_enq in Hc; [|done..].
  destruct (chosen_member _ _ _ _ K Hc) as (pr & Hzin & _).
  assert (z ≠ t) as Hzt by (intros ->; by apply (Hf (RunQ pr))).
  eapply HL; [done|]. split; [done | | done | | |].
  - by rewrite Ho.
  - pose proof (Hother z Hzt) as E. rewrite Hz in E. destruct (tcb_table s !! z) as [z0|]; [|done].
    exists z0. split; [done|]. rewrite Hregs. apply (inj Some) in E.
    change (user_exec_state ztc) with (user_exec_state (core_tcb ztc)). by rewrite E.
  - intros u Hu1 Hu2. by rewrite Ho, Hother.
  - rewrite Hph. change (mach s2) with (mach (core s2)). by rewrite C2.
Qed.

(** ** Delivery to a waiting recipient *)

(** The registers the recipient gets: see the comment of [send_message]. *)
Definition recv_regs (code from flags subject n : Z) (x : ExecutionState) : ExecutionState :=
  x <| eax := u32 code |> <| ebx := Z.lor from (u32 (Z.shiftl flags 16)) |> <| esi := subject |> <| edi := n |>.

(** The block of a recipient that has received. *)
Definition received (code from flags subject n : Z) (tc : tcb_t) : tcb_t :=
  tc <| wait_tid := NULL_TID |> <| thread_state := READY |>
     <| user_exec_state ::= recv_regs code from flags subject n |> <| wait_for_kernel_msg := false |>.

Definition sent_regs (r n : Z) (x : ExecutionState) : ExecutionState := x <| ebx := r |> <| esi := n |>.

(** A message of [n] bytes has gone from [t] to [r], which is ready again. *)
Record delivered (s : kstate) (Q : queues) (t r : Z) (rtc' : tcb_t) (n : Z) (m : machine) (s' : kstate) : Prop := {
  dl_kinv : ∃ p, home rtc' = Some (RunQ p) ∧ kinv s' (enq (RunQ p) r Q);
  dl_recipient : core_tcb <$> tcb_table s' !! r = Some rtc';
  dl_sender : core_tcb <$> tcb_table s' !! t =
    (λ tc, (core_tcb tc) <| user_exec_state ::= sent_regs r n |>) <$> tcb_table s !! t;
  dl_others : ∀ u, u ≠ t → u ≠ r → core_tcb <$> tcb_table s' !! u = core_tcb <$> tcb_table s !! u;
  dl_mach : mach s' = m
}.

(** The assignments to the recipient and to the sender. *)
Lemma wp_set_recv_regs s Q t r a b c d e f (k : M kstate Z) Post L :
  kinv s Q → 0 <= t < NUM_TCBS → 0 <= r < NUM_TCBS →
  (∀ s', kinv s' Q →
     core s' = upd t (λ tc, tc <| user_exec_state ::= λ x, x <| ebx := e |> <| esi := f |> |>)
       (upd r (λ tc, tc <| user_exec_state ::= λ x, x <| eax := a |> <| ebx := b |> <| esi := c |> <| edi := d |> |>
          <| wait_for_kernel_msg := false |>) (core s)) → wp k Post L s') →
  wp (upd_state r (λ x, x <| eax := a |>) ;;
      upd_state r (λ x, x <| ebx := b |>) ;;
      upd_state r (λ x, x <| esi := c |>) ;;
      upd_state r (λ x, x <| edi := d |>) ;;
      upd_tcb r (λ tc, tc <| wait_for_kernel_msg := false |>) ;;
      upd_state t (λ x, x <| ebx := e |>) ;;
      upd_state t (λ x, x <| esi := f |>) ;; k) Post L s.
Proof.
  intros K Ht Hr HP.
  wp_step. eapply wp_upd_state_quiet; [done | lia |]. intros s3 K3 C3.
  wp_step. eapply wp_upd_state_quiet; [done | lia |]. intros s4 K4 C4.
  wp_step. eapply wp_upd_state_quiet; [done | lia |]. intros s5 K5 C5.
  wp_step. eapply wp_upd_state_quiet; [done | lia |]. intros s6 K6 C6.
  wp_step. eapply wp_upd_quiet; [done | done | lia |]. intros s7 K7 C7.
  wp_step. eapply wp_upd_state_quiet; [done | lia |]. intros s8 K8 C8.
  wp_step. eapply wp_upd_state_quiet; [done | lia |]. intros s9 K9 C9.
  apply HP; [done|]. rewrite C9, C8, C7, C6, C5, C4, C3, !upd_upd. done.
Qed.

Lemma wp_send_deliver s Q t r rtc from_tid subject flags buf len (kmsg : bool) m
    (Post : Z → kstate → Prop) L :
  kinv s Q → 0 <= t < NUM_TCBS → 0 < r < NUM_TCBS → t ≠ r → tcb_table s !! r = Some rtc →
  thread_state rtc = WAIT_FOR_SEND → wait_for_kernel_msg rtc = false ∨ wait_tid rtc = NULL_TID →
  let n := Z.min (edi (user_exec_state rtc)) len in
  poke_virt (ebx (user_exec_state rtc)) n buf (root_pmap rtc) (mach s) = Ret E_OK m →
  (∀ s', delivered s Q t r
     (received (if kmsg && negb (wait_for_kernel_msg rtc) then E_PREEMPT else E_OK)
        (if kmsg then KERNEL_TID else from_tid) flags subject n (core_tcb rtc)) n m s' → Post E_OK s') →
  wp (send_deliver t r from_tid r subject flags buf len kmsg) Post L s.
Proof.
  intros K Ht Hr Hne Hrtc Hs Hassert n Hpoke HP. unfold send_deliver.
  wp_step. eapply wp_tcb_at; [done|]. cbv beta. wp_step. apply wp_kassert.
  { destruct Hassert as [-> | ->]; [done | apply orb_true_r]. }
  fold n. wp_step. unfold vm. apply wp_zoom. eapply wp_of_ret; [exact Hpoke|].
  change (is_error E_OK) with false. cbv beta iota. set (s1 := s <| mach := m |>).
  assert (kinv s1 Q) as K1 by (apply (kinv_same s); [repeat split | done]).
  wp_step. eapply (wp_thread_start s1 Q r rtc); [done | done | done |]. rewrite Hs.
  intros s2 [K2 C2]. change (is_error E_OK) with false. cbv iota. rewrite Hs in C2.
  change (core s1) with ((core s) <| mach := m |>) in C2.
  assert (tcb_table (core s2) !! r = Some ((core_tcb rtc) <| wait_tid := NULL_TID |> <| thread_state := READY |>)) as Hr2.
  { rewrite C2. simpl detach. rewrite lookup_upd, lookup_upd.
    change (tcb_table ((core s) <| mach := m |>)) with (tcb_table (core s)). by rewrite core_lookup, Hrtc. }
  wp_step. eapply wp_tcb_at_core; [exact Hr2|]. intros rtc2 _ Hcore2.
  assert (wait_for_kernel_msg rtc2 = wait_for_kernel_msg rtc) as Hw.
  { change (wait_for_kernel_msg rtc2) with (wait_for_kernel_msg (core_tcb rtc2)). by rewrite Hcore2. }
  rewrite Hw. set (code := if kmsg && negb (wait_for_kernel_msg rtc) then E_PREEMPT else E_OK).
  eapply wp_set_recv_regs; [done | lia | lia |]. intros s9 K9 C9. apply wp_ret. apply HP.
  set (f := λ tc : tcb_t, tc <| user_exec_state ::= _ |> <| wait_for_kernel_msg := false |>) in C9.
  assert (∀ u, u ≠ t → core_tcb <$> tcb_table s9 !! u = tcb_table (upd r f (core s2)) !! u) as H9.
  { intros u Hu. by rewrite <- core_lookup, C9, lookup_upd_ne. }
  assert (∀ u, u ≠ r → tcb_table (upd r f (core s2)) !! u = core_tcb <$> tcb_table s !! u) as H7.
  { intros u Hu. rewrite lookup_upd_ne, C2 by done. simpl detach. rewrite !lookup_upd_ne by done.
    change (tcb_table ((core s) <| mach := m |>)) with (tcb_table (core s)). apply core_lookup. }
  split.
  - exists (priority rtc). split; [done | exact K9].
  - rewrite H9, lookup_upd, Hr2 by done. reflexivity.
  - rewrite <- core_lookup, C9, lookup_upd, H7 by done. by destruct (tcb_table s !! t).
  - intros u Hu1 Hu2. by rewrite H9, H7.
  - change (mach s9) with (mach (core s9)). rewrite C9. change (mach (core s2) = m). by rewrite C2.
Qed.

(** ** Waiting to receive *)

Lemma wp_block_receiver s Q x tc r (k : M kstate Z) Post L :
  kinv s Q → 0 < x < NUM_TCBS → tcb_table s !! x = Some tc → removable (thread_state tc) → 0 < r < NUM_TCBS →
  (∀ s', kinv s' (enq (ReceiverQ r) x Q) →
     core s' = upd x (λ tc, tc <| thread_state := WAIT_FOR_SEND |> <| wait_tid := r |>)
       (detach x (thread_state tc) (core s)) → wp k Post L s') →
  wp (let* e := thread_remove_from_list x in
      if is_error e then ret E_FAIL else attach_receiver_wait_queue x (Some r) ;; k) Post L s.
Proof.
  intros K Hx Htc Hrem Hr HP.
  wp_step. eapply wp_thread_remove_from_list; [done | lia | done | done |]. intros s1 W1 C1.
  change (is_error E_OK) with false. cbv iota. wp_step. unfold attach_receiver_wait_queue.
  wp_step. eapply wf_enq; [done | lia | simpl; lia |]. intros s2 W2 C2.
  wp_step. eapply wp_upd_tcb; [done | done | lia |]. intros s3 W3 C3.
  wp_step. apply wp_get_tid; [lia|]. eapply wp_upd_tcb; [done | done | lia |]. intros s4 W4 C4.
  assert (core s4 = upd x (λ tc, tc <| thread_state := WAIT_FOR_SEND |> <| wait_tid := r |>)
    (detach x (thread_state tc) (core s))) as C by (rewrite C4, C3, C2, C1, upd_upd; done).
  apply HP; [|done]. split; [done|]. rewrite C. destruct K as [_ I].
  change (thread_state tc) with (thread_state (core_tcb tc)).
  eapply ci_requeue; [done | lia | by rewrite core_lookup, Htc | | done |].
  - apply (detached_fields (core_tcb tc)).
  - unfold home. simpl. by replace (r =? NULL_TID) with false by (unfold NULL_TID; lia).
Qed.

(** ** Taking the message of a waiting sender *)

(** The assignments at the end of a receive. *)
Lemma wp_set_accept_regs s Q t x from stc (n : Z) (k : M kstate Z) Post L :
  kinv s Q → 0 <= t < NUM_TCBS → 0 <= x < NUM_TCBS → t ≠ x → tcb_table s !! x = Some stc →
  (∀ s', kinv s' Q →
     core s' = upd x (λ tc, tc <| wait_for_kernel_msg := false |>
         <| user_exec_state ::= λ y, y <| eax := E_OK |> <| esi := n |> |>)
       (upd t (λ tc, tc <| user_exec_state ::= λ y, y <| ebx := from |>
          <| esi := esi (user_exec_state stc) |> <| edi := n |> |>) (core s)) → wp k Post L s') →
  wp (upd_state t (λ y, y <| ebx := from |>) ;;
      let* stc := tcb_at x in
      upd_state t (λ y, y <| esi := esi (user_exec_state stc) |>) ;;
      upd_state t (λ y, y <| edi := n |>) ;;
      upd_tcb x (λ tc, tc <| wait_for_kernel_msg := false |>) ;;
      upd_state x (λ y, y <| eax := E_OK |>) ;;
      upd_state x (λ y, y <| esi := n |>) ;; k) Post L s.
Proof.
  intros K Ht Hx Hne Hstc HP.
  wp_step. eapply wp_upd_state_quiet; [done | lia |]. intros s1 K1 C1.
  wp_step. eapply (wp_tcb_at_core _ _ (core_tcb stc)).
  { by rewrite C1, lookup_upd_ne, core_lookup, Hstc. }
  intros stc1 _ E. assert (esi (user_exec_state stc1) = esi (user_exec_state stc)) as ->.
  { change (user_exec_state stc1) with (user_exec_state (core_tcb stc1)). by rewrite E. }
  wp_step. eapply wp_upd_state_quiet; [done | lia |]. intros s2 K2 C2.
  wp_step. eapply wp_upd_state_quiet; [done | lia |]. intros s3 K3 C3.
  wp_step. eapply wp_upd_quiet; [done | done | lia |]. intros s4 K4 C4.
  wp_step. eapply wp_upd_state_quiet; [done | lia |]. intros s5 K5 C5.
  wp_step. eapply wp_upd_state_quiet; [done | lia |]. intros s6 K6 C6.
  apply HP; [done|]. rewrite C6, C5, C4, C3, C2, C1, !upd_upd. done.
Qed.

(** The block of a sender whose message was taken. *)
Definition accepted (n : Z) (tc : tcb_t) : tcb_t :=
  tc <| wait_tid := NULL_TID |> <| thread_state := READY |> <| wait_for_kernel_msg := false |>
     <| user_exec_state ::= λ y, y <| eax := E_OK |> <| esi := n |> |>.

Definition accept_regs (from flags subject n : Z) (y : ExecutionState) : ExecutionState :=
  y <| ebx := Z.lor from (u32 (Z.shiftl flags 16)) |> <| esi := subject |> <| edi := n |>.

(** The message of [x] has been taken by [t], and [x] is ready again. *)
Record taken (s : kstate) (Q : queues) (t x : Z) (stc : tcb_t) (n : Z) (m : machine) (s' : kstate) : Prop := {
  tk_kinv : kinv s' (enq (RunQ (priority stc)) x Q);
  tk_sender : core_tcb <$> tcb_table s' !! x = Some (accepted n (core_tcb stc));
  tk_recipient : core_tcb <$> tcb_table s' !! t =
    (λ tc, (core_tcb tc) <| user_exec_state ::=
       accept_regs (if wait_for_kernel_msg stc then KERNEL_TID else x) (ecx (user_exec_state stc))
         (esi (user_exec_state stc)) n |>) <$> tcb_table s !! t;
  tk_others : ∀ u, u ≠ t → u ≠ x → core_tcb <$> tcb_table s' !! u = core_tcb <$> tcb_table s !! u;
  tk_mach : mach s' = m
}.

Lemma wp_receive_accept s Q t x stc buf len (kmsg : bool) m (Post : Z → kstate → Prop) L :
  kinv s Q → 0 <= t < NUM_TCBS → 0 < x < NUM_TCBS → t ≠ x → tcb_table s !! x = Some stc →
  thread_state stc = WAIT_FOR_RECV →
  let n := Z.min (edi (user_exec_state stc)) len in
  peek_virt (ebx (user_exec_state stc)) n buf (root_pmap stc) (mach s) = Ret E_OK m →
  (∀ s', taken s Q t x stc n m s' →
     Post (if kmsg && negb (wait_for_kernel_msg stc) then E_PREEMPT else E_OK) s') →
  wp (receive_accept t x x buf len kmsg) Post L s.
Proof.
  intros K Ht Hx Hne Hstc Hs n Hpeek HP. unfold receive_accept.
  wp_step. eapply wp_tcb_at; [done|]. cbv beta zeta. fold n.
  wp_step. unfold vm. apply wp_zoom. eapply wp_of_ret; [exact Hpeek|].
  change (is_error E_OK) with false. cbv beta iota. set (s1 := s <| mach := m |>).
  assert (kinv s1 Q) as K1 by (apply (kinv_same s); [repeat split | done]).
  wp_step. eapply (wp_thread_start s1 Q x stc); [done | done | done |]. rewrite Hs.
  intros s2 [K2 C2]. change (is_error E_OK) with false. cbv iota. rewrite Hs in C2.
  change (core s1) with ((core s) <| mach := m |>) in C2.
  assert (tcb_table (core s2) !! x = Some ((core_tcb stc) <| wait_tid := NULL_TID |> <| thread_state := READY |>)) as Hx2.
  { rewrite C2. simpl detach. rewrite lookup_upd, lookup_upd.
    change (tcb_table ((core s) <| mach := m |>)) with (tcb_table (core s)). by rewrite core_lookup, Hstc. }
  wp_step. eapply wp_tcb_at_core; [exact Hx2|]. intros stc2 Hstc2 Hcore2. cbv zeta.
  assert (wait_for_kernel_msg stc2 = wait_for_kernel_msg stc ∧ user_exec_state stc2 = user_exec_state stc) as [Hw He].
  { change (wait_for_kernel_msg stc2) with (wait_for_kernel_msg (core_tcb stc2)).
    change (user_exec_state stc2) with (user_exec_state (core_tcb stc2)). by rewrite Hcore2. }
  rewrite Hw, He. eapply wp_set_accept_regs; [done | done | lia | done | done |].
  intros s9 K9 C9. rewrite He in C9. apply wp_ret. apply HP.
  set (f := λ tc : tcb_t, tc <| user_exec_state ::= _ |>) in C9.
  set (g := λ tc : tcb_t, tc <| wait_for_kernel_msg := false |> <| user_exec_state ::= _ |>) in C9.
  assert (∀ u, u ≠ x → core_tcb <$> tcb_table s9 !! u = tcb_table (upd t f (core s2)) !! u) as H9.
  { intros u Hu. by rewrite <- core_lookup, C9, lookup_upd_ne. }
  assert (∀ u, u ≠ x → tcb_table (core s2) !! u = core_tcb <$> tcb_table s !! u) as H2.
  { intros u Hu. rewrite C2. simpl detach. rewrite !lookup_upd_ne by done.
    change (tcb_table ((core s) <| mach := m |>)) with (tcb_table (core s)). apply core_lookup. }
  split; [exact K9 | | | |].
  - rewrite <- core_lookup, C9, lookup_upd, lookup_upd_ne, Hx2 by done. done.
  - rewrite H9, lookup_upd, H2 by done. by destruct (tcb_table s !! t).
  - intros u Hu1 Hu2. by rewrite H9, lookup_upd_ne, H2.
  - change (mach s9) with (mach (core s9)). rewrite C9. change (mach (core s2) = m). by rewrite C2.
Qed.

(** ** Waiting to receive *)

(** Schedule and leave while [t] still runs: [t] keeps the processor or goes
    back to its run queue. *)
Lemma wp_yield s Q t tc i itc (Post : Z → kstate → Prop) (L : kstate → Prop) :
  kinv s Q → running s 0 = Some (Some t) → tcb_table s !! t = Some tc →
  init_server_thread s = Some i → tcb_table s !! i = Some itc →
  (∀ s', kinv s' Q → running s' 0 = Some (Some t) → L s') →
  (∀ z s', chosen Q (priority tc) z → kinv s' (enq (RunQ (priority tc)) t (Qdel z Q)) →
     running s' 0 = Some (Some z) → L s') →
  wp (let* next := schedule processor_get_current in thread_switch_context next true) Post L s.
Proof.
  intros K Hr Ht Hi Hit HN HS. pose proof K as [_ I]. pose proof (ci_processors _ _ I) as Hnp.
  change (num_processors (core s)) with (num_processors s) in Hnp.
  assert (∀ s1 z Q1, kinv s1 Q1 → running s1 0 = Some (Some z) → init_server_thread s1 = Some i →
    is_Some (tcb_table s1 !! i) → (∀ s', kinv s' Q1 → running s' 0 = Some (Some z) → L s') →
    wp (thread_switch_context z true) Post L s1) as Hsw.
  { intros s1 z Q1 K1 Hr1 Hi1 [itc1 Hit1] HL. destruct (kinv_running s1 _ 0 z K1 Hr1) as (tc1 & Htc1 & Hs1 & _).
    eapply wp_thread_switch_context; [done | done | done | done | done |].
    intros s2 [Same _ _ _ _] _. apply HL; [by apply (kinv_same s1)|].
    unfold running. destruct Same as (_ & _ & _ & _ & -> & _). exact Hr1. }
  wp_step. unfold processor_get_current. eapply (wp_schedule s Q _ (Some t)); [done | done | lia | |].
  - intros _. eapply Hsw; [done | done | done | by eauto | done].
  - intros z s1 Hc [K1 C1]. unfold threshold, picked, preempt in *. rewrite Ht in Hc, K1.
    assert (running s1 0 = Some (Some z)) as Hr1.
    { change (running s1 0) with (running (core s1) 0). rewrite C1, running_run, decide_True by done.
      change (running (upd t _ (core s)) 0) with (running s 0). by rewrite Hr. }
    eapply Hsw; [done | done | | |].
    + change (init_server_thread s1) with (init_server_thread (core s1)). by rewrite C1.
    + assert (is_Some (core_tcb <$> tcb_table s1 !! i)) as H; [|by rewrite fmap_is_Some in H].
      rewrite <- core_lookup, C1. unfold run. cbn [tcb_table]. apply lookup_alter_is_Some.
      apply lookup_alter_is_Some. change (is_Some (tcb_table (core s) !! i)). by rewrite core_lookup, Hit.
    + intros s' K' R'. by eapply HS.
Qed.

Definition receive_regs (flags buf len : Z) (x : ExecutionState) : ExecutionState :=
  x <| eax := u32 E_INTERRUPT |> <| ebx := buf |> <| ecx := flags |> <| edi := len |>.

Lemma wp_set_receive_regs s Q t buf flags len (kmsg : bool) (k : M kstate Z) Post L :
  kinv s Q → 0 < t < NUM_TCBS →
  (∀ s', kinv s' Q →
     core s' = upd t (λ tc, tc <| wait_for_kernel_msg := kmsg |>
       <| user_exec_state ::= receive_regs flags buf len |>) (core s) → wp k Post L s') →
  wp (upd_tcb t (λ tc, tc <| wait_for_kernel_msg := kmsg |>) ;;
      upd_state t (λ x, x <| eax := u32 E_INTERRUPT |>) ;;
      upd_state t (λ x, x <| ebx := buf |>) ;;
      upd_state t (λ x, x <| ecx := flags |>) ;;
      upd_state t (λ x, x <| edi := len |>) ;; k) Post L s.
Proof.
  intros K Ht HP.
  wp_step. eapply wp_upd_quiet; [done | done | lia |]. intros s1 K1 C1.
  wp_step. eapply wp_upd_state_quiet; [done | lia |]. intros s2 K2 C2.
  wp_step. eapply wp_upd_state_quiet; [done | lia |]. intros s3 K3 C3.
  wp_step. eapply wp_upd_state_quiet; [done | lia |]. intros s4 K4 C4.
  wp_step. eapply wp_upd_state_quiet; [done | lia |]. intros s5 K5 C5.
  apply HP; [done|]. rewrite C5, C4, C3, C2, C1, !upd_upd. done.
Qed.

Lemma elem_of_enq_home q t Q : t ∈ enq q t Q q.
Proof. apply elem_of_enq. by left. Qed.
