(* ===== verification/MessageSpec.v ===== *)
(** * Messages: the properties of kernel/message.c

    Delivery, blocking and refusal in [send_message] and [receive_message], and
    the paths on which the two do not do what their comments say. *)

From stdpp Require Import functions.
From S2P Require Import Prelude Bits Machine Paging PagingFacts PagingSpec.
From S2P Require Import Kernel KList Thread ThreadFacts ThreadSpec Message MessageFacts.

(** [send_message] can hand a message of [t] to the thread with block [rtc]. *)
Definition accepts (t : Z) (flags : Z) (rtc : tcb_t) : Prop :=
  thread_state rtc = WAIT_FOR_SEND ∧
  (IS_FLAG_SET flags MSG_KERNEL = true ∨ wait_tid rtc = ANY_SENDER ∧ wait_for_kernel_msg rtc = false ∨ wait_tid rtc = t).

(** Arguments [send_message] and [receive_message] do not reject. *)
Definition buffer_ok (buffer length : Z) : Prop := length <= 0 ∨ buffer ≠ 0.

(** Thread 2 waits for a message of thread 1, with three bytes of room at
    0x5100. *)
Definition wait_for_1 : M kstate Z :=
  let* e := thread_remove_from_list 2 in
  if is_error e then ret E_FAIL
  else
    attach_receiver_wait_queue 2 (Some 1) ;;
    upd_state 2 (λ x, x <| ebx := 0x5100 |>) ;;
    upd_state 2 (λ x, x <| edi := 3 |>) ;;
    ret E_OK.

Definition two_waiting : kstate := after wait_for_1 one_running.
Definition Q6 : qref → list Z := enq (ReceiverQ 1) 2 Q5.

(** Thread 2 waits for thread 1 to take eight bytes at 0x5000. *)
Definition wait_to_1 : M kstate Z :=
  let* e := thread_remove_from_list 2 in
  if is_error e then ret E_FAIL
  else
    attach_sender_wait_queue 2 (Some 1) ;;
    upd_state 2 (λ x, x <| ebx := 0x5000 |>) ;;
    upd_state 2 (λ x, x <| edi := 8 |>) ;;
    ret E_OK.

Definition two_sending : kstate := after wait_to_1 one_running.
Definition Q7 : qref → list Z := enq (SenderQ 1) 2 Q5.

Lemma buffer_check b l : buffer_ok b l → (0 <? l) && (b =? 0) = false.
Proof. unfold buffer_ok. lia. Qed.

(** Running [send_message] up to the choice between its branches, for a named
    recipient. *)
Lemma send_message_run s Q t r rtc subject flags buf len (Post : Z → kstate → Prop) L :
  kinv s Q → 0 < t < NUM_TCBS → 0 < r < NUM_TCBS → t ≠ r → buffer_ok buf len → tcb_table s !! r = Some rtc →
  thread_state rtc ≠ INACTIVE → thread_state rtc ≠ ZOMBIE →
  wp (if bool_decide (thread_state rtc = WAIT_FOR_SEND) &&
         (IS_FLAG_SET flags MSG_KERNEL || ((wait_tid rtc =? ANY_SENDER) && negb (wait_for_kernel_msg rtc)) ||
          (wait_tid rtc =? t))
      then send_deliver t r t r subject flags buf len (IS_FLAG_SET flags MSG_KERNEL)
      else if IS_FLAG_SET flags MSG_NOBLOCK then ret E_BLOCK
      else send_wait t (Some r) subject flags buf len (IS_FLAG_SET flags MSG_KERNEL)) Post L s →
  wp (send_message t r subject flags buf len) Post L s.
Proof.
  intros K Ht Hr Hne Hb Hrtc Hs1 Hs2 HP. unfold send_message.
  wp_step. apply wp_get_tid; [lia|]. replace (t =? r) with false by lia. rewrite buffer_check by done.
  destruct K as [W _]. destruct (proj2 (qwf_lists _ _ _ W (ReceiverQ t))) as [l Hl]; [simpl; lia|].
  wp_step. eapply wp_read_list; [apply repr_refl | done |].
  replace (r =? ANY_RECIPIENT) with false by (unfold ANY_RECIPIENT, NULL_TID; lia).
  rewrite get_tcb_some by lia. simpl andb. wp_step. apply wp_ret. cbv beta iota.
  wp_step. wp_step. eapply wp_tcb_at; [done|]. apply wp_ret. cbv beta iota.
  rewrite decide_False by (intros []; done). exact HP.
Qed.

Lemma kinv_two_waiting : kinv two_waiting Q6.
Proof.
  run_state. assert (∃ tc, tcb_table one_running !! 2 = Some tc ∧ thread_state tc = READY ∧ priority tc = 2)
    as (tc & H1 & H2 & H3) by lookup_block.
  assert (removable (thread_state tc)) as Hrem by (rewrite H2; split; discriminate).
  unfold wait_for_1. apply (wp_block_receiver one_running Q5 2 tc 1);
    [apply kinv_one_running | unfold NUM_TCBS; lia | exact H1 | exact Hrem | unfold NUM_TCBS; lia |].
  intros s1 K1 _. wp_step. eapply wp_upd_state_quiet; [done | unfold NUM_TCBS; lia |]. intros s2 K2 _.
  wp_step. eapply wp_upd_state_quiet; [done | unfold NUM_TCBS; lia |]. intros s3 K3 _. exact K3.
Qed.

Lemma kinv_two_sending : kinv two_sending Q7.
Proof.
  run_state. assert (∃ tc, tcb_table one_running !! 2 = Some tc ∧ thread_state tc = READY ∧ priority tc = 2)
    as (tc & H1 & H2 & H3) by lookup_block.
  assert (removable (thread_state tc)) as Hrem by (rewrite H2; split; discriminate).
  unfold wait_to_1. apply (wp_block_sender one_running Q5 2 tc 1);
    [apply kinv_one_running | unfold NUM_TCBS; lia | exact H1 | exact Hrem | unfold NUM_TCBS; lia |].
  intros s1 K1 _. wp_step. eapply wp_upd_state_quiet; [done | unfold NUM_TCBS; lia |]. intros s2 K2 _.
  wp_step. eapply wp_upd_state_quiet; [done | unfold NUM_TCBS; lia |]. intros s3 K3 _. exact K3.
Qed.

Lemma accepts_cond t flags rtc :
  accepts t flags rtc →
  bool_decide (thread_state rtc = WAIT_FOR_SEND) &&
    (IS_FLAG_SET flags MSG_KERNEL || ((wait_tid rtc =? ANY_SENDER) && negb (wait_for_kernel_msg rtc)) ||
     (wait_tid rtc =? t)) = true.
Proof.
  intros [H1 H2]. rewrite bool_decide_eq_true_2 by done. simpl.
  destruct H2 as [-> | [[-> ->] | ->]]; [done | | by rewrite Z.eqb_refl, orb_true_r].
  rewrite Z.eqb_refl. simpl. by rewrite orb_true_r.
Qed.

(** C4. Delivery: when the recipient waits for this sender, or for anyone and
    not only for the kernel, or the message is a kernel message,
    [send_message] copies as many bytes as both buffers allow, makes the
    recipient ready with the return code, origin, subject and size in its
    registers, and returns [E_OK] with the size in the sender's; the queue
    invariant holds and no other thread changes. *)
Theorem send_message_delivers s Q t r rtc subject flags buf len m :
  kinv s Q → 0 < t < NUM_TCBS → 0 < r < NUM_TCBS → t ≠ r → buffer_ok buf len →
  tcb_table s !! r = Some rtc → accepts t flags rtc →
  wait_for_kernel_msg rtc = false ∨ wait_tid rtc = NULL_TID →
  let n := Z.min (edi (user_exec_state rtc)) len in
  let kmsg := IS_FLAG_SET flags MSG_KERNEL in
  poke_virt (ebx (user_exec_state rtc)) n buf (root_pmap rtc) (mach s) = Ret E_OK m →
  ∃ s', send_message t r subject flags buf len s = Ret E_OK s' ∧
    delivered s Q t r
      (received (if kmsg && negb (wait_for_kernel_msg rtc) then E_PREEMPT else E_OK)
         (if kmsg then KERNEL_TID else t) flags subject n (core_tcb rtc)) n m s'.
Proof.
  intros K Ht Hr Hne Hb Hrtc Hacc Hw n kmsg Hpoke.
  destruct (wp_ret_inv (send_message t r subject flags buf len) (λ e s', e = E_OK ∧ delivered s Q t r
      (received (if kmsg && negb (wait_for_kernel_msg rtc) then E_PREEMPT else E_OK)
         (if kmsg then KERNEL_TID else t) flags subject n (core_tcb rtc)) n m s') s)
    as (e & s' & E & -> & D); [|eauto].
  pose proof (proj1 Hacc) as Hs.
  eapply send_message_run; [done | done | done | done | done | done | by rewrite Hs | by rewrite Hs |].
  rewrite accepts_cond by done.
  eapply wp_send_deliver; [done | lia | done | done | done | done | done | exact Hpoke |]. auto.
Qed.

Lemma send_message_delivers_witness :
  ∃ s', send_message 1 2 77 0 0x5000 8 two_waiting = Ret E_OK s' ∧
    kinv s' (enq (RunQ 2) 2 Q6) ∧ load_bytes (phys (mach s')) 0x4100 4 = [1; 2; 3; 0].
Proof.
  assert (∃ tc, tcb_table two_waiting !! 2 = Some tc ∧ (thread_state tc, wait_tid tc, wait_for_kernel_msg tc) =
    (WAIT_FOR_SEND, 1, false) ∧ (ebx (user_exec_state tc), edi (user_exec_state tc), root_pmap tc, priority tc) =
    (0x5100, 3, 0x1000, 2)) as (tc & H1 & H2 & H3) by lookup_block.
  injection H2 as A1 A2 A3. injection H3 as B1 B2 B3 B4.
  set (mm := {| phys := store_bytes (phys (mach two_waiting)) 0x4100 [1; 2; 3]; cr3 := 0x1000 |}).
  destruct (send_message_delivers two_waiting Q6 1 2 tc 77 0 0x5000 8 mm) as (s' & E & [K _ _ _ Em]).
  - apply kinv_two_waiting.
  - unfold NUM_TCBS; lia.
  - unfold NUM_TCBS; lia.
  - lia.
  - right. lia.
  - exact H1.
  - split; [exact A1 | right; right; exact A2].
  - left. exact A3.
  - rewrite B1, B2, B3. vm_compute. reflexivity.
  - destruct K as (p & Hp & K). unfold home in Hp. simpl in Hp. injection Hp as <-. rewrite B4 in K.
    exists s'. split; [exact E | split; [exact K|]]. rewrite Em. vm_compute. reflexivity.
Defined.

(** C17. Blocking: when the recipient is alive but not waiting for this sender and
    the call may block, [send_message] does not return.  The sender waits at the
    back of the recipient's queue, with its buffer, flags, subject and length
    in its registers and [E_INTERRUPT] as the code it would be woken with, and
    the processor goes to the oldest ready thread of the highest priority. *)
Theorem send_message_blocks s Q t tc r rtc subject flags buf len i itc :
  kinv s Q → running s 0 = Some (Some t) → tcb_table s !! t = Some tc →
  0 < r < NUM_TCBS → t ≠ r → buffer_ok buf len → tcb_table s !! r = Some rtc →
  thread_state rtc ≠ INACTIVE → thread_state rtc ≠ ZOMBIE → ¬ accepts t flags rtc →
  IS_FLAG_SET flags MSG_NOBLOCK = false → ¬ none_ready Q MIN_PRIORITY →
  init_server_thread s = Some i → tcb_table s !! i = Some itc →
  ∃ z s', send_message t r subject flags buf len s = Leave s' ∧ chosen Q MIN_PRIORITY z ∧
    gave_way s Q t (SenderQ r)
      (sender_waiting r buf flags subject len (IS_FLAG_SET flags MSG_KERNEL) (core_tcb tc)) z s'.
Proof.
  intros K Hrun Htc Hr Hne Hb Hrtc Hs1 Hs2 Hacc Hnb Hready Hi Hit.
  destruct (kinv_running s Q 0 t K Hrun) as (_ & _ & _ & Ht & _).
  destruct (wp_leave_inv (send_message t r subject flags buf len) (λ s', ∃ z, chosen Q MIN_PRIORITY z ∧
    gave_way s Q t (SenderQ r)
      (sender_waiting r buf flags subject len (IS_FLAG_SET flags MSG_KERNEL) (core_tcb tc)) z s') s)
    as (s' & E & z & H1 & H2); [|eauto].
  eapply send_message_run; [done | done | done | done | done | done | done | done |].
  destruct (bool_decide _ && _) eqn:Ec.
  - exfalso. apply Hacc. apply andb_true_iff in Ec as [E1 E2]. apply bool_decide_eq_true in E1.
    split; [done|]. rewrite !orb_true_iff, andb_true_iff, negb_true_iff, !Z.eqb_eq in E2. tauto.
  - rewrite Hnb. eapply wp_send_wait; [done | done | done | done | done | done | done |]. eauto.
Qed.

Lemma Q5_ready : Q5 (RunQ 2) = [2] ∧ ∀ i, i ≠ 2 → Q5 (RunQ i) = [].
Proof.
  split; [reflexivity|]. intros i Hi. unfold Q5, Qdel. destruct Q4_ready as [_ E]. by rewrite E.
Qed.

Lemma Q5_chosen m z : chosen Q5 m z → z = 2.
Proof.
  intros (pr & ys & _ & H2 & _). destruct Q5_ready as [E1 E2].
  destruct (decide (pr = 2)) as [->|Hne]; [|rewrite E2 in H2 by exact Hne; by destruct ys].
  rewrite E1 in H2. apply (app_inj_tail []) in H2 as [_ <-]. reflexivity.
Qed.

Lemma send_message_blocks_witness :
  ∃ z s', send_message 1 2 5 0 0x5000 8 one_running = Leave s' ∧ z = 2 ∧ running s' 0 = Some (Some z) ∧
    kinv s' (Qdel z (enq (SenderQ 2) 1 Q5)).
Proof.
  assert (∃ tc, tcb_table one_running !! 1 = Some tc ∧ thread_state tc = RUNNING ∧ priority tc = 2)
    as (tc & H1 & _ & _) by lookup_block.
  assert (∃ tc, tcb_table one_running !! 2 = Some tc ∧ thread_state tc = READY ∧ priority tc = 2)
    as (rtc & R1 & R2 & _) by lookup_block.
  destruct (send_message_blocks one_running Q5 1 tc 2 rtc 5 0 0x5000 8 1 tc) as (z & s' & E & C & [K _ R _ _ _]).
  - apply kinv_one_running.
  - vm_compute. reflexivity.
  - exact H1.
  - unfold NUM_TCBS. lia.
  - lia.
  - right. lia.
  - exact R1.
  - rewrite R2. discriminate.
  - rewrite R2. discriminate.
  - intros [H _]. rewrite R2 in H. discriminate.
  - reflexivity.
  - intros H. specialize (H 2). destruct Q5_ready as [E1 _]. rewrite E1 in H.
    discriminate H. unfold MIN_PRIORITY, MAX_PRIORITY. lia.
  - vm_compute. reflexivity.
  - exact H1.
  - exists z, s'. split; [exact E | split; [exact (Q5_chosen _ _ C) | split; [exact R | exact K]]].
Defined.

(** C18. Errors: [send_message] refuses a message of a thread to itself, a length
    without a buffer, a recipient that is not alive and, with [MSG_NOBLOCK], a recipient
    that is not ready, each with its own code and without changing the state. *)
Theorem send_message_refuses s Q t r rtc subject flags buf len :
  kinv s Q → 0 < t < NUM_TCBS → 0 < r < NUM_TCBS → tcb_table s !! r = Some rtc →
  send_message t t subject flags buf len s = Ret E_INVALID_ARG s ∧
  (t ≠ r →
    (¬ buffer_ok buf len → send_message t r subject flags buf len s = Ret E_INVALID_ARG s) ∧
    (buffer_ok buf len → thread_state rtc = INACTIVE ∨ thread_state rtc = ZOMBIE →
       send_message t r subject flags buf len s = Ret E_UNREACH s) ∧
    (buffer_ok buf len → thread_state rtc ≠ INACTIVE → thread_state rtc ≠ ZOMBIE →
       ¬ accepts t flags rtc → IS_FLAG_SET flags MSG_NOBLOCK = true →
       send_message t r subject flags buf len s = Ret E_BLOCK s)).
Proof.
  intros K Ht Hr Hrtc. split; [|intros Hne; split; [|split]].
  - apply wp_run. intros Q' L HQ. unfold send_message. wp_step. apply wp_get_tid; [lia|]. by rewrite Z.eqb_refl.
  - intros Hb. apply wp_run. intros Q' L HQ. unfold send_message. wp_step. apply wp_get_tid; [lia|].
    replace (t =? r) with false by lia. replace ((0 <? len) && (buf =? 0)) with true by (unfold buffer_ok in Hb; lia).
    done.
  - intros Hb Hs. apply wp_run. intros Q' L HQ. unfold send_message. wp_step. apply wp_get_tid; [lia|].
    replace (t =? r) with false by lia. rewrite buffer_check by done.
    destruct K as [W _]. destruct (proj2 (qwf_lists _ _ _ W (ReceiverQ t))) as [l Hl]; [simpl; lia|].
    wp_step. eapply wp_read_list; [apply repr_refl | done |].
    replace (r =? ANY_RECIPIENT) with false by (unfold ANY_RECIPIENT, NULL_TID; lia).
    rewrite get_tcb_some by lia. simpl andb. wp_step. apply wp_ret. cbv beta iota.
    wp_step. wp_step. eapply wp_tcb_at; [done|]. apply wp_ret. cbv beta iota. by rewrite decide_True.
  - intros Hb Hs1 Hs2 Hacc Hnb. apply wp_run. intros Q' L HQ.
    eapply send_message_run; [done | done | done | done | done | done | done | done |].
    destruct (bool_decide _ && _) eqn:Ec; [|by rewrite Hnb].
    exfalso. apply Hacc. apply andb_true_iff in Ec as [E1 E2]. apply bool_decide_eq_true in E1.
    split; [done|]. rewrite !orb_true_iff, andb_true_iff, negb_true_iff, !Z.eqb_eq in E2. tauto.
Qed.

Lemma send_message_refuses_witness :
  send_message 1 1 5 0 0x5000 8 one_running = Ret E_INVALID_ARG one_running ∧
  send_message 1 2 5 MSG_NOBLOCK 0x5000 8 one_running = Ret E_BLOCK one_running.
Proof.
  assert (∃ tc, tcb_table one_running !! 2 = Some tc ∧ thread_state tc = READY ∧ priority tc = 2)
    as (rtc & R1 & R2 & _) by lookup_block.
  split.
  - apply (send_message_refuses one_running Q5 1 2 rtc 5 0 0x5000 8);
      [apply kinv_one_running | unfold NUM_TCBS; lia | unfold NUM_TCBS; lia | exact R1].
  - apply (send_message_refuses one_running Q5 1 2 rtc 5 MSG_NOBLOCK 0x5000 8);
      [apply kinv_one_running | unfold NUM_TCBS; lia | unfold NUM_TCBS; lia | exact R1 | lia | right; lia | | | |].
    + rewrite R2. discriminate.
    + rewrite R2. discriminate.
    + intros [H _]. rewrite R2 in H. discriminate.
    + reflexivity.
Defined.

(** [receive_message] can take the message of the thread with block [stc]. *)
Definition offers (t : Z) (flags : Z) (stc : tcb_t) : Prop :=
  thread_state stc = WAIT_FOR_RECV ∧
  (wait_for_kernel_msg stc = true ∨ wait_tid stc = t ∨
   IS_FLAG_SET flags MSG_KERNEL = false ∧ wait_tid stc = ANY_RECIPIENT).

Lemma offers_cond t flags stc :
  bool_decide (thread_state stc = WAIT_FOR_RECV) &&
    (wait_for_kernel_msg stc || (wait_tid stc =? t) ||
     (negb (IS_FLAG_SET flags MSG_KERNEL) && (wait_tid stc =? ANY_RECIPIENT))) = true ↔ offers t flags stc.
Proof.
  unfold offers. rewrite andb_true_iff, bool_decide_eq_true, !orb_true_iff, andb_true_iff, negb_true_iff, !Z.eqb_eq.
  tauto.
Qed.

(** Running [receive_message] up to the choice between its branches, for a
    named sender. *)
Lemma receive_message_run s Q t x stc flags buf len (Post : Z → kstate → Prop) L :
  kinv s Q → 0 < t < NUM_TCBS → 0 < x < NUM_TCBS → t ≠ x → buffer_ok buf len → tcb_table s !! x = Some stc →
  wp (if bool_decide (thread_state stc = WAIT_FOR_RECV) &&
         (wait_for_kernel_msg stc || (wait_tid stc =? t) ||
          (negb (IS_FLAG_SET flags MSG_KERNEL) && (wait_tid stc =? ANY_RECIPIENT)))
      then receive_accept t x x buf len (IS_FLAG_SET flags MSG_KERNEL)
      else if IS_FLAG_SET flags MSG_NOBLOCK then ret E_BLOCK
      else receive_wait t (Some x) flags buf len (IS_FLAG_SET flags MSG_KERNEL)) Post L s →
  wp (receive_message t x flags buf len) Post L s.
Proof.
  intros K Ht Hx Hne Hb Hstc HP. unfold receive_message.
  wp_step. apply wp_get_tid; [lia|]. replace (t =? x) with false by lia. rewrite buffer_check by done.
  destruct K as [W _]. destruct (proj2 (qwf_lists _ _ _ W (SenderQ t))) as [l Hl]; [simpl; lia|].
  wp_step. eapply wp_read_list; [apply repr_refl | done |].
  replace (x =? ANY_SENDER) with false by (unfold ANY_SENDER, NULL_TID; lia).
  rewrite get_tcb_some by lia. simpl andb. wp_step. apply wp_ret. cbv beta iota.
  wp_step. wp_step. eapply wp_tcb_at; [done|]. apply wp_ret. cbv beta iota. exact HP.
Qed.

(** A message is taken whatever the flags, from a sender that waits to send to this
    recipient. *)
Lemma receive_message_takes s Q t x stc flags buf len m :
  kinv s Q → 0 < t < NUM_TCBS → 0 < x < NUM_TCBS → t ≠ x → buffer_ok buf len →
  tcb_table s !! x = Some stc → offers t flags stc →
  let n := Z.min (edi (user_exec_state stc)) len in
  peek_virt (ebx (user_exec_state stc)) n buf (root_pmap stc) (mach s) = Ret E_OK m →
  ∃ s', receive_message t x flags buf len s =
          Ret (if IS_FLAG_SET flags MSG_KERNEL && negb (wait_for_kernel_msg stc) then E_PREEMPT else E_OK) s' ∧
    taken s Q t x stc n m s'.
Proof.
  intros K Ht Hx Hne Hb Hstc Hoff n Hpeek.
  destruct (wp_ret_inv (receive_message t x flags buf len) (λ e s',
      e = (if IS_FLAG_SET flags MSG_KERNEL && negb (wait_for_kernel_msg stc) then E_PREEMPT else E_OK) ∧
      taken s Q t x stc n m s') s) as (e & s' & E & -> & D); [|eauto].
  eapply receive_message_run; [done | done | done | done | done | done |].
  rewrite (proj2 (offers_cond t flags stc)) by done.
  eapply wp_receive_accept; [done | lia | done | done | done | exact (proj1 Hoff) | exact Hpeek |]. auto.
Qed.

(** C29. Taking a message: when the named sender waits to send to this recipient or
    to any, or has a message of the kernel, and the message is one of the kernel's
    exactly if [MSG_KERNEL] asks for one, [receive_message] copies as many bytes as both buffers allow, puts origin,
    flags, subject and size in the recipient's registers, makes the sender
    ready with [E_OK] and the size in its own, and returns [E_OK]; the queue
    invariant holds and no other thread changes. *)
Theorem receive_message_accepts s Q t x stc flags buf len m :
  kinv s Q → 0 < t < NUM_TCBS → 0 < x < NUM_TCBS → t ≠ x → buffer_ok buf len →
  tcb_table s !! x = Some stc → offers t flags stc → IS_FLAG_SET flags MSG_KERNEL = wait_for_kernel_msg stc →
  let n := Z.min (edi (user_exec_state stc)) len in
  peek_virt (ebx (user_exec_state stc)) n buf (root_pmap stc) (mach s) = Ret E_OK m →
  ∃ s', receive_message t x flags buf len s = Ret E_OK s' ∧ taken s Q t x stc n m s'.
Proof.
  intros K Ht Hx Hne Hb Hstc Hoff Hk n Hpeek. destruct (receive_message_takes s Q t x stc flags buf len m) as (s' & E & D); try done.
  exists s'. split; [|done]. rewrite E, Hk. by destruct (wait_for_kernel_msg stc).
Qed.

(** The other two cases are not as the comment of [receive_message] says.  With
    [MSG_KERNEL], a message of another thread that waits to send to the recipient is
    not ignored: it is taken, and the result is [E_PREEMPT]. *)
Theorem receive_message_not_ignored s Q t x stc flags buf len m :
  kinv s Q → 0 < t < NUM_TCBS → 0 < x < NUM_TCBS → t ≠ x → buffer_ok buf len →
  tcb_table s !! x = Some stc → offers t flags stc → IS_FLAG_SET flags MSG_KERNEL = true → wait_for_kernel_msg stc = false →
  let n := Z.min (edi (user_exec_state stc)) len in
  peek_virt (ebx (user_exec_state stc)) n buf (root_pmap stc) (mach s) = Ret E_OK m →
  ∃ s', receive_message t x flags buf len s = Ret E_PREEMPT s' ∧ taken s Q t x stc n m s'.
Proof.
  intros K Ht Hx Hne Hb Hstc Hoff Hf Hk n Hpeek. destruct (receive_message_takes s Q t x stc flags buf len m) as (s' & E & D); try done.
  exists s'. by rewrite E, Hf, Hk.
Qed.

(** Without it, a message of the kernel is taken with the result [E_OK]. *)
Theorem receive_message_kernel_ok s Q t x stc flags buf len m :
  kinv s Q → 0 < t < NUM_TCBS → 0 < x < NUM_TCBS → t ≠ x → buffer_ok buf len →
  tcb_table s !! x = Some stc → offers t flags stc → IS_FLAG_SET flags MSG_KERNEL = false → wait_for_kernel_msg stc = true →
  let n := Z.min (edi (user_exec_state stc)) len in
  peek_virt (ebx (user_exec_state stc)) n buf (root_pmap stc) (mach s) = Ret E_OK m →
  ∃ s', receive_message t x flags buf len s = Ret E_OK s' ∧ taken s Q t x stc n m s'.
Proof.
  intros K Ht Hx Hne Hb Hstc Hoff Hf Hk n Hpeek. destruct (receive_message_takes s Q t x stc flags buf len m) as (s' & E & D); try done.
  exists s'. by rewrite E, Hf, Hk.
Qed.

Lemma receive_message_accepts_witness :
  ∃ s', receive_message 1 2 0 0x5100 3 two_sending = Ret E_OK s' ∧
    kinv s' (enq (RunQ 2) 2 Q7) ∧ load_bytes (phys (mach s')) 0x4100 4 = [1; 2; 3; 0].
Proof.
  assert (∃ tc, tcb_table two_sending !! 2 = Some tc ∧ (thread_state tc, wait_tid tc, wait_for_kernel_msg tc) =
    (WAIT_FOR_RECV, 1, false) ∧ (ebx (user_exec_state tc), edi (user_exec_state tc), root_pmap tc, priority tc) =
    (0x5000, 8, 0x1000, 2)) as (tc & H1 & H2 & H3) by lookup_block.
  injection H2 as A1 A2 A3. injection H3 as B1 B2 B3 B4.
  set (mm := {| phys := store_bytes (phys (mach two_sending)) 0x4100 [1; 2; 3]; cr3 := 0x1000 |}).
  destruct (receive_message_accepts two_sending Q7 1 2 tc 0 0x5100 3 mm) as (s' & E & [K _ _ _ Em]).
  - apply kinv_two_sending.
  - unfold NUM_TCBS; lia.
  - unfold NUM_TCBS; lia.
  - lia.
  - right. lia.
  - exact H1.
  - split; [exact A1 | right; left; exact A2].
  - rewrite A3. reflexivity.
  - rewrite B1, B2, B3. vm_compute. reflexivity.
  - rewrite B4 in *. exists s'. split; [exact E | split; [exact K|]]. rewrite Em. vm_compute. reflexivity.
Defined.

(** A receiver that has to wait does not: on the blocking path for a named
    sender that is ready, [receive_message] detaches and queues the sender
    instead of the caller.  The sender ends up waiting on the caller's queue
    of receivers, while the caller keeps the processor or stays ready. *)
Theorem receive_message_parks_sender s Q t tc x stc flags buf len i itc :
  kinv s Q → running s 0 = Some (Some t) → tcb_table s !! t = Some tc →
  0 < x < NUM_TCBS → t ≠ x → buffer_ok buf len → tcb_table s !! x = Some stc → thread_state stc = READY →
  IS_FLAG_SET flags MSG_NOBLOCK = false → init_server_thread s = Some i → tcb_table s !! i = Some itc →
  ∃ s' Q', receive_message t x flags buf len s = Leave s' ∧ kinv s' Q' ∧ x ∈ Q' (ReceiverQ t) ∧
    (running s' 0 = Some (Some t) ∨ t ∈ Q' (RunQ (priority tc))).
Proof.
  intros K Hrun Htc Hx Hne Hb Hstc Hs Hnb Hi Hit.
  destruct (kinv_running s Q 0 t K Hrun) as (_ & _ & _ & Ht & _).
  destruct (wp_leave_inv (receive_message t x flags buf len) (λ s', ∃ Q', kinv s' Q' ∧ x ∈ Q' (ReceiverQ t) ∧
    (running s' 0 = Some (Some t) ∨ t ∈ Q' (RunQ (priority tc)))) s) as (s' & E & Q' & H); [|by exists s', Q'].
  eapply receive_message_run; [done | done | done | done | done | done |].
  rewrite bool_decide_eq_false_2 by (by rewrite Hs). simpl andb. rewrite Hnb. cbv iota.
  unfold receive_wait. wp_step. apply wp_ret.
  eapply wp_block_receiver; [done | done | done | by rewrite Hs | done |]. intros s1 K1 C1. rewrite Hs in C1. simpl detach in C1.
  set (Q1 := enq (ReceiverQ t) x Q) in *.
  eapply wp_set_receive_regs; [done | done |]. intros s2 K2 C2. rewrite C1 in C2.
  assert (∃ tc2, tcb_table s2 !! t = Some tc2 ∧ priority tc2 = priority tc) as (tc2 & Ht2 & Hp2).
  { assert (tcb_table (core s2) !! t = Some ((core_tcb tc) <| wait_for_kernel_msg := IS_FLAG_SET flags MSG_KERNEL |>
      <| user_exec_state ::= receive_regs flags buf len |>)) as H.
    { rewrite C2, lookup_upd, lookup_upd_ne, core_lookup, Htc by done. done. }
    apply core_lookup_Some in H as (tc2 & H2 & E2). exists tc2. split; [done|].
    change (priority tc2) with (priority (core_tcb tc2)). by rewrite <- E2. }
  assert (is_Some (tcb_table s2 !! i)) as [itc2 Hit2].
  { apply (fmap_is_Some core_tcb). rewrite <- core_lookup, C2. unfold upd. cbn [tcb_table].
    do 2 apply lookup_alter_is_Some. change (is_Some (tcb_table (core s) !! i)). by rewrite core_lookup, Hit. }
  eapply (wp_yield s2 Q1 t tc2 i itc2); [done | | done | | done | |].
  - change (running (core s2) 0 = Some (Some t)). rewrite C2. exact Hrun.
  - change (init_server_thread (core s2) = Some i). rewrite C2. exact Hi.
  - intros s' K' R'. exists Q1. split; [done | split; [apply elem_of_enq_home | by left]].
  - intros z s' Hc K' R'. eexists. split; [exact K'|]. rewrite Hp2. split; [|right; apply elem_of_enq_home].
    destruct (chosen_member _ _ _ _ K2 Hc) as (pr & Hz & _).
    assert (z ≠ x) as Hzx.
    { intros ->. destruct (kinv_lookup _ _ x K2 ltac:(lia)) as [xtc Hxtc].
      apply (kinv_home _ _ _ _ _ K2 Hxtc) in Hz.
      pose proof (proj1 (kinv_home _ _ _ _ (ReceiverQ t) K2 Hxtc) (elem_of_enq_home _ _ _)). congruence. }
    apply elem_of_enq. right. split; [|done]. apply elem_of_Qdel. split; [apply elem_of_enq_home | done].
Qed.

Lemma receive_message_parks_sender_witness :
  ∃ s' Q', receive_message 1 2 0 0x5000 8 one_running = Leave s' ∧ kinv s' Q' ∧ 2 ∈ Q' (ReceiverQ 1).
Proof.
  assert (∃ tc, tcb_table one_running !! 1 = Some tc ∧ thread_state tc = RUNNING ∧ priority tc = 2)
    as (tc & H1 & _ & _) by lookup_block.
  assert (∃ tc, tcb_table one_running !! 2 = Some tc ∧ thread_state tc = READY ∧ priority tc = 2)
    as (rtc & R1 & R2 & _) by lookup_block.
  destruct (receive_message_parks_sender one_running Q5 1 tc 2 rtc 0 0x5000 8 1 tc) as (s' & Q' & E & K & H & _).
  - apply kinv_one_running.
  - vm_compute. reflexivity.
  - exact H1.
  - unfold NUM_TCBS. lia.
  - lia.
  - right. lia.
  - exact R1.
  - exact R2.
  - reflexivity.
  - vm_compute. reflexivity.
  - exact H1.
  - exists s', Q'. split; [exact E | split; [exact K | exact H]].
Defined.

(** Waiting for anyone does not work: with no sender in the queue, a
    [receive_message] from [ANY_SENDER] that may block dereferences the null
    control block of the absent sender. *)
Theorem receive_message_any_faults s Q t flags buf len :
  kinv s Q → 0 < t < NUM_TCBS → buffer_ok buf len → Q (SenderQ t) = [] →
  IS_FLAG_SET flags MSG_NOBLOCK = false →
  receive_message t ANY_SENDER flags buf len s = Fault NullDeref.
Proof.
  intros [W _] Ht Hb HQ Hnb. destruct (proj2 (qwf_lists _ _ _ W (SenderQ t))) as [l Hl]; [simpl; lia|].
  unfold receive_message. erewrite bind_run; [|apply wp_run; intros; by apply wp_get_tid; [lia|]].
  unfold ANY_SENDER at 1, NULL_TID. replace (t =? 0) with false by lia. rewrite buffer_check by done.
  erewrite bind_run; [|apply wp_run; intros; by eapply wp_read_list; [apply repr_refl | done |]].
  rewrite (empty_list_iff _ _ _ _ _ W Hl), bool_decide_eq_true_2, andb_false_r by done.
  cbv iota. unfold bind, ret. rewrite Hnb. reflexivity.
Qed.

Lemma receive_message_any_faults_witness :
  receive_message 1 ANY_SENDER 0 0x5000 8 one_running = Fault NullDeref.
Proof.
  apply (receive_message_any_faults one_running Q5);
    [apply kinv_one_running | unfold NUM_TCBS; lia | right; lia | reflexivity | reflexivity].
Defined.

(** ** Destroying a thread that others wait for *)

Lemma release_all_lookup xs : ∀ c u,
  NoDup xs → tcb_table (release_all xs c) !! u =
    if decide (u ∈ xs) then release_tcb <$> tcb_table c !! u else tcb_table c !! u.
Proof.
  induction xs as [|x xs IH]; intros c u Hn; [done|]. apply NoDup_cons in Hn as [Hx Hn].
  cbn [release_all foldr]. destruct (decide (u = x)) as [->|Hne].
  - rewrite lookup_upd. fold (release_all xs c). rewrite IH, decide_False by done.
    by rewrite decide_True by by left.
  - rewrite lookup_upd_ne by done. fold (release_all xs c). rewrite IH by done.
    destruct (decide (u ∈ xs)) as [Hu|Hu]; [by rewrite decide_True by by right|].
    rewrite decide_False; [done|]. by intros [?|?]%elem_of_cons.
Qed.

Lemma lookup_detach_ne t st c u : u ≠ t → tcb_table (detach t st c) !! u = tcb_table c !! u.
Proof. intros Hne. destruct st; simpl detach; rewrite ?lookup_upd_ne by done; done. Qed.

Lemma two_sending_irqs j : is_Some (irq_handlers two_sending !! j) ↔ 0 <= j < NUM_IRQS.
Proof.
  assert (irq_handlers two_sending = array 24 None) as -> by (vm_compute; reflexivity).
  rewrite array_lookup. unfold NUM_IRQS. case_decide as H; [split; [lia | eauto]|].
  split; [by intros [] | lia].
Qed.

(** Senders of a destroyed thread are lost: [thread_release] gives each of
    them [E_UNREACH] and marks it ready, but leaves it in no queue at all, so
    that no assignment of sequences to the queues makes the invariant of the
    thread table hold and [schedule] never finds the thread again. *)
Theorem thread_release_strands s Q t tc u utc :
  kinv s Q → 0 < t < NUM_TCBS → tcb_table s !! t = Some tc → removable (thread_state tc) →
  (∀ j, is_Some (irq_handlers s !! j) ↔ 0 <= j < NUM_IRQS) →
  u ∈ Q (SenderQ t) → u ≠ t → tcb_table s !! u = Some utc →
  ∃ s' utc', thread_release t s = Ret E_OK s' ∧ tcb_table s' !! u = Some utc' ∧ thread_state utc' = READY ∧
    eax (user_exec_state utc') = u32 E_UNREACH ∧
    (∀ Q' q, wf s' Q' → u ∉ Q' q) ∧ (∀ Q', ¬ kinv s' Q').
Proof.
  intros K Ht Htc Hrem Hirq Hu Hne Hutc.
  destruct (wp_ret_inv (thread_release t) (λ e s', e = E_OK ∧ wf s' (<[SenderQ t := []]> (Qdel t Q)) ∧
    core s' = released s Q t (thread_state tc)) s) as (e & s' & E & -> & W & C).
  { eapply wp_thread_release; [done | done | done | done | done |]. auto. }
  assert (u ∈ Qdel t Q (SenderQ t)) as Hu' by (by apply elem_of_Qdel).
  assert (tcb_table (core s') !! u = Some (release_tcb (core_tcb utc))) as Hu1.
  { rewrite C. unfold released. rewrite lookup_upd_ne by done.
    change (tcb_table (unhandle t ?c)) with (tcb_table c).
    rewrite release_all_lookup, decide_True by (done || apply NoDup_filter, (qwf_nodup _ _ _ (proj1 K))).
    rewrite lookup_detach_ne, core_lookup, Hutc by done. done. }
  apply core_lookup_Some in Hu1 as (utc' & Hutc' & E').
  assert (thread_state utc' = READY ∧ eax (user_exec_state utc') = u32 E_UNREACH) as [Hs Ha].
  { change (thread_state utc') with (thread_state (core_tcb utc')).
    change (user_exec_state utc') with (user_exec_state (core_tcb utc')). by rewrite <- E'. }
  assert (∀ Q' q, wf s' Q' → u ∉ Q' q) as Hlost.
  { intros Q' q W'. rewrite (qwf_unique _ _ _ _ q W' W).
    destruct (decide (q = SenderQ t)) as [->|Hq]; [rewrite fn_lookup_insert; apply not_elem_of_nil|].
    rewrite fn_lookup_insert_ne by done. intros [H _]%elem_of_Qdel.
    apply Hq. by apply (qwf_disjoint _ _ _ (proj1 K) q (SenderQ t) u). }
  exists s', utc'. split; [done | split; [done | split; [done | split; [done | split; [done|]]]]].
  intros Q' K'. apply (Hlost Q' (RunQ (priority utc')) (proj1 K')).
  apply (kinv_home _ _ _ _ _ K' Hutc'). unfold home. by rewrite Hs.
Qed.

Lemma thread_release_strands_witness :
  ∃ s' utc', thread_release 1 two_sending = Ret E_OK s' ∧ tcb_table s' !! 2 = Some utc' ∧
    thread_state utc' = READY ∧ ∀ Q', ¬ kinv s' Q'.
Proof.
  assert (∃ tc, tcb_table two_sending !! 1 = Some tc ∧ thread_state tc = RUNNING ∧ priority tc = 2)
    as (tc & H1 & H2 & _) by lookup_block.
  assert (∃ tc, tcb_table two_sending !! 2 = Some tc ∧ thread_state tc = WAIT_FOR_RECV ∧ priority tc = 2)
    as (utc & R1 & _ & _) by lookup_block.
  destruct (thread_release_strands two_sending Q7 1 tc 2 utc) as (s' & utc' & E & U & S & _ & _ & H).
  - apply kinv_two_sending.
  - unfold NUM_TCBS. lia.
  - exact H1.
  - rewrite H2. split; discriminate.
  - apply two_sending_irqs.
  - left.
  - discriminate.
  - exact R1.
  - exists s', utc'. split; [exact E | split; [exact U | split; [exact S | exact H]]].
Defined.

(** ** Leaving for another thread *)

(** [thread_switch_context] always returns to user mode with the saved
    registers of the thread it is given, with the kernel stack reset, and with
    no thread or queue changed.  The address space it returns to is the one of
    the initial server, whatever the thread's own is. *)
Theorem thread_switch_context_spec s Q t i itc fx :
  kinv s Q → running s 0 = Some (Some t) → init_server_thread s = Some i → tcb_table s !! i = Some itc →
  ∃ tc s', tcb_table s !! t = Some tc ∧ thread_switch_context (A := Z) t fx s = Leave s' ∧
    kinv s' Q ∧ tcb_table s' = tcb_table s ∧ regs s' = user_exec_state tc ∧ tss_esp0 s' = kernel_stack_top s ∧
    phys (mach s') = phys (mach s) ∧ cr3 (mach s') = root_pmap itc.
Proof.
  intros K Hr Hi Hit. destruct (kinv_running s Q 0 t K Hr) as (tc & Htc & Hs & _).
  destruct (wp_leave_inv (thread_switch_context (A := Z) t fx) (switched s tc itc) s) as (s' & E & [Same R Em Ee _]).
  { eapply wp_thread_switch_context; [done | done | done | done | done |]. auto. }
  exists tc, s'. split; [done | split; [done | split; [by apply (kinv_same s)|]]].
  rewrite Em. by destruct Same as [-> _].
Qed.

Lemma thread_switch_context_spec_witness :
  ∃ s', thread_switch_context (A := Z) 1 true one_running = Leave s' ∧ cr3 (mach s') = 0x5000.
Proof.
  assert (∃ tc, tcb_table one_running !! 1 = Some tc ∧ thread_state tc = RUNNING ∧ root_pmap tc = 0x5000)
    as (tc & H1 & _ & H2) by lookup_block.
  destruct (thread_switch_context_spec one_running Q5 1 1 tc true) as (_ & s' & _ & E & _ & _ & _ & _ & _ & Hc).
  - apply kinv_one_running.
  - vm_compute. reflexivity.
  - vm_compute. reflexivity.
  - exact H1.
  - exists s'. split; [exact E | rewrite Hc; exact H2].
Defined.
