(* ===== verification/BootMemory.v ===== *)
(** * Physical frames while the kernel starts: kernel/init/memory.c

    The allocator that hands out one frame after the other until the initial
    server takes over.  The multiboot memory map and the modules are lists; where
    the kernel is in memory is a parameter. *)

From Stdlib Require Import Sorting.Sorted.
From S2P Require Import Prelude Bits.

Definition EXTENDED_MEMORY : Z := 0x100000.
Definition FRAME_SIZE : Z := 0x1000.
Definition PAGE_TABLE_SIZE : Z := 0x400000.
Definition INVALID_PADDR : Z := 2 ^ 32 - 1.
Definition MBI_TYPE_AVAIL : Z := 1.

Record memory_map_t := {
  base_addr_low : Z; base_addr_high : Z; length_low : Z; length_high : Z; type : Z
}.

Record module_t := { mod_start : Z; mod_end : Z }.

Record multiboot_info := { mmap : list memory_map_t; mods : list module_t }.

Record boot_state := { first_free_page : Z; can_alloc_frames : bool }.

(** The macro [OVERLAPS], with the [addr] of the function it is used in; the sums
    have [w] bits. *)
Definition OVERLAPS (w addr start end_ region_start region_len : Z) : bool :=
  ((region_start <=? start) && (addr <? wrap w (region_start + region_len)))
  || ((region_start <=? end_) && (end_ <? wrap w (region_start + region_len))).

Definition mmap_len (m : memory_map_t) : Z := Z.lor (Z.shiftl (length_high m) 32) (length_low m).
Definition mmap_base (m : memory_map_t) : Z := Z.lor (Z.shiftl (base_addr_high m) 32) (base_addr_high m).

(** The loop over the memory map: the first entry that overlaps the page. *)
Fixpoint find_entry (ms : list memory_map_t) (addr addr_end : Z) : option memory_map_t :=
  match ms with
  | [] => None
  | m :: ms => if OVERLAPS 64 addr addr addr_end (mmap_base m) (mmap_len m) then Some m else find_entry ms addr addr_end
  end.

(** [ALIGN_UP] of include/kernel/mm.h *)
Definition align_up (addr boundary : Z) : Z :=
  if addr =? align_down addr boundary then addr else u32 (align_down addr boundary + boundary).

(** The kernel starts at [kphys_start] and has [ksize] bytes. *)
Section memory.
Variable kphys_start ksize : Z.

Definition is_reserved_page (addr : Z) (info : multiboot_info) (is_large_page : bool) : bool :=
  let addr := align_down addr (if is_large_page then PAGE_TABLE_SIZE else FRAME_SIZE) in
  let addr_end := u32 (addr + (if is_large_page then PAGE_TABLE_SIZE else FRAME_SIZE)) in
  if (addr <? EXTENDED_MEMORY) || OVERLAPS 32 addr addr addr_end kphys_start ksize then true
  else
    match find_entry (mmap info) addr addr_end with
    | None => true
    | Some m =>
        if negb (type m =? MBI_TYPE_AVAIL) then true
        else existsb (λ d, OVERLAPS 32 addr addr addr_end (mod_start d) (u32 (mod_end d - mod_start d))) (mods info)
    end.

(** The loop that skips reserved pages; [None] is too little fuel. *)
Fixpoint skip_reserved (fuel : nat) (info : multiboot_info) (frame : Z) : option Z :=
  match fuel with
  | O => None
  | S fuel =>
      if (EXTENDED_MEMORY <=? frame) && is_reserved_page frame info false
      then skip_reserved fuel info (u32 (frame + FRAME_SIZE))
      else Some frame
  end.

(** The frame number grows until it wraps around: one step for every page that
    is left, and one more, are enough. *)
Definition skip_fuel (frame : Z) : nat := S (Z.to_nat ((2 ^ 32 - frame + FRAME_SIZE - 1) / FRAME_SIZE)).

(** [None] is the panic of an allocator that is not ready. *)
Definition alloc_phys_frame (info : multiboot_info) (s : boot_state) : option (boot_state * Z) :=
  if negb (can_alloc_frames s) then None
  else
    frame ← skip_reserved (skip_fuel (first_free_page s)) info (first_free_page s);
    if frame <? EXTENDED_MEMORY then Some (s, INVALID_PADDR)
    else Some ({| first_free_page := u32 (frame + FRAME_SIZE); can_alloc_frames := can_alloc_frames s |}, frame).

(** Calls of [alloc_phys_frame], one after the other. *)
Fixpoint alloc_frames (n : nat) (info : multiboot_info) (s : boot_state) : option (boot_state * list Z) :=
  match n with
  | O => Some (s, [])
  | S n =>
      r ← alloc_phys_frame info s;
      rs ← alloc_frames n info (fst r);
      Some (fst rs, snd r :: snd rs)
  end.

(** [init_memory], apart from what it prints; the result is whether there is
    enough memory. *)
Definition init_memory (mem_upper : Z) : boot_state * bool :=
  let total_phys_mem := u32 ((mem_upper + 1024) * 1024) in
  ({| first_free_page := align_up (u32 (kphys_start + ksize)) FRAME_SIZE; can_alloc_frames := true |},
   negb (total_phys_mem <? 64 * 2 ^ 20)).

(** ** The frames handed out *)

Definition page_address (f : Z) : Prop := 0 <= f < 2 ^ 32 ∧ f mod 4096 = 0.

Lemma skip_reserved_spec info fuel : ∀ frame, page_address frame → (Z.to_nat ((2 ^ 32 - frame + FRAME_SIZE - 1) / FRAME_SIZE) < fuel)%nat →
  ∃ f, skip_reserved fuel info frame = Some f ∧ page_address f ∧
    (f < EXTENDED_MEMORY ∨
     frame <= f ∧ is_reserved_page f info false = false ∧ ∀ g, page_address g → frame <= g < f → is_reserved_page g info false = true).
Proof.
  unfold FRAME_SIZE, EXTENDED_MEMORY. change 0x1000 with 4096. change 0x100000 with 1048576.
  induction fuel as [|fuel IH]; intros frame [F1 F2] Hf; [lia|]. cbn [skip_reserved]. unfold EXTENDED_MEMORY, FRAME_SIZE.
  change 0x1000 with 4096. change 0x100000 with 1048576.
  destruct (Z.leb_spec 1048576 frame); cbn [andb]; [|by exists frame; split; [|split; [|left]]].
  destruct (is_reserved_page frame info false) eqn:R.
  2: { exists frame. split; [done|]. split; [done|]. right. split_and!; [lia|done|]. intros g Hg Hr. lia. }
  destruct (Z.eq_dec frame (2 ^ 32 - 4096)) as [->|].
  - change (u32 (2 ^ 32 - 4096 + 4096)) with 0. destruct fuel as [|fuel]; [change ((2 ^ 32 - (2 ^ 32 - 4096) + 4096 - 1) / 4096) with 1 in Hf; lia|].
    exists 0. split; [done|]. split; [done|]. by left.
  - assert (U : u32 (frame + 4096) = frame + 4096) by (unfold wrap; apply Z.mod_small; zdiv). rewrite U.
    destruct (IH (frame + 4096)) as (f & E & P & K); [split; zdiv| |].
    { assert ((2 ^ 32 - (frame + 4096) + 4096 - 1) / 4096 = (2 ^ 32 - frame + 4096 - 1) / 4096 - 1) by zdiv.
      assert (1 <= (2 ^ 32 - frame + 4096 - 1) / 4096) by zdiv. lia. }
    exists f. split; [done|]. split; [done|]. destruct K as [K|(K1 & K2 & K3)]; [by left|]. right. split_and!; [lia|done|].
    intros g Hg Hr. destruct (Z.eq_dec g frame) as [->|]; [done|]. apply K3; [done|]. destruct Hg. zdiv.
Qed.

Lemma alloc_phys_frame_spec info s : can_alloc_frames s = true → page_address (first_free_page s) →
  ∃ s' f, alloc_phys_frame info s = Some (s', f) ∧ can_alloc_frames s' = true ∧ page_address (first_free_page s') ∧
    (f = INVALID_PADDR ∧ s' = s ∨
     page_address f ∧ EXTENDED_MEMORY <= f ∧ first_free_page s <= f ∧ is_reserved_page f info false = false ∧
     (first_free_page s' = 0 ∨ first_free_page s' = f + 4096)).
Proof.
  intros C P. unfold alloc_phys_frame. rewrite C. cbn [negb].
  destruct (skip_reserved_spec info (skip_fuel (first_free_page s)) (first_free_page s) P) as (f & E & Pf & K); [unfold skip_fuel; lia|].
  rewrite E. cbn [mbind option_bind]. destruct (Z.ltb_spec f EXTENDED_MEMORY).
  - exists s, INVALID_PADDR. split_and!; try done. by left.
  - destruct K as [K|(K1 & K2 & _)]; [lia|]. eexists _, f. split; [done|]. cbn [can_alloc_frames first_free_page]. split; [done|].
    destruct Pf as [F1 F2]. unfold FRAME_SIZE, wrap. change 0x1000 with 4096. split; [split; zdiv|]. right. split_and!; try done. zdiv.
Qed.

(** The frames of a sequence of calls, without the failures. *)
Definition valid_frames (fs : list Z) : list Z := filter (λ f, f ≠ INVALID_PADDR) fs.

Lemma no_more_frames info n : ∀ s, can_alloc_frames s = true → first_free_page s = 0 →
  ∃ s' fs, alloc_frames n info s = Some (s', fs) ∧ valid_frames fs = [].
Proof.
  induction n as [|n IH]; intros s C F; [by exists s, []|]. cbn [alloc_frames].
  assert (E : alloc_phys_frame info s = Some (s, INVALID_PADDR)).
  { unfold alloc_phys_frame, skip_fuel. rewrite C, F. cbn [negb]. done. }
  rewrite E. cbn [mbind option_bind fst snd]. destruct (IH s C F) as (s' & fs & E' & V). rewrite E'. cbn [mbind option_bind fst snd].
  exists s', (INVALID_PADDR :: fs). split; [done|]. unfold valid_frames in *. rewrite filter_cons, decide_False by tauto. done.
Qed.

(** However often [alloc_phys_frame] is called, it returns, and the frames it
    returns increase: none is handed out twice.  All are above the first
    megabyte and not reserved by [is_reserved_page]. *)
Theorem boot_frames_distinct info n : ∀ s,
  can_alloc_frames s = true → page_address (first_free_page s) →
  ∃ s' fs, alloc_frames n info s = Some (s', fs) ∧ length fs = n ∧ StronglySorted Z.lt (valid_frames fs) ∧
    Forall (λ f, page_address f ∧ EXTENDED_MEMORY <= f ∧ first_free_page s <= f ∧ is_reserved_page f info false = false)
      (valid_frames fs).
Proof.
  induction n as [|n IH]; intros s C P; [exists s, []; split; [done|]; split; [done|]; split; constructor|]. cbn [alloc_frames].
  destruct (alloc_phys_frame_spec info s C P) as (s1 & f & E & C1 & P1 & K). rewrite E. cbn [mbind option_bind fst snd].
  destruct (IH s1 C1 P1) as (s' & fs & E' & L & S & F). rewrite E'. cbn [mbind option_bind fst snd].
  exists s', (f :: fs). split; [done|]. split; [cbn; lia|]. unfold valid_frames in *. rewrite filter_cons.
  destruct K as [[-> ->]|(K1 & K2 & K3 & K4 & K5)]; [rewrite decide_False by tauto; done|].
  rewrite decide_True by (intros ->; by destruct K1). destruct K5 as [Z0|Z1].
  - destruct (no_more_frames info n s1 C1 Z0) as (s2 & fs2 & E2 & V). rewrite E' in E2. injection E2 as <- <-.
    unfold valid_frames in V. rewrite V. split; [apply SSorted_cons; constructor|]. by apply Forall_singleton.
  - split.
    + apply SSorted_cons; [done|]. eapply Forall_impl; [exact F|]. cbn. intros g (_ & _ & G & _). lia.
    + apply Forall_cons_2; [done|]. eapply Forall_impl; [exact F|]. cbn. intros g (G1 & G2 & G3 & G4). split_and!; try done; try apply G1. lia.
Qed.
End memory.

Definition demo_map : list memory_map_t :=
  [ {| base_addr_low := 0; base_addr_high := 0; length_low := 0x9FC00; length_high := 0; type := 1 |};
    {| base_addr_low := 0x100000; base_addr_high := 0; length_low := 0x7EE0000; length_high := 0; type := 1 |};
    {| base_addr_low := 0x300000; base_addr_high := 0; length_low := 0x10000; length_high := 0; type := 2 |} ].
Definition demo_info : multiboot_info := {| mmap := demo_map; mods := [ {| mod_start := 0x200000; mod_end := 0x201000 |} ] |}.

Lemma boot_frames_distinct_witness : ∃ s' fs,
  alloc_frames 0x100000 0x80000 4 demo_info {| first_free_page := 0x1FE000; can_alloc_frames := true |} = Some (s', fs) ∧
  StronglySorted Z.lt (valid_frames fs).
Proof.
  destruct (boot_frames_distinct 0x100000 0x80000 demo_info 4 {| first_free_page := 0x1FE000; can_alloc_frames := true |})
    as (s' & fs & E & _ & S & _); [done|split; done|]. exists s', fs. split; [exact E|exact S].
Defined.

(** ** What is reserved *)

Definition with_base_low (f : memory_map_t → Z) (m : memory_map_t) : memory_map_t :=
  {| base_addr_low := f m; base_addr_high := base_addr_high m; length_low := length_low m; length_high := length_high m; type := type m |}.

Lemma find_entry_base f ms addr addr_end :
  find_entry (with_base_low f <$> ms) addr addr_end = with_base_low f <$> find_entry ms addr addr_end.
Proof.
  induction ms as [|m ms IH]; [done|]. cbn [fmap list_fmap find_entry].
  change (mmap_base (with_base_low f m)) with (mmap_base m). change (mmap_len (with_base_low f m)) with (mmap_len m).
  by destruct (OVERLAPS _ _ _ _ _ _).
Qed.

(** Which pages are reserved does not depend on where the entries of the memory
    map start below 4G: [is_reserved_page] builds the base address from the high
    half twice.  A page that the map marks as reserved is handed out. *)
Theorem reserved_ignores_base kphys_start ksize f info addr large :
  is_reserved_page kphys_start ksize addr {| mmap := with_base_low f <$> mmap info; mods := mods info |} large =
    is_reserved_page kphys_start ksize addr info large ∧
  is_reserved_page 0x100000 0x80000 0x300000 demo_info false = false.
Proof.
  split; [|by vm_compute]. unfold is_reserved_page. cbn [mmap mods]. rewrite find_entry_base.
  destruct (_ || _); [done|]. by destruct (find_entry _ _ _).
Qed.
