(* ===== verification/Interrupt.v ===== *)
(** * Interrupts: kernel/interrupt.c

    Registration of interrupt handlers, and the C parts of the handlers of
    interrupts and of processor exceptions.  The entry stubs and the return to
    the interrupted code are assembly and not part of the model: [handle_irq]
    and [handle_cpu_exception] end where the registers are restored. *)

From S2P Require Import Prelude Bits Machine Paging Kernel KList Thread Message.

Definition EXCEPTION_MSG : Z := 0xFFFFFFFF.
Definition EXIT_MSG : Z := 0xFFFFFFFE.
Definition HALT_OPCODE : Z := 0xF4.
Definition KCODE_SEL : Z := 0x08.

(** The bit of an interrupt in [event_mask] and [pending_events]. *)
Definition irq_bit (irq : Z) : Z := u32 (Z.shiftl 1 (irq + 8)).

Definition irq_handler (irq : Z) : M kstate (option Z) :=
  let* I := gets irq_handlers in deref OutOfBounds (I !! irq).

Definition set_irq_handler (irq : Z) (h : option Z) : M kstate unit :=
  let* _ := irq_handler irq in
  modify (λ s, s <| irq_handlers ::= insert irq h |>).

(** [~x] on 32 bits. *)
Definition not32 (x : Z) : Z := u32 (Z.lnot x).

Definition irq_register (thread : option Z) (irq : Z) : M kstate Z :=
  if irq <? 24 then
    let* h := irq_handler irq in
    if bool_decide (h = None) then
      let* c := thread_get_current in
      set_irq_handler irq c ;;
      let* t := nonnull thread in
      upd_tcb t (λ tc, tc <| event_mask ::= λ m, Z.lor m (irq_bit irq) |>) ;;
      upd_tcb t (λ tc, tc <| pending_events ::= λ m, Z.land m (not32 (irq_bit irq)) |>) ;;
      ret E_OK
    else ret E_FAIL
  else ret E_FAIL.

Definition irq_unregister (thread : option Z) (irq : Z) : M kstate Z :=
  if irq <? 24 then
    set_irq_handler irq None ;;
    let* t := nonnull thread in
    upd_tcb t (λ tc, tc <| event_mask ::= λ m, Z.land m (not32 (irq_bit irq)) |>) ;;
    upd_tcb t (λ tc, tc <| pending_events ::= λ m, Z.land m (not32 (irq_bit irq)) |>) ;;
    ret E_OK
  else ret E_FAIL.

(** The number of the interrupt is the constant 0. *)
Definition handle_irq : M kstate unit :=
  let irq_num := 0 in
  let* h := irq_handler irq_num in
  match h with
  | None => ret tt
  | Some handler_thread =>
      let irq_event := u32 (Z.shiftl 1 irq_num) in
      let* tc := tcb_at handler_thread in
      when (negb (Z.land irq_event (event_mask tc) =? 0))
        (upd_tcb handler_thread (λ tc, tc <| pending_events ::= λ m, Z.lor m irq_event |>) ;;
         let* _ := thread_wakeup handler_thread in
         ret tt)
  end.

(** ** Exceptions *)

(** The frame the entry stub builds, without [old_tss_esp0]. *)
Record CpuExInterruptFrame := { ex_num : Z; error_code : Z; state : ExecutionState }.

(** Processor registers read by the handler. *)
Record control_regs := { get_ss : Z; get_cr0 : Z; get_cr2 : Z; get_cr4 : Z }.

(** The message structures, stored on the kernel stack at [p]. *)
Definition put_exit_message (p status_code who : Z) : M kstate unit :=
  vm (ustore16 p who) ;;
  vm (ustore32 (u32 (p + 4)) status_code).

Fixpoint put_words (p : Z) (ws : list Z) : M kstate unit :=
  match ws with
  | [] => ret tt
  | w :: ws => vm (ustore32 p w) ;; put_words (u32 (p + 4)) ws
  end.

Fixpoint put_halves (p : Z) (hs : list Z) : M kstate unit :=
  match hs with
  | [] => ret tt
  | h :: hs => vm (ustore16 p h) ;; put_halves (u32 (p + 2)) hs
  end.

Definition put_exception_message (p : Z) (frame : CpuExInterruptFrame) (cr : control_regs) (tcb : Z)
    : M kstate unit :=
  let st := state frame in
  let* tc := tcb_at tcb in
  let* esp0 := gets tss_esp0 in
  let* cr3 := get_cr3 in
  let* who := get_tid (Some tcb) in
  let kernel := cs st =? KCODE_SEL in
  put_words p [eax st; ebx st; ecx st; edx st; esi st; edi st; ebp st;
               if kernel then u32 (esp0 + 4 + EXECUTION_STATE_SIZE - 8) else user_esp st] ;;
  put_halves (u32 (p + 32)) [cs st; ds st; es st; fs st; gs st; if kernel then get_ss cr else user_ss st] ;;
  put_words (u32 (p + 44)) [eflags st; get_cr0 cr; get_cr2 cr; cr3; get_cr4 cr;
                            eip (user_exec_state tc); error_code frame] ;;
  put_halves (u32 (p + 72)) [u8 (ex_num frame) + 256 * u8 processor_get_current; who].

Definition EXIT_MESSAGE_SIZE : Z := 8.
Definition EXCEPTION_MESSAGE_SIZE : Z := 76.

(** The three conditions of the first branch, evaluated in order. *)
Definition is_halt (frame : CpuExInterruptFrame) : M kstate bool :=
  if (ex_num frame =? 13) && (cs (state frame) =? UCODE_SEL) then
    let* root := vm get_root_page_map in
    let* r := vm (is_readable (eip (state frame)) root) in
    if r =? 1 then let* b := vm (vload8 (eip (state frame))) in ret (b =? HALT_OPCODE) else ret false
  else ret false.

(** [message_data] is the address of the message on the kernel stack.  Without
    a current thread the kernel halts. *)
Definition handle_cpu_exception (message_data : Z) (cr : control_regs) (frame : CpuExInterruptFrame)
    : M kstate unit :=
  let* cur := thread_get_current in
  match cur with
  | None => panic
  | Some tcb =>
      let* tc := tcb_at tcb in
      let* halt := is_halt frame in
      if halt : bool then
        let* who := get_tid (Some tcb) in
        put_exit_message message_data (eax (state frame)) who ;;
        let* r := send_message tcb (ex_handler tc) EXIT_MSG MSG_KERNEL message_data EXIT_MESSAGE_SIZE in
        when (is_error r) (let* _ := thread_release tcb in ret tt)
      else
        put_exception_message message_data frame cr tcb ;;
        let* failed :=
          (if ex_handler tc =? NULL_TID then ret true
           else
             let* r := send_message tcb (if ex_num frame =? 14 then pager tc else ex_handler tc)
                         EXCEPTION_MSG MSG_KERNEL message_data EXCEPTION_MESSAGE_SIZE in
             ret (is_error r)) in
        when failed (let* _ := thread_release tcb in ret tt)
  end.
