(* ===== verification/Syscall.v ===== *)
(** * System calls: kernel/syscall.c

    The handlers behind [syscall_table].  A pointer to an argument structure
    is a user address, and the handlers read and write its fields through the
    current address space, at the offsets the i386 ABI gives them.
    [local_pde] is the address of a local variable of [initialize_root_pmap].
    [fuel] bounds the loops over page mappings: more than the number of
    mappings asked for is enough. *)

From S2P Require Import Prelude Bits Machine Paging Kernel KList Thread Message Interrupt.

Definition ESYS_OK : Z := 0.
Definition ESYS_ARG : Z := -1.
Definition ESYS_FAIL : Z := -2.
Definition ESYS_PERM : Z := -3.
Definition ESYS_BADCALL : Z := -4.
Definition ESYS_NOTIMPL : Z := -5.
Definition ESYS_NOTREADY : Z := -6.
Definition ESYS_INT : Z := -7.
Definition ESYS_PREEMPT : Z := -8.

Definition PM_UNMAPPED : Z := 0x01.
Definition PM_READ_ONLY : Z := 0x02.
Definition PM_KERNEL : Z := 0x04.
Definition PM_UNCACHED : Z := 0x08.
Definition PM_WRITETHRU : Z := 0x10.
Definition PM_WRITECOMB : Z := 0x20.
Definition PM_DIRTY : Z := 0x40.
Definition PM_ACCESSED : Z := 0x80.
Definition PM_PAGE_SIZED : Z := 0x100.
Definition PM_STICKY : Z := 0x200.
Definition PM_AVAIL_MASK : Z := 0x1F000.
Definition PM_AVAIL_OFFSET : Z := 12.
Definition N_PM_LEVELS : Z := 2.

Definition PMT_PAGE_TABLE : Z := 0.
Definition PMT_PAGE : Z := 1.
Definition PMT_BLOCK : Z := 2.

Definition SL_INF_DURATION : Z := 0xFFFFFFFF.
Definition TF_STATUS : Z := 1.
Definition TF_REG_STATE : Z := 4.
Definition TF_ROOT_PMAP : Z := 8.
Definition TF_EXT_REG_STATE : Z := 16.

Definition RES_PAGE_MAPPING : Z := 0.
Definition RES_TCB : Z := 1.
Definition RES_INT : Z := 2.

(** The registers saved by [sysenter_entry]. *)
Record syscall_args_t := {
  syscall_arg : Z; arg1 : Z; arg2 : Z; return_address : Z; arg3 : Z; arg4 : Z; user_stack : Z; arg_eflags : Z
}.

(** Fields of structures in user memory. *)
Definition get8 (p off : Z) : M kstate Z := vm (vload8 (u32 (p + off))).
Definition get16 (p off : Z) : M kstate Z := vm (uload16 (u32 (p + off))).
Definition get32 (p off : Z) : M kstate Z := vm (uload32 (u32 (p + off))).
Definition put8 (p off v : Z) : M kstate unit := vm (vstore8 (u32 (p + off)) (u8 v)).
Definition put16 (p off v : Z) : M kstate unit := vm (ustore16 (u32 (p + off)) v).
Definition put32 (p off v : Z) : M kstate unit := vm (ustore32 (u32 (p + off)) v).

(** The current thread, through its pointer. *)
Definition current : M kstate Z :=
  let* c := thread_get_current in nonnull c.

(** ** Page mappings

    [SysReadPageMappingsArgs] and [SysUpdatePageMappingsArgs] have the same
    layout; a [PageMapping] is two entries of type, flags and frame. *)

Definition map_virt : Z := 0.
Definition map_count : Z := 4.
Definition map_addr_space : Z := 8.
Definition map_mappings : Z := 12.
Definition map_level : Z := 16.

Definition mapping (mappings i level : Z) : Z := u32 (mappings + 24 * i + 12 * level).
Definition m_type : Z := 0.
Definition m_flags : Z := 4.
Definition m_frame : Z := 8.

Definition flag (b : bool) (f : Z) : Z := if b then f else 0.

Definition pde_read_flags (pde : Z) : Z :=
  Z.lor (Z.lor (Z.lor (Z.lor (flag (negb (pde_is_read_write pde)) PM_READ_ONLY)
                             (flag (negb (pde_is_user pde)) PM_KERNEL))
                      (flag (pde_pcd pde) PM_UNCACHED))
               (flag (pde_pwt pde) PM_WRITETHRU))
        (flag (pde_accessed pde) PM_ACCESSED).

Definition pte_read_flags (pte : Z) : Z :=
  Z.lor (Z.lor (Z.lor (Z.lor (Z.lor (Z.lor (flag (negb (pte_is_read_write pte)) PM_READ_ONLY)
                                           (flag (negb (pte_is_user pte)) PM_KERNEL))
                                    (flag (pte_dirty pte) PM_DIRTY))
                             (flag (pte_pcd pte) PM_UNCACHED))
                      (flag (pte_pwt pte) PM_WRITETHRU))
               (flag (pte_accessed pte) PM_ACCESSED))
        (Z.shiftl (pte_available pte) PM_AVAIL_OFFSET).

(** [v |= x] on a field in user memory. *)
Definition or32 (p off x : Z) : M kstate unit :=
  let* v := get32 p off in put32 p off (Z.lor v x).

(** A level of the walk: [None] ends the call, [Some (stop, pde)] continues
    with the entry of the directory. *)
Definition read_mapping_level (args mappings i level virt page_dir pde : Z) : M kstate (option (bool * Z)) :=
  if level =? 0 then
    let* o := vm (read_pde (PDE_INDEX virt) page_dir) in
    match o with
    | None => ret None
    | Some pde =>
        let m := mapping mappings i 0 in
        if negb (pde_is_present pde) then
          put32 m m_flags PM_UNMAPPED ;;
          put32 m m_type PMT_BLOCK ;;
          put32 m m_frame (Z.shiftr pde 1) ;;
          ret (Some (true, pde))
        else
          put32 m m_frame (get_pde_frame_number pde) ;;
          put32 m m_flags (pde_read_flags pde) ;;
          (if pde_is_page_sized pde then
             or32 m m_flags PM_PAGE_SIZED ;;
             put32 m m_type PMT_PAGE ;;
             or32 m m_flags (Z.shiftl (large_pde_available pde) PM_AVAIL_OFFSET) ;;
             when (large_pde_dirty pde) (or32 m m_flags PM_DIRTY)
           else
             or32 m m_flags (Z.shiftl (Z.lor (flag (pde_available2 pde) 16) (pde_available pde)) PM_AVAIL_OFFSET) ;;
             put32 m m_type PMT_PAGE_TABLE) ;;
          ret (Some (false, pde))
    end
  else
    let* v := get32 args map_virt in
    let* o := vm (read_pte (PTE_INDEX v) (PDE_BASE pde)) in
    match o with
    | None => ret None
    | Some pte =>
        let m := mapping mappings i 1 in
        (if negb (pte_is_present pte) then
           put32 m m_frame (Z.shiftr pte 1) ;;
           put32 m m_flags PM_UNMAPPED ;;
           put32 m m_type PMT_BLOCK
         else
           put32 m m_frame (pte_base pte) ;;
           put32 m m_flags PM_PAGE_SIZED ;;
           put32 m m_type PMT_PAGE ;;
           or32 m m_flags (pte_read_flags pte)) ;;
        ret (Some (false, pde))
    end.

(** The loop over the levels.  A larger [args->level] than [N_PM_LEVELS] has been
    refused, so that [LEVEL_FUEL] rounds are enough, unless the mappings
    overlap the arguments and change [args->level] under way. *)
Definition LEVEL_FUEL : nat := 3.

Fixpoint read_mapping_levels (fuel : nat) (args mappings i level virt page_dir pde : Z) : M kstate (option Z) :=
  match fuel with
  | O => fail OutOfFuel
  | S fuel =>
      let* l := get32 args map_level in
      if level <? i32 l then
        let* o := read_mapping_level args mappings i level virt page_dir pde in
        match o with
        | None => ret None
        | Some (true, pde) => ret (Some pde)
        | Some (false, pde) => read_mapping_levels fuel args mappings i (level + 1) virt page_dir pde
        end
      else ret (Some pde)
  end.

Fixpoint read_page_mappings_loop (fuel : nat) (args mappings i virt page_dir pde : Z) : M kstate Z :=
  match fuel with
  | O => fail OutOfFuel
  | S fuel =>
      let* count := get32 args map_count in
      if i <? count then
        let* o := read_mapping_levels LEVEL_FUEL args mappings i 0 virt page_dir pde in
        match o with
        | None => ret (i32 i)
        | Some pde =>
            let* l := get32 args map_level in
            read_page_mappings_loop fuel args mappings (u32 (i + 1))
              (u32 (virt + (if i32 l =? 0 then PAGE_TABLE_SIZE else PAGE_SIZE))) page_dir pde
        end
      else ret (i32 i)
  end.

(** [pde0] is the value of the uninitialised local [pde]. *)
Definition handle_sys_read_page_mappings (fuel : nat) (pde0 args : Z) : M kstate Z :=
  let* mappings := get32 args map_mappings in
  if mappings =? 0 then ret ESYS_FAIL
  else
    let* l := get32 args map_level in
    if N_PM_LEVELS <=? i32 l then ret ESYS_FAIL
    else
      let* a := get32 args map_addr_space in
      when (a =? CURRENT_ROOT_PMAP)
        (let* c := current in
         let* tc := tcb_at c in
         put32 args map_addr_space (root_pmap tc)) ;;
      let* virt := get32 args map_virt in
      let* a := get32 args map_addr_space in
      read_page_mappings_loop fuel args mappings 0 virt (align_down a PAGE_SIZE) pde0.

(** *** Updating *)

(** The assignments to the bit fields of an entry, one function per kind of
    entry; [flags] and [frame] are those of the mapping. *)
Definition set_page_table_entry (flags frame avail_bits e : Z) : Z :=
  let e := set_bit e 1 (negb (IS_FLAG_SET flags PM_READ_ONLY)) in
  let e := set_bit e 2 true in
  let e := set_bit e 5 (IS_FLAG_SET flags PM_ACCESSED) in
  let e := set_bit e 4 (IS_FLAG_SET flags PM_UNCACHED) in
  let e := set_bit e 3 (IS_FLAG_SET flags PM_WRITETHRU) in
  let e := set_bits e 12 20 (PADDR_TO_PBASE frame) in
  let e := set_bits e 8 1 (Z.land avail_bits 3) in
  let e := set_bits e 6 1 (Z.land (Z.shiftr avail_bits 2) 1) in
  let e := set_bits e 10 2 (Z.land (Z.shiftr avail_bits 3) 1) in
  set_bit e 6 (IS_FLAG_SET flags PM_DIRTY).

Definition set_page_entry (flags frame avail_bits e : Z) : Z :=
  let e := set_bit e 1 (negb (IS_FLAG_SET flags PM_READ_ONLY)) in
  let e := set_bit e 2 true in
  let e := set_bit e 5 (IS_FLAG_SET flags PM_ACCESSED) in
  let e := set_bit e 4 (IS_FLAG_SET flags PM_UNCACHED) in
  let e := set_bit e 3 (IS_FLAG_SET flags PM_WRITETHRU) in
  let e := set_bits e 12 20 (PADDR_TO_PBASE frame) in
  let e := set_bits e 10 2 (Z.land avail_bits 3) in
  set_bit e 6 (IS_FLAG_SET flags PM_DIRTY).

Definition set_large_page_entry (flags frame avail_bits e : Z) : Z :=
  let e := set_bit e 1 (negb (IS_FLAG_SET flags PM_READ_ONLY)) in
  let e := set_bit e 2 true in
  let e := set_bit e 5 (IS_FLAG_SET flags PM_ACCESSED) in
  let e := set_bit e 4 (IS_FLAG_SET flags PM_UNCACHED) in
  let e := set_bit e 3 (IS_FLAG_SET flags PM_WRITETHRU) in
  let e := set_bit e 7 true in
  let e := set_bit e 6 (IS_FLAG_SET flags PM_DIRTY) in
  let e := set_bit e 8 (IS_FLAG_SET flags PM_STICKY) in
  let e := set_bit e 12 (IS_FLAG_SET flags PM_WRITECOMB && negb (IS_FLAG_SET flags PM_UNCACHED)) in
  let e := set_bits e 10 2 (Z.land avail_bits 3) in
  let e := set_bits e 22 10 (Z.land (Z.shiftr frame 10) 0x3FF) in
  let e := set_bits e 13 8 (Z.shiftr frame 20) in
  set_bits e 21 1 0.

(** The outcome of the [switch] on the type of a mapping: the call returns, or
    it goes on with a new entry and the variables [end_walk] and
    [was_mapped]. *)
Definition new_entry (m level e : Z) (was_mapped : bool) : M kstate (option (Z * bool * bool)) :=
  let* type := get32 m m_type in
  let* flags := get32 m m_flags in
  let* frame := get32 m m_frame in
  let avail_bits := Z.shiftr (Z.land flags PM_AVAIL_MASK) PM_AVAIL_OFFSET in
  let last := level =? N_PM_LEVELS - 1 in
  if type =? PMT_BLOCK then ret (Some (u32 (Z.shiftl frame 1), true, bit e 0))
  else if type =? PMT_PAGE_TABLE then
    if last then ret None
    else if IS_FLAG_SET flags PM_UNMAPPED then ret (Some (0, true, was_mapped))
    else if negb (Z.land avail_bits (not32 0xF) =? 0) then ret None
    else
      let e := set_page_table_entry flags frame avail_bits e in
      if was_mapped then ret (Some (e, false, was_mapped))
      else
        let* n := vm (clear_phys_frames frame 1) in
        if negb (n =? 1) then ret None else ret (Some (e, false, was_mapped))
  else if type =? PMT_PAGE then
    if IS_FLAG_SET flags PM_UNMAPPED then ret (Some (0, true, bit e 0))
    else if negb (Z.land avail_bits (not32 3) =? 0) then ret None
    else if last then ret (Some (set_page_entry flags frame avail_bits e, true, bit e 0))
    else ret (Some (set_large_page_entry flags frame avail_bits e, true, bit e 0))
  else ret None.

Definition pmap_index (virt level : Z) : Z :=
  Z.land (Z.shiftr virt (12 + 10 * (N_PM_LEVELS - level - 1))) (PAGE_SIZE - 1).

(** One level; the result is as in [read_mapping_level], with the value of
    [pmap_entry] and of [was_mapped]. *)
Definition update_mapping_level (args mappings i level virt page_dir e : Z) (was_mapped : bool)
    : M kstate (option (bool * Z * bool)) :=
  let pmap_entry_index := pmap_index virt level in
  let table := if level =? 0 then page_dir else PBASE_TO_PADDR (get_pde_frame_number e) in
  let* o := vm (read_pmap_entry table pmap_entry_index) in
  match o with
  | None => ret None
  | Some e =>
      if bit e 0 && negb (bit e 2) then ret None
      else
        let* o := new_entry (mapping mappings i level) level e was_mapped in
        match o with
        | None => ret None
        | Some (e, end_walk, was_mapped) =>
            let* a := get32 args map_addr_space in
            when (was_mapped && (page_dir =? a)) (vm (invalidate_page virt)) ;;
            let* r := vm (write_pmap_entry (if level =? 0 then a else PBASE_TO_PADDR (get_pde_frame_number e))
                            pmap_entry_index e) in
            if is_error r then ret None else ret (Some (end_walk, e, was_mapped))
        end
  end.

Fixpoint update_mapping_levels (fuel : nat) (args mappings i level virt page_dir e : Z) (was_mapped : bool)
    : M kstate (option Z) :=
  match fuel with
  | O => fail OutOfFuel
  | S fuel =>
      let* l := get32 args map_level in
      if level <? i32 l then
        let* o := update_mapping_level args mappings i level virt page_dir e was_mapped in
        match o with
        | None => ret None
        | Some (true, e, _) => ret (Some e)
        | Some (false, e, was_mapped) =>
            update_mapping_levels fuel args mappings i (level + 1) virt page_dir e was_mapped
        end
      else ret (Some e)
  end.

Fixpoint update_page_mappings_loop (fuel : nat) (args mappings i virt page_dir e : Z) : M kstate Z :=
  match fuel with
  | O => fail OutOfFuel
  | S fuel =>
      let* count := get32 args map_count in
      if i <? count then
        let* o := update_mapping_levels LEVEL_FUEL args mappings i 0 virt page_dir e false in
        match o with
        | None => ret (i32 i)
        | Some e =>
            let* l := get32 args map_level in
            update_page_mappings_loop fuel args mappings (u32 (i + 1))
              (u32 (virt + (if i32 l =? 0 then PAGE_TABLE_SIZE else PAGE_SIZE))) page_dir e
        end
      else ret (i32 i)
  end.

(** [e0] is the value of the uninitialised local [pmap_entry]. *)
Definition handle_sys_update_page_mappings (fuel : nat) (e0 args : Z) : M kstate Z :=
  let* mappings := get32 args map_mappings in
  if mappings =? 0 then ret ESYS_FAIL
  else
    let* l := get32 args map_level in
    if N_PM_LEVELS <=? i32 l then ret ESYS_FAIL
    else
      let* a := get32 args map_addr_space in
      when (a =? CURRENT_ROOT_PMAP)
        (let* c := current in
         let* tc := tcb_at c in
         put32 args map_addr_space (Z.land (root_pmap tc) CR3_BASE_MASK)) ;;
      let* virt := get32 args map_virt in
      let* a := get32 args map_addr_space in
      update_page_mappings_loop fuel args mappings 0 virt (align_down a PAGE_SIZE) e0.

(** ** Threads *)

Definition handle_sys_create_tcb (local_pde args : Z) : M kstate Z :=
  let* entry := get32 args 0 in
  let* addr_space := get32 args 4 in
  let* stack_top := get32 args 8 in
  let* o := thread_create local_pde entry addr_space stack_top in
  match o with
  | Some t => get_tid (Some t)
  | None => ret ESYS_FAIL
  end.

Definition handle_sys_destroy_tcb (args : Z) : M kstate Z :=
  let* tid := get16 args 0 in
  match get_tcb tid with
  | Some t => let* r := thread_release t in ret (if is_error r then ESYS_FAIL else ESYS_OK)
  | None => ret ESYS_FAIL
  end.

(** [thread_state_t] as stored in [thread_info_t]. *)
Definition thread_state_num (st : thread_state_t) : Z :=
  match st with
  | INACTIVE => 0 | PAUSED => 1 | ZOMBIE => 2 | READY => 3 | RUNNING => 4
  | WAIT_FOR_SEND => 5 | WAIT_FOR_RECV => 6 | SLEEPING => 7
  end.

(** Offsets of the fields of [thread_info_t] that are used. *)
Definition i_eax : Z := 0.
Definition i_ebx : Z := 4.
Definition i_ecx : Z := 8.
Definition i_edx : Z := 12.
Definition i_edi : Z := 16.
Definition i_esi : Z := 20.
Definition i_ebp : Z := 24.
Definition i_esp : Z := 28.
Definition i_eip : Z := 32.
Definition i_cs : Z := 36.
Definition i_ds : Z := 38.
Definition i_es : Z := 40.
Definition i_fs : Z := 42.
Definition i_gs : Z := 44.
Definition i_ss : Z := 46.
Definition i_eflags : Z := 48.
Definition i_root_pmap : Z := 52.
Definition i_status : Z := 56.
Definition i_current_processor_id : Z := 57.
Definition i_tid : Z := 58.
Definition i_priority : Z := 60.
Definition i_pending_events : Z := 64.
Definition i_event_mask : Z := 68.
Definition i_capability_table : Z := 72.
Definition i_capability_table_len : Z := 76.
Definition i_exception_handler : Z := 80.
Definition i_wait_tid : Z := 84.
Definition i_fxsave_state : Z := 96.
Definition i_fxsave_state_len : Z := 100.
Definition i_xsave_rfbm : Z := 104.

(** The thread a [tid] argument names; the null one is the caller. *)
Definition tcb_arg (tid : Z) : M kstate (option Z) :=
  if tid =? NULL_TID then thread_get_current else ret (get_tcb tid).

(** The search for the processor a thread runs on, [n] processors to go. *)
Fixpoint put_processor (n : nat) (i info tcb : Z) : M kstate unit :=
  match n with
  | O => ret tt
  | S n =>
      let* c := processor_at i in
      if decide (running_thread c = Some tcb) then put8 info i_current_processor_id i
      else put_processor n (i + 1) info tcb
  end.

Definition put_registers (info : Z) (st : ExecutionState) : M kstate unit :=
  put32 info i_eax (eax st) ;;
  put32 info i_ebx (ebx st) ;;
  put32 info i_ecx (ecx st) ;;
  put32 info i_edx (edx st) ;;
  put32 info i_esi (esi st) ;;
  put32 info i_edi (edi st) ;;
  put32 info i_ebp (ebp st) ;;
  put32 info i_esp (user_esp st) ;;
  put32 info i_eip (eip st) ;;
  put32 info i_eflags (eflags st) ;;
  put16 info i_cs (cs st) ;;
  put16 info i_ds (ds st) ;;
  put16 info i_es (es st) ;;
  put16 info i_fs (fs st) ;;
  put16 info i_gs (gs st) ;;
  put16 info i_ss (user_ss st).

Definition handle_sys_read_tcb (args : Z) : M kstate Z :=
  let* info := get32 args 4 in
  let* tid := get16 args 0 in
  let* o := tcb_arg tid in
  match o with
  | None => ret ESYS_ARG
  | Some tcb =>
      let* tc := tcb_at tcb in
      put8 info i_status (thread_state_num (thread_state tc)) ;;
      when (bool_decide (thread_state tc = WAIT_FOR_SEND) || bool_decide (thread_state tc = WAIT_FOR_RECV))
        (put16 info i_wait_tid (wait_tid tc)) ;;
      put_registers info (user_exec_state tc) ;;
      put8 info i_priority (priority tc) ;;
      put32 info i_root_pmap (root_pmap tc) ;;
      if decide (thread_state tc = RUNNING) then
        put_processor (Z.to_nat MAX_PROCESSORS) 0 info tcb ;;
        let* t := get_tid (Some tcb) in
        put16 info i_tid t ;;
        put32 info i_pending_events (pending_events tc) ;;
        put32 info i_event_mask (event_mask tc) ;;
        put32 info i_capability_table (cap_table tc) ;;
        put32 info i_capability_table_len (cap_table_size tc) ;;
        put16 info i_exception_handler (ex_handler tc) ;;
        put32 info i_fxsave_state (default 0 (fxsave_state tc)) ;;
        put16 info i_xsave_rfbm (xsave_rfbm tc) ;;
        put32 info i_fxsave_state_len (fxsave_state_len tc) ;;
        ret ESYS_OK
      else ret ESYS_PERM
  end.

(** The part of [handle_sys_update_tcb] that changes the status; [Some code] is
    a return with that code. *)
Definition update_status (tcb info : Z) : M kstate (option Z) :=
  let* status := get8 info i_status in
  if negb (status =? thread_state_num READY) && negb (status =? thread_state_num PAUSED) then ret (Some ESYS_ARG)
  else
    let* r := thread_remove_from_list tcb in
    if is_error r then ret (Some ESYS_FAIL)
    else
      let* failed :=
        (if status =? thread_state_num READY then let* r := thread_start tcb in ret (is_error r)
         else ret false) in
      if failed : bool then ret (Some ESYS_FAIL)
      else
        upd_tcb tcb (λ tc, tc <| thread_state := if status =? thread_state_num READY then READY else PAUSED |>) ;;
        ret None.

Definition update_registers (tcb info : Z) : M kstate unit :=
  let set off (f : Z → ExecutionState → ExecutionState) := let* v := get32 info off in upd_state tcb (f v) in
  let set16 off (f : Z → ExecutionState → ExecutionState) := let* v := get16 info off in upd_state tcb (f v) in
  set i_eax (λ v x, x <| eax := v |>) ;;
  set i_ebx (λ v x, x <| ebx := v |>) ;;
  set i_ecx (λ v x, x <| ecx := v |>) ;;
  set i_edx (λ v x, x <| edx := v |>) ;;
  set i_esi (λ v x, x <| esi := v |>) ;;
  set i_edi (λ v x, x <| edi := v |>) ;;
  set i_ebp (λ v x, x <| ebp := v |>) ;;
  set i_esp (λ v x, x <| user_esp := v |>) ;;
  set i_eflags (λ v x, x <| eflags := v |>) ;;
  set16 i_cs (λ v x, x <| cs := v |>) ;;
  set16 i_ss (λ v x, x <| user_ss := v |>).

Definition handle_sys_update_tcb (local_pde args : Z) : M kstate Z :=
  let* info := get32 args 8 in
  let* tid := get16 args 0 in
  let* o := tcb_arg tid in
  match o with
  | None => ret ESYS_ARG
  | Some tcb =>
      let* tc := tcb_at tcb in
      if decide (thread_state tc = INACTIVE) then ret ESYS_ARG
      else
        let* flags := get32 args 4 in
        let* e := (if IS_FLAG_SET flags TF_STATUS then update_status tcb info else ret None) in
        match e with
        | Some code => ret code
        | None =>
            let* flags := get32 args 4 in
            let* failed :=
              (if IS_FLAG_SET flags TF_ROOT_PMAP then
                 let* p := get32 info i_root_pmap in
                 upd_tcb tcb (λ tc, tc <| root_pmap := p |>) ;;
                 let* r := vm (initialize_root_pmap local_pde p) in
                 ret (is_error r)
               else ret false) in
            if failed : bool then ret ESYS_FAIL
            else
              let* flags := get32 args 4 in
              when (IS_FLAG_SET flags TF_EXT_REG_STATE)
                (let* p := get32 info i_fxsave_state in
                 upd_tcb tcb (λ tc, tc <| fxsave_state := if p =? 0 then None else Some p |>)) ;;
              let* flags := get32 args 4 in
              if IS_FLAG_SET flags TF_REG_STATE then
                update_registers tcb info ;;
                thread_switch_context tcb false
              else ret ESYS_OK
        end
  end.

(** ** Interrupts *)

Definition handle_sys_create_int (args : Z) : M kstate Z :=
  let* c := thread_get_current in
  let* irq := get32 args 0 in
  irq_register c irq.

Definition handle_sys_read_int (args : Z) : M kstate Z :=
  let* c := current in
  let* tc := tcb_at c in
  let* m := get32 args 0 in
  put32 args 0 (Z.land m (Z.land (pending_events tc) (event_mask tc))) ;;
  ret E_OK.

Definition handle_sys_update_int (args : Z) : M kstate Z :=
  let* c := current in
  let* tc := tcb_at c in
  let* m := get32 args 0 in
  let eoi_irqs := Z.land (Z.land (pending_events tc) (event_mask tc)) m in
  upd_tcb c (λ tc, tc <| pending_events ::= λ e, Z.land e (not32 eoi_irqs) |>) ;;
  ret E_OK.

Definition handle_sys_destroy_int (args : Z) : M kstate Z :=
  let* c := thread_get_current in
  let* irq := get32 args 0 in
  let* h := irq_handler irq in
  if decide (c = h) then
    let* irq := get32 args 0 in
    irq_register c irq
  else ret E_PERM.

(** ** Messages and sleep *)

Definition handle_sys_send (args : syscall_args_t) : M kstate Z :=
  let* c := current in
  let recipient_tid := Z.land (arg1 args) 0xFFFF in
  let flags := u16 (Z.shiftr (arg1 args) 16) in
  upd_state c (λ x, x <| user_esp := user_stack args |>) ;;
  upd_state c (λ x, x <| eip := return_address args |>) ;;
  let* r := send_message c recipient_tid (arg2 args) flags (arg3 args) (arg4 args) in
  ret (if r =? E_OK then ESYS_OK
       else if r =? E_INVALID_ARG then ESYS_ARG
       else if r =? E_BLOCK then ESYS_NOTREADY
       else if r =? E_INTERRUPT then ESYS_INT
       else if r =? E_PREEMPT then ESYS_PREEMPT
       else ESYS_FAIL).

Definition handle_sys_receive (args : syscall_args_t) : M kstate Z :=
  let* c := current in
  let sender_tid := Z.land (arg1 args) 0xFFFF in
  let flags := u16 (Z.shiftr (arg1 args) 16) in
  upd_state c (λ x, x <| user_esp := user_stack args |>) ;;
  upd_state c (λ x, x <| eip := return_address args |>) ;;
  let* r := receive_message c sender_tid flags (arg2 args) (arg3 args) in
  ret (if r =? E_OK then ESYS_OK
       else if r =? E_INVALID_ARG then ESYS_ARG
       else if r =? E_BLOCK then ESYS_NOTREADY
       else if r =? E_INTERRUPT then ESYS_INT
       else ESYS_FAIL).

(** What follows a [thread_pause] or a [thread_sleep] with result [r]. *)
Definition sleep_result (r : Z) : M kstate (Z * option Z) :=
  if r =? E_OK then
    let* t := schedule processor_get_current in ret (ESYS_OK, Some t)
  else if r =? E_FAIL then ret (ESYS_FAIL, None)
  else panic.

Definition handle_sys_sleep (args : syscall_args_t) : M kstate Z :=
  let* current_thread := thread_get_current in
  let* '(ret_val, new_thread) :=
    (if arg1 args =? 0 then
       let* t := schedule processor_get_current in
       ret (if decide (Some t = current_thread) then ESYS_FAIL else ESYS_OK, Some t)
     else if arg1 args =? SL_INF_DURATION then
       let* c := nonnull current_thread in
       let* r := thread_pause c in
       sleep_result r
     else
       let* c := current in
       let* r := thread_sleep c (arg1 args) (i32 (arg2 args)) in
       sleep_result r) in
  if ret_val =? ESYS_OK then
    let* t := nonnull new_thread in
    thread_switch_context t true
  else ret ret_val.

(** ** Dispatch *)

Section dispatch.

Context (fuel : nat) (local_pde local_entry : Z).

Definition handle_sys_create (args : syscall_args_t) : M kstate Z :=
  if arg1 args =? RES_TCB then handle_sys_create_tcb local_pde (arg2 args)
  else if arg1 args =? RES_INT then handle_sys_create_int (arg2 args)
  else ret ESYS_NOTIMPL.

Definition handle_sys_read (args : syscall_args_t) : M kstate Z :=
  if arg1 args =? RES_PAGE_MAPPING then handle_sys_read_page_mappings fuel local_entry (arg2 args)
  else if arg1 args =? RES_INT then handle_sys_read_int (arg2 args)
  else if arg1 args =? RES_TCB then handle_sys_read_tcb (arg2 args)
  else ret ESYS_NOTIMPL.

Definition handle_sys_update (args : syscall_args_t) : M kstate Z :=
  if arg1 args =? RES_PAGE_MAPPING then handle_sys_update_page_mappings fuel local_entry (arg2 args)
  else if arg1 args =? RES_INT then handle_sys_update_int (arg2 args)
  else if arg1 args =? RES_TCB then handle_sys_update_tcb local_pde (arg2 args)
  else ret ESYS_NOTIMPL.

Definition handle_sys_destroy (args : syscall_args_t) : M kstate Z :=
  if arg1 args =? RES_TCB then handle_sys_destroy_tcb (arg2 args)
  else if arg1 args =? RES_INT then handle_sys_destroy_int (arg2 args)
  else ret ESYS_NOTIMPL.

Definition syscall_table : list (syscall_args_t → M kstate Z) :=
  [handle_sys_create; handle_sys_read; handle_sys_update; handle_sys_destroy;
   handle_sys_send; handle_sys_sleep; handle_sys_receive].

(** The call through the table in [sysenter_entry]: the low byte of the first
    argument is the index, and it is not compared with the length of the
    table. *)
Definition sysenter_call (args : syscall_args_t) : M kstate Z :=
  let* handler := deref OutOfBounds (syscall_table !! Z.to_nat (Z.land (syscall_arg args) 0xFF)) in
  handler args.

End dispatch.
