(* ===== verification/SyscallSpec.v ===== *)
(** * Interrupts and system calls: properties of kernel/interrupt.c and
      kernel/syscall.c *)

From stdpp Require Import functions.
From S2P Require Import Prelude Bits Machine Paging PagingFacts PagingSpec.
From S2P Require Import Kernel KList Thread ThreadFacts ThreadSpec Message MessageFacts MessageSpec.
From S2P Require Import Interrupt Syscall.

(** ** Reading arguments *)

(** What a word, half word or byte of the current address space holds. *)
Definition holds32 (s : kstate) (p off v : Z) : Prop := uload32 (u32 (p + off)) (mach s) = Ret v (mach s).
Definition holds16 (s : kstate) (p off v : Z) : Prop := uload16 (u32 (p + off)) (mach s) = Ret v (mach s).
Definition holds8 (s : kstate) (p off v : Z) : Prop := vload8 (u32 (p + off)) (mach s) = Ret v (mach s).

Lemma set_mach_same (s : kstate) : s <| mach := mach s |> = s.
Proof. by destruct s. Qed.

Lemma wp_vm_read {A} (m : M machine A) s v (Post : A → kstate → Prop) L :
  m (mach s) = Ret v (mach s) → Post v s → wp (vm m) Post L s.
Proof.
  intros H HP. unfold vm. apply wp_zoom. eapply wp_of_ret; [exact H|]. by rewrite set_mach_same.
Qed.

Lemma wp_get32 s p off v (Post : Z → kstate → Prop) L : holds32 s p off v → Post v s → wp (get32 p off) Post L s.
Proof. apply wp_vm_read. Qed.

Lemma wp_get16 s p off v (Post : Z → kstate → Prop) L : holds16 s p off v → Post v s → wp (get16 p off) Post L s.
Proof. apply wp_vm_read. Qed.

Lemma wp_get8 s p off v (Post : Z → kstate → Prop) L : holds8 s p off v → Post v s → wp (get8 p off) Post L s.
Proof. apply wp_vm_read. Qed.

Lemma holds_mach s s' p off v : mach s' = mach s → holds32 s p off v → holds32 s' p off v.
Proof. unfold holds32. by intros ->. Qed.

(** ** Interrupt handlers *)

Lemma wp_irq_handler s irq h (Post : option Z → kstate → Prop) L :
  irq_handlers s !! irq = Some h → Post h s → wp (irq_handler irq) Post L s.
Proof. intros H HP. unfold irq_handler. wp_step. wp_step. by eapply wp_deref. Qed.

Lemma kinv_upd_quiet t f s Q : quiet f → kinv s Q → kinv (upd t f s) Q.
Proof.
  intros Hf [W I]. split; [apply wf_upd; [apply Hf | done]|].
  rewrite core_upd by apply Hf. by apply ci_upd_quiet.
Qed.

Lemma wp_upd_exact s t tc f (Post : unit → kstate → Prop) L :
  tcb_table s !! t = Some tc → Post tt (upd t f s) → wp (upd_tcb t f) Post L s.
Proof.
  intros Ht HP. unfold upd_tcb. wp_step. eapply wp_tcb_at; [done|]. apply wp_modify. by rewrite upd_insert.
Qed.

Lemma wp_set_irq_handler s irq h h' (Post : unit → kstate → Prop) L :
  irq_handlers s !! irq = Some h → Post tt (s <| irq_handlers ::= insert irq h' |>) →
  wp (set_irq_handler irq h') Post L s.
Proof.
  intros H HP. unfold set_irq_handler. wp_step. eapply wp_irq_handler; [done|]. by apply wp_modify.
Qed.

Lemma testbit_irq_bit irq i : 0 <= irq < 24 → 0 <= i → Z.testbit (irq_bit irq) i = (i =? irq + 8).
Proof.
  intros Hirq Hi. unfold irq_bit, wrap. rewrite Z.shiftl_1_l.
  rewrite Z.mod_small by (split; [apply Z.pow_nonneg; lia | apply Z.pow_lt_mono_r; lia]).
  rewrite Z.pow2_bits_eqb by lia. apply Z.eqb_sym.
Qed.

Lemma testbit_not32 x i : 0 <= i < 32 → Z.testbit (not32 x) i = negb (Z.testbit x i).
Proof. intros Hi. unfold not32, wrap. rewrite Z.mod_pow2_bits_low, Z.lnot_spec by lia. done. Qed.

(** The assignments to the masks when an interrupt is registered. *)
Definition irq_masks (irq : Z) (tc : tcb_t) : tcb_t :=
  tc <| event_mask ::= λ m, Z.lor m (irq_bit irq) |>
     <| pending_events ::= λ m, Z.land m (not32 (irq_bit irq)) |>.

Lemma wp_irq_register s c tc irq (Post : Z → kstate → Prop) L :
  running s 0 = Some (Some c) → tcb_table s !! c = Some tc → irq < 24 → irq_handlers s !! irq = Some None →
  Post E_OK (upd c (irq_masks irq) (s <| irq_handlers ::= insert irq (Some c) |>)) →
  wp (irq_register (Some c) irq) Post L s.
Proof.
  intros Hr Htc Hirq Hh HP. unfold irq_register. rewrite (proj2 (Z.ltb_lt irq 24)) by done.
  wp_step. eapply wp_irq_handler; [done|]. rewrite bool_decide_eq_true_2 by done.
  wp_step. eapply wp_thread_get_current; [done|].
  wp_step. eapply wp_set_irq_handler; [done|].
  wp_step. apply wp_ret. wp_step. eapply wp_upd_exact; [exact Htc|].
  wp_step. eapply wp_upd_exact; [rewrite lookup_upd; simpl; by rewrite Htc|].
  apply wp_ret. rewrite upd_upd. exact HP.
Qed.

(** Registering a free interrupt makes the caller its handler, sets its bit
    in the event mask and clears it in the pending events, and changes nothing
    else of the threads; an interrupt that has a handler, or that does not
    exist, is refused and nothing changes. *)
Theorem irq_register_spec s Q c irq h :
  kinv s Q → running s 0 = Some (Some c) → 0 <= irq →
  (irq < 24 → irq_handlers s !! irq = Some h) →
  (irq < 24 → h = None →
     ∃ tc tc' s', tcb_table s !! c = Some tc ∧ irq_register (Some c) irq s = Ret E_OK s' ∧ kinv s' Q ∧
       irq_handlers s' = <[irq := Some c]> (irq_handlers s) ∧
       tcb_table s' = <[c := tc']> (tcb_table s) ∧
       (∀ i, 0 <= i → Z.testbit (event_mask tc') i = Z.testbit (event_mask tc) i || (i =? irq + 8)) ∧
       (∀ i, 0 <= i < 32 → Z.testbit (pending_events tc') i = Z.testbit (pending_events tc) i && negb (i =? irq + 8))) ∧
  (24 <= irq ∨ h ≠ None → irq_register (Some c) irq s = Ret E_FAIL s).
Proof.
  intros K Hr Hirq Hh. destruct (kinv_running _ _ _ _ K Hr) as (tc & Htc & _). split.
  - intros Hlt ->. exists tc, (irq_masks irq tc). eexists. split; [done|]. split.
    { apply wp_run. intros Post L HP. eapply wp_irq_register; [done | done | lia | auto | exact HP]. }
    split; [|split; [done | split; [|split]]].
    + apply kinv_upd_quiet; [done|]. by apply (kinv_same s).
    + by rewrite <- (upd_insert c (irq_masks irq) _ tc).
    + intros i Hi. change (event_mask (irq_masks irq tc)) with (Z.lor (event_mask tc) (irq_bit irq)).
      rewrite Z.lor_spec, testbit_irq_bit by lia. done.
    + intros i Hi. change (pending_events (irq_masks irq tc)) with (Z.land (pending_events tc) (not32 (irq_bit irq))).
      rewrite Z.land_spec, testbit_not32, testbit_irq_bit by lia. done.
  - intros H. apply wp_run. intros Post L HP. unfold irq_register.
    destruct (irq <? 24) eqn:E; [|done]. apply Z.ltb_lt in E.
    wp_step. eapply wp_irq_handler; [by apply Hh|]. rewrite bool_decide_eq_false_2; [done|].
    destruct H as [H|H]; [lia | done].
Qed.

Lemma irq_register_spec_witness :
  ∃ tc tc' s', tcb_table one_running !! 1 = Some tc ∧ irq_register (Some 1) 3 one_running = Ret E_OK s' ∧
    kinv s' Q5 ∧ tcb_table s' !! 1 = Some tc' ∧ Z.testbit (event_mask tc') 11 = true.
Proof.
  destruct (irq_register_spec one_running Q5 1 3 None) as [H _].
  - apply kinv_one_running.
  - vm_compute. reflexivity.
  - lia.
  - intros _. vm_compute. reflexivity.
  - destruct H as (tc & tc' & s' & H1 & H2 & H3 & _ & H5 & H6 & _); [lia | reflexivity|].
    exists tc, tc', s'. split; [exact H1 | split; [exact H2 | split; [exact H3 | split]]].
    + rewrite H5. apply lookup_insert_eq.
    + rewrite H6 by lia. apply orb_true_r.
Defined.

(** A registered interrupt is not delivered: the handler tests bit 0 of the
    event mask for interrupt 0, where registration sets bit 8.  After a
    successful registration by a thread without event bit 0, the interrupt
    leaves the state as it is. *)
Theorem registered_irq_not_delivered s Q c tc :
  kinv s Q → running s 0 = Some (Some c) → irq_handlers s !! 0 = Some None →
  tcb_table s !! c = Some tc → Z.testbit (event_mask tc) 0 = false →
  ∃ s', irq_register (Some c) 0 s = Ret E_OK s' ∧ irq_handlers s' !! 0 = Some (Some c) ∧ handle_irq s' = Ret tt s'.
Proof.
  intros K Hr Hh Htc Hbit. eexists. split; [|split].
  - apply wp_run. intros Post L HP. eapply wp_irq_register; [done | done | lia | done | exact HP].
  - apply lookup_insert_eq.
  - apply wp_run. intros Post L HP. unfold handle_irq. wp_step. eapply wp_irq_handler; [apply lookup_insert_eq|].
    cbv beta iota zeta. wp_step. eapply wp_tcb_at; [rewrite lookup_upd; simpl; by rewrite Htc|].
    replace (Z.land _ _ =? 0) with true; [exact HP|]. symmetry. apply Z.eqb_eq.
    change (event_mask (irq_masks 0 tc)) with (Z.lor (event_mask tc) (irq_bit 0)). apply Z.bits_inj'. intros i Hi.
    rewrite Z.bits_0, Z.land_spec, Z.lor_spec, testbit_irq_bit by lia.
    destruct (decide (i = 0)) as [->|Hne]; [by rewrite Hbit|].
    change (u32 (Z.shiftl 1 0)) with (2 ^ 0). by rewrite Z.pow2_bits_false.
Qed.

Lemma registered_irq_not_delivered_witness :
  ∃ s', irq_register (Some 1) 0 one_running = Ret E_OK s' ∧ handle_irq s' = Ret tt s'.
Proof.
  assert (∃ tc, tcb_table one_running !! 1 = Some tc ∧ event_mask tc = 0 ∧ priority tc = 2)
    as (tc & H1 & H2 & _) by lookup_block.
  destruct (registered_irq_not_delivered one_running Q5 1 tc) as (s' & E1 & _ & E2).
  - apply kinv_one_running.
  - vm_compute. reflexivity.
  - vm_compute. reflexivity.
  - exact H1.
  - rewrite H2. reflexivity.
  - exists s'. split; [exact E1 | exact E2].
Defined.

(** An interrupt is never given back: for its handler the system call that
    should release it answers [E_FAIL], for anyone else [E_PERM], and nothing
    changes. *)
Theorem destroy_int_keeps s Q c args irq h :
  kinv s Q → running s 0 = Some (Some c) → holds32 s args 0 irq → irq < 24 → irq_handlers s !! irq = Some h →
  handle_sys_destroy_int args s = Ret (if decide (h = Some c) then E_FAIL else E_PERM) s.
Proof.
  intros K Hr Ha Hlt Hh. apply wp_run. intros Post L HP. unfold handle_sys_destroy_int.
  wp_step. eapply wp_thread_get_current; [done|]. wp_step. eapply wp_get32; [done|].
  wp_step. eapply wp_irq_handler; [done|]. destruct (decide (Some c = h)) as [<-|Hne].
  - wp_step. eapply wp_get32; [done|]. unfold irq_register. rewrite (proj2 (Z.ltb_lt irq 24)) by done.
    wp_step. eapply wp_irq_handler; [done|]. rewrite bool_decide_eq_false_2 by done.
    by rewrite decide_True in HP.
  - by rewrite decide_False in HP by congruence.
Qed.

Lemma destroy_int_keeps_witness :
  handle_sys_destroy_int 0x5020 one_running = Ret E_PERM one_running.
Proof.
  apply (destroy_int_keeps one_running Q5 1 0x5020 0 None).
  - apply kinv_one_running.
  - vm_compute. reflexivity.
  - vm_compute. reflexivity.
  - lia.
  - vm_compute. reflexivity.
Defined.

(** ** Changing the status of a thread *)

(** What [update_status] leaves behind: the new status, and no queue. *)
Definition unqueued (s : kstate) (t : Z) (st : thread_state_t) : Prop :=
  (∃ tc, tcb_table s !! t = Some tc ∧ thread_state tc = st) ∧ ∀ Q q, wf s Q → t ∉ Q q.

Lemma unqueued_no_kinv s t st :
  unqueued s t st → st = READY ∨ st = PAUSED → ∀ Q, ¬ kinv s Q.
Proof.
  intros [(tc & Ht & Hs) Hq] Hst Q K.
  assert (∃ q, home tc = Some q) as [q Hh] by (unfold home; rewrite Hs; destruct Hst as [-> | ->]; eauto).
  apply (Hq Q q (proj1 K)). by apply (kinv_home _ _ _ _ _ K Ht).
Qed.

Lemma wp_thread_start_done s t tc (Post : Z → kstate → Prop) L :
  tcb_table (core s) !! t = Some tc → thread_state tc = READY ∨ thread_state tc = RUNNING →
  Post E_DONE s → wp (thread_start t) Post L s.
Proof.
  intros (tc0 & Ht & ->)%core_lookup_Some Hs HP. unfold thread_start. wp_step. eapply wp_tcb_at; [done|].
  change (thread_state (core_tcb tc0)) with (thread_state tc0) in Hs. by destruct Hs as [-> | ->].
Qed.

Lemma detach_mach t st c : mach (detach t st c) = mach c.
Proof. by destruct st. Qed.

Lemma detach_state t st c tc :
  tcb_table c !! t = Some tc → ∃ tc', tcb_table (detach t st c) !! t = Some tc' ∧ thread_state tc' = thread_state tc.
Proof.
  intros H. destruct st; simpl detach; try (exists tc; by split);
    (eexists; split; [rewrite lookup_upd, H; simpl; reflexivity | done]).
Qed.

Lemma wp_update_status s Q t tc info st (Post : option Z → kstate → Prop) L :
  kinv s Q → 0 < t < NUM_TCBS → tcb_table s !! t = Some tc → removable (thread_state tc) →
  st = PAUSED ∨ st = READY ∧ (thread_state tc = READY ∨ thread_state tc = RUNNING) →
  holds8 s info i_status (thread_state_num st) →
  (∀ s', mach s' = mach s → unqueued s' t st → Post None s') →
  wp (update_status t info) Post L s.
Proof.
  intros K Ht Htc Hrem Hst Hi HP. unfold update_status. wp_step. eapply wp_get8; [done|].
  replace (negb _ && negb _) with false by (by destruct Hst as [-> | [-> _]]).
  wp_step. eapply wp_thread_remove_from_list; [done | lia | done | done |]. intros s1 W1 C1.
  change (is_error E_OK) with false. cbv iota.
  destruct (detach_state t (thread_state tc) (core s) (core_tcb tc)) as (tc1 & Htc1 & Hs1);
    [by rewrite core_lookup, Htc|]. rewrite <- C1 in Htc1.
  wp_step. apply (wp_mono _ (λ b s', b = false ∧ s' = s1) _ (λ _, False)); [| |done].
  { destruct Hst as [-> | [-> Hst]]; [done|]. rewrite Z.eqb_refl. wp_step.
    eapply wp_thread_start_done; [exact Htc1 | by rewrite Hs1 | done]. }
  intros ? ? [-> ->]. cbv iota. wp_step. eapply wp_upd_tcb; [done | done | lia |].
  intros s2 W2 C2. apply wp_ret. apply HP.
  { change (mach (core s2) = mach (core s)). rewrite C2, C1. apply detach_mach. }
  split.
  - assert (tcb_table (core s2) !! t = Some (tc1 <| thread_state := st |>)) as H.
    { rewrite C2, lookup_upd, Htc1. simpl. by destruct Hst as [-> | [-> _]]. }
    apply core_lookup_Some in H as (tc2 & H2 & E2). exists tc2. split; [done|].
    change (thread_state (core_tcb tc2) = st). by rewrite <- E2.
  - intros Q' q W'. rewrite (qwf_unique _ _ _ _ q W' W2). intros [_ H]%elem_of_Qdel. done.
Qed.

(** Changing the status of a thread loses it: [handle_sys_update_tcb] takes
    the thread out of its queue and, when the new status is paused, or ready
    for a thread that was ready or running, puts it into no other.  The call
    reports success; no queues agree with the thread table any more. *)
Theorem update_tcb_status_strands s Q t tc local_pde args info st :
  kinv s Q → 0 < t < NUM_TCBS → tcb_table s !! t = Some tc → removable (thread_state tc) →
  st = PAUSED ∨ st = READY ∧ (thread_state tc = READY ∨ thread_state tc = RUNNING) →
  holds16 s args 0 t → holds32 s args 4 TF_STATUS → holds32 s args 8 info →
  holds8 s info i_status (thread_state_num st) →
  ∃ s', handle_sys_update_tcb local_pde args s = Ret ESYS_OK s' ∧ unqueued s' t st ∧ ∀ Q', ¬ kinv s' Q'.
Proof.
  intros K Ht Htc Hrem Hst H0 H4 H8 Hi.
  destruct (wp_ret_inv (handle_sys_update_tcb local_pde args) (λ e s', e = ESYS_OK ∧ unqueued s' t st) s)
    as (e & s' & E & -> & U).
  2: { exists s'. split; [done | split; [done|]]. eapply unqueued_no_kinv; [done|].
       destruct Hst as [-> | [-> _]]; auto. }
  unfold handle_sys_update_tcb. wp_step. eapply wp_get32; [done|]. wp_step. eapply wp_get16; [done|].
  wp_step. unfold tcb_arg. replace (t =? NULL_TID) with false by (unfold NULL_TID; lia).
  apply wp_ret. rewrite get_tcb_some by lia. wp_step. eapply wp_tcb_at; [done|].
  rewrite decide_False by apply Hrem.
  wp_step. eapply wp_get32; [done|]. change (IS_FLAG_SET TF_STATUS TF_STATUS) with true. cbv iota.
  wp_step. eapply wp_update_status; [done | done | done | done | done | done |].
  intros s1 M1 U1. pose proof (holds_mach _ _ _ _ _ M1 H4) as H4'.
  wp_step. eapply wp_get32; [done|]. change (IS_FLAG_SET TF_STATUS TF_ROOT_PMAP) with false. cbv iota.
  wp_step. apply wp_ret. cbv iota.
  wp_step. eapply wp_get32; [done|]. change (IS_FLAG_SET TF_STATUS TF_EXT_REG_STATE) with false.
  wp_step. apply wp_ret. wp_step. eapply wp_get32; [done|]. by apply wp_ret.
Qed.

(** Arguments in memory: the structure at 0x5000 asks to pause thread 2, with the
    status in the information at 0x5100. *)
Definition put_update_args : M kstate unit :=
  vm (ustore16 0x5000 2) ;;
  vm (ustore32 0x5004 TF_STATUS) ;;
  vm (ustore32 0x5008 0x5100) ;;
  vm (vstore8 0x5138 (thread_state_num PAUSED)).

Definition update_called : kstate := after put_update_args one_running.

Lemma kinv_update_called : kinv update_called Q5.
Proof.
  apply (kinv_same one_running); [|apply kinv_one_running].
  unfold same_threads. do 5 (split; [vm_compute; reflexivity|]). vm_compute. reflexivity.
Qed.

Lemma update_tcb_status_strands_witness :
  ∃ s', handle_sys_update_tcb 0x5004 0x5000 update_called = Ret ESYS_OK s' ∧ ∀ Q', ¬ kinv s' Q'.
Proof.
  assert (∃ tc, tcb_table update_called !! 2 = Some tc ∧ thread_state tc = READY ∧ priority tc = 2)
    as (tc & H1 & H2 & _) by lookup_block.
  destruct (update_tcb_status_strands update_called Q5 2 tc 0x5004 0x5000 0x5100 PAUSED) as (s' & E & _ & H).
  - apply kinv_update_called.
  - unfold NUM_TCBS. lia.
  - exact H1.
  - rewrite H2. split; discriminate.
  - left. reflexivity.
  - vm_compute. reflexivity.
  - vm_compute. reflexivity.
  - vm_compute. reflexivity.
  - vm_compute. reflexivity.
  - exists s'. split; [exact E | exact H].
Defined.

(** ** Page mappings *)

Lemma set_bit_0 e i b : 0 < i → bit (set_bit e i b) 0 = bit e 0.
Proof. intros H. apply bit_set_ne; lia. Qed.

Lemma set_bits_0 e i n x : 0 < i → 0 < n → bit (set_bits e i n x) 0 = bit e 0.
Proof. intros H1 H2. apply bit_set_bits_ne; lia. Qed.

(** None of the assignments reaches the present bit. *)
Lemma set_entry_present flags frame a e :
  bit (set_page_table_entry flags frame a e) 0 = bit e 0 ∧
  bit (set_page_entry flags frame a e) 0 = bit e 0 ∧
  bit (set_large_page_entry flags frame a e) 0 = bit e 0.
Proof.
  unfold set_page_table_entry, set_page_entry, set_large_page_entry. cbv zeta.
  rewrite !set_bit_0, !set_bits_0, !set_bit_0, ?set_bits_0, ?set_bit_0 by lia. auto.
Qed.

(** The system call never maps anything: whatever the mapping asks for, the
    entry it writes is present only if the entry it replaces was. *)
Theorem update_never_maps m level e was s e' stop was' s' :
  new_entry m level e was s = Ret (Some (e', stop, was')) s' → bit e' 0 = true → bit e 0 = true.
Proof.
  unfold new_entry. intros H. apply bind_inv in H as (type & s1 & _ & H).
  apply bind_inv in H as (flags & s2 & _ & H). apply bind_inv in H as (frame & s3 & _ & H). revert H.
  destruct (set_entry_present flags frame (Z.shiftr (Z.land flags PM_AVAIL_MASK) PM_AVAIL_OFFSET) e) as (H1 & H2 & H3).
  cbv zeta. set (a := Z.shiftr _ _) in *. unfold ret.
  repeat case_match; try (by intros [= <- _ _ _]); try congruence.
  - intros [= <- _ _ _]. unfold bit, wrap. by rewrite Z.mod_pow2_bits_low, Z.shiftl_spec_low by lia.
  - intros Hc. apply bind_inv in Hc as (n & s4 & _ & Hc). destruct (negb (n =? 1)); [done|]. congruence.
Qed.

(** A mapping of a writable large page at frame 0x800, in user memory. *)
Definition put_mapping : M kstate unit :=
  vm (ustore32 0x5000 PMT_PAGE) ;;
  vm (ustore32 0x5004 0) ;;
  vm (ustore32 0x5008 0x800).

Lemma update_never_maps_witness :
  new_entry 0x5000 0 0x83 false (after put_mapping one_running) =
    Ret (Some (0x800087, true, true)) (after put_mapping one_running) ∧ bit 0x83 0 = true.
Proof.
  assert (new_entry 0x5000 0 0x83 false (after put_mapping one_running) =
    Ret (Some (0x800087, true, true)) (after put_mapping one_running)) as E by (vm_compute; reflexivity).
  split; [exact E|]. apply (update_never_maps _ _ _ _ _ _ _ _ _ E). reflexivity.
Defined.

(** A call at level 0: the loop over levels runs no round. *)
Lemma wp_update_loop_level0 fuel : ∀ s args mappings i virt dir e count (Post : Z → kstate → Prop) L,
  holds32 s args map_level 0 → holds32 s args map_count count → 0 <= i <= count → count < 2 ^ 32 →
  count - i < Z.of_nat fuel → Post (i32 count) s →
  wp (update_page_mappings_loop fuel args mappings i virt dir e) Post L s.
Proof.
  induction fuel as [|fuel IH]; intros s args mappings i virt dir e count Post L Hl Hc Hi Hlt Hf HP; [lia|].
  cbn [update_page_mappings_loop]. wp_step. eapply wp_get32; [done|].
  destruct (i <? count) eqn:E.
  - wp_step. unfold LEVEL_FUEL. cbn [update_mapping_levels]. wp_step. eapply wp_get32; [done|].
    change (0 <? i32 0) with false. cbv iota. apply wp_ret.
    wp_step. eapply wp_get32; [done|]. rewrite (wrap_small 32 (i + 1)) by lia.
    eapply IH; [done | done | lia | lia | lia | done].
  - assert (i = count) as -> by lia. by apply wp_ret.
Qed.

Lemma wp_read_loop_level0 fuel : ∀ s args mappings i virt dir e count (Post : Z → kstate → Prop) L,
  holds32 s args map_level 0 → holds32 s args map_count count → 0 <= i <= count → count < 2 ^ 32 →
  count - i < Z.of_nat fuel → Post (i32 count) s →
  wp (read_page_mappings_loop fuel args mappings i virt dir e) Post L s.
Proof.
  induction fuel as [|fuel IH]; intros s args mappings i virt dir e count Post L Hl Hc Hi Hlt Hf HP; [lia|].
  cbn [read_page_mappings_loop]. wp_step. eapply wp_get32; [done|].
  destruct (i <? count) eqn:E.
  - wp_step. unfold LEVEL_FUEL. cbn [read_mapping_levels]. wp_step. eapply wp_get32; [done|].
    change (0 <? i32 0) with false. cbv iota. apply wp_ret.
    wp_step. eapply wp_get32; [done|]. rewrite (wrap_small 32 (i + 1)) by lia.
    eapply IH; [done | done | lia | lia | lia | done].
  - assert (i = count) as -> by lia. by apply wp_ret.
Qed.

(** Mappings of the directory level are ignored: with [level] 0 both calls
    report that they handled every mapping, and neither reads an entry nor
    writes one: the state is the same. *)
Theorem page_mappings_level0 s args mappings a virt count fuel e :
  holds32 s args map_mappings mappings → mappings ≠ 0 → holds32 s args map_level 0 →
  holds32 s args map_addr_space a → a ≠ CURRENT_ROOT_PMAP → holds32 s args map_virt virt →
  holds32 s args map_count count → 0 <= count < 2 ^ 32 → count < Z.of_nat fuel →
  handle_sys_update_page_mappings fuel e args s = Ret (i32 count) s ∧
  handle_sys_read_page_mappings fuel e args s = Ret (i32 count) s.
Proof.
  intros Hm Hm0 Hl Ha Ha0 Hv Hc Hcr Hf.
  split; apply wp_run; intros Post L HP;
    unfold handle_sys_update_page_mappings, handle_sys_read_page_mappings;
    (wp_step; eapply wp_get32; [done|]); replace (mappings =? 0) with false by lia;
    (wp_step; eapply wp_get32; [done|]); change (N_PM_LEVELS <=? i32 0) with false; cbv iota;
    (wp_step; eapply wp_get32; [done|]); replace (a =? CURRENT_ROOT_PMAP) with false by lia;
    wp_step; apply wp_ret; (wp_step; eapply wp_get32; [done|]); (wp_step; eapply wp_get32; [done|]).
  - by eapply wp_update_loop_level0; [done | done | lia | lia | lia |].
  - by eapply wp_read_loop_level0; [done | done | lia | lia | lia |].
Qed.

(** Arguments at 0x5000 for two mappings at 0x5100, level 0, in the space 0x1000. *)
Definition put_map_args : M kstate unit :=
  vm (ustore32 0x5000 0x400000) ;;
  vm (ustore32 0x5004 2) ;;
  vm (ustore32 0x5008 0x1000) ;;
  vm (ustore32 0x500C 0x5100) ;;
  vm (ustore32 0x5010 0).

Definition map_called : kstate := after put_map_args one_running.

Lemma page_mappings_level0_witness :
  handle_sys_update_page_mappings 3 0 0x5000 map_called = Ret 2 map_called ∧
  handle_sys_read_page_mappings 3 0 0x5000 map_called = Ret 2 map_called.
Proof.
  apply (page_mappings_level0 map_called 0x5000 0x5100 0x1000 0x400000 2 3 0);
    [vm_compute; reflexivity | lia | vm_compute; reflexivity | vm_compute; reflexivity |
     unfold CURRENT_ROOT_PMAP; lia | vm_compute; reflexivity | vm_compute; reflexivity | lia | lia].
Defined.
