(* ===== verification/Numbers.v ===== *)
(** * Numbers and characters: lib/libc/ctype/ctype.c, stdlib/itoa.c,
      stdlib/strtol.c

    Characters are codes, a C string is the list of its characters without the
    final NUL.  The conversions to text write into a caller's buffer: their
    state is the list of the characters written from the start of the buffer,
    which is taken to be large enough.  [int] and [long] have 32 bits, [long
    long] has 64, and arithmetic on signed types wraps around. *)

From S2P Require Import Prelude.

(** ** Character classes *)

Definition isupper (c : Z) : bool := (65 <=? c) && (c <=? 90).
Definition islower (c : Z) : bool := (97 <=? c) && (c <=? 122).
Definition isalpha (c : Z) : bool := isupper c || islower c.
Definition isdigit (c : Z) : bool := (48 <=? c) && (c <=? 57).
Definition isalnum (c : Z) : bool := isalpha c || isdigit c.
Definition iscntrl (c : Z) : bool := (0x00 <=? c) && (c <=? 0x1F) || (c =? 0x7F).
Definition isspace (c : Z) : bool := (c =? 0x20) || (0x09 <=? c) && (c <=? 0x0D).
Definition isxdigit (c : Z) : bool := isdigit c || (65 <=? c) && (c <=? 70) || (97 <=? c) && (c <=? 102).
Definition isprint (c : Z) : bool := negb (iscntrl c).
Definition ispunct (c : Z) : bool :=
  (0x21 <=? c) && (c <=? 0x2F) || (0x3a <=? c) && (c <=? 0x40) ||
  (0x5b <=? c) && (c <=? 0x60) || (0x7b <=? c) && (c <=? 0x7e).
Definition isgraph (c : Z) : bool := isprint c && negb (c =? 32).
Definition tolower (c : Z) : Z := if isupper c then c - (65 - 97) else c.
Definition toupper (c : Z) : Z := if islower c then c + (65 - 97) else c.

(** ** Numbers to text *)

(** The digits, as the string constant [_digits]. *)
Definition digits : list Z :=
  [48; 49; 50; 51; 52; 53; 54; 55; 56; 57; 97; 98; 99; 100; 101; 102; 103; 104; 105; 106; 107; 108;
   109; 110; 111; 112; 113; 114; 115; 116; 117; 118; 119; 120; 121; 122].

Definition INT_MIN : Z := - 2 ^ 31.
Definition LLONG_MIN : Z := - 2 ^ 63.
Definition INT_MIN_STR : list Z := [45; 50; 49; 52; 55; 52; 56; 51; 54; 52; 56].
Definition LLONG_MIN_STR : list Z :=
  [45; 57; 50; 50; 51; 51; 55; 50; 48; 51; 54; 56; 53; 52; 55; 55; 53; 56; 48; 56].

Abbreviation text := (list Z).

(** [_digits[i]] and [str[strEnd++] = c]. *)
Definition digit (i : Z) : M text Z :=
  if i <? 0 then fail OutOfBounds else deref OutOfBounds (digits !! Z.to_nat i).
Definition emit (c : Z) : M text unit := modify (λ s, s ++ [c]).

(** [str[i]] and [str[i] = c] within the characters written. *)
Definition char_at (i : nat) : M text Z := let* s := gets id in deref OutOfBounds (s !! i).
Definition set_char (i : nat) (c : Z) : M text unit := modify (λ s, <[i := c]> s).

(** The loop that reverses [str] up to [strEnd]. *)
Fixpoint reverse_loop (fuel : nat) (i strEnd : nat) : M text unit :=
  match fuel with
  | O => fail OutOfFuel
  | S fuel =>
      if decide (i < strEnd)%nat then
        let* tmp := char_at i in
        let* c := char_at strEnd in
        set_char i c ;;
        set_char strEnd tmp ;;
        reverse_loop fuel (S i) (strEnd - 1)
      else ret tt
  end.

(** The common end of the conversions: count, reverse, return the count. *)
Definition finish : M text Z :=
  let* s := gets id in
  let charsWritten := length s in
  (match charsWritten with
   | O => ret tt
   | S strEnd => reverse_loop (S charsWritten) 0 strEnd
   end) ;;
  ret (Z.of_nat charsWritten).

Definition bad_base (base : Z) : bool := (base <? 2) || (36 <? base).

(** The digits of an unsigned value of [w] bits, least significant first. *)
Fixpoint udigits_loop (w : Z) (fuel : nat) (value base : Z) : M text unit :=
  match fuel with
  | O => fail OutOfFuel
  | S fuel =>
      let quot := wrap w (base * (value / base)) in
      let* c := digit (wrap w (value - quot)) in
      emit c ;;
      let value := quot / base in
      if value =? 0 then ret tt else udigits_loop w fuel value base
  end.

(** A value of [w] bits has at most [w] digits. *)
Definition DIGITS32 : nat := 32.

Definition _uitostr (value base : Z) : M text Z :=
  if bad_base base then ret (-1)
  else udigits_loop 32 DIGITS32 value base ;; finish.

Definition _ulitostr (value base : Z) : M text Z :=
  if bad_base base then ret (-1)
  else udigits_loop 32 DIGITS32 value base ;; finish.

(** [value] is the [int]; in the loop it is used as an [unsigned int]. *)
Definition _itostr (value base : Z) : M text Z :=
  if bad_base base then ret (-1)
  else
    let negative := (base =? 10) && (value <? 0) in
    if negative && (value =? INT_MIN) then
      modify (λ _, INT_MIN_STR) ;; ret (Z.of_nat (length INT_MIN_STR))
    else
      let value := if negative then i32 (Z.lnot value + 1) else value in
      udigits_loop 32 DIGITS32 (u32 value) base ;;
      when negative (emit 45) ;;
      finish.

(** The loop of [_litostr] divides the signed value. *)
Fixpoint sdigits_loop (fuel : nat) (value base : Z) : M text unit :=
  match fuel with
  | O => fail OutOfFuel
  | S fuel =>
      let quot := i32 (base * (value `quot` base)) in
      let* c := digit (i32 (value - quot)) in
      emit c ;;
      let value := quot `quot` base in
      if value =? 0 then ret tt else sdigits_loop fuel value base
  end.

Definition _litostr (value base : Z) : M text Z :=
  if bad_base base then ret (-1)
  else
    let negative := (base =? 10) && (value <? 0) in
    if negative && (value =? INT_MIN) then
      modify (λ _, INT_MIN_STR) ;; ret (Z.of_nat (length INT_MIN_STR))
    else
      let value := if negative then i32 (Z.lnot value + 1) else value in
      sdigits_loop DIGITS32 value base ;;
      when negative (emit 45) ;;
      finish.

(** The two halves of a [long long], low half first. *)
Definition halves_loop (lo hi base : Z) : M text unit :=
  udigits_loop 32 DIGITS32 lo base ;;
  if hi =? 0 then ret tt else udigits_loop 32 DIGITS32 hi base.

Definition _ullitostr (value base : Z) : M text Z :=
  let lo := Z.land value 0xFFFFFFFF in
  let hi := u32 (Z.shiftr value 32) in
  if bad_base base then ret (-1)
  else halves_loop lo hi base ;; finish.

Definition _llitostr (value base : Z) : M text Z :=
  let negative := (base =? 10) && (value <? 0) in
  let lo := u32 (Z.land value 0xFFFFFFFF) in
  let hi := u32 (Z.shiftr value 32) in
  if bad_base base then ret (-1)
  else if negative && (value =? LLONG_MIN) then
    modify (λ _, LLONG_MIN_STR) ;; ret (Z.of_nat (length LLONG_MIN_STR))
  else
    halves_loop lo hi base ;;
    when negative (emit 45) ;;
    finish.

(** ** Text to numbers *)

Inductive strtotypeType := TYPE_INT | TYPE_UINT | TYPE_LONG | TYPE_ULONG | TYPE_LLONG | TYPE_ULLONG.

(** Assignment to the member of the union that belongs to a type. *)
Definition store_type (t : strtotypeType) (v : Z) : Z :=
  match t with
  | TYPE_INT | TYPE_LONG => i32 v
  | TYPE_UINT | TYPE_ULONG => u32 v
  | TYPE_LLONG => signed 64 v
  | TYPE_ULLONG => u64 v
  end.

(** [*nptr] and [nptr++]; the end of the list is the NUL. *)
Definition cur (nptr : text) : Z := default 0 (head nptr).

Fixpoint skip_spaces (nptr : text) : text :=
  match nptr with
  | c :: rest => if isspace c then skip_spaces rest else nptr
  | [] => []
  end.

Definition skip_sign (nptr : text) : bool * text :=
  if cur nptr =? 45 then (true, tail nptr)
  else if cur nptr =? 43 then (false, tail nptr)
  else (false, nptr).

Definition detect_base (base : Z) (nptr : text) : Z * text :=
  if base =? 0 then
    if cur nptr =? 48 then
      let nptr := tail nptr in
      if tolower (cur nptr) =? 120 then (16, tail nptr) else (8, nptr)
    else (10, nptr)
  else (base, nptr).

Definition digit_value (c : Z) : Z := if isdigit c then c - 48 else tolower c - 97 + 10.

(** The loop over the digits: the value, and where it stopped if that was not
    the end of the string. *)
Fixpoint convert (t : strtotypeType) (base : Z) (nptr : text) (num : Z) : Z * option text :=
  match nptr with
  | [] => (num, None)
  | c :: rest =>
      if c =? 0 then (num, None)
      else if negb (isalnum c) then (num, Some nptr)
      else if base <=? digit_value c then (num, Some nptr)
      else convert t base rest (store_type t (num * base + digit_value c))
  end.

(** The result and the value stored in [*endptr], if any is.  The result for a
    base out of range is [junk], the uninitialised [num]. *)
Definition strtotype (junk : Z) (nptr : text) (base : Z) (t : strtotypeType) : Z * option text :=
  if negb ((base =? 0) || (2 <=? base) && (base <=? 36)) then (store_type t junk, Some nptr)
  else
    let nptr := skip_spaces nptr in
    let '(isNeg, nptr) := skip_sign nptr in
    let '(base, nptr) := detect_base base nptr in
    match convert t base nptr 0 with
    | (num, None) => (num, None)
    | (num, Some nptr) => (store_type t (if isNeg : bool then - num else num), Some nptr)
    end.

Definition atoi (junk : Z) (nptr : text) : Z := fst (strtotype junk nptr 10 TYPE_INT).
Definition atol (junk : Z) (nptr : text) : Z := fst (strtotype junk nptr 10 TYPE_LONG).
Definition atoll (junk : Z) (nptr : text) : Z := fst (strtotype junk nptr 10 TYPE_LLONG).
Definition strtol (junk : Z) (nptr : text) (base : Z) : Z * option text := strtotype junk nptr base TYPE_LONG.
Definition strtoul (junk : Z) (nptr : text) (base : Z) : Z * option text := strtotype junk nptr base TYPE_ULONG.
Definition strtoll (junk : Z) (nptr : text) (base : Z) : Z * option text := strtotype junk nptr base TYPE_LLONG.
Definition strtoull (junk : Z) (nptr : text) (base : Z) : Z * option text := strtotype junk nptr base TYPE_ULLONG.
