(* ===== verification/NumbersSpec.v ===== *)
(** * Numbers and characters: properties of the conversions

    The conversions to text are compared with the value a text denotes in a
    base, and the conversions from text with the same reference. *)

From S2P Require Import Prelude Numbers.

(** ** Reference: the number a text denotes *)

Definition number (base : Z) (cs : text) : Z := foldl (λ n c, n * base + digit_value c) 0 cs.

(** A digit of the base, in the form the conversions write it. *)
Definition is_digit_of (base c : Z) : Prop := ∃ d, 0 <= d < base ∧ digits !! Z.to_nat d = Some c.

(** The canonical text of [v]: right digits, right value, no leading zero. *)
Definition denotes (base : Z) (cs : text) (v : Z) : Prop :=
  Forall (is_digit_of base) cs ∧ number base cs = v ∧ (v = 0 ∧ cs = [48] ∨ 0 < v ∧ head cs ≠ Some 48 ∧ cs ≠ []).

Lemma digits_value_all :
  Forall (λ d, ∃ c, digits !! Z.to_nat d = Some c ∧ digit_value c = d ∧ isalnum c = true ∧ c ≠ 0 ∧
    isspace c = false ∧ c ≠ 45 ∧ c ≠ 43 ∧ (d ≠ 0 → c ≠ 48)) (seqZ 0 36).
Proof. repeat constructor; eexists; (split; [reflexivity|]); vm_compute; repeat split; done || lia. Qed.

Lemma digits_value d :
  0 <= d < 36 → ∃ c, digits !! Z.to_nat d = Some c ∧ digit_value c = d ∧ isalnum c = true ∧ c ≠ 0 ∧
    isspace c = false ∧ c ≠ 45 ∧ c ≠ 43 ∧ (d ≠ 0 → c ≠ 48).
Proof.
  intros H. pose proof digits_value_all as HA. rewrite Forall_forall in HA. apply HA. apply elem_of_seqZ. lia.
Qed.

(** ** Reversal in place *)

Lemma wp_char_at s i c (Q : Z → text → Prop) L : s !! i = Some c → Q c s → wp (char_at i) Q L s.
Proof. intros H HQ. unfold char_at. wp_step. wp_step. by eapply wp_deref. Qed.

Lemma wp_reverse_loop fuel : ∀ pre mid post (Q : unit → text → Prop) L,
  (length mid < 2 * fuel)%nat → Q tt (pre ++ reverse mid ++ post) →
  wp (reverse_loop fuel (length pre) (length pre + length mid - 1)) Q L (pre ++ mid ++ post).
Proof.
  induction fuel as [|fuel IH]; intros pre mid post Q L Hf HQ; [lia|]. cbn [reverse_loop].
  destruct mid as [|x mid].
  { rewrite decide_False by (simpl; lia). by apply wp_ret. }
  destruct mid as [|y mid _] using rev_ind.
  { rewrite decide_False by (simpl; lia). by apply wp_ret. }
  assert (length (x :: mid ++ [y]) = S (S (length mid))) as Hlen by (simpl; rewrite length_app; simpl; lia).
  rewrite Hlen in *. rewrite decide_True by lia.
  wp_step. eapply wp_char_at; [rewrite lookup_app_r by lia; by rewrite Nat.sub_diag|].
  wp_step. eapply wp_char_at.
  { replace (length pre + S (S (length mid)) - 1)%nat with (length (pre ++ x :: mid)) by (rewrite length_app; simpl; lia).
    replace (pre ++ (x :: mid ++ [y]) ++ post) with ((pre ++ x :: mid) ++ y :: post) by (by rewrite <- !app_assoc; simpl; rewrite <- app_assoc).
    by rewrite lookup_app_r, Nat.sub_diag by lia. }
  wp_step. apply wp_modify. wp_step. apply wp_modify.
  replace (<[(length pre + S (S (length mid)) - 1)%nat := x]> (<[length pre := y]> (pre ++ (x :: mid ++ [y]) ++ post)))
    with ((pre ++ [y]) ++ mid ++ (x :: post)).
  2: { rewrite insert_app_r_alt, Nat.sub_diag by lia. simpl.
       rewrite insert_app_r_alt by lia. rewrite <- app_assoc. simpl. f_equal.
       replace (length pre + S (S (length mid)) - 1 - length pre)%nat with (S (length mid)) by lia. simpl. f_equal.
       rewrite <- !app_assoc. simpl. by rewrite insert_app_r_alt, Nat.sub_diag by lia. }
  replace (S (length pre)) with (length (pre ++ [y])) by (rewrite length_app; simpl; lia).
  replace (length pre + S (S (length mid)) - 1 - 1)%nat with (length (pre ++ [y]) + length mid - 1)%nat
    by (rewrite length_app; simpl; lia).
  apply IH; [lia|]. replace ((pre ++ [y]) ++ reverse mid ++ x :: post) with (pre ++ reverse (x :: mid ++ [y]) ++ post); [done|].
  rewrite reverse_cons, reverse_app. simpl. by rewrite <- !app_assoc.
Qed.

Lemma wp_finish s (Q : Z → text → Prop) L :
  Q (Z.of_nat (length s)) (reverse s) → wp finish Q L s.
Proof.
  intros HQ. unfold finish. wp_step. wp_step. cbv zeta. unfold id. wp_step. destruct (length s) as [|n] eqn:En.
  - apply nil_length_inv in En as ->. apply wp_ret. by apply wp_ret.
  - pose proof (wp_reverse_loop (S (S n)) [] s [] (λ _ t, wp (ret (Z.of_nat (S n))) Q L t) L) as H.
    simpl length in H. rewrite En in H. simpl app in H. rewrite !app_nil_r in H.
    replace (0 + S n - 1)%nat with n in H by lia. apply H; [lia|]. by apply wp_ret.
Qed.

(** ** Digits of an unsigned value *)

(** The value of a text with the least significant digit first. *)
Definition le_number (base : Z) (cs : text) : Z := foldr (λ c n, digit_value c + base * n) 0 cs.

Lemma number_reverse base cs : number base (reverse cs) = le_number base cs.
Proof.
  induction cs as [|c cs IH]; [done|]. rewrite reverse_cons. unfold number in *. rewrite foldl_app. simpl. rewrite IH. lia.
Qed.

Lemma wp_digit d s (Q : Z → text → Prop) L :
  0 <= d < 36 → (∀ c, digits !! Z.to_nat d = Some c → Q c s) → wp (digit d) Q L s.
Proof.
  intros Hd HQ. unfold digit. replace (d <? 0) with false by lia.
  destruct (digits_value d Hd) as (c & Hc & _). eapply wp_deref; [done|]. by apply HQ.
Qed.

Lemma wrap_digit b v : 2 <= b <= 36 → 0 <= v < 2 ^ 32 →
  wrap 32 (b * (v / b)) = b * (v / b) ∧ wrap 32 (v - b * (v / b)) = v mod b ∧ b * (v / b) / b = v / b.
Proof.
  intros Hb Hv. assert (0 <= b * (v / b) <= v) as H by (split; [|apply Z.mul_div_le; lia]; apply Z.mul_nonneg_nonneg; [lia|]; apply Z.div_pos; lia).
  rewrite !wrap_small by lia. split; [done|]. split; [rewrite (Z.div_mod v b) at 1; lia|].
  rewrite Z.mul_comm, Z.div_mul; lia.
Qed.

(** What the loop appends: the digits of [v], least significant first, with a
    nonzero last one unless [v] is 0. *)
Definition le_digits (base v : Z) (ds : text) : Prop :=
  Forall (is_digit_of base) ds ∧ le_number base ds = v ∧
  (v = 0 ∧ ds = [48] ∨ 0 < v ∧ last ds ≠ Some 48 ∧ ds ≠ []).

Lemma wp_udigits_loop fuel : ∀ s v base (Q : unit → text → Prop) L,
  2 <= base <= 36 → 0 <= v < 2 ^ 32 → v < 2 ^ Z.of_nat fuel → (0 < fuel)%nat →
  (∀ ds, le_digits base v ds → Q tt (s ++ ds)) → wp (udigits_loop 32 fuel v base) Q L s.
Proof.
  induction fuel as [|fuel IH]; intros s v base Q L Hb Hv Hf H0 HQ; [lia|]. cbn [udigits_loop].
  destruct (wrap_digit base v Hb Hv) as (E1 & E2 & E3). rewrite E1, E2, E3.
  assert (0 <= v mod base < base) as Hm by (apply Z.mod_pos_bound; lia).
  wp_step. apply wp_digit; [lia|]. intros c Hc.
  destruct (digits_value (v mod base)) as (c' & Hc' & Hval & _ & _ & _ & _ & _ & Hz); [lia|].
  rewrite Hc in Hc'. injection Hc' as <-.
  assert (is_digit_of base c) as Hdig by (exists (v mod base); split; [lia | done]).
  pose proof (Z.div_mod v base ltac:(lia)) as Hdm.
  wp_step. apply wp_modify. destruct (v / base =? 0) eqn:Eq.
  - apply wp_ret. apply HQ. split; [by repeat constructor|]. unfold le_number. simpl. rewrite Hval.
    split; [lia|]. destruct (decide (v = 0)) as [->|Hne].
    + left. split; [done|]. f_equal. change (0 mod base) with 0 in Hc. by injection Hc.
    + right. split; [lia | split; [|done]]. simpl. intros [= ->]. apply Hz; [lia | done].
  - assert (0 < v / base) as Hq by (apply Z.eqb_neq in Eq; assert (0 <= v / base) by (apply Z.div_pos; lia); lia).
    assert (v / base <= v / 2) as Hle by (apply Z.div_le_compat_l; lia).
    assert (v / 2 < 2 ^ Z.of_nat fuel).
    { apply Z.div_lt_upper_bound; [lia|]. rewrite Nat2Z.inj_succ, Z.pow_succ_r in Hf by lia. lia. }
    assert (2 ^ Z.of_nat fuel = 1 → v / base = 0) by lia.
    apply IH; [done | split; [lia|] | lia | |].
    { apply Z.le_lt_trans with v; [|lia]. apply Z.div_le_upper_bound; nia. }
    { destruct fuel; [|lia]. simpl in *. lia. }
    intros ds (D1 & D2 & D3). rewrite <- app_assoc. apply HQ. split; [by constructor|].
    unfold le_number in *. simpl. rewrite D2, Hval. split; [lia|]. right. split; [nia|]. split; [|done].
    destruct D3 as [[? _]|(_ & D3 & D4)]; [lia|]. destruct ds as [|d ds]; [done|]. exact D3.
Qed.

Lemma le_digits_denotes base v ds : le_digits base v ds → denotes base (reverse ds) v.
Proof.
  intros (H1 & H2 & H3). split; [by apply Forall_reverse|]. rewrite number_reverse. split; [done|].
  destruct H3 as [[-> ->]|(H3 & H4 & H5)]; [by left|]. right. split; [done|].
  split; [by rewrite head_reverse|]. intros E. apply H5. apply (f_equal length) in E. rewrite length_reverse in E.
  by apply nil_length_inv.
Qed.

Lemma good_base base : 2 <= base <= 36 → bad_base base = false.
Proof. unfold bad_base. lia. Qed.

Lemma wp_udigits s v base (Q : unit → text → Prop) L :
  2 <= base <= 36 → 0 <= v < 2 ^ 32 → (∀ ds, le_digits base v ds → Q tt (s ++ ds)) →
  wp (udigits_loop 32 DIGITS32 v base) Q L s.
Proof. intros Hb Hv HQ. apply wp_udigits_loop; [done | done | | unfold DIGITS32; lia | done]. apply Hv. Qed.

(** The text a conversion leaves in the buffer and the length it returns. *)
Definition writes (m : M text Z) (P : text → Prop) : Prop :=
  ∃ cs, m [] = Ret (Z.of_nat (length cs)) cs ∧ P cs.

Lemma writes_wp m (P : text → Prop) :
  wp m (λ n cs, n = Z.of_nat (length cs) ∧ P cs) (λ _, False) [] → writes m P.
Proof. intros (n & cs & E & -> & H)%wp_ret_inv. by exists cs. Qed.

Lemma wp_finish_writes s (P : text → Prop) L :
  P (reverse s) → wp finish (λ n cs, n = Z.of_nat (length cs) ∧ P cs) L s.
Proof. intros H. apply wp_finish. by rewrite length_reverse. Qed.

Lemma ulitostr_writes v base : 2 <= base <= 36 → 0 <= v < 2 ^ 32 → writes (_ulitostr v base) (λ cs, denotes base cs v).
Proof.
  intros Hb Hv. apply writes_wp. unfold _ulitostr. rewrite good_base by done.
  wp_step. apply wp_udigits; [done | done |]. intros ds Hds.
  apply wp_finish_writes. simpl. by apply le_digits_denotes.
Qed.

Lemma itostr_writes v base :
  2 <= base <= 36 → - 2 ^ 31 <= v < 2 ^ 31 →
  writes (_itostr v base) (λ cs,
    if decide (base = 10 ∧ v < 0) then ∃ cs', cs = 45 :: cs' ∧ denotes 10 cs' (- v)
    else denotes base cs (u32 v)).
Proof.
  intros Hb Hv. apply writes_wp. unfold _itostr. rewrite good_base by done.
  assert (0 <= u32 v < 2 ^ 32) as Hu by (apply Z.mod_pos_bound; lia).
  destruct (decide (base = 10 ∧ v < 0)) as [[-> Hneg]|Hn].
  - replace ((10 =? 10) && (v <? 0)) with true by lia. simpl andb.
    destruct (v =? INT_MIN) eqn:Em.
    + assert (v = - 2 ^ 31) as -> by (unfold INT_MIN in Em; lia).
      wp_step. apply wp_modify. apply wp_ret. split; [done|]. exists (tail INT_MIN_STR). split; [done|].
      split; [|split; [done | right; split; [lia | done]]].
      repeat constructor; match goal with |- is_digit_of 10 ?c => exists (c - 48) end; (split; [lia | reflexivity]).
    + assert (i32 (Z.lnot v + 1) = - v) as ->.
      { unfold INT_MIN in Em. replace (Z.lnot v + 1) with (- v) by (unfold Z.lnot; lia). unfold signed.
        rewrite wrap_small by lia. by replace (- v <? 2 ^ (32 - 1)) with true by lia. }
      rewrite (wrap_small 32 (- v)) by lia.
      wp_step. apply wp_udigits; [lia | lia |]. intros ds Hds.
      wp_step. apply wp_modify. apply wp_finish_writes. simpl. exists (reverse ds).
      split; [by rewrite reverse_app | by apply le_digits_denotes].
  - replace ((base =? 10) && (v <? 0)) with false by lia. simpl andb. cbv iota.
    wp_step. apply wp_udigits; [done | done |]. intros ds Hds. wp_step. apply wp_ret.
    apply wp_finish_writes. simpl. by apply le_digits_denotes.
Qed.

(** Numbers to text: [_itostr] writes the canonical text of an [int] in any
    base from 2 to 36, with a sign for negative numbers in base 10 and as an
    unsigned number in the other bases, returns its length, and never runs
    past its digits; other bases are refused. *)
Theorem itostr_spec v base :
  - 2 ^ 31 <= v < 2 ^ 31 →
  (2 <= base <= 36 → ∃ cs, _itostr v base [] = Ret (Z.of_nat (length cs)) cs ∧
    if decide (base = 10 ∧ v < 0) then ∃ cs', cs = 45 :: cs' ∧ denotes 10 cs' (- v)
    else denotes base cs (u32 v)) ∧
  (base < 2 ∨ 36 < base → _itostr v base [] = Ret (-1) []).
Proof.
  intros Hv. split; [intros Hb; by apply itostr_writes|].
  intros Hb. unfold _itostr. replace (bad_base base) with true by (unfold bad_base; lia). done.
Qed.

Lemma itostr_spec_witness :
  ∃ cs, _itostr (-42) 10 [] = Ret (Z.of_nat (length cs)) cs ∧ ∃ cs', cs = 45 :: cs' ∧ denotes 10 cs' 42.
Proof. apply (proj1 (itostr_spec (-42) 10 ltac:(lia))). lia. Defined.

(** ** Text to numbers *)

Definition digit_step (base n c : Z) : Z := n * base + digit_value c.

Lemma digit_of_props base c : base <= 36 → is_digit_of base c →
  0 <= digit_value c < base ∧ isalnum c = true ∧ c ≠ 0 ∧ isspace c = false ∧ c ≠ 45 ∧ c ≠ 43.
Proof.
  intros Hb (d & Hd & Hc). destruct (digits_value d ltac:(lia)) as (c' & Hc' & Hv & H1 & H2 & H3 & H4 & H5 & _).
  rewrite Hc in Hc'. injection Hc' as <-. rewrite Hv. split; [lia | auto 8].
Qed.

Lemma digit_steps_grow base cs : ∀ n,
  2 <= base <= 36 → Forall (is_digit_of base) cs → 0 <= n → n <= foldl (digit_step base) n cs.
Proof.
  induction cs as [|c cs IH]; intros n Hb Hcs Hn; simpl; [lia|]. apply Forall_cons in Hcs as [Hc Hcs].
  apply digit_of_props in Hc as [Hd _]; [|lia].
  assert (n <= digit_step base n c) as H by (unfold digit_step; nia). pose proof (IH _ Hb Hcs (Z.le_trans _ _ _ Hn H)). lia.
Qed.

(** Below the bound of the type, [convert] computes the number. *)
Lemma convert_number t base bound cs : ∀ n,
  2 <= base <= 36 → (∀ x, 0 <= x < bound → store_type t x = x) →
  Forall (is_digit_of base) cs → 0 <= n → foldl (digit_step base) n cs < bound →
  convert t base cs n = (foldl (digit_step base) n cs, None).
Proof.
  induction cs as [|c cs IH]; intros n Hb Hs Hcs Hn Hlt; [done|]. apply Forall_cons in Hcs as [Hc Hcs].
  apply digit_of_props in Hc as (Hd & Ha & H0 & _); [|lia]. simpl in *.
  assert (0 <= digit_step base n c) as Hp by (unfold digit_step; nia).
  pose proof (digit_steps_grow base cs (digit_step base n c) Hb Hcs Hp).
  replace (c =? 0) with false by lia. rewrite Ha. simpl. replace (base <=? digit_value c) with false by lia.
  change (n * base + digit_value c) with (digit_step base n c). rewrite Hs by lia. by apply IH.
Qed.

Lemma strtotype_digits junk t base bound cs v :
  2 <= base <= 36 → (∀ x, 0 <= x < bound → store_type t x = x) → denotes base cs v → v < bound →
  strtotype junk cs base t = (v, None).
Proof.
  intros Hb Hs (Hcs & Hv & Hne) Hlt. unfold strtotype.
  replace (negb _) with false by lia.
  destruct cs as [|c cs]; [by destruct Hne as [[_ ?]|(_ & _ & ?)]|].
  pose proof Hcs as Hcs'. apply Forall_cons in Hcs' as [Hc _].
  apply digit_of_props in Hc as (_ & _ & _ & Hsp & H45 & H43); [|lia].
  simpl skip_spaces. rewrite Hsp. unfold skip_sign, cur. simpl.
  replace (c =? 45) with false by lia. replace (c =? 43) with false by lia.
  unfold detect_base. replace (base =? 0) with false by lia.
  change (number base (c :: cs)) with (foldl (digit_step base) 0 (c :: cs)) in Hv.
  rewrite (convert_number t base bound) by (done || lia). by rewrite Hv.
Qed.

Lemma strtotype_minus junk t base cs :
  2 <= base <= 36 →
  strtotype junk (45 :: cs) base t =
    match convert t base cs 0 with
    | (num, None) => (num, None)
    | (num, Some nptr) => (store_type t (- num), Some nptr)
    end.
Proof.
  intros Hb. unfold strtotype. replace (negb _) with false by lia. simpl skip_spaces.
  change (skip_sign (45 :: cs)) with (true, cs). cbv iota beta.
  unfold detect_base. by replace (base =? 0) with false by lia.
Qed.

Lemma store_ulong x : 0 <= x < 2 ^ 32 → store_type TYPE_ULONG x = x.
Proof. intros H. by apply wrap_small. Qed.

Lemma store_int x : 0 <= x < 2 ^ 31 → store_type TYPE_INT x = x.
Proof. intros H. unfold store_type, signed. rewrite wrap_small by lia. by replace (x <? 2 ^ (32 - 1)) with true by lia. Qed.

(** C25. Round trip: reading back with [strtoul] the text [_ulitostr] wrote, in the
    same base, gives the number, for every 32-bit number and every base. *)
Theorem strtoul_ulitostr junk v base :
  2 <= base <= 36 → 0 <= v < 2 ^ 32 →
  ∃ cs, _ulitostr v base [] = Ret (Z.of_nat (length cs)) cs ∧ strtoul junk cs base = (v, None).
Proof.
  intros Hb Hv. destruct (ulitostr_writes v base Hb Hv) as (cs & E & D). exists cs. split; [done|].
  eapply strtotype_digits; [done | apply store_ulong | done | lia].
Qed.

Lemma strtoul_ulitostr_witness :
  ∃ cs, _ulitostr 3735928559 16 [] = Ret (Z.of_nat (length cs)) cs ∧ strtoul 0 cs 16 = (3735928559, None).
Proof. apply (strtoul_ulitostr 0 3735928559 16); lia. Defined.

(** [atoi] drops the sign: it reads back the text of an [int] as its absolute
    value, because the sign is only applied when the number is followed by
    something else. *)
Theorem atoi_drops_sign junk v :
  - 2 ^ 31 < v < 2 ^ 31 →
  ∃ cs, _itostr v 10 [] = Ret (Z.of_nat (length cs)) cs ∧ atoi junk cs = Z.abs v.
Proof.
  intros Hv. destruct (itostr_writes v 10 ltac:(lia) ltac:(lia)) as (cs & E & D). exists cs. split; [done|].
  unfold atoi. destruct (decide (10 = 10 ∧ v < 0)) as [[_ Hneg]|Hn].
  - destruct D as (cs' & -> & Hcs & Hnum & Hne). rewrite strtotype_minus by lia.
    change (number 10 cs') with (foldl (digit_step 10) 0 cs') in Hnum.
    rewrite (convert_number TYPE_INT 10 (2 ^ 31)) by (done || lia || apply store_int). simpl. lia.
  - rewrite wrap_small in D by lia.
    erewrite strtotype_digits; [| |apply store_int | done |]; simpl; lia.
Qed.

Lemma atoi_drops_sign_witness :
  ∃ cs, _itostr (-5) 10 [] = Ret (Z.of_nat (length cs)) cs ∧ atoi 0 cs = 5.
Proof. apply (atoi_drops_sign 0 (-5)). lia. Defined.

(** ** Long and long long *)

Lemma sdigits_loop_faults fuel : ∀ s v base,
  2 <= base <= 36 → - 2 ^ 31 <= v < 0 → - v < 2 ^ Z.of_nat fuel →
  sdigits_loop fuel v base s = Fault OutOfBounds.
Proof.
  induction fuel as [|fuel IH]; intros s v base Hb Hv Hf; [simpl in Hf; lia|]. cbn [sdigits_loop].
  pose proof (Z.quot_rem v base ltac:(lia)) as Hqr.
  assert (Z.rem v base <= 0 ∧ - base < Z.rem v base) as [Hr1 Hr2].
  { pose proof (Z.rem_bound_pos (- v) base ltac:(lia) ltac:(lia)) as H. rewrite Z.rem_opp_l in H by lia. lia. }
  assert (v <= v `quot` base <= 0) as Hq by (split; nia).
  assert (∀ x, - 2 ^ 31 <= x <= 0 → i32 x = x) as Hi.
  { intros x Hx. unfold signed, wrap. destruct (decide (x = 0)) as [->|Hne]; [done|].
    replace (x mod 2 ^ 32) with (x + 2 ^ 32) by (symmetry; rewrite <- (Z.mod_add x 1) by lia; apply Z.mod_small; lia).
    replace (x + 2 ^ 32 <? 2 ^ (32 - 1)) with false by lia. lia. }
  rewrite (Hi (base * (v `quot` base))) by nia. replace (v - base * (v `quot` base)) with (Z.rem v base) by lia.
  rewrite (Hi (Z.rem v base)) by lia. unfold bind at 1, digit. destruct (Z.rem v base <? 0) eqn:Er; [done|].
  assert (Z.rem v base = 0) as Hr0 by lia. rewrite Hr0. unfold bind, emit, modify. simpl.
  replace (Z.quot (base * (v `quot` base)) base) with (v `quot` base) by (rewrite (Z.mul_comm base), Z.quot_mul; lia).
  replace (v `quot` base =? 0) with false by nia. apply IH; [done | nia |].
  rewrite Nat2Z.inj_succ, Z.pow_succ_r in Hf by lia. nia.
Qed.

(** [_litostr] of a negative number in a base other than 10 reads outside the
    digit table: it divides the signed value, so that a digit is negative. *)
Theorem litostr_negative_faults v base :
  2 <= base <= 36 → base ≠ 10 → - 2 ^ 31 <= v < 0 → _litostr v base [] = Fault OutOfBounds.
Proof.
  intros Hb H10 Hv. unfold _litostr. rewrite good_base by done. replace (base =? 10) with false by lia. cbn [andb]. cbv zeta.
  assert (sdigits_loop DIGITS32 v base [] = Fault OutOfBounds) as E
    by (apply sdigits_loop_faults; [done | done | unfold DIGITS32; lia]).
  unfold bind. by rewrite E.
Qed.

Lemma litostr_negative_faults_witness : _litostr (-1) 16 [] = Fault OutOfBounds.
Proof. apply (litostr_negative_faults (-1) 16); lia. Defined.

(** [_ullitostr] converts the two halves of a 64-bit number separately: the
    text is the text of the high half followed by that of the low half, which
    is the text of the number only when the high half is 0. *)
Theorem ullitostr_halves v base :
  2 <= base <= 36 → 0 <= v < 2 ^ 64 →
  ∃ cs lo, _ullitostr v base [] = Ret (Z.of_nat (length cs)) cs ∧ denotes base lo (v mod 2 ^ 32) ∧
    if decide (v < 2 ^ 32) then cs = lo else ∃ hi, cs = hi ++ lo ∧ denotes base hi (v / 2 ^ 32).
Proof.
  intros Hb Hv.
  assert (writes (_ullitostr v base) (λ cs, ∃ lo, denotes base lo (v mod 2 ^ 32) ∧
    if decide (v < 2 ^ 32) then cs = lo else ∃ hi, cs = hi ++ lo ∧ denotes base hi (v / 2 ^ 32)))
    as (cs & E & lo & H1 & H2); [|by exists cs, lo].
  apply writes_wp. unfold _ullitostr. rewrite good_base by done.
  change 0xFFFFFFFF with (2 ^ 32 - 1). replace (Z.land v (2 ^ 32 - 1)) with (v mod 2 ^ 32)
    by (symmetry; change (2 ^ 32 - 1) with (Z.ones 32); apply Z.land_ones; lia).
  rewrite Z.shiftr_div_pow2 by lia.
  assert (0 <= v / 2 ^ 32 < 2 ^ 32) as Hh by (split; [apply Z.div_pos; lia | apply Z.div_lt_upper_bound; lia]).
  rewrite (wrap_small 32 (v / 2 ^ 32)) by lia.
  assert (0 <= v mod 2 ^ 32 < 2 ^ 32) as Hl by (apply Z.mod_pos_bound; lia).
  wp_step. unfold halves_loop. wp_step. apply wp_udigits; [done | done |]. intros lo Hlo. simpl app.
  destruct (decide (v < 2 ^ 32)) as [Hlt|Hge].
  - rewrite (Z.div_small v) by lia. simpl (0 =? 0). cbv iota. apply wp_ret. apply wp_finish_writes.
    exists (reverse lo). split; [by apply le_digits_denotes | done].
  - replace (v / 2 ^ 32 =? 0) with false.
    2: { symmetry. apply Z.eqb_neq. intros E. apply Z.div_small_iff in E; lia. }
    apply wp_udigits; [done | done |]. intros hi Hhi. apply wp_finish_writes. exists (reverse lo).
    split; [by apply le_digits_denotes|]. exists (reverse hi). split; [apply reverse_app | by apply le_digits_denotes].
Qed.

Lemma ullitostr_halves_witness :
  ∃ cs lo, _ullitostr (2 ^ 32) 10 [] = Ret (Z.of_nat (length cs)) cs ∧ cs = [49; 48] ∧ denotes 10 lo 0.
Proof.
  destruct (ullitostr_halves (2 ^ 32) 10) as (cs & lo & E & D & _); [lia | lia |].
  exists cs, lo. split; [exact E | split; [|exact D]].
  vm_compute in E. injection E as _ <-. reflexivity.
Defined.
