(* ===== verification/Strings.v ===== *)
(** * Strings and blocks of memory: lib/libc/string

    Memory maps addresses to bytes; a pointer is an address, and 0 is NULL.
    [char] is signed, as the compiler has it on x86.  Loops that count are
    structural; loops that run to a NUL character have fuel, and one unit for
    every character looked at is enough.  The static variable of [strtok] is
    an argument and a result. *)

From S2P Require Import Prelude.

Abbreviation mem := (gmap Z Z).

(** [*p] as an [unsigned char] and as a [char]; [*p = c]. *)
Definition load (p : Z) : M mem Z :=
  if p =? 0 then fail NullDeref else let* m := gets id in deref PageFault (m !! p).
Definition char_of (b : Z) : Z := signed 8 b.
Definition loadc (p : Z) : M mem Z := let* b := load p in ret (char_of b).
Definition store (p c : Z) : M mem unit := load p ;; modify (insert p (u8 c)).

(** [p++] *)
Definition next (p : Z) : Z := u32 (p + 1).

(** ** Blocks *)

Fixpoint memchr_loop (num : nat) (buff c : Z) : M mem Z :=
  match num with
  | O => ret 0
  | S num => let* b := load buff in if b =? u8 c then ret buff else memchr_loop num (next buff) c
  end.
Definition memchr (buffer c num : Z) : M mem Z := memchr_loop (Z.to_nat num) buffer c.

Fixpoint memcmp_loop (n : nat) (str1 str2 : Z) : M mem Z :=
  match n with
  | O => ret 0
  | S n =>
      let* a := load str1 in
      let* b := load str2 in
      if a =? b then memcmp_loop n (next str1) (next str2) else ret (a - b)
  end.
Definition memcmp (s1 s2 n : Z) : M mem Z :=
  if (n =? 0) || (s1 =? 0) && (s2 =? 0) then ret 0
  else if s1 =? 0 then let* b := load s2 in ret (- b)
  else if s2 =? 0 then load s1
  else memcmp_loop (Z.to_nat n) s1 s2.

Fixpoint memcpy_loop (num : nat) (dest src : Z) : M mem unit :=
  match num with
  | O => ret tt
  | S num =>
      let* c := loadc src in
      store dest c ;;
      memcpy_loop num (next dest) (next src)
  end.
Definition memcpy (dest src num : Z) : M mem Z :=
  when (negb (src =? 0) && negb (dest =? 0)) (memcpy_loop (Z.to_nat num) dest src) ;;
  ret dest.

Fixpoint memset_loop (num : nat) (buff c : Z) : M mem unit :=
  match num with
  | O => ret tt
  | S num => store buff c ;; memset_loop num (next buff) c
  end.
Definition memset (buffer c num : Z) : M mem Z :=
  memset_loop (Z.to_nat num) buffer c ;;
  ret buffer.

(** The allocator is not part of these files: [malloc] returns an address, or 0,
    and a memory; [free] changes the memory. *)
Section memmove.
Context (malloc : Z → M mem Z) (free : Z → M mem unit).

Definition memmove (dest src num : Z) : M mem Z :=
  let* buffer := malloc num in
  if buffer =? 0 then ret 0
  else
    memcpy buffer src num ;;
    memcpy dest buffer num ;;
    free buffer ;;
    ret dest.
End memmove.

(** ** Strings *)

Fixpoint strlen_loop (fuel : nat) (string : Z) : M mem Z :=
  match fuel with
  | O => fail OutOfFuel
  | S fuel =>
      let* c := loadc string in
      if c =? 0 then ret string else strlen_loop fuel (next string)
  end.
Definition strlen (fuel : nat) (string : Z) : M mem Z :=
  if string =? 0 then ret 0
  else let* e := strlen_loop fuel string in ret (u32 (e - string)).

Fixpoint strcpy_loop (fuel : nat) (s1 s2 : Z) : M mem unit :=
  match fuel with
  | O => fail OutOfFuel
  | S fuel =>
      let* c := loadc s2 in
      store s1 c ;;
      if c =? 0 then ret tt else strcpy_loop fuel (next s1) (next s2)
  end.
Definition strcpy (fuel : nat) (s1 s2 : Z) : M mem Z := strcpy_loop fuel s1 s2 ;; ret s1.

Definition strcat (fuel : nat) (dest src : Z) : M mem Z :=
  let* n := strlen fuel dest in
  strcpy fuel (u32 (dest + n)) src ;;
  ret dest.

Fixpoint strcmp_loop (fuel : nat) (s1 s2 : Z) : M mem Z :=
  match fuel with
  | O => fail OutOfFuel
  | S fuel =>
      let* a := loadc s1 in
      let* b := loadc s2 in
      if negb (a =? 0) && (a =? b) then strcmp_loop fuel (next s1) (next s2) else ret (a - b)
  end.
Definition strcmp (fuel : nat) (s1 s2 : Z) : M mem Z :=
  if negb (s1 =? 0) && negb (s2 =? 0) then strcmp_loop fuel s1 s2
  else if s2 =? 0 then loadc s1
  else if s1 =? 0 then let* b := loadc s2 in ret (- b)
  else ret 0.

Fixpoint strncmp_loop (n : nat) (s1 s2 : Z) : M mem Z :=
  let* a := loadc s1 in
  match n with
  | O => ret 0
  | S n =>
      if negb (a =? 0) then
        let* b := loadc s2 in
        if a =? b then strncmp_loop n (next s1) (next s2) else ret (a - b)
      else let* b := loadc s2 in ret (a - b)
  end.
Definition strncmp (s1 s2 n : Z) : M mem Z := strncmp_loop (Z.to_nat n) s1 s2.

(** What is left of [n], and where the loop stopped. *)
Fixpoint strncpy_loop (n : nat) (s1 s2 : Z) : M mem (nat * Z) :=
  match n with
  | O => ret (n, s1)
  | S k =>
      let* c := loadc s2 in
      store s1 c ;;
      if c =? 0 then ret (n, next s1) else strncpy_loop k (next s1) (next s2)
  end.
(** [while(--n)], entered with one more than [n]. *)
Fixpoint strncpy_pad (n : nat) (s1 : Z) : M mem unit :=
  match n with
  | O => ret tt
  | S n => store s1 0 ;; strncpy_pad n (next s1)
  end.
Definition strncpy (s1 s2 n : Z) : M mem Z :=
  let* '(n, p) := strncpy_loop (Z.to_nat n) s1 s2 in
  match n with
  | O => ret tt
  | S n => strncpy_pad n p
  end ;;
  ret s1.

(** The end of the copy: [*src] is looked at before [num]. *)
Fixpoint strncat_loop (num : nat) (dest src : Z) : M mem Z :=
  let* c := loadc src in
  match num with
  | O => ret dest
  | S num => if c =? 0 then ret dest else store dest c ;; strncat_loop num (next dest) (next src)
  end.
Definition strncat (fuel : nat) (dest src num : Z) : M mem Z :=
  let* n := strlen fuel dest in
  let* e := strncat_loop (Z.to_nat num) (u32 (dest + n)) src in
  store e 0 ;;
  ret dest.

(** ** Searching *)

Fixpoint strchr_loop (fuel : nat) (s c : Z) : M mem Z :=
  match fuel with
  | O => fail OutOfFuel
  | S fuel =>
      let* a := loadc s in
      if negb (a =? 0) && negb (a =? c) then strchr_loop fuel (next s) c
      else if a =? c then ret s else ret 0
  end.
Definition strchr (fuel : nat) (s c : Z) : M mem Z :=
  if s =? 0 then ret 0 else strchr_loop fuel s c.

Fixpoint strrchr_loop (fuel : nat) (s c addr : Z) : M mem Z :=
  match fuel with
  | O => fail OutOfFuel
  | S fuel =>
      let* a := loadc s in
      if a =? 0 then ret addr else strrchr_loop fuel (next s) c (if a =? c then s else addr)
  end.
Definition strrchr (fuel : nat) (s c : Z) : M mem Z :=
  if s =? 0 then ret 0 else strrchr_loop fuel s c 0.

(** Whether the character is in the set: the loops that compare it with [*p++]
    until [*p] is NUL. *)
Fixpoint any_of (fuel : nat) (c p : Z) : M mem bool :=
  match fuel with
  | O => fail OutOfFuel
  | S fuel =>
      let* a := loadc p in
      if a =? 0 then ret false
      else if c =? a then ret true else any_of fuel c (next p)
  end.

Fixpoint strcspn_loop (inner fuel : nat) (s1 s2 len : Z) : M mem Z :=
  match fuel with
  | O => fail OutOfFuel
  | S fuel =>
      let* c := loadc (u32 (s1 + len)) in
      if c =? 0 then ret len
      else
        let* found := any_of inner c s2 in
        if (found : bool) then ret len else strcspn_loop inner fuel s1 s2 (u32 (len + 1))
  end.
Definition strcspn (fuel : nat) (s1 s2 : Z) : M mem Z := strcspn_loop fuel fuel s1 s2 0.

Fixpoint strpbrk_loop (inner fuel : nat) (p1 s2 : Z) : M mem Z :=
  match fuel with
  | O => fail OutOfFuel
  | S fuel =>
      let* c := loadc p1 in
      if c =? 0 then ret 0
      else
        let* found := any_of inner c s2 in
        if (found : bool) then ret p1 else strpbrk_loop inner fuel (next p1) s2
  end.
Definition strpbrk (fuel : nat) (s1 s2 : Z) : M mem Z := strpbrk_loop fuel fuel s1 s2.

(** The inner loop: the new [num], and where [accept] stopped. *)
Fixpoint strspn_inner (fuel : nat) (s accept num : Z) : M mem (Z * Z) :=
  match fuel with
  | O => fail OutOfFuel
  | S fuel =>
      let* a := loadc accept in
      if a =? 0 then ret (num, accept)
      else
        let* c := loadc s in
        if c =? a then ret (u32 (num + 1), accept) else strspn_inner fuel s (next accept) num
  end.
Fixpoint strspn_loop (inner fuel : nat) (s start num : Z) : M mem Z :=
  match fuel with
  | O => fail OutOfFuel
  | S fuel =>
      let* c := loadc s in
      if c =? 0 then ret num
      else
        let* '(num, accept) := strspn_inner inner s start num in
        let* a := loadc accept in
        if a =? 0 then ret num else strspn_loop inner fuel (next s) start num
  end.
Definition strspn (fuel : nat) (s accept : Z) : M mem Z :=
  if accept =? 0 then strlen fuel s else strspn_loop fuel fuel s accept 0.

(** The inner loop: where [haystack] and [needle] stopped. *)
Fixpoint strstr_inner (fuel : nat) (haystack needle : Z) : M mem (Z * Z) :=
  match fuel with
  | O => fail OutOfFuel
  | S fuel =>
      let* b := loadc needle in
      if b =? 0 then ret (haystack, needle)
      else
        let* a := loadc haystack in
        if a =? b then strstr_inner fuel (next haystack) (next needle) else ret (haystack, needle)
  end.
Fixpoint strstr_loop (inner fuel : nat) (haystackStart needleStart haystack needle : Z) : M mem Z :=
  match fuel with
  | O => fail OutOfFuel
  | S fuel =>
      let* a := loadc haystack in
      if a =? 0 then ret 0
      else
        let* '(_, needle) := strstr_inner inner haystack needle in
        let* b := loadc needle in
        if b =? 0 then ret haystackStart
        else strstr_loop inner fuel haystackStart needleStart (next haystackStart) needleStart
  end.
Definition strstr (fuel : nat) (haystack needle : Z) : M mem Z :=
  if haystack =? 0 then ret 0 else strstr_loop fuel fuel haystack needle haystack needle.

(** [strtok]: the loop over leading separators, and the loop over the token,
    which returns the new [tmp]. *)
Fixpoint strtok_skip (fuel : nat) (s2 s1 p : Z) : M mem Z :=
  match fuel with
  | O => fail OutOfFuel
  | S fuel =>
      let* a := loadc p in
      if a =? 0 then ret s1
      else
        let* c := loadc s1 in
        if c =? 0 then ret s1
        else if c =? a then strtok_skip fuel s2 (next s1) s2
        else strtok_skip fuel s2 s1 (next p)
  end.
Fixpoint strtok_token (inner fuel : nat) (s2 tmp : Z) : M mem Z :=
  match fuel with
  | O => fail OutOfFuel
  | S fuel =>
      let* c := loadc tmp in
      if c =? 0 then ret 0
      else
        let* found := any_of inner c s2 in
        if (found : bool) then store tmp 0 ;; ret (next tmp)
        else strtok_token inner fuel s2 (next tmp)
  end.
(** The result and the new value of the static variable [tmp]. *)
Definition strtok (fuel : nat) (tmp s1 s2 : Z) : M mem (Z * Z) :=
  let tmp := if s1 =? 0 then tmp else s1 in
  if tmp =? 0 then ret (0, tmp)
  else
    let* s1 := strtok_skip fuel s2 tmp s2 in
    let* c := loadc s1 in
    if c =? 0 then ret (0, 0)
    else
      let* tmp := strtok_token fuel fuel s2 s1 in
      ret (s1, tmp).
