(* ===== verification/StringsSpec.v ===== *)
(** * Strings: theorems about lib/libc/string

    [cstr m p s]: the C string at [p] is the list of characters [s];
    [bytes m p l]: the bytes from [p] on start with [l]; [fill m p l] is the
    memory after [l] was written at [p].  Results are given as exact memories,
    so that they also say what is not changed. *)

From S2P Require Import Prelude Strings.

Definition ptr (p : Z) : Prop := 0 < p < 2 ^ 32.

Fixpoint bytes (m : mem) (p : Z) (l : list Z) : Prop :=
  match l with
  | [] => True
  | b :: l => ptr p ∧ m !! p = Some b ∧ 0 <= b < 256 ∧ bytes m (p + 1) l
  end.

Fixpoint cstr (m : mem) (p : Z) (s : list Z) : Prop :=
  ptr p ∧
  match s with
  | [] => m !! p = Some 0
  | b :: s => m !! p = Some b ∧ 0 < b < 256 ∧ cstr m (p + 1) s
  end.

(** [n] bytes from [p] on can be written. *)
Definition room (m : mem) (p n : Z) : Prop :=
  0 < p ∧ p + n < 2 ^ 32 ∧ ∀ a, p <= a < p + n → is_Some (m !! a).

Fixpoint fill (m : mem) (p : Z) (l : list Z) : mem :=
  match l with
  | [] => m
  | b :: l => fill (<[p := b]> m) (p + 1) l
  end.

Abbreviation len l := (Z.of_nat (length l)).

(** The ranges [[p, p + m)] and [[q, q + n)] do not overlap. *)
Definition apart (p m q n : Z) : Prop := p + m <= q ∨ q + n <= p.

(** ** Loads and stores *)

Lemma char_of_inj a b : 0 <= a < 256 → 0 <= b < 256 → char_of a = char_of b → a = b.
Proof.
  intros. unfold char_of, signed in *. rewrite !wrap_small in * by lia.
  destruct (Z.ltb_spec a (2 ^ (8 - 1))), (Z.ltb_spec b (2 ^ (8 - 1))); lia.
Qed.

Lemma char_of_eqb a b : 0 <= a < 256 → 0 <= b < 256 → (char_of a =? char_of b) = (a =? b).
Proof.
  intros. destruct (Z.eqb_spec a b) as [->|N]; [apply Z.eqb_refl|].
  apply Z.eqb_neq. intros E. by apply N, char_of_inj.
Qed.

Lemma char_of_0 a : 0 <= a < 256 → (char_of a =? 0) = (a =? 0).
Proof. intros. by apply (char_of_eqb a 0). Qed.

Lemma u8_char_of b : 0 <= b < 256 → u8 (char_of b) = b.
Proof.
  intros. unfold char_of, signed. rewrite (wrap_small 8 b) by lia.
  destruct (Z.ltb_spec b (2 ^ (8 - 1))); [by apply wrap_small|].
  unfold wrap. replace (b - 2 ^ 8) with (b + (-1) * 2 ^ 8) by lia. rewrite Z.mod_add by lia.
  by apply Z.mod_small.
Qed.

Lemma next_small p : 0 <= p → p + 1 < 2 ^ 32 → next p = p + 1.
Proof. intros. apply wrap_small. lia. Qed.

Lemma wp_load m p b (Q : Z → mem → Prop) L : ptr p → m !! p = Some b → Q b m → wp (load p) Q L m.
Proof.
  intros Hp E H. unfold load, ptr in *. destruct (Z.eqb_spec p 0); [lia|].
  wp_steps. change (id m) with m. by eapply wp_deref.
Qed.

Lemma wp_loadc m p b (Q : Z → mem → Prop) L :
  ptr p → m !! p = Some b → Q (char_of b) m → wp (loadc p) Q L m.
Proof. intros. unfold loadc. wp_steps. eapply wp_load; eauto. Qed.

Lemma wp_store m p c (Q : unit → mem → Prop) L :
  ptr p → is_Some (m !! p) → Q tt (<[p := u8 c]> m) → wp (store p c) Q L m.
Proof. intros Hp [b E] H. unfold store. wp_steps. eapply wp_load; eauto. Qed.

Lemma room_ptr m p n : room m p n → 0 < n → ptr p ∧ is_Some (m !! p).
Proof. intros (A & B & C) Hn. unfold ptr. split; [lia|]. apply C. lia. Qed.

Lemma room_next m p n b : room m p n → 0 < n → room (<[p := b]> m) (p + 1) (n - 1).
Proof.
  intros (A & B & C) Hn. repeat split; [lia..|]. intros a Ha.
  rewrite lookup_insert_ne by lia. apply C. lia.
Qed.

Lemma room_step m p n : room m p n → 0 < n → next p = p + 1.
Proof. intros (A & B & C) Hn. apply next_small; lia. Qed.

Lemma lookup_fill l : ∀ m p a,
  fill m p l !! a = if decide (p <= a < p + len l) then l !! Z.to_nat (a - p) else m !! a.
Proof.
  induction l as [|b l IH]; intros m p a; cbn [fill length].
  - by rewrite decide_False by lia.
  - rewrite IH. destruct (decide (a = p)) as [->|Ha].
    + rewrite decide_False by lia. rewrite decide_True by lia. rewrite lookup_insert_eq.
      by replace (Z.to_nat (p - p)) with O by lia.
    + destruct (decide (p + 1 <= a < p + 1 + len l)).
      * rewrite decide_True by lia.
        by replace (Z.to_nat (a - p)) with (S (Z.to_nat (a - (p + 1)))) by lia.
      * rewrite decide_False by lia. by rewrite lookup_insert_ne by done.
Qed.

Lemma lookup_fill_ne l m p a : a < p ∨ p + len l <= a → fill m p l !! a = m !! a.
Proof. intros. rewrite lookup_fill. by rewrite decide_False by lia. Qed.

Lemma room_fill m p l q n : 0 < q → q + n < 2 ^ 32 → p <= q → q + n <= p + len l → room (fill m p l) q n.
Proof.
  intros. split_and!; [done..|]. intros a Ha. rewrite lookup_fill, decide_True by lia.
  apply lookup_lt_is_Some. lia.
Qed.

Lemma room_over m p l q n : room m q n → room (fill m p l) q n.
Proof.
  intros (A & B & C). split_and!; [done..|]. intros a Ha. rewrite lookup_fill.
  case_decide; [|auto]. apply lookup_lt_is_Some. lia.
Qed.

(** ** A concrete memory

    64 bytes from 0x1000 on, with the strings [ab], [, ] and [a, b]. *)
Definition ab : list Z := [97; 98].
Definition comma : list Z := [44; 32].
Definition a_b : list Z := [97; 44; 32; 98].
Definition blank : mem := fill ∅ 0x1000 (replicate 64 0).
Definition demo_mem : mem := fill (fill (fill blank 0x1000 ab) 0x1010 comma) 0x1020 a_b.

Lemma demo_strings : cstr demo_mem 0x1000 ab ∧ cstr demo_mem 0x1010 comma ∧ cstr demo_mem 0x1020 a_b.
Proof. cbn [cstr ab comma a_b]. unfold ptr. split_and!; by try lia. Qed.

Lemma demo_room q n : 0x1000 <= q → q + n <= 0x1040 → room demo_mem q n.
Proof. intros. do 3 apply room_over. apply room_fill; [lia..|]. by cbn. Qed.

(** Strings and blocks depend only on the bytes they cover. *)
Lemma cstr_ext m m' s : ∀ p,
  (∀ a, p <= a <= p + len s → m' !! a = m !! a) → cstr m p s → cstr m' p s.
Proof.
  induction s as [|b s IH]; intros p E; cbn [cstr length] in *.
  - intros [Hp H]. split; [done|]. rewrite E by lia. done.
  - intros (Hp & H & Hb & C). rewrite E by lia. split; [done|]. split; [done|]. split; [done|].
    apply IH; [|done]. intros a Ha. apply E. lia.
Qed.

Lemma bytes_ext m m' l : ∀ p,
  (∀ a, p <= a < p + len l → m' !! a = m !! a) → bytes m p l → bytes m' p l.
Proof.
  induction l as [|b l IH]; intros p E; cbn [bytes length] in *; [done|].
  intros (Hp & H & Hb & C). rewrite E by lia. split; [done|]. split; [done|]. split; [done|].
  apply IH; [|done]. intros a Ha. apply E. lia.
Qed.

Lemma cstr_ptr m p s : cstr m p s → ptr p.
Proof. destruct s; cbn [cstr]; naive_solver. Qed.

Lemma cstr_bound m s : ∀ p, cstr m p s → ptr p ∧ p + len s < 2 ^ 32.
Proof.
  induction s as [|b s IH]; intros p C; cbn [length]; (split; [by eapply cstr_ptr|]).
  - apply cstr_ptr in C. unfold ptr in C. lia.
  - cbn [cstr] in C. destruct C as (_ & _ & _ & C). apply IH in C. lia.
Qed.

(** The first character and the rest, with the successor computed. *)
Lemma cstr_cons m p b s :
  cstr m p (b :: s) → ptr p ∧ m !! p = Some b ∧ 0 < b < 256 ∧ next p = p + 1 ∧ cstr m (p + 1) s.
Proof.
  intros (Hp & H & Hb & C). split_and!; try done; try lia.
  pose proof (cstr_ptr _ _ _ C). unfold ptr in *. apply next_small; lia.
Qed.

Lemma cstr_app m s : ∀ p t, cstr m p (s ++ t) → cstr m (p + len s) t.
Proof.
  induction s as [|b s IH]; intros p t C; cbn [app length] in *.
  - by rewrite Z.add_0_r.
  - apply cstr_cons in C as (_ & _ & _ & _ & C). apply IH in C.
    by replace (p + Z.of_nat (S (length s))) with (p + 1 + len s) by lia.
Qed.

(** ** Length and copies *)

Lemma wp_strlen_loop s : ∀ fuel m p (Q : Z → mem → Prop) L,
  cstr m p s → (length s < fuel)%nat → Q (p + len s) m → wp (strlen_loop fuel p) Q L m.
Proof.
  induction s as [|b s IH]; intros [|fuel] m p Q L C F H; cbn [length] in *; try lia; cbn [strlen_loop].
  - destruct C as [Hp C]. wp_steps. eapply wp_loadc; [done..|]. cbn. by rewrite Z.add_0_r in H.
  - apply cstr_cons in C as (Hp & E & Hb & N & C). wp_steps. eapply wp_loadc; [done..|].
    rewrite char_of_0 by lia. destruct (Z.eqb_spec b 0); [lia|]. rewrite N.
    apply IH; [done|lia|]. by replace (p + 1 + len s) with (p + Z.of_nat (S (length s))) by lia.
Qed.

Lemma wp_strlen fuel m p s (Q : Z → mem → Prop) L :
  cstr m p s → (length s < fuel)%nat → Q (len s) m → wp (strlen fuel p) Q L m.
Proof.
  intros C F H. pose proof (cstr_bound _ _ _ C) as [Hp Hl]. unfold strlen, ptr in *.
  destruct (Z.eqb_spec p 0); [lia|]. wp_steps. eapply wp_strlen_loop; [done..|]. wp_steps.
  replace (p + len s - p) with (len s) by lia. rewrite wrap_small by lia. done.
Qed.

Lemma wp_strcpy_loop s : ∀ fuel m d p (Q : unit → mem → Prop) L,
  cstr m p s → room m d (len s + 1) → apart d (len s + 1) p (len s + 1) → (length s < fuel)%nat →
  Q tt (fill m d (s ++ [0])) → wp (strcpy_loop fuel d p) Q L m.
Proof.
  induction s as [|b s IH]; intros [|fuel] m d p Q L C R A F H; cbn [length app fill] in *; try lia;
    cbn [strcpy_loop]; destruct (room_ptr _ _ _ R ltac:(lia)) as [Hd Hm].
  - destruct C as [Hp C]. wp_steps. eapply wp_loadc; [done..|]. wp_steps. by apply wp_store.
  - apply cstr_cons in C as (Hp & E & Hb & N & C). wp_steps. eapply wp_loadc; [done..|]. wp_steps.
    apply wp_store; [done..|]. rewrite u8_char_of, char_of_0 by lia.
    destruct (Z.eqb_spec b 0); [lia|]. rewrite N, next_small by (destruct R; unfold ptr in *; lia).
    apply IH; [|..|lia|done].
    + eapply cstr_ext; [|done]. intros a Ha. unfold apart in *. rewrite lookup_insert_ne by lia. done.
    + replace (len s + 1) with (Z.of_nat (S (length s)) + 1 - 1) by lia. apply room_next; [done|lia].
    + unfold apart in *. lia.
Qed.

Lemma bytes_cons m p b l : bytes m p (b :: l) → ptr p ∧ m !! p = Some b ∧ 0 <= b < 256 ∧ bytes m (p + 1) l.
Proof. done. Qed.

Lemma wp_copy_bytes l : ∀ m d p (Q : unit → mem → Prop) L,
  bytes m p l → room m d (len l) → apart d (len l) p (len l) →
  Q tt (fill m d l) → wp (memcpy_loop (length l) d p) Q L m.
Proof.
  induction l as [|b l IH]; intros m d p Q L C R A H; cbn [length fill memcpy_loop] in *; [by wp_steps|].
  destruct (room_ptr _ _ _ R ltac:(lia)) as [Hd Hm]. apply bytes_cons in C as (Hp & E & Hb & C).
  wp_steps. eapply wp_loadc; [done..|]. wp_steps. apply wp_store; [done..|]. rewrite u8_char_of by lia.
  destruct l as [|b' l]; [by wp_steps|].
  destruct (bytes_cons _ _ _ _ C) as (Hp' & _). unfold ptr in *.
  assert (R' : room (<[d := b]> m) (d + 1) (len (b' :: l))).
  { replace (len (b' :: l)) with (Z.of_nat (S (length (b' :: l))) - 1) by lia. apply room_next; [done|lia]. }
  rewrite !next_small by (try destruct R' as (_ & R' & _); cbn [length] in *; lia).
  apply IH; [|done| |done].
  - eapply bytes_ext; [|done]. intros a Ha. unfold apart in *. rewrite lookup_insert_ne by lia. done.
  - unfold apart in *. lia.
Qed.

Lemma fill_app l : ∀ m p l', fill m p (l ++ l') = fill (fill m p l) (p + len l) l'.
Proof.
  induction l as [|b l IH]; intros m p l'; cbn [app fill length].
  - by rewrite Z.add_0_r.
  - rewrite IH. by replace (p + 1 + len l) with (p + Z.of_nat (S (length l))) by lia.
Qed.

Lemma cstr_fill t : ∀ m p,
  Forall (λ b, 0 < b < 256) t → 0 < p → p + len t < 2 ^ 32 → cstr (fill m p (t ++ [0])) p t.
Proof.
  induction t as [|b t IH]; intros m p F Hp Hl; cbn [app fill cstr length] in *.
  - split; [unfold ptr; lia|]. by rewrite lookup_insert_eq.
  - inversion_clear F. split; [unfold ptr; lia|]. split.
    + rewrite lookup_fill_ne by lia. by rewrite lookup_insert_eq.
    + split; [done|]. apply IH; [done|lia..].
Qed.

Lemma cstr_chars m s : ∀ p, cstr m p s → Forall (λ b, 0 < b < 256) s.
Proof.
  induction s as [|b s IH]; intros p C; constructor; apply cstr_cons in C; [|eapply IH]; apply C.
Qed.

Lemma cstr_bytes m s : ∀ p, cstr m p s → bytes m p s.
Proof.
  induction s as [|b s IH]; intros p C; cbn [bytes]; [done|].
  apply cstr_cons in C as (Hp & E & Hb & _ & C). split_and!; try done; try lia. by apply IH.
Qed.

(** Characters followed by a string. *)
Lemma cstr_join m s t : ∀ p,
  bytes m p s → Forall (λ b, 0 < b < 256) s → cstr m (p + len s) t → cstr m p (s ++ t).
Proof.
  induction s as [|b s IH]; intros p B F D; cbn [app length] in *.
  - by rewrite Z.add_0_r in D.
  - destruct B as (Hp & E & _ & B). inversion_clear F. split_and!; try done; try lia.
    apply IH; [done..|]. by replace (p + 1 + len s) with (p + Z.of_nat (S (length s))) by lia.
Qed.

(** [strcat] appends: the string at [dest] is followed by a copy of the one
    at [src] and a NUL, nothing else changes, and [dest] is returned. *)
Theorem strcat_spec fuel m dest s src t :
  cstr m dest s → cstr m src t → room m (dest + len s) (len t + 1) →
  apart (dest + len s) (len t + 1) src (len t + 1) → (length s < fuel)%nat → (length t < fuel)%nat →
  let m' := fill m (dest + len s) (t ++ [0]) in
  strcat fuel dest src m = Ret dest m' ∧ cstr m' dest (s ++ t) ∧
  ∀ a, a < dest + len s ∨ dest + len s + len t < a → m' !! a = m !! a.
Proof.
  intros C D R A Fs Ft m'. destruct (cstr_bound _ _ _ C) as [Hd Hl]. unfold ptr in Hd. split_and!.
  - apply wp_run. intros Q L H. unfold strcat, strcpy. wp_steps. eapply wp_strlen; [done..|]. wp_steps.
    rewrite wrap_small by lia. eapply wp_strcpy_loop; [done..|]. by wp_steps.
  - apply cstr_join; [|by eapply cstr_chars|].
    + eapply bytes_ext; [|by apply cstr_bytes]. intros a Ha. apply lookup_fill_ne. lia.
    + destruct R as (_ & R & _). apply cstr_fill; [by eapply cstr_chars|lia..].
  - intros a Ha. apply lookup_fill_ne. rewrite length_app. cbn [length]. lia.
Qed.

Lemma strcat_spec_witness : ∃ m', strcat 5 0x1000 0x1010 demo_mem = Ret 0x1000 m' ∧ cstr m' 0x1000 (ab ++ comma).
Proof.
  destruct demo_strings as (A & B & _).
  destruct (strcat_spec 5 demo_mem 0x1000 ab 0x1010 comma A B) as (E & C & _);
    [apply demo_room; cbn; lia|left; cbn; lia|cbn; lia..|]. eexists. split; [exact E|exact C].
Defined.

(** ** Copies of bounded length *)

Lemma wp_strncpy_pad n : ∀ m d (Q : unit → mem → Prop) L,
  room m d (Z.of_nat n) → Q tt (fill m d (replicate n 0)) → wp (strncpy_pad n d) Q L m.
Proof.
  induction n as [|n IH]; intros m d Q L R H; cbn [replicate fill strncpy_pad] in *; [by wp_steps|].
  destruct (room_ptr _ _ _ R ltac:(lia)) as [Hd Hm]. wp_steps. apply wp_store; [done..|].
  rewrite (room_step _ _ _ R) by lia.
  apply IH; [|done]. replace (Z.of_nat n) with (Z.of_nat (S n) - 1) by lia.
  apply room_next; [done|lia].
Qed.

(** What is left of the count: nothing, or at least the NUL's share. *)
Lemma wp_strncpy_loop n : ∀ m d p s (Q : nat * Z → mem → Prop) L,
  cstr m p s → room m d (Z.of_nat n) → apart d (Z.of_nat n) p (len s + 1) →
  (if decide (n <= length s)%nat then Q (O, d + Z.of_nat n) (fill m d (take n s))
   else Q ((n - length s)%nat, d + len s + 1) (fill m d (s ++ [0]))) →
  wp (strncpy_loop n d p) Q L m.
Proof.
  induction n as [|n IH]; intros m d p s Q L C R A H; cbn [strncpy_loop].
  { wp_steps. rewrite decide_True in H by lia. by rewrite Z.add_0_r in H. }
  destruct (room_ptr _ _ _ R ltac:(lia)) as [Hd Hm]. pose proof (room_step _ _ _ R ltac:(lia)) as Hn.
  destruct s as [|b s]; cbn [length take] in *.
  - rewrite decide_False in H by lia. destruct C as [Hp C]. wp_steps. eapply wp_loadc; [done..|]. wp_steps.
    apply wp_store; [done..|]. change (char_of 0 =? 0) with true. cbv iota. wp_steps.
    rewrite Hn. by rewrite Z.add_0_r in H.
  - apply cstr_cons in C as (Hp & E & Hb & N & C). wp_steps. eapply wp_loadc; [done..|]. wp_steps.
    apply wp_store; [done..|]. rewrite u8_char_of, char_of_0 by lia.
    destruct (Z.eqb_spec b 0); [lia|]. rewrite N, Hn. apply IH with (s := s).
    + eapply cstr_ext; [|done]. intros a Ha. unfold apart in *. rewrite lookup_insert_ne by lia. done.
    + replace (Z.of_nat n) with (Z.of_nat (S n) - 1) by lia. apply room_next; [done|lia].
    + unfold apart in *. lia.
    + cbn [fill app] in H. destruct (decide (S n <= S (length s))%nat); [rewrite decide_True by lia|rewrite decide_False by lia].
      * by replace (d + 1 + Z.of_nat n) with (d + Z.of_nat (S n)) by lia.
      * by replace (d + 1 + len s + 1) with (d + Z.of_nat (S (length s)) + 1) by lia.
Qed.

(** [strncpy] writes exactly [n] bytes: the first [n] characters of the
    string, padded with NULs, and no NUL if the string is not shorter. *)
Theorem strncpy_spec m dest src s n :
  cstr m src s → room m dest n → apart dest n src (len s + 1) → 0 <= n →
  strncpy dest src n m = Ret dest (fill m dest (take (Z.to_nat n) (s ++ replicate (Z.to_nat n) 0))).
Proof.
  intros C R A Hn. apply wp_run. intros Q L H. unfold strncpy. wp_steps.
  rewrite <- (Z2Nat.id n Hn) in R, A. apply wp_strncpy_loop with (s := s); [done..|].
  destruct (decide (Z.to_nat n <= length s)%nat).
  - wp_steps. rewrite take_app_le in H by lia. done.
  - destruct (Z.to_nat n - length s)%nat as [|k] eqn:Ek; [lia|]. wp_steps.
    rewrite take_app_ge, take_replicate in H by lia.
    replace (Z.to_nat n - length s)%nat with (S k) in H by lia.
    apply wp_strncpy_pad; [|wp_steps].
    + destruct R as (R1 & R2 & R3). split_and!; [lia..|]. intros a Ha. rewrite lookup_fill_ne.
      * apply R3. lia.
      * rewrite length_app. cbn [length]. lia.
    + rewrite fill_app in H. rewrite Nat.min_l in H by lia. cbn [replicate fill] in H.
      rewrite fill_app. cbn [fill]. done.
Qed.

Lemma strncpy_spec_witness :
  strncpy 0x1008 0x1000 4 demo_mem = Ret 0x1008 (fill demo_mem 0x1008 [97; 98; 0; 0]).
Proof.
  apply (strncpy_spec demo_mem 0x1008 0x1000 ab 4);
    [apply demo_strings|apply demo_room; lia|right; cbn; lia|lia].
Defined.

(** ** Comparison *)

(** The order of strings by the first difference, as [char]s; the final NUL takes
    part in it. *)
Definition before (s t : list Z) : Prop := ∃ pre a b s' t',
  s ++ [0] = pre ++ a :: s' ∧ t ++ [0] = pre ++ b :: t' ∧ char_of a < char_of b.

Lemma before_cons c s t : before s t → before (c :: s) (c :: t).
Proof.
  intros (pre & a & b & s' & t' & E & F & H). exists (c :: pre), a, b, s', t'.
  cbn [app]. by rewrite E, F.
Qed.

Lemma before_head a b s' t' s t :
  s ++ [0] = a :: s' → t ++ [0] = b :: t' → char_of a < char_of b → before s t.
Proof. intros. by exists [], a, b, s', t'. Qed.

(** The value of the loop: 0 for equal strings, else it has the sign of the
    order. *)
Definition compares (s t : list Z) (v : Z) : Prop :=
  v = 0 ∧ s = t ∨ v < 0 ∧ before s t ∨ 0 < v ∧ before t s.

Lemma compares_head a b s' t' s t :
  s ++ [0] = a :: s' → t ++ [0] = b :: t' → 0 <= a < 256 → 0 <= b < 256 → a ≠ b →
  compares s t (char_of a - char_of b).
Proof.
  intros E F Ha Hb N. right. pose proof (char_of_inj a b Ha Hb).
  destruct (Z.lt_trichotomy (char_of a) (char_of b)) as [H1|[H1|H1]]; [left|tauto|right];
    (split; [lia|]); by eapply before_head.
Qed.

Lemma compares_cons c s t v : compares s t v → compares (c :: s) (c :: t) v.
Proof. intros [[-> ->]|[[H B]|[H B]]]; unfold compares; auto using before_cons. Qed.

(** The character at [p], NUL included. *)
Lemma cstr_head m p s : cstr m p s → ∃ a s',
  s ++ [0] = a :: s' ∧ ptr p ∧ m !! p = Some a ∧ 0 <= a < 256 ∧
  (a = 0 ∧ s = [] ∨ ∃ r, 0 < a ∧ s = a :: r ∧ next p = p + 1 ∧ cstr m (p + 1) r).
Proof.
  destruct s as [|b s]; intros C.
  - destruct C. exists 0, []. split_and!; try done; try lia. by left.
  - apply cstr_cons in C as (Hp & E & Hb & N & C). exists b, (s ++ [0]). split_and!; try done; try lia.
    right. exists s. split_and!; try done; lia.
Qed.

Lemma wp_strcmp_loop fuel : ∀ m p s q t (Q : Z → mem → Prop) L,
  cstr m p s → cstr m q t → (length s < fuel)%nat → (∀ v, compares s t v → Q v m) →
  wp (strcmp_loop fuel p q) Q L m.
Proof.
  induction fuel as [|fuel IH]; intros m p s q t Q L C D F H; [lia|]. cbn [strcmp_loop].
  destruct (cstr_head _ _ _ C) as (a & s' & Es & Hp & Ea & Ra & Ca).
  destruct (cstr_head _ _ _ D) as (b & t' & Et & Hq & Eb & Rb & Cb).
  wp_steps. eapply wp_loadc; [done..|]. wp_steps. eapply wp_loadc; [done..|].
  rewrite char_of_0, char_of_eqb by lia. destruct (Z.eqb_spec a b) as [<-|N].
  - destruct (Z.eqb_spec a 0) as [->|Na]; cbn [negb andb].
    + wp_steps. apply H. left. destruct Ca as [[_ ->]|(r & ? & _)]; [|lia].
      destruct Cb as [[_ ->]|(r & ? & _)]; [done|lia].
    + destruct Ca as [[? _]|(r & _ & -> & -> & C')]; [lia|].
      destruct Cb as [[? _]|(r' & _ & -> & -> & D')]; [lia|]. cbn [length] in F.
      eapply IH; [done|done|lia|]. intros v Hv. by apply H, compares_cons.
  - rewrite andb_false_r. wp_steps. apply H. by eapply compares_head.
Qed.

(** The order is irreflexive and asymmetric, so that the sign decides it. *)
Lemma before_asym s t : before s t → ¬ (before t s ∨ s = t).
Proof.
  intros (pre & a & b & s' & t' & E & F & H) [B| ->].
  - destruct B as (pre2 & b2 & a2 & t2 & s2 & F2 & E2 & H2). rewrite E in E2. rewrite F in F2.
    clear E F. revert pre2 E2 F2. induction pre as [|c pre IH]; intros [|c2 pre2] E2 F2;
      cbn [app] in *; simplify_eq; try lia. by eapply IH.
  - rewrite E in F. apply app_inv_head in F. simplify_eq. lia.
Qed.

(** [strcmp] decides equality and the order by the first difference. *)
Theorem strcmp_spec fuel m p s q t :
  cstr m p s → cstr m q t → (length s < fuel)%nat →
  ∃ v, strcmp fuel p q m = Ret v m ∧
    (v = 0 ↔ s = t) ∧ (v < 0 ↔ before s t) ∧ (v > 0 ↔ before t s).
Proof.
  intros C D F. destruct (cstr_ptr _ _ _ C) as [Hp _], (cstr_ptr _ _ _ D) as [Hq _].
  assert (W : wp (strcmp fuel p q) (λ v m', m' = m ∧ compares s t v) (λ _, False) m).
  { unfold strcmp. destruct (Z.eqb_spec p 0), (Z.eqb_spec q 0); try lia. cbn [negb andb].
    eapply wp_strcmp_loop; [done..|]. auto. }
  apply wp_ret_inv in W as (v & m' & E & -> & K). exists v. split; [done|].
  pose proof (before_asym s t). pose proof (before_asym t s).
  destruct K as [[-> ->]|[[? B]|[? B]]]; split_and!; split; intros; try lia; try done; try naive_solver.
Qed.

Lemma strcmp_spec_witness : ∃ v, strcmp 5 0x1000 0x1020 demo_mem = Ret v demo_mem ∧ v > 0 ∧ v ≠ 0.
Proof.
  destruct demo_strings as (A & _ & B).
  destruct (strcmp_spec 5 demo_mem 0x1000 ab 0x1020 a_b A B) as (v & E & Z & _ & G); [cbn; lia|].
  exists v. split; [exact E|]. split; [apply G; by exists [97], 44, 98, [32; 98; 0], [0]|].
  intros V. by apply Z in V.
Defined.

(** ** Moving blocks that overlap *)

(** What [malloc] and [free] promise: a block is new memory and leaves the rest
    alone; giving it back leaves the rest alone.  [malloc] may fail. *)
Record allocates (malloc : Z → M mem Z) (free : Z → M mem unit) : Prop := {
  malloc_ok : ∀ m n, 0 <= n → ∃ b m', malloc n m = Ret b m' ∧ (∀ a, is_Some (m !! a) → m' !! a = m !! a) ∧
    (b = 0 ∨ room m' b n ∧ ∀ a, b <= a < b + n → m !! a = None);
  free_ok : ∀ m m' b n x, 0 <= n → malloc n m = Ret b m' → b ≠ 0 → dom x = dom m' →
    ∃ x', free b x = Ret tt x' ∧ ∀ a, is_Some (m !! a) → x' !! a = x !! a;
}.

Lemma wp_memcpy m d p l (Q : Z → mem → Prop) L :
  bytes m p l → room m d (len l) → apart d (len l) p (len l) → 0 < p →
  Q d (fill m d l) → wp (memcpy d p (len l)) Q L m.
Proof.
  intros B R A Hp H. unfold memcpy. assert (0 < d) by apply R.
  destruct (Z.eqb_spec p 0), (Z.eqb_spec d 0); try lia. cbn [negb andb]. wp_steps. unfold when.
  rewrite Nat2Z.id. apply wp_copy_bytes; [done..|]. by wp_steps.
Qed.

Lemma bytes_lookup m l : ∀ p i b, bytes m p l → l !! i = Some b → m !! (p + Z.of_nat i) = Some b.
Proof.
  induction l as [|c l IH]; intros p [|i] b B E; cbn in E; simplify_eq; destruct B as (_ & H & _ & B).
  - by rewrite Z.add_0_r.
  - replace (p + Z.of_nat (S i)) with (p + 1 + Z.of_nat i) by lia. by apply IH.
Qed.

Lemma bytes_range m l : ∀ p, bytes m p l → Forall (λ b, 0 <= b < 256) l.
Proof. induction l as [|c l IH]; intros p B; constructor; [|eapply IH]; apply B. Qed.

Lemma bytes_intro m l : ∀ p,
  0 < p → p + len l <= 2 ^ 32 → Forall (λ b, 0 <= b < 256) l →
  (∀ i b, l !! i = Some b → m !! (p + Z.of_nat i) = Some b) → bytes m p l.
Proof.
  induction l as [|c l IH]; intros p Hp Hl F H; cbn [bytes length] in *; [done|]. inversion_clear F.
  split; [unfold ptr; lia|]. split; [|split; [done|]].
  - specialize (H O c eq_refl). by rewrite Z.add_0_r in H.
  - apply IH; [lia..|done|]. intros i b E. replace (p + 1 + Z.of_nat i) with (p + Z.of_nat (S i)) by lia.
    by apply H.
Qed.

Lemma dom_fill m p l : room m p (len l) → dom (fill m p l) = dom m.
Proof.
  intros (_ & _ & R). apply set_eq. intros a. rewrite !elem_of_dom, lookup_fill.
  case_decide as Ha; [|done]. split; intros _; [apply R; lia|]. apply lookup_lt_is_Some. lia.
Qed.

Lemma is_Some_bytes m p l a : bytes m p l → p <= a < p + len l → is_Some (m !! a).
Proof.
  intros B Ha. destruct (lookup_lt_is_Some_2 l (Z.to_nat (a - p))) as [b E]; [lia|].
  exists b. rewrite <- (bytes_lookup _ _ _ _ _ B E). f_equal. lia.
Qed.

(** A copy through an intermediate block. *)
Lemma wp_copy_through m b src dest l (k : M mem Z) (Q : Z → mem → Prop) L :
  bytes m src l → room m b (len l) → room m dest (len l) → 0 < src →
  apart b (len l) src (len l) → apart b (len l) dest (len l) →
  wp k Q L (fill (fill m b l) dest l) →
  wp (memcpy b src (len l) ;; memcpy dest b (len l) ;; k) Q L m.
Proof.
  intros B Rb Rd Hs A1 A2 H. wp_steps. apply wp_memcpy; [done..|]. wp_steps.
  apply wp_memcpy; [| |unfold apart in *; lia|by apply Rb|done].
  - destruct Rb as (Rb1 & Rb2 & _). apply bytes_intro; [lia..|by eapply bytes_range|].
    intros i c Ec. pose proof (lookup_lt_Some _ _ _ Ec). rewrite lookup_fill, decide_True by lia.
    rewrite <- Ec. f_equal. lia.
  - destruct Rd as (? & ? & Rd). split_and!; [done..|]. intros a Ha.
    rewrite <- elem_of_dom, dom_fill, elem_of_dom by done. by apply Rd.
Qed.

(** A new block does not overlap memory that was there. *)
Lemma new_apart (m : mem) b n p :
  (∀ a, b <= a < b + n → m !! a = None) → (∀ a, p <= a < p + n → is_Some (m !! a)) → apart b n p n.
Proof.
  intros N H. unfold apart. destruct (decide (b + n <= p ∨ p + n <= b)) as [|O]; [done|].
  destruct (H (Z.max b p)) as [? F]; [lia|]. rewrite N in F by lia. done.
Qed.

(** [memmove] copies a block to a place that may overlap it: every byte that
    was there before has its old value, or the value of the source as it was,
    or, if there was no memory for the intermediate copy, nothing is copied. *)
Theorem memmove_spec malloc free m dest src l :
  allocates malloc free → bytes m src l → room m dest (len l) → 0 < src →
  ∃ r m', memmove malloc free dest src (len l) m = Ret r m' ∧
    (r = dest ∧ (∀ a, is_Some (m !! a) → m' !! a = fill m dest l !! a) ∨
     r = 0 ∧ ∀ a, is_Some (m !! a) → m' !! a = m !! a).
Proof.
  intros A B R Hs. destruct (malloc_ok _ _ A m (len l) ltac:(lia)) as (b & m1 & E & K & P).
  unfold memmove. rewrite (bind_run _ _ _ _ _ E). destruct (Z.eqb_spec b 0) as [->|Nb].
  { exists 0, m1. split; [done|]. by right. }
  destruct P as [?|[Rb N]]; [done|].
  assert (R1 : room m1 dest (len l)).
  { destruct R as (R1 & R2 & R3). split_and!; [done..|]. intros a Ha. rewrite K; auto. }
  assert (D : dom (fill (fill m1 b l) dest l) = dom m1).
  { rewrite dom_fill, dom_fill; [done..|]. destruct R1 as (? & ? & R1). split_and!; [done..|].
    intros a Ha. rewrite <- elem_of_dom, dom_fill, elem_of_dom by done. by apply R1. }
  destruct (free_ok _ _ A m m1 b (len l) _ ltac:(lia) E Nb D) as (x' & Ef & Kf).
  exists dest, x'. split.
  - apply wp_run. intros Q L H. apply wp_copy_through; [|done..| | |].
    + eapply bytes_ext; [|done]. intros a Ha. apply K. by eapply is_Some_bytes.
    + eapply new_apart; [done|]. intros a Ha. by eapply is_Some_bytes.
    + eapply new_apart; [done|]. apply R.
    + wp_steps. by eapply wp_of_ret.
  - left. split; [done|]. intros a [c Ea]. rewrite Kf, !lookup_fill by done.
    case_decide; [done|]. rewrite decide_False; [by apply K|]. intros Ha. rewrite N in Ea by lia. done.
Qed.

(** An allocator that takes the addresses above all others. *)
Definition top (m : mem) : Z := map_fold (λ a _ t, Z.max a t) 0 m.
Definition demo_malloc (n : Z) : M mem Z := λ m,
  let b := top m + 1 in
  if b + n <? 2 ^ 32 then Ret b (fill m b (replicate (Z.to_nat n) 0)) else Ret 0 m.
Definition demo_free (b : Z) : M mem unit := ret tt.

Lemma top_spec m : 0 <= top m ∧ ∀ a, is_Some (m !! a) → a <= top m.
Proof.
  unfold top. apply (map_fold_weak_ind (λ t m, 0 <= t ∧ ∀ a, is_Some (m !! a) → a <= t)).
  - split; [lia|]. intros a [? E]. by rewrite lookup_empty in E.
  - intros a c m' t Ha [IH0 IH]. split; [lia|]. intros a' [c' E].
    destruct (decide (a' = a)) as [->|N]; [lia|]. rewrite lookup_insert_ne in E by done.
    specialize (IH a' (ex_intro _ c' E)). lia.
Qed.

Lemma demo_allocates : allocates demo_malloc demo_free.
Proof.
  split.
  - intros m n Hn. destruct (top_spec m) as [T0 T]. unfold demo_malloc.
    destruct (Z.ltb_spec (top m + 1 + n) (2 ^ 32)); [|by exists 0, m; auto].
    eexists _, _. split; [done|]. split; [|right; split].
    + intros a Ha. specialize (T a Ha). apply lookup_fill_ne. lia.
    + apply room_fill; [lia..|]. rewrite length_replicate. lia.
    + intros a Ha. destruct (m !! a) eqn:E; [|done]. specialize (T a (ex_intro _ _ E)). lia.
  - intros m m' b n x _ _ _ _. by exists x.
Qed.

Lemma memmove_spec_witness : ∃ r m', memmove demo_malloc demo_free 0x1001 0x1000 2 demo_mem = Ret r m' ∧
  (r = 0 ∨ m' !! 0x1000 = Some 97 ∧ m' !! 0x1001 = Some 97 ∧ m' !! 0x1002 = Some 98).
Proof.
  destruct (memmove_spec demo_malloc demo_free demo_mem 0x1001 0x1000 ab) as (r & m' & E & H);
    [apply demo_allocates|apply cstr_bytes, demo_strings|apply demo_room; cbn; lia|lia|].
  exists r, m'. split; [exact E|]. destruct H as [[_ H]|[H _]]; [right|by left].
  split_and!; (rewrite H; [done|by eexists]).
Defined.
