(* ===== verification/StringsSearch.v ===== *)
(** * Searching in strings: strspn, strcspn, strpbrk, strchr, strtok, strstr

    The searching functions of lib/libc/string against definitions on lists of
    characters.  [strtok] is stateful: it writes NULs into the string and keeps
    a position between calls, and the theorem is about the sequence of calls
    that a program makes to get all tokens. *)

From S2P Require Import Prelude Strings StringsSpec.

(** The longest prefix of [s] of characters outside [d]. *)
Fixpoint span (d s : list Z) : list Z :=
  match s with
  | [] => []
  | c :: s => if decide (c ∈ d) then [] else c :: span d s
  end.

(** What is left of [s] without the characters of [d] it starts with. *)
Fixpoint skips (d s : list Z) : list Z :=
  match s with
  | [] => []
  | c :: r => if decide (c ∈ d) then skips d r else s
  end.

Lemma wp_any_of d : ∀ fuel m p c (Q : bool → mem → Prop) L,
  cstr m p d → 0 < c < 256 → (length d < fuel)%nat → Q (bool_decide (c ∈ d)) m →
  wp (any_of fuel (char_of c) p) Q L m.
Proof.
  induction d as [|b d IH]; intros [|fuel] m p c Q L C Hc F H; cbn [length] in *; try lia; cbn [any_of].
  - destruct C as [Hp C]. wp_steps. eapply wp_loadc; [done..|]. wp_steps.
    rewrite bool_decide_eq_false_2 in H; [done|apply not_elem_of_nil].
  - apply cstr_cons in C as (Hp & E & Hb & N & C). wp_steps. eapply wp_loadc; [done..|].
    rewrite char_of_0, char_of_eqb by lia. destruct (Z.eqb_spec b 0); [lia|].
    destruct (Z.eqb_spec c b) as [->|Nc].
    + wp_steps. rewrite bool_decide_eq_true_2 in H; [done|apply list_elem_of_here].
    + rewrite N. apply IH; [done..|lia|]. rewrite (bool_decide_ext _ (c ∈ b :: d)); [done|].
      rewrite elem_of_cons. naive_solver.
Qed.

Lemma wp_strcspn_loop d : ∀ s inner fuel m p q i (Q : Z → mem → Prop) L,
  cstr m (p + i) s → cstr m q d → 0 < p → 0 <= i → (length s < fuel)%nat → (length d < inner)%nat →
  Q (i + len (span d s)) m → wp (strcspn_loop inner fuel p q i) Q L m.
Proof.
  induction s as [|c s IH]; intros inner [|fuel] m p q i Q L C D Hp0 Hi F G H;
    cbn [length span] in *; try lia; cbn [strcspn_loop]; destruct (cstr_bound _ _ _ C) as [Hp Hl];
    unfold ptr in Hp; rewrite (wrap_small 32 (p + i)) by lia.
  - destruct C as [_ C]. wp_steps. eapply wp_loadc; [done..|]. wp_steps. by rewrite Z.add_0_r in H.
  - apply cstr_cons in C as (_ & E & Hb & N & C). wp_steps. eapply wp_loadc; [done..|].
    rewrite char_of_0 by lia. destruct (Z.eqb_spec c 0); [lia|]. wp_steps.
    eapply wp_any_of; [done..|]. case_bool_decide as Hc.
    + wp_steps. rewrite decide_True in H by done. by rewrite Z.add_0_r in H.
    + rewrite decide_False in H by done. cbn [length] in *. rewrite wrap_small by lia.
      apply IH; [|done|lia..|].
      * by replace (p + (i + 1)) with (p + i + 1) by lia.
      * by replace (i + 1 + len (span d s)) with (i + Z.of_nat (S (length (span d s)))) by lia.
Qed.

(** [strcspn] is the length of the prefix without characters of the set. *)
Theorem strcspn_spec fuel m p s q d :
  cstr m p s → cstr m q d → (length s < fuel)%nat → (length d < fuel)%nat →
  strcspn fuel p q m = Ret (len (span d s)) m.
Proof.
  intros C D F G. apply wp_run. intros Q L H. destruct (cstr_ptr _ _ _ C).
  apply wp_strcspn_loop with (s := s) (d := d); try done; try lia. by rewrite Z.add_0_r.
Qed.

Lemma wp_strspn_inner d : ∀ fuel m p q c n (Q : Z * Z → mem → Prop) L,
  cstr m q d → ptr p → m !! p = Some c → 0 < c < 256 → (length d < fuel)%nat →
  (if decide (c ∈ d) then ∀ a b, ptr a → m !! a = Some b → 0 < b < 256 → Q (u32 (n + 1), a) m
   else ∀ a, ptr a → m !! a = Some 0 → Q (n, a) m) →
  wp (strspn_inner fuel p q n) Q L m.
Proof.
  induction d as [|b d IH]; intros [|fuel] m p q c n Q L C Hp Ec Hc F H; cbn [length] in *; try lia;
    cbn [strspn_inner].
  - destruct C as [Hq C]. wp_steps. eapply wp_loadc; [done..|]. wp_steps.
    rewrite decide_False in H by apply not_elem_of_nil. by apply H.
  - apply cstr_cons in C as (Hq & E & Hb & N & C). wp_steps. eapply wp_loadc; [done..|].
    rewrite char_of_0 by lia. destruct (Z.eqb_spec b 0); [lia|]. wp_steps. eapply wp_loadc; [done..|].
    rewrite char_of_eqb by lia. destruct (Z.eqb_spec c b) as [->|Nc].
    + wp_steps. rewrite decide_True in H by apply list_elem_of_here. by eapply H.
    + rewrite N. eapply IH; [done..|lia|]. destruct (decide (c ∈ d)); destruct (decide (c ∈ b :: d)) as [K|K];
        rewrite elem_of_cons in K; naive_solver.
Qed.

Lemma wp_strspn_loop d inner fuel : ∀ m p s q n (Q : Z → mem → Prop) L,
  cstr m p s → cstr m q d → (length s < fuel)%nat → (length d < inner)%nat → 0 <= n → n + len s < 2 ^ 32 →
  Q (n + len s - len (skips d s)) m → wp (strspn_loop inner fuel p q n) Q L m.
Proof.
  induction fuel as [|fuel IH]; intros m p s q n Q L C D F G Hn Hl H; [lia|].
  cbn [strspn_loop]. destruct s as [|c s]; cbn [length skips] in *.
  - destruct C as [Hp C]. wp_steps. eapply wp_loadc; [done..|]. wp_steps.
    by rewrite Z.add_0_r, Z.sub_0_r in H.
  - apply cstr_cons in C as (Hp & E & Hc & N & C). wp_steps. eapply wp_loadc; [done..|].
    rewrite char_of_0 by lia. destruct (Z.eqb_spec c 0); [lia|]. wp_steps.
    eapply wp_strspn_inner; [done..|]. destruct (decide (c ∈ d)).
    + intros a b Ha Eb Hb. wp_steps. eapply wp_loadc; [done..|]. rewrite char_of_0 by lia.
      destruct (Z.eqb_spec b 0); [lia|]. rewrite N, wrap_small by lia. apply IH with (s := s); [done..|lia|done|lia|lia|].
      by replace (n + 1 + len s) with (n + Z.of_nat (S (length s))) by lia.
    + intros a Ha E0. wp_steps. eapply wp_loadc; [done..|]. wp_steps. cbn [length] in H.
      by replace (n + Z.of_nat (S (length s)) - Z.of_nat (S (length s))) with n in H by lia.
Qed.

(** [strspn] is the number of characters of the set the string starts with. *)
Theorem strspn_spec fuel m p s q d :
  cstr m p s → cstr m q d → (length s < fuel)%nat → (length d < fuel)%nat →
  strspn fuel p q m = Ret (len s - len (skips d s)) m.
Proof.
  intros C D F G. apply wp_run. intros Q L H. unfold strspn. destruct (cstr_ptr _ _ _ D) as [Hq _].
  destruct (Z.eqb_spec q 0); [lia|]. destruct (cstr_bound _ _ _ C) as [[Hp _] Hs].
  by apply wp_strspn_loop with (s := s) (d := d); try lia.
Qed.

(** ** Tokens *)

Lemma skips_suffix d s : ∃ pre, s = pre ++ skips d s.
Proof.
  induction s as [|c s [pre IH]]; cbn [skips]; [by exists []|].
  destruct (decide (c ∈ d)); [|by exists []]. exists (c :: pre). cbn [app]. by rewrite <- IH.
Qed.

Lemma wp_strtok_skip fuel : ∀ m d q d1 d2 p s x (Q : Z → mem → Prop) L,
  d = d1 ++ d2 → cstr m q d → cstr m p d2 → cstr m x s → (∀ c r, s = c :: r → c ∉ d1) →
  (length s * (length d + 1) + length d2 < fuel)%nat →
  Q (x + (len s - len (skips d s))) m → wp (strtok_skip fuel q x p) Q L m.
Proof.
  induction fuel as [|fuel IH]; intros m d q d1 d2 p s x Q L Hd D P C N F H; [lia|]. cbn [strtok_skip].
  assert (Q0 : skips d s = s → Q x m) by (intros E; rewrite E, Z.sub_diag, Z.add_0_r in H; done).
  destruct d2 as [|b d2].
  - destruct P as [Hp P]. wp_steps. eapply wp_loadc; [done..|]. wp_steps. apply Q0.
    destruct s as [|c s]; [done|]. cbn [skips]. rewrite decide_False; [done|].
    rewrite app_nil_r in Hd. subst. by eapply N.
  - apply cstr_cons in P as (Hp & Eb & Hb & Np & P). wp_steps. eapply wp_loadc; [done..|].
    rewrite char_of_0 by lia. destruct (Z.eqb_spec b 0); [lia|]. wp_steps. destruct s as [|c s].
    + destruct C as [Hx C]. eapply wp_loadc; [done..|]. wp_steps. by apply Q0.
    + apply cstr_cons in C as (Hx & Ec & Hc & Nx & C). eapply wp_loadc; [done..|].
      rewrite char_of_0, char_of_eqb by lia. destruct (Z.eqb_spec c 0); [lia|].
      destruct (Z.eqb_spec c b) as [->|Ncb].
      * rewrite Nx. eapply (IH m d q [] d); [done..| | |].
        { intros ? ? _. apply not_elem_of_nil. }
        { cbn [length] in F. lia. }
        cbn [skips] in H. rewrite decide_True in H by (subst; set_solver).
        cbn [length] in H. by replace (x + 1 + (len s - len (skips d s)))
          with (x + (Z.of_nat (S (length s)) - len (skips d s))) by lia.
      * rewrite Np. apply (IH m d q (d1 ++ [b]) d2 (p + 1) (c :: s)); [|done|done| | | |done].
        { by rewrite <- app_assoc. }
        { split_and!; try done; lia. }
        { intros ? ? [= <- <-]. specialize (N c s eq_refl). set_solver. }
        { cbn [length] in *. lia. }
Qed.

(** The token and, if a separator ends it, what follows the separator. *)
Fixpoint brk (d s : list Z) : list Z * option (list Z) :=
  match s with
  | [] => ([], None)
  | c :: s => if decide (c ∈ d) then ([], Some s) else let '(w, r) := brk d s in (c :: w, r)
  end.

Lemma wp_strtok_token d inner s : ∀ fuel m q x (Q : Z → mem → Prop) L,
  cstr m q d → cstr m x s → (length s < fuel)%nat → (length d < inner)%nat →
  (match brk d s with
   | (w, None) => Q 0 m
   | (w, Some _) => Q (x + len w + 1) (<[x + len w := 0]> m)
   end) → wp (strtok_token inner fuel q x) Q L m.
Proof.
  induction s as [|c s IH]; intros [|fuel] m q x Q L D C F G H; cbn [length brk] in *; try lia;
    cbn [strtok_token].
  - destruct C as [Hx C]. wp_steps. eapply wp_loadc; [done..|]. by wp_steps.
  - apply cstr_cons in C as (Hx & E & Hc & N & C). wp_steps. eapply wp_loadc; [done..|].
    rewrite char_of_0 by lia. destruct (Z.eqb_spec c 0); [lia|]. wp_steps.
    eapply wp_any_of; [done..|]. case_bool_decide as Hd.
    + rewrite decide_True in H by done. cbn [length] in H. rewrite Z.add_0_r in H. wp_steps.
      apply wp_store; [done|by eexists|]. wp_steps. by rewrite N.
    + rewrite decide_False in H by done. rewrite N. apply IH; [done..|lia|done|].
      destruct (brk d s) as [w [r|]]; cbn [length] in H; [|done].
      by replace (x + 1 + len w) with (x + Z.of_nat (S (length w))) by lia.
Qed.

(** The pieces between separators, and the ones that are not empty: what the
    tokens of a string are. *)
Fixpoint splits (d s : list Z) : list (list Z) :=
  match s with
  | [] => [[]]
  | c :: s =>
      if decide (c ∈ d) then [] :: splits d s
      else match splits d s with w :: ws => (c :: w) :: ws | [] => [[c]] end
  end.
Definition words (d s : list Z) : list (list Z) := filter (λ w, w ≠ []) (splits d s).

Lemma splits_brk d s :
  splits d s = match brk d s with (w, None) => [w] | (w, Some r) => w :: splits d r end.
Proof.
  induction s as [|c s IH]; cbn [splits brk]; [done|]. destruct (decide (c ∈ d)); [done|].
  rewrite IH. by destruct (brk d s) as [w [r|]].
Qed.

Lemma brk_split d s : match brk d s with (w, None) => s = w | (w, Some r) => ∃ c, s = w ++ c :: r end.
Proof.
  induction s as [|c s IH]; cbn [brk]; [done|]. destruct (decide (c ∈ d)); [by exists c|].
  destruct (brk d s) as [w [r|]]; [|by rewrite IH]. destruct IH as [c' ->]. by exists c'.
Qed.

Lemma words_skips d s : words d s = words d (skips d s).
Proof.
  induction s as [|c s IH]; cbn [skips]; [done|]. destruct (decide (c ∈ d)) as [Hc|]; [|done].
  rewrite <- IH. unfold words. cbn [splits]. by rewrite decide_True by done.
Qed.

Lemma words_cons d c s : c ∉ d →
  words d (c :: s) = match brk d (c :: s) with (w, None) => [w] | (w, Some r) => w :: words d r end.
Proof.
  intros Hc. unfold words. rewrite splits_brk. cbn [brk]. rewrite decide_False by done.
  by destruct (brk d s) as [w [r|]].
Qed.

Lemma skips_head d s c r : skips d s = c :: r → c ∉ d.
Proof.
  induction s as [|c' s IH]; cbn [skips]; [done|]. destruct (decide (c' ∈ d)); [done|]. congruence.
Qed.

(** One call: [x] is the string it looks at, a new one or what was left. *)
Lemma wp_strtok fuel m tmp s1 x s q d (Q : Z * Z → mem → Prop) L :
  (if s1 =? 0 then tmp else s1) = x → cstr m x s → cstr m q d →
  (length s * (length d + 1) + length d + 1 < fuel)%nat →
  (let x' := x + (len s - len (skips d s)) in
   match skips d s with
   | [] => Q (0, 0) m
   | s' => match brk d s' with
           | (w, None) => Q (x', 0) m
           | (w, Some _) => Q (x', x' + len w + 1) (<[x' + len w := 0]> m)
           end
   end) → wp (strtok fuel tmp s1 q) Q L m.
Proof.
  intros E C D F H. unfold strtok. rewrite E. destruct (cstr_ptr _ _ _ C) as [Hx _].
  destruct (Z.eqb_spec x 0); [lia|]. wp_steps.
  eapply (wp_strtok_skip _ _ d q [] d q s x); [done..| |lia|].
  { intros ? ? _. apply not_elem_of_nil. }
  destruct (skips_suffix d s) as [pre Hs].
  assert (C' : cstr m (x + (len s - len (skips d s))) (skips d s)).
  { rewrite Hs in C. apply cstr_app in C. rewrite Hs at 1. rewrite length_app.
    by replace (x + (Z.of_nat (length pre + length (skips d s)) - len (skips d s))) with (x + len pre) by lia. }
  assert (Fs : (length (skips d s) <= length s)%nat).
  { rewrite Hs at 2. rewrite length_app. lia. }
  cbv zeta in H. set (x' := x + (len s - len (skips d s))) in *. clearbody x'. wp_steps.
  destruct (skips d s) as [|c s'].
  - destruct C' as [Hx' C']. eapply wp_loadc; [done..|]. by wp_steps.
  - pose proof C' as C2. apply cstr_cons in C2 as (Hx' & Ec & Hc & _ & _). eapply wp_loadc; [done..|].
    rewrite char_of_0 by lia. destruct (Z.eqb_spec c 0); [lia|]. wp_steps.
    eapply wp_strtok_token; [done..|lia|lia|]. by destruct (brk d (c :: s')) as [w [r|]].
Qed.

(** A program that gets all tokens: the first call has the string, the others
    NULL, until NULL is returned. *)
Fixpoint tokenize (n fuel : nat) (tmp s1 s2 : Z) : M mem (list Z) :=
  match n with
  | O => fail OutOfFuel
  | S n =>
      let* '(r, tmp) := strtok fuel tmp s1 s2 in
      if r =? 0 then ret [] else let* rs := tokenize n fuel tmp 0 s2 in ret (r :: rs)
  end.

Lemma tokenize_end n fuel q m : tokenize (S n) fuel 0 0 q m = Ret [] m.
Proof. done. Qed.

Lemma cstr_cut m w c r : ∀ x, cstr m x (w ++ c :: r) → cstr (<[x + len w := 0]> m) x w.
Proof.
  induction w as [|b w IH]; intros x C; cbn [app length] in *; pose proof (cstr_ptr _ _ _ C).
  - split; [done|]. by rewrite Z.add_0_r, lookup_insert_eq.
  - apply cstr_cons in C as (_ & E & Hb & _ & C). split; [done|]. rewrite lookup_insert_ne by lia.
    split; [done|]. split; [done|]. apply IH in C.
    by replace (x + 1 + len w) with (x + Z.of_nat (S (length w))) in C by lia.
Qed.

(** The result of a call, and the memory after it. *)
Definition one_token (d : list Z) (x : Z) (s : list Z) (m : mem) : (Z * Z) * mem :=
  let x' := x + (len s - len (skips d s)) in
  match skips d s with
  | [] => ((0, 0), m)
  | s' => match brk d s' with
          | (w, None) => ((x', 0), m)
          | (w, Some _) => ((x', x' + len w + 1), <[x' + len w := 0]> m)
          end
  end.

Lemma strtok_run fuel m tmp s1 x s q d :
  (if s1 =? 0 then tmp else s1) = x → cstr m x s → cstr m q d →
  (length s * (length d + 1) + length d + 1 < fuel)%nat →
  strtok fuel tmp s1 q m = Ret (one_token d x s m).1 (one_token d x s m).2.
Proof.
  intros E C D F. apply wp_run. intros Q L H. eapply wp_strtok; [done..|]. unfold one_token in H. cbv zeta in *.
  destruct (skips d s) as [|c s']; [done|]. by destruct (brk d (c :: s')) as [w [r|]].
Qed.

Lemma tokenize_words q d fuel n : ∀ m tmp s1 x s,
  (if s1 =? 0 then tmp else s1) = x → cstr m x s → cstr m q d → apart x (len s + 1) q (len d + 1) →
  (length s + 1 < n)%nat → (length s * (length d + 1) + length d + 1 < fuel)%nat →
  ∃ rs m', tokenize n fuel tmp s1 q m = Ret rs m' ∧ Forall2 (cstr m') rs (words d s) ∧
    ∀ a, a < x ∨ x + len s < a → m' !! a = m !! a.
Proof.
  induction n as [|n IH]; intros m tmp s1 x s Ex C D A Hn F; [lia|]. cbn [tokenize].
  rewrite (bind_run _ _ _ _ _ (strtok_run fuel m tmp s1 x s q d Ex C D F)). unfold one_token.
  destruct (skips_suffix d s) as [pre Hs]. rewrite words_skips. pose proof (skips_head d s) as Hh.
  assert (Ls : length s = (length pre + length (skips d s))%nat) by (rewrite Hs at 1; by rewrite length_app).
  replace (x + (len s - len (skips d s))) with (x + len pre) by lia.
  assert (C' : cstr m (x + len pre) (skips d s)) by (rewrite Hs in C; by apply cstr_app in C).
  destruct (cstr_bound _ _ _ C) as [[Hx _] _]. set (x' := x + len pre) in *.
  destruct (skips d s) as [|c s']; [by exists [], m|]. rewrite words_cons by by eapply Hh.
  pose proof (brk_split d (c :: s')) as B. destruct (brk d (c :: s')) as [w [r|]]; cbn [fst snd].
  all: destruct (Z.eqb_spec x' 0); [lia|].
  - destruct B as [c' B]. rewrite B in C', Ls. rewrite length_app in Ls. cbn [length] in Ls.
    pose proof (cstr_cut _ _ _ _ _ C') as Cw. set (m1 := <[x' + len w := 0]> m) in *.
    apply cstr_app in C' as Cr. apply cstr_cons in Cr as (_ & _ & _ & _ & Cr).
    destruct (IH m1 (x' + len w + 1) 0 (x' + len w + 1) r) as (rs & m2 & E & K & Fr).
    + done.
    + eapply cstr_ext; [|done]. intros a Ha. by apply lookup_insert_ne; lia.
    + eapply cstr_ext; [|done]. intros a Ha. apply lookup_insert_ne. unfold apart in A. lia.
    + unfold apart in *. lia.
    + lia.
    + nia.
    + rewrite (bind_run _ _ _ _ _ E). exists (x' :: rs), m2. split; [done|]. split.
      * constructor; [|done]. eapply cstr_ext; [|exact Cw]. intros a Ha. apply Fr. lia.
      * intros a Ha. rewrite Fr by lia. apply lookup_insert_ne. lia.
  - destruct n as [|n]; [lia|]. rewrite (bind_run _ _ _ _ _ (tokenize_end n fuel q m)).
    exists [x'], m. split; [done|]. split; [|done]. constructor; [by rewrite <- B|constructor].
Qed.

(** C24. Getting all tokens with [strtok]: the calls return pointers to the
    non-empty pieces of the string between separators, in order, each ended by
    a NUL, and nothing outside the string changes. *)
Theorem strtok_words n fuel m tmp p s q d :
  cstr m p s → cstr m q d → apart p (len s + 1) q (len d + 1) →
  (length s + 1 < n)%nat → (length s * (length d + 1) + length d + 1 < fuel)%nat →
  ∃ rs m', tokenize n fuel tmp p q m = Ret rs m' ∧ Forall2 (cstr m') rs (words d s) ∧
    ∀ a, a < p ∨ p + len s < a → m' !! a = m !! a.
Proof.
  intros C D A Hn F. apply tokenize_words; try done. destruct (cstr_ptr _ _ _ C) as [Hp _].
  by destruct (Z.eqb_spec p 0); [lia|].
Qed.

Lemma strtok_words_witness : ∃ a b m', tokenize 9 40 0 0x1020 0x1010 demo_mem = Ret [a; b] m' ∧
  cstr m' a [97] ∧ cstr m' b [98].
Proof.
  destruct demo_strings as (_ & D & C).
  destruct (strtok_words 9 40 demo_mem 0 0x1020 a_b 0x1010 comma C D) as (rs & m' & E & K & _);
    [right; cbn; lia|cbn; lia..|].
  change (words comma a_b) with [[97]; [98]] in K. inversion K as [|a ? rs' ? Ka Kr]. subst rs.
  inversion Kr as [|b ? rs'' ? Kb Kn]. subst rs'. inversion Kn. subst rs''.
  exists a, b, m'. split; [exact E|]. split; [exact Ka|exact Kb].
Defined.

(** ** strstr *)

Lemma wp_strstr_inner t : ∀ fuel m p s q (Q : Z * Z → mem → Prop) L,
  cstr m p s → cstr m q t → (length t < fuel)%nat →
  (∀ a b r, ptr a → m !! a = Some b → 0 <= b < 256 → (b = 0 ↔ t `prefix_of` s) → Q (r, a) m) →
  wp (strstr_inner fuel p q) Q L m.
Proof.
  induction t as [|b t IH]; intros [|fuel] m p s q Q L C D F H; cbn [length] in *; try lia; cbn [strstr_inner].
  - destruct D as [Hq D]. wp_steps. eapply wp_loadc; [done..|]. wp_steps. eapply H; [done..|].
    split; [|done]. intros _. apply prefix_nil.
  - apply cstr_cons in D as (Hq & E & Hb & N & D). wp_steps. eapply wp_loadc; [done..|].
    rewrite char_of_0 by lia. destruct (Z.eqb_spec b 0); [lia|]. wp_steps.
    destruct (cstr_head _ _ _ C) as (a & s' & _ & Hp & Ea & Ra & K). eapply wp_loadc; [done..|].
    rewrite char_of_eqb by lia. destruct (Z.eqb_spec a b) as [->|Nab].
    + destruct K as [[? _]|(r & _ & -> & Np & C')]; [lia|]. rewrite Np, N.
      eapply IH; [done..|lia|]. intros a0 b0 r0 H1 H2 H3 H4. eapply H; [done..|]. rewrite H4.
      split; [apply prefix_cons|apply prefix_cons_inv_2].
    + wp_steps. eapply H; [done..|lia|]. split; [lia|]. intros P. destruct s as [|c s].
      * by apply prefix_nil_not in P.
      * apply prefix_cons_inv_1 in P. destruct K as [[_ ?]|(r & _ & ? & _)]; congruence.
Qed.

Lemma loadc_run m p b : ptr p → m !! p = Some b → loadc p m = Ret (char_of b) m.
Proof. intros. apply wp_run. intros. by eapply wp_loadc. Qed.

Lemma strstr_inner_run fuel m p s q t :
  cstr m p s → cstr m q t → (length t < fuel)%nat →
  ∃ r a b, strstr_inner fuel p q m = Ret (r, a) m ∧ loadc a m = Ret (char_of b) m ∧
    (char_of b =? 0) = bool_decide (t `prefix_of` s).
Proof.
  intros C D F.
  assert (W : wp (strstr_inner fuel p q) (λ '(r, a) m', m' = m ∧ ∃ b, loadc a m = Ret (char_of b) m ∧
    (char_of b =? 0) = bool_decide (t `prefix_of` s)) (λ _, False) m).
  { eapply wp_strstr_inner; [done..|]. intros a b r Ha Eb Hb P. split; [done|]. exists b.
    split; [by apply loadc_run|]. rewrite char_of_0 by lia. symmetry.
    rewrite (bool_decide_ext _ (b = 0)) by by rewrite P. by destruct (Z.eqb_spec b 0), (bool_decide_reflect (b = 0)). }
  apply wp_ret_inv in W as ([r a] & m' & E & -> & b & K). by exists r, a, b.
Qed.

(** One round of the outer loop at a non-empty string. *)
Lemma strstr_round inner fuel m x c s y q t :
  cstr m y (c :: s) → cstr m q t → (length t < inner)%nat →
  strstr_loop inner (S fuel) x q y q m =
    if bool_decide (t `prefix_of` c :: s) then Ret x m else strstr_loop inner fuel x q (next x) q m.
Proof.
  intros C D F. destruct (cstr_cons _ _ _ _ C) as (Hy & E & Hc & _). cbn [strstr_loop].
  rewrite (bind_run _ _ _ _ _ (loadc_run _ _ _ Hy E)), char_of_0 by lia. destruct (Z.eqb_spec c 0); [lia|].
  destruct (strstr_inner_run _ _ _ _ _ _ C D F) as (r & a & b & E1 & E2 & E3).
  rewrite (bind_run _ _ _ _ _ E1), (bind_run _ _ _ _ _ E2), E3. by case_bool_decide.
Qed.

Lemma strstr_stuck inner fuel m x c s q t :
  cstr m (x + 1) (c :: s) → next x = x + 1 → cstr m q t → (length t < inner)%nat →
  ¬ t `prefix_of` c :: s → strstr_loop inner fuel x q (x + 1) q m = Fault OutOfFuel.
Proof.
  intros C N D F P. induction fuel as [|fuel IH]; [done|].
  rewrite (strstr_round _ _ _ _ _ _ _ _ _ C D F), bool_decide_eq_false_2, N by done. apply IH.
Qed.

(** [strstr] looks at the first two positions only, because it goes back to
    the second one after every mismatch: a needle at the start is found, one at
    the second position is reported at the start, and if it is at neither, the
    loop does not end, unless the string has no second character. *)
Theorem strstr_outcome fuel m p c s q t :
  cstr m p (c :: s) → cstr m q t → (length t + 1 < fuel)%nat →
  strstr fuel p q m =
    if bool_decide (t `prefix_of` c :: s) then Ret p m
    else match s with
         | [] => Ret 0 m
         | _ => if bool_decide (t `prefix_of` s) then Ret p m else Fault OutOfFuel
         end.
Proof.
  intros C D F. destruct (cstr_cons _ _ _ _ C) as ([Hp _] & _ & _ & N & C'). unfold strstr.
  destruct (Z.eqb_spec p 0); [lia|]. destruct fuel as [|[|fuel]]; [lia..|].
  rewrite (strstr_round _ _ _ _ _ _ _ _ _ C D) by lia. case_bool_decide as P; [done|]. rewrite N.
  destruct s as [|c' s].
  - destruct C' as [Hq E]. cbn [strstr_loop]. by rewrite (bind_run _ _ _ _ _ (loadc_run _ _ _ Hq E)).
  - rewrite (strstr_round _ _ _ _ _ _ _ _ _ C' D) by lia. case_bool_decide; [done|]. rewrite N.
    eapply strstr_stuck; [done..|lia|done].
Qed.

Lemma strstr_outcome_witness : strstr 9 0x1020 0x1023 demo_mem = Fault OutOfFuel.
Proof.
  destruct demo_strings as (_ & _ & C).
  assert (D : cstr demo_mem 0x1023 [98]) by exact (cstr_app _ [97; 44; 32] _ [98] C).
  apply (strstr_outcome 9 demo_mem 0x1020 97 [44; 32; 98] 0x1023 [98] C D). cbn. lia.
Defined.
