(* ===== verification/Printf.v ===== *)
(** * Formatted output: lib/libc/stdio/do_printf.c, vsprintf.c

    Strings are the lists of their characters without the final NUL.  The
    arguments of a call are a list; taking one of another type than the format
    asks for, or one too many, is a fault.  Where characters go is the argument
    [writeFunc], as in the code.  [itostr], which the code calls and the
    repository does not declare, is a parameter: from the type of a number, the
    number, the base and the contents of the buffer it gives the length of the
    text and the new contents. *)

From Stdlib Require Import Ascii.
From S2P Require Import Prelude Strings.

Definition ch (a : ascii) : Z := Z.of_N (N_of_ascii a).
Arguments ch a%_char.

Definition ITOSTR_BUF_LEN : nat := 65.

(** ** State *)

Inductive PrintfLength := DEFAULT | CHAR | SHORT_INT | LONG_INT | LONG_LONG_INT | INTMAX | SIZE | PTRDIFF | LONG_DOUBLE.
Inductive PrintfParseState := FLAGS | WIDTH | PRECISION | LENGTH | SPECIFIER.

#[export] Instance PrintfParseState_eq_dec : EqDecision PrintfParseState.
Proof. solve_decision. Defined.

(** Where [state.string] points to. *)
Inductive source := Null | Buffer | Argument (s : list Z).

Record PrintfState := {
  isZeroPad : bool; usePrefix : bool; isLeftJustify : bool; isForcedPlus : bool; isBlankPlus : bool;
  inPercent : bool; isError : bool; isNegative : bool;
  width : Z; precision : Z; printfState : PrintfParseState; length_ : PrintfLength;
  percentIndex : nat; prefix : Z * Z; argLength : Z; string : source
}.

#[export] Hint Extern 0 (@Update PrintfState _ ?p) =>
  derive_update (λ s, {| isZeroPad := isZeroPad s; usePrefix := usePrefix s; isLeftJustify := isLeftJustify s;
    isForcedPlus := isForcedPlus s; isBlankPlus := isBlankPlus s; inPercent := inPercent s; isError := isError s;
    isNegative := isNegative s; width := width s; precision := precision s; printfState := printfState s;
    length_ := length_ s; percentIndex := percentIndex s; prefix := prefix s; argLength := argLength s;
    string := string s |}) p : typeclass_instances.

Definition reset_printf_state : PrintfState :=
  {| isZeroPad := false; usePrefix := false; isLeftJustify := false; isForcedPlus := false; isBlankPlus := false;
     inPercent := false; isError := false; isNegative := false; width := 0; precision := -1; printfState := FLAGS;
     length_ := DEFAULT; percentIndex := 0; prefix := (0, 0); argLength := 0; string := Null |}.

(** Arguments: [int], [unsigned] and [long] as patterns of 32 bits, [long long] of
    64, strings, and the pointers of [%n]. *)
Inductive arg := IntArg (v : Z) | LongLongArg (v : Z) | StrArg (s : list Z) | PtrArg (p : Z).

(** The type of what is given to [itostr]. *)
Inductive itype := TUChar | TUShort | TUInt | TULong | TULongLong | TChar | TShort | TInt | TLong | TLongLong.

Section printf.
Context {W : Type}.
Variable writeFunc : Z → M W Z.
Variable itostr : itype → Z → Z → list Z → Z * list Z.

(** [stores] is what was stored through the pointers of [%n]: the pointer, the
    number of bits and the value. *)
Record env := {
  state : PrintfState; buf : list Z; args : list arg; sink : W; charsWritten : Z; stores : list (Z * Z * Z)
}.

#[local] Hint Extern 0 (@Update env _ ?p) =>
  derive_update (λ e, {| state := state e; buf := buf e; args := args e; sink := sink e;
    charsWritten := charsWritten e; stores := stores e |}) p : typeclass_instances.

Definition on_state (f : PrintfState → PrintfState) : M env unit := modify (λ e, e <| state ::= f |>).

(** [va_arg] *)
Definition pop : M env arg :=
  let* l := gets args in
  match l with
  | [] => fail OutOfBounds
  | a :: l => modify (λ e, e <| args := l |>) ;; ret a
  end.
Definition int_arg : M env Z := let* a := pop in match a with IntArg v => ret v | _ => fail OutOfBounds end.
Definition long_long_arg : M env Z := let* a := pop in match a with LongLongArg v => ret v | _ => fail OutOfBounds end.
Definition str_arg : M env (list Z) := let* a := pop in match a with StrArg s => ret s | _ => fail OutOfBounds end.
Definition ptr_arg : M env Z := let* a := pop in match a with PtrArg p => ret p | _ => fail OutOfBounds end.

(** The argument of a conversion, by length, and the text of it in [buf]. *)
Definition unsigned_arg (l : PrintfLength) : M env (itype * Z) :=
  match l with
  | LONG_LONG_INT => let* v := long_long_arg in ret (TULongLong, u64 v)
  | CHAR => let* v := int_arg in ret (TUChar, u8 v)
  | SHORT_INT => let* v := int_arg in ret (TUShort, u16 v)
  | LONG_INT => let* v := int_arg in ret (TULong, u32 v)
  | _ => let* v := int_arg in ret (TUInt, u32 v)
  end.
Definition signed_arg (l : PrintfLength) : M env (itype * Z) :=
  match l with
  | LONG_LONG_INT => let* v := long_long_arg in ret (TLongLong, signed 64 v)
  | CHAR => let* v := int_arg in ret (TChar, signed 8 v)
  | SHORT_INT => let* v := int_arg in ret (TShort, signed 16 v)
  | LONG_INT => let* v := int_arg in ret (TLong, i32 v)
  | _ => let* v := int_arg in ret (TInt, i32 v)
  end.
Definition to_text (base : Z) (a : itype * Z) : M env Z :=
  let* b := gets buf in
  let '(argLen, b') := itostr (fst a) (snd a) base b in
  modify (λ e, e <| buf := b' |>) ;;
  ret argLen.

(** ** One character of a directive

    [true] is [continue], [false] is the end of the directive or an error in it. *)

Definition fails : M env bool := on_state (λ s, s <| isError := true |>) ;; ret false.

Definition percent_digit (c : Z) : M env bool :=
  let* s := gets state in
  match printfState s with
  | FLAGS | WIDTH =>
      when (bool_decide (printfState s = FLAGS))
        (when (c =? ch "0") (on_state (λ s, s <| isZeroPad := true |>)) ;;
         on_state (λ s, s <| printfState := WIDTH |>)) ;;
      on_state (λ s, s <| width := u32 (10 * width s + c - ch "0") |>) ;;
      ret true
  | PRECISION => on_state (λ s, s <| precision := i32 (10 * precision s + c - ch "0") |>) ;; ret true
  | LENGTH | SPECIFIER => fails
  end.

(** [l] and [h]: the second one, the first one. *)
Definition percent_length (twice once : PrintfLength) : M env bool :=
  let* s := gets state in
  match printfState s with
  | LENGTH => on_state (λ s, s <| length_ := twice |> <| printfState := SPECIFIER |>) ;; ret true
  | FLAGS | WIDTH | PRECISION => on_state (λ s, s <| length_ := once |> <| printfState := LENGTH |>) ;; ret true
  | SPECIFIER => fails
  end.

(** [j], [z], [t] and [L] *)
Definition percent_size (l : PrintfLength) : M env bool :=
  let* s := gets state in
  if bool_decide (printfState s = SPECIFIER) then fails
  else on_state (λ s, s <| length_ := l |> <| printfState := SPECIFIER |>) ;; ret true.

(** [#], [-], [+] and the blank *)
Definition percent_flag (f : PrintfState → PrintfState) : M env bool :=
  let* s := gets state in
  if bool_decide (printfState s = FLAGS) then on_state f ;; ret true else fails.

Definition uppercase (c : Z) : Z := if (ch "a" <=? c) && (c <=? ch "z") then c - (ch "a" - ch "A") else c.

Definition percent_hex (c : Z) : M env bool :=
  when (c =? ch "p") (on_state (λ s, s <| precision := 8 |>)) ;;
  let* s := gets state in
  let* a := unsigned_arg (length_ s) in
  let* argLen := to_text 16 a in
  when (0 <? argLen)
    (on_state (λ s, s <| argLength := argLen |>) ;;
     when (usePrefix s) (on_state (λ s, s <| prefix := (ch "0", if c =? ch "X" then ch "X" else ch "x") |>)) ;;
     when (c =? ch "X")
       (modify (λ e, e <| buf ::= (λ b, map uppercase (take (Z.to_nat argLen) b) ++ drop (Z.to_nat argLen) b) |>)) ;;
     on_state (λ s, s <| string := Buffer |>)) ;;
  ret false.

Definition percent_octal : M env bool :=
  let* s := gets state in
  let* a := unsigned_arg (length_ s) in
  let* argLen := to_text 8 a in
  when (0 <? argLen)
    (on_state (λ s, s <| argLength := argLen |>) ;;
     when (usePrefix s) (on_state (λ s, s <| prefix := (ch "0", 0) |>))) ;;
  on_state (λ s, s <| string := Buffer |>) ;;
  ret false.

Definition percent_string : M env bool :=
  let* str := str_arg in
  on_state (λ s, s <| string := Argument str |> <| argLength := if precision s =? -1 then Z.of_nat (length str) else u32 (precision s) |>) ;;
  ret false.

Definition percent_unsigned : M env bool :=
  let* s := gets state in
  let* a := unsigned_arg (length_ s) in
  let* argLen := to_text 10 a in
  when (0 <? argLen) (on_state (λ s, s <| argLength := argLen |>)) ;;
  on_state (λ s, s <| string := Buffer |>) ;;
  ret false.

Definition percent_signed : M env bool :=
  let* s := gets state in
  let* a := signed_arg (length_ s) in
  let* argLen := to_text 10 a in
  let* b := gets buf in
  when (0 <? argLen)
    (on_state (λ s, s <| argLength := argLen |> <| isNegative := match b with c :: _ => c =? ch "-" | [] => false end |>)) ;;
  on_state (λ s, s <| string := Buffer |>) ;;
  ret false.

Definition percent_char (c : Z) : M env bool :=
  when (c =? ch "c") (let* v := int_arg in modify (λ e, e <| buf ::= <[0%nat := signed 8 v]> |>)) ;;
  on_state (λ s, s <| string := Buffer |> <| argLength := 1 |>) ;;
  ret false.

Definition percent_point : M env bool :=
  let* s := gets state in
  match printfState s with
  | FLAGS | WIDTH => on_state (λ s, s <| precision := 0 |> <| printfState := PRECISION |>) ;; ret true
  | _ => fails
  end.

Definition percent_star : M env bool :=
  let* s := gets state in
  match printfState s with
  | WIDTH => let* v := int_arg in on_state (λ s, s <| width := u32 v |>) ;; ret true
  | PRECISION => let* v := int_arg in on_state (λ s, s <| precision := i32 v |>) ;; ret true
  | _ => fails
  end.

(** [%n]; the directive goes on after it. *)
Definition percent_count : M env bool :=
  let* s := gets state in
  if bool_decide (printfState s = WIDTH) || bool_decide (printfState s = PRECISION) || isForcedPlus s || isBlankPlus s
     || isZeroPad s || usePrefix s || isLeftJustify s
  then fails
  else
    let* p := ptr_arg in
    let w := match length_ s with LONG_LONG_INT | INTMAX => 64 | CHAR => 8 | SHORT_INT => 16 | _ => 32 end in
    modify (λ e, e <| stores ::= (λ l, (p, w, wrap w (charsWritten e)) :: l) |>) ;;
    ret true.

(** The [switch] over the character. *)
Definition percent (c : Z) : M env bool :=
  if (ch "0" <=? c) && (c <=? ch "9") then percent_digit c
  else if c =? ch "l" then percent_length LONG_LONG_INT LONG_INT
  else if c =? ch "h" then percent_length SHORT_INT CHAR
  else if c =? ch "j" then percent_size INTMAX
  else if c =? ch "z" then percent_size SIZE
  else if c =? ch "t" then percent_size PTRDIFF
  else if c =? ch "L" then percent_size LONG_DOUBLE
  else if (c =? ch "c") || (c =? ch "%") then percent_char c
  else if c =? ch "." then percent_point
  else if (c =? ch "p") || (c =? ch "x") || (c =? ch "X") then percent_hex c
  else if c =? ch "o" then percent_octal
  else if c =? ch "s" then percent_string
  else if c =? ch "u" then percent_unsigned
  else if (c =? ch "d") || (c =? ch "i") then percent_signed
  else if c =? ch "#" then percent_flag (λ s, s <| usePrefix := true |>)
  else if c =? ch "-" then percent_flag (λ s, s <| isLeftJustify := true |>)
  else if c =? ch "+" then percent_flag (λ s, s <| isForcedPlus := true |>)
  else if c =? ch " " then percent_flag (λ s, s <| isBlankPlus := true |>)
  else if c =? ch "*" then percent_star
  else if c =? ch "n" then percent_count
  else fails.

(** ** Output

    [true] is an error of [writeFunc], for which the code returns -1 at once. *)

Definition write_char (c : Z) : M env bool :=
  let* r := zoom sink (λ w e, e <| sink := w |>) (writeFunc c) in
  if negb (r =? 0) then ret true
  else modify (λ e, e <| charsWritten ::= (λ n, i32 (n + 1)) |>) ;; ret false.

Definition and_then (m k : M env bool) : M env bool :=
  let* failed := m in if (failed : bool) then ret true else k.

Fixpoint write_all (l : list Z) : M env bool :=
  match l with
  | [] => ret false
  | c :: l => and_then (write_char c) (write_all l)
  end.

(** [state.string[pos]]: the NUL at the end of an argument can be read. *)
Definition string_at (pos : nat) : M env Z :=
  let* e := gets id in
  match string (state e) with
  | Null => fail NullDeref
  | Buffer => deref OutOfBounds (buf e !! pos)
  | Argument s => deref OutOfBounds ((s ++ [0]) !! pos)
  end.

Fixpoint write_string (n pos : nat) : M env bool :=
  match n with
  | O => ret false
  | S n => let* c := string_at pos in and_then (write_char c) (write_string n (S pos))
  end.

(** The output of a directive that ends with [c]. *)
Definition output (c : Z) : M env bool :=
  let* s := gets state in
  let argLength := u32 (argLength s - if isNegative s then 1 else 0) in
  let signLength := if isNegative s || isForcedPlus s || isBlankPlus s then 1 else 0 in
  let prefixLength :=
    if usePrefix s then if fst (prefix s) =? 0 then 0 else if snd (prefix s) =? 0 then 1 else 2 else 0 in
  let zeroPadLength :=
    if (c =? ch "s") || (precision s =? -1) || (2 ^ 31 - 1 <? argLength) || (precision s <=? i32 argLength) then 0
    else u32 (precision s - argLength) in
  let spacePadLength :=
    if u32 (argLength + signLength + prefixLength + zeroPadLength) <? width s
    then u32 (width s - argLength - signLength - prefixLength - zeroPadLength) else 0 in
  let spaces := write_all (replicate (Z.to_nat spacePadLength) (ch " ")) in
  and_then (if isLeftJustify s then ret false else spaces)
  (and_then (if isNegative s then write_char (ch "-")
             else if isForcedPlus s then write_char (ch "+")
             else if isBlankPlus s then write_char (ch " ")
             else ret false)
  (and_then (write_all (take (Z.to_nat prefixLength) [fst (prefix s); snd (prefix s)]))
  (and_then (write_all (replicate (Z.to_nat zeroPadLength) (ch "0")))
  (and_then (write_string (Z.to_nat argLength) (if isNegative s then 1 else 0))
            (if isLeftJustify s then spaces else ret false))))).

(** A character outside of a directive. *)
Definition literal (i : nat) (c : Z) : M env bool :=
  if c =? ch "%" then
    on_state (λ s, s <| percentIndex := i |> <| inPercent := true |>) ;;
    modify (λ e, e <| buf := replicate ITOSTR_BUF_LEN 0 |>) ;;
    ret false
  else if c =? 10 then write_all [13; 10]
  else if c =? 13 then write_char 13
  else write_char c.

Definition format_char (formatStr : list Z) (i : nat) (c : Z) : M env bool :=
  let* s := gets state in
  if inPercent s then
    let* again := percent c in
    if (again : bool) then ret false
    else
      let* s := gets state in
      and_then (if isError s then write_all (take (S i - percentIndex s) (drop (percentIndex s) formatStr)) else output c)
        (on_state (λ _, reset_printf_state) ;; ret false)
  else literal i c.

Fixpoint format_loop (formatStr rest : list Z) (i : nat) : M env Z :=
  match rest with
  | [] => ret 0
  | c :: rest =>
      let* failed := format_char formatStr i c in
      if (failed : bool) then ret (-1) else format_loop formatStr rest (S i)
  end.

(** The result and the state at the end. *)
Definition do_printf (formatStr : list Z) (args : list arg) (w : W) : outcome env Z :=
  format_loop formatStr formatStr 0
    {| state := reset_printf_state; buf := []; args := args; sink := w; charsWritten := 0; stores := [] |}.
End printf.

Arguments state {W} _. Arguments buf {W} _. Arguments args {W} _. Arguments sink {W} _. Arguments charsWritten {W} _. Arguments stores {W} _.

(** ** Into memory: vsprintf.c

    The sink is the memory and the pointer to the next character. *)

Definition writeToStr (c : Z) : M (mem * Z) Z :=
  let* s := gets snd in
  if s =? 0 then ret (-1)
  else
    zoom fst (λ m w, (m, snd w)) (store s c) ;;
    modify (λ w, (fst w, next (snd w))) ;;
    ret 0.

(** The format and the arguments are not in the memory that is written to. *)
Definition vsprintf (itostr : itype → Z → Z → list Z → Z * list Z) (str : Z) (format : list Z) (ap : list arg) : M mem Z := λ m,
  match do_printf writeToStr itostr format ap (m, str) with
  | Ret retval e =>
      match writeToStr 0 (sink e) with
      | Ret _ w => Ret retval (fst w)
      | Leave w => Leave (fst w)
      | Panic => Panic
      | Fault f => Fault f
      end
  | Leave e => Leave (fst (sink e))
  | Panic => Panic
  | Fault f => Fault f
  end.
