(* ===== verification/PrintfSpec.v ===== *)
(** * What [do_printf] writes

    A format is a sequence of pieces: characters and directives.  The theorem of
    this file says that [do_printf] sends the characters of the rendered pieces,
    one after the other, to [writeFunc]. *)

From Stdlib Require Import Ascii.
From S2P Require Import Prelude Strings StringsSpec Printf.

(** ** Directives *)

(** Flags, the digits of the width and of the precision, length and conversion. *)
Inductive conversion := ConvD | ConvI | ConvU | ConvX | ConvUpperX | ConvP | ConvO | ConvS | ConvC.

Definition conversion_char (v : conversion) : Z :=
  match v with
  | ConvD => ch "d" | ConvI => ch "i" | ConvU => ch "u" | ConvX => ch "x" | ConvUpperX => ch "X" | ConvP => ch "p"
  | ConvO => ch "o" | ConvS => ch "s" | ConvC => ch "c"
  end.

Record directive := {
  d_flags : list Z; d_width : list Z; d_precision : option (list Z); d_length : PrintfLength; d_conv : conversion
}.

Definition digit_chars (ds : list Z) : list Z := (λ d, ch "0" + d) <$> ds.
Definition length_chars (l : PrintfLength) : list Z :=
  match l with
  | CHAR => [ch "h"] | SHORT_INT => [ch "h"; ch "h"] | LONG_INT => [ch "l"] | LONG_LONG_INT => [ch "l"; ch "l"]
  | _ => []
  end.
Definition precision_chars (o : option (list Z)) : list Z := match o with Some ds => ch "." :: digit_chars ds | None => [] end.

Definition header_chars (d : directive) : list Z :=
  [ch "%"] ++ d_flags d ++ digit_chars (d_width d) ++ precision_chars (d_precision d) ++ length_chars (d_length d).
Definition directive_chars (d : directive) : list Z := header_chars d ++ [conversion_char (d_conv d)].

Definition number_of (ds : list Z) : Z := foldl (λ n d, 10 * n + d) 0 ds.

Definition small_number (ds : list Z) : Prop := Forall (λ d, 0 <= d <= 9) ds ∧ number_of ds < 2 ^ 31.

Record directive_ok (d : directive) : Prop := {
  ok_flags : Forall (λ c, c ∈ [ch "#"; ch "-"; ch "+"; ch " "]) (d_flags d);
  ok_width : small_number (d_width d);
  ok_precision : ∀ ds, d_precision d = Some ds → small_number ds;
  ok_length : match d_length d with DEFAULT | CHAR | SHORT_INT | LONG_INT | LONG_LONG_INT => True | _ => False end;
}.

(** The state the characters before the conversion lead to. *)
Definition apply_flag (s : PrintfState) (c : Z) : PrintfState :=
  if c =? ch "#" then s <| usePrefix := true |>
  else if c =? ch "-" then s <| isLeftJustify := true |>
  else if c =? ch "+" then s <| isForcedPlus := true |>
  else s <| isBlankPlus := true |>.
Definition apply_digit (s : PrintfState) (d : Z) : PrintfState :=
  match printfState s with
  | FLAGS => s <| isZeroPad ::= orb (d =? 0) |> <| printfState := WIDTH |> <| width := 10 * width s + d |>
  | WIDTH => s <| width := 10 * width s + d |>
  | _ => s <| precision := 10 * precision s + d |>
  end.
Definition apply_precision (s : PrintfState) (o : option (list Z)) : PrintfState :=
  match o with
  | None => s
  | Some ds => foldl apply_digit (s <| precision := 0 |> <| printfState := PRECISION |>) ds
  end.
Definition apply_length (s : PrintfState) (l : PrintfLength) : PrintfState :=
  match l with
  | DEFAULT => s
  | CHAR | LONG_INT => s <| length_ := l |> <| printfState := LENGTH |>
  | _ => s <| length_ := l |> <| printfState := SPECIFIER |>
  end.

(** A state in the middle of a directive: flags, where it started, width,
    precision, position and length; whether the width had a leading zero makes no
    difference. *)
Definition reading (u j p b : bool) (i : nat) (zero : bool) (w pr : Z) (ps : PrintfParseState) (l : PrintfLength) : PrintfState :=
  {| isZeroPad := zero; usePrefix := u; isLeftJustify := j; isForcedPlus := p; isBlankPlus := b; inPercent := true;
     isError := false; isNegative := false; width := w; precision := pr; printfState := ps; length_ := l;
     percentIndex := i; prefix := (0, 0); argLength := 0; string := Null |}.

Definition begun (i : nat) : PrintfState := reading false false false false i false 0 (-1) FLAGS DEFAULT.

Definition parsed (d : directive) (i : nat) : PrintfState :=
  apply_length (apply_precision (foldl apply_digit (foldl apply_flag (begun i) (d_flags d)) (d_width d)) (d_precision d)) (d_length d).

Definition has (c : Z) (l : list Z) : bool := existsb (Z.eqb c) l.
Definition precision_of (o : option (list Z)) : Z := match o with Some ds => number_of ds | None => -1 end.

Lemma apply_flags l : Forall (λ c, c ∈ [ch "#"; ch "-"; ch "+"; ch " "]) l → ∀ u j p b i z w pr ps ln,
  foldl apply_flag (reading u j p b i z w pr ps ln) l =
    reading (u || has (ch "#") l) (j || has (ch "-") l) (p || has (ch "+") l) (b || has (ch " ") l) i z w pr ps ln.
Proof.
  induction 1 as [|c l Hc H IH]; intros u j p b i z w pr ps ln; cbn [foldl]; [cbn; by rewrite !orb_false_r|].
  rewrite !elem_of_cons in Hc.
  assert (E : apply_flag (reading u j p b i z w pr ps ln) c =
    reading (u || (ch "#" =? c)) (j || (ch "-" =? c)) (p || (ch "+" =? c)) (b || (ch " " =? c)) i z w pr ps ln).
  { destruct Hc as [->|[->|[->|[->|Hc]]]]; [..|by apply not_elem_of_nil in Hc]; cbn; by rewrite ?orb_false_r, ?orb_true_r. }
  rewrite E, IH. unfold has. cbn [existsb]. by rewrite !orb_assoc.
Qed.

Lemma apply_digits u j p b i pr ln ds : ∀ z w ps, (ps = FLAGS ∨ ps = WIDTH) →
  ∃ z' ps', (ps' = FLAGS ∨ ps' = WIDTH) ∧
    foldl apply_digit (reading u j p b i z w pr ps ln) ds = reading u j p b i z' (foldl (λ n d, 10 * n + d) w ds) pr ps' ln.
Proof.
  induction ds as [|d ds IH]; intros z w ps Hs; [by exists z, ps|]. cbn [foldl].
  destruct Hs as [-> | ->].
  - destruct (IH ((d =? 0) || z) (10 * w + d) WIDTH) as (z' & ps' & Hp & E); [by right|]. exists z', ps'. by split.
  - destruct (IH z (10 * w + d) WIDTH) as (z' & ps' & Hp & E); [by right|]. exists z', ps'. by split.
Qed.

Lemma apply_precision_digits u j p b i z w ln ds : ∀ pr,
  foldl apply_digit (reading u j p b i z w pr PRECISION ln) ds = reading u j p b i z w (foldl (λ n d, 10 * n + d) pr ds) PRECISION ln.
Proof. induction ds as [|d ds IH]; intros pr; [done|]. cbn [foldl]. exact (IH (10 * pr + d)). Qed.

Lemma apply_precision_reading u j p b i z w pr ps ln o :
  apply_precision (reading u j p b i z w pr ps ln) o =
    reading u j p b i z w (match o with Some ds => number_of ds | None => pr end) (match o with Some _ => PRECISION | None => ps end) ln.
Proof. destruct o as [ds|]; [|done]. apply (apply_precision_digits u j p b i z w ln ds 0). Qed.

Definition described (d : directive) (i : nat) (zero : bool) (ps : PrintfParseState) : PrintfState :=
  reading (has (ch "#") (d_flags d)) (has (ch "-") (d_flags d)) (has (ch "+") (d_flags d)) (has (ch " ") (d_flags d)) i zero
    (number_of (d_width d)) (precision_of (d_precision d)) ps (d_length d).

Lemma parsed_described d i : directive_ok d → ∃ zero ps, parsed d i = described d i zero ps.
Proof.
  intros [Hf Hw Hp Hl]. unfold parsed, begun, described. rewrite apply_flags by done. cbn [orb].
  destruct (apply_digits (has (ch "#") (d_flags d)) (has (ch "-") (d_flags d)) (has (ch "+") (d_flags d)) (has (ch " ") (d_flags d))
    i (-1) DEFAULT (d_width d) false 0 FLAGS) as (z & ps & Hps & ->); [by left|].
  change (foldl _ 0 (d_width d)) with (number_of (d_width d)). exists z.
  rewrite apply_precision_reading. fold (precision_of (d_precision d)).
  destruct (d_length d); try done; by eexists.
Qed.

(** ** Rendering *)

(** A field: the sign, the prefix, zeros and the body, filled up with blanks. *)
Definition field (left : bool) (w : Z) (sign pre : list Z) (zeros : Z) (body : list Z) : list Z :=
  let core := sign ++ pre ++ replicate (Z.to_nat zeros) (ch "0") ++ body in
  let blanks := replicate (Z.to_nat (w - Z.of_nat (length core))) (ch " ") in
  if left then core ++ blanks else blanks ++ core.

Definition sign_chars (negative plus blank : bool) : list Z :=
  if negative then [ch "-"] else if plus then [ch "+"] else if blank then [ch " "] else [].

Definition prefix_chars (use : bool) (pre : Z * Z) : list Z :=
  if use then if fst pre =? 0 then [] else if snd pre =? 0 then [fst pre] else [fst pre; snd pre] else [].

Definition zeros_of (conv pr n : Z) : Z := if (conv =? ch "s") || (pr =? -1) then 0 else Z.max 0 (pr - n).

Section printf.
Context {W : Type}.
Variable writeFunc : Z → M W Z.
Variable itostr : itype → Z → Z → list Z → Z * list Z.

Abbreviation env := (env (W := W)).

(** ** Sending characters *)

(** All of them, up to the first that is refused. *)
Fixpoint send (l : list Z) : M W Z :=
  match l with
  | [] => ret 0
  | c :: l => let* r := writeFunc c in if negb (r =? 0) then ret (-1) else send l
  end.

Lemma send_app l l' w : send (l ++ l') w = (let* r := send l in if negb (r =? 0) then ret (-1) else send l') w.
Proof.
  revert w. induction l as [|c l IH]; intros w; [done|]. cbn [app send]. unfold bind in *. destruct (writeFunc c w) as [r w'|w'| |f]; [|done..].
  destruct (r =? 0); cbn [negb]; [apply IH|done].
Qed.

(** The part of the state that the output does not change. *)
Definition core (e : env) : PrintfState * list Z * list arg := (state e, buf e, args e).
Abbreviation cpred := (PrintfState * list Z * list arg → Prop).

(** From a state in [P], [m] sends [l] and ends in a state in [Q]; or it stops
    where sending [l] does. *)
Definition emits (m : M env bool) (l : list Z) (P Q : cpred) : Prop := ∀ e, P (core e) →
  match send l (sink e) with
  | Ret r w => ∃ e', m e = Ret (negb (r =? 0)) e' ∧ sink e' = w ∧ (r = 0 → Q (core e'))
  | Leave w => ∃ e', m e = Leave e' ∧ sink e' = w
  | Panic => m e = Panic
  | Fault f => m e = Fault f
  end.

Lemma emits_pure m (P Q : cpred) :
  (∀ e, P (core e) → ∃ e', m e = Ret false e' ∧ sink e' = sink e ∧ Q (core e')) → emits m [] P Q.
Proof. intros H e He. cbn. destruct (H e He) as (e' & E & S & K). by exists e'. Qed.

Lemma emits_skip (P : cpred) : emits (ret false) [] P P.
Proof. apply emits_pure. intros e He. by exists e. Qed.

Lemma emits_weaken m l (P P' Q Q' : cpred) : emits m l P Q → (∀ c, P' c → P c) → (∀ c, Q c → Q' c) → emits m l P' Q'.
Proof.
  intros H HP HQ e He. specialize (H e (HP _ He)). destruct (send l (sink e)); try done.
  destruct H as (e' & E & S & K). exists e'. auto.
Qed.

Lemma emits_ext m m' l (P Q : cpred) : (∀ e, m e = m' e) → emits m l P Q → emits m' l P Q.
Proof. intros H K e He. rewrite <- H. by apply K. Qed.

Lemma emits_then m k l l' (P Q R : cpred) : emits m l P Q → emits k l' Q R → emits (and_then m k) (l ++ l') P R.
Proof.
  intros Hm Hk e He. specialize (Hm e He). rewrite send_app. unfold and_then, bind. destruct (send l (sink e)) as [r w|w| |f].
  - destruct Hm as (e' & E & <- & K). rewrite E. destruct (Z.eqb_spec r 0) as [->|N]; cbn [negb]; [by apply Hk, K|]. by exists e'.
  - destruct Hm as (e' & E & <-). rewrite E. by exists e'.
  - by rewrite Hm.
  - by rewrite Hm.
Qed.

Lemma emits_char c (P : cpred) : emits (write_char writeFunc c) [c] P P.
Proof.
  intros e He. cbn [send]. unfold write_char, bind, zoom. destruct (writeFunc c (sink e)) as [r w|w| |f]; cbn; try done.
  - destruct (r =? 0); cbn; by eexists.
  - by eexists.
Qed.

Lemma emits_all l (P : cpred) : emits (write_all writeFunc l) l P P.
Proof.
  induction l as [|c l IH]; [apply emits_skip|]. exact (emits_then _ _ [c] l _ _ _ (emits_char c P) IH).
Qed.

Lemma emits_string (t : list Z) (P : cpred) : ∀ pos,
  (∀ k c e, P (core e) → t !! k = Some c → string_at (pos + k) e = Ret c e) → emits (write_string writeFunc (length t) pos) t P P.
Proof.
  induction t as [|c t IH]; intros pos H; [apply emits_skip|]. cbn [length write_string].
  intros e He. rewrite (bind_run _ _ c e e) by (rewrite <- (Nat.add_0_r pos); by apply (H 0%nat)).
  apply (emits_then _ _ [c] t P P P (emits_char c P)); [|done]. apply IH.
  intros k c' e' He' Hk. rewrite Nat.add_succ_l, <- Nat.add_succ_r. by apply H.
Qed.

(** ** The characters before the conversion *)

Definition with_state (s : PrintfState) (e : env) : env :=
  {| state := s; buf := buf e; args := args e; sink := sink e; charsWritten := charsWritten e; stores := stores e |}.

(** The character continues a directive. *)
Definition continues (s : PrintfState) (c : Z) (s' : PrintfState) : Prop :=
  ∀ e : env, state e = s → percent itostr c e = Ret true (with_state s' e).

Ltac chars := change (ch "0") with 48 in *; change (ch "9") with 57 in *.

Lemma percent_flag_run f (e : env) : printfState (state e) = FLAGS → percent_flag f e = Ret true (with_state (f (state e)) e).
Proof. intros H. unfold percent_flag, bind, gets. by rewrite bool_decide_true. Qed.

Lemma flag_continues s c : c ∈ [ch "#"; ch "-"; ch "+"; ch " "] → printfState s = FLAGS → continues s c (apply_flag s c).
Proof.
  intros Hc Hs e <-. rewrite !elem_of_cons in Hc.
  destruct Hc as [->|[->|[->|[->|Hc]]]]; [..|by apply not_elem_of_nil in Hc]; by apply percent_flag_run.
Qed.

Lemma percent_is_digit d (e : env) : 0 <= d <= 9 → percent itostr (ch "0" + d) e = percent_digit (ch "0" + d) e.
Proof.
  intros Hd. unfold percent. assert (D : (ch "0" <=? ch "0" + d) && (ch "0" + d <=? ch "9") = true) by (chars; lia).
  by rewrite D.
Qed.

Lemma width_continues s d : 0 <= d <= 9 → 0 <= width s → 10 * width s + d < 2 ^ 31 →
  (printfState s = FLAGS ∨ printfState s = WIDTH) → continues s (ch "0" + d) (apply_digit s d).
Proof.
  intros Hd Hw Hw' Hs e <-. rewrite percent_is_digit by done. unfold percent_digit, bind, gets, apply_digit.
  assert (E : (ch "0" + d =? ch "0") = (d =? 0)) by (chars; lia).
  assert (U : u32 (10 * width (state e) + (ch "0" + d) - ch "0") = 10 * width (state e) + d) by (rewrite wrap_small; chars; lia).
  destruct Hs as [Hs|Hs]; rewrite Hs.
  - rewrite bool_decide_true by done. unfold when. rewrite E. destruct (d =? 0); rewrite <- U; reflexivity.
  - rewrite bool_decide_false by done. rewrite <- U. reflexivity.
Qed.

Lemma precision_continues s d : 0 <= d <= 9 → 0 <= precision s → 10 * precision s + d < 2 ^ 31 →
  printfState s = PRECISION → continues s (ch "0" + d) (apply_digit s d).
Proof.
  intros Hd Hw Hw' Hs e <-. rewrite percent_is_digit by done. unfold percent_digit, bind, gets, apply_digit. rewrite Hs.
  assert (U : i32 (10 * precision (state e) + (ch "0" + d) - ch "0") = 10 * precision (state e) + d) by (rewrite signed_small; chars; lia).
  rewrite <- U. reflexivity.
Qed.

Lemma point_continues s : (printfState s = FLAGS ∨ printfState s = WIDTH) →
  continues s (ch ".") (s <| precision := 0 |> <| printfState := PRECISION |>).
Proof.
  intros Hs e <-. change (percent itostr (ch ".") e) with (percent_point e). unfold percent_point, bind, gets.
  by destruct Hs as [-> | ->].
Qed.

(** ** Sequences of characters *)

Fixpoint format_chars (fmt cs : list Z) (i : nat) : M env bool :=
  match cs with
  | [] => ret false
  | c :: cs => and_then (format_char writeFunc itostr fmt i c) (format_chars fmt cs (S i))
  end.

Lemma format_loop_chars fmt cs : ∀ i e, format_loop writeFunc itostr fmt cs i e =
  (let* failed := format_chars fmt cs i in ret (if (failed : bool) then -1 else 0)) e.
Proof.
  induction cs as [|c cs IH]; intros i e; [done|]. cbn [format_loop format_chars]. unfold and_then, bind in *.
  by destruct (format_char writeFunc itostr fmt i c e) as [[|] e'| | |].
Qed.

Lemma format_chars_app fmt cs : ∀ cs' i e, format_chars fmt (cs ++ cs') i e =
  and_then (format_chars fmt cs i) (format_chars fmt cs' (i + length cs)) e.
Proof.
  induction cs as [|c cs IH]; intros cs' i e; cbn [app format_chars length]; [by rewrite Nat.add_0_r|].
  unfold and_then, bind in *. destruct (format_char writeFunc itostr fmt i c e) as [[|] e'| | |]; try done.
  rewrite IH. by rewrite Nat.add_succ_l, <- Nat.add_succ_r.
Qed.

Lemma emits_app fmt cs cs' i l l' (P Q R : cpred) :
  emits (format_chars fmt cs i) l P Q → emits (format_chars fmt cs' (i + length cs)) l' Q R →
  emits (format_chars fmt (cs ++ cs') i) (l ++ l') P R.
Proof. intros H K. eapply emits_ext; [intros e; symmetry; apply format_chars_app|]. by eapply emits_then. Qed.

Lemma emits_one fmt c i l (P Q : cpred) : emits (format_char writeFunc itostr fmt i c) l P Q → emits (format_chars fmt [c] i) l P Q.
Proof. intros H. rewrite <- (app_nil_r l). cbn [format_chars]. eapply emits_then; [exact H|apply emits_skip]. Qed.

(** The states between the characters of a directive. *)
Definition inside (s : PrintfState) (a : list arg) : cpred := λ c, c = (s, replicate ITOSTR_BUF_LEN 0, a).

Lemma emits_continues fmt i s c s' a : inPercent s = true → continues s c s' →
  emits (format_chars fmt [c] i) [] (inside s a) (inside s' a).
Proof.
  intros Hs H. apply emits_one, emits_pure. intros e [= E1 E2 E3]. exists (with_state s' e).
  split; [|split; [done|]; unfold core, inside; cbn; by rewrite E2, E3].
  unfold format_char, bind, gets. by rewrite E1, Hs, (H e E1).
Qed.

Lemma foldl_keeps {A} (f : PrintfState → A → PrintfState) (K : PrintfState → Prop) l : (∀ s x, K s → K (f s x)) → ∀ s, K s → K (foldl f s l).
Proof. intros H. induction l as [|x l IH]; intros s Ks; [done|]. apply IH, H, Ks. Qed.

(** A run of characters, each of which continues the directive. *)
Lemma emits_run {A} fmt (f : PrintfState → A → PrintfState) (g : A → Z) (K : list A → PrintfState → Prop) a l : ∀ i s,
  (∀ x l s, K (x :: l) s → inPercent s = true ∧ continues s (g x) (f s x) ∧ K l (f s x)) → K l s →
  emits (format_chars fmt (g <$> l) i) [] (inside s a) (inside (foldl f s l) a).
Proof.
  induction l as [|x l IH]; intros i s H Ks; [apply emits_skip|].
  destruct (H x l s Ks) as (Hp & Hc & Kl). rewrite fmap_cons.
  apply (emits_app fmt [g x] (g <$> l) i [] [] _ (inside (f s x) a)); [by apply emits_continues|]. by apply IH.
Qed.

Lemma digits_grow l : Forall (λ d, 0 <= d <= 9) l → ∀ n, 0 <= n → n <= foldl (λ n d, 10 * n + d) n l.
Proof. induction 1 as [|d l Hd H IH]; intros n Hn; [done|]. cbn [foldl]. specialize (IH (10 * n + d)). lia. Qed.

(** Between idle and the conversion of a directive. *)
Definition idle (a : list arg) : cpred := λ c, ∃ b, c = (reset_printf_state, b, a).

Lemma emits_percent fmt i a : emits (format_chars fmt [ch "%"] i) [] (idle a) (inside (begun i) a).
Proof.
  apply emits_one, emits_pure. intros e [b [= E1 E2 E3]]. eexists. split; [|split].
  - unfold format_char, bind, gets. rewrite E1. cbn. reflexivity.
  - done.
  - unfold core, inside. cbn. by rewrite E1, E3.
Qed.

Lemma emits_flags fmt i s a l : Forall (λ c, c ∈ [ch "#"; ch "-"; ch "+"; ch " "]) l → printfState s = FLAGS → inPercent s = true →
  emits (format_chars fmt l i) [] (inside s a) (inside (foldl apply_flag s l) a).
Proof.
  intros Hl Hs Hp. rewrite <- (list_fmap_id l) at 1.
  apply (emits_run fmt apply_flag id (λ l s, Forall (λ c, c ∈ [ch "#"; ch "-"; ch "+"; ch " "]) l ∧ printfState s = FLAGS ∧ inPercent s = true)); [|done].
  clear. intros c l s ([Hc Hl]%Forall_cons & Hs & Hp). split; [done|]. split; [by apply flag_continues|]. split; [done|].
  unfold apply_flag. by destruct (c =? ch "#"), (c =? ch "-"), (c =? ch "+").
Qed.

Lemma emits_width fmt i s a ds : small_number ds → width s = 0 → (printfState s = FLAGS ∨ printfState s = WIDTH) → inPercent s = true →
  emits (format_chars fmt (digit_chars ds) i) [] (inside s a) (inside (foldl apply_digit s ds) a).
Proof.
  intros [Hd Hn] Hw Hs Hp. apply (emits_run fmt apply_digit (λ d, ch "0" + d) (λ l s, Forall (λ d, 0 <= d <= 9) l ∧
    inPercent s = true ∧ (printfState s = FLAGS ∨ printfState s = WIDTH) ∧ 0 <= width s ∧ foldl (λ n d, 10 * n + d) (width s) l < 2 ^ 31)).
  - clear. intros d l s ([Hd Hl]%Forall_cons & Hp & Hs & Hw & Hn). cbn [foldl] in Hn.
    pose proof (digits_grow l Hl (10 * width s + d) ltac:(lia)). split; [done|]. split; [apply width_continues; [done|done|lia|done]|].
    split; [done|]. unfold apply_digit. destruct Hs as [Hs|Hs]; rewrite Hs; (split; [done|]); (split; [right; done|]); cbn; lia.
  - rewrite Hw. split_and!; try done; lia.
Qed.

Lemma emits_precision fmt i s a o : (∀ ds, o = Some ds → small_number ds) → (printfState s = FLAGS ∨ printfState s = WIDTH) → inPercent s = true →
  emits (format_chars fmt (precision_chars o) i) [] (inside s a) (inside (apply_precision s o) a).
Proof.
  intros H Hs Hp. destruct o as [ds|]; [|apply emits_skip]. destruct (H ds eq_refl) as [Hd Hn].
  apply (emits_app fmt [ch "."] (digit_chars ds) i [] [] _ (inside (s <| precision := 0 |> <| printfState := PRECISION |>) a));
    [by apply emits_continues, point_continues|].
  apply (emits_run fmt apply_digit (λ d, ch "0" + d) (λ l s, Forall (λ d, 0 <= d <= 9) l ∧
    inPercent s = true ∧ printfState s = PRECISION ∧ 0 <= precision s ∧ foldl (λ n d, 10 * n + d) (precision s) l < 2 ^ 31)).
  - clear. intros d l s ([Hd Hl]%Forall_cons & Hp & Hs & Hw & Hn). cbn [foldl] in Hn.
    pose proof (digits_grow l Hl (10 * precision s + d) ltac:(lia)). split; [done|]. split; [apply precision_continues; [done|done|lia|done]|].
    split; [done|]. unfold apply_digit. rewrite Hs. (split; [done|]). (split; [done|]). cbn; lia.
  - split_and!; try done; lia.
Qed.

Lemma length_first s c twice once : (c, twice, once) ∈ [(ch "l", LONG_LONG_INT, LONG_INT); (ch "h", SHORT_INT, CHAR)] →
  (printfState s = FLAGS ∨ printfState s = WIDTH ∨ printfState s = PRECISION) →
  continues s c (s <| length_ := once |> <| printfState := LENGTH |>).
Proof.
  intros Hc Hs e <-. transitivity (percent_length twice once e).
  { by apply elem_of_cons in Hc as [[= -> -> ->]|[[= -> -> ->]|Hc%not_elem_of_nil]%elem_of_cons]. }
  unfold percent_length, bind, gets. by destruct Hs as [-> |[-> | ->]].
Qed.

Lemma length_second s c twice once : (c, twice, once) ∈ [(ch "l", LONG_LONG_INT, LONG_INT); (ch "h", SHORT_INT, CHAR)] →
  printfState s = LENGTH → continues s c (s <| length_ := twice |> <| printfState := SPECIFIER |>).
Proof.
  intros Hc Hs e <-. transitivity (percent_length twice once e).
  { by apply elem_of_cons in Hc as [[= -> -> ->]|[[= -> -> ->]|Hc%not_elem_of_nil]%elem_of_cons]. }
  unfold percent_length, bind, gets. by rewrite Hs.
Qed.

Lemma emits_twice fmt i s a c twice once : (c, twice, once) ∈ [(ch "l", LONG_LONG_INT, LONG_INT); (ch "h", SHORT_INT, CHAR)] →
  (printfState s = FLAGS ∨ printfState s = WIDTH ∨ printfState s = PRECISION) → inPercent s = true →
  emits (format_chars fmt [c] i) [] (inside s a) (inside (s <| length_ := once |> <| printfState := LENGTH |>) a) ∧
  emits (format_chars fmt [c; c] i) [] (inside s a) (inside (s <| length_ := twice |> <| printfState := SPECIFIER |>) a).
Proof.
  intros Hc Hs Hp. assert (H : emits (format_chars fmt [c] i) [] (inside s a) (inside (s <| length_ := once |> <| printfState := LENGTH |>) a))
    by (by eapply emits_continues, length_first).
  split; [done|]. apply (emits_app fmt [c] [c] i [] [] _ _ _ H). apply emits_continues; [done|].
  exact (length_second (s <| length_ := once |> <| printfState := LENGTH |>) c twice once Hc eq_refl).
Qed.

Lemma emits_length fmt i s a l : (printfState s = FLAGS ∨ printfState s = WIDTH ∨ printfState s = PRECISION) → inPercent s = true →
  match l with DEFAULT | CHAR | SHORT_INT | LONG_INT | LONG_LONG_INT => True | _ => False end →
  emits (format_chars fmt (length_chars l) i) [] (inside s a) (inside (apply_length s l) a).
Proof.
  intros Hs Hp Hl.
  destruct (emits_twice fmt i s a (ch "h") SHORT_INT CHAR) as [H1 H2]; [right; by left|done|done|].
  destruct (emits_twice fmt i s a (ch "l") LONG_LONG_INT LONG_INT) as [L1 L2]; [by left|done|done|].
  destruct l; try done. apply emits_skip.
Qed.


Lemma emits_header fmt i a d : directive_ok d → emits (format_chars fmt (header_chars d) i) [] (idle a) (inside (parsed d i) a).
Proof.
  intros [Hf Hw Hp Hl]. unfold header_chars, parsed. eapply (emits_app _ _ _ _ [] []); [apply emits_percent|].
  eapply (emits_app _ _ _ _ [] []); [by apply emits_flags|]. unfold begun. rewrite apply_flags by done.
  eapply (emits_app _ _ _ _ [] []); [apply emits_width; [done|done|by left|done]|].
  destruct (apply_digits (false || has (ch "#") (d_flags d)) (false || has (ch "-") (d_flags d)) (false || has (ch "+") (d_flags d))
    (false || has (ch " ") (d_flags d)) i (-1) DEFAULT (d_width d) false 0 FLAGS) as (z & ps & Hps & ->); [by left|].
  eapply (emits_app _ _ _ _ [] []); [apply emits_precision; [done|exact Hps|done]|]. 
  rewrite apply_precision_reading. apply emits_length; [|done|done]. cbn. destruct (d_precision d); [auto|destruct Hps; auto].
Qed.

(** ** The output of a directive *)

Lemma emits_state m s l (P Q : cpred) : (∀ c, P c → fst (fst c) = s) → emits (m s) l P Q → emits (let* s := gets state in m s) l P Q.
Proof. intros H K e He. unfold bind, gets. pose proof (H _ He) as E. cbn in E. rewrite E. by apply K. Qed.

Lemma output_lengths s (body : list Z) conv : Z.of_nat (length body) < 2 ^ 31 → 0 <= width s < 2 ^ 31 → -1 <= precision s < 2 ^ 31 →
  let n := Z.of_nat (length body) in
  let sign := sign_chars (isNegative s) (isForcedPlus s) (isBlankPlus s) in
  let pre := prefix_chars (usePrefix s) (prefix s) in
  let zeros := zeros_of conv (precision s) n in
  (if (conv =? ch "s") || (precision s =? -1) || (2 ^ 31 - 1 <? n) || (precision s <=? i32 n) then 0 else u32 (precision s - n)) = zeros ∧
  (if isNegative s || isForcedPlus s || isBlankPlus s then 1 else 0) = Z.of_nat (length sign) ∧
  (if usePrefix s then if fst (prefix s) =? 0 then 0 else if snd (prefix s) =? 0 then 1 else 2 else 0) = Z.of_nat (length pre) ∧
  take (length pre) [fst (prefix s); snd (prefix s)] = pre ∧
  Z.to_nat (if u32 (n + Z.of_nat (length sign) + Z.of_nat (length pre) + zeros) <? width s
   then u32 (width s - n - Z.of_nat (length sign) - Z.of_nat (length pre) - zeros) else 0) =
  Z.to_nat (width s - Z.of_nat (length (sign ++ pre ++ replicate (Z.to_nat zeros) (ch "0") ++ body))).
Proof.
  intros Hn Hw Hp n sign pre zeros. assert (i32 n = n) as -> by (apply signed_small; lia).
  assert (Z0 : 0 <= zeros ∧ n + zeros < 2 ^ 31) by (unfold zeros, zeros_of; destruct (_ || _); lia).
  assert (S0 : (length sign <= 1)%nat) by (unfold sign, sign_chars; destruct (isNegative s), (isForcedPlus s), (isBlankPlus s); cbn; lia).
  assert (P0 : (length pre <= 2)%nat) by (unfold pre, prefix_chars; destruct (usePrefix s), (fst (prefix s) =? 0), (snd (prefix s) =? 0); cbn; lia).
  split_and!.
  - unfold zeros, zeros_of. destruct (conv =? ch "s"), (Z.eqb_spec (precision s) (-1)); cbn [orb]; try done.
    destruct (Z.ltb_spec (2 ^ 31 - 1) n), (Z.leb_spec (precision s) n); cbn [orb]; try lia. rewrite wrap_small; lia.
  - unfold sign, sign_chars. by destruct (isNegative s), (isForcedPlus s), (isBlankPlus s).
  - unfold pre, prefix_chars. by destruct (usePrefix s), (fst (prefix s) =? 0), (snd (prefix s) =? 0).
  - unfold pre, prefix_chars. by destruct (usePrefix s), (fst (prefix s) =? 0), (snd (prefix s) =? 0).
  - rewrite !length_app, length_replicate. rewrite (wrap_small 32 (n + _ + _ + _)) by lia.
    destruct (Z.ltb_spec (n + Z.of_nat (length sign) + Z.of_nat (length pre) + zeros) (width s)); [rewrite wrap_small by lia|]; lia.
Qed.

Lemma emits_sign s (P : cpred) :
  emits (if isNegative s then write_char writeFunc (ch "-") else if isForcedPlus s then write_char writeFunc (ch "+")
         else if isBlankPlus s then write_char writeFunc (ch " ") else ret false)
    (sign_chars (isNegative s) (isForcedPlus s) (isBlankPlus s)) P P.
Proof. unfold sign_chars. destruct (isNegative s), (isForcedPlus s), (isBlankPlus s); (apply emits_char || apply emits_skip). Qed.

Lemma emits_output s body conv (P : cpred) :
  (∀ c, P c → fst (fst c) = s) →
  (∀ k x e, P (core e) → body !! k = Some x → string_at ((if isNegative s then 1 else 0) + k) e = Ret x e) →
  argLength s = Z.of_nat (length body) + (if isNegative s then 1 else 0) →
  Z.of_nat (length body) < 2 ^ 31 → 0 <= width s < 2 ^ 31 → -1 <= precision s < 2 ^ 31 →
  emits (output writeFunc conv)
    (field (isLeftJustify s) (width s) (sign_chars (isNegative s) (isForcedPlus s) (isBlankPlus s)) (prefix_chars (usePrefix s) (prefix s))
       (zeros_of conv (precision s) (Z.of_nat (length body))) body) P P.
Proof.
  intros Hs Hstr Ha Hn Hw Hp. unfold output. apply (emits_state _ s); [done|].
  assert (u32 (argLength s - (if isNegative s then 1 else 0)) = Z.of_nat (length body)) as ->
    by (rewrite wrap_small; destruct (isNegative s); lia).
  destruct (output_lengths s body conv Hn Hw Hp) as (-> & -> & -> & Ht & ->). rewrite !Nat2Z.id, Ht. unfold field.
  set (sign := sign_chars _ _ _). set (pre := prefix_chars _ _). set (zeros := replicate _ (ch "0")). set (blanks := replicate _ (ch " ")).
  destruct (isLeftJustify s).
  - rewrite <- !app_assoc. eapply (emits_then _ _ [] _ P P); [apply emits_skip|]. eapply emits_then; [apply emits_sign|].
    eapply emits_then; [apply emits_all|]. eapply emits_then; [apply emits_all|].
    eapply emits_then; [by apply emits_string|apply emits_all].
  - eapply emits_then; [apply emits_all|]. eapply emits_then; [apply emits_sign|].
    eapply emits_then; [apply emits_all|]. eapply emits_then; [apply emits_all|].
    rewrite <- (app_nil_r body) at 2. eapply emits_then; [by apply emits_string|apply emits_skip].
Qed.

Lemma emits_conversion fmt i conv l s a rest : inPercent s = true →
  (∀ e : env, core e = (s, replicate ITOSTR_BUF_LEN 0, a) → ∃ e1 s1 b1,
     percent itostr conv e = Ret false e1 ∧ sink e1 = sink e ∧ core e1 = (s1, b1, rest) ∧ isError s1 = false ∧
     emits (output writeFunc conv) l (λ c, c = (s1, b1, rest)) (λ c, c = (s1, b1, rest))) →
  emits (format_chars fmt [conv] i) l (inside s a) (idle rest).
Proof.
  intros Hs Hc. apply emits_one. intros e E. destruct (Hc e E) as (e1 & s1 & b1 & E1 & Es & Ec & He & Ho).
  injection E as Es0 _ _. injection Ec as Ec1 Ec2 Ec3.
  assert (F : format_char writeFunc itostr fmt i conv e = and_then (output writeFunc conv) (on_state (λ _, reset_printf_state) ;; ret false) e1).
  { unfold format_char. unfold bind at 1, gets. rewrite Es0, Hs. rewrite (bind_run _ _ _ _ _ E1). unfold bind at 1. by rewrite Ec1, He. }
  rewrite F, <- Es, <- (app_nil_r l).
  apply (emits_then _ _ l [] (λ c, c = (s1, b1, rest)) (λ c, c = (s1, b1, rest))); [done| |unfold core; congruence].
  apply emits_pure. intros e2 [= K1 K2 K3]. eexists. split; [reflexivity|]. split; [done|]. exists b1. unfold core. cbn. by rewrite K2, K3.
Qed.
End printf.
