(* ===== verification/PrintfRender.v ===== *)
(** * Formatted output is the rendering of the format

    What the directives of a format stand for, given the text [itostr] makes of a
    number, and the theorems about [do_printf] and [vsprintf]. *)

From Stdlib Require Import Ascii.
From S2P Require Import Prelude Strings StringsSpec Printf PrintfSpec.

(** ** Arguments *)

Definition unsigned_of (l : PrintfLength) (a : arg) : option (itype * Z) :=
  match l, a with
  | LONG_LONG_INT, LongLongArg v => Some (TULongLong, u64 v)
  | CHAR, IntArg v => Some (TUChar, u8 v)
  | SHORT_INT, IntArg v => Some (TUShort, u16 v)
  | LONG_INT, IntArg v => Some (TULong, u32 v)
  | DEFAULT, IntArg v => Some (TUInt, u32 v)
  | _, _ => None
  end.
Definition signed_of (l : PrintfLength) (a : arg) : option (itype * Z) :=
  match l, a with
  | LONG_LONG_INT, LongLongArg v => Some (TLongLong, signed 64 v)
  | CHAR, IntArg v => Some (TChar, signed 8 v)
  | SHORT_INT, IntArg v => Some (TShort, signed 16 v)
  | LONG_INT, IntArg v => Some (TLong, i32 v)
  | DEFAULT, IntArg v => Some (TInt, i32 v)
  | _, _ => None
  end.

(** The values of a type, and the bases a number of it is written in. *)
Definition in_type (k : itype) (v : Z) : Prop :=
  match k with
  | TUChar => 0 <= v < 2 ^ 8 | TUShort => 0 <= v < 2 ^ 16 | TUInt | TULong => 0 <= v < 2 ^ 32 | TULongLong => 0 <= v < 2 ^ 64
  | TChar => - 2 ^ 7 <= v < 2 ^ 7 | TShort => - 2 ^ 15 <= v < 2 ^ 15 | TInt | TLong => - 2 ^ 31 <= v < 2 ^ 31
  | TLongLong => - 2 ^ 63 <= v < 2 ^ 63
  end.
Definition asked (k : itype) (base : Z) : Prop :=
  match k with
  | TUChar | TUShort | TUInt | TULong | TULongLong => base = 8 ∨ base = 10 ∨ base = 16
  | _ => base = 10
  end.

Lemma unsigned_of_in l a x : unsigned_of l a = Some x → in_type (fst x) (snd x) ∧ ∀ base, base = 8 ∨ base = 10 ∨ base = 16 → asked (fst x) base.
Proof. destruct l, a; cbn; try done; intros [= <-]; (split; [by apply wrap_range|done]). Qed.
Lemma signed_of_in l a x : signed_of l a = Some x → in_type (fst x) (snd x) ∧ asked (fst x) 10.
Proof.
  destruct l, a; cbn; try done; intros [= <-]; (split; [|done]); first [by apply (signed_range 32)|by apply (signed_range 8)|by apply (signed_range 16)|by apply (signed_range 64)].
Qed.

(** ** What a directive stands for *)

(** Whether it is negative, its prefix, its precision and its characters. *)
Record rendering := { r_negative : bool; r_prefix : Z * Z; r_precision : Z; r_body : list Z }.

Section render.
Variable text : itype → Z → Z → list Z.

Definition starts_minus (t : list Z) : bool := match t with c :: _ => c =? ch "-" | [] => false end.

Definition number_text (base : Z) (x : itype * Z) : list Z := text (fst x) (snd x) base.

Definition rendering_of (d : directive) (a : arg) : option rendering :=
  let pr := precision_of (d_precision d) in
  let number (pre : Z * Z) (pr : Z) (f : Z → Z) (base : Z) :=
    x ← unsigned_of (d_length d) a;
    Some {| r_negative := false; r_prefix := if has (ch "#") (d_flags d) then pre else (0, 0); r_precision := pr;
            r_body := f <$> number_text base x |} in
  match d_conv d with
  | ConvD | ConvI =>
      x ← signed_of (d_length d) a;
      let t := number_text 10 x in
      Some {| r_negative := starts_minus t; r_prefix := (0, 0); r_precision := pr; r_body := if starts_minus t then List.tl t else t |}
  | ConvU => number (0, 0) pr id 10
  | ConvX => number (ch "0", ch "x") pr id 16
  | ConvUpperX => number (ch "0", ch "X") pr uppercase 16
  | ConvP => number (ch "0", ch "x") 8 id 16
  | ConvO => number (ch "0", 0) pr id 8
  | ConvS =>
      match a with
      | StrArg s =>
          if pr <=? Z.of_nat (length s)
          then Some {| r_negative := false; r_prefix := (0, 0); r_precision := pr; r_body := if pr =? -1 then s else take (Z.to_nat pr) s |}
          else None
      | _ => None
      end
  | ConvC =>
      match a with
      | IntArg v => Some {| r_negative := false; r_prefix := (0, 0); r_precision := pr; r_body := [signed 8 v] |}
      | _ => None
      end
  end.

Definition render (d : directive) (r : rendering) : list Z :=
  field (has (ch "-") (d_flags d)) (number_of (d_width d))
    (sign_chars (r_negative r) (has (ch "+") (d_flags d)) (has (ch " ") (d_flags d)))
    (prefix_chars (has (ch "#") (d_flags d)) (r_prefix r))
    (zeros_of (conversion_char (d_conv d)) (r_precision r) (Z.of_nat (length (r_body r)))) (r_body r).
End render.

(** ** Conversions *)

Section conversions.
Context {W : Type}.
Variable writeFunc : Z → M W Z.
Variable itostr : itype → Z → Z → list Z → Z * list Z.
Variable text : itype → Z → Z → list Z.

Abbreviation env := (env (W := W)).

Definition with_args (l : list arg) (e : env) : env :=
  {| state := state e; buf := buf e; args := l; sink := sink e; charsWritten := charsWritten e; stores := stores e |}.
Definition with_buf (b : list Z) (e : env) : env :=
  {| state := state e; buf := b; args := args e; sink := sink e; charsWritten := charsWritten e; stores := stores e |}.

Lemma unsigned_arg_run l a x rest (e : env) : unsigned_of l a = Some x → args e = a :: rest → unsigned_arg l e = Ret x (with_args rest e).
Proof.
  intros H E. unfold unsigned_arg, int_arg, long_long_arg, pop, bind, gets.
  destruct l, a; cbn in H; try done; injection H as <-; rewrite E; reflexivity.
Qed.
Lemma signed_arg_run l a x rest (e : env) : signed_of l a = Some x → args e = a :: rest → signed_arg l e = Ret x (with_args rest e).
Proof.
  intros H E. unfold signed_arg, int_arg, long_long_arg, pop, bind, gets.
  destruct l, a; cbn in H; try done; injection H as <-; rewrite E; reflexivity.
Qed.

(** [itostr] writes the text of a number to the start of the buffer, for the
    types, values and bases the conversions ask for. *)
Record itostr_ok : Prop := {
  itostr_text k v base b : in_type k v → asked k base → ∃ rest, itostr k v base b = (Z.of_nat (length (text k v base)), text k v base ++ rest);
  text_length k v base : in_type k v → asked k base → 0 < Z.of_nat (length (text k v base));
}.

Lemma to_text_run base x (e : env) : itostr_ok → in_type (fst x) (snd x) → asked (fst x) base → ∃ rest,
  to_text itostr base x e = Ret (Z.of_nat (length (number_text text base x))) (with_buf (number_text text base x ++ rest) e) ∧
  0 < Z.of_nat (length (number_text text base x)).
Proof.
  intros H Ht Hb. destruct (itostr_text H (fst x) (snd x) base (buf e) Ht Hb) as [rest E]. exists rest.
  split; [|by apply text_length]. unfold to_text, bind, gets, number_text. by rewrite E.
Qed.

(** The state after the conversion. *)
Definition converted (d : directive) (i : nat) (z : bool) (ps : PrintfParseState) (r : rendering) (src : source) : PrintfState :=
  {| isZeroPad := z; usePrefix := has (ch "#") (d_flags d); isLeftJustify := has (ch "-") (d_flags d);
     isForcedPlus := has (ch "+") (d_flags d); isBlankPlus := has (ch " ") (d_flags d); inPercent := true; isError := false;
     isNegative := r_negative r; width := number_of (d_width d); precision := r_precision r; printfState := ps;
     length_ := d_length d; percentIndex := i; prefix := r_prefix r;
     argLength := Z.of_nat (length (r_body r)) + (if r_negative r then 1 else 0); string := src |}.

(** The characters of the rendering are where the string points to. *)
Definition readable (src : source) (b : list Z) (r : rendering) : Prop :=
  ∀ k x, r_body r !! k = Some x →
    match src with
    | Null => False
    | Buffer => b !! ((if r_negative r then 1 else 0) + k)%nat = Some x
    | Argument s => (s ++ [0]) !! ((if r_negative r then 1 else 0) + k)%nat = Some x
    end.

(** [percent] at the conversion character. *)
Definition converts (d : directive) (i : nat) (z : bool) (ps : PrintfParseState) (rest : list arg) (r : rendering) (e : env) : Prop :=
  ∃ e1 src, percent itostr (conversion_char (d_conv d)) e = Ret false e1 ∧ sink e1 = sink e ∧ args e1 = rest ∧
    state e1 = converted d i z ps r src ∧ readable src (buf e1) r.

Lemma converts_signed d i z ps a rest r (e : env) : itostr_ok → d_conv d = ConvD ∨ d_conv d = ConvI →
  rendering_of text d a = Some r → state e = described d i z ps → args e = a :: rest → converts d i z ps rest r e.
Proof.
  intros H Hc Hr Hs Ha. assert (E : percent itostr (conversion_char (d_conv d)) e = percent_signed itostr e) by (by destruct Hc as [-> | ->]).
  unfold converts. rewrite E. assert (X : ∃ x, signed_of (d_length d) a = Some x ∧ let t := number_text text 10 x in
    r = {| r_negative := starts_minus t; r_prefix := (0, 0); r_precision := precision_of (d_precision d); r_body := if starts_minus t then List.tl t else t |}).
  { revert Hr. unfold rendering_of. destruct Hc as [-> | ->]; destruct (signed_of (d_length d) a) as [x|]; try done; cbn; intros [= <-]; by exists x. }
  destruct X as (x & Ex & ->). unfold percent_signed. unfold bind at 1, gets at 1. rewrite Hs.
  rewrite (bind_run _ _ _ _ _ (signed_arg_run _ a x rest e Ex Ha)).
  destruct (signed_of_in _ _ _ Ex) as [Hi Hq].
  destruct (to_text_run 10 x (with_args rest e) H Hi Hq) as (tl & Et & L0). rewrite (bind_run _ _ _ _ _ Et).
  set (t := number_text text 10 x) in *. unfold bind at 1, gets at 1. cbn [buf with_buf].
  destruct (Z.ltb_spec 0 (Z.of_nat (length t))); [|lia]. eexists _, Buffer. split; [reflexivity|]. cbn [args sink buf state with_buf with_args].
  split; [done|]. split; [done|]. destruct t as [|c t]; [cbn in L0; lia|]. cbn [app starts_minus List.tl]. split.
  - unfold converted. cbn [r_negative r_body r_prefix r_precision].
    destruct (c =? ch "-"); [replace (Z.of_nat (length t) + 1) with (Z.of_nat (length (c :: t))) by (cbn [length]; lia)|rewrite Z.add_0_r];
      cbn; by rewrite Hs.
  - intros k y. cbn [r_body r_negative]. destruct (c =? ch "-"); cbn; intros Hk; [by apply lookup_app_l_Some|].
    change ((c :: t) !! k = Some y) in Hk. by apply (lookup_app_l_Some (c :: t) tl).
Qed.

(** The rendering of an unsigned number. *)
Lemma rendering_number d a r : rendering_of text d a = Some r →
  match d_conv d with
  | ConvU | ConvX | ConvUpperX | ConvP | ConvO => ∃ x, unsigned_of (d_length d) a = Some x ∧
      r = {| r_negative := false;
             r_prefix := if has (ch "#") (d_flags d) then match d_conv d with ConvU => (0, 0) | ConvUpperX => (ch "0", ch "X") | ConvO => (ch "0", 0) | _ => (ch "0", ch "x") end else (0, 0);
             r_precision := match d_conv d with ConvP => 8 | _ => precision_of (d_precision d) end;
             r_body := match d_conv d with ConvUpperX => uppercase | _ => id end <$> number_text text (match d_conv d with ConvU => 10 | ConvO => 8 | _ => 16 end) x |}
  | _ => True
  end.
Proof. unfold rendering_of. destruct (d_conv d); try done; destruct (unsigned_of _ a) as [x|]; try done; cbn; intros [= <-]; by exists x. Qed.

Lemma readable_buffer t b pr pre : readable Buffer (t ++ b) {| r_negative := false; r_prefix := pre; r_precision := pr; r_body := t |}.
Proof. intros k x Hk. cbn in *. by apply lookup_app_l_Some. Qed.

Lemma converts_unsigned d i z ps a rest r (e : env) : itostr_ok → d_conv d = ConvU →
  rendering_of text d a = Some r → state e = described d i z ps → args e = a :: rest → converts d i z ps rest r e.
Proof.
  intros H Hc Hr%rendering_number Hs Ha. unfold converts. rewrite Hc in *. destruct Hr as (x & Ex & ->). rewrite list_fmap_id.
  change (percent itostr (conversion_char ConvU) e) with (percent_unsigned itostr e).
  unfold percent_unsigned. unfold bind at 1, gets at 1. rewrite Hs.
  rewrite (bind_run _ _ _ _ _ (unsigned_arg_run _ a x rest e Ex Ha)).
  destruct (unsigned_of_in _ _ _ Ex) as [Hi Hk].
  destruct (to_text_run 10 x (with_args rest e) H Hi (Hk 10 ltac:(auto))) as (tl & Et & L0). rewrite (bind_run _ _ _ _ _ Et). set (t := number_text text 10 x) in *.
  destruct (Z.ltb_spec 0 (Z.of_nat (length t))); [|lia]. eexists _, Buffer. split; [reflexivity|]. cbn [args sink buf state with_buf with_args].
  split; [done|]. split; [done|]. split; [|by apply readable_buffer]. unfold converted. cbn [r_negative r_body r_prefix r_precision].
  rewrite Z.add_0_r. replace (if has (ch "#") (d_flags d) then (0, 0) else (0, 0)) with (0, 0) by (by destruct (has (ch "#") (d_flags d))).
  cbn. by rewrite Hs.
Qed.

Lemma converts_octal d i z ps a rest r (e : env) : itostr_ok → d_conv d = ConvO →
  rendering_of text d a = Some r → state e = described d i z ps → args e = a :: rest → converts d i z ps rest r e.
Proof.
  intros H Hc Hr%rendering_number Hs Ha. unfold converts. rewrite Hc in *. destruct Hr as (x & Ex & ->). rewrite list_fmap_id.
  change (percent itostr (conversion_char ConvO) e) with (percent_octal itostr e).
  unfold percent_octal. unfold bind at 1, gets at 1. rewrite Hs.
  rewrite (bind_run _ _ _ _ _ (unsigned_arg_run _ a x rest e Ex Ha)).
  destruct (unsigned_of_in _ _ _ Ex) as [Hi Hk].
  destruct (to_text_run 8 x (with_args rest e) H Hi (Hk 8 ltac:(auto))) as (tl & Et & L0). rewrite (bind_run _ _ _ _ _ Et). set (t := number_text text 8 x) in *.
  destruct (Z.ltb_spec 0 (Z.of_nat (length t))); [|lia]. cbn [usePrefix described reading].
  destruct (has (ch "#") (d_flags d)); eexists _, Buffer; (split; [reflexivity|]); cbn [args sink buf state with_buf with_args];
    (split; [done|]); (split; [done|]); (split; [|by apply readable_buffer]); unfold converted; cbn [r_negative r_body r_prefix r_precision];
    rewrite Z.add_0_r; cbn; by rewrite Hs.
Qed.

Lemma converts_hex d i z ps a rest r (e : env) : itostr_ok → d_conv d = ConvX ∨ d_conv d = ConvUpperX ∨ d_conv d = ConvP →
  rendering_of text d a = Some r → state e = described d i z ps → args e = a :: rest → converts d i z ps rest r e.
Proof.
  intros H Hc Hr%rendering_number Hs Ha. unfold converts.
  assert (E : percent itostr (conversion_char (d_conv d)) e = percent_hex itostr (conversion_char (d_conv d)) e) by (by destruct Hc as [-> |[-> | ->]]).
  rewrite E. clear E. unfold percent_hex.
  assert (X : ∃ x, unsigned_of (d_length d) a = Some x ∧ r = {| r_negative := false;
      r_prefix := if has (ch "#") (d_flags d) then (ch "0", if conversion_char (d_conv d) =? ch "X" then ch "X" else ch "x") else (0, 0);
      r_precision := if conversion_char (d_conv d) =? ch "p" then 8 else precision_of (d_precision d);
      r_body := (if conversion_char (d_conv d) =? ch "X" then uppercase else id) <$> number_text text 16 x |})
    by (by destruct Hc as [Hc |[Hc | Hc]]; rewrite Hc in Hr |- *).
  clear Hr. destruct X as (x & Ex & ->). set (c := conversion_char (d_conv d)) in *. set (pr := if c =? ch "p" then 8 else _).
  assert (E : (when (c =? ch "p") (on_state (λ s, s <| precision := 8 |>)) : M env unit) e = Ret tt (with_state ((described d i z ps) <| precision := pr |>) e)).
  { unfold pr, when. destruct (c =? ch "p"); [|destruct e; cbn in *; by rewrite Hs]. cbn. unfold with_state. rewrite <- Hs. reflexivity. }
  rewrite (bind_run _ _ _ _ _ E). unfold bind at 1, gets at 1. cbn [state with_state].
  rewrite (bind_run _ _ _ _ _ (unsigned_arg_run (d_length d) a x rest (with_state ((described d i z ps) <| precision := pr |>) e) Ex Ha)).
  destruct (unsigned_of_in _ _ _ Ex) as [Hi Hk].
  destruct (to_text_run 16 x (with_args rest (with_state ((described d i z ps) <| precision := pr |>) e)) H Hi (Hk 16 ltac:(auto))) as (tl & Et & L0). rewrite (bind_run _ _ _ _ _ Et). set (t := number_text text 16 x) in *.
  destruct (Z.ltb_spec 0 (Z.of_nat (length t))); [|lia]. change (usePrefix (update precision _ _)) with (has (ch "#") (d_flags d)).
  set (b := t ++ tl). assert (Hb : (if c =? ch "X" then map uppercase (take (Z.to_nat (Z.of_nat (length t))) b) ++ drop (Z.to_nat (Z.of_nat (length t))) b else b)
     = ((if c =? ch "X" then uppercase else id) <$> t) ++ tl).
  { unfold b. destruct (c =? ch "X"); [by rewrite Nat2Z.id, take_app_length, drop_app_length|by rewrite list_fmap_id]. }
  pose proof (length_fmap (if c =? ch "X" then uppercase else id) t) as Hl.
  revert Hb Hl. destruct (has (ch "#") (d_flags d)), (c =? ch "X"); intros Hb Hl; eexists _, Buffer; (split; [reflexivity|]);
    cbn [args sink buf state with_buf with_args with_state]; (split; [done|]); (split; [done|]);
    (split; [|exact (eq_ind_r (λ l, readable Buffer l _) (readable_buffer _ _ _ _) Hb)]);
    unfold converted; cbn [r_negative r_body r_prefix r_precision]; rewrite Hl, Z.add_0_r; reflexivity.
Qed.

Lemma number_of_nonneg ds : Forall (λ d, 0 <= d <= 9) ds → 0 <= number_of ds.
Proof.
  intros H. assert (G : ∀ n, 0 <= n → 0 <= foldl (λ n d, 10 * n + d) n ds); [|by apply G].
  induction H as [|d ds Hd H IH]; intros n Hn; cbn [foldl]; [done|]. apply IH. lia.
Qed.
Lemma precision_bounds d : directive_ok d → -1 <= precision_of (d_precision d) < 2 ^ 31.
Proof.
  intros [_ _ Hp _]. unfold precision_of. destruct (d_precision d) as [ds|]; [|lia]. destruct (Hp ds eq_refl) as [Hd Hn].
  pose proof (number_of_nonneg ds Hd). lia.
Qed.
Lemma width_bounds d : directive_ok d → 0 <= number_of (d_width d) < 2 ^ 31.
Proof. intros [_ [Hd Hn] _ _]. pose proof (number_of_nonneg _ Hd). lia. Qed.

Lemma rendering_precision d a r : directive_ok d → rendering_of text d a = Some r → -1 <= r_precision r < 2 ^ 31.
Proof.
  intros Hd%precision_bounds. unfold rendering_of. destruct (d_conv d).
  all: try (destruct (unsigned_of (d_length d) a)); try (destruct (signed_of (d_length d) a)); try destruct a; try (destruct (_ <=? _)); try done; cbn; intros [= <-]; done || (cbn; lia).
Qed.

Lemma converts_string d i z ps a rest r (e : env) : d_conv d = ConvS → directive_ok d →
  rendering_of text d a = Some r → state e = described d i z ps → args e = a :: rest → converts d i z ps rest r e.
Proof.
  intros Hc Hd%precision_bounds Hr Hs Ha. unfold converts, rendering_of in *. rewrite Hc in *.
  destruct a as [| |s|]; try done. set (pr := precision_of (d_precision d)) in *.
  destruct (Z.leb_spec pr (Z.of_nat (length s))) as [L|]; [|done]. injection Hr as <-.
  eexists _, (Argument s). split; [change (percent itostr (conversion_char ConvS) e) with (percent_string e); unfold percent_string, str_arg, pop, bind, gets; by rewrite Ha|].
  split; [done|]. split; [done|]. split.
  - cbn [state update]. unfold on_state. cbn. rewrite Hs. unfold converted. cbn [r_negative r_body r_prefix r_precision].
    rewrite Z.add_0_r. cbn. fold pr. destruct (Z.eqb_spec pr (-1)); [done|]. rewrite wrap_small by lia.
    by replace (Z.of_nat (length (take (Z.to_nat pr) s))) with pr by (rewrite length_take; lia).
  - intros k x. cbn. intros Hk. apply lookup_app_l_Some. destruct (pr =? -1); [done|]. by apply lookup_take_Some in Hk as [? _].
Qed.

Lemma converts_char d i z ps a rest r (e : env) : d_conv d = ConvC → buf e ≠ [] →
  rendering_of text d a = Some r → state e = described d i z ps → args e = a :: rest → converts d i z ps rest r e.
Proof.
  intros Hc Hb Hr Hs Ha. unfold converts, rendering_of in *. rewrite Hc in *. destruct a as [v| | |]; try done. injection Hr as <-.
  eexists _, Buffer. split; [change (percent itostr (conversion_char ConvC) e) with (percent_char (ch "c") e); unfold percent_char, when; change (ch "c" =? ch "c") with true; unfold int_arg, pop, bind, gets; by rewrite Ha|].
  split; [done|]. split; [done|]. split; [cbn; by rewrite Hs|].
  intros [|k] x; cbn; [|done]. intros [= <-]. by destruct (buf e).
Qed.

Lemma converts_all d i z ps a rest r (e : env) : itostr_ok → directive_ok d → buf e ≠ [] →
  rendering_of text d a = Some r → state e = described d i z ps → args e = a :: rest → converts d i z ps rest r e.
Proof.
  intros H Hd Hb Hr Hs Ha. destruct (d_conv d) eqn:Hc.
  all: first [eapply converts_string; by eauto | eapply converts_char; by eauto | eapply converts_unsigned; by eauto
    | eapply converts_octal; by eauto | eapply converts_signed; by eauto | eapply converts_hex; by eauto].
Qed.

(** ** Directives and formats *)

Lemma readable_string_at s b rest r src k x (e : env) : core e = (s, b, rest) → string s = src → isNegative s = r_negative r →
  readable src b r → r_body r !! k = Some x → string_at ((if isNegative s then 1 else 0) + k) e = Ret x e.
Proof.
  intros [= <- <- <-] <- -> Hr Hk. specialize (Hr k x Hk). unfold string_at, bind, gets, id.
  destruct (string (state e)); [done|by rewrite Hr..].
Qed.

Lemma emits_directive fmt i d a rest r : itostr_ok → directive_ok d → rendering_of text d a = Some r →
  Z.of_nat (length (r_body r)) < 2 ^ 31 →
  emits writeFunc (format_chars writeFunc itostr fmt (directive_chars d) i) (render d r) (idle (a :: rest)) (idle rest).
Proof.
  intros H Hd Hr Hn. unfold directive_chars. change (render d r) with ([] ++ render d r).
  eapply emits_app; [by apply emits_header|]. destruct (parsed_described d i Hd) as (z & ps & ->).
  apply emits_conversion; [done|]. intros e [= Es Eb Ea].
  destruct (converts_all d i z ps a rest r e H Hd) as (e1 & src & E1 & Ek & Er & Et & Hread); [by rewrite Eb|done..|].
  exists e1, (converted d i z ps r src), (buf e1). split; [done|]. split; [done|]. split; [unfold core; by rewrite Et, Er|]. split; [done|].
  apply (emits_output writeFunc (converted d i z ps r src)); [by intros c ->| |done|done|by apply width_bounds|].
  - intros k x e2 E2 Hk. by eapply readable_string_at.
  - by eapply rendering_precision.
Qed.
End conversions.
