(* ===== verification/PrintfFormat.v ===== *)
(** * Formats: what [do_printf] and [vsprintf] write

    A format is a sequence of characters and directives; its rendering takes one
    argument per directive.  [libc_itostr] puts the conversions of
    lib/libc/stdlib/itoa.c in the place of [itostr]. *)

From Stdlib Require Import Ascii.
From stdpp Require Import strings.
From S2P Require Import Prelude Numbers NumbersSpec Strings StringsSpec Printf PrintfSpec PrintfRender.

Inductive piece := Lit (c : Z) | Dir (d : directive).

Definition piece_chars (p : piece) : list Z := match p with Lit c => [c] | Dir d => directive_chars d end.
Definition piece_ok (p : piece) : Prop := match p with Lit c => c ≠ ch "%" | Dir d => directive_ok d end.

(** A newline is written as a carriage return and a newline. *)
Definition literal_chars (c : Z) : list Z := if c =? 10 then [13; 10] else [c].

Section formats.
Context {W : Type}.
Variable writeFunc : Z → M W Z.
Variable itostr : itype → Z → Z → list Z → Z * list Z.
Variable text : itype → Z → Z → list Z.

(** The text of a format; there is none where an argument is missing or is not
    what its directive asks for. *)
Fixpoint rendered (ps : list piece) (args : list arg) : option (list Z) :=
  match ps with
  | [] => Some []
  | Lit c :: ps => l ← rendered ps args; Some (literal_chars c ++ l)
  | Dir d :: ps =>
      match args with
      | [] => None
      | a :: args =>
          r ← rendering_of text d a;
          if Z.of_nat (length (r_body r)) <? 2 ^ 31 then l ← rendered ps args; Some (render d r ++ l) else None
      end
  end.

Lemma emits_literal fmt i c a : c ≠ ch "%" → emits writeFunc (format_chars writeFunc itostr fmt [c] i) (literal_chars c) (idle a) (idle a).
Proof.
  intros Hc. apply emits_one. intros e He.
  assert (F : format_char writeFunc itostr fmt i c e = write_all writeFunc (literal_chars c) e).
  { destruct He as [b [= Es _ _]]. unfold format_char. unfold bind at 1, gets. rewrite Es. cbn [inPercent reset_printf_state].
    unfold literal, literal_chars. destruct (Z.eqb_spec c (ch "%")); [done|]. destruct (c =? 10); [done|].
    assert (S : write_all writeFunc [c] e = write_char writeFunc c e).
    { cbn [write_all]. unfold and_then, bind. destruct (write_char writeFunc c e) as [[|] ?| | |]; done. }
    rewrite S. by destruct (Z.eqb_spec c 13) as [->|]. }
  rewrite F. by apply (emits_all writeFunc (literal_chars c) (idle a)).
Qed.

Lemma emits_pieces fmt ps : itostr_ok itostr text → Forall piece_ok ps → ∀ i args l, rendered ps args = Some l →
  emits writeFunc (format_chars writeFunc itostr fmt (ps ≫= piece_chars) i) l (idle args) (λ _, True).
Proof.
  intros H. induction 1 as [|p ps Hp Hps IH]; intros i args l Hl.
  - injection Hl as <-. eapply emits_weaken; [apply emits_skip|done|done].
  - rewrite bind_cons. destruct p as [c|d]; cbn [rendered] in Hl.
    + destruct (rendered ps args) as [l'|] eqn:El; [|done]. injection Hl as <-.
      eapply emits_app; [by apply emits_literal|by apply IH].
    + destruct args as [|a args]; [done|]. destruct (rendering_of text d a) as [r|] eqn:Er; [|done]. cbn in Hl.
      destruct (Z.ltb_spec (Z.of_nat (length (r_body r))) (2 ^ 31)) as [Hn|]; [|done].
      destruct (rendered ps args) as [l'|] eqn:El; [|done]. injection Hl as <-.
      eapply emits_app; [by eapply emits_directive|by apply IH].
Qed.

Lemma send_result l w : match send writeFunc l w with Ret r _ => r = 0 ∨ r = -1 | _ => True end.
Proof.
  revert w. induction l as [|c l IH]; intros w; cbn [send]; [by left|]. unfold bind. destruct (writeFunc c w) as [r w'| | |]; [|done..].
  destruct (negb (r =? 0)); [by right|apply IH].
Qed.

(** The loop sends the rendering, from any state between two directives. *)
Lemma format_loop_sends fmt ps i args l e :
  itostr_ok itostr text → Forall piece_ok ps → rendered ps args = Some l → idle args (core e) →
  match send writeFunc l (sink e) with
  | Ret r w' => ∃ e', format_loop writeFunc itostr fmt (ps ≫= piece_chars) i e = Ret r e' ∧ sink e' = w'
  | Leave w' => ∃ e', format_loop writeFunc itostr fmt (ps ≫= piece_chars) i e = Leave e' ∧ sink e' = w'
  | Panic => format_loop writeFunc itostr fmt (ps ≫= piece_chars) i e = Panic
  | Fault f => format_loop writeFunc itostr fmt (ps ≫= piece_chars) i e = Fault f
  end.
Proof.
  intros H Hps Hl He. pose proof (emits_pieces fmt ps H Hps i args l Hl e He) as K. rewrite format_loop_chars. unfold bind.
  pose proof (send_result l (sink e)) as R. destruct (send writeFunc l (sink e)) as [r w|w| |f].
  - destruct K as (e' & E & Ew & _). exists e'. split; [|done]. rewrite E. by destruct R as [-> | ->].
  - destruct K as (e' & E & Ew). exists e'. by rewrite E.
  - by rewrite K.
  - by rewrite K.
Qed.

(** For every format of characters and directives that is parsed as such, and arguments
    of the types the directives ask for, [do_printf] gives [writeFunc] the rendering of
    the format, character by character, and nothing after the first character that
    is refused; the result is 0, or -1 if a character was refused. *)
Theorem do_printf_renders ps args l w :
  itostr_ok itostr text → Forall piece_ok ps → rendered ps args = Some l →
  match send writeFunc l w with
  | Ret r w' => ∃ e, do_printf writeFunc itostr (ps ≫= piece_chars) args w = Ret r e ∧ sink e = w'
  | Leave w' => ∃ e, do_printf writeFunc itostr (ps ≫= piece_chars) args w = Leave e ∧ sink e = w'
  | Panic => do_printf writeFunc itostr (ps ≫= piece_chars) args w = Panic
  | Fault f => do_printf writeFunc itostr (ps ≫= piece_chars) args w = Fault f
  end.
Proof.
  intros H Hps Hl. exact (format_loop_sends (ps ≫= piece_chars) ps 0 args l
    {| state := reset_printf_state; buf := []; args := args; sink := w; charsWritten := 0; stores := [] |} H Hps Hl (ex_intro _ [] eq_refl)).
Qed.
End formats.

(** ** The conversions of the library *)

Definition converter (k : itype) : Z → Z → M (list Z) Z :=
  match k with
  | TUChar | TUShort | TUInt => _uitostr
  | TULong => _ulitostr
  | TULongLong => _ullitostr
  | TChar | TShort | TInt => _itostr
  | TLong => _litostr
  | TLongLong => _llitostr
  end.
Definition libc_text (k : itype) (v base : Z) : list Z := match converter k v base [] with Ret _ cs => cs | _ => [] end.
Definition libc_itostr (k : itype) (v base : Z) (b : list Z) : Z * list Z :=
  match converter k v base [] with Ret n cs => (n, cs ++ drop (length cs) b) | _ => (-1, b) end.

Lemma sdigits_udigits fuel : ∀ v base s, 2 <= base <= 36 → 0 <= v < 2 ^ 31 → sdigits_loop fuel v base s = udigits_loop 32 fuel v base s.
Proof.
  induction fuel as [|fuel IH]; intros v base s Hb Hv; [done|]. cbn [sdigits_loop udigits_loop].
  rewrite Z.quot_div_nonneg by lia. destruct (wrap_digit base v Hb ltac:(lia)) as (-> & -> & E).
  assert (H : 0 <= base * (v / base) <= v) by (split; [apply Z.mul_nonneg_nonneg; [lia|apply Z.div_pos; lia]|apply Z.mul_div_le; lia]).
  rewrite (signed_small 32 (base * (v / base))) by lia.
  replace (v - base * (v / base)) with (v mod base) by (rewrite (Z.div_mod v base) at 2; lia).
  pose proof (Z.mod_pos_bound v base ltac:(lia)). rewrite signed_small by lia.
  rewrite Z.quot_div_nonneg by lia. rewrite E. unfold bind. destruct (digit (v mod base) s) as [c s'| | |]; try done. cbn.
  destruct (v / base =? 0); [done|]. apply IH; [done|]. split; [apply Z.div_pos; lia|]. apply Z.div_lt_upper_bound; nia.
Qed.

Lemma le_digits_nonempty base v ds : le_digits base v ds → (0 < length ds)%nat.
Proof. intros (_ & _ & [[_ ->]|(_ & _ & H)]); [cbn; lia|]. destruct ds; [done|cbn; lia]. Qed.

(** Each conversion returns the length of a text that is not empty. *)
Definition gives_text (m : M (list Z) Z) : Prop := writes m (λ cs, (0 < length cs)%nat).

Lemma denotes_nonempty base cs v : denotes base cs v → (0 < length cs)%nat.
Proof. intros (_ & _ & [[_ ->]|(_ & _ & H)]); [cbn; lia|]. destruct cs; [done|cbn; lia]. Qed.

Lemma ulitostr_text v base : 2 <= base <= 36 → 0 <= v < 2 ^ 32 → gives_text (_ulitostr v base).
Proof. intros Hb Hv. destruct (ulitostr_writes v base Hb Hv) as (cs & E & H). exists cs. split; [done|]. by eapply denotes_nonempty. Qed.

Lemma itostr_gives_text v : - 2 ^ 31 <= v < 2 ^ 31 → gives_text (_itostr v 10).
Proof.
  intros Hv. destruct (itostr_writes v 10 ltac:(lia) Hv) as (cs & Ec & H). exists cs. split; [done|].
  destruct (decide _); [destruct H as (cs' & -> & _); cbn; lia|by eapply denotes_nonempty].
Qed.

Lemma wp_halves s lo hi base (Q : unit → list Z → Prop) : 2 <= base <= 36 → 0 <= lo < 2 ^ 32 → 0 <= hi < 2 ^ 32 →
  (∀ ds, (0 < length ds)%nat → Q tt (s ++ ds)) → wp (halves_loop lo hi base) Q (λ _, False) s.
Proof.
  intros Hb Hl Hh HQ. unfold halves_loop. wp_step. apply wp_udigits; [done|done|]. intros ds Hds%le_digits_nonempty.
  destruct (hi =? 0); [apply wp_ret; by apply HQ|]. apply wp_udigits; [done|done|]. intros ds' _.
  rewrite <- app_assoc. apply HQ. rewrite length_app. lia.
Qed.

Lemma gives_text_finish s : (0 < length s)%nat → wp finish (λ n cs, n = Z.of_nat (length cs) ∧ (0 < length cs)%nat) (λ _, False) s.
Proof. intros H. apply wp_finish_writes. by rewrite length_reverse. Qed.

Lemma ullitostr_text v base : 2 <= base <= 36 → 0 <= v < 2 ^ 64 → gives_text (_ullitostr v base).
Proof.
  intros Hb Hv. apply writes_wp. unfold _ullitostr. rewrite good_base by done. wp_step.
  apply wp_halves; [done|change 0xFFFFFFFF with (Z.ones 32); rewrite Z.land_ones by lia; by apply Z.mod_pos_bound|by apply wrap_range|].
  intros ds Hds. by apply gives_text_finish.
Qed.

Lemma llitostr_text v : gives_text (_llitostr v 10).
Proof.
  apply writes_wp. unfold _llitostr. cbn [bad_base]. change (bad_base 10) with false. cbv iota.
  destruct ((10 =? 10) && (v <? 0) && (v =? LLONG_MIN)); [wp_step; apply wp_modify; apply wp_ret; cbn; lia|].
  wp_step. apply wp_halves; [lia|by apply wrap_range|by apply wrap_range|]. intros ds Hds. wp_step.
  destruct ((10 =? 10) && (v <? 0)); cbn [when]; [apply wp_modify|apply wp_ret]; apply gives_text_finish; rewrite ?length_app; lia.
Qed.

Lemma litostr_itostr v : - 2 ^ 31 <= v < 2 ^ 31 → _litostr v 10 [] = _itostr v 10 [].
Proof.
  intros Hv. unfold _litostr, _itostr. change (bad_base 10) with false. cbv iota. destruct (v <? 0) eqn:N; cbn [andb Z.eqb Pos.eqb].
  - destruct (v =? INT_MIN) eqn:Em; [done|]. assert (i32 (Z.lnot v + 1) = - v) as ->.
    { unfold INT_MIN in Em. replace (Z.lnot v + 1) with (- v) by (unfold Z.lnot; lia). apply signed_small; lia. }
    rewrite (wrap_small 32 (- v)) by (unfold INT_MIN in Em; lia). unfold bind at 1 4. rewrite sdigits_udigits; [done|lia|unfold INT_MIN in Em; lia].
  - rewrite (wrap_small 32 v) by lia. unfold bind at 1 4. rewrite sdigits_udigits; [done|lia|lia].
Qed.

Lemma litostr_text v : - 2 ^ 31 <= v < 2 ^ 31 → gives_text (_litostr v 10).
Proof. intros Hv. destruct (itostr_gives_text v Hv) as (cs & Ec & H). exists cs. by rewrite litostr_itostr. Qed.

Lemma converter_text k v base : in_type k v → asked k base → gives_text (converter k v base).
Proof.
  intros Hv Hb. assert (B : 2 <= base <= 36) by (destruct k; cbn in Hb; lia). destruct k; cbn in Hv, Hb; cbn [converter].
  all: try (rewrite Hb).
  all: first [by apply ullitostr_text|by apply ulitostr_text|apply llitostr_text|by apply litostr_text|apply itostr_gives_text; lia|apply (ulitostr_text v base); lia].
Qed.

Lemma libc_itostr_ok : itostr_ok libc_itostr libc_text.
Proof.
  split; intros k v base; [intros b|]; intros Hv Hb; destruct (converter_text k v base Hv Hb) as (cs & E & H); unfold libc_itostr, libc_text; rewrite E; [by eexists|lia].
Qed.

(** "[%-6d|%#x|%+.4u]", newline, with -42, 255 and 7. *)
Definition demo_format : list piece :=
  [Lit (ch "[");
   Dir {| d_flags := [ch "-"]; d_width := [6]; d_precision := None; d_length := DEFAULT; d_conv := ConvD |}; Lit (ch "|");
   Dir {| d_flags := [ch "#"]; d_width := []; d_precision := None; d_length := DEFAULT; d_conv := ConvX |}; Lit (ch "|");
   Dir {| d_flags := [ch "+"]; d_width := []; d_precision := Some [4]; d_length := LONG_INT; d_conv := ConvU |}; Lit (ch "]"); Lit 10].
Definition demo_args : list arg := [IntArg (-42); IntArg 255; IntArg 7].
Definition chars_of (s : String.string) : list Z := ch <$> String.list_ascii_of_string s.
Arguments chars_of s%_string.

Lemma demo_format_ok : Forall piece_ok demo_format.
Proof.
  assert (D : ∀ d, 0 <= d <= 9 → small_number [d]) by (intros d Hd; split; [by apply Forall_singleton|cbn; lia]).
  assert (N : small_number []) by (split; [constructor|cbn; lia]).
  unfold demo_format. rewrite !Forall_cons. split_and!; try done; (split; cbn [d_flags d_width d_precision d_length];
    [rewrite ?Forall_singleton; try constructor; set_solver|(apply N || (apply D; lia))|intros ds; try done; intros [= <-]; apply D; lia|done]).
Qed.

Lemma do_printf_renders_witness :
  ∃ e, do_printf (λ c, modify (λ l, l ++ [c]) ;; ret 0) libc_itostr (demo_format ≫= piece_chars) demo_args [] = Ret 0 e ∧
    sink e = chars_of "[-42   |0xff|+0007]" ++ [13; 10].
Proof.
  apply (do_printf_renders (λ c, modify (λ l, l ++ [c]) ;; ret 0) libc_itostr libc_text demo_format demo_args
    (chars_of "[-42   |0xff|+0007]" ++ [13; 10]) [] libc_itostr_ok demo_format_ok).
  vm_compute. reflexivity.
Defined.

(** ** Into memory *)

Lemma writeToStr_run m p n c : room m p n → 0 < n → writeToStr c (m, p) = Ret 0 (<[p := u8 c]> m, p + 1).
Proof.
  intros Hr Hn. destruct (room_ptr m p n Hr Hn) as [Hp [b Eb]]. unfold ptr in Hp.
  unfold writeToStr, bind, gets. cbn [snd]. destruct (Z.eqb_spec p 0); [lia|].
  unfold zoom, store, load, bind, gets. cbn [fst]. destruct (Z.eqb_spec p 0); [lia|]. unfold id. rewrite Eb. cbn.
  by rewrite (room_step m p n Hr Hn).
Qed.

Lemma send_fill l : ∀ m p n, room m p n → len l <= n → send writeToStr l (m, p) = Ret 0 (fill m p (u8 <$> l), p + len l).
Proof.
  induction l as [|c l IH]; intros m p n Hr Hn; cbn [send length] in *; [cbn; by rewrite Z.add_0_r|].
  rewrite (bind_run _ _ _ _ _ (writeToStr_run m p n c Hr ltac:(lia))). cbn [Z.eqb negb].
  rewrite (IH _ _ (n - 1)) by (try apply room_next; lia || done). cbn. do 2 f_equal. lia.
Qed.

Lemma room_behind l m p n : room m p n → len l <= n → room (fill m p l) (p + len l) (n - len l).
Proof.
  intros (A & B & C) Hn. repeat split; [lia..|]. intros a Ha. rewrite lookup_fill_ne by lia. apply C. lia.
Qed.

(** Formatting into memory: with room for the rendering of the format and a
    NUL character, [vsprintf] writes exactly these, changes nothing else and
    returns 0; with a null pointer it writes nothing, and returns -1 if there
    was a character to write. *)
Theorem vsprintf_spec itostr text ps args l str m :
  itostr_ok itostr text → Forall piece_ok ps → rendered text ps args = Some l →
  (room m str (len l + 1) → vsprintf itostr str (ps ≫= piece_chars) args m = Ret 0 (fill m str ((u8 <$> l) ++ [0]))) ∧
  vsprintf itostr 0 (ps ≫= piece_chars) args m = Ret (match l with [] => 0 | _ => -1 end) m.
Proof.
  intros H Hps Hl. unfold vsprintf, do_printf. split.
  - intros Hr. pose proof (format_loop_sends writeToStr itostr text (ps ≫= piece_chars) ps 0 args l
      {| state := reset_printf_state; buf := []; args := args; sink := (m, str); charsWritten := 0; stores := [] |} H Hps Hl (ex_intro _ [] eq_refl)) as K.
    cbn [sink] in K. rewrite (send_fill l m str (len l + 1) Hr) in K by lia. destruct K as (e & -> & ->).
    pose proof (room_behind (u8 <$> l) m str (len l + 1) Hr) as Hf. rewrite length_fmap in Hf.
    rewrite (writeToStr_run _ _ _ 0 (Hf ltac:(lia)) ltac:(lia)). cbn [fst]. by rewrite fill_app, length_fmap.
  - pose proof (format_loop_sends writeToStr itostr text (ps ≫= piece_chars) ps 0 args l
      {| state := reset_printf_state; buf := []; args := args; sink := (m, 0); charsWritten := 0; stores := [] |} H Hps Hl (ex_intro _ [] eq_refl)) as K.
    cbn [sink] in K. by destruct l as [|c l]; cbn in K; destruct K as (e & -> & ->).
Qed.

Lemma vsprintf_spec_witness :
  vsprintf libc_itostr 0x1000 (demo_format ≫= piece_chars) demo_args (fill ∅ 0x1000 (replicate 32 85)) =
    Ret 0 (fill (fill ∅ 0x1000 (replicate 32 85)) 0x1000 (chars_of "[-42   |0xff|+0007]" ++ [13; 10; 0])).
Proof.
  apply (proj1 (vsprintf_spec libc_itostr libc_text demo_format demo_args (chars_of "[-42   |0xff|+0007]" ++ [13; 10]) 0x1000
    (fill ∅ 0x1000 (replicate 32 85)) libc_itostr_ok demo_format_ok ltac:(vm_compute; reflexivity))).
  split; [lia|]. split; [cbn; lia|]. intros a Ha. rewrite lookup_fill, length_replicate, decide_True by (cbn in Ha; lia).
  apply lookup_lt_is_Some. rewrite length_replicate. cbn in Ha. lia.
Defined.

(** ** Formats that do not do what they mean *)

Definition printed (fmt : String.string) (args : list arg) : option (Z * list Z) :=
  match do_printf (λ c, modify (λ l, l ++ [c]) ;; ret 0) libc_itostr (chars_of fmt) args [] with
  | Ret r e => Some (r, sink e)
  | _ => None
  end.
Arguments printed fmt%_string args.

(** "%%" writes a NUL character: [buf[0]] is set for 'c' only. *)
Example percent_percent_nul : printed "%%" [] = Some (0, [0]).
Proof. vm_compute. reflexivity. Qed.

(** [isZeroPad] is not used: a field is filled up with blanks. *)
Example zero_flag_pads_blanks : printed "%05d" [IntArg 42] = Some (0, chars_of "   42").
Proof. vm_compute. reflexivity. Qed.

(** A '*' is taken only after a digit of a width. *)
Example star_is_refused : printed "%*d" [IntArg 5; IntArg 42] = Some (0, chars_of "%*d").
Proof. vm_compute. reflexivity. Qed.

(** One 'h' makes a [char] of the argument. *)
Example h_truncates_to_char : printed "%hd" [IntArg 300] = Some (0, chars_of "44").
Proof. vm_compute. reflexivity. Qed.

(** A plus is written before a string too. *)
Example plus_before_string : printed "%+s" [StrArg (chars_of "ab")] = Some (0, chars_of "+ab").
Proof. vm_compute. reflexivity. Qed.

(** The directive is not ended by 'n': the next character is part of it. *)
Example count_does_not_end : printed "%nd" [PtrArg 16; IntArg 7] = Some (0, chars_of "7").
Proof. vm_compute. reflexivity. Qed.
