(* ===== verification/PrintfStandard.v ===== *)
(** * Formatted output as ISO C defines it

    The text that ISO C (7.21.6.1) defines for a format, for the part of the formats
    in which [do_printf] of lib/libc/stdio/do_printf.c agrees with it. *)

From Stdlib Require Import Ascii.
From stdpp Require Import strings.
From S2P Require Import Prelude Numbers NumbersSpec Strings StringsSpec Printf PrintfSpec PrintfRender PrintfFormat.

(** ** Numerals *)

Definition digit_char (upper : bool) (d : Z) : Z := if d <? 10 then ch "0" + d else (if upper then ch "A" else ch "a") + (d - 10).

(** A number of 32 bits has at most 32 digits. *)
Fixpoint numeral_loop (fuel : nat) (upper : bool) (base v : Z) (l : list Z) : list Z :=
  match fuel with
  | O => l
  | S fuel =>
      let l := digit_char upper (v mod base) :: l in
      if v / base =? 0 then l else numeral_loop fuel upper base (v / base) l
  end.
Definition numeral (upper : bool) (base v : Z) : list Z := numeral_loop 32 upper base v [].

Lemma digits_char_all : Forall (λ d, digits !! Z.to_nat d = Some (digit_char false d)) (seqZ 0 36).
Proof. repeat constructor. Qed.

Lemma digits_char d : 0 <= d < 36 → digits !! Z.to_nat d = Some (digit_char false d).
Proof. intros H. pose proof digits_char_all as HA. rewrite Forall_forall in HA. apply HA, elem_of_seqZ. lia. Qed.

Lemma is_digit_char base c : base <= 36 → is_digit_of base c → c = digit_char false (digit_value c) ∧ 0 <= digit_value c < base.
Proof.
  intros Hb (d & Hd & E). destruct (digits_value d ltac:(lia)) as (c' & E' & V & _). rewrite (digits_char d) in E, E' by lia.
  injection E as <-. injection E' as <-. by rewrite V.
Qed.

Lemma number_snoc base cs c : number base (cs ++ [c]) = number base cs * base + digit_value c.
Proof. unfold number. by rewrite foldl_app. Qed.

Lemma number_positive base cs : 2 <= base <= 36 → Forall (is_digit_of base) cs → head cs ≠ Some 48 → cs ≠ [] → 0 < number base cs.
Proof.
  intros Hb. induction cs as [|c cs IH] using rev_ind; [done|]. intros [F Fc]%Forall_app Hh _. rewrite number_snoc.
  apply Forall_inv in Fc. destruct (is_digit_char base c ltac:(lia) Fc) as [Ec Hc]. destruct cs as [|x cs].
  - cbn in Hh |- *. destruct (decide (digit_value c = 0)) as [E|]; [|lia]. rewrite E in Ec. by subst c.
  - specialize (IH F Hh ltac:(done)). nia.
Qed.

Lemma numeral_loop_digits base cs : 2 <= base <= 36 → Forall (is_digit_of base) cs → head cs ≠ Some 48 → cs ≠ [] →
  ∀ fuel l, number base cs < 2 ^ Z.of_nat fuel → numeral_loop fuel false base (number base cs) l = cs ++ l.
Proof.
  intros Hb. induction cs as [|c cs IH] using rev_ind; [done|]. intros F Hh Hn fuel l Hf.
  pose proof (number_positive base (cs ++ [c]) Hb F Hh Hn) as P. apply Forall_app in F as [F Fc]. apply Forall_inv in Fc.
  destruct (is_digit_char base c ltac:(lia) Fc) as [Ec Hc]. destruct fuel as [|fuel]; [cbn in Hf; lia|]. cbn [numeral_loop].
  rewrite number_snoc in *. rewrite (Z.add_comm (_ * _)), Z.mod_add, Z.div_add, Z.mod_small, Z.div_small, Z.add_0_l, <- Ec by lia.
  destruct cs as [|x cs]; [done|]. pose proof (number_positive base (x :: cs) Hb F Hh ltac:(done)) as Px.
  destruct (Z.eqb_spec (number base (x :: cs)) 0); [lia|]. rewrite IH; [by rewrite <- app_assoc|done|done|done|].
  rewrite Nat2Z.inj_succ, Z.pow_succ_r in Hf by lia. nia.
Qed.

Lemma denotes_numeral base cs v : 2 <= base <= 36 → v < 2 ^ 32 → denotes base cs v → cs = numeral false base v.
Proof.
  intros Hb Hv (F & <- & [[E ->]|(P & Hh & Hn)]).
  - unfold numeral. rewrite E. cbn [numeral_loop]. by rewrite Z.mod_0_l, Z.div_0_l by lia.
  - unfold numeral. rewrite (numeral_loop_digits base cs) by done. by rewrite app_nil_r.
Qed.

Lemma numeral_denotes base v : 2 <= base <= 36 → 0 <= v < 2 ^ 32 → denotes base (numeral false base v) v.
Proof. intros Hb Hv. destruct (ulitostr_writes v base Hb Hv) as (cs & _ & D). by rewrite <- (denotes_numeral base cs v) by (done || lia). Qed.

Lemma upper_char_all : Forall (λ d, uppercase (digit_char false d) = digit_char true d) (seqZ 0 16).
Proof. repeat constructor. Qed.

Lemma upper_loop n : ∀ v l, 0 <= v → uppercase <$> numeral_loop n false 16 v l = numeral_loop n true 16 v (uppercase <$> l).
Proof.
  induction n as [|n IH]; intros v l Hv; cbn [numeral_loop]; [done|].
  pose proof upper_char_all as HA. rewrite Forall_forall in HA. rewrite <- (HA (v mod 16)) by (apply elem_of_seqZ; pose proof (Z.mod_pos_bound v 16); lia).
  destruct (v / 16 =? 0); [done|]. rewrite IH by (apply Z.div_pos; lia). done.
Qed.

Lemma upper_numeral v : 0 <= v → uppercase <$> numeral false 16 v = numeral true 16 v.
Proof. apply upper_loop. Qed.

Lemma numeral_length base v : 2 <= base <= 36 → 0 <= v < 2 ^ 32 → 0 < len (numeral false base v) < 2 ^ 31.
Proof.
  intros Hb Hv. split; [pose proof (denotes_nonempty _ _ _ (numeral_denotes base v Hb Hv)); lia|].
  unfold numeral. assert (G : ∀ n v l, len (numeral_loop n false base v l) <= Z.of_nat n + len l).
  { intros n. induction n as [|n IH]; intros x l; cbn [numeral_loop]; [lia|]. destruct (_ =? 0); [cbn [length]; lia|].
    specialize (IH (x / base) (digit_char false (x mod base) :: l)). cbn [length] in *. lia. }
  specialize (G 32%nat v []). cbn [length] in G. lia.
Qed.

Lemma numeral_no_minus base v : 2 <= base <= 36 → 0 <= v < 2 ^ 32 → starts_minus (numeral false base v) = false.
Proof.
  intros Hb Hv. destruct (numeral_denotes base v Hb Hv) as (F & _ & _). destruct (numeral false base v) as [|c cs]; [done|]. cbn.
  apply Forall_inv in F. destruct (is_digit_char base c ltac:(lia) F) as [E Hd]. apply Z.eqb_neq. intros Ec. unfold digit_char in E.
  change (ch "0") with 48 in E. change (ch "a") with 97 in E. change (ch "-") with 45 in Ec. destruct (Z.ltb_spec (digit_value c) 10); lia.
Qed.

(** ** Formats *)

(** The field: its text, filled up with blanks to the width. *)
Definition justify (d : directive) (t : list Z) : list Z :=
  let blanks := replicate (Z.to_nat (number_of (d_width d) - len t)) (ch " ") in
  if has (ch "-") (d_flags d) then t ++ blanks else blanks ++ t.

(** At least as many digits as the precision asks for; none of the number 0 with the
    precision 0. *)
Definition iso_digits (d : directive) (n : Z) (ds : list Z) : list Z :=
  match d_precision d with
  | Some p => if (number_of p =? 0) && (n =? 0) then [] else replicate (Z.to_nat (number_of p - len ds)) (ch "0") ++ ds
  | None => ds
  end.

(** The sign of a signed conversion. *)
Definition iso_sign (d : directive) (n : Z) : list Z :=
  if n <? 0 then [ch "-"] else if has (ch "+") (d_flags d) then [ch "+"] else if has (ch " ") (d_flags d) then [ch " "] else [].

(** The alternative form: the first digit of an octal number is 0, and a hexadecimal
    number other than 0 has a prefix. *)
Definition iso_octal (d : directive) (ds : list Z) : list Z :=
  if has (ch "#") (d_flags d) then match ds with 48 :: _ => ds | _ => ch "0" :: ds end else ds.
Definition iso_hex (d : directive) (x n : Z) (ds : list Z) : list Z :=
  if has (ch "#") (d_flags d) && negb (n =? 0) then ch "0" :: x :: ds else ds.

(** The text of a directive, for an [int], [unsigned int], [long] or [unsigned long],
    which have 32 bits, a pointer, whose text is the implementation's, or a string. *)
Definition iso_directive (d : directive) (a : arg) : option (list Z) :=
  match d_conv d, a with
  | (ConvD | ConvI), IntArg v => Some (justify d (iso_sign d (i32 v) ++ iso_digits d (i32 v) (numeral false 10 (Z.abs (i32 v)))))
  | ConvU, IntArg v => Some (justify d (iso_digits d (u32 v) (numeral false 10 (u32 v))))
  | ConvO, IntArg v => Some (justify d (iso_octal d (iso_digits d (u32 v) (numeral false 8 (u32 v)))))
  | ConvX, IntArg v => Some (justify d (iso_hex d (ch "x") (u32 v) (iso_digits d (u32 v) (numeral false 16 (u32 v)))))
  | ConvUpperX, IntArg v => Some (justify d (iso_hex d (ch "X") (u32 v) (iso_digits d (u32 v) (numeral true 16 (u32 v)))))
  | ConvP, IntArg v => Some (justify d (let t := numeral false 16 (u32 v) in replicate (Z.to_nat (8 - len t)) (ch "0") ++ t))
  | ConvS, StrArg s => Some (justify d (match d_precision d with Some p => take (Z.to_nat (number_of p)) s | None => s end))
  | ConvC, IntArg v => Some (justify d [signed 8 v])
  | _, _ => None
  end.

(** The text of a format; a newline of the format itself is sent to a terminal, with
    a carriage return. *)
Fixpoint iso_text (ps : list piece) (args : list arg) : option (list Z) :=
  match ps with
  | [] => Some []
  | Lit c :: ps => l ← iso_text ps args; Some (literal_chars c ++ l)
  | Dir d :: ps =>
      match args with
      | [] => None
      | a :: args => t ← iso_directive d a; l ← iso_text ps args; Some (t ++ l)
      end
  end.

(** ** Where [do_printf] agrees *)

(** The flags: those for a sign with a signed conversion, the alternative form with
    an octal or hexadecimal one; not the flag 0. *)
Definition flags_allowed (v : conversion) : list Z :=
  match v with
  | ConvD | ConvI => [ch "-"; ch "+"; ch " "]
  | ConvO | ConvX | ConvUpperX => [ch "-"; ch "#"]
  | _ => [ch "-"]
  end.

Definition is_number (v : conversion) : bool := match v with ConvD | ConvI | ConvU | ConvO | ConvX | ConvUpperX => true | _ => false end.

(** A decimal number that fits an [int]. *)
Definition decimal (ds : list Z) : bool := forallb (λ d, (0 <=? d) && (d <=? 9)) ds && (number_of ds <? 2 ^ 31).

Definition is_zero (a : arg) : bool := match a with IntArg v => u32 v =? 0 | _ => false end.

Definition width_agrees (d : directive) : bool := decimal (d_width d) && match d_width d with 0 :: _ => false | _ => true end.

(** No precision 0 for the number 0, and none longer than the string. *)
Definition precision_agrees (d : directive) (a : arg) : bool :=
  match d_precision d with
  | None => true
  | Some p =>
      decimal p &&
      match d_conv d, a with
      | ConvS, StrArg s => number_of p <=? len s
      | v, _ => is_number v && negb ((number_of p =? 0) && is_zero a)
      end
  end.

Definition length_agrees (d : directive) : bool :=
  match d_length d with DEFAULT => true | LONG_INT => is_number (d_conv d) | _ => false end.

(** No alternative form of 0, nor of an octal number with more zeros. *)
Definition alternative_agrees (d : directive) (a : arg) : bool :=
  negb (has (ch "#") (d_flags d)) ||
  negb (is_zero a) &&
  match d_conv d, d_precision d, a with
  | ConvO, Some p, IntArg v => number_of p <=? len (numeral false 8 (u32 v))
  | _, _, _ => true
  end.

Definition string_agrees (a : arg) : bool := match a with StrArg s => len s <? 2 ^ 31 | _ => true end.

Definition agrees (d : directive) (a : arg) : bool :=
  forallb (λ c, has c (flags_allowed (d_conv d))) (d_flags d) &&
  width_agrees d && precision_agrees d a && length_agrees d && alternative_agrees d a && string_agrees a.

(** Characters other than the end of the string and '%', and such directives. *)
Fixpoint all_agree (ps : list piece) (args : list arg) : bool :=
  match ps with
  | [] => true
  | Lit c :: ps => negb (c =? 0) && negb (c =? ch "%") && all_agree ps args
  | Dir d :: ps => match args with [] => false | a :: args => agrees d a && all_agree ps args end
  end.

Lemma decimal_small ds : decimal ds = true → small_number ds.
Proof.
  unfold decimal, small_number. rewrite andb_true_iff, forallb_forall. intros [H ?]. split; [|lia].
  rewrite Forall_forall. intros x Hx%list_elem_of_In. specialize (H x Hx). lia.
Qed.

Lemma has_In c l : has c l = true ↔ c ∈ l.
Proof.
  unfold has. rewrite existsb_exists, list_elem_of_In. split; [intros (x & Hx & E); by apply Z.eqb_eq in E as ->|]. intros H. exists c.
  by rewrite Z.eqb_refl.
Qed.

Lemma has_not_allowed c d : forallb (λ c, has c (flags_allowed (d_conv d))) (d_flags d) = true →
  has c (flags_allowed (d_conv d)) = false → has c (d_flags d) = false.
Proof.
  rewrite forallb_forall. intros H Hc. apply not_true_iff_false. rewrite has_In, list_elem_of_In. intros Hi. by rewrite (H c Hi) in Hc.
Qed.

Lemma agrees_directive_ok d a : agrees d a = true → directive_ok d.
Proof.
  unfold agrees, width_agrees, precision_agrees, length_agrees. rewrite !andb_true_iff. intros (((((F & [W _]) & P) & L) & _) & _). split.
  - rewrite forallb_forall in F. rewrite Forall_forall. intros c Hc%list_elem_of_In. specialize (F c Hc). apply has_In in F.
    destruct (d_conv d); cbn [flags_allowed] in F; set_solver.
  - by apply decimal_small.
  - intros p E. rewrite E in P. apply andb_true_iff in P as [P _]. by apply decimal_small.
  - by destruct (d_length d).
Qed.

(** The conversions of numbers of 32 bits write numerals. *)
Definition numerals (text : itype → Z → Z → list Z) : Prop := ∀ k v base,
  (k = TUInt ∨ k = TULong ∨ k = TInt ∨ k = TLong) → in_type k v → asked k base →
  text k v base = if v <? 0 then ch "-" :: numeral false base (- v) else numeral false base v.

Section standard.
Variable text : itype → Z → Z → list Z.
Hypothesis T : numerals text.

Lemma unsigned_text d a v base : length_agrees d = true → a = IntArg v → base = 8 ∨ base = 10 ∨ base = 16 →
  ∃ x, unsigned_of (d_length d) a = Some x ∧ number_text text base x = numeral false base (u32 v).
Proof.
  intros L -> Hb. pose proof (wrap_range 32 v ltac:(lia)) as R. unfold length_agrees in L.
  destruct (d_length d); try done; eexists; (split; [done|]); unfold number_text; cbn [fst snd];
    (rewrite T; [|auto|exact R|exact Hb]); (destruct (Z.ltb_spec (u32 v) 0); [lia|done]).
Qed.

Lemma signed_text d a v : length_agrees d = true → a = IntArg v →
  ∃ x, signed_of (d_length d) a = Some x ∧
    number_text text 10 x = if i32 v <? 0 then ch "-" :: numeral false 10 (- i32 v) else numeral false 10 (i32 v).
Proof.
  intros L ->. pose proof (signed_range 32 v ltac:(lia)) as R. unfold length_agrees in L.
  destruct (d_length d); try done; eexists; (split; [done|]); unfold number_text; cbn [fst snd];
    (rewrite T; [done|auto|exact R|done]).
Qed.

(** Zeros before the digits. *)
Lemma zeros_iso d n ds : is_number (d_conv d) = true ∨ d_precision d = None → (∀ p, d_precision d = Some p → (number_of p =? 0) && (n =? 0) = false) →
  (∀ p, d_precision d = Some p → 0 <= number_of p) →
  replicate (Z.to_nat (zeros_of (conversion_char (d_conv d)) (precision_of (d_precision d)) (len ds))) (ch "0") ++ ds = iso_digits d n ds.
Proof.
  intros Hn Hz Hp. unfold iso_digits, zeros_of, precision_of. destruct (d_precision d) as [p|].
  - destruct Hn as [Hn|Hn]; [|done]. rewrite (Hz p eq_refl). specialize (Hp p eq_refl).
    replace (conversion_char (d_conv d) =? ch "s") with false by (by destruct (d_conv d)). destruct (Z.eqb_spec (number_of p) (-1)); [lia|].
    cbn [orb]. f_equal. f_equal. lia.
  - by rewrite orb_true_r.
Qed.

Lemma render_justify d r : render d r =
  justify d (sign_chars (r_negative r) (has (ch "+") (d_flags d)) (has (ch " ") (d_flags d)) ++ prefix_chars (has (ch "#") (d_flags d)) (r_prefix r) ++
    replicate (Z.to_nat (zeros_of (conversion_char (d_conv d)) (r_precision r) (len (r_body r)))) (ch "0") ++ r_body r).
Proof. done. Qed.

(** What the agreement says of a conversion of a number. *)
Lemma agrees_number d v : is_number (d_conv d) = true → agrees d (IntArg v) = true →
  forallb (λ c, has c (flags_allowed (d_conv d))) (d_flags d) = true ∧ length_agrees d = true ∧
  (∀ p, d_precision d = Some p → (number_of p =? 0) && (u32 v =? 0) = false ∧ 0 <= number_of p) ∧ alternative_agrees d (IntArg v) = true.
Proof.
  intros N. unfold agrees. rewrite !andb_true_iff. intros (((((F & _) & P) & L) & A) & _). split_and!; try done.
  intros p E. unfold precision_agrees in P. rewrite E in P. apply andb_true_iff in P as [D P]. split.
  - apply negb_true_iff. by destruct (d_conv d).
  - destruct (decimal_small p D) as [Hp _]. by apply (number_of_nonneg p).
Qed.

Lemma signed_zero v : i32 v = 0 → u32 v = 0.
Proof. pose proof (wrap_range 32 v ltac:(lia)). unfold signed. cbv zeta. destruct (_ <? _); lia. Qed.

Definition gives (d : directive) (a : arg) (l : list Z) : Prop :=
  ∃ r, rendering_of text d a = Some r ∧ len (r_body r) < 2 ^ 31 ∧ render d r = l.

Lemma iso_signed d v l : d_conv d = ConvD ∨ d_conv d = ConvI → agrees d (IntArg v) = true → iso_directive d (IntArg v) = Some l → gives d (IntArg v) l.
Proof.
  intros Hc A E. assert (N : is_number (d_conv d) = true) by (by destruct Hc as [-> | ->]).
  destruct (agrees_number d v N A) as (F & L & P & _). destruct (signed_text d _ v L eq_refl) as (x & Ex & Tx).
  assert (El : l = justify d (iso_sign d (i32 v) ++ iso_digits d (i32 v) (numeral false 10 (Z.abs (i32 v)))))
    by (unfold iso_directive in E; by destruct Hc as [Hc|Hc]; rewrite Hc in E; injection E as <-).
  pose proof (signed_range 32 v ltac:(lia)) as R. change (- 2 ^ (32 - 1) <= i32 v < 2 ^ (32 - 1)) in R.
  assert (Hr : rendering_of text d (IntArg v) = Some {| r_negative := i32 v <? 0; r_prefix := (0, 0); r_precision := precision_of (d_precision d);
    r_body := numeral false 10 (Z.abs (i32 v)) |}).
  { assert (S : starts_minus (number_text text 10 x) = (i32 v <? 0)) by (rewrite Tx; destruct (Z.ltb_spec (i32 v) 0); [done|apply numeral_no_minus; lia]).
    assert (B : (if i32 v <? 0 then List.tl (number_text text 10 x) else number_text text 10 x) = numeral false 10 (Z.abs (i32 v))).
    { rewrite Tx. destruct (Z.ltb_spec (i32 v) 0); [rewrite Z.abs_neq by lia|rewrite Z.abs_eq by lia]; reflexivity. }
    unfold rendering_of. destruct Hc as [-> | ->]; rewrite Ex; cbn [mbind option_bind]; by rewrite S, B. }
  eexists. split; [exact Hr|]. split; [cbn; apply numeral_length; lia|]. rewrite render_justify, El. cbn [r_negative r_prefix r_precision r_body].
  rewrite (zeros_iso d (i32 v)); [|by left| |by intros p Ep; apply (P p Ep)].
  - f_equal. unfold sign_chars, iso_sign, prefix_chars. by destruct (has (ch "#") (d_flags d)).
  - intros p Ep. destruct (P p Ep) as [Pz _]. destruct (Z.eqb_spec (number_of p) 0); [|done]. cbn [andb] in *. destruct (Z.eqb_spec (i32 v) 0) as [Ez|]; [|reflexivity].
    exfalso. by rewrite (signed_zero v Ez) in Pz.
Qed.

(** The numeral of an unsigned conversion, in the case it is written in. *)
Definition unsigned_numeral (v : conversion) (n : Z) : list Z :=
  match v with ConvU => numeral false 10 n | ConvO => numeral false 8 n | ConvUpperX => numeral true 16 n | _ => numeral false 16 n end.
Definition unsigned_prefix (v : conversion) : Z * Z :=
  match v with ConvX | ConvP => (ch "0", ch "x") | ConvUpperX => (ch "0", ch "X") | ConvO => (ch "0", 0) | _ => (0, 0) end.

Lemma unsigned_rendering d v : length_agrees d = true → match d_conv d with ConvU | ConvO | ConvX | ConvUpperX | ConvP => True | _ => False end →
  rendering_of text d (IntArg v) = Some {| r_negative := false; r_prefix := if has (ch "#") (d_flags d) then unsigned_prefix (d_conv d) else (0, 0);
    r_precision := match d_conv d with ConvP => 8 | _ => precision_of (d_precision d) end; r_body := unsigned_numeral (d_conv d) (u32 v) |} ∧
  len (unsigned_numeral (d_conv d) (u32 v)) < 2 ^ 31.
Proof.
  intros L Hc. pose proof (wrap_range 32 v ltac:(lia)) as R. unfold rendering_of, unsigned_numeral.
  pose proof (numeral_length 8 (u32 v) ltac:(lia) R). pose proof (numeral_length 10 (u32 v) ltac:(lia) R). pose proof (numeral_length 16 (u32 v) ltac:(lia) R).
  destruct (d_conv d); try contradiction.
  - destruct (unsigned_text d _ v 10 L eq_refl ltac:(auto)) as (x & -> & Tx). cbn [mbind option_bind]. rewrite Tx, list_fmap_id. split; [reflexivity|lia].
  - destruct (unsigned_text d _ v 16 L eq_refl ltac:(auto)) as (x & -> & Tx). cbn [mbind option_bind]. rewrite Tx, list_fmap_id. split; [reflexivity|lia].
  - destruct (unsigned_text d _ v 16 L eq_refl ltac:(auto)) as (x & -> & Tx). cbn [mbind option_bind].
    rewrite Tx, <- upper_numeral by lia. rewrite length_fmap. split; [reflexivity|lia].
  - destruct (unsigned_text d _ v 16 L eq_refl ltac:(auto)) as (x & -> & Tx). cbn [mbind option_bind]. rewrite Tx, list_fmap_id. split; [reflexivity|lia].
  - destruct (unsigned_text d _ v 8 L eq_refl ltac:(auto)) as (x & -> & Tx). cbn [mbind option_bind]. rewrite Tx, list_fmap_id. split; [reflexivity|lia].
Qed.

Lemma sign_none d : forallb (λ c, has c (flags_allowed (d_conv d))) (d_flags d) = true → match d_conv d with ConvD | ConvI => False | _ => True end →
  sign_chars false (has (ch "+") (d_flags d)) (has (ch " ") (d_flags d)) = [].
Proof.
  intros F Hc. rewrite (has_not_allowed (ch "+") d F), (has_not_allowed (ch " ") d F) by (by destruct (d_conv d)). done.
Qed.

(** The prefix is the alternative form. *)
Lemma prefix_iso d v : alternative_agrees d (IntArg v) = true → forallb (λ c, has c (flags_allowed (d_conv d))) (d_flags d) = true →
  match d_conv d with ConvU | ConvO | ConvX | ConvUpperX => True | _ => False end →
  (∀ p, d_precision d = Some p → (number_of p =? 0) && (u32 v =? 0) = false) →
  iso_directive d (IntArg v) = Some (justify d
    (prefix_chars (has (ch "#") (d_flags d)) (if has (ch "#") (d_flags d) then unsigned_prefix (d_conv d) else (0, 0)) ++
     iso_digits d (u32 v) (unsigned_numeral (d_conv d) (u32 v)))).
Proof.
  intros A F Hc Z. unfold iso_directive, alternative_agrees, is_zero in *. pose proof (has_not_allowed (ch "#") d F) as NH.
  pose proof (wrap_range 32 v ltac:(lia)) as R. destruct (numeral_denotes 8 (u32 v) ltac:(lia) R) as (_ & _ & D).
  unfold iso_octal, iso_hex, unsigned_prefix, unsigned_numeral, prefix_chars. destruct (d_conv d); try contradiction.
  - by rewrite NH.
  - destruct (has (ch "#") (d_flags d)); [|done]. cbn [negb orb andb] in *. apply andb_true_iff in A as [-> _]. done.
  - destruct (has (ch "#") (d_flags d)); [|done]. cbn [negb orb andb] in *. apply andb_true_iff in A as [-> _]. done.
  - destruct (has (ch "#") (d_flags d)); [|done]. cbn [negb orb andb] in *. apply andb_true_iff in A as [A Ap].
    assert (E : iso_digits d (u32 v) (numeral false 8 (u32 v)) = numeral false 8 (u32 v)).
    { unfold iso_digits in *. destruct (d_precision d) as [p|]; [|done]. rewrite (Z p eq_refl). replace (Z.to_nat _) with 0%nat by lia. done. }
    rewrite E. destruct D as [[D _]|(_ & Dh & Dn)]; [by rewrite D in A|]. destruct (numeral false 8 (u32 v)) as [|c cs]; [done|].
    assert (c ≠ 48) as Hc48 by (cbn in Dh; congruence). do 3 f_equal. clear -Hc48. destruct c as [|c|]; try done. do 6 (destruct c as [c|c|]; try done).
Qed.

Lemma iso_unsigned d v l : match d_conv d with ConvU | ConvO | ConvX | ConvUpperX => True | _ => False end →
  agrees d (IntArg v) = true → iso_directive d (IntArg v) = Some l → gives d (IntArg v) l.
Proof.
  intros Hc A E. assert (N : is_number (d_conv d) = true) by (by destruct (d_conv d)).
  destruct (agrees_number d v N A) as (F & L & P & Al). rewrite (prefix_iso d v Al F Hc) in E by (intros p Ep; apply (P p Ep)). injection E as <-.
  destruct (unsigned_rendering d v L) as [Hr Hl]; [by destruct (d_conv d)|]. eexists. split; [exact Hr|]. split; [exact Hl|].
  rewrite render_justify. cbn [r_negative r_prefix r_precision r_body]. rewrite (sign_none d F) by (by destruct (d_conv d)).
  replace (match d_conv d with ConvP => 8 | _ => precision_of (d_precision d) end) with (precision_of (d_precision d)) by (by destruct (d_conv d)).
  rewrite (zeros_iso d (u32 v)); [done|by left|by intros p Ep; apply (P p Ep)|by intros p Ep; apply (P p Ep)].
Qed.

Lemma agrees_other d a : is_number (d_conv d) = false → agrees d a = true →
  forallb (λ c, has c (flags_allowed (d_conv d))) (d_flags d) = true ∧ length_agrees d = true ∧ string_agrees a = true ∧
  match d_precision d with Some p => decimal p = true ∧ ∃ s, d_conv d = ConvS ∧ a = StrArg s ∧ number_of p <= len s | None => True end.
Proof.
  intros N. unfold agrees. rewrite !andb_true_iff. intros (((((F & _) & P) & L) & _) & S). split_and!; try done.
  unfold precision_agrees in P. destruct (d_precision d) as [p|]; [|done]. apply andb_true_iff in P as [D P]. split; [done|].
  destruct (d_conv d), a; cbn in P, N; try discriminate; eexists; (split; [done|]); (split; [done|]); lia.
Qed.

Lemma iso_pointer d v l : d_conv d = ConvP → agrees d (IntArg v) = true → iso_directive d (IntArg v) = Some l → gives d (IntArg v) l.
Proof.
  intros Hc A E. destruct (agrees_other d (IntArg v) ltac:(by rewrite Hc) A) as (F & L & _ & _).
  unfold iso_directive in E. rewrite Hc in E. injection E as <-. destruct (unsigned_rendering d v L) as [Hr Hl]; [by rewrite Hc|].
  eexists. split; [exact Hr|]. split; [exact Hl|]. rewrite render_justify. cbn [r_negative r_prefix r_precision r_body].
  rewrite (sign_none d F), (has_not_allowed (ch "#") d F) by (by rewrite Hc). rewrite Hc. cbn [prefix_chars unsigned_numeral app]. f_equal.
  f_equal. f_equal. change (zeros_of (conversion_char ConvP) 8 ?n) with (Z.max 0 (8 - n)). lia.
Qed.

Lemma iso_string d s l : d_conv d = ConvS → agrees d (StrArg s) = true → iso_directive d (StrArg s) = Some l → gives d (StrArg s) l.
Proof.
  intros Hc A E. destruct (agrees_other d (StrArg s) ltac:(by rewrite Hc) A) as (F & L & S & P). unfold string_agrees in S.
  unfold iso_directive in E. rewrite Hc in E. injection E as <-. set (t := match d_precision d with Some p => _ | None => s end).
  assert (Hr : rendering_of text d (StrArg s) = Some {| r_negative := false; r_prefix := (0, 0); r_precision := precision_of (d_precision d); r_body := t |}).
  { unfold rendering_of, t, precision_of. rewrite Hc. destruct (d_precision d) as [p|].
    - destruct P as (D & s' & _ & [= <-] & Hp). destruct (decimal_small p D) as [Hd _]. pose proof (number_of_nonneg p Hd).
      destruct (Z.leb_spec (number_of p) (len s)); [|lia]. destruct (Z.eqb_spec (number_of p) (-1)); [lia|done].
    - destruct (Z.leb_spec (-1) (len s)); [done|lia]. }
  eexists. split; [exact Hr|]. cbn [r_body]. split.
  - assert (len t <= len s); [|lia]. unfold t. destruct (d_precision d); [|done]. rewrite length_take. lia.
  - rewrite render_justify. cbn [r_negative r_prefix r_precision r_body]. rewrite (sign_none d F) by (by rewrite Hc). rewrite Hc.
    f_equal. unfold prefix_chars. by destruct (has (ch "#") (d_flags d)).
Qed.

Lemma iso_char d v l : d_conv d = ConvC → agrees d (IntArg v) = true → iso_directive d (IntArg v) = Some l → gives d (IntArg v) l.
Proof.
  intros Hc A E. destruct (agrees_other d (IntArg v) ltac:(by rewrite Hc) A) as (F & L & _ & P).
  unfold iso_directive in E. rewrite Hc in E. injection E as <-. eexists. unfold rendering_of. rewrite Hc. split; [reflexivity|]. split; [cbn; lia|].
  rewrite render_justify. cbn [r_negative r_prefix r_precision r_body]. rewrite (sign_none d F) by (by rewrite Hc).
  destruct (d_precision d) as [p|]; [by destruct P as (_ & s & Hs & _); rewrite Hc in Hs|]. rewrite Hc. f_equal. unfold prefix_chars.
  by destruct (has (ch "#") (d_flags d)).
Qed.

Lemma iso_gives d a l : agrees d a = true → iso_directive d a = Some l → gives d a l.
Proof.
  intros A E. assert (C : ∀ v, a = IntArg v → gives d a l).
  { intros v ->. destruct (d_conv d) eqn:Hc.
    1, 2: apply iso_signed; rewrite ?Hc; auto.
    1-3: apply iso_unsigned; rewrite ?Hc; auto.
    - by apply iso_pointer.
    - apply iso_unsigned; rewrite ?Hc; auto.
    - unfold iso_directive in E. by rewrite Hc in E.
    - by apply iso_char. }
  destruct a as [v|v|s|q]; [by eapply C|exfalso; clear -E; unfold iso_directive in E; by destruct (d_conv d)| |exfalso; clear -E; unfold iso_directive in E; by destruct (d_conv d)].
  destruct (d_conv d) eqn:Hc; try (exfalso; clear -E Hc; unfold iso_directive in E; by rewrite Hc in E). by apply iso_string.
Qed.

(** The text ISO C defines is the one the conversions give. *)
Lemma iso_rendered ps : ∀ args l, all_agree ps args = true → iso_text ps args = Some l → Forall piece_ok ps ∧ rendered text ps args = Some l.
Proof.
  induction ps as [|[c|d] ps IH]; intros args l A E; cbn [all_agree iso_text rendered] in *; [done|..].
  - apply andb_true_iff in A as [Ac A]. destruct (iso_text ps args) as [l'|] eqn:El; [|done]. destruct (IH args l' A El) as [F ->].
    split; [|done]. constructor; [|done]. cbn. lia.
  - destruct args as [|a args]; [done|]. apply andb_true_iff in A as [Ad A]. destruct (iso_directive d a) as [t|] eqn:Ed; [|done]. cbn in E.
    destruct (iso_text ps args) as [l'|] eqn:El; [|done]. injection E as <-. destruct (IH args l' A El) as [F R].
    destruct (iso_gives d a t Ad Ed) as (r & Er & Hn & Hr). split; [constructor; [by eapply agrees_directive_ok|done]|].
    rewrite Er, R. cbn. destruct (Z.ltb_spec (len (r_body r)) (2 ^ 31)); [by rewrite Hr|lia].
Qed.
End standard.

(** The functions of lib/libc/stdlib/itoa.c write numerals. *)
Lemma libc_numerals : numerals libc_text.
Proof.
  assert (U : ∀ v base, 2 <= base <= 36 → 0 <= v < 2 ^ 32 → ∀ l, match _ulitostr v base [] with Ret _ cs => cs | _ => l end = numeral false base v).
  { intros v base Hb Hv l. destruct (ulitostr_writes v base Hb Hv) as (cs & -> & D). by apply denotes_numeral; [|lia|]. }
  assert (I : ∀ v, - 2 ^ 31 <= v < 2 ^ 31 → match _itostr v 10 [] with Ret _ cs => cs | _ => [] end =
    if v <? 0 then ch "-" :: numeral false 10 (- v) else numeral false 10 v).
  { intros v Hv. destruct (itostr_writes v 10 ltac:(lia) Hv) as (cs & -> & D). destruct (Z.ltb_spec v 0).
    - rewrite decide_True in D by done. destruct D as (cs' & -> & D). f_equal. apply denotes_numeral; [lia|lia|done].
    - rewrite decide_False in D by lia. rewrite wrap_small in D by lia. apply denotes_numeral; [lia|lia|done]. }
  intros k v base K Hv Hb. unfold libc_text. destruct K as [-> |[-> |[-> | ->]]]; cbn in Hv, Hb; cbn [converter].
  1, 2: destruct (Z.ltb_spec v 0); [lia|]; apply U; [lia|done].
  - subst base. by apply I.
  - subst base. rewrite litostr_itostr by done. by apply I.
Qed.

Section format.
Context {W : Type}.
Variable writeFunc : Z → M W Z.
Variable itostr : itype → Z → Z → list Z → Z * list Z.
Variable text : itype → Z → Z → list Z.

(** C27. Formatted output: for formats within [all_agree], [do_printf] gives
    [writeFunc] the text that ISO C defines for the format and its arguments (with a
    carriage return before each newline of the format itself), character by character,
    and nothing after the first character that is refused; the result is 0, or -1 if
    a character was refused.  The formats are those of characters and the conversions
    d, i, u, o, x, X, p, s and c, with a width, a precision, the length l of numbers,
    and the flags -, and + and blank for d and i, and # for o, x and X.  Left out are
    %%, the conversion n, the flag 0, a width or precision *, the lengths h, hh, ll, j,
    z, t and L, the precision 0 for the number 0, a precision longer than the string,
    the flag # for 0 and for octal numbers that have zeros in front, and whatever ISO C
    leaves undefined.  [itostr], which is not part of the repository, has to write the
    numeral of a number of 32 bits. *)
Theorem do_printf_standard ps args l w :
  itostr_ok itostr text → numerals text → all_agree ps args = true → iso_text ps args = Some l →
  match send writeFunc l w with
  | Ret r w' => ∃ e, do_printf writeFunc itostr (ps ≫= piece_chars) args w = Ret r e ∧ sink e = w'
  | Leave w' => ∃ e, do_printf writeFunc itostr (ps ≫= piece_chars) args w = Leave e ∧ sink e = w'
  | Panic => do_printf writeFunc itostr (ps ≫= piece_chars) args w = Panic
  | Fault f => do_printf writeFunc itostr (ps ≫= piece_chars) args w = Fault f
  end.
Proof. intros H T A E. destruct (iso_rendered text T ps args l A E) as [F R]. by apply (do_printf_renders writeFunc itostr text). Qed.
End format.

(** "[%-6d|%#x|%+.4ld|%5s|%c]", newline. *)
Definition iso_format : list piece :=
  [Lit (ch "[");
   Dir {| d_flags := [ch "-"]; d_width := [6]; d_precision := None; d_length := DEFAULT; d_conv := ConvD |}; Lit (ch "|");
   Dir {| d_flags := [ch "#"]; d_width := []; d_precision := None; d_length := DEFAULT; d_conv := ConvX |}; Lit (ch "|");
   Dir {| d_flags := [ch "+"]; d_width := []; d_precision := Some [4]; d_length := LONG_INT; d_conv := ConvD |}; Lit (ch "|");
   Dir {| d_flags := []; d_width := [5]; d_precision := Some [3]; d_length := DEFAULT; d_conv := ConvS |}; Lit (ch "|");
   Dir {| d_flags := []; d_width := []; d_precision := None; d_length := DEFAULT; d_conv := ConvC |}; Lit (ch "]"); Lit 10].

Lemma do_printf_standard_witness :
  ∃ e, do_printf (λ c, modify (λ l, l ++ [c]) ;; ret 0) libc_itostr (iso_format ≫= piece_chars)
    [IntArg (-42); IntArg 255; IntArg 7; StrArg (chars_of "abcdef"); IntArg 65] [] = Ret 0 e ∧
    sink e = chars_of "[-42   |0xff|+0007|  abc|A]" ++ [13; 10].
Proof.
  apply (do_printf_standard (λ c, modify (λ l, l ++ [c]) ;; ret 0) libc_itostr libc_text iso_format
    [IntArg (-42); IntArg 255; IntArg 7; StrArg (chars_of "abcdef"); IntArg 65]
    (chars_of "[-42   |0xff|+0007|  abc|A]" ++ [13; 10]) [] libc_itostr_ok libc_numerals); vm_compute; reflexivity.
Defined.

(** ** Where it does not agree *)

(** The alternative form of 0 has a prefix, and an octal one a 0 too many. *)
Example alternative_zero : printed "%#x" [IntArg 0] = Some (0, chars_of "0x0") ∧ printed "%#.5o" [IntArg 8] = Some (0, chars_of "000010").
Proof. by vm_compute. Qed.

(** The number 0 with the precision 0 is written. *)
Example precision_zero : printed "%.0d" [IntArg 0] = Some (0, chars_of "0").
Proof. by vm_compute. Qed.

(** A precision longer than the string writes what is behind it: the end of the string first. *)
Example precision_past_string : printed "%.3s" [StrArg (chars_of "ab")] = Some (0, chars_of "ab" ++ [0]).
Proof. by vm_compute. Qed.
