(* ===== verification/Calendar.v ===== *)
(** * Calendar: lib/libc/time/gmtime.c and mktime.c

    [time_t] is an unsigned 64-bit count of seconds; the fields of [struct tm]
    are [int]s.  The static structure [gmtime] fills is its result; [None] is a
    run out of fuel, which [gmtime_date] excludes. *)

From S2P Require Import Prelude.

Record tm := {
  tm_sec : Z; tm_min : Z; tm_hour : Z; tm_mday : Z; tm_mon : Z; tm_year : Z; tm_wday : Z; tm_yday : Z; tm_isdst : Z
}.

Definition _isleap (year : Z) : bool :=
  (Z.rem year 4 =? 0) && negb (Z.rem year 100 =? 0) || (Z.rem year 400 =? 0).

Definition month_days : list Z := [31; 28; 31; 30; 31; 30; 31; 31; 30; 31; 30; 31].

Definition year_days (tm_year : Z) : Z := if _isleap (i32 (1900 + tm_year)) then 366 else 365.
Definition leap_day (i : Z) (tm_year : Z) : Z := if (i =? 1) && _isleap (i32 (1900 + tm_year)) then 1 else 0.

(** The loop over the years: the rest of the days, the year and the weekday. *)
Fixpoint year_loop (fuel : nat) (t year wday : Z) : option (Z * Z * Z) :=
  match fuel with
  | O => None
  | S fuel =>
      if year_days year <=? t then
        year_loop fuel (u64 (t - year_days year)) (i32 (year + 1)) (Z.rem (wday + year_days year) 7)
      else Some (t, year, wday)
  end.

(** The loop over the months that are left: month, day of the month, weekday. *)
Fixpoint month_loop (months : list Z) (i t year mon wday mday : Z) : Z * Z * Z :=
  match months with
  | [] => (mon, mday, wday)
  | m :: months =>
      if t <? u32 (m + leap_day i year) then (mon, i32 (1 + i32 t), Z.rem (i32 (wday + i32 t)) 7)
      else month_loop months (i + 1) (u64 (t - (m + leap_day i year))) year (mon + 1)
             (Z.rem (wday + leap_day i year) 7) (1 + leap_day i year)
  end.

(** [mday0] is the value [tm_mday] had before. *)
Definition gmtime (mday0 t : Z) : option tm :=
  let sec := i32 (t mod 60) in
  let t := t / 60 in
  let min := i32 (t mod 60) in
  let t := t / 60 in
  let hour := i32 (t mod 24) in
  let t := t / 24 in
  match year_loop (S (Z.to_nat (t / 365))) t 70 4 with
  | None => None
  | Some (t, year, wday) =>
      let '(mon, mday, wday) := month_loop month_days 0 t year 0 wday mday0 in
      Some {| tm_sec := sec; tm_min := min; tm_hour := hour; tm_mday := mday; tm_mon := mon;
              tm_year := year; tm_wday := wday; tm_yday := i32 t; tm_isdst := 0 |}
  end.

(** The loop over the years of [mktime], [n] of them left. *)
Fixpoint mktime_loop (n : nat) (i t : Z) : Z :=
  match n with
  | O => t
  | S n => mktime_loop n (i + 1) (u64 (t + (if _isleap i then 366 else 365) * 60 * 60 * 24))
  end.

Definition mktime (timestruct : tm) : Z :=
  let t := u64 (tm_sec timestruct) in
  let t := u64 (t + i32 (tm_min timestruct * 60)) in
  let t := u64 (t + i32 (tm_hour timestruct * 60 * 60)) in
  let t := u64 (t + i32 (tm_yday timestruct * 60 * 60 * 24)) in
  mktime_loop (Z.to_nat (tm_year timestruct - 1970)) 1970 t.

(** ** Reference: the proleptic Gregorian calendar

    Years count from 1900 and months from 0, as in [struct tm]. *)

Definition leap (y : Z) : bool := _isleap (1900 + y).
Definition ylen (y : Z) : Z := if leap y then 366 else 365.
Definition mlen (y m : Z) : Z := default 0 (month_days !! Z.to_nat m) + (if (m =? 1) && leap y then 1 else 0).

(** Days from 1970-01-01 to the start of a year, and from there to a month. *)
Definition days_before (y : Z) : Z := foldr (λ k n, ylen k + n) 0 (seqZ 70 (y - 70)).
Definition month_start (y m : Z) : Z := foldr (λ k n, mlen y k + n) 0 (seqZ 0 m).

(** A valid date and time. *)
Record valid_tm (x : tm) : Prop := {
  v_sec : 0 <= tm_sec x < 60;
  v_min : 0 <= tm_min x < 60;
  v_hour : 0 <= tm_hour x < 24;
  v_mon : 0 <= tm_mon x < 12;
  v_mday : 1 <= tm_mday x <= mlen (tm_year x) (tm_mon x);
  v_yday : tm_yday x = month_start (tm_year x) (tm_mon x) + tm_mday x - 1
}.

(** Times whose year fits an [int] with room to spare. *)
Definition MAX_TIME : Z := 86400 * 365 * 2 ^ 30.

Lemma i32_small x : - 2 ^ 31 <= x < 2 ^ 31 → i32 x = x.
Proof.
  intros H. unfold signed, wrap. destruct (decide (0 <= x)) as [Hx|Hx].
  - rewrite Z.mod_small by lia. by replace (x <? 2 ^ (32 - 1)) with true by lia.
  - replace (x mod 2 ^ 32) with (x + 2 ^ 32) by (symmetry; rewrite <- (Z.mod_add x 1) by lia; apply Z.mod_small; lia).
    replace (x + 2 ^ 32 <? 2 ^ (32 - 1)) with false by lia. lia.
Qed.

Lemma year_days_ylen y : 0 <= y < 2 ^ 31 - 1900 → year_days y = ylen y.
Proof. intros H. unfold year_days, ylen, leap. by rewrite i32_small by lia. Qed.

Lemma ylen_range y : 365 <= ylen y <= 366.
Proof. unfold ylen. destruct (leap y); lia. Qed.

Lemma days_before_S y : 70 <= y → days_before (y + 1) = days_before y + ylen y.
Proof.
  intros H. unfold days_before. replace (y + 1 - 70) with (y - 70 + 1) by lia.
  rewrite seqZ_app by lia. rewrite foldr_app. change (seqZ (70 + (y - 70)) 1) with (seqZ (70 + (y - 70)) (Z.succ 0)).
  rewrite seqZ_cons by lia. simpl. replace (70 + (y - 70)) with y by lia.
  assert (∀ l a, foldr (λ k n, ylen k + n) a l = foldr (λ k n, ylen k + n) 0 l + a) as E
    by (induction l as [|x l IH]; intros a; simpl; [lia | rewrite IH; lia]).
  rewrite E. lia.
Qed.

Lemma year_loop_spec fuel : ∀ t y w,
  70 <= y → y + Z.of_nat fuel < 2 ^ 31 - 1901 → 0 <= t < 2 ^ 64 → t < 365 * Z.of_nat fuel → 0 <= w < 7 →
  ∃ t' y' w', year_loop fuel t y w = Some (t', y', w') ∧ y <= y' <= y + t / 365 ∧
    t' + days_before y' = t + days_before y ∧ 0 <= t' < ylen y' ∧ w' = (w + days_before y' - days_before y) mod 7.
Proof.
  induction fuel as [|fuel IH]; intros t y w Hy Hf Ht Hlt Hw; [lia|]. cbn [year_loop].
  rewrite year_days_ylen by lia. pose proof (ylen_range y) as Hl. destruct (ylen y <=? t) eqn:E.
  - rewrite (i32_small (y + 1)) by lia. rewrite (wrap_small 64 (t - ylen y)) by lia.
    rewrite Z.rem_mod_nonneg by lia.
    destruct (IH (t - ylen y) (y + 1) ((w + ylen y) mod 7)) as (t' & y' & w' & E1 & Hr & Hs & Ht' & Hw'); [lia..| |].
    { apply Z.mod_pos_bound. lia. }
    rewrite E1. exists t', y', w'. rewrite days_before_S in Hs, Hw' by lia. split; [done|].
    assert ((t - ylen y) / 365 <= t / 365 - 1) as Hd.
    { replace (t / 365 - 1) with ((t + -1 * 365) / 365) by (rewrite Z.div_add by lia; lia). apply Z.div_le_mono; lia. }
    split; [lia | split; [lia | split; [done|]]]. rewrite Hw'.
    replace ((w + ylen y) mod 7 + days_before y' - (days_before y + ylen y))
      with ((w + ylen y) mod 7 + (days_before y' - (days_before y + ylen y))) by lia.
    rewrite Zplus_mod_idemp_l. f_equal. lia.
  - exists t, y, w. pose proof (Z.div_pos t 365 ltac:(lia) ltac:(lia)). split; [done | split; [lia | split; [lia|]]].
    split; [lia|]. replace (w + days_before y - days_before y) with w by lia. by rewrite Z.mod_small.
Qed.

(** ** Months *)

Lemma month_start_S y m : 0 <= m → month_start y (m + 1) = month_start y m + mlen y m.
Proof.
  intros H. unfold month_start. rewrite seqZ_app by lia. rewrite foldr_app.
  change (seqZ (0 + m) 1) with (seqZ (0 + m) (Z.succ 0)). rewrite seqZ_cons by lia. simpl.
  assert (∀ l a, foldr (λ k n, mlen y k + n) a l = foldr (λ k n, mlen y k + n) 0 l + a) as E
    by (induction l as [|x l IH]; intros a; simpl; [lia | rewrite IH; lia]).
  rewrite E. replace (0 + m) with m by lia. lia.
Qed.

Lemma month_start_year y : month_start y 12 = ylen y.
Proof. unfold month_start, mlen, ylen. by destruct (leap y). Qed.

Lemma month_start_bounds y m :
  0 <= m < 12 → 0 <= month_start y m ∧ 28 <= mlen y m <= 31 ∧ month_start y m + mlen y m <= ylen y.
Proof.
  intros H. assert (m ∈ seqZ 0 12) as Hin by (apply elem_of_seqZ; lia). clear H. revert m Hin.
  apply Forall_forall. unfold month_start, mlen, ylen.
  destruct (leap y); vm_compute; repeat constructor; discriminate.
Qed.

Lemma month_days_range i m : month_days !! i = Some m → 28 <= m <= 31.
Proof. intros H. do 12 (destruct i as [|i]; [injection H as <-; lia|]). done. Qed.

Lemma leap_day_mlen y i m :
  0 <= y < 2 ^ 31 - 1900 → month_days !! i = Some m → m + leap_day (Z.of_nat i) y = mlen y (Z.of_nat i).
Proof.
  intros Hy H. unfold leap_day, mlen, leap. rewrite i32_small by lia. by rewrite Nat2Z.id, H.
Qed.

(** The weekday moves by the days of the month reached and by the leap day. *)
Definition leap_passed (y i mon : Z) : Z := if (i <=? 1) && (1 <? mon) && leap y then 1 else 0.

Lemma month_loop_spec y : 0 <= y < 2 ^ 31 - 1900 → ∀ n i t w md,
  (i + n = 12)%nat → 0 <= t → t + month_start y (Z.of_nat i) < ylen y → 0 <= w < 7 →
  ∃ mon mday w', month_loop (drop i month_days) (Z.of_nat i) t y (Z.of_nat i) w md = (mon, mday, w') ∧
    Z.of_nat i <= mon < 12 ∧ 1 <= mday <= mlen y mon ∧
    t + month_start y (Z.of_nat i) = month_start y mon + mday - 1 ∧
    w' = (w + leap_passed y (Z.of_nat i) mon + mday - 1) mod 7.
Proof.
  intros Hy. induction n as [|n IH]; intros i t w md Hn Ht Hlt Hw.
  { replace i with 12%nat in Hlt by lia. rewrite month_start_year in Hlt. lia. }
  destruct (lookup_lt_is_Some_2 month_days i) as [m Hm]; [simpl; lia|].
  rewrite (drop_S _ m) by done. cbn [month_loop]. rewrite leap_day_mlen by done.
  pose proof (month_days_range i m Hm). pose proof (leap_day_mlen y i m Hy Hm) as Hl.
  assert (0 <= leap_day (Z.of_nat i) y <= 1) as Hld by (unfold leap_day; case_match; lia).
  rewrite (wrap_small 32 (mlen y (Z.of_nat i))) by lia.
  pose proof (ylen_range y). pose proof (month_start_bounds y (Z.of_nat i) ltac:(lia)) as [Hms0 _]. destruct (t <? mlen y (Z.of_nat i)) eqn:E.
  - exists (Z.of_nat i), (1 + t), ((w + t) mod 7). rewrite (i32_small t), !i32_small by lia.
    rewrite Z.rem_mod_nonneg by lia. split; [done|]. split; [lia | split; [lia | split; [lia|]]].
    unfold leap_passed. replace ((Z.of_nat i <=? 1) && (1 <? Z.of_nat i)) with false by lia. f_equal. simpl. lia.
  - rewrite (wrap_small 64 (t - mlen y (Z.of_nat i))) by lia. rewrite Z.rem_mod_nonneg by lia.
    replace (Z.of_nat i + 1) with (Z.of_nat (S i)) by lia.
    assert (month_start y (Z.of_nat (S i)) = month_start y (Z.of_nat i) + mlen y (Z.of_nat i)) as Hms
      by (rewrite Nat2Z.inj_succ; apply month_start_S; lia).
    destruct (IH (S i) (t - mlen y (Z.of_nat i)) ((w + leap_day (Z.of_nat i) y) mod 7)
      (1 + leap_day (Z.of_nat i) y)) as (mon & mday & w' & E1 & H1 & H2 & H3 & H4); [lia | lia | lia | |].
    { apply Z.mod_pos_bound. lia. }
    rewrite E1. exists mon, mday, w'. split; [done|]. split; [lia | split; [lia | split; [lia|]]]. rewrite H4.
    replace ((w + leap_day (Z.of_nat i) y) mod 7 + leap_passed y (Z.of_nat (S i)) mon + mday - 1)
      with ((w + leap_day (Z.of_nat i) y) mod 7 + (leap_passed y (Z.of_nat (S i)) mon + mday - 1)) by lia.
    rewrite Zplus_mod_idemp_l. f_equal.
    assert (leap_day (Z.of_nat i) y + leap_passed y (Z.of_nat (S i)) mon = leap_passed y (Z.of_nat i) mon); [|lia].
    unfold leap_day, leap_passed. rewrite i32_small by lia. fold (leap y).
    destruct (leap y); rewrite ?andb_false_r, ?andb_true_r; [|done]. clear - H1. rewrite Nat2Z.inj_succ in *.
    destruct (Z.eqb_spec (Z.of_nat i) 1), (Z.leb_spec (Z.succ (Z.of_nat i)) 1), (Z.leb_spec (Z.of_nat i) 1),
      (Z.ltb_spec 1 mon); cbn [andb]; lia.
Qed.

(** ** The claims *)

Lemma gmtime_spec mday0 t :
  0 <= t < MAX_TIME →
  ∃ x, gmtime mday0 t = Some x ∧ valid_tm x ∧ 70 <= tm_year x ∧
    t = tm_sec x + 60 * tm_min x + 3600 * tm_hour x + 86400 * (days_before (tm_year x) + tm_yday x) ∧
    tm_wday x = (4 + days_before (tm_year x) + leap_passed (tm_year x) 0 (tm_mon x) + tm_mday x - 1) mod 7.
Proof.
  intros Ht. unfold MAX_TIME in Ht. unfold gmtime. cbv zeta.
  assert (t / 60 / 60 / 24 = t / 86400) as -> by (rewrite !Z.div_div by lia; done).
  set (d := t / 86400). assert (0 <= d < 365 * 2 ^ 30) as Hd.
  { unfold d. split; [apply Z.div_pos; lia | apply Z.div_lt_upper_bound; lia]. }
  assert (0 <= d / 365 < 2 ^ 30) as Hd'.
  { split; [apply Z.div_pos; lia | apply Z.div_lt_upper_bound; lia]. }
  destruct (year_loop_spec (S (Z.to_nat (d / 365))) d 70 4) as (t' & y & w & E & Hy & Hs & Ht' & Hw); [lia | lia | lia | | lia |].
  { pose proof (Z.mod_pos_bound d 365 ltac:(lia)). pose proof (Z.div_mod d 365 ltac:(lia)). lia. }
  rewrite E. change (days_before 70) with 0 in *. pose proof (ylen_range y).
  destruct (month_loop_spec y ltac:(lia) 12 0 t' w mday0) as (mon & mday & w' & E1 & H1 & H2 & H3 & H4);
    [done | lia | change (month_start y (Z.of_nat 0)) with 0; lia | rewrite Hw; apply Z.mod_pos_bound; lia |].
  change (drop 0 month_days) with month_days in E1. change (Z.of_nat 0) with 0 in *. rewrite E1.
  change (month_start y 0) with 0 in H3.
  assert (∀ a b, 0 < b < 2 ^ 31 → i32 (a mod b) = a mod b) as Hm.
  { intros a b Hb. apply i32_small. pose proof (Z.mod_pos_bound a b ltac:(lia)). lia. }
  eexists. split; [done|]. rewrite !Hm, i32_small by lia. cbn [tm_year tm_sec tm_min tm_hour tm_yday tm_mon tm_mday tm_wday].
  pose proof (Z.mod_pos_bound t 60 ltac:(lia)). pose proof (Z.mod_pos_bound (t / 60) 60 ltac:(lia)).
  pose proof (Z.mod_pos_bound (t / 60 / 60) 24 ltac:(lia)).
  split; [split; cbn; lia|]. split; [lia|]. split.
  - pose proof (Z.div_mod t 60 ltac:(lia)). pose proof (Z.div_mod (t / 60) 60 ltac:(lia)).
    pose proof (Z.div_mod (t / 60 / 60) 24 ltac:(lia)).
    assert (t / 60 / 60 / 24 = d) by (unfold d; rewrite !Z.div_div by lia; done). lia.
  - rewrite H4, Hw. replace ((4 + days_before y - 0) mod 7 + leap_passed y 0 mon + mday - 1)
      with ((4 + days_before y - 0) mod 7 + (leap_passed y 0 mon + mday - 1)) by lia.
    rewrite Zplus_mod_idemp_l. f_equal. lia.
Qed.

(** C34. [gmtime] computes the date: for every time whose year fits an [int] it
    returns, with hours, minutes, seconds, month and day in range, the day of
    the year agrees with month and day, and the fields add up to the time it
    was given in the Gregorian calendar. *)
Theorem gmtime_date mday0 t :
  0 <= t < MAX_TIME →
  ∃ x, gmtime mday0 t = Some x ∧ valid_tm x ∧
    t = tm_sec x + 60 * tm_min x + 3600 * tm_hour x + 86400 * (days_before (tm_year x) + tm_yday x).
Proof. intros Ht. destruct (gmtime_spec mday0 t Ht) as (x & E & V & _ & H & _). by exists x. Qed.

Lemma gmtime_date_witness :
  ∃ x, gmtime 0 951782400 = Some x ∧ valid_tm x ∧ tm_year x = 100 ∧ tm_mon x = 1 ∧ tm_mday x = 29.
Proof.
  destruct (gmtime_date 0 951782400) as (x & E & V & _); [unfold MAX_TIME; lia|].
  exists x. split; [exact E | split; [exact V|]].
  assert (gmtime 0 951782400 = Some {| tm_sec := 0; tm_min := 0; tm_hour := 0; tm_mday := 29; tm_mon := 1;
    tm_year := 100; tm_wday := 6; tm_yday := 59; tm_isdst := 0 |}) as E' by (vm_compute; reflexivity).
  rewrite E in E'. injection E' as ->. split; [reflexivity | split; reflexivity].
Defined.

(** The weekday of [gmtime] is wrong after January: of the days of the months
    before the current one, only a leap day is counted. *)
Theorem gmtime_weekday mday0 t x :
  0 <= t < MAX_TIME → gmtime mday0 t = Some x →
  tm_wday x = (4 + days_before (tm_year x) + leap_passed (tm_year x) 0 (tm_mon x) + tm_mday x - 1) mod 7 ∧
  ((tm_wday x = (4 + days_before (tm_year x) + tm_yday x) mod 7) ↔
   (month_start (tm_year x) (tm_mon x) - leap_passed (tm_year x) 0 (tm_mon x)) mod 7 = 0).
Proof.
  intros Ht E. destruct (gmtime_spec mday0 t Ht) as (x' & E' & V & _ & _ & Hw). rewrite E in E'. injection E' as <-.
  split; [done|]. rewrite Hw, (v_yday _ V). set (a := month_start _ _). set (l := leap_passed _ _ _).
  set (b := days_before _). set (m := tm_mday x). split; intros H.
  - replace (a - l) with ((4 + b + (a + m - 1)) - (4 + b + l + m - 1)) by lia.
    rewrite Zminus_mod, <- H, Z.sub_diag. done.
  - replace (4 + b + (a + m - 1)) with ((4 + b + l + m - 1) + (a - l)) by lia.
    rewrite Zplus_mod, H, Z.add_0_r, Zmod_mod. done.
Qed.

(** The first of February 1970, a Sunday, is taken for a Thursday. *)
Lemma gmtime_weekday_witness :
  ∃ x, gmtime 0 2678400 = Some x ∧ tm_mon x = 1 ∧ tm_mday x = 1 ∧ tm_wday x = 4 ∧
    (4 + days_before (tm_year x) + tm_yday x) mod 7 = 0.
Proof.
  set (x := {| tm_sec := 0; tm_min := 0; tm_hour := 0; tm_mday := 1; tm_mon := 1;
    tm_year := 70; tm_wday := 4; tm_yday := 31; tm_isdst := 0 |}).
  assert (gmtime 0 2678400 = Some x) as E by (vm_compute; reflexivity).
  exists x. split; [exact E|]. destruct (gmtime_weekday 0 2678400 x) as [H _]; [unfold MAX_TIME; lia | exact E|].
  split; [reflexivity | split; [reflexivity | split; [rewrite H; reflexivity | reflexivity]]].
Defined.

(** [mktime] forgets the years: applied to what [gmtime] returned it gives the
    seconds since the start of the year, because it compares the years since
    1900 with 1970.  The two are inverse in 1970 only. *)
Theorem mktime_gmtime mday0 t x :
  0 <= t < MAX_TIME → gmtime mday0 t = Some x → tm_year x <= 1970 →
  mktime x = t - 86400 * days_before (tm_year x).
Proof.
  intros Ht E Hy. destruct (gmtime_spec mday0 t Ht) as (x' & E' & V & _ & Hsum & _). rewrite E in E'. injection E' as <-.
  destruct V as [V1 V2 V3 V4 V5 V6]. unfold mktime. replace (Z.to_nat (tm_year x - 1970)) with O by lia. cbn [mktime_loop].
  assert (0 <= tm_yday x <= 366) as Hyd.
  { rewrite V6. pose proof (month_start_bounds (tm_year x) (tm_mon x) V4). pose proof (ylen_range (tm_year x)). lia. }
  rewrite (wrap_small 64 (tm_sec x)), (i32_small (tm_min x * 60)), (i32_small (tm_hour x * 60 * 60)),
    (i32_small (tm_yday x * 60 * 60 * 24)) by lia.
  rewrite (wrap_small 64 (tm_sec x + tm_min x * 60)) by lia.
  rewrite (wrap_small 64 (tm_sec x + tm_min x * 60 + tm_hour x * 60 * 60)) by lia. rewrite wrap_small by lia. lia.
Qed.

Lemma mktime_gmtime_witness :
  ∃ x, gmtime 0 951782400 = Some x ∧ mktime x = 59 * 86400.
Proof.
  set (x := {| tm_sec := 0; tm_min := 0; tm_hour := 0; tm_mday := 29; tm_mon := 1;
    tm_year := 100; tm_wday := 6; tm_yday := 59; tm_isdst := 0 |}).
  assert (gmtime 0 951782400 = Some x) as E by (vm_compute; reflexivity).
  exists x. split; [exact E|]. rewrite (mktime_gmtime 0 951782400 x); [reflexivity | unfold MAX_TIME; lia | exact E | simpl; lia].
Defined.
