(* ===== verification/CQueue.v ===== *)
(** * Circular queue: lib/libos/ostypes/cqueue.c and include/os/ostypes/cqueue.h

    The storage is the list of its slots: every access of the code is to a whole
    element at a multiple of [elem_size].  A buffer of [num_elems] elements is
    the list of them, [None] is a null buffer. *)

From S2P Require Import Prelude.

Section cqueue.

Context {E : Type}.

Inductive CQueueState := CQUEUE_PARTIAL | CQUEUE_EMPTY | CQUEUE_FULL.

#[global] Instance CQueueState_eq_dec : EqDecision CQueueState.
Proof. solve_decision. Defined.

Record CQueue := { queue : list E; n_elems : Z; head : Z; tail : Z; state : CQueueState }.

Definition _cqueue_init (storage : list E) (n : Z) : CQueue :=
  {| queue := storage; n_elems := n; head := 0; tail := 0; state := CQUEUE_EMPTY |}.

Definition CQUEUE_NUM_FILL (q : CQueue) : Z :=
  if head q <=? tail q then tail q - head q else u32 (u32 (tail q + n_elems q) - head q).

(** One round of the loop of [cqueue_put] and of [cqueue_get]. *)
Definition put1 (q : CQueue) (x : E) : CQueue :=
  let t := u32 (tail q + 1) mod n_elems q in
  {| queue := <[Z.to_nat (tail q) := x]> (queue q); n_elems := n_elems q; head := head q; tail := t;
     state := if t =? head q then CQUEUE_FULL else CQUEUE_PARTIAL |}.

Definition get1 (q : CQueue) : CQueue :=
  let h := u32 (head q + 1) mod n_elems q in
  {| queue := queue q; n_elems := n_elems q; head := h; tail := tail q;
     state := if tail q =? h then CQUEUE_EMPTY else CQUEUE_PARTIAL |}.

Fixpoint put_loop (q : CQueue) (buf : list E) : CQueue * Z :=
  match buf with
  | [] => (q, if decide (state q = CQUEUE_FULL) then 1 else 0)
  | x :: buf => if decide (state q = CQUEUE_FULL) then (q, -2) else put_loop (put1 q x) buf
  end.

Definition cqueue_put (q : CQueue) (buffer : option (list E)) : CQueue * Z :=
  match buffer with
  | None => (q, -1)
  | Some buf => put_loop q buf
  end.

(** The elements copied out, the queue and the result; a slot outside of the
    storage cannot be read. *)
Fixpoint get_loop (n : nat) (q : CQueue) (out : list E) : option (list E * CQueue * Z) :=
  match n with
  | O => Some (out, q, if decide (state q = CQUEUE_EMPTY) then 1 else 0)
  | S n =>
      if decide (state q = CQUEUE_EMPTY) then Some (out, q, -2)
      else
        match queue q !! Z.to_nat (head q) with
        | None => None
        | Some x => get_loop n (get1 q) (out ++ [x])
        end
  end.

Definition cqueue_get (q : CQueue) (num_elems : nat) : option (list E * CQueue * Z) := get_loop num_elems q [].

Fixpoint peek_loop (n : nat) (q : CQueue) (index : Z) (out : list E) : option (list E) :=
  match n with
  | O => Some out
  | S n =>
      match queue q !! Z.to_nat index with
      | None => None
      | Some x => peek_loop n q (u32 (index + 1) mod n_elems q) (out ++ [x])
      end
  end.

Definition cqueue_peek (q : CQueue) (index : Z) (n : nat) : option (list E) :=
  peek_loop n q (if n_elems q <=? index then index mod n_elems q else index) [].

Fixpoint poke_loop (q : CQueue) (index : Z) (buf : list E) : CQueue :=
  match buf with
  | [] => q
  | x :: buf =>
      poke_loop {| queue := <[Z.to_nat index := x]> (queue q); n_elems := n_elems q; head := head q;
                   tail := tail q; state := state q |} (u32 (index + 1) mod n_elems q) buf
  end.

Definition cqueue_poke (q : CQueue) (buffer : option (list E)) (index : Z) : CQueue * Z :=
  match buffer with
  | None => (q, -1)
  | Some buf => if n_elems q <=? index then (q, -1) else (poke_loop q index buf, 0)
  end.

(** ** Specification: a bounded first-in first-out queue

    [holds q xs]: the queue is well formed and its elements, oldest first, are
    [xs]. *)
Record holds (q : CQueue) (xs : list E) : Prop := {
  h_size : 0 < n_elems q < 2 ^ 32;
  h_storage : Z.of_nat (length (queue q)) = n_elems q;
  h_head : 0 <= head q < n_elems q;
  h_count : Z.of_nat (length xs) <= n_elems q;
  h_tail : tail q = (head q + Z.of_nat (length xs)) mod n_elems q;
  h_state : state q = if decide (xs = []) then CQUEUE_EMPTY
                      else if decide (Z.of_nat (length xs) = n_elems q) then CQUEUE_FULL else CQUEUE_PARTIAL;
  h_elems : ∀ i x, xs !! i = Some x → queue q !! Z.to_nat ((head q + Z.of_nat i) mod n_elems q) = Some x
}.

Lemma mod_range q a : 0 < n_elems q → 0 <= a mod n_elems q < n_elems q.
Proof. intros H. by apply Z.mod_pos_bound. Qed.

(** Distances below the size are told apart modulo the size. *)
Lemma mod_inj n h a b : 0 < n → 0 <= a < n → 0 <= b < n → (h + a) mod n = (h + b) mod n → a = b.
Proof.
  intros Hn Ha Hb H.
  assert ((a - b) mod n = 0) as Hz.
  { replace (a - b) with ((h + a) - (h + b)) by lia. by rewrite Zminus_mod, H, Z.sub_diag. }
  apply Z.mod_divide in Hz as [k Hk]; [|lia]. destruct (decide (k = 0)) as [->|Hne]; [lia|nia].
Qed.

Lemma not_full q xs : holds q xs → state q ≠ CQUEUE_FULL ↔ Z.of_nat (length xs) < n_elems q.
Proof.
  intros [H1 _ _ H4 _ H6 _]. rewrite H6. destruct (decide (xs = [])) as [->|Hne].
  - simpl. split; [lia | done].
  - destruct (decide _); split; (done || lia).
Qed.

Lemma put1_holds q xs x : holds q xs → Z.of_nat (length xs) < n_elems q → holds (put1 q x) (xs ++ [x]).
Proof.
  intros [H1 H2 H3 H4 H5 H6 H7] Hlt. pose proof (mod_range q (head q + Z.of_nat (length xs)) ltac:(lia)) as Ht.
  assert (u32 (tail q + 1) mod n_elems q = (head q + (Z.of_nat (length xs) + 1)) mod n_elems q) as Etail.
  { rewrite wrap_small by lia. rewrite H5, Zplus_mod_idemp_l. f_equal. lia. }
  unfold put1. rewrite Etail. split; cbn [queue n_elems head tail state]; rewrite ?length_app, ?length_insert, ?Nat2Z.inj_add;
    simpl length; try done || lia.
  - destruct (decide (xs ++ [x] = [])) as [E'|_]; [by destruct xs|].
    destruct (decide (Z.of_nat (length xs) + Z.of_nat 1 = n_elems q)) as [Ef|Ef].
    + assert ((head q + (Z.of_nat (length xs) + 1)) mod n_elems q = head q) as ->.
      { replace (head q + (Z.of_nat (length xs) + 1)) with (head q + 1 * n_elems q) by lia.
        rewrite Z.mod_add by lia. by rewrite Z.mod_small. }
      by rewrite Z.eqb_refl.
    + destruct (_ =? head q) eqn:Eh; [|done]. exfalso. apply Z.eqb_eq in Eh.
      assert ((head q + (Z.of_nat (length xs) + 1)) mod n_elems q = (head q + 0) mod n_elems q) as E'
        by (rewrite Eh, Z.add_0_r, Z.mod_small; lia).
      apply mod_inj in E'; lia.
  - intros i y Hi. destruct (decide (i < length xs)%nat) as [Hlt'|Hge].
    + rewrite lookup_app_l in Hi by lia. rewrite list_lookup_insert_ne; [by apply H7|].
      intros E'. apply Z2Nat.inj in E'; [|lia | apply mod_range; lia]. rewrite H5 in E'. apply mod_inj in E'; lia.
    + rewrite lookup_app_r in Hi by lia. apply list_lookup_singleton_Some in Hi as [Hz <-].
      replace i with (length xs) by lia. rewrite <- H5. rewrite list_lookup_insert_eq; [done|lia].
Qed.

Lemma get1_holds q x xs : holds q (x :: xs) → queue q !! Z.to_nat (head q) = Some x ∧ holds (get1 q) xs.
Proof.
  intros [H1 H2 H3 H4 H5 H6 H7]. split.
  { pose proof (H7 0%nat x eq_refl) as H. by rewrite Z.add_0_r, Z.mod_small in H by lia. }
  simpl length in *. unfold get1. rewrite (wrap_small 32 (head q + 1)) by lia.
  pose proof (mod_range q (head q + 1) ltac:(lia)) as Hh.
  split; cbn [queue n_elems head tail state]; try done || lia.
  - rewrite H5, Zplus_mod_idemp_l. f_equal. lia.
  - assert (tail q = (head q + 1) mod n_elems q ↔ xs = []) as Hiff.
    { rewrite H5. split; [|intros ->; done]. intros E'.
      assert (Z.of_nat (S (length xs)) = 1 ∨ 1 = n_elems q ∨ Z.of_nat (S (length xs)) = n_elems q) as [E1|[E1|E1]].
      - destruct (decide (1 = n_elems q)); [by right; left|].
        destruct (decide (Z.of_nat (S (length xs)) = n_elems q)); [by right; right|]. left.
        apply mod_inj in E'; lia.
      - apply nil_length_inv. lia.
      - apply nil_length_inv. lia.
      - destruct (decide (n_elems q = 1)); [apply nil_length_inv; lia|]. exfalso.
        rewrite E1 in E'. replace (head q + n_elems q) with (head q + 0 + 1 * n_elems q) in E' by lia.
        rewrite Z.mod_add in E' by lia. apply mod_inj in E'; lia. }
    destruct (tail q =? (head q + 1) mod n_elems q) eqn:E'.
    + apply Z.eqb_eq in E'. by rewrite decide_True by by apply Hiff.
    + apply Z.eqb_neq in E'. rewrite decide_False by (intros E''; by apply E', Hiff). by rewrite decide_False by lia.
  - intros i y Hi. rewrite Zplus_mod_idemp_l.
    replace (head q + 1 + Z.of_nat i) with (head q + Z.of_nat (S i)) by lia. by apply H7.
Qed.

Lemma empty_iff q xs : holds q xs → state q = CQUEUE_EMPTY ↔ xs = [].
Proof.
  intros [_ _ _ _ _ H6 _]. rewrite H6. destruct (decide (xs = [])); [done|]. by destruct (decide _).
Qed.

Lemma put_loop_holds ys : ∀ q xs,
  holds q xs →
  let room := Z.to_nat (n_elems q - Z.of_nat (length xs)) in
  ∃ q', put_loop q ys = (q', if decide (length ys <= room)%nat
                             then if decide (Z.of_nat (length xs + length ys) = n_elems q) then 1 else 0
                             else -2) ∧
    holds q' (xs ++ take room ys) ∧ n_elems q' = n_elems q.
Proof.
  induction ys as [|y ys IH]; intros q xs H room; pose proof H as [H1 _ _ H4 _ _ _]; cbn [put_loop].
  - exists q. rewrite take_nil, app_nil_r. split; [|done]. f_equal.
    destruct (decide (length (@nil E) <= room)%nat) as [_|Hr]; [|simpl in Hr; lia].
    simpl length. rewrite Nat.add_0_r. pose proof (not_full q xs H) as Hf.
    destruct (decide (state q = CQUEUE_FULL)), (decide (Z.of_nat (length xs) = n_elems q)); try done.
    + exfalso. apply Hf; [lia | done].
    + assert (state q ≠ CQUEUE_FULL) as Hn by done. apply Hf in Hn. lia.
  - destruct (decide (state q = CQUEUE_FULL)) as [Ef|Ef].
    + assert (room = O) as Hr by (destruct (decide (room = O)); [done|]; exfalso; apply (not_full q xs H); [lia | done]).
      exists q. rewrite Hr. split; [|by rewrite app_nil_r]. by rewrite decide_False by (simpl; lia).
    + apply (not_full q xs H) in Ef. pose proof (put1_holds q xs y H Ef) as H'.
      destruct (IH (put1 q y) (xs ++ [y]) H') as (q' & E1 & E2 & E3). change (n_elems (put1 q y)) with (n_elems q) in *.
      rewrite length_app in E1, E2. simpl length in E1, E2. exists q'. rewrite E1.
      replace room with (S (Z.to_nat (n_elems q - Z.of_nat (length xs + 1)))) by lia.
      split; [|split; [|done]].
      * f_equal. simpl length. destruct (decide _), (decide (S _ <= _)%nat); try lia.
        replace (length xs + S (length ys))%nat with (length xs + 1 + length ys)%nat by lia. done.
      * simpl. by rewrite <- app_assoc in E2.
Qed.

Lemma get_loop_holds k : ∀ q xs out,
  holds q xs →
  ∃ q', get_loop k q out = Some (out ++ take k xs, q',
          if decide (k <= length xs)%nat then if decide (k = length xs) then 1 else 0 else -2) ∧
    holds q' (drop k xs) ∧ n_elems q' = n_elems q.
Proof.
  induction k as [|k IH]; intros q xs out H; cbn [get_loop].
  - exists q. rewrite app_nil_r. split; [|done]. f_equal. f_equal.
    destruct (decide (0 <= length xs)%nat) as [_|Hr]; [|lia].
    pose proof (empty_iff q xs H) as He. destruct (decide (state q = CQUEUE_EMPTY)) as [Es|Es].
    + apply He in Es as ->. done.
    + rewrite decide_False; [done|]. intros E'. apply Es, He. by apply nil_length_inv.
  - pose proof (empty_iff q xs H) as He. destruct (decide (state q = CQUEUE_EMPTY)) as [Es|Es].
    + apply He in Es as ->. exists q. simpl. by rewrite app_nil_r.
    + destruct xs as [|x xs]; [by destruct Es; apply He|]. destruct (get1_holds q x xs H) as [-> H'].
      destruct (IH (get1 q) xs (out ++ [x]) H') as (q' & E1 & E2 & E3). exists q'. rewrite E1, <- app_assoc.
      split; [|done]. f_equal. f_equal. simpl length. destruct (decide (k <= _)%nat), (decide (S k <= _)%nat); try lia.
      destruct (decide (k = _)), (decide (S k = _)); done || lia.
Qed.

(** C26. The circular queue is a bounded first-in first-out queue: [cqueue_put]
    appends as many elements as there is room for and reports whether the
    queue became full or some did not fit, and [cqueue_get] takes the oldest
    elements in order and reports whether the queue became empty or there were
    too few. *)
Theorem cqueue_fifo q xs ys k :
  holds q xs →
  let room := Z.to_nat (n_elems q - Z.of_nat (length xs)) in
  (∃ q', cqueue_put q (Some ys) = (q', if decide (length ys <= room)%nat
             then if decide (Z.of_nat (length xs + length ys) = n_elems q) then 1 else 0 else -2) ∧
     holds q' (xs ++ take room ys)) ∧
  (∃ q', cqueue_get q k = Some (take k xs, q',
             if decide (k <= length xs)%nat then if decide (k = length xs) then 1 else 0 else -2) ∧
     holds q' (drop k xs)).
Proof.
  intros H room. split.
  - destruct (put_loop_holds ys q xs H) as (q' & E1 & E2 & _). by exists q'.
  - destruct (get_loop_holds k q xs [] H) as (q' & E1 & E2 & _). by exists q'.
Qed.

Lemma init_holds storage n :
  0 < n < 2 ^ 32 → Z.of_nat (length storage) = n → holds (_cqueue_init storage n) [].
Proof. intros H1 H2. split; cbn; done || lia. Qed.

(** The macro that counts the elements is wrong for a full queue: it gives 0
    there, and the number of elements otherwise. *)
Theorem cqueue_num_fill q xs :
  holds q xs →
  CQUEUE_NUM_FILL q = if decide (Z.of_nat (length xs) = n_elems q) then 0 else Z.of_nat (length xs).
Proof.
  intros [H1 H2 H3 H4 H5 _ _]. unfold CQUEUE_NUM_FILL. rewrite H5. set (c := Z.of_nat (length xs)) in *.
  destruct (decide (head q + c < n_elems q)) as [Hlt|Hge].
  - rewrite (Z.mod_small (head q + c)) by lia. replace (head q <=? head q + c) with true by lia.
    destruct (decide (c = n_elems q)); lia.
  - assert ((head q + c) mod n_elems q = head q + c - n_elems q) as ->.
    { replace (head q + c) with (head q + c - n_elems q + 1 * n_elems q) by lia. rewrite Z.mod_add by lia.
      rewrite Z.mod_small; lia. }
    destruct (decide (c = n_elems q)) as [->|Hne].
    + replace (head q <=? _) with true by lia. lia.
    + replace (head q <=? _) with false by lia. unfold wrap. rewrite Zminus_mod_idemp_l. rewrite Z.mod_small; lia.
Qed.

End cqueue.

Arguments CQueue : clear implicits.

(** A queue of three slots that has wrapped around and is full. *)
Definition demo_queue : CQueue Z :=
  fst (put_loop (get1 (fst (put_loop (_cqueue_init [0; 0; 0] 3) [7; 8; 9]))) [10]).

Lemma demo_holds : holds demo_queue [8; 9; 10].
Proof.
  destruct (put_loop_holds [7; 8; 9] (_cqueue_init [0; 0; 0] 3) [] (init_holds [0; 0; 0] 3 ltac:(lia) eq_refl)) as (q & E & H & Hn).
  simpl in H. destruct (get1_holds q 7 [8; 9] H) as [_ H'].
  destruct (put_loop_holds [10] (get1 q) [8; 9] H') as (q' & E' & H'' & _).
  change (n_elems (get1 q)) with (n_elems q) in H''. rewrite Hn in H''. simpl in H''.
  unfold demo_queue. rewrite E. cbn [fst]. rewrite E'. exact H''.
Qed.

Lemma cqueue_fifo_witness :
  ∃ q', cqueue_get demo_queue 2 = Some ([8; 9], q', 0) ∧ holds q' [10].
Proof. destruct (cqueue_fifo demo_queue [8; 9; 10] [11] 2 demo_holds) as [_ (q' & E & H)]. exists q'. exact (conj E H). Defined.

Lemma cqueue_num_fill_witness : CQUEUE_NUM_FILL demo_queue = 0.
Proof. rewrite (cqueue_num_fill demo_queue [8; 9; 10] demo_holds). reflexivity. Defined.
