(* ===== verification/CircBuffer.v ===== *)
(** * Circular byte buffer: lib/libos/ostypes/circbuffer.c

    The buffer is a block of memory, [data] to [data + buf_len], of which
    [unread_len] bytes from [ptr] on, around the end, have not been read.  Bytes
    are moved with [memcpy] of lib/libc/string.  Pointers and sizes have 32
    bits. *)

From S2P Require Import Prelude Strings StringsSpec.

(** [rptr] is the field [ptr]. *)
Record CircularBuffer := {
  data : Z;
  rptr : Z;
  unread_len : Z;
  buf_len : Z;
}.

(** The buffer after the call, if it succeeds: [None] is the result -1. *)
Definition circular_buffer_init (d buffer_size : Z) : M mem (option CircularBuffer) :=
  if d =? 0 then ret None
  else ret (Some {| data := d; rptr := d; unread_len := 0; buf_len := buffer_size |}).

Section create.
Context (malloc : Z → M mem Z) (free : Z → M mem unit).

Definition circular_buffer_create (buffer_size : Z) : M mem (option CircularBuffer) :=
  let* new_data := malloc buffer_size in
  if new_data =? 0 then ret None else circular_buffer_init new_data buffer_size.

Definition circular_buffer_destroy (buffer : CircularBuffer) : M mem CircularBuffer :=
  free (data buffer) ;;
  ret {| data := 0; rptr := rptr buffer; unread_len := unread_len buffer; buf_len := buf_len buffer |}.
End create.

(** The buffer after the call and the number of bytes read. *)
Definition circular_buffer_read (buffer : CircularBuffer) (bytes out_data : Z) : M mem (CircularBuffer * Z) :=
  let bytes_to_read := if unread_len buffer <? bytes then unread_len buffer else bytes in
  let upper_size := u32 (u32 (data buffer + buf_len buffer) - rptr buffer) in
  let* p :=
    (if upper_size <? bytes_to_read then
       memcpy out_data (rptr buffer) upper_size ;;
       memcpy (u32 (out_data + upper_size)) (data buffer) (u32 (bytes_to_read - upper_size)) ;;
       ret (u32 (data buffer + u32 (bytes_to_read - upper_size)))
     else
       memcpy out_data (rptr buffer) bytes_to_read ;;
       ret (u32 (rptr buffer + bytes_to_read))) in
  ret ({| data := data buffer; rptr := p; unread_len := u32 (unread_len buffer - bytes_to_read);
          buf_len := buf_len buffer |}, bytes_to_read).

(** The buffer after the call and the number of bytes written. *)
Definition circular_buffer_write (buffer : CircularBuffer) (bytes d : Z) : M mem (CircularBuffer * Z) :=
  let free_len := u32 (buf_len buffer - unread_len buffer) in
  let bytes_to_write := if free_len <? bytes then free_len else bytes in
  let p := u32 (rptr buffer + unread_len buffer) in
  let upper_size := u32 (u32 (data buffer + buf_len buffer) - p) in
  (if upper_size <? bytes_to_write then
     memcpy p d upper_size ;;
     memcpy (data buffer) (u32 (d + upper_size)) (u32 (bytes_to_write - upper_size))
   else memcpy p d bytes_to_write) ;;
  ret ({| data := data buffer; rptr := rptr buffer; unread_len := u32 (unread_len buffer + bytes_to_write);
          buf_len := buf_len buffer |}, bytes_to_write).

(** ** The bytes a buffer holds *)

(** The unread bytes [xs] lie in two pieces: [us] up to the end of the block at
    the latest, and [vs] from its start on, before the read position. *)
Record holding (m : mem) (b : CircularBuffer) (us vs : list Z) : Prop := {
  hold_block : room m (data b) (buf_len b);
  hold_ptr : data b <= rptr b <= data b + buf_len b;
  hold_upper : bytes m (rptr b) us;
  hold_lower : bytes m (data b) vs;
  hold_len : unread_len b = len us + len vs;
  hold_wrap : vs ≠ [] → rptr b + len us = data b + buf_len b;
  hold_fit : rptr b + len us <= data b + buf_len b ∧ data b + len vs <= rptr b;
}.

Definition contents (m : mem) (b : CircularBuffer) (xs : list Z) : Prop :=
  ∃ us vs, xs = us ++ vs ∧ holding m b us vs.

Lemma bytes_app m l : ∀ p l', bytes m p (l ++ l') ↔ bytes m p l ∧ bytes m (p + len l) l'.
Proof.
  induction l as [|c l IH]; intros p l'; cbn [app bytes length].
  - rewrite Z.add_0_r. tauto.
  - rewrite IH. replace (p + 1 + len l) with (p + Z.of_nat (S (length l))) by lia. tauto.
Qed.

Lemma bytes_take m p l n : bytes m p l → bytes m p (take n l).
Proof. intros B. rewrite <- (take_drop n l) in B. by apply bytes_app in B as [B _]. Qed.

Lemma bytes_drop m p l n : (n <= length l)%nat → bytes m p l → bytes m (p + Z.of_nat n) (drop n l).
Proof.
  intros Hn B. rewrite <- (take_drop n l) in B. apply bytes_app in B as [_ B].
  rewrite length_take in B. by replace (n `min` length l)%nat with n in B by lia.
Qed.

(** [memcpy] of a list whose length is known. *)
Lemma wp_memcpy_len m d p l n (Q : Z → mem → Prop) L :
  len l = n → bytes m p l → room m d n → apart d n p n → 0 < p →
  Q d (fill m d l) → wp (memcpy d p n) Q L m.
Proof. intros <-. apply wp_memcpy. Qed.

Lemma room_sub m p n q k : room m p n → p <= q → q + k <= p + n → room m q k.
Proof. intros (A & B & C) Hq Hk. split_and!; [lia..|]. intros a Ha. apply C. lia. Qed.

Lemma len_take (l : list Z) k : 0 <= k → k <= len l → len (take (Z.to_nat k) l) = k.
Proof. intros. rewrite length_take. lia. Qed.

Lemma holding_bounds m b us vs : holding m b us vs →
  0 < data b ∧ data b + buf_len b < 2 ^ 32 ∧ u32 (data b + buf_len b) = data b + buf_len b ∧
  u32 (u32 (data b + buf_len b) - rptr b) = data b + buf_len b - rptr b.
Proof.
  intros [(A & B & _) P _ _ _ _ _]. split; [done|]. split; [done|].
  rewrite (wrap_small 32 (data b + buf_len b)) by lia. split; [done|]. apply wrap_small. lia.
Qed.

(** Writing elsewhere does not change what a buffer holds. *)
Lemma holding_fill m b us vs p l :
  holding m b us vs → apart p (len l) (data b) (buf_len b) → holding (fill m p l) b us vs.
Proof.
  intros [H1 H2 H3 H4 H5 H6 H7] A. unfold apart in A. split; try done.
  - by apply room_over.
  - eapply bytes_ext; [|done]. intros a Ha. apply lookup_fill_ne. lia.
  - eapply bytes_ext; [|done]. intros a Ha. apply lookup_fill_ne. lia.
Qed.

(** Reading [k] bytes that end before the end of the block, and [k] bytes that go
    around it: the copies, and what the buffer holds then. *)
Lemma wp_read_straight m b us vs k out (Q : Z → mem → Prop) L :
  holding m b us vs → 0 <= k <= len us → room m out k → apart out k (data b) (buf_len b) →
  Q (rptr b + k) (fill m out (take (Z.to_nat k) us)) →
  wp (memcpy out (rptr b) k ;; ret (u32 (rptr b + k))) Q L m.
Proof.
  intros H Hk R A HQ. destruct (holding_bounds _ _ _ _ H) as (D1 & D2 & _). destruct H as [_ P U _ _ _ [F _]].
  wp_steps. apply wp_memcpy_len with (l := take (Z.to_nat k) us);
    [apply len_take; lia|by apply bytes_take|done| |lia|].
  - unfold apart in *. lia.
  - wp_steps. by rewrite wrap_small by lia.
Qed.

Lemma wp_read_around m b us vs k out (Q : Z → mem → Prop) L :
  holding m b us vs → len us <= k <= len us + len vs → room m out k → apart out k (data b) (buf_len b) →
  Q (data b + (k - len us)) (fill m out (us ++ take (Z.to_nat (k - len us)) vs)) →
  wp (memcpy out (rptr b) (len us) ;; memcpy (u32 (out + len us)) (data b) (u32 (k - len us)) ;;
      ret (u32 (data b + u32 (k - len us)))) Q L m.
Proof.
  intros H Hk R A HQ. destruct (holding_bounds _ _ _ _ H) as (D1 & D2 & _).
  destruct H as [_ P U V _ _ [F1 F2]]. assert (Ro : out + k < 2 ^ 32 ∧ 0 < out) by (destruct R; tauto).
  rewrite !(wrap_small 32 (k - len us)), (wrap_small 32 (out + len us)) by lia. unfold apart in A.
  wp_steps. eapply wp_memcpy_len; [done|done|eapply room_sub; [done|lia..]|unfold apart; lia|lia|].
  wp_steps. apply wp_memcpy_len with (l := take (Z.to_nat (k - len us)) vs); [apply len_take; lia| | | |lia|].
  - eapply bytes_ext; [|by apply bytes_take]. intros a Ha. rewrite len_take in Ha by lia.
    apply lookup_fill_ne. lia.
  - apply room_over. eapply room_sub; [done|lia..].
  - unfold apart. lia.
  - wp_steps. rewrite <- fill_app, wrap_small by lia. done.
Qed.

Definition advance (b : CircularBuffer) (p n : Z) : CircularBuffer :=
  {| data := data b; rptr := p; unread_len := n; buf_len := buf_len b |}.

Lemma holding_straight m b us vs k :
  holding m b us vs → 0 <= k <= len us →
  holding m (advance b (rptr b + k) (unread_len b - k)) (drop (Z.to_nat k) us) vs.
Proof.
  intros [H1 H2 H3 H4 H5 H6 [H7 H8]] Hk. split; cbn [advance data rptr unread_len buf_len]; try done.
  - lia.
  - rewrite <- (Z2Nat.id k) at 1 by lia. apply bytes_drop; [lia|done].
  - rewrite length_drop. lia.
  - intros V. rewrite length_drop. specialize (H6 V). lia.
  - rewrite length_drop. lia.
Qed.

Lemma holding_around m b us vs k :
  holding m b us vs → len us <= k <= len us + len vs →
  holding m (advance b (data b + (k - len us)) (unread_len b - k)) (drop (Z.to_nat (k - len us)) vs) [].
Proof.
  intros [H1 H2 H3 H4 H5 H6 [H7 H8]] Hk. split; cbn [advance data rptr unread_len buf_len length]; try done.
  - lia.
  - rewrite <- (Z2Nat.id (k - len us)) at 1 by lia. apply bytes_drop; [lia|done].
  - rewrite length_drop. lia.
  - rewrite length_drop. lia.
Qed.

(** [circular_buffer_read] takes the oldest bytes, as many as asked for and
    present, around the end of the block, stores them at [out] and leaves the
    others in the buffer. *)
Theorem circular_buffer_read_spec m b xs n out :
  let k := Z.min n (len xs) in
  contents m b xs → 0 <= n → room m out k → apart out k (data b) (buf_len b) →
  ∃ b', circular_buffer_read b n out m = Ret (b', k) (fill m out (take (Z.to_nat k) xs)) ∧
    contents (fill m out (take (Z.to_nat k) xs)) b' (drop (Z.to_nat k) xs) ∧
    data b' = data b ∧ buf_len b' = buf_len b.
Proof.
  intros k (us & vs & -> & H) Hn R A. destruct (holding_bounds _ _ _ _ H) as (D1 & D2 & D3 & D4).
  assert (Hk : 0 <= k <= len us + len vs) by (subst k; rewrite length_app; lia).
  assert (Ek : (if unread_len b <? n then unread_len b else n) = k).
  { subst k. rewrite (hold_len _ _ _ _ H), length_app. destruct (Z.ltb_spec (len us + len vs) n); lia. }
  assert (Eu : u32 (unread_len b - k) = unread_len b - k).
  { destruct H as [_ P _ _ E _ F]. apply wrap_small. lia. }
  unfold circular_buffer_read. rewrite Ek, D4, Eu. clear Ek Eu.
  destruct (Z.ltb_spec (data b + buf_len b - rptr b) k) as [U|U].
  - assert (EU : data b + buf_len b - rptr b = len us).
    { destruct H as [_ _ _ _ _ W [F _]]. destruct vs; [cbn [length] in *; lia|]. specialize (W ltac:(done)). lia. }
    rewrite EU in *. exists (advance b (data b + (k - len us)) (unread_len b - k)).
    rewrite take_app_ge, drop_app_ge by lia.
    replace (Z.to_nat k - length us)%nat with (Z.to_nat (k - len us)) by lia. split_and!; try done.
    + apply wp_run. intros Q L HQ. apply wp_bind. eapply wp_read_around; [done|lia|done..].
    + exists (drop (Z.to_nat (k - len us)) vs), []. split; [by rewrite app_nil_r|].
      apply holding_around with (us := us); [|lia]. apply holding_fill; [done|].
      rewrite length_app, length_take. unfold apart in *. lia.
  - assert (Hku : k <= len us).
    { destruct H as [_ _ _ _ _ W _]. destruct vs; [cbn [length] in *; lia|]. specialize (W ltac:(done)). lia. }
    exists (advance b (rptr b + k) (unread_len b - k)).
    rewrite take_app_le, drop_app_le by lia. split_and!; try done.
    + apply wp_run. intros Q L HQ. apply wp_bind. eapply wp_read_straight; [done|lia|done..].
    + eexists _, vs. split; [done|]. apply holding_straight; [|lia]. apply holding_fill; [done|].
      rewrite length_take. unfold apart in *. lia.
Qed.

(** ** Writing *)

Lemma holding_unread m b us vs : holding m b us vs →
  u32 (buf_len b - unread_len b) = buf_len b - unread_len b ∧ 0 <= unread_len b <= buf_len b.
Proof.
  intros H. destruct (holding_bounds _ _ _ _ H) as (D1 & D2 & _). destruct H as [_ P _ _ E _ F].
  split; [apply wrap_small|]; lia.
Qed.

(** The bytes after the unread ones, up to the end of the block. *)
Lemma holding_append m b xs l :
  holding m b xs [] → rptr b + len xs + len l <= data b + buf_len b → Forall (λ c, 0 <= c < 256) l →
  holding (fill m (rptr b + len xs) l) (advance b (rptr b) (unread_len b + len l)) (xs ++ l) [].
Proof.
  intros H Hl Fl. destruct (holding_bounds _ _ _ _ H) as (D1 & D2 & _).
  destruct H as [H1 H2 H3 H4 H5 H6 [H7 H8]]. cbn [length] in *.
  split; cbn [advance data rptr unread_len buf_len length]; rewrite ?length_app; try done; try lia.
  - by apply room_over.
  - apply bytes_app. split.
    + eapply bytes_ext; [|done]. intros a Ha. apply lookup_fill_ne. lia.
    + apply bytes_intro; [lia..|done|]. intros i c E. pose proof (lookup_lt_Some _ _ _ E).
      rewrite lookup_fill, decide_True by lia. rewrite <- E. f_equal. lia.
Qed.

(** The bytes at the start of the block, after the end has been reached. *)
Lemma holding_around_append m b xs l :
  holding m b xs [] → rptr b + len xs = data b + buf_len b → data b + len l <= rptr b →
  Forall (λ c, 0 <= c < 256) l →
  holding (fill m (data b) l) (advance b (rptr b) (unread_len b + len l)) xs l.
Proof.
  intros H He Hl Fl. destruct (holding_bounds _ _ _ _ H) as (D1 & D2 & _).
  destruct H as [H1 H2 H3 H4 H5 H6 [H7 H8]]. cbn [length] in *.
  split; cbn [advance data rptr unread_len buf_len]; try done; try lia.
  - by apply room_over.
  - eapply bytes_ext; [|done]. intros a Ha. apply lookup_fill_ne. lia.
  - apply bytes_intro; [lia..|done|]. intros i c E. pose proof (lookup_lt_Some _ _ _ E).
    rewrite lookup_fill, decide_True by lia. rewrite <- E. f_equal. lia.
Qed.

Lemma Forall_part {A} (P : A → Prop) (l : list A) n k : Forall P l → Forall P (take n (drop k l)).
Proof. intros F. by apply Forall_take, Forall_drop. Qed.

Lemma bytes_at m p l i : bytes m p l → 0 <= i < len l → ptr (p + i).
Proof.
  intros B Hi. apply (bytes_drop _ _ _ (Z.to_nat i)) in B; [|lia]. rewrite Z2Nat.id in B by lia.
  destruct (drop (Z.to_nat i) l) as [|c r] eqn:E; [|apply B].
  apply (f_equal length) in E. rewrite length_drop in E. cbn [length] in E. lia.
Qed.

(** The copies of a write: [u] bytes fit before the end of the block. *)
Lemma wp_write_around m b xs l src u k (Q : Z → mem → Prop) L :
  holding m b xs [] → bytes m src l → 0 < src → apart src (len l) (data b) (buf_len b) →
  rptr b + len xs + u = data b + buf_len b → 0 <= u < k → k <= len l → k - u <= rptr b - data b →
  Q (data b) (fill (fill m (rptr b + len xs) (take (Z.to_nat u) l)) (data b) (take (Z.to_nat (k - u)) (drop (Z.to_nat u) l))) →
  wp (memcpy (rptr b + len xs) src u ;; memcpy (data b) (u32 (src + u)) (u32 (k - u))) Q L m.
Proof.
  intros H B Hs A Hu Hk Hl Hr HQ. destruct (holding_bounds _ _ _ _ H) as (D1 & D2 & _).
  pose proof (bytes_at _ _ _ u B ltac:(lia)) as Pu. unfold ptr, apart in *.
  destruct H as [H1 H2 _ _ H5 _ [H7 _]]. rewrite !(wrap_small 32) by lia. wp_steps.
  apply wp_memcpy_len with (l := take (Z.to_nat u) l); [apply len_take; lia|by apply bytes_take| | |lia|].
  { eapply room_sub; [done|lia..]. }
  { unfold apart. lia. }
  apply wp_memcpy_len with (l := take (Z.to_nat (k - u)) (drop (Z.to_nat u) l)); [| | | |lia|done].
  - apply len_take; rewrite ?length_drop; lia.
  - eapply bytes_ext; [|apply bytes_take; rewrite <- (Z2Nat.id u) at 1 by lia; apply bytes_drop; [lia|done]].
    intros a Ha. rewrite length_take, length_drop in Ha. apply lookup_fill_ne. rewrite length_take. lia.
  - apply room_over. eapply room_sub; [done|lia..].
  - unfold apart. lia.
Qed.

Lemma contents_around m b xs l u k :
  holding m b xs [] → Forall (λ c, 0 <= c < 256) l →
  rptr b + len xs + u = data b + buf_len b → 0 <= u < k → k <= len l → k - u <= rptr b - data b →
  contents (fill (fill m (rptr b + len xs) (take (Z.to_nat u) l)) (data b) (take (Z.to_nat (k - u)) (drop (Z.to_nat u) l)))
    (advance b (rptr b) (unread_len b + k)) (xs ++ take (Z.to_nat k) l).
Proof.
  intros H Fl Hu Hk Hl Hr. set (us := take (Z.to_nat u) l). set (vs := take (Z.to_nat (k - u)) (drop (Z.to_nat u) l)).
  assert (Lu : len us = u) by (apply len_take; lia).
  assert (Lv : len vs = k - u) by (apply len_take; rewrite ?length_drop; lia).
  exists (xs ++ us), vs. split.
  { rewrite <- app_assoc. f_equal. rewrite <- (take_drop (Z.to_nat u) (take (Z.to_nat k) l)).
    rewrite take_take, skipn_firstn_comm. unfold us, vs. f_equal; f_equal; lia. }
  assert (H' := holding_append m b xs us H ltac:(lia) ltac:(by apply Forall_take)).
  apply (holding_around_append _ _ _ vs) in H'; cbn [advance data rptr unread_len buf_len] in *.
  - by replace (unread_len b + k) with (unread_len b + len us + len vs) by lia.
  - rewrite length_app. lia.
  - lia.
  - by apply Forall_part.
Qed.

Lemma contents_straight m b xs l k :
  holding m b xs [] → Forall (λ c, 0 <= c < 256) l → rptr b + len xs + k <= data b + buf_len b →
  0 <= k <= len l →
  contents (fill m (rptr b + len xs) (take (Z.to_nat k) l)) (advance b (rptr b) (unread_len b + k))
    (xs ++ take (Z.to_nat k) l).
Proof.
  intros H Fl Hr Hk. exists (xs ++ take (Z.to_nat k) l), []. split; [by rewrite app_nil_r|].
  pose proof (holding_append m b xs (take (Z.to_nat k) l) H) as H'.
  rewrite len_take in H' by lia. apply H'; [lia|by apply Forall_take].
Qed.

(** [circular_buffer_write] appends as many of the bytes as there is room
    for, around the end of the block, if the unread bytes do not go around it
    already; nothing outside the block changes. *)
Theorem circular_buffer_write_spec m b xs l src :
  let k := Z.min (len l) (buf_len b - len xs) in
  holding m b xs [] → bytes m src l → 0 < src → apart src (len l) (data b) (buf_len b) →
  ∃ b' m', circular_buffer_write b (len l) src m = Ret (b', k) m' ∧
    contents m' b' (xs ++ take (Z.to_nat k) l) ∧ data b' = data b ∧ buf_len b' = buf_len b ∧
    ∀ a, a < data b ∨ data b + buf_len b <= a → m' !! a = m !! a.
Proof.
  intros k H B Hs A. destruct (holding_bounds _ _ _ _ H) as (D1 & D2 & D3 & _).
  destruct (holding_unread _ _ _ _ H) as [Eu Hu]. pose proof (hold_len _ _ _ _ H) as El.
  pose proof (hold_fit _ _ _ _ H) as [F _]. pose proof (hold_ptr _ _ _ _ H) as P. cbn [length] in El.
  rewrite Z.add_0_r in El. pose proof (bytes_range _ _ _ B) as Fl.
  assert (Ek : (if buf_len b - unread_len b <? len l then buf_len b - unread_len b else len l) = k).
  { subst k. destruct (Z.ltb_spec (buf_len b - unread_len b) (len l)); lia. }
  assert (Hk : 0 <= k <= len l ∧ k <= buf_len b - len xs) by (subst k; lia). clearbody k.
  unfold circular_buffer_write. rewrite Eu, Ek, D3, (wrap_small 32 (unread_len b + k)) by lia.
  replace (rptr b + unread_len b) with (rptr b + len xs) by lia. rewrite (wrap_small 32 (rptr b + len xs)) by lia.
  rewrite (wrap_small 32 (data b + buf_len b - (rptr b + len xs))) by lia.
  exists (advance b (rptr b) (unread_len b + k)).
  destruct (Z.ltb_spec (data b + buf_len b - (rptr b + len xs)) k) as [U|U]; eexists; split.
  - apply wp_run. intros Q L HQ. apply wp_bind. eapply wp_write_around; [done..|lia|lia|lia|lia|apply HQ].
  - split; [apply contents_around; [done|done|lia..]|]. split_and!; try done. intros a Ha.
    rewrite !lookup_fill_ne; [done|rewrite length_take; lia|]. rewrite length_take, length_drop. lia.
  - apply wp_run. intros Q L HQ. wp_steps. unfold apart in A.
    apply wp_memcpy_len with (l := take (Z.to_nat k) l);
      [apply len_take; lia|by apply bytes_take| |unfold apart; lia|lia|apply HQ].
    eapply room_sub; [by apply H|lia..].
  - split; [apply contents_straight; [done|done|lia..]|]. split_and!; try done. intros a Ha.
    rewrite lookup_fill_ne; [done|]. rewrite length_take. lia.
Qed.

(** When the unread bytes go around the end of the block, the end of them is
    not reduced to an offset in it: the new bytes are written behind the block
    and counted as written. *)
Theorem circular_buffer_write_overruns m b us vs l src :
  let k := Z.min (len l) (buf_len b - unread_len b) in
  holding m b us vs → vs ≠ [] → bytes m src l → 0 < src →
  room m (data b + buf_len b + len vs) k → apart src (len l) (data b + buf_len b + len vs) k →
  ∃ b', circular_buffer_write b (len l) src m =
    Ret (b', k) (fill m (data b + buf_len b + len vs) (take (Z.to_nat k) l)).
Proof.
  intros k H V B Hs R A. destruct (holding_bounds _ _ _ _ H) as (D1 & D2 & D3 & _).
  destruct (holding_unread _ _ _ _ H) as [Eu Hu]. assert (P : 0 < len vs) by (destruct vs; [done|cbn [length]; lia]).
  destruct H as [_ H2 _ _ H5 H6 [_ H8]]. specialize (H6 V).
  assert (Ek : (if buf_len b - unread_len b <? len l then buf_len b - unread_len b else len l) = k).
  { subst k. destruct (Z.ltb_spec (buf_len b - unread_len b) (len l)); lia. }
  assert (Hk : 0 <= k <= len l ∧ k + len vs <= buf_len b) by (subst k; lia). clearbody k.
  eexists. apply wp_run. intros Q L HQ. unfold circular_buffer_write. rewrite Eu, Ek, D3.
  replace (rptr b + unread_len b) with (data b + buf_len b + len vs) by lia.
  destruct R as (R1 & R2 & R3). rewrite (wrap_small 32 (data b + buf_len b + len vs)) by lia.
  assert (Ew : u32 (data b + buf_len b - (data b + buf_len b + len vs)) = 2 ^ 32 - len vs).
  { unfold wrap. symmetry. apply (Zmod_unique _ _ (-1)); lia. }
  rewrite Ew. destruct (Z.ltb_spec (2 ^ 32 - len vs) k); [lia|]. wp_steps.
  apply wp_memcpy_len with (l := take (Z.to_nat k) l);
    [apply len_take; lia|by apply bytes_take|done|unfold apart in *; lia|lia|apply HQ].
Qed.

(** ** A concrete buffer

    Four bytes at 0x1000, of which the last is unread; and the last and, around
    the end, the first. *)
Definition demo_buffer : CircularBuffer := {| data := 0x1000; rptr := 0x1003; unread_len := 1; buf_len := 4 |}.
Definition demo_around : CircularBuffer := {| data := 0x1000; rptr := 0x1003; unread_len := 2; buf_len := 4 |}.

Lemma demo_block : room demo_mem 0x1000 4.
Proof. apply demo_room; lia. Qed.

Lemma demo_buffer_holds : holding demo_mem demo_buffer [0] [].
Proof. split; cbn [demo_buffer data rptr unread_len buf_len bytes length]; try done; try lia. apply demo_block. Qed.

Lemma demo_around_holds : holding demo_mem demo_around [0] [97].
Proof. split; cbn [demo_around data rptr unread_len buf_len bytes length]; try done; try lia. apply demo_block. Qed.

Lemma circular_buffer_read_spec_witness :
  ∃ b', circular_buffer_read demo_around 5 0x1030 demo_mem = Ret (b', 2) (fill demo_mem 0x1030 [0; 97]) ∧
    contents (fill demo_mem 0x1030 [0; 97]) b' [].
Proof.
  destruct (circular_buffer_read_spec demo_mem demo_around [0; 97] 5 0x1030) as (b' & E & C & _).
  - exists [0], [97]. split; [reflexivity|exact demo_around_holds].
  - lia.
  - apply demo_room; cbn; lia.
  - right. cbn. lia.
  - exists b'. split; [exact E|exact C].
Defined.

Lemma circular_buffer_write_spec_witness :
  ∃ b' m', circular_buffer_write demo_buffer 2 0x1020 demo_mem = Ret (b', 2) m' ∧ contents m' b' [0; 97; 44].
Proof.
  destruct (circular_buffer_write_spec demo_mem demo_buffer [0] [97; 44] 0x1020) as (b' & m' & E & C & _).
  - exact demo_buffer_holds.
  - cbn [bytes]. unfold ptr. split_and!; by try lia.
  - lia.
  - right. cbn. lia.
  - exists b', m'. split; [exact E|exact C].
Defined.

Lemma circular_buffer_write_overruns_witness :
  ∃ b', circular_buffer_write demo_around 2 0x1020 demo_mem = Ret (b', 2) (fill demo_mem 0x1005 [97; 44]).
Proof.
  apply (circular_buffer_write_overruns demo_mem demo_around [0] [97] [97; 44] 0x1020).
  - exact demo_around_holds.
  - discriminate.
  - cbn [bytes]. unfold ptr. split_and!; by try lia.
  - lia.
  - apply demo_room; cbn; lia.
  - right. cbn. lia.
Defined.
