(* ===== verification/DynArray.v ===== *)
(** * Dynamic array: lib/libos/ostypes/dynarray.c

    The elements live in a block of [capacity * elem_size] bytes; an access of
    [memcpy] or [memmove] outside of it is [Fault OutOfBounds], and so is one
    with a null pointer.  The allocator is a parameter: [alloc] and [resize] are
    the requests the array makes, and give no block when they fail.  Buffers of
    the caller are lists of bytes. *)

From S2P Require Import Prelude.

Definition SB_NOT_FOUND : Z := -2.
Definition SB_FAIL : Z := -3.
Definition SB_EMPTY : Z := -4.
Definition SB_NO_OP : Z := -7.
Definition INT_MAX : Z := 2 ^ 31 - 1.

Record DynArray := { elems : option (list Z); array_size : Z; capacity : Z; elem_size : Z }.

#[export] Hint Extern 0 (@Update DynArray _ ?p) =>
  derive_update (λ a, {| elems := elems a; array_size := array_size a; capacity := capacity a;
    elem_size := elem_size a |}) p : typeclass_instances.

(** ** Blocks of bytes *)

(** [n] bytes at offset [o] of a block; sizes are unsigned, so that a negative
    one is too large for any block. *)
Definition read_block (b : list Z) (o n : Z) : option (list Z) :=
  if (0 <=? o) && (0 <=? n) && (o + n <=? Z.of_nat (length b))
  then Some (take (Z.to_nat n) (drop (Z.to_nat o) b)) else None.

Definition write_block (b : list Z) (o : Z) (bs : list Z) : option (list Z) :=
  if (0 <=? o) && (o + Z.of_nat (length bs) <=? Z.of_nat (length b))
  then Some (take (Z.to_nat o) b ++ bs ++ drop (Z.to_nat o + length bs) b) else None.

Definition block : M DynArray (list Z) := let* a := gets id in deref OutOfBounds (elems a).

Definition load_elems (o n : Z) : M DynArray (list Z) :=
  if n =? 0 then ret []
  else let* b := block in deref OutOfBounds (read_block b o n).

Definition store_elems (o : Z) (bs : list Z) : M DynArray unit :=
  if decide (bs = []) then ret tt
  else
    let* b := block in
    let* b' := deref OutOfBounds (write_block b o bs) in
    modify (λ a, a <| elems := Some b' |>).

(** The offset of an element. *)
Definition ARRAY_PTR (a : DynArray) (i : Z) : Z := i * elem_size a.

(** ** Positions *)

Definition get_position (a : DynArray) (pos : Z) : Z :=
  let pos := if array_size a <? pos then array_size a else if pos <? - array_size a then 0 else pos in
  if pos <? 0 then array_size a + pos else pos.

Section operations.

Context (alloc : Z → option (list Z)) (resize : list Z → Z → option (list Z)).

(** A null block is resized as an empty one. *)
Definition allocator_resize (o : option (list Z)) (size : Z) : option (list Z) := resize (default [] o) size.

Definition shift_array (starting_index shift : Z) : M DynArray unit :=
  let* a := gets id in
  let* bs := load_elems (ARRAY_PTR a starting_index) (array_size a - starting_index) in
  store_elems (ARRAY_PTR a (starting_index + shift)) bs.

Definition new_capacity (a : DynArray) : Z :=
  let c := if (array_size a =? capacity a) && (8 <? capacity a)
           then u32 (3 * array_size a) / 2 else u32 (array_size a + 3) in
  if i32 c <? 0 then INT_MAX else c.

Definition expand_array : M DynArray Z :=
  let* a := gets id in
  match allocator_resize (elems a) (u32 (new_capacity a * elem_size a)) with
  | None => ret SB_FAIL
  | Some b =>
      modify (λ x, x <| capacity := new_capacity a |> <| elems := Some b |>) ;;
      ret 0
  end.

Definition dyn_array_clear : M DynArray unit := modify (λ a, a <| array_size := 0 |>).

Definition dyn_array_shrink : M DynArray Z :=
  let* a := gets id in
  if array_size a <? capacity a then
    match allocator_resize (elems a) (u32 (array_size a * elem_size a)) with
    | None => ret SB_FAIL
    | Some b =>
        modify (λ x, x <| elems := Some b |> <| capacity := array_size a |>) ;;
        ret 0
    end
  else ret SB_NO_OP.

Definition dyn_array_length : M DynArray Z := gets array_size.

(** The array the call leaves behind and the result; without an allocator no
    memory is requested. *)
Definition dyn_array_init (size cap : Z) (has_allocator : bool) (old : DynArray) : DynArray * Z :=
  if size =? 0 then (old, SB_FAIL)
  else if has_allocator then
    match alloc (u32 (cap * size)) with
    | None => (old <| array_size := 0 |> <| elem_size := size |>, SB_FAIL)
    | Some b => ({| elems := Some b; array_size := 0; capacity := cap; elem_size := size |}, 0)
    end
  else ({| elems := None; array_size := 0; capacity := 0; elem_size := size |}, 0).

Definition dyn_array_destroy : M DynArray unit :=
  modify (λ a, a <| elems := None |> <| capacity := 0 |> <| array_size := 0 |>).

(** The position of the element, whose address the C function stores. *)
Definition dyn_array_get (pos : Z) : M DynArray (Z * option Z) :=
  let* a := gets id in
  let pos := get_position a pos in
  if (array_size a <=? pos) || (pos <? 0) then ret (SB_NOT_FOUND, None)
  else ret (0, Some (ARRAY_PTR a pos)).

(** The first position whose element [cmp] finds equal, [n] elements to go. *)
Fixpoint find_loop (cmp : list Z → list Z → Z) (elem : list Z) (n : nat) (i : Z) : M DynArray Z :=
  match n with
  | O => ret SB_NOT_FOUND
  | S n =>
      let* a := gets id in
      let* e := load_elems (ARRAY_PTR a i) (elem_size a) in
      if cmp elem e =? 0 then ret (i32 i) else find_loop cmp elem n (i + 1)
  end.

Definition dyn_array_find (elem : list Z) (cmp : list Z → list Z → Z) : M DynArray Z :=
  let* a := gets id in find_loop cmp elem (Z.to_nat (array_size a)) 0.

Definition dyn_array_insert (pos : Z) (ptr : option (list Z)) : M DynArray Z :=
  let* a := gets id in
  let pos := get_position a pos in
  match ptr with
  | None => ret SB_FAIL
  | Some elem =>
      if (pos <? 0) || (array_size a <? pos) || (array_size a =? INT_MAX) then ret SB_FAIL
      else
        let* e := (if array_size a =? capacity a then expand_array else ret 0) in
        if negb (e =? 0) then ret SB_FAIL
        else
          shift_array pos 1 ;;
          store_elems (ARRAY_PTR a pos) elem ;;
          modify (λ x, x <| array_size ::= λ n, n + 1 |>) ;;
          ret 0
  end.

(** [out] says whether the caller wants the element; the bytes copied out are
    returned. *)
Definition dyn_array_pop (out : bool) : M DynArray (Z * list Z) :=
  let* a := gets id in
  if array_size a =? 0 then ret (SB_EMPTY, [])
  else
    modify (λ x, x <| array_size := array_size a - 1 |>) ;;
    let* bs := (if out then load_elems (ARRAY_PTR a (array_size a - 1)) (array_size a - 1) else ret []) in
    ret (0, bs).

Definition dyn_array_push (ptr : option (list Z)) : M DynArray Z :=
  let* a := gets id in
  match ptr with
  | None => ret SB_FAIL
  | Some elem =>
      if array_size a =? INT_MAX then ret SB_FAIL
      else
        let* e := (if array_size a =? capacity a then expand_array else ret 0) in
        if negb (e =? 0) then ret SB_FAIL
        else
          store_elems (ARRAY_PTR a (array_size a)) elem ;;
          modify (λ x, x <| array_size ::= λ n, n + 1 |>) ;;
          ret 0
  end.

Definition dyn_array_remove (pos : Z) : M DynArray Z :=
  let* a := gets id in
  let pos := get_position a pos in
  if (array_size a <=? pos) || (pos <? 0) then ret SB_NOT_FOUND
  else
    shift_array pos (-1) ;;
    modify (λ x, x <| array_size ::= λ n, n - 1 |>) ;;
    ret 0.

Definition dyn_array_remove_unstable (pos : Z) : M DynArray Z :=
  let* a := gets id in
  let pos := get_position a pos in
  if (array_size a <=? pos) || (pos <? 0) then ret SB_NOT_FOUND
  else
    when (pos + 1 <? array_size a)
      (let* bs := load_elems (ARRAY_PTR a (array_size a - 1)) (elem_size a) in
       store_elems (ARRAY_PTR a pos) bs) ;;
    modify (λ x, x <| array_size ::= λ n, n - 1 |>) ;;
    ret 0.

(** The new array and the result; reading past the block faults. *)
Definition dyn_array_subarray (start end_ : Z) (new_array : DynArray) : M DynArray (DynArray * Z) :=
  let* a := gets id in
  let start := get_position a start in
  let end_ := get_position a end_ in
  let new_size := if end_ <? start then 0 else end_ - start in
  let '(na, e) := dyn_array_init (elem_size a) new_size true new_array in
  if negb (e =? 0) then ret (na, SB_FAIL)
  else
    let* bs := load_elems (ARRAY_PTR a start) (new_size * elem_size a) in
    let* b := deref OutOfBounds (write_block (default [] (elems na)) 0 bs) in
    ret (na <| elems := Some b |> <| array_size := new_size |>, 0).

(** One element from behind the last one is copied, and the size stays 0. *)
Definition dyn_array_clone (new_array : DynArray) : M DynArray (option DynArray) :=
  let* a := gets id in
  let '(na, e) := dyn_array_init (elem_size a) (capacity a) true new_array in
  if negb (e =? 0) then ret None
  else
    let* bs := load_elems (ARRAY_PTR a (array_size a)) (elem_size a) in
    let* b := deref OutOfBounds (write_block (default [] (elems na)) 0 bs) in
    ret (Some (na <| elems := Some b |>)).

End operations.

(** ** Specification: a sequence of elements *)

(** The array holds the elements [xs], each [elem_size] bytes long, at the start
    of a block for [capacity] of them. *)
Record holds (a : DynArray) (xs : list (list Z)) : Prop := {
  d_elem : 0 < elem_size a;
  d_sizes : Forall (λ x, Z.of_nat (length x) = elem_size a) xs;
  d_count : array_size a = Z.of_nat (length xs);
  d_room : array_size a <= capacity a;
  d_block : ∃ b, elems a = Some b ∧ Z.of_nat (length b) = capacity a * elem_size a ∧
    take (length (concat xs)) b = concat xs
}.

(** What the allocator promises: a resized block has the size asked for and
    keeps its contents up to the smaller size. *)
Definition good_resize (resize : list Z → Z → option (list Z)) : Prop :=
  ∀ b n b', resize b n = Some b' →
    Z.of_nat (length b') = n ∧ ∀ k, (k <= length b)%nat → (k <= length b')%nat → take k b' = take k b.

Lemma concat_length es (xs : list (list Z)) :
  Forall (λ x, Z.of_nat (length x) = es) xs → Z.of_nat (length (concat xs)) = Z.of_nat (length xs) * es.
Proof. induction 1 as [|x xs Hx _ IH]; [done|]. simpl. rewrite length_app. lia. Qed.

Lemma wp_store_elems a b o bs (Q : unit → DynArray → Prop) L :
  elems a = Some b → bs ≠ [] → 0 <= o → o + Z.of_nat (length bs) <= Z.of_nat (length b) →
  Q tt (a <| elems := Some (take (Z.to_nat o) b ++ bs ++ drop (Z.to_nat o + length bs) b) |>) →
  wp (store_elems o bs) Q L a.
Proof.
  intros Hb Hne Ho Hlen HQ. unfold store_elems. rewrite decide_False by done.
  wp_step. unfold block. wp_step. wp_step. eapply wp_deref; [done|].
  wp_step. eapply wp_deref; [|by apply wp_modify].
  unfold write_block. by replace ((0 <=? o) && (o + Z.of_nat (length bs) <=? Z.of_nat (length b))) with true by lia.
Qed.

Lemma take_app_take {A} (b : list A) n m (xs : list A) :
  (n <= length b)%nat → take (n + length xs) (take n b ++ xs ++ drop m b) = take n b ++ xs.
Proof.
  intros H. rewrite app_assoc, take_app_le; [|rewrite length_app, length_take; lia].
  apply take_ge. rewrite length_app, length_take. lia.
Qed.

(** Storing an element behind the last one. *)
Lemma holds_append a xs e b :
  holds a xs → Z.of_nat (length e) = elem_size a → array_size a < capacity a → elems a = Some b →
  0 <= ARRAY_PTR a (array_size a) ∧ ARRAY_PTR a (array_size a) + Z.of_nat (length e) <= Z.of_nat (length b) ∧ e ≠ [] ∧
  holds (a <| elems := Some (take (Z.to_nat (ARRAY_PTR a (array_size a))) b ++ e ++
                            drop (Z.to_nat (ARRAY_PTR a (array_size a)) + length e) b) |>
           <| array_size ::= λ n, n + 1 |>) (xs ++ [e]).
Proof.
  intros [H1 H2 H3 H4 (b0 & H5 & H6 & H7)] He Hlt Hb. rewrite Hb in H5. injection H5 as <-.
  pose proof (concat_length _ _ H2) as Hc. unfold ARRAY_PTR in *.
  assert (Z.to_nat (array_size a * elem_size a) = length (concat xs)) as Ho by (rewrite H3, <- Hc; lia). rewrite Ho.
  assert (array_size a * elem_size a + elem_size a <= capacity a * elem_size a) as Hle by nia.
  assert (e ≠ []) as Hne by (intros ->; simpl in He; lia).
  split; [nia | split; [lia | split; [done|]]]. split; cbn; try done.
  - apply Forall_app. split; [done | by repeat constructor].
  - rewrite length_app. simpl. lia.
  - lia.
  - eexists. split; [done|]. rewrite !length_app, length_take, length_drop. split; [lia|].
    rewrite concat_app. simpl. rewrite app_nil_r, length_app, take_app_take by lia. by rewrite H7.
Qed.

(** Growing keeps the elements and makes room for one more. *)
Lemma wp_expand_array resize a xs b' (Q : Z → DynArray → Prop) L :
  good_resize resize → holds a xs → array_size a = capacity a → capacity a < 2 ^ 30 →
  resize (default [] (elems a)) (u32 (new_capacity a * elem_size a)) = Some b' → new_capacity a * elem_size a < 2 ^ 32 →
  (∀ a', holds a' xs → array_size a' = array_size a → elem_size a' = elem_size a → array_size a' < capacity a' → Q 0 a') →
  wp (expand_array resize) Q L a.
Proof.
  intros Hres [H1 H2 H3 H4 (b & H5 & H6 & H7)] Hfull Hcap Hr Hnc HQ. unfold expand_array, allocator_resize.
  wp_step. wp_step. change (id a) with a. rewrite Hr. wp_step. apply wp_modify. apply wp_ret.
  assert (array_size a < new_capacity a ∧ 0 <= new_capacity a) as [Hgrow Hnn].
  { unfold new_capacity. rewrite Hfull, Z.eqb_refl. destruct (8 <? capacity a) eqn:E8; simpl.
    - rewrite (wrap_small 32 (3 * capacity a)) by lia.
      assert (capacity a + 1 <= 3 * capacity a / 2) by (apply Z.div_le_lower_bound; lia).
      destruct (i32 _ <? 0); unfold INT_MAX; lia.
    - rewrite (wrap_small 32 (capacity a + 3)) by lia. destruct (i32 _ <? 0); unfold INT_MAX; lia. }
  rewrite H5 in Hr. simpl in Hr. destruct (Hres _ _ _ Hr) as [Hlen Hkeep].
  rewrite wrap_small in Hlen by nia.
  apply HQ; cbn; try done. split; cbn; try done; [lia|]. exists b'. split; [done | split; [done|]].
  pose proof (concat_length _ _ H2) as Hc. rewrite Hkeep, H7; [done | nia | nia].
Qed.

(** [dyn_array_push] appends: with an element of the right size, and with
    room or an allocator that provides it, the array holds one more element
    at the end and all others are unchanged. *)
Theorem dyn_array_push_spec resize a xs e b' :
  good_resize resize → holds a xs → Z.of_nat (length e) = elem_size a → capacity a < 2 ^ 30 →
  (array_size a = capacity a →
     resize (default [] (elems a)) (u32 (new_capacity a * elem_size a)) = Some b' ∧ new_capacity a * elem_size a < 2 ^ 32) →
  ∃ a', dyn_array_push resize (Some e) a = Ret 0 a' ∧ holds a' (xs ++ [e]).
Proof.
  intros Hres H He Hcap Hr. pose proof H as [H1 _ H3 H4 _].
  destruct (wp_ret_inv (dyn_array_push resize (Some e)) (λ c a', c = 0 ∧ holds a' (xs ++ [e])) a) as (c & a' & E & -> & D);
    [|eauto].
  unfold dyn_array_push. wp_step. wp_step. change (id a) with a. replace (array_size a =? INT_MAX) with false by (unfold INT_MAX; lia).
  assert (∀ a1, holds a1 xs → array_size a1 = array_size a → elem_size a1 = elem_size a → array_size a1 < capacity a1 →
    wp (store_elems (ARRAY_PTR a (array_size a)) e ;; modify (λ x, x <| array_size ::= λ n, n + 1 |>) ;; ret 0)
      (λ c a', c = 0 ∧ holds a' (xs ++ [e])) (λ _, False) a1) as Hstore.
  { intros a1 K1 Es Ee Hlt. pose proof K1 as [_ _ _ _ (b & Hb & _)].
    destruct (holds_append a1 xs e b K1 ltac:(lia) Hlt Hb) as (G1 & G2 & G3 & G4).
    replace (ARRAY_PTR a (array_size a)) with (ARRAY_PTR a1 (array_size a1)) by (unfold ARRAY_PTR; by rewrite Es, Ee).
    wp_step. eapply wp_store_elems; [done | done | done | done |]. wp_step. apply wp_modify. apply wp_ret. by split. }
  wp_step. destruct (array_size a =? capacity a) eqn:E.
  - apply Z.eqb_eq in E. destruct (Hr E) as [Hr1 Hr2].
    eapply wp_expand_array; [done | done | done | done | done | done |]. intros a1 K1 Es Ee Hlt. simpl (negb _). cbv iota.
    by apply Hstore.
  - apply wp_ret. simpl (negb _). cbv iota. apply Hstore; [done | done | done | lia].
Qed.

(** An allocator that always finds memory. *)
Definition demo_resize (b : list Z) (n : Z) : option (list Z) :=
  Some (take (Z.to_nat n) b ++ replicate (Z.to_nat n - length b) 0).

Lemma demo_good_resize b n b' : 0 <= n → demo_resize b n = Some b' →
  Z.of_nat (length b') = n ∧ ∀ k, (k <= length b)%nat → (k <= length b')%nat → take k b' = take k b.
Proof.
  intros Hn [= <-]. rewrite length_app, length_take, length_replicate. split; [lia|].
  intros k H1 H2. rewrite take_app_le by (rewrite length_take; lia). rewrite take_take. f_equal. lia.
Qed.

(** The same for a request of no size at all. *)
Definition demo_allocator (b : list Z) (n : Z) : option (list Z) := if n <? 0 then None else demo_resize b n.

Lemma demo_allocator_good : good_resize demo_allocator.
Proof.
  intros b n b' H. unfold demo_allocator in H. destruct (n <? 0) eqn:E; [done|]. apply demo_good_resize; [lia | done].
Qed.

Definition demo_array : DynArray := {| elems := Some [1; 2]; array_size := 1; capacity := 1; elem_size := 2 |}.

Lemma demo_array_holds : holds demo_array [[1; 2]].
Proof. split; cbn; try done || lia. - by repeat constructor. - by exists [1; 2]. Qed.

Lemma dyn_array_push_spec_witness :
  ∃ a', dyn_array_push demo_allocator (Some [3; 4]) demo_array = Ret 0 a' ∧ holds a' [[1; 2]; [3; 4]].
Proof.
  apply (dyn_array_push_spec demo_allocator demo_array [[1; 2]] [3; 4] [1; 2; 0; 0; 0; 0; 0; 0]).
  - exact demo_allocator_good.
  - exact demo_array_holds.
  - reflexivity.
  - simpl. lia.
  - intros _. split; [reflexivity | vm_compute; reflexivity].
Defined.

(** ** Removal *)

(** An array of single bytes. *)
Definition bytes (cs : list Z) : list (list Z) := (λ c, [c]) <$> cs.

Lemma concat_bytes cs : concat (bytes cs) = cs.
Proof. induction cs as [|c cs IH]; [done|]. change (concat (bytes (c :: cs))) with (c :: concat (bytes cs)). by rewrite IH. Qed.

Lemma length_bytes cs : length (bytes cs) = length cs.
Proof. apply length_fmap. Qed.

Lemma wp_load_elems a b o n (Q : list Z → DynArray → Prop) L :
  elems a = Some b → 0 <= o → 0 < n → o + n <= Z.of_nat (length b) →
  Q (take (Z.to_nat n) (drop (Z.to_nat o) b)) a → wp (load_elems o n) Q L a.
Proof.
  intros Hb Ho Hn Hlen HQ. unfold load_elems. replace (n =? 0) with false by lia. wp_step. unfold block. wp_step. wp_step.
  eapply wp_deref; [done|]. eapply wp_deref; [|exact HQ]. unfold read_block.
  by replace ((0 <=? o) && (0 <=? n) && (o + n <=? Z.of_nat (length b))) with true by lia.
Qed.

(** [dyn_array_remove] removes the wrong element: it moves the elements from
    the given position on, instead of those behind it.  In an array of bytes
    it removes the element before the one asked for, and for the first
    element it writes in front of the block. *)
Theorem dyn_array_remove_wrong a cs pos :
  holds a (bytes cs) → elem_size a = 1 → 0 <= pos < array_size a → array_size a < 2 ^ 31 →
  (0 < pos → ∃ a', dyn_array_remove pos a = Ret 0 a' ∧ holds a' (bytes (delete (Z.to_nat (pos - 1)) cs))) ∧
  (pos = 0 → dyn_array_remove pos a = Fault OutOfBounds).
Proof.
  intros [H1 H2 H3 H4 (b & H5 & H6 & H7)] He Hpos Hmax. rewrite concat_bytes in H7. rewrite length_bytes in H3.
  rewrite He, Z.mul_1_r in H6.
  assert (get_position a pos = pos) as Hgp.
  { unfold get_position. replace (array_size a <? pos) with false by lia. replace (pos <? - array_size a) with false by lia.
    by replace (pos <? 0) with false by lia. }
  assert (take (Z.to_nat (array_size a - pos)) (drop (Z.to_nat pos) b) = drop (Z.to_nat pos) cs) as Htd.
  { transitivity (drop (Z.to_nat pos) (take (length cs) b)); [rewrite skipn_firstn_comm; f_equal; lia | by rewrite H7]. }
  split.
  - intros Hp.
    destruct (wp_ret_inv (dyn_array_remove pos) (λ c a', c = 0 ∧ holds a' (bytes (delete (Z.to_nat (pos - 1)) cs))) a)
      as (c & a' & E & -> & D); [|eauto].
    unfold dyn_array_remove. wp_step. wp_step. change (id a) with a. rewrite Hgp.
    replace ((array_size a <=? pos) || (pos <? 0)) with false by lia.
    wp_step. unfold shift_array. wp_step. wp_step. change (id a) with a. unfold ARRAY_PTR. rewrite He, !Z.mul_1_r.
    wp_step. eapply wp_load_elems; [done | lia | lia | lia |]. rewrite Htd.
    eapply wp_store_elems; [done | | lia | rewrite length_drop; lia |].
    { intros Hn. apply (f_equal length) in Hn. rewrite length_drop in Hn. simpl in Hn. lia. }
    wp_step. apply wp_modify. apply wp_ret. split; [done|].
    replace (pos + -1) with (pos - 1) by lia. set (k := Z.to_nat (pos - 1)). replace (Z.to_nat pos) with (S k) by lia.
    assert (take k b = take k cs) as Htk by (rewrite <- H7, take_take; f_equal; lia).
    split; cbn.
    + done.
    + apply Forall_fmap. apply Forall_true. intros x. by rewrite He.
    + rewrite length_bytes, length_delete; [lia|]. apply lookup_lt_is_Some_2. lia.
    + lia.
    + eexists. split; [done|]. rewrite !length_app, length_take, !length_drop. split; [lia|].
      rewrite concat_bytes, delete_take_drop, Htk. rewrite app_assoc, take_app_le by done. by apply take_ge.
  - intros ->. unfold dyn_array_remove, bind, gets. change (id a) with a. rewrite Hgp.
    replace ((array_size a <=? 0) || (0 <? 0)) with false by lia.
    assert (shift_array 0 (-1) a = Fault OutOfBounds) as ->; [|done].
    unfold shift_array, gets. erewrite bind_run; [|done]. change (id a) with a. unfold ARRAY_PTR. rewrite He, !Z.mul_1_r.
    erewrite bind_run; [|apply wp_run; intros Q L HQ; eapply wp_load_elems; [done | lia | lia | lia | exact HQ]].
    rewrite Htd. unfold store_elems. rewrite decide_False.
    2: { intros Hn. apply (f_equal length) in Hn. rewrite length_drop in Hn. simpl in Hn. lia. }
    erewrite bind_run; [|apply wp_run; intros Q L HQ; unfold block; wp_step; wp_step; eapply wp_deref; [done | exact HQ]].
    unfold write_block. by replace (0 <=? 0 + -1) with false by lia.
Qed.

Definition byte_array : DynArray := {| elems := Some [5; 6; 7; 0]; array_size := 3; capacity := 4; elem_size := 1 |}.

Lemma byte_array_holds : holds byte_array (bytes [5; 6; 7]).
Proof. split; cbn; try done || lia. - by repeat constructor. - by exists [5; 6; 7; 0]. Qed.

Lemma dyn_array_remove_wrong_witness :
  ∃ a', dyn_array_remove 1 byte_array = Ret 0 a' ∧ holds a' (bytes [6; 7]).
Proof. apply (dyn_array_remove_wrong byte_array [5; 6; 7] 1 byte_array_holds); simpl; lia || reflexivity. Defined.
