(* ===== verification/OsList.v ===== *)
(** * Doubly linked lists: lib/libos/ostypes/list.c and include/os/list.h

    Nodes live in a heap, from addresses to nodes; 0 is the null pointer, and
    [kfree] ends the life of a node, so that a later access is a fault.  Where
    [kmalloc], which is not part of the repository, puts a node is a parameter.
    What is stored through [elemPtr] is a second result; nothing is stored if
    the pointer is null. *)

From S2P Require Import Prelude.

Inductive ListOpWhich := FIRST | LAST | ALL | HEAD | TAIL.

#[export] Instance ListOpWhich_eq_dec : EqDecision ListOpWhich.
Proof. solve_decision. Defined.

Record list_node_t := Node { n_key : Z; n_elem : Z; n_prev : Z; n_next : Z }.

Record list_t := { l_head : Z; l_tail : Z }.

Record lists := { the_list : list_t; nodes : gmap Z list_node_t }.

Definition set_prev (v : Z) (n : list_node_t) : list_node_t := Node (n_key n) (n_elem n) v (n_next n).
Definition set_next (v : Z) (n : list_node_t) : list_node_t := Node (n_key n) (n_elem n) (n_prev n) v.

Definition on_nodes (f : gmap Z list_node_t → gmap Z list_node_t) (s : lists) : lists :=
  {| the_list := the_list s; nodes := f (nodes s) |}.
Definition put_head (p : Z) (s : lists) : lists :=
  {| the_list := {| l_head := p; l_tail := l_tail (the_list s) |}; nodes := nodes s |}.
Definition put_tail (p : Z) (s : lists) : lists :=
  {| the_list := {| l_head := l_head (the_list s); l_tail := p |}; nodes := nodes s |}.

(** [*p], an assignment to a field of [*p], and the fields of the list. *)
Definition node_at (p : Z) : M lists list_node_t :=
  if p =? 0 then fail NullDeref else let* h := gets nodes in deref PageFault (h !! p).
Definition upd_node (p : Z) (f : list_node_t → list_node_t) : M lists unit :=
  node_at p ;; modify (on_nodes (alter f p)).
Definition head : M lists Z := gets (λ s, l_head (the_list s)).
Definition tail : M lists Z := gets (λ s, l_tail (the_list s)).
Definition kfree (p : Z) : M lists unit := node_at p ;; modify (on_nodes (delete p)).

(** ** Insertion *)

Section insert.
Variable kmalloc : gmap Z list_node_t → Z.

Definition _createListNode (key elem : Z) : M lists Z :=
  let* h := gets nodes in
  if kmalloc h =? 0 then ret 0
  else modify (on_nodes (insert (kmalloc h) (Node key elem 0 0))) ;; ret (kmalloc h).

Definition _listInsert (key element : Z) (which : ListOpWhich) : M lists Z :=
  let* node := _createListNode key element in
  if node =? 0 then ret (-1)
  else
    (if decide (which = HEAD) then
       let* hd := head in
       when (negb (hd =? 0)) (upd_node hd (set_prev node) ;; upd_node node (set_next hd)) ;;
       modify (put_head node) ;;
       let* tl := tail in
       when (tl =? 0) (modify (put_tail node))
     else
       let* tl := tail in
       when (negb (tl =? 0)) (upd_node tl (set_next node) ;; upd_node node (set_prev tl)) ;;
       modify (put_tail node) ;;
       let* hd := head in
       when (hd =? 0) (modify (put_head node))) ;;
    ret 0.

Definition listInsertHead (key element : Z) : M lists Z := _listInsert key element HEAD.
Definition listInsertTail (key element : Z) : M lists Z := _listInsert key element TAIL.
End insert.

(** ** Search *)

(** A node is visited once: a step for every node of the heap, and one more for
    the null pointer, are enough. *)
Definition visits : M lists nat := gets (λ s, S (size (nodes s))).

Fixpoint find_loop (fuel : nat) (key : Z) (which : ListOpWhich) (node : Z) : M lists (Z * option Z) :=
  match fuel with
  | O => fail OutOfFuel
  | S fuel =>
      if node =? 0 then ret (-1, None)
      else
        let* n := node_at node in
        if n_key n =? key then ret (0, Some (n_elem n))
        else find_loop fuel key which (if decide (which = FIRST) then n_next n else n_prev n)
  end.

Definition _listFind (key : Z) (which : ListOpWhich) : M lists (Z * option Z) :=
  let* node := (if decide (which = FIRST) then head else tail) in
  let* fuel := visits in
  find_loop fuel key which node.

Definition listFindFirst (key : Z) : M lists (Z * option Z) := _listFind key FIRST.
Definition listFindLast (key : Z) : M lists (Z * option Z) := _listFind key LAST.

(** ** Removal *)

Definition _listRemoveEnd (which : ListOpWhich) : M lists (Z * option Z) :=
  let* prevNode := (if decide (which = HEAD) then head else tail) in
  if prevNode =? 0 then ret (-1, None)
  else
    (if decide (which = HEAD) then
       let* n := node_at prevNode in
       modify (put_head (n_next n)) ;;
       let* hd := head in
       if negb (hd =? 0) then upd_node hd (set_prev 0) else modify (put_tail 0)
     else
       let* n := node_at prevNode in
       modify (put_tail (n_prev n)) ;;
       let* tl := tail in
       if negb (tl =? 0) then upd_node tl (set_next 0) else modify (put_head 0)) ;;
    let* n := node_at prevNode in
    kfree prevNode ;;
    ret (0, Some (n_elem n)).

Definition listRemoveHead : M lists (Z * option Z) := _listRemoveEnd HEAD.
Definition listRemoveTail : M lists (Z * option Z) := _listRemoveEnd TAIL.

(** What [_listRemove] does with a node that has the key: the element. *)
Definition unlink (node : Z) : M lists Z :=
  let* n := node_at node in
  when (negb (n_next n =? 0)) (upd_node (n_next n) (set_prev (n_prev n))) ;;
  let* n := node_at node in
  when (negb (n_prev n =? 0)) (upd_node (n_prev n) (set_next (n_next n))) ;;
  let* hd := head in
  let* n := node_at node in
  when (hd =? node) (modify (put_head (n_next n))) ;;
  let* tl := tail in
  let* n := node_at node in
  when (tl =? node) (modify (put_tail (n_prev n))) ;;
  kfree node ;;
  ret (n_elem n).

Fixpoint remove_loop (fuel : nat) (key : Z) (which : ListOpWhich) (node : Z) (out : option Z) : M lists (Z * option Z) :=
  match fuel with
  | O => fail OutOfFuel
  | S fuel =>
      if node =? 0 then ret (if decide (which = ALL) then 0 else -1, out)
      else
        let next (out : option Z) :=
          let* n := node_at node in
          remove_loop fuel key which (if decide (which = LAST) then n_prev n else n_next n) out in
        let* n := node_at node in
        if n_key n =? key then
          let* e := unlink node in
          if decide (which = ALL) then next (Some e) else ret (0, Some e)
        else next out
  end.

Definition _listRemove (key : Z) (which : ListOpWhich) : M lists (Z * option Z) :=
  let* node := (if decide (which = LAST) then tail else head) in
  let* fuel := visits in
  remove_loop fuel key which node None.

Definition listRemoveFirst (key : Z) : M lists (Z * option Z) := _listRemove key FIRST.
Definition listRemoveLast (key : Z) : M lists (Z * option Z) := _listRemove key LAST.
Definition listRemoveAll (key : Z) : M lists Z := let* r := _listRemove key ALL in ret (fst r).

(** ** The whole list *)

Definition listInit : M lists Z := modify (put_head 0) ;; modify (put_tail 0) ;; ret 0.

Fixpoint destroy_loop (fuel : nat) (ptr : Z) : M lists unit :=
  match fuel with
  | O => fail OutOfFuel
  | S fuel =>
      if ptr =? 0 then ret tt
      else
        let* n := node_at ptr in
        kfree ptr ;;
        destroy_loop fuel (n_next n)
  end.

Definition listDestroy : M lists Z :=
  let* hd := head in
  let* fuel := visits in
  destroy_loop fuel hd ;;
  modify (put_head 0) ;;
  modify (put_tail 0) ;;
  ret 0.
