(* ===== verification/OsListSpec.v ===== *)
(** * Doubly linked lists implement sequences of keys and elements *)

From S2P Require Import Prelude OsList.

(** ** Nodes that are linked

    An item is the address of a node with its key and element. *)

Abbreviation item := (Z * (Z * Z))%type.

Definition first_addr (xs : list item) (d : Z) : Z := match xs with [] => d | x :: _ => x.1 end.
Fixpoint last_addr (xs : list item) (d : Z) : Z := match xs with [] => d | x :: xs => last_addr xs x.1 end.

(** The nodes of [xs] between the pointers [a] and [b]. *)
Fixpoint linked (h : gmap Z list_node_t) (a : Z) (xs : list item) (b : Z) : Prop :=
  match xs with
  | [] => True
  | x :: xs => h !! x.1 = Some (Node x.2.1 x.2.2 a (first_addr xs b)) ∧ linked h x.1 xs b
  end.

Record repr (s : lists) (xs : list item) : Prop := {
  repr_head : l_head (the_list s) = first_addr xs 0;
  repr_tail : l_tail (the_list s) = last_addr xs 0;
  repr_linked : linked (nodes s) 0 xs 0;
  repr_nodup : NoDup (0 :: xs.*1);
}.

Lemma first_addr_app xs ys d : first_addr (xs ++ ys) d = first_addr xs (first_addr ys d).
Proof. by destruct xs. Qed.
Lemma last_addr_app xs : ∀ ys d, last_addr (xs ++ ys) d = last_addr ys (last_addr xs d).
Proof. induction xs as [|x xs IH]; intros ys d; [done|]. apply IH. Qed.

Lemma linked_app h xs : ∀ a ys b,
  linked h a (xs ++ ys) b ↔ linked h a xs (first_addr ys b) ∧ linked h (last_addr xs a) ys b.
Proof.
  induction xs as [|x xs IH]; intros a ys b; [cbn; tauto|]. cbn [app linked last_addr]. rewrite IH, first_addr_app. tauto.
Qed.

Lemma linked_ext h h' xs : ∀ a b, (∀ p, p ∈ xs.*1 → h' !! p = h !! p) → linked h a xs b → linked h' a xs b.
Proof.
  induction xs as [|x xs IH]; intros a b E; [done|]. cbn [linked fmap list_fmap] in *. intros [H1 H2].
  split; [by rewrite E by (left)|]. apply IH; [|done]. intros p Hp. apply E. by right.
Qed.

Lemma linked_set_prev h a a' x xs b : x.1 ∉ xs.*1 →
  linked h a (x :: xs) b → linked (alter (set_prev a') x.1 h) a' (x :: xs) b.
Proof.
  intros N [H1 H2]. split.
  - by rewrite lookup_alter_eq, H1.
  - eapply linked_ext; [|done]. intros p Hp. apply lookup_alter_ne. congruence.
Qed.

Lemma linked_set_next h a x xs b b' : x.1 ∉ xs.*1 →
  linked h a (xs ++ [x]) b → linked (alter (set_next b') x.1 h) a (xs ++ [x]) b'.
Proof.
  intros N [H1 [H2 _]]%linked_app. apply linked_app. split.
  - eapply linked_ext; [|done]. intros p Hp. apply lookup_alter_ne. congruence.
  - split; [|done]. by rewrite lookup_alter_eq, H2.
Qed.

Lemma last_addr_elem xs d : xs ≠ [] → last_addr xs d ∈ xs.*1.
Proof.
  revert d. induction xs as [|x xs IH]; intros d H; [done|]. cbn [last_addr fmap list_fmap].
  destruct xs as [|y xs]; [by left|right; by apply IH].
Qed.

Lemma last_addr_zero xs : 0 ∉ xs.*1 → last_addr xs 0 = 0 → xs = [].
Proof.
  intros N E. destruct xs as [|x xs]; [done|]. destruct N. rewrite <- E. by apply last_addr_elem.
Qed.

Lemma first_addr_zero xs : 0 ∉ xs.*1 → first_addr xs 0 = 0 → xs = [].
Proof. destruct xs as [|x xs]; [done|]. cbn. intros N E. destruct N. rewrite E. by left. Qed.

(** The list has no more nodes than the heap. *)
Lemma linked_dom h xs : ∀ a b, linked h a xs b → ∀ p, p ∈ xs.*1 → is_Some (h !! p).
Proof.
  induction xs as [|x xs IH]; intros a b; cbn [linked fmap list_fmap]; [intros _ p Hp; by apply not_elem_of_nil in Hp|].
  intros [H1 H2] p [->|Hp]%elem_of_cons; [by rewrite H1|by eapply IH].
Qed.

Lemma linked_size h xs a b : linked h a xs b → NoDup xs.*1 → (length xs <= size h)%nat.
Proof.
  intros L N. rewrite <- (length_fmap fst), <- size_dom, <- (size_list_to_set (C := gset Z) (xs.*1)) by done.
  apply subseteq_size. intros p Hp%elem_of_list_to_set. apply elem_of_dom. by eapply linked_dom.
Qed.

Lemma linked_at h xs x ys : linked h 0 (xs ++ x :: ys) 0 → h !! x.1 = Some (Node x.2.1 x.2.2 (last_addr xs 0) (first_addr ys 0)).
Proof. intros [_ [H _]]%linked_app. exact H. Qed.

(** ** Access to nodes *)

Lemma wp_node_at p n (Q : list_node_t → lists → Prop) L s :
  p ≠ 0 → nodes s !! p = Some n → Q n s → wp (node_at p) Q L s.
Proof. intros H E HQ. unfold node_at. destruct (Z.eqb_spec p 0); [done|]. repeat wp_step. by apply (wp_deref _ _ n). Qed.

Lemma wp_upd_node p f n (Q : unit → lists → Prop) L s :
  p ≠ 0 → nodes s !! p = Some n → Q tt (on_nodes (alter f p) s) → wp (upd_node p f) Q L s.
Proof. intros H E HQ. unfold upd_node. wp_step. apply (wp_node_at p n); [done|done|]. by repeat wp_step. Qed.

Lemma wp_kfree p n (Q : unit → lists → Prop) L s :
  p ≠ 0 → nodes s !! p = Some n → Q tt (on_nodes (delete p) s) → wp (kfree p) Q L s.
Proof. intros H E HQ. unfold kfree. wp_step. apply (wp_node_at p n); [done|done|]. by repeat wp_step. Qed.

(** ** Taking a node out *)

(** The neighbours of a node between [xs] and [ys] are linked to each other. *)
Definition bridge_prev (xs ys : list item) (h : gmap Z list_node_t) : gmap Z list_node_t :=
  if first_addr ys 0 =? 0 then h else alter (set_prev (last_addr xs 0)) (first_addr ys 0) h.
Definition bridge_next (xs ys : list item) (h : gmap Z list_node_t) : gmap Z list_node_t :=
  if last_addr xs 0 =? 0 then h else alter (set_next (first_addr ys 0)) (last_addr xs 0) h.

Lemma nodup_middle xs (x : item) ys : NoDup (0 :: (xs ++ x :: ys).*1) →
  0 ∉ xs.*1 ∧ 0 ∉ ys.*1 ∧ x.1 ≠ 0 ∧ x.1 ∉ xs.*1 ∧ x.1 ∉ ys.*1 ∧ NoDup xs.*1 ∧ NoDup ys.*1 ∧
  (∀ p, p ∈ xs.*1 → p ∉ ys.*1) ∧ NoDup (0 :: (xs ++ ys).*1).
Proof.
  rewrite !fmap_app, fmap_cons, !NoDup_cons, !not_elem_of_app, !not_elem_of_cons, !NoDup_app, NoDup_cons.
  intros ((A & B & C) & D & E & F & G). assert (K : ∀ p, p ∈ xs.*1 → p ≠ x.1 ∧ p ∉ ys.*1).
  { intros p Hp. specialize (E p Hp). by apply not_elem_of_cons in E. }
  split_and!; try done; try congruence; naive_solver.
Qed.

Lemma bridge_linked h xs x ys : NoDup (0 :: (xs ++ x :: ys).*1) → linked h 0 (xs ++ x :: ys) 0 →
  linked (delete x.1 (bridge_next xs ys (bridge_prev xs ys h))) 0 (xs ++ ys) 0.
Proof.
  intros N [L1 [Lx L2]]%linked_app. apply nodup_middle in N as (Z1 & Z2 & X0 & X1 & X2 & N1 & N2 & D & _).
  apply linked_app. unfold bridge_next, bridge_prev. split.
  - destruct xs as [|z xs _] using rev_ind; [done|]. rewrite last_addr_app. cbn [last_addr].
    assert (z.1 ∈ (xs ++ [z]).*1) by (rewrite fmap_app; apply elem_of_app; right; by left).
    destruct (Z.eqb_spec z.1 0) as [E|_]; [by rewrite E in *|].
    eapply linked_ext; [|apply (linked_set_next h 0 z xs x.1 (first_addr ys 0)); [|exact L1]].
    + intros p Hp. rewrite lookup_delete_ne by congruence. destruct (Z.eqb_spec (first_addr ys 0) 0); [done|].
      assert (first_addr ys 0 ≠ p) by (destruct ys as [|y ys]; [done|intros <-; apply (D y.1); [done|by left]]).
      destruct (decide (z.1 = p)) as [->|]; [rewrite !lookup_alter_eq|rewrite !(lookup_alter_ne _ _ z.1) by done]; by rewrite lookup_alter_ne.
    + rewrite fmap_app, NoDup_app in N1. destruct N1 as (_ & N1 & _). intros Hz. apply (N1 _ Hz). by left.
  - destruct ys as [|y ys]; [done|]. cbn [first_addr].
    destruct (Z.eqb_spec y.1 0) as [E|_]; [destruct Z2; rewrite <- E; by left|].
    eapply linked_ext; [|apply (linked_set_prev h x.1 (last_addr xs 0)); [by apply NoDup_cons in N2 as [N2 _]|exact L2]].
    intros p Hp. rewrite lookup_delete_ne by congruence. destruct (Z.eqb_spec (last_addr xs 0) 0); [done|].
    apply lookup_alter_ne. intros <-. apply (D (last_addr xs 0)); [|done]. apply last_addr_elem. by intros ->.
Qed.

Lemma bridge_lookup h xs ys p : p ∉ xs.*1 → p ∉ ys.*1 → bridge_next xs ys (bridge_prev xs ys h) !! p = h !! p ∧ bridge_prev xs ys h !! p = h !! p.
Proof.
  intros H1 H2. assert (E : bridge_prev xs ys h !! p = h !! p).
  { unfold bridge_prev. destruct (Z.eqb_spec (first_addr ys 0) 0); [done|]. apply lookup_alter_ne. intros <-.
    destruct ys as [|y ys]; [done|]. destruct H2. by left. }
  split; [|done]. unfold bridge_next. destruct (Z.eqb_spec (last_addr xs 0) 0); [done|]. rewrite lookup_alter_ne; [done|].
  intros <-. destruct H1. apply last_addr_elem. by intros ->.
Qed.

Lemma wp_bridge_prev s xs ys (Q : unit → lists → Prop) L :
  (first_addr ys 0 ≠ 0 → is_Some (nodes s !! first_addr ys 0)) → Q tt (on_nodes (bridge_prev xs ys) s) →
  wp (when (negb (first_addr ys 0 =? 0)) (upd_node (first_addr ys 0) (set_prev (last_addr xs 0)))) Q L s.
Proof.
  unfold bridge_prev. intros H HQ. destruct (Z.eqb_spec (first_addr ys 0) 0) as [|N]; cbn [negb when].
  - destruct s. apply wp_ret, HQ.
  - destruct (H N) as [m E]. by apply (wp_upd_node _ _ m).
Qed.

Lemma wp_bridge_next s xs ys (Q : unit → lists → Prop) L :
  (last_addr xs 0 ≠ 0 → is_Some (nodes s !! last_addr xs 0)) → Q tt (on_nodes (bridge_next xs ys) s) →
  wp (when (negb (last_addr xs 0 =? 0)) (upd_node (last_addr xs 0) (set_next (first_addr ys 0)))) Q L s.
Proof.
  unfold bridge_next. intros H HQ. destruct (Z.eqb_spec (last_addr xs 0) 0) as [|N]; cbn [negb when].
  - destruct s. apply wp_ret, HQ.
  - destruct (H N) as [m E]. by apply (wp_upd_node _ _ m).
Qed.

Lemma bridge_prev_dom xs ys h p : is_Some (bridge_prev xs ys h !! p) ↔ is_Some (h !! p).
Proof. unfold bridge_prev. destruct (_ =? 0); [done|]. apply lookup_alter_is_Some. Qed.

(** The neighbours that exist are in the heap. *)
Lemma neighbours h xs x ys : linked h 0 (xs ++ x :: ys) 0 →
  (first_addr ys 0 ≠ 0 → is_Some (h !! first_addr ys 0)) ∧ (last_addr xs 0 ≠ 0 → is_Some (h !! last_addr xs 0)).
Proof.
  intros L. pose proof (linked_dom _ _ _ _ L) as K. split; intros H; apply K; rewrite fmap_app; apply elem_of_app.
  - right. right. destruct ys; [done|by left].
  - left. apply last_addr_elem. by intros ->.
Qed.

(** The ends of the list without the node. *)
Lemma ends_without xs x ys : NoDup (0 :: (xs ++ x :: ys).*1) →
  first_addr (xs ++ ys) 0 = (if first_addr (xs ++ x :: ys) 0 =? x.1 then first_addr ys 0 else first_addr (xs ++ x :: ys) 0) ∧
  last_addr (xs ++ ys) 0 = (if last_addr (xs ++ x :: ys) 0 =? x.1 then last_addr xs 0 else last_addr (xs ++ x :: ys) 0).
Proof.
  intros (Z1 & Z2 & X0 & X1 & X2 & _)%nodup_middle. rewrite !last_addr_app. cbn [last_addr]. split.
  - destruct xs as [|z xs]; cbn [app first_addr]; [by rewrite Z.eqb_refl|]. destruct (Z.eqb_spec z.1 x.1) as [E|]; [|done].
    destruct X1. rewrite <- E. by left.
  - destruct ys as [|y ys]; [by cbn; rewrite Z.eqb_refl|]. cbn [last_addr]. destruct (Z.eqb_spec (last_addr ys y.1) x.1) as [E|]; [|done].
    destruct X2. rewrite <- E. by apply (last_addr_elem (y :: ys) 0).
Qed.

Lemma wp_os_unlink s xs x ys (Q : Z → lists → Prop) L : repr s (xs ++ x :: ys) →
  (∀ s', repr s' (xs ++ ys) → nodes s' !! x.1 = None → Q x.2.2 s') → wp (unlink x.1) Q L s.
Proof.
  intros [Hh Ht Hl Hn] HQ. pose proof (bridge_linked _ _ _ _ Hn Hl) as Hl'. destruct (ends_without xs x ys Hn) as [Eh Et].
  pose proof (linked_at _ _ _ _ Hl) as Hx. destruct (neighbours _ _ _ _ Hl) as [K1 K2].
  apply nodup_middle in Hn as (_ & _ & X0 & X1 & X2 & _ & _ & _ & Hn).
  destruct (bridge_lookup (nodes s) xs ys x.1 X1 X2) as [E2 E1]. rewrite Hx in E1, E2.
  unfold unlink. wp_step. eapply wp_node_at; [done|done|]. wp_step. apply wp_bridge_prev; [done|].
  wp_step. eapply wp_node_at; [done|exact E1|]. wp_step. apply wp_bridge_next; [intros H; by apply bridge_prev_dom, K2|].
  unfold head, tail. repeat wp_step. eapply wp_node_at; [done|exact E2|]. cbn [on_nodes the_list n_next]. rewrite Hh.
  destruct (first_addr (xs ++ x :: ys) 0 =? x.1); cbn [when]; repeat wp_step; (eapply wp_node_at; [done|exact E2|]);
    cbn [on_nodes put_head the_list l_tail n_prev n_elem]; rewrite Ht;
    (destruct (last_addr (xs ++ x :: ys) 0 =? x.1); cbn [when]; repeat wp_step; (eapply wp_kfree; [done|exact E2|]); wp_step;
      (apply HQ; [split; [by rewrite Eh|by rewrite Et|exact Hl'|exact Hn]|apply lookup_delete_eq])).
Qed.

(** ** Putting a node in *)

Definition unused (kmalloc : gmap Z list_node_t → Z) : Prop := ∀ h, kmalloc h = 0 ∨ h !! kmalloc h = None.

Section insertion.
Context (kmalloc : gmap Z list_node_t → Z) (kmalloc_fresh : unused kmalloc).

Lemma insert_linked h p n xs a b : h !! p = None → linked h a xs b → linked (<[p := n]> h) a xs b.
Proof.
  intros F L. eapply linked_ext; [|done]. intros q Hq. apply lookup_insert_ne. intros <-.
  destruct (linked_dom _ _ _ _ L p Hq) as [m E]. by rewrite F in E.
Qed.

Lemma nodup_cons_fresh s xs : repr s xs → kmalloc (nodes s) ≠ 0 → nodes s !! kmalloc (nodes s) = None → kmalloc (nodes s) ∉ 0 :: xs.*1.
Proof.
  intros [_ _ Hl Hn] H F [E|Hp]%elem_of_cons; [done|]. destruct (linked_dom _ _ _ _ Hl _ Hp) as [m E]. by rewrite F in E.
Qed.

Lemma wp_os_insert_head s xs k e (Q : Z → lists → Prop) L : repr s xs →
  (if kmalloc (nodes s) =? 0 then Q (-1) s else ∀ s', repr s' ((kmalloc (nodes s), (k, e)) :: xs) → Q 0 s') →
  wp (listInsertHead kmalloc k e) Q L s.
Proof.
  intros R HQ. unfold listInsertHead, _listInsert, _createListNode. repeat wp_step.
  destruct (Z.eqb_spec (kmalloc (nodes s)) 0) as [|H]; repeat wp_step; [done|].
  destruct (Z.eqb_spec (kmalloc (nodes s)) 0) as [|_]; [done|].
  assert (F : nodes s !! kmalloc (nodes s) = None) by (by destruct (kmalloc_fresh (nodes s))).
  pose proof (nodup_cons_fresh s xs R H F) as N. set (p := kmalloc (nodes s)) in *. destruct R as [Hh Ht Hl Hn].
  rewrite decide_True by done. unfold head, tail. repeat wp_step. cbn [on_nodes the_list]. rewrite Hh.
  apply not_elem_of_cons in N as [N0 N]. apply NoDup_cons in Hn as [Z0 Hn].
  destruct xs as [|x xs]; cbn [first_addr Z.eqb negb when].
  - repeat wp_step. cbn [put_head on_nodes the_list l_tail]. rewrite Ht. cbn [last_addr Z.eqb when]. repeat wp_step. apply HQ.
    split; [done|done| |]. { split; [apply lookup_insert_eq|done]. } apply NoDup_cons. split; [|apply NoDup_singleton]. set_solver.
  - pose proof (insert_linked _ p (Node k e 0 0) _ _ _ F Hl) as Li. destruct (Z.eqb_spec x.1 0) as [E|X0]; [destruct Z0; rewrite <- E; by left|].
    cbn [negb when]. wp_step. eapply wp_upd_node; [done|apply Li|]. 
    assert (x.1 ≠ p) by (intros <-; apply N; by left).
    eapply wp_upd_node; [done|cbn; by rewrite lookup_alter_ne, lookup_insert_eq|].
    repeat wp_step. cbn [put_head on_nodes the_list l_tail]. rewrite Ht.
    destruct (Z.eqb_spec (last_addr (x :: xs) 0) 0) as [E|_]; [by apply last_addr_zero in E|]. cbn [when]. wp_step. apply HQ.
    split; [done|done| |].
    + split; [cbn; by rewrite lookup_alter_eq, lookup_alter_ne, lookup_insert_eq by done|].
      eapply linked_ext; [|eapply (linked_set_prev _ 0 p); [by apply NoDup_cons in Hn as [? _]|exact Li]].
      intros q Hq. apply lookup_alter_ne. congruence.
    + apply NoDup_cons. split; [set_solver|]. by apply NoDup_cons.
Qed.

Lemma wp_os_insert_tail s xs k e (Q : Z → lists → Prop) L : repr s xs →
  (if kmalloc (nodes s) =? 0 then Q (-1) s else ∀ s', repr s' (xs ++ [(kmalloc (nodes s), (k, e))]) → Q 0 s') →
  wp (listInsertTail kmalloc k e) Q L s.
Proof.
  intros R HQ. unfold listInsertTail, _listInsert, _createListNode. repeat wp_step.
  destruct (Z.eqb_spec (kmalloc (nodes s)) 0) as [|H]; repeat wp_step; [done|].
  destruct (Z.eqb_spec (kmalloc (nodes s)) 0) as [|_]; [done|].
  assert (F : nodes s !! kmalloc (nodes s) = None) by (by destruct (kmalloc_fresh (nodes s))).
  pose proof (nodup_cons_fresh s xs R H F) as N. set (p := kmalloc (nodes s)) in *. destruct R as [Hh Ht Hl Hn].
  rewrite decide_False by done. unfold head, tail. repeat wp_step. cbn [on_nodes the_list]. rewrite Ht.
  apply not_elem_of_cons in N as [N0 N]. assert (Hn' : NoDup (0 :: (xs ++ [(p, (k, e))]).*1)).
  { rewrite fmap_app, app_comm_cons. apply NoDup_app. split; [done|]. split; [|apply NoDup_singleton]. cbn. set_solver. }
  apply NoDup_cons in Hn as [Z0 Hn]. destruct xs as [|x xs _] using rev_ind; cbn [last_addr Z.eqb negb when].
  - repeat wp_step. cbn [put_tail on_nodes the_list l_head]. rewrite Hh. cbn [first_addr Z.eqb when]. repeat wp_step. apply HQ.
    split; [done|done| |done]. split; [apply lookup_insert_eq|done].
  - pose proof (insert_linked _ p (Node k e 0 0) _ _ _ F Hl) as Li. rewrite last_addr_app in *. cbn [last_addr] in *.
    assert (Hx : x.1 ∈ (xs ++ [x]).*1) by (rewrite fmap_app; apply elem_of_app; right; by left).
    destruct (Z.eqb_spec x.1 0) as [E|X0]; [by rewrite E in Hx|].
    cbn [negb when]. wp_step. eapply wp_upd_node; [done|apply (proj2 (proj1 (linked_app _ _ _ _ _) Li))|].
    assert (x.1 ≠ p) by congruence.
    eapply wp_upd_node; [done|cbn; by rewrite lookup_alter_ne, lookup_insert_eq|].
    repeat wp_step. cbn [put_tail on_nodes the_list l_head]. rewrite Hh.
    destruct (Z.eqb_spec (first_addr (xs ++ [x]) 0) 0) as [E|_]; [apply first_addr_zero in E; [by destruct xs|done]|].
    cbn [when]. wp_step. apply HQ. split; [by destruct xs|cbn; by rewrite last_addr_app| |done].
    apply linked_app. rewrite last_addr_app. split; [|split; [cbn; by rewrite lookup_alter_eq, lookup_alter_ne, lookup_insert_eq by done|done]].
    eapply linked_ext; [|eapply (linked_set_next _ 0 x xs 0 p); [|exact Li]].
    + intros q Hq. apply lookup_alter_ne. congruence.
    + rewrite fmap_app in Hn. apply NoDup_app in Hn as (_ & Hn & _). intros Hx'. apply (Hn _ Hx'). by left.
Qed.
End insertion.

(** ** Searching *)

Fixpoint find_key (k : Z) (l : list (Z * Z)) : option Z :=
  match l with [] => None | x :: l => if x.1 =? k then Some x.2 else find_key k l end.

Fixpoint remove_key (k : Z) (l : list (Z * Z)) : list (Z * Z) :=
  match l with [] => [] | x :: l => if x.1 =? k then l else x :: remove_key k l end.

Definition found (o : option Z) : Z * option Z := match o with Some e => (0, Some e) | None => (-1, None) end.

Lemma repr_at s xs x ys : repr s (xs ++ x :: ys) →
  x.1 ≠ 0 ∧ nodes s !! x.1 = Some (Node x.2.1 x.2.2 (last_addr xs 0) (first_addr ys 0)).
Proof. intros [_ _ L N]. split; [|by apply linked_at]. by apply nodup_middle in N as (_ & _ & N & _). Qed.

Lemma wp_find_forward s k ys : ∀ xs fuel (Q : Z * option Z → lists → Prop) L, repr s (xs ++ ys) → (length ys < fuel)%nat →
  Q (found (find_key k ys.*2)) s → wp (find_loop fuel k FIRST (first_addr ys 0)) Q L s.
Proof.
  induction ys as [|x ys IH]; intros xs fuel Q L R Hf HQ; (destruct fuel as [|fuel]; [cbn in Hf; lia|]); cbn [find_loop first_addr].
  { by apply wp_ret. }
  destruct (repr_at s xs x ys R) as [X0 E]. destruct (Z.eqb_spec x.1 0); [done|]. wp_step. eapply wp_node_at; [done|done|].
  cbn [n_key n_elem n_next fmap list_fmap find_key] in *. destruct (x.2.1 =? k); [by apply wp_ret|].
  rewrite decide_True by done. apply (IH (xs ++ [x])); [by rewrite <- app_assoc|cbn in Hf; lia|done].
Qed.

Lemma wp_find_backward s k xs : ∀ ys fuel (Q : Z * option Z → lists → Prop) L, repr s (xs ++ ys) → (length xs < fuel)%nat →
  Q (found (find_key k (reverse xs.*2))) s → wp (find_loop fuel k LAST (last_addr xs 0)) Q L s.
Proof.
  induction xs as [|x xs IH] using rev_ind; intros ys fuel Q L R Hf HQ; (destruct fuel as [|fuel]; [cbn in Hf; lia|]); cbn [find_loop].
  { by apply wp_ret. }
  rewrite <- app_assoc in R. cbn [app] in R. destruct (repr_at s xs x ys R) as [X0 E]. rewrite last_addr_app. cbn [last_addr].
  destruct (Z.eqb_spec x.1 0); [done|]. wp_step. eapply wp_node_at; [done|done|].
  rewrite fmap_app, reverse_app in HQ. cbn [fmap list_fmap] in HQ. rewrite reverse_singleton in HQ. cbn [n_key n_elem n_prev find_key app] in *.
  destruct (x.2.1 =? k); [by apply wp_ret|].
  rewrite decide_False by done. rewrite length_app in Hf. apply (IH (x :: ys)); [done|cbn in Hf; lia|done].
Qed.

Lemma visits_enough s xs : repr s xs → (length xs < S (size (nodes s)))%nat.
Proof. intros [_ _ L [_ N]%NoDup_cons]. apply Nat.lt_succ_r. by eapply linked_size. Qed.

Lemma wp_remove_forward k ys : ∀ s xs fuel (Q : Z * option Z → lists → Prop) L, repr s (xs ++ ys) → (length ys < fuel)%nat →
  (∀ s' ys', repr s' (xs ++ ys') → ys'.*2 = remove_key k ys.*2 → Q (found (find_key k ys.*2)) s') →
  wp (remove_loop fuel k FIRST (first_addr ys 0) None) Q L s.
Proof.
  induction ys as [|x ys IH]; intros s xs fuel Q L R Hf HQ; (destruct fuel as [|fuel]; [cbn in Hf; lia|]); cbn [remove_loop first_addr].
  { apply wp_ret. by apply (HQ s []). }
  destruct (repr_at s xs x ys R) as [X0 E]. destruct (Z.eqb_spec x.1 0); [done|]. wp_step. eapply wp_node_at; [done|done|].
  cbn [n_key n_elem n_next fmap list_fmap find_key remove_key] in *. destruct (x.2.1 =? k).
  - wp_step. apply (wp_os_unlink s xs x ys); [done|]. intros s' R' _. rewrite decide_False by done. apply wp_ret. by apply (HQ s' ys).
  - wp_step. eapply wp_node_at; [done|done|]. rewrite decide_False by done. cbn [n_next].
    apply (IH s (xs ++ [x])); [by rewrite <- app_assoc|cbn in Hf; lia|]. intros s' ys' R' E'.
    apply (HQ s' (x :: ys')); [by rewrite <- app_assoc in R'|cbn; by rewrite E'].
Qed.

Lemma wp_remove_backward k xs : ∀ s ys fuel (Q : Z * option Z → lists → Prop) L, repr s (xs ++ ys) → (length xs < fuel)%nat →
  (∀ s' xs', repr s' (xs' ++ ys) → xs'.*2 = reverse (remove_key k (reverse xs.*2)) → Q (found (find_key k (reverse xs.*2))) s') →
  wp (remove_loop fuel k LAST (last_addr xs 0) None) Q L s.
Proof.
  induction xs as [|x xs IH] using rev_ind; intros s ys fuel Q L R Hf HQ; (destruct fuel as [|fuel]; [cbn in Hf; lia|]); cbn [remove_loop].
  { apply wp_ret. by apply (HQ s []). }
  rewrite <- app_assoc in R. cbn [app] in R. destruct (repr_at s xs x ys R) as [X0 E]. rewrite last_addr_app. cbn [last_addr].
  destruct (Z.eqb_spec x.1 0); [done|]. wp_step. eapply wp_node_at; [done|done|].
  rewrite fmap_app, reverse_app in HQ. cbn [fmap list_fmap] in HQ. rewrite reverse_singleton in HQ. cbn [n_key n_elem n_prev find_key remove_key app] in *.
  destruct (x.2.1 =? k).
  - wp_step. apply (wp_os_unlink s xs x ys); [done|]. intros s' R' _. rewrite decide_False by done. apply wp_ret. apply (HQ s' xs); [done|by rewrite reverse_involutive].
  - wp_step. eapply wp_node_at; [done|done|]. rewrite decide_True by done. cbn [n_prev]. rewrite length_app in Hf.
    apply (IH s (x :: ys)); [done|cbn in Hf; lia|]. intros s' xs' R' E'.
    apply (HQ s' (xs' ++ [x])); [by rewrite <- app_assoc|]. rewrite fmap_app, E', reverse_cons. done.
Qed.

(** ** Both ends, and the whole list *)

Lemma wp_os_remove_head s xs (Q : Z * option Z → lists → Prop) L : repr s xs →
  match xs with
  | [] => Q (-1, None) s
  | x :: xs => ∀ s', repr s' xs → Q (0, Some x.2.2) s'
  end → wp listRemoveHead Q L s.
Proof.
  intros R HQ. pose proof R as [Hh Ht Hl Hn]. unfold listRemoveHead, _listRemoveEnd.
  destruct (decide (HEAD = HEAD)) as [_|]; [|done]. unfold head, tail.
  repeat wp_step. rewrite Hh. destruct xs as [|x xs]; [by repeat wp_step|]. cbn [first_addr].
  destruct (repr_at s [] x xs R) as [X0 E]. destruct (Z.eqb_spec x.1 0); [done|]. repeat wp_step. eapply wp_node_at; [done|done|].
  repeat wp_step. cbn [put_head the_list l_head n_next].
  pose proof (bridge_linked (nodes s) [] x xs Hn Hl) as Hl'. destruct (neighbours _ [] _ _ Hl) as [K _].
  destruct (nodup_middle [] x xs Hn) as (_ & _ & _ & _ & X2 & _ & _ & _ & Hn'). destruct (bridge_lookup (nodes s) [] xs x.1) as [_ E1]; [set_solver|done|].
  unfold bridge_next, bridge_prev in *. cbn [last_addr Z.eqb app] in *. rewrite E in E1. destruct xs as [|y xs]; cbn [first_addr Z.eqb negb] in *.
  - repeat wp_step. eapply wp_node_at; [done|exact E|]. wp_step. eapply wp_kfree; [done|exact E|]. wp_step. apply HQ. by split.
  - destruct (Z.eqb_spec y.1 0) as [Y|Y]; [apply NoDup_cons in Hn' as [Hn' _]; destruct Hn'; rewrite <- Y; by left|]. cbn [negb].
    destruct (K Y) as [m Em]. eapply wp_upd_node; [done|exact Em|]. wp_step. eapply wp_node_at; [done|exact E1|].
    wp_step. eapply wp_kfree; [done|exact E1|]. wp_step. apply HQ. by split.
Qed.

Lemma wp_os_remove_tail s xs x (Q : Z * option Z → lists → Prop) L : repr s (xs ++ [x]) →
  (∀ s', repr s' xs → Q (0, Some x.2.2) s') → wp listRemoveTail Q L s.
Proof.
  intros R HQ. pose proof R as [Hh Ht Hl Hn]. unfold listRemoveTail, _listRemoveEnd.
  destruct (decide (TAIL = HEAD)) as [|_]; [done|]. unfold head, tail. rewrite last_addr_app in Ht. cbn [last_addr] in Ht.
  repeat wp_step. rewrite Ht. destruct (repr_at s xs x [] R) as [X0 E]. destruct (Z.eqb_spec x.1 0); [done|].
  repeat wp_step. eapply wp_node_at; [done|done|]. repeat wp_step. cbn [put_tail the_list l_tail n_prev].
  pose proof (bridge_linked (nodes s) xs x [] Hn Hl) as Hl'. destruct (neighbours _ xs _ _ Hl) as [_ K].
  destruct (nodup_middle xs x [] Hn) as (Z1 & _ & _ & X1 & _ & _ & _ & _ & Hn'). destruct (bridge_lookup (nodes s) xs [] x.1) as [E1 _]; [done|set_solver|].
  unfold bridge_next, bridge_prev in *. cbn [first_addr Z.eqb] in *. rewrite app_nil_r in Hl', Hn'. rewrite E in E1. destruct (Z.eqb_spec (last_addr xs 0) 0) as [Y|Y].
  - apply last_addr_zero in Y as ->; [|done]. cbn [negb last_addr Z.eqb]. repeat wp_step. eapply wp_node_at; [done|exact E|]. wp_step.
    eapply wp_kfree; [done|exact E|]. wp_step. apply HQ. by split.
  - cbn [negb]. destruct (K Y) as [m Em]. eapply wp_upd_node; [done|exact Em|]. wp_step. eapply wp_node_at; [done|exact E1|].
    wp_step. eapply wp_kfree; [done|exact E1|]. wp_step. apply HQ. split; [|done|done|done]. cbn. rewrite Hh. by destruct xs.
Qed.

Lemma wp_destroy_loop xs : ∀ s a fuel (Q : unit → lists → Prop) L, linked (nodes s) a xs 0 → NoDup (0 :: xs.*1) → (length xs < fuel)%nat →
  Q tt (on_nodes (λ h, foldl (λ h x, delete x.1 h) h xs) s) → wp (destroy_loop fuel (first_addr xs 0)) Q L s.
Proof.
  induction xs as [|x xs IH]; intros s a fuel Q L Hl Hn Hf HQ; (destruct fuel as [|fuel]; [cbn in Hf; lia|]); cbn [destroy_loop first_addr].
  { destruct s. by apply wp_ret. }
  destruct Hl as [E Hl]. destruct (nodup_middle [] x xs Hn) as (_ & _ & X0 & _ & X2 & _ & _ & _ & Hn'). destruct (Z.eqb_spec x.1 0); [done|].
  wp_step. eapply wp_node_at; [done|exact E|]. wp_step. eapply wp_kfree; [done|exact E|]. cbn [n_next].
  apply (IH (on_nodes (delete x.1) s) x.1); [|done|cbn in Hf; lia|exact HQ].
  eapply linked_ext; [|exact Hl]. intros p Hp. apply lookup_delete_ne. congruence.
Qed.

(** ** The operations as operations on sequences *)

Inductive list_op :=
| InsertHead (key element : Z) | InsertTail (key element : Z)
| FindFirst (key : Z) | FindLast (key : Z)
| RemoveFirst (key : Z) | RemoveLast (key : Z) | RemoveAll (key : Z)
| RemoveHead | RemoveTail
| Init | Destroy.

Definition run_op (kmalloc : gmap Z list_node_t → Z) (op : list_op) : M lists (Z * option Z) :=
  match op with
  | InsertHead k e => let* r := listInsertHead kmalloc k e in ret (r, None)
  | InsertTail k e => let* r := listInsertTail kmalloc k e in ret (r, None)
  | FindFirst k => listFindFirst k
  | FindLast k => listFindLast k
  | RemoveFirst k => listRemoveFirst k
  | RemoveLast k => listRemoveLast k
  | RemoveAll k => let* r := listRemoveAll k in ret (r, None)
  | RemoveHead => listRemoveHead
  | RemoveTail => listRemoveTail
  | Init => let* r := listInit in ret (r, None)
  | Destroy => let* r := listDestroy in ret (r, None)
  end.

(** What an operation makes of a sequence of keys and elements, and its results;
    [room] is whether there is memory for a node.  Removing all elements with a key
    has no result when there is one. *)
Definition spec_op (room : bool) (op : list_op) (l : list (Z * Z)) : option (list (Z * Z) * (Z * option Z)) :=
  match op with
  | InsertHead k e => Some (if room then ((k, e) :: l, (0, None)) else (l, (-1, None)))
  | InsertTail k e => Some (if room then (l ++ [(k, e)], (0, None)) else (l, (-1, None)))
  | FindFirst k => Some (l, found (find_key k l))
  | FindLast k => Some (l, found (find_key k (reverse l)))
  | RemoveFirst k => Some (remove_key k l, found (find_key k l))
  | RemoveLast k => Some (reverse (remove_key k (reverse l)), found (find_key k (reverse l)))
  | RemoveAll k => if find_key k l then None else Some (l, (0, None))
  | RemoveHead => Some (List.tl l, found (snd <$> hd_error l))
  | RemoveTail => Some (removelast l, found (snd <$> last l))
  | Init | Destroy => Some ([], (0, None))
  end.

(** The list holds the sequence. *)
Definition represents (s : lists) (l : list (Z * Z)) : Prop := ∃ xs, repr s xs ∧ xs.*2 = l.

Lemma remove_all_loop k ys : ∀ s xs fuel, repr s (xs ++ ys) → (length ys < fuel)%nat →
  remove_loop fuel k ALL (first_addr ys 0) None s =
    if find_key k ys.*2 then Fault PageFault else Ret (0, None) s.
Proof.
  induction ys as [|x ys IH]; intros s xs fuel R Hf; (destruct fuel as [|fuel]; [cbn in Hf; lia|]); cbn [remove_loop first_addr]; [done|].
  destruct (repr_at s xs x ys R) as [X0 E]. destruct (Z.eqb_spec x.1 0) as [|N]; [done|].
  assert (A : ∀ s' o, nodes s' !! x.1 = o → node_at x.1 s' = match o with Some n => Ret n s' | None => Fault PageFault end).
  { intros s' o <-. unfold node_at. destruct (Z.eqb_spec x.1 0); [done|]. unfold bind, gets, deref. by destruct (nodes s' !! x.1). }
  rewrite (bind_run _ _ _ _ _ (A s _ E)). cbn [n_key fmap list_fmap find_key]. destruct (x.2.1 =? k).
  - destruct (wp_ret_inv (unlink x.1) (λ _ s', nodes s' !! x.1 = None) s) as (e & s' & Es & En).
    { apply (wp_os_unlink s xs x ys); auto. }
    rewrite (bind_run _ _ _ _ _ Es). rewrite decide_True by done. unfold bind. by rewrite (A s' _ En).
  - rewrite (bind_run _ _ _ _ _ (A s _ E)). rewrite decide_False by done. cbn [n_next].
    apply (IH s (xs ++ [x])); [by rewrite <- app_assoc|cbn in Hf; lia].
Qed.

(** [listRemoveAll] does not work: after the first node with the key is freed, the
    pointer to the next one is read from it.  Without such a node it changes nothing. *)
Theorem remove_all_reads_freed s l k : represents s l →
  listRemoveAll k s = if find_key k l then Fault PageFault else Ret 0 s.
Proof.
  intros (xs & R & <-). pose proof R as [Hh _ _ _].
  unfold listRemoveAll, _listRemove. rewrite decide_False by done. unfold bind, head, visits, gets. rewrite Hh.
  rewrite (remove_all_loop k xs s []) by (done || by apply visits_enough). by destruct (find_key k xs.*2).
Qed.

(** [listDestroy] frees the nodes of the list, and no others. *)
Theorem list_destroy_frees s xs : repr s xs →
  ∃ s', listDestroy s = Ret 0 s' ∧ represents s' [] ∧ nodes s' = foldl (λ h x, delete x.1 h) (nodes s) xs.
Proof.
  intros R. pose proof R as [Hh _ Hl Hn].
  destruct (wp_ret_inv listDestroy (λ r s', r = 0 ∧ represents s' [] ∧ nodes s' = foldl (λ h x, delete x.1 h) (nodes s) xs) s) as (r & s' & E & -> & K);
    [|by exists s'].
  unfold listDestroy, head, visits. repeat wp_step. rewrite Hh. apply (wp_destroy_loop xs s 0); [done|done|by apply visits_enough|].
  repeat wp_step. split; [done|]. split; [|done]. exists []. split; [|done]. split; [done|done|done|apply NoDup_singleton].
Qed.

Lemma list_op_refines kmalloc op s l l' r : unused kmalloc → represents s l →
  spec_op (negb (kmalloc (nodes s) =? 0)) op l = Some (l', r) →
  wp (run_op kmalloc op) (λ r' s', r' = r ∧ represents s' l') (λ _, False) s.
Proof.
  intros F Hs E. pose proof Hs as (xs & R & <-).
  pose proof (visits_enough s xs R) as V. pose proof R as [Hh Ht _ _].
  destruct op; cbn [spec_op run_op] in *; unfold listFindFirst, listFindLast, listRemoveFirst, listRemoveLast, _listFind, _listRemove.
  - wp_step. apply (wp_os_insert_head kmalloc F s xs); [done|].
    destruct (kmalloc (nodes s) =? 0); cbn in E; injection E as <- <-; [wp_step; split; [done|by exists xs]|].
    intros s' R'. wp_step. split; [done|]. by eexists.
  - wp_step. apply (wp_os_insert_tail kmalloc F s xs); [done|].
    destruct (kmalloc (nodes s) =? 0); cbn in E; injection E as <- <-; [wp_step; split; [done|by exists xs]|].
    intros s' R'. wp_step. split; [done|]. eexists. split; [done|]. by rewrite fmap_app.
  - injection E as <- <-. rewrite decide_True by done. unfold head, visits. repeat wp_step. rewrite Hh.
    apply (wp_find_forward s key xs []); [done|done|]. split; [done|by exists xs].
  - injection E as <- <-. rewrite decide_False by done. unfold tail, visits. repeat wp_step. rewrite Ht.
    apply (wp_find_backward s key xs []); [by rewrite app_nil_r|done|]. split; [done|by exists xs].
  - injection E as <- <-. rewrite decide_False by done. unfold head, visits. repeat wp_step. rewrite Hh.
    apply (wp_remove_forward key xs s []); [done|done|]. intros s' ys' R' E'. split; [done|by exists ys'].
  - injection E as <- <-. rewrite decide_True by done. unfold tail, visits. repeat wp_step. rewrite Ht.
    apply (wp_remove_backward key xs s []); [by rewrite app_nil_r|done|]. intros s' ys' R' E'. rewrite app_nil_r in R'. split; [done|by exists ys'].
  - destruct (find_key key xs.*2) eqn:K; [done|]. injection E as <- <-. wp_step.
    apply wp_of_ret with 0 s; [by rewrite (remove_all_reads_freed s xs.*2 key Hs), K|]. wp_step. done.
  - apply (wp_os_remove_head s xs); [done|]. injection E as <- <-. destruct xs as [|x xs]; [split; [done|by exists []]|].
    intros s' R'. split; [done|by exists xs].
  - injection E as <- <-. destruct xs as [|x xs _] using rev_ind.
    + unfold listRemoveTail, _listRemoveEnd. rewrite decide_False by done. unfold tail. repeat wp_step. rewrite Ht. cbn [last_addr Z.eqb].
      wp_step. split; [done|by exists []].
    + apply (wp_os_remove_tail s xs x); [done|]. intros s' R'. rewrite fmap_app. change ([x].*2) with [x.2]. rewrite last_snoc. split; [done|]. exists xs.
      split; [done|]. by rewrite removelast_last.
  - injection E as <- <-. unfold listInit. repeat wp_step. split; [done|]. exists []. split; [|done]. split; [done|done|done|apply NoDup_singleton].
  - injection E as <- <-. destruct (list_destroy_frees s xs R) as (s' & Ed & R' & _). wp_step. by apply wp_of_ret with 0 s'; [|wp_step].
Qed.

(** C28. The linked list implements a sequence of keys with elements.  Each of its
    operations, on every list, returns: it finds or removes the first or last element
    with a key, inserts or removes at either end, empties the list, or reports that it
    cannot, and leaves a well-formed list of exactly the elements expected.  The
    exception is [listRemoveAll] with a key that is in the list, which always faults:
    it reads a node that it has freed. *)
Theorem list_refines kmalloc op s l : unused kmalloc → represents s l →
  match spec_op (negb (kmalloc (nodes s) =? 0)) op l with
  | Some (l', r) => ∃ s', run_op kmalloc op s = Ret r s' ∧ represents s' l'
  | None => (∃ k, op = RemoveAll k ∧ is_Some (find_key k l)) ∧ run_op kmalloc op s = Fault PageFault
  end.
Proof.
  intros F R. destruct (spec_op _ op l) as [[l' r]|] eqn:E.
  - destruct (wp_ret_inv _ _ _ (list_op_refines kmalloc op s l l' r F R E)) as (r' & s' & Er & -> & R'). by exists s'.
  - destruct op; try discriminate E. cbn [spec_op] in E. destruct (find_key key l) as [e|] eqn:K; [|done].
    split; [exists key; by rewrite K|]. cbn [run_op]. unfold bind. by rewrite (remove_all_reads_freed s l key R), K.
Qed.

(** An allocator that takes any free address. *)
Definition demo_kmalloc (h : gmap Z list_node_t) : Z := fresh ({[0]} ∪ dom h : gset Z).

Lemma demo_kmalloc_unused : unused demo_kmalloc.
Proof.
  intros h. right. apply not_elem_of_dom. unfold demo_kmalloc. intros H.
  apply (is_fresh ({[0]} ∪ dom h : gset Z)). apply elem_of_union. by right.
Qed.

Definition empty_list : lists := {| the_list := {| l_head := 0; l_tail := 0 |}; nodes := ∅ |}.

Lemma empty_represents : represents empty_list [].
Proof. exists []. split; [|done]. split; [done|done|done|]. apply NoDup_singleton. Qed.

(** Inserting into the empty list. *)
Lemma list_refines_witness : ∃ s', run_op demo_kmalloc (InsertHead 7 42) empty_list = Ret (0, None) s' ∧ represents s' [(7, 42)].
Proof. exact (list_refines demo_kmalloc (InsertHead 7 42) empty_list [] demo_kmalloc_unused empty_represents). Defined.

