(* ===== verification/Librust.v ===== *)
(** * The Rust bindings of the kernel: lib/librust/src

    Thread ids (types.rs), message headers and the messages of the kernel
    (message.rs), and the results of system calls (syscalls.rs).  The system
    calls themselves are assembly: [receive] starts from the registers they
    return with.  Bytes are numbers from 0 to 255; [None] is a panic. *)

From S2P Require Import Prelude.

(** ** Bytes *)

(** [from_le_bytes], of an unsigned type. *)
Definition from_le_bytes (l : list Z) : Z := foldr (λ b n, b + 256 * n) 0 l.

(** [value[a..b]] *)
Definition subslice (value : list Z) (a b : nat) : option (list Z) :=
  if (b <=? length value)%nat then Some (take (b - a) (drop a value)) else None.
Definition u16_at (value : list Z) (i : nat) : option Z := from_le_bytes <$> subslice value i (i + 2).
Definition u32_at (value : list Z) (i : nat) : option Z := from_le_bytes <$> subslice value i (i + 4).

Definition is_flag_cleared (flags flag : Z) : bool := Z.land flags flag =? 0.
Definition is_flag_set (flags flag : Z) : bool := negb (is_flag_cleared flags flag).

(** ** Thread ids *)

Definition CTID_NULL : Z := 0.

(** [Tid::new], [Tid::try_from]: a [Tid] is a number that is not null. *)
Definition Tid_new (id : Z) : option Z := if id =? CTID_NULL then None else Some id.

(** ** Messages *)

Record MessageHeader := { target : option Z; header_flags : Z; subject : Z }.

Definition HEADER_KERNEL : Z := 0x8000.
Definition MessageHeader_blank : MessageHeader := {| target := None; header_flags := 0; subject := 0 |}.

Definition EXCEPTION : Z := 0xFFFFFFFF.
Definition EXIT : Z := 0xFFFFFFFE.

Record ExceptionMessage := {
  eax : Z; ebx : Z; ecx : Z; edx : Z; esi : Z; edi : Z; ebp : Z; esp : Z;
  cs : Z; ds : Z; es : Z; fs : Z; gs : Z; ss : Z;
  eflags : Z; cr0 : Z; cr2 : Z; cr3 : Z; cr4 : Z; eip : Z; error_code : Z;
  fault_num : Z; processor_id : Z; who : Z
}.

(** [repr(C, align(16))]: the size is a multiple of the alignment. *)
Definition size_aligned (size align : Z) : Z := (size + align - 1) / align * align.
Definition size_of_ExceptionMessage : Z := size_aligned (8 * 4 + 6 * 2 + 7 * 4 + 1 + 1 + 2) 16.

(** [ExceptionMessage::try_from(&[u8])]; [inr tt] is [Err(())]. *)
Definition exception_try_from (value : list Z) : option (ExceptionMessage + unit) :=
  if Z.of_nat (length value) <? size_of_ExceptionMessage then Some (inr tt)
  else
    eax ← u32_at value 0; ebx ← u32_at value 4; ecx ← u32_at value 8; edx ← u32_at value 12;
    esi ← u32_at value 16; edi ← u32_at value 20; ebp ← u32_at value 24; esp ← u32_at value 28;
    cs ← u16_at value 32; ds ← u16_at value 34; es ← u16_at value 36; fs ← u16_at value 38;
    gs ← u16_at value 40; ss ← u16_at value 42;
    eflags ← u32_at value 44; cr0 ← u32_at value 48; cr2 ← u32_at value 52; cr3 ← u32_at value 56;
    cr4 ← u32_at value 60; eip ← u32_at value 64; error_code ← u32_at value 68;
    fault_num ← value !! 72%nat; processor_id ← value !! 73%nat; who ← u16_at value 74;
    Some (inl {| eax := eax; ebx := ebx; ecx := ecx; edx := edx; esi := esi; edi := edi; ebp := ebp; esp := esp;
                 cs := cs; ds := ds; es := es; fs := fs; gs := gs; ss := ss; eflags := eflags; cr0 := cr0; cr2 := cr2;
                 cr3 := cr3; cr4 := cr4; eip := eip; error_code := error_code; fault_num := fault_num;
                 processor_id := processor_id; who := who |}).

(** [From<[u8; 76]>]: the array has 76 bytes. *)
Definition exception_from (value : list Z) : option ExceptionMessage :=
  r ← exception_try_from value; match r with inl m => Some m | inr _ => None end.

Record ExitMessage := { exit_code : Z; exit_who : Z }.

Definition exit_try_from (value : list Z) : option (ExitMessage + unit) :=
  if (6 <=? length value)%nat then
    exit_code ← u32_at value 0; who ← u16_at value 4;
    Some (inl {| exit_code := i32 exit_code; exit_who := who |})
  else Some (inr tt).

Definition exit_from (value : list Z) : option ExitMessage :=
  r ← exit_try_from value; match r with inl m => Some m | inr _ => None end.

(** ** Results of system calls *)

Inductive SyscallError :=
  InvalidArgument | SyscallFailed | Unauthorized | InvalidSystemCall | SyscallNotImplemented | NotReady | Interrupted | Preempted
| PartiallyMapped (count : Z) | UnspecifiedError.

(** With the constants of the module [status]. *)
Definition syscall_result (value : Z) : Z + SyscallError :=
  if 0 <=? value then inl value
  else if value =? -1 then inr InvalidArgument
  else if value =? -2 then inr SyscallFailed
  else if value =? -3 then inr Unauthorized
  else if value =? -4 then inr InvalidSystemCall
  else if value =? -5 then inr SyscallNotImplemented
  else if value =? -6 then inr NotReady
  else if value =? -7 then inr Interrupted
  else if value =? -8 then inr Preempted
  else inr UnspecifiedError.

(** The arguments [receive] passes in EBX, ECX, EDX and EDI, for a buffer of
    [len] bytes at [ptr]. *)
Definition receive_args (header : MessageHeader) (ptr len : Z) : Z * Z * Z * Z :=
  (Z.lor (default CTID_NULL (target header)) (u32 (Z.shiftl (header_flags header) 16)), subject header, ptr, len).

(** [receive] after the system call, from the registers EAX, EBX, ESI and EDI:
    the new header and the number of bytes. *)
Definition receive_result (eax ebx esi edi : Z) : MessageHeader * (Z + SyscallError) :=
  ({| target := Tid_new (u16 ebx); header_flags := u16 (Z.shiftr ebx 16); subject := esi |},
   match syscall_result (i32 eax) with inl _ => inl edi | inr e => inr e end).
