(* ===== verification/Region.v ===== *)
(** * Regions of memory: servers/init_server/src/region.rs

    A region is the interval from [start] to [end_]; as an end, 0 stands for the
    end of memory, so that 0 to 0 is all of it.  The type of addresses is an
    unsigned integer of [w] bits.  [None] is a panic: a failed [unwrap], or
    arithmetic overflow in the build the Makefile makes.  A set of regions is
    the vector of them.

    The denotation of a region is the set of addresses it [contains]; the
    theorems relate the operations to those of sets. *)

From S2P Require Import Prelude.

Record MemoryRegion := mkRegion { start : Z; end_ : Z }.

#[export] Instance MemoryRegion_eq_dec : EqDecision MemoryRegion.
Proof. solve_decision. Defined.

Definition memory_start : Z := 0.
Definition memory_end : Z := 0.

(** ** Operations on regions *)

Definition partial_cmp (self other : MemoryRegion) : comparison :=
  if start self <? start other then Lt
  else if start other <? start self then Gt
  else if end_ self <? end_ other then (if negb (end_ self =? memory_end) then Lt else Gt)
  else if end_ other <? end_ self then (if negb (end_ other =? memory_end) then Gt else Lt)
  else Eq.

Definition region_new (start end_ : Z) : MemoryRegion :=
  mkRegion start (if (end_ <? start) && negb (end_ =? memory_end) then start else end_).

Definition full_region : MemoryRegion := region_new memory_start memory_end.

Definition is_full_region (self : MemoryRegion) : bool :=
  (start self =? memory_start) && (end_ self =? memory_end).

(** The length, or the error [Overflow]; [!start + 1] of [w] bits. *)
Definition length_of (w : Z) (self : MemoryRegion) : option Z :=
  if is_full_region self then None
  else if end_ self =? memory_end then Some (2 ^ w - 1 - start self + 1)
  else Some (end_ self - start self).

Definition is_adjacent (self other : MemoryRegion) : bool :=
  ((end_ self =? start other) || (end_ other =? start self)) &&
  negb (is_full_region self) && negb (is_full_region other).

Definition overlaps (self other : MemoryRegion) : bool :=
  is_full_region self || is_full_region other
  || (start self <=? start other) && ((start other <? end_ self) || (end_ self =? memory_end))
  || (start other <=? start self) && ((start self <? end_ other) || (end_ other =? memory_end)).

Definition contains (self : MemoryRegion) (address : Z) : bool :=
  is_full_region self
  || (start self <=? address) && ((address <? end_ self) || (end_ self =? memory_end)).

Definition clone (self : MemoryRegion) : MemoryRegion := region_new (start self) (end_ self).

Abbreviation RegionSet := (list MemoryRegion).

Definition region_union (self other : MemoryRegion) : RegionSet :=
  let s := Z.min (start self) (start other) in
  let e := if (end_ self =? memory_end) || (end_ other =? memory_end) then memory_end
           else Z.max (end_ self) (end_ other) in
  if is_adjacent self other || overlaps self other then [region_new s e]
  else [clone self; clone other].

Definition join (self other : MemoryRegion) : option MemoryRegion :=
  match region_union self other with
  | [r] => Some r
  | _ => None
  end.

Definition region_complement (self : MemoryRegion) : RegionSet :=
  if negb (start self =? memory_start) then
    if negb (end_ self =? memory_end) then
      [region_new memory_start (start self); region_new (end_ self) memory_end]
    else [region_new memory_start (start self)]
  else if negb (end_ self =? memory_end) then [region_new (end_ self) memory_end]
  else [].

Definition region_intersection (self other : MemoryRegion) : RegionSet :=
  if negb (overlaps self other) then []
  else
    let s := Z.max (start self) (start other) in
    let e := if end_ self =? memory_end then end_ other
             else if end_ other =? memory_end then end_ self
             else Z.min (end_ self) (end_ other) in
    [region_new s e].

Definition region_difference (self other : MemoryRegion) : option RegionSet :=
  match region_complement other with
  | [] => Some []
  | [c] => Some (region_intersection self c)
  | [c1; c2] => Some (region_intersection self c1 ++ region_intersection self c2)
  | _ => None
  end.

(** ** Operations on sets of regions *)

Definition set_intersection (self other : RegionSet) : RegionSet :=
  flat_map (λ region, omap (λ region2,
    match region_intersection region region2 with [r] => Some r | _ => None end) other) self.

(** Overlapping or adjacent: what the partitions ask. *)
Definition touches (a b : MemoryRegion) : bool := overlaps a b || is_adjacent a b.

(** The fold of [acc.join(region2).unwrap()]. *)
Fixpoint join_all (acc : MemoryRegion) (rs : list MemoryRegion) : option MemoryRegion :=
  match rs with
  | [] => Some acc
  | r :: rs => match join acc r with Some acc => join_all acc rs | None => None end
  end.

Fixpoint union_loop (new_regions other_regions : list MemoryRegion) : option (list MemoryRegion) :=
  match new_regions with
  | [] => Some other_regions
  | region :: rest =>
      match other_regions with
      | [] => Some new_regions
      | _ =>
          match join_all region (filter (λ o, touches region o = true) other_regions) with
          | None => None
          | Some joined =>
              match union_loop rest (filter (λ o, touches region o = false) other_regions) with
              | None => None
              | Some rs => Some (joined :: rs)
              end
          end
      end
  end.
Definition set_union (self other : RegionSet) : option RegionSet :=
  union_loop (clone <$> self) (clone <$> other).

Definition set_complement (self : RegionSet) : RegionSet :=
  fold_left set_intersection (region_complement <$> self) [full_region].

Definition set_insert (self : RegionSet) (new_region : MemoryRegion) : option RegionSet :=
  match join_all new_region (filter (λ r, touches new_region r = true) self) with
  | None => None
  | Some r => Some (filter (λ r, touches new_region r = false) self ++ [r])
  end.

Definition set_new (rs : list MemoryRegion) : option RegionSet :=
  fold_left (λ acc r, match acc with Some s => set_union s [r] | None => None end) rs (Some []).

(** ** Denotations *)

Section denotation.
Context (w : Z).
Hypothesis Hw : 0 < w.

(** A region of [w]-bit addresses, as [region_new] makes them. *)
Definition region_wf (r : MemoryRegion) : Prop :=
  0 <= start r < 2 ^ w ∧ 0 <= end_ r < 2 ^ w ∧ (end_ r = 0 ∨ start r <= end_ r).

Definition set_wf (rs : RegionSet) : Prop := Forall region_wf rs.

(** The end, as an address or as the size of memory. *)
Definition bound (r : MemoryRegion) : Z := if end_ r =? 0 then 2 ^ w else end_ r.

Definition member (rs : RegionSet) (a : Z) : Prop := ∃ r, r ∈ rs ∧ contains r a = true.

Definition address (a : Z) : Prop := 0 <= a < 2 ^ w.
End denotation.

Ltac region_unfold :=
  unfold region_new, contains, overlaps, is_adjacent, is_full_region, region_wf, bound, address, memory_start,
    memory_end in *.

Ltac region_cases :=
  repeat match goal with
  | |- context [?x =? ?y] => destruct (Z.eqb_spec x y)
  | |- context [?x <? ?y] => destruct (Z.ltb_spec x y)
  | |- context [?x <=? ?y] => destruct (Z.leb_spec x y)
  | H : context [?x =? ?y] |- _ => destruct (Z.eqb_spec x y)
  | H : context [?x <? ?y] |- _ => destruct (Z.ltb_spec x y)
  | H : context [?x <=? ?y] |- _ => destruct (Z.leb_spec x y)
  end; cbn [andb orb negb] in *.

(** A region is an interval. *)
Lemma contains_iff w r a : region_wf w r → address w a →
  contains r a = true ↔ start r <= a < bound w r.
Proof. intros H Ha. destruct r as [s e]. region_unfold. cbn [start end_] in *. region_cases; split; intros; try done; lia. Qed.

Lemma region_new_wf w s e : 0 <= s < 2 ^ w → 0 <= e < 2 ^ w → region_wf w (region_new s e).
Proof. intros. region_unfold. cbn [start end_]. region_cases; lia. Qed.

Lemma region_new_id w r : region_wf w r → region_new (start r) (end_ r) = r.
Proof. intros H. destruct r as [s e]. region_unfold. cbn [start end_] in *. f_equal. region_cases; lia. Qed.

Lemma clone_id w r : region_wf w r → clone r = r.
Proof. apply region_new_id. Qed.

Lemma clone_ids w rs : set_wf w rs → clone <$> rs = rs.
Proof. intros H. induction H as [|r rs Hr _ IH]; [done|]. cbn. by rewrite IH, (clone_id w). Qed.

Lemma overlaps_sym a b : overlaps a b = overlaps b a.
Proof. unfold overlaps. btauto. Qed.

Lemma is_adjacent_sym a b : is_adjacent a b = is_adjacent b a.
Proof. unfold is_adjacent. btauto. Qed.

(** Nothing but [r] and [s] contain; overlapping means a common address, up to
    empty regions. *)
Lemma overlaps_false w r s a : region_wf w r → region_wf w s → address w a →
  overlaps r s = false → contains r a = true → contains s a = true → False.
Proof.
  intros Hr Hs Ha O. rewrite !(contains_iff w) by done. destruct r as [r1 r2], s as [s1 s2].
  region_unfold. cbn [start end_] in *. region_cases; try done; lia.
Qed.

Lemma member_nil a : member [] a ↔ False.
Proof. split; [|done]. intros (r & H & _). by apply not_elem_of_nil in H. Qed.

Lemma member_cons r rs a : member (r :: rs) a ↔ contains r a = true ∨ member rs a.
Proof. unfold member. setoid_rewrite elem_of_cons. naive_solver. Qed.

Lemma member_app rs ts a : member (rs ++ ts) a ↔ member rs a ∨ member ts a.
Proof. unfold member. setoid_rewrite elem_of_app. naive_solver. Qed.

Lemma member_one r a : member [r] a ↔ contains r a = true.
Proof. rewrite member_cons, member_nil. tauto. Qed.

Create Rewrite HintDb member.
#[local] Hint Rewrite member_nil member_cons member_app member_one : member.

Lemma region_intersection_wf w r s : region_wf w r → region_wf w s → set_wf w (region_intersection r s).
Proof.
  intros (R1 & R2 & _) (S1 & S2 & _). unfold region_intersection, memory_end.
  destruct (overlaps r s); cbn [negb]; [|constructor]. constructor; [|constructor].
  apply region_new_wf; [lia|]. region_cases; lia.
Qed.

Lemma region_intersection_member w r s a :
  region_wf w r → region_wf w s → address w a →
  member (region_intersection r s) a ↔ contains r a = true ∧ contains s a = true.
Proof.
  intros Hr Hs Ha. pose proof (region_intersection_wf w r s Hr Hs) as W. revert W.
  unfold region_intersection. destruct (overlaps r s) eqn:O; cbn [negb]; intros W.
  - apply Forall_inv in W. rewrite member_one, !(contains_iff w) by done.
    clear O W. destruct r as [r1 r2], s as [s1 s2]. region_unfold. cbn [start end_] in *. region_cases; lia.
  - rewrite member_nil. split; [done|]. intros [H1 H2]. by eapply (overlaps_false w r s a).
Qed.

Lemma region_complement_member w r a :
  region_wf w r → address w a → member (region_complement r) a ↔ contains r a = false.
Proof.
  intros Hr Ha. rewrite <- not_true_iff_false, (contains_iff w) by done. unfold region_complement.
  destruct r as [r1 r2]. region_unfold. cbn [start end_] in *. region_cases; autorewrite with member;
    unfold contains, is_full_region, memory_start, memory_end; cbn [start end_]; region_cases; lia.
Qed.

Lemma region_complement_wf w r : region_wf w r → set_wf w (region_complement r).
Proof.
  intros (R1 & R2 & _). unfold region_complement, memory_start, memory_end.
  region_cases; unfold set_wf; rewrite ?Forall_cons; split_and?; try apply Forall_nil_2; apply region_new_wf; lia.
Qed.

(** ** Sets: intersection, complement and difference *)

Lemma region_intersection_one r s :
  region_intersection r s = [] ∨ ∃ t, region_intersection r s = [t].
Proof. unfold region_intersection. destruct (overlaps r s); [right; by eexists|by left]. Qed.

Lemma set_intersection_elem rs ss t :
  t ∈ set_intersection rs ss ↔ ∃ r s, r ∈ rs ∧ s ∈ ss ∧ region_intersection r s = [t].
Proof.
  unfold set_intersection. rewrite list_elem_of_In, in_flat_map. setoid_rewrite <- list_elem_of_In.
  setoid_rewrite list_elem_of_omap. split.
  - intros (r & Hr & s & Hs & E). exists r, s. split; [done|]. split; [done|].
    destruct (region_intersection_one r s) as [F|[u F]]; rewrite F in *; naive_solver.
  - intros (r & s & Hr & Hs & E). exists r. split; [done|]. exists s. by rewrite E.
Qed.

Lemma set_intersection_wf w rs ss : set_wf w rs → set_wf w ss → set_wf w (set_intersection rs ss).
Proof.
  unfold set_wf. rewrite !Forall_forall. intros R S t. rewrite set_intersection_elem.
  intros (r & s & Hr & Hs & E). pose proof (region_intersection_wf w r s (R _ Hr) (S _ Hs)) as W.
  rewrite E in W. by apply Forall_inv in W.
Qed.

Lemma set_intersection_member w rs ss a :
  set_wf w rs → set_wf w ss → address w a →
  member (set_intersection rs ss) a ↔ member rs a ∧ member ss a.
Proof.
  unfold set_wf. rewrite !Forall_forall. intros R S Ha.
  assert (I : ∀ r s, r ∈ rs → s ∈ ss →
    member (region_intersection r s) a ↔ contains r a = true ∧ contains s a = true).
  { intros r s Hr Hs. apply (region_intersection_member w); auto. }
  split.
  - intros (t & Ht & Ct). apply set_intersection_elem in Ht as (r & s & Hr & Hs & E).
    destruct (I r s Hr Hs) as [K _]. rewrite E, member_one in K. destruct (K Ct).
    split; [by exists r|by exists s].
  - intros [(r & Hr & Cr) (s & Hs & Cs)]. destruct (I r s Hr Hs) as [_ (t & Ht & Ct)]; [done|].
    exists t. split; [|done]. apply set_intersection_elem. exists r, s. split_and!; try done.
    destruct (region_intersection_one r s) as [F|[u F]]; rewrite F in *.
    + by apply not_elem_of_nil in Ht.
    + apply list_elem_of_singleton in Ht. by subst.
Qed.

Lemma full_region_wf w : 0 < w → region_wf w full_region.
Proof. intros. assert (0 < 2 ^ w) by lia. unfold full_region. apply region_new_wf; unfold memory_start, memory_end; lia. Qed.

Lemma fold_intersection w cs : ∀ acc,
  set_wf w acc → Forall (set_wf w) cs →
  set_wf w (fold_left set_intersection cs acc) ∧
  ∀ a, address w a → member (fold_left set_intersection cs acc) a ↔ member acc a ∧ Forall (λ c, member c a) cs.
Proof.
  induction cs as [|c cs IH]; intros acc A C; cbn [fold_left].
  - split; [done|]. intros a Ha. rewrite Forall_nil. tauto.
  - apply Forall_cons in C as [Hc C]. destruct (IH (set_intersection acc c)) as [W M]; [by apply set_intersection_wf|done|].
    split; [done|]. intros a Ha. rewrite M, (set_intersection_member w), Forall_cons by done. tauto.
Qed.

Lemma set_wf_elem w rs r : set_wf w rs → r ∈ rs → region_wf w r.
Proof. unfold set_wf. rewrite Forall_forall. auto. Qed.

Lemma set_complement_spec w rs : 0 < w → set_wf w rs →
  set_wf w (set_complement rs) ∧ ∀ a, address w a → member (set_complement rs) a ↔ ¬ member rs a.
Proof.
  intros Hw R. unfold set_complement. destruct (fold_intersection w (region_complement <$> rs) [full_region]) as [W M].
  - constructor; [by apply full_region_wf|constructor].
  - rewrite Forall_fmap. eapply Forall_impl; [exact R|]. apply region_complement_wf.
  - split; [done|]. intros a Ha. rewrite M, member_one, Forall_fmap, Forall_forall by done. unfold compose. split.
    + intros [_ F] (t & Ht & Ct). specialize (F t Ht).
      rewrite (region_complement_member w) in F; [congruence|by apply (set_wf_elem w rs)|done].
    + intros N. split; [done|]. intros t Ht. apply (region_complement_member w); [by apply (set_wf_elem w rs)|done|].
      destruct (contains t a) eqn:E; [|done]. destruct N. by exists t.
Qed.

Lemma region_difference_spec w r s : region_wf w r → region_wf w s →
  ∃ d, region_difference r s = Some d ∧ set_wf w d ∧
    ∀ a, address w a → member d a ↔ contains r a = true ∧ contains s a = false.
Proof.
  intros Hr Hs. pose proof (region_complement_wf w s Hs) as W. pose proof (region_complement_member w s) as K.
  unfold region_difference. destruct (region_complement s) as [|c [|c' [|]]] eqn:E.
  - exists []. split; [done|]. split; [constructor|]. intros a Ha. rewrite <- K, !member_nil by done. tauto.
  - apply Forall_inv in W. eexists. split; [done|]. split; [by apply region_intersection_wf|]. intros a Ha.
    rewrite (region_intersection_member w), <- K, member_one by done. done.
  - apply Forall_cons in W as [W1 W2]. apply Forall_inv in W2. eexists. split; [done|].
    split; [apply Forall_app; split; by apply region_intersection_wf|]. intros a Ha.
    rewrite member_app, !(region_intersection_member w), <- K, member_cons, member_one by done. tauto.
  - exfalso. revert E. unfold region_complement. by repeat case_match.
Qed.

(** C33. The complement of a set of regions contains exactly the addresses the set
    does not contain; the intersection of two sets the addresses of both; and
    the difference of two regions those of the first that the second does not
    contain.  The results are sets of well-formed regions. *)
Theorem region_set_algebra w rs ss r s a :
  0 < w → set_wf w rs → set_wf w ss → region_wf w r → region_wf w s → address w a →
  (set_wf w (set_complement rs) ∧ (member (set_complement rs) a ↔ ¬ member rs a)) ∧
  (set_wf w (set_intersection rs ss) ∧ (member (set_intersection rs ss) a ↔ member rs a ∧ member ss a)) ∧
  ∃ d, region_difference r s = Some d ∧ set_wf w d ∧ (member d a ↔ contains r a = true ∧ contains s a = false).
Proof.
  intros Hw R S Hr Hs Ha. split_and!.
  - by apply (set_complement_spec w rs Hw R).
  - by apply (set_complement_spec w rs Hw R).
  - by apply set_intersection_wf.
  - by apply (set_intersection_member w).
  - destruct (region_difference_spec w r s Hr Hs) as (d & E & W & M). exists d. auto.
Qed.

Lemma region_set_algebra_witness :
  (set_wf 32 (set_complement [region_new 0x1000 0x3000]) ∧
     (member (set_complement [region_new 0x1000 0x3000]) 0x3000 ↔ ¬ member [region_new 0x1000 0x3000] 0x3000)) ∧
  (set_wf 32 (set_intersection [region_new 0x1000 0x3000] [region_new 0x2000 0]) ∧
     (member (set_intersection [region_new 0x1000 0x3000] [region_new 0x2000 0]) 0x3000 ↔
     member [region_new 0x1000 0x3000] 0x3000 ∧ member [region_new 0x2000 0] 0x3000)) ∧
  ∃ d, region_difference (region_new 0x1000 0x3000) (region_new 0x2000 0x2800) = Some d ∧ set_wf 32 d ∧
    (member d 0x3000 ↔ contains (region_new 0x1000 0x3000) 0x3000 = true ∧
      contains (region_new 0x2000 0x2800) 0x3000 = false).
Proof.
  apply (region_set_algebra 32); try done; try lia; repeat apply Forall_cons_2; try apply Forall_nil_2;
    apply region_new_wf; lia.
Defined.

(** ** Union *)

(** Two regions touch if the closed intervals meet, or around the end of memory. *)
Definition around (r s : MemoryRegion) : Prop := end_ r = 0 ∧ start s = 0 ∨ end_ s = 0 ∧ start r = 0.

Lemma touches_iff w r s : region_wf w r → region_wf w s →
  touches r s = true ↔ start r <= bound w s ∧ start s <= bound w r ∨ around r s.
Proof.
  intros Hr Hs. unfold touches, around. destruct r as [r1 r2], s as [s1 s2]. region_unfold. cbn [start end_] in *.
  region_cases; split; intros; try done; lia.
Qed.

Lemma join_spec w r s : region_wf w r → region_wf w s → touches r s = true →
  ∃ j, join r s = Some j ∧ region_wf w j ∧ start j = Z.min (start r) (start s) ∧
    bound w j = Z.max (bound w r) (bound w s).
Proof.
  intros Hr Hs T. unfold join, region_union. unfold touches in T. rewrite orb_comm in T. rewrite T.
  eexists. split; [done|]. clear T. destruct r as [r1 r2], s as [s1 s2]. region_unfold. cbn [start end_] in *.
  region_cases; lia.
Qed.

(** No region starts at 0, or none ends at the end of memory: nothing meets
    around it. *)
Definition no_wrap (rs : list MemoryRegion) : Prop :=
  Forall (λ r, start r ≠ 0) rs ∨ Forall (λ r, end_ r ≠ 0) rs.

Lemma no_wrap_sub rs ss : (∀ r, r ∈ ss → r ∈ rs) → no_wrap rs → no_wrap ss.
Proof. unfold no_wrap. rewrite !Forall_forall. naive_solver. Qed.

Lemma no_wrap_meets w rs r s : no_wrap rs → r ∈ rs → s ∈ rs → region_wf w r → region_wf w s →
  touches r s = true → start r <= bound w s ∧ start s <= bound w r.
Proof.
  intros N Hr Hs Wr Ws T. apply (touches_iff w) in T as [T|T]; [done| |done..]. exfalso. unfold around in T.
  unfold no_wrap in N. rewrite !Forall_forall in N. naive_solver.
Qed.

Lemma bound_end w r : 0 < w → region_wf w r → bound w r = 2 ^ w ↔ end_ r = 0.
Proof. intros Hw (R1 & R2 & R3). unfold bound. destruct (Z.eqb_spec (end_ r) 0); lia. Qed.

(** A region that covers [r] touches what [r] touches. *)
Lemma touches_mono w r j o : 0 < w → region_wf w r → region_wf w j → region_wf w o →
  start j <= start r → bound w r <= bound w j → touches r o = true → touches j o = true.
Proof.
  intros Hw Wr Wj Wo S B. rewrite !(touches_iff w) by done. unfold around.
  pose proof (bound_end w r Hw Wr). pose proof (bound_end w j Hw Wj).
  destruct Wr as (R1 & R2 & R3), Wj as (J1 & J2 & J3), Wo as (O1 & O2 & O3). unfold bound in *.
  destruct (Z.eqb_spec (end_ r) 0), (Z.eqb_spec (end_ j) 0), (Z.eqb_spec (end_ o) 0); lia.
Qed.

Lemma join_no_wrap w r s j rs : 0 < w → region_wf w r → region_wf w s → region_wf w j →
  start j = Z.min (start r) (start s) → bound w j = Z.max (bound w r) (bound w s) →
  no_wrap (r :: s :: rs) → no_wrap (j :: rs).
Proof.
  intros Hw Wr Ws Wj S B. unfold no_wrap. rewrite !Forall_cons.
  rewrite <- !(bound_end w) by done. intros [(N1 & N2 & N)|(N1 & N2 & N)]; [left|right]; (split; [|done]); lia.
Qed.

Lemma bound_range w r : region_wf w r → 0 <= start r <= bound w r ∧ bound w r <= 2 ^ w.
Proof. intros (R1 & R2 & R3). unfold bound. destruct (Z.eqb_spec (end_ r) 0); lia. Qed.

(** What touches the join of two regions touches one of them. *)
Lemma join_touches w r s j o : 0 < w → region_wf w r → region_wf w s → region_wf w j → region_wf w o →
  start j = Z.min (start r) (start s) → bound w j = Z.max (bound w r) (bound w s) →
  start r <= bound w s → start s <= bound w r →
  touches j o = true → touches r o = true ∨ touches s o = true.
Proof.
  intros Hw Wr Ws Wj Wo S B H1 H2. rewrite !(touches_iff w) by done. unfold around.
  rewrite <- !(bound_end w) by done. rewrite S, B.
  apply bound_range in Wr, Ws, Wo. clear S B Wj Hw.
  destruct (Z.le_gt_cases (start r) (start s)), (Z.le_gt_cases (bound w r) (bound w s)); lia.
Qed.

(** Joining a region with regions that touch it. *)
Lemma join_all_spec w rs : ∀ acc, 0 < w → region_wf w acc → set_wf w rs → Forall (λ r, touches acc r = true) rs →
  ∃ j, join_all acc rs = Some j ∧ region_wf w j ∧ start j <= start acc ∧ bound w acc <= bound w j ∧
    (no_wrap (acc :: rs) →
     (∀ a, address w a → contains j a = true ↔ contains acc a = true ∨ member rs a) ∧
     (∀ o, region_wf w o → touches j o = true → touches acc o = true ∨ ∃ r, r ∈ rs ∧ touches r o = true)).
Proof.
  induction rs as [|r rs IH]; intros acc Hw Wa Wr T; cbn [join_all].
  { exists acc. split_and!; try done; [lia..|]. intros _. split; [|naive_solver]. intros a _. rewrite member_nil. tauto. }
  apply Forall_cons in Wr as [W0 Wr]. apply Forall_cons in T as [T0 T].
  destruct (join_spec w acc r Wa W0 T0) as (j & E & Wj & Sj & Bj). rewrite E.
  destruct (IH j Hw Wj Wr) as (k & Ek & Wk & Sk & Bk & Mk).
  { unfold set_wf in Wr. rewrite Forall_forall in *. intros o Ho. specialize (T o Ho).
    eapply (touches_mono w acc); try done; [by apply Wr|lia..]. }
  exists k. split_and!; try done; [lia..|]. intros N.
  pose proof (join_no_wrap w acc r j rs Hw Wa W0 Wj Sj Bj N) as Nj.
  assert (Ht : start acc <= bound w r ∧ start r <= bound w acc).
  { apply (no_wrap_meets w (acc :: r :: rs)); try done; rewrite !elem_of_cons; auto. }
  destruct (Mk Nj) as [M1 M2]. split.
  - intros a Ha. rewrite M1, member_cons, !(contains_iff w), Sj, Bj by done.
    assert (Z.min (start acc) (start r) <= a < Z.max (bound w acc) (bound w r) ↔
      start acc <= a < bound w acc ∨ start r <= a < bound w r) by lia. tauto.
  - intros o Wo To. destruct (M2 o Wo To) as [Tj|(r' & Hr' & Tr)].
    + destruct (join_touches w acc r j o) as [K|K]; try done; try tauto.
      right. exists r. split; [by left|done].
    + right. exists r'. split; [by right|done].
Qed.

Lemma member_filter rs a (P : MemoryRegion → bool) :
  member (filter (λ r, P r = true) rs) a ∨ member (filter (λ r, P r = false) rs) a ↔ member rs a.
Proof.
  unfold member. setoid_rewrite list_elem_of_filter. split; [naive_solver|].
  intros (r & Hr & C). destruct (P r) eqn:E; naive_solver.
Qed.

Lemma set_wf_filter w rs (P : MemoryRegion → Prop) `{!∀ r, Decision (P r)} : set_wf w rs → set_wf w (filter P rs).
Proof. unfold set_wf. rewrite !Forall_forall. intros F r Hr. apply list_elem_of_filter in Hr as [_ Hr]. auto. Qed.

Lemma Forall_touches r rs : Forall (λ o, touches r o = true) (filter (λ o, touches r o = true) rs).
Proof. apply Forall_forall. intros o Ho. by apply list_elem_of_filter in Ho as [Ho _]. Qed.

Lemma union_loop_spec w rs : ∀ os, 0 < w → set_wf w rs → set_wf w os →
  ∃ us, union_loop rs os = Some us ∧ set_wf w us ∧
    (no_wrap (rs ++ os) → ∀ a, address w a → member us a ↔ member rs a ∨ member os a).
Proof.
  induction rs as [|r rs IH]; intros os Hw R O; cbn [union_loop].
  { exists os. split_and!; try done. intros _ a _. rewrite member_nil. tauto. }
  destruct os as [|o os']; [|set (os := o :: os') in *; clearbody os].
  { exists (r :: rs). split_and!; try done. intros _ a _. rewrite member_nil. tauto. }
  apply Forall_cons in R as [Wr R].
  destruct (join_all_spec w (filter (λ o, touches r o = true) os) r) as (j & Ej & Wj & _ & _ & Mj);
    [done|done|by apply set_wf_filter|apply Forall_touches|]. rewrite Ej.
  destruct (IH (filter (λ o, touches r o = false) os)) as (us & Eu & Wu & Mu); [done..|by apply set_wf_filter|].
  rewrite Eu. exists (j :: us). split_and!; [done|by constructor|]. intros N a Ha.
  rewrite member_cons, Mu, member_cons; [|eapply no_wrap_sub, N|done].
  - destruct Mj as [Mj _]; [eapply no_wrap_sub, N|].
    { intros x. rewrite elem_of_cons, list_elem_of_filter, elem_of_app, elem_of_cons. tauto. }
    rewrite Mj, <- (member_filter os a (touches r)) by done. tauto.
  - intros x. rewrite !elem_of_app, list_elem_of_filter, elem_of_cons. tauto.
Qed.

(** The union of two sets of regions never panics and contains exactly the
    addresses of the two sets, if no region starts at address 0 or none reaches
    the end of memory. *)
Theorem set_union_member w rs ss :
  0 < w → set_wf w rs → set_wf w ss →
  ∃ us, set_union rs ss = Some us ∧ set_wf w us ∧
    (no_wrap (rs ++ ss) → ∀ a, address w a → member us a ↔ member rs a ∨ member ss a).
Proof.
  intros Hw R S. unfold set_union. rewrite !(clone_ids w) by done. by apply union_loop_spec.
Qed.

Lemma set_union_member_witness : ∃ us,
  set_union [region_new 0x1000 0x2000] [region_new 0x1800 0x3000; region_new 0x8000 0] = Some us ∧
  (member us 0x2fff ↔ member [region_new 0x1000 0x2000] 0x2fff ∨
    member [region_new 0x1800 0x3000; region_new 0x8000 0] 0x2fff).
Proof.
  destruct (set_union_member 32 [region_new 0x1000 0x2000] [region_new 0x1800 0x3000; region_new 0x8000 0])
    as (us & E & _ & M); [lia|repeat apply Forall_cons_2; try apply Forall_nil_2; apply region_new_wf; lia..|].
  exists us. split; [exact E|]. apply M; [|unfold address; lia]. left. by repeat constructor.
Defined.

(** Adjacency does not take into account that the end of memory is written as
    0: a region up to the end of memory and a region that starts at 0 are joined
    to all of memory. *)
Theorem region_union_wraps w r s :
  region_wf w r → region_wf w s → end_ r = 0 → start s = 0 → is_full_region r = false →
  region_union r s = [full_region].
Proof.
  intros Wr Ws Er Es Fr. unfold region_union. destruct (is_full_region s) eqn:Fs.
  - assert (O : overlaps r s = true) by (unfold overlaps; rewrite Fs; btauto). rewrite O, orb_true_r, Er, Es.
    destruct Wr as [? _]. cbn [Z.eqb orb memory_end]. by rewrite Z.min_r by lia.
  - assert (A : is_adjacent r s = true) by (unfold is_adjacent; rewrite Fr, Fs, Er, Es; done).
    rewrite A, Er, Es. destruct Wr as [? _]. cbn [Z.eqb orb memory_end]. by rewrite Z.min_r by lia.
Qed.

Lemma region_union_wraps_witness :
  region_union (region_new 0xf0000000 0) (region_new 0 0x1000) = [full_region] ∧
  contains full_region 0x80000000 = true ∧ contains (region_new 0xf0000000 0) 0x80000000 = false ∧
  contains (region_new 0 0x1000) 0x80000000 = false.
Proof.
  split; [|split_and!; reflexivity]. apply (region_union_wraps 32); try done; apply region_new_wf; lia.
Defined.

(** The regions of a set do not touch one another. *)
Fixpoint separate (rs : RegionSet) : Prop :=
  match rs with
  | [] => True
  | r :: rs => Forall (λ s, touches r s = false) rs ∧ separate rs
  end.

Lemma touches_sym r s : touches r s = touches s r.
Proof. unfold touches. by rewrite overlaps_sym, is_adjacent_sym. Qed.

Lemma separate_elem rs r s : separate rs → r ∈ rs → s ∈ rs → r ≠ s → touches r s = false.
Proof.
  induction rs as [|t rs IH]; cbn [separate]; [by intros _ ?%not_elem_of_nil|].
  rewrite Forall_forall, !elem_of_cons. intros [F S] [->|Hr] [->|Hs] N; try done; auto.
  rewrite touches_sym. auto.
Qed.

Lemma separate_filter (P : MemoryRegion → Prop) `{!∀ r, Decision (P r)} rs : separate rs → separate (filter P rs).
Proof.
  induction rs as [|r rs IH]; cbn [separate]; [done|]. rewrite Forall_forall. intros [F S]. rewrite filter_cons.
  case_decide; [|auto]. split; [|auto]. apply Forall_forall. intros s Hs. apply list_elem_of_filter in Hs as [_ Hs]. auto.
Qed.

Lemma separate_snoc rs r : separate rs → Forall (λ s, touches s r = false) rs → separate (rs ++ [r]).
Proof.
  induction rs as [|s rs IH]; cbn [separate app]; [by repeat constructor|].
  intros [F S] G. apply Forall_cons in G as [G0 G]. split; [|auto]. apply Forall_app. split; [done|]. by apply Forall_singleton.
Qed.

Lemma set_insert_wf w rs r : 0 < w → set_wf w rs → region_wf w r → ∃ rs', set_insert rs r = Some rs' ∧ set_wf w rs'.
Proof.
  intros Hw R Wr. unfold set_insert.
  destruct (join_all_spec w (filter (λ o, touches r o = true) rs) r) as (j & Ej & Wj & _);
    [done|done|by apply set_wf_filter|apply Forall_touches|]. rewrite Ej.
  eexists. split; [done|]. apply Forall_app; split; [by apply set_wf_filter|by apply Forall_singleton].
Qed.

(** Inserting a region into a set never panics; if no region starts at
    address 0 or none reaches the end of memory, the set then also contains the
    addresses of the region and no others, and regions that do not touch one
    another still do not. *)
Theorem set_insert_spec w rs r :
  0 < w → set_wf w rs → region_wf w r →
  ∃ rs', set_insert rs r = Some rs' ∧ set_wf w rs' ∧
    (no_wrap (r :: rs) → (∀ a, address w a → member rs' a ↔ member rs a ∨ contains r a = true) ∧
       (separate rs → separate rs')).
Proof.
  intros Hw R Wr. unfold set_insert.
  destruct (join_all_spec w (filter (λ o, touches r o = true) rs) r) as (j & Ej & Wj & _ & _ & Mj);
    [done|done|by apply set_wf_filter|apply Forall_touches|]. rewrite Ej.
  eexists. split; [done|]. split; [apply Forall_app; split; [by apply set_wf_filter|by apply Forall_singleton]|].
  intros N. destruct Mj as [M1 M2]; [eapply no_wrap_sub, N|].
  { intros x. rewrite !elem_of_cons, list_elem_of_filter. tauto. }
  split.
  - intros a Ha. rewrite member_app, member_one, M1, <- (member_filter rs a (touches r)) by done. tauto.
  - intros S. apply separate_snoc; [by apply separate_filter|]. apply Forall_forall. intros o Ho.
    apply list_elem_of_filter in Ho as [To Ho]. rewrite touches_sym.
    destruct (touches j o) eqn:Tj; [|done]. destruct (M2 o) as [K|(x & Hx & K)]; [by apply (set_wf_elem w rs)|done| |].
    + congruence.
    + apply list_elem_of_filter in Hx as [Tx Hx]. rewrite (separate_elem rs x o) in K; try done. congruence.
Qed.

Lemma set_insert_spec_witness : ∃ rs', set_insert [region_new 0x1000 0x2000] (region_new 0x2000 0x3000) = Some rs' ∧
  separate rs' ∧ (member rs' 0x2800 ↔ member [region_new 0x1000 0x2000] 0x2800 ∨
    contains (region_new 0x2000 0x3000) 0x2800 = true).
Proof.
  destruct (set_insert_spec 32 [region_new 0x1000 0x2000] (region_new 0x2000 0x3000)) as (rs' & E & _ & K);
    [lia|apply Forall_cons_2; [|apply Forall_nil_2]; apply region_new_wf; lia|apply region_new_wf; lia|].
  destruct K as [M S]; [left; by repeat constructor|].
  exists rs'. split; [exact E|]. split; [|apply M; unfold address; lia]. apply S. cbn. split; [constructor|done].
Defined.

(** The order of regions is the order of one number. *)
Definition region_key (w : Z) (r : MemoryRegion) : Z := start r * (2 ^ w + 1) + bound w r.

Lemma partial_cmp_key w r s : region_wf w r → region_wf w s →
  partial_cmp r s = (region_key w r ?= region_key w s).
Proof.
  intros R S. pose proof (bound_range w r R) as Br. pose proof (bound_range w s S) as Bs. unfold region_key.
  destruct R as (R1 & R2 & R3), S as (S1 & S2 & S3). unfold partial_cmp, memory_end. symmetry.
  destruct (Z.ltb_spec (start r) (start s)); [apply Z.compare_lt_iff; nia|].
  destruct (Z.ltb_spec (start s) (start r)); [apply Z.compare_gt_iff; nia|].
  assert (E : start r = start s) by lia. rewrite E in *. clear Br Bs. unfold bound.
  region_cases; rewrite ?Z.compare_eq_iff, ?Z.compare_lt_iff, ?Z.compare_gt_iff; lia.
Qed.

Lemma region_key_inj w r s : region_wf w r → region_wf w s → region_key w r = region_key w s → r = s.
Proof.
  intros R S K. pose proof (bound_range w r R) as Br. pose proof (bound_range w s S) as Bs. unfold region_key in K.
  assert (E : start r = start s) by nia. assert (B : bound w r = bound w s) by nia.
  destruct r as [r1 r2], s as [s1 s2]. cbn [start] in E. subst. f_equal. clear K Br Bs.
  region_unfold. cbn [start end_] in *. region_cases; lia.
Qed.

(** The order of regions, by start and then by end with the end of memory
    last, is total and transitive, and only a region itself compares equal. *)
Theorem partial_cmp_total w r s t :
  region_wf w r → region_wf w s → region_wf w t →
  (partial_cmp r s = Eq ↔ r = s) ∧ partial_cmp s r = CompOpp (partial_cmp r s) ∧
  (partial_cmp r s = Lt → partial_cmp s t = Lt → partial_cmp r t = Lt).
Proof.
  intros R S T. rewrite !(partial_cmp_key w) by done. split_and!.
  - rewrite Z.compare_eq_iff. split; [by apply region_key_inj|by intros ->].
  - apply Z.compare_antisym.
  - rewrite !Z.compare_lt_iff. lia.
Qed.

Lemma partial_cmp_total_witness :
  partial_cmp (region_new 0x1000 0x2000) (region_new 0x1000 0) = Lt ∧
  partial_cmp (region_new 0x1000 0) (region_new 0x1000 0x2000) =
    CompOpp (partial_cmp (region_new 0x1000 0x2000) (region_new 0x1000 0)).
Proof.
  split; [reflexivity|].
  apply (partial_cmp_total 32 (region_new 0x1000 0x2000) (region_new 0x1000 0) (region_new 0x1000 0));
    apply region_new_wf; lia.
Defined.
