(* ===== verification/BitArray.v ===== *)
(** * Bit arrays: lib/librust/src/types.rs (module bit_array) and align.rs

    An array of [num_bits] bits in words of 32 bits.  [None] is a panic: an index
    out of range, or arithmetic overflow in the build the Makefiles make.  [usize]
    has 32 bits.  An iterator is its position. *)

From S2P Require Import Prelude.

(** ** Alignment (align.rs), for integers of [w] bits *)

Definition checked (w x : Z) : option Z := if (0 <=? x) && (x <? 2 ^ w) then Some x else None.

Definition is_aligned (x boundary : Z) : bool := x mod boundary =? 0.
Definition align_next (w x boundary : Z) : option Z := checked w (x + (boundary - x mod boundary)).
Definition align (w x boundary : Z) : option Z :=
  if negb (is_aligned x boundary) then align_next w x boundary else Some x.
Definition align_trunc (x boundary : Z) : Z :=
  if negb (is_aligned x boundary) then x - x mod boundary else x.

(** ** The array *)

Definition BITS : Z := 32.
Definition WORD_MAX : Z := 2 ^ 32 - 1.

Record BitArray := { words : list Z; num_bits : Z }.

Inductive BitFilter := FilterZero | FilterOne | FilterAny.

Definition bits_per_word : Z := BITS.

Definition word_count (bit_count : Z) : Z :=
  bit_count / BITS + (if negb (bit_count mod BITS =? 0) then 1 else 0).

Definition bit_array_new (num_bits : Z) (default : bool) : BitArray :=
  {| words := replicate (Z.to_nat (word_count num_bits)) (if default then WORD_MAX else 0);
     num_bits := num_bits |}.

Definition word_at (b : BitArray) (i : Z) : option Z := words b !! Z.to_nat i.
Definition set_word (b : BitArray) (i x : Z) : option BitArray :=
  match word_at b i with
  | Some _ => Some {| words := <[Z.to_nat i := x]> (words b); num_bits := num_bits b |}
  | None => None
  end.

(** [1 << (n % 32)] and its complement in 32 bits. *)
Definition bit_flag (n : Z) : Z := Z.shiftl 1 (n mod BITS).

Definition set_to (b : BitArray) (n : Z) (set_true : bool) : option BitArray :=
  if n <? num_bits b then
    match word_at b (n / BITS) with
    | None => None
    | Some x =>
        set_word b (n / BITS)
          (if set_true then Z.lor x (bit_flag n) else Z.land x (WORD_MAX - bit_flag n))
    end
  else Some b.

Definition is_set (b : BitArray) (n : Z) : option bool :=
  if n <? num_bits b then
    match word_at b (n / BITS) with
    | None => None
    | Some x => Some (negb (Z.land x (bit_flag n) =? 0))
    end
  else Some false.

Definition is_cleared (b : BitArray) (n : Z) : option bool := negb <$> is_set b n.
Definition bit_set (b : BitArray) (n : Z) : option BitArray := set_to b n true.
Definition bit_clear (b : BitArray) (n : Z) : option BitArray := set_to b n false.
Definition toggle (b : BitArray) (n : Z) : option BitArray :=
  match is_set b n with
  | Some v => set_to b n (negb v)
  | None => None
  end.

(** [(start..end).for_each(set_to)], and the loop over whole words. *)
Fixpoint set_each (count : nat) (b : BitArray) (n : Z) (set_true : bool) : option BitArray :=
  match count with
  | O => Some b
  | S count =>
      match set_to b n set_true with
      | Some b => set_each count b (n + 1) set_true
      | None => None
      end
  end.
Fixpoint set_each_word (count : nat) (b : BitArray) (n : Z) (set_true : bool) : option BitArray :=
  match count with
  | O => Some b
  | S count =>
      match set_word b (n / BITS) (if set_true then WORD_MAX else 0) with
      | Some b => set_each_word count b (n + BITS) set_true
      | None => None
      end
  end.

Definition set_bits_to (b : BitArray) (start_bit end_bit : Z) (set_true : bool) : option BitArray :=
  match align 32 start_bit BITS with
  | None => None
  | Some aligned =>
      let word_start_bit := Z.min aligned end_bit in
      let word_end_bit := Z.max (align_trunc end_bit BITS) start_bit in
      match set_each (Z.to_nat (word_start_bit - start_bit)) b start_bit set_true with
      | None => None
      | Some b =>
          match set_each_word (Z.to_nat ((word_end_bit - word_start_bit + BITS - 1) / BITS)) b
                  word_start_bit set_true with
          | None => None
          | Some b => set_each (Z.to_nat (end_bit - word_end_bit)) b word_end_bit set_true
          end
      end
  end.
Definition set_bits (b : BitArray) (start_bit end_bit : Z) : option BitArray := set_bits_to b start_bit end_bit true.
Definition clear_bits (b : BitArray) (start_bit end_bit : Z) : option BitArray := set_bits_to b start_bit end_bit false.

(** The ones in the lowest [n] bits of a word. *)
Fixpoint ones (n : nat) (x : Z) : Z :=
  match n with
  | O => 0
  | S n => ones n x + (if Z.testbit x (Z.of_nat n) then 1 else 0)
  end.
Definition word_ones (x : Z) : Z := ones 32 x.
Definition word_zeros (x : Z) : Z := 32 - ones 32 x.

Definition is_word_set (b : BitArray) (n : Z) : option bool :=
  if n <? num_bits b then
    match word_at b (n / BITS) with
    | None => None
    | Some x =>
        if n / BITS =? num_bits b / BITS then Some (word_ones x =? num_bits b mod BITS)
        else Some (x =? WORD_MAX)
    end
  else Some false.

Definition is_word_cleared (b : BitArray) (n : Z) : option bool :=
  if n <? num_bits b then (λ x, x =? 0) <$> word_at b (n / BITS) else Some false.

(** The first word that is not [skip], and the zeros or ones it ends with. *)
Fixpoint trailing (n : nat) (v : bool) (x i : Z) : Z :=
  match n with
  | O => 0
  | S n => if Bool.eqb (Z.testbit x i) v then 1 + trailing n v x (i + 1) else 0
  end.
Fixpoint first_from (ws : list Z) (index : Z) (v : bool) (skip : Z) : option Z :=
  match ws with
  | [] => None
  | x :: ws => if negb (x =? skip) then Some (index + trailing 32 v x 0) else first_from ws (index + BITS) v skip
  end.
Definition first_set (b : BitArray) : option Z := first_from (words b) 0 false 0.
Definition first_cleared (b : BitArray) : option Z := first_from (words b) 0 true WORD_MAX.

Definition sum (l : list Z) : Z := foldr Z.add 0 l.

Definition count_zeros (b : BitArray) : option Z :=
  let s := sum (word_zeros <$> take (Z.to_nat (num_bits b / BITS)) (words b)) in
  if negb (num_bits b mod BITS =? 0) then
    match word_at b (num_bits b / BITS) with
    | None => None
    | Some x => Some (s + word_ones (Z.land (WORD_MAX - x) (Z.shiftl 1 (num_bits b mod BITS) - 1)))
    end
  else Some s.

Definition count_ones (b : BitArray) : option Z :=
  let s := sum (word_ones <$> take (Z.to_nat (num_bits b / BITS)) (words b)) in
  if negb (num_bits b mod BITS =? 0) then
    match word_at b (num_bits b / BITS) with
    | None => None
    | Some x => Some (s + word_ones (Z.land x (Z.shiftl 1 (num_bits b mod BITS) - 1)))
    end
  else Some s.

(** ** Iteration *)

Definition start_from (index : Z) (b : BitArray) : Z := Z.min index (num_bits b).

(** The loop that skips words, and the loop that skips bits. *)
Fixpoint skip_words (fuel : nat) (b : BitArray) (full : BitArray → Z → option bool) (index : Z) : option Z :=
  match fuel with
  | O => None
  | S fuel =>
      if BITS <=? num_bits b - index then
        match full b index with
        | None => None
        | Some true => skip_words fuel b full (index + (BITS - index mod BITS))
        | Some false => Some index
        end
      else Some index
  end.
Fixpoint skip_bits (fuel : nat) (b : BitArray) (skip : BitArray → Z → option bool) (index : Z) : option Z :=
  match fuel with
  | O => None
  | S fuel =>
      if index <? num_bits b then
        match skip b index with
        | None => None
        | Some true => skip_bits fuel b skip (index + 1)
        | Some false => Some index
        end
      else Some index
  end.

(** What [next] returns and the new position; every loop advances, so that one
    step per bit and one more are enough. *)
Definition next_where (b : BitArray) (full skip : BitArray → Z → option bool) (index : Z) : option (option Z * Z) :=
  let fuel := S (Z.to_nat (num_bits b)) in
  match skip_words fuel b full index with
  | None => None
  | Some index =>
      match skip_bits fuel b skip index with
      | None => None
      | Some index => if num_bits b <=? index then Some (None, index) else Some (Some index, index + 1)
      end
  end.
Definition next (b : BitArray) (filter : BitFilter) (index : Z) : option (option Z * Z) :=
  if num_bits b <=? index then Some (None, index)
  else
    match filter with
    | FilterAny => Some (Some index, index + 1)
    | FilterOne => next_where b is_word_cleared is_cleared index
    | FilterZero => next_where b is_word_set is_set index
    end.
