(* ===== verification/BitArraySpec.v ===== *)
(** * Bit arrays: theorems

    [bit b n] is bit [n] of an array; the operations are specified by the bits
    before and after, and the iterator by the positions it passes over. *)

From S2P Require Import Prelude BitArray.

Definition bit (b : BitArray) (n : Z) : bool :=
  match words b !! Z.to_nat (n / BITS) with
  | Some x => Z.testbit x (n mod BITS)
  | None => false
  end.

(** More bits than [2 ^ 32 - 32] are more than [usize] can align. *)
Record array_wf (b : BitArray) : Prop := {
  wf_words : Forall (λ x, 0 <= x < 2 ^ 32) (words b);
  wf_length : Z.of_nat (length (words b)) = word_count (num_bits b);
  wf_num : 0 <= num_bits b <= 2 ^ 32 - 32;
}.

(** ** Bits of words *)

Lemma bit_flag_pow n : bit_flag n = 2 ^ (n mod BITS).
Proof. unfold bit_flag. rewrite Z.shiftl_mul_pow2; [lia|]. unfold BITS. zdiv. Qed.

Lemma mod_bits n : 0 <= n mod BITS < 32.
Proof. unfold BITS. zdiv. Qed.

Lemma land_flag x n : negb (Z.land x (bit_flag n) =? 0) = Z.testbit x (n mod BITS).
Proof.
  pose proof (mod_bits n) as H. rewrite bit_flag_pow. set (k := n mod BITS) in *. clearbody k.
  destruct (Z.testbit x k) eqn:E.
  - apply negb_true_iff, Z.eqb_neq. intros F. apply (f_equal (λ y, Z.testbit y k)) in F.
    rewrite Z.land_spec, E, Z.pow2_bits_true, Z.bits_0 in F by lia. done.
  - apply negb_false_iff, Z.eqb_eq, Z.bits_inj'. intros i Hi. rewrite Z.land_spec, Z.bits_0, Z.pow2_bits_eqb by lia.
    destruct (Z.eqb_spec k i) as [->|]; [by rewrite E|by rewrite andb_false_r].
Qed.

Lemma testbit_or_flag x n i : 0 <= i → Z.testbit (Z.lor x (bit_flag n)) i = Z.testbit x i || (i =? n mod BITS).
Proof.
  intros Hi. pose proof (mod_bits n). rewrite Z.lor_spec, bit_flag_pow, Z.pow2_bits_eqb by lia. by rewrite Z.eqb_sym.
Qed.

Lemma testbit_and_flag x n i : 0 <= i < 32 →
  Z.testbit (Z.land x (WORD_MAX - bit_flag n)) i = Z.testbit x i && negb (i =? n mod BITS).
Proof.
  intros Hi. pose proof (mod_bits n). rewrite bit_flag_pow. unfold WORD_MAX.
  replace (2 ^ 32 - 1) with (Z.ones 32) by done. rewrite Z.sub_nocarry_ldiff.
  - rewrite Z.land_spec, Z.ldiff_spec, Z.ones_spec_low, Z.pow2_bits_eqb by lia. by rewrite Z.eqb_sym.
  - apply Z.bits_inj'. intros j Hj. rewrite Z.ldiff_spec, Z.bits_0, Z.pow2_bits_eqb by lia.
    destruct (Z.eqb_spec (n mod BITS) j); [|done]. by rewrite Z.ones_spec_low by lia.
Qed.

Lemma word_range x : (∀ i, 32 <= i → Z.testbit x i = false) → 0 <= x → 0 <= x < 2 ^ 32.
Proof.
  intros H Hx. split; [done|]. destruct (decide (x = 0)); [lia|]. apply Z.log2_lt_pow2; [lia|].
  apply Z.lt_nge. intros L. specialize (H (Z.log2 x) L). by rewrite Z.bit_log2 in H by lia.
Qed.

Lemma high_bits x i : 0 <= x < 2 ^ 32 → 32 <= i → Z.testbit x i = false.
Proof.
  intros Hx Hi. destruct (decide (x = 0)) as [->|]; [apply Z.bits_0|].
  apply Z.bits_above_log2; [lia|]. assert (Z.log2 x < 32); [|lia]. apply Z.log2_lt_pow2; lia.
Qed.

Lemma or_flag_range x n : 0 <= x < 2 ^ 32 → 0 <= Z.lor x (bit_flag n) < 2 ^ 32.
Proof.
  intros Hx. pose proof (mod_bits n). apply word_range.
  - intros i Hi. rewrite testbit_or_flag, high_bits by lia. destruct (Z.eqb_spec i (n mod BITS)); [lia|done].
  - apply Z.lor_nonneg. rewrite bit_flag_pow. lia.
Qed.

Lemma and_flag_range x n : 0 <= x < 2 ^ 32 → 0 <= Z.land x (WORD_MAX - bit_flag n) < 2 ^ 32.
Proof.
  intros Hx. apply word_range.
  - intros i Hi. by rewrite Z.land_spec, high_bits by lia.
  - apply Z.land_nonneg. lia.
Qed.

(** ** Words of an array *)

Lemma word_at_Some b n : array_wf b → 0 <= n < num_bits b →
  ∃ x, word_at b (n / BITS) = Some x ∧ 0 <= x < 2 ^ 32.
Proof.
  intros [W L N] Hn. unfold word_at. destruct (lookup_lt_is_Some_2 (words b) (Z.to_nat (n / BITS))) as [x E].
  - apply Nat2Z.inj_lt. rewrite L, Z2Nat.id by (unfold BITS; zdiv). unfold word_count, BITS.
    destruct (Z.eqb_spec (num_bits b mod 32) 0); cbn [negb]; zdiv.
  - exists x. split; [done|]. rewrite Forall_lookup in W. eauto.
Qed.

Lemma is_set_bit b n : array_wf b → 0 <= n → is_set b n = Some ((n <? num_bits b) && bit b n).
Proof.
  intros W Hn. unfold is_set, bit. destruct (Z.ltb_spec n (num_bits b)); [|done].
  destruct (word_at_Some b n W ltac:(lia)) as (x & E & _). rewrite E. unfold word_at in E. rewrite E.
  by rewrite land_flag.
Qed.

(** Replacing a word changes its bits only. *)
Lemma set_word_spec b i x : array_wf b → 0 <= i → is_Some (word_at b i) → 0 <= x < 2 ^ 32 →
  ∃ b', set_word b i x = Some b' ∧ array_wf b' ∧ num_bits b' = num_bits b ∧
    ∀ n, 0 <= n → bit b' n = if n / BITS =? i then Z.testbit x (n mod BITS) else bit b n.
Proof.
  intros [W L N] Hi [y E] Hx. unfold set_word. rewrite E. eexists. split; [done|]. split; [|split; [done|]].
  - split; cbn [words num_bits]; [by apply Forall_insert|by rewrite length_insert|done].
  - intros n Hn. unfold bit. cbn [words]. unfold word_at in E. pose proof (lookup_lt_Some _ _ _ E).
    destruct (Z.eqb_spec (n / BITS) i) as [->|Ne]; [by rewrite list_lookup_insert_eq|].
    rewrite list_lookup_insert_ne; [done|]. assert (0 <= n / BITS) by (unfold BITS; zdiv). lia.
Qed.

Lemma same_bit n k : 0 <= n → 0 <= k → n / BITS = k / BITS → (n mod BITS =? k mod BITS) = (n =? k).
Proof.
  unfold BITS. intros Hn Hk E. destruct (Z.eqb_spec (n mod 32) (k mod 32)), (Z.eqb_spec n k); try done; zdiv.
Qed.

Lemma set_to_bits b n v : array_wf b → 0 <= n →
  ∃ b', set_to b n v = Some b' ∧ array_wf b' ∧ num_bits b' = num_bits b ∧
    ∀ k, 0 <= k → bit b' k = if (k =? n) && (n <? num_bits b) then v else bit b k.
Proof.
  intros W Hn. unfold set_to. destruct (Z.ltb_spec n (num_bits b)).
  2: { exists b. split_and!; try done. intros k _. by rewrite andb_false_r. }
  destruct (word_at_Some b n W ltac:(lia)) as (x & E & Hx). rewrite E.
  destruct (set_word_spec b (n / BITS) (if v then Z.lor x (bit_flag n) else Z.land x (WORD_MAX - bit_flag n)))
    as (b' & Eb & Wb & Nb & B); [done|unfold BITS; zdiv|by eexists| |].
  { destruct v; [by apply or_flag_range|by apply and_flag_range]. }
  exists b'. split_and!; try done. intros k Hk. rewrite B, andb_true_r by done.
  pose proof (mod_bits k). destruct (Z.eqb_spec (k / BITS) (n / BITS)) as [Ek|Nk].
  - unfold bit. rewrite Ek. unfold word_at in E. rewrite E. rewrite <- (same_bit k n) by done.
    destruct v; [rewrite testbit_or_flag by lia|rewrite testbit_and_flag by lia]; case_match; btauto.
  - destruct (Z.eqb_spec k n) as [->|]; done.
Qed.

(** ** Ranges *)

Lemma set_each_bits count v : ∀ b n, array_wf b → 0 <= n →
  ∃ b', set_each count b n v = Some b' ∧ array_wf b' ∧ num_bits b' = num_bits b ∧
    ∀ k, 0 <= k → bit b' k =
      if (n <=? k) && (k <? n + Z.of_nat count) && (k <? num_bits b) then v else bit b k.
Proof.
  induction count as [|count IH]; intros b n W Hn; cbn [set_each].
  - exists b. split_and!; try done. intros k _. destruct (Z.leb_spec n k), (Z.ltb_spec k (n + Z.of_nat 0)); try done; lia.
  - destruct (set_to_bits b n v W Hn) as (b1 & E & W1 & N1 & B1). rewrite E.
    destruct (IH b1 (n + 1) W1 ltac:(lia)) as (b2 & E2 & W2 & N2 & B2). exists b2.
    split_and!; try done; [lia|]. intros k Hk. rewrite B2, B1, N1 by done.
    destruct (Z.eqb_spec k n) as [->|].
    + destruct (Z.leb_spec (n + 1) n), (Z.leb_spec n n), (Z.ltb_spec n (n + Z.of_nat (S count))); try lia. done.
    + destruct (Z.leb_spec (n + 1) k), (Z.leb_spec n k); try lia; try done.
      replace (n + 1 + Z.of_nat count) with (n + Z.of_nat (S count)) by lia. done.
Qed.

Lemma set_each_word_bits count v : ∀ b n, array_wf b → 0 <= n → n mod BITS = 0 →
  n + 32 * Z.of_nat count <= num_bits b →
  ∃ b', set_each_word count b n v = Some b' ∧ array_wf b' ∧ num_bits b' = num_bits b ∧
    ∀ k, 0 <= k → bit b' k = if (n <=? k) && (k <? n + 32 * Z.of_nat count) then v else bit b k.
Proof.
  induction count as [|count IH]; intros b n W Hn Ha Hc; cbn [set_each_word].
  - exists b. split_and!; try done. intros k _. destruct (Z.leb_spec n k), (Z.ltb_spec k (n + 32 * Z.of_nat 0)); try done; lia.
  - destruct (word_at_Some b n W ltac:(lia)) as (x & E & _).
    destruct (set_word_spec b (n / BITS) (if v then WORD_MAX else 0) W) as (b1 & E1 & W1 & N1 & B1);
      [unfold BITS; zdiv|by eexists|unfold WORD_MAX; destruct v; lia|]. rewrite E1.
    destruct (IH b1 (n + BITS) W1) as (b2 & E2 & W2 & N2 & B2); [unfold BITS; lia|unfold BITS in *; zdiv|unfold BITS; lia|].
    exists b2. split_and!; try done; [lia|]. intros k Hk. rewrite B2, B1 by done. unfold BITS in *.
    destruct (Z.eqb_spec (k / 32) (n / 32)).
    + assert (n <= k < n + 32) by zdiv.
      destruct (Z.leb_spec (n + 32) k), (Z.leb_spec n k), (Z.ltb_spec k (n + 32 * Z.of_nat (S count))); try lia.
      cbn [andb]. pose proof (mod_bits k). unfold BITS in *. destruct v; [|apply Z.bits_0].
      unfold WORD_MAX. change (2 ^ 32 - 1) with (Z.ones 32). apply Z.ones_spec_low. lia.
    + assert (¬ n <= k < n + 32) by zdiv.
      destruct (Z.leb_spec (n + 32) k), (Z.leb_spec n k); try lia; try done.
      replace (n + 32 + 32 * Z.of_nat count) with (n + 32 * Z.of_nat (S count)) by lia. done.
Qed.

Lemma align_bits s : 0 <= s <= 2 ^ 32 - 32 → ∃ a, align 32 s BITS = Some a ∧ a mod 32 = 0 ∧ s <= a < s + 32.
Proof.
  intros Hs. unfold align, align_next, is_aligned, checked, BITS. destruct (Z.eqb_spec (s mod 32) 0); cbn [negb].
  - exists s. split; [done|]. lia.
  - destruct (Z.leb_spec 0 (s + (32 - s mod 32))), (Z.ltb_spec (s + (32 - s mod 32)) (2 ^ 32)); cbn [andb]; try zdiv.
    eexists. split; [done|]. zdiv.
Qed.

Lemma align_trunc_bits e : 0 <= e → align_trunc e BITS = e - e mod 32.
Proof. intros He. unfold align_trunc, is_aligned, BITS. destruct (Z.eqb_spec (e mod 32) 0); cbn [negb]; lia. Qed.

Lemma set_bits_to_bits b s e v : array_wf b → 0 <= s <= e → e <= num_bits b →
  ∃ b', set_bits_to b s e v = Some b' ∧ array_wf b' ∧ num_bits b' = num_bits b ∧
    ∀ k, 0 <= k → bit b' k = if (s <=? k) && (k <? e) then v else bit b k.
Proof.
  intros W Hs He. pose proof (wf_num b W). unfold set_bits_to.
  destruct (align_bits s ltac:(lia)) as (a & Ea & Ma & Ra). rewrite Ea, align_trunc_bits by lia.
  set (ws := Z.min a e). set (we := Z.max (e - e mod 32) s).
  destruct (set_each_bits (Z.to_nat (ws - s)) v b s W ltac:(lia)) as (b1 & E1 & W1 & N1 & B1). rewrite E1.
  assert (X : ∃ b2, set_each_word (Z.to_nat ((we - ws + BITS - 1) / BITS)) b1 ws v = Some b2 ∧ array_wf b2 ∧
    num_bits b2 = num_bits b ∧ ∀ k, 0 <= k → bit b2 k = if (ws <=? k) && (k <? we) then v else bit b1 k).
  { unfold BITS. destruct (Z.le_gt_cases we ws).
    - replace (Z.to_nat ((we - ws + 32 - 1) / 32)) with O by zdiv. exists b1. split_and!; try done. intros k _.
      destruct (Z.leb_spec ws k), (Z.ltb_spec k we); try done; lia.
    - assert (Ew : ws = a ∧ we = e - e mod 32) by zdiv. destruct Ew as [Ews Ewe].
      assert (Hc : 32 * Z.of_nat (Z.to_nat ((we - ws + 32 - 1) / 32)) = we - ws) by zdiv.
      destruct (set_each_word_bits (Z.to_nat ((we - ws + 32 - 1) / 32)) v b1 ws) as (b2 & E2 & W2 & N2 & B2);
        [done|lia|rewrite Ews; exact Ma|rewrite Hc; zdiv|].
      exists b2. split_and!; try done; [lia|]. intros k Hk. rewrite B2, Hc by done. by replace (ws + (we - ws)) with we by lia. }
  destruct X as (b2 & E2 & W2 & N2 & B2). rewrite E2.
  destruct (set_each_bits (Z.to_nat (e - we)) v b2 we W2 ltac:(lia)) as (b3 & E3 & W3 & N3 & B3).
  exists b3. split_and!; try done; [lia|]. intros k Hk. rewrite B3, B2, B1, N2 by done.
  assert (R : s <= ws <= e ∧ s <= we <= e) by (pose proof (mod_bits e); unfold BITS in *; lia). clear - He R Hs.
  rewrite !Z2Nat.id by lia. replace (s + (ws - s)) with ws by lia. replace (we + (e - we)) with e by lia.
  destruct (Z.leb_spec we k), (Z.ltb_spec k e), (Z.ltb_spec k (num_bits b)), (Z.leb_spec ws k), (Z.ltb_spec k we),
    (Z.leb_spec s k), (Z.ltb_spec k ws); cbn [andb]; try done; lia.
Qed.

(** A range may go beyond the last bit: within the last word it is set in part,
    and there is a panic if it needs a word the array does not have. *)
Lemma set_each_word_inv count v : ∀ b n b', array_wf b → 0 <= n → n mod BITS = 0 → set_each_word count b n v = Some b' →
  array_wf b' ∧ num_bits b' = num_bits b ∧ (count ≠ 0%nat → n + 32 * Z.of_nat count <= 32 * word_count (num_bits b)) ∧
  ∀ k, 0 <= k → bit b' k = if (n <=? k) && (k <? n + 32 * Z.of_nat count) then v else bit b k.
Proof.
  induction count as [|count IH]; intros b n b' W Hn Ha; cbn [set_each_word].
  - intros [= <-]. split_and!; try done. intros k _. destruct (Z.leb_spec n k), (Z.ltb_spec k (n + 32 * Z.of_nat 0)); try done; lia.
  - destruct (set_word b (n / BITS) _) as [b1|] eqn:E1; [|done]. intros E2.
    assert (Sm : is_Some (word_at b (n / BITS))) by (unfold set_word in E1; by destruct (word_at b (n / BITS))).
    assert (L : n + 32 <= 32 * word_count (num_bits b)).
    { destruct Sm as [y Sm]. unfold word_at in Sm. apply lookup_lt_Some in Sm. rewrite <- (wf_length b W). unfold BITS in *. zdiv. }
    destruct (set_word_spec b (n / BITS) (if v then WORD_MAX else 0) W) as (b2 & E & W1 & N1 & B1);
      [unfold BITS; zdiv|done|unfold WORD_MAX; destruct v; lia|]. rewrite E1 in E. injection E as <-.
    destruct (IH b1 (n + BITS) b' W1) as (W2 & N2 & L2 & B2); [unfold BITS; lia|unfold BITS in *; zdiv|done|].
    split_and!; [done|lia| |].
    { intros _. destruct count as [|count]; [lia|]. rewrite N1 in L2. specialize (L2 ltac:(lia)). unfold BITS in L2. lia. }
    intros k Hk. rewrite B2, B1 by done. unfold BITS in *. destruct (Z.eqb_spec (k / 32) (n / 32)).
    + assert (n <= k < n + 32) by zdiv.
      destruct (Z.leb_spec (n + 32) k), (Z.leb_spec n k), (Z.ltb_spec k (n + 32 * Z.of_nat (S count))); try lia.
      cbn [andb]. pose proof (mod_bits k). unfold BITS in *. destruct v; [|apply Z.bits_0].
      unfold WORD_MAX. change (2 ^ 32 - 1) with (Z.ones 32). apply Z.ones_spec_low. lia.
    + assert (¬ n <= k < n + 32) by zdiv.
      destruct (Z.leb_spec (n + 32) k), (Z.leb_spec n k); try lia; try done.
      replace (n + 32 + 32 * Z.of_nat count) with (n + 32 * Z.of_nat (S count)) by lia. done.
Qed.

(** The words in the middle of a range. *)
Lemma middle_words v b a s e b' : array_wf b → 0 <= s <= e → a mod 32 = 0 → s <= a < s + 32 →
  let ws := Z.min a e in let we := Z.max (e - e mod 32) s in
  set_each_word (Z.to_nat ((we - ws + BITS - 1) / BITS)) b ws v = Some b' →
  array_wf b' ∧ num_bits b' = num_bits b ∧ (ws < we → we <= 32 * word_count (num_bits b)) ∧
  ∀ k, 0 <= k → bit b' k = if (ws <=? k) && (k <? we) then v else bit b k.
Proof.
  intros W Hs Ma Ra ws we. unfold BITS. destruct (Z.le_gt_cases we ws).
  - replace (Z.to_nat ((we - ws + 32 - 1) / 32)) with O by zdiv. intros [= <-]. split_and!; try done; [lia|]. intros k _.
    destruct (Z.leb_spec ws k), (Z.ltb_spec k we); try done; lia.
  - assert (Ew : ws = a ∧ we = e - e mod 32) by zdiv. destruct Ew as [Ews Ewe].
    assert (Hc : 32 * Z.of_nat (Z.to_nat ((we - ws + 32 - 1) / 32)) = we - ws) by zdiv. intros E.
    apply set_each_word_inv in E as (W2 & N2 & L2 & B2); [|done|lia|rewrite Ews; exact Ma].
    rewrite Hc in L2, B2. replace (ws + (we - ws)) with we in L2, B2 by lia. split_and!; try done. intros _. apply L2. lia.
Qed.

Lemma set_bits_to_inv b s e v b' : array_wf b → 0 <= s <= e → s <= num_bits b → set_bits_to b s e v = Some b' →
  array_wf b' ∧ num_bits b' = num_bits b ∧
  (s mod 32 = 0 → e mod 32 = 0 → s < e → e <= 32 * word_count (num_bits b)) ∧
  ∀ k, 0 <= k < num_bits b → bit b' k = if (s <=? k) && (k <? e) then v else bit b k.
Proof.
  intros W Hs He. pose proof (wf_num b W). unfold set_bits_to.
  destruct (align_bits s ltac:(lia)) as (a & Ea & Ma & Ra). rewrite Ea, align_trunc_bits by lia.
  destruct (set_each_bits (Z.to_nat (Z.min a e - s)) v b s W ltac:(lia)) as (b1 & E1 & W1 & N1 & B1). rewrite E1.
  destruct (set_each_word _ b1 _ v) as [b2|] eqn:E2; [|done].
  apply middle_words in E2 as (W2 & N2 & L2 & B2); try done.
  set (ws := Z.min a e) in *. set (we := Z.max (e - e mod 32) s) in *. intros E3.
  destruct (set_each_bits (Z.to_nat (e - we)) v b2 we W2 ltac:(lia)) as (b3 & E3' & W3 & N3 & B3).
  rewrite E3 in E3'. injection E3' as <-. split_and!; [done|lia| |].
  { intros M1 M2 L. assert (ws = s ∧ we = e) as [Q1 Q2] by zdiv. rewrite <- N1, <- Q2. apply L2. lia. }
  intros k Hk. rewrite B3, B2, B1, N2, N1 by lia.
  assert (R : s <= ws <= e ∧ s <= we <= e) by (pose proof (mod_bits e); unfold BITS in *; lia). clear - Hk He R Hs.
  rewrite !Z2Nat.id by lia. replace (s + (ws - s)) with ws by lia. replace (we + (e - we)) with e by lia.
  destruct (Z.leb_spec we k), (Z.ltb_spec k e), (Z.ltb_spec k (num_bits b)), (Z.leb_spec ws k), (Z.ltb_spec k we),
    (Z.leb_spec s k), (Z.ltb_spec k ws); cbn [andb]; try done; lia.
Qed.

(** Setting or clearing a range of bits, a word at a time where it can be
    done, changes the bits of the range and no others. *)
Theorem set_bits_to_spec b s e v :
  array_wf b → 0 <= s <= e → e <= num_bits b →
  ∃ b', set_bits_to b s e v = Some b' ∧ array_wf b' ∧ num_bits b' = num_bits b ∧
    ∀ k, 0 <= k → is_set b' k = if (s <=? k) && (k <? e) then Some v else is_set b k.
Proof.
  intros W Hs He. destruct (set_bits_to_bits b s e v W Hs He) as (b' & E & W' & N & B).
  exists b'. split_and!; try done. intros k Hk. rewrite !is_set_bit, B, N by done.
  destruct (Z.leb_spec s k), (Z.ltb_spec k e); cbn [andb]; try done.
  destruct (Z.ltb_spec k (num_bits b)); [done|lia].
Qed.

Lemma bit_array_new_wf n v : 0 <= n <= 2 ^ 32 - 32 → array_wf (bit_array_new n v).
Proof.
  intros Hn. split; cbn [words num_bits bit_array_new]; [| |done].
  - apply Forall_replicate. unfold WORD_MAX. destruct v; lia.
  - rewrite length_replicate, Z2Nat.id; [done|]. unfold word_count, BITS. destruct (n mod 32 =? 0); cbn [negb]; zdiv.
Qed.

Lemma set_bits_to_spec_witness : ∃ b', set_bits_to (bit_array_new 100 false) 5 70 true = Some b' ∧
  is_set b' 69 = Some true ∧ is_set b' 70 = Some false.
Proof.
  destruct (set_bits_to_spec (bit_array_new 100 false) 5 70 true) as (b' & E & _ & _ & B);
    [apply bit_array_new_wf; lia|lia|cbn; lia|].
  exists b'. split; [exact E|]. split; (rewrite B; [reflexivity|lia]).
Defined.

(** ** Counting *)

(** The number of [k < n] with [f k]. *)
Fixpoint tally (f : Z → bool) (n : nat) : Z :=
  match n with
  | O => 0
  | S n => tally f n + (if f (Z.of_nat n) then 1 else 0)
  end.

Lemma ones_tally n x : ones n x = tally (Z.testbit x) n.
Proof. induction n as [|n IH]; cbn [ones tally]; [done|]. by rewrite IH. Qed.

Lemma tally_ext f g n : (∀ k, 0 <= k < Z.of_nat n → f k = g k) → tally f n = tally g n.
Proof.
  induction n as [|n IH]; intros H; cbn [tally]; [done|]. rewrite H by lia. f_equal. apply IH. intros k Hk. apply H. lia.
Qed.

Lemma tally_add f m n : tally f (m + n) = tally f m + tally (λ k, f (Z.of_nat m + k)) n.
Proof.
  induction n as [|n IH]; [rewrite Nat.add_0_r; cbn [tally]; lia|].
  rewrite Nat.add_succ_r. cbn [tally]. rewrite IH, Nat2Z.inj_add. lia.
Qed.

Lemma tally_negb f n : tally (λ k, negb (f k)) n = Z.of_nat n - tally f n.
Proof. induction n as [|n IH]; cbn [tally]; [done|]. rewrite IH. destruct (f (Z.of_nat n)); cbn [negb]; lia. Qed.

Lemma tally_false n : tally (λ _, false) n = 0.
Proof. induction n as [|n IH]; cbn [tally]; lia. Qed.

(** The ones of a word below bit [r]. *)
Lemma masked_ones x r : 0 <= r <= 32 →
  word_ones (Z.land x (Z.shiftl 1 r - 1)) = tally (Z.testbit x) (Z.to_nat r).
Proof.
  intros Hr. unfold word_ones. rewrite ones_tally, Z.shiftl_mul_pow2, Z.mul_1_l by lia.
  replace (2 ^ r - 1) with (Z.ones r) by (rewrite Z.ones_equiv; lia).
  replace 32%nat with (Z.to_nat r + (32 - Z.to_nat r))%nat by lia. rewrite tally_add.
  rewrite (tally_ext (λ k, Z.testbit (Z.land x (Z.ones r)) (Z.of_nat (Z.to_nat r) + k)) (λ _, false)), tally_false.
  - rewrite Z.add_0_r. apply tally_ext. intros k Hk. by rewrite Z.land_spec, Z.ones_spec_low, andb_true_r by lia.
  - intros k Hk. rewrite Z.land_spec, Z.ones_spec_high by lia. apply andb_false_r.
Qed.

(** The bits of the first [q] words, one word at a time. *)
Lemma tally_words b (g : Z → Z) (h : bool → bool) q :
  (∀ x, 0 <= x < 2 ^ 32 → g x = tally (λ k, h (Z.testbit x k)) 32) →
  Forall (λ x, 0 <= x < 2 ^ 32) (words b) → (q <= length (words b))%nat →
  sum (g <$> take q (words b)) = tally (λ k, h (bit b k)) (32 * q).
Proof.
  intros G F. induction q as [|q IH]; intros Hq; [done|].
  destruct (lookup_lt_is_Some_2 (words b) q) as [x E]; [lia|].
  rewrite (take_S_r _ _ _ E), fmap_app. unfold sum. rewrite foldr_app. cbn [fmap list_fmap foldr].
  assert (A : ∀ l z, foldr Z.add z l = foldr Z.add 0 l + z).
  { intros l z. induction l as [|y l IHl]; cbn [foldr]; lia. }
  rewrite A. fold (sum (g <$> take q (words b))). rewrite IH by lia.
  replace (32 * S q)%nat with (32 * q + 32)%nat by lia. rewrite tally_add. f_equal. rewrite Z.add_0_r, G.
  - apply tally_ext. intros k Hk. unfold bit, BITS.
    replace ((Z.of_nat (32 * q) + k) / 32) with (Z.of_nat q) by zdiv.
    replace ((Z.of_nat (32 * q) + k) mod 32) with k by zdiv. by rewrite Nat2Z.id, E.
  - rewrite Forall_lookup in F. eauto.
Qed.

Lemma testbit_complement x k : 0 <= x < 2 ^ 32 → 0 <= k < 32 → Z.testbit (WORD_MAX - x) k = negb (Z.testbit x k).
Proof.
  intros Hx Hk. unfold WORD_MAX. change (2 ^ 32 - 1) with (Z.ones 32). rewrite Z.sub_nocarry_ldiff.
  - by rewrite Z.ldiff_spec, Z.ones_spec_low by lia.
  - apply Z.bits_inj'. intros j Hj. rewrite Z.ldiff_spec, Z.bits_0. destruct (Z.lt_ge_cases j 32).
    + rewrite Z.ones_spec_low by lia. apply andb_false_r.
    + by rewrite high_bits by lia.
Qed.

Lemma count_split b (g : Z → Z) (h : bool → bool) (y : Z → Z) :
  array_wf b → (∀ x, 0 <= x < 2 ^ 32 → g x = tally (λ k, h (Z.testbit x k)) 32) →
  (∀ x k, 0 <= x < 2 ^ 32 → 0 <= k < 32 → Z.testbit (y x) k = h (Z.testbit x k)) →
  (let s := sum (g <$> take (Z.to_nat (num_bits b / BITS)) (words b)) in
   if negb (num_bits b mod BITS =? 0) then
     match word_at b (num_bits b / BITS) with
     | None => None
     | Some x => Some (s + word_ones (Z.land (y x) (Z.shiftl 1 (num_bits b mod BITS) - 1)))
     end
   else Some s) = Some (tally (λ k, h (bit b k)) (Z.to_nat (num_bits b))).
Proof.
  intros W G Y. pose proof W as [F L N]. cbv zeta. pose proof (mod_bits (num_bits b)) as Hr.
  assert (Lq : (Z.to_nat (num_bits b / BITS) <= length (words b))%nat).
  { apply Nat2Z.inj_le. rewrite L, Z2Nat.id by (unfold BITS; zdiv). unfold word_count.
    destruct (negb (num_bits b mod BITS =? 0)); lia. }
  rewrite (tally_words b g h) by done.
  assert (E : Z.to_nat (num_bits b) = (32 * Z.to_nat (num_bits b / BITS) + Z.to_nat (num_bits b mod BITS))%nat)
    by (unfold BITS; zdiv).
  destruct (Z.eqb_spec (num_bits b mod BITS) 0) as [E0|N0]; cbn [negb].
  - rewrite E, E0. do 2 f_equal. cbn. lia.
  - assert (Hx : ∃ x, word_at b (num_bits b / BITS) = Some x).
    { apply lookup_lt_is_Some_2. apply Nat2Z.inj_lt. rewrite L, Z2Nat.id by (unfold BITS; zdiv). unfold word_count.
      destruct (Z.eqb_spec (num_bits b mod BITS) 0); cbn [negb]; lia. }
    destruct Hx as [x Ex]. rewrite Ex. f_equal. rewrite masked_ones, E, tally_add by lia. f_equal.
    assert (Hxr : 0 <= x < 2 ^ 32) by (rewrite Forall_lookup in F; eapply F, Ex).
    apply tally_ext. intros k Hk. rewrite Y by lia. unfold bit, word_at in *.
    replace ((Z.of_nat (32 * Z.to_nat (num_bits b / BITS)) + k) / BITS) with (num_bits b / BITS) by (unfold BITS in *; zdiv).
    rewrite Ex. do 2 f_equal. unfold BITS in *. zdiv.
Qed.

Lemma count_ones_tally b : array_wf b → count_ones b = Some (tally (bit b) (Z.to_nat (num_bits b))).
Proof.
  intros W. unfold count_ones. apply (count_split b word_ones (λ v, v) (λ x, x)); [done|intros x _; apply ones_tally|reflexivity].
Qed.

(** The counts of ones and of zeros are the numbers of set and of cleared bits
    below [num_bits], whatever the unused bits of the last word are; they add up
    to [num_bits]. *)
Theorem counts_spec b :
  array_wf b →
  let n := tally (bit b) (Z.to_nat (num_bits b)) in
  count_ones b = Some n ∧ count_zeros b = Some (num_bits b - n).
Proof.
  intros W n. pose proof (wf_num b W). split.
  - by apply count_ones_tally.
  - transitivity (Some (tally (λ k, negb (bit b k)) (Z.to_nat (num_bits b)))).
    + apply (count_split b word_zeros negb (λ x, WORD_MAX - x)); [done| |].
      * intros x _. unfold word_zeros. by rewrite tally_negb, ones_tally.
      * intros x k. apply testbit_complement.
    + rewrite tally_negb. f_equal. unfold n. lia.
Qed.

Lemma counts_spec_witness : count_ones (bit_array_new 40 true) = Some 40 ∧ count_zeros (bit_array_new 40 true) = Some 0.
Proof. apply (counts_spec (bit_array_new 40 true)). apply bit_array_new_wf. lia. Defined.

(** ** Iteration *)

(** Whether the iterator stops at a bit. *)
Definition wanted (f : BitFilter) (v : bool) : bool :=
  match f with FilterZero => negb v | FilterOne => v | FilterAny => true end.

Lemma skip_words_spec b full v fuel : ∀ i,
  array_wf b → 0 <= i <= num_bits b → (Z.to_nat (num_bits b - i) < fuel)%nat →
  (∀ n, 0 <= n → BITS <= num_bits b - n → ∃ r, full b n = Some r ∧
     (r = true → ∀ k, 0 <= k → k / BITS = n / BITS → bit b k = v)) →
  ∃ j, skip_words fuel b full i = Some j ∧ i <= j <= num_bits b ∧ ∀ k, i <= k < j → bit b k = v.
Proof.
  induction fuel as [|fuel IH]; intros i W Hi F H; [lia|]. cbn [skip_words].
  destruct (Z.leb_spec BITS (num_bits b - i)); [|exists i; split; [done|]; split; [lia|intros; lia]].
  destruct (H i ltac:(lia) ltac:(done)) as (r & E & K). rewrite E. destruct r; [|exists i; split; [done|]; split; [lia|intros; lia]].
  pose proof (mod_bits i). unfold BITS in *. destruct (IH (i + (32 - i mod 32))) as (j & Ej & Rj & Bj); [done|lia|lia|done|].
  exists j. split; [done|]. split; [lia|]. intros k Hk. destruct (Z.lt_ge_cases k (i + (32 - i mod 32))).
  - apply (K eq_refl); [lia|]. zdiv.
  - apply Bj. lia.
Qed.

Lemma skip_bits_spec b skip v fuel : ∀ i,
  0 <= i <= num_bits b → (Z.to_nat (num_bits b - i) < fuel)%nat →
  (∀ n, 0 <= n < num_bits b → skip b n = Some (Bool.eqb (bit b n) v)) →
  ∃ j, skip_bits fuel b skip i = Some j ∧ i <= j <= num_bits b ∧ (∀ k, i <= k < j → bit b k = v) ∧
    (j < num_bits b → bit b j ≠ v).
Proof.
  induction fuel as [|fuel IH]; intros i Hi F H; [lia|]. cbn [skip_bits].
  destruct (Z.ltb_spec i (num_bits b)); [|exists i; split_and!; try done; try lia; intros; lia].
  rewrite H by lia. destruct (Bool.eqb (bit b i) v) eqn:E.
  - apply eqb_prop in E. destruct (IH (i + 1)) as (j & Ej & Rj & Bj & Nj); [lia|lia|done|]. exists j.
    split_and!; try done; try lia. intros k Hk. destruct (decide (k = i)) as [->|]; [done|]. apply Bj. lia.
  - apply eqb_false_iff in E. exists i. split_and!; try done; lia.
Qed.

Lemma word_set_bits b n : array_wf b → 0 <= n → BITS <= num_bits b - n →
  ∃ r, is_word_set b n = Some r ∧ (r = true → ∀ k, 0 <= k → k / BITS = n / BITS → bit b k = true).
Proof.
  intros W Hn Hb. unfold is_word_set, BITS in *. destruct (Z.ltb_spec n (num_bits b)); [|lia].
  destruct (word_at_Some b n W ltac:(lia)) as (x & E & _). unfold BITS in E. rewrite E.
  destruct (Z.eqb_spec (n / 32) (num_bits b / 32)); [zdiv|]. eexists. split; [done|].
  intros ->%Z.eqb_eq k Hk Ek. unfold bit, BITS. unfold word_at in E. rewrite Ek, E. unfold WORD_MAX.
  change (2 ^ 32 - 1) with (Z.ones 32). apply Z.ones_spec_low. zdiv.
Qed.

Lemma word_cleared_bits b n : array_wf b → 0 <= n → BITS <= num_bits b - n →
  ∃ r, is_word_cleared b n = Some r ∧ (r = true → ∀ k, 0 <= k → k / BITS = n / BITS → bit b k = false).
Proof.
  intros W Hn Hb. unfold is_word_cleared, BITS in *. destruct (Z.ltb_spec n (num_bits b)); [|lia].
  destruct (word_at_Some b n W ltac:(lia)) as (x & E & _). unfold BITS in E. rewrite E. eexists. split; [done|].
  intros ->%Z.eqb_eq k Hk Ek. unfold bit, BITS. unfold word_at in E. rewrite Ek, E. apply Z.bits_0.
Qed.

Lemma next_where_spec b full skip v i :
  array_wf b → 0 <= i <= num_bits b →
  (∀ n, 0 <= n → BITS <= num_bits b - n → ∃ r, full b n = Some r ∧
     (r = true → ∀ k, 0 <= k → k / BITS = n / BITS → bit b k = v)) →
  (∀ n, 0 <= n < num_bits b → skip b n = Some (Bool.eqb (bit b n) v)) →
  ∃ r j, next_where b full skip i = Some (r, j) ∧
    match r with
    | None => ∀ k, i <= k < num_bits b → bit b k = v
    | Some k => i <= k < num_bits b ∧ bit b k ≠ v ∧ (∀ k', i <= k' < k → bit b k' = v) ∧ j = k + 1
    end.
Proof.
  intros W Hi Hf Hs. unfold next_where.
  destruct (skip_words_spec b full v (S (Z.to_nat (num_bits b))) i) as (j & E & Rj & Bj); [done|done|lia|done|]. rewrite E.
  destruct (skip_bits_spec b skip v (S (Z.to_nat (num_bits b))) j) as (k & Ek & Rk & Bk & Nk); [lia|lia|done|]. rewrite Ek.
  assert (B : ∀ n, i <= n < k → bit b n = v).
  { intros n Hn. destruct (Z.lt_ge_cases n j); [apply Bj|apply Bk]; lia. }
  destruct (Z.leb_spec (num_bits b) k).
  - eexists None, _. split; [done|]. intros n Hn. apply B. lia.
  - eexists (Some k), _. split; [done|]. split_and!; try lia; auto.
Qed.

Lemma next_bits b f i :
  array_wf b → 0 <= i <= num_bits b →
  ∃ r j, next b f i = Some (r, j) ∧
    match r with
    | None => ∀ k, i <= k < num_bits b → wanted f (bit b k) = false
    | Some k => i <= k < num_bits b ∧ wanted f (bit b k) = true ∧
        (∀ k', i <= k' < k → wanted f (bit b k') = false) ∧ j = k + 1
    end.
Proof.
  intros W Hi. unfold next. destruct (Z.leb_spec (num_bits b) i); [by exists None, i; split; [|intros; lia]|].
  assert (S : ∀ n, 0 <= n < num_bits b → is_set b n = Some (bit b n)).
  { intros n Hn. rewrite is_set_bit by (done || lia). by destruct (Z.ltb_spec n (num_bits b)); [|lia]. }
  destruct f.
  - destruct (next_where_spec b is_word_set is_set true i) as (r & j & E & K); [done|done| | |].
    { intros n Hn Hb. by apply word_set_bits. }
    { intros n Hn. rewrite S by done. by destruct (bit b n). }
    exists r, j. split; [done|]. cbn [wanted]. destruct r as [k|].
    + destruct K as (K1 & K2 & K3 & K4). split_and!; try done; try lia.
      * by destruct (bit b k).
      * intros k' Hk'. by rewrite K3.
    + intros k Hk. by rewrite K.
  - destruct (next_where_spec b is_word_cleared is_cleared false i) as (r & j & E & K); [done|done| | |].
    { intros n Hn Hb. by apply word_cleared_bits. }
    { intros n Hn. unfold is_cleared. rewrite S by done. by destruct (bit b n). }
    exists r, j. split; [done|]. cbn [wanted]. destruct r as [k|]; [|done].
    destruct K as (K1 & K2 & K3 & K4). split_and!; try done; try lia. by destruct (bit b k).
  - exists (Some i), (i + 1). split; [done|]. split_and!; try done; lia.
Qed.

(** The positions a loop over the iterator visits. *)
Fixpoint positions (fuel : nat) (b : BitArray) (f : BitFilter) (index : Z) : option (list Z) :=
  match fuel with
  | O => None
  | S fuel =>
      r ← next b f index;
      match r with
      | (None, _) => Some []
      | (Some n, index) => ns ← positions fuel b f index; Some (n :: ns)
      end
  end.

Lemma seqZ_split i k n : i <= k < n → seqZ i (n - i) = seqZ i (k - i) ++ k :: seqZ (k + 1) (n - (k + 1)).
Proof.
  intros H. replace (n - i) with ((k - i) + (n - k)) by lia. rewrite seqZ_app by lia. f_equal.
  rewrite seqZ_cons by lia. f_equal; [lia|]. f_equal; lia.
Qed.

Lemma filter_none b f i k : (∀ k', i <= k' < k → wanted f (bit b k') = false) →
  filter (λ n, wanted f (bit b n) = true) (seqZ i (k - i)) = [].
Proof.
  intros H. apply elem_of_nil_inv. intros n. rewrite list_elem_of_filter, elem_of_seqZ. intros [E Hn].
  rewrite H in E by lia. done.
Qed.

(** C32. A loop over the iterator ends, and visits in order exactly the positions,
    from where it starts, whose bits pass the filter: skipping whole words does
    not change what it visits. *)
Theorem bit_iterator_visits b f i :
  array_wf b → 0 <= i <= num_bits b →
  positions (S (Z.to_nat (num_bits b - i))) b f i =
    Some (filter (λ n, wanted f (bit b n) = true) (seqZ i (num_bits b - i))).
Proof.
  intros W. remember (S (Z.to_nat (num_bits b - i))) as fuel eqn:F.
  assert (F' : (Z.to_nat (num_bits b - i) < fuel)%nat) by lia. clear F. revert i F'.
  induction fuel as [|fuel IH]; intros i F Hi; [lia|]. cbn [positions].
  destruct (next_bits b f i W Hi) as (r & j & E & K). rewrite E. cbn. destruct r as [k|].
  - destruct K as (K1 & K2 & K3 & ->). rewrite IH by lia. cbn. f_equal.
    rewrite (seqZ_split i k) by lia. rewrite filter_app, (filter_none b f i k K3). cbn.
    rewrite decide_True by done. done.
  - by rewrite (filter_none b f i (num_bits b) K).
Qed.

Lemma bit_iterator_visits_witness : positions 38 (bit_array_new 40 true) FilterZero 3 = Some [].
Proof. exact (bit_iterator_visits (bit_array_new 40 true) FilterZero 3 ltac:(apply bit_array_new_wf; lia) ltac:(cbn; lia)). Defined.
