(* ===== verification/PhysAlloc.v ===== *)
(** * Physical memory: servers/init_server/src/phys_alloc.rs

    Blocks of four sizes, each 32 times the one before.  For every size there is
    an array of occupied bits (some part of the block is used) and, except for
    the smallest, of filled bits (all of it is used); memory above 4G has arrays
    of its own.  [None] is a panic.  [usize] has 32 bits, addresses have 64.  The
    two static variables are a record; the memory map that the boot loader
    passes is a list. *)

From S2P Require Import Prelude Region BitArray.

Definition MAX_PHYS_ADDR : Z := 2 ^ 40.
Definition MAX_PHYS_ADDR_4K : Z := 2 ^ 32.

Inductive AllocError := TooBig | OutOfMemory.

Inductive BlockSize := Block4k | Block128k | Block4M | Block128M.

#[export] Instance BlockSize_eq_dec : EqDecision BlockSize.
Proof. solve_decision. Defined.

Definition block_new (level : nat) : option BlockSize :=
  match level with
  | 0 => Some Block4k
  | 1 => Some Block128k
  | 2 => Some Block4M
  | 3 => Some Block128M
  | _ => None
  end%nat.

Definition total_sizes : nat := 4.

Definition block_level (b : BlockSize) : nat :=
  match b with Block4k => 0 | Block128k => 1 | Block4M => 2 | Block128M => 3 end.

Definition block_bytes (b : BlockSize) : Z :=
  match b with
  | Block4k => 4 * 1024
  | Block128k => 128 * 1024
  | Block4M => 4 * 1024 * 1024
  | Block128M => 128 * 1024 * 1024
  end.

(** [BootstrapAllocator] *)
Record bootstrap := { boot_start : Z; boot_end : Z }.

Definition extend (self : bootstrap) (block_size : BlockSize) : option (bootstrap * (Z * BlockSize)) :=
  e ← checked 64 (boot_end self + block_bytes block_size);
  Some ({| boot_start := boot_start self; boot_end := e |}, (boot_end self, block_size)).

Record PhysPageAllocator := {
  memory_size : Z;
  occupied_status : list BitArray;
  filled_status : list BitArray;
  occupied_status_upper : list BitArray;
  filled_status_upper : list BitArray;
  resd_regions : RegionSet;
}.

Definition set_occupied (a : PhysPageAllocator) (l : list BitArray) : PhysPageAllocator :=
  {| memory_size := memory_size a; occupied_status := l; filled_status := filled_status a;
     occupied_status_upper := occupied_status_upper a; filled_status_upper := filled_status_upper a;
     resd_regions := resd_regions a |}.
Definition set_filled (a : PhysPageAllocator) (l : list BitArray) : PhysPageAllocator :=
  {| memory_size := memory_size a; occupied_status := occupied_status a; filled_status := l;
     occupied_status_upper := occupied_status_upper a; filled_status_upper := filled_status_upper a;
     resd_regions := resd_regions a |}.
Definition set_occupied_upper (a : PhysPageAllocator) (l : list BitArray) : PhysPageAllocator :=
  {| memory_size := memory_size a; occupied_status := occupied_status a; filled_status := filled_status a;
     occupied_status_upper := l; filled_status_upper := filled_status_upper a;
     resd_regions := resd_regions a |}.
Definition set_filled_upper (a : PhysPageAllocator) (l : list BitArray) : PhysPageAllocator :=
  {| memory_size := memory_size a; occupied_status := occupied_status a; filled_status := filled_status a;
     occupied_status_upper := occupied_status_upper a; filled_status_upper := l;
     resd_regions := resd_regions a |}.

(** [array[i].f(...)] for an operation that changes the array. *)
Definition at_index (l : list BitArray) (i : nat) (f : BitArray → option BitArray) : option (list BitArray) :=
  b ← l !! i; b' ← f b; Some (<[i := b']> l).

Definition on_occupied (a : PhysPageAllocator) (level : nat) (f : BitArray → option BitArray) : option PhysPageAllocator :=
  set_occupied a <$> at_index (occupied_status a) level f.

Definition on_occupied_upper (a : PhysPageAllocator) (level : nat) (f : BitArray → option BitArray) : option PhysPageAllocator :=
  if (level <? 2)%nat then None else set_occupied_upper a <$> at_index (occupied_status_upper a) (level - 2) f.

(** [filled_status(block)], [filled_status_mut(block)] and the same for the
    memory above 4G; a level below that of 4M panics there. *)
Definition filled_of (a : PhysPageAllocator) (level : nat) : option BitArray :=
  match level with
  | O => occupied_status a !! 0%nat
  | S l => filled_status a !! l
  end.
Definition on_filled (a : PhysPageAllocator) (level : nat) (f : BitArray → option BitArray) : option PhysPageAllocator :=
  match level with
  | O => on_occupied a 0 f
  | S l => set_filled a <$> at_index (filled_status a) l f
  end.
Definition filled_of_upper (a : PhysPageAllocator) (level : nat) : option BitArray :=
  match level with
  | 0 | 1 => None
  | 2 => occupied_status_upper a !! 0%nat
  | S (S (S l)) => filled_status_upper a !! l
  end%nat.
Definition on_filled_upper (a : PhysPageAllocator) (level : nat) (f : BitArray → option BitArray) : option PhysPageAllocator :=
  match level with
  | 0 | 1 => None
  | 2 => set_occupied_upper a <$> at_index (occupied_status_upper a) 0 f
  | S (S (S l)) => set_filled_upper a <$> at_index (filled_status_upper a) l f
  end%nat.

(** The index of a block, as [usize]. *)
Definition lower_index (address bytes : Z) : Z := u32 (address / bytes).
Definition upper_index (address bytes : Z) : Z := u32 ((address - MAX_PHYS_ADDR_4K) / bytes).

(** ** Queries *)

Definition is_block_free (a : PhysPageAllocator) (address : Z) (size : BlockSize) : option bool :=
  if MAX_PHYS_ADDR_4K <=? address then
    if (block_level size <? 2)%nat then None
    else b ← occupied_status_upper a !! (block_level size - 2)%nat; is_cleared b (upper_index address (block_bytes size))
  else b ← occupied_status a !! block_level size; is_cleared b (lower_index address (block_bytes size)).

Definition is_block_partially_used (a : PhysPageAllocator) (address : Z) (size : BlockSize) : option bool :=
  if MAX_PHYS_ADDR_4K <=? address then
    if (block_level size <? 2)%nat then None
    else
      let bit_index := upper_index address (block_bytes size) in
      b ← occupied_status_upper a !! (block_level size - 2)%nat;
      o ← is_set b bit_index;
      if (o : bool) then f ← filled_of_upper a (block_level size); is_cleared f bit_index else Some false
  else
    let bit_index := lower_index address (block_bytes size) in
    b ← occupied_status a !! block_level size;
    o ← is_set b bit_index;
    if (o : bool) then f ← filled_of a (block_level size); is_cleared f bit_index else Some false.

Definition is_block_used (a : PhysPageAllocator) (address : Z) (size : BlockSize) : option bool :=
  if MAX_PHYS_ADDR_4K <=? address then
    if (block_level size <? 2)%nat then None
    else f ← filled_of_upper a (block_level size); is_set f (upper_index address (block_bytes size))
  else f ← filled_of a (block_level size); is_set f (lower_index address (block_bytes size)).

(** ** Marking blocks *)

(** The loop over the block and its sub-blocks, from [level] down; [f] sets or
    clears a range of bits. *)
Fixpoint mark_down (upper : bool) (f : BitArray → Z → Z → option BitArray) (level : nat)
    (bit_start bit_end : Z) (a : PhysPageAllocator) : option PhysPageAllocator :=
  let next (a : PhysPageAllocator) (bit_start bit_end : Z) :=
    match level with
    | O => Some a
    | S l => mark_down upper f l bit_start bit_end a
    end in
  if upper then
    if (level <? 2)%nat then next a bit_start bit_end
    else
      a ← on_occupied_upper a level (λ b, f b bit_start bit_end);
      a ← (if (2 <? level)%nat then on_filled_upper a level (λ b, f b bit_start bit_end) else Some a);
      s ← checked 32 (bit_start * bits_per_word);
      e ← checked 32 (bit_end * bits_per_word);
      next a s e
  else
    a ← on_occupied a level (λ b, f b bit_start bit_end);
    a ← (if (0 <? level)%nat then on_filled a level (λ b, f b bit_start bit_end) else Some a);
    s ← checked 32 (bit_start * bits_per_word);
    e ← checked 32 (bit_end * bits_per_word);
    next a s e.

(** The loop over the super-blocks: [todo] levels from [level] on. *)
Fixpoint mark_up (todo : nat) (upper : bool) (address : Z) (size_level level : nat) (a : PhysPageAllocator) :
    option PhysPageAllocator :=
  match todo with
  | O => Some a
  | S todo =>
      size ← block_new level;
      let bit_index := if upper then upper_index address (block_bytes size) else lower_index address (block_bytes size) in
      a ← (if (size_level <? level)%nat
           then (if upper then on_occupied_upper else on_occupied) a level (λ b, bit_set b bit_index)
           else Some a);
      b ← (if upper then filled_of_upper else filled_of) a level;
      full ← is_word_set b bit_index;
      a ← (if (full : bool) && (level + 1 <? total_sizes)%nat
           then
             next_size ← block_new (level + 1);
             let next_index := if upper then upper_index address (block_bytes next_size)
                               else lower_index address (block_bytes next_size) in
             (if upper then on_filled_upper else on_filled) a (level + 1)%nat (λ b, bit_set b next_index)
           else Some a);
      mark_up todo upper address size_level (level + 1) a
  end.

Definition first_bit (address : Z) (size : BlockSize) : Z :=
  if MAX_PHYS_ADDR_4K <=? address then upper_index address (block_bytes size) else lower_index address (block_bytes size).

Definition mark_used (a : PhysPageAllocator) (address : Z) (size : BlockSize) : option PhysPageAllocator :=
  let upper := MAX_PHYS_ADDR_4K <=? address in
  if upper && (block_level size <? 2)%nat then None
  else
    bit_end ← checked 32 (first_bit address size + 1);
    a ← mark_down upper set_bits (block_level size) (first_bit address size) bit_end a;
    mark_up (total_sizes - block_level size) upper address (block_level size) (block_level size) a.

Definition mark_free (a : PhysPageAllocator) (address : Z) (size : BlockSize) : option PhysPageAllocator :=
  bit_end ← checked 32 (first_bit address size + 1);
  mark_down (MAX_PHYS_ADDR_4K <=? address) clear_bits (block_level size) (first_bit address size) bit_end a.

Definition mark_reserved (a : PhysPageAllocator) (region : MemoryRegion) : option PhysPageAllocator :=
  r ← set_insert (resd_regions a) region;
  Some {| memory_size := memory_size a; occupied_status := occupied_status a; filled_status := filled_status a;
          occupied_status_upper := occupied_status_upper a; filled_status_upper := filled_status_upper a;
          resd_regions := r |}.

(** ** Allocation *)

(** The loop over the blocks that are not filled; [sub] searches below one. *)
Fixpoint search_each (fuel : nat) (b : BitArray) (sub : Z → option (option Z)) (index : Z) : option (option Z) :=
  match fuel with
  | O => None
  | S fuel =>
      r ← next b FilterZero index;
      match r with
      | (None, _) => Some None
      | (Some n, index) =>
          found ← sub n;
          match found with
          | Some address => Some (Some address)
          | None => search_each fuel b sub index
          end
      end
  end.

(** [_find_block]; the iterator advances past every bit it returns, so that one
    step per bit and one more are enough. *)
Fixpoint find_from (level : nat) (a : PhysPageAllocator) (start_index : Z) (size : BlockSize) : option (option Z) :=
  if (level =? block_level size)%nat then
    b ← occupied_status a !! level;
    r ← next b FilterZero (start_from start_index b);
    Some (option_map (λ n, n * block_bytes size) (fst r))
  else
    f ← filled_of a level;
    search_each (S (Z.to_nat (num_bits f))) f
      (λ b,
        match level with
        | O => None
        | S level => start ← checked 32 (bits_per_word * start_index + b); find_from level a start size
        end)
      (start_from start_index f).

Definition find_block (a : PhysPageAllocator) (size : BlockSize) : option (option Z) :=
  find_from (total_sizes - 1) a 0 size.

(** The error [alloc] reports when no block is found. *)
Definition alloc_error (a : PhysPageAllocator) (size : BlockSize) : option AllocError :=
  f ← (if (2 <=? block_level size)%nat then filled_of_upper a (total_sizes - 1) else filled_of a (total_sizes - 1));
  n ← count_ones f;
  Some (if n =? num_bits f then OutOfMemory else TooBig).

Definition alloc (a : PhysPageAllocator) (size : BlockSize) :
    option (PhysPageAllocator * ((Z * BlockSize) + AllocError)) :=
  found ← find_block a size;
  match found with
  | None => e ← alloc_error a size; Some (a, inr e)
  | Some address => a' ← mark_used a address size; Some (a', inl (address, size))
  end.

Definition is_free (a : PhysPageAllocator) (address : Z) : option bool := is_block_free a address Block4k.
Definition is_used (a : PhysPageAllocator) (address : Z) : option bool := is_block_used a address Block4k.
Definition is_reserved (a : PhysPageAllocator) (address : Z) : bool :=
  existsb (λ region, contains region address) (resd_regions a).
Definition allocator_contains (a : PhysPageAllocator) (address : Z) : bool :=
  (address <? memory_size a) && negb (is_reserved a address).

Definition release (a : PhysPageAllocator) (address : Z) (size : BlockSize) : option PhysPageAllocator :=
  free ← is_block_free a address size;
  if (free : bool) then None else mark_free a address size.

(** ** Counting *)

Definition free_count (a : PhysPageAllocator) (size : BlockSize) : option Z :=
  b ← occupied_status a !! block_level size;
  n ← count_zeros b;
  m ← (if (2 <=? block_level size)%nat
       then b ← occupied_status_upper a !! (block_level size - block_level size)%nat; count_zeros b
       else Some 0);
  checked 32 (n + m).

Definition used_count (a : PhysPageAllocator) (size : BlockSize) : option Z :=
  b ← filled_of a (block_level size);
  n ← count_ones b;
  m ← (if (2 <=? block_level size)%nat then b ← filled_of_upper a (block_level size); count_ones b else Some 0);
  checked 32 (n + m).

Definition total_count (a : PhysPageAllocator) (size : BlockSize) : option Z :=
  b ← occupied_status a !! block_level size;
  m ← (if (2 <=? block_level size)%nat
       then b ← occupied_status_upper a !! (block_level size - block_level size)%nat; Some (num_bits b)
       else Some 0);
  checked 32 (num_bits b + m).

(** ** The static variables *)

Record phys := { PAGE_ALLOCATOR : option PhysPageAllocator; BOOTSTRAP_MEM : option bootstrap }.

Definition is_bootstrap_ready (p : phys) : bool := bool_decide (is_Some (BOOTSTRAP_MEM p)).
Definition is_allocator_ready (p : phys) : bool := bool_decide (is_Some (PAGE_ALLOCATOR p)).

Definition alloc_phys (p : phys) (size : BlockSize) : option (phys * ((Z * BlockSize) + AllocError)) :=
  match PAGE_ALLOCATOR p, BOOTSTRAP_MEM p with
  | Some a, b => r ← alloc a size; Some ({| PAGE_ALLOCATOR := Some (fst r); BOOTSTRAP_MEM := b |}, snd r)
  | None, Some b =>
      r ← extend b size; Some ({| PAGE_ALLOCATOR := None; BOOTSTRAP_MEM := Some (fst r) |}, inl (snd r))
  | None, None => None
  end.

Definition release_phys (p : phys) (address : Z) (size : BlockSize) : option phys :=
  match PAGE_ALLOCATOR p with
  | Some a => a' ← release a address size; Some {| PAGE_ALLOCATOR := Some a'; BOOTSTRAP_MEM := BOOTSTRAP_MEM p |}
  | None => Some p
  end.

Definition init_bootstrap (p : phys) (first_free_page : Z) : option phys :=
  if is_allocator_ready p then None
  else if is_bootstrap_ready p then None
  else Some {| PAGE_ALLOCATOR := PAGE_ALLOCATOR p;
               BOOTSTRAP_MEM := Some {| boot_start := first_free_page; boot_end := first_free_page |} |}.

(** ** Initialisation *)

Record RawMemoryMap := { base_addr : Z; map_length : Z; map_type : Z }.
Definition AVAILABLE : Z := 1.

Definition SMALL_PAGE_SIZE : Z := 4096.

Definition clamp (x lo hi : Z) : Z := if x <? lo then lo else if hi <? x then hi else x.

(** [base_addr + length], in 64 bits. *)
Definition map_end (m : RawMemoryMap) : option Z := checked 64 (base_addr m + map_length m).

Fixpoint highest_end (mmap : list RawMemoryMap) (memory_end : Z) : option Z :=
  match mmap with
  | [] => Some memory_end
  | m :: mmap =>
      if map_type m =? AVAILABLE then e ← map_end m; highest_end mmap (Z.max memory_end e)
      else highest_end mmap memory_end
  end.

Definition memory_end_of (mmap : list RawMemoryMap) : option Z :=
  e ← highest_end mmap 0;
  if e =? 0 then Some MAX_PHYS_ADDR
  else e ← align 64 e SMALL_PAGE_SIZE; Some (clamp e 1 MAX_PHYS_ADDR).

Definition blocks_of (bytes level : Z) : option Z := e ← align 64 bytes level; Some (u32 (e / level)).

Definition status_arrays (bytes : Z) (sizes : list BlockSize) : option (list BitArray) :=
  mapM (λ size, n ← blocks_of bytes (block_bytes size); Some (bit_array_new n false)) sizes.

Definition new_allocator (memory_end : Z) : option PhysPageAllocator :=
  let lower := clamp memory_end 0 MAX_PHYS_ADDR_4K in
  occupied ← status_arrays lower [Block4k; Block128k; Block4M; Block128M];
  filled ← status_arrays lower [Block128k; Block4M; Block128M];
  upper ← (if MAX_PHYS_ADDR_4K <? memory_end
           then
             let bytes := clamp memory_end 0 MAX_PHYS_ADDR - MAX_PHYS_ADDR_4K in
             o ← status_arrays bytes [Block4M; Block128M]; f ← status_arrays bytes [Block128M]; Some (o, f)
           else Some ([], []));
  Some {| memory_size := memory_end; occupied_status := occupied; filled_status := filled;
          occupied_status_upper := fst upper; filled_status_upper := snd upper; resd_regions := [] |}.

(** [(from..to).step_by(step)], every address marked. *)
Fixpoint mark_steps (count : nat) (a : PhysPageAllocator) (address : Z) (size : BlockSize) : option PhysPageAllocator :=
  match count with
  | O => Some a
  | S count => a ← mark_used a address size; mark_steps count a (address + block_bytes size) size
  end.
Definition mark_range (a : PhysPageAllocator) (from to : Z) (size : BlockSize) : option PhysPageAllocator :=
  mark_steps (Z.to_nat ((to - from + block_bytes size - 1) / block_bytes size)) a from size.

(** The three loops over [from..to], the middle one up to [middle_to]. *)
Definition mark_blocks (a : PhysPageAllocator) (from to middle_to : Z) : option PhysPageAllocator :=
  block128k_start ← align 64 from (block_bytes Block128k);
  let block128k_end := align_trunc middle_to (block_bytes Block128k) in
  a ← mark_range a from block128k_start Block4k;
  a ← mark_range a block128k_start block128k_end Block128k;
  mark_range a block128k_end to Block4k.

(** One entry of the memory map; [boot] is the end of the bootstrap memory. *)
Definition reserve_entry (memory_end boot : Z) (m : RawMemoryMap) (a : PhysPageAllocator) : option PhysPageAllocator :=
  if (map_type m =? AVAILABLE) && (boot <=? base_addr m) then Some a
  else
    e ← map_end m;
    let e := if (boot <? e) && (map_type m =? AVAILABLE) then boot else e in
    a ← (if base_addr m <? memory_end
         then mark_blocks a (base_addr m) (clamp e 0 memory_end) (clamp e 0 memory_end)
         else Some a);
    if (map_type m =? AVAILABLE) && (boot <? e) then Some a
    else mark_reserved a (region_new (base_addr m) e).

(** The heap grows while regions are inserted, and takes its pages from the
    bootstrap memory: [heap n] is where that memory ends when the entry is
    handled that has [n] entries after it. *)
Fixpoint reserve_entries (memory_end : Z) (heap : nat → Z) (mmap : list RawMemoryMap) (a : PhysPageAllocator) :
    option PhysPageAllocator :=
  match mmap with
  | [] => Some a
  | m :: mmap => a ← reserve_entry memory_end (heap (length mmap)) m a; reserve_entries memory_end heap mmap a
  end.

(** What the map leaves out of [0..memory_end]: the fold over its entries. *)
Fixpoint holes (mmap : list RawMemoryMap) (set_result : RegionSet) : option RegionSet :=
  match mmap with
  | [] => Some set_result
  | m :: mmap =>
      e ← map_end m; holes mmap (set_intersection (set_complement [region_new (base_addr m) e]) set_result)
  end.

(** From here on the heap takes its pages from the new allocator: [grow] is what
    it does when a set of regions grows. *)
Fixpoint reserve_holes (memory_end : Z) (grow : PhysPageAllocator → option PhysPageAllocator) (rs : RegionSet)
    (a : PhysPageAllocator) : option PhysPageAllocator :=
  match rs with
  | [] => Some a
  | r :: rs =>
      a ← mark_blocks a (start r) (clamp (end_ r) 0 memory_end) (end_ r);
      a ← mark_reserved a r;
      a ← grow a;
      reserve_holes memory_end grow rs a
  end.

(** [init]; [boot] is the end of the bootstrap memory after the last entry. *)
Definition init (p : phys) (mmap : list RawMemoryMap) (heap : nat → Z) (boot : Z)
    (grow : PhysPageAllocator → option PhysPageAllocator) : option phys :=
  if is_allocator_ready p then None
  else
    memory_end ← memory_end_of mmap;
    a ← new_allocator memory_end;
    b ← BOOTSTRAP_MEM p;
    a ← reserve_entries memory_end heap mmap a;
    a ← mark_range a (boot_start b) boot Block4k;
    rs ← holes mmap [region_new 0 memory_end];
    a ← grow a;
    a ← reserve_holes memory_end grow rs a;
    Some {| PAGE_ALLOCATOR := Some a; BOOTSTRAP_MEM := None |}.
