(* ===== verification/PhysAllocSpec.v ===== *)
(** * Correctness of physical memory allocation

    The state is seen through [occ] and [fil], the occupied and filled bits of
    the memory below 4G by level and block number; a frame is a block of level 0.
    [summarised] is what [alloc] needs to return free memory only; [consistent]
    is what it needs to find the memory that is free. *)

From S2P Require Import Prelude Region BitArray BitArraySpec PhysAlloc.

(** ** The view *)

Definition lower_end (a : PhysPageAllocator) : Z := Z.min (memory_size a) MAX_PHYS_ADDR_4K.

(** Frames below 4G, and blocks of a level, the last one possibly in part. *)
Definition frames (a : PhysPageAllocator) : Z := lower_end a / 4096.
Definition pow32 (l : nat) : Z := 32 ^ Z.of_nat l.
Definition blocks (a : PhysPageAllocator) (l : nat) : Z := (frames a + pow32 l - 1) / pow32 l.

Definition bit_at (o : option BitArray) (n : Z) : bool := match o with Some b => bit b n | None => false end.
Definition occ (a : PhysPageAllocator) (l : nat) (n : Z) : bool := bit_at (occupied_status a !! l) n.
Definition fil (a : PhysPageAllocator) (l : nat) (n : Z) : bool := bit_at (filled_of a l) n.

(** An array with the bits of a level. *)
Definition level_array (a : PhysPageAllocator) (l : nat) (b : BitArray) : Prop :=
  array_wf b ∧ num_bits b = blocks a l.

(** No bit is set beyond the last block.  An array is a whole number of words,
    and [set_bits] sets whole words. *)
Definition tidy (a : PhysPageAllocator) : Prop :=
  ∀ l n, (l < 4)%nat → blocks a l <= n → occ a l n = false ∧ fil a l n = false.

Record alloc_wf (a : PhysPageAllocator) : Prop := {
  wf_memory : 0 < memory_size a <= MAX_PHYS_ADDR;
  wf_frames : memory_size a mod 4096 = 0;
  wf_occupied : ∀ l, (l < 4)%nat → ∃ b, occupied_status a !! l = Some b ∧ level_array a l b;
  wf_filled : ∀ l, (l < 3)%nat → ∃ b, filled_status a !! l = Some b ∧ level_array a (S l) b;
}.

(** What the operations on memory below 4G leave alone. *)
Definition same_rest (a a' : PhysPageAllocator) : Prop :=
  memory_size a' = memory_size a ∧ occupied_status_upper a' = occupied_status_upper a ∧
  filled_status_upper a' = filled_status_upper a ∧ resd_regions a' = resd_regions a.

Lemma same_rest_refl a : same_rest a a.
Proof. done. Qed.
Lemma same_rest_trans a b c : same_rest a b → same_rest b c → same_rest a c.
Proof. unfold same_rest. intuition congruence. Qed.
#[local] Hint Resolve same_rest_refl : core.

Lemma same_blocks a a' l : same_rest a a' → blocks a' l = blocks a l.
Proof. intros (E & _). unfold blocks, frames, lower_end. by rewrite E. Qed.
Lemma same_frames a a' : same_rest a a' → frames a' = frames a.
Proof. intros (E & _). unfold frames, lower_end. by rewrite E. Qed.

(** The block of level [l'] that block [n] of level [l] is in. *)
Definition anc (l l' : nat) (n : Z) : Z := n / pow32 (l' - l).

Lemma pow32_pos l : 0 < pow32 l.
Proof. unfold pow32. lia. Qed.
Lemma pow32_S l : pow32 (S l) = 32 * pow32 l.
Proof. unfold pow32. rewrite Nat2Z.inj_succ, Z.pow_succ_r by lia. done. Qed.
Lemma pow32_add l m : pow32 (l + m) = pow32 l * pow32 m.
Proof. unfold pow32. rewrite Nat2Z.inj_add, Z.pow_add_r by lia. done. Qed.

Lemma anc_refl l n : anc l l n = n.
Proof. unfold anc. rewrite Nat.sub_diag. apply Z.div_1_r. Qed.
Lemma anc_parent l l' n : 0 <= n → (l < l')%nat → anc (S l) l' (n / 32) = anc l l' n.
Proof.
  intros Hn Hl. unfold anc. replace (l' - l)%nat with (S (l' - S l)) by lia. rewrite pow32_S.
  pose proof (pow32_pos (l' - S l)). by rewrite Z.div_div by lia.
Qed.
Lemma anc_pos l l' n : 0 <= n → 0 <= anc l l' n.
Proof. intros. unfold anc. pose proof (pow32_pos (l' - l)). apply Z.div_pos; lia. Qed.

Lemma block_bytes_pow size : block_bytes size = 4096 * pow32 (block_level size).
Proof. by destruct size. Qed.
Lemma block_bytes_pos size : 0 < block_bytes size.
Proof. by destruct size. Qed.
Lemma block_level_lt size : (block_level size < 4)%nat.
Proof. destruct size; cbn; lia. Qed.
Lemma block_new_level l size : block_new l = Some size → block_level size = l.
Proof. destruct l as [|[|[|[|]]]]; cbn; intros E; by simplify_eq. Qed.
Lemma block_new_Some l : (l < 4)%nat → ∃ size, block_new l = Some size ∧ block_level size = l.
Proof. intros H. destruct l as [|[|[|[|]]]]; cbn; try lia; by eexists. Qed.

Section arith.
  Context (a : PhysPageAllocator) (W : alloc_wf a).

Lemma frames_bound : 0 < frames a <= 2 ^ 20.
Proof.
  pose proof (wf_memory a W) as M. pose proof (wf_frames a W) as F.
  unfold frames, lower_end, MAX_PHYS_ADDR, MAX_PHYS_ADDR_4K in *.
  destruct (Z.min_spec (memory_size a) (2 ^ 32)) as [[? ->]|[? ->]]; [zdiv|done].
Qed.

Lemma blocks_bound l : 0 < blocks a l <= 2 ^ 20.
Proof.
  pose proof frames_bound. pose proof (pow32_pos l). unfold blocks. split; [apply Z.div_str_pos; lia|].
  apply Z.div_le_upper_bound; [lia|]. nia.
Qed.

Lemma blocks_0 : blocks a 0 = frames a.
Proof. unfold blocks, pow32. cbn. rewrite Z.div_1_r. lia. Qed.

(** A block of level [l] exists when it holds an existing block of level [m]. *)
Lemma blocks_lt l n : n < blocks a l ↔ n * pow32 l < frames a.
Proof.
  pose proof (pow32_pos l) as P. unfold blocks. set (p := pow32 l) in *. set (F := frames a). clearbody p F. split; intros H.
  - pose proof (Z.mul_div_le (F + p - 1) p P). nia.
  - apply Z.lt_le_trans with (n + 1); [lia|]. apply Z.div_le_lower_bound; nia.
Qed.

Lemma blocks_le l e : e * pow32 l <= frames a → e <= blocks a l.
Proof.
  intros H. destruct (Z.le_gt_cases e (blocks a l)) as [|G]; [done|]. exfalso.
  pose proof (proj2 (blocks_lt l (blocks a l))) as K. pose proof (pow32_pos l). apply (Z.lt_irrefl (blocks a l)), K. nia.
Qed.

Lemma blocks_parent l n : 0 <= n < blocks a l → 0 <= n / 32 < blocks a (S l).
Proof.
  rewrite !blocks_lt, pow32_S. intros [Hn H]. pose proof (pow32_pos l). split; [apply Z.div_pos; lia|].
  apply Z.le_lt_trans with (n * pow32 l); [|done]. replace (n / 32 * (32 * pow32 l)) with (32 * (n / 32) * pow32 l) by ring.
  apply Z.mul_le_mono_nonneg_r; [lia|]. apply Z.mul_div_le. lia.
Qed.

Lemma blocks_anc l d n : 0 <= n < blocks a l → 0 <= anc l (l + d) n < blocks a (l + d).
Proof.
  revert l n. induction d as [|d IH]; intros l n Hn; [by rewrite Nat.add_0_r, anc_refl|].
  rewrite <- anc_parent by lia. replace (l + S d)%nat with (S l + d)%nat by lia. apply IH. by apply blocks_parent.
Qed.
End arith.

(** ** One array at a time *)

(** [f] maps every array of a level to one with the bits [g] gives. *)
Definition update_ok (a : PhysPageAllocator) (l : nat) (f : BitArray → option BitArray) (g : Z → bool → bool) : Prop :=
  ∀ b, level_array a l b → ∃ b', f b = Some b' ∧ level_array a l b' ∧ ∀ k, 0 <= k → bit b' k = g k (bit b k).

Lemma level_array_same a a' l b : same_rest a a' → level_array a l b → level_array a' l b.
Proof. intros R. unfold level_array. by rewrite (same_blocks a a' l R). Qed.

Lemma on_occupied_spec a l f g : alloc_wf a → (l < 4)%nat → update_ok a l f g →
  ∃ a', on_occupied a l f = Some a' ∧ alloc_wf a' ∧ same_rest a a' ∧ filled_status a' = filled_status a ∧
    ∀ l' k, 0 <= k → occ a' l' k = if (l' =? l)%nat then g k (occ a l k) else occ a l' k.
Proof.
  intros W Hl U. destruct (wf_occupied a W l Hl) as (b & E & B). destruct (U b B) as (b' & F & B' & G).
  unfold on_occupied, at_index. rewrite E. cbn. rewrite F. cbn. eexists. split; [done|]. split; [split|split; [done|split; [done|]]].
  - exact (wf_memory a W).
  - exact (wf_frames a W).
  - intros m Hm. cbn [occupied_status set_occupied]. destruct (decide (m = l)) as [->|].
    + exists b'. split; [|exact B']. apply list_lookup_insert_eq. by eapply lookup_lt_Some.
    + rewrite list_lookup_insert_ne by done. exact (wf_occupied a W m Hm).
  - exact (wf_filled a W).
  - intros l' k Hk. unfold occ. cbn [occupied_status set_occupied]. destruct (Nat.eqb_spec l' l) as [->|].
    + rewrite list_lookup_insert_eq by (by eapply lookup_lt_Some). rewrite E. cbn. auto.
    + by rewrite list_lookup_insert_ne.
Qed.

Lemma on_filled_spec a l f g : alloc_wf a → (0 < l < 4)%nat → update_ok a l f g →
  ∃ a', on_filled a l f = Some a' ∧ alloc_wf a' ∧ same_rest a a' ∧ occupied_status a' = occupied_status a ∧
    ∀ l' k, 0 <= k → fil a' l' k = if (l' =? l)%nat then g k (fil a l k) else fil a l' k.
Proof.
  intros W Hl U. destruct l as [|l]; [lia|]. destruct (wf_filled a W l ltac:(lia)) as (b & E & B).
  destruct (U b B) as (b' & F & B' & G).
  unfold on_filled, at_index. rewrite E. cbn. rewrite F. cbn. eexists. split; [done|]. split; [split|split; [done|split; [done|]]].
  - exact (wf_memory a W).
  - exact (wf_frames a W).
  - exact (wf_occupied a W).
  - intros m Hm. cbn [filled_status set_filled]. destruct (decide (m = l)) as [->|].
    + exists b'. split; [|exact B']. apply list_lookup_insert_eq. by eapply lookup_lt_Some.
    + rewrite list_lookup_insert_ne by done. exact (wf_filled a W m Hm).
  - intros l' k Hk. unfold fil, filled_of. destruct l' as [|l']; [done|]. cbn [filled_status set_filled].
    change (S l' =? S l)%nat with (l' =? l)%nat. destruct (Nat.eqb_spec l' l) as [->|].
    + rewrite list_lookup_insert_eq by (by eapply lookup_lt_Some). rewrite E. cbn. auto.
    + by rewrite list_lookup_insert_ne.
Qed.

Lemma filled_array a l : alloc_wf a → (l < 4)%nat →
  ∃ b, filled_of a l = Some b ∧ level_array a l b ∧ ∀ k, fil a l k = bit b k.
Proof.
  intros W Hl. unfold fil. destruct l as [|l]; cbn [filled_of].
  - destruct (wf_occupied a W 0) as (b & E & B); [lia|]. rewrite E. by exists b.
  - destruct (wf_filled a W l ltac:(lia)) as (b & E & B). rewrite E. by exists b.
Qed.

Lemma occupied_array a l : alloc_wf a → (l < 4)%nat →
  ∃ b, occupied_status a !! l = Some b ∧ level_array a l b ∧ ∀ k, occ a l k = bit b k.
Proof. intros W Hl. unfold occ. destruct (wf_occupied a W l Hl) as (b & E & B). rewrite E. by exists b. Qed.

Lemma fil_0 a k : fil a 0 k = occ a 0 k.
Proof. done. Qed.

Lemma fil_same a a' l : filled_status a' = filled_status a → (0 < l)%nat → ∀ k, fil a' l k = fil a l k.
Proof. intros E Hl k. unfold fil, filled_of. destruct l; [lia|]. by rewrite E. Qed.

Lemma occ_same a a' : occupied_status a' = occupied_status a → ∀ l k, occ a' l k = occ a l k.
Proof. intros E l k. unfold occ. by rewrite E. Qed.

Lemma set_bits_ok a l s e v : 0 <= s <= e → e <= blocks a l →
  update_ok a l (λ b, set_bits_to b s e v) (λ k o, if (s <=? k) && (k <? e) then v else o).
Proof.
  intros Hs He b (B & N). destruct (set_bits_to_bits b s e v) as (b' & E & B' & N' & G); [done|done|lia|].
  exists b'. split; [done|]. split; [|done]. split; [done|congruence].
Qed.

Lemma bit_set_ok a l n : 0 <= n < blocks a l → update_ok a l (λ b, bit_set b n) (λ k o, (k =? n) || o).
Proof.
  intros Hn b (B & N). destruct (set_to_bits b n true) as (b' & E & B' & N' & G); [done|lia|].
  assert (X : ∀ k, 0 <= k → bit b' k = (k =? n) || bit b k).
  { intros k Hk. rewrite G by done. destruct (Z.eqb_spec k n), (Z.ltb_spec n (num_bits b)); try done; lia. }
  exists b'. split; [done|]. split; [|done]. split; [done|congruence].
Qed.

(** ** The block and what is below it *)

(** Blocks of level [l] down, in [s..e] of level [l]. *)
Definition inside (l : nat) (s e : Z) (l' : nat) (n : Z) : bool :=
  (l' <=? l)%nat && (s <=? anc l' l n) && (anc l' l n <? e).

Definition marked (v : bool) (a a' : PhysPageAllocator) (l : nat) (s e : Z) : Prop :=
  (∀ l' n, 0 <= n < blocks a l' → occ a' l' n = if inside l s e l' n then v else occ a l' n) ∧
  (∀ l' n, 0 <= n < blocks a l' → (0 < l')%nat → fil a' l' n = if inside l s e l' n then v else fil a l' n).

Lemma inside_S l s e l' n : 0 <= n →
  inside (S l) s e l' n = (l' =? S l)%nat && (s <=? n) && (n <? e) || inside l (s * 32) (e * 32) l' n.
Proof.
  intros Hn. unfold inside. destruct (Nat.eqb_spec l' (S l)) as [->|].
  - rewrite anc_refl. destruct (Nat.leb_spec (S l) (S l)), (Nat.leb_spec (S l) l); lia.
  - destruct (Nat.leb_spec l' (S l)), (Nat.leb_spec l' l); try lia. cbn [andb orb].
    unfold anc. replace (S l - l')%nat with (l - l' + 1)%nat by lia. rewrite pow32_add. pose proof (pow32_pos (l - l')).
    rewrite <- Z.div_div by (unfold pow32; lia). change (pow32 1) with 32. set (q := n / pow32 (l - l')). clearbody q.
    destruct (Z.leb_spec s (q / 32)), (Z.leb_spec (s * 32) q), (Z.ltb_spec (q / 32) e), (Z.ltb_spec q (e * 32)); try done; zdiv.
Qed.

Lemma inside_0 s e l' n : inside 0 s e l' n = (l' =? 0)%nat && (s <=? n) && (n <? e).
Proof.
  unfold inside. destruct (Nat.eqb_spec l' 0) as [->|]; [by rewrite anc_refl|].
  by destruct (Nat.leb_spec l' 0); [lia|].
Qed.

Lemma checked_ok w x : 0 <= x < 2 ^ w → checked w x = Some x.
Proof. intros H. unfold checked. destruct (Z.leb_spec 0 x), (Z.ltb_spec x (2 ^ w)); try done; lia. Qed.

Lemma mark_down_level v a l s e : alloc_wf a → (l < 4)%nat → 0 <= s <= e → e <= blocks a l →
  ∃ a1 a2, on_occupied a l (λ b, set_bits_to b s e v) = Some a1 ∧
    (if (0 <? l)%nat then on_filled a1 l (λ b, set_bits_to b s e v) else Some a1) = Some a2 ∧
    alloc_wf a2 ∧ same_rest a a2 ∧
    (∀ l' n, 0 <= n → occ a2 l' n = if (l' =? l)%nat && (s <=? n) && (n <? e) then v else occ a l' n) ∧
    (∀ l' n, 0 <= n → (0 < l')%nat → fil a2 l' n = if (l' =? l)%nat && (s <=? n) && (n <? e) then v else fil a l' n).
Proof.
  intros W Hl Hs He. destruct (on_occupied_spec a l _ _ W Hl (set_bits_ok a l s e v Hs He)) as (a1 & E1 & W1 & R1 & F1 & O1).
  exists a1. rewrite E1. assert (X : ∀ l' n, 0 <= n →
    occ a1 l' n = if (l' =? l)%nat && (s <=? n) && (n <? e) then v else occ a l' n).
  { intros l' n Hn. rewrite O1 by done. by destruct (Nat.eqb_spec l' l) as [->|]. }
  destruct (Nat.ltb_spec 0 l).
  - destruct (on_filled_spec a1 l (λ b, set_bits_to b s e v) (λ k o, if (s <=? k) && (k <? e) then v else o) W1)
      as (a2 & E2 & W2 & R2 & F2 & O2); [lia| |].
    { apply set_bits_ok; [done|]. by rewrite (same_blocks a a1). }
    exists a2. split_and!; try done; [by eapply same_rest_trans| |].
    + intros l' n Hn. by rewrite (occ_same a1 a2 F2), X.
    + intros l' n Hn Hl'. rewrite O2 by done.
      destruct (Nat.eqb_spec l' l) as [->|]; cbn [andb]; by rewrite (fil_same a a1).
  - exists a1. split_and!; try done. intros l' n Hn Hl'. destruct (Nat.eqb_spec l' l); [lia|]. by rewrite (fil_same a a1).
Qed.

Lemma mark_down_step v l a s e : alloc_wf a → (l < 4)%nat → 0 <= s <= e → e * pow32 l <= frames a →
  ∃ a2, mark_down false (λ b s e, set_bits_to b s e v) l s e a =
      match l with
      | O => Some a2
      | S l => mark_down false (λ b s e, set_bits_to b s e v) l (s * 32) (e * 32) a2
      end ∧
    alloc_wf a2 ∧ same_rest a a2 ∧
    (∀ l' n, 0 <= n → occ a2 l' n = if (l' =? l)%nat && (s <=? n) && (n <? e) then v else occ a l' n) ∧
    (∀ l' n, 0 <= n → (0 < l')%nat → fil a2 l' n = if (l' =? l)%nat && (s <=? n) && (n <? e) then v else fil a l' n).
Proof.
  intros W Hl Hs He. pose proof (frames_bound a W). pose proof (pow32_pos l). assert (Be : e <= 2 ^ 20) by nia.
  destruct (mark_down_level v a l s e W Hl Hs (blocks_le a l e He)) as (a1 & a2 & E1 & E2 & K). exists a2. split; [|done].
  transitivity (a ← on_occupied a l (λ b, set_bits_to b s e v);
    a ← (if (0 <? l)%nat then on_filled a l (λ b, set_bits_to b s e v) else Some a);
    s ← checked 32 (s * bits_per_word); e ← checked 32 (e * bits_per_word);
    match l with O => Some a | S l => mark_down false (λ b s e, set_bits_to b s e v) l s e a end);
    [by destruct l|].
  rewrite E1. cbn [mbind option_bind]. rewrite E2. cbn [mbind option_bind]. unfold bits_per_word, BITS.
  rewrite !checked_ok by lia. done.
Qed.

(** A change within the blocks of one level keeps the rest clear. *)
Lemma level_tidy v a a' l s e : same_rest a a' → e <= blocks a l →
  (∀ l' n, 0 <= n → occ a' l' n = if (l' =? l)%nat && (s <=? n) && (n <? e) then v else occ a l' n) →
  (∀ l' n, 0 <= n → (0 < l')%nat → fil a' l' n = if (l' =? l)%nat && (s <=? n) && (n <? e) then v else fil a l' n) →
  alloc_wf a → tidy a → tidy a'.
Proof.
  intros R He O F W T l' n Hl Hn. rewrite (same_blocks a a' l' R) in Hn. pose proof (blocks_bound a W l').
  destruct (T l' n Hl Hn) as [To Tf].
  assert (X : (l' =? l)%nat && (s <=? n) && (n <? e) = false).
  { destruct (Nat.eqb_spec l' l) as [->|]; [|done]. destruct (Z.ltb_spec n e); [lia|]. apply andb_false_r. }
  assert (Y : occ a' l' n = false) by (by rewrite O, X by lia). split; [done|].
  destruct l' as [|l']; [done|]. by rewrite F, X by lia.
Qed.

Lemma mark_down_spec v l : ∀ a s e, alloc_wf a → (l < 4)%nat → 0 <= s <= e → e * pow32 l <= frames a →
  ∃ a', mark_down false (λ b s e, set_bits_to b s e v) l s e a = Some a' ∧ alloc_wf a' ∧ same_rest a a' ∧
    marked v a a' l s e ∧ (tidy a → tidy a').
Proof.
  induction l as [|l IH]; intros a s e W Hl Hs He;
    destruct (mark_down_step v _ a s e W Hl Hs He) as (a2 & E2 & W2 & R2 & O2 & F2); rewrite E2;
    pose proof (level_tidy v a a2 _ s e R2 (blocks_le a _ e He) O2 F2 W) as T2.
  - exists a2. split_and!; try done. split; intros l' n [Hn _]; rewrite inside_0; auto.
  - destruct (IH a2 (s * 32) (e * 32) W2) as (a' & E & W' & R' & [O' F'] & T'); [lia|lia| |].
    { rewrite (same_frames a a2 R2). rewrite pow32_S in He. lia. }
    exists a'. split_and!; try done; [by eapply same_rest_trans| |auto]. split; intros l' n Hn; pose proof Hn as [Hn0 _].
    + rewrite O', O2, inside_S by (rewrite ?(same_blocks a a2); done).
      by destruct (inside l (s * 32) (e * 32) l' n); rewrite ?orb_true_r, ?orb_false_r.
    + intros Hl'. rewrite F', F2, inside_S by (rewrite ?(same_blocks a a2); done).
      by destruct (inside l (s * 32) (e * 32) l' n); rewrite ?orb_true_r, ?orb_false_r.
Qed.

(** ** The blocks above *)

Lemma tally_le f n : tally f n <= Z.of_nat n.
Proof. induction n as [|n IH]; cbn [tally]; [lia|]. destruct (f (Z.of_nat n)); lia. Qed.

Lemma tally_full f n : tally f n = Z.of_nat n → ∀ k, 0 <= k < Z.of_nat n → f k = true.
Proof.
  induction n as [|n IH]; intros E k Hk; [lia|]. cbn [tally] in E. pose proof (tally_le f n).
  destruct (f (Z.of_nat n)) eqn:F; [|lia]. destruct (decide (k = Z.of_nat n)) as [->|]; [done|]. apply IH; lia.
Qed.

Lemma word_ones_full x r : 0 <= r < 32 → (∀ k, r <= k < 32 → Z.testbit x k = false) → word_ones x = r →
  ∀ k, 0 <= k < r → Z.testbit x k = true.
Proof.
  intros Hr F. unfold word_ones. rewrite ones_tally.
  replace 32%nat with (Z.to_nat r + (32 - Z.to_nat r))%nat by lia.
  rewrite tally_add, (tally_ext (λ k, Z.testbit x (Z.of_nat (Z.to_nat r) + k)) (λ _, false)), tally_false.
  - intros E k Hk. apply (tally_full _ (Z.to_nat r)); lia.
  - intros k Hk. apply F. lia.
Qed.

Lemma word_full a l b n : level_array a l b → 0 <= n < blocks a l →
  ∃ r, is_word_set b n = Some r ∧ (r = true → (∀ m, blocks a l <= m → bit b m = false) →
    ∀ m, 0 <= m < blocks a l → m / 32 = n / 32 → bit b m = true).
Proof.
  intros (B & N) Hn. unfold is_word_set. destruct (Z.ltb_spec n (num_bits b)); [|lia].
  destruct (word_at_Some b n B ltac:(lia)) as (x & E & Hx). rewrite E.
  assert (V : ∀ m, m / 32 = n / 32 → bit b m = Z.testbit x (m mod 32)).
  { intros m Em. unfold bit, BITS in *. unfold word_at in E. by rewrite Em, E. }
  unfold BITS in *. destruct (Z.eqb_spec (n / 32) (num_bits b / 32)) as [Q|Q]; eexists; (split; [done|]);
    intros R%Z.eqb_eq T m Hm Em; rewrite V by done.
  - apply (word_ones_full x (num_bits b mod 32)); [zdiv| |done|zdiv].
    intros k Hk. assert (F : bit b (32 * (n / 32) + k) = false) by (apply T; zdiv).
    rewrite V in F by zdiv. rewrite <- F. f_equal. zdiv.
  - rewrite R. apply (Z.ones_spec_low 32). zdiv.
Qed.

(** The number of the block of a level an address is in. *)
Lemma lower_index_anc a address size : alloc_wf a → 0 <= address < lower_end a →
  lower_index address (block_bytes size) = anc 0 (block_level size) (address / 4096) ∧
  0 <= address / 4096 < frames a.
Proof.
  intros W Ha. pose proof (wf_frames a W) as F. unfold lower_index, anc, frames, lower_end, MAX_PHYS_ADDR_4K in *.
  rewrite block_bytes_pow, Nat.sub_0_r, Z.div_div by (pose proof (pow32_pos (block_level size)); lia).
  pose proof (pow32_pos (block_level size)). split.
  - unfold u32, wrap. apply Z.mod_small. split; [apply Z.div_pos; lia|]. apply Z.div_lt_upper_bound; [lia|]. nia.
  - destruct (Z.min_spec (memory_size a) (2 ^ 32)) as [[? E]|[? E]]; rewrite E in *; zdiv.
Qed.

Lemma anc_frame a l f : 0 <= f < frames a → alloc_wf a → 0 <= anc 0 l f < blocks a l.
Proof. intros Hf W. apply (blocks_anc a 0 l). by rewrite blocks_0. Qed.

(** What one round leaves: the bits of level [l], and the filled bits above. *)
Definition raised (a a' : PhysPageAllocator) (L l : nat) (f : Z) : Prop :=
  (∀ l' n, 0 <= n → occ a' l' n = (l <=? l')%nat && (L <? l')%nat && (l' <? 4)%nat && (n =? anc 0 l' f) || occ a l' n) ∧
  (∀ l' n, 0 <= n → fil a l' n = true → fil a' l' n = true) ∧
  (∀ l' n, 0 <= n → (0 < l' < 4)%nat → fil a' l' n = true → fil a l' n = true ∨
     ((l < l')%nat ∧ n = anc 0 l' f ∧
      (tidy a → ∀ m, 0 <= m < blocks a (l' - 1) → m / 32 = n → fil a' (l' - 1) m = true))).

(** Bits set for blocks that exist keep the rest clear. *)
Lemma grown_tidy a a' f : alloc_wf a → same_rest a a' → 0 <= f < frames a →
  (∀ l n, 0 <= n → occ a' l n = true → occ a l n = true ∨ n = anc 0 l f) →
  (∀ l n, 0 <= n → (0 < l < 4)%nat → fil a' l n = true → fil a l n = true ∨ n = anc 0 l f) → tidy a → tidy a'.
Proof.
  intros W R Hf O F T l n Hl Hn. rewrite (same_blocks a a' l R) in Hn. pose proof (blocks_bound a W l).
  pose proof (anc_frame a l f Hf W). destruct (T l n Hl Hn) as [To Tf].
  assert (X : occ a' l n = false). { apply not_true_iff_false. intros E. apply O in E as [E|E]; [congruence|lia|lia]. }
  split; [done|]. destruct l as [|l]; [done|]. apply not_true_iff_false. intros E. apply F in E as [E|E]; [congruence|lia|lia|lia].
Qed.

Lemma raised_tidy a a' L l f : alloc_wf a → same_rest a a' → 0 <= f < frames a → raised a a' L l f → tidy a → tidy a'.
Proof.
  intros W R Hf (O & _ & N). apply (grown_tidy a a' f W R Hf).
  - intros l' n Hn. rewrite O by done. destruct (Z.eqb_spec n (anc 0 l' f)); [auto|]. rewrite andb_false_r. auto.
  - intros l' n Hn Hl' F. apply N in F as [F|(_ & F & _)]; auto.
Qed.

Lemma raise_occupied a address L l size : alloc_wf a → block_level size = l → 0 <= address < lower_end a →
  ∃ a1, (if (L <? l)%nat then on_occupied a l (λ b, bit_set b (lower_index address (block_bytes size))) else Some a) = Some a1 ∧
    alloc_wf a1 ∧ same_rest a a1 ∧ filled_status a1 = filled_status a ∧
    ∀ l' n, 0 <= n → occ a1 l' n = (l' =? l)%nat && (L <? l)%nat && (n =? anc 0 l (address / 4096)) || occ a l' n.
Proof.
  intros W <- Ha. pose proof (block_level_lt size) as Hl. destruct (lower_index_anc a address size W Ha) as [-> Hf].
  destruct (Nat.ltb_spec L (block_level size)).
  - destruct (on_occupied_spec a (block_level size) _ _ W Hl (bit_set_ok a _ _ (anc_frame a (block_level size) _ Hf W)))
      as (a1 & E & W1 & R1 & F1 & O1).
    exists a1. split_and!; try done. intros l' n Hn. rewrite O1 by done. by destruct (Nat.eqb_spec l' (block_level size)) as [->|].
  - exists a. split_and!; try done. intros l' n Hn. by rewrite andb_false_r.
Qed.

Lemma raise_filled a address l size : alloc_wf a → block_level size = l → 0 <= address < lower_end a →
  ∃ b full a2, filled_of a l = Some b ∧ is_word_set b (lower_index address (block_bytes size)) = Some full ∧
    (if full && (l + 1 <? total_sizes)%nat
     then next_size ← block_new (l + 1);
          on_filled a (l + 1)%nat (λ b, bit_set b (lower_index address (block_bytes next_size)))
     else Some a) = Some a2 ∧
    alloc_wf a2 ∧ same_rest a a2 ∧ occupied_status a2 = occupied_status a ∧
    (∀ l' n, 0 <= n → fil a l' n = true → fil a2 l' n = true) ∧
    (∀ l' n, 0 <= n → fil a2 l' n = true → fil a l' n = true ∨
       (l' = S l ∧ n = anc 0 (S l) (address / 4096) ∧ (tidy a → ∀ m, 0 <= m < blocks a l → m / 32 = n → fil a2 l m = true))).
Proof.
  intros W <- Ha. pose proof (block_level_lt size) as Hl. destruct (lower_index_anc a address size W Ha) as [-> Hf].
  set (l := block_level size) in *. destruct (filled_array a l W Hl) as (b & Eb & B & V).
  destruct (word_full a l b _ B (anc_frame a l _ Hf W)) as (full & Ef & K). exists b, full.
  destruct full; cbn [andb]; [|exists a; split_and!; try done; auto].
  destruct (Nat.ltb_spec (l + 1) total_sizes); unfold total_sizes in *; [|exists a; split_and!; try done; auto].
  destruct (block_new_Some (l + 1)) as (size' & Es & Hs); [lia|]. rewrite Es. cbn [mbind option_bind].
  destruct (lower_index_anc a address size' W Ha) as [-> _]. rewrite Hs.
  destruct (on_filled_spec a (l + 1) _ _ W ltac:(lia) (bit_set_ok a _ _ (anc_frame a (l + 1) _ Hf W)))
    as (a2 & E2 & W2 & R2 & F2 & O2).
  exists a2. split_and!; try done.
  - intros l' n Hn F. rewrite O2 by done. destruct (Nat.eqb_spec l' (l + 1)) as [->|]; [|done]. rewrite F. apply orb_true_r.
  - intros l' n Hn. rewrite O2 by done. destruct (Nat.eqb_spec l' (l + 1)) as [->|]; [|auto].
    destruct (Z.eqb_spec n (anc 0 (l + 1) (address / 4096))) as [->|]; [|auto]. intros _. right.
    replace (l + 1)%nat with (S l) by lia. split_and!; try done. intros T m Hm Em. rewrite O2 by lia.
    destruct (Nat.eqb_spec l (l + 1)); [lia|]. rewrite V. apply K; [done| |done|].
    { intros k Hk. rewrite <- V. by apply T. }
    rewrite Em.
    rewrite <- (anc_parent 0 (S l)) by lia. symmetry. unfold anc. rewrite !Nat.sub_0_r, Nat.sub_succ, Nat.sub_0_r.
    pose proof (pow32_pos l). rewrite !Z.div_div by lia. f_equal. lia.
Qed.

Lemma same_lower a a' : same_rest a a' → lower_end a' = lower_end a.
Proof. intros (E & _). unfold lower_end. by rewrite E. Qed.

Lemma mark_up_spec address L todo : ∀ l a, alloc_wf a → (l + todo = 4)%nat → (L <= l)%nat → 0 <= address < lower_end a →
  ∃ a', mark_up todo false address L l a = Some a' ∧ alloc_wf a' ∧ same_rest a a' ∧ raised a a' L l (address / 4096).
Proof.
  induction todo as [|todo IH]; intros l a W Hl HL Ha; cbn [mark_up].
  { exists a. split_and!; try done. split; [|auto]. intros l' n Hn.
    destruct (Nat.leb_spec l l'), (Nat.ltb_spec l' 4); try lia; cbn [andb]; by rewrite ?andb_false_r. }
  destruct (block_new_Some l) as (size & Es & Hs); [lia|]. rewrite Es. cbn [mbind option_bind].
  destruct (raise_occupied a address L l size W Hs Ha) as (a1 & E1 & W1 & R1 & F1 & O1). rewrite E1. cbn [mbind option_bind].
  destruct (raise_filled a1 address l size W1 Hs) as (b & full & a2 & Eb & Ef & E2 & W2 & R2 & F2 & M2 & N2);
    [by rewrite (same_lower a a1)|].
  rewrite Eb. cbn [mbind option_bind]. rewrite Ef. cbn [mbind option_bind]. rewrite E2. cbn [mbind option_bind].
  assert (R : same_rest a a2) by (by eapply same_rest_trans).
  destruct (IH (l + 1)%nat a2 W2) as (a' & E & W' & R' & O' & M' & N'); [lia|lia|by rewrite (same_lower a a2)|].
  rewrite E. exists a'. assert (X : ∀ l' n, 0 <= n → (0 < l')%nat → fil a1 l' n = fil a l' n) by (intros; by apply fil_same).
  destruct (lower_index_anc a address size W Ha) as [_ Hf].
  assert (T1 : tidy a → tidy a1).
  { apply (grown_tidy a a1 (address / 4096)); try done; intros l' n Hn; [|intros ?; rewrite X by lia; auto]. rewrite O1 by done.
    destruct (Nat.eqb_spec l' l) as [->|], (Z.eqb_spec n (anc 0 l (address / 4096))); cbn [andb]; rewrite ?andb_false_r; auto. }
  assert (T2 : tidy a1 → tidy a2).
  { apply (grown_tidy a1 a2 (address / 4096)); try done; [by rewrite (same_frames a a1)| |].
    - intros l' n Hn. rewrite (occ_same a1 a2 F2). auto.
    - intros l' n Hn Hl' F. apply N2 in F as [F|(-> & F & _)]; auto. }
  split_and!; try done; [by eapply same_rest_trans|]. split; [|split].
  - intros l' n Hn. rewrite O', (occ_same a1 a2 F2), O1 by done.
    destruct (Nat.leb_spec (l + 1) l'), (Nat.leb_spec l l'), (Nat.eqb_spec l' l) as [->|]; try lia; cbn [andb orb]; try done.
    by destruct (Nat.ltb_spec l 4); [|lia]; rewrite andb_true_r.
  - intros l' n Hn F. apply M', M2; try done. destruct l' as [|l']; [|by rewrite X by lia].
    rewrite fil_0 in *. rewrite O1, F by done. apply orb_true_r.
  - intros l' n Hn Hl' F. apply N' in F as [F|(F1' & F2' & F3')]; [|right; split_and!; [lia|done|]|done|done].
    + apply N2 in F as [F|(-> & -> & F)]; [left; by rewrite <- X by lia|right|done]. split_and!; [lia|done|].
      cbn [Nat.sub]. rewrite Nat.sub_0_r. intros T m Hm Em. apply M'; [lia|]. apply F; [auto| |done]. by rewrite (same_blocks a a1).
    + intros T m Hm. apply F3'; [auto|]. by rewrite (same_blocks a a2).
Qed.

(** ** Marking *)

(** A used block makes the block it is in occupied. *)
Definition summarised (a : PhysPageAllocator) : Prop :=
  ∀ l n, (S l < 4)%nat → 0 <= n < blocks a l → occ a l n = true → occ a (S l) (n / 32) = true.

(** A filled block is occupied, what is in it is filled, and no bit is set beyond
    the last block. *)
Definition consistent (a : PhysPageAllocator) : Prop :=
  (∀ l n, (S l < 4)%nat → 0 <= n < blocks a l → fil a (S l) (n / 32) = true → fil a l n = true) ∧
  (∀ l n, (l < 4)%nat → 0 <= n < blocks a l → fil a l n = true → occ a l n = true) ∧
  tidy a.

(** Frame [f] is in block [n] of the size. *)
Definition in_block (size : BlockSize) (n f : Z) : bool := f / pow32 (block_level size) =? n.

(** A block that is below 4G and ends in memory. *)
Definition whole_block (a : PhysPageAllocator) (size : BlockSize) (n : Z) : Prop :=
  0 <= n ∧ (n + 1) * block_bytes size <= lower_end a.

Lemma whole_block_facts a size n address : alloc_wf a → whole_block a size n → address / block_bytes size = n →
  0 <= address < lower_end a ∧ (MAX_PHYS_ADDR_4K <=? address) = false ∧ lower_index address (block_bytes size) = n ∧
  first_bit address size = n ∧ (n + 1) * pow32 (block_level size) <= frames a ∧
  ∀ l', (block_level size <= l')%nat → anc 0 l' (address / 4096) = anc (block_level size) l' n.
Proof.
  intros W [Hn H] E. pose proof (pow32_pos (block_level size)) as P. rewrite block_bytes_pow in *.
  set (p := pow32 (block_level size)) in *.
  assert (A : 0 <= address < lower_end a).
  { pose proof (Z.mod_pos_bound address (4096 * p) ltac:(lia)). pose proof (Z.div_mod address (4096 * p) ltac:(lia)). nia. }
  assert (U : (MAX_PHYS_ADDR_4K <=? address) = false) by (apply Z.leb_gt; unfold lower_end in A; lia).
  assert (Q : address / 4096 / p = n) by (by rewrite Z.div_div by lia).
  assert (I : lower_index address (4096 * p) = n).
  { subst p. rewrite <- block_bytes_pow. destruct (lower_index_anc a address size W A) as [-> _].
    unfold anc. by rewrite Nat.sub_0_r. }
  split; [exact A|]. split; [exact U|]. split; [exact I|]. split; [|split].
  - unfold first_bit. rewrite U, block_bytes_pow. exact I.
  - unfold frames. apply Z.div_le_lower_bound; lia.
  - intros l' Hl. unfold anc. rewrite Nat.sub_0_r, <- Q.
    replace (pow32 l') with (p * pow32 (l' - block_level size)) by (subst p; rewrite <- pow32_add; f_equal; lia).
    pose proof (pow32_pos (l' - block_level size)). rewrite (Z.div_div (address / 4096)) by lia. done.
Qed.

(** The result of marking a block: its frames get the value, the others keep theirs. *)
Definition frames_set (v : bool) (a a' : PhysPageAllocator) (size : BlockSize) (n : Z) : Prop :=
  ∀ f, 0 <= f < frames a → occ a' 0 f = if in_block size n f then v else occ a 0 f.

Lemma inside_one l n l' m : inside l n (n + 1) l' m = (l' <=? l)%nat && (anc l' l m =? n).
Proof.
  unfold inside. rewrite <- andb_assoc. f_equal.
  destruct (Z.leb_spec n (anc l' l m)), (Z.ltb_spec (anc l' l m) (n + 1)), (Z.eqb_spec (anc l' l m) n); try done; lia.
Qed.

Lemma marked_frames v a a' size n : alloc_wf a → marked v a a' (block_level size) n (n + 1) → frames_set v a a' size n.
Proof.
  intros W [O _] f Hf. rewrite O, inside_one by (rewrite ?blocks_0; done). unfold in_block, anc. by rewrite Nat.sub_0_r.
Qed.

Lemma mark_used_split a address size n : alloc_wf a → whole_block a size n → address / block_bytes size = n →
  ∃ a1 a', mark_used a address size = Some a' ∧ alloc_wf a' ∧ same_rest a a' ∧ same_rest a a1 ∧
    marked true a a1 (block_level size) n (n + 1) ∧ raised a1 a' (block_level size) (block_level size) (address / 4096) ∧
    (tidy a → tidy a1) ∧ (tidy a1 → tidy a').
Proof.
  intros W Hn E. pose proof Hn as [N _]. pose proof (block_level_lt size) as Hl.
  destruct (whole_block_facts a size n address W Hn E) as (A & U & I & FB & B & _).
  unfold mark_used. rewrite U, FB. cbn [andb]. pose proof (frames_bound a W). pose proof (pow32_pos (block_level size)).
  rewrite checked_ok by nia. cbn [mbind option_bind].
  destruct (mark_down_spec true (block_level size) a n (n + 1) W Hl ltac:(lia) B) as (a1 & E1 & W1 & R1 & K1 & T1).
  unfold set_bits. rewrite E1. cbn [mbind option_bind].
  destruct (mark_up_spec address (block_level size) (total_sizes - block_level size) (block_level size) a1 W1)
    as (a' & E' & W' & R' & K'); [unfold total_sizes; lia|lia|by rewrite (same_lower a a1)|].
  rewrite E'. exists a1, a'. split_and!; try done; [by eapply same_rest_trans|].
  apply (raised_tidy a1 a' (block_level size) (block_level size) (address / 4096)); try done.
  rewrite (same_frames a a1 R1). by apply (lower_index_anc a address size W A).
Qed.

Lemma anc_up l f : 0 <= f → anc 0 l f / 32 = anc 0 (S l) f.
Proof.
  intros Hf. unfold anc. rewrite !Nat.sub_0_r, pow32_S. pose proof (pow32_pos l).
  rewrite Z.div_div by lia. f_equal. lia.
Qed.

Lemma anc_S l n : anc l (S l) n = n / 32.
Proof. unfold anc. by replace (S l - l)%nat with 1%nat by lia. Qed.

Section mark_used.
  Context (a a1 a' : PhysPageAllocator) (L : nat) (n0 f : Z).
  Context (Hf : 0 <= f) (A : ∀ l', (L <= l')%nat → anc 0 l' f = anc L l' n0).
  Context (M : marked true a a1 L n0 (n0 + 1)) (R : raised a1 a' L L f).

Lemma marked_occ l n : 0 <= n < blocks a l →
  occ a' l n = (L <? l)%nat && (l <? 4)%nat && (n =? anc 0 l f) || (l <=? L)%nat && (anc l L n =? n0) || occ a l n.
Proof.
  intros Hn. destruct R as [O _], M as [O1 _]. rewrite O, O1, inside_one by (done || lia).
  destruct (Nat.ltb_spec L l), (Nat.leb_spec L l), (Nat.leb_spec l L); try lia; cbn [andb orb];
    destruct (anc l L n =? n0), (l <? 4)%nat, (n =? anc 0 l f); try done.
Qed.

Lemma marked_mono l n : 0 <= n < blocks a l → occ a l n = true → occ a' l n = true.
Proof. intros Hn E. rewrite marked_occ, E by done. by rewrite !orb_true_r. Qed.

Lemma marked_fil l n : 0 <= n < blocks a l → (l < 4)%nat → fil a l n = true ∨ (l <= L)%nat ∧ anc l L n = n0 → fil a' l n = true.
Proof.
  intros Hn Hl H. destruct R as (_ & Mo & _), M as [O1 F1]. apply Mo; [lia|]. destruct l as [|l].
  - rewrite fil_0 in *. rewrite O1, inside_one by done. destruct H as [->|[_ ->]]; [by destruct (_ && _)|].
    by rewrite Z.eqb_refl.
  - rewrite F1, inside_one by (done || lia). destruct H as [->|[Hl' ->]]; [by destruct (_ && _)|].
    rewrite Z.eqb_refl. by destruct (Nat.leb_spec (S l) L); [|lia].
Qed.

Lemma marked_fil_inv l n : 0 <= n < blocks a l → (0 < l < 4)%nat → fil a' l n = true →
  fil a l n = true ∨ ((l <= L)%nat ∧ anc l L n = n0) ∨
  ((L < l)%nat ∧ n = anc 0 l f ∧ (tidy a1 → ∀ m, 0 <= m < blocks a1 (l - 1) → m / 32 = n → fil a' (l - 1) m = true)).
Proof.
  intros Hn Hl H. destruct R as (_ & _ & N), M as [_ F1]. apply N in H as [H|H]; [|auto|lia|done].
  rewrite F1, inside_one in H by (done || lia). destruct (Nat.leb_spec l L), (Z.eqb_spec (anc l L n) n0); cbn [andb] in H; auto.
Qed.

Lemma marked_summarised : blocks a' = blocks a → summarised a → summarised a'.
Proof.
  intros B Sm l n Hl Hn. rewrite B in Hn. pose proof (blocks_parent a l n Hn) as Q. rewrite !marked_occ by done.
  intros H. destruct (occ a l n) eqn:E; [rewrite Sm by done; by rewrite orb_true_r|]. rewrite orb_false_r in H.
  apply orb_true_iff. left. apply orb_true_iff in H as [H|H]; apply andb_true_iff in H as [H1 H2%Z.eqb_eq].
  - apply andb_true_iff in H1 as [H1 H1']. apply Nat.ltb_lt in H1. subst n. rewrite anc_up, Z.eqb_refl by done.
    by destruct (Nat.ltb_spec L (S l)), (Nat.ltb_spec (S l) 4); try lia.
  - apply Nat.leb_le in H1. destruct (decide (l = L)) as [->|].
    + rewrite anc_refl in H2. subst n. rewrite A, anc_S, Z.eqb_refl by lia.
      by destruct (Nat.ltb_spec L (S L)), (Nat.ltb_spec (S L) 4); try lia.
    + rewrite anc_parent, H2, Z.eqb_refl by lia. by destruct (Nat.leb_spec (S l) L); [rewrite orb_true_r|lia].
Qed.

Lemma marked_consistent : blocks a' = blocks a → blocks a1 = blocks a → (tidy a → tidy a1) → (tidy a1 → tidy a') →
  consistent a → consistent a'.
Proof.
  intros B B1 T1 T' (C1 & C2 & T). split; [|split; [|auto]]; intros l n Hl Hn; rewrite B in Hn.
  - pose proof (blocks_parent a l n Hn) as Q. intros H. apply marked_fil_inv in H as [H|[[H1 H2]|(H1 & H2 & H3)]]; try lia.
    + apply marked_fil; [lia|lia|]. left. by apply C1.
    + apply marked_fil; [lia|lia|]. right. split; [lia|]. by rewrite <- anc_parent by lia.
    + cbn [Nat.sub] in H3. rewrite Nat.sub_0_r, B1 in H3. by apply H3; auto.
  - destruct l as [|l]; [done|]. intros H. apply marked_fil_inv in H as [H|[[H1 H2]|(H1 & H2 & _)]]; try lia.
    + apply marked_mono; [lia|]. by apply C2.
    + rewrite marked_occ, H2, Z.eqb_refl by lia. destruct (Nat.leb_spec (S l) L); [|lia]. cbn [andb]. by rewrite orb_true_r.
    + rewrite marked_occ, <- H2, Z.eqb_refl by lia. by destruct (Nat.ltb_spec L (S l)), (Nat.ltb_spec (S l) 4); try lia.
Qed.
End mark_used.

Lemma same_blocks_all a a' : same_rest a a' → blocks a' = blocks a.
Proof. intros (E & _). unfold blocks, frames, lower_end. by rewrite E. Qed.

Lemma marked_frames_set a a1 a' size n f : alloc_wf a → 0 <= f → marked true a a1 (block_level size) n (n + 1) →
  raised a1 a' (block_level size) (block_level size) f → frames_set true a a' size n.
Proof.
  intros W Hf M R g Hg. rewrite (marked_occ a a1 a' _ n _ M R) by (rewrite ?blocks_0; done). unfold in_block.
  replace (anc 0 (block_level size) g) with (g / pow32 (block_level size)) by (unfold anc; by rewrite Nat.sub_0_r).
  destruct (Nat.ltb_spec (block_level size) 0), (Nat.leb_spec 0 (block_level size)); try lia.
  by destruct (g / pow32 (block_level size) =? n).
Qed.

Lemma mark_used_spec a address size n : alloc_wf a → whole_block a size n → address / block_bytes size = n →
  ∃ a', mark_used a address size = Some a' ∧ alloc_wf a' ∧ same_rest a a' ∧ frames_set true a a' size n ∧
    (summarised a → summarised a') ∧ (consistent a → consistent a').
Proof.
  intros W Hn E. destruct (whole_block_facts a size n address W Hn E) as (A & _ & _ & _ & B & An).
  destruct (mark_used_split a address size n W Hn E) as (a1 & a' & Eq & W' & R' & R1 & M & R & T1 & T').
  assert (Hf : 0 <= address / 4096) by (apply Z.div_pos; lia).
  exists a'. split_and!; try done.
  - by apply (marked_frames_set a a1 a' size n (address / 4096)).
  - apply (marked_summarised a a1 a' (block_level size) n (address / 4096)); try done. by apply same_blocks_all.
  - apply (marked_consistent a a1 a' (block_level size) n (address / 4096)); try done; by apply same_blocks_all.
Qed.

(** The bits that [mark_free] clears. *)
Lemma freed_summarised a a' l n : marked false a a' l n (n + 1) → blocks a' = blocks a → summarised a → summarised a'.
Proof.
  intros [O _] B S k m Hl' Hm. rewrite B in Hm. pose proof (blocks_parent a k m Hm).
  rewrite !O, !inside_one by done. destruct (Nat.leb_spec k l), (Nat.leb_spec (Datatypes.S k) l); try lia; cbn [andb]; auto.
  - rewrite anc_parent by lia. destruct (_ =? n); [done|auto].
  - destruct (_ =? n); [done|auto].
Qed.

Lemma mark_free_spec a address size n : alloc_wf a → whole_block a size n → address / block_bytes size = n →
  ∃ a', mark_free a address size = Some a' ∧ alloc_wf a' ∧ same_rest a a' ∧ frames_set false a a' size n ∧
    marked false a a' (block_level size) n (n + 1) ∧ (summarised a → summarised a').
Proof.
  intros W Hn E. pose proof Hn as [N _]. pose proof (block_level_lt size) as Hl.
  destruct (whole_block_facts a size n address W Hn E) as (A & U & I & FB & B & _).
  unfold mark_free. rewrite U, FB. pose proof (frames_bound a W). pose proof (pow32_pos (block_level size)).
  rewrite checked_ok by nia. cbn [mbind option_bind].
  destruct (mark_down_spec false (block_level size) a n (n + 1) W Hl ltac:(lia) B) as (a' & E' & W' & R' & K & _).
  unfold clear_bits. rewrite E'. exists a'. split_and!; try done; [by apply marked_frames|].
  apply (freed_summarised a a' _ n K). by apply same_blocks_all.
Qed.

(** ** Blocks that go beyond the end of memory *)

(** When memory does not end with a block, the last one exists in part.  What
    marking it does, unless it panics, and when it panics. *)

Lemma on_occupied_inv a l f a' : on_occupied a l f = Some a' →
  ∃ b b', occupied_status a !! l = Some b ∧ f b = Some b' ∧ a' = set_occupied a (<[l := b']> (occupied_status a)).
Proof.
  unfold on_occupied, at_index. destruct (_ !! l) as [b|] eqn:E; cbn; [|done]. destruct (f b) as [b'|] eqn:F; cbn; [|done].
  intros [= <-]. by exists b, b'.
Qed.

Lemma on_filled_inv a l f a' : on_filled a (S l) f = Some a' →
  ∃ b b', filled_status a !! l = Some b ∧ f b = Some b' ∧ a' = set_filled a (<[l := b']> (filled_status a)).
Proof.
  unfold on_filled, at_index. destruct (_ !! l) as [b|] eqn:E; cbn; [|done]. destruct (f b) as [b'|] eqn:F; cbn; [|done].
  intros [= <-]. by exists b, b'.
Qed.

Lemma part_occupied v a l s e a' : alloc_wf a → (l < 4)%nat → 0 <= s <= e → s <= blocks a l →
  on_occupied a l (λ b, set_bits_to b s e v) = Some a' →
  alloc_wf a' ∧ same_rest a a' ∧ filled_status a' = filled_status a ∧
  (s mod 32 = 0 → e mod 32 = 0 → s < e → e <= 32 * word_count (blocks a l)) ∧
  ∀ l' k, 0 <= k < blocks a l' → occ a' l' k = if (l' =? l)%nat && (s <=? k) && (k <? e) then v else occ a l' k.
Proof.
  intros W Hl Hs He (b & b' & E & F & ->)%on_occupied_inv. destruct (wf_occupied a W l Hl) as (b0 & E' & B & N).
  rewrite E in E'. injection E' as <-. destruct (set_bits_to_inv b s e v b' B Hs ltac:(lia) F) as (B' & N' & L & G).
  rewrite N in *. split_and!; try done.
  - destruct W as [W1 W2 W3 W4]. split; try done. intros m Hm. cbn [occupied_status set_occupied]. destruct (decide (m = l)) as [->|].
    + exists b'. split; [apply list_lookup_insert_eq; by eapply lookup_lt_Some|done].
    + rewrite list_lookup_insert_ne by done. exact (W3 m Hm).
  - intros l' k Hk. unfold occ. cbn [occupied_status set_occupied]. destruct (Nat.eqb_spec l' l) as [->|].
    + rewrite list_lookup_insert_eq by (by eapply lookup_lt_Some). rewrite E. by apply G.
    + by rewrite list_lookup_insert_ne.
Qed.

Lemma part_filled v a l s e a' : alloc_wf a → (S l < 4)%nat → 0 <= s <= e → s <= blocks a (S l) →
  on_filled a (S l) (λ b, set_bits_to b s e v) = Some a' →
  alloc_wf a' ∧ same_rest a a' ∧ occupied_status a' = occupied_status a ∧
  ∀ l' k, 0 <= k < blocks a l' → (0 < l')%nat →
    fil a' l' k = if (l' =? S l)%nat && (s <=? k) && (k <? e) then v else fil a l' k.
Proof.
  intros W Hl Hs He (b & b' & E & F & ->)%on_filled_inv. destruct (wf_filled a W l ltac:(lia)) as (b0 & E' & B & N).
  rewrite E in E'. injection E' as <-. destruct (set_bits_to_inv b s e v b' B Hs ltac:(lia) F) as (B' & N' & L & G).
  rewrite N in *. split_and!; try done.
  - destruct W as [W1 W2 W3 W4]. split; try done. intros m Hm. cbn [filled_status set_filled]. destruct (decide (m = l)) as [->|].
    + exists b'. split; [apply list_lookup_insert_eq; by eapply lookup_lt_Some|done].
    + rewrite list_lookup_insert_ne by done. exact (W4 m Hm).
  - intros l' k Hk Hl'. destruct l' as [|l']; [lia|]. unfold fil, filled_of. cbn [filled_status set_filled].
    change (S l' =? S l)%nat with (l' =? l)%nat. destruct (Nat.eqb_spec l' l) as [->|].
    + rewrite list_lookup_insert_eq by (by eapply lookup_lt_Some). rewrite E. by apply G.
    + by rewrite list_lookup_insert_ne.
Qed.

Lemma part_level v a l s e a2 : alloc_wf a → (l < 4)%nat → 0 <= s <= e → s <= blocks a l →
  (a ← on_occupied a l (λ b, set_bits_to b s e v);
   if (0 <? l)%nat then on_filled a l (λ b, set_bits_to b s e v) else Some a) = Some a2 →
  alloc_wf a2 ∧ same_rest a a2 ∧ (s mod 32 = 0 → e mod 32 = 0 → s < e → e <= 32 * word_count (blocks a l)) ∧
  (∀ l' n, 0 <= n < blocks a l' → occ a2 l' n = if (l' =? l)%nat && (s <=? n) && (n <? e) then v else occ a l' n) ∧
  (∀ l' n, 0 <= n < blocks a l' → (0 < l')%nat → fil a2 l' n = if (l' =? l)%nat && (s <=? n) && (n <? e) then v else fil a l' n).
Proof.
  intros W Hl Hs He. destruct (on_occupied a l _) as [a1|] eqn:E1; cbn [mbind option_bind]; [|done].
  destruct (part_occupied v a l s e a1 W Hl Hs He E1) as (W1 & R1 & F1 & L1 & O1). destruct l as [|l]; cbn [Nat.ltb Nat.leb].
  - intros [= <-]. split_and!; try done. intros l' n Hn Hl'. destruct (Nat.eqb_spec l' 0); [lia|]. by rewrite (fil_same a a1).
  - intros E2. destruct (part_filled v a1 l s e a2 W1 Hl Hs) as (W2 & R2 & F2 & O2); [by rewrite (same_blocks a a1)|done|].
    split_and!; try done; [by eapply same_rest_trans| |].
    + intros l' n Hn. by rewrite (occ_same a1 a2 F2), O1.
    + intros l' n Hn Hl'. rewrite O2 by (rewrite ?(same_blocks a a1); done). by rewrite (fil_same a a1).
Qed.

Lemma checked_inv w x y : checked w x = Some y → y = x.
Proof. unfold checked. destruct (_ && _); [|done]. by intros [= <-]. Qed.

Lemma part_down v l : ∀ a s e a', alloc_wf a → (l < 4)%nat → 0 <= s < e → s < blocks a l →
  mark_down false (λ b s e, set_bits_to b s e v) l s e a = Some a' →
  alloc_wf a' ∧ same_rest a a' ∧ marked v a a' l s e ∧
  (s * pow32 l mod 32 = 0 → e * pow32 l mod 32 = 0 → e * pow32 l <= 32 * word_count (frames a)).
Proof.
  induction l as [|l IH]; intros a s e a' W Hl Hs He E.
  all: match type of E with mark_down _ _ ?l0 _ _ _ = _ =>
    assert (X : ∃ a2, (a ← on_occupied a l0 (λ b, set_bits_to b s e v);
      if (0 <? l0)%nat then on_filled a l0 (λ b, set_bits_to b s e v) else Some a) = Some a2 ∧
      match l0 with O => Some a2 | S l => mark_down false (λ b s e, set_bits_to b s e v) l (s * 32) (e * 32) a2 end = Some a') end.
  1, 3: cbn [mark_down] in E; destruct (on_occupied a _ _) as [a1|]; [|done]; cbn [mbind option_bind] in E |- *;
    cbn [Nat.ltb Nat.leb] in E |- *; try destruct (on_filled a1 _ _) as [a2|]; try done; cbn [mbind option_bind] in E;
    destruct (checked 32 (s * bits_per_word)) as [s'|] eqn:Es; [|done]; cbn [mbind option_bind] in E;
    destruct (checked 32 (e * bits_per_word)) as [e'|] eqn:Ee; [|done]; cbn [mbind option_bind] in E;
    apply checked_inv in Es as ->; apply checked_inv in Ee as ->; eexists; (split; [reflexivity|exact E]).
  - destruct X as (a2 & E2 & [= <-]). destruct (part_level v a 0 s e a2 W Hl ltac:(lia) ltac:(lia) E2) as (W2 & R2 & L2 & O2 & F2).
    split_and!; try done; [split; intros l' n Hn; rewrite inside_0; auto|]. change (pow32 0) with 1. rewrite !Z.mul_1_r, <- (blocks_0 a).
    intros. apply L2; [done|done|lia].
  - destruct X as (a2 & E2 & E3).
    destruct (part_level v a (S l) s e a2 W Hl ltac:(lia) ltac:(lia) E2) as (W2 & R2 & _ & O2 & F2).
    destruct (IH a2 (s * 32) (e * 32) a' W2) as (W' & R' & [O' F'] & L'); [lia|lia| |done|].
    { rewrite (same_blocks a a2 l R2). apply blocks_lt. apply blocks_lt in He. rewrite pow32_S in He. lia. }
    split_and!; try done; [by eapply same_rest_trans| |].
    + split; intros l' n Hn; pose proof Hn as [Hn0 _].
      * rewrite O', O2, inside_S by (rewrite ?(same_blocks a a2); done).
        by destruct (inside l (s * 32) (e * 32) l' n); rewrite ?orb_true_r, ?orb_false_r.
      * intros Hl'. rewrite F', F2, inside_S by (rewrite ?(same_blocks a a2); done).
        by destruct (inside l (s * 32) (e * 32) l' n); rewrite ?orb_true_r, ?orb_false_r.
    + rewrite (same_frames a a2 R2) in L'. rewrite pow32_S, !Z.mul_assoc. exact L'.
Qed.

Lemma block_facts a size n : alloc_wf a → 0 <= n < blocks a (block_level size) →
  let address := n * block_bytes size in
  0 <= address < lower_end a ∧ (MAX_PHYS_ADDR_4K <=? address) = false ∧ address / block_bytes size = n ∧
  first_bit address size = n ∧ (∀ l', (block_level size <= l')%nat → anc 0 l' (address / 4096) = anc (block_level size) l' n).
Proof.
  intros W [H0 H] address. rewrite blocks_lt in H. pose proof (pow32_pos (block_level size)) as P.
  pose proof (Z.mul_div_le (lower_end a) 4096 ltac:(lia)) as M. unfold frames in H.
  assert (A : 0 <= address < lower_end a) by (unfold address; rewrite block_bytes_pow; nia).
  assert (U : (MAX_PHYS_ADDR_4K <=? address) = false) by (apply Z.leb_gt; unfold lower_end in A; lia).
  assert (Q : address / 4096 = n * pow32 (block_level size)).
  { unfold address. rewrite block_bytes_pow. replace (n * (4096 * pow32 (block_level size))) with (n * pow32 (block_level size) * 4096) by ring.
    by apply Z.div_mul. }
  assert (I : address / block_bytes size = n) by (apply Z.div_mul; rewrite block_bytes_pow; lia).
  split_and!; try done; try lia.
  - unfold first_bit. rewrite U. destruct (lower_index_anc a address size W A) as [-> _]. rewrite Q. unfold anc.
    rewrite Nat.sub_0_r. apply Z.div_mul. lia.
  - intros l' Hl. rewrite Q. unfold anc. rewrite Nat.sub_0_r.
    replace (pow32 l') with (pow32 (block_level size) * pow32 (l' - block_level size)) by (rewrite <- pow32_add; f_equal; lia).
    pose proof (pow32_pos (l' - block_level size)). rewrite <- Z.div_div, Z.div_mul by lia. done.
Qed.

Lemma pow32_word l x : (0 < l)%nat → x * pow32 l mod 32 = 0.
Proof. intros Hl. destruct l as [|l]; [lia|]. rewrite pow32_S, Z.mul_assoc, (Z.mul_comm x), <- Z.mul_assoc, Z.mul_comm. by apply Z.mod_mul. Qed.

Lemma mark_used_part a size n a' : alloc_wf a → 0 <= n < blocks a (block_level size) →
  mark_used a (n * block_bytes size) size = Some a' →
  alloc_wf a' ∧ same_rest a a' ∧ frames_set true a a' size n ∧ (summarised a → summarised a') ∧
  ((0 < block_level size)%nat → (n + 1) * pow32 (block_level size) <= 32 * word_count (frames a)).
Proof.
  intros W Hn. pose proof (block_level_lt size) as Hl. destruct (block_facts a size n W Hn) as (A & U & _ & FB & An).
  set (address := n * block_bytes size) in *. unfold mark_used. rewrite U, FB. cbn [andb].
  pose proof (blocks_bound a W (block_level size)). rewrite checked_ok by lia. cbn [mbind option_bind].
  destruct (mark_down _ _ _ _ _ a) as [a1|] eqn:E1; [|done]. cbn [mbind option_bind].
  destruct (part_down true _ a n (n + 1) a1 W Hl ltac:(lia) ltac:(lia) E1) as (W1 & R1 & M & L).
  destruct (mark_up_spec address (block_level size) (total_sizes - block_level size) (block_level size) a1 W1)
    as (a2 & E' & W' & R' & K'); [unfold total_sizes; lia|lia|by rewrite (same_lower a a1)|].
  rewrite E'. intros [= <-]. assert (Hf : 0 <= address / 4096) by (apply Z.div_pos; lia).
  assert (R : same_rest a a2) by (by eapply same_rest_trans). split_and!; try done.
  - by apply (marked_frames_set a a1 a2 size n (address / 4096)).
  - apply (marked_summarised a a1 a2 (block_level size) n (address / 4096)); try done. by apply same_blocks_all.
  - intros H0. apply L; by apply pow32_word.
Qed.

Lemma mark_free_part a size n a' : alloc_wf a → 0 <= n < blocks a (block_level size) →
  mark_free a (n * block_bytes size) size = Some a' →
  alloc_wf a' ∧ same_rest a a' ∧ frames_set false a a' size n ∧ (summarised a → summarised a').
Proof.
  intros W Hn. pose proof (block_level_lt size) as Hl. destruct (block_facts a size n W Hn) as (A & U & _ & FB & An).
  unfold mark_free. rewrite U, FB. pose proof (blocks_bound a W (block_level size)). rewrite checked_ok by lia. cbn [mbind option_bind].
  intros E. destruct (part_down false _ a n (n + 1) a' W Hl ltac:(lia) ltac:(lia) E) as (W1 & R1 & M & _).
  split_and!; try done; [by apply marked_frames|]. apply (freed_summarised a a' _ n M). by apply same_blocks_all.
Qed.

(** Where memory ends with a word of frames, every block that can be marked is in
    memory. *)
Lemma part_whole a size n : alloc_wf a → lower_end a mod block_bytes Block128k = 0 → 0 <= n < blocks a (block_level size) →
  ((0 < block_level size)%nat → (n + 1) * pow32 (block_level size) <= 32 * word_count (frames a)) → whole_block a size n.
Proof.
  intros W D [H0 H] L. split; [done|]. rewrite block_bytes_pow. cbn [block_bytes] in D.
  assert (F : 4096 * frames a = lower_end a ∧ 32 * word_count (frames a) = frames a).
  { unfold word_count, frames, BITS. assert (lower_end a / 4096 mod 32 = 0) as E by zdiv. rewrite E. cbn [Z.eqb negb]. split; zdiv. }
  destruct F as [F1 F2]. destruct (decide (block_level size = 0)%nat) as [E|].
  - rewrite E in *. change (pow32 0) with 1. rewrite blocks_0 in H. lia.
  - specialize (L ltac:(lia)). lia.
Qed.

(** ** Searching *)

(** The first position, from [i] on, of a block whose bit is clear. *)
Definition first_clear (g : Z → bool) (count i : Z) (r : option Z) : Prop :=
  match r with
  | None => ∀ k, i <= k < count → g k = true
  | Some n => i <= n < count ∧ g n = false ∧ ∀ k, i <= k < n → g k = true
  end.

Lemma next_clear b i : array_wf b → 0 <= i <= num_bits b →
  ∃ r j, next b FilterZero i = Some (r, j) ∧ first_clear (bit b) (num_bits b) i r ∧
    match r with Some n => j = n + 1 | None => True end.
Proof.
  intros W Hi. destruct (next_bits b FilterZero i W Hi) as (r & j & E & K). exists r, j. split; [done|].
  unfold first_clear. cbn [wanted] in K. destruct r as [n|].
  - destruct K as (K1 & K2 & K3 & ->). split; [|done]. split_and!; try lia; [by destruct (bit b n)|].
    intros k Hk. specialize (K3 k Hk). by destruct (bit b k).
  - split; [|done]. intros k Hk. specialize (K k Hk). by destruct (bit b k).
Qed.

Lemma search_each_spec b sub fuel : ∀ i, array_wf b → 0 <= i <= num_bits b → (Z.to_nat (num_bits b - i) < fuel)%nat →
  (∀ n, i <= n < num_bits b → bit b n = false → is_Some (sub n)) →
  ∃ r, search_each fuel b sub i = Some r ∧
    (∀ x, r = Some x → ∃ n, i <= n < num_bits b ∧ bit b n = false ∧ sub n = Some (Some x)) ∧
    (∀ n x, first_clear (bit b) (num_bits b) i (Some n) → sub n = Some (Some x) → r = Some x).
Proof.
  induction fuel as [|fuel IH]; intros i W Hi F H; [lia|]. cbn [search_each].
  destruct (next_clear b i W Hi) as (r & j & E & K & J). rewrite E. cbn [mbind option_bind]. destruct r as [n|].
  - subst j. destruct K as (K1 & K2 & K3). destruct (H n K1 K2) as [found S]. rewrite S. cbn [mbind option_bind].
    assert (U : ∀ m, first_clear (bit b) (num_bits b) i (Some m) → m = n).
    { intros m (M1 & M2 & M3). destruct (Z.lt_trichotomy m n) as [L|[L|L]]; [|done|].
      - rewrite K3 in M2 by lia. done.
      - rewrite M3 in K2 by lia. done. }
    destruct found as [y|].
    + exists (Some y). split; [done|]. split; [intros x [= <-]; eauto|]. intros m x M. rewrite (U m M), S. congruence.
    + destruct (IH (n + 1)) as (r & E' & A & B); [done|lia|lia|intros m Hm; apply H; lia|].
      exists r. split; [done|]. split.
      * intros x Ex. destruct (A x Ex) as (m & Hm & Bm). exists m. split; [lia|done].
      * intros m x M. rewrite (U m M), S. congruence.
  - exists None. split; [done|]. split; [done|]. intros n x (M1 & M2 & _). rewrite K in M2 by done. done.
Qed.
