(* ===== verification/PhysAllocSearch.v ===== *)
(** * Finding, allocating and releasing blocks of physical memory *)

From S2P Require Import Prelude Region BitArray BitArraySpec PhysAlloc PhysAllocSpec.

(** ** The search *)

(** How far the start of the search can be at a level. *)
Definition reach (l : nat) : Z :=
  match l with 3%nat => 0 | 2%nat => 2 ^ 20 | 1%nat => 33 * 2 ^ 20 | _ => 1057 * 2 ^ 20 end.

Lemma reach_next l start b : (S l < 4)%nat → 0 <= start <= reach (S l) → 0 <= b <= 2 ^ 20 →
  0 <= 32 * start + b <= reach l ∧ 32 * start + b < 2 ^ 32.
Proof. intros Hl. destruct l as [|[|[|]]]; cbn [reach]; lia. Qed.

(** One level of the search. *)
Lemma find_from_here a size start : alloc_wf a → 0 <= start →
  ∃ r, find_from (block_level size) a start size = Some (option_map (λ n, n * block_bytes size) r) ∧
    first_clear (occ a (block_level size)) (blocks a (block_level size)) (Z.min start (blocks a (block_level size))) r.
Proof.
  intros W Hs. destruct (occupied_array a (block_level size) W (block_level_lt size)) as (b & E & (B & N) & V).
  pose proof (blocks_bound a W (block_level size)).
  destruct (next_clear b (start_from start b) B) as (r & j & En & K & _); [unfold start_from; lia|].
  exists r. split.
  - transitivity (b ← occupied_status a !! block_level size; r ← next b FilterZero (start_from start b);
                  Some (option_map (λ n, n * block_bytes size) (fst r))).
    { by destruct size. }
    rewrite E. cbn [mbind option_bind]. rewrite En. done.
  - unfold start_from in K. rewrite N in K. unfold first_clear in *. destruct r as [n|].
    + destruct K as (K1 & K2 & K3). split_and!; try lia; [by rewrite V|]. intros k Hk. rewrite V. by apply K3.
    + intros k Hk. rewrite V. by apply K.
Qed.

Lemma find_from_below a size l start : alloc_wf a → (block_level size <= l)%nat → (S l < 4)%nat → 0 <= start <= reach (S l) →
  (∀ s, 0 <= s <= reach l → is_Some (find_from l a s size)) →
  ∃ r, find_from (S l) a start size = Some r ∧
    (∀ x, r = Some x → ∃ s, 0 <= s <= reach l ∧ find_from l a s size = Some (Some x)) ∧
    (∀ n x, start <= n → first_clear (fil a (S l)) (blocks a (S l)) start (Some n) →
       find_from l a (32 * start + n) size = Some (Some x) → r = Some x).
Proof.
  intros W HL Hl Hs H. destruct (filled_array a (S l) W Hl) as (b & E & (B & N) & V).
  pose proof (blocks_bound a W (S l)) as BB. set (i := start_from start b). assert (Hi : 0 <= i <= num_bits b) by (unfold i, start_from; lia).
  set (sub := λ n, start ← checked 32 (bits_per_word * start + n); find_from l a start size).
  assert (Sub : ∀ n, 0 <= n < num_bits b → sub n = find_from l a (32 * start + n) size).
  { intros n Hn. destruct (reach_next l start n Hl Hs ltac:(lia)). unfold sub, bits_per_word, BITS. by rewrite checked_ok by lia. }
  destruct (search_each_spec b sub (S (Z.to_nat (num_bits b))) i B Hi) as (r & Er & A & C); [lia| |].
  { intros n Hn _. rewrite Sub by lia. apply H. apply reach_next; lia. }
  exists r. split; [|split].
  - transitivity (f ← filled_of a (S l); search_each (S (Z.to_nat (num_bits f))) f sub (start_from start f)).
    { cbn [find_from]. destruct (Nat.eqb_spec (S l) (block_level size)); [lia|done]. }
    rewrite E. exact Er.
  - intros x Ex. destruct (A x Ex) as (n & Hn & _ & F). rewrite Sub in F by lia. eexists. split; [|exact F].
    apply reach_next; lia.
  - intros n x Hn (M1 & M2 & M3) F. unfold i, start_from in *. rewrite N in *. apply (C n).
    + rewrite Z.min_l in * by lia. split_and!; try lia; [by rewrite <- V|]. intros k Hk. rewrite <- V. by apply M3.
    + by rewrite Sub by lia.
Qed.

(** What is found is a block that is not occupied. *)
Lemma find_from_sound a size l : alloc_wf a → (block_level size <= l)%nat → (l < 4)%nat → ∀ start, 0 <= start <= reach l →
  ∃ r, find_from l a start size = Some r ∧
    ∀ x, r = Some x → ∃ n, 0 <= n < blocks a (block_level size) ∧ occ a (block_level size) n = false ∧ x = n * block_bytes size.
Proof.
  intros W. set (L := block_level size). induction l as [|l IH]; intros HL Hl start Hs.
  1: assert (0%nat = L) as Eq by lia. 2: destruct (decide (S l = L)) as [Eq|].
  1, 2: rewrite Eq; destruct (find_from_here a size start W ltac:(lia)) as (r & E & K); eexists; (split; [exact E|]).
  1, 2: intros x Ex; destruct r as [n|]; [|done]; destruct K as (K1 & K2 & _); exists n.
  1, 2: pose proof (blocks_bound a W L); fold L in K1, K2; split_and!; try done; try lia; by injection Ex as <-.
  destruct (find_from_below a size l start W ltac:(fold L; lia) Hl Hs) as (r & E & A & _).
  { intros s Hs'. destruct (IH ltac:(lia) ltac:(lia) s Hs') as (r & E & _). by exists r. }
  exists r. split; [exact E|]. intros x Ex. destruct (A x Ex) as (s & Hs' & F).
  destruct (IH ltac:(lia) ltac:(lia) s Hs') as (r' & E' & K). rewrite F in E'. injection E' as <-. by apply K.
Qed.

(** Nothing on the way to a free block is filled. *)
Lemma filled_below a d : consistent a → ∀ L n, 0 <= n < blocks a L → (L + d < 4)%nat →
  fil a (L + d) (anc L (L + d) n) = true → fil a L n = true.
Proof.
  intros [C1 _]. induction d as [|d IH]; intros L n Hn Hd F; [by rewrite Nat.add_0_r, anc_refl in F|].
  rewrite <- anc_parent in F by lia. replace (L + S d)%nat with (S L + d)%nat in F by lia.
  apply C1; [lia|done|]. apply IH; [by apply blocks_parent|lia|done].
Qed.

Lemma path_not_filled a L l n : consistent a → 0 <= n < blocks a L → (L <= l < 4)%nat →
  occ a L n = false → fil a l (anc L l n) = false.
Proof.
  intros C Hn Hd O. apply not_true_iff_false. intros F. apply not_true_iff_false in O. apply O.
  apply (proj1 (proj2 C)); [lia|done|]. apply (filled_below a (l - L) C); [done|lia|]. by replace (L + (l - L))%nat with l by lia.
Qed.

(** The search starts behind no block that is not filled: [d] levels down, the
    start is at most [d] thirty-seconds of any of them. *)
Definition ahead (a : PhysPageAllocator) (l : nat) (d start : Z) : Prop :=
  ∀ b, 0 <= b < blocks a l → fil a l b = false → 32 * start <= d * b.

Lemma ahead_next a l d start b : alloc_wf a → consistent a → (S l < 4)%nat → 0 <= d <= 3 → 0 <= start → ahead a (S l) d start →
  first_clear (fil a (S l)) (blocks a (S l)) start (Some b) → ahead a l (d + 1) (32 * start + b).
Proof.
  intros W [C1 _] Hl Hd Hs A (B1 & B2 & B3) n Hn F. pose proof (blocks_parent a l n Hn) as P.
  assert (G : fil a (S l) (n / 32) = false).
  { apply not_true_iff_false. intros G. apply C1 in G; [|done|done]. congruence. }
  pose proof (A b ltac:(lia) B2). pose proof (A (n / 32) P G).
  assert (start <= n / 32) by nia. assert (b <= n / 32). { apply Z.nlt_ge. intros L. rewrite B3 in G by lia. done. }
  assert (32 * b <= n) by zdiv. nia.
Qed.

Lemma first_clear_exists g count i n : i <= n < count → g n = false → ∃ m, m <= n ∧ first_clear g count i (Some m).
Proof.
  intros Hn G. remember (Z.to_nat (n - i)) as k eqn:K. revert i Hn K. induction k as [|k IH]; intros i Hn K.
  - exists n. split; [lia|]. split; [done|]. split; [done|]. intros; lia.
  - destruct (g i) eqn:Gi.
    + destruct (IH (i + 1)) as (m & Hm & M1 & M2 & M3); [lia|lia|]. exists m. split; [done|]. split_and!; try done; try lia.
      intros j Hj. destruct (decide (j = i)) as [->|]; [done|]. apply M3. lia.
    + exists i. split; [lia|]. split_and!; try done; try lia.
Qed.

Lemma find_from_first a size t l : alloc_wf a → consistent a → (block_level size <= l)%nat → (l < 4)%nat →
  first_clear (occ a (block_level size)) (blocks a (block_level size)) 0 (Some t) →
  ∀ start, 0 <= start <= reach l → start <= anc (block_level size) l t → ahead a l (3 - Z.of_nat l) start →
  find_from l a start size = Some (Some (t * block_bytes size)).
Proof.
  set (L := block_level size). intros W C. induction l as [|l IH]; intros HL Hl (T1 & T2 & T3) start Hs Ha Hk.
  1: assert (0%nat = L) as Eq by lia. 2: destruct (decide (S l = L)) as [Eq|].
  1, 2: rewrite Eq in *; rewrite anc_refl in Ha; destruct (find_from_here a size start W ltac:(lia)) as (r & E & K); fold L in E, K.
  1, 2: rewrite E; do 2 f_equal; destruct r as [n|]; cbn [option_map].
  1, 3: destruct K as (K1 & K2 & K3); do 2 f_equal; destruct (Z.lt_trichotomy n t) as [X|[X|X]]; [|done|];
          [rewrite T3 in K2 by lia|rewrite K3 in T2 by lia]; done.
  1, 2: rewrite K in T2 by lia; done.
  pose proof (path_not_filled a L (S l) t C T1 ltac:(lia) T2) as N.
  assert (P : 0 <= anc L (S l) t < blocks a (S l)).
  { replace (S l) with (L + (S l - L))%nat by lia. by apply blocks_anc. }
  destruct (first_clear_exists (fil a (S l)) (blocks a (S l)) start (anc L (S l) t) ltac:(lia) N) as (b & Hb & B).
  pose proof B as (B1 & B2 & _). pose proof (Hk b ltac:(lia) B2) as K. pose proof (blocks_bound a W (S l)).
  destruct (find_from_below a size l start W ltac:(fold L; lia) Hl Hs) as (r & E & _ & F).
  { intros s Hs'. destruct (find_from_sound a size l W ltac:(fold L; lia) ltac:(lia) s Hs') as (r & E & _). by exists r. }
  rewrite E. f_equal. apply (F b); [lia|done|]. apply IH; [lia|lia|done|apply reach_next; lia| |].
  - assert (32 * anc L (S l) t <= anc L l t).
    { replace (anc L (S l) t) with (anc L l t / 32); [zdiv|]. unfold anc. replace (S l - L)%nat with (l - L + 1)%nat by lia.
      rewrite pow32_add. pose proof (pow32_pos (l - L)). by rewrite Z.div_div by (unfold pow32; lia). }
    nia.
  - replace (3 - Z.of_nat l) with (3 - Z.of_nat (S l) + 1) by lia. apply ahead_next; try done; lia.
Qed.

(** ** A new allocator *)

Lemma blocks_of_eq F p : 0 <= F <= 2 ^ 28 → 0 < p <= 2 ^ 15 → blocks_of (4096 * F) (4096 * p) = Some ((F + p - 1) / p).
Proof.
  intros HF Hp. unfold blocks_of, align, align_next, is_aligned. rewrite Z.mul_mod_distr_l by lia.
  pose proof (Z.div_mod F p ltac:(lia)) as D. pose proof (Z.mod_pos_bound F p ltac:(lia)) as M.
  assert (Q : 0 <= F / p <= 2 ^ 28) by (split; [apply Z.div_pos; lia|apply Z.div_le_upper_bound; nia]).
  destruct (Z.eqb_spec (4096 * (F mod p)) 0) as [Z0|Z0]; cbn [negb].
  - cbn [mbind option_bind]. rewrite Z.div_mul_cancel_l by lia. unfold wrap. rewrite Z.mod_small by lia. f_equal.
    apply (Z.div_unique _ _ _ (p - 1)); lia.
  - rewrite checked_ok by lia. cbn [mbind option_bind].
    replace (4096 * F + (4096 * p - 4096 * (F mod p))) with (4096 * (p * (F / p + 1))) by lia.
    rewrite Z.div_mul_cancel_l, (Z.mul_comm p), Z.div_mul by lia. unfold wrap. rewrite Z.mod_small by lia. f_equal.
    apply (Z.div_unique _ _ _ (F mod p - 1)); lia.
Qed.

Lemma bit_array_new_clear n k : bit (bit_array_new n false) k = false.
Proof.
  unfold bit, bit_array_new. cbn [words]. destruct (_ !! _) as [x|] eqn:E; [|done].
  apply lookup_replicate in E as [-> _]. apply Z.bits_0.
Qed.

Lemma status_array_new a l : 0 < frames a <= 2 ^ 20 → level_array a l (bit_array_new (blocks a l) false).
Proof.
  intros F. assert (B : 0 <= blocks a l <= 2 ^ 20).
  { pose proof (pow32_pos l). unfold blocks. split; [apply Z.div_pos; lia|]. apply Z.div_le_upper_bound; nia. }
  split; [apply bit_array_new_wf; lia|done].
Qed.

Lemma status_arrays_new F sizes : 0 <= F <= 2 ^ 28 →
  status_arrays (4096 * F) sizes = Some ((λ size, bit_array_new ((F + pow32 (block_level size) - 1) / pow32 (block_level size)) false) <$> sizes).
Proof.
  intros HF. unfold status_arrays. apply mapM_Some_2. induction sizes as [|size sizes IH]; [constructor|].
  cbn. constructor; [|exact IH]. rewrite block_bytes_pow, blocks_of_eq; [done|done|]. by destruct size.
Qed.

Lemma clamp_id x lo hi : lo <= x <= hi → clamp x lo hi = x.
Proof. intros H. unfold clamp. destruct (Z.ltb_spec x lo), (Z.ltb_spec hi x); lia. Qed.

Lemma clamp_lower x : 0 <= x → clamp x 0 MAX_PHYS_ADDR_4K = Z.min x MAX_PHYS_ADDR_4K.
Proof.
  intros H. unfold clamp. destruct (Z.ltb_spec x 0); [lia|]. destruct (Z.ltb_spec MAX_PHYS_ADDR_4K x); lia.
Qed.

Definition nothing_used (a : PhysPageAllocator) : Prop := ∀ l n, occ a l n = false ∧ fil a l n = false.

Lemma nothing_used_invariants a : nothing_used a → summarised a ∧ consistent a.
Proof.
  intros H. split; [|split; [|split]]; intros l n _ _.
  - by rewrite (proj1 (H l n)).
  - by rewrite (proj2 (H (S l) (n / 32))).
  - by rewrite (proj2 (H l n)).
  - apply H.
Qed.

Lemma new_allocator_spec memory_end : 0 < memory_end <= MAX_PHYS_ADDR → memory_end mod 4096 = 0 →
  ∃ a, new_allocator memory_end = Some a ∧ memory_size a = memory_end ∧ resd_regions a = [] ∧ alloc_wf a ∧ nothing_used a ∧
    (memory_end <= MAX_PHYS_ADDR_4K → occupied_status_upper a = [] ∧ filled_status_upper a = []).
Proof.
  intros Hm Ha. unfold new_allocator. rewrite clamp_lower by lia. set (lower := Z.min memory_end MAX_PHYS_ADDR_4K).
  assert (L : lower mod 4096 = 0) by (unfold lower; destruct (Z.min_spec memory_end MAX_PHYS_ADDR_4K) as [[_ ->]|[_ ->]]; done).
  assert (EL : lower = 4096 * (lower / 4096)) by zdiv.
  assert (BF : 0 < lower / 4096 <= 2 ^ 20) by (unfold lower, MAX_PHYS_ADDR_4K, MAX_PHYS_ADDR in *; zdiv).
  rewrite EL, !status_arrays_new by lia. cbn [mbind option_bind].
  assert (U : ∃ o f, (if MAX_PHYS_ADDR_4K <? memory_end
           then
             o ← status_arrays (clamp memory_end 0 MAX_PHYS_ADDR - MAX_PHYS_ADDR_4K) [Block4M; Block128M];
             f ← status_arrays (clamp memory_end 0 MAX_PHYS_ADDR - MAX_PHYS_ADDR_4K) [Block128M]; Some (o, f)
           else Some ([], [])) = Some (o, f) ∧ (memory_end <= MAX_PHYS_ADDR_4K → o = [] ∧ f = [])).
  { destruct (Z.ltb_spec MAX_PHYS_ADDR_4K memory_end); [|by eexists _, _]. rewrite clamp_id by lia.
    replace (memory_end - MAX_PHYS_ADDR_4K) with (4096 * (memory_end / 4096 - 2 ^ 20)) by (unfold MAX_PHYS_ADDR_4K; zdiv).
    rewrite !status_arrays_new by (unfold MAX_PHYS_ADDR, MAX_PHYS_ADDR_4K in *; zdiv). eexists _, _. split; [done|lia]. }
  destruct U as (o & f & -> & U). cbn [mbind option_bind fst snd]. eexists. split; [done|].
  match goal with |- memory_size ?x = _ ∧ _ => set (a := x) end.
  assert (F : frames a = lower / 4096) by done.
  split_and!; try done; [split; [done|done| |]|].
  - intros l Hl. assert (E : ∀ size, block_level size = l → level_array a l (bit_array_new ((lower / 4096 + pow32 (block_level size) - 1) / pow32 (block_level size)) false)).
    { intros size <-. apply (status_array_new a (block_level size)). by rewrite F. }
    destruct l as [|[|[|[|]]]]; [| | | |lia]; eexists; (split; [reflexivity|]); by apply E.
  - intros l Hl. assert (E : ∀ size, block_level size = S l → level_array a (S l) (bit_array_new ((lower / 4096 + pow32 (block_level size) - 1) / pow32 (block_level size)) false)).
    { intros size <-. apply (status_array_new a (block_level size)). by rewrite F. }
    destruct l as [|[|[|]]]; [| | |lia]; eexists; (split; [reflexivity|]); by apply E.
  - intros l n. unfold occ, fil, filled_of, bit_at. subst a. cbn [occupied_status filled_status fmap list_fmap].
    destruct l as [|[|[|[|]]]]; cbn [lookup list_lookup]; by rewrite ?bit_array_new_clear.
Qed.

(** ** The operations *)

Lemma is_block_free_occ a x size : alloc_wf a → 0 <= x < lower_end a →
  is_block_free a x size = Some (negb (occ a (block_level size) (x / block_bytes size))).
Proof.
  intros W Hx. unfold is_block_free. destruct (Z.leb_spec MAX_PHYS_ADDR_4K x); [unfold lower_end in Hx; lia|].
  pose proof (block_level_lt size) as Hl. destruct (occupied_array a (block_level size) W Hl) as (b & E & (B & N) & V).
  rewrite E. cbn [mbind option_bind]. destruct (lower_index_anc a x size W Hx) as [I Hf].
  assert (Q : anc 0 (block_level size) (x / 4096) = x / block_bytes size).
  { unfold anc. rewrite Nat.sub_0_r, block_bytes_pow. pose proof (pow32_pos (block_level size)). by rewrite Z.div_div by lia. }
  pose proof (anc_frame a (block_level size) _ Hf W) as R. rewrite Q in *. unfold is_cleared. rewrite I, is_set_bit by (done || lia).
  cbn. rewrite V. by destruct (Z.ltb_spec (x / block_bytes size) (num_bits b)); [|lia].
Qed.

(** The addresses of a block of the size. *)
Definition block_at (address : Z) (size : BlockSize) (x : Z) : bool := (address <=? x) && (x <? address + block_bytes size).

Lemma block_at_frames size n x : 0 <= x → block_at (n * block_bytes size) size x = in_block size n (x / 4096).
Proof.
  intros Hx. unfold block_at, in_block. pose proof (pow32_pos (block_level size)) as P.
  rewrite Z.div_div, <- block_bytes_pow by lia. assert (0 < block_bytes size) by (rewrite block_bytes_pow; lia).
  pose proof (Z.div_mod x (block_bytes size) ltac:(lia)). pose proof (Z.mod_pos_bound x (block_bytes size) ltac:(lia)).
  destruct (Z.leb_spec (n * block_bytes size) x), (Z.ltb_spec x (n * block_bytes size + block_bytes size)),
    (Z.eqb_spec (x / block_bytes size) n); try done; nia.
Qed.

(** A block that is not occupied has free frames only. *)
Lemma summarised_frames a l n f : summarised a → (l < 4)%nat → 0 <= f < blocks a 0 → anc 0 l f = n →
  occ a l n = false → occ a 0 f = false.
Proof.
  intros S Hl Hf <-. induction l as [|l IH]; [by rewrite anc_refl|]. intros O. apply IH; [lia|].
  apply not_true_iff_false. intros F. apply S in F; [|lia|by apply (blocks_anc a 0 l)]. rewrite anc_up in F by lia. congruence.
Qed.

(** [alloc] looks for the error in the arrays of the memory above 4G for the two
    larger sizes, and panics where there are none. *)
Definition upper_wf (a : PhysPageAllocator) : Prop :=
  if MAX_PHYS_ADDR_4K <? memory_size a then ∃ b, filled_of_upper a 3 = Some b ∧ array_wf b
  else filled_of_upper a 3 = None.

Definition can_report (a : PhysPageAllocator) (size : BlockSize) : bool :=
  (block_level size <? 2)%nat || (MAX_PHYS_ADDR_4K <? memory_size a).

Lemma alloc_error_small a size : alloc_wf a → (block_level size < 2)%nat → is_Some (alloc_error a size).
Proof.
  intros W Hl. unfold alloc_error, total_sizes. cbn [Nat.sub]. destruct (Nat.leb_spec 2 (block_level size)); [lia|].
  destruct (filled_array a 3 W) as (b & E & (B & _) & _); [lia|]. rewrite E. cbn [mbind option_bind].
  rewrite count_ones_tally by done. by eexists.
Qed.

Lemma alloc_error_spec a size : alloc_wf a → upper_wf a →
  if can_report a size then is_Some (alloc_error a size) else alloc_error a size = None.
Proof.
  intros W U. unfold can_report. destruct (Nat.ltb_spec (block_level size) 2); cbn [orb]; [by apply alloc_error_small|].
  unfold alloc_error, upper_wf, total_sizes in *. cbn [Nat.sub]. destruct (Nat.leb_spec 2 (block_level size)); [|lia].
  destruct (MAX_PHYS_ADDR_4K <? memory_size a); [|by rewrite U].
  destruct U as (f & -> & F). cbn [mbind option_bind]. rewrite count_ones_tally by done. by eexists.
Qed.

Lemma find_block_sound a size : alloc_wf a → ∃ r, find_block a size = Some r ∧
  ∀ x, r = Some x → ∃ n, 0 <= n < blocks a (block_level size) ∧ occ a (block_level size) n = false ∧ x = n * block_bytes size.
Proof.
  intros W. pose proof (block_level_lt size). apply (find_from_sound a size 3 W); [lia|lia|]. cbn. lia.
Qed.

(** The frames of an allocator, as addresses. *)
Lemma is_free_frame a x : alloc_wf a → 0 <= x < lower_end a → is_free a x = Some (negb (occ a 0 (x / 4096))).
Proof. intros. unfold is_free. by rewrite is_block_free_occ. Qed.

Lemma frames_set_free v a a' size n x : alloc_wf a → alloc_wf a' → same_rest a a' → frames_set v a a' size n →
  0 <= x < lower_end a → is_free a' x = if block_at (n * block_bytes size) size x then Some (negb v) else is_free a x.
Proof.
  intros W W' R F Hx. rewrite !is_free_frame by (by rewrite ?(same_lower a a')). rewrite block_at_frames by lia.
  rewrite F by (by apply (lower_index_anc a x size W)). by destruct (in_block _ _ _).
Qed.

(** What a successful search leads to. *)
Lemma alloc_found a size a' b : alloc_wf a → summarised a → alloc a size = Some (a', inl b) →
  ∃ n, b = (n * block_bytes size, size) ∧ 0 <= n < blocks a (block_level size) ∧
    alloc_wf a' ∧ same_rest a a' ∧ summarised a' ∧ frames_set true a a' size n ∧
    (lower_end a mod block_bytes Block128k = 0 → whole_block a size n) ∧
    ∀ x, 0 <= x < lower_end a → block_at (n * block_bytes size) size x = true → is_free a x = Some true.
Proof.
  intros W S. unfold alloc. destruct (find_block_sound a size W) as (r & -> & K). cbn [mbind option_bind].
  destruct r as [address|]; [|by destruct (alloc_error a size)]. destruct (K address eq_refl) as (n & Hn & O & ->).
  destruct (mark_used _ _ _) as [a2|] eqn:E; [|done]. cbn [mbind option_bind]. intros [= <- <-].
  destruct (mark_used_part a size n a2 W Hn E) as (W' & R' & F & S' & L). exists n. split_and!; auto; try lia.
  - intros D. by apply part_whole.
  - intros x Hx. rewrite block_at_frames, is_free_frame by (done || lia). unfold in_block. intros Hb%Z.eqb_eq.
    destruct (lower_index_anc a x size W Hx) as [_ Hf].
    rewrite (summarised_frames a (block_level size) n (x / 4096) S (block_level_lt size)); [done|by rewrite blocks_0| |done].
    unfold anc. by rewrite Nat.sub_0_r.
Qed.

Lemma alloc_inr a size a' e : alloc_wf a → alloc a size = Some (a', inr e) → a' = a.
Proof.
  intros W. unfold alloc. destruct (find_block_sound a size W) as (r & -> & _). cbn [mbind option_bind].
  destruct r as [x|]; [destruct (mark_used _ _ _)|destruct (alloc_error _ _)]; cbn; intros E; try done. by injection E as <- <-.
Qed.

(** [alloc] never hands out memory that is in use.  Whatever was allocated and
    released before, it returns a block of the size asked for, aligned to it, all
    of whose frames were free, and makes exactly these frames used; or it
    reports an error and changes nothing. *)
Theorem alloc_returns_free a size a' r :
  alloc_wf a → summarised a → alloc a size = Some (a', r) →
  alloc_wf a' ∧ summarised a' ∧
    match r with
    | inl (address, size') => size' = size ∧ (∃ n, 0 <= n ∧ address = n * block_bytes size) ∧
        ∀ x, 0 <= x < lower_end a →
          (block_at address size x = true → is_free a x = Some true) ∧
          is_free a' x = if block_at address size x then Some false else is_free a x
    | inr _ => a' = a
    end.
Proof.
  intros W S E. destruct r as [b|e]; [|by rewrite (alloc_inr a size a' e W E)].
  destruct (alloc_found a size a' b W S E) as (n & -> & Hn & W' & R' & S' & F & _ & U). split_and!; try done.
  - exists n. split; [lia|done].
  - intros x Hx. split; [auto|]. by apply (frames_set_free true).
Qed.

Lemma alloc_returns_free_witness : ∃ a a' r, new_allocator 0x20000 = Some a ∧ alloc a Block128k = Some (a', r) ∧
  alloc_wf a' ∧ summarised a'.
Proof.
  destruct (new_allocator_spec 0x20000) as (a & E & M & _ & W & N & _); [done|done|].
  assert (X : ∃ a' r, alloc a Block128k = Some (a', r)).
  { vm_compute in E. injection E as <-. eexists _, _. vm_compute. reflexivity. }
  destruct X as (a' & r & X). destruct (alloc_returns_free a Block128k a' r W) as (W' & S' & _).
  - apply nothing_used_invariants, N.
  - exact X.
  - exists a, a', r. split; [exact E|]. split; [exact X|]. split; [exact W'|exact S'].
Defined.

Lemma find_block_first a size t : alloc_wf a → consistent a →
  first_clear (occ a (block_level size)) (blocks a (block_level size)) 0 (Some t) →
  find_block a size = Some (Some (t * block_bytes size)).
Proof.
  intros W C F. pose proof (block_level_lt size). destruct F as (F1 & F2 & F3).
  assert (0 <= anc (block_level size) 3 t) by (apply anc_pos; lia).
  apply (find_from_first a size t 3 W C); [lia|lia|done|cbn; lia|lia|]. intros b Hb _. lia.
Qed.

Lemma find_block_none a size : alloc_wf a → find_block a size = Some None → consistent a →
  ∀ n, 0 <= n < blocks a (block_level size) → occ a (block_level size) n = true.
Proof.
  intros W E C n Hn. apply not_false_iff_true. intros O.
  destruct (first_clear_exists (occ a (block_level size)) (blocks a (block_level size)) 0 n Hn O) as (t & _ & T).
  rewrite (find_block_first a size t W C T) in E. done.
Qed.

(** C23. As long as nothing was released, [alloc] finds what a scan of all blocks of
    the size would, the lowest one that is free, and takes it if all of it is in
    memory.  If the lowest free one goes beyond the end of memory, and memory ends at
    a multiple of 128k, [alloc] panics.  If none is free, it changes nothing and
    reports an error, or panics if the block has 4M or 128M and the machine has no
    memory above 4G. *)
Theorem alloc_first_fit a size :
  alloc_wf a → consistent a → upper_wf a →
  (∃ n, let address := n * block_bytes size in
     0 <= n ∧ is_block_free a address size = Some true ∧
     (∀ m, 0 <= m < n → is_block_free a (m * block_bytes size) size = Some false) ∧
     if address + block_bytes size <=? lower_end a
     then ∃ a', alloc a size = Some (a', inl (address, size)) ∧ alloc_wf a' ∧ consistent a'
     else lower_end a mod block_bytes Block128k = 0 → alloc a size = None) ∨
  ((∀ x, 0 <= x < lower_end a → is_block_free a x size = Some false) ∧
   if can_report a size then ∃ e, alloc a size = Some (a, inr e) else alloc a size = None).
Proof.
  intros W C U. destruct (find_block_sound a size W) as (f & E & K). destruct f as [address|].
  - left. destruct (K address eq_refl) as (n & Hn & O & ->). exists n. cbn zeta.
    destruct (first_clear_exists (occ a (block_level size)) (blocks a (block_level size)) 0 n Hn O) as (t & _ & T).
    pose proof E as E'. rewrite (find_block_first a size t W C T) in E'. pose proof (block_bytes_pos size).
    injection E' as E'. apply Z.mul_reg_r in E' as ->; [|lia]. destruct (block_facts a size n W Hn) as (I1 & _ & I2 & _).
    destruct T as (_ & _ & T). split_and!; [lia|by rewrite is_block_free_occ, I2, O| |].
    { intros m Hm. destruct (block_facts a size m W ltac:(lia)) as (J1 & _ & J2 & _). by rewrite is_block_free_occ, J2, T. }
    unfold alloc. rewrite E. cbn [mbind option_bind]. destruct (Z.leb_spec (n * block_bytes size + block_bytes size) (lower_end a)).
    + destruct (mark_used_spec a (n * block_bytes size) size n W) as (b & -> & Wb & _ & _ & _ & C'); [split; lia|done|].
      exists b. auto.
    + intros D. destruct (mark_used _ _ _) as [b|] eqn:Eb; [|done].
      destruct (mark_used_part a size n b W Hn Eb) as (_ & _ & _ & _ & L). destruct (part_whole a size n W D Hn L). lia.
  - right. split.
    { intros x Hx. rewrite is_block_free_occ, (find_block_none a size W E C); [done| |done|done].
      destruct (lower_index_anc a x size W Hx) as [_ Hf]. pose proof (anc_frame a (block_level size) _ Hf W) as R.
      pose proof (pow32_pos (block_level size)). unfold anc in R. by rewrite Nat.sub_0_r, Z.div_div, <- block_bytes_pow in R by lia. }
    pose proof (alloc_error_spec a size W U) as X. unfold alloc. rewrite E. cbn [mbind option_bind].
    destruct (can_report a size); [|by rewrite X]. destruct X as [e ->]. by exists e.
Qed.

Lemma alloc_first_fit_witness : ∃ a a', new_allocator 0x20000 = Some a ∧ alloc a Block4k = Some (a', inl (0, Block4k)) ∧ consistent a'.
Proof.
  destruct (new_allocator_spec 0x20000) as (a & E & M & _ & W & N & U); [done|done|].
  assert (F : is_block_free a 0 Block4k = Some true) by (vm_compute in E; injection E as <-; reflexivity).
  assert (LE : lower_end a = 0x20000) by (unfold lower_end; by rewrite M).
  destruct (alloc_first_fit a Block4k W) as [(n & H0 & _ & H & K)|(K & _)].
  - apply nothing_used_invariants, N.
  - unfold upper_wf, filled_of_upper. rewrite M. cbn [Z.ltb MAX_PHYS_ADDR_4K]. by rewrite (proj2 (U ltac:(done))).
  - destruct (Z.eq_dec n 0) as [->|Nz]; [|specialize (H 0 ltac:(lia)); change (0 * block_bytes Block4k) with 0 in H; rewrite F in H; discriminate H].
    rewrite LE in K. destruct K as (a' & E' & _ & C'). exists a, a'. split; [exact E|]. split; [exact E'|exact C'].
  - specialize (K 0 ltac:(rewrite LE; lia)). rewrite F in K. discriminate K.
Defined.

Lemma release_block a size n : alloc_wf a → summarised a → whole_block a size n →
  is_block_free a (n * block_bytes size) size = Some false →
  ∃ a', release a (n * block_bytes size) size = Some a' ∧ alloc_wf a' ∧ same_rest a a' ∧ summarised a' ∧
    frames_set false a a' size n ∧ occ a' (block_level size) n = false ∧
    ∀ m, 0 <= m < blocks a 3 → (block_level size < 3)%nat → fil a' 3 m = fil a 3 m.
Proof.
  intros W S Wh F. assert (0 < block_bytes size) by (rewrite block_bytes_pow; pose proof (pow32_pos (block_level size)); lia).
  destruct (mark_free_spec a (n * block_bytes size) size n W Wh) as (a' & E & W' & R' & Fr & [O Fi] & S'); [by apply Z.div_mul; lia|].
  assert (Hn : 0 <= n < blocks a (block_level size)).
  { split; [apply Wh|]. apply blocks_lt. pose proof (pow32_pos (block_level size)).
    assert (Q : n * block_bytes size / block_bytes size = n) by (apply Z.div_mul; lia).
    destruct (whole_block_facts a size n _ W Wh Q) as (_ & _ & _ & _ & X & _). nia. }
  exists a'. unfold release. rewrite F. cbn [mbind option_bind]. split_and!; auto.
  - rewrite O, inside_one, anc_refl, Z.eqb_refl by done. by destruct (Nat.leb_spec (block_level size) (block_level size)); [|lia].
  - intros m Hm Hl. rewrite Fi, inside_one by (done || lia). by destruct (Nat.leb_spec 3 (block_level size)); [lia|].
Qed.

(** [release] of a block that is in use, or in part, frees the block: exactly
    its frames become free, and the block can be allocated again as one.  Of a
    block that is free already it panics. *)
Theorem release_frees a size n :
  alloc_wf a → summarised a → whole_block a size n →
  let address := n * block_bytes size in
  if occ a (block_level size) n
  then ∃ a', release a address size = Some a' ∧ alloc_wf a' ∧ summarised a' ∧
         is_block_free a' address size = Some true ∧
         ∀ x, 0 <= x < lower_end a → is_free a' x = if block_at address size x then Some true else is_free a x
  else release a address size = None.
Proof.
  intros W S Wh address. assert (0 < block_bytes size) by (rewrite block_bytes_pow; pose proof (pow32_pos (block_level size)); lia).
  assert (Q : address / block_bytes size = n) by (by apply Z.div_mul; lia).
  destruct (whole_block_facts a size n address W Wh Q) as (A & _).
  pose proof (is_block_free_occ a address size W A) as F. rewrite Q in F.
  destruct (occ a (block_level size) n) eqn:O.
  - destruct (release_block a size n W S Wh F) as (a' & E & W' & R' & S' & Fr & O' & _). exists a'. split_and!; try done.
    + rewrite is_block_free_occ, Q, O' by (rewrite ?(same_lower a a'); done). done.
    + intros x Hx. by apply (frames_set_free false).
  - unfold release. by rewrite F.
Qed.

Lemma release_frees_witness : ∃ a, new_allocator 0x8000000 = Some a ∧ release a 0x20000 Block128k = None.
Proof.
  destruct (new_allocator_spec 0x8000000) as (a & E & M & _ & W & N & _); [done|done|].
  pose proof (release_frees a Block128k 1 W (proj1 (nothing_used_invariants a N))) as K.
  exists a. split; [exact E|]. rewrite (proj1 (N _ _)) in K. apply K. split; [done|]. unfold lower_end. rewrite M. done.
Defined.

Lemma tally_all g n : (∀ k, 0 <= k < Z.of_nat n → g k = true) → tally g n = Z.of_nat n.
Proof. induction n as [|n IH]; intros H; cbn [tally]; [done|]. rewrite H, IH by (intros; try apply H; lia). lia. Qed.

(** All the memory is marked as filled. *)
Definition exhausted (a : PhysPageAllocator) : Prop := ∀ n, 0 <= n < blocks a 3 → fil a 3 n = true.

Lemma exhausted_alloc a size : alloc_wf a → exhausted a → (block_level size < 2)%nat → alloc a size = Some (a, inr OutOfMemory).
Proof.
  intros W X Hl. destruct (filled_array a 3 W) as (b & E & (B & N) & V); [lia|].
  assert (F : find_block a size = Some None).
  { transitivity (f ← filled_of a 3; search_each (S (Z.to_nat (num_bits f))) f
      (λ b, start ← checked 32 (bits_per_word * 0 + b); find_from 2 a start size) (start_from 0 f)).
    { by destruct size; cbn in Hl; try lia. }
    rewrite E. cbn [mbind option_bind search_each]. pose proof (wf_num b B).
    destruct (next_clear b (start_from 0 b) B) as (r & j & En & K & _); [unfold start_from; lia|]. rewrite En.
    cbn [mbind option_bind]. destruct r as [n|]; [|done]. destruct K as (K1 & K2 & _). rewrite <- V, X in K2; [done|].
    rewrite <- N. unfold start_from in K1. lia. }
  unfold alloc. rewrite F. cbn [mbind option_bind]. unfold alloc_error. destruct (Nat.leb_spec 2 (block_level size)); [lia|].
  change (total_sizes - 1)%nat with 3%nat. rewrite E. cbn [mbind option_bind]. rewrite count_ones_tally by done. cbn [mbind option_bind].
  pose proof (wf_num b B). rewrite tally_all; [rewrite Z2Nat.id by lia; by rewrite Z.eqb_refl|].
  intros k Hk. rewrite <- V. apply X. lia.
Qed.

(** Memory released after all of it was used is lost: [release] clears no
    filled bit above the size of the block, so that [alloc] goes on to report
    that there is no memory while the block is free. *)
Theorem release_not_found a size n size' :
  alloc_wf a → summarised a → exhausted a → whole_block a size n → (block_level size < 3)%nat → (block_level size' < 2)%nat →
  is_block_free a (n * block_bytes size) size = Some false →
  ∃ a', release a (n * block_bytes size) size = Some a' ∧ is_block_free a' (n * block_bytes size) size = Some true ∧
    alloc a' size' = Some (a', inr OutOfMemory).
Proof.
  intros W S X Wh Hl Hl' F. destruct (release_block a size n W S Wh F) as (a' & E & W' & R' & _ & _ & O & Fi).
  assert (0 < block_bytes size) by (rewrite block_bytes_pow; pose proof (pow32_pos (block_level size)); lia).
  assert (Q : n * block_bytes size / block_bytes size = n) by (by apply Z.div_mul; lia).
  destruct (whole_block_facts a size n _ W Wh Q) as (A & _). exists a'. split; [done|]. split.
  - rewrite is_block_free_occ, Q, O by (rewrite ?(same_lower a a'); done). done.
  - apply exhausted_alloc; [done| |done]. intros m Hm. rewrite (same_blocks a a') in Hm by done. rewrite Fi by (done || lia). by apply X.
Qed.

Lemma release_not_found_witness : ∃ a a1 a2, new_allocator 0x8000000 = Some a ∧ mark_used a 0 Block128M = Some a1 ∧
  release a1 (5 * 4096) Block4k = Some a2 ∧ is_block_free a2 (5 * 4096) Block4k = Some true ∧
  alloc a2 Block4k = Some (a2, inr OutOfMemory).
Proof.
  destruct (new_allocator_spec 0x8000000) as (a & E & M & _ & W & N & _); [done|done|].
  assert (LE : lower_end a = 0x8000000) by (unfold lower_end; by rewrite M).
  assert (Wh : whole_block a Block128M 0) by (split; [done|by rewrite LE]).
  destruct (mark_used_spec a 0 Block128M 0 W Wh eq_refl) as (a1 & E1 & W1 & R1 & F1 & S1 & _).
  destruct (mark_used_split a 0 Block128M 0 W Wh eq_refl) as (b & c & E1' & _ & _ & _ & Mk & Ra & _).
  rewrite E1 in E1'. injection E1' as <-.
  assert (B3 : blocks a1 3 = 1) by (rewrite (same_blocks a a1) by done; unfold blocks, frames; by rewrite LE).
  destruct (release_not_found a1 Block4k 5 Block4k) as (a2 & K).
  - exact W1.
  - apply S1, nothing_used_invariants, N.
  - intros n Hn. assert (n = 0) as -> by lia. apply (marked_fil a b a1 3 0 0 Mk Ra); [rewrite <- (same_blocks a a1), B3 by done; lia|lia|]. right. split; [done|]. apply anc_refl.
  - split; [done|]. by rewrite (same_lower a a1), LE.
  - cbn. lia.
  - cbn. lia.
  - rewrite is_block_free_occ by (rewrite ?(same_lower a a1), ?LE; done). rewrite F1 by (unfold frames; rewrite LE; done). done.
  - exists a, a1, a2. split; [exact E|]. split; [exact E1|exact K].
Defined.

(** On a machine without memory above 4G, [alloc] panics when no block of 4M or
    128M is free, and so do the counts of such blocks. *)
Theorem large_blocks_panic a size :
  occupied_status_upper a = [] → filled_status_upper a = [] → (2 <= block_level size)%nat →
  alloc_error a size = None ∧ free_count a size = None ∧ used_count a size = None ∧ total_count a size = None.
Proof.
  intros O F H. assert (U : ∀ l, filled_of_upper a l = None) by (intros [|[|[|]]]; cbn; by rewrite ?O, ?F).
  unfold alloc_error, free_count, used_count, total_count. destruct (Nat.leb_spec 2 (block_level size)); [|lia].
  rewrite Nat.sub_diag, O, !U. cbn [lookup list_lookup mbind option_bind]. split_and!; try done.
  - destruct (occupied_status a !! block_level size) as [b|]; [|done]. cbn. by destruct (count_zeros b).
  - destruct (filled_of a (block_level size)) as [b|]; [|done]. cbn. by destruct (count_ones b).
  - by destruct (occupied_status a !! block_level size).
Qed.

Lemma large_blocks_panic_witness : ∃ a, new_allocator 0x8000000 = Some a ∧ free_count a Block4M = None.
Proof.
  destruct (new_allocator_spec 0x8000000) as (a & E & M & _ & W & N & U); [done|done|]. exists a. split; [exact E|].
  destruct U as [O F]; [done|]. apply (large_blocks_panic a Block4M O F). cbn. lia.
Defined.
