(* ===== verification/PhysAllocOwners.v ===== *)
(** * The users of physical memory

    Any sequence of allocations and releases by clients that release what they
    were given: no frame ever belongs to two of the blocks that are held. *)

From S2P Require Import Prelude Region BitArray BitArraySpec PhysAlloc PhysAllocSpec PhysAllocSearch.

(** The allocator and the blocks that have been handed out and not released. *)
Definition clients : Type := PhysPageAllocator * list (Z * BlockSize).

Inductive client_step : clients → clients → Prop :=
| step_alloc a a' size b held :
    alloc a size = Some (a', inl b) → client_step (a, held) (a', b :: held)
| step_alloc_error a a' size e held :
    alloc a size = Some (a', inr e) → client_step (a, held) (a', held)
| step_release a a' before b after :
    release a (fst b) (snd b) = Some a' → client_step (a, before ++ b :: after) (a', before ++ after).

(** How many of the blocks the address is in. *)
Fixpoint owners (held : list (Z * BlockSize)) (x : Z) : nat :=
  match held with
  | [] => 0
  | b :: held => ((if block_at (fst b) (snd b) x then 1 else 0) + owners held x)%nat
  end.

Lemma owners_app l l' x : owners (l ++ l') x = (owners l x + owners l' x)%nat.
Proof. induction l as [|b l IH]; [done|]. cbn [app owners]. lia. Qed.

Record owners_inv (s : clients) : Prop := {
  inv_wf : alloc_wf (fst s);
  inv_summarised : summarised (fst s);
  inv_blocks : ∀ b, b ∈ snd s → ∃ n, 0 <= n < blocks (fst s) (block_level (snd b)) ∧ fst b = n * block_bytes (snd b);
  inv_whole : lower_end (fst s) mod block_bytes Block128k = 0 →
    ∀ b, b ∈ snd s → fst b + block_bytes (snd b) <= lower_end (fst s);
  inv_owners : ∀ x, 0 <= x < lower_end (fst s) →
    (owners (snd s) x <= 1)%nat ∧ (owners (snd s) x = 1%nat → is_free (fst s) x = Some false);
}.

Lemma alloc_keeps_owners a a' size b held :
  owners_inv (a, held) → alloc a size = Some (a', inl b) → owners_inv (a', b :: held).
Proof.
  intros [W S B T O] E. cbn [fst snd] in *.
  destruct (alloc_found a size a' b W S E) as (n & -> & Hn & W' & R' & S' & Fr & Wh & U).
  split; cbn [fst snd]; [done|done| | |].
  - intros c [->|Hc]%elem_of_cons; [exists n|destruct (B c Hc) as (k & ? & ?); exists k]; by rewrite (same_blocks a a').
  - rewrite (same_lower a a' R'). intros D c [->|Hc]%elem_of_cons; [|auto]. destruct (Wh D). cbn [fst snd]. lia.
  - intros x Hx. rewrite (same_lower a a' R') in Hx. destruct (O x Hx) as [O1 O2]. cbn [owners fst snd].
    rewrite (frames_set_free true a a' size n x W W' R' Fr Hx).
    specialize (U x Hx). destruct (block_at _ size x); [|split; [lia|auto]].
    assert (owners held x ≠ 1)%nat by (intros H1; specialize (O2 H1); by rewrite U in O2). split; [lia|done].
Qed.

Lemma release_keeps_owners a a' before b after :
  owners_inv (a, before ++ b :: after) → release a (fst b) (snd b) = Some a' → owners_inv (a', before ++ after).
Proof.
  intros [W S B T O]. cbn [fst snd] in *. destruct (B b) as (n & Hn & En); [set_solver|]. destruct b as [address size].
  cbn [fst snd] in *. subst address. unfold release. destruct (is_block_free _ _ _) as [[|]|]; cbn [mbind option_bind]; try done.
  intros E. destruct (mark_free_part a size n a' W Hn E) as (W' & R' & Fr & S').
  split; cbn [fst snd]; [done|auto| | |].
  - intros c Hc. destruct (B c) as (k & ? & ?); [set_solver|]. exists k. by rewrite (same_blocks a a').
  - rewrite (same_lower a a' R'). intros D c Hc. apply T; [done|set_solver].
  - intros x Hx. rewrite (same_lower a a' R') in Hx. destruct (O x Hx) as [O1 O2]. rewrite owners_app in O1, O2 |- *.
    cbn [owners fst snd] in O1, O2. rewrite (frames_set_free false a a' size n x W W' R' Fr Hx).
    destruct (block_at _ size x); split; [lia|lia|lia|auto].
Qed.

Lemma step_keeps_owners s s' : client_step s s' → owners_inv s → owners_inv s'.
Proof.
  intros [a a' size b held E|a a' size e held E|a a' before b after E] I.
  - by apply (alloc_keeps_owners a a' size).
  - pose proof (alloc_inr a size a' e (inv_wf _ I) E) as ->. exact I.
  - by apply (release_keeps_owners a a' before b after).
Qed.

Lemma step_keeps_size s s' : client_step s s' → owners_inv s → memory_size (fst s') = memory_size (fst s).
Proof.
  intros [a a' size b held E|a a' size e held E|a a' before b after E] I; cbn [fst].
  - by destruct (alloc_found a size a' b (inv_wf _ I) (inv_summarised _ I) E) as (n & _ & _ & _ & (M & _) & _).
  - by rewrite (alloc_inr a size a' e (inv_wf _ I) E).
  - destruct (inv_blocks _ I b) as (n & Hn & En); [set_solver|]. rewrite En in E. revert E. unfold release.
    destruct (is_block_free _ _ _) as [[|]|]; cbn [mbind option_bind]; try done. intros E.
    by destruct (mark_free_part a (snd b) n a' (inv_wf _ I) Hn E) as (_ & (M & _) & _).
Qed.

(** C2. Memory has one owner.  Start with a fresh allocator for a memory of whole
    pages and let clients allocate blocks of any sizes, with success or an error,
    and release blocks they hold, in any order, as long as no call panics: no
    address below 4G and in memory is in two blocks that are held, what is held is
    marked as used, and the arrays stay well formed.  If memory ends at a multiple
    of 128k, no block that is held goes beyond its end. *)
Theorem memory_has_one_owner memory_end a0 a held :
  0 < memory_end <= MAX_PHYS_ADDR → memory_end mod 4096 = 0 → new_allocator memory_end = Some a0 →
  rtc client_step (a0, []) (a, held) →
  memory_size a = memory_end ∧ alloc_wf a ∧ summarised a ∧
  (∀ x, 0 <= x < lower_end a → (owners held x <= 1)%nat ∧ (owners held x = 1%nat → is_free a x = Some false)) ∧
  (memory_end mod block_bytes Block128k = 0 → ∀ b, b ∈ held → fst b + block_bytes (snd b) <= lower_end a).
Proof.
  intros H1 H2 E St. destruct (new_allocator_spec memory_end H1 H2) as (b & Eb & M & _ & W & N & _).
  rewrite E in Eb. injection Eb as <-.
  assert (I : owners_inv (a0, []) ∧ memory_size (fst (a0, @nil (Z * BlockSize))) = memory_end).
  { split; [split; cbn [fst snd]|done]; [done|apply nothing_used_invariants, N|set_solver|set_solver|]. intros x _. cbn. split; [lia|done]. }
  cut (owners_inv (a, held) ∧ memory_size (fst (a, held)) = memory_end).
  { cbn [fst]. intros [[? ? ? T ?] Ms]. split_and!; auto. intros D. apply T. cbn [fst]. unfold lower_end. rewrite Ms.
    destruct (Z.min_spec memory_end MAX_PHYS_ADDR_4K) as [[_ ->]|[_ ->]]; done. }
  revert I. generalize dependent St. generalize (a0, @nil (Z * BlockSize)) (a, held).
  induction 1 as [|s1 s2 s3 St1 _ IH]; intros I; [exact I|]. apply IH. split; [by eapply step_keeps_owners, I|].
  rewrite (step_keeps_size _ _ St1); apply I.
Qed.

(** A memory of five pages ends within the first block of 128k, and [alloc] hands
    out all of that block; one of 128k has no whole block of 4M, and an attempt to
    allocate one panics. *)
Example alloc_past_end : ∃ a a' b, new_allocator 0x5000 = Some a ∧ alloc a Block128k = Some (a', inl (0, Block128k)) ∧
  lower_end a' = 0x5000 ∧ new_allocator 0x20000 = Some b ∧ alloc b Block4M = None.
Proof. eexists _, _, _. do 4 (split; [vm_compute; reflexivity|]). vm_compute. reflexivity. Qed.

(** Two frames of 128k are allocated and the first of them is released. *)
Lemma memory_has_one_owner_witness : ∃ a0 a, new_allocator 0x20000 = Some a0 ∧
  rtc client_step (a0, []) (a, [(0x1000, Block4k)]) ∧ is_free a 0x1000 = Some false ∧ is_free a 0 = Some true.
Proof.
  eexists _, _. split; [vm_compute; reflexivity|]. split.
  - eapply rtc_l; [eapply (step_alloc _ _ Block4k); vm_compute; reflexivity|].
    eapply rtc_l; [eapply (step_alloc _ _ Block4k); vm_compute; reflexivity|].
    eapply rtc_l; [|apply rtc_refl].
    apply (step_release _ _ [(0x1000, Block4k)] (0, Block4k) []). vm_compute. reflexivity.
  - split; [|vm_compute; reflexivity]. 
    eapply (memory_has_one_owner 0x20000 _ _ [(0x1000, Block4k)]).
    + done.
    + done.
    + vm_compute; reflexivity.
    + eapply rtc_l; [eapply (step_alloc _ _ Block4k); vm_compute; reflexivity|].
      eapply rtc_l; [eapply (step_alloc _ _ Block4k); vm_compute; reflexivity|].
      eapply rtc_l; [|apply rtc_refl].
      apply (step_release _ _ [(0x1000, Block4k)] (0, Block4k) []). vm_compute. reflexivity.
    + vm_compute. split; [intros ?|]; done.
    + vm_compute. reflexivity.
Defined.
