(* ===== verification/PhysAllocInit.v ===== *)
(** * Initialisation of the physical memory allocator

    What [init] leaves used, for a machine whose memory ends at or below 4G, and
    that it panics where memory above 4G is reserved. *)

From S2P Require Import Prelude Region BitArray BitArraySpec PhysAlloc PhysAllocSpec PhysAllocSearch.

(** Marking only adds used frames, and keeps what the other operations rely on. *)
Record grows (a a' : PhysPageAllocator) : Prop := {
  grows_wf : alloc_wf a';
  grows_size : memory_size a' = memory_size a;
  grows_used : ∀ f, 0 <= f < frames a → occ a 0 f = true → occ a' 0 f = true;
  grows_summarised : summarised a → summarised a';
  grows_consistent : consistent a → consistent a';
  grows_resd : set_wf 64 (resd_regions a) → set_wf 64 (resd_regions a');
}.

Lemma grows_refl a : alloc_wf a → grows a a.
Proof. by split. Qed.

Lemma grows_trans a b c : grows a b → grows b c → grows a c.
Proof.
  intros [? M1 U1 ? ? ?] [? M2 U2 ? ? ?]. split; auto; [congruence|]. intros f Hf O. apply U2; [|by apply U1].
  unfold frames, lower_end in *. by rewrite M1.
Qed.

Lemma grows_lower a a' : grows a a' → lower_end a' = lower_end a.
Proof. intros G. unfold lower_end. by rewrite (grows_size _ _ G). Qed.

Lemma grows_whole a a' size n : grows a a' → whole_block a size n → whole_block a' size n.
Proof. intros G. unfold whole_block. by rewrite (grows_lower a a' G). Qed.

(** Every frame of memory with an address from [from] below [to] is used. *)
Definition covered (a : PhysPageAllocator) (from to : Z) : Prop :=
  ∀ x, from <= x < to → x < lower_end a → occ a 0 (x / 4096) = true.

Lemma address_frame a x : alloc_wf a → 0 <= x < lower_end a → 0 <= x / 4096 < frames a.
Proof. intros W Hx. by apply (lower_index_anc a x Block4k W). Qed.

Lemma covered_grows a a' from to : alloc_wf a → 0 <= from → grows a a' → covered a from to → covered a' from to.
Proof.
  intros W H G C x Hx Hl. rewrite (grows_lower a a' G) in Hl. apply (grows_used a a' G); [apply address_frame; [done|lia]|].
  by apply C.
Qed.

Lemma mark_used_grows a address size n : alloc_wf a → whole_block a size n → address / block_bytes size = n →
  ∃ a', mark_used a address size = Some a' ∧ grows a a' ∧ covered a' (n * block_bytes size) ((n + 1) * block_bytes size).
Proof.
  intros W Wh E. destruct (mark_used_spec a address size n W Wh E) as (a' & Eq & W' & (M & _ & _ & Rs) & F & S & C).
  exists a'. split; [done|]. split; [split; try done|].
  - intros f Hf O. rewrite F, O by done. by destruct (in_block _ _ _).
  - by rewrite Rs.
  - intros x Hx _. destruct Wh as [H0 Hn]. pose proof (block_bytes_pos size). assert (Px : 0 <= x) by nia.
    rewrite F by (apply address_frame; [done|lia]).
    assert (B : block_at (n * block_bytes size) size x = true).
    { unfold block_at. destruct (Z.leb_spec (n * block_bytes size) x), (Z.ltb_spec x (n * block_bytes size + block_bytes size)); try done; lia. }
    rewrite block_at_frames in B by done. by rewrite B.
Qed.

(** Marking a frame beyond the end of memory, in the last block of 128k: no frame
    is marked, and the blocks that frame would be in become occupied. *)

Lemma mark_up_same address address' L todo : ∀ l a, (0 < l)%nat → address / 131072 = address' / 131072 →
  mark_up todo false address L l a = mark_up todo false address' L l a.
Proof.
  induction todo as [|todo IH]; intros l a Hl E; cbn [mark_up]; [done|].
  assert (I : ∀ k size, block_new k = Some size → (0 < k)%nat →
    lower_index address (block_bytes size) = lower_index address' (block_bytes size)).
  { intros k size Ek Hk. apply block_new_level in Ek. unfold lower_index. f_equal. rewrite block_bytes_pow, Ek.
    destruct k as [|k]; [lia|]. rewrite pow32_S. pose proof (pow32_pos k).
    replace (4096 * (32 * pow32 k)) with (131072 * pow32 k) by ring. by rewrite <- !Z.div_div, E by lia. }
  destruct (block_new l) as [size|] eqn:El; cbn [mbind option_bind]; [|done]. rewrite (I l size El Hl).
  destruct (if (L <? l)%nat then _ else _) as [a1|]; cbn [mbind option_bind]; [|done].
  destruct (filled_of a1 l) as [b|]; cbn [mbind option_bind]; [|done].
  destruct (is_word_set b _) as [full|]; cbn [mbind option_bind]; [|done].
  destruct (full && _); cbn [mbind option_bind]; [|by apply IH; [lia|]].
  destruct (block_new (l + 1)) as [next_size|] eqn:En; cbn [mbind option_bind]; [|done]. rewrite (I _ next_size En ltac:(lia)).
  destruct (on_filled _ _ _) as [a2|]; cbn [mbind option_bind]; [|done]. by apply IH; [lia|].
Qed.

Lemma set_bits_beyond b n : array_wf b → num_bits b <= n < 2 ^ 32 - 32 → set_bits b n (n + 1) = Some b.
Proof.
  intros W Hn. pose proof (wf_num b W). unfold set_bits, set_bits_to.
  destruct (align_bits n ltac:(lia)) as (s & -> & Ms & Rs). rewrite align_trunc_bits by lia.
  assert (X : ∀ k m, n <= m → set_each k b m true = Some b).
  { induction k as [|k IH]; intros m Hm; cbn [set_each]; [done|]. unfold set_to.
    destruct (Z.ltb_spec m (num_bits b)); [lia|]. apply IH. lia. }
  rewrite X by lia. unfold BITS. match goal with |- context [set_each_word ?c] => replace c with O by zdiv end.
  cbn [set_each_word]. apply X. lia.
Qed.

Lemma set_occupied_same a l b : occupied_status a !! l = Some b → set_occupied a (<[l := b]> (occupied_status a)) = a.
Proof. intros E. destruct a. unfold set_occupied. cbn in *. by rewrite list_insert_id. Qed.

Lemma raised_keeps a a' f : alloc_wf a → alloc_wf a' → same_rest a a' → 0 <= f < frames a → raised a a' 0 1 f → grows a a'.
Proof.
  intros W W' R Hf K. pose proof R as (M & _ & _ & Rs). pose proof K as (O & Mo & N).
  assert (Oc : ∀ l n, 0 <= n → occ a' l n = (0 <? l)%nat && (l <? 4)%nat && (n =? anc 0 l f) || occ a l n).
  { intros l n Hn. rewrite O by done. by destruct l. }
  split; try done; try by rewrite Rs.
  - intros g Hg G. by rewrite Oc, G by lia.
  - intros S l n Hl Hn. rewrite (same_blocks a a' l R) in Hn. pose proof (blocks_parent a l n Hn) as P. rewrite !Oc by lia.
    intros [H|H]%orb_true_iff; [|by rewrite S, orb_true_r by done].
    apply andb_true_iff in H as [_ ->%Z.eqb_eq]. rewrite anc_up, Z.eqb_refl by lia.
    by destruct (Nat.ltb_spec 0 (Datatypes.S l)), (Nat.ltb_spec (Datatypes.S l) 4); try lia.
  - intros (C1 & C2 & T). split; [|split]; [| |by apply (raised_tidy a a' 0 1 f)].
    + intros l n Hl Hn H. rewrite (same_blocks a a' l R) in Hn. pose proof (blocks_parent a l n Hn) as P.
      apply N in H as [H|(_ & H & H')]; [|cbn [Nat.sub] in H'; rewrite Nat.sub_0_r in H'; by apply H'|lia|lia].
      apply Mo; [lia|]. by apply C1.
    + intros l n Hl Hn H. rewrite (same_blocks a a' l R) in Hn. destruct l as [|l]; [done|]. rewrite Oc by lia.
      apply N in H as [H|(_ & -> & _)]; [by rewrite C2, orb_true_r by done| |lia|lia].
      rewrite Z.eqb_refl. by destruct (Nat.ltb_spec (S l) 4); [|lia].
Qed.

Lemma mark_used_beyond a address : alloc_wf a → lower_end a <= address → 131072 * (address / 131072) < lower_end a →
  ∃ a', mark_used a address Block4k = Some a' ∧ grows a a'.
Proof.
  intros W Hb Ha. set (base := 131072 * (address / 131072)) in *. pose proof (frames_bound a W) as FB.
  assert (L : 0 < lower_end a <= 2 ^ 32).
  { pose proof (wf_memory a W). unfold lower_end, MAX_PHYS_ADDR_4K, MAX_PHYS_ADDR in *. lia. }
  assert (A : 0 <= base < lower_end a ∧ address < 2 ^ 32 ∧ base / 131072 = address / 131072) by zdiv. destruct A as (A & A32 & Q).
  unfold mark_used, first_bit. cbn [block_level block_bytes Nat.ltb Nat.leb]. change (4 * 1024) with 4096.
  destruct (Z.leb_spec MAX_PHYS_ADDR_4K address); [unfold MAX_PHYS_ADDR_4K in *; lia|]. cbn [andb].
  assert (I : lower_index address 4096 = address / 4096) by (unfold lower_index, u32, wrap; apply Z.mod_small; zdiv).
  assert (F : frames a <= address / 4096) by (unfold frames; zdiv). assert (F2 : address / 4096 < 2 ^ 20) by zdiv.
  rewrite I, checked_ok by lia. cbn [mbind option_bind mark_down].
  destruct (wf_occupied a W 0) as (b & Eb & B & Nb); [lia|]. rewrite blocks_0 in Nb.
  unfold on_occupied, at_index. rewrite Eb. cbn [mbind option_bind]. rewrite set_bits_beyond by (done || lia).
  cbn [mbind option_bind fmap option_fmap option_map]. rewrite set_occupied_same by done. cbn [Nat.ltb Nat.leb mbind option_bind].
  unfold bits_per_word, BITS. rewrite !checked_ok by lia. cbn [mbind option_bind].
  cbn [mark_up total_sizes Nat.sub block_new mbind option_bind Nat.ltb Nat.leb filled_of]. rewrite Eb. cbn [mbind option_bind].
  change (4 * 1024) with 4096. cbn [block_bytes]. change (4 * 1024) with 4096. rewrite I. unfold is_word_set.
  destruct (Z.ltb_spec (address / 4096) (num_bits b)); [lia|]. cbn [mbind option_bind andb Nat.add].
  destruct (mark_up_spec base 0 3 1 a W) as (a' & E' & W' & R' & K'); [done|lia|done|].
  exists a'. split; [|apply (raised_keeps a a' (base / 4096)); try done; by apply address_frame].
  rewrite <- E'. apply (mark_up_same address base 0 3 1 a); [lia|done].
Qed.

Lemma mark_steps_grows size count : ∀ a address n, alloc_wf a → 0 <= n → address / block_bytes size = n →
  (n + Z.of_nat count) * block_bytes size <= lower_end a →
  ∃ a', mark_steps count a address size = Some a' ∧ grows a a' ∧
    covered a' (n * block_bytes size) ((n + Z.of_nat count) * block_bytes size).
Proof.
  pose proof (block_bytes_pos size) as P. induction count as [|count IH]; intros a address n W H0 E H; cbn [mark_steps].
  - exists a. split; [done|]. split; [by apply grows_refl|]. intros x Hx. lia.
  - destruct (mark_used_grows a address size n W) as (a1 & E1 & G1 & C1); [split; [done|nia]|done|].
    rewrite E1. cbn [mbind option_bind].
    destruct (IH a1 (address + block_bytes size) (n + 1)) as (a' & E' & G' & C'); [apply G1|lia| | |].
    + replace (address + block_bytes size) with (address + 1 * block_bytes size) by lia. by rewrite Z.div_add, E by lia.
    + rewrite (grows_lower a a1 G1). by replace (n + 1 + Z.of_nat count) with (n + Z.of_nat (S count)) by lia.
    + exists a'. split; [done|]. split; [by eapply grows_trans|]. intros x Hx.
      destruct (Z.lt_ge_cases x ((n + 1) * block_bytes size)).
      * intros Hl. apply (covered_grows a1 a' (n * block_bytes size) ((n + 1) * block_bytes size)); [apply G1|nia|done|done|lia|done].
      * apply C'. nia.
Qed.

(** Blocks of 128k between two of their boundaries, in memory. *)
Lemma mark_range_128k a from to : alloc_wf a → 0 <= from → to <= lower_end a → from mod 131072 = 0 → to mod 131072 = 0 →
  ∃ a', mark_range a from to Block128k = Some a' ∧ grows a a' ∧ covered a' from to.
Proof.
  intros W Hf Ht Af At. unfold mark_range. cbn [block_bytes]. change (128 * 1024) with 131072.
  set (count := Z.to_nat ((to - from + 131072 - 1) / 131072)).
  destruct (Z.le_gt_cases to from).
  { assert (count = 0%nat) as -> by (unfold count; zdiv). exists a. split; [done|]. split; [by apply grows_refl|]. intros x Hx. lia. }
  assert (EC : 131072 * Z.of_nat count = to - from) by (unfold count; zdiv).
  destruct (mark_steps_grows Block128k count a from (from / 131072) W) as (a' & E & G & C); [zdiv|done|cbn [block_bytes]; zdiv|].
  exists a'. split; [done|]. split; [done|]. intros x Hx. apply C. cbn [block_bytes]. zdiv.
Qed.

(** Frames, those beyond the end of memory in its last block of 128k. *)
Lemma mark_steps_frames count : ∀ a address, alloc_wf a → 0 <= address →
  (∀ i, 0 <= i < Z.of_nat count → 131072 * ((address + 4096 * i) / 131072) < lower_end a) →
  ∃ a', mark_steps count a address Block4k = Some a' ∧ grows a a' ∧
    covered a' (4096 * (address / 4096)) (4096 * (address / 4096) + 4096 * Z.of_nat count).
Proof.
  induction count as [|count IH]; intros a address W H0 H; cbn [mark_steps].
  { exists a. split; [done|]. split; [by apply grows_refl|]. intros x Hx. lia. }
  assert (L : lower_end a mod 4096 = 0).
  { pose proof (wf_frames a W). unfold lower_end, MAX_PHYS_ADDR_4K.
    destruct (Z.min_spec (memory_size a) (2 ^ 32)) as [[_ ->]|[_ ->]]; done. }
  assert (X : ∃ a1, mark_used a address Block4k = Some a1 ∧ grows a a1 ∧ covered a1 (4096 * (address / 4096)) (4096 * (address / 4096) + 4096)).
  { destruct (Z.lt_ge_cases address (lower_end a)).
    - destruct (mark_used_grows a address Block4k (address / 4096) W) as (a1 & E1 & G1 & C1); [|done|].
      + split; [zdiv|]. cbn [block_bytes]. zdiv.
      + exists a1. split; [done|]. split; [done|]. intros x Hx. apply C1. cbn [block_bytes]. lia.
    - destruct (mark_used_beyond a address W) as (a1 & E1 & G1); [lia| |].
      + replace address with (address + 4096 * 0) by lia. apply H. lia.
      + exists a1. split; [done|]. split; [done|]. intros x Hx Hl. rewrite (grows_lower a a1 G1) in Hl. zdiv. }
  destruct X as (a1 & E1 & G1 & C1). rewrite E1. cbn [mbind option_bind].
  destruct (IH a1 (address + block_bytes Block4k)) as (a' & E' & G' & C'); cbn [block_bytes] in *.
  - apply G1.
  - lia.
  - intros i Hi. rewrite (grows_lower a a1 G1). replace (address + 4 * 1024 + 4096 * i) with (address + 4096 * (i + 1)) by lia. apply H. lia.
  - exists a'. split; [done|]. split; [by eapply grows_trans|]. replace ((address + 4 * 1024) / 4096) with (address / 4096 + 1) in C' by zdiv.
    intros x Hx. destruct (Z.lt_ge_cases x (4096 * (address / 4096) + 4096)); [|apply C'; lia].
    apply (covered_grows a1 a' (4096 * (address / 4096)) (4096 * (address / 4096) + 4096)); [apply G1|zdiv|done|done|lia].
Qed.

Lemma mark_range_frames a from to : alloc_wf a → 0 <= from →
  (∀ y, from <= y < to → 131072 * (y / 131072) < lower_end a) → from mod 4096 = 0 ∨ to mod 4096 = 0 →
  ∃ a', mark_range a from to Block4k = Some a' ∧ grows a a' ∧ covered a' from to.
Proof.
  intros W Hf H Al. unfold mark_range. cbn [block_bytes]. change (4 * 1024) with 4096.
  set (count := Z.to_nat ((to - from + 4096 - 1) / 4096)).
  assert (EC : to <= from ∧ count = 0%nat ∨ from < to ∧ to - from <= 4096 * Z.of_nat count < to - from + 4096) by (unfold count; zdiv).
  destruct (mark_steps_frames count a from W Hf) as (a' & E & G & C).
  { intros i Hi. apply H. lia. }
  exists a'. split; [done|]. split; [done|]. intros x Hx. apply C. destruct Al; zdiv.
Qed.

Lemma align_128k from : 0 <= from <= 2 ^ 32 → ∃ s, align 64 from 131072 = Some s ∧ s mod 131072 = 0 ∧ from <= s < from + 131072.
Proof.
  intros Hf. unfold align, align_next, is_aligned. destruct (Z.eqb_spec (from mod 131072) 0); cbn [negb].
  - exists from. split; [done|lia].
  - rewrite checked_ok by zdiv. eexists. split; [done|]. zdiv.
Qed.

Lemma align_trunc_128k to : 0 <= to → align_trunc to 131072 mod 131072 = 0 ∧ 0 <= align_trunc to 131072 <= to ∧ to < align_trunc to 131072 + 131072.
Proof.
  intros H. unfold align_trunc, is_aligned. destruct (Z.eqb_spec (to mod 131072) 0); cbn [negb]; [lia|zdiv].
Qed.

(** Memory that ends at or below 4G. *)
Definition small_memory (a : PhysPageAllocator) : Prop := alloc_wf a ∧ memory_size a <= MAX_PHYS_ADDR_4K.

Lemma small_grows a a' : small_memory a → grows a a' → small_memory a'.
Proof. intros (_ & S) G. unfold small_memory. rewrite (grows_size a a' G). split; [apply G|done]. Qed.

Lemma small_lower a : small_memory a → lower_end a = memory_size a.
Proof. intros (_ & S). unfold lower_end. lia. Qed.

Lemma mark_blocks_grows a from to : small_memory a → 0 <= from <= memory_size a → 0 <= to <= memory_size a →
  ∃ a', mark_blocks a from to to = Some a' ∧ grows a a' ∧ covered a' from to.
Proof.
  intros S Hf Ht. pose proof (small_lower a S) as L. pose proof S as (W & M4). unfold MAX_PHYS_ADDR_4K in M4.
  unfold mark_blocks. cbn [block_bytes]. change (128 * 1024) with 131072.
  destruct (align_128k from) as (s & Es & As & Rs); [lia|]. rewrite Es. cbn [mbind option_bind].
  destruct (align_trunc_128k to ltac:(lia)) as (Ae & Re & Re'). set (e := align_trunc to 131072) in *. clearbody e.
  assert (D4 : ∀ x, x mod 131072 = 0 → x mod 4096 = 0) by (intros x Hx; zdiv).
  destruct (mark_range_frames a from s W) as (a1 & E1 & G1 & C1); [lia|intros y Hy; rewrite L; zdiv|auto|].
  rewrite E1. cbn [mbind option_bind]. pose proof (grows_lower a a1 G1) as L1.
  destruct (mark_range_128k a1 s e) as (a2 & E2 & G2 & C2); [apply G1|lia|lia|done|done|].
  rewrite E2. cbn [mbind option_bind]. pose proof (grows_lower a1 a2 G2) as L2.
  destruct (mark_range_frames a2 e to) as (a3 & E3 & G3 & C3); [apply G2|lia|intros y Hy; rewrite L2, L1, L; zdiv|auto|].
  rewrite E3. exists a3. split; [done|]. split; [by eapply grows_trans, grows_trans|]. intros x Hx.
  destruct (Z.lt_ge_cases x s); [|destruct (Z.lt_ge_cases x e); [|apply C3; lia]].
  - apply (covered_grows a1 a3 from s); [apply G1|lia|by eapply grows_trans|done|lia].
  - apply (covered_grows a2 a3 s e); [apply G2|lia|done|done|lia].
Qed.

Lemma mark_reserved_grows a r : alloc_wf a → region_wf 64 r → set_wf 64 (resd_regions a) → ∃ a', mark_reserved a r = Some a' ∧ grows a a'.
Proof.
  intros W Hr Hs. unfold mark_reserved. destruct (set_insert_wf 64 (resd_regions a) r) as (rs & E & R); [lia|done|done|].
  rewrite E. eexists. split; [done|]. destruct W. by split.
Qed.

(** An entry that the arithmetic of [init] can handle. *)
Definition entry_ok (m : RawMemoryMap) : Prop := 0 <= base_addr m ∧ 0 < map_length m ∧ base_addr m + map_length m < 2 ^ 64.

Definition entry_end (m : RawMemoryMap) : Z := base_addr m + map_length m.

Lemma map_end_ok m : entry_ok m → map_end m = Some (entry_end m).
Proof. intros (H1 & H2 & H3). unfold map_end, entry_end. apply checked_ok. lia. Qed.

Lemma clamp_cases x hi : 0 <= x → 0 <= hi → clamp x 0 hi = Z.min x hi.
Proof. intros H1 H2. unfold clamp. destruct (Z.ltb_spec x 0); [lia|]. destruct (Z.ltb_spec hi x); lia. Qed.

Lemma reserve_until a m e (skip : bool) : small_memory a → set_wf 64 (resd_regions a) → entry_ok m → 0 <= e < 2 ^ 64 →
  ∃ a', (a ← (if base_addr m <? memory_size a
              then mark_blocks a (base_addr m) (clamp e 0 (memory_size a)) (clamp e 0 (memory_size a))
              else Some a);
         if skip then Some a else mark_reserved a (region_new (base_addr m) e)) = Some a' ∧
    grows a a' ∧ covered a' (base_addr m) (Z.min e (memory_size a)).
Proof.
  intros S R (M1 & M2 & M3) He. pose proof S as (W & _). pose proof (wf_memory a W) as WM. rewrite clamp_cases by lia.
  assert (X : ∃ a1, (if base_addr m <? memory_size a
      then mark_blocks a (base_addr m) (Z.min e (memory_size a)) (Z.min e (memory_size a)) else Some a) = Some a1 ∧
      grows a a1 ∧ covered a1 (base_addr m) (Z.min e (memory_size a))).
  { destruct (Z.ltb_spec (base_addr m) (memory_size a)); [apply mark_blocks_grows; [done|lia|lia]|].
    exists a. split; [done|]. split; [by apply grows_refl|intros x Hx; lia]. }
  destruct X as (a1 & E1 & G1 & C1). rewrite E1. cbn [mbind option_bind]. destruct skip; [by exists a1|].
  destruct (mark_reserved_grows a1 (region_new (base_addr m) e)) as (a2 & E2 & G2);
    [apply G1|apply region_new_wf; lia|by apply G1|].
  exists a2. split; [done|]. split; [by eapply grows_trans|]. by apply (covered_grows a1 a2); [apply G1|..].
Qed.

Lemma reserve_entry_grows a boot m : small_memory a → set_wf 64 (resd_regions a) → entry_ok m → 0 <= boot < 2 ^ 64 →
  ∃ a', reserve_entry (memory_size a) boot m a = Some a' ∧ grows a a' ∧
    (map_type m ≠ AVAILABLE → covered a' (base_addr m) (Z.min (entry_end m) (memory_size a))).
Proof.
  intros S R Hm Hb. pose proof Hm as (M1 & M2 & M3). pose proof S as (W & _). unfold reserve_entry.
  rewrite map_end_ok by done. cbn [mbind option_bind].
  destruct (Z.eqb_spec (map_type m) AVAILABLE) as [Av|Av]; cbn [andb].
  - destruct (Z.leb_spec boot (base_addr m)); [by exists a; split; [|split; [apply grows_refl|]]|]. rewrite andb_true_r.
    match goal with |- context [clamp ?x] => destruct (reserve_until a m x (boot <? x) S R Hm) as (a' & E & G & C) end.
    + unfold entry_end. destruct (boot <? _); lia.
    + exists a'. split; [exact E|]. by split.
  - rewrite andb_false_r. destruct (reserve_until a m (entry_end m) false S R Hm) as (a' & E & G & C); [unfold entry_end; lia|].
    exists a'. split; [exact E|]. by split.
Qed.

Lemma reserve_entries_grows heap mmap : (∀ n, 0 <= heap n < 2 ^ 64) → ∀ a, small_memory a → set_wf 64 (resd_regions a) →
  Forall entry_ok mmap →
  ∃ a', reserve_entries (memory_size a) heap mmap a = Some a' ∧ grows a a' ∧
    ∀ m, m ∈ mmap → map_type m ≠ AVAILABLE → covered a' (base_addr m) (Z.min (entry_end m) (memory_size a)).
Proof.
  intros Hh. induction mmap as [|m mmap IH]; intros a S R F; cbn [reserve_entries].
  - exists a. split; [done|]. split; [apply grows_refl, S|]. intros m Hm. by apply not_elem_of_nil in Hm.
  - apply Forall_cons in F as [Hm F].
    destruct (reserve_entry_grows a (heap (length mmap)) m S R Hm (Hh _)) as (a1 & E1 & G1 & C1). rewrite E1. cbn [mbind option_bind].
    destruct (IH a1) as (a' & E' & G' & C'); [by eapply small_grows|by apply G1|done|].
    rewrite (grows_size a a1 G1) in *. exists a'. split; [done|]. split; [by eapply grows_trans|].
    intros m' [->|Hm']%elem_of_cons; [|by apply C']. intros Av. destruct Hm. apply (covered_grows a1 a'); auto. apply G1.
Qed.

(** ** Holes in the memory map *)

Definition nonempty (r : MemoryRegion) : Prop := start r < bound 64 r.

Lemma intersection_nonempty r s : region_wf 64 r → region_wf 64 s → nonempty r → nonempty s →
  Forall nonempty (region_intersection r s).
Proof.
  intros Hr Hs Nr Ns. unfold region_intersection. destruct (overlaps r s) eqn:O; cbn [negb]; [|constructor].
  apply Forall_singleton. destruct r as [r1 r2], s as [s1 s2]. unfold nonempty in *. region_unfold. cbn [start end_] in *.
  region_cases; try done; lia.
Qed.

Lemma complement_nonempty r : region_wf 64 r → Forall nonempty (region_complement r).
Proof.
  intros Hr. destruct r as [s e]. unfold region_complement, nonempty. region_unfold. cbn [start end_] in *.
  region_cases; rewrite ?Forall_cons; split_and?; try apply Forall_nil_2; cbn [start end_]; region_cases; try done; lia.
Qed.

Lemma set_intersection_nonempty rs ss : set_wf 64 rs → set_wf 64 ss → Forall nonempty rs → Forall nonempty ss →
  Forall nonempty (set_intersection rs ss).
Proof.
  unfold set_wf. rewrite !Forall_forall. intros R S Nr Ns t. rewrite set_intersection_elem. intros (r & s & Hr & Hs & E).
  pose proof (intersection_nonempty r s (R _ Hr) (S _ Hs) (Nr _ Hr) (Ns _ Hs)) as N. rewrite E in N. by apply Forall_inv in N.
Qed.

Lemma set_complement_nonempty r : region_wf 64 r → Forall nonempty (set_complement [r]).
Proof.
  intros Hr. unfold set_complement. cbn [fmap list_fmap fold_left]. apply set_intersection_nonempty.
  - apply Forall_singleton, full_region_wf. lia.
  - by apply region_complement_wf.
  - by apply Forall_singleton.
  - by apply complement_nonempty.
Qed.

Lemma contains_entry m x : entry_ok m → 0 <= x < 2 ^ 64 →
  contains (region_new (base_addr m) (entry_end m)) x = true ↔ base_addr m <= x < entry_end m.
Proof.
  intros (H1 & H2 & H3) Hx. unfold entry_end. rewrite (contains_iff 64); [|apply region_new_wf; lia|done].
  region_unfold. cbn [start end_]. region_cases; lia.
Qed.

Lemma holes_spec mmap : Forall entry_ok mmap → ∀ rs, set_wf 64 rs → Forall nonempty rs →
  ∃ rs', holes mmap rs = Some rs' ∧ set_wf 64 rs' ∧ Forall nonempty rs' ∧
    ∀ x, 0 <= x < 2 ^ 64 → member rs' x ↔ member rs x ∧ ∀ m, m ∈ mmap → ¬ base_addr m <= x < entry_end m.
Proof.
  induction 1 as [|m mmap Hm F IH]; intros rs W N; cbn [holes].
  - exists rs. split_and!; try done. intros x Hx. setoid_rewrite elem_of_nil. tauto.
  - rewrite map_end_ok by done. cbn [mbind option_bind]. set (r := region_new _ _).
    assert (Wr : region_wf 64 r) by (destruct Hm as (H1 & H2 & H3); apply region_new_wf; unfold entry_end; lia).
    destruct (set_complement_spec 64 [r]) as [Wc Mc]; [lia|by apply Forall_singleton|].
    destruct (IH (set_intersection (set_complement [r]) rs)) as (rs' & E & W' & N' & M').
    + by apply set_intersection_wf.
    + apply set_intersection_nonempty; try done. by apply set_complement_nonempty.
    + exists rs'. split_and!; try done. intros x Hx. rewrite M', (set_intersection_member 64), Mc, member_one by done.
      unfold r. rewrite contains_entry by done. setoid_rewrite elem_of_cons. naive_solver.
Qed.

Lemma reserve_holes_grows grow rs : (∀ a, alloc_wf a → ∃ a', grow a = Some a' ∧ grows a a') →
  ∀ a, small_memory a → set_wf 64 (resd_regions a) → set_wf 64 rs → Forall (λ r, start r < end_ r <= memory_size a) rs →
  ∃ a', reserve_holes (memory_size a) grow rs a = Some a' ∧ grows a a' ∧ ∀ r, r ∈ rs → covered a' (start r) (end_ r).
Proof.
  intros Hg. induction rs as [|r rs IH]; intros a S R W F; cbn [reserve_holes].
  - exists a. split; [done|]. split; [apply grows_refl, S|]. intros r Hr. by apply not_elem_of_nil in Hr.
  - apply Forall_cons in F as [Fr F]. apply Forall_cons in W as [Wr W]. pose proof Wr as (R1 & R2 & _).
    rewrite clamp_id by lia. destruct (mark_blocks_grows a (start r) (end_ r) S) as (a1 & E1 & G1 & C1); [lia|lia|].
    rewrite E1. cbn [mbind option_bind].
    destruct (mark_reserved_grows a1 r) as (a2 & E2 & G2); [apply G1|done|by apply G1|]. rewrite E2. cbn [mbind option_bind].
    destruct (Hg a2 (grows_wf _ _ G2)) as (a3 & E3 & G3). rewrite E3. cbn [mbind option_bind].
    assert (G : grows a a3) by (by eapply grows_trans, grows_trans).
    destruct (IH a3) as (a' & E' & G' & C'); [by eapply small_grows|by apply G|done|by rewrite (grows_size a a3 G)|].
    rewrite (grows_size a a3 G) in *. exists a'. split; [done|]. split; [by eapply grows_trans|].
    intros r' [->|Hr]%elem_of_cons; [|by apply C']. apply (covered_grows a1 a'); [apply G1|lia| |done]. by eapply grows_trans, grows_trans.
Qed.

(** ** The whole initialisation *)

Lemma memory_end_pos mmap e : memory_end_of mmap = Some e → 0 < e <= MAX_PHYS_ADDR.
Proof.
  unfold memory_end_of. destruct (highest_end mmap 0) as [h|]; cbn [mbind option_bind]; [|done].
  destruct (h =? 0); [by intros [= <-]|]. destruct (align 64 h SMALL_PAGE_SIZE) as [y|]; cbn [mbind option_bind]; [|done].
  intros [= <-]. unfold clamp, MAX_PHYS_ADDR. destruct (Z.ltb_spec y 1), (Z.ltb_spec (2 ^ 40) y); lia.
Qed.

Lemma highest_end_le mmap : ∀ e h, highest_end mmap e = Some h → e <= h.
Proof.
  induction mmap as [|m mmap IH]; intros e h; cbn [highest_end]; [intros [= <-]; lia|].
  destruct (map_type m =? AVAILABLE); [|apply IH]. destruct (map_end m) as [x|]; cbn [mbind option_bind]; [|done].
  intros H%IH. lia.
Qed.

Lemma memory_end_aligned mmap e : memory_end_of mmap = Some e → e mod 4096 = 0.
Proof.
  unfold memory_end_of. destruct (highest_end mmap 0) as [h|] eqn:Eh; cbn [mbind option_bind]; [|done].
  apply highest_end_le in Eh. destruct (Z.eqb_spec h 0); [by intros [= <-]|].
  destruct (align 64 h SMALL_PAGE_SIZE) as [y|] eqn:Ey; cbn [mbind option_bind]; [|done].
  assert (Y : y mod 4096 = 0 ∧ 0 < y).
  { revert Ey. unfold align, align_next, is_aligned, SMALL_PAGE_SIZE. destruct (Z.eqb_spec (h mod 4096) 0); cbn [negb].
    - intros [= <-]. lia.
    - intros ->%checked_inv. zdiv. }
  intros [= <-]. unfold clamp, MAX_PHYS_ADDR. destruct (Z.ltb_spec y 1), (Z.ltb_spec (2 ^ 40) y); [lia|lia|done|apply Y].
Qed.

Lemma hole_bounds e rs : 0 < e < 2 ^ 64 → set_wf 64 rs → Forall nonempty rs → (∀ x, 0 <= x < 2 ^ 64 → member rs x → x < e) →
  Forall (λ r, start r < end_ r <= e) rs.
Proof.
  intros He W N M. rewrite Forall_forall in *. intros r Hr. specialize (N r Hr). pose proof (set_wf_elem 64 rs r W Hr) as Wr.
  assert (K : ∀ x, start r <= x < bound 64 r → x < e).
  { intros x Hx. pose proof (bound_range 64 r Wr). apply M; [lia|]. exists r. split; [done|]. apply (contains_iff 64); [done| |done].
    unfold address. lia. }
  unfold nonempty in N. pose proof (K (bound 64 r - 1) ltac:(lia)). unfold bound in *. destruct (Z.eqb_spec (end_ r) 0); lia.
Qed.

Lemma holes_of_memory mmap e : Forall entry_ok mmap → 0 < e <= 2 ^ 32 →
  ∃ rs, holes mmap [region_new 0 e] = Some rs ∧ set_wf 64 rs ∧ Forall (λ r, start r < end_ r <= e) rs ∧
    ∀ x, 0 <= x < e → (∀ m, m ∈ mmap → ¬ base_addr m <= x < entry_end m) → ∃ r, r ∈ rs ∧ start r <= x < end_ r.
Proof.
  intros F He. assert (W0 : region_wf 64 (region_new 0 e)) by (apply region_new_wf; lia).
  assert (M : ∀ x, 0 <= x < 2 ^ 64 → member [region_new 0 e] x ↔ x < e).
  { intros x Hx. rewrite member_one, (contains_iff 64) by done. region_unfold. cbn [start end_]. region_cases; lia. }
  destruct (holes_spec mmap F [region_new 0 e]) as (rs & E & W & N & K); [by apply Forall_singleton| |].
  { apply Forall_singleton. unfold nonempty. region_unfold. cbn [start end_]. region_cases; lia. }
  assert (B : Forall (λ r, start r < end_ r <= e) rs).
  { apply hole_bounds; [lia|done|done|]. intros x Hx. rewrite K, M by done. tauto. }
  exists rs. split_and!; try done. intros x Hx H. destruct (proj2 (K x ltac:(lia))) as (r & Hr & Cr).
  { rewrite M by lia. split; [lia|done]. }
  exists r. split; [done|]. rewrite Forall_forall in B. specialize (B r Hr).
  rewrite (contains_iff 64) in Cr; [|by apply (set_wf_elem 64 rs)|unfold address; lia].
  unfold bound in Cr. destruct (Z.eqb_spec (end_ r) 0); [|done]. pose proof (set_wf_elem 64 rs r W Hr) as (R1 & _). lia.
Qed.

(** What [init] must not leave free: memory that is reserved, that no entry
    describes, or that the bootstrap allocator gave out. *)
Definition unusable (mmap : list RawMemoryMap) (boot_from boot_to x : Z) : Prop :=
  (∃ m, m ∈ mmap ∧ map_type m ≠ AVAILABLE ∧ base_addr m <= x < entry_end m) ∨
  (∀ m, m ∈ mmap → ¬ base_addr m <= x < entry_end m) ∨
  boot_from <= x < boot_to.

(** C15. On a machine whose memory ends at or below 4G, with entries in the memory
    map that are not empty and end below 2^64, and bootstrap memory that starts at
    a page and ends in memory, [init] succeeds and leaves well formed arrays, and no
    frame with an address that is reserved in the memory map, missing from it or in
    use already is free, so that [alloc] does not return it.  The bootstrap memory
    may grow while the map is read, and the heap may take frames from the new
    allocator before [init] ends. *)
Theorem init_reserves b mmap heap boot grow e :
  memory_end_of mmap = Some e → e <= MAX_PHYS_ADDR_4K → Forall entry_ok mmap →
  (∀ n, 0 <= heap n < 2 ^ 64) → 0 <= boot_start b → boot_start b mod 4096 = 0 → boot <= e →
  (∀ a, alloc_wf a → ∃ a', grow a = Some a' ∧ grows a a') →
  ∃ a, init {| PAGE_ALLOCATOR := None; BOOTSTRAP_MEM := Some b |} mmap heap boot grow =
      Some {| PAGE_ALLOCATOR := Some a; BOOTSTRAP_MEM := None |} ∧
    memory_size a = e ∧ alloc_wf a ∧ summarised a ∧ consistent a ∧
    ∀ x, 0 <= x < e → unusable mmap (boot_start b) boot x → is_free a x = Some false.
Proof.
  intros Ee He F Hh Hb Ab Hboot Hg. pose proof (memory_end_pos mmap e Ee) as Pe.
  destruct (new_allocator_spec e) as (a0 & E0 & M0 & R0 & W0 & N0 & _); [done|by apply memory_end_aligned in Ee|].
  assert (S0 : small_memory a0) by (unfold small_memory; by rewrite M0).
  destruct (reserve_entries_grows heap mmap Hh a0 S0) as (a1 & E1 & G1 & C1); [rewrite R0; constructor|done|].
  pose proof (small_grows _ _ S0 G1) as S1. pose proof (grows_size _ _ G1) as M1. rewrite M0 in *.
  destruct (mark_range_frames a1 (boot_start b) boot) as (a2 & E2 & G2 & C2);
    [apply G1|done|intros y Hy; rewrite small_lower, M1 by done; zdiv|by left|].
  destruct (holes_of_memory mmap e F) as (rs & E3 & W3 & B3 & K3); [unfold MAX_PHYS_ADDR_4K in *; lia|].
  destruct (Hg a2 (grows_wf _ _ G2)) as (a3 & E4 & G3). pose proof (grows_trans _ _ _ G2 G3) as G13.
  pose proof (grows_trans _ _ _ G1 G13) as G03. pose proof (grows_size _ _ G03) as M3. rewrite M0 in M3.
  destruct (reserve_holes_grows grow rs Hg a3) as (a & E5 & G5 & C5);
    [by apply (small_grows a0)|apply G03; rewrite R0; constructor|done|by rewrite M3|].
  rewrite M3 in E5. pose proof (grows_trans _ _ _ G03 G5) as G. destruct (nothing_used_invariants a0 N0).
  exists a. split.
  { unfold init, is_allocator_ready. cbn [PAGE_ALLOCATOR BOOTSTRAP_MEM]. rewrite bool_decide_eq_false_2 by (intros [? [=]]).
    rewrite Ee. cbn [mbind option_bind]. rewrite E0. cbn [mbind option_bind]. rewrite E1. cbn [mbind option_bind].
    rewrite E2. cbn [mbind option_bind]. rewrite E3. cbn [mbind option_bind]. rewrite E4. cbn [mbind option_bind]. by rewrite E5. }
  split; [by rewrite (grows_size _ _ G)|]. split; [apply G|]. split; [by apply G|]. split; [by apply G|].
  intros x Hx U. rewrite is_free_frame; [|apply G|by rewrite (grows_lower _ _ G), (small_lower a0), M0].
  assert (O : occ a 0 (x / 4096) = true); [|by rewrite O].
  assert (Lx : lower_end a = e) by (by rewrite (grows_lower _ _ G), (small_lower a0), M0).
  destruct U as [(m & Hm' & Av & Rm)|[U|U]].
  - rewrite Forall_forall in F. pose proof (F m Hm') as [Bm _].
    apply (covered_grows a1 a _ _ (grows_wf _ _ G1) Bm (grows_trans _ _ _ G13 G5) (C1 m Hm' Av)); lia.
  - destruct (K3 x Hx U) as (r & Hr & Rr). by apply (C5 r Hr); [|lia].
  - by apply (covered_grows a2 a _ _ (grows_wf _ _ G2) Hb (grows_trans _ _ _ G3 G5) C2); [|lia].
Qed.

(** Above 4G memory is kept in blocks of 4M and 128M, and [init] marks it in blocks
    of 4k and 128k. *)
Lemma mark_range_above a from to size : MAX_PHYS_ADDR_4K <= from < to → (block_level size < 2)%nat → mark_range a from to size = None.
Proof.
  intros Hf Hs. unfold mark_range. pose proof (block_bytes_pos size).
  assert (1 <= (to - from + block_bytes size - 1) / block_bytes size) by (apply Z.div_le_lower_bound; lia).
  destruct (Z.to_nat _) eqn:E; [lia|]. cbn [mark_steps]. unfold mark_used. destruct (Z.leb_spec MAX_PHYS_ADDR_4K from); [|lia].
  by destruct (Nat.ltb_spec (block_level size) 2); [|lia].
Qed.

Lemma mark_range_empty a x size : mark_range a x x size = Some a.
Proof. unfold mark_range. by destruct size; cbn [block_bytes]; replace (x - x) with 0 by lia. Qed.

Lemma mark_blocks_above a from to : MAX_PHYS_ADDR_4K <= from < to → mark_blocks a from to to = None.
Proof.
  intros Hf. unfold mark_blocks. cbn [block_bytes]. change (128 * 1024) with 131072.
  destruct (align_trunc_128k to) as (Ae & Re & Re'); [unfold MAX_PHYS_ADDR_4K in *; lia|].
  set (e := align_trunc to 131072) in *. clearbody e.
  unfold align, align_next, is_aligned. destruct (Z.eqb_spec (from mod 131072) 0); cbn [negb].
  - cbn [mbind option_bind]. rewrite mark_range_empty. cbn [mbind option_bind]. assert (from <= e) by zdiv.
    destruct (decide (from = e)) as [<-|].
    + rewrite mark_range_empty. cbn [mbind option_bind]. apply mark_range_above; [done|cbn; lia].
    + by rewrite mark_range_above by (cbn; lia).
  - destruct (checked 64 _) as [s|] eqn:Es; cbn [mbind option_bind]; [|done]. apply checked_inv in Es as ->.
    rewrite mark_range_above; [done| |cbn; lia]. split; [lia|]. zdiv.
Qed.

(** Where a part of memory that starts above 4G is reserved, [init] panics. *)
Theorem init_panics_above p mmap heap boot grow e m :
  memory_end_of mmap = Some e → m ∈ mmap → entry_ok m → map_type m ≠ AVAILABLE → MAX_PHYS_ADDR_4K <= base_addr m < e →
  init p mmap heap boot grow = None.
Proof.
  intros Ee Hm Ho Av Hb. unfold init. destruct (is_allocator_ready p); [done|]. rewrite Ee. cbn [mbind option_bind].
  destruct (new_allocator e) as [a|]; cbn [mbind option_bind]; [|done]. destruct (BOOTSTRAP_MEM p) as [b|]; cbn [mbind option_bind]; [|done].
  assert (X : ∀ a boot, reserve_entry e boot m a = None).
  { intros a0 bt. unfold reserve_entry. destruct (Z.eqb_spec (map_type m) AVAILABLE); [done|]. cbn [andb].
    rewrite map_end_ok by done. cbn [mbind option_bind]. rewrite andb_false_r. destruct (Z.ltb_spec (base_addr m) e); [|lia].
    destruct Ho as (O1 & O2 & O3). pose proof (memory_end_pos mmap e Ee). rewrite clamp_cases by (unfold entry_end; lia).
    by rewrite mark_blocks_above by (unfold entry_end; lia). }
  assert (Y : ∀ a, reserve_entries e heap mmap a = None); [|by rewrite Y].
  clear Ee. induction mmap as [|m' mmap IH]; intros a0; [by apply not_elem_of_nil in Hm|]. cbn [reserve_entries].
  apply elem_of_cons in Hm as [<-|Hm]; [by rewrite X|]. destruct (reserve_entry _ _ _ _); [|done]. by apply IH.
Qed.

(** A heap that takes one frame whenever it grows. *)
Definition take_frame (a : PhysPageAllocator) : option PhysPageAllocator := fst <$> alloc a Block4k.

Lemma take_frame_grows a : alloc_wf a → ∃ a', take_frame a = Some a' ∧ grows a a'.
Proof.
  intros W. unfold take_frame, alloc. destruct (find_block_sound a Block4k W) as (r & E & K). rewrite E. cbn [mbind option_bind].
  destruct r as [address|].
  - destruct (K address eq_refl) as (n & Hn & _ & ->).
    destruct (mark_used_grows a (n * block_bytes Block4k) Block4k n W) as (a' & E' & G & _); [|by apply Z.div_mul|].
    + cbn [block_level] in Hn. rewrite blocks_0 in Hn. split; [lia|]. unfold frames in Hn. cbn [block_bytes]. zdiv.
    + rewrite E'. by exists a'.
  - destruct (alloc_error_small a Block4k W) as [e ->]; [cbn; lia|]. exists a. split; [done|]. by apply grows_refl.
Qed.

Definition demo_mmap : list RawMemoryMap :=
  [ {| base_addr := 0; map_length := 0xA0000; map_type := 1 |};
    {| base_addr := 0xF0000; map_length := 0x10000; map_type := 2 |};
    {| base_addr := 0x100000; map_length := 0x7EE5000; map_type := 1 |} ].

Lemma init_reserves_witness : ∃ a,
  init {| PAGE_ALLOCATOR := None; BOOTSTRAP_MEM := Some {| boot_start := 0x200000; boot_end := 0x200000 |} |}
    demo_mmap (λ _, 0x210000) 0x210000 take_frame = Some {| PAGE_ALLOCATOR := Some a; BOOTSTRAP_MEM := None |} ∧
  is_free a 0xB8000 = Some false ∧ is_free a 0xF8000 = Some false ∧ is_free a 0x20F000 = Some false.
Proof.
  destruct (init_reserves {| boot_start := 0x200000; boot_end := 0x200000 |} demo_mmap (λ _, 0x210000) 0x210000 take_frame
    0x7FE5000) as (a & E & _ & _ & _ & _ & K).
  - reflexivity.
  - done.
  - repeat apply Forall_cons_2; try apply Forall_nil_2; split_and!; done.
  - intros n. split; [done|]. reflexivity.
  - done.
  - done.
  - done.
  - apply take_frame_grows.
  - exists a. split; [exact E|]. split; [|split]; (apply K; [split; [done|reflexivity]|]).
    + right. left. intros m. unfold demo_mmap. rewrite !elem_of_cons, elem_of_nil.
      intros [->|[->|[->|[]]]]; unfold entry_end; cbn [base_addr map_length]; lia.
    + left. exists {| base_addr := 0xF0000; map_length := 0x10000; map_type := 2 |}. split; [unfold demo_mmap; rewrite !elem_of_cons; right; by left|].
      split; [done|]. unfold entry_end. cbn [base_addr map_length]. lia.
    + right. right. cbn [boot_start]. lia.
Defined.
