(* ===== verification/AddrSpace.v ===== *)
(** * Address spaces of the initial server: servers/init_server/src

    Device numbers (device.rs), pages of devices (page.rs), the mappings of an
    address space and the table of address spaces (mapping.rs), mapping frames
    (lowlevel.rs) and the page-fault handler (pager.rs).  A [BTreeSet] is the
    list of its elements in order, and inserting an element that compares equal
    to one in the set changes nothing.  [None] is a panic; [usize] has 32 bits. *)

From S2P Require Import Prelude Librust Region BitArray.

(** ** Devices and pages *)

Module Device.
Record DeviceId := { major : Z; minor : Z }.

#[export] Instance DeviceId_eq_dec : EqDecision DeviceId.
Proof. solve_decision. Defined.

Definition MEM_MAJOR : Z := 1.
Definition PSEUDO_MAJOR : Z := 0.
Definition ZERO_MINOR : Z := 1.

Definition from_u32 (id : Z) : DeviceId := {| major := wrap 16 (Z.shiftr id 16); minor := wrap 16 (Z.land id 0xFFFF) |}.
Definition into_u32 (d : DeviceId) : Z := Z.lor (u32 (Z.shiftl (major d) 16)) (minor d).
End Device.

Import Device.

Record VirtualPage := { device : DeviceId; offset : Z; page_flags : Z }.

#[export] Instance VirtualPage_eq_dec : EqDecision VirtualPage.
Proof. solve_decision. Defined.

Definition PAGE_SIZE : Z := 0x1000.

Definition add_offset (p : VirtualPage) (offset2 : Z) : option VirtualPage :=
  o ← checked 64 (offset p + offset2);
  Some {| device := device p; offset := o; page_flags := page_flags p |}.

(** ** Mappings *)

Record AddressMapping := { base_page : VirtualPage; region : MemoryRegion; flags : Z }.

#[export] Instance AddressMapping_eq_dec : EqDecision AddressMapping.
Proof. solve_decision. Defined.

(** Insertion and removal of a [BTreeSet] ordered by region. *)
Fixpoint tree_insert (x : AddressMapping) (l : list AddressMapping) : list AddressMapping :=
  match l with
  | [] => [x]
  | y :: l' =>
      match partial_cmp (region x) (region y) with
      | Lt => x :: l
      | Eq => l
      | Gt => y :: tree_insert x l'
      end
  end.
Fixpoint tree_remove (x : AddressMapping) (l : list AddressMapping) : list AddressMapping :=
  match l with
  | [] => []
  | y :: l' =>
      match partial_cmp (region x) (region y) with
      | Lt => l
      | Eq => l'
      | Gt => y :: tree_remove x l'
      end
  end.

Record AddrSpace := { root_page_map : Z; vaddr_map : list AddressMapping; attached_threads : gset Z }.

Definition READ_ONLY : Z := 1.

Definition addr_space_new (root_pmap : Z) : AddrSpace :=
  {| root_page_map := root_pmap; vaddr_map := []; attached_threads := ∅ |}.

Definition set_mappings (s : AddrSpace) (l : list AddressMapping) : AddrSpace :=
  {| root_page_map := root_page_map s; vaddr_map := l; attached_threads := attached_threads s |}.
Definition set_threads (s : AddrSpace) (t : gset Z) : AddrSpace :=
  {| root_page_map := root_page_map s; vaddr_map := vaddr_map s; attached_threads := t |}.

Definition thread_exists (s : AddrSpace) (tid : Z) : bool := bool_decide (tid ∈ attached_threads s).
Definition attach_thread (s : AddrSpace) (tid : Z) : AddrSpace * bool :=
  (set_threads s ({[tid]} ∪ attached_threads s), negb (thread_exists s tid)).
Definition detach_thread (s : AddrSpace) (tid : Z) : AddrSpace * bool :=
  (set_threads s (attached_threads s ∖ {[tid]}), thread_exists s tid).

Definition get_mapping (s : AddrSpace) (addr : Z) : option AddressMapping :=
  List.find (λ m, contains (region m) addr) (vaddr_map s).

Definition contains_region (s : AddrSpace) (r : MemoryRegion) : bool :=
  existsb (λ m, overlaps (region m) r) (vaddr_map s).

(** [map(Some(start_address), ...)] *)
Definition map_at (s : AddrSpace) (start_address : Z) (dev_id : DeviceId) (offset flags length : Z) :
    option (AddrSpace * option Z) :=
  let new_page := {| device := dev_id; offset := offset; page_flags := flags |} in
  e ← checked 32 (start_address + length);
  end_address ← align 32 e PAGE_SIZE;
  let start_address := align_trunc start_address PAGE_SIZE in
  if (end_address <=? start_address) && negb (end_address =? memory_end) then Some (s, None)
  else
    let new_region := region_new start_address end_address in
    if contains_region s new_region then Some (s, None)
    else
      Some (set_mappings s (tree_insert {| base_page := new_page; region := new_region; flags := flags |} (vaddr_map s)),
            Some start_address).

(** The regions that are in use: the fold of unions. *)
Fixpoint used_regions (ms : list AddressMapping) (acc : RegionSet) : option RegionSet :=
  match ms with
  | [] => Some acc
  | m :: ms => acc ← set_union acc [clone (region m)]; used_regions ms acc
  end.

(** The first region that is long enough, or whose length overflows. *)
Fixpoint first_fit (rs : RegionSet) (length : Z) : option MemoryRegion :=
  match rs with
  | [] => None
  | r :: rs =>
      match length_of 32 r with
      | Some l => if l <? length then first_fit rs length else Some r
      | None => Some r
      end
  end.

(** [map(None, ...)] *)
Definition map_any (s : AddrSpace) (dev_id : DeviceId) (offset flags length : Z) : option (AddrSpace * option Z) :=
  let new_page := {| device := dev_id; offset := offset; page_flags := flags |} in
  used ← used_regions (vaddr_map s) [];
  match first_fit (set_complement used) length with
  | None => Some (s, None)
  | Some r =>
      e ← checked 32 (start r + length);
      Some (set_mappings s (tree_insert {| base_page := new_page; region := region_new (start r) e; flags := flags |} (vaddr_map s)),
            Some (start r))
  end.

(** The rest of a mapping goes back with the offset of its start. *)
Fixpoint insert_rest (m : AddressMapping) (rs : RegionSet) (l : list AddressMapping) : option (list AddressMapping) :=
  match rs with
  | [] => Some l
  | r :: rs =>
      d ← checked 32 (start r - start (region m));
      o ← checked 64 (offset (base_page m) + d);
      insert_rest m rs
        (tree_insert {| base_page := {| device := device (base_page m); offset := o; page_flags := page_flags (base_page m) |};
                        region := r; flags := flags m |} l)
  end.

Definition unmap (s : AddrSpace) (start_address length : Z) : option (AddrSpace * bool) :=
  e ← checked 32 (start_address + length);
  end_address ← align 32 e PAGE_SIZE;
  let start_address := align_trunc start_address PAGE_SIZE in
  if start_address <? end_address then
    let unmapped_region := region_new start_address end_address in
    match get_mapping s start_address with
    | Some m =>
        rs ← region_difference (region m) unmapped_region;
        l ← insert_rest m rs (tree_remove m (vaddr_map s));
        Some (set_mappings s l, true)
    | None => Some (s, false)
    end
  else Some (s, false).

(** ** The table of address spaces, in the order of their page maps *)

Definition AddrSpaces := list (Z * AddrSpace).

Fixpoint table_insert (pmap : Z) (s : AddrSpace) (t : AddrSpaces) : AddrSpaces :=
  match t with
  | [] => [(pmap, s)]
  | (p, s') :: t' =>
      if pmap <? p then (pmap, s) :: t
      else if pmap =? p then (pmap, s) :: t'
      else (p, s') :: table_insert pmap s t'
  end.

Fixpoint table_get (pmap : Z) (t : AddrSpaces) : option AddrSpace :=
  match t with
  | [] => None
  | (p, s) :: t => if pmap =? p then Some s else table_get pmap t
  end.

Definition lookup_tid (t : AddrSpaces) (tid : Z) : option AddrSpace :=
  List.find (λ s, thread_exists s tid) (snd <$> t).

Definition register (t : AddrSpaces) (s : AddrSpace) : AddrSpaces * bool :=
  match table_get (root_page_map s) t with
  | None => (table_insert (root_page_map s) s t, true)
  | Some _ => (t, false)
  end.

Definition unregister (t : AddrSpaces) (pmap : Z) : AddrSpaces * option AddrSpace :=
  (filter (λ e, fst e ≠ pmap) t, table_get pmap t).

(** ** Mapping frames (lowlevel.rs) *)

Record PageMapping := { number : Z; mapping_flags : Z }.

Definition MAP_READ_ONLY : Z := 0x02.
Definition MAP_PAGE_SIZED : Z := 0x100.
Definition MAP_ARRAY : Z := 0x4000.
Definition SMALL_FRAME : Z := 0x1000.
Definition LARGE_FRAME : Z := 0x400000.

Definition frame_number (paddr : Z) : Z := u32 (align_trunc paddr SMALL_FRAME / SMALL_FRAME).

Definition page_mapping_default : PageMapping := {| number := 0; mapping_flags := 0 |}.

(** The kernel is the state [W] and its system call [set_page_mappings]. *)
Section kernel.
Context {W : Type}.
Variable set_page_mappings : W → Z → Z → option Z → list PageMapping → W * (Z + SyscallError).

(** The loop over the frames of a chunk of [n], from the [i]th. *)
Fixpoint map_chunk (frames : list Z) (i n : nat) (level addr_start : Z) (root_map : option Z) (w : W)
    (page_mappings : list PageMapping) (count : Z) : W * list PageMapping * (option Z + SyscallError) :=
  match frames with
  | [] => (w, page_mappings, inl (Some count))
  | f :: frames =>
      let page_mappings := <[i := {| number := frame_number f; mapping_flags := MAP_ARRAY |}]> page_mappings in
      match set_page_mappings w level addr_start root_map (take n page_mappings) with
      | (w, inr (PartiallyMapped c)) =>
          (w, page_mappings, match checked 32 (c + count) with Some c => inr (PartiallyMapped c) | None => inl None end)
      | (w, inr e) => (w, page_mappings, inr e)
      | (w, inl c) =>
          match checked 32 (count + c) with
          | None => (w, page_mappings, inl None)
          | Some count => map_chunk frames (S i) n level addr_start root_map w page_mappings count
          end
      end
  end.

Fixpoint map_chunks (fuel : nat) (frames : list Z) (level page_size vaddr : Z) (root_map : option Z) (w : W)
    (page_mappings : list PageMapping) (count : Z) : W * option (Z + SyscallError) :=
  match fuel, frames with
  | _, [] => (w, Some (inl count))
  | O, _ => (w, None)
  | S fuel, _ =>
      match checked 32 (count * page_size) with
      | None => (w, None)
      | Some d =>
          let c := take 32 frames in
          match map_chunk c 0 (length c) level (u32 (vaddr + d)) root_map w page_mappings count with
          | (w, _, inr e) => (w, Some (inr e))
          | (w, _, inl None) => (w, None)
          | (w, page_mappings, inl (Some count)) =>
              map_chunks fuel (drop 32 frames) level page_size vaddr root_map w page_mappings count
          end
      end
  end.

(** Every chunk has a frame: one step per frame is enough. *)
Definition map_frames (w : W) (root_map : option Z) (vaddr : Z) (frames : list Z) (flags : Z) : W * option (Z + SyscallError) :=
  let sized := negb (is_flag_cleared flags MAP_PAGE_SIZED) in
  map_chunks (length frames) frames (if sized then 1 else 0) (if sized then LARGE_FRAME else SMALL_FRAME) vaddr root_map w
    (replicate 32 page_mapping_default) 0.

Definition map_frame (w : W) (root_map : option Z) (vaddr paddr flags : Z) : W * option (Z + SyscallError) :=
  map_frames w root_map vaddr [paddr] flags.

(** ** Page faults (pager.rs) *)

Definition EX_PRESENT : Z := 0x01.

(** The type [Error] of error.rs. *)
Inductive Error :=
  ErrorOk | BadArgument | ErrorInterrupted | Failed | NotImplemented | ErrorNotReady | NotPermitted | InvalidSyscall | BadRequest
| KernelAccess | IllegalMemoryAccess | OutOfMemory | TooLong | AlreadyRegistered | NotRegistered | InvalidName | InvalidAddress
| ZeroLength | InvalidPort | InvalidId | Overflow | DoesntExist | EndOfFile | ParseError | WouldBlock | Incomplete.

(** The frame a fault in a mapping is resolved with, or the error. *)
Definition mapped_frame (m : AddressMapping) (request : ExceptionMessage) : option (Z + Error) :=
  mapping_offset ← checked 32 (cr2 request - start (region m));
  if major (device (base_page m)) =? MEM_MAJOR then p ← add_offset (base_page m) mapping_offset; Some (inl (offset p))
  else if (major (device (base_page m)) =? PSEUDO_MAJOR) && (minor (device (base_page m)) =? ZERO_MINOR) then Some (inl 0)
  else Some (inr NotImplemented).

(** The messages that are printed are left out; the text of an error is its
    constructor. *)
Definition handle_page_fault (w : W) (t : AddrSpaces) (request : ExceptionMessage) : W * option (unit + Error) :=
  if who request =? CTID_NULL then (w, None)
  else
    match lookup_tid t (who request) with
    | None => (w, Some (inr NotRegistered))
    | Some s =>
        match get_mapping s (cr2 request) with
        | Some m =>
            if is_flag_cleared (error_code request) EX_PRESENT then
              match mapped_frame m request with
              | None => (w, None)
              | Some (inr e) => (w, Some (inr e))
              | Some (inl frame) =>
                  let flags := if Z.land (flags m) READ_ONLY =? READ_ONLY then MAP_READ_ONLY else 0 in
                  match map_frame w (Some (root_page_map s)) (cr2 request) frame flags with
                  | (w, None) => (w, None)
                  | (w, Some (inl _)) => (w, Some (inl tt))
                  | (w, Some (inr _)) => (w, Some (inr Failed))
                  end
              end
            else (w, Some (inr IllegalMemoryAccess))
        | None => (w, Some (inr IllegalMemoryAccess))
        end
    end.
End kernel.
