(* ===== verification/AddrSpaceSpec.v ===== *)
(** * Address spaces: mapping, unmapping and page faults

    The mappings of an address space are disjoint, nonempty intervals that end
    before the end of memory, in the order of their addresses.  The meaning of
    an address space is [translate]: the place on a device, and the flags, that
    an address stands for. *)

From Stdlib Require Import Sorting.Sorted.
From S2P Require Import Prelude Librust Bits Region BitArray BitArraySpec AddrSpace.
Import Device.

(** ** Well-formed address spaces *)

Definition before (x y : AddressMapping) : Prop := end_ (region x) <= start (region y).

Definition mapping_wf (m : AddressMapping) : Prop :=
  0 <= start (region m) < end_ (region m) ∧ end_ (region m) < 2 ^ 32 ∧
  0 <= offset (base_page m) ∧ offset (base_page m) + (end_ (region m) - start (region m)) <= 2 ^ 64.

Definition space_wf (l : list AddressMapping) : Prop := Forall mapping_wf l ∧ StronglySorted before l.

Definition inside (m : AddressMapping) (a : Z) : Prop := start (region m) <= a < end_ (region m).

Lemma contains_inside m a : mapping_wf m → contains (region m) a = true ↔ inside m a.
Proof.
  intros (H1 & H2 & _). unfold contains, is_full_region, memory_start, memory_end, inside.
  destruct (Z.eqb_spec (start (region m)) 0), (Z.eqb_spec (end_ (region m)) 0), (Z.leb_spec (start (region m)) a),
    (Z.ltb_spec a (end_ (region m))); cbn [andb orb]; split; intros; try done; lia.
Qed.

Lemma sorted_disjoint l x y a : StronglySorted before l → Forall mapping_wf l → x ∈ l → y ∈ l → inside x a → inside y a → x = y.
Proof.
  intros S. induction S as [|z l S IH F]; intros W; [by intros ?%not_elem_of_nil|]. apply Forall_cons in W as [Wz W].
  rewrite Forall_forall in F. unfold before, inside in *.
  intros [->|Hx]%elem_of_cons [->|Hy]%elem_of_cons Ix Iy; [done| | |auto].
  - specialize (F y Hy). lia.
  - specialize (F x Hx). lia.
Qed.

(** Lookup finds the mapping an address is in. *)
Lemma get_mapping_inside s a m : space_wf (vaddr_map s) → get_mapping s a = Some m ↔ m ∈ vaddr_map s ∧ inside m a.
Proof.
  intros [W S]. unfold get_mapping. split.
  - intros E. apply List.find_some in E as [Hm C]. apply list_elem_of_In in Hm. rewrite Forall_forall in W.
    split; [done|]. apply contains_inside; auto.
  - intros [Hm I]. destruct (List.find (λ m, contains (region m) a) (vaddr_map s)) as [m'|] eqn:E.
    + apply List.find_some in E as [Hm' C]. apply list_elem_of_In in Hm'. f_equal.
      apply (sorted_disjoint (vaddr_map s) m' m a); try done. apply contains_inside; [|done]. rewrite Forall_forall in W. auto.
    + pose proof (List.find_none _ _ E m (proj1 (list_elem_of_In _ _) Hm)) as C. exfalso. cbn beta in C. rewrite Forall_forall in W.
      rewrite (proj2 (contains_inside m a (W m Hm)) I) in C. done.
Qed.

Lemma get_mapping_none s a : space_wf (vaddr_map s) → get_mapping s a = None ↔ ∀ m, m ∈ vaddr_map s → ¬ inside m a.
Proof.
  intros W. split.
  - intros E m Hm I. assert (X : get_mapping s a = Some m) by (by apply get_mapping_inside). congruence.
  - intros H. destruct (get_mapping s a) as [m|] eqn:E; [|done]. apply get_mapping_inside in E as [Hm I]; [|done].
    by destruct (H m Hm).
Qed.

(** The place an address stands for. *)
Definition place (m : AddressMapping) (a : Z) : DeviceId * Z * Z :=
  (device (base_page m), offset (base_page m) + (a - start (region m)), flags m).
Definition translate (s : AddrSpace) (a : Z) : option (DeviceId * Z * Z) := (λ m, place m a) <$> get_mapping s a.

(** ** The ordered set *)

Definition disjoint (x y : AddressMapping) : Prop := before x y ∨ before y x.

Lemma cmp_before x y : mapping_wf x → mapping_wf y → before x y → partial_cmp (region x) (region y) = Lt.
Proof.
  intros (X1 & _) _ B. unfold before, partial_cmp in *. by destruct (Z.ltb_spec (start (region x)) (start (region y))); [|lia].
Qed.
Lemma cmp_after x y : mapping_wf x → mapping_wf y → before y x → partial_cmp (region x) (region y) = Gt.
Proof.
  intros _ (Y1 & _) B. unfold before, partial_cmp in *. destruct (Z.ltb_spec (start (region x)) (start (region y))); [lia|].
  by destruct (Z.ltb_spec (start (region y)) (start (region x))); [|lia].
Qed.
Lemma cmp_self x : partial_cmp (region x) (region x) = Eq.
Proof. unfold partial_cmp. by rewrite !Z.ltb_irrefl. Qed.

Lemma tree_insert_spec x l : mapping_wf x → space_wf l → Forall (disjoint x) l →
  space_wf (tree_insert x l) ∧ ∀ y, y ∈ tree_insert x l ↔ y = x ∨ y ∈ l.
Proof.
  intros Wx [W S]. induction S as [|z l S IH F]; intros D; cbn [tree_insert].
  - split; [split; [by apply Forall_singleton|apply SSorted_cons; constructor]|]. intros y. by rewrite elem_of_cons.
  - apply Forall_cons in D as [Dz D]. apply Forall_cons in W as [Wz W]. destruct Dz as [B|B].
    + rewrite cmp_before by done. split; [|intros y; by rewrite !elem_of_cons]. split; [by apply Forall_cons_2; [|apply Forall_cons_2]|].
      constructor; [by constructor|]. constructor; [done|]. eapply Forall_impl; [exact F|]. unfold before in *.
      intros y Hy. destruct Wz as (Z1 & _). lia.
    + rewrite cmp_after by done. destruct (IH W D) as [[W' S'] E]. split; [|intros y; rewrite !elem_of_cons, E; tauto].
      split; [by constructor|]. constructor; [done|]. rewrite Forall_forall in *. intros y [->|Hy]%E; auto.
Qed.

Lemma tree_remove_spec x l : space_wf l → x ∈ l →
  space_wf (tree_remove x l) ∧ ∀ y, y ∈ tree_remove x l ↔ y ∈ l ∧ y ≠ x.
Proof.
  intros [W S]. induction S as [|z l S IH F]; intros Hx; [by apply not_elem_of_nil in Hx|]. cbn [tree_remove].
  apply Forall_cons in W as [Wz W]. assert (N : ∀ y, y ∈ l → y ≠ z).
  { intros y Hy ->. rewrite Forall_forall in F. specialize (F z Hy). unfold before in F. destruct Wz as (Z1 & _). lia. }
  apply elem_of_cons in Hx as [->|Hx].
  - rewrite cmp_self. split; [done|]. intros y. rewrite elem_of_cons. naive_solver.
  - rewrite cmp_after; [|rewrite Forall_forall in W; auto|done|rewrite Forall_forall in F; auto].
    destruct (IH W Hx) as [[W' S'] E]. split; [|intros y; rewrite !elem_of_cons, E; naive_solver].
    split; [by constructor|]. constructor; [done|]. rewrite Forall_forall in *. intros y [Hy _]%E. auto.
Qed.

(** Two mappings without a common address are disjoint. *)
Lemma disjoint_inside x y : mapping_wf x → mapping_wf y → (∀ a, inside x a → ¬ inside y a) → disjoint x y.
Proof.
  intros (X1 & X2 & _) (Y1 & Y2 & _) H. unfold disjoint, before, inside in *.
  specialize (H (Z.max (start (region x)) (start (region y)))). lia.
Qed.

Definition in_range (lo hi a : Z) : bool := (lo <=? a) && (a <? hi).

Lemma in_range_inside m a : in_range (start (region m)) (end_ (region m)) a = true ↔ inside m a.
Proof. unfold in_range, inside. rewrite andb_true_iff, Z.leb_le, Z.ltb_lt. done. Qed.

Lemma translate_eq s s' a : space_wf (vaddr_map s) → space_wf (vaddr_map s') →
  (∀ m, inside m a → m ∈ vaddr_map s' ↔ m ∈ vaddr_map s) → translate s' a = translate s a.
Proof.
  intros W W' H. unfold translate. destruct (get_mapping s a) as [m|] eqn:E.
  - apply get_mapping_inside in E as [Hm I]; [|done]. by rewrite (proj2 (get_mapping_inside s' a m W')) by (rewrite H; done).
  - rewrite (proj2 (get_mapping_none s' a W')); [done|]. intros m Hm I. rewrite get_mapping_none in E by done.
    apply (E m); [|done]. by apply H.
Qed.

Lemma translate_insert s x a : space_wf (vaddr_map s) → mapping_wf x → Forall (disjoint x) (vaddr_map s) →
  let s' := set_mappings s (tree_insert x (vaddr_map s)) in
  space_wf (vaddr_map s') ∧
  translate s' a = if in_range (start (region x)) (end_ (region x)) a then Some (place x a) else translate s a.
Proof.
  intros W Wx D s'. destruct (tree_insert_spec x (vaddr_map s) Wx W D) as [W' E]. split; [done|].
  destruct (in_range _ _ a) eqn:I.
  - apply in_range_inside in I. unfold translate. by rewrite (proj2 (get_mapping_inside s' a x W')) by (split; [apply E; by left|done]).
  - apply translate_eq; [done|done|]. intros m Im. cbn [s' vaddr_map set_mappings]. rewrite E. split; [|by right].
    intros [->|]; [|done]. apply in_range_inside in Im. congruence.
Qed.

Lemma translate_remove s x a : space_wf (vaddr_map s) → x ∈ vaddr_map s →
  let s' := set_mappings s (tree_remove x (vaddr_map s)) in
  space_wf (vaddr_map s') ∧
  translate s' a = if in_range (start (region x)) (end_ (region x)) a then None else translate s a.
Proof.
  intros W Hx s'. destruct (tree_remove_spec x (vaddr_map s) W Hx) as [W' E]. split; [done|].
  destruct (in_range _ _ a) eqn:I.
  - apply in_range_inside in I. unfold translate. rewrite (proj2 (get_mapping_none s' a W')); [done|].
    intros m Hm Im. cbn [s' vaddr_map set_mappings] in Hm. apply E in Hm as [Hm N]. apply N. destruct W as [W S].
    by apply (sorted_disjoint (vaddr_map s) m x a).
  - apply translate_eq; [done|done|]. intros m Im. cbn [s' vaddr_map set_mappings]. rewrite E. split; [tauto|].
    intros Hm. split; [done|]. intros ->. apply in_range_inside in Im. congruence.
Qed.

(** ** Pages *)

Definition page_down (x : Z) : Z := x / 4096 * 4096.
Definition page_up (x : Z) : Z := (x + 4095) / 4096 * 4096.

Lemma align_page x : 0 <= x <= 2 ^ 32 - 4096 → align 32 x PAGE_SIZE = Some (page_up x).
Proof.
  intros Hx. unfold align, align_next, is_aligned, page_up, PAGE_SIZE. change 0x1000 with 4096.
  destruct (Z.eqb_spec (x mod 4096) 0); cbn [negb]; [f_equal; zdiv|]. unfold checked.
  destruct (Z.leb_spec 0 (x + (4096 - x mod 4096))), (Z.ltb_spec (x + (4096 - x mod 4096)) (2 ^ 32)); cbn [andb]; try zdiv. f_equal. zdiv.
Qed.

Lemma align_trunc_page x : 0 <= x → align_trunc x PAGE_SIZE = page_down x.
Proof.
  intros Hx. unfold align_trunc, is_aligned, page_down, PAGE_SIZE. change 0x1000 with 4096.
  destruct (Z.eqb_spec (x mod 4096) 0); cbn [negb]; zdiv.
Qed.

Lemma page_bounds s n : 0 <= s → 0 <= n → 0 <= page_down s <= s ∧ s + n <= page_up (s + n) < s + n + 4096 ∧ s < page_down s + 4096.
Proof. intros Hs Hn. unfold page_down, page_up. zdiv. Qed.

Lemma checked_sum s n : 0 <= s → 0 <= n → s + n <= 2 ^ 32 - 4096 → checked 32 (s + n) = Some (s + n).
Proof. intros Hs Hn H. unfold checked. destruct (Z.leb_spec 0 (s + n)), (Z.ltb_spec (s + n) (2 ^ 32)); try done; lia. Qed.

(** ** Unmapping *)

Lemma checked_Some w x : 0 <= x < 2 ^ w → checked w x = Some x.
Proof. intros H. unfold checked. destruct (Z.leb_spec 0 x), (Z.ltb_spec x (2 ^ w)); try done; lia. Qed.

Lemma region_new_le s e : s <= e → region_new s e = mkRegion s e.
Proof. intros H. unfold region_new. by destruct (Z.ltb_spec e s); [lia|]. Qed.

Lemma region_new_end s : region_new s 0 = mkRegion s 0.
Proof. unfold region_new, memory_end. by rewrite andb_false_r. Qed.

(** A mapping and what is above, or below, an address. *)
Lemma intersection_above s e en : 0 <= s < e → 0 < en → s < en →
  region_intersection (mkRegion s e) (mkRegion en 0) = if en <? e then [mkRegion en e] else [].
Proof.
  intros H1 H2 H3. unfold region_intersection, overlaps, is_full_region, memory_start, memory_end. cbn [start end_].
  destruct (Z.eqb_spec e 0); [lia|]. rewrite andb_false_r. destruct (Z.eqb_spec en 0); [lia|]. cbn [andb orb].
  destruct (Z.leb_spec s en); [|lia]. destruct (Z.leb_spec en s); [lia|]. cbn [andb]. rewrite !orb_false_r.
  destruct (Z.ltb_spec en e); cbn [negb]; [|done]. rewrite Z.eqb_refl, Z.max_r by lia. by rewrite region_new_le by lia.
Qed.

Lemma intersection_below s e st : 0 <= s < e → s <= st < e → 0 < st →
  region_intersection (mkRegion s e) (mkRegion 0 st) = if s <? st then [mkRegion s st] else [].
Proof.
  intros H1 H2 H3. unfold region_intersection, overlaps, is_full_region, memory_start, memory_end. cbn [start end_].
  destruct (Z.eqb_spec e 0); [lia|]. rewrite andb_false_r. destruct (Z.eqb_spec st 0); [lia|]. rewrite andb_false_r. cbn [orb].
  destruct (Z.leb_spec 0 s); [|lia]. rewrite !orb_false_r. cbn [andb]. destruct (Z.ltb_spec 0 e); [|lia]. rewrite andb_true_r.
  destruct (Z.ltb_spec s st).
  - rewrite orb_true_r. cbn [negb]. rewrite Z.max_l, Z.min_r by lia. by rewrite region_new_le by lia.
  - destruct (Z.leb_spec s 0); [lia|]. done.
Qed.

(** What is left of a mapping on both sides of the range. *)
Lemma difference_pieces m st en : mapping_wf m → inside m st → st < en < 2 ^ 32 →
  region_difference (region m) (region_new st en) =
    Some ((if start (region m) <? st then [mkRegion (start (region m)) st] else []) ++
          (if en <? end_ (region m) then [mkRegion en (end_ (region m))] else [])).
Proof.
  intros (M1 & M2 & _) I H. destruct (region m) as [s e] eqn:R. unfold inside in I. rewrite R in *. cbn [start end_] in *.
  rewrite region_new_le by lia. unfold region_difference, region_complement, memory_start, memory_end. cbn [start end_].
  destruct (Z.eqb_spec en 0); [lia|]. cbn [negb]. rewrite region_new_end. destruct (Z.eqb_spec st 0) as [->|]; cbn [negb].
  - destruct (Z.ltb_spec s 0); [lia|]. cbn [app]. by rewrite intersection_above by lia.
  - rewrite region_new_le by lia. by rewrite intersection_above, intersection_below by lia.
Qed.

Definition piece (m : AddressMapping) (r : MemoryRegion) : AddressMapping :=
  {| base_page := {| device := device (base_page m); offset := offset (base_page m) + (start r - start (region m));
                     page_flags := page_flags (base_page m) |};
     region := r; flags := flags m |}.

Definition part_of (m : AddressMapping) (r : MemoryRegion) : Prop :=
  start (region m) <= start r < end_ r ∧ end_ r <= end_ (region m).

Lemma piece_wf m r : mapping_wf m → part_of m r → mapping_wf (piece m r).
Proof. intros (M1 & M2 & M3 & M4) (R1 & R2). unfold mapping_wf, piece. cbn [region base_page offset]. lia. Qed.

Lemma piece_place m r a : place (piece m r) a = place m a.
Proof. unfold place, piece. cbn [base_page device offset region flags]. do 2 f_equal. lia. Qed.

Lemma insert_rest_step m r rs l : mapping_wf m → part_of m r →
  insert_rest m (r :: rs) l = insert_rest m rs (tree_insert (piece m r) l).
Proof.
  intros (M1 & M2 & M3 & M4) (R1 & R2). cbn [insert_rest]. rewrite !checked_Some by lia. cbn [mbind option_bind].
  rewrite checked_Some by lia. done.
Qed.

(** A piece goes back where nothing is mapped. *)
Lemma translate_piece s m r : space_wf (vaddr_map s) → mapping_wf m → part_of m r →
  (∀ a, in_range (start r) (end_ r) a = true → translate s a = None) →
  let s' := set_mappings s (tree_insert (piece m r) (vaddr_map s)) in
  space_wf (vaddr_map s') ∧
  ∀ a, translate s' a = if in_range (start r) (end_ r) a then Some (place m a) else translate s a.
Proof.
  intros W Wm P N s'. pose proof (piece_wf m r Wm P) as Wp.
  assert (D : Forall (disjoint (piece m r)) (vaddr_map s)).
  { apply Forall_forall. intros y Hy. destruct W as [Wl S]. apply disjoint_inside; [done|rewrite Forall_forall in Wl; auto|].
    intros a Ia Iy. assert (T : translate s a = None) by (apply N, (in_range_inside (piece m r)); done).
    unfold translate in T. rewrite (proj2 (get_mapping_inside s a y (conj Wl S)) (conj Hy Iy)) in T. done. }
  split; [by apply (translate_insert s (piece m r) 0)|]. intros a.
  destruct (translate_insert s (piece m r) a W Wp D) as [_ E]. cbn [region piece] in E. by rewrite piece_place in E.
Qed.

Lemma translate_inside s m a : space_wf (vaddr_map s) → m ∈ vaddr_map s → inside m a → translate s a = Some (place m a).
Proof. intros W Hm I. unfold translate. by rewrite (proj2 (get_mapping_inside s a m W) (conj Hm I)). Qed.

(** The list with at most one piece put back. *)
Lemma insert_optional s m (b : bool) r rs : space_wf (vaddr_map s) → mapping_wf m → (b = true → part_of m r) →
  (b = true → ∀ a, in_range (start r) (end_ r) a = true → translate s a = None) →
  ∃ s', insert_rest m ((if b then [r] else []) ++ rs) (vaddr_map s) = insert_rest m rs (vaddr_map s') ∧
    set_mappings s (vaddr_map s') = s' ∧ space_wf (vaddr_map s') ∧
    ∀ a, translate s' a = if b && in_range (start r) (end_ r) a then Some (place m a) else translate s a.
Proof.
  intros W Wm P N. destruct b; cbn [app andb].
  - exists (set_mappings s (tree_insert (piece m r) (vaddr_map s))). rewrite insert_rest_step by auto.
    destruct (translate_piece s m r W Wm (P eq_refl) (N eq_refl)). done.
  - exists s. split; [done|]. split; [by destruct s|]. done.
Qed.

(** C12. [unmap] of pages in a mapping takes exactly these pages, as far as the
    mapping goes, out of the address space: the rest of the mapping stands for
    the same places on the device as before, and so does every other address.
    It returns false, and changes nothing, when the first page is not mapped. *)
Theorem unmap_spec s start_address length :
  space_wf (vaddr_map s) → 0 <= start_address → 0 < length → start_address + length <= 2 ^ 32 - 4096 →
  let st := page_down start_address in
  let en := page_up (start_address + length) in
  match get_mapping s st with
  | None => unmap s start_address length = Some (s, false)
  | Some m => ∃ s', unmap s start_address length = Some (s', true) ∧ space_wf (vaddr_map s') ∧
      ∀ a, translate s' a = if in_range st (Z.min en (end_ (region m))) a then None else translate s a
  end.
Proof.
  intros W Hs Hl H st en. destruct (page_bounds start_address length Hs ltac:(lia)) as (B1 & B2 & B3). fold st en in B1, B2, B3.
  assert (En : en <= 2 ^ 32 - 4096) by (unfold en, page_up; zdiv).
  unfold unmap. rewrite checked_sum by lia. cbn [mbind option_bind]. rewrite align_page by lia. cbn [mbind option_bind].
  rewrite align_trunc_page by lia. fold st en. destruct (Z.ltb_spec st en); [|lia].
  destruct (get_mapping s st) as [m|] eqn:E; [|done]. apply get_mapping_inside in E as [Hm I]; [|done].
  assert (Wm : mapping_wf m) by (destruct W as [Wl _]; rewrite Forall_forall in Wl; auto).
  rewrite difference_pieces by (done || lia). cbn [mbind option_bind]. pose proof I as [I1 I2].
  set (s0 := set_mappings s (tree_remove m (vaddr_map s))). destruct (translate_remove s m 0 W Hm) as [W0 _].
  assert (T0 : ∀ a, translate s0 a = if in_range (start (region m)) (end_ (region m)) a then None else translate s a).
  { intros a. by apply translate_remove. }
  destruct (insert_optional s0 m (start (region m) <? st) (mkRegion (start (region m)) st)
    (if en <? end_ (region m) then [mkRegion en (end_ (region m))] else []) W0 Wm) as (s1 & E1 & S1 & W1 & T1).
  { intros L%Z.ltb_lt. split; cbn [start end_]; lia. }
  { intros L%Z.ltb_lt a Ra. rewrite T0. destruct (in_range (start (region m)) (end_ (region m)) a) eqn:R; [done|].
    unfold in_range in *. cbn [start end_] in Ra. lia. }
  destruct (insert_optional s1 m (en <? end_ (region m)) (mkRegion en (end_ (region m))) [] W1 Wm) as (s2 & E2 & S2 & W2 & T2).
  { intros L%Z.ltb_lt. split; cbn [start end_]; lia. }
  { intros L%Z.ltb_lt a Ra. rewrite T1, T0. unfold in_range in *. cbn [start end_] in *.
    destruct (Z.ltb_spec (start (region m)) st), (Z.leb_spec (start (region m)) a), (Z.ltb_spec a st), (Z.ltb_spec a (end_ (region m)));
      cbn [andb]; try done; lia. }
  rewrite app_nil_r in E2. cbn [insert_rest] in E2. change (tree_remove m (vaddr_map s)) with (vaddr_map s0). rewrite E1, E2.
  cbn [mbind option_bind]. eexists. split; [done|]. replace (set_mappings s (vaddr_map s2)) with s2 by (rewrite <- S2, <- S1; done).
  split; [done|]. intros a. rewrite T2, T1, T0. cbn [start end_]. unfold in_range.
  pose proof (translate_inside s m a W Hm) as TI. unfold inside in TI.
  destruct (Z.ltb_spec (start (region m)) st), (Z.ltb_spec en (end_ (region m))), (Z.leb_spec (start (region m)) a), (Z.leb_spec en a), (Z.leb_spec st a),
    (Z.ltb_spec a st), (Z.ltb_spec a (end_ (region m))), (Z.ltb_spec a (Z.min en (end_ (region m)))); cbn [andb]; try lia; try done; by rewrite TI.
Qed.

Definition demo_page : VirtualPage := {| device := {| major := 1; minor := 0 |}; offset := 0x9000; page_flags := 0 |}.
Definition demo_space : AddrSpace :=
  {| root_page_map := 0x1000;
     vaddr_map := [ {| base_page := demo_page; region := mkRegion 0x10000 0x18000; flags := 1 |} ];
     attached_threads := {[5]} |}.

Lemma demo_space_wf : space_wf (vaddr_map demo_space).
Proof.
  split; [|apply SSorted_cons; constructor]. apply Forall_singleton. unfold mapping_wf. cbn. lia.
Qed.

Lemma unmap_spec_witness : ∃ s', unmap demo_space 0x12000 0x2000 = Some (s', true) ∧
  translate s' 0x12345 = None ∧ translate s' 0x14345 = Some ({| major := 1; minor := 0 |}, 0xd345, 1).
Proof.
  destruct (unmap_spec demo_space 0x12000 0x2000 demo_space_wf ltac:(lia) ltac:(lia) ltac:(lia)) as (s' & E & _ & K).
  exists s'. split; [exact E|]. split; rewrite K; reflexivity.
Defined.

(** ** Mapping *)

Lemma overlaps_ranges r s : 0 <= start r < end_ r → 0 <= start s < end_ s →
  overlaps r s = true ↔ start r < end_ s ∧ start s < end_ r.
Proof.
  intros Hr Hs. unfold overlaps, is_full_region, memory_start, memory_end.
  destruct (Z.eqb_spec (end_ r) 0), (Z.eqb_spec (end_ s) 0); lia.
Qed.

Lemma contains_region_free s st en : space_wf (vaddr_map s) → 0 <= st < en →
  contains_region s (mkRegion st en) = false → ∀ a, in_range st en a = true → translate s a = None.
Proof.
  intros W H C a Ra. unfold translate. destruct (get_mapping s a) as [m|] eqn:E; [|done]. exfalso.
  apply get_mapping_inside in E as [Hm I]; [|done]. destruct W as [Wl _]. rewrite Forall_forall in Wl. pose proof (Wl m Hm) as (M1 & _).
  apply not_true_iff_false in C. apply C. unfold contains_region. rewrite existsb_exists. exists m.
  split; [by apply list_elem_of_In|]. apply overlaps_ranges; [done|done|]. unfold in_range, inside in *. cbn [start end_]. lia.
Qed.

Lemma contains_region_used s st en : space_wf (vaddr_map s) → 0 <= st < en →
  contains_region s (mkRegion st en) = true → ∃ a, in_range st en a = true ∧ translate s a ≠ None.
Proof.
  intros W H C. unfold contains_region in C. rewrite existsb_exists in C. destruct C as (m & Hm & O). apply list_elem_of_In in Hm.
  pose proof W as [Wl _]. rewrite Forall_forall in Wl. pose proof (Wl m Hm) as (M1 & _).
  apply overlaps_ranges in O; [|done|done]. cbn [start end_] in O. exists (Z.max (start (region m)) st). split; [unfold in_range; lia|].
  rewrite (translate_inside s m) by (try done; unfold inside; lia). done.
Qed.

Lemma insert_mapping s m : space_wf (vaddr_map s) → mapping_wf m →
  (∀ a, in_range (start (region m)) (end_ (region m)) a = true → translate s a = None) →
  let s' := set_mappings s (tree_insert m (vaddr_map s)) in
  space_wf (vaddr_map s') ∧
  ∀ a, translate s' a = if in_range (start (region m)) (end_ (region m)) a then Some (place m a) else translate s a.
Proof.
  intros W Wm N s'. assert (E : piece m (region m) = m).
  { unfold piece. rewrite Z.sub_diag, Z.add_0_r. destruct m as [[d o f] r g]. done. }
  pose proof (translate_piece s m (region m) W Wm) as K. rewrite E in K. apply K; [|done]. destruct Wm as (M1 & _). split; lia.
Qed.

(** [map] at an address covers whole pages around the range asked for.  When
    one of them is in use already it fails and changes nothing; otherwise these
    pages stand for consecutive places on the device, and every other address
    for what it stood for. *)
Theorem map_at_spec s start_address dev off fl length :
  space_wf (vaddr_map s) → 0 <= start_address → 0 < length → start_address + length <= 2 ^ 32 - 4096 →
  0 <= off → off + length + 8192 <= 2 ^ 64 →
  let st := page_down start_address in
  let en := page_up (start_address + length) in
  ∃ s' r, map_at s start_address dev off fl length = Some (s', r) ∧ space_wf (vaddr_map s') ∧
    ((r = None ∧ s' = s ∧ ∃ a, in_range st en a = true ∧ translate s a ≠ None) ∨
     (r = Some st ∧ (∀ a, in_range st en a = true → translate s a = None) ∧
      ∀ a, translate s' a = if in_range st en a then Some (dev, off + (a - st), fl) else translate s a)).
Proof.
  intros W Hs Hl H Ho Ho2 st en. destruct (page_bounds start_address length Hs ltac:(lia)) as (B1 & B2 & B3). fold st en in B1, B2, B3.
  assert (En : en <= 2 ^ 32 - 4096) by (unfold en, page_up; zdiv).
  unfold map_at. rewrite checked_sum by lia. cbn [mbind option_bind]. rewrite align_page by lia. cbn [mbind option_bind].
  rewrite align_trunc_page by lia. fold st en. destruct (Z.leb_spec en st); [lia|]. cbn [andb]. rewrite region_new_le by lia.
  destruct (contains_region s (mkRegion st en)) eqn:C.
  - exists s, None. split; [done|]. split; [done|]. left. split_and!; try done. apply contains_region_used; [done|lia|done].
  - pose proof (contains_region_free s st en W ltac:(lia) C) as N. eexists _, _. split; [done|].
    match goal with |- context [tree_insert ?x _] => destruct (insert_mapping s x W) as [W' T] end.
    { unfold mapping_wf. cbn [region base_page offset start end_]. lia. }
    { exact N. }
    split; [done|]. right. split; [done|]. split; [done|]. intros a. exact (T a).
Qed.

Lemma map_at_spec_witness : ∃ s' r, map_at demo_space 0x20010 {| major := 1; minor := 0 |} 0 0 0x100 = Some (s', r) ∧ space_wf (vaddr_map s').
Proof.
  destruct (map_at_spec demo_space 0x20010 {| major := 1; minor := 0 |} 0 0 0x100 demo_space_wf ltac:(lia) ltac:(lia) ltac:(lia)
    ltac:(lia) ltac:(lia)) as (s' & r & E & W & _). exists s', r. split; [exact E|exact W].
Defined.

(** No region reaches the end of memory when its last address is not in use. *)
Lemma ends_before rs : set_wf 32 rs → ¬ member rs (2 ^ 32 - 1) → Forall (λ r, end_ r ≠ 0) rs.
Proof.
  intros W N. apply Forall_forall. intros r Hr E. apply N. exists r. split; [done|].
  pose proof (set_wf_elem 32 rs r W Hr) as Wr. apply (contains_iff 32); [done|unfold address; lia|].
  destruct Wr as (R1 & _). unfold bound. rewrite E, Z.eqb_refl. lia.
Qed.

Lemma mapping_region_wf m : mapping_wf m → region_wf 32 (region m).
Proof. intros (M1 & M2 & _). split; lia. Qed.

Lemma used_regions_spec ms : Forall mapping_wf ms → ∀ acc, set_wf 32 acc → ¬ member acc (2 ^ 32 - 1) →
  ∃ us, used_regions ms acc = Some us ∧ set_wf 32 us ∧
    ∀ a, address 32 a → member us a ↔ member acc a ∨ ∃ m, m ∈ ms ∧ inside m a.
Proof.
  induction 1 as [|m ms Wm _ IH]; intros acc W N; cbn [used_regions].
  - exists acc. split_and!; try done. intros a _. setoid_rewrite elem_of_nil. naive_solver.
  - pose proof (mapping_region_wf m Wm) as Wr. rewrite (clone_id 32) by done.
    destruct (union_loop_spec 32 acc [region m]) as (us & E & Wu & M); [lia|done|by apply Forall_singleton|].
    unfold set_union. rewrite (clone_ids 32), (clone_ids 32) by (try done; by apply Forall_singleton). rewrite E. cbn [mbind option_bind].
    assert (NW : no_wrap (acc ++ [region m])).
    { right. apply Forall_app. split; [by apply ends_before|]. apply Forall_singleton. destruct Wm as (M1 & _). lia. }
    specialize (M NW). destruct (IH us Wu) as (vs & Ev & Wv & Mv).
    + rewrite M by (unfold address; lia). intros [K|K]; [done|]. rewrite member_one, contains_inside in K by done.
      destruct Wm as (M1 & M2 & _). unfold inside in K. lia.
    + exists vs. split_and!; try done. intros a Ha. rewrite Mv, M, member_one, contains_inside by done.
      setoid_rewrite elem_of_cons. naive_solver.
Qed.

Lemma first_fit_elem rs n r : first_fit rs n = Some r → r ∈ rs ∧ (length_of 32 r = None ∨ ∃ l, length_of 32 r = Some l ∧ n <= l).
Proof.
  induction rs as [|x rs IH]; cbn [first_fit]; [done|]. destruct (length_of 32 x) as [l|] eqn:E.
  - destruct (Z.ltb_spec l n); [intros [H1 H2]%IH; split; [by right|done]|]. intros [= <-]. split; [left|]. right. eauto.
  - intros [= <-]. split; [left|by left].
Qed.

(** The region found has room for the length. *)
Lemma first_fit_room rs n r a : set_wf 32 rs → first_fit rs n = Some r → 0 < n < 2 ^ 32 →
  start r <= a < start r + n → contains r a = true ∧ address 32 a.
Proof.
  intros W F Hn Ha. apply first_fit_elem in F as [Hr L]. pose proof (set_wf_elem 32 rs r W Hr) as Wr.
  pose proof Wr as (R1 & R2 & R3). unfold length_of, is_full_region, memory_start, memory_end in L.
  assert (B : start r + n <= bound 32 r).
  { unfold bound. destruct (Z.eqb_spec (start r) 0), (Z.eqb_spec (end_ r) 0); cbn [andb] in L;
      destruct L as [L|(l & L & Hl)]; simplify_eq; lia. }
  assert (A : address 32 a) by (pose proof (bound_range 32 r Wr); unfold address; lia).
  split; [|done]. apply (contains_iff 32); [done|done|lia].
Qed.

(** C30. [map] without an address takes a range that nothing is mapped in: no
    address in use changes its meaning.  It fails, and changes nothing, when no
    free region is found; a range that would end with the address space makes
    it panic. *)
Theorem map_any_spec s dev off fl length :
  space_wf (vaddr_map s) → 0 < length < 2 ^ 32 → 0 <= off → off + length <= 2 ^ 64 →
  map_any s dev off fl length = Some (s, None) ∨
  ∃ b, 0 <= b ∧ (∀ a, in_range b (b + length) a = true → translate s a = None) ∧
    if b + length <? 2 ^ 32
    then ∃ s', map_any s dev off fl length = Some (s', Some b) ∧ space_wf (vaddr_map s') ∧
           ∀ a, translate s' a = if in_range b (b + length) a then Some (dev, off + (a - b), fl) else translate s a
    else b + length = 2 ^ 32 ∧ map_any s dev off fl length = None.
Proof.
  intros W Hl Ho Ho2. unfold map_any. pose proof W as [Wl _].
  destruct (used_regions_spec (vaddr_map s) Wl [] (Forall_nil_2 _)) as (us & Eu & Wu & Mu); [rewrite member_nil; tauto|].
  rewrite Eu. cbn [mbind option_bind]. destruct (set_complement_spec 32 us ltac:(lia) Wu) as [Wc Mc].
  destruct (first_fit (set_complement us) length) as [r|] eqn:F; [|by left]. right.
  pose proof (first_fit_elem _ _ _ F) as [Hr _]. pose proof (set_wf_elem 32 _ r Wc Hr) as (R1 & _).
  exists (start r). split; [lia|].
  assert (N : ∀ a, in_range (start r) (start r + length) a = true → translate s a = None).
  { intros a Ra. destruct (first_fit_room _ _ _ a Wc F Hl) as [C A]; [unfold in_range in Ra; lia|].
    unfold translate. rewrite (proj2 (get_mapping_none s a W)); [done|]. intros m Hm I.
    apply (proj1 (Mc a A)); [by exists r|]. apply Mu; [done|]. right. by exists m. }
  split; [done|]. destruct (first_fit_room _ _ _ (start r + length - 1) Wc F Hl ltac:(lia)) as [_ A]. unfold address in A.
  destruct (Z.ltb_spec (start r + length) (2 ^ 32)).
  - rewrite checked_Some by lia. cbn [mbind option_bind]. rewrite region_new_le by lia. eexists. split; [done|].
    match goal with |- context [tree_insert ?x _] => destruct (insert_mapping s x W) as [W' T] end.
    { unfold mapping_wf. cbn [region base_page offset start end_]. lia. }
    { exact N. }
    split; [exact W'|exact T].
  - split; [lia|]. unfold checked. destruct (Z.ltb_spec (start r + length) (2 ^ 32)); [lia|]. by rewrite andb_false_r.
Qed.

Lemma map_any_spec_witness : ∃ s' b, map_any demo_space {| major := 1; minor := 0 |} 0 0 0x20000 = Some (s', Some b) ∧
  translate demo_space b = None.
Proof.
  destruct (map_any_spec demo_space {| major := 1; minor := 0 |} 0 0 0x20000 demo_space_wf ltac:(lia) ltac:(lia) ltac:(lia))
    as [E|(b & Hb & N & K)].
  - exfalso. apply (f_equal (option_map snd)) in E. vm_compute in E. discriminate E.
  - destruct (b + 0x20000 <? 2 ^ 32) eqn:L.
    + destruct K as (s' & E & _). exists s', b. split; [exact E|]. apply N. unfold in_range. lia.
    + destruct K as [_ E]. apply (f_equal (option_map snd)) in E. vm_compute in E. discriminate E.
Defined.

(** ** Page faults *)

Section page_fault.
Context {W : Type} (set_page_mappings : W → Z → Z → option Z → list PageMapping → W * (Z + SyscallError)).

(** The kernel counts pages in 32 bits. *)
Definition counts_ok : Prop := ∀ w level vaddr pmap ms w' r, set_page_mappings w level vaddr pmap ms = (w', r) →
  match r with inl n => 0 <= n < 2 ^ 32 | inr (PartiallyMapped c) => 0 <= c < 2 ^ 32 | inr _ => True end.

(** One frame is one system call, whose flags do not depend on those asked for. *)
Lemma map_one_frame w pmap vaddr paddr fl : counts_ok → 0 <= vaddr < 2 ^ 32 → 0 <= paddr → is_flag_cleared fl MAP_PAGE_SIZED = true →
  map_frame set_page_mappings w pmap vaddr paddr fl =
    let (w', r) := set_page_mappings w 0 vaddr pmap [ {| number := u32 (paddr / 4096); mapping_flags := MAP_ARRAY |} ] in (w', Some r).
Proof.
  intros C Hv Hp F. unfold map_frame, map_frames. rewrite F. cbn [negb List.length map_chunks].
  rewrite checked_Some by (unfold SMALL_FRAME; lia). change (take 32 [paddr]) with [paddr]. cbn [List.length map_chunk].
  assert (N : frame_number paddr = u32 (paddr / 4096)).
  { unfold frame_number, SMALL_FRAME. change 0x1000 with PAGE_SIZE. rewrite align_trunc_page by done. unfold page_down, PAGE_SIZE.
    change 0x1000 with 4096. f_equal. zdiv. }
  rewrite N, Z.add_0_r. unfold wrap at 1. rewrite Z.mod_small by lia.
  change (take 1 (<[0%nat:=_]> (replicate 32 page_mapping_default))) with [{| number := u32 (paddr / 4096); mapping_flags := MAP_ARRAY |}].
  destruct (set_page_mappings w 0 vaddr pmap _) as [w' r] eqn:E. pose proof (C _ _ _ _ _ _ _ E) as K.
  destruct r as [n|err]; [|destruct err; try done]; by rewrite ?Z.add_0_l, ?Z.add_0_r, checked_Some.
Qed.

(** The frame for a place on a device: memory is its own offset, and every page
    of the device of zeros is frame 0. *)
Definition zero_device (d : DeviceId) : bool := (major d =? PSEUDO_MAJOR) && (minor d =? ZERO_MINOR).
Definition frame_of (d : DeviceId) (off : Z) : option Z :=
  if major d =? MEM_MAJOR then Some off else if zero_device d then Some 0 else None.

Lemma mapped_frame_place m request : mapping_wf m → inside m (cr2 request) →
  mapped_frame m request =
    Some (match frame_of (device (base_page m)) (offset (base_page m) + (cr2 request - start (region m))) with
          | Some f => inl f | None => inr NotImplemented end).
Proof.
  intros (M1 & M2 & M3 & M4) I. unfold inside in I. unfold mapped_frame, frame_of, zero_device. rewrite checked_Some by lia. cbn [mbind option_bind].
  destruct (major _ =? MEM_MAJOR); [|by destruct (_ && _)]. unfold add_offset. rewrite checked_Some by lia. done.
Qed.

(** Every outcome of the handler. *)
Lemma page_fault_outcome w t request s :
  counts_ok → who request ≠ CTID_NULL → 0 <= cr2 request < 2 ^ 32 →
  lookup_tid t (who request) = Some s → space_wf (vaddr_map s) →
  handle_page_fault set_page_mappings w t request =
    match translate s (cr2 request) with
    | None => (w, Some (inr IllegalMemoryAccess))
    | Some (d, off, fl) =>
        if negb (is_flag_cleared (error_code request) EX_PRESENT) then (w, Some (inr IllegalMemoryAccess))
        else
          match frame_of d off with
          | None => (w, Some (inr NotImplemented))
          | Some f =>
              let (w', r) := set_page_mappings w 0 (cr2 request) (Some (root_page_map s))
                               [ {| number := u32 (f / 4096); mapping_flags := MAP_ARRAY |} ] in
              (w', Some (match r with inl _ => inl tt | inr _ => inr Failed end))
          end
    end.
Proof.
  intros C Hw Hc L Ws. unfold handle_page_fault. destruct (Z.eqb_spec (who request) CTID_NULL); [done|]. rewrite L. unfold translate.
  destruct (get_mapping s (cr2 request)) as [m|] eqn:E; [|done]. cbn [fmap option_fmap option_map place].
  apply get_mapping_inside in E as [Hm I]; [|done]. assert (Wm : mapping_wf m) by (destruct Ws as [Wl _]; rewrite Forall_forall in Wl; auto).
  destruct (is_flag_cleared (error_code request) EX_PRESENT); cbn [negb]; [|done].
  rewrite mapped_frame_place by done. destruct (frame_of _ _) as [f|] eqn:F; [|done].
  rewrite map_one_frame; [by destruct (set_page_mappings _ _ _ _ _) as [w' [r|r]]|done|done| |].
  - unfold frame_of, zero_device in F. destruct Wm as (_ & _ & M3 & _). unfold inside in I.
    destruct (_ =? MEM_MAJOR); [|destruct (_ && _)]; simplify_eq; lia.
  - by destruct (_ =? READ_ONLY).
Qed.

(** C35. A page fault is resolved with what the address stands for, for an address
    that is not in a mapping of the zero device.  When it is mapped from physical
    memory and not present, the page is mapped to the frame at its place in memory,
    by one system call in the address space of the thread, whose flags are the same
    for every mapping; otherwise the kernel is not called and the handler reports
    the error: an illegal access when the address is not mapped or present, and
    that it is not implemented for any other device. *)
Theorem page_fault_spec w t request s :
  counts_ok → who request ≠ CTID_NULL → 0 <= cr2 request < 2 ^ 32 →
  lookup_tid t (who request) = Some s → space_wf (vaddr_map s) →
  (∀ d off fl, translate s (cr2 request) = Some (d, off, fl) → zero_device d = false) →
  handle_page_fault set_page_mappings w t request =
    match translate s (cr2 request) with
    | None => (w, Some (inr IllegalMemoryAccess))
    | Some (d, off, fl) =>
        if negb (is_flag_cleared (error_code request) EX_PRESENT) then (w, Some (inr IllegalMemoryAccess))
        else if major d =? MEM_MAJOR then
          let (w', r) := set_page_mappings w 0 (cr2 request) (Some (root_page_map s))
                           [ {| number := u32 (off / 4096); mapping_flags := MAP_ARRAY |} ] in
          (w', Some (match r with inl _ => inl tt | inr _ => inr Failed end))
        else (w, Some (inr NotImplemented))
    end.
Proof.
  intros C Hw Hc L Ws Z. rewrite (page_fault_outcome w t request s) by done. destruct (translate s (cr2 request)) as [[[d off] fl]|]; [|done].
  unfold frame_of. rewrite (Z d off fl eq_refl). destruct (negb _); [done|]. by destruct (_ =? MEM_MAJOR).
Qed.

(** A page of the zero device is not a new page of zeros: it is mapped to frame 0 of
    physical memory, as every other page of the device is. *)
Theorem page_fault_zero_device w t request s d off fl :
  counts_ok → who request ≠ CTID_NULL → 0 <= cr2 request < 2 ^ 32 →
  lookup_tid t (who request) = Some s → space_wf (vaddr_map s) →
  translate s (cr2 request) = Some (d, off, fl) → zero_device d = true → is_flag_cleared (error_code request) EX_PRESENT = true →
  handle_page_fault set_page_mappings w t request =
    let (w', r) := set_page_mappings w 0 (cr2 request) (Some (root_page_map s)) [ {| number := 0; mapping_flags := MAP_ARRAY |} ] in
    (w', Some (match r with inl _ => inl tt | inr _ => inr Failed end)).
Proof.
  intros C Hw Hc L Ws T Z P. rewrite (page_fault_outcome w t request s) by done. rewrite T, P. cbn [negb]. unfold frame_of. rewrite Z.
  destruct (Z.eqb_spec (major d) MEM_MAJOR) as [E|]; [|done]. unfold zero_device in Z. by rewrite E in Z.
Qed.
End page_fault.

(** Thread 5 reads address 0x12345, which is not present. *)
Definition demo_fault : ExceptionMessage :=
  {| eax := 0; ebx := 0; ecx := 0; edx := 0; esi := 0; edi := 0; ebp := 0; esp := 0; cs := 0x1b; ds := 0x23; es := 0x23; fs := 0; gs := 0;
     ss := 0x23; eflags := 0x202; cr0 := 0; cr2 := 0x12345; cr3 := 0x1000; cr4 := 0; eip := 0; error_code := 4; fault_num := 14;
     processor_id := 0; who := 5 |}.

Lemma page_fault_spec_witness :
  handle_page_fault (λ (w : list (Z * Z)) _ v _ ms, ((v, match ms with m :: _ => number m | [] => 0 end) :: w, inl 1)) []
    [(0x1000, demo_space)] demo_fault = ([(0x12345, 0xb)], Some (inl tt)).
Proof.
  refine (page_fault_spec (λ (w : list (Z * Z)) _ v _ ms, ((v, match ms with m :: _ => number m | [] => 0 end) :: w, inl 1)) []
    [(0x1000, demo_space)] demo_fault demo_space _ _ _ _ _ _).
  - intros w l v p ms w' r [= <- <-]. lia.
  - done.
  - cbn. lia.
  - reflexivity.
  - apply demo_space_wf.
  - intros d off fl E. vm_compute in E. injection E as <- <- <-. reflexivity.
Defined.

(** ** The table of address spaces *)

(** The keys are in order, and each space is under its own page map. *)
Definition table_wf (t : AddrSpaces) : Prop :=
  StronglySorted (λ x y, fst x < fst y) t ∧ Forall (λ e, root_page_map (snd e) = fst e) t.

Lemma table_insert_spec p s t : StronglySorted (λ x y, fst x < fst y) t → table_get p t = None →
  StronglySorted (λ x y, fst x < fst y) (table_insert p s t) ∧ ∀ e, e ∈ table_insert p s t ↔ e = (p, s) ∨ e ∈ t.
Proof.
  intros S. induction S as [|[q s'] t S IH F]; cbn [table_get table_insert].
  - intros _. split; [apply SSorted_cons; constructor|]. intros e. by rewrite elem_of_cons.
  - destruct (Z.eqb_spec p q); [done|]. intros G. destruct (Z.ltb_spec p q).
    + split; [|intros e; by rewrite !elem_of_cons]. constructor; [by constructor|]. constructor; [done|].
      eapply Forall_impl; [exact F|]. cbn. lia.
    + destruct (IH G) as [S' E]. split; [|intros e; rewrite !elem_of_cons, E; tauto]. constructor; [done|].
      rewrite Forall_forall in *. intros e [->|He]%E; [cbn; lia|auto].
Qed.

(** [register] adds an address space unless one with the same page map is there,
    and [lookup_tid] finds a space that the thread is attached to whenever there
    is one: a thread of a space that is registered can be looked up. *)
Theorem register_lookup t s tid :
  table_wf t → thread_exists s tid = true →
  let (t', ok) := register t s in
  table_wf t' ∧ ok = negb (bool_decide (is_Some (table_get (root_page_map s) t))) ∧
  (ok = true → ∃ s', lookup_tid t' tid = Some s' ∧ thread_exists s' tid = true ∧ (s' = s ∨ lookup_tid t tid ≠ None)).
Proof.
  intros [S F] T. unfold register. destruct (table_get (root_page_map s) t) as [s0|] eqn:G.
  { split; [done|]. rewrite bool_decide_eq_true_2 by eauto. done. }
  destruct (table_insert_spec _ s t S G) as [S' E]. split; [split; [done|]|split; [by rewrite bool_decide_eq_false_2 by (intros [? [=]])|]].
  - rewrite Forall_forall in *. intros e [->|He]%E; [done|auto].
  - intros _. unfold lookup_tid. destruct (List.find (λ s, thread_exists s tid) (snd <$> table_insert (root_page_map s) s t)) as [s'|] eqn:Q.
    + apply List.find_some in Q as [Hs' Ts']. exists s'. split_and!; try done. apply list_elem_of_In, list_elem_of_fmap in Hs' as (e & -> & He).
      apply E in He as [->|He]; [by left|]. right. intros N. pose proof (List.find_none _ _ N (snd e)) as K. cbn beta in K.
      rewrite K in Ts'; [done|]. apply list_elem_of_In, list_elem_of_fmap. by exists e.
    + exfalso. pose proof (List.find_none _ _ Q s) as K. cbn beta in K. rewrite K in T; [done|].
      apply list_elem_of_In, list_elem_of_fmap. exists (root_page_map s, s). split; [done|]. apply E. by left.
Qed.

Lemma register_lookup_witness : ∃ s', lookup_tid (fst (register [] demo_space)) 5 = Some s' ∧ thread_exists s' 5 = true.
Proof.
  destruct (register_lookup [] demo_space 5 ltac:(split; constructor) eq_refl) as (_ & _ & K).
  destruct (K eq_refl) as (s' & E & T & _). exists s'. split; [exact E|exact T].
Defined.

(** ** Device numbers *)

(** A device number of 32 bits is the pair of its halves: the conversions are
    inverse to each other. *)
Theorem device_id_roundtrip id d :
  0 <= id < 2 ^ 32 → 0 <= major d < 2 ^ 16 → 0 <= minor d < 2 ^ 16 →
  into_u32 (from_u32 id) = id ∧ from_u32 (into_u32 d) = d.
Proof.
  assert (J : ∀ x y, 0 <= x < 2 ^ 16 → 0 <= y < 2 ^ 16 → Z.lor (u32 (Z.shiftl x 16)) y = x * 65536 + y).
  { intros x y Hx Hy. rewrite Z.shiftl_mul_pow2 by lia. unfold wrap. rewrite Z.mod_small by lia. by apply lor_add_high. }
  assert (L : ∀ z, Z.land z 0xFFFF = z mod 2 ^ 16) by (intros z; apply (Z.land_ones z 16); lia).
  intros Hi Hx Hy. unfold into_u32, from_u32. destruct d as [x y]. cbn [major minor] in *. split.
  - rewrite L, Z.shiftr_div_pow2 by lia. unfold wrap at 2 3. rewrite J by zdiv. zdiv.
  - rewrite J, L, Z.shiftr_div_pow2 by lia. unfold wrap. f_equal; zdiv.
Qed.

Lemma device_id_roundtrip_witness : into_u32 (from_u32 0x10002) = 0x10002 ∧ from_u32 (into_u32 {| major := 1; minor := 2 |}) = {| major := 1; minor := 2 |}.
Proof. apply (device_id_roundtrip 0x10002 {| major := 1; minor := 2 |}); cbn; lia. Defined.
