(* ===== verification/InitServer.v ===== *)
(** * The message loop of the initial server: servers/init_server/src/main.rs

    [handle_message] and one turn of the loop of [main].  The handling of the
    requests of clients, in which the code uses names that are not declared, is a
    parameter; messages that are printed are left out.  [None] is a panic. *)

From S2P Require Import Prelude Librust AddrSpace.

Definition PAGE_FAULT_NUM : Z := 14.
Definition RECV_BUFFER_SIZE : nat := 1024.

Section server.
Context {W : Type}.
Variable set_page_mappings : W → Z → Z → option Z → list PageMapping → W * (Z + SyscallError).
Variable handle_request : W → AddrSpaces → MessageHeader → list Z → W * AddrSpaces * option (unit + Error).

(** The messages of the kernel. *)
Definition handle_kernel_message (w : W) (t : AddrSpaces) (header : MessageHeader) (recv_buffer : list Z) : W * option (unit + Error) :=
  if subject header =? EXCEPTION then
    match exception_try_from recv_buffer with
    | None => (w, None)
    | Some (inr _) => (w, Some (inr ParseError))
    | Some (inl payload) =>
        if fault_num payload =? PAGE_FAULT_NUM then handle_page_fault set_page_mappings w t payload
        else (w, Some (inr NotImplemented))
    end
  else if subject header =? EXIT then
    match exit_try_from recv_buffer with
    | None => (w, None)
    | Some (inr _) => (w, Some (inr ParseError))
    | Some (inl _) => (w, Some (inl tt))
    end
  else (w, Some (inr BadRequest)).

Definition handle_message (w : W) (t : AddrSpaces) (header : MessageHeader) (recv_buffer : list Z) : W * AddrSpaces * option (unit + Error) :=
  match target header with
  | None => (w, t, None)
  | Some message_sender =>
      if is_flag_set (header_flags header) HEADER_KERNEL then
        let (w, r) := handle_kernel_message w t header recv_buffer in (w, t, r)
      else handle_request w t header recv_buffer
  end.

(** The registers a system call returns with. *)
Record returned := { ret_eax : Z; ret_ebx : Z; ret_esi : Z; ret_edi : Z }.

(** One turn of the loop of [main], from the registers and the buffer with which
    [receive] returns: the header for the next turn, and the result. *)
Definition main_turn (w : W) (t : AddrSpaces) (regs : returned) (recv_buffer : list Z) : MessageHeader * (W * AddrSpaces * option (unit + Error)) :=
  let (header, r) := receive_result (ret_eax regs) (ret_ebx regs) (ret_esi regs) (ret_edi regs) in
  (header,
   match r with
   | inr Interrupted | inr Preempted => (w, t, Some (inr NotImplemented))
   | inr _ => (w, t, Some (inr Failed))
   | inl msg_len =>
       match subslice recv_buffer 0 (Z.to_nat msg_len) with
       | None => (w, t, None)
       | Some b => handle_message w t header b
       end
   end).
End server.
