(* ===== verification/InitServerSpec.v ===== *)
(** * From an exception to the initial server

    The message the kernel builds for an exception, byte by byte, and what the
    server makes of it: kernel/interrupt.c and kernel/message.c against
    lib/librust/src/message.rs and servers/init_server/src/main.rs. *)

From S2P Require Import Prelude Librust AddrSpace InitServer.
From S2P Require Import Bits Machine Paging PagingFacts PagingSpec Kernel KList Thread ThreadFacts Message ThreadSpec MessageFacts MessageSpec Interrupt Syscall SyscallSpec.

(** ** Blocks of bytes through page maps *)

(** The [n] low bytes of a number, as they are stored. *)
Fixpoint le_bytes (n : nat) (v : Z) : list Z :=
  match n with
  | O => []
  | S n => u8 v :: le_bytes n (v / 256)
  end.

Fixpoint vput (p : Z) (bs : list Z) : M machine unit :=
  match bs with
  | [] => ret tt
  | b :: bs => vstore8 p b ;; vput (u32 (p + 1)) bs
  end.

Lemma length_le_bytes n v : length (le_bytes n v) = n.
Proof. revert v. induction n; intros v; cbn; [done|]. by f_equal. Qed.

Lemma vput_app bs : ∀ bs' p c, 0 <= p < 2 ^ 32 →
  vput p (bs ++ bs') c = (vput p bs ;; vput (u32 (p + Z.of_nat (length bs))) bs') c.
Proof.
  induction bs as [|b bs IH]; intros bs' p c Hp; cbn [app vput length].
  - unfold bind. cbn. by rewrite Z.add_0_r, wrap_small.
  - unfold bind in *. destruct (vstore8 p b c) as [[] c'| | |]; try done. rewrite IH by (by apply wrap_range).
    by rewrite wrap_add_l, <- Z.add_assoc, Nat2Z.inj_succ, (Z.add_comm 1).
Qed.

Lemma ustore16_vput p v c : ustore16 p v c = vput p (le_bytes 2 v) c.
Proof.
  unfold ustore16. cbn [vput le_bytes]. unfold bind. destruct (vstore8 p (u8 v) c) as [[] c'| | |]; try done.
  by destruct (vstore8 _ _ c') as [[] c''| | |].
Qed.

Lemma u8_u16 v : u8 (u16 v) = u8 v ∧ u8 (u16 v / 256) = u8 (v / 256).
Proof. unfold wrap. split; zdiv. Qed.

Lemma le_bytes_2 v : le_bytes 2 (u16 v) = le_bytes 2 v.
Proof. cbn [le_bytes]. by destruct (u8_u16 v) as [-> ->]. Qed.

Lemma ustore32_vput p v c : 0 <= p < 2 ^ 32 → ustore32 p v c = vput p (le_bytes 4 v) c.
Proof.
  intros Hp. change (le_bytes 4 v) with (le_bytes 2 v ++ le_bytes 2 (v / 256 / 256)).
  rewrite vput_app by done. rewrite Z.div_div by lia. change (256 * 256) with 65536. unfold ustore32, bind. rewrite ustore16_vput, le_bytes_2.
  destruct (vput p (le_bytes 2 v) c) as [[] c'| | |]; try done. by rewrite ustore16_vput, le_bytes_2.
Qed.

(** Stored through the current page map: the bytes are at the physical addresses
    of the block, which the walks do not read. *)
Lemma vput_run W pas : ∀ bs c p, length bs = length pas → 0 <= p < 2 ^ 32 → vmap c p pas → walk_free c p (length pas) W → Forall W pas →
  vput p bs c = Ret tt (set_phys (store_at (phys c) pas bs) c).
Proof.
  induction pas as [|pa pas IH]; intros [|b bs] c p Hl Hp V F HW; try done; [by destruct c|]. cbn [vput store_at].
  apply Forall_cons in HW as [Wa HW]. unfold bind, vstore8. rewrite (vmap_head c p pa pas V Hp).
  set (c1 := set_phys (store8 (phys c) pa b) c).
  assert (A : agree W c c1) by (split; [done|]; intros a Ha; cbn; apply load8_store8_ne; congruence).
  rewrite (IH bs c1); [done|by injection Hl|by apply wrap_range| | |done].
  - eapply agree_vmap; [done|by apply walk_free_tail|by eapply vmap_tail].
  - eapply agree_walk_free; [done|by apply walk_free_tail].
Qed.

Lemma load8_store_at_other a pas : ∀ bs m, a ∉ pas → load8 (store_at m pas bs) a = load8 m a.
Proof.
  induction pas as [|pa pas IH]; intros [|b bs] m H; try done. cbn [store_at]. apply not_elem_of_cons in H as [H1 H2].
  rewrite IH by done. by apply load8_store8_ne.
Qed.

Lemma load8_store_at pas : ∀ bs m, length bs = length pas → NoDup pas → load8 (store_at m pas bs) <$> pas = u8 <$> bs.
Proof.
  induction pas as [|pa pas IH]; intros [|b bs] m Hl N; try done. apply NoDup_cons in N as [N1 N2].
  cbn [store_at]. rewrite !fmap_cons. f_equal; [|apply IH; [by injection Hl|done]].
  rewrite load8_store_at_other by done. rewrite load8_store8. by rewrite decide_True.
Qed.

(** The kernel's stores, as one block. *)
Lemma vm_then (m m' k' : M machine unit) (k : M kstate unit) s : (∀ c, m c = m' c) → (∀ s, k s = vm k' s) → (vm m ;; k) s = vm (m' ;; k') s.
Proof.
  intros Hm Hk. unfold vm at 1 2, zoom, bind. rewrite Hm. destruct (m' (mach s)) as [[] c|c| |f]; [by apply Hk|done..].
Qed.
Lemma vm_ext {A} (m m' : M machine A) s : (∀ c, m c = m' c) → vm m s = vm m' s.
Proof. intros H. unfold vm, zoom. by rewrite H. Qed.

Lemma vput_then (m k : M kstate unit) p q bs bs' s : 0 <= p < 2 ^ 32 → (∀ s, m s = vm (vput p bs) s) →
  q = u32 (p + Z.of_nat (length bs)) → (∀ s, k s = vm (vput q bs') s) → (m ;; k) s = vm (vput p (bs ++ bs')) s.
Proof.
  intros Hp Hm -> Hk. rewrite (vm_ext (vput p (bs ++ bs')) (vput p bs ;; vput (u32 (p + Z.of_nat (length bs))) bs')) by (intros c; by rewrite vput_app).
  rewrite <- (vm_then (vput p bs) _ _ k s (λ _, eq_refl) Hk). unfold bind. by rewrite Hm.
Qed.

Lemma put_words_vput ws : ∀ p s, 0 <= p < 2 ^ 32 → put_words p ws s = vm (vput p (ws ≫= le_bytes 4)) s.
Proof.
  induction ws as [|w ws IH]; intros p s Hp; cbn [put_words]; [unfold vm, zoom; cbn; by destruct s|].
  rewrite bind_cons. eapply vput_then; [done|intros s'; apply vm_ext; intros c; by apply ustore32_vput|by rewrite length_le_bytes|].
  intros s'. apply IH. by apply wrap_range.
Qed.

Lemma put_halves_vput hs : ∀ p s, 0 <= p < 2 ^ 32 → put_halves p hs s = vm (vput p (hs ≫= le_bytes 2)) s.
Proof.
  induction hs as [|h hs IH]; intros p s Hp; cbn [put_halves]; [unfold vm, zoom; cbn; by destruct s|].
  rewrite bind_cons. eapply vput_then; [done|intros s'; apply vm_ext; intros c; by apply ustore16_vput|by rewrite length_le_bytes|].
  intros s'. apply IH. by apply wrap_range.
Qed.

(** ** The message for an exception *)

(** The structure as bytes: 76 of them. *)
Definition exception_words (frame : CpuExInterruptFrame) (esp0 : Z) : list Z :=
  let st := state frame in
  [eax st; ebx st; ecx st; edx st; esi st; edi st; ebp st;
   if cs st =? KCODE_SEL then u32 (esp0 + 4 + EXECUTION_STATE_SIZE - 8) else user_esp st].
Definition exception_selectors (frame : CpuExInterruptFrame) (cr : control_regs) : list Z :=
  let st := state frame in [cs st; ds st; es st; fs st; gs st; if cs st =? KCODE_SEL then get_ss cr else user_ss st].
Definition exception_bytes (frame : CpuExInterruptFrame) (cr : control_regs) (esp0 cr3 user_eip t : Z) : list Z :=
  (exception_words frame esp0 ≫= le_bytes 4) ++ (exception_selectors frame cr ≫= le_bytes 2) ++
  ([eflags (state frame); get_cr0 cr; get_cr2 cr; cr3; get_cr4 cr; user_eip; error_code frame] ≫= le_bytes 4) ++
  ([u8 (ex_num frame) + 256 * u8 processor_get_current; u16 t] ≫= le_bytes 2).

Lemma put_exception_vput p frame cr t tc s : 0 <= p < 2 ^ 32 → tcb_table s !! t = Some tc →
  put_exception_message p frame cr t s =
    vm (vput p (exception_bytes frame cr (tss_esp0 s) (cr3 (mach s)) (eip (user_exec_state tc)) t)) s.
Proof.
  intros Hp Ht. unfold put_exception_message. rewrite (bind_run (tcb_at t) _ tc s s) by (unfold tcb_at, bind, gets; by rewrite Ht).
  unfold bind at 1, gets at 1. unfold bind at 1, get_cr3, gets at 1. unfold bind at 1, get_tid, ret at 1. cbv beta iota.
  unfold exception_bytes.
  eapply vput_then; [done|intros s'; by apply put_words_vput|reflexivity|]. intros s1.
  eapply vput_then; [by apply wrap_range|intros s'; apply put_halves_vput; by apply wrap_range|cbn [length]; by rewrite wrap_add_l, <- Z.add_assoc|]. intros s2.
  eapply vput_then; [by apply wrap_range|intros s'; apply put_words_vput; by apply wrap_range|by rewrite wrap_add_l, <- Z.add_assoc|]. intros s3.
  apply put_halves_vput. by apply wrap_range.
Qed.

(** ** Decoding *)

Lemma from_le_bytes_le n : ∀ v, from_le_bytes (le_bytes n v) = v mod 256 ^ Z.of_nat n.
Proof.
  induction n as [|n IH]; intros v; [cbn; by rewrite Z.mod_1_r|]. cbn [le_bytes from_le_bytes foldr]. fold (from_le_bytes (le_bytes n (v / 256))).
  rewrite IH, Nat2Z.inj_succ, Z.pow_succ_r by lia. unfold wrap. change (2 ^ 8) with 256. by rewrite Z.rem_mul_r by lia.
Qed.

Lemma subslice_skip pre l i j : subslice (pre ++ l) (length pre + i) (length pre + j) = subslice l i j.
Proof.
  unfold subslice. rewrite length_app. destruct (Nat.leb_spec j (length l)), (Nat.leb_spec (length pre + j) (length pre + length l)); try lia; [|done].
  rewrite drop_app_add. by replace (length pre + j - (length pre + i))%nat with (j - i)%nat by lia.
Qed.

Lemma subslice_front l rest n : length l = n → subslice (l ++ rest) 0 n = Some l.
Proof.
  intros <-. unfold subslice. rewrite length_app. destruct (Nat.leb_spec (length l) (length l + length rest)); [|lia].
  by rewrite drop_0, Nat.sub_0_r, take_app_length.
Qed.

Lemma subslice_items k ws rest i w : ws !! i = Some w → subslice ((ws ≫= le_bytes k) ++ rest) (k * i) (k * i + k) = Some (le_bytes k w).
Proof.
  revert i. induction ws as [|w' ws IH]; intros [|i] Hi; try done; rewrite bind_cons, <- app_assoc.
  - injection Hi as ->. rewrite Nat.mul_0_r. apply subslice_front. apply length_le_bytes.
  - replace (k * S i)%nat with (length (le_bytes k w') + k * i)%nat by (rewrite length_le_bytes; lia). rewrite <- Nat.add_assoc, subslice_skip. by apply IH.
Qed.

Lemma u32_at_item ws rest i w : ws !! i = Some w → u32_at ((ws ≫= le_bytes 4) ++ rest) (4 * i) = Some (u32 w).
Proof. intros H. unfold u32_at. rewrite (subslice_items 4 ws rest i w H). cbn [fmap option_fmap option_map]. by rewrite from_le_bytes_le. Qed.
Lemma u16_at_item hs rest i h : hs !! i = Some h → u16_at ((hs ≫= le_bytes 2) ++ rest) (2 * i) = Some (u16 h).
Proof. intros H. unfold u16_at. rewrite (subslice_items 2 hs rest i h H). cbn [fmap option_fmap option_map]. by rewrite from_le_bytes_le. Qed.
Lemma u32_at_skip pre l n i : length pre = n → u32_at (pre ++ l) (n + i) = u32_at l i.
Proof. intros <-. unfold u32_at. rewrite <- Nat.add_assoc. by rewrite subslice_skip. Qed.
Lemma u16_at_skip pre l n i : length pre = n → u16_at (pre ++ l) (n + i) = u16_at l i.
Proof. intros <-. unfold u16_at. rewrite <- Nat.add_assoc. by rewrite subslice_skip. Qed.

(** What the message says of the exception, each field at its width. *)
Definition exception_of (frame : CpuExInterruptFrame) (cr : control_regs) (esp0 cr3 user_eip t : Z) : ExceptionMessage :=
  let st := state frame in
  {| Librust.eax := u32 (eax st); Librust.ebx := u32 (ebx st); Librust.ecx := u32 (ecx st); Librust.edx := u32 (edx st);
     Librust.esi := u32 (esi st); Librust.edi := u32 (edi st); Librust.ebp := u32 (ebp st);
     Librust.esp := u32 (if cs st =? KCODE_SEL then esp0 + 4 + EXECUTION_STATE_SIZE - 8 else user_esp st);
     Librust.cs := u16 (cs st); Librust.ds := u16 (ds st); Librust.es := u16 (es st); Librust.fs := u16 (fs st); Librust.gs := u16 (gs st);
     Librust.ss := u16 (if cs st =? KCODE_SEL then get_ss cr else user_ss st);
     Librust.eflags := u32 (eflags st); Librust.cr0 := u32 (get_cr0 cr); Librust.cr2 := u32 (get_cr2 cr); Librust.cr3 := u32 cr3;
     Librust.cr4 := u32 (get_cr4 cr); Librust.eip := u32 user_eip; Librust.error_code := u32 (error_code frame);
     Librust.fault_num := u8 (ex_num frame); Librust.processor_id := 0; Librust.who := u16 t |}.

Lemma length_exception_bytes frame cr esp0 cr3 user_eip t : length (exception_bytes frame cr esp0 cr3 user_eip t) = 76%nat.
Proof. reflexivity. Qed.

Lemma exception_decodes frame cr esp0 cr3 user_eip t pad : (4 <= length pad)%nat →
  exception_try_from (exception_bytes frame cr esp0 cr3 user_eip t ++ pad) = Some (inl (exception_of frame cr esp0 cr3 user_eip t)).
Proof.
  intros Hp. unfold exception_try_from. rewrite length_app, length_exception_bytes.
  destruct (Z.ltb_spec (Z.of_nat (76 + length pad)) size_of_ExceptionMessage) as [L|_]; [change size_of_ExceptionMessage with 80 in L; lia|].
  set (L := exception_bytes frame cr esp0 cr3 user_eip t ++ pad).
  assert (HA : ∀ i w, exception_words frame esp0 !! i = Some w → u32_at L (4 * i) = Some (u32 w)).
  { intros i w H. unfold L, exception_bytes. rewrite <- !app_assoc. by apply u32_at_item. }
  assert (HB : ∀ i h, exception_selectors frame cr !! i = Some h → u16_at L (32 + 2 * i) = Some (u16 h)).
  { intros i h H. unfold L, exception_bytes. rewrite <- !app_assoc. rewrite u16_at_skip by done. by apply u16_at_item. }
  assert (HC : ∀ i w, [eflags (state frame); get_cr0 cr; get_cr2 cr; cr3; get_cr4 cr; user_eip; error_code frame] !! i = Some w → u32_at L (44 + 4 * i) = Some (u32 w)).
  { intros i w H. unfold L, exception_bytes. rewrite <- !app_assoc. rewrite (app_assoc (exception_words frame esp0 ≫= le_bytes 4)).
    rewrite u32_at_skip by done. by apply u32_at_item. }
  assert (HD : u16_at L 74 = Some (u16 (u16 t))).
  { unfold L, exception_bytes. rewrite <- !app_assoc, !(app_assoc _ _ (_ ++ pad)), (app_assoc (exception_words frame esp0 ≫= le_bytes 4)).
    rewrite (u16_at_skip _ _ 72 2) by done. by apply (u16_at_item _ _ 1). }
  assert (HF : L !! 72%nat = Some (u8 (u8 (ex_num frame) + 256 * u8 processor_get_current))) by reflexivity.
  assert (HP : L !! 73%nat = Some (u8 ((u8 (ex_num frame) + 256 * u8 processor_get_current) / 256))) by reflexivity.
  repeat match goal with |- context [u32_at L ?n] => first
    [ let E := constr:(HA (n / 4)%nat _ eq_refl) in rewrite (E : u32_at L n = _)
    | let E := constr:(HC ((n - 44) / 4)%nat _ eq_refl) in rewrite (E : u32_at L n = _) ]; cbn [mbind option_bind] end.
  repeat match goal with |- context [u16_at L ?n] => let E := constr:(HB ((n - 32) / 2)%nat _ eq_refl) in rewrite (E : u16_at L n = _); cbn [mbind option_bind] end.
  rewrite HF, HP, HD. cbn [mbind option_bind]. unfold exception_of. rewrite wrap_wrap.
  assert (E0 : u8 (u8 (ex_num frame) + 256 * u8 processor_get_current) = u8 (ex_num frame)) by (unfold processor_get_current, wrap; zdiv).
  assert (E1 : u8 ((u8 (ex_num frame) + 256 * u8 processor_get_current) / 256) = 0) by (unfold processor_get_current, wrap; zdiv).
  rewrite E0, E1. destruct (cs (state frame) =? KCODE_SEL); by rewrite ?wrap_wrap.
Qed.

Lemma u8_le_bytes n v : u8 <$> le_bytes n v = le_bytes n v.
Proof. revert v. induction n as [|n IH]; intros v; [done|]. cbn [le_bytes]. by rewrite fmap_cons, wrap_wrap, IH. Qed.
Lemma u8_items k ws : u8 <$> (ws ≫= le_bytes k) = ws ≫= le_bytes k.
Proof. induction ws as [|w ws IH]; [done|]. by rewrite bind_cons, fmap_app, u8_le_bytes, IH. Qed.
Lemma u8_exception_bytes frame cr esp0 cr3 user_eip t :
  u8 <$> exception_bytes frame cr esp0 cr3 user_eip t = exception_bytes frame cr esp0 cr3 user_eip t.
Proof. unfold exception_bytes. by rewrite !fmap_app, !u8_items. Qed.

(** The message has its place at [p]: 76 bytes of memory that page walks do not
    read. *)
Record message_room (c : machine) (p : Z) (pas : list Z) : Prop := {
  mr_pointer : 0 < p < 2 ^ 32;
  mr_map : vmap c p pas;
  mr_length : length pas = 76%nat;
  mr_distinct : NoDup pas;
  mr_walks : walk_free c p 76 (λ a, a ∈ pas);
}.

Lemma put_exception_run s t tc p pas frame cr : tcb_table s !! t = Some tc → message_room (mach s) p pas →
  put_exception_message p frame cr t s = Ret tt (s <| mach := set_phys (store_at (phys (mach s)) pas
    (exception_bytes frame cr (tss_esp0 s) (cr3 (mach s)) (eip (user_exec_state tc)) t)) (mach s) |>).
Proof.
  intros Ht [Hp V L N F]. rewrite (put_exception_vput p frame cr t tc s) by (done || lia). unfold vm, zoom.
  rewrite (vput_run (λ a, a ∈ pas) pas); [done|by rewrite length_exception_bytes|lia|done|by rewrite L|].
  apply Forall_forall. done.
Qed.

(** Thread 1 runs, thread 2 waits, and is the pager of thread 1. *)
Definition faulting : kstate := upd 1 (λ tc, tc <| ex_handler := 2 |> <| pager := 2 |>) two_waiting.
Definition demo_frame : CpuExInterruptFrame :=
  {| ex_num := 14; error_code := 4;
     state := {| eax := 1; ebx := 2; ecx := 3; edx := 4; esi := 5; edi := 6; ebp := 7; cs := UCODE_SEL; ds := UDATA_SEL; es := UDATA_SEL;
                 fs := UDATA_SEL; gs := UDATA_SEL; avail := 0; avail2 := 0; eip := 0x5000; eflags := 0x202; user_esp := 0x5f00; user_ss := UDATA_SEL |} |}.
Definition demo_regs : control_regs := {| get_ss := 0x10; get_cr0 := 0x80000001; get_cr2 := 0x12345; get_cr4 := 0 |}.

(** [message_room] can be checked. *)
Definition room_check (c : machine) (p base : Z) : bool :=
  forallb (λ i, bool_decide (translate c (u32 (p + Z.of_nat i)) = Some (base + Z.of_nat i)) &&
    forallb (λ w, (w + 4 <=? base) || (base + 76 <=? w)) (walk c (u32 (p + Z.of_nat i)))) (seq 0 76).

Lemma room_checked c p base : 0 < p < 2 ^ 32 → room_check c p base = true → message_room c p (consec base 76).
Proof.
  intros Hp H. unfold room_check in H. rewrite forallb_forall in H.
  assert (K : ∀ i, (i < 76)%nat → translate c (u32 (p + Z.of_nat i)) = Some (base + Z.of_nat i) ∧
    ∀ w, w ∈ walk c (u32 (p + Z.of_nat i)) → w + 4 <= base ∨ base + 76 <= w).
  { intros i Hi. specialize (H i ltac:(apply in_seq; lia)). apply andb_true_iff in H as [H1 H2]. apply bool_decide_eq_true in H1.
    split; [done|]. intros w Hw. rewrite forallb_forall in H2. specialize (H2 w (proj1 (list_elem_of_In _ _) Hw)). lia. }
  split; [done| |apply length_consec|apply NoDup_fmap_2; [intros i j; lia|apply NoDup_seq]|].
  - intros i pa Hi. apply consec_lookup in Hi as [-> Hi]. by apply K.
  - intros i w k Hi Hw Hk. rewrite elem_of_consec. destruct (K i Hi) as [_ Kw]. specialize (Kw w Hw). lia.
Qed.

Lemma faulting_room : message_room (mach faulting) 0x5000 (consec 0x4000 76).
Proof. apply room_checked; [lia|vm_compute; reflexivity]. Qed.

(** C11. The kernel and the bindings agree on the layout of the message for an
    exception: what [put_exception_message] stores, and nothing else changes,
    is read back by [ExceptionMessage::try_from] as the registers, the control
    registers, the fault and the thread, each at its width, if the bytes are
    followed by four more.  The 76 bytes alone are refused, because the size
    of the Rust type is 80. *)
Theorem exception_message_roundtrip s t tc p pas frame cr :
  tcb_table s !! t = Some tc → message_room (mach s) p pas →
  ∃ m, put_exception_message p frame cr t s = Ret tt (s <| mach := set_phys m (mach s) |>) ∧
    (∀ a, a ∉ pas → load8 m a = load8 (phys (mach s)) a) ∧
    (∀ pad, (4 <= length pad)%nat → exception_try_from ((load8 m <$> pas) ++ pad) =
       Some (inl (exception_of frame cr (tss_esp0 s) (cr3 (mach s)) (eip (user_exec_state tc)) t))) ∧
    exception_try_from (load8 m <$> pas) = Some (inr tt) ∧ exception_from (load8 m <$> pas) = None.
Proof.
  intros Ht R. eexists. split; [by apply put_exception_run|]. split; [intros a Ha; by apply load8_store_at_other|].
  rewrite load8_store_at by (rewrite ?length_exception_bytes; by destruct R). rewrite u8_exception_bytes.
  split; [intros pad; apply exception_decodes|]. done.
Qed.

Lemma exception_message_roundtrip_witness :
  ∃ m, put_exception_message 0x5000 demo_frame demo_regs 1 faulting = Ret tt (faulting <| mach := set_phys m (mach faulting) |>) ∧
    exception_try_from (load_bytes m 0x4000 76 ++ [0; 0; 0; 0]) =
      Some (inl {| Librust.eax := 1; Librust.ebx := 2; Librust.ecx := 3; Librust.edx := 4; Librust.esi := 5; Librust.edi := 6; Librust.ebp := 7;
        Librust.esp := 0x5f00; Librust.cs := UCODE_SEL; Librust.ds := UDATA_SEL; Librust.es := UDATA_SEL; Librust.fs := UDATA_SEL;
        Librust.gs := UDATA_SEL; Librust.ss := UDATA_SEL; Librust.eflags := 0x202; Librust.cr0 := 0x80000001; Librust.cr2 := 0x12345;
        Librust.cr3 := 0x1000; Librust.cr4 := 0; Librust.eip := 0x1000; Librust.error_code := 4; Librust.fault_num := 14;
        Librust.processor_id := 0; Librust.who := 1 |}).
Proof.
  assert (∃ tc, tcb_table faulting !! 1 = Some tc ∧ eip (user_exec_state tc) = 0x1000) as (tc & H & He) by (eexists; split; vm_compute; reflexivity).
  destruct (exception_message_roundtrip faulting 1 tc 0x5000 (consec 0x4000 76) demo_frame demo_regs H faulting_room) as (m & E & _ & D & _).
  exists m. split; [exact E|]. rewrite <- load8_consec. rewrite (D [0; 0; 0; 0]) by (cbn; lia). rewrite He. vm_compute. reflexivity.
Defined.

(** ** From the fault to the server *)

Definition returned_of (x : ExecutionState) : returned := {| ret_eax := eax x; ret_ebx := ebx x; ret_esi := esi x; ret_edi := edi x |}.

Lemma kernel_message_turn {W} spm hr (w : W) tbl code flags subject n x buf :
  (code = E_PREEMPT ∨ code = E_OK) → flags = MSG_KERNEL → 0 <= n <= 76 → (76 <= length buf)%nat →
  snd (main_turn spm hr w tbl (returned_of (recv_regs code KERNEL_TID flags subject n x)) buf) =
    (w, tbl, if code =? E_OK then None else Some (inr Failed)).
Proof.
  intros Hc -> Hn Hb. unfold main_turn, returned_of, recv_regs. cbn [ret_eax ret_ebx ret_esi ret_edi eax ebx esi edi update].
  destruct Hc as [-> | ->].
  - reflexivity.
  - change (receive_result (u32 E_OK) (Z.lor KERNEL_TID (u32 (MSG_KERNEL ≪ 16))) subject n)
      with ({| target := None; header_flags := 0x80; Librust.subject := subject |}, inl n : Z + SyscallError).
    cbv beta iota. unfold subslice. destruct (Nat.leb_spec (Z.to_nat n) (length buf)); [done|lia].
Qed.

(** An exception is not answered.  When a thread has a page fault and its
    pager is the initial server, waiting for a message, the kernel delivers the
    message for the exception and the server becomes ready; but the turn of its
    loop that follows ends without a call of the kernel: in an error, because the
    kernel's code for an interrupted wait is not one of a system call, or, if
    the server was waiting for the kernel, in a panic, because the kernel sends
    in the name of thread 0. *)
Theorem page_fault_unanswered s Q t tc r rtc p pas frame cr m :
  kinv s Q → running s 0 = Some (Some t) → 0 < t < NUM_TCBS → tcb_table s !! t = Some tc →
  ex_num frame = 14 → ex_handler tc ≠ NULL_TID → pager tc = r → 0 < r < NUM_TCBS → t ≠ r →
  tcb_table s !! r = Some rtc → thread_state rtc = WAIT_FOR_SEND → wait_for_kernel_msg rtc = false ∨ wait_tid rtc = NULL_TID →
  0 <= edi (user_exec_state rtc) → message_room (mach s) p pas →
  poke_virt (ebx (user_exec_state rtc)) (Z.min (edi (user_exec_state rtc)) EXCEPTION_MESSAGE_SIZE) p (root_pmap rtc)
    (set_phys (store_at (phys (mach s)) pas (exception_bytes frame cr (tss_esp0 s) (cr3 (mach s)) (eip (user_exec_state tc)) t)) (mach s)) = Ret E_OK m →
  ∃ s' rtc', handle_cpu_exception p cr frame s = Ret tt s' ∧ tcb_table s' !! r = Some rtc' ∧ thread_state rtc' = READY ∧
    ∀ W spm hr (w : W) tbl buf, length buf = RECV_BUFFER_SIZE →
      snd (main_turn spm hr w tbl (returned_of (user_exec_state rtc')) buf) =
        (w, tbl, if wait_for_kernel_msg rtc then None else Some (inr Failed)).
Proof.
  intros K Hrun Ht Htc Hex Hh Hpg Hr Hne Hrtc Hst Hw Hedi R Hpoke.
  set (c1 := set_phys (store_at (phys (mach s)) pas _) (mach s)) in Hpoke. set (s1 := s <| mach := c1 |>).
  assert (K1 : kinv s1 Q) by (apply (kinv_same s); [repeat split|done]).
  set (n := Z.min (edi (user_exec_state rtc)) EXCEPTION_MESSAGE_SIZE) in *.
  set (code := if negb (wait_for_kernel_msg rtc) then E_PREEMPT else E_OK).
  set (rtc' := received code KERNEL_TID MSG_KERNEL EXCEPTION_MSG n (core_tcb rtc)).
  destruct (wp_ret_inv (handle_cpu_exception p cr frame) (λ _ s', delivered s1 Q t r rtc' n m s') s) as ([] & s' & E & D).
  { unfold handle_cpu_exception. wp_step. eapply wp_thread_get_current; [done|]. cbv beta iota. wp_step. eapply wp_tcb_at; [done|]. cbv beta.
    wp_step. unfold is_halt. rewrite Hex. change (14 =? 13) with false. cbn [andb]. apply wp_ret. cbv iota.
    wp_step. eapply wp_of_ret; [by apply put_exception_run|]. fold c1 s1.
    destruct (Z.eqb_spec (ex_handler tc) NULL_TID); [done|]. change (14 =? 14) with true. cbv iota. rewrite Hpg. wp_step. wp_step.
    eapply send_message_run; [exact K1|done|done|done|right; destruct R; lia|exact Hrtc|by rewrite Hst|by rewrite Hst|].
    rewrite accepts_cond by (split; [done|by left]). change (IS_FLAG_SET MSG_KERNEL MSG_KERNEL) with true.
    eapply wp_send_deliver; [exact K1|lia|done|done|exact Hrtc|done|done|exact Hpoke|]. intros s' D. apply wp_ret. apply wp_ret. exact D. }
  pose proof (dl_recipient _ _ _ _ _ _ _ _ D) as Dr. apply fmap_Some in Dr as (rtc2 & Hrtc2 & Ec).
  exists s', rtc2. split; [done|]. split; [done|].
  assert (Es : thread_state rtc2 = thread_state (core_tcb rtc2)) by done.
  assert (Ex : user_exec_state rtc2 = user_exec_state (core_tcb rtc2)) by done.
  split; [by rewrite Es, <- Ec|]. intros W spm hr w tbl buf Hbuf. rewrite Ex, <- Ec.
  etrans; [apply (kernel_message_turn spm hr w tbl code MSG_KERNEL EXCEPTION_MSG n (user_exec_state (core_tcb rtc)) buf)|].
  - unfold code. destruct (wait_for_kernel_msg rtc); auto.
  - done.
  - unfold n, EXCEPTION_MESSAGE_SIZE. lia.
  - rewrite Hbuf. unfold RECV_BUFFER_SIZE. lia.
  - unfold code. by destruct (wait_for_kernel_msg rtc).
Qed.

Lemma page_fault_unanswered_witness :
  ∃ s' rtc', handle_cpu_exception 0x5000 demo_regs demo_frame faulting = Ret tt s' ∧ tcb_table s' !! 2 = Some rtc' ∧
    ∀ hr tbl, snd (main_turn (λ (w : list Z) _ v _ _, (v :: w, inl 1)) hr [] tbl (returned_of (user_exec_state rtc')) (replicate 1024 0)) =
      ([], tbl, Some (inr Failed)).
Proof.
  assert (∃ tc, tcb_table faulting !! 1 = Some tc ∧ (ex_handler tc, pager tc, eip (user_exec_state tc)) = (2, 2, 0x1000)) as (tc & H & [= He Hp Hi])
    by (eexists; split; vm_compute; reflexivity).
  assert (∃ rtc, tcb_table faulting !! 2 = Some rtc ∧ (thread_state rtc, wait_for_kernel_msg rtc) = (WAIT_FOR_SEND, false) ∧
    (ebx (user_exec_state rtc), edi (user_exec_state rtc), root_pmap rtc) = (0x5100, 3, 0x1000)) as (rtc & Hr & [= R1 R2] & [= R3 R4 R5])
    by (eexists; split; [vm_compute; reflexivity|split; vm_compute; reflexivity]).
  set (c1 := set_phys (store_at (phys (mach faulting)) (consec 0x4000 76) (exception_bytes demo_frame demo_regs (tss_esp0 faulting)
    (cr3 (mach faulting)) 0x1000 1)) (mach faulting)).
  destruct (page_fault_unanswered faulting Q6 1 tc 2 rtc 0x5000 (consec 0x4000 76) demo_frame demo_regs
    (set_phys (store_bytes (phys c1) 0x4100 [1; 0; 0]) c1)) as (s' & rtc' & E & Hrtc' & _ & K).
  - apply kinv_upd_quiet; [repeat split|apply kinv_two_waiting].
  - vm_compute. reflexivity.
  - unfold NUM_TCBS; lia.
  - exact H.
  - reflexivity.
  - rewrite He. unfold NULL_TID. lia.
  - exact Hp.
  - unfold NUM_TCBS; lia.
  - lia.
  - exact Hr.
  - exact R1.
  - left. exact R2.
  - rewrite R4. lia.
  - exact faulting_room.
  - rewrite R3, R4, R5, Hi. fold c1. vm_compute. reflexivity.
  - exists s', rtc'. split; [exact E|]. split; [exact Hrtc'|]. intros hr tbl. rewrite (K _ _ _ _ _ (replicate 1024 0)) by reflexivity. by rewrite R2.
Defined.

(** ** Other deviations *)

(** The message for an exit: the thread, two bytes that are not set, and the
    status. *)
Lemma put_exit_vput p status t s : 0 <= p < 2 ^ 32 →
  put_exit_message p status t s = vm (vput p (le_bytes 2 t) ;; vput (u32 (p + 4)) (le_bytes 4 status)) s.
Proof.
  intros Hp. unfold put_exit_message. apply vm_then; [intros c'; apply ustore16_vput|]. intros s'. apply vm_ext. intros c'.
  apply ustore32_vput. by apply wrap_range.
Qed.

(** The bindings read the status in the place of the thread, and the other way
    round. *)
Theorem exit_message_swapped status t x y : 0 <= x < 256 → 0 <= y < 256 →
  exit_try_from (le_bytes 2 t ++ [x; y] ++ le_bytes 4 status) =
    Some (inl {| exit_code := i32 (u16 t + 65536 * (x + 256 * y)); exit_who := u16 status |}).
Proof.
  intros Hx Hy. unfold exit_try_from. change (6 <=? length (le_bytes 2 t ++ [x; y] ++ le_bytes 4 status))%nat with true. cbv iota.
  assert (E : u16_at (le_bytes 2 t ++ [x; y] ++ le_bytes 4 status) 4 = Some (u16 status)).
  { change (le_bytes 2 t ++ [x; y] ++ le_bytes 4 status) with ((le_bytes 2 t ++ [x; y]) ++ ([status] ≫= le_bytes 2) ++ le_bytes 2 (status / 256 / 256)).
    rewrite (u16_at_skip _ _ 4 0) by done. by apply (u16_at_item _ _ 0). }
  rewrite E. unfold u32_at. change (subslice _ 0 (0 + 4)) with (Some [u8 t; u8 (t / 256); x; y]). cbn [fmap option_fmap option_map mbind option_bind].
  do 4 f_equal. cbn [from_le_bytes foldr]. unfold wrap. zdiv.
Qed.

(** The next turn of the loop waits for the thread the last message came from,
    with the flags of that message: the header is not reset.  The subject is
    passed where [handle_sys_receive] takes the address of the buffer from. *)
Theorem next_receive_args {W} spm hr (w : W) tbl regs buf ptr len : 0 <= ret_ebx regs < 2 ^ 32 →
  receive_args (fst (main_turn spm hr w tbl regs buf)) ptr len = (ret_ebx regs, ret_esi regs, ptr, len).
Proof.
  intros H. unfold main_turn, receive_result, receive_args. cbn [fst target header_flags Librust.subject]. do 3 f_equal.
  assert (E : default CTID_NULL (Tid_new (u16 (ret_ebx regs))) = u16 (ret_ebx regs))
    by (unfold Tid_new, CTID_NULL; by destruct (Z.eqb_spec (u16 (ret_ebx regs)) 0)).
  rewrite E. set (x := ret_ebx regs) in *. rewrite Z.shiftr_div_pow2, Z.shiftl_mul_pow2 by lia.
  rewrite (wrap_small 16 (x / 2 ^ 16)) by zdiv. rewrite (wrap_small 32) by zdiv.
  rewrite Z.lor_comm, lor_add_high by (lia || (apply wrap_range; lia)). unfold wrap. zdiv.
Qed.

(** A message long enough, sent in the name of a thread and with the flag the
    bindings test, is handled: the fault is resolved as [handle_page_fault] does
    it for the fields the kernel stored. *)
Theorem padded_exception_handled {W} spm hr (w : W) tbl sender frame cr esp0 cr3 user_eip t pad :
  (4 <= length pad)%nat → ex_num frame = 14 →
  handle_message spm hr w tbl {| target := Some sender; header_flags := HEADER_KERNEL; Librust.subject := EXCEPTION |}
      (exception_bytes frame cr esp0 cr3 user_eip t ++ pad) =
    let (w', r) := handle_page_fault spm w tbl (exception_of frame cr esp0 cr3 user_eip t) in (w', tbl, r).
Proof.
  intros Hp Hx. unfold handle_message. cbn [target header_flags]. change (is_flag_set HEADER_KERNEL HEADER_KERNEL) with true. cbv iota.
  unfold handle_kernel_message. cbn [Librust.subject]. rewrite Z.eqb_refl, exception_decodes by done.
  unfold exception_of at 1. cbn [fault_num]. by rewrite Hx.
Qed.
