(* ===== verification/Fat.v ===== *)
(** * FAT file system: apps/init_server_old/fs/fatfs.h, fat_alloc.c, fat_lib.c

    The file system reads and writes a block device through a driver and works
    on buffers it allocates.  The driver, the allocator, the table of devices
    and the strings of a path are outside of these files; they are the interface
    [World], a state [W] with the calls the code makes.  A buffer is the list of
    its bytes and an access outside of it is a fault, as are a division by zero
    and the use of a local variable no branch has assigned.  Pointers the code
    tests against NULL and its callers never pass as NULL are values. *)

From S2P Require Import Prelude Numbers.

Abbreviation len l := (Z.of_nat (length l)).

(** ** Constants and data: fatfs.h *)

Definition FAT_RDONLY : Z := 0x01.
Definition FAT_HIDDEN : Z := 0x02.
Definition FAT_SUBDIR : Z := 0x10.
Definition FAT_SECTOR_SIZE : Z := 512.

(** [NO_FAT] is the value -1 [determineFAT_Type] returns for neither. *)
Inductive FAT_Type := FAT12 | FAT16 | FAT32 | NO_FAT.

Inductive FAT_ClusterType :=
| INVALID_CLUSTER | FREE_CLUSTER | USED_CLUSTER | RESD_CLUSTER | BAD_CLUSTER | END_CLUSTER.

#[export] Instance FAT_Type_eq : EqDecision FAT_Type.
Proof. solve_decision. Defined.
#[export] Instance FAT_ClusterType_eq : EqDecision FAT_ClusterType.
Proof. solve_decision. Defined.

(** Little-endian fields of a packed structure, given as its bytes. *)
Definition byte_at (l : list Z) (i : Z) : Z := default 0 (l !! Z.to_nat i).
Definition word_at (l : list Z) (i : Z) : Z := byte_at l i + 256 * byte_at l (i + 1).
Definition dword_at (l : list Z) (i : Z) : Z := word_at l i + 65536 * word_at l (i + 2).
Definition slice (l : list Z) (i n : Z) : list Z := take (Z.to_nat n) (drop (Z.to_nat i) l).
Definition splice (l : list Z) (i : Z) (new : list Z) : list Z :=
  take (Z.to_nat i) l ++ new ++ drop (Z.to_nat i + length new) l.
Definition word_bytes (x : Z) : list Z := [u8 x; u8 (x / 256)].
Definition dword_bytes (x : Z) : list Z := word_bytes x ++ word_bytes (x / 65536).

(** The boot parameter block is a union of three packed structures; the fields
    of [FAT12_BPB] and [FAT16_BPB] the code uses lie at the same offsets. *)
Definition bytes_per_sec (bpb : list Z) : Z := word_at bpb 11.
Definition secs_per_clus (bpb : list Z) : Z := byte_at bpb 13.
Definition resd_secs (bpb : list Z) : Z := word_at bpb 14.
Definition fat_copies (bpb : list Z) : Z := byte_at bpb 16.
Definition root_ents (bpb : list Z) : Z := word_at bpb 17.
Definition total_secs (bpb : list Z) : Z := word_at bpb 19.
Definition secs_per_fat (bpb : list Z) : Z := word_at bpb 22.
Definition secs_in_fs32 (bpb : list Z) : Z := dword_at bpb 32.
Definition secs_per_fat32 (bpb : list Z) : Z := dword_at bpb 36.
Definition fs_type (bpb : list Z) : list Z := slice bpb 54 8.

(** struct FAT_DirEntry, 32 bytes. *)
Definition DIRENT_SIZE : Z := 32.
Definition filename (e : list Z) : list Z := slice e 0 11.
Definition attrib (e : list Z) : Z := byte_at e 11.
Definition start_clus (e : list Z) : Z := word_at e 26.
Definition file_size (e : list Z) : Z := dword_at e 28.

(** struct FAT_Dev: [owner] and [blockLen] are the fields of its [device] the
    code uses, the last six those of its [cache]. *)
Record FAT_Dev := {
  deviceNum : Z;
  owner : Z;
  blockLen : Z;
  bpb : list Z;
  rootDirSecs : Z;
  firstDataSec : Z;
  numDataSecs : Z;
  clusterCount : Z;
  fatType : FAT_Type;
  fatSize : Z;
}.

(** ** The outside

    [deviceRead owner minor block count bytes buffer] gives the result of the
    call and the contents of the buffer after it; [malloc n] gives the
    uninitialised bytes of the block, [None] for NULL; [garbage n] the contents
    of [n] bytes of uninitialised local variables. *)
Class World (W : Type) := {
  malloc : Z → M W (option (list Z));
  garbage : Z → M W (list Z);
  deviceRead : Z → Z → Z → Z → Z → list Z → M W (Z * list Z);
  deviceWrite : Z → Z → Z → Z → Z → list Z → M W Z;
  lookupDeviceMajor : Z → M W (option (Z * Z));
  sbStringCopy : list Z → M W (option (list Z));
  MAJOR : Z → Z;
  MINOR : Z → Z;
}.

(** ** Geometry *)

Definition determineFAT_Type (bpb : list Z) : FAT_Type :=
  let count := total_secs bpb in
  if count <=? 4086 then FAT12 else if count <=? 65526 then FAT16 else NO_FAT.

Definition getClusterType (cluster : Z) (type : FAT_Type) : FAT_ClusterType :=
  match type with
  | FAT12 =>
    if cluster =? 0 then FREE_CLUSTER
    else if (0xFF8 <=? cluster) && (cluster <=? 0xFFF) then END_CLUSTER
    else if (2 <=? cluster) && (cluster <=? 0xFEF) then USED_CLUSTER
    else if cluster =? 0xFF7 then BAD_CLUSTER
    else if (cluster =? 1) || (0xFF0 <=? cluster) && (cluster <=? 0xFF6) then RESD_CLUSTER
    else INVALID_CLUSTER
  | FAT16 =>
    if cluster =? 0 then FREE_CLUSTER
    else if (0xFFF8 <=? cluster) && (cluster <=? 0xFFFF) then END_CLUSTER
    else if (2 <=? cluster) && (cluster <=? 0xFFEF) then USED_CLUSTER
    else if cluster =? 0xFFF7 then BAD_CLUSTER
    else if (cluster =? 1) || (0xFFF0 <=? cluster) && (cluster <=? 0xFFF6) then RESD_CLUSTER
    else INVALID_CLUSTER
  | _ => INVALID_CLUSTER
  end.

Section fat.
Context {W : Type} `{World W}.

(** C's division of [int]s truncates. *)
Definition cdiv (a b : Z) : M W Z := if b =? 0 then fail DivideByZero else ret (Z.quot a b).

Definition calcRootDirSecs (bpb : list Z) : M W Z :=
  match determineFAT_Type bpb with
  | FAT12 | FAT16 => cdiv (root_ents bpb * 32) (bytes_per_sec bpb)
  | _ => ret (-1)
  end.

(** [secs_per_fat], or the field of a FAT32 volume where it is zero, as an int. *)
Definition fat_secs (bpb : list Z) : Z :=
  if secs_per_fat bpb =? 0 then i32 (secs_per_fat32 bpb) else secs_per_fat bpb.

(** [firstDataSec]. *)
Definition firstDataSec_of (bpb : list Z) : M W Z :=
  match determineFAT_Type bpb with
  | FAT12 | FAT16 =>
    let* root := calcRootDirSecs bpb in
    ret (i32 (resd_secs bpb + fat_copies bpb * fat_secs bpb + root))
  | _ => ret (-1)
  end.

Definition calcFirstSecClus (clusnum : Z) (bpb : list Z) : M W Z :=
  match determineFAT_Type bpb with
  | FAT12 | FAT16 =>
    let size := secs_per_clus bpb in
    let* first := firstDataSec_of bpb in
    let* q := cdiv first size in
    ret (i32 ((clusnum - 2) * size + q))
  | _ => ret (-1)
  end.

Definition calcDataSecs (bpb : list Z) : M W Z :=
  match determineFAT_Type bpb with
  | FAT12 | FAT16 =>
    let total := if total_secs bpb =? 0 then i32 (secs_in_fs32 bpb) else total_secs bpb in
    let* root := calcRootDirSecs bpb in
    ret (i32 (total - resd_secs bpb + fat_copies bpb * fat_secs bpb + root))
  | _ => ret (-1)
  end.

Definition calcClusCount (bpb : list Z) : M W Z :=
  match determineFAT_Type bpb with
  | FAT12 | FAT16 =>
    let* secs := calcDataSecs bpb in
    cdiv secs (secs_per_clus bpb)
  | _ => ret (-1)
  end.

Definition calcClusterSize (bpb : list Z) : Z :=
  match determineFAT_Type bpb with
  | FAT12 | FAT16 => secs_per_clus bpb * bytes_per_sec bpb
  | _ => -1
  end.

(** ** Sectors and clusters *)

(** A read of [n] bytes into [buffer]: the driver must not be given less room. *)
Definition read_into (d : FAT_Dev) (blockStart count n : Z) (buffer : list Z) : M W (Z * list Z) :=
  if len buffer <? n then fail OutOfBounds
  else
    let* '(r, buffer) := deviceRead (owner d) (MINOR (deviceNum d)) blockStart count n buffer in
    ret (if r =? -1 then -1 else 0, buffer).

Definition write_from (d : FAT_Dev) (blockStart count n : Z) (buffer : list Z) : M W Z :=
  if len buffer <? n then fail OutOfBounds
  else
    let* r := deviceWrite (owner d) (MINOR (deviceNum d)) blockStart count n buffer in
    ret (if r =? -1 then -1 else 0).

(** [secsize]: no branch assigns it for another type. *)
Definition secsize_of (d : FAT_Dev) : M W Z :=
  match fatType d with
  | FAT12 | FAT16 => ret (bytes_per_sec (bpb d))
  | _ => fail Uninitialised
  end.

Definition readSector (d : FAT_Dev) (sector : Z) (buffer : list Z) : M W (Z * list Z) :=
  let* secsize := secsize_of d in
  let* blocksPerSector := cdiv secsize (blockLen d) in
  read_into d (u32 (sector * blocksPerSector)) blocksPerSector secsize buffer.

Definition writeSector (d : FAT_Dev) (sector : Z) (buffer : list Z) : M W Z :=
  let* secsize := secsize_of d in
  let* blocksPerSector := cdiv secsize (blockLen d) in
  write_from d (u32 (sector * blocksPerSector)) blocksPerSector secsize buffer.

Definition readable_cluster (cluster : Z) (type : FAT_Type) : bool :=
  match getClusterType cluster type with USED_CLUSTER | FREE_CLUSTER => true | _ => false end.

Definition readCluster (d : FAT_Dev) (cluster : Z) (buffer : list Z) : M W (Z * list Z) :=
  if negb (readable_cluster cluster (fatType d)) then ret (-1, buffer)
  else
    let secs := secs_per_clus (bpb d) in
    let secsize := bytes_per_sec (bpb d) in
    let* blocksPerSector := cdiv secsize (blockLen d) in
    let blockStart := u32 ((firstDataSec d + u32 (cluster - 2) * secs) * blocksPerSector) in
    read_into d blockStart (u32 (blocksPerSector * secs)) (u32 (secsize * secs)) buffer.

Definition writeCluster (d : FAT_Dev) (cluster : Z) (buffer : list Z) : M W Z :=
  if negb (readable_cluster cluster (fatType d)) then ret (-1)
  else
    let secs := secs_per_clus (bpb d) in
    let secsize := bytes_per_sec (bpb d) in
    let* blocksPerSector := cdiv secsize (blockLen d) in
    let blockStart := u32 ((firstDataSec d + u32 (cluster - 2) * secs) * blocksPerSector) in
    write_from d blockStart (u32 (blocksPerSector * secs)) (u32 (secsize * secs)) buffer.

(** ** The allocation table: fat_alloc.c *)

(** [buffer[i]] and [buffer[i] = x]. *)
Definition get_byte (buffer : list Z) (i : Z) : M W Z :=
  if i <? 0 then fail OutOfBounds else deref OutOfBounds (buffer !! Z.to_nat i).

Definition set_byte (buffer : list Z) (i x : Z) : M W (list Z) :=
  let* _ := get_byte buffer i in ret (<[Z.to_nat i := u8 x]> buffer).

(** [memcpy(dest, &buffer[i], n)] into a fresh array: the bytes copied. *)
Definition copy_out (buffer : list Z) (i n : Z) : M W (list Z) :=
  if (i <? 0) || (len buffer <? i + n) then fail OutOfBounds else ret (slice buffer i n).

(** [memcpy(&buffer[i], src, n)]. *)
Definition copy_in (buffer : list Z) (i : Z) (src : list Z) : M W (list Z) :=
  if (i <? 0) || (len buffer <? i + len src) then fail OutOfBounds else ret (splice buffer i src).

(** [sectorNum] and [sectorOffset]; an entry takes two bytes, or twelve bits of
    two bytes.  Other types go to the error exit. *)
Definition entry_pos (type : FAT_Type) (cluster : Z) : option (Z * Z) :=
  match type with
  | FAT12 => let p := u32 (3 * cluster) / 2 in Some (p / FAT_SECTOR_SIZE, p mod FAT_SECTOR_SIZE)
  | FAT16 => let p := u32 (cluster * 2) in Some (p / FAT_SECTOR_SIZE, p mod FAT_SECTOR_SIZE)
  | _ => None
  end.

(** The value of the two bytes of an entry. *)
Definition entry_value (type : FAT_Type) (cluster e0 e1 : Z) : Z :=
  match type with
  | FAT12 =>
    if cluster mod 2 =? 1 then Z.lor (Z.land (Z.shiftr e0 4) 0x0F) (Z.shiftl e1 4)
    else Z.lor e0 (Z.shiftl (Z.land e1 0x0F) 8)
  | _ => e0 + 256 * e1
  end.

Definition readFAT (d : FAT_Dev) (cluster : Z) : M W Z :=
  let* m := malloc FAT_SECTOR_SIZE in
  match m with
  | None => ret 1
  | Some buffer =>
    if (clusterCount d <=? cluster) || (cluster <? 2) then ret 1 else
    match entry_pos (fatType d) cluster with
    | None => ret 1
    | Some (sectorNum, sectorOffset) =>
      let sector := u32 (resd_secs (bpb d) + sectorNum) in
      let* '(r, buffer) := readSector d sector buffer in
      if r <? 0 then ret 1
      else if FAT_SECTOR_SIZE <=? sectorOffset + 2 then
        let off := FAT_SECTOR_SIZE - sectorOffset in
        let* e := copy_out buffer sectorOffset off in
        let* '(r, buffer) := readSector d (u32 (sector + 1)) buffer in
        if r <? 0 then ret 1
        else
          let* e' := copy_out buffer 0 (2 - off) in
          ret (entry_value (fatType d) cluster (byte_at (e ++ e') 0) (byte_at (e ++ e') 1))
      else
        let* e := copy_out buffer sectorOffset 2 in
        ret (entry_value (fatType d) cluster (byte_at e 0) (byte_at e 1))
    end
  end.

(** The sector with the first part of an entry that reaches the end of its
    sector, and the next sector with the rest. *)
Definition first_part (type : FAT_Type) (entry cluster sectorOffset : Z) (buffer : list Z) : M W (list Z) :=
  match type with
  | FAT12 =>
    if cluster mod 2 =? 0 then set_byte buffer (FAT_SECTOR_SIZE - 1) (Z.land entry 0xFF)
    else
      let* b := get_byte buffer (FAT_SECTOR_SIZE - 1) in
      set_byte buffer (FAT_SECTOR_SIZE - 1) (Z.lor (Z.land b 0x0F) (Z.shiftl (Z.land entry 0x0F) 4))
  | _ =>
    let off := FAT_SECTOR_SIZE - sectorOffset in
    set_byte buffer (FAT_SECTOR_SIZE - off) (Z.land entry (Z.shiftl 1 (8 * off) - 1))
  end.

Definition second_part (type : FAT_Type) (entry cluster sectorOffset : Z) (buffer : list Z) : M W (list Z) :=
  match type with
  | FAT12 =>
    if cluster mod 2 =? 0 then
      let* b := get_byte buffer 0 in
      set_byte buffer 0 (Z.lor (Z.shiftr entry 8) (Z.land b 0xF0))
    else set_byte buffer 0 (Z.shiftr entry 4)
  | _ =>
    let off := FAT_SECTOR_SIZE - sectorOffset in
    set_byte buffer 0 (Z.shiftr entry (8 * (2 - off)))
  end.

(** An entry within its sector; [bytes0] is the local [bytes[0]], which is not
    assigned. *)
Definition whole_entry (type : FAT_Type) (entry cluster sectorOffset bytes0 : Z) (buffer : list Z) : M W (list Z) :=
  match type with
  | FAT12 =>
    if cluster mod 2 =? 0 then
      let* buffer := set_byte buffer sectorOffset (Z.land entry 0xFF) in
      let* b := get_byte buffer (sectorOffset + 1) in
      set_byte buffer (sectorOffset + 1) (Z.lor (Z.land (Z.shiftr entry 8) 0x0F) (Z.land b 0xF0))
    else
      let* buffer := set_byte buffer sectorOffset (Z.lor (Z.land bytes0 0x0F) (Z.shiftl (Z.land entry 0xF) 4)) in
      set_byte buffer (sectorOffset + 1) (Z.shiftr (Z.land entry 0xFF0) 4)
  | _ => copy_in buffer sectorOffset (word_bytes entry)
  end.

Definition writeFAT (d : FAT_Dev) (entry cluster : Z) : M W Z :=
  let* m := malloc FAT_SECTOR_SIZE in
  let* bytes := garbage 4 in
  match m with
  | None => ret (-1)
  | Some buffer =>
    if (clusterCount d <=? cluster) || (cluster <? 2) then ret (-1) else
    match entry_pos (fatType d) cluster with
    | None => ret (-1)
    | Some (sectorNum, sectorOffset) =>
      let sector := u32 (resd_secs (bpb d) + sectorNum) in
      let* '(r, buffer) := readSector d sector buffer in
      if r <? 0 then ret (-1)
      else if FAT_SECTOR_SIZE <=? sectorOffset + 2 then
        let* buffer := first_part (fatType d) entry cluster sectorOffset buffer in
        let* r := writeSector d sector buffer in
        if r <? 0 then ret (-1)
        else
          let* '(r, buffer) := readSector d (u32 (sector + 1)) buffer in
          if r <? 0 then ret (-1)
          else
            let* buffer := second_part (fatType d) entry cluster sectorOffset buffer in
            writeSector d (u32 (sector + 1)) buffer
      else
        let* buffer := whole_entry (fatType d) entry cluster sectorOffset (byte_at bytes 0) buffer in
        writeSector d sector buffer
    end
  end.

(** The first loop of [getFreeCluster]: [n] sectors from the [i]-th on. *)
Fixpoint read_table (d : FAT_Dev) (n : nat) (i : Z) (buffer : list Z) : M W (option (list Z)) :=
  match n with
  | O => ret (Some buffer)
  | S n =>
    let at_i := Z.to_nat (FAT_SECTOR_SIZE * i) in
    let* '(r, tail) := readSector d (u32 (resd_secs (bpb d) + i)) (drop at_i buffer) in
    if r <? 0 then ret None else read_table d n (i + 1) (take at_i buffer ++ tail)
  end.

(** The second loop: [n] clusters from [i] on. *)
Fixpoint find_free (d : FAT_Dev) (n : nat) (i : Z) (buffer : list Z) : M W Z :=
  match n with
  | O => ret 1
  | S n =>
    let* entry :=
      (match fatType d with
       | FAT12 =>
         let p := u32 (3 * i) / 2 in
         let* e0 := get_byte buffer p in
         let* e1 := get_byte buffer (1 + p) in
         ret (Some (if i mod 2 =? 1 then Z.lor (Z.shiftr (Z.land e0 0xF0) 4) (Z.shiftl e1 4)
                    else Z.lor e0 (Z.shiftl (Z.land e1 0x0F) 8)))
       | FAT16 =>
         let* e0 := get_byte buffer (2 * i) in
         let* e1 := get_byte buffer (2 * i + 1) in
         ret (Some (e0 + 256 * e1))
       | _ => ret None
       end) in
    match entry with
    | None => ret 1
    | Some e => if e =? 0 then ret i else find_free d n (i + 1) buffer
    end
  end.

Definition getFreeCluster (d : FAT_Dev) : M W Z :=
  let* m := malloc (u32 (fatSize d * FAT_SECTOR_SIZE)) in
  match m with
  | None => ret 1
  | Some buffer =>
    let* t := read_table d (Z.to_nat (fatSize d)) 0 buffer in
    match t with
    | None => ret 1
    | Some table => find_free d (Z.to_nat (clusterCount d - 2)) 2 table
    end
  end.
End fat.
