(* ===== verification/FatLib.v ===== *)
(** * FAT file system, names, directories and files: apps/init_server_old/fs/fat_lib.c

    On top of the sectors, clusters and the allocation table of [Fat]: mounting
    a device, 8.3 names, the search for the entry a path names, reading a file,
    listing a directory, the attributes of a file and the creation of an entry.
    A path is the list of its names (sbFilePathDepth, sbFilePathAtLevel of
    apps/init_server_old/fs/vfs.c), a name the list of its characters. *)

From S2P Require Import Prelude Numbers Fat.

(** [strncmp(a, b, n) == 0] for arrays of at least [n] characters. *)
Fixpoint strneq (n : nat) (a b : list Z) : bool :=
  match n, a, b with
  | S n, x :: a, y :: b => (x =? y) && ((x =? 0) || strneq n a b)
  | _, _, _ => true
  end.

(** The bytes [strncpy(dest, src, n)] stores. *)
Fixpoint strncpy_bytes (n : nat) (src : list Z) : list Z :=
  match n, src with
  | O, _ => []
  | S n, x :: src => if x =? 0 then replicate (S n) 0 else x :: strncpy_bytes n src
  | S n, [] => replicate (S n) 0
  end.

(** ** Names *)

(** The characters of the literal of [checkFAT_Char], from the double quote to
    the vertical bar. *)
Definition badChars : list Z :=
  [34; 42; 43; 44; 46; 47; 58; 59; 60; 61; 62; 63; 91; 92; 93; 124].

(** [while( *badChars && *badChars++ != c );] *)
Fixpoint skip_to (c : Z) (s : list Z) : list Z :=
  match s with
  | [] => []
  | b :: s => if b =? c then s else skip_to c s
  end.

Definition checkFAT_Char (c : Z) : Z :=
  if (c =? 124) || negb (bool_decide (skip_to c badChars = [])) then -1 else 0.

(** The loop that looks for the dot: its index, or the length of the name;
    [None] where it meets a character that is not allowed. *)
Fixpoint dot_index (name : list Z) (i : Z) : option Z :=
  match name with
  | [] => Some i
  | c :: name =>
    if c =? 46 then Some i else if checkFAT_Char c <? 0 then None else dot_index name (i + 1)
  end.

Section lib.
Context {W : Type} `{World W}.

(** The eleven bytes of [filename] before they are put in upper case. *)
Definition raw_8_3 (name : list Z) : M W (option (list Z)) :=
  let spaces := replicate 11 32 in
  let nameLen := len name in
  let c0 := byte_at name 0 in
  if (nameLen =? 1) && (c0 =? 46) then ret (Some (<[0%nat := 46]> spaces))
  else if (nameLen =? 2) && (c0 =? 46) then
    if byte_at name 1 =? 46 then ret (Some (<[0%nat := 46]> (<[1%nat := 46]> spaces))) else ret None
  else
    match dot_index name 0 with
    | None => ret None
    | Some dotIndex =>
      if 8 <? dotIndex then ret None
      else
        let* filename := copy_in spaces 0 (slice name 0 dotIndex) in
        if dotIndex =? nameLen then ret (Some filename)
        else
          let* filename := copy_in filename 8 (slice name (dotIndex + 1) (nameLen - dotIndex - 1)) in
          ret (Some filename)
    end.

Definition generate8_3Name (name : list Z) : M W (option (list Z)) :=
  if (len name =? 0) || (byte_at name 0 =? 0) then ret None
  else
    let* f := raw_8_3 name in
    ret (map (λ c, if islower c then toupper c else c) <$> f).

(** ** Mounting *)

Definition getDeviceData (devNum : Z) : M W (option FAT_Dev) :=
  let* device := lookupDeviceMajor (MAJOR devNum) in
  match device with
  | None => ret None
  | Some (downer, dblockLen) =>
    let* m := malloc dblockLen in
    match m with
    | None => ret None
    | Some buffer =>
      let* '(r, buffer) := deviceRead downer (MINOR devNum) 0 1 dblockLen buffer in
      if r <? 0 then ret None
      else
        let* b := copy_out buffer 0 FAT_SECTOR_SIZE in
        if negb (strneq 3 [70; 65; 84] (fs_type b)) then ret None
        else
          match determineFAT_Type b with
          | FAT12 | FAT16 =>
            let* count := calcClusCount b in
            let* first := firstDataSec_of b in
            let* secs := calcDataSecs b in
            let* root := calcRootDirSecs b in
            ret (Some {| deviceNum := devNum; owner := downer; blockLen := dblockLen; bpb := b;
                         rootDirSecs := u32 root; firstDataSec := u32 first; numDataSecs := u32 secs;
                         clusterCount := u32 count; fatType := determineFAT_Type b;
                         fatSize := secs_per_fat b |})
          | _ => ret None
          end
    end
  end.

(** ** The search for the entry a path names *)

(** sbFilePathDepth and sbFilePathAtLevel of vfs.c. *)
Definition sbFilePathDepth (path : list (list Z)) : Z := len path.

Definition sbFilePathAtLevel (path : list (list Z)) (level : Z) : M W (option (list Z)) :=
  if (level =? 0) && (len path =? 0) then ret (Some [])
  else
    match path !! Z.to_nat level with
    | None => ret None
    | Some name => sbStringCopy name
    end.

(** [END_CLUSTER] marks stored by the code. *)
Definition end_mark (type : FAT_Type) : Z := match type with FAT12 => 0xFF8 | _ => 0xFFF8 end.

(** The locals of [getFAT_DirEntry] the loop works on. *)
Record search := {
  inRootDir : bool;
  rootEnts : Z;
  startSector : Z;
  cluster : Z;
  dirSize : Z;
  pathLevel : Z;
  fileName : list Z;
}.

(** How the loop over the entries of a buffer ends: at index [i] with the
    entry, at the end marker, or without either. *)
Inductive scan_result :=
| Matched (i rootEnts : Z) (entry : list Z)
| EndMarker (i : Z)
| NotHere (i rootEnts : Z).

Definition skipped (e : list Z) : bool :=
  (byte_at e 0 =? 0xE5) || (start_clus e =? 0) && negb (file_size e =? 0).

(** 0x05 stands for 0xe5 as the first character. *)
Definition unescape (e : list Z) : list Z := if byte_at e 0 =? 5 then <[0%nat := 0xe5]> e else e.

Fixpoint scan_entries (n : nat) (i rootEnts : Z) (inRoot : bool) (fileName buffer : list Z) : M W scan_result :=
  match n with
  | O => ret (NotHere i rootEnts)
  | S n =>
    if inRoot && (rootEnts =? 0) then ret (NotHere i rootEnts)
    else
      let rootEnts := if inRoot then rootEnts - 1 else rootEnts in
      let* e := copy_out buffer (DIRENT_SIZE * i) DIRENT_SIZE in
      if byte_at e 0 =? 0 then ret (EndMarker i)
      else if skipped e then scan_entries n (i + 1) rootEnts inRoot fileName buffer
      else if strneq 11 (filename (unescape e)) fileName then ret (Matched i rootEnts (unescape e))
      else scan_entries n (i + 1) rootEnts inRoot fileName buffer
  end.

(** The next directory of the path, after [entry] has matched: the search in
    it, or [None] where [entry] is the result.  [dirAttrib] is the attribute
    byte of [*dirEntry], the caller's variable the result is put in. *)
Definition descend (d : FAT_Dev) (path : list (list Z)) (dirAttrib rootEnts' : Z) (entry : list Z) (s : search) :
    M W (option search) :=
  let* dirName := sbFilePathAtLevel path (pathLevel s) in
  let* retFname := (match dirName with None => ret None | Some n => generate8_3Name n end) in
  match retFname with
  | None => ret None
  | Some fname =>
    if Z.land dirAttrib FAT_SUBDIR =? 0 then ret None
    else if start_clus entry =? 0 then
      ret (Some {| inRootDir := true; rootEnts := root_ents (bpb d);
                   startSector := resd_secs (bpb d) + secs_per_fat (bpb d) * secs_per_fat (bpb d);
                   cluster := 0; dirSize := bytes_per_sec (bpb d); pathLevel := pathLevel s + 1;
                   fileName := fname |})
    else
      ret (Some {| inRootDir := false; rootEnts := rootEnts'; startSector := startSector s;
                   cluster := start_clus entry;
                   dirSize := bytes_per_sec (bpb d) * secs_per_clus (bpb d); pathLevel := pathLevel s + 1;
                   fileName := fname |})
  end.

(** The contents of the current piece of the directory: [None] where the loop
    is left. *)
Definition load_piece (d : FAT_Dev) (s : search) (buffer : list Z) : M W (option (list Z)) :=
  if inRootDir s then
    if rootEnts s =? 0 then ret None
    else
      let* '(r, buffer) := readSector d (u32 (startSector s)) buffer in
      ret (if r =? 0 then Some buffer else None)
  else if bool_decide (getClusterType (cluster s) (fatType d) = USED_CLUSTER) then
    let* '(r, buffer) := readCluster d (cluster s) buffer in
    ret (if r =? 0 then Some buffer else None)
  else ret None.

(** At the last entry of a cluster: the next one of the directory. *)
Definition next_piece (d : FAT_Dev) (i : Z) (s : search) : M W search :=
  if negb (inRootDir s) && (i =? dirSize s / DIRENT_SIZE) then
    let* c := readFAT d (cluster s) in
    ret {| inRootDir := inRootDir s; rootEnts := rootEnts s; startSector := startSector s; cluster := c;
           dirSize := dirSize s; pathLevel := pathLevel s; fileName := fileName s |}
  else ret s.

Definition at_end (d : FAT_Dev) (s : search) : search :=
  {| inRootDir := inRootDir s; rootEnts := 0; startSector := startSector s; cluster := end_mark (fatType d);
     dirSize := dirSize s; pathLevel := pathLevel s; fileName := fileName s |}.

Definition with_ents (n : Z) (s : search) : search :=
  {| inRootDir := inRootDir s; rootEnts := n; startSector := startSector s; cluster := cluster s;
     dirSize := dirSize s; pathLevel := pathLevel s; fileName := fileName s |}.

Definition past_sector (s : search) : search :=
  if inRootDir s then
    {| inRootDir := true; rootEnts := rootEnts s; startSector := startSector s + 1; cluster := cluster s;
       dirSize := dirSize s; pathLevel := pathLevel s; fileName := fileName s |}
  else s.

Fixpoint search_loop (fuel : nat) (d : FAT_Dev) (path : list (list Z)) (dirAttrib : Z) (s : search)
    (buffer : list Z) : M W (option (list Z)) :=
  match fuel with
  | O => fail OutOfFuel
  | S fuel =>
    let* piece := load_piece d s buffer in
    match piece with
    | None => ret None
    | Some buffer =>
      let s := past_sector s in
      let* r := scan_entries (Z.to_nat (dirSize s / DIRENT_SIZE)) 0 (rootEnts s) (inRootDir s) (fileName s) buffer in
      match r with
      | Matched i ents e =>
        let* next := descend d path dirAttrib ents e s in
        match next with
        | None => ret (Some e)
        | Some s => let* s := next_piece d i s in search_loop fuel d path dirAttrib s buffer
        end
      | EndMarker i =>
        let* s := next_piece d i (at_end d s) in search_loop fuel d path dirAttrib s buffer
      | NotHere i ents =>
        let* s := next_piece d i (with_ents ents s) in search_loop fuel d path dirAttrib s buffer
      end
    end
  end.

(** The first sector of the root directory. *)
Definition root_start (d : FAT_Dev) : Z := resd_secs (bpb d) + secs_per_fat (bpb d) * fat_copies (bpb d).

(** [None] is the result -1.  [dirAttrib]: see [descend]. *)
Definition getFAT_DirEntry (fuel : nat) (path : list (list Z)) (d : FAT_Dev) (dirAttrib : Z) : M W (option (list Z)) :=
  if sbFilePathDepth path =? 0 then ret None
  else
    match fatType d with
    | FAT12 | FAT16 =>
      let secsize := bytes_per_sec (bpb d) in
      let* dirName := sbFilePathAtLevel path 0 in
      match dirName with
      | None => ret None
      | Some name =>
        let* fname := generate8_3Name name in
        match fname with
        | None => ret None
        | Some fname =>
          let* m := malloc (secsize * secs_per_clus (bpb d)) in
          match m with
          | None => ret None
          | Some buffer =>
            search_loop fuel d path dirAttrib
              {| inRootDir := true; rootEnts := root_ents (bpb d);
                 startSector := root_start d;
                 cluster := 0; dirSize := secsize; pathLevel := 1; fileName := fname |} buffer
          end
        end
      end
    | _ => ret None
    end.
End lib.
