(* ===== verification/FatFile.v ===== *)
(** * FAT file system, operations on files: apps/init_server_old/fs/fat_lib.c

    Reading a file, the attributes of a file, listing a directory and creating
    an entry, the calls fat_fs.c makes for the virtual file system. *)

From S2P Require Import Prelude Numbers Fat FatLib.

(** Flags of include/os/vfs.h. *)
Definition FS_DIR : Z := 0x001.
Definition FS_HIDDEN : Z := 0x002.
Definition FS_RDONLY : Z := 0x040.

(** struct FileAttributes of include/os/vfs.h. *)
Record FileAttributes := {
  flags : Z;
  timestamp : Z;
  size : Z;
  name_len : Z;
  name : list Z;
}.

(** struct FatDir: a field no statement has assigned is [None]. *)
Record FatDir := {
  entries : list Z;
  num_entries : option Z;
  start : Z;
  current : Z;
  next : option Z;
  more : option bool;
  use_sects : bool;
}.

(** An entry of a directory, from its fields. *)
Definition dirent (fname : list Z) (attr : Z) (resd : list Z) (clus fsize : Z) : list Z :=
  fname ++ [attr] ++ resd ++ word_bytes 0 ++ word_bytes 0 ++ word_bytes clus ++ dword_bytes fsize.

(** [for( n = max; n >= 1 && l[n-1] == ' '; n-- );] *)
Fixpoint trimmed (n : nat) (l : list Z) : nat :=
  match n with
  | O => O
  | S m => if byte_at l (Z.of_nat m) =? 32 then trimmed m l else n
  end.

(** The attributes of [entry]. *)
Definition entry_attributes (entry : list Z) : FileAttributes :=
  let nameLen := trimmed 8 entry in
  let base := strncpy_bytes nameLen entry in
  let ext := drop 8 entry in
  let extLen := trimmed 3 ext in
  let isDir := negb (Z.land (attrib entry) FAT_SUBDIR =? 0) in
  let full :=
    if isDir then base
    else match extLen with O => base | _ => base ++ [46] ++ strncpy_bytes extLen ext end in
  {| flags :=
       Z.lor (if Z.land (attrib entry) FAT_RDONLY =? 0 then 0 else FS_RDONLY)
         (Z.lor (if Z.land (attrib entry) FAT_HIDDEN =? 0 then 0 else FS_HIDDEN)
            (if isDir then FS_DIR else 0));
     timestamp := 0;
     size := file_size entry;
     name_len := len full;
     name := full ++ replicate (255 - length full) 0 |}.

Section file.
Context {W : Type} `{World W}.

(** ** Reading a file *)

(** The loop that passes over [n] clusters. *)
Fixpoint skip_clusters (d : FAT_Dev) (n : nat) (cluster : Z) : M W (option Z) :=
  match n with
  | O => ret (Some cluster)
  | S n =>
    let* c := readFAT d cluster in
    if bool_decide (getClusterType c (fatType d) = USED_CLUSTER) then skip_clusters d n c else ret None
  end.

(** The loop that copies: the bytes put into [fileBuffer], which has room for
    [length] more. *)
Fixpoint copy_clusters (fuel : nat) (d : FAT_Dev) (clusterSize cluster clusterOffset length fsize : Z)
    (buffer : list Z) : M W (list Z) :=
  match fuel with
  | O => fail OutOfFuel
  | S fuel =>
    if bool_decide (getClusterType cluster (fatType d) = USED_CLUSTER) && (0 <? length) && (0 <? fsize) then
      let* '(_, buffer) := readCluster d cluster buffer in
      let rest := u32 (clusterSize - clusterOffset) in
      if (rest <? length) && (clusterSize <? fsize) then
        let* out := copy_out buffer clusterOffset rest in
        let* c := readFAT d cluster in
        let* more := copy_clusters fuel d clusterSize c 0 (u32 (length - rest)) (u32 (fsize - clusterSize)) buffer in
        ret (out ++ more)
      else if (rest <? length) && (fsize <=? clusterSize) ||
              (length <=? rest) && (fsize <=? clusterSize) && (fsize <=? length) then
        let n := u32 (fsize - clusterOffset) in
        if length <? n then fail OutOfBounds else copy_out buffer clusterOffset n
      else copy_out buffer clusterOffset length
    else ret []
  end.

(** The result and the bytes written to [fileBuffer], which has room for
    [length] bytes. *)
Definition fatReadFile (fuel : nat) (path : list (list Z)) (offset devNum length : Z) : M W (Z * list Z) :=
  let* dev := getDeviceData devNum in
  let* locals := garbage DIRENT_SIZE in
  match dev with
  | None => ret (-1, [])
  | Some d =>
    let* e := getFAT_DirEntry fuel path d (attrib locals) in
    match e with
    | None => ret (-1, [])
    | Some entry =>
      if file_size entry <=? offset then ret (0, [])
      else if negb (Z.land (attrib entry) FAT_SUBDIR =? 0) then ret (-1, [])
      else
        let clusterSize := calcClusterSize (bpb d) in
        if clusterSize =? 0 then fail DivideByZero
        else if negb (bool_decide (getClusterType (start_clus entry) (fatType d) = USED_CLUSTER)) then ret (-1, [])
        else
          let* c := skip_clusters d (Z.to_nat (offset / clusterSize)) (start_clus entry) in
          match c with
          | None => ret (-1, [])
          | Some c =>
            let* m := malloc clusterSize in
            match m with
            | None => ret (-1, [])
            | Some buffer =>
              let* out := copy_clusters (S (Z.to_nat length)) d clusterSize c (offset mod clusterSize) length
                            (file_size entry) buffer in
              ret (i32 (len out), out)
            end
          end
    end
  end.

(** ** Attributes *)

(** The result and the attributes after the call, [attr] being those before. *)
Definition fatGetAttributes (fuel : nat) (path : list (list Z)) (devNum : Z) (attr : FileAttributes) :
    M W (Z * FileAttributes) :=
  let* dev := getDeviceData devNum in
  let* locals := garbage DIRENT_SIZE in
  match dev with
  | None => ret (-1, attr)
  | Some d =>
    if 0 <? sbFilePathDepth path then
      let* e := getFAT_DirEntry fuel path d (attrib locals) in
      match e with
      | None => ret (-1, attr)
      | Some entry => ret (0, entry_attributes entry)
      end
    else
      let* secs := calcRootDirSecs (bpb d) in
      ret (0, {| flags := Z.lor (flags attr) FS_DIR; timestamp := 0;
                 size := u64 (i32 (secs * bytes_per_sec (bpb d)));
                 name_len := 0; name := name attr |})
  end.

(** ** Listing a directory *)

(** The loop that counts the entries of a buffer, from the [i]-th on; [full]
    is [more] where the buffer is full. *)
Fixpoint count_entries (n : nat) (i : Z) (full : bool) (dir : FatDir) : M W FatDir :=
  match n with
  | O => ret dir
  | S n =>
    let* c := get_byte (entries dir) (DIRENT_SIZE * i) in
    if c =? 0 then
      ret {| entries := entries dir; num_entries := Some i; start := start dir; current := current dir;
             next := next dir; more := Some false; use_sects := use_sects dir |}
    else
      count_entries n (i + 1) full
        (match n with
         | O => {| entries := entries dir; num_entries := Some (i + 1); start := start dir; current := current dir;
                   next := next dir; more := Some full; use_sects := use_sects dir |}
         | _ => dir
         end)
  end.

(** The label [inRootDirectory]. *)
Definition read_root (d : FAT_Dev) : M W (option FatDir) :=
  match determineFAT_Type (bpb d) with
  | FAT12 | FAT16 =>
    let secsize := bytes_per_sec (bpb d) in
    let max_entries := secsize / DIRENT_SIZE in
    let* m := malloc secsize in
    match m with
    | None => ret None
    | Some buffer =>
      let* '(r, buffer) := readSector d (root_start d) buffer in
      if r <? 0 then ret None
      else
        let full := max_entries <=? root_ents (bpb d) in
        let* dir := count_entries (Z.to_nat max_entries) 0 true
          {| entries := buffer; num_entries := None; start := root_start d; current := root_start d;
             next := if full then Some (root_start d + 1) else None; more := Some full; use_sects := true |} in
        ret (Some dir)
    end
  | _ => ret None
  end.

Definition readDirEntry (fuel : nat) (path : list (list Z)) (d : FAT_Dev) : M W (option FatDir) :=
  let* m := malloc 32 in
  match m with
  | None => ret None
  | Some _ =>
    if sbFilePathDepth path =? 0 then read_root d
    else
      let* locals := garbage DIRENT_SIZE in
      let* e := getFAT_DirEntry fuel path d (attrib locals) in
      match e with
      | None => ret None
      | Some directory =>
        if Z.land (attrib directory) FAT_SUBDIR =? 0 then ret None
        else if (start_clus directory =? 0) && (file_size directory =? 0) then read_root d
        else if negb (bool_decide (getClusterType (start_clus directory) (fatType d) = USED_CLUSTER)) then ret None
        else
          let max_entries := calcClusterSize (bpb d) / DIRENT_SIZE in
          let* m := malloc (max_entries * DIRENT_SIZE) in
          match m with
          | None => ret None
          | Some buffer =>
            let* '(r, buffer) := readCluster d (start_clus directory) buffer in
            if r <? 0 then ret None
            else
              let* n := readFAT d (start_clus directory) in
              if n =? 1 then ret None
              else
                let* dir := count_entries (Z.to_nat max_entries) 0 true
                  {| entries := buffer; num_entries := None; start := start_clus directory;
                     current := start_clus directory; next := Some n; more := None; use_sects := false |} in
                ret (Some dir)
          end
      end
  end.

(** The part of [readNextEntry] after the label [inRootDirectory]. *)
Definition next_root (d : FAT_Dev) (dir : FatDir) : M W (option (FatDir * Z)) :=
  let* secsize := (match determineFAT_Type (bpb d) with
                   | FAT12 | FAT16 => ret (bytes_per_sec (bpb d))
                   | _ => fail Uninitialised
                   end) in
  let max_entries := secsize / DIRENT_SIZE in
  let full := u32 (max_entries + (current dir - root_start d) * (secsize / DIRENT_SIZE)) <=? root_ents (bpb d) in
  let* cur := deref Uninitialised (next dir) in
  let* '(r, buffer) := readSector d cur (entries dir) in
  if r <? 0 then ret None
  else
    ret (Some ({| entries := buffer; num_entries := num_entries dir; start := start dir; current := cur;
                  next := Some (u32 (cur + 1)); more := Some full; use_sects := use_sects dir |}, max_entries)).

Definition next_cluster (d : FAT_Dev) (dir : FatDir) : M W (option (FatDir * Z)) :=
  let* cur := deref Uninitialised (next dir) in
  if negb (bool_decide (getClusterType cur (fatType d) = USED_CLUSTER)) then ret None
  else
    let max_entries := calcClusterSize (bpb d) / DIRENT_SIZE in
    let* '(r, buffer) := readCluster d cur (entries dir) in
    if negb (r =? 0) then ret None
    else
      let* n := readFAT d cur in
      if n =? 1 then ret None
      else
        ret (Some ({| entries := buffer; num_entries := num_entries dir; start := start dir; current := cur;
                      next := Some n; more := more dir; use_sects := use_sects dir |}, max_entries)).

Definition readNextEntry (d : FAT_Dev) (dir : FatDir) : M W (option FatDir) :=
  let* m := deref Uninitialised (more dir) in
  if negb m then ret None
  else
    let* r := (if use_sects dir || (current dir =? 0) then next_root d dir else next_cluster d dir) in
    match r with
    | None => ret None
    | Some (dir, max_entries) =>
      let full := negb (use_sects dir && bool_decide (getClusterType (current dir) (fatType d) ≠ USED_CLUSTER)) in
      let* dir := count_entries (Z.to_nat max_entries) 0 full dir in
      ret (Some dir)
    end.

(** The loop over the entries of a buffer: the attributes of those listed. *)
Fixpoint list_buffer (n : nat) (i : Z) (buffer : list Z) : M W (list FileAttributes) :=
  match n with
  | O => ret []
  | S n =>
    let* e := copy_out buffer (DIRENT_SIZE * i) DIRENT_SIZE in
    let* rest := list_buffer n (i + 1) buffer in
    ret (if skipped e then rest else entry_attributes (unescape e) :: rest)
  end.

Fixpoint list_loop (fuel : nat) (d : FAT_Dev) (dir : FatDir) (maxEntries entriesListed : Z) :
    M W (Z * list FileAttributes) :=
  match fuel with
  | O => fail OutOfFuel
  | S fuel =>
    if maxEntries =? 0 then ret (-1, [])
    else
      let* num := deref Uninitialised (num_entries dir) in
      let* listed := list_buffer (Z.to_nat (Z.min num maxEntries)) 0 (entries dir) in
      let '(maxEntries, entriesListed) :=
        if len listed <? maxEntries then (maxEntries - len listed, entriesListed + len listed)
        else (0, entriesListed + maxEntries) in
      let* m := deref Uninitialised (more dir) in
      if m then
        let* next := readNextEntry d dir in
        match next with
        | None => fail NullDeref (* freeFatDir(NULL) reads the field [entries] *)
        | Some dir =>
          let* '(r, more) := list_loop fuel d dir maxEntries entriesListed in
          ret (r, listed ++ more)
        end
      else ret (entriesListed, listed)
  end.

(** The result and the attributes stored. *)
Definition fatGetDirList (fuel : nat) (path : list (list Z)) (devNum maxEntries : Z) : M W (Z * list FileAttributes) :=
  let* dev := getDeviceData devNum in
  match dev with
  | None => ret (-1, [])
  | Some d =>
    let* dir := readDirEntry fuel path d in
    match dir with
    | None => ret (-1, [])
    | Some dir => list_loop fuel d dir maxEntries 0
    end
  end.

(** ** Creating an entry *)

(** The cluster of a new directory: its number, [None] on the error exit. *)
Definition make_directory (d : FAT_Dev) (secsize : Z) : M W (option Z) :=
  let clusterSize := calcClusterSize (bpb d) in
  let* dirCluster := getFreeCluster d in
  if dirCluster =? 1 then ret None
  else
    let* m := malloc clusterSize in
    match m with
    | None => ret None
    | Some buffer2 =>
      let* '(r, buffer2) := readCluster d dirCluster buffer2 in
      if r <? 0 then ret None
      else
        let zeros := replicate 10 0 in
        let dot := dirent ([46] ++ replicate 10 32) FAT_SUBDIR zeros dirCluster
                     (u32 (rootDirSecs d * (u32 secsize / DIRENT_SIZE))) in
        let dotdot := dirent ([46; 46] ++ replicate 9 32) FAT_SUBDIR zeros 0 (u32 clusterSize) in
        let* buffer2 := copy_in buffer2 0 (dot ++ dotdot ++ replicate 32 0) in
        let* r := writeCluster d dirCluster buffer2 in
        if negb (r =? 0) then ret None
        else
          let* r := writeFAT d (end_mark (fatType d)) dirCluster in
          ret (if r <? 0 then None else Some dirCluster)
    end.

(** After the last entry of the directory has been taken: the buffer is
    written and a new end marker put after it.  [i] is the index of the entry in
    its sector or cluster, [pos] its offset in the buffer, [sector] the sector
    after the one read. *)
Definition finish_end (d : FAT_Dev) (isRootDir : bool) (i pos dirSize sector cluster numRootEnts secsize : Z)
    (buffer : list Z) : M W Z :=
  if i + 1 =? dirSize / DIRENT_SIZE then
    if isRootDir then
      let* m := malloc secsize in
      match m with
      | None => ret (-1)
      | Some _ =>
        if numRootEnts =? 0 then ret (-1)
        else
          let* r := writeSector d (u32 sector) (replicate (Z.to_nat secsize) 0) in
          if negb (r =? 0) then ret (-1)
          else let* r := writeSector d (u32 (sector - 1)) buffer in ret (if r =? 0 then 0 else -1)
      end
    else
      let* cluster2 := getFreeCluster d in
      let* m := malloc (calcClusterSize (bpb d)) in
      match m with
      | None => ret (-1)
      | Some _ =>
        if cluster2 =? 1 then ret (-1)
        else
          let* r := writeCluster d cluster2 buffer in
          if negb (r =? 0) then ret (-1)
          else
            let* r := writeCluster d cluster buffer in
            if negb (r =? 0) then ret (-1)
            else
              let* r := writeFAT d (end_mark (fatType d)) cluster2 in
              if negb (r =? 0) then ret (-1)
              else let* r := writeFAT d cluster2 cluster in ret (if r =? 0 then 0 else -1)
      end
  else
    let* buffer := set_byte buffer (pos + DIRENT_SIZE) 0 in
    if isRootDir then let* r := writeSector d (u32 (sector - 1)) buffer in ret (if r =? 0 then 0 else -1)
    else let* r := writeCluster d cluster buffer in ret (if r <? 0 then -1 else 0).

(** The body of the test that has found a free entry. *)
Definition take_entry (d : FAT_Dev) (dir isRootDir : bool) (newFname : list Z)
    (i pos dirSize sector cluster numRootEnts secsize : Z) (buffer : list Z) : M W Z :=
  let* old := copy_out buffer pos DIRENT_SIZE in
  let endEntry := byte_at old 0 =? 0 in
  let entry clus := dirent (strncpy_bytes 11 newFname) (if dir then FAT_SUBDIR else 0) (slice old 12 10) clus
                      (if dir then dirSize else 0) in
  let* clus := (if dir then make_directory d secsize else ret (Some (end_mark (fatType d)))) in
  match clus with
  | None => ret (-1)
  | Some clus =>
    let* buffer := copy_in buffer pos (entry clus) in
    if endEntry then finish_end d isRootDir i pos dirSize sector cluster numRootEnts secsize buffer else ret 0
  end.

(** The loop over the entries of a buffer: the result of the call where a free
    entry is found or the root directory is exhausted, else the offset and the
    number of root entries it ends with.  [pos] is the offset of the pointer
    [entry], which the next buffer does not reset. *)
Fixpoint create_scan (n : nat) (d : FAT_Dev) (dir isRootDir : bool) (newFname : list Z)
    (i pos dirSize sector cluster numRootEnts secsize : Z) (buffer : list Z) : M W (Z + Z * Z) :=
  match n with
  | O => ret (inr (pos, numRootEnts))
  | S n =>
    if isRootDir && (numRootEnts =? 0) then ret (inl (-1))
    else
      let numRootEnts := if isRootDir then numRootEnts - 1 else numRootEnts in
      let* c := get_byte buffer pos in
      if (c =? 0) || (c =? 0xE5) then
        let* r := take_entry d dir isRootDir newFname i pos dirSize sector cluster numRootEnts secsize buffer in
        ret (inl r)
      else
        create_scan n d dir isRootDir newFname (i + 1) (pos + DIRENT_SIZE) dirSize sector cluster numRootEnts
          secsize buffer
  end.

Fixpoint create_loop (fuel : nat) (d : FAT_Dev) (dir isRootDir : bool) (newFname : list Z)
    (pos dirSize sector cluster numRootEnts secsize : Z) (buffer : list Z) : M W Z :=
  match fuel with
  | O => fail OutOfFuel
  | S fuel =>
    let* '(r, buffer) :=
      (if isRootDir then
         if numRootEnts =? 0 then ret (-1, buffer) else readSector d (u32 sector) buffer
       else if bool_decide (getClusterType cluster (fatType d) = USED_CLUSTER) then readCluster d cluster buffer
       else ret (-1, buffer)) in
    if negb (r =? 0) then ret (-1)
    else
      let sector := if isRootDir then sector + 1 else sector in
      let* s := create_scan (Z.to_nat (dirSize / DIRENT_SIZE)) d dir isRootDir newFname 0 pos dirSize sector cluster
                  numRootEnts secsize buffer in
      match s with
      | inl r => ret r
      | inr (pos, numRootEnts) =>
        let* cluster := (if isRootDir then ret cluster else readFAT d cluster) in
        create_loop fuel d dir isRootDir newFname pos dirSize sector cluster numRootEnts secsize buffer
      end
  end.

(** [_createEntry]. *)
Definition createEntry (fuel : nat) (path : list (list Z)) (name : list Z) (d : FAT_Dev) (dir : bool) : M W Z :=
  let* newFname := generate8_3Name name in
  match newFname with
  | None => ret (-1)
  | Some newFname =>
    if sbFilePathDepth path =? 0 then
      match determineFAT_Type (bpb d) with
      | FAT12 | FAT16 =>
        let secsize := bytes_per_sec (bpb d) in
        let* m := malloc secsize in
        match m with
        | None => ret (-1)
        | Some buffer =>
          create_loop fuel d dir true newFname 0 secsize (root_start d) 0 (root_ents (bpb d)) secsize buffer
        end
      | _ => ret (-1)
      end
    else
      let* locals := garbage (DIRENT_SIZE + 4) in
      let* e := getFAT_DirEntry fuel path d (attrib locals) in
      match e with
      | None => ret (-1)
      | Some directory =>
        if Z.land (attrib directory) FAT_SUBDIR =? 0 then ret (-1)
        else
          let dirSize := calcClusterSize (bpb d) in
          let* m := malloc dirSize in
          match m with
          | None => ret (-1)
          | Some buffer =>
            create_loop fuel d dir false newFname 0 dirSize 0 (start_clus directory) 0
              (dword_at locals DIRENT_SIZE) buffer
          end
      end
  end.

Definition fatCreateFile (fuel : nat) (path : list (list Z)) (name : list Z) (devNum : Z) : M W Z :=
  let* dev := getDeviceData devNum in
  match dev with None => ret (-1) | Some d => createEntry fuel path name d false end.

Definition fatCreateDir (fuel : nat) (path : list (list Z)) (name : list Z) (devNum : Z) : M W Z :=
  let* dev := getDeviceData devNum in
  match dev with None => ret (-1) | Some d => createEntry fuel path name d true end.
End file.
