(* ===== verification/FatSpec.v ===== *)
(** * FAT file system: what the device promises, and the allocation table

    [Storage] states what the code expects of its surroundings: a device with
    contents, whose blocks are read and written, and an allocator that has
    memory.  Against it, an entry of the allocation table is a function of the
    contents of the device: [readFAT] reads it, [writeFAT] changes it and no
    other, [getFreeCluster] finds the first one that is zero. *)

From S2P Require Import Prelude Bits Numbers Fat.

(** ** Bytes and segments of lists *)

Abbreviation is_byte := (λ b : Z, 0 <= b < 256).

Lemma byte_at_insert l i j b :
  0 <= i < len l → 0 <= j → byte_at (<[Z.to_nat i := b]> l) j = if j =? i then b else byte_at l j.
Proof.
  intros Hi Hj. unfold byte_at. destruct (Z.eqb_spec j i) as [->|N].
  - rewrite list_lookup_insert_eq; [done|lia].
  - rewrite list_lookup_insert_ne; [done|lia].
Qed.

Lemma byte_at_slice l i n j :
  0 <= i → 0 <= j < n → byte_at (slice l i n) j = byte_at l (i + j).
Proof.
  intros Hi Hj. unfold byte_at, slice. rewrite lookup_take_lt, lookup_drop by lia. do 2 f_equal. lia.
Qed.

Lemma slice_length l i n : 0 <= i → 0 <= n → i + n <= len l → len (slice l i n) = n.
Proof. intros. unfold slice. rewrite length_take, length_drop. lia. Qed.

Lemma byte_at_app_l l l' j : 0 <= j < len l → byte_at (l ++ l') j = byte_at l j.
Proof. intros. unfold byte_at. rewrite lookup_app_l by lia. done. Qed.

Lemma byte_at_app_r l l' j : len l <= j → byte_at (l ++ l') j = byte_at l' (j - len l).
Proof. intros. unfold byte_at. rewrite lookup_app_r by lia. do 2 f_equal. lia. Qed.

Lemma byte_at_drop l n j : 0 <= j → byte_at (drop n l) j = byte_at l (Z.of_nat n + j).
Proof. intros. unfold byte_at. rewrite lookup_drop. do 2 f_equal. lia. Qed.

Lemma byte_at_take l n j : 0 <= j < Z.of_nat n → byte_at (take n l) j = byte_at l j.
Proof. intros. unfold byte_at. rewrite lookup_take_lt by lia. done. Qed.

Lemma splice_length l i new : 0 <= i → i + len new <= len l → length (splice l i new) = length l.
Proof. intros. unfold splice. rewrite !length_app, length_take, length_drop. lia. Qed.

Lemma byte_at_splice l i new j :
  0 <= i → i + len new <= len l → 0 <= j →
  byte_at (splice l i new) j = if (i <=? j) && (j <? i + len new) then byte_at new (j - i) else byte_at l j.
Proof.
  intros Hi Hn Hj. unfold splice. assert (T : length (take (Z.to_nat i) l) = Z.to_nat i) by (rewrite length_take; lia).
  destruct (Z.leb_spec i j); destruct (Z.ltb_spec j (i + len new)); cbn [andb].
  - rewrite byte_at_app_r, byte_at_app_l by lia. f_equal. lia.
  - rewrite byte_at_app_r, byte_at_app_r by lia. rewrite byte_at_drop by lia. f_equal. lia.
  - rewrite byte_at_app_l by lia. by rewrite byte_at_take by lia.
  - rewrite byte_at_app_l by lia. by rewrite byte_at_take by lia.
Qed.

Lemma byte_at_range l i : Forall is_byte l → 0 <= byte_at l i < 256.
Proof.
  intros F. unfold byte_at. destruct (l !! Z.to_nat i) as [b|] eqn:E; cbn; [|lia].
  exact (Forall_lookup_1 _ _ _ _ F E).
Qed.

Lemma word_at_range l i : Forall is_byte l → 0 <= word_at l i < 65536.
Proof. intros F. unfold word_at. pose proof (byte_at_range l i F). pose proof (byte_at_range l (i + 1) F). lia. Qed.

Lemma Forall_slice (P : Z → Prop) l i n : Forall P l → Forall P (slice l i n).
Proof. intros. unfold slice. by apply Forall_take, Forall_drop. Qed.

Lemma Forall_splice (P : Z → Prop) l i new : Forall P l → Forall P new → Forall P (splice l i new).
Proof. intros. unfold splice. rewrite !Forall_app. split_and!; auto using Forall_take, Forall_drop. Qed.

(** The contents of a buffer of which a sector has been read into. *)
Definition with_sector (l : list Z) (s : Z) (buf : list Z) : list Z := slice l (512 * s) 512 ++ drop 512 buf.

Lemma with_sector_len l s buf :
  0 <= s → 512 * s + 512 <= len l → 512 <= len buf → length (with_sector l s buf) = length buf.
Proof.
  intros. unfold with_sector. rewrite length_app, length_drop. pose proof (slice_length l (512 * s) 512). lia.
Qed.

Lemma byte_at_sector l s buf j :
  0 <= s → 512 * s + 512 <= len l → 0 <= j < 512 → byte_at (with_sector l s buf) j = byte_at l (512 * s + j).
Proof. intros. unfold with_sector. rewrite byte_at_app_l by (rewrite slice_length; lia). by apply byte_at_slice; lia. Qed.

Lemma Forall_sector (P : Z → Prop) l s buf : Forall P l → Forall P buf → Forall P (with_sector l s buf).
Proof. intros. unfold with_sector. apply Forall_app. split; [by apply Forall_slice|by apply Forall_drop]. Qed.

(** Two lists of the same length with the same bytes. *)
Lemma byte_list_ext l l' :
  length l = length l' → (∀ j, 0 <= j < len l → byte_at l j = byte_at l' j) → l = l'.
Proof.
  intros E H. apply list_eq. intros i. destruct (decide (i < length l)%nat) as [L|L].
  - specialize (H (Z.of_nat i)). unfold byte_at in H. rewrite Nat2Z.id in H.
    destruct (lookup_lt_is_Some_2 l i L) as [x X], (lookup_lt_is_Some_2 l' i) as [y Y]; [lia|].
    rewrite X, Y in *. cbn in H. rewrite H by lia. done.
  - rewrite !lookup_ge_None_2 by lia. done.
Qed.

(** Decide the comparisons of the goal. *)
Ltac eqb_cases :=
  repeat (match goal with |- context [Z.eqb ?x ?y] => destruct (Z.eqb_spec x y) end; try lia).

(** The branch for the types the code supports. *)
Lemma match_fat {A} (t : FAT_Type) (x y : A) :
  t = FAT12 ∨ t = FAT16 → (match t with FAT12 | FAT16 => x | _ => y end) = x.
Proof. by intros [-> | ->]. Qed.

(** ** What the surroundings promise *)

Class Storage (W : Type) `{World W} := {
  image : W → Z → Z → list Z;
  block_len : Z → Z → Z;
  image_bytes w o m : Forall is_byte (image w o m);
  malloc_ok n w : 0 <= n →
    ∃ buf w', malloc n w = Ret (Some buf) w' ∧ len buf = n ∧ Forall is_byte buf ∧ image w' = image w;
  garbage_ok n w : 0 <= n →
    ∃ l w', garbage n w = Ret l w' ∧ len l = n ∧ Forall is_byte l ∧ image w' = image w;
  copy_ok s w : ∃ w', sbStringCopy s w = Ret (Some s) w' ∧ image w' = image w;
  lookup_ok k w : ∃ r w', lookupDeviceMajor k w = Ret r w' ∧ image w' = image w;
  read_ok o m s n bytes buf w :
    0 <= s → 0 <= n → bytes = n * block_len o m → s * block_len o m + bytes <= len (image w o m) →
    bytes <= len buf →
    ∃ r w', deviceRead o m s n bytes buf w =
              Ret (r, slice (image w o m) (s * block_len o m) bytes ++ drop (Z.to_nat bytes) buf) w' ∧
            0 <= r ∧ image w' = image w;
  write_ok o m s n bytes buf w :
    0 <= s → 0 <= n → bytes = n * block_len o m → s * block_len o m + bytes <= len (image w o m) →
    bytes <= len buf → Forall is_byte buf →
    ∃ r w', deviceWrite o m s n bytes buf w = Ret r w' ∧ 0 <= r ∧
            image w' o m = splice (image w o m) (s * block_len o m) (take (Z.to_nat bytes) buf) ∧
            (∀ o' m', (o', m') ≠ (o, m) → image w' o' m' = image w o' m');
}.

Section table.
Context {W : Type} {WI : World W} {SI : Storage W}.

Definition disk (w : W) (d : FAT_Dev) : list Z := image w (owner d) (MINOR (deviceNum d)).

(** The device of [d] is a FAT volume with sectors of 512 bytes. *)
Record geometry (w : W) (d : FAT_Dev) : Prop := {
  geo_type : fatType d = FAT12 ∨ fatType d = FAT16;
  geo_bpb : Forall is_byte (bpb d);
  geo_sec : bytes_per_sec (bpb d) = 512;
  geo_blk : 0 < blockLen d ∧ blockLen d = block_len (owner d) (MINOR (deviceNum d)) ∧ (blockLen d | 512);
  geo_disk : len (disk w d) <= 2 ^ 32;
}.

(** The disk of [d] is [l] after the call, the others as in [w]. *)
Definition disk_is (d : FAT_Dev) (l : list Z) (w w' : W) : Prop :=
  disk w' d = l ∧ ∀ o m, (o, m) ≠ (owner d, MINOR (deviceNum d)) → image w' o m = image w o m.

Lemma geometry_mono w w' d : geometry w d → length (disk w' d) = length (disk w d) → geometry w' d.
Proof. intros [] E. split; auto. by rewrite E. Qed.

Lemma same_disk w w' d : image w' = image w → disk w' d = disk w d.
Proof. unfold disk. by intros ->. Qed.

Lemma wp_malloc n Q L w :
  0 <= n → (∀ buf w', len buf = n → Forall is_byte buf → image w' = image w → Q (Some buf) w') → wp (malloc n) Q L w.
Proof. intros Hn HQ. destruct (malloc_ok n w Hn) as (buf & w' & E & ? & ? & ?). unfold wp. rewrite E. auto. Qed.

Lemma wp_garbage n Q L w :
  0 <= n → (∀ l w', len l = n → Forall is_byte l → image w' = image w → Q l w') → wp (garbage n) Q L w.
Proof. intros Hn HQ. destruct (garbage_ok n w Hn) as (l & w' & E & ? & ? & ?). unfold wp. rewrite E. auto. Qed.

Lemma blocks_per_sector w d :
  geometry w d → ∃ k, 512 = k * blockLen d ∧ 0 < k <= 512 ∧ 512 ÷ blockLen d = k.
Proof.
  intros [_ _ _ (P & _ & [k E]) _]. exists k. assert (0 < k) by nia. split_and!; [done|lia|nia|].
  rewrite E at 1. rewrite Z.quot_mul; lia.
Qed.

Lemma wp_readSector d sector buf Q L w :
  geometry w d → 0 <= sector → 512 * sector + 512 <= len (disk w d) → 512 <= len buf →
  (∀ w', image w' = image w → Q (0, with_sector (disk w d) sector buf) w') →
  wp (readSector d sector buf) Q L w.
Proof.
  intros G Hs Hd Hb HQ. destruct (blocks_per_sector w d G) as (k & K & Kr & Kq).
  destruct G as [T _ S (P & B & _) D]. unfold readSector, secsize_of. rewrite S.
  rewrite (match_fat _ _ _ T). apply wp_bind, wp_ret.
  unfold cdiv. destruct (Z.eqb_spec (blockLen d) 0) as [?|_]; [lia|]. wp_steps. rewrite Kq. unfold read_into.
  destruct (Z.ltb_spec (len buf) 512) as [?|_]; [lia|]. wp_steps.
  rewrite wrap_small by nia.
  destruct (read_ok (owner d) (MINOR (deviceNum d)) (sector * k) k 512 buf w) as (r & w' & E & R & I);
    [nia|lia|rewrite <- B; lia| rewrite <- B; fold (disk w d); nia|lia|].
  unfold wp. rewrite E. unfold ret. destruct (Z.eqb_spec r (-1)) as [?|_]; [lia|].
  rewrite <- B. replace (sector * k * blockLen d) with (512 * sector) by nia. by apply HQ.
Qed.

Lemma wp_secsize_of d Q L w : geometry w d → Q 512 w → wp (secsize_of d) Q L w.
Proof. intros [T _ S _ _] HQ. unfold secsize_of. by rewrite S, match_fat. Qed.

Lemma wp_writeSector d sector buf Q L w :
  geometry w d → 0 <= sector → 512 * sector + 512 <= len (disk w d) → 512 <= len buf → Forall is_byte buf →
  (∀ w', disk_is d (splice (disk w d) (512 * sector) (take 512 buf)) w w' → Q 0 w') →
  wp (writeSector d sector buf) Q L w.
Proof.
  intros G Hs Hd Hb Fb HQ. destruct (blocks_per_sector w d G) as (k & K & Kr & Kq).
  unfold writeSector. apply wp_bind, wp_secsize_of; [done|]. destruct G as [T _ S (P & B & _) D].
  unfold cdiv. destruct (Z.eqb_spec (blockLen d) 0) as [?|_]; [lia|]. wp_steps. rewrite Kq. unfold write_from.
  destruct (Z.ltb_spec (len buf) 512) as [?|_]; [lia|]. wp_steps.
  rewrite wrap_small by nia.
  destruct (write_ok (owner d) (MINOR (deviceNum d)) (sector * k) k 512 buf w) as (r & w' & E & R & I & O);
    [nia|lia|rewrite <- B; lia| rewrite <- B; fold (disk w d); nia|lia|done|].
  unfold wp. rewrite E. unfold ret. destruct (Z.eqb_spec r (-1)) as [?|_]; [lia|]. apply HQ.
  split; [|done]. unfold disk. rewrite I, <- B. replace (sector * k * blockLen d) with (512 * sector) by nia. done.
Qed.

(** ** The entries of the table *)

(** The entry of [c] in the table at [base], as the FAT format defines it. *)
Definition entry_at (t : FAT_Type) (l : list Z) (base c : Z) : Z :=
  match t with
  | FAT12 => let v := word_at l (base + 3 * c / 2) in if c mod 2 =? 1 then v / 16 else v mod 4096
  | _ => word_at l (base + 2 * c)
  end.

Definition table_base (d : FAT_Dev) : Z := 512 * resd_secs (bpb d).
Definition fat_entry (w : W) (d : FAT_Dev) (c : Z) : Z := entry_at (fatType d) (disk w d) (table_base d) c.

(** The number of bytes of a table of [n] entries. *)
Definition table_len (t : FAT_Type) (n : Z) : Z := match t with FAT12 => (3 * n + 1) / 2 | _ => 2 * n end.

(** The table lies within the volume and another sector follows it. *)
Record fat_ok (w : W) (d : FAT_Dev) : Prop := {
  fat_geo : geometry w d;
  fat_count : clusterCount d <= 65536;
  fat_holds : table_len (fatType d) (clusterCount d) <= 512 * fatSize d;
  fat_disk : table_base d + 512 * fatSize d + 512 <= len (disk w d);
}.

Lemma entry_value_spec t c e0 e1 :
  0 <= e0 < 256 → 0 <= e1 < 256 →
  entry_value t c e0 e1 =
  match t with FAT12 => if c mod 2 =? 1 then (e0 + 256 * e1) / 16 else (e0 + 256 * e1) mod 4096 | _ => e0 + 256 * e1 end.
Proof.
  intros H0 H1. unfold entry_value. destruct t; [|done..].
  change 0x0F with (2 ^ 4 - 1). rewrite !land_low_mask, Z.shiftr_div_pow2, !Z.shiftl_mul_pow2 by lia.
  destruct (c mod 2 =? 1).
  - rewrite Z.lor_comm, lor_add_high by (pose proof (Z.mod_pos_bound (e0 / 2 ^ 4) (2 ^ 4)); lia). zdiv.
  - rewrite Z.lor_comm, lor_add_high by lia. zdiv.
Qed.

(** Where the entry of [c] lies in the table. *)
Definition entry_off (t : FAT_Type) (c : Z) : Z := match t with FAT12 => 3 * c / 2 | _ => 2 * c end.

Lemma entry_pos_spec d c :
  fatType d = FAT12 ∨ fatType d = FAT16 → 0 <= c < 65536 →
  entry_pos (fatType d) c = Some (entry_off (fatType d) c / 512, entry_off (fatType d) c mod 512).
Proof.
  intros T Hc. unfold entry_pos, entry_off, FAT_SECTOR_SIZE.
  destruct T as [-> | ->]; rewrite wrap_small by lia; [done|]. by rewrite (Z.mul_comm c).
Qed.

Lemma entry_off_bound w d c :
  fat_ok w d → 0 <= c < clusterCount d → 0 <= entry_off (fatType d) c ∧ entry_off (fatType d) c + 2 <= 512 * fatSize d.
Proof.
  intros [[T _ _ _ _] _ Hh _] Hc. unfold table_len, entry_off in *. destruct T as [T | T]; rewrite T in *; [zdiv|lia].
Qed.

Lemma fat_entry_value w d c :
  fat_ok w d →
  fat_entry w d c =
  entry_value (fatType d) c (byte_at (disk w d) (table_base d + entry_off (fatType d) c))
    (byte_at (disk w d) (table_base d + entry_off (fatType d) c + 1)).
Proof.
  intros F. rewrite entry_value_spec by (apply byte_at_range, image_bytes).
  unfold fat_entry, entry_at, entry_off, word_at. by destruct (fatType d).
Qed.

Lemma resd_range w d : geometry w d → 0 <= resd_secs (bpb d) < 65536.
Proof. intros [_ B _ _ _]. by apply word_at_range. Qed.

Lemma wp_copy_out buf i n Q L (w : W) :
  0 <= i → i + n <= len buf → Q (slice buf i n) w → wp (copy_out buf i n) Q L w.
Proof.
  intros. unfold copy_out. destruct (Z.ltb_spec i 0); [lia|]. destruct (Z.ltb_spec (len buf) (i + n)); [lia|]. done.
Qed.

(** The sector of an entry and its position in it. *)
Lemma entry_sector w d c :
  fat_ok w d → 0 <= c < clusterCount d →
  let o := entry_off (fatType d) c in
  0 <= o mod 512 < 512 ∧ 0 <= o / 512 ∧ resd_secs (bpb d) + o / 512 + 1 < 2 ^ 23 ∧
  512 * (resd_secs (bpb d) + o / 512) + o mod 512 = table_base d + o ∧
  512 * (resd_secs (bpb d) + o / 512) + 1024 <= len (disk w d).
Proof.
  intros F Hc o. pose proof (entry_off_bound w d c F Hc) as [O1 O2]. fold o in O1, O2.
  destruct F as [G _ _ D]. pose proof (resd_range w d G). pose proof (geo_disk w d G). unfold table_base in *.
  split_and!; zdiv.
Qed.

Lemma readFAT_entry w d c Q L :
  fat_ok w d → 2 <= c < clusterCount d →
  (∀ w', image w' = image w → Q (fat_entry w d c) w') → wp (readFAT d c) Q L w.
Proof.
  intros F Hc HQ. pose proof (fat_geo w d F) as G. pose proof (fat_count w d F).
  destruct (entry_sector w d c F) as (M1 & M2 & M3 & M4 & M5); [lia|]. unfold readFAT.
  apply wp_bind, wp_malloc; [done|]. intros buf w1 Lb Fb I1. unfold FAT_SECTOR_SIZE in Lb.
  destruct (Z.leb_spec (clusterCount d) c); [lia|]. destruct (Z.ltb_spec c 2); [lia|]. cbn [orb].
  rewrite entry_pos_spec by (destruct G; auto || lia). unfold FAT_SECTOR_SIZE.
  rewrite (fat_entry_value w d c F) in HQ. set (o := entry_off (fatType d) c) in *.
  pose proof (resd_range w d G) as R. pose proof (same_disk w w1 d I1) as D1.
  assert (G1 : geometry w1 d) by (apply (geometry_mono w); [done|by rewrite D1]).
  rewrite wrap_small by lia. apply wp_bind, wp_readSector; [done|lia|rewrite D1; lia|lia|]. intros w2 I2. rewrite D1.
  cbn [Z.ltb Z.compare]. set (b := with_sector _ _ _). assert (Lp : length b = 512%nat) by (unfold b; rewrite with_sector_len; lia).
  destruct (Z.leb_spec 512 (o mod 512 + 2)) as [C|C].
  - apply wp_bind, wp_copy_out; [lia|lia|]. rewrite wrap_small by lia.
    pose proof (same_disk w1 w2 d I2) as D2. assert (G2 : geometry w2 d) by (apply (geometry_mono w1); [done|by rewrite D2]).
    apply wp_bind, wp_readSector; [done|lia|rewrite D2, D1; lia|lia|]. intros w3 I3. rewrite D2, D1.
    cbn [Z.ltb Z.compare]. apply wp_bind, wp_copy_out; [lia|rewrite with_sector_len; lia|]. apply wp_ret.
    rewrite (byte_at_app_l _ _ 0) by (rewrite slice_length; lia). rewrite byte_at_slice by lia. unfold b at 1.
    rewrite byte_at_sector by lia. replace (512 * _ + (o mod 512 + 0)) with (table_base d + o) by lia.
    replace (byte_at (_ ++ _) 1) with (byte_at (disk w d) (table_base d + o + 1)); [apply HQ; congruence|].
    destruct (Z.eq_dec (o mod 512) 510).
    + rewrite byte_at_app_l by (rewrite slice_length; lia). rewrite byte_at_slice by lia. unfold b.
      rewrite byte_at_sector by lia. f_equal. lia.
    + rewrite byte_at_app_r by (rewrite slice_length; lia). rewrite slice_length, byte_at_slice, byte_at_sector by lia.
      f_equal. lia.
  - apply wp_bind, wp_copy_out; [lia|lia|]. apply wp_ret. rewrite !byte_at_slice by lia. unfold b.
    rewrite !byte_at_sector by lia.
    replace (512 * _ + (o mod 512 + 0)) with (table_base d + o) by lia.
    replace (512 * _ + (o mod 512 + 1)) with (table_base d + o + 1) by lia. apply HQ. congruence.
Qed.

(** ** Changing an entry *)

(** [l'] is [l] with the two bytes at [p] replaced. *)
Definition patched (l : list Z) (p b0 b1 : Z) (l' : list Z) : Prop :=
  length l' = length l ∧
  ∀ j, 0 <= j → byte_at l' j = if j =? p then b0 else if j =? p + 1 then b1 else byte_at l j.

(** [b0] and [b1] hold [entry], and of the neighbour that shares one of the
    bytes what [o0] and [o1] hold. *)
Definition entry_bytes (t : FAT_Type) (entry c o0 o1 b0 b1 : Z) : Prop :=
  match t with
  | FAT12 =>
    if c mod 2 =? 1 then b0 = o0 mod 16 + 16 * (entry mod 16) ∧ b1 = entry / 16
    else b0 = entry mod 256 ∧ b1 = entry / 256 + 16 * (o1 / 16)
  | _ => b0 = entry mod 256 ∧ b1 = entry / 256
  end.

Definition entry_limit (t : FAT_Type) : Z := match t with FAT12 => 4096 | _ => 65536 end.

Lemma entry_patched t l l' base c entry b0 b1 :
  0 <= base → 0 <= c → 0 <= entry < entry_limit t → Forall is_byte l →
  entry_bytes t entry c (byte_at l (base + entry_off t c)) (byte_at l (base + entry_off t c + 1)) b0 b1 →
  patched l (base + entry_off t c) b0 b1 l' →
  entry_at t l' base c = entry ∧ ∀ c', 0 <= c' → c' ≠ c → entry_at t l' base c' = entry_at t l base c'.
Proof.
  intros Hb Hc He Fl HB [_ HP].
  assert (HW : ∀ j, 0 <= j → word_at l' j =
    (if j =? base + entry_off t c then b0 else if j =? base + entry_off t c + 1 then b1 else byte_at l j) +
    256 * (if j + 1 =? base + entry_off t c then b0 else if j + 1 =? base + entry_off t c + 1 then b1 else byte_at l (j + 1)))
    by (intros j Hj; unfold word_at; by rewrite !HP by lia).
  pose proof (λ j, byte_at_range l j Fl) as R.
  unfold entry_at, entry_off, entry_bytes, entry_limit in *. destruct t;
    [|destruct HB as [-> ->]; split;
      [rewrite HW by lia; eqb_cases; zdiv|intros c' Hc' N; rewrite HW by lia; unfold word_at; eqb_cases]..].
  assert (Q : 0 <= 3 * c / 2) by (apply Z.div_pos; lia). set (o := 3 * c / 2) in *.
  assert (O0 := R (base + o)). assert (O1 := R (base + o + 1)).
  set (o0 := byte_at l (base + o)) in *. set (o1 := byte_at l (base + o + 1)) in *.
  split; [|intros c' Hc' N; set (o' := 3 * c' / 2); assert (0 <= o') by (apply Z.div_pos; lia)]; rewrite HW by lia.
  - rewrite (proj2 (Z.eqb_eq (base + o) (base + o))) by lia.
    destruct (Z.eqb_spec (base + o + 1) (base + o)); [lia|]. rewrite (proj2 (Z.eqb_eq (base + o + 1) (base + o + 1))) by lia.
    clearbody o0 o1. clear HW HP R Q. destruct (c mod 2 =? 1); destruct HB as [-> ->]; zdiv.
  - unfold word_at. assert (C : o' ≠ o ∧ o' + 1 ≠ o ∧ o' ≠ o + 1 ∨
      (c mod 2 = 0 ∧ c' = c + 1 ∧ o' = o + 1) ∨ (c mod 2 = 1 ∧ c' = c - 1 ∧ o' + 1 = o)) by (unfold o, o'; zdiv).
    assert (R0 := R (base + o')). assert (R1 := R (base + o' + 1)). clear HW HP.
    destruct C as [(?&?&?)|[(?&->&E)|(?&->&E)]].
    + eqb_cases.
    + replace ((c + 1) mod 2) with 1 by zdiv. replace (c mod 2) with 0 in HB by lia. cbn [Z.eqb Pos.eqb] in *.
      replace (base + o') with (base + o + 1) in * by lia. fold o1 in R0 |- *.
      eqb_cases.
      generalize dependent (byte_at l (base + o + 1 + 1)). clearbody o1 o0. intros. destruct HB as [-> ->]. zdiv.
    + replace ((c - 1) mod 2) with 0 by zdiv. replace (c mod 2) with 1 in HB by lia. cbn [Z.eqb Pos.eqb] in *.
      replace (base + o' + 1) with (base + o) in * by lia. fold o0 in R1 |- *.
      eqb_cases.
      generalize dependent (byte_at l (base + o')). clearbody o1 o0. intros. destruct HB as [-> ->]. zdiv.
Qed.

Lemma wp_get_byte buf i Q L (w : W) : 0 <= i < len buf → Q (byte_at buf i) w → wp (get_byte buf i) Q L w.
Proof.
  intros Hi HQ. unfold get_byte. destruct (Z.ltb_spec i 0); [lia|]. unfold byte_at in HQ.
  destruct (lookup_lt_is_Some_2 buf (Z.to_nat i)) as [x X]; [lia|]. rewrite X in *. done.
Qed.

Lemma wp_set_byte buf i x Q L (w : W) :
  0 <= i < len buf → Q (<[Z.to_nat i := u8 x]> buf) w → wp (set_byte buf i x) Q L w.
Proof. intros Hi HQ. unfold set_byte. apply wp_bind, wp_get_byte; [done|]. by apply wp_ret. Qed.

Lemma wp_copy_in buf i src Q L (w : W) :
  0 <= i → i + len src <= len buf → Q (splice buf i src) w → wp (copy_in buf i src) Q L w.
Proof.
  intros. unfold copy_in. destruct (Z.ltb_spec i 0); [lia|]. destruct (Z.ltb_spec (len buf) (i + len src)); [lia|]. done.
Qed.

(** The disk after a sector has been written from a buffer. *)
Lemma byte_at_written l s buf j :
  0 <= s → 512 * s + 512 <= len l → 512 <= len buf → 0 <= j →
  byte_at (splice l (512 * s) (take 512 buf)) j =
  if (512 * s <=? j) && (j <? 512 * s + 512) then byte_at buf (j - 512 * s) else byte_at l j.
Proof.
  intros. assert (len (take 512 buf) = 512) as E by (rewrite length_take; lia).
  rewrite byte_at_splice by lia. rewrite E. destruct (Z.leb_spec (512 * s) j), (Z.ltb_spec j (512 * s + 512)); try done.
  cbn [andb]. apply byte_at_take. lia.
Qed.

Lemma written_length l s buf :
  0 <= s → 512 * s + 512 <= len l → 512 <= len buf → length (splice l (512 * s) (take 512 buf)) = length l.
Proof. intros. apply splice_length; rewrite ?length_take; lia. Qed.

(** Bytes of the code's bit expressions. *)
Lemma byte_land_high b : 0 <= b < 256 → Z.land b 0xF0 = 16 * (b / 16).
Proof.
  intros Hb. replace (16 * (b / 16)) with (b / 16 mod 2 ^ 4 * 2 ^ 4) by zdiv.
  rewrite <- land_low_mask, <- Z.shiftl_mul_pow2 by lia. change 16 with (2 ^ 4). rewrite <- Z.shiftr_div_pow2 by lia.
  change 0xF0 with (Z.shiftl (2 ^ 4 - 1) 4). apply Z.bits_inj'. intros i Hi.
  rewrite Z.land_spec, !Z.shiftl_spec, Z.land_spec by lia.
  destruct (Z.lt_ge_cases i 4); [rewrite !(Z.testbit_neg_r _ (i - 4)) by lia; by rewrite andb_false_r|].
  rewrite Z.shiftr_spec by lia. do 2 f_equal. lia.
Qed.

Lemma patched_inserts buf off b0 b1 :
  0 <= off → off + 1 < len buf → patched buf off b0 b1 (<[Z.to_nat (off + 1) := b1]> (<[Z.to_nat off := b0]> buf)).
Proof.
  intros. split; [by rewrite !length_insert|]. intros j Hj.
  rewrite !byte_at_insert by (rewrite ?length_insert; lia). eqb_cases; done.
Qed.

Lemma patched_splice buf off b0 b1 :
  0 <= off → off + 1 < len buf → patched buf off b0 b1 (splice buf off [b0; b1]).
Proof.
  intros. split; [apply splice_length; cbn; lia|]. intros j Hj. rewrite byte_at_splice by (cbn; lia). cbn [length].
  destruct (Z.leb_spec off j), (Z.ltb_spec j (off + Z.of_nat 2)); cbn [andb]; eqb_cases; try done.
  - by replace (j - off) with 0 by lia.
  - by replace (j - off) with 1 by lia.
Qed.

Lemma patched_written l s buf buf' off b0 b1 :
  0 <= s → 512 * s + 512 <= len l → 512 <= len buf → 0 <= off → off + 1 < 512 →
  patched (with_sector l s buf) off b0 b1 buf' → patched l (512 * s + off) b0 b1 (splice l (512 * s) (take 512 buf')).
Proof.
  intros Hs Hl Hb Ho Ho' [E HP]. rewrite with_sector_len in E by lia. split; [apply written_length; lia|].
  intros j Hj. rewrite byte_at_written by lia.
  destruct (Z.leb_spec (512 * s) j), (Z.ltb_spec j (512 * s + 512)); cbn [andb]; eqb_cases; try done.
  all: rewrite HP by lia; eqb_cases; try done. rewrite byte_at_sector by lia. f_equal. lia.
Qed.

Lemma Forall_insert_byte l i b : Forall is_byte l → 0 <= b < 256 → Forall is_byte (<[i := b]> l).
Proof. intros. by apply Forall_insert. Qed.

Lemma byte_low x : u8 (Z.land x 0xFF) = x mod 256.
Proof. change 0xFF with (2 ^ 8 - 1). rewrite land_low_mask by lia. unfold wrap. zdiv. Qed.

Lemma nibble_pair lo hi : 0 <= lo < 16 → 0 <= hi < 16 → u8 (Z.lor lo (16 * hi)) = lo + 16 * hi.
Proof.
  intros. rewrite Z.lor_comm. replace (16 * hi) with (hi * 2 ^ 4) by lia. rewrite lor_add_high by lia.
  rewrite wrap_small by lia. lia.
Qed.

Lemma land_nibble x : Z.land x 0x0F = x mod 16.
Proof. change 0x0F with (2 ^ 4 - 1). by rewrite land_low_mask by lia. Qed.

Lemma low_high_nibbles b entry :
  u8 (Z.lor (Z.land b 0x0F) (Z.shiftl (Z.land entry 0x0F) 4)) = b mod 16 + 16 * (entry mod 16).
Proof.
  rewrite !land_nibble, Z.shiftl_mul_pow2 by lia. change (2 ^ 4) with 16. rewrite (Z.mul_comm _ 16).
  apply nibble_pair; zdiv.
Qed.

Lemma whole_entry_spec t entry c off g buf Q L (w : W) :
  t = FAT12 ∨ t = FAT16 → 0 <= entry < entry_limit t → 0 <= off → off + 1 < len buf → Forall is_byte buf →
  (∀ buf' b0 b1, patched buf off b0 b1 buf' → Forall is_byte buf' →
     entry_bytes t entry c g (byte_at buf (off + 1)) b0 b1 → Q buf' w) →
  wp (whole_entry t entry c off g buf) Q L w.
Proof.
  intros T He Ho Hl Fb HQ. pose proof (byte_at_range buf (off + 1) Fb) as R. unfold whole_entry, entry_bytes in *.
  destruct T as [-> | ->]; unfold entry_limit in He.
  2:{ apply wp_copy_in; [done|cbn; lia|]. eapply HQ; [apply patched_splice; lia| |unfold wrap; zdiv].
      apply Forall_splice; [done|]. repeat constructor; apply wrap_range; lia. }
  assert (c mod 2 = 0 ∨ c mod 2 = 1) as [P|P] by zdiv; rewrite P in *; cbn [Z.eqb Pos.eqb] in *.
  - apply wp_bind, wp_set_byte; [lia|]. apply wp_bind, wp_get_byte; [rewrite length_insert; lia|].
    rewrite byte_at_insert by lia. destruct (Z.eqb_spec (off + 1) off); [lia|].
    rewrite byte_low, Z.shiftr_div_pow2, land_nibble, byte_land_high by lia. change (2 ^ 8) with 256.
    apply wp_set_byte; [rewrite length_insert; lia|]. rewrite nibble_pair by zdiv.
    eapply HQ; [by apply patched_inserts| |zdiv]. repeat apply Forall_insert_byte; [done|zdiv|zdiv].
  - change 0xF with 0x0F. apply wp_bind, wp_set_byte; [lia|]. rewrite low_high_nibbles.
    apply wp_set_byte; [rewrite length_insert; lia|]. rewrite Z.shiftr_land.
    change (Z.shiftr 0xFF0 4) with 0xFF. rewrite byte_low, Z.shiftr_div_pow2 by lia. change (2 ^ 4) with 16.
    eapply HQ; [by apply patched_inserts| |zdiv]. repeat apply Forall_insert_byte; [done|zdiv|zdiv].
Qed.

Lemma first_part_spec t entry c off buf Q L (w : W) :
  t = FAT12 ∨ t = FAT16 → length buf = 512%nat → Forall is_byte buf → 510 <= off < 512 → (t = FAT16 → off = 510) →
  (∀ b i, i = (match t with FAT12 => 511 | _ => 510 end) → 0 <= b < 256 →
     (b = match t with
          | FAT12 => if c mod 2 =? 1 then byte_at buf 511 mod 16 + 16 * (entry mod 16) else entry mod 256
          | _ => entry mod 256
          end) → Q (<[Z.to_nat i := b]> buf) w) →
  wp (first_part t entry c off buf) Q L w.
Proof.
  intros T Lb Fb Ho H16 HQ. unfold first_part, FAT_SECTOR_SIZE. destruct T as [-> | ->].
  - assert (c mod 2 = 0 ∨ c mod 2 = 1) as [P|P] by zdiv; rewrite P in *; cbn [Z.eqb Pos.eqb] in *.
    + apply wp_set_byte; [lia|]. rewrite byte_low. apply (HQ _ 511); [done|zdiv|done].
    + apply wp_bind, wp_get_byte; [lia|]. apply wp_set_byte; [lia|]. rewrite low_high_nibbles.
      apply (HQ _ 511); [done| |done]. zdiv.
  - rewrite H16 by done. change (Z.shiftl 1 (8 * (512 - 510)) - 1) with (2 ^ 16 - 1). rewrite land_low_mask by lia.
    apply wp_set_byte; [lia|]. apply (HQ _ 510); [done|apply wrap_range; lia|unfold wrap; zdiv].
Qed.

Lemma second_part_spec t entry c off buf Q L (w : W) :
  t = FAT12 ∨ t = FAT16 → length buf = 512%nat → Forall is_byte buf → 510 <= off < 512 → (t = FAT16 → off = 510) →
  0 <= entry < entry_limit t →
  (∀ b, 0 <= b < 256 →
     (b = match t with
          | FAT12 => if c mod 2 =? 1 then entry / 16 else entry / 256 + 16 * (byte_at buf 0 / 16)
          | _ => entry mod 256
          end) → Q (<[0%nat := b]> buf) w) →
  wp (second_part t entry c off buf) Q L w.
Proof.
  intros T Lb Fb Ho H16 He HQ. unfold second_part, FAT_SECTOR_SIZE. pose proof (byte_at_range buf 0 Fb).
  destruct T as [-> | ->]; unfold entry_limit in He.
  - assert (c mod 2 = 0 ∨ c mod 2 = 1) as [P|P] by zdiv; rewrite P in *; cbn [Z.eqb Pos.eqb] in *.
    + apply wp_bind, wp_get_byte; [lia|]. apply wp_set_byte; [lia|]. rewrite byte_land_high, Z.shiftr_div_pow2 by lia.
      change (2 ^ 8) with 256. rewrite nibble_pair by zdiv. apply HQ; [zdiv|done].
    + apply wp_set_byte; [lia|]. rewrite Z.shiftr_div_pow2 by lia. change (2 ^ 4) with 16.
      rewrite wrap_small by zdiv. apply HQ; [zdiv|done].
  - rewrite H16 by done. change (8 * (2 - (512 - 510))) with 0. rewrite Z.shiftr_0_r. apply wp_set_byte; [lia|].
    apply HQ; [apply wrap_range; lia|done].
Qed.

(** The part of [writeFAT] after the sector has been read. *)
Definition store_entry (d : FAT_Dev) (entry c o s g : Z) (b : list Z) : M W Z :=
  if 512 <=? o mod 512 + 2 then
    let* buffer := first_part (fatType d) entry c (o mod 512) b in
    let* r := writeSector d s buffer in
    if r <? 0 then ret (-1)
    else
      let* '(r, buffer) := readSector d (s + 1) buffer in
      if r <? 0 then ret (-1)
      else
        let* buffer := second_part (fatType d) entry c (o mod 512) buffer in
        writeSector d (s + 1) buffer
  else
    let* buffer := whole_entry (fatType d) entry c (o mod 512) g b in
    writeSector d s buffer.

Lemma writeFAT_start w d c entry Q L :
  fat_ok w d → 2 <= c < clusterCount d →
  let o := entry_off (fatType d) c in
  let s := resd_secs (bpb d) + o / 512 in
  (∀ buf g w1, length buf = 512%nat → Forall is_byte buf → 0 <= g < 256 → image w1 = image w →
     wp (store_entry d entry c o s g (with_sector (disk w d) s buf)) Q L w1) →
  wp (writeFAT d entry c) Q L w.
Proof.
  intros F Hc o s HQ. pose proof (fat_geo w d F) as G. pose proof (fat_count w d F).
  destruct (entry_sector w d c F) as (M1 & M2 & M3 & M4 & M5); [lia|]. fold o s in M1, M2, M3, M4, M5. unfold writeFAT.
  apply wp_bind, wp_malloc; [done|]. intros buf w1 Lb Fb I1. unfold FAT_SECTOR_SIZE in Lb.
  apply wp_bind, wp_garbage; [lia|]. intros g w2 Lg Fg I2.
  destruct (Z.leb_spec (clusterCount d) c); [lia|]. destruct (Z.ltb_spec c 2); [lia|]. cbn [orb].
  rewrite entry_pos_spec by (destruct G; auto || lia). unfold FAT_SECTOR_SIZE. fold o. fold s.
  pose proof (resd_range w d G) as R. assert (D2 : disk w2 d = disk w d) by (apply same_disk; congruence).
  assert (G2 : geometry w2 d) by (apply (geometry_mono w); [done|by rewrite D2]).
  rewrite wrap_small by lia. apply wp_bind, wp_readSector; [done|lia|rewrite D2; lia|lia|]. intros w3 I3. rewrite D2.
  cbn [Z.ltb Z.compare]. rewrite (wrap_small 32 (s + 1)) by lia.
  apply HQ; [lia|done|by apply byte_at_range|congruence].
Qed.

Lemma disk_is_trans d l l' w w1 w2 : disk_is d l w w1 → disk_is d l' w1 w2 → disk_is d l' w w2.
Proof. intros [_ A] [B C]. split; [done|]. intros o m N. by rewrite C, A. Qed.

Lemma disk_is_image d l w w1 w2 : image w1 = image w → disk_is d l w1 w2 → disk_is d l w w2.
Proof. intros E [A B]. split; [done|]. intros o m N. by rewrite B, E. Qed.

(** An entry within its sector; [g] is the byte no statement has assigned. *)
Lemma writeFAT_inside w d c entry Q L :
  fat_ok w d → 2 <= c < clusterCount d → 0 <= entry < entry_limit (fatType d) →
  entry_off (fatType d) c mod 512 < 510 →
  (∀ g b0 b1 l' w', 0 <= g < 256 →
     entry_bytes (fatType d) entry c g (byte_at (disk w d) (table_base d + entry_off (fatType d) c + 1)) b0 b1 →
     patched (disk w d) (table_base d + entry_off (fatType d) c) b0 b1 l' → disk_is d l' w w' → Q 0 w') →
  wp (writeFAT d entry c) Q L w.
Proof.
  intros F Hc He Hi HQ. pose proof (fat_geo w d F) as G.
  destruct (entry_sector w d c F) as (M1 & M2 & M3 & M4 & M5); [lia|]. apply writeFAT_start; [done..|].
  intros buf g w1 Lb Fb Rg I1. set (o := entry_off (fatType d) c) in *. set (s := resd_secs (bpb d) + o / 512) in *.
  pose proof (resd_range w d G). pose proof (same_disk w w1 d I1) as D1.
  assert (G1 : geometry w1 d) by (apply (geometry_mono w); [done|by rewrite D1]). unfold store_entry.
  destruct (Z.leb_spec 512 (o mod 512 + 2)); [lia|].
  apply wp_bind, whole_entry_spec; [by destruct G|done|lia|rewrite with_sector_len; lia| |].
  { by apply Forall_sector; [apply image_bytes|]. }
  intros buf' b0 b1 P F' E. pose proof (proj1 P) as L'. rewrite with_sector_len in L' by lia.
  apply wp_writeSector; [done|lia|rewrite D1; lia|lia|done|]. intros w2 I2. rewrite D1 in I2.
  eapply (HQ g b0 b1); [done| | |by eapply disk_is_image].
  - rewrite byte_at_sector in E by lia. by replace (512 * s + (o mod 512 + 1)) with (table_base d + o + 1) in E by lia.
  - rewrite <- M4. by apply (patched_written _ _ buf); lia || done.
Qed.

(** Two sectors changed one after the other, in a byte each. *)
Lemma two_sectors l s buf buf' i b0 b1 :
  0 <= s → 512 * s + 1024 <= len l → length buf = 512%nat → length buf' = 512%nat → 0 <= i < 512 →
  let l1 := splice l (512 * s) (take 512 (<[Z.to_nat i := b0]> (with_sector l s buf))) in
  let b' := with_sector l1 (s + 1) buf' in
  let l2 := splice l1 (512 * (s + 1)) (take 512 (<[0%nat := b1]> b')) in
  length l1 = length l ∧ length b' = 512%nat ∧ byte_at b' 0 = byte_at l (512 * s + 512) ∧ length l2 = length l ∧
  ∀ j, 0 <= j → byte_at l2 j = if j =? 512 * s + i then b0 else if j =? 512 * s + 512 then b1 else byte_at l j.
Proof.
  intros Hs Hl Lb Lb' Hi l1 b' l2.
  assert (L1 : length l1 = length l) by (apply written_length; rewrite ?length_insert, ?with_sector_len; lia).
  assert (L2 : length b' = 512%nat) by (unfold b'; rewrite with_sector_len; lia).
  assert (B1 : ∀ j, 0 <= j → byte_at l1 j = if j =? 512 * s + i then b0 else byte_at l j).
  { intros j Hj. unfold l1. rewrite byte_at_written by (rewrite ?length_insert, ?with_sector_len; lia).
    destruct (Z.leb_spec (512 * s) j), (Z.ltb_spec j (512 * s + 512)); cbn [andb]; eqb_cases; try done.
    all: rewrite byte_at_insert by (rewrite ?with_sector_len; lia); eqb_cases; try done.
    rewrite byte_at_sector by lia. f_equal. lia. }
  split_and!; [done|done|unfold b'; rewrite byte_at_sector, B1 by lia; eqb_cases; f_equal; lia| |].
  - unfold l2. rewrite written_length; rewrite ?length_insert; lia.
  - intros j Hj. unfold l2. rewrite byte_at_written, B1 by (rewrite ?length_insert; lia).
    destruct (Z.leb_spec (512 * (s + 1)) j), (Z.ltb_spec j (512 * (s + 1) + 512)); cbn [andb]; eqb_cases; try done.
    all: change 0%nat with (Z.to_nat 0); rewrite byte_at_insert by lia; eqb_cases; try done.
    unfold b'. rewrite byte_at_sector, B1 by lia. eqb_cases. f_equal. lia.
Qed.

(** An entry that reaches the end of its sector: one byte is written to each
    of two sectors. *)
Lemma writeFAT_split w d c entry Q L :
  fat_ok w d → 2 <= c < clusterCount d → 0 <= entry < entry_limit (fatType d) →
  let o := entry_off (fatType d) c in
  let q := table_base d + o - o mod 512 in
  510 <= o mod 512 →
  (∀ b0 b1 l' w',
     b0 = (match fatType d with
           | FAT12 => if c mod 2 =? 1 then byte_at (disk w d) (q + 511) mod 16 + 16 * (entry mod 16) else entry mod 256
           | _ => entry mod 256 end) →
     b1 = (match fatType d with
           | FAT12 => if c mod 2 =? 1 then entry / 16 else entry / 256 + 16 * (byte_at (disk w d) (q + 512) / 16)
           | _ => entry mod 256 end) →
     length l' = length (disk w d) →
     (∀ j, 0 <= j → byte_at l' j =
        if j =? q + (match fatType d with FAT12 => 511 | _ => 510 end) then b0
        else if j =? q + 512 then b1 else byte_at (disk w d) j) →
     disk_is d l' w w' → Q 0 w') →
  wp (writeFAT d entry c) Q L w.
Proof.
  intros F Hc He o q Hi HQ. pose proof (fat_geo w d F) as G. pose proof (geo_type w d G) as T.
  destruct (entry_sector w d c F) as (M1 & M2 & M3 & M4 & M5); [lia|]. apply writeFAT_start; [done..|].
  intros buf g w1 Lb Fb Rg I1. fold o in M1, M2, M3, M4, M5 |- *. set (s := resd_secs (bpb d) + o / 512) in *.
  assert (T16 : fatType d = FAT16 → o mod 512 = 510) by (intros T'; unfold o, entry_off in *; rewrite T' in *; zdiv).
  pose proof (resd_range w d G). pose proof (same_disk w w1 d I1) as D1.
  assert (G1 : geometry w1 d) by (apply (geometry_mono w); [done|by rewrite D1]). unfold store_entry.
  destruct (Z.leb_spec 512 (o mod 512 + 2)); [|lia]. set (b := with_sector _ _ _).
  assert (Lp : length b = 512%nat) by (unfold b; rewrite with_sector_len; lia).
  assert (Fp : Forall is_byte b) by (apply Forall_sector; [apply image_bytes|done]).
  apply wp_bind, first_part_spec; [done|done|done|lia|done|]. intros b0 i Ei R0 E0.
  assert (Ri : 0 <= i < 512) by (destruct (fatType d); lia). set (bb := <[Z.to_nat i := b0]> b).
  assert (Lbb : length bb = 512%nat) by (unfold bb; by rewrite length_insert).
  assert (Fbb : Forall is_byte bb) by (by apply Forall_insert_byte).
  apply wp_bind, wp_writeSector; [done|lia|rewrite D1; lia|lia|done|]. intros w2 I2. rewrite D1 in I2.
  cbn [Z.ltb Z.compare]. assert (D2 := proj1 I2). pose proof (λ b1, two_sectors (disk w d) s buf bb i b0 b1) as TS.
  cbn zeta in TS. fold b bb in TS. rewrite <- D2 in TS. assert (L2 := proj1 (TS 0 ltac:(lia) M5 Lb Lbb Ri)).
  assert (G2 : geometry w2 d) by (apply (geometry_mono w); [done|lia]).
  apply wp_bind, wp_readSector; [done|lia|lia|lia|]. intros w3 I3. cbn [Z.ltb Z.compare].
  set (b' := with_sector (disk w2 d) (s + 1) bb) in *. pose proof (same_disk w2 w3 d I3) as D3.
  assert (Fp' : Forall is_byte b') by (apply Forall_sector; [apply image_bytes|done]).
  assert (G3 : geometry w3 d) by (apply (geometry_mono w2); [done|by rewrite D3]).
  destruct (TS 0 ltac:(lia) M5 Lb Lbb Ri) as (_ & Lb' & B0 & _).
  apply wp_bind, second_part_spec; [done|exact Lb'|exact Fp'|lia|done|done|]. intros b1 R1 E1.
  destruct (TS b1 ltac:(lia) M5 Lb Lbb Ri) as (_ & _ & _ & L4 & B4).
  apply wp_writeSector; [done|lia|rewrite D3; lia|rewrite length_insert; lia|by apply Forall_insert_byte|].
  intros w4 I4. rewrite D3 in I4. assert (Q0 : 512 * s = q) by (unfold q; lia).
  eapply (HQ b0 b1); [| |exact L4| |]; rewrite <- ?Q0, <- ?Ei; [| |exact B4|].
  - rewrite E0. unfold b. by rewrite byte_at_sector by lia.
  - by rewrite E1, B0.
  - by eapply disk_is_trans; [eapply disk_is_image; [exact I1|exact I2]|eapply disk_is_image].
Qed.

(** ** Searching the table *)

(** [t] holds the first [n] bytes of the table of [d]. *)
Definition table_copy (w : W) (d : FAT_Dev) (t : list Z) (n : Z) : Prop :=
  ∀ j, 0 <= j < n → byte_at t j = byte_at (disk w d) (table_base d + j).

Lemma read_table_spec n d i t Q L w :
  geometry w d → 0 <= i → len t = 512 * (i + Z.of_nat n) → table_copy w d t (512 * i) →
  table_base d + 512 * (i + Z.of_nat n) <= len (disk w d) →
  (∀ t' w', image w' = image w → length t' = length t → table_copy w d t' (512 * (i + Z.of_nat n)) → Q (Some t') w') →
  wp (read_table d n i t) Q L w.
Proof.
  revert i t w. induction n as [|n IH]; intros i t w G Hi Lt Ct Hd HQ; cbn [read_table].
  { apply wp_ret, HQ; [done|done|]. by replace (i + Z.of_nat 0) with i by lia. }
  pose proof (resd_range w d G) as R. pose proof (geo_disk w d G). unfold table_base, FAT_SECTOR_SIZE in *.
  rewrite wrap_small by lia. set (k := Z.to_nat (512 * i)).
  apply wp_bind, wp_readSector; [done|lia|lia|rewrite length_drop; lia|]. intros w1 I1. cbn [Z.ltb Z.compare].
  pose proof (same_disk w w1 d I1) as D1. set (b := with_sector _ _ _).
  assert (Lb : length b = (length t - k)%nat) by (unfold b; rewrite with_sector_len; rewrite ?length_drop; lia).
  assert (Tk : length (take k t) = k) by (rewrite length_take; lia).
  apply IH; [by apply (geometry_mono w); [done|rewrite D1]|lia|rewrite length_app; lia| |rewrite D1; lia|].
  - intros j Hj. rewrite D1. destruct (Z.lt_ge_cases j (512 * i)) as [J|J].
    + rewrite byte_at_app_l, byte_at_take by lia. apply Ct. lia.
    + rewrite byte_at_app_r by lia. unfold b. rewrite byte_at_sector by lia. unfold table_base. f_equal. lia.
  - intros t' w' I' L' C'. apply HQ; [congruence|rewrite L', length_app; lia|].
    replace (i + Z.of_nat (S n)) with (i + 1 + Z.of_nat n) by lia. intros j Hj. rewrite <- D1. by apply C'.
Qed.

(** [v] is the first cluster from [i] on with a free entry, or 1 where the [n]
    clusters have none. *)
Definition first_free (w : W) (d : FAT_Dev) (i n v : Z) : Prop :=
  (i <= v < i + n ∧ fat_entry w d v = 0 ∧ ∀ c, i <= c < v → fat_entry w d c ≠ 0) ∨
  (v = 1 ∧ ∀ c, i <= c < i + n → fat_entry w d c ≠ 0).

Lemma first_free_cons w d i n v :
  0 < n → fat_entry w d i ≠ 0 → first_free w d (i + 1) (n - 1) v → first_free w d i n v.
Proof.
  intros Hn E [(R & Z & B)|(-> & B)]; [left|right]; split_and!; try lia; try done;
    intros c Hc; destruct (decide (c = i)) as [->|]; try done; apply B; lia.
Qed.

Lemma find_free_spec n d i t Q L w :
  fat_ok w d → 2 <= i → i + Z.of_nat n <= Z.max i (clusterCount d) → length t = Z.to_nat (512 * fatSize d) →
  table_copy w d t (512 * fatSize d) →
  (∀ v, first_free w d i (Z.of_nat n) v → Q v w) → wp (find_free d n i t) Q L w.
Proof.
  intros F. revert i. induction n as [|n IH]; intros i Hi Hn Lt Ct HQ; cbn [find_free].
  { apply wp_ret, HQ. right. split; [done|]. lia. }
  assert (Hc : 0 <= i < clusterCount d) by lia. pose proof (entry_off_bound w d i F Hc) as [O1 O2].
  pose proof (fat_count w d F). assert (Bt : ∀ j, 0 <= j < 512 * fatSize d → 0 <= byte_at t j < 256)
    by (intros j Hj; rewrite Ct by done; apply byte_at_range, image_bytes).
  set (e := fat_entry w d i). apply wp_bind.
  assert (wp (match fatType d with
       | FAT12 => let p := u32 (3 * i) / 2 in let* e0 := get_byte t p in let* e1 := get_byte t (1 + p) in
         ret (Some (if i mod 2 =? 1 then Z.lor (Z.shiftr (Z.land e0 0xF0) 4) (Z.shiftl e1 4)
                    else Z.lor e0 (Z.shiftl (Z.land e1 0x0F) 8)))
       | FAT16 => let* e0 := get_byte t (2 * i) in let* e1 := get_byte t (2 * i + 1) in ret (Some (e0 + 256 * e1))
       | _ => ret None end) (λ r w', r = Some e ∧ w' = w) L w) as H1.
  { unfold e. rewrite (fat_entry_value w d i F), <- Z.add_assoc, <- !Ct by lia. unfold entry_value, entry_off in *.
    destruct (geo_type w d (fat_geo w d F)) as [T|T]; rewrite T in *.
    - rewrite wrap_small by lia. pose proof (Bt (3 * i / 2) ltac:(lia)) as B0. apply wp_bind, wp_get_byte; [lia|].
      apply wp_bind, wp_get_byte; [lia|]. apply wp_ret. split; [|done]. rewrite (Z.add_comm 1), byte_land_high by lia.
      rewrite !land_nibble, !Z.shiftr_div_pow2 by lia. replace (16 * (byte_at t (3 * i / 2) / 16) / 2 ^ 4)
        with (byte_at t (3 * i / 2) / 2 ^ 4 mod 16) by zdiv. done.
    - apply wp_bind, wp_get_byte; [lia|]. apply wp_bind, wp_get_byte; [lia|]. by apply wp_ret. }
  eapply wp_mono; [exact H1| |done]. intros r w0 [-> ->]. destruct (Z.eqb_spec e 0) as [E|E].
  - apply wp_ret, HQ. left. split; [lia|]. split; [done|]. lia.
  - apply IH; [lia|lia|done|done|]. intros v Hv. apply HQ, first_free_cons; [lia|done|].
    by replace (Z.of_nat (S n) - 1) with (Z.of_nat n) by lia.
Qed.

(** ** The properties *)

Lemma readFAT_entry_run w d c : fat_ok w d → 2 <= c < clusterCount d → ∃ w', readFAT d c w = Ret (fat_entry w d c) w'.
Proof.
  intros F Hc. destruct (wp_runs (readFAT d c) (fat_entry w d c) (λ _, True) w) as (w' & E & _); [|eauto].
  intros Q L HQ. apply readFAT_entry; auto.
Qed.

(** For a cluster in range, [readFAT] returns the entry of the allocation
    table as the FAT12 and FAT16 formats define it, also where the entry lies in
    two sectors, and changes nothing. *)
Theorem readFAT_spec w d c :
  fat_ok w d → 2 <= c < clusterCount d → ∃ w', readFAT d c w = Ret (fat_entry w d c) w' ∧ image w' = image w.
Proof.
  intros F Hc. apply wp_runs. intros Q L HQ. by apply readFAT_entry.
Qed.

(** C31. [getFreeCluster] returns the first cluster whose entry is zero, and 1 if
    the table has none. *)
Theorem getFreeCluster_spec w d :
  fat_ok w d → 0 <= fatSize d < 2 ^ 23 →
  ∃ v w', getFreeCluster d w = Ret v w' ∧ first_free w d 2 (clusterCount d - 2) v ∧ image w' = image w.
Proof.
  intros F Hs. pose proof (fat_disk w d F) as Hd. pose proof (fat_geo w d F) as G.
  apply wp_ret_inv with (Q := λ v w', first_free w d 2 (clusterCount d - 2) v ∧ image w' = image w).
  unfold getFreeCluster, FAT_SECTOR_SIZE. rewrite wrap_small by lia. apply wp_bind, wp_malloc; [lia|].
  intros buf w1 Lb Fb I1. pose proof (same_disk w w1 d I1) as D1.
  apply wp_bind, read_table_spec; [by apply (geometry_mono w); [|rewrite D1]|lia|lia|intros j Hj; lia|rewrite D1; lia|].
  intros t w2 I2 Lt Ct. assert (D2 : disk w2 d = disk w d) by (apply same_disk; congruence).
  replace (512 * (0 + Z.of_nat (Z.to_nat (fatSize d)))) with (512 * fatSize d) in Ct by lia.
  assert (F2 : fat_ok w2 d) by (destruct F; split; rewrite ?D2; auto; by apply (geometry_mono w); [|rewrite D2]).
  apply find_free_spec; [done|lia|lia|lia|intros j Hj; rewrite D2, <- D1; by apply Ct|].
  intros v Hv. split; [|congruence]. unfold first_free, fat_entry in *. rewrite D2 in Hv.
  destruct Hv as [(R & E & B)|(-> & B)]; [left|right]; split_and!; try lia; try done; intros c Hc; apply B; lia.
Qed.

(** Where [writeFAT] stores an entry without damage: not where the entry ends
    with its sector, and not for an odd cluster of FAT12 within a sector, see
    [writeFAT_sector_end] and [writeFAT_damages_previous]. *)
Definition entry_writable (d : FAT_Dev) (c : Z) : Prop :=
  match fatType d with
  | FAT12 => entry_off FAT12 c mod 512 = 511 ∨ c mod 2 = 0 ∧ entry_off FAT12 c mod 512 < 510
  | t => entry_off t c mod 512 < 510
  end.

Lemma writeFAT_patches w d c entry :
  fat_ok w d → 2 <= c < clusterCount d → 0 <= entry < entry_limit (fatType d) → entry_writable d c →
  ∃ w' l' b0 b1, writeFAT d entry c w = Ret 0 w' ∧ disk_is d l' w w' ∧
    entry_bytes (fatType d) entry c (byte_at (disk w d) (table_base d + entry_off (fatType d) c))
      (byte_at (disk w d) (table_base d + entry_off (fatType d) c + 1)) b0 b1 ∧
    patched (disk w d) (table_base d + entry_off (fatType d) c) b0 b1 l'.
Proof.
  intros F Hc He Hw. set (o := entry_off (fatType d) c).
  assert (H : wp (writeFAT d entry c) (λ v w', v = 0 ∧ ∃ l' b0 b1, disk_is d l' w w' ∧
    entry_bytes (fatType d) entry c (byte_at (disk w d) (table_base d + o))
      (byte_at (disk w d) (table_base d + o + 1)) b0 b1 ∧ patched (disk w d) (table_base d + o) b0 b1 l') (λ _, False) w).
  { destruct (Z.lt_ge_cases (o mod 512) 510) as [I|I].
    - apply writeFAT_inside; [done..|]. intros g b0 b1 l' w' Rg E P D. split; [done|]. exists l', b0, b1. split_and!; try done.
      revert E. unfold entry_bytes, entry_writable in *. destruct (fatType d) eqn:T; try done. fold o in Hw.
      destruct Hw as [?|[Hw _]]; [subst o; lia|]. rewrite Hw. done.
    - apply writeFAT_split; [done..|]. intros b0 b1 l' w' E0 E1 Ll B D. split; [done|]. exists l', b0, b1. split_and!; try done.
      all: unfold entry_writable in Hw; destruct (geo_type w d (fat_geo w d F)) as [T|T]; unfold o in *; rewrite T in *; try lia.
      all: destruct Hw as [Hw|[_ ?]]; [|lia]; rewrite Hw in *.
      + replace (table_base d + entry_off FAT12 c - 511 + 511) with (table_base d + entry_off FAT12 c) in * by lia.
        replace (table_base d + entry_off FAT12 c - 511 + 512) with (table_base d + entry_off FAT12 c + 1) in * by lia.
        unfold entry_bytes. by destruct (c mod 2 =? 1).
      + split; [done|]. intros j Hj. rewrite B by done.
        replace (table_base d + entry_off FAT12 c - 511 + 511) with (table_base d + entry_off FAT12 c) by lia.
        by replace (table_base d + entry_off FAT12 c - 511 + 512) with (table_base d + entry_off FAT12 c + 1) by lia. }
  apply wp_ret_inv in H as (v & w' & E & -> & l' & b0 & b1 & ?). by exists w', l', b0, b1.
Qed.

Lemma fat_ok_written w w' d l : fat_ok w d → disk_is d l w w' → length l = length (disk w d) → fat_ok w' d.
Proof. intros [] [D _] E. split; rewrite ?D, ?E; auto. apply (geometry_mono w); [done|by rewrite D]. Qed.

Lemma table_base_pos w d : geometry w d → 0 <= table_base d.
Proof. intros G. pose proof (resd_range w d G). unfold table_base. lia. Qed.

(** C22. Writing an entry and reading the table: [readFAT] then returns the value
    written for that cluster and the old value for every other one, and nothing
    else of the device has changed.  This is for FAT16 entries that do not end with
    their sector, and for FAT12 entries of even clusters that do not and of any
    cluster that start with the last byte of a sector. *)
Theorem writeFAT_readFAT w d c entry :
  fat_ok w d → 2 <= c < clusterCount d → 0 <= entry < entry_limit (fatType d) → entry_writable d c →
  ∃ w', writeFAT d entry c w = Ret 0 w' ∧
    (∀ c', 2 <= c' < clusterCount d →
       ∃ w'', readFAT d c' w' = Ret (if c' =? c then entry else fat_entry w d c') w'') ∧
    (∀ j, 0 <= j → j ≠ table_base d + entry_off (fatType d) c → j ≠ table_base d + entry_off (fatType d) c + 1 →
       byte_at (disk w' d) j = byte_at (disk w d) j) ∧
    (∀ o m, (o, m) ≠ (owner d, MINOR (deviceNum d)) → image w' o m = image w o m).
Proof.
  intros F Hc He Hw. destruct (writeFAT_patches w d c entry F Hc He Hw) as (w' & l' & b0 & b1 & E & D & EB & P).
  exists w'. pose proof (fat_ok_written w w' d l' F D (proj1 P)) as F'. pose proof (table_base_pos w d (fat_geo w d F)).
  split_and!; [done| | |exact (proj2 D)].
  - intros c' Hc'. destruct (readFAT_entry_run w' d c' F' Hc') as (w'' & E'). exists w''. rewrite E'. f_equal.
    unfold fat_entry. rewrite (proj1 D).
    destruct (entry_patched (fatType d) (disk w d) l' (table_base d) c entry b0 b1) as [A B]; [lia|lia|done|apply image_bytes|done|done|].
    destruct (Z.eqb_spec c' c) as [->|N]; [done|]. apply B; lia.
  - intros j Hj N0 N1. rewrite (proj1 D), (proj2 P) by done. by eqb_cases.
Qed.

(** A FAT16 entry that ends with its sector (cluster 255, 511, ...) is not
    stored as a whole: its upper byte keeps its value, and the lower byte of the
    value overwrites the lower byte of the next entry. *)
Theorem writeFAT_sector_end w d c entry :
  fat_ok w d → fatType d = FAT16 → 2 <= c → c + 1 < clusterCount d → 0 <= entry < 65536 → c mod 256 = 255 →
  ∃ w', writeFAT d entry c w = Ret 0 w' ∧
    fat_entry w' d c = entry mod 256 + 256 * (fat_entry w d c / 256) ∧
    fat_entry w' d (c + 1) = entry mod 256 + 256 * (fat_entry w d (c + 1) / 256).
Proof.
  intros F T Hc Hn He Hm. assert (O : entry_off (fatType d) c mod 512 = 510) by (rewrite T; unfold entry_off; zdiv).
  assert (H : wp (writeFAT d entry c) (λ v w', v = 0 ∧
    fat_entry w' d c = entry mod 256 + 256 * (fat_entry w d c / 256) ∧
    fat_entry w' d (c + 1) = entry mod 256 + 256 * (fat_entry w d (c + 1) / 256)) (λ _, False) w).
  { apply writeFAT_split; [done|lia|by rewrite T|lia|]. intros b0 b1 l' w' -> -> Ll B D. split; [done|].
    unfold fat_entry. rewrite (proj1 D). rewrite O, T in *. unfold entry_at, entry_off, word_at in *.
    pose proof (table_base_pos w d (fat_geo w d F)). pose proof (λ j, byte_at_range (disk w d) j (image_bytes w _ _)) as R.
    assert (R0 := R (table_base d + 2 * c)). assert (R2 := R (table_base d + 2 * (c + 1))).
    rewrite !B by lia. split; eqb_cases; zdiv. }
  apply wp_ret_inv in H as (v & w' & E & -> & ?). by exists w'.
Qed.

(** The FAT12 entry of an odd cluster within a sector is stored as a whole, but the
    upper four bits of the entry of the cluster before it, which are in the same
    byte, are replaced by those of a byte that was never assigned. *)
Theorem writeFAT_damages_previous w d c entry :
  fat_ok w d → fatType d = FAT12 → 2 < c < clusterCount d → 0 <= entry < 4096 → c mod 2 = 1 → entry_off FAT12 c mod 512 < 510 →
  ∃ w' g, writeFAT d entry c w = Ret 0 w' ∧ 0 <= g < 256 ∧ fat_entry w' d c = entry ∧
    fat_entry w' d (c - 1) = fat_entry w d (c - 1) mod 256 + 256 * (g mod 16).
Proof.
  intros F T Hc He Hm Hi. assert (H : wp (writeFAT d entry c) (λ v w', v = 0 ∧ ∃ g, 0 <= g < 256 ∧ fat_entry w' d c = entry ∧
    fat_entry w' d (c - 1) = fat_entry w d (c - 1) mod 256 + 256 * (g mod 16)) (λ _, False) w).
  { apply writeFAT_inside; [done|lia|by rewrite T|by rewrite T|]. intros g b0 b1 l' w' Rg E [_ P] D. split; [done|]. exists g. split; [done|].
    unfold fat_entry. rewrite (proj1 D). rewrite T in *. unfold entry_at, entry_off, word_at, entry_bytes in *.
    pose proof (table_base_pos w d (fat_geo w d F)). rewrite Hm in *. cbn [Z.eqb Pos.eqb] in E |- *. destruct E as [-> ->].
    assert (M : (c - 1) mod 2 = 0) by zdiv. assert (O : 3 * c / 2 = 3 * (c - 1) / 2 + 1) by zdiv. rewrite M. cbn [Z.eqb].
    pose proof (byte_at_range (disk w d) (table_base d + 3 * (c - 1) / 2) (image_bytes w _ _)) as R.
    assert (0 <= 3 * (c - 1) / 2) by zdiv. rewrite !P by lia. split; eqb_cases; zdiv. }
  apply wp_ret_inv in H as (v & w' & E & -> & g & ?). by exists w', g.
Qed.

(** C37. The values [readFAT] returns fit the width of an entry, so that
    [getClusterType] gives each of them a type. *)
Theorem readFAT_type w d c v w' :
  fat_ok w d → 2 <= c < clusterCount d → readFAT d c w = Ret v w' →
  0 <= v < entry_limit (fatType d) ∧ getClusterType v (fatType d) ≠ INVALID_CLUSTER.
Proof.
  intros F Hc E. assert (X : wp (readFAT d c) (λ v _, v = fat_entry w d c) (λ _, False) w) by (apply readFAT_entry; auto).
  unfold wp in X. rewrite E in X. subst v. unfold fat_entry, entry_at.
  pose proof (λ j, word_at_range (disk w d) j (image_bytes w _ _)) as R.
  assert (B : 0 <= entry_at (fatType d) (disk w d) (table_base d) c < entry_limit (fatType d)).
  { unfold entry_at, entry_limit. destruct (fatType d); try apply R.
    specialize (R (table_base d + 3 * c / 2)). destruct (c mod 2 =? 1); zdiv. }
  split; [exact B|]. unfold entry_at in B. destruct (geo_type w d (fat_geo w d F)) as [T|T]; rewrite T in *;
    unfold getClusterType; match goal with |- context [?x =? 0] => generalize dependent x end; intros x Hx; cbn in Hx;
    repeat match goal with |- context [if ?b then _ else _] => destruct b eqn:? end; try done; exfalso; lia.
Qed.
End table.
