(* ===== verification/FatNames.v ===== *)
(** * FAT file system: 8.3 names

    The name of a directory entry is the base, padded with spaces to eight
    characters, and the extension, padded to three, in upper case.
    [generate8_3Name] produces it from a name with a dot, refuses characters
    the format excludes in the base, and runs past the end of its array where
    the extension is longer than three characters. *)

From S2P Require Import Prelude Numbers Fat FatLib FatSpec.

(** ** Characters *)

Lemma skip_to_app c s s' : c ∉ s → skip_to c (s ++ s') = skip_to c s'.
Proof.
  induction s as [|b s IH]; intros N; cbn; [done|]. rewrite not_elem_of_cons in N.
  destruct (Z.eqb_spec b c) as [->|]; [tauto|]. apply IH. tauto.
Qed.

Lemma skip_to_nil c s : c ∉ s → skip_to c s = [].
Proof. intros. rewrite <- (app_nil_r s), skip_to_app by done. done. Qed.

(** [checkFAT_Char] refuses exactly the characters of its list, although its
    loop stops behind the character that matches. *)
Theorem checkFAT_Char_spec c : checkFAT_Char c = if bool_decide (c ∈ badChars) then -1 else 0.
Proof.
  unfold checkFAT_Char. destruct (bool_decide_reflect (c ∈ badChars)) as [B|B].
  - unfold badChars in B. rewrite !elem_of_cons in B. by destruct_or! B; try subst c; [..|apply not_elem_of_nil in B].
  - rewrite skip_to_nil by done. destruct (Z.eqb_spec c 124) as [->|]; [|done]. destruct B. unfold badChars. set_solver.
Qed.

Lemma checkFAT_Char_neg c : (checkFAT_Char c <? 0) = bool_decide (c ∈ badChars).
Proof.
  unfold checkFAT_Char. destruct (bool_decide_reflect (c ∈ badChars)) as [B|B].
  - unfold badChars in B. rewrite !elem_of_cons in B. by destruct_or! B; try subst c; [..|apply not_elem_of_nil in B].
  - rewrite skip_to_nil by done. destruct (Z.eqb_spec c 124) as [->|]; [|done]. destruct B. unfold badChars. set_solver.
Qed.

(** ** Names *)

Definition pad (n : nat) (l : list Z) : list Z := l ++ replicate (n - length l) 32.
Definition upper (c : Z) : Z := if islower c then toupper c else c.

(** The eleven characters of a base and an extension. *)
Definition name_of (base ext : list Z) : list Z := map upper (pad 8 base ++ pad 3 ext).

(** A base: no dot, and no character the format excludes. *)
Definition is_base (base : list Z) : Prop := Forall (λ c, c ∉ badChars) base.

Lemma dot_bad : 46 ∈ badChars.
Proof. unfold badChars. set_solver. Qed.

Lemma dot_index_base base rest i :
  is_base base → dot_index (base ++ rest) i = dot_index rest (i + len base).
Proof.
  revert i. induction base as [|c base IH]; intros i F; cbn [app dot_index length].
  { f_equal. lia. }
  inversion F as [|? ? N F']; subst. destruct (Z.eqb_spec c 46) as [->|]; [destruct (N dot_bad)|].
  rewrite checkFAT_Char_neg, bool_decide_eq_false_2 by done. rewrite IH by done. f_equal. lia.
Qed.

Lemma splice_pad base : (length base <= 8)%nat → splice (replicate 11 32) 0 base = pad 8 base ++ replicate 3 32.
Proof.
  intros Hb. unfold splice, pad. change (Z.to_nat 0) with 0%nat. rewrite take_0, app_nil_l, drop_replicate, <- app_assoc.
  rewrite <- replicate_add. do 2 f_equal. lia.
Qed.

Lemma splice_ext base ext :
  (length base <= 8)%nat → (length ext <= 3)%nat →
  splice (pad 8 base ++ replicate 3 32) 8 ext = pad 8 base ++ pad 3 ext.
Proof.
  intros Hb He. unfold splice. assert (L : length (pad 8 base) = 8%nat) by (unfold pad; rewrite length_app, length_replicate; lia).
  change (Z.to_nat 8) with 8%nat. rewrite take_app_le, take_ge by lia. f_equal.
  rewrite drop_app_ge, L, drop_replicate by lia. unfold pad. do 2 f_equal. lia.
Qed.

Section names.
Context {W : Type} {WI : World W}.

(** Names that are neither ["."] nor two characters long with a leading dot. *)
Definition plain (name : list Z) : Prop := name ≠ [46] ∧ (length name = 2%nat → head name ≠ Some 46) ∧ head name ≠ Some 0 ∧ name ≠ [].

Lemma raw_plain name :
  plain name →
  generate8_3Name (W := W) name =
  bind (match dot_index name 0 with
        | None => ret None
        | Some dotIndex =>
          if 8 <? dotIndex then ret None
          else
            let* filename := copy_in (replicate 11 32) 0 (slice name 0 dotIndex) in
            if dotIndex =? len name then ret (Some filename)
            else
              let* filename := copy_in filename 8 (slice name (dotIndex + 1) (len name - dotIndex - 1)) in
              ret (Some filename)
        end) (λ f, ret (map upper <$> f)).
Proof.
  intros (N1 & N2 & N0 & NE). unfold generate8_3Name, raw_8_3.
  assert ((len name =? 0) || (byte_at name 0 =? 0) = false ∧ (len name =? 1) && (byte_at name 0 =? 46) = false ∧
          (len name =? 2) && (byte_at name 0 =? 46) = false) as (-> & -> & ->); [|done].
  destruct name as [|c0 rest]; [done|]. assert (byte_at (c0 :: rest) 0 = c0) as -> by done. cbn [head] in N0, N2.
  split_and!.
  - apply orb_false_intro; apply Z.eqb_neq; [cbn [length]; lia|congruence].
  - destruct rest; [apply andb_false_intro2|apply andb_false_intro1]; apply Z.eqb_neq; [congruence|cbn [length]; lia].
  - destruct rest as [|c1 [|c2 rest]]; [apply andb_false_intro1|apply andb_false_intro2|apply andb_false_intro1];
      apply Z.eqb_neq; [cbn [length]; lia|specialize (N2 eq_refl); congruence|cbn [length]; lia].
Qed.

Lemma generate8_3Name_base name (w : W) :
  plain name → is_base name → (length name <= 8)%nat → generate8_3Name name w = Ret (Some (name_of name [])) w.
Proof.
  intros P B L. rewrite (raw_plain name P), <- (app_nil_r name), dot_index_base by done. cbn [dot_index].
  rewrite app_nil_r. destruct (Z.ltb_spec 8 (0 + len name)); [lia|].
  assert (slice name 0 (0 + len name) = name) as -> by (unfold slice; rewrite drop_0, take_ge by lia; done).
  unfold copy_in. destruct (Z.ltb_spec (len (replicate 11 32)) (0 + len name)); [cbn in *; lia|].
  destruct (Z.eqb_spec (0 + len name) (len name)); [|lia]. cbn. by rewrite splice_pad by done.
Qed.

(** The name with a dot: an extension of up to three characters is stored, a
    longer one is written past the end of the array. *)
Lemma generate8_3Name_dot base ext (w : W) :
  plain (base ++ 46 :: ext) → is_base base → (length base <= 8)%nat →
  generate8_3Name (base ++ 46 :: ext) w =
  if decide (length ext <= 3)%nat then Ret (Some (name_of base ext)) w else Fault OutOfBounds.
Proof.
  intros P B L. rewrite (raw_plain _ P), dot_index_base by done. cbn [dot_index]. rewrite (proj2 (Z.eqb_eq 46 46)) by done.
  destruct (Z.ltb_spec 8 (0 + len base)); [lia|].
  assert (slice (base ++ 46 :: ext) 0 (0 + len base) = base) as ->
    by (unfold slice; rewrite drop_0, take_app_length' by lia; done).
  assert (slice (base ++ 46 :: ext) (0 + len base + 1) (len (base ++ 46 :: ext) - (0 + len base) - 1) = ext) as ->.
  { unfold slice. rewrite length_app. cbn [length]. rewrite (cons_middle 46), app_assoc, drop_app_length' by (rewrite length_app; cbn; lia).
    by rewrite take_ge by lia. }
  unfold copy_in. destruct (Z.ltb_spec (len (replicate 11 32)) (0 + len base)); [cbn in *; lia|].
  destruct (Z.eqb_spec (0 + len base) (len (base ++ 46 :: ext))) as [E|_]; [rewrite length_app in E; cbn in E; lia|].
  cbn [orb Z.ltb Z.compare]. unfold bind at 1 2, ret at 1. rewrite splice_pad by done.
  assert (length (pad 8 base ++ replicate 3 32) = 11%nat) as LP
    by (unfold pad; rewrite !length_app, !length_replicate; lia).
  destruct (decide (length ext <= 3)%nat); destruct (Z.ltb_spec (len (pad 8 base ++ replicate 3 32)) (8 + len ext)); try lia.
  - cbn. by rewrite splice_ext by done.
  - done.
Qed.

(** C36. [generate8_3Name] turns a name [base.ext] with a base of up to eight
    allowed characters into the padded upper-case form of eleven characters, and
    writes past its local array exactly where the extension has more than three. *)
Theorem generate8_3Name_bounds base ext (w : W) :
  plain (base ++ 46 :: ext) → is_base base → (length base <= 8)%nat →
  ((length ext <= 3)%nat →
     generate8_3Name (base ++ 46 :: ext) w = Ret (Some (name_of base ext)) w ∧ length (name_of base ext) = 11%nat) ∧
  ((3 < length ext)%nat → generate8_3Name (base ++ 46 :: ext) w = Fault OutOfBounds).
Proof.
  intros P B L. rewrite generate8_3Name_dot by done. split; intros; case_decide; try lia; [|done]. split; [done|].
  unfold name_of, pad. rewrite length_map, !length_app, !length_replicate. lia.
Qed.
End names.
