(* ===== verification/FatDir.v ===== *)
(** * FAT file system: cluster chains and the search for a path

    A file or directory is the chain of clusters its entry starts, a directory
    the sequence of its entries up to the first that is not used.
    [getFAT_DirEntry] follows a path from the root directory through the
    directories its names lead to. *)

From S2P Require Import Prelude Numbers Fat FatLib FatSpec FatNames.

(** ** Directories as sequences of entries *)

(** What a look through some entries of a directory gives. *)
Inductive look := Found (e : list Z) | Stop | Nothing.

(** The entries [i], ..., [i + n - 1] of the directory with the bytes [D]. *)
Fixpoint look_in (n : nat) (i : Z) (D fname : list Z) : look :=
  match n with
  | O => Nothing
  | S n =>
    let e := slice D (DIRENT_SIZE * i) DIRENT_SIZE in
    if byte_at e 0 =? 0 then Stop
    else if skipped e then look_in n (i + 1) D fname
    else if strneq 11 (filename (unescape e)) fname then Found (unescape e)
    else look_in n (i + 1) D fname
  end.

Lemma look_in_app a b i D fname :
  look_in (a + b) i D fname =
  match look_in a i D fname with Nothing => look_in b (i + Z.of_nat a) D fname | r => r end.
Proof.
  revert i. induction a as [|a IH]; intros i; cbn [look_in plus].
  { f_equal. lia. }
  cbv zeta. rewrite IH. replace (i + 1 + Z.of_nat a) with (i + Z.of_nat (S a)) by lia. repeat case_match; done.
Qed.

(** A look through a part of a directory. *)
Lemma look_in_part n i k D D' fname :
  0 <= i → 0 <= k → (∀ j, i <= j < i + Z.of_nat n → slice D' (32 * j) 32 = slice D (32 * (k + j)) 32) →
  look_in n i D' fname = look_in n (k + i) D fname.
Proof.
  intros Hi Hk. revert i Hi. induction n as [|n IH]; intros i Hi E; cbn [look_in]; [done|]. unfold DIRENT_SIZE.
  rewrite E by lia. rewrite IH by (try lia; intros j Hj; apply E; lia).
  by replace (k + (i + 1)) with (k + i + 1) by lia.
Qed.

Section dir.
Context {W : Type} {WI : World W} {SI : Storage W}.

(** ** Clusters *)

Definition spc (d : FAT_Dev) : Z := secs_per_clus (bpb d).
Definition clus_len (d : FAT_Dev) : Z := 512 * spc d.
Definition clus_pos (d : FAT_Dev) (c : Z) : Z := 512 * firstDataSec d + clus_len d * (c - 2).
Definition cluster_bytes (w : W) (d : FAT_Dev) (c : Z) : list Z := slice (disk w d) (clus_pos d c) (clus_len d).

(** The volume: its table, clusters of at least a sector, data after the start. *)
Record volume (w : W) (d : FAT_Dev) : Prop := {
  vol_fat : fat_ok w d;
  vol_spc : 0 < spc d;
  vol_data : 0 <= firstDataSec d;
}.

(** Cluster [c] is in use and lies on the device. *)
Definition stored (w : W) (d : FAT_Dev) (c : Z) : Prop :=
  2 <= c < clusterCount d ∧ getClusterType c (fatType d) = USED_CLUSTER ∧ clus_pos d c + clus_len d <= len (disk w d).

(** The clusters from [c] on, as the table links them. *)
Fixpoint chain (w : W) (d : FAT_Dev) (c : Z) (cs : list Z) : Prop :=
  match cs with
  | [] => getClusterType c (fatType d) ≠ USED_CLUSTER
  | x :: cs => x = c ∧ stored w d c ∧ chain w d (fat_entry w d c) cs
  end.

(** Their contents. *)
Fixpoint contents (w : W) (d : FAT_Dev) (cs : list Z) : list Z :=
  match cs with [] => [] | c :: cs => cluster_bytes w d c ++ contents w d cs end.

Lemma spc_range w d : geometry w d → 0 <= spc d < 256.
Proof. intros [_ B _ _ _]. by apply byte_at_range. Qed.

Lemma cluster_bytes_len w d c : volume w d → stored w d c → len (cluster_bytes w d c) = clus_len d.
Proof.
  intros V (R & _ & E). unfold cluster_bytes, clus_pos, clus_len in *. pose proof (vol_spc w d V). pose proof (vol_data w d V).
  apply slice_length; nia.
Qed.

Lemma contents_len w d c cs : volume w d → chain w d c cs → len (contents w d cs) = clus_len d * len cs.
Proof.
  intros V. revert c. induction cs as [|x cs IH]; intros c H; cbn [contents length chain] in *; [lia|].
  destruct H as (-> & S & H). rewrite length_app, Nat2Z.inj_add, (cluster_bytes_len w d c V S), (IH _ H). lia.
Qed.

(** The chain of a cluster is determined by the table. *)
Lemma cluster_chain_unique w d c cs cs' : chain w d c cs → chain w d c cs' → cs = cs'.
Proof.
  revert c cs'. induction cs as [|x cs IH]; intros c [|y cs']; cbn; try done.
  - intros N (_ & (_ & U & _) & _). done.
  - intros (_ & (_ & U & _) & _) N. done.
  - intros (-> & _ & H) (-> & _ & H'). by rewrite (IH _ _ H H').
Qed.

Lemma readable_used c t : getClusterType c t = USED_CLUSTER → readable_cluster c t = true.
Proof. unfold readable_cluster. by intros ->. Qed.

Lemma wp_readCluster d c buf Q L w :
  volume w d → stored w d c → len buf = clus_len d →
  (∀ w', image w' = image w → Q (0, cluster_bytes w d c) w') → wp (readCluster d c buf) Q L w.
Proof.
  intros V (R & U & E) Lb HQ. pose proof (fat_geo w d (vol_fat w d V)) as G. pose proof (vol_spc w d V). pose proof (vol_data w d V).
  pose proof (spc_range w d G) as SR. destruct (blocks_per_sector w d G) as (k & K & Kr & Kq).
  pose proof (fat_count w d (vol_fat w d V)). destruct G as [T _ S (P & B & _) D].
  unfold readCluster. rewrite readable_used by done. cbn [negb]. rewrite S. unfold cdiv. fold (spc d).
  destruct (Z.eqb_spec (blockLen d) 0) as [?|_]; [lia|]. wp_steps. rewrite Kq. unfold read_into, clus_pos, clus_len in *.
  rewrite (wrap_small 32 (512 * spc d)), (wrap_small 32 (k * spc d)), (wrap_small 32 (c - 2)) by nia.
  rewrite (wrap_small 32 ((firstDataSec d + _) * k)) by nia.
  destruct (Z.ltb_spec (len buf) (512 * spc d)) as [?|_]; [lia|]. wp_steps.
  set (s := (firstDataSec d + (c - 2) * spc d) * k).
  assert (Es : s * blockLen d = 512 * firstDataSec d + 512 * spc d * (c - 2)) by (unfold s; nia).
  destruct (read_ok (owner d) (MINOR (deviceNum d)) s (k * spc d) (512 * spc d) buf w) as (r & w' & E' & Rr & I);
    [unfold s; nia|nia|rewrite <- B; nia|rewrite <- B, Es; fold (disk w d); lia|lia|].
  unfold wp. rewrite E'. unfold ret. destruct (Z.eqb_spec r (-1)) as [?|_]; [lia|].
  rewrite <- B, Es, drop_ge, app_nil_r by lia. by apply HQ.
Qed.

Lemma volume_mono w w' d : volume w d → image w' = image w → volume w' d.
Proof.
  intros [[G] ? ?] I. pose proof (same_disk w w' d I) as D. split; [|done|done].
  split; rewrite ?D; auto. apply (geometry_mono w); [done|by rewrite D].
Qed.

Lemma stored_mono w w' d c : image w' = image w → stored w d c → stored w' d c.
Proof. intros I. unfold stored. by rewrite (same_disk w w' d I). Qed.

Lemma fat_entry_mono w w' d c : image w' = image w → fat_entry w' d c = fat_entry w d c.
Proof. intros I. unfold fat_entry. by rewrite (same_disk w w' d I). Qed.

Lemma cluster_bytes_mono w w' d c : image w' = image w → cluster_bytes w' d c = cluster_bytes w d c.
Proof. intros I. unfold cluster_bytes. by rewrite (same_disk w w' d I). Qed.

Lemma chain_mono w w' d c cs : image w' = image w → chain w d c cs → chain w' d c cs.
Proof.
  intros I. revert c. induction cs as [|x cs IH]; intros c; cbn; [done|]. intros (-> & S & H).
  split_and!; [done|by apply (stored_mono w)|]. rewrite (fat_entry_mono w w' d c I). by apply IH.
Qed.

Lemma contents_mono w w' d cs : image w' = image w → contents w' d cs = contents w d cs.
Proof. intros I. induction cs as [|c cs IH]; cbn; [done|]. by rewrite IH, (cluster_bytes_mono w w' d c I). Qed.

Lemma wp_readFAT d c Q L w :
  volume w d → stored w d c → (∀ w', image w' = image w → Q (fat_entry w d c) w') → wp (readFAT d c) Q L w.
Proof. intros V (R & _) HQ. apply readFAT_entry; [by apply vol_fat|done|done]. Qed.

(** ** The loop over the entries of a buffer *)

(** How many of [n] entries the loop looks at: in the root directory not more
    than are left. *)
Definition looked (inRoot : bool) (n : nat) (ents : Z) : nat := if inRoot then n `min` Z.to_nat ents else n.

Definition scan_says (n : nat) (i ents : Z) (inRoot : bool) (fname buf : list Z) (r : scan_result) : Prop :=
  let m := looked inRoot n ents in
  match look_in m i buf fname with
  | Found e => ∃ j ents', r = Matched j ents' e ∧ i <= j < i + Z.of_nat n
  | Stop => ∃ j, r = EndMarker j ∧ i <= j < i + Z.of_nat n
  | Nothing => r = NotHere (i + Z.of_nat m) (if inRoot then ents - Z.of_nat m else ents)
  end.

Lemma scan_says_skip n i ents inRoot fname buf r e' :
  (inRoot = true → 0 < ents) → e' = slice buf (32 * i) 32 → byte_at e' 0 ≠ 0 →
  (skipped e' = true ∨ strneq 11 (filename (unescape e')) fname = false) →
  scan_says n (i + 1) (if inRoot then ents - 1 else ents) inRoot fname buf r → scan_says (S n) i ents inRoot fname buf r.
Proof.
  intros He E N0 Hs. unfold scan_says, DIRENT_SIZE.
  assert (looked inRoot (S n) ents = S (looked inRoot n (if inRoot then ents - 1 else ents))) as ->.
  { unfold looked. destruct inRoot; [|done]. specialize (He eq_refl). lia. }
  cbn [look_in]. unfold DIRENT_SIZE. rewrite <- E. destruct (Z.eqb_spec (byte_at e' 0) 0); [done|].
  assert ((if skipped e' then look_in (looked inRoot n (if inRoot then ents - 1 else ents)) (i + 1) buf fname
           else if strneq 11 (filename (unescape e')) fname then Found (unescape e')
           else look_in (looked inRoot n (if inRoot then ents - 1 else ents)) (i + 1) buf fname) =
          look_in (looked inRoot n (if inRoot then ents - 1 else ents)) (i + 1) buf fname) as ->
    by (destruct Hs as [-> | ->]; [done|by destruct (skipped e')]).
  destruct (look_in _ _ _ _).
  - intros (j & ents' & -> & ?). exists j, ents'. split; [done|lia].
  - intros (j & -> & ?). exists j. split; [done|lia].
  - intros ->. f_equal; [lia|]. destruct inRoot; lia.
Qed.

Lemma looked_S inRoot n ents : (inRoot = true → 0 < ents) → ∃ m, looked inRoot (S n) ents = S m.
Proof.
  unfold looked. destruct inRoot; [|by eexists]. intros H. specialize (H eq_refl).
  exists (n `min` (Z.to_nat ents - 1))%nat. lia.
Qed.

Lemma scan_entries_spec n i ents inRoot fname buf Q L (w : W) :
  0 <= i → (inRoot = true → 0 <= ents) → 32 * (i + Z.of_nat n) <= len buf →
  (∀ r, scan_says n i ents inRoot fname buf r → Q r w) → wp (scan_entries n i ents inRoot fname buf) Q L w.
Proof.
  revert i ents. induction n as [|n IH]; intros i ents Hi He Hl HQ; cbn [scan_entries].
  { apply wp_ret, HQ. unfold scan_says. assert (looked inRoot 0 ents = 0%nat) as -> by (by destruct inRoot). cbn [look_in].
    f_equal; [lia|]. destruct inRoot; lia. }
  destruct (inRoot && (ents =? 0)) eqn:Z0.
  { apply andb_true_iff in Z0 as [-> E%Z.eqb_eq]. apply wp_ret, HQ. unfold scan_says. subst ents.
    assert (looked true (S n) 0 = 0%nat) as -> by done. cbn [look_in]. f_equal; lia. }
  unfold DIRENT_SIZE at 1 2. apply wp_bind, wp_copy_out; [lia|lia|]. set (e := slice _ _ _).
  assert (HE : inRoot = true → 0 < ents) by (intros ->; cbn in Z0; apply Z.eqb_neq in Z0; lia).
  destruct (Z.eqb_spec (byte_at e 0) 0) as [E0|E0]; [|destruct (skipped e) eqn:Sk; [|destruct (strneq _ _ _) eqn:St]].
  - apply wp_ret, HQ. unfold scan_says. destruct (looked_S inRoot n ents HE) as [m ->].
    cbn [look_in]. unfold DIRENT_SIZE. fold e. rewrite E0. exists i. split; [done|lia].
  - apply IH; [lia|intros E; specialize (HE E); rewrite E; lia|lia|]. intros r Hr. apply HQ. eapply scan_says_skip; eauto.
  - apply wp_ret, HQ. unfold scan_says. destruct (looked_S inRoot n ents HE) as [m ->].
    cbn [look_in]. unfold DIRENT_SIZE. fold e. destruct (Z.eqb_spec (byte_at e 0) 0); [done|]. rewrite Sk, St.
    eexists _, _. split; [done|lia].
  - apply IH; [lia|intros E; specialize (HE E); rewrite E; lia|lia|]. intros r Hr. apply HQ. eapply scan_says_skip; eauto.
Qed.

(** ** The search in one directory *)

Lemma slice_drop l n i m : 0 <= n → 0 <= i → slice (drop (Z.to_nat n) l) i m = slice l (n + i) m.
Proof. intros. unfold slice. rewrite drop_drop. do 2 f_equal. lia. Qed.

Lemma slice_sector l s buf j :
  0 <= s → 512 * s + 512 <= len l → 0 <= j < 16 → slice (with_sector l s buf) (32 * j) 32 = slice l (512 * s + 32 * j) 32.
Proof.
  intros Hs Hl Hj. unfold with_sector, slice. pose proof (slice_length l (512 * s) 512) as L. unfold slice in L.
  rewrite drop_app_le, take_app_le by (rewrite ?length_drop; lia). rewrite skipn_firstn_comm, take_take, drop_drop.
  f_equal; [lia|]. f_equal. lia.
Qed.

(** The entries of the root directory. *)
Definition root_look (w : W) (d : FAT_Dev) (fname : list Z) : look :=
  look_in (Z.to_nat (root_ents (bpb d))) 0 (drop (Z.to_nat (512 * root_start d)) (disk w d)) fname.

(** The entries of the directory in the clusters [cs]. *)
Definition dir_look (w : W) (d : FAT_Dev) (cs : list Z) (fname : list Z) : look :=
  look_in (Z.to_nat (16 * spc d * len cs)) 0 (contents w d cs) fname.

(** The root directory lies on the device. *)
Definition root_stored (w : W) (d : FAT_Dev) : Prop :=
  512 * root_start d + 32 * root_ents (bpb d) + 512 <= len (disk w d).

(** The part of the loop after an entry has matched. *)
Definition after_match (fuel : nat) (d : FAT_Dev) (path : list (list Z)) (da i ents : Z) (e : list Z) (s : search)
    (buf : list Z) : M W (option (list Z)) :=
  let* next := descend d path da ents e s in
  match next with
  | None => ret (Some e)
  | Some s => let* s := next_piece d i s in search_loop fuel d path da s buf
  end.

(** What a search from [s] with [N] pieces to look at comes down to. *)
Definition search_goal (d : FAT_Dev) (path : list (list Z)) (da : Z) (s : search) (fuel N : nat) (r : look)
    (Q : option (list Z) → W → Prop) (L : W → Prop) (w : W) : Prop :=
  match r with
  | Found e =>
    ∀ j ents s' buf' fuel' w', image w' = image w → 0 <= j < 16 * spc d → pathLevel s' = pathLevel s →
      len buf' = clus_len d → (fuel <= fuel' + N)%nat → wp (after_match fuel' d path da j ents e s' buf') Q L w'
  | _ => ∀ w', image w' = image w → Q None w'
  end.

Lemma search_goal_next d path da s s1 fuel N r Q L w w1 :
  image w1 = image w → pathLevel s1 = pathLevel s →
  search_goal d path da s (S fuel) (S N) r Q L w → search_goal d path da s1 fuel N r Q L w1.
Proof.
  intros I P HG. destruct r; cbn in *; [|intros; apply HG; congruence..].
  intros j ents s' buf' fuel' w' I' Hj Hp Hb Hf. apply HG; [congruence|done|congruence|done|lia].
Qed.

Lemma root_start_range w d : geometry w d → 0 <= root_start d < 2 ^ 24 ∧ 0 <= root_ents (bpb d) < 65536.
Proof.
  intros G. pose proof (resd_range w d G). destruct G as [_ B _ _ _]. pose proof (word_at_range (bpb d) 22 B).
  pose proof (word_at_range (bpb d) 17 B). pose proof (byte_at_range (bpb d) 16 B).
  unfold root_start, secs_per_fat, fat_copies, root_ents. split; [nia|done].
Qed.

(** A search that is at the end of its directory. *)
Lemma search_ended fuel d path da s buf Q L (w : W) :
  (if inRootDir s then rootEnts s = 0 else getClusterType (cluster s) (fatType d) ≠ USED_CLUSTER) →
  Q None w → wp (search_loop (S fuel) d path da s buf) Q L w.
Proof.
  intros E HQ. cbn [search_loop]. unfold load_piece. destruct (inRootDir s).
  - rewrite E. done.
  - rewrite bool_decide_eq_false_2 by done. done.
Qed.

Lemma next_piece_stay d j s Q L (w : W) :
  (inRootDir s = false → j ≠ dirSize s / 32) → Q s w → wp (next_piece d j s) Q L w.
Proof.
  intros N HQ. unfold next_piece, DIRENT_SIZE. destruct (inRootDir s); [done|]. cbn [negb andb].
  destruct (Z.eqb_spec j (dirSize s / 32)); [destruct (N eq_refl); done|done].
Qed.

Lemma search_root N k s buf fuel d path da Q L w :
  volume w d → root_stored w d → inRootDir s = true → 0 <= k → rootEnts s = Z.max 0 (root_ents (bpb d) - 16 * k) →
  startSector s = root_start d + k → dirSize s = 512 → len buf = clus_len d → rootEnts s <= 16 * Z.of_nat N →
  (N + 2 <= fuel)%nat →
  search_goal d path da s fuel (N + 2)
    (look_in (Z.to_nat (rootEnts s)) (16 * k) (drop (Z.to_nat (512 * root_start d)) (disk w d)) (fileName s)) Q L w →
  wp (search_loop fuel d path da s buf) Q L w.
Proof.
  revert k s buf fuel w. induction N as [|N IH]; intros k s buf [|fuel] w V RS Hin Hk He Hsec Hdir Hb HN Hf HG; try lia.
  { apply search_ended; [rewrite Hin; lia|]. replace (rootEnts s) with 0 in HG by lia. by apply HG. }
  destruct (Z.eq_dec (rootEnts s) 0) as [Z0|NZ].
  { apply search_ended; [by rewrite Hin|]. rewrite Z0 in HG. by apply HG. }
  pose proof (fat_geo w d (vol_fat w d V)) as G. destruct (root_start_range w d G) as [R1 R2].
  pose proof (vol_spc w d V). pose proof (geo_disk w d G). unfold root_stored, clus_len in *.
  cbn [search_loop]. unfold load_piece at 1. rewrite Hin. destruct (Z.eqb_spec (rootEnts s) 0) as [|_]; [done|].
  rewrite Hsec, wrap_small by lia. apply wp_bind, wp_bind, wp_readSector; [done|lia|lia|lia|]. intros w1 I1.
  apply wp_ret. cbn [Z.eqb]. set (b := with_sector _ _ _). assert (Lb : length b = length buf) by (apply with_sector_len; lia).
  unfold past_sector. rewrite Hin. cbn [dirSize rootEnts inRootDir fileName]. rewrite Hdir. change (512 / DIRENT_SIZE) with 16.
  apply wp_bind, scan_entries_spec; [lia|lia|lia|]. intros r Hr. unfold scan_says in Hr. cbn [looked] in Hr.
  set (m := (Z.to_nat 16 `min` Z.to_nat (rootEnts s))%nat) in *.
  rewrite (look_in_part m 0 (16 * k) (drop (Z.to_nat (512 * root_start d)) (disk w d))) in Hr; [|lia|lia|].
  2:{ intros j Hj. unfold b. rewrite slice_sector, slice_drop by lia. f_equal. lia. }
  replace (Z.to_nat (rootEnts s)) with (m + (Z.to_nat (rootEnts s) - m))%nat in HG by lia. rewrite look_in_app in HG.
  replace (16 * k + 0) with (16 * k) in Hr by lia. destruct (look_in m (16 * k) _ _) as [e| |].
  - destruct Hr as (j & ents' & -> & Hj). fold (after_match fuel d path da j ents' e
      {| inRootDir := true; rootEnts := rootEnts s; startSector := startSector s + 1; cluster := cluster s; dirSize := 512;
         pathLevel := pathLevel s; fileName := fileName s |} b).
    apply HG; [done|nia|done|unfold clus_len; lia|lia].
  - destruct Hr as (j & -> & Hj). apply wp_bind, next_piece_stay; [done|]. destruct fuel; [lia|].
    apply search_ended; [done|]. by apply HG.
  - subst r. apply wp_bind, next_piece_stay; [done|]. pose proof (same_disk w w1 d I1) as D1.
    apply (IH (k + 1)); cbn; [by apply (volume_mono w)|unfold root_stored; rewrite D1; lia|done|lia| |lia|done| | |lia|].
    { destruct (decide (16 <= rootEnts s)); unfold m; lia. }
    { unfold clus_len. lia. }
    { unfold m. lia. }
    rewrite D1. replace (Z.to_nat (rootEnts s - Z.of_nat m)) with (Z.to_nat (rootEnts s) - m)%nat by lia.
    assert (look_in (Z.to_nat (rootEnts s) - m) (16 * (k + 1)) (drop (Z.to_nat (512 * root_start d)) (disk w d)) (fileName s) =
            look_in (Z.to_nat (rootEnts s) - m) (16 * k + Z.of_nat m) (drop (Z.to_nat (512 * root_start d)) (disk w d)) (fileName s)) as ->.
    { destruct (decide (16 <= rootEnts s)); [f_equal; lia|]. by replace (Z.to_nat (rootEnts s) - m)%nat with 0%nat by lia. }
    by eapply search_goal_next.
Qed.

Lemma slice_app_l l l' i m : 0 <= i → 0 <= m → i + m <= len l → slice (l ++ l') i m = slice l i m.
Proof. intros. unfold slice. rewrite drop_app_le, take_app_le by (rewrite ?length_drop; lia). done. Qed.

Lemma slice_app_r l l' i m : len l <= i → slice (l ++ l') i m = slice l' (i - len l) m.
Proof. intros. unfold slice. rewrite drop_app_ge by lia. do 2 f_equal. lia. Qed.

(** A look through the entries of a chain, one cluster after the other. *)
Lemma dir_look_cons w d c cs fname :
  volume w d → stored w d c →
  dir_look w d (c :: cs) fname =
  match look_in (Z.to_nat (16 * spc d)) 0 (cluster_bytes w d c) fname with Nothing => dir_look w d cs fname | r => r end.
Proof.
  intros V S. pose proof (vol_spc w d V). pose proof (cluster_bytes_len w d c V S) as Lc. unfold clus_len in Lc. unfold dir_look.
  cbn [contents length]. replace (Z.to_nat (16 * spc d * Z.of_nat (Datatypes.S (length cs))))
    with (Z.to_nat (16 * spc d) + Z.to_nat (16 * spc d * len cs))%nat by lia. rewrite look_in_app.
  rewrite (look_in_part _ 0 0 (cluster_bytes w d c ++ contents w d cs) (cluster_bytes w d c)); [|lia|lia|].
  2:{ intros j Hj. rewrite slice_app_l by lia. do 2 f_equal. }
  change (0 + 0) with 0. destruct (look_in (Z.to_nat (16 * spc d)) 0 (_ ++ _) fname); [done..|].
  symmetry. rewrite (look_in_part _ 0 (16 * spc d) (cluster_bytes w d c ++ contents w d cs) (contents w d cs)); [f_equal; lia|lia|lia|].
  intros j Hj. rewrite slice_app_r by lia. f_equal. lia.
Qed.

Lemma search_dir cs s buf fuel d path da Q L w :
  volume w d → inRootDir s = false → chain w d (cluster s) cs → dirSize s = clus_len d → len buf = clus_len d →
  (length cs + 2 <= fuel)%nat →
  search_goal d path da s fuel (length cs + 2) (dir_look w d cs (fileName s)) Q L w →
  wp (search_loop fuel d path da s buf) Q L w.
Proof.
  revert s buf fuel w. induction cs as [|c cs IH]; intros s buf [|fuel] w V Hin Hc Hdir Hb Hf HG; cbn [length] in *; try lia.
  { apply search_ended; [by rewrite Hin|]. unfold dir_look in HG. cbn [length] in HG. rewrite Z.mul_0_r in HG. by apply HG. }
  cbn [chain] in Hc. destruct Hc as (-> & S & Hc). rewrite dir_look_cons in HG by done. pose proof (vol_spc w d V).
  cbn [search_loop]. unfold load_piece at 1. rewrite Hin. rewrite bool_decide_eq_true_2 by (by destruct S as (_ & ? & _)).
  apply wp_bind, wp_bind, wp_readCluster; [done|done|done|]. intros w1 I1. apply wp_ret. cbn [Z.eqb].
  set (b := cluster_bytes w d (cluster s)) in *. assert (Lb : len b = clus_len d) by (by apply cluster_bytes_len).
  unfold past_sector. rewrite Hin, Hdir. unfold clus_len in Lb.
  replace (clus_len d / DIRENT_SIZE) with (16 * spc d) by (unfold clus_len, DIRENT_SIZE; zdiv).
  apply wp_bind, scan_entries_spec; [lia|congruence|lia|]. intros r Hr. unfold scan_says in Hr. rewrite Hin in Hr.
  cbn [looked] in Hr. assert (ND : ∀ j s0, 0 <= j < 16 * spc d → dirSize s0 = dirSize s → j ≠ dirSize s0 / 32)
    by (intros j s0 Hj ->; rewrite Hdir; unfold clus_len; zdiv).
  destruct (look_in _ _ _ _) as [e| |].
  - destruct Hr as (j & ents' & -> & Hj). fold (after_match fuel d path da j ents' e s b).
    apply HG; [done|lia|done|done|lia].
  - destruct Hr as (j & -> & Hj). apply wp_bind, next_piece_stay; [intros _; apply ND; [lia|done]|]. destruct fuel; [lia|].
    apply search_ended; [|by apply HG]. cbn [at_end inRootDir cluster]. rewrite Hin. cbn. unfold end_mark.
    by destruct (geo_type w d (fat_geo w d (vol_fat w d V))) as [-> | ->].
  - subst r. unfold next_piece, with_ents, DIRENT_SIZE. cbn [inRootDir dirSize cluster]. rewrite Hin, Hdir. cbn [negb andb].
    destruct (Z.eqb_spec (0 + Z.of_nat (Z.to_nat (16 * spc d))) (clus_len d / 32)) as [_|N]; [|unfold clus_len in N; zdiv].
    apply wp_bind, wp_bind, wp_readFAT; [by apply (volume_mono w)|by apply (stored_mono w)|]. intros w2 I2. apply wp_ret.
    assert (I : image w2 = image w) by congruence. rewrite (fat_entry_mono w w1 d _ I1).
    apply IH; cbn [inRootDir cluster dirSize rootEnts fileName pathLevel];
      [by apply (volume_mono w)|done|by apply (chain_mono w)|done|done|lia|].
    unfold dir_look at 1. rewrite (contents_mono w w2 d cs I). by eapply search_goal_next.
Qed.

(** ** The search for a path *)

(** The name of a directory entry for a name of a path. *)
Definition short_name (name fname : list Z) : Prop := ∀ w : W, generate8_3Name name w = Ret (Some fname) w.

(** [path] leads from a directory, given by what a look for a name in it finds,
    to the entry [e]. *)
Inductive resolves (w : W) (d : FAT_Dev) : (list Z → look) → list (list Z) → list Z → Prop :=
| resolves_last dir name fname e :
    short_name name fname → dir fname = Found e → resolves w d dir [name] e
| resolves_step dir name fname e cs rest e' :
    short_name name fname → dir fname = Found e → start_clus e ≠ 0 → chain w d (start_clus e) cs →
    resolves w d (dir_look w d cs) rest e' → resolves w d dir (name :: rest) e'.

Lemma short_name_wp name fname Q L (w : W) : short_name name fname → Q (Some fname) w → wp (generate8_3Name name) Q L w.
Proof. intros S HQ. unfold wp. by rewrite S. Qed.

Lemma wp_at_level path n name Q L w :
  path !! n = Some name → (∀ w', image w' = image w → Q (Some name) w') → wp (sbFilePathAtLevel path (Z.of_nat n)) Q L w.
Proof.
  intros E HQ. unfold sbFilePathAtLevel. assert (len path ≠ 0) by (apply lookup_lt_Some in E; lia).
  destruct (Z.eqb_spec (len path) 0); [done|]. rewrite andb_false_r, Nat2Z.id, E.
  destruct (copy_ok name w) as (w' & C & I). unfold wp. rewrite C. by apply HQ.
Qed.

(** At the last name of the path the entry that matches is the result. *)
Lemma descend_last d path da ents e s n Q L (w : W) :
  pathLevel s = Z.of_nat n → path !! n = None → path ≠ [] → Q None w → wp (descend d path da ents e s) Q L w.
Proof.
  intros P E N HQ. unfold descend, sbFilePathAtLevel. rewrite P. destruct (Z.eqb_spec (len path) 0); [by destruct path|].
  by rewrite andb_false_r, Nat2Z.id, E.
Qed.

Lemma resolves_head w d dir names e : resolves w d dir names e → ∃ name rest fname e1, names = name :: rest ∧ short_name name fname ∧ dir fname = Found e1.
Proof. intros []; eauto 8. Qed.

Lemma short_name_unique name fname fname' (w : W) : short_name name fname → short_name name fname' → fname = fname'.
Proof. intros A B. specialize (A w). specialize (B w). congruence. Qed.

(** The loop after the first name of [names] has matched [e1]. *)
Lemma after_match_resolves w0 d da dir names e :
  volume w0 d → resolves w0 d dir names e → (length names = 1%nat ∨ Z.land da FAT_SUBDIR ≠ 0) →
  ∀ pre, ∃ N, ∀ fname e1 s buf fuel j ents Q L w,
    image w = image w0 → short_name (hd [] names) fname → dir fname = Found e1 →
    pathLevel s = len pre + 1 → 0 <= j < 16 * spc d → len buf = clus_len d → (N <= fuel)%nat →
    (∀ w', image w' = image w0 → Q (Some e) w') → wp (after_match fuel d (pre ++ names) da j ents e1 s buf) Q L w.
Proof.
  intros V R. induction R as [dir name fn e S F|dir name fn e cs rest e' S F Z C R IH]; intros Hda pre.
  - exists 0%nat. intros fname e1 s buf fuel j ents Q L w I S' F' P Hj Hb Hf HQ. cbn [hd] in S'.
    rewrite (short_name_unique _ _ _ w S' S) in F'. assert (e1 = e) as -> by congruence. unfold after_match.
    apply wp_bind, (descend_last _ _ _ _ _ _ (Datatypes.S (length pre))); [lia|apply lookup_ge_None_2; rewrite length_app; cbn; lia|by destruct pre|].
    apply wp_ret. by apply HQ.
  - destruct (resolves_head _ _ _ _ _ R) as (name' & rest' & fname' & e2 & -> & S2 & F2).
    destruct Hda as [Hda|Hda]; [done|]. destruct (IH (or_intror Hda) (pre ++ [name])) as [N HN].
    exists (length cs + 2 + N)%nat. intros fname e1 s buf fuel j ents Q L w I S' F' P Hj Hb Hf HQ. cbn [hd] in S', HN.
    rewrite (short_name_unique _ _ _ w S' S) in F'. assert (e1 = e) as -> by congruence. unfold after_match, descend.
    replace (pathLevel s) with (Z.of_nat (Datatypes.S (length pre))) by lia.
    apply wp_bind, wp_bind, (wp_at_level _ _ name'); [rewrite lookup_app_r by lia; by replace (Datatypes.S (length pre) - length pre)%nat with 1%nat by lia|].
    intros w1 I1. apply wp_bind, (short_name_wp _ fname'); [done|]. destruct (Z.eqb_spec (Z.land da FAT_SUBDIR) 0); [done|].
    destruct (Z.eqb_spec (start_clus e) 0); [done|]. apply wp_ret. pose proof (geo_sec _ _ (fat_geo _ _ (vol_fat _ _ V))) as SS.
    apply wp_bind, next_piece_stay; cbn [inRootDir dirSize].
    { intros _. rewrite SS. fold (spc d). zdiv. }
    assert (I1' : image w1 = image w0) by congruence.
    apply (search_dir cs); cbn [inRootDir cluster dirSize];
      [by apply (volume_mono w0)|done|by apply (chain_mono w0)|unfold clus_len, spc; by rewrite SS|done|lia|].
    cbn [fileName]. unfold dir_look. rewrite (contents_mono w0 w1 d cs I1'). fold (dir_look w0 d cs fname'). rewrite F2. cbn.
    intros j' ents' s' buf' fuel' w' I' Hj' P' Hb' Hf'. replace (pre ++ name :: name' :: rest') with ((pre ++ [name]) ++ name' :: rest')
      by (by rewrite <- app_assoc). eapply HN; [congruence|done|done|rewrite length_app; cbn in *; lia|done|done|lia|done].
Qed.

Lemma search_start fuel path d da name rest fname Q L w :
  volume w d → path = name :: rest → short_name name fname →
  (∀ buf w', len buf = clus_len d → image w' = image w →
     wp (search_loop fuel d path da
           {| inRootDir := true; rootEnts := root_ents (bpb d); startSector := root_start d; cluster := 0; dirSize := 512;
              pathLevel := 1; fileName := fname |} buf) Q L w') →
  wp (getFAT_DirEntry fuel path d da) Q L w.
Proof.
  intros V -> S HQ. pose proof (fat_geo w d (vol_fat w d V)) as G. pose proof (spc_range w d G) as SR. unfold getFAT_DirEntry, sbFilePathDepth.
  destruct (Z.eqb_spec (len (name :: rest)) 0) as [E|_]; [cbn in E; lia|].
  rewrite (match_fat _ _ _ (geo_type w d G)).
  apply wp_bind, (wp_at_level _ 0 name); [done|]. intros w1 I1. apply wp_bind, (short_name_wp _ fname); [done|].
  rewrite (geo_sec w d G). apply wp_bind, wp_malloc; [unfold spc in SR; lia|]. intros buf w2 Lb _ I2.
  apply HQ; [by unfold clus_len, spc|congruence].
Qed.

Lemma getFAT_DirEntry_finds w d da path e :
  volume w d → root_stored w d → resolves w d (root_look w d) path e →
  (length path = 1%nat ∨ Z.land da FAT_SUBDIR ≠ 0) →
  ∃ N, ∀ fuel Q L, (N <= fuel)%nat → (∀ w', image w' = image w → Q (Some e) w') → wp (getFAT_DirEntry fuel path d da) Q L w.
Proof.
  intros V RS R Hda. destruct (after_match_resolves w d da _ _ _ V R Hda []) as [N HN].
  destruct (resolves_head _ _ _ _ _ R) as (name & rest & fname & e1 & -> & S & F). cbn [hd app length] in *.
  set (P := Z.to_nat (root_ents (bpb d))). exists (P + 2 + N)%nat. intros fuel Q L Hf HQ.
  destruct (root_start_range w d (fat_geo w d (vol_fat w d V))) as [_ RR]. eapply search_start; [done..|]. intros buf w1 Lb I1.
  pose proof (same_disk w w1 d I1) as D1.
  apply (search_root P 0); cbn [inRootDir rootEnts startSector dirSize fileName];
    [by apply (volume_mono w)|unfold root_stored; by rewrite D1|done|done|lia|lia|done|done|unfold P; lia|lia|].
  rewrite D1. change (16 * 0) with 0. fold (root_look w d fname). rewrite F. cbn. intros j ents s' buf' fuel' w' I' Hj P' Hb' Hf'.
  eapply HN; [congruence|exact S|exact F|cbn; lia|done|done|lia|done].
Qed.

(** C14. A path that leads from the root directory through existing directories
    to an entry: [getFAT_DirEntry] returns that entry, whatever the number of
    sectors and clusters it has to go through, provided that the attribute byte
    its caller's variable happens to hold marks a directory or that the path is
    one name. *)
Theorem getFAT_DirEntry_resolves w d da path e :
  volume w d → root_stored w d → resolves w d (root_look w d) path e →
  (length path = 1%nat ∨ Z.land da FAT_SUBDIR ≠ 0) →
  ∃ N, ∀ fuel, (N <= fuel)%nat → ∃ w', getFAT_DirEntry fuel path d da w = Ret (Some e) w' ∧ image w' = image w.
Proof.
  intros V RS R Hda. destruct (getFAT_DirEntry_finds w d da path e V RS R Hda) as [N HN]. exists N. intros fuel Hf.
  apply wp_runs. intros Q L HQ. by apply HN.
Qed.

(** A name that is not in the root directory, or only behind its end
    marker: [getFAT_DirEntry] ends with an error. *)
Theorem getFAT_DirEntry_missing w d da name rest fname fuel :
  volume w d → root_stored w d → short_name name fname → (∀ e, root_look w d fname ≠ Found e) →
  (Z.to_nat (root_ents (bpb d)) + 2 <= fuel)%nat →
  ∃ w', getFAT_DirEntry fuel (name :: rest) d da w = Ret None w' ∧ image w' = image w.
Proof.
  intros V RS S NF Hf.
  apply wp_runs. intros Q L HQ. destruct (root_start_range w d (fat_geo w d (vol_fat w d V))) as [_ RR].
  eapply search_start; [done..|]. intros buf w1 Lb I1. pose proof (same_disk w w1 d I1) as D1.
  apply (search_root (Z.to_nat (root_ents (bpb d))) 0); cbn [inRootDir rootEnts startSector dirSize fileName];
    [by apply (volume_mono w)|unfold root_stored; by rewrite D1|done|done|lia|lia|done|done|lia|lia|].
  rewrite D1. change (16 * 0) with 0. fold (root_look w d fname).
  destruct (root_look w d fname); [by destruct (NF e)|..]; cbn; intros; apply HQ; congruence.
Qed.
End dir.
