(* ===== verification/FatRead.v ===== *)
(** * FAT file system: reading files

    The bytes [fatReadFile] copies are the bytes of the file at the offset
    asked for, where the request ends within the file or starts at its
    beginning; otherwise it may return bytes from behind the end of the file. *)

From S2P Require Import Prelude Numbers Fat FatLib FatFile FatSpec FatNames FatDir.

Section read.
Context {W : Type} {WI : World W} {SI : Storage W}.

Lemma skip_clusters_spec n d c cs c' cs' Q L w :
  volume w d → chain w d c (cs ++ c' :: cs') → n = length cs →
  (∀ w', image w' = image w → Q (Some c') w') → wp (skip_clusters d n c) Q L w.
Proof.
  intros V. revert n c w V. induction cs as [|x cs IH]; intros n c w V Hc -> HQ; cbn [app chain length skip_clusters] in *.
  - destruct Hc as (-> & _). by apply wp_ret, HQ.
  - destruct Hc as (-> & S & Hc). apply wp_bind, wp_readFAT; [done|done|]. intros w1 I1.
    assert (getClusterType (fat_entry w d c) (fatType d) = USED_CLUSTER) as U.
    { destruct cs; cbn in Hc; destruct Hc as (_ & (_ & U & _) & _); done. }
    rewrite bool_decide_eq_true_2 by done.
    apply IH; [by apply (volume_mono w)|by apply (chain_mono w)|done|]. intros w' I'. apply HQ. congruence.
Qed.

(** The bytes of a file of [fsize] bytes in the clusters [cs] a request for
    [n] bytes at [off] gives. *)
Definition request (w : W) (d : FAT_Dev) (cs : list Z) (off n fsize : Z) : list Z :=
  slice (contents w d cs) off (Z.min n (fsize - off)).

Lemma slice_split l i a b : 0 <= i → 0 <= a → 0 <= b → slice l i (a + b) = slice l i a ++ slice l (i + a) b.
Proof.
  intros. unfold slice. rewrite Z2Nat.inj_add, <- take_take_drop, drop_drop by lia. do 3 f_equal. lia.
Qed.

Lemma slice_nil l i n : n <= 0 → slice l i n = [].
Proof. intros. unfold slice. by replace (Z.to_nat n) with 0%nat by lia. Qed.

Lemma copy_clusters_spec fuel d c cs off n fsize buf Q L w :
  volume w d → chain w d c cs → len buf = clus_len d → 0 <= off < clus_len d → 0 <= n < 2 ^ 32 → 0 <= fsize < 2 ^ 32 →
  off <= fsize → (off + n <= fsize ∨ off = 0) → off + Z.min n (fsize - off) <= clus_len d * len cs → (Z.to_nat n < fuel)%nat →
  (∀ w', image w' = image w → Q (request w d cs off n fsize) w') →
  wp (copy_clusters fuel d (clus_len d) c off n fsize buf) Q L w.
Proof.
  intros V. revert c cs off n fsize buf w V Q. induction fuel as [|fuel IH];
    intros c cs off n fsize buf w V Q Hc Lb Ho Hn Hs Hof Hr Ha Hf HQ; [lia|]. cbn [copy_clusters].
  pose proof (spc_range w d (fat_geo w d (vol_fat w d V))) as SR. pose proof (vol_spc w d V) as SP.
  assert (C : 512 <= clus_len d < 2 ^ 32) by (unfold clus_len; lia).
  destruct (Z.ltb_spec 0 n) as [N|N]; [destruct (Z.ltb_spec 0 fsize) as [F|F]|]; rewrite ?andb_false_r.
  2,3: apply wp_ret; unfold request in HQ; rewrite slice_nil in HQ by lia; by apply HQ.
  destruct cs as [|x cs]; cbn [chain length] in *.
  { rewrite bool_decide_eq_false_2 by done. cbn [andb]. apply wp_ret. unfold request in HQ. rewrite slice_nil in HQ by lia. by apply HQ. }
  destruct Hc as (-> & S & Hc). rewrite bool_decide_eq_true_2 by (by destruct S as (_ & ? & _)). cbn [andb].
  apply wp_bind, wp_readCluster; [done|done|done|]. intros w1 I1. pose proof (cluster_bytes_len w d c V S) as Lc.
  rewrite wrap_small by lia. set (rest := clus_len d - off).
  assert (P : ∀ m, 0 <= m → off + m <= clus_len d → slice (cluster_bytes w d c) off m = slice (contents w d (c :: cs)) off m).
  { intros m Hm Hl. cbn [contents]. by rewrite slice_app_l by lia. }
  destruct (Z.ltb_spec rest n) as [A|A]; destruct (Z.ltb_spec (clus_len d) fsize) as [B|B]; cbn [andb orb].
  - rewrite (wrap_small 32 (n - rest)), (wrap_small 32 (fsize - clus_len d)) by lia.
    apply wp_bind, wp_copy_out; [lia|lia|]. apply wp_bind, wp_readFAT; [by apply (volume_mono w)|by apply (stored_mono w)|].
    intros w2 I2. assert (I : image w2 = image w) by congruence. rewrite (fat_entry_mono w w1 d c I1). apply wp_bind.
    apply (IH _ cs); [by apply (volume_mono w)|by apply (chain_mono w)|done|lia|lia|lia|lia|by right|lia|lia|].
    intros w' I'. apply wp_ret. rewrite P by lia. unfold request in HQ |- *. rewrite (contents_mono w w2 d cs I).
    replace (Z.min n (fsize - off)) with (rest + Z.min (n - rest) (fsize - clus_len d - 0)) in HQ by lia.
    rewrite slice_split in HQ by lia. cbn [contents] in HQ |- *. rewrite (slice_app_r _ _ (off + rest)) in HQ by lia.
    replace (off + rest - len (cluster_bytes w d c)) with 0 in HQ by lia. apply HQ. congruence.
  - destruct (Z.leb_spec fsize (clus_len d)) as [_|]; [|lia]. cbn [orb]. rewrite wrap_small by lia.
    destruct (Z.ltb_spec n (fsize - off)); [lia|]. apply wp_copy_out; [lia|lia|]. rewrite P by lia. unfold request in HQ.
    replace (Z.min n (fsize - off)) with (fsize - off) in HQ by lia. by apply HQ.
  - destruct (Z.leb_spec n rest) as [_|]; [|lia]. destruct (Z.leb_spec fsize (clus_len d)); [lia|]. cbn [andb].
    apply wp_copy_out; [lia|lia|]. rewrite P by lia. unfold request in HQ. replace (Z.min n (fsize - off)) with n in HQ by lia. by apply HQ.
  - destruct (Z.leb_spec n rest) as [_|]; [|lia]. destruct (Z.leb_spec fsize (clus_len d)) as [_|]; [|lia]. cbn [andb].
    destruct (Z.leb_spec fsize n).
    + rewrite wrap_small by lia. destruct (Z.ltb_spec n (fsize - off)); [lia|]. apply wp_copy_out; [lia|lia|]. rewrite P by lia.
      unfold request in HQ. replace (Z.min n (fsize - off)) with (fsize - off) in HQ by lia. by apply HQ.
    + apply wp_copy_out; [lia|lia|]. rewrite P by lia. unfold request in HQ.
      replace (Z.min n (fsize - off)) with n in HQ by lia. by apply HQ.
Qed.

Lemma chain_suffix w d c cs c' cs' : chain w d c (cs ++ c' :: cs') → chain w d c' (c' :: cs').
Proof.
  revert c. induction cs as [|x cs IH]; intros c; cbn [app chain].
  - by intros (<- & H).
  - intros (_ & _ & H). by apply (IH _ H).
Qed.

Lemma contents_app w d cs cs' : contents w d (cs ++ cs') = contents w d cs ++ contents w d cs'.
Proof. induction cs as [|c cs IH]; cbn; [done|]. by rewrite IH, app_assoc. Qed.

Lemma contents_prefix_len w d c cs cs' : volume w d → chain w d c (cs ++ cs') → len (contents w d cs) = clus_len d * len cs.
Proof.
  intros V. revert c. induction cs as [|x cs IH]; intros c H; cbn [app chain contents length] in *; [lia|].
  destruct H as (-> & S & H). rewrite length_app, Nat2Z.inj_add, (cluster_bytes_len w d c V S), (IH _ H). lia.
Qed.

Lemma look_in_bytes n i D fname e : Forall is_byte D → look_in n i D fname = Found e → Forall is_byte e.
Proof.
  intros F. revert i. induction n as [|n IH]; intros i; cbn [look_in]; [done|]. cbv zeta.
  destruct (_ =? 0); [done|]. destruct (skipped _); [apply IH|]. destruct (strneq _ _ _); [|apply IH].
  intros [= <-]. unfold unescape. pose proof (Forall_slice _ _ (DIRENT_SIZE * i) DIRENT_SIZE F).
  destruct (_ =? 5); [|done]. apply Forall_insert_byte; [done|lia].
Qed.

Lemma contents_bytes w d cs : Forall is_byte (contents w d cs).
Proof.
  induction cs as [|c cs IH]; cbn; [constructor|]. apply Forall_app. split; [|done]. apply Forall_slice, image_bytes.
Qed.

Lemma resolves_bytes w d dir path e :
  resolves w d dir path e → (∀ f e, dir f = Found e → Forall is_byte e) → Forall is_byte e.
Proof.
  intros R. induction R as [dir name fn e S F|dir name fn e cs rest e' S F Z C R IH]; intros H; [by eapply H|].
  apply IH. intros f e0. apply look_in_bytes, contents_bytes.
Qed.

Lemma root_look_bytes w d f e : root_look w d f = Found e → Forall is_byte e.
Proof. apply look_in_bytes, Forall_drop, image_bytes. Qed.

Lemma dword_at_range l i : Forall is_byte l → 0 <= dword_at l i < 2 ^ 32.
Proof. intros F. unfold dword_at. pose proof (word_at_range l i F). pose proof (word_at_range l (i + 2) F). lia. Qed.

(** The loops of [fatReadFile], from the first cluster of the file. *)
Definition read_chain (d : FAT_Dev) (c off n fsize : Z) : M W (Z * list Z) :=
  let* c := skip_clusters d (Z.to_nat (off / clus_len d)) c in
  match c with
  | None => ret (-1, [])
  | Some c =>
    let* m := malloc (clus_len d) in
    match m with
    | None => ret (-1, [])
    | Some buffer =>
      let* out := copy_clusters (S (Z.to_nat n)) d (clus_len d) c (off mod clus_len d) n fsize buffer in
      ret (i32 (len out), out)
    end
  end.

Lemma read_chain_spec d c cs off n fsize Q L w :
  volume w d → chain w d c cs → fsize <= clus_len d * len cs → 0 <= off < fsize → 0 <= n < 2 ^ 31 → fsize < 2 ^ 32 →
  (off + n <= fsize ∨ off = 0) →
  (∀ w', image w' = image w → Q (Z.min n (fsize - off), request w d cs off n fsize) w') →
  wp (read_chain d c off n fsize) Q L w.
Proof.
  intros V Hc Hs Ho Hn Hf Hr HQ. pose proof (vol_spc w d V). pose proof (spc_range w d (fat_geo w d (vol_fat w d V))).
  assert (C : 512 <= clus_len d) by (unfold clus_len; lia). set (k := Z.to_nat (off / clus_len d)).
  assert (K : off = clus_len d * Z.of_nat k + off mod clus_len d ∧ 0 <= off mod clus_len d < clus_len d).
  { unfold k. rewrite Z2Nat.id by (apply Z.div_pos; lia). split; [apply Z.div_mod|apply Z.mod_pos_bound]; lia. }
  assert (KL : (k < length cs)%nat) by nia. destruct (lookup_lt_is_Some_2 cs k KL) as [c' Hk].
  rewrite <- (take_drop_middle cs k c' Hk) in Hc. pose proof (contents_prefix_len w d c _ _ V Hc) as LP.
  unfold read_chain. apply wp_bind. eapply (skip_clusters_spec k d c (take k cs)); [done|exact Hc|rewrite length_take; lia|].
  intros w1 I1. apply wp_bind, wp_malloc; [lia|]. intros buf w2 Lb Fb I2. assert (I : image w2 = image w) by congruence.
  pose proof (chain_suffix _ _ _ _ _ _ Hc) as Hc'. set (cs' := c' :: drop (S k) cs) in *.
  assert (E : contents w d cs = contents w d (take k cs) ++ contents w d cs')
    by (rewrite <- contents_app; f_equal; symmetry; by apply take_drop_middle).
  assert (L' : len cs' = len cs - Z.of_nat k) by (unfold cs'; cbn [length]; rewrite length_drop; lia).
  rewrite length_take in LP. set (o := off mod clus_len d) in *.
  apply wp_bind, (copy_clusters_spec _ d c' cs');
    [by apply (volume_mono w)|by apply (chain_mono w)|done|lia|lia|lia|nia|nia|nia|lia|].
  intros w3 I3. apply wp_ret. unfold request in *. rewrite (contents_mono w w2 d cs' I).
  assert (slice (contents w d cs') o (Z.min n (fsize - o)) = slice (contents w d cs) off (Z.min n (fsize - off))) as ->.
  { rewrite E, slice_app_r by nia. f_equal; [nia|]. nia. }
  rewrite slice_length; [|lia|lia|rewrite (contents_len w d c cs V); [nia|by rewrite <- (take_drop_middle cs k c' Hk)]].
  rewrite signed_small by lia. apply HQ. congruence.
Qed.

(** C6. [fatReadFile], for a path that leads to a file: where the request ends
    within the file, or starts at its beginning, it returns the number of bytes
    asked for or left, and copies those bytes of the file, which may lie in any
    number of clusters.  The path is one name, or the variable of [fatReadFile] that
    is given to [getFAT_DirEntry] unassigned happens to have the directory bit in its
    attributes. *)
Theorem fatReadFile_reads w w1 d devNum path e cs off n :
  getDeviceData devNum w = Ret (Some d) w1 → image w1 = image w → volume w d → root_stored w d →
  fatType d = determineFAT_Type (bpb d) →
  resolves w d (root_look w d) path e →
  (length path = 1%nat ∨ ∀ w l w', garbage DIRENT_SIZE w = Ret l w' → Z.land (attrib l) FAT_SUBDIR ≠ 0) →
  Z.land (attrib e) FAT_SUBDIR = 0 → chain w d (start_clus e) cs → file_size e <= clus_len d * len cs →
  0 <= off < file_size e → 0 <= n < 2 ^ 31 → (off + n <= file_size e ∨ off = 0) →
  ∃ N, ∀ fuel, (N <= fuel)%nat →
    ∃ w', fatReadFile fuel path off devNum n w =
          Ret (Z.min n (file_size e - off), slice (contents w d cs) off (Z.min n (file_size e - off))) w' ∧
          image w' = image w.
Proof.
  intros M I1 V RS T R G A Hc Hs Ho Hn Hr.
  destruct (garbage_ok DIRENT_SIZE w1) as (l & w2 & Eg & _ & _ & I2); [done|].
  assert (I : image w2 = image w) by congruence. pose proof (same_disk w w2 d I) as D2.
  assert (R2 : resolves w2 d (root_look w2 d) path e).
  { clear -R I D2. unfold root_look. rewrite D2. fold (root_look w d).
    induction R as [dir name fn e S F|dir name fn e cs rest e' S F Z C R IH]; [by econstructor|].
    eapply resolves_step; [done|done|done|by apply (chain_mono w)|]. unfold dir_look in *. by rewrite (contents_mono w w2 d cs I). }
  destruct (getFAT_DirEntry_finds w2 d (attrib l) path e) as [N HN];
    [by apply (volume_mono w)|unfold root_stored; by rewrite D2|done|destruct G as [G|G]; [by left|right; by eapply G]|].
  exists N. intros fuel Hf. destruct (wp_runs _ _ _ _ (λ Q L, HN fuel Q L Hf)) as (w3 & E3 & I3).
  assert (F : 0 <= file_size e < 2 ^ 32) by (apply dword_at_range; eapply resolves_bytes; [exact R|apply root_look_bytes]).
  pose proof (vol_spc w d V) as SP. destruct cs as [|x cs]; [cbn in Hs; lia|]. assert (Hc' := Hc).
  destruct Hc' as (-> & (_ & U & _) & _).
  assert (CL : calcClusterSize (bpb d) = clus_len d).
  { unfold calcClusterSize, clus_len, spc. rewrite <- T, (geo_sec w d (fat_geo w d (vol_fat w d V))).
    destruct (geo_type w d (fat_geo w d (vol_fat w d V))) as [-> | ->]; lia. }
  unfold fatReadFile. erewrite bind_run by exact M. erewrite bind_run by exact Eg. erewrite bind_run by exact E3.
  cbv beta iota zeta. rewrite A. cbn [Z.eqb negb]. rewrite CL.
  destruct (Z.eqb_spec (clus_len d) 0) as [E0|_]; [unfold clus_len in E0; lia|]. rewrite bool_decide_eq_true_2 by done.
  cbn [negb]. fold (read_chain d (start_clus e) off n (file_size e)).
  assert (I3' : image w3 = image w) by congruence.
  destruct (Z.leb_spec (file_size e) off); [lia|]. apply wp_runs. intros Q L HQ.
  eapply (read_chain_spec d _ (start_clus e :: cs)); [by apply (volume_mono w)|by apply (chain_mono w)|done|done|done|lia|done|].
  intros w' I'. unfold request. rewrite (contents_mono w w3 d _ I3'). apply HQ. congruence.
Qed.
End read.
