(* ===== verification/FatCreate.v ===== *)
(** * FAT file system: mounting and creating files

    What [getDeviceData] takes from the boot sector, and what [createEntry]
    does to the root directory: a file created behind the last entry of its
    first sector can be looked up afterwards; one put in the place of a deleted
    entry never reaches the device; and where the first sector is full the code
    reads past the end of its buffer. *)

From S2P Require Import Prelude Numbers Fat FatLib FatFile FatSpec FatNames FatDir FatRead.

(** ** Fields of a directory entry *)

Lemma dirent_fields fname attr resd clus fsize :
  length fname = 11%nat → length resd = 10%nat → 0 <= clus < 65536 → 0 <= fsize < 2 ^ 32 →
  let e := dirent fname attr resd clus fsize in
  length e = 32%nat ∧ filename e = fname ∧ attrib e = attr ∧ start_clus e = clus ∧ file_size e = fsize.
Proof.
  intros Lf Lr Hc Hs. do 11 (destruct fname as [|? fname]; [done|]). destruct fname; [|done].
  do 10 (destruct resd as [|? resd]; [done|]). destruct resd; [|done]. cbn zeta. split_and!; try done.
  - change (u8 clus + 256 * u8 (clus / 256) = clus). unfold wrap. zdiv.
  - change (u8 fsize + 256 * u8 (fsize / 256) + 65536 * (u8 (fsize / 65536) + 256 * u8 (fsize / 65536 / 256)) = fsize).
    unfold wrap. zdiv.
Qed.

Lemma strncpy_bytes_id n l : length l = n → Forall (λ c, c ≠ 0) l → strncpy_bytes n l = l.
Proof.
  revert l. induction n as [|n IH]; intros [|x l]; cbn; try done. intros [= L] F. inversion F; subst.
  destruct (Z.eqb_spec x 0); [done|]. by rewrite IH.
Qed.

Lemma strneq_refl n l : strneq n l l = true.
Proof.
  revert l. induction n as [|n IH]; intros [|x l]; cbn; try done. by rewrite Z.eqb_refl, IH, orb_true_r.
Qed.

Lemma splice_slice_same l i new : 0 <= i → i + len new <= len l → slice (splice l i new) i (len new) = new.
Proof.
  intros Hi Hl. unfold slice, splice. rewrite drop_app_length' by (rewrite length_take; lia).
  rewrite Nat2Z.id. by rewrite take_app_length.
Qed.

Section create.
Context {W : Type} {WI : World W} {SI : Storage W}.

(** An entry in use: neither free nor deleted. *)
Definition in_use (b : Z) : Prop := b ≠ 0 ∧ b ≠ 0xE5.

Lemma create_scan_used m n d dir fname i pos dirSize sector cluster ents secsize buf Q L (w : W) :
  0 <= pos → pos + 32 * Z.of_nat m <= len buf → Z.of_nat m <= ents →
  (∀ j, 0 <= j < Z.of_nat m → in_use (byte_at buf (pos + 32 * j))) →
  wp (create_scan n d dir true fname (i + Z.of_nat m) (pos + 32 * Z.of_nat m) dirSize sector cluster (ents - Z.of_nat m) secsize buf) Q L w →
  wp (create_scan (m + n) d dir true fname i pos dirSize sector cluster ents secsize buf) Q L w.
Proof.
  revert i pos ents. induction m as [|m IH]; intros i pos ents Hp Hl He Hu HQ.
  { by replace (i + Z.of_nat 0) with i in HQ by lia; replace (pos + 32 * Z.of_nat 0) with pos in HQ by lia;
      replace (ents - Z.of_nat 0) with ents in HQ by lia. }
  cbn [plus create_scan andb]. destruct (Z.eqb_spec ents 0); [lia|]. apply wp_bind, wp_get_byte; [lia|].
  destruct (Hu 0 ltac:(lia)) as [U1 U2]. rewrite Z.mul_0_r, Z.add_0_r in U1, U2.
  destruct (Z.eqb_spec (byte_at buf pos) 0); [done|]. destruct (Z.eqb_spec (byte_at buf pos) 0xE5); [done|]. cbn [orb].
  unfold DIRENT_SIZE. apply IH; [lia|lia|lia| |].
  - intros j Hj. replace (pos + 32 + 32 * j) with (pos + 32 * (j + 1)) by lia. apply Hu. lia.
  - by replace (i + 1 + Z.of_nat m) with (i + Z.of_nat (S m)) by lia; replace (pos + 32 + 32 * Z.of_nat m) with (pos + 32 * Z.of_nat (S m)) by lia;
      replace (ents - 1 - Z.of_nat m) with (ents - Z.of_nat (S m)) by lia.
Qed.

(** The first sector of the root directory. *)
Definition root_sector (w : W) (d : FAT_Dev) : list Z := slice (disk w d) (512 * root_start d) 512.

(** The state in which the loop over the entries of the first sector starts. *)
Lemma createEntry_root fuel name fname d dir Q L w :
  volume w d → root_stored w d → fatType d = determineFAT_Type (bpb d) → short_name (W := W) name fname → 0 < root_ents (bpb d) →
  (∀ w', image w' = image w →
     wp (let* s := create_scan 16 d dir true fname 0 0 512 (root_start d + 1) 0 (root_ents (bpb d)) 512 (root_sector w d) in
         match s with
         | inl r => ret r
         | inr (pos, ents) =>
           create_loop fuel d dir true fname pos 512 (root_start d + 1) 0 ents 512 (root_sector w d)
         end) Q L w') →
  wp (createEntry (S fuel) [] name d dir) Q L w.
Proof.
  intros V RS T S RE HQ. pose proof (fat_geo w d (vol_fat w d V)) as G. pose proof (geo_sec w d G) as SS.
  destruct (root_start_range w d G) as [R1 R2]. unfold root_stored in RS.
  unfold createEntry. apply wp_bind, (short_name_wp _ fname); [done|]. cbn [sbFilePathDepth length Z.of_nat Z.eqb].
  rewrite SS, <- T, (match_fat _ _ _ (geo_type w d G)).
  apply wp_bind, wp_malloc; [done|]. intros buf w1 Lb Fb I1. pose proof (same_disk w w1 d I1) as D1.
  assert (G1 : geometry w1 d) by (apply (geometry_mono w); [done|by rewrite D1]).
  cbn [create_loop]. destruct (Z.eqb_spec (root_ents (bpb d)) 0); [lia|]. rewrite wrap_small by lia.
  apply wp_bind, wp_readSector; [done|lia|rewrite D1; lia|lia|]. intros w2 I2. rewrite D1. cbn [Z.eqb negb].
  assert (with_sector (disk w d) (root_start d) buf = root_sector w d) as ->
    by (unfold with_sector, root_sector; rewrite drop_ge, app_nil_r by lia; done).
  change (Z.to_nat (512 / DIRENT_SIZE)) with 16%nat. specialize (HQ w2 ltac:(congruence)).
  apply wp_bind. unfold wp, bind in HQ. unfold wp. destruct (create_scan _ _ _ _ _ _ _ _ _ _ _ _ _ _) as [[r|[p n']] s'| | |]; exact HQ.
Qed.

(** The root directory with a free entry, its first used entries [m]. *)
Record first_free_entry (w : W) (d : FAT_Dev) (m : nat) (mark : Z) : Prop := {
  ffe_index : (m < 16)%nat ∧ Z.of_nat m < root_ents (bpb d);
  ffe_used : ∀ j, 0 <= j < Z.of_nat m → in_use (byte_at (root_sector w d) (32 * j));
  ffe_mark : byte_at (root_sector w d) (32 * Z.of_nat m) = mark;
}.

Lemma root_sector_len w d : geometry w d → root_stored w d → length (root_sector w d) = 512%nat.
Proof.
  intros G RS. destruct (root_start_range w d G) as [R1 R2]. unfold root_stored in RS. unfold root_sector.
  pose proof (slice_length (disk w d) (512 * root_start d) 512). lia.
Qed.

Lemma createEntry_at fuel name fname d dir m mark Q L w :
  volume w d → root_stored w d → fatType d = determineFAT_Type (bpb d) → short_name (W := W) name fname →
  first_free_entry w d m mark → mark = 0 ∨ mark = 0xE5 →
  (∀ w', image w' = image w →
     wp (take_entry d dir true fname (Z.of_nat m) (32 * Z.of_nat m) 512 (root_start d + 1) 0
           (root_ents (bpb d) - Z.of_nat m - 1) 512 (root_sector w d)) Q L w') →
  wp (createEntry (S fuel) [] name d dir) Q L w.
Proof.
  intros V RS T S [[M1 M2] U E] HM HQ. pose proof (root_sector_len w d (fat_geo w d (vol_fat w d V)) RS) as LS.
  apply (createEntry_root _ _ fname); [done|done|done|done|lia|]. intros w1 I1. apply wp_bind.
  replace 16%nat with (m + Datatypes.S (15 - m))%nat by lia.
  apply create_scan_used; [lia|lia|lia|intros j Hj; by apply U|]. cbn [create_scan andb].
  destruct (Z.eqb_spec (root_ents (bpb d) - Z.of_nat m) 0); [lia|]. rewrite Z.add_0_l.
  apply wp_bind, wp_get_byte; [lia|]. rewrite E.
  assert ((mark =? 0) || (mark =? 0xE5) = true) as -> by (by destruct HM as [-> | ->]).
  apply wp_bind. eapply wp_mono; [by apply HQ| |done]. intros r w2 HR. by apply wp_ret, wp_ret.
Qed.

Lemma root_sector_bytes w d : Forall is_byte (root_sector w d).
Proof. apply Forall_slice, image_bytes. Qed.

(** The entry of a new file in the place of the entry [m] of the root directory. *)
Definition new_file (w : W) (d : FAT_Dev) (fname : list Z) (m : nat) : list Z :=
  dirent fname 0 (slice (slice (root_sector w d) (32 * Z.of_nat m) 32) 12 10) (end_mark (fatType d)) 0.

(** The root sector with the new entry and the end marker after it. *)
Definition sector_with_file (w : W) (d : FAT_Dev) (fname : list Z) (m : nat) : list Z :=
  <[Z.to_nat (32 * Z.of_nat m + 32) := 0]> (splice (root_sector w d) (32 * Z.of_nat m) (new_file w d fname m)).

(** A name whose characters are bytes other than zero. *)
Definition proper_name (fname : list Z) : Prop := length fname = 11%nat ∧ Forall (λ c, 0 < c < 256) fname.

Lemma end_mark_range t : 0 <= end_mark t < 65536.
Proof. by destruct t. Qed.

Lemma new_file_fields w d fname m :
  geometry w d → root_stored w d → (m < 16)%nat → proper_name fname →
  length (new_file w d fname m) = 32%nat ∧ filename (new_file w d fname m) = fname ∧
  start_clus (new_file w d fname m) = end_mark (fatType d) ∧ file_size (new_file w d fname m) = 0.
Proof.
  intros G RS Hm [Lf F]. pose proof (root_sector_len w d G RS) as LS.
  pose proof (slice_length (root_sector w d) (32 * Z.of_nat m) 32) as L1.
  pose proof (slice_length (slice (root_sector w d) (32 * Z.of_nat m) 32) 12 10) as L2.
  destruct (dirent_fields fname 0 (slice (slice (root_sector w d) (32 * Z.of_nat m) 32) 12 10) (end_mark (fatType d)) 0) as (? & ? & ? & ? & ?);
    [done|lia|apply end_mark_range|lia|]. done.
Qed.

Lemma new_file_bytes w d fname m : proper_name fname → Forall is_byte (new_file w d fname m).
Proof.
  intros [Lf F]. unfold new_file, dirent, dword_bytes, word_bytes. rewrite !Forall_app. split_and!;
    repeat (apply Forall_cons; split; [first [apply wrap_range; lia | lia]|]); try constructor.
  - eapply Forall_impl; [exact F|]. cbn. lia.
  - apply Forall_slice, Forall_slice, root_sector_bytes.
Qed.

Lemma createEntry_writes fuel name fname d m w :
  volume w d → root_stored w d → fatType d = determineFAT_Type (bpb d) → short_name (W := W) name fname → proper_name fname →
  first_free_entry w d m 0 → (m < 15)%nat →
  ∃ w', createEntry (S fuel) [] name d false w = Ret 0 w' ∧
        disk_is d (splice (disk w d) (512 * root_start d) (sector_with_file w d fname m)) w w'.
Proof.
  intros V RS T S P FF Hm. pose proof (fat_geo w d (vol_fat w d V)) as G. pose proof (root_sector_len w d G RS) as LS.
  destruct (new_file_fields w d fname m G RS ltac:(lia) P) as (LN & _). destruct (root_start_range w d G) as [R1 R2].
  assert (H : wp (createEntry (Datatypes.S fuel) [] name d false) (λ r w', r = 0 ∧
    disk_is d (splice (disk w d) (512 * root_start d) (sector_with_file w d fname m)) w w') (λ _, False) w).
  2:{ apply wp_ret_inv in H as (r & w' & E & -> & D). eauto. }
  eapply (createEntry_at _ _ fname); [done|done|done|done|done|by left|]. intros w1 I1.
  unfold take_entry, DIRENT_SIZE. apply wp_bind, wp_copy_out; [lia|lia|]. rewrite byte_at_slice by lia.
  rewrite Z.add_0_r, (ffe_mark _ _ _ _ FF). 
  assert (strncpy_bytes 11 fname = fname) as -> by (destruct P as [? F]; apply strncpy_bytes_id; [done|eapply Forall_impl; [exact F|cbn; lia]]).
  apply wp_bind, wp_ret. cbn [Z.eqb]. fold (new_file w d fname m). apply wp_bind, wp_copy_in; [lia|lia|].
  unfold finish_end, DIRENT_SIZE. change (512 / 32) with 16. destruct (Z.eqb_spec (Z.of_nat m + 1) 16); [lia|].
  apply wp_bind, wp_set_byte; [rewrite splice_length; lia|]. change (u8 0) with 0. fold (sector_with_file w d fname m).
  replace (root_start d + 1 - 1) with (root_start d) by lia. rewrite wrap_small by lia.
  assert (LF : length (sector_with_file w d fname m) = 512%nat) by (unfold sector_with_file; rewrite length_insert, splice_length; lia).
  pose proof (same_disk w w1 d I1) as D1. unfold root_stored in RS.
  apply wp_bind, wp_writeSector; [by apply (geometry_mono w); [|rewrite D1]|lia|rewrite D1; lia|lia| |].
  { apply Forall_insert_byte; [|lia]. apply Forall_splice; [apply root_sector_bytes|by apply new_file_bytes]. }
  intros w2 I2. apply wp_ret. split; [done|]. rewrite D1, take_ge in I2 by lia. by eapply disk_is_image.
Qed.

(** ** The directory afterwards *)

Lemma slice_splice_in l p sec i n :
  0 <= p → p + len sec <= len l → 0 <= i → 0 <= n → i + n <= len sec → slice (splice l p sec) (p + i) n = slice sec i n.
Proof.
  intros. apply byte_list_ext.
  - pose proof (slice_length (splice l p sec) (p + i) n). pose proof (splice_length l p sec). pose proof (slice_length sec i n). lia.
  - pose proof (slice_length (splice l p sec) (p + i) n) as L. rewrite splice_length in L by lia. intros j Hj.
    rewrite !byte_at_slice, byte_at_splice by lia.
    destruct (Z.leb_spec p (p + i + j)), (Z.ltb_spec (p + i + j) (p + len sec)); try lia. cbn [andb]. f_equal. lia.
Qed.

Lemma sector_with_file_slice w d fname m j :
  geometry w d → root_stored w d → (m < 15)%nat → proper_name fname → 0 <= j < Z.of_nat m →
  slice (sector_with_file w d fname m) (32 * j) 32 = slice (root_sector w d) (32 * j) 32.
Proof.
  intros G RS Hm P Hj. pose proof (root_sector_len w d G RS) as LS. destruct (new_file_fields w d fname m G RS ltac:(lia) P) as (LN & _).
  assert (LF : length (sector_with_file w d fname m) = 512%nat) by (unfold sector_with_file; rewrite length_insert, splice_length; lia).
  pose proof (slice_length (sector_with_file w d fname m) (32 * j) 32) as L1.
  pose proof (slice_length (root_sector w d) (32 * j) 32) as L2.
  apply byte_list_ext; [lia|]. intros k Hk. rewrite !byte_at_slice by lia. unfold sector_with_file.
  rewrite byte_at_insert, byte_at_splice by (rewrite ?splice_length; lia).
  destruct (Z.eqb_spec (32 * j + k) (32 * Z.of_nat m + 32)); [lia|].
  destruct (Z.leb_spec (32 * Z.of_nat m) (32 * j + k)); [lia|]. done.
Qed.

Lemma sector_with_file_entry w d fname m :
  geometry w d → root_stored w d → (m < 15)%nat → proper_name fname →
  slice (sector_with_file w d fname m) (32 * Z.of_nat m) 32 = new_file w d fname m ∧
  byte_at (slice (sector_with_file w d fname m) (32 * (Z.of_nat m + 1)) 32) 0 = 0.
Proof.
  intros G RS Hm P. pose proof (root_sector_len w d G RS) as LS. destruct (new_file_fields w d fname m G RS ltac:(lia) P) as (LN & _).
  assert (LF : length (sector_with_file w d fname m) = 512%nat) by (unfold sector_with_file; rewrite length_insert, splice_length; lia).
  split.
  - pose proof (slice_length (sector_with_file w d fname m) (32 * Z.of_nat m) 32) as L1.
    apply byte_list_ext; [lia|]. intros k Hk. rewrite byte_at_slice by lia. unfold sector_with_file.
    rewrite byte_at_insert, byte_at_splice by (rewrite ?splice_length; lia).
    destruct (Z.eqb_spec (32 * Z.of_nat m + k) (32 * Z.of_nat m + 32)); [lia|].
    destruct (Z.leb_spec (32 * Z.of_nat m) (32 * Z.of_nat m + k)); [|lia].
    destruct (Z.ltb_spec (32 * Z.of_nat m + k) (32 * Z.of_nat m + len (new_file w d fname m))); [|lia]. cbn [andb]. f_equal. lia.
  - rewrite byte_at_slice by lia. unfold sector_with_file. rewrite byte_at_insert by (rewrite ?splice_length; lia).
    destruct (Z.eqb_spec (32 * (Z.of_nat m + 1) + 0) (32 * Z.of_nat m + 32)); [done|lia].
Qed.

(** What a look through the root directory finds before and after. *)
Lemma root_look_before w d m f :
  volume w d → root_stored w d → first_free_entry w d m 0 →
  root_look w d f = match look_in m 0 (root_sector w d) f with Nothing => Stop | r => r end.
Proof.
  intros V RS [[M1 M2] _ E]. destruct (root_start_range w d (fat_geo w d (vol_fat w d V))) as [R1 R2]. unfold root_stored in RS.
  assert (SL : ∀ j, 0 <= j < 16 → slice (root_sector w d) (32 * j) 32 = slice (drop (Z.to_nat (512 * root_start d)) (disk w d)) (32 * (0 + j)) 32).
  { intros j Hj. rewrite slice_drop by lia. unfold root_sector, slice. rewrite skipn_firstn_comm, take_take, drop_drop.
    f_equal; [lia|]. f_equal. lia. }
  unfold root_look. replace (Z.to_nat (root_ents (bpb d))) with (m + S (Z.to_nat (root_ents (bpb d)) - m - 1))%nat by lia.
  rewrite look_in_app, (look_in_part m 0 0 _ (root_sector w d)) by (try lia; intros j Hj; apply SL; lia).
  change (0 + 0) with 0. destruct (look_in m 0 _ f); [done..|]. cbn [look_in]. unfold DIRENT_SIZE.
  rewrite <- (SL (Z.of_nat m)) by lia. rewrite byte_at_slice, Z.add_0_r, E by lia. done.
Qed.

Lemma root_look_after w w' d fname m f :
  volume w d → root_stored w d → first_free_entry w d m 0 → (m < 15)%nat → proper_name fname → Z.of_nat m + 1 < root_ents (bpb d) →
  disk w' d = splice (disk w d) (512 * root_start d) (sector_with_file w d fname m) →
  hd 0 fname ≠ 5 → hd 0 fname ≠ 0xE5 →
  root_look w' d f =
  match look_in m 0 (root_sector w d) f with
  | Nothing => if strneq 11 fname f then Found (new_file w d fname m) else Stop
  | r => r
  end.
Proof.
  intros V RS [[M1 M2] _ E] Hm P M3 D N5 NE. pose proof (fat_geo w d (vol_fat w d V)) as G.
  destruct (root_start_range w d G) as [R1 R2]. pose proof RS as RS'. unfold root_stored in RS'.
  pose proof (root_sector_len w d G RS) as LS. destruct (new_file_fields w d fname m G RS ltac:(lia) P) as (LN & NF & NC & NS).
  assert (LF : length (sector_with_file w d fname m) = 512%nat) by (unfold sector_with_file; rewrite length_insert, splice_length; lia).
  assert (SL : ∀ j, 0 <= j < 16 → slice (drop (Z.to_nat (512 * root_start d)) (disk w' d)) (32 * j) 32 =
                                  slice (sector_with_file w d fname m) (32 * j) 32).
  { intros j Hj. rewrite slice_drop, D by lia. apply slice_splice_in; lia. }
  destruct (sector_with_file_entry w d fname m G RS Hm P) as [S1 S2].
  unfold root_look. replace (Z.to_nat (root_ents (bpb d))) with (m + S (S (Z.to_nat (root_ents (bpb d)) - m - 2)))%nat by lia.
  rewrite look_in_app.
  assert (look_in m 0 (root_sector w d) f = look_in m 0 (drop (Z.to_nat (512 * root_start d)) (disk w' d)) f) as ->.
  { change 0 with (0 + 0) at 2. apply look_in_part; [lia|lia|]. intros j Hj. rewrite SL by lia. replace (0 + j) with j by lia.
    symmetry. apply sector_with_file_slice; [done..|lia]. }
  destruct (look_in m 0 _ f); [done..|]. cbn [look_in]. unfold DIRENT_SIZE. rewrite !SL by lia. rewrite Z.add_0_l, S1, S2.
  assert (B : byte_at (new_file w d fname m) 0 = hd 0 fname).
  { destruct P as [LP _]. destruct fname; [done|]. done. }
  assert (B0 : hd 0 fname ≠ 0) by (destruct P as [LP F]; destruct fname; [done|]; inversion F; cbn; lia).
  rewrite B. destruct (Z.eqb_spec (hd 0 fname) 0); [done|]. unfold skipped, unescape. rewrite B, NC.
  destruct (Z.eqb_spec (hd 0 fname) 0xE5); [done|]. destruct (Z.eqb_spec (hd 0 fname) 5); [done|].
  assert ((end_mark (fatType d) =? 0) = false) as -> by (by destruct (fatType d)). cbn [orb andb]. rewrite NF.
  by destruct (strneq 11 fname f).
Qed.

Lemma volume_written w w' d l : volume w d → disk_is d l w w' → length l = length (disk w d) → volume w' d.
Proof. intros [F ? ?] D E. split; [by eapply fat_ok_written|done|done]. Qed.

(** C21. Creating a file behind the last entry of the first sector of the root
    directory: afterwards [getFAT_DirEntry] finds the new file, which is empty
    and has no cluster, and it finds every other name as before. *)
Theorem createEntry_lookup fuel name fname d m da w :
  volume w d → root_stored w d → fatType d = determineFAT_Type (bpb d) → short_name (W := W) name fname → proper_name fname →
  first_free_entry w d m 0 → (m < 15)%nat → Z.of_nat m + 1 < root_ents (bpb d) →
  hd 0 fname ≠ 5 → hd 0 fname ≠ 0xE5 → look_in m 0 (root_sector w d) fname = Nothing →
  ∃ w', createEntry (S fuel) [] name d false w = Ret 0 w' ∧
    (∃ N, ∀ fuel', (N <= fuel')%nat → ∃ e w'', getFAT_DirEntry fuel' [name] d da w' = Ret (Some e) w'' ∧
       filename e = fname ∧ file_size e = 0 ∧ start_clus e = end_mark (fatType d)) ∧
    (∀ f e, strneq 11 fname f = false → root_look w' d f = Found e ↔ root_look w d f = Found e).
Proof.
  intros V RS T S P FF Hm Hr N5 NE LK. pose proof (fat_geo w d (vol_fat w d V)) as G.
  destruct (createEntry_writes fuel name fname d m w V RS T S P FF Hm) as (w' & E & D).
  destruct (new_file_fields w d fname m G RS ltac:(lia) P) as (LN & NF & NC & NS). pose proof (root_sector_len w d G RS) as LS.
  pose proof (λ f, root_look_after w w' d fname m f V RS FF Hm P Hr (proj1 D) N5 NE) as RA.
  destruct (root_start_range w d G) as [R1 R2]. assert (RS' := RS). unfold root_stored in RS'.
  assert (LD : length (disk w' d) = length (disk w d)).
  { rewrite (proj1 D). apply splice_length; [lia|]. unfold sector_with_file. rewrite length_insert, splice_length; lia. }
  exists w'. split_and!; [done| |].
  - assert (R : resolves w' d (root_look w' d) [name] (new_file w d fname m)).
    { apply (resolves_last _ _ _ _ fname); [done|]. by rewrite RA, LK, strneq_refl. }
    destruct (getFAT_DirEntry_finds w' d da [name] (new_file w d fname m)) as [N HN];
      [eapply volume_written; [done|exact D|by rewrite <- (proj1 D)]|unfold root_stored; by rewrite LD|done|by left|].
    exists N. intros fuel' Hf.
    destruct (wp_runs _ _ _ _ (λ Q L, HN fuel' Q L Hf)) as (w'' & E'' & _). eauto 10.
  - intros f e NM. rewrite RA, (root_look_before w d m f V RS FF). by destruct (look_in m 0 _ f); [..|rewrite NM].
Qed.

(** A file created in the place of a deleted entry: [createEntry] reports
    success, but nothing is written to the device. *)
Theorem createEntry_deleted fuel name fname d m w :
  volume w d → root_stored w d → fatType d = determineFAT_Type (bpb d) → short_name (W := W) name fname → proper_name fname →
  first_free_entry w d m 0xE5 → ∃ w', createEntry (S fuel) [] name d false w = Ret 0 w' ∧ image w' = image w.
Proof.
  intros V RS T S P FF. pose proof (fat_geo w d (vol_fat w d V)) as G. pose proof (root_sector_len w d G RS) as LS.
  assert (M := ffe_index _ _ _ _ FF). destruct (new_file_fields w d fname m G RS ltac:(lia) P) as (LN & _).
  assert (H : wp (createEntry (Datatypes.S fuel) [] name d false) (λ r w', r = 0 ∧ image w' = image w) (λ _, False) w).
  2:{ apply wp_ret_inv in H as (r & w' & E & -> & ?). eauto. }
  eapply (createEntry_at _ _ fname); [done|done|done|done|done|by right|]. intros w1 I1.
  unfold take_entry, DIRENT_SIZE. apply wp_bind, wp_copy_out; [lia|lia|]. rewrite byte_at_slice by lia.
  rewrite Z.add_0_r, (ffe_mark _ _ _ _ FF).
  assert (strncpy_bytes 11 fname = fname) as -> by (destruct P as [? F]; apply strncpy_bytes_id; [done|eapply Forall_impl; [exact F|cbn; lia]]).
  apply wp_bind, wp_ret. cbn [Z.eqb]. fold (new_file w d fname m). apply wp_bind, wp_copy_in; [lia|lia|]. by apply wp_ret.
Qed.

Lemma fault_of {A B} (m : M W A) (k : A → M W B) f s a s' : m s = Ret a s' → k a s' = Fault f → bind m k s = Fault f.
Proof. intros E F. by rewrite (bind_run m k a s s' E). Qed.

Lemma bind_fault {A B} (m : M W A) (k : A → M W B) f s : m s = Fault f → bind m k s = Fault f.
Proof. intros E. unfold bind. by rewrite E. Qed.

Lemma get_byte_outside buf i (w : W) : len buf <= i → get_byte buf i w = Fault OutOfBounds.
Proof.
  intros Hi. unfold get_byte. destruct (Z.ltb_spec i 0); [done|]. by rewrite (lookup_ge_None_2 buf) by lia.
Qed.

(** The run of a read of one of the first two sectors of the root directory. *)
Lemma root_read w w1 d k buf :
  volume w d → root_stored w d → 16 < root_ents (bpb d) → 0 <= k < 2 → len buf = 512 → image w1 = image w →
  ∃ b w2, readSector d (u32 (root_start d + k)) buf w1 = Ret (0, b) w2 ∧ length b = 512%nat ∧ image w2 = image w ∧
          (k = 0 → b = root_sector w d).
Proof.
  intros V RS RE Hk Lb I1. pose proof (fat_geo w d (vol_fat w d V)) as G. destruct (root_start_range w d G) as [R1 R2].
  unfold root_stored in RS. pose proof (same_disk w w1 d I1) as D1. pose proof (geo_disk w d G). rewrite wrap_small by lia.
  assert (H1 : wp (readSector d (root_start d + k) buf)
    (λ r w2, r = (0, with_sector (disk w d) (root_start d + k) buf) ∧ image w2 = image w) (λ _, False) w1).
  { apply wp_readSector; [by apply (geometry_mono w); [|rewrite D1]|lia|rewrite D1; lia|lia|]. intros w2 I2. rewrite D1. split; [done|congruence]. }
  apply wp_ret_inv in H1 as (r & w2 & E & -> & I2). eexists _, w2. split_and!; [exact E|rewrite with_sector_len; lia|done|].
  intros ->. unfold with_sector, root_sector. rewrite drop_ge, app_nil_r by lia. do 2 f_equal. lia.
Qed.

(** Where all entries of the first sector of a larger root directory are in
    use, [createEntry] reads past the end of its buffer: its pointer to the
    current entry is not set back when the next sector is read. *)
Theorem createEntry_overrun fuel name fname d dir w :
  volume w d → root_stored w d → fatType d = determineFAT_Type (bpb d) → short_name (W := W) name fname →
  16 < root_ents (bpb d) → (∀ j, 0 <= j < 16 → in_use (byte_at (root_sector w d) (32 * j))) →
  createEntry (S (S fuel)) [] name d dir w = Fault OutOfBounds.
Proof.
  intros V RS T S RE U. pose proof (fat_geo w d (vol_fat w d V)) as G. pose proof (root_sector_len w d G RS) as LS.
  unfold createEntry. eapply fault_of; [apply S|]. cbn [sbFilePathDepth length Z.of_nat Z.eqb]. rewrite (geo_sec w d G), <- T.
  rewrite (match_fat _ _ _ (geo_type w d G)). assert (F : ∀ buf w1, len buf = 512 → image w1 = image w →
    create_loop (Datatypes.S (Datatypes.S fuel)) d dir true fname 0 512 (root_start d) 0 (root_ents (bpb d)) 512 buf w1 = Fault OutOfBounds).
  2:{ destruct (malloc_ok 512 w) as (buf & w1 & E & Lb & _ & I1); [lia|].
      eapply fault_of; [exact E|]. by apply F. }
  intros buf w1 Lb I1. cbn [create_loop]. destruct (Z.eqb_spec (root_ents (bpb d)) 0); [lia|].
  destruct (root_read w w1 d 0 buf V RS RE ltac:(lia) Lb I1) as (b & w2 & E2 & Lb2 & I2 & Eb). rewrite Z.add_0_r in E2.
  eapply fault_of; [exact E2|]. rewrite (Eb eq_refl). cbn [Z.eqb negb]. change (Z.to_nat (512 / DIRENT_SIZE)) with 16%nat.
  assert (SC : wp (create_scan 16 d dir true fname 0 0 512 (root_start d + 1) 0 (root_ents (bpb d)) 512 (root_sector w d))
    (λ r w3, r = inr (512, root_ents (bpb d) - 16) ∧ w3 = w2) (λ _, False) w2).
  { apply (create_scan_used 16 0); [lia|lia|lia|intros j Hj; apply U; lia|]. by apply wp_ret. }
  apply wp_ret_inv in SC as (r & w3 & E3 & -> & ->). eapply fault_of; [exact E3|]. cbn beta iota.
  eapply fault_of; [done|]. destruct (Z.eqb_spec (root_ents (bpb d) - 16) 0); [lia|].
  destruct (root_read w w2 d 1 (root_sector w d) V RS RE ltac:(lia) ltac:(lia) I2) as (b' & w4 & E4 & Lb4 & _ & _).
  eapply fault_of; [exact E4|]. cbn [Z.eqb negb]. apply bind_fault. cbn [create_scan andb].
  destruct (Z.eqb_spec (root_ents (bpb d) - 16) 0); [lia|]. apply bind_fault, get_byte_outside. lia.
Qed.

(** ** Mounting *)

Lemma bpb_ranges b :
  Forall is_byte b →
  0 <= root_ents b < 65536 ∧ 0 <= bytes_per_sec b < 65536 ∧ 0 <= resd_secs b < 65536 ∧ 0 <= fat_copies b < 256 ∧
  0 <= secs_per_fat b < 65536 ∧ 0 <= secs_per_clus b < 256 ∧ 0 <= total_secs b < 65536.
Proof.
  intros B. unfold root_ents, bytes_per_sec, resd_secs, fat_copies, secs_per_fat, secs_per_clus, total_secs.
  split_and!; try apply word_at_range; try apply byte_at_range; done.
Qed.

(** The sectors of the root directory. *)
Definition root_secs (b : list Z) : Z := root_ents b * 32 / bytes_per_sec b.

Lemma root_secs_range b : Forall is_byte b → 0 < bytes_per_sec b → 0 <= root_secs b <= 65535 * 32.
Proof.
  intros B P. destruct (bpb_ranges b B) as (R & _). unfold root_secs. split; [apply Z.div_pos; lia|].
  apply Z.div_le_upper_bound; [lia|]. nia.
Qed.

Section geometry_of_boot_sector.
Context (b : list Z) (BB : Forall is_byte b) (BT : determineFAT_Type b = FAT12 ∨ determineFAT_Type b = FAT16).
Context (BS : 0 < bytes_per_sec b) (BF : 0 < secs_per_fat b) (BN : 0 < total_secs b) (BR : resd_secs b <= total_secs b).

Lemma calcRootDirSecs_run (w : W) : calcRootDirSecs b w = Ret (root_secs b) w.
Proof.
  destruct (bpb_ranges b BB) as (R & _). unfold calcRootDirSecs, cdiv. rewrite match_fat by done.
  destruct (Z.eqb_spec (bytes_per_sec b) 0); [lia|]. unfold ret. by rewrite Z.quot_div_nonneg by lia.
Qed.

Lemma fat_secs_eq : fat_secs b = secs_per_fat b.
Proof. unfold fat_secs. destruct (Z.eqb_spec (secs_per_fat b) 0); [lia|done]. Qed.

Lemma firstDataSec_run (w : W) :
  firstDataSec_of b w = Ret (resd_secs b + fat_copies b * secs_per_fat b + root_secs b) w.
Proof.
  destruct (bpb_ranges b BB) as (R1 & R2 & R3 & R4 & R5 & R6 & R7). pose proof (root_secs_range b BB BS). unfold firstDataSec_of.
  rewrite match_fat, (bind_run _ _ _ _ _ (calcRootDirSecs_run w)), fat_secs_eq by done. unfold ret. f_equal.
  apply signed_small; [lia|]. nia.
Qed.

Lemma calcDataSecs_run (w : W) :
  calcDataSecs b w = Ret (total_secs b - resd_secs b + fat_copies b * secs_per_fat b + root_secs b) w.
Proof.
  destruct (bpb_ranges b BB) as (R1 & R2 & R3 & R4 & R5 & R6 & R7). pose proof (root_secs_range b BB BS). unfold calcDataSecs.
  destruct (Z.eqb_spec (total_secs b) 0); [lia|].
  rewrite match_fat, (bind_run _ _ _ _ _ (calcRootDirSecs_run w)), fat_secs_eq by done. unfold ret. f_equal.
  apply signed_small; [lia|]. nia.
Qed.

Lemma calcClusCount_run (w : W) :
  0 < secs_per_clus b →
  calcClusCount b w = Ret ((total_secs b - resd_secs b + fat_copies b * secs_per_fat b + root_secs b) / secs_per_clus b) w.
Proof.
  intros SP. destruct (bpb_ranges b BB) as (R1 & R2 & R3 & R4 & R5 & R6 & R7). pose proof (root_secs_range b BB BS).
  unfold calcClusCount. rewrite match_fat, (bind_run _ _ _ _ _ (calcDataSecs_run w)) by done. unfold cdiv.
  destruct (Z.eqb_spec (secs_per_clus b) 0); [lia|]. unfold ret. by rewrite Z.quot_div_nonneg by nia.
Qed.
End geometry_of_boot_sector.

(** C38. [getDeviceData] of a device with a FAT12 or FAT16 boot sector takes the
    geometry from it: the data area starts behind the reserved sectors, the
    tables and the root directory.  The number of data sectors, and with it
    the number of clusters, counts the sectors of the tables and of the root
    directory on top of the volume instead of taking them off. *)
Theorem getDeviceData_mounts w w1 devNum o b :
  b = slice (image w o (MINOR devNum)) 0 512 →
  lookupDeviceMajor (MAJOR devNum) w = Ret (Some (o, 512)) w1 → image w1 = image w →
  block_len o (MINOR devNum) = 512 → 512 <= len (image w o (MINOR devNum)) → strneq 3 [70; 65; 84] (fs_type b) = true →
  determineFAT_Type b = FAT12 ∨ determineFAT_Type b = FAT16 → 0 < bytes_per_sec b → 0 < secs_per_clus b →
  0 < secs_per_fat b → 0 < total_secs b → resd_secs b <= total_secs b →
  ∃ d w', getDeviceData devNum w = Ret (Some d) w' ∧ image w' = image w ∧
    bpb d = b ∧ owner d = o ∧ deviceNum d = devNum ∧ blockLen d = 512 ∧ fatType d = determineFAT_Type b ∧
    fatSize d = secs_per_fat b ∧ rootDirSecs d = root_secs b ∧ firstDataSec d = root_start d + root_secs b ∧
    clusterCount d = numDataSecs d / secs_per_clus b ∧
    numDataSecs d = (total_secs b - firstDataSec d) + 2 * (fat_copies b * secs_per_fat b + root_secs b).
Proof.
  intros Eb Lk I1 BL Ls Fs BT BS SP BF BN BR.
  assert (BB : Forall is_byte b) by (subst b; apply Forall_slice, image_bytes).
  destruct (bpb_ranges b BB) as (R1 & R2 & R3 & R4 & R5 & R6 & R7). pose proof (root_secs_range b BB BS) as RR.
  destruct (malloc_ok 512 w1) as (buf & w2 & E2 & Lb & _ & I2); [lia|].
  destruct (read_ok o (MINOR devNum) 0 1 512 buf w2) as (r & w3 & E3 & Rr & I3);
    [lia|lia|lia|rewrite I2, I1; lia|lia|]. rewrite BL, I2, I1, Z.mul_0_l, drop_ge, app_nil_r, <- Eb in E3 by lia.
  unfold getDeviceData. rewrite (bind_run _ _ _ _ _ Lk). cbn beta iota. rewrite (bind_run _ _ _ _ _ E2). cbn beta iota.
  rewrite (bind_run _ _ _ _ _ E3). cbn beta iota. destruct (Z.ltb_spec r 0); [lia|].
  assert (Lbb : len b = 512) by (subst b; rewrite slice_length; lia).
  assert (copy_out b 0 FAT_SECTOR_SIZE w3 = Ret b w3) as Ec.
  { unfold copy_out, FAT_SECTOR_SIZE. destruct (Z.ltb_spec (len b) (0 + 512)); [lia|]. cbn [orb Z.ltb Z.compare]. unfold ret, slice.
    f_equal. change (Z.to_nat 0) with 0%nat. rewrite drop_0, take_ge by lia. done. }
  rewrite (bind_run _ _ _ _ _ Ec), Fs. cbn [negb].
  set (D := total_secs b - resd_secs b + fat_copies b * secs_per_fat b + root_secs b).
  assert (0 <= D < 2 ^ 32) by (unfold D; nia).
  assert (0 <= D / secs_per_clus b < 2 ^ 32) by (split; [apply Z.div_pos; lia|apply Z.div_lt_upper_bound; nia]).
  eexists {| deviceNum := devNum; owner := o; blockLen := 512; bpb := b; rootDirSecs := root_secs b;
             firstDataSec := resd_secs b + fat_copies b * secs_per_fat b + root_secs b; numDataSecs := D;
             clusterCount := D / secs_per_clus b; fatType := determineFAT_Type b; fatSize := secs_per_fat b |}, w3.
  unfold root_start. cbn [bpb owner deviceNum blockLen fatType fatSize rootDirSecs firstDataSec clusterCount numDataSecs].
  split_and!; try done; [|congruence|lia|unfold D; lia].
  rewrite match_fat by done.
  rewrite (bind_run _ _ _ _ _ (calcClusCount_run b BB BT BS BF BN BR w3 SP)), (bind_run _ _ _ _ _ (firstDataSec_run b BB BT BS BF w3)).
  rewrite (bind_run _ _ _ _ _ (calcDataSecs_run b BB BT BS BF BN BR w3)), (bind_run _ _ _ _ _ (calcRootDirSecs_run b BB BT BS w3)).
  fold D. unfold ret. rewrite !wrap_small by (done || nia). done.
Qed.
End create.
