(* ===== verification/FatList.v ===== *)
(** * FAT file system: attributes and directory lists

    The name a file is listed with is the name it was created with, in upper
    case, and the list of a root directory that ends in its first sector has
    one element for each entry in use. *)

From S2P Require Import Prelude Numbers Fat FatLib FatFile FatSpec FatNames FatDir FatRead FatCreate.

(** ** Names *)

Lemma trimmed_spec m k l :
  (∀ j, Z.of_nat m <= j < Z.of_nat (m + k) → byte_at l j = 32) → ((0 < m)%nat → byte_at l (Z.of_nat m - 1) ≠ 32) →
  trimmed (m + k) l = m.
Proof.
  intros Sp N. induction k as [|k IH].
  - rewrite Nat.add_0_r. destruct m as [|m]; cbn; [done|]. specialize (N ltac:(lia)).
    replace (Z.of_nat (S m) - 1) with (Z.of_nat m) in N by lia. destruct (Z.eqb_spec (byte_at l (Z.of_nat m)) 32); done.
  - rewrite Nat.add_succ_r. cbn [trimmed]. rewrite Sp by lia. rewrite IH; [done|]. intros j Hj. apply Sp. lia.
Qed.

(** Characters a name can be given with: not the end of a string, not a space. *)
Definition name_char (c : Z) : Prop := c ≠ 0 ∧ c ≠ 32.

Lemma upper_char c : name_char c → name_char (upper c).
Proof. unfold name_char, upper, toupper, islower. destruct ((97 <=? c) && (c <=? 122)) eqn:E; lia. Qed.

Lemma trimmed_pad n l rest :
  (length l <= n)%nat → Forall name_char l → trimmed n (map upper (pad n l) ++ rest) = length l.
Proof.
  intros Hl F. replace n with (length l + (n - length l))%nat at 1 by lia. unfold pad.
  rewrite map_app, <- app_assoc. apply trimmed_spec.
  - intros j Hj. rewrite byte_at_app_r by (rewrite length_map; lia). rewrite length_map, byte_at_app_l by (rewrite length_map, length_replicate; lia).
    assert (map upper (replicate (n - length l) 32) = replicate (n - length l) 32) as -> by (exact (fmap_replicate upper _ 32)).
    unfold byte_at. rewrite lookup_replicate_2 by lia. done.
  - intros P. rewrite byte_at_app_l by (rewrite length_map; lia). unfold byte_at.
    destruct (lookup_lt_is_Some_2 (map upper l) (Z.to_nat (Z.of_nat (length l) - 1))) as [c E]; [rewrite length_map; lia|].
    rewrite E. cbn. apply list_lookup_fmap_Some in E as (c0 & -> & E0). apply upper_char. by eapply Forall_lookup_1 in F.
Qed.

Lemma strncpy_bytes_prefix n l rest :
  n = length l → Forall (λ c, c ≠ 0) l → strncpy_bytes n (l ++ rest) = l.
Proof.
  intros ->. induction l as [|c l IH]; intros F; cbn; [done|]. inversion F; subst. destruct (Z.eqb_spec c 0); [done|].
  by rewrite IH.
Qed.

Lemma upper_nonzero l : Forall name_char l → Forall (λ c, c ≠ 0) (map upper l).
Proof. intros F. apply Forall_fmap. eapply Forall_impl; [exact F|]. intros c Hc. cbn. by destruct (upper_char c Hc). Qed.

(** The name of a file in its attributes is the one it was created with, in
    upper case: [entry_attributes] of an entry whose name [generate8_3Name]
    has made from [base.ext] gives back [base.ext]. *)
Theorem attributes_roundtrip {W} (w : W) base ext f rest :
  plain (base ++ 46 :: ext) → is_base base → (length base <= 8)%nat → (0 < length ext <= 3)%nat →
  Forall name_char base → Forall name_char ext →
  generate8_3Name (base ++ 46 :: ext) w = Ret (Some f) w → Z.land (byte_at (f ++ rest) 11) FAT_SUBDIR = 0 →
  let a := entry_attributes (f ++ rest) in
  take (Z.to_nat (name_len a)) (name a) = map upper base ++ 46 :: map upper ext ∧ length (name a) = 255%nat.
Proof.
  intros P B Lb Le Fb Fe E D. rewrite generate8_3Name_dot in E by done. case_decide; [|lia]. injection E as <-. cbn zeta.
  unfold entry_attributes, attrib. rewrite D. cbn [Z.eqb negb]. unfold name_of. rewrite map_app, <- app_assoc.
  assert (drop 8 (map upper (pad 8 base) ++ map upper (pad 3 ext) ++ rest) = map upper (pad 3 ext) ++ rest) as ->.
  { apply drop_app_length'. unfold pad. rewrite length_map, length_app, length_replicate. lia. }
  rewrite !trimmed_pad by (lia || done). cbn [name name_len].
  assert (∀ n l tl, (length l <= n)%nat → Forall name_char l → strncpy_bytes (length l) (map upper (pad n l) ++ tl) = map upper l) as SN.
  { intros n l tl Hl F. unfold pad. rewrite map_app, <- app_assoc. apply strncpy_bytes_prefix; [by rewrite length_map|by apply upper_nonzero]. }
  destruct (length ext) as [|k] eqn:LE; [lia|]. rewrite SN by done. rewrite <- LE, SN by (done || lia). cbn [app].
  split.
  - rewrite Nat2Z.id. by rewrite take_app_length.
  - rewrite length_app, length_replicate, length_app. cbn. rewrite !length_map. lia.
Qed.

Section list.
Context {W : Type} {WI : World W} {SI : Storage W}.

(** ** Lists *)

(** The attributes of the entries [i], ..., [i + n - 1] that are listed. *)
Fixpoint listed (n : nat) (i : Z) (D : list Z) : list FileAttributes :=
  match n with
  | O => []
  | S n =>
    let e := slice D (32 * i) 32 in
    if skipped e then listed n (i + 1) D else entry_attributes (unescape e) :: listed n (i + 1) D
  end.

Lemma list_buffer_spec n i buf Q L (w : W) :
  0 <= i → 32 * (i + Z.of_nat n) <= len buf → Q (listed n i buf) w → wp (list_buffer n i buf) Q L w.
Proof.
  revert i Q. induction n as [|n IH]; intros i Q Hi Hl HQ; cbn [list_buffer listed] in *; [done|]. unfold DIRENT_SIZE.
  apply wp_bind, wp_copy_out; [lia|lia|]. apply wp_bind, IH; [lia|lia|]. by apply wp_ret.
Qed.

Lemma listed_length n i D : (length (listed n i D) <= n)%nat.
Proof. revert i. induction n as [|n IH]; intros i; cbn; [done|]. specialize (IH (i + 1)). destruct (skipped _); cbn; lia. Qed.

(** The count stops at the end marker. *)
Lemma count_entries_end m n i full dir Q L (w : W) :
  0 <= i → 32 * (i + Z.of_nat m) < len (entries dir) →
  (∀ j, 0 <= j < Z.of_nat m → byte_at (entries dir) (32 * (i + j)) ≠ 0) → byte_at (entries dir) (32 * (i + Z.of_nat m)) = 0 →
  Q {| entries := entries dir; num_entries := Some (i + Z.of_nat m); start := start dir; current := current dir; next := next dir;
       more := Some false; use_sects := use_sects dir |} w →
  wp (count_entries (m + S n) i full dir) Q L w.
Proof.
  revert i. induction m as [|m IH]; intros i Hi Hl Hu Hz HQ; cbn [plus count_entries]; unfold DIRENT_SIZE; (apply wp_bind, wp_get_byte; [lia|]).
  - replace (i + Z.of_nat 0) with i in * by lia. rewrite Hz. by apply wp_ret.
  - pose proof (Hu 0 ltac:(lia)) as U. rewrite Z.add_0_r in U. destruct (Z.eqb_spec (byte_at (entries dir) (32 * i)) 0); [done|].
    assert ((match (m + S n)%nat with O => {| entries := entries dir; num_entries := Some (i + 1); start := start dir; current := current dir;
               next := next dir; more := Some full; use_sects := use_sects dir |} | _ => dir end) = dir) as -> by (by rewrite Nat.add_succ_r).
    apply IH; [lia|lia| | |].
    + intros j Hj. replace (i + 1 + j) with (i + (j + 1)) by lia. apply Hu. lia.
    + by replace (i + 1 + Z.of_nat m) with (i + Z.of_nat (S m)) by lia.
    + by replace (i + 1 + Z.of_nat m) with (i + Z.of_nat (S m)) by lia.
Qed.

(** The list of a root directory that ends in its first sector: the
    attributes of each entry that is not deleted, in order, and their number. *)
Theorem fatGetDirList_root w w1 d devNum m fuel maxEntries :
  getDeviceData devNum w = Ret (Some d) w1 → image w1 = image w → volume w d → root_stored w d →
  fatType d = determineFAT_Type (bpb d) → (m < 16)%nat →
  (∀ j, 0 <= j < Z.of_nat m → byte_at (root_sector w d) (32 * j) ≠ 0) → byte_at (root_sector w d) (32 * Z.of_nat m) = 0 →
  Z.of_nat m < maxEntries →
  ∃ w', fatGetDirList (S fuel) [] devNum maxEntries w =
        Ret (len (listed m 0 (root_sector w d)), listed m 0 (root_sector w d)) w' ∧ image w' = image w.
Proof.
  intros M I1 V RS T Hm Hu Hz Hx. pose proof (fat_geo w d (vol_fat w d V)) as G. pose proof (root_sector_len w d G RS) as LS.
  destruct (root_start_range w d G) as [R1 R2]. unfold fatGetDirList. rewrite (bind_run _ _ _ _ _ M). apply wp_runs. intros Q L HQ.
  apply wp_bind. unfold readDirEntry. apply wp_bind, wp_malloc; [lia|]. intros fd w2 _ _ I2. cbn [sbFilePathDepth length Z.of_nat Z.eqb].
  unfold read_root. rewrite <- T, (geo_sec w d G). change (512 / DIRENT_SIZE) with 16. pose proof (geo_disk w d G).
  assert (I : image w2 = image w) by congruence. pose proof (same_disk w w2 d I) as D2. unfold root_stored in RS.
  rewrite (match_fat _ _ _ (geo_type w d G)).
  apply wp_bind, wp_malloc; [lia|]. intros buf w3 Lb Fb I3. pose proof (same_disk w2 w3 d I3) as D3.
  apply wp_bind, wp_readSector; [apply (geometry_mono w); [done|by rewrite D3, D2]|lia|rewrite D3, D2; lia|lia|]. intros w4 I4.
  rewrite D3, D2. cbn [Z.ltb Z.compare].
  assert (with_sector (disk w d) (root_start d) buf = root_sector w d) as ->
    by (unfold with_sector, root_sector; rewrite drop_ge, app_nil_r by lia; done).
  change (Z.to_nat 16) with 16%nat. replace 16%nat with (m + S (15 - m))%nat by lia.
  apply wp_bind, count_entries_end; cbn [entries num_entries more]; [lia|lia|intros j Hj; by apply Hu|done|].
  apply wp_ret. cbn [list_loop num_entries entries more]. destruct (Z.eqb_spec maxEntries 0); [lia|].
  apply wp_bind, wp_ret. replace (Z.min (0 + Z.of_nat m) maxEntries) with (Z.of_nat m) by lia. rewrite Nat2Z.id.
  apply wp_bind, list_buffer_spec; [lia|lia|]. pose proof (listed_length m 0 (root_sector w d)) as LL.
  destruct (Z.ltb_spec (len (listed m 0 (root_sector w d))) maxEntries); [|lia]. apply wp_bind, wp_ret, wp_ret.
  rewrite Z.add_0_l. apply HQ. congruence.
Qed.
End list.
