(* ===== verification/FatDisk.v ===== *)
(** * FAT file system: a device in memory

    An implementation of the interface [World] that keeps the [Storage] laws: a
    device with blocks of 512 bytes in memory.  On it lie a small FAT12 volume,
    to which the theorems on the file system are applied, and a table of 16-bit
    entries. *)

From S2P Require Import Prelude Numbers Fat FatLib FatFile FatSpec FatNames FatDir FatRead FatCreate FatList.

(** [fill] is what uninitialised memory holds. *)
Record ram := Ram { raw : list Z; fill : Z }.

Definition ram_image (w : ram) (o m : Z) : list Z := if (o =? 1) && (m =? 0) then map u8 (raw w) else [].

Definition ram_in_range (w : ram) (o m s n bytes : Z) (buf : list Z) : bool :=
  (0 <=? s) && (0 <=? n) && (bytes =? n * 512) && (s * 512 + bytes <=? len (ram_image w o m)) && (bytes <=? len buf).

Definition ram_write (w : ram) (o m s bytes : Z) (buf : list Z) : ram :=
  if (o =? 1) && (m =? 0) then Ram (splice (map u8 (raw w)) (s * 512) (take (Z.to_nat bytes) buf)) (fill w) else w.

#[export] Instance ram_world : World ram := {
  malloc n := λ w, Ret (Some (replicate (Z.to_nat n) (u8 (fill w)))) w;
  garbage n := λ w, Ret (replicate (Z.to_nat n) (u8 (fill w))) w;
  deviceRead o m s n bytes buf := λ w,
    if ram_in_range w o m s n bytes buf
    then Ret (n, slice (ram_image w o m) (s * 512) bytes ++ drop (Z.to_nat bytes) buf) w else Ret (-1, buf) w;
  deviceWrite o m s n bytes buf := λ w,
    if ram_in_range w o m s n bytes buf then Ret n (ram_write w o m s bytes buf) else Ret (-1) w;
  lookupDeviceMajor k := λ w, Ret (if k =? 3 then Some (1, 512) else None) w;
  sbStringCopy s := λ w, Ret (Some s) w;
  MAJOR k := k / 256;
  MINOR k := k mod 256;
}.

Lemma map_u8_id l : Forall is_byte l → map u8 l = l.
Proof.
  intros F. induction F as [|x l Hx F IH]; cbn; [done|]. by rewrite IH, wrap_small.
Qed.

Lemma map_u8_bytes l : Forall is_byte (map u8 l).
Proof. apply Forall_fmap, Forall_true. intros x. cbn. apply wrap_range. lia. Qed.

Lemma replicate_bytes n w : Forall is_byte (replicate n (u8 (fill w))).
Proof. apply Forall_replicate, wrap_range. lia. Qed.

Lemma ram_in_range_true w o m s n bytes buf :
  0 <= s → 0 <= n → bytes = n * 512 → s * 512 + bytes <= len (ram_image w o m) → bytes <= len buf →
  ram_in_range w o m s n bytes buf = true.
Proof. intros. unfold ram_in_range. rewrite !andb_true_iff, !Z.leb_le, Z.eqb_eq. lia. Qed.

#[export, refine] Instance ram_storage : Storage ram := {
  image := ram_image;
  block_len _ _ := 512;
}.
Proof.
  - intros w o m. unfold ram_image. destruct (_ && _); [apply map_u8_bytes|constructor].
  - intros n w Hn. eexists _, w. split_and!; [done|rewrite length_replicate; lia|apply replicate_bytes|done].
  - intros n w Hn. eexists _, w. split_and!; [done|rewrite length_replicate; lia|apply replicate_bytes|done].
  - intros s w. by exists w.
  - intros k w. eexists _, w. done.
  - intros o m s n bytes buf w Hs Hn Hb Hl Hbuf. eexists n, w. cbn [deviceRead ram_world].
    rewrite ram_in_range_true by done. done.
  - intros o m s n bytes buf w Hs Hn Hb Hl Hbuf F. eexists n, (ram_write w o m s bytes buf). cbn [deviceWrite ram_world].
    rewrite ram_in_range_true by done. unfold ram_write, ram_image in *.
    destruct (Z.eqb_spec o 1), (Z.eqb_spec m 0); cbn [andb raw] in *; split_and!; try done.
    2: { intros o' m' N. destruct (Z.eqb_spec o' 1), (Z.eqb_spec m' 0); cbn; subst; done. }
    1: { apply map_u8_id, Forall_splice; [apply map_u8_bytes|by apply Forall_take]. }
    all: cbn in Hl; assert (s = 0 ∧ bytes = 0) as [-> ->] by lia; done.
Defined.

(** ** The volume *)

Definition pad_to (n : nat) (l : list Z) : list Z := l ++ replicate (n - length l) 0.

Definition demo_boot : list Z := pad_to 512
  ([0xEB; 0x3C; 0x90] ++ replicate 8 32 ++ word_bytes 512 ++ [1] ++ word_bytes 1 ++ [1] ++ word_bytes 32 ++ word_bytes 14 ++
   [0xF8] ++ word_bytes 1 ++ replicate 12 0 ++ replicate 7 0 ++ replicate 11 32 ++ [70; 65; 84; 49; 50; 32; 32; 32]).

(** Clusters 2 and 3 hold a file, cluster 4 a directory, cluster 5 a file in it. *)
Definition demo_fat : list Z := pad_to 512 [0xF8; 0xFF; 0xFF; 0x03; 0x80; 0xFF; 0xF8; 0x8F; 0xFF].

(** "README.TXT", "SUB" and "A.B". *)
Definition demo_readme : list Z := [82; 69; 65; 68; 77; 69; 32; 32; 84; 88; 84].
Definition demo_sub : list Z := [83; 85; 66; 32; 32; 32; 32; 32; 32; 32; 32].
Definition demo_ab : list Z := [65; 32; 32; 32; 32; 32; 32; 32; 66; 32; 32].

Definition demo_root : list Z := pad_to 1024
  (dirent demo_readme 0 (replicate 10 0) 2 700 ++ dirent demo_sub 0x10 (replicate 10 0) 4 0).
Definition demo_dir : list Z := pad_to 512
  (dirent ([46] ++ replicate 10 32) 0x10 (replicate 10 0) 4 0 ++ dirent ([46; 46] ++ replicate 9 32) 0x10 (replicate 10 0) 0 0 ++
   dirent demo_ab 1 (replicate 10 0) 5 3).
Definition demo_data : list Z := map (λ x, x mod 251) (seqZ 0 1024).

Definition demo_raw : list Z := pad_to (Z.to_nat 7168) (demo_boot ++ demo_fat ++ demo_root ++ demo_data ++ demo_dir ++ [104; 105; 33]).
Definition demo_ram : ram := Ram demo_raw 0xFF.

Definition demo_dev : FAT_Dev := {|
  deviceNum := 0x300; owner := 1; blockLen := 512; bpb := demo_boot; rootDirSecs := 2; firstDataSec := 4;
  numDataSecs := 16; clusterCount := 16; fatType := FAT12; fatSize := 1 |}.

Lemma demo_mount : getDeviceData 0x300 demo_ram = Ret (Some demo_dev) demo_ram.
Proof. vm_cast_no_check (eq_refl (Ret (Some demo_dev) demo_ram : outcome ram (option FAT_Dev))). Qed.

Definition byte_check (l : list Z) : bool := forallb (λ b, (0 <=? b) && (b <? 256)) l.

Lemma byte_check_ok l : byte_check l = true → Forall is_byte l.
Proof.
  unfold byte_check. rewrite forallb_forall, Forall_forall. intros H x Hx. apply list_elem_of_In in Hx.
  specialize (H x Hx). lia.
Qed.

Definition demo_image : list Z := ram_image demo_ram 1 0.

Lemma demo_disk_len : len (disk demo_ram demo_dev) = 7168.
Proof. vm_compute. reflexivity. Qed.

Lemma demo_geometry : geometry demo_ram demo_dev.
Proof.
  split; [by left|apply byte_check_ok; vm_compute; reflexivity|vm_compute; reflexivity| |rewrite demo_disk_len; lia].
  cbn. split_and!; [lia|done|by exists 1].
Qed.

Lemma demo_fat_ok : fat_ok demo_ram demo_dev.
Proof.
  split; [exact demo_geometry|cbn; lia|cbn; vm_compute; discriminate|]. rewrite demo_disk_len. vm_compute. discriminate.
Qed.

Lemma demo_volume : volume demo_ram demo_dev.
Proof. split; [exact demo_fat_ok|vm_compute; reflexivity|cbn; lia]. Qed.

Lemma demo_root_stored : root_stored demo_ram demo_dev.
Proof. unfold root_stored. rewrite demo_disk_len. vm_compute. discriminate. Qed.

Lemma demo_entries :
  fat_entry demo_ram demo_dev 2 = 3 ∧ fat_entry demo_ram demo_dev 3 = 0xFF8 ∧ fat_entry demo_ram demo_dev 4 = 0xFF8 ∧
  fat_entry demo_ram demo_dev 5 = 0xFF8.
Proof. vm_compute. done. Qed.

(** [stored] and [chain] are decided by evaluation. *)
Lemma demo_stored c : 2 <= c < 12 → stored demo_ram demo_dev c.
Proof.
  intros Hc. unfold stored. rewrite demo_disk_len. unfold clus_pos, clus_len, spc. cbn [clusterCount firstDataSec fatType demo_dev].
  change (secs_per_clus (bpb demo_dev)) with 1. split_and!; [lia|lia| |lia]. unfold getClusterType.
  destruct (Z.eqb_spec c 0); [lia|]. destruct (Z.leb_spec 0xFF8 c); [lia|]. destruct (Z.leb_spec 2 c), (Z.leb_spec c 0xFEF); try lia. done.
Qed.

Lemma demo_file_chain : chain demo_ram demo_dev 2 [2; 3].
Proof.
  destruct demo_entries as (E2 & E3 & _). cbn [chain]. rewrite E2. cbn [chain]. rewrite E3.
  split; [done|]. split; [apply demo_stored; lia|]. split; [done|]. split; [apply demo_stored; lia|done].
Qed.

Lemma demo_dir_chain : chain demo_ram demo_dev 4 [4].
Proof.
  destruct demo_entries as (_ & _ & E4 & _). cbn [chain]. rewrite E4.
  split; [done|]. split; [apply demo_stored; lia|done].
Qed.

(** "readme.txt", "sub", "a.b" and "new.c". *)
Definition name_readme : list Z := [114; 101; 97; 100; 109; 101; 46; 116; 120; 116].
Definition name_sub : list Z := [115; 117; 98].
Definition name_ab : list Z := [97; 46; 98].
Definition name_new : list Z := [110; 101; 119; 46; 99].
Definition demo_new : list Z := [78; 69; 87; 32; 32; 32; 32; 32; 67; 32; 32].

Lemma demo_names :
  short_name (W := ram) name_readme demo_readme ∧ short_name (W := ram) name_sub demo_sub ∧
  short_name (W := ram) name_ab demo_ab ∧ short_name (W := ram) name_new demo_new.
Proof. split_and!; intros w; vm_compute; reflexivity. Qed.

(** ** The theorems on the volume *)

Lemma readFAT_spec_witness : ∃ w', readFAT demo_dev 2 demo_ram = Ret 3 w'.
Proof.
  destruct (readFAT_spec demo_ram demo_dev 2 demo_fat_ok) as (w' & E & _); [cbn; lia|]. exists w'. rewrite E.
  by rewrite (proj1 demo_entries).
Defined.

Lemma getFreeCluster_spec_witness :
  ∃ v w', getFreeCluster demo_dev demo_ram = Ret v w' ∧ first_free demo_ram demo_dev 2 14 v.
Proof.
  destruct (getFreeCluster_spec demo_ram demo_dev demo_fat_ok) as (v & w' & E & F & _); [cbn; lia|].
  exists v, w'. split; [exact E|exact F].
Defined.

Lemma writeFAT_readFAT_witness :
  ∃ w', writeFAT demo_dev 6 4 demo_ram = Ret 0 w' ∧ (∃ w'', readFAT demo_dev 4 w' = Ret 6 w'') ∧ ∃ w'', readFAT demo_dev 5 w' = Ret 0xFF8 w''.
Proof.
  destruct (writeFAT_readFAT demo_ram demo_dev 4 6 demo_fat_ok) as (w' & E & R & _); [cbn; lia|cbn; lia|right; vm_compute; done|].
  exists w'. split_and!; [done|apply (R 4); cbn; lia|]. destruct (R 5) as (w'' & E5); [cbn; lia|]. exists w''. rewrite E5.
  destruct demo_entries as (_ & _ & _ & ->). done.
Defined.

Lemma readFAT_type_witness :
  ∃ v w', readFAT demo_dev 5 demo_ram = Ret v w' ∧ 0 <= v < 4096 ∧ getClusterType v FAT12 ≠ INVALID_CLUSTER.
Proof.
  destruct (readFAT_entry_run demo_ram demo_dev 5 demo_fat_ok) as (w' & E); [cbn; lia|]. eexists _, w'. split; [exact E|].
  apply (readFAT_type demo_ram demo_dev 5 _ w' demo_fat_ok); [cbn; lia|exact E].
Defined.

Lemma generate8_3Name_bounds_witness :
  generate8_3Name name_readme demo_ram = Ret (Some demo_readme) demo_ram ∧
  generate8_3Name ([97] ++ 46 :: [104; 116; 109; 108]) demo_ram = Fault OutOfBounds.
Proof.
  split.
  - refine (proj1 (proj1 (generate8_3Name_bounds [114; 101; 97; 100; 109; 101] [116; 120; 116] demo_ram _ _ _) _)); try (cbn; lia).
    + unfold plain. done.
    + apply (bool_decide_unpack _). vm_compute. exact I.
  - refine (proj2 (generate8_3Name_bounds [97] [104; 116; 109; 108] demo_ram _ _ _) _); try (cbn; lia).
    + unfold plain. done.
    + apply (bool_decide_unpack _). vm_compute. exact I.
Defined.

Definition readme_entry : list Z := dirent demo_readme 0 (replicate 10 0) 2 700.
Definition sub_entry : list Z := dirent demo_sub 0x10 (replicate 10 0) 4 0.
Definition ab_entry : list Z := dirent demo_ab 1 (replicate 10 0) 5 3.

Lemma demo_readme_resolves : resolves demo_ram demo_dev (root_look demo_ram demo_dev) [name_readme] readme_entry.
Proof. apply (resolves_last _ _ _ _ demo_readme); [apply demo_names|vm_compute; reflexivity]. Qed.

Lemma demo_ab_resolves : resolves demo_ram demo_dev (root_look demo_ram demo_dev) [name_sub; name_ab] ab_entry.
Proof.
  apply (resolves_step _ _ _ _ demo_sub sub_entry [4]); [apply demo_names|vm_compute; reflexivity|vm_compute; discriminate|exact demo_dir_chain|].
  apply (resolves_last _ _ _ _ demo_ab); [apply demo_names|vm_compute; reflexivity].
Qed.

Lemma getFAT_DirEntry_resolves_witness :
  ∃ N, ∀ fuel, (N <= fuel)%nat → ∃ w', getFAT_DirEntry fuel [name_sub; name_ab] demo_dev 0x10 demo_ram = Ret (Some ab_entry) w'.
Proof.
  destruct (getFAT_DirEntry_resolves demo_ram demo_dev 0x10 [name_sub; name_ab] ab_entry demo_volume demo_root_stored demo_ab_resolves)
    as [N HN]; [right; done|]. exists N. intros fuel Hf. destruct (HN fuel Hf) as (w' & E & _). by exists w'.
Defined.

Lemma getFAT_DirEntry_missing_witness :
  ∃ w', getFAT_DirEntry 34 [name_new] demo_dev 0 demo_ram = Ret None w'.
Proof.
  destruct (getFAT_DirEntry_missing demo_ram demo_dev 0 name_new [] demo_new 34 demo_volume demo_root_stored) as (w' & E & _);
    [apply demo_names|intros e; vm_compute; discriminate|vm_compute; lia|]. by exists w'.
Defined.

(** Bytes 500 to 549 of the file lie in both of its clusters. *)
Lemma fatReadFile_reads_witness :
  ∃ N, ∀ fuel, (N <= fuel)%nat → ∃ w', fatReadFile fuel [name_readme] 500 0x300 50 demo_ram =
    Ret (50, slice (contents demo_ram demo_dev [2; 3]) 500 50) w'.
Proof.
  destruct (fatReadFile_reads demo_ram demo_ram demo_dev 0x300 [name_readme] readme_entry [2; 3] 500 50) as [N HN];
    [exact demo_mount|done|exact demo_volume|exact demo_root_stored|done|exact demo_readme_resolves|by left|done|exact demo_file_chain
    |vm_compute; discriminate|change (file_size readme_entry) with 700; lia|lia|left; change (file_size readme_entry) with 700; lia|].
  exists N. intros fuel Hf. destruct (HN fuel Hf) as (w' & E & _). by exists w'.
Defined.

Lemma demo_first_free : first_free_entry demo_ram demo_dev 2 0.
Proof.
  split; [vm_compute; split; [lia|done]| |vm_compute; reflexivity]. intros j Hj. assert (j = 0 ∨ j = 1) as [-> | ->] by lia; vm_compute; done.
Qed.

Lemma demo_new_proper : proper_name demo_new.
Proof. split; [done|]. apply (bool_decide_unpack _). vm_compute. exact I. Qed.

Lemma createEntry_lookup_witness :
  ∃ w', createEntry 1 [] name_new demo_dev false demo_ram = Ret 0 w' ∧
    ∃ N, ∀ fuel', (N <= fuel')%nat → ∃ e w'', getFAT_DirEntry fuel' [name_new] demo_dev 0 w' = Ret (Some e) w'' ∧ filename e = demo_new.
Proof.
  destruct (createEntry_lookup 0 name_new demo_new demo_dev 2 0 demo_ram demo_volume demo_root_stored) as (w' & E & (N & HN) & _);
    [done|apply demo_names|exact demo_new_proper|exact demo_first_free|lia|vm_compute; done|done|done|vm_compute; reflexivity|].
  exists w'. split; [done|]. exists N. intros fuel' Hf. destruct (HN fuel' Hf) as (e & w'' & E'' & F & _).
  exists e, w''. split; [exact E''|exact F].
Defined.

(** The volume with its first root entry deleted, and one with a full first
    sector of the root directory. *)
Definition deleted_ram : ram := Ram (<[1024%nat := 0xE5]> demo_raw) 0xFF.
Definition full_ram : ram := Ram (splice demo_raw 1024 (concat (replicate 16 readme_entry))) 0xFF.

Lemma volume_same_len raw' :
  length raw' = length demo_raw → volume (Ram raw' 0xFF) demo_dev ∧ root_stored (Ram raw' 0xFF) demo_dev.
Proof.
  intros E. assert (L : length (disk (Ram raw' 0xFF) demo_dev) = length (disk demo_ram demo_dev)).
  { change (length (map u8 raw') = length (map u8 demo_raw)). by rewrite !length_map. }
  split; [|unfold root_stored; rewrite L; exact demo_root_stored]. destruct demo_volume as [F ? ?]. split; [|done|done].
  destruct F as [G ? ? ?]. split; rewrite ?L; auto. by apply (geometry_mono demo_ram).
Qed.

Lemma createEntry_deleted_witness : ∃ w', createEntry 1 [] name_new demo_dev false deleted_ram = Ret 0 w' ∧ image w' = image deleted_ram.
Proof.
  apply (createEntry_deleted 0 name_new demo_new demo_dev 0 deleted_ram);
    [apply volume_same_len; by rewrite length_insert|apply volume_same_len; by rewrite length_insert|done|apply demo_names|exact demo_new_proper|].
  split; [vm_compute; split; [lia|done]|intros j Hj; lia|vm_compute; reflexivity].
Defined.

Lemma createEntry_overrun_witness : createEntry 2 [] name_new demo_dev false full_ram = Fault OutOfBounds.
Proof.
  assert (L : length (splice demo_raw 1024 (concat (replicate 16 readme_entry))) = length demo_raw) by (vm_compute; reflexivity).
  apply (createEntry_overrun 0 name_new demo_new demo_dev false full_ram);
    [by apply volume_same_len|by apply volume_same_len|done|apply demo_names|vm_compute; reflexivity|].
  assert (U : Forall (λ j, in_use (byte_at (root_sector full_ram demo_dev) (32 * j))) (seqZ 0 16))
    by (apply (bool_decide_unpack _); vm_compute; exact I).
  intros j Hj. rewrite Forall_forall in U. apply U, elem_of_seqZ. lia.
Defined.

Lemma getDeviceData_mounts_witness :
  ∃ d w', getDeviceData 0x300 demo_ram = Ret (Some d) w' ∧ numDataSecs d = (14 - firstDataSec d) + 2 * (1 * 1 + 2).
Proof.
  destruct (getDeviceData_mounts demo_ram demo_ram 0x300 1 demo_boot) as (d & w' & E & _ & _ & _ & _ & _ & _ & _ & _ & _ & _ & N);
    [vm_compute; reflexivity|done|done|done|vm_compute; discriminate|vm_compute; reflexivity|by left|vm_compute; reflexivity|vm_compute; reflexivity
    |vm_compute; reflexivity|vm_compute; reflexivity|vm_compute; discriminate|].
  exists d, w'. split; [done|]. rewrite N. vm_compute. reflexivity.
Defined.

(** ** The 16-bit table *)

Definition demo_dev16 : FAT_Dev := {|
  deviceNum := 0x300; owner := 1; blockLen := 512; bpb := demo_boot; rootDirSecs := 2; firstDataSec := 4;
  numDataSecs := 16; clusterCount := 300; fatType := FAT16; fatSize := 2 |}.

Lemma demo_fat_ok16 : fat_ok demo_ram demo_dev16.
Proof.
  destruct demo_geometry as [_ ? ? ? ?]. split; [split; [by right|done..]|cbn; lia|cbn; lia|].
  change (disk demo_ram demo_dev16) with (disk demo_ram demo_dev). rewrite demo_disk_len. vm_compute. discriminate.
Qed.

Lemma writeFAT_sector_end_witness :
  ∃ w', writeFAT demo_dev16 0x1234 255 demo_ram = Ret 0 w' ∧ fat_entry w' demo_dev16 255 = 0x34.
Proof.
  destruct (writeFAT_sector_end demo_ram demo_dev16 255 0x1234 demo_fat_ok16) as (w' & E & F & _); [done|lia|cbn; lia|lia|done|].
  exists w'. split; [exact E|]. rewrite F. vm_compute. reflexivity.
Defined.

(** ** Deviations *)

(** The entry of an odd cluster of FAT12 is stored together with four bits of
    an uninitialised variable, which become bits of the entry before it. *)
Example writeFAT_odd_cluster :
  match writeFAT demo_dev 0xFF8 3 demo_ram with
  | Ret r w' => (r, fat_entry demo_ram demo_dev 2, fat_entry w' demo_dev 2) = (0, 3, 0xF03)
  | _ => False
  end.
Proof. vm_compute. reflexivity. Qed.

(** A read that starts behind the first cluster and goes past the end of a file
    of 700 bytes: 20 bytes are copied, 10 are left. *)
Example fatReadFile_past_end :
  match fatReadFile 40 [name_readme] 690 0x300 20 demo_ram with
  | Ret (r, out) _ => r = 20 ∧ out = slice (contents demo_ram demo_dev [2; 3]) 690 20
  | _ => False
  end.
Proof. vm_compute. done. Qed.

(** On a volume whose clusters are all in use, a cluster behind the end of the
    device is taken for a free one. *)
Definition used_ram : ram := Ram (splice demo_raw 515 (replicate 15 0xFF)) 0xFF.
Example getFreeCluster_past_end :
  match getFreeCluster demo_dev used_ram with
  | Ret c _ => c = 12 ∧ len (disk used_ram demo_dev) <= clus_pos demo_dev c
  | _ => False
  end.
Proof. vm_compute. split; [reflexivity|discriminate]. Qed.

(** Where the caller's variable does not happen to hold the attribute of a
    directory, a path ends at its first name; where it does, a name that is not
    valid ends it as well. *)
Example getFAT_DirEntry_stops :
  match getFAT_DirEntry 40 [name_sub; name_ab] demo_dev 0 demo_ram, getFAT_DirEntry 40 [name_sub; [42]] demo_dev 0x10 demo_ram with
  | Ret r _, Ret r' _ => r = Some sub_entry ∧ r' = Some sub_entry
  | _, _ => False
  end.
Proof. vm_compute. done. Qed.

(** The list of a root directory of which the first sector is full, with room
    for the sixteen entries it has: an error. *)
Example fatGetDirList_error :
  match fatGetDirList 40 [] 0x300 16 full_ram with Ret (r, l) _ => r = -1 ∧ length l = 16%nat | _ => False end.
Proof. vm_compute. done. Qed.

(** The list of a directory that fills its only cluster: the code follows a
    null pointer. *)
Definition full_dir_ram : ram := Ram (splice demo_raw 3072 (concat (replicate 16 ab_entry))) 0xFF.
Example fatGetDirList_null : fatGetDirList 40 [name_sub] 0x300 20 full_dir_ram = Fault NullDeref.
Proof. vm_compute. reflexivity. Qed.

(** ** Names and lists *)

Lemma attributes_roundtrip_witness :
  let a := entry_attributes readme_entry in
  take (Z.to_nat (name_len a)) (name a) = map upper [114; 101; 97; 100; 109; 101] ++ 46 :: map upper [116; 120; 116].
Proof.
  refine (proj1 (attributes_roundtrip demo_ram [114; 101; 97; 100; 109; 101] [116; 120; 116] demo_readme (drop 11 readme_entry) _ _ _ _ _ _ _ _));
    first [unfold plain; done | cbn; lia | repeat constructor; discriminate | apply (bool_decide_unpack _); vm_compute; exact I | vm_compute; reflexivity].
Defined.

Lemma fatGetDirList_root_witness :
  ∃ w', fatGetDirList 1 [] 0x300 5 demo_ram = Ret (2, listed 2 0 (root_sector demo_ram demo_dev)) w'.
Proof.
  destruct (fatGetDirList_root demo_ram demo_ram demo_dev 0x300 2 0 5 demo_mount eq_refl demo_volume demo_root_stored) as (w' & E & _);
    [done|lia| |vm_compute; reflexivity|lia|].
  { intros j Hj. assert (j = 0 ∨ j = 1) as [-> | ->] by lia; vm_compute; discriminate. }
  exists w'. exact E.
Defined.
