(* ===== verification/KPrintf.v ===== *)
(** * The formatted output of the kernel: kernel/debug.c

    [_kprintf] has the structure of [do_printf] in lib/libc/stdio/do_printf.c: the
    types of its state and the characters of a directive that only change that
    state are those of Printf.  This file has what differs: the conversions of
    numbers, which have names and texts of their own, the conversions that use
    them, and a function to write with that cannot refuse a character.  DIGITS
    is the same table of characters as [_digits] in itoa.c. *)

From Stdlib Require Import Ascii.
From S2P Require Import Prelude Numbers Strings Printf.

Definition KITOA_BUF_LEN : nat := 65.

(** ** Numbers to text *)

Definition kitoa (value base : Z) : M text Z :=
  let negative := (base =? 10) && (value <? 0) in
  if bad_base base then ret (-1)
  else if negative && (value =? INT_MIN) then modify (λ _, INT_MIN_STR) ;; ret 11
  else
    let value := if negative then i32 (Z.lnot value + 1) else value in
    sdigits_loop DIGITS32 value base ;;
    when negative (emit (ch "-")) ;;
    finish.

Definition kuitoa (value base : Z) : M text Z :=
  if bad_base base then ret (-1)
  else udigits_loop 32 DIGITS32 value base ;; finish.

(** [__LONG_LEN__] is not defined: [long] has 32 bits. *)
Definition klitoa (value base : Z) : M text Z :=
  let negative := (base =? 10) && (value <? 0) in
  if bad_base base then ret (-1)
  else if negative && (value =? INT_MIN) then modify (λ _, INT_MIN_STR) ;; ret 11
  else
    let value := if negative then i32 (Z.lnot value + 1) else value in
    sdigits_loop DIGITS32 value base ;;
    when negative (emit (ch "-")) ;;
    finish.

Definition kulitoa (value base : Z) : M text Z :=
  if bad_base base then ret (-1)
  else udigits_loop 32 DIGITS32 value base ;; finish.

(** The halves of the value are taken before it is negated. *)
Definition kllitoa (value base : Z) : M text Z :=
  let negative := (base =? 10) && (value <? 0) in
  let v0 := u32 (Z.land value 0xFFFFFFFF) in
  let v1 := u32 (Z.shiftr value 32) in
  if bad_base base then ret (-1)
  else
    kassert (Z.land base (- base) =? base) ;;
    if negative && (value =? LLONG_MIN) then modify (λ _, LLONG_MIN_STR) ;; ret 20
    else
      halves_loop v0 v1 base ;;
      when negative (emit (ch "-")) ;;
      finish.

Definition kullitoa (value base : Z) : M text Z :=
  let v0 := u32 (Z.land value 0xFFFFFFFF) in
  let v1 := u32 (Z.shiftr value 32) in
  if bad_base base then ret (-1)
  else halves_loop v0 v1 base ;; finish.

(** The macro [itoa] chooses by the type of its argument; the types narrower than
    [int] go to [kitoa]. *)
Definition itoa (k : itype) : Z → Z → M text Z :=
  match k with
  | TLongLong => kllitoa
  | TULongLong => kullitoa
  | TUInt => kuitoa
  | TLong => klitoa
  | TULong => kulitoa
  | TUChar | TUShort | TChar | TShort | TInt => kitoa
  end.

(** ** Directives *)

Section kprintf.
Context {W : Type}.
Variable write_func : Z → M W unit.

Abbreviation env := (env (W := W)).

#[local] Hint Extern 0 (@Update env _ ?p) =>
  derive_update (λ e : env, {| state := state e; buf := buf e; args := args e; sink := sink e;
    charsWritten := charsWritten e; stores := stores e |}) p : typeclass_instances.

(** [itoa(value, buf, base)]: the text is written to the start of [buf]. *)
Definition kto_text (base : Z) (a : itype * Z) : M env Z :=
  let* b := gets buf in
  match itoa (fst a) (snd a) base [] with
  | Ret n cs =>
      if (length b <? length cs)%nat then fail OutOfBounds
      else modify (λ e, e <| buf := cs ++ drop (length cs) b |>) ;; ret (u32 n)
  | Leave _ | Panic => panic
  | Fault f => fail f
  end.

Definition kpercent_char (c : Z) : M env bool :=
  (if c =? ch "c" then let* v := int_arg in modify (λ e, e <| buf ::= <[0%nat := signed 8 v]> |>)
   else modify (λ e, e <| buf ::= <[0%nat := ch "%"]> |>)) ;;
  on_state (λ s, s <| string := Buffer |> <| argLength := 1 |>) ;;
  ret false.

Definition kpercent_hex (c : Z) : M env bool :=
  when (c =? ch "p") (on_state (λ s, s <| precision := 8 |>)) ;;
  let* s := gets state in
  let* a := unsigned_arg (length_ s) in
  let* n := kto_text 16 a in
  on_state (λ s, s <| argLength := n |>) ;;
  when (usePrefix s) (on_state (λ s, s <| prefix := (ch "0", if c =? ch "X" then ch "X" else ch "x") |>)) ;;
  when (c =? ch "X")
    (modify (λ e, e <| buf ::= (λ b, map uppercase (take (Z.to_nat n) b) ++ drop (Z.to_nat n) b) |>)) ;;
  on_state (λ s, s <| string := Buffer |>) ;;
  ret false.

Definition kpercent_octal : M env bool :=
  let* s := gets state in
  let* a := unsigned_arg (length_ s) in
  let* n := kto_text 8 a in
  on_state (λ s, s <| argLength := n |>) ;;
  when (usePrefix s) (on_state (λ s, s <| prefix := (ch "0", 0) |>)) ;;
  on_state (λ s, s <| string := Buffer |>) ;;
  ret false.

Definition kpercent_unsigned : M env bool :=
  let* s := gets state in
  let* a := unsigned_arg (length_ s) in
  let* n := kto_text 10 a in
  on_state (λ s, s <| argLength := n |>) ;;
  on_state (λ s, s <| string := Buffer |>) ;;
  ret false.

Definition kpercent_signed : M env bool :=
  let* s := gets state in
  let* a := signed_arg (length_ s) in
  let* n := kto_text 10 a in
  on_state (λ s, s <| argLength := n |>) ;;
  let* b := gets buf in
  let* c := deref OutOfBounds (b !! 0%nat) in
  on_state (λ s, s <| isNegative := c =? ch "-" |> <| string := Buffer |>) ;;
  ret false.

(** The [switch] over a character of a directive. *)
Definition kpercent (c : Z) : M env bool :=
  if (ch "0" <=? c) && (c <=? ch "9") then percent_digit c
  else if c =? ch "l" then percent_length LONG_LONG_INT LONG_INT
  else if c =? ch "h" then percent_length SHORT_INT CHAR
  else if c =? ch "j" then percent_size INTMAX
  else if c =? ch "z" then percent_size SIZE
  else if c =? ch "t" then percent_size PTRDIFF
  else if c =? ch "L" then percent_size LONG_DOUBLE
  else if (c =? ch "c") || (c =? ch "%") then kpercent_char c
  else if c =? ch "." then percent_point
  else if (c =? ch "p") || (c =? ch "x") || (c =? ch "X") then kpercent_hex c
  else if c =? ch "o" then kpercent_octal
  else if c =? ch "s" then percent_string
  else if c =? ch "u" then kpercent_unsigned
  else if (c =? ch "d") || (c =? ch "i") then kpercent_signed
  else if c =? ch "#" then percent_flag (λ s, s <| usePrefix := true |>)
  else if c =? ch "-" then percent_flag (λ s, s <| isLeftJustify := true |>)
  else if c =? ch "+" then percent_flag (λ s, s <| isForcedPlus := true |>)
  else if c =? ch " " then percent_flag (λ s, s <| isBlankPlus := true |>)
  else if c =? ch "*" then percent_star
  else if c =? ch "n" then percent_count
  else fails.

(** [write_func] as a function that never refuses a character: the output of a
    directive, the padding included, is that of [do_printf]. *)
Definition written (c : Z) : M W Z := write_func c ;; ret 0.

Definition kformat_char (str : list Z) (i : nat) (c : Z) : M env bool :=
  let* s := gets state in
  if inPercent s then
    let* again := kpercent c in
    if (again : bool) then ret false
    else
      let* s := gets state in
      and_then (if isError s then write_all written (take (S i - percentIndex s) (drop (percentIndex s) str))
                else output written c)
        (on_state (λ _, reset_printf_state) ;; ret false)
  else literal written i c.

Fixpoint kformat_loop (str rest : list Z) (i : nat) : M env unit :=
  match rest with
  | [] => ret tt
  | c :: rest => let* _ := kformat_char str i c in kformat_loop str rest (S i)
  end.

Definition _kprintf (str : list Z) (args : list arg) : M W unit := λ w,
  match kformat_loop str str 0
    {| state := reset_printf_state; buf := []; args := args; sink := w; charsWritten := 0; stores := [] |} with
  | Ret _ e => Ret tt (sink e)
  | Leave e => Leave (sink e)
  | Panic => Panic
  | Fault f => Fault f
  end.
End kprintf.
