(* ===== verification/KPrintfSpec.v ===== *)
(** * What the kernel's formatted output writes

    The conversions of numbers, and [_kprintf] against the rendering of a format:
    its steps are those of [do_printf] with [kernel_itostr] in the place of
    [itostr], so that the lemmas about directives apply. *)

From Stdlib Require Import Ascii.
From stdpp Require Import strings.
From S2P Require Import Prelude Numbers NumbersSpec Strings StringsSpec Printf PrintfSpec PrintfRender PrintfFormat PrintfStandard KPrintf.

#[export] Instance itype_eq_dec : EqDecision itype.
Proof. solve_decision. Defined.

(** ** Numbers *)

Lemma kitoa_itostr v base : 2 <= base <= 36 → - 2 ^ 31 <= v < 2 ^ 31 → (v < 0 → base = 10) → kitoa v base [] = _itostr v base [].
Proof.
  intros Hb Hv Hn. unfold kitoa, _itostr. rewrite good_base by done. cbv iota zeta. destruct (Z.ltb_spec v 0) as [N|N].
  - rewrite (Hn N). cbn [andb Z.eqb Pos.eqb]. destruct (Z.eqb_spec v INT_MIN) as [|Em]; [done|]. unfold INT_MIN in Em.
    assert (i32 (Z.lnot v + 1) = - v) as ->.
    { replace (Z.lnot v + 1) with (- v) by (unfold Z.lnot; lia). apply signed_small; lia. }
    rewrite (wrap_small 32 (- v)) by lia. unfold bind at 1 4. by rewrite sdigits_udigits by lia.
  - rewrite andb_false_r. cbn [andb]. rewrite (wrap_small 32 v) by lia. unfold bind at 1 4. by rewrite sdigits_udigits by lia.
Qed.

Lemma klitoa_kitoa v base : klitoa v base = kitoa v base.
Proof. done. Qed.

(** The text of a number: a sign and its digits. *)
Definition number_in (base v : Z) (cs : text) : Prop :=
  if decide (v < 0) then ∃ cs', cs = ch "-" :: cs' ∧ denotes base cs' (- v) else denotes base cs v.

Lemma kitoa_writes v base : 2 <= base <= 36 → - 2 ^ 31 <= v < 2 ^ 31 → (v < 0 → base = 10) → writes (kitoa v base) (number_in base v).
Proof.
  intros Hb Hv Hn. destruct (itostr_writes v base Hb Hv) as (cs & E & H). exists cs. split; [by rewrite kitoa_itostr|].
  unfold number_in. destruct (decide (v < 0)) as [N|N].
  - specialize (Hn N). subst base. rewrite decide_True in H by done. exact H.
  - rewrite decide_False in H by lia. by rewrite (wrap_small 32 v) in H by lia.
Qed.

Lemma itoa_writes k v base : in_type k v → asked k base → k ≠ TLongLong → k ≠ TULongLong → writes (itoa k v base) (number_in base v).
Proof.
  intros Hv Hb N1 N2. assert (B : 2 <= base <= 36) by (destruct k; cbn in Hb; lia).
  assert (U : 0 <= v < 2 ^ 32 → writes (kulitoa v base) (number_in base v)).
  { intros Hu. destruct (ulitostr_writes v base B Hu) as (cs & E & H). exists cs. split; [exact E|].
    unfold number_in. by rewrite decide_False by lia. }
  destruct k; cbn in Hv, Hb; cbn [itoa]; try done; try (by apply U); apply kitoa_writes; lia.
Qed.

(** ** The length of a text *)

Definition grows {A} (n : nat) (m : M text A) : Prop := ∀ s a s', m s = Ret a s' → (length s' <= length s + n)%nat.

Lemma grows_bind {A B} n n' (m : M text A) (k : A → M text B) : grows n m → (∀ a, grows n' (k a)) → grows (n + n') (let* a := m in k a).
Proof. intros H K s b s' (a & s1 & E & E1)%bind_inv. specialize (H _ _ _ E). specialize (K _ _ _ _ E1). lia. Qed.

Lemma grows_weaken {A} n n' (m : M text A) : grows n m → (n <= n')%nat → grows n' m.
Proof. intros H Hn s a s' E. specialize (H _ _ _ E). lia. Qed.

Lemma grows_emit c : grows 1 (emit c).
Proof. intros s a s' [= <- <-]. rewrite length_app. cbn. lia. Qed.

Lemma grows_ret {A} (x : A) : grows 0 (ret x).
Proof. intros s a s' [= <- <-]. lia. Qed.

Lemma grows_digit i : grows 0 (digit i).
Proof.
  intros s a s'. unfold digit, deref. destruct (i <? 0); [done|]. destruct (digits !! Z.to_nat i); [|done]. intros [= <- <-]. lia.
Qed.

Lemma grows_udigits w fuel : ∀ v base, grows fuel (udigits_loop w fuel v base).
Proof.
  induction fuel as [|fuel IH]; intros v base; [done|]. cbn [udigits_loop].
  apply (grows_bind 0 (S fuel)); [apply grows_digit|]. intros c. apply (grows_bind 1 fuel); [apply grows_emit|]. intros [].
  destruct (_ =? 0); [eapply grows_weaken; [apply grows_ret|lia]|apply IH].
Qed.

Lemma grows_sdigits fuel : ∀ v base, grows fuel (sdigits_loop fuel v base).
Proof.
  induction fuel as [|fuel IH]; intros v base; [done|]. cbn [sdigits_loop].
  apply (grows_bind 0 (S fuel)); [apply grows_digit|]. intros c. apply (grows_bind 1 fuel); [apply grows_emit|]. intros [].
  destruct (_ =? 0); [eapply grows_weaken; [apply grows_ret|lia]|apply IH].
Qed.

Lemma grows_reverse fuel : ∀ i j, grows 0 (reverse_loop fuel i j).
Proof.
  induction fuel as [|fuel IH]; intros i j; [done|]. cbn [reverse_loop]. destruct (decide _); [|apply grows_ret].
  assert (C : ∀ k, grows 0 (char_at k)).
  { intros k s a s'. unfold char_at, bind, gets, deref, id. destruct (s !! k); [|done]. intros [= <- <-]. lia. }
  assert (S : ∀ k c, grows 0 (set_char k c)) by (intros k c s a s' [= <- <-]; rewrite length_insert; lia).
  apply (grows_bind 0 0); [apply C|]. intros tmp. apply (grows_bind 0 0); [apply C|]. intros c.
  apply (grows_bind 0 0); [apply S|]. intros []. apply (grows_bind 0 0); [apply S|]. intros []. apply IH.
Qed.

Lemma grows_finish : grows 0 finish.
Proof.
  unfold finish. apply (grows_bind 0 0); [intros s a s' [= <- <-]; lia|]. intros s.
  apply (grows_bind 0 0); [|intros []; apply grows_ret]. destruct (length s); [apply grows_ret|apply grows_reverse].
Qed.

Lemma grows_halves lo hi base : grows 64 (halves_loop lo hi base).
Proof.
  unfold halves_loop. apply (grows_bind 32 32); [apply (grows_udigits 32 32)|]. intros [].
  destruct (hi =? 0); [eapply grows_weaken; [apply grows_ret|lia]|apply (grows_udigits 32 32)].
Qed.

Lemma grows_sign (b : bool) : grows 1 (when b (emit (ch "-"))).
Proof. destruct b; [apply grows_emit|eapply grows_weaken; [apply grows_ret|lia]]. Qed.

Lemma fixed_text {A} (t : text) (a b : A) s s' : (modify (λ _, t) ;; ret a) s = Ret b s' → s' = t.
Proof. by intros [= _ <-]. Qed.

Lemma kitoa_fits v base n cs : kitoa v base [] = Ret n cs → (length cs <= 33)%nat.
Proof.
  unfold kitoa. destruct (bad_base base); [intros [= _ <-]; cbn; lia|]. destruct (_ && (v =? INT_MIN)).
  - intros ->%fixed_text. cbn. lia.
  - set (m := let* _ := _ in _). assert (G : grows (32 + (1 + 0)) m); [|intros E; apply (G _ _ _ E)].
    apply grows_bind; [apply grows_sdigits|]. intros []. apply grows_bind; [apply grows_sign|]. intros []. apply grows_finish.
Qed.

Lemma kulitoa_fits v base n cs : kulitoa v base [] = Ret n cs → (length cs <= 32)%nat.
Proof.
  unfold kulitoa. destruct (bad_base base); [intros [= _ <-]; cbn; lia|].
  set (m := let* _ := _ in _). assert (G : grows (32 + 0) m); [|intros E; apply (G _ _ _ E)].
  apply grows_bind; [apply (grows_udigits 32 32)|]. intros []. apply grows_finish.
Qed.

Lemma kullitoa_fits v base n cs : kullitoa v base [] = Ret n cs → (length cs <= 64)%nat.
Proof.
  unfold kullitoa. destruct (bad_base base); [intros [= _ <-]; cbn; lia|].
  set (m := let* _ := _ in _). assert (G : grows (64 + 0) m); [|intros E; apply (G _ _ _ E)].
  apply grows_bind; [apply grows_halves|]. intros []. apply grows_finish.
Qed.

Lemma kllitoa_fits v base n cs : kllitoa v base [] = Ret n cs → (length cs <= 65)%nat.
Proof.
  unfold kllitoa. destruct (bad_base base); [intros [= _ <-]; cbn; lia|].
  destruct (Z.land base (- base) =? base); [|done]. unfold kassert. unfold bind at 1, ret at 1.
  destruct (_ && (v =? LLONG_MIN)).
  - intros ->%fixed_text. cbn. lia.
  - set (m := let* _ := _ in _). assert (G : grows (64 + (1 + 0)) m); [|intros E; apply (G _ _ _ E)].
    apply grows_bind; [apply grows_halves|]. intros []. apply grows_bind; [apply grows_sign|]. intros []. apply grows_finish.
Qed.

(** A text fits into [buf], in every base: the longest has 64 digits and a sign. *)
Lemma itoa_length k v base n cs : itoa k v base [] = Ret n cs → (length cs <= ITOSTR_BUF_LEN)%nat.
Proof.
  unfold ITOSTR_BUF_LEN. intros E. destruct k; cbn [itoa] in E.
  all: first [apply kullitoa_fits in E|apply kllitoa_fits in E|apply kulitoa_fits in E|apply (kulitoa_fits v base n cs) in E|apply kitoa_fits in E|apply (kitoa_fits v base n cs) in E]; lia.
Qed.

(** ** The conversions in the place of [itostr]

    For a signed [long long], which [kllitoa] refuses in base 10, the text of the
    C library is put in; no theorem below depends on it. *)

Definition kernel_text (k : itype) (v base : Z) : list Z :=
  match itoa k v base [] with Ret _ cs => cs | _ => libc_text k v base end.
Definition kernel_itostr (k : itype) (v base : Z) (b : list Z) : Z * list Z :=
  match itoa k v base [] with Ret n cs => (n, cs ++ drop (length cs) b) | _ => libc_itostr k v base b end.

Lemma kullitoa_ullitostr v base : kullitoa v base = _ullitostr v base.
Proof.
  unfold kullitoa, _ullitostr. rewrite (wrap_small 32 (Z.land v 0xFFFFFFFF)); [done|].
  change 0xFFFFFFFF with (Z.ones 32). rewrite Z.land_ones by lia. by apply Z.mod_pos_bound.
Qed.

Lemma itoa_gives_text k v base : in_type k v → asked k base → k ≠ TLongLong → gives_text (itoa k v base).
Proof.
  intros Hv Hb N. destruct (decide (k = TULongLong)) as [->|N'].
  - cbn [itoa]. rewrite kullitoa_ullitostr. apply ullitostr_text; [cbn in Hb; lia|done].
  - destruct (itoa_writes k v base Hv Hb N N') as (cs & E & H). exists cs. split; [done|]. unfold number_in in H.
    destruct (decide (v < 0)); [destruct H as (cs' & -> & _); cbn; lia|by eapply denotes_nonempty].
Qed.

Lemma kllitoa_panics v : kllitoa v 10 [] = Panic.
Proof. done. Qed.

Lemma kernel_itostr_ok : itostr_ok kernel_itostr kernel_text.
Proof.
  assert (T : ∀ k v base, in_type k v → asked k base → k ≠ TLongLong → ∃ cs, itoa k v base [] = Ret (Z.of_nat (length cs)) cs ∧ (0 < length cs)%nat)
    by (intros; by apply itoa_gives_text).
  split; intros k v base; [intros b|]; intros Hv Hb; unfold kernel_itostr, kernel_text.
  all: destruct (decide (k = TLongLong)) as [->|N];
    [cbn in Hb; subst base; cbn [itoa]; rewrite kllitoa_panics; destruct libc_itostr_ok as [H1 H2]; first [by apply H1|by apply H2]|].
  all: destruct (T k v base Hv Hb N) as (cs & E & H); rewrite E; first [by eexists|lia].
Qed.

Section steps.
Context {W : Type}.
Variable write_func : Z → M W unit.

Abbreviation env := (env (W := W)).
Abbreviation written := (written write_func).

(** Characters of a directive that do not convert an argument. *)
Definition conversions : list Z := [ch "c"; ch "%"; ch "p"; ch "x"; ch "X"; ch "o"; ch "u"; ch "d"; ch "i"].

Lemma kpercent_same c (e : env) : c ∉ conversions → kpercent c e = percent kernel_itostr c e.
Proof.
  intros Hc. unfold conversions in Hc. rewrite !not_elem_of_cons in Hc. destruct Hc as (N1 & N2 & N3 & N4 & N5 & N6 & N7 & N8 & N9 & _).
  unfold kpercent, percent. apply Z.eqb_neq in N1, N2, N3, N4, N5, N6, N7, N8, N9. by rewrite N1, N2, N3, N4, N5, N6, N7, N8, N9.
Qed.

(** The conversion of a number to text. *)
Lemma kto_text_run base x (e : env) : in_type (fst x) (snd x) → asked (fst x) base → fst x ≠ TLongLong →
  length (buf e) = ITOSTR_BUF_LEN →
  ∃ n e', kto_text base x e = Ret n e' ∧ to_text kernel_itostr base x e = Ret n e' ∧ 0 < n ∧ buf e' ≠ [].
Proof.
  intros Hv Hb N Hl. destruct (itoa_gives_text _ _ _ Hv Hb N) as (cs & E & H). pose proof (itoa_length _ _ _ _ _ E) as L.
  unfold kto_text, to_text, kernel_itostr, bind, gets. rewrite E. destruct (Nat.ltb_spec (length (buf e)) (length cs)); [lia|].
  rewrite wrap_small by (unfold ITOSTR_BUF_LEN in L; lia). eexists _, _. split; [reflexivity|]. split; [reflexivity|]. split; [lia|].
  cbn [buf]. destruct cs; [cbn in H; lia|done].
Qed.

(** A conversion with the argument it asks for. *)
Lemma unsigned_conversion a x rest base (e : env) (k k' : itype * Z → Z → M env bool) :
  unsigned_of (length_ (state e)) a = Some x → args e = a :: rest → length (buf e) = ITOSTR_BUF_LEN → (base = 8 ∨ base = 10 ∨ base = 16) →
  (∀ n e', 0 < n → buf e' ≠ [] → k x n e' = k' x n e') →
  (let* x := unsigned_arg (length_ (state e)) in let* n := kto_text base x in k x n) e =
  (let* x := unsigned_arg (length_ (state e)) in let* n := to_text kernel_itostr base x in k' x n) e.
Proof.
  intros Hx Ha Hl Hb HK. rewrite !(bind_run _ _ _ _ _ (unsigned_arg_run _ _ _ _ _ Hx Ha)).
  destruct (unsigned_of_in _ _ _ Hx) as [Ht Hask].
  destruct (kto_text_run base x (with_args rest e) Ht (Hask base Hb)) as (n & e' & E1 & E2 & Hn & Hb'); [|done|].
  - destruct (length_ (state e)), a; cbn in Hx; try done; by injection Hx as <-.
  - rewrite (bind_run _ _ _ _ _ E1), (bind_run _ _ _ _ _ E2). by apply HK.
Qed.

Lemma signed_conversion a x rest (e : env) (k k' : itype * Z → Z → M env bool) :
  signed_of (length_ (state e)) a = Some x → args e = a :: rest → length (buf e) = ITOSTR_BUF_LEN → length_ (state e) ≠ LONG_LONG_INT →
  (∀ n e', 0 < n → buf e' ≠ [] → k x n e' = k' x n e') →
  (let* x := signed_arg (length_ (state e)) in let* n := kto_text 10 x in k x n) e =
  (let* x := signed_arg (length_ (state e)) in let* n := to_text kernel_itostr 10 x in k' x n) e.
Proof.
  intros Hx Ha Hl Hlen HK. rewrite !(bind_run _ _ _ _ _ (signed_arg_run _ _ _ _ _ Hx Ha)).
  destruct (signed_of_in _ _ _ Hx) as [Ht Hask].
  destruct (kto_text_run 10 x (with_args rest e) Ht Hask) as (n & e' & E1 & E2 & Hn & Hb'); [|done|].
  - destruct (length_ (state e)), a; cbn in Hx; try done; by injection Hx as <-.
  - rewrite (bind_run _ _ _ _ _ E1), (bind_run _ _ _ _ _ E2). by apply HK.
Qed.

Lemma kpercent_hex_same c a x rest (e : env) : unsigned_of (length_ (state e)) a = Some x → args e = a :: rest →
  length (buf e) = ITOSTR_BUF_LEN → kpercent_hex c e = percent_hex kernel_itostr c e.
Proof.
  intros Hx Ha Hl. unfold kpercent_hex, percent_hex. set (k1 := λ _ : unit, _). set (k2 := λ _ : unit, _).
  assert (S : ∀ e1 : env, length_ (state e1) = length_ (state e) → args e1 = args e → buf e1 = buf e → k1 tt e1 = k2 tt e1).
  { intros e1 E1 E2 E3. subst k1 k2. unfold bind at 1 5, gets. cbv beta iota.
    apply (unsigned_conversion a x rest 16 e1); [by rewrite E1|by rewrite E2|by rewrite E3|lia|].
    intros n e' Hn _. replace (0 <? n) with true by lia. cbn [when]. destruct (usePrefix (state e1)), (c =? ch "X"); reflexivity. }
  unfold bind at 1 2. destruct (c =? ch "p"); cbn [when]; by apply S.
Qed.

Lemma kpercent_octal_same a x rest (e : env) : unsigned_of (length_ (state e)) a = Some x → args e = a :: rest →
  length (buf e) = ITOSTR_BUF_LEN → kpercent_octal e = percent_octal kernel_itostr e.
Proof.
  intros Hx Ha Hl. unfold kpercent_octal, percent_octal. unfold bind at 1 5, gets. cbv beta iota.
  apply (unsigned_conversion a x rest 8 e); [done..|lia|]. intros n e' Hn _. replace (0 <? n) with true by lia. cbn [when].
  destruct (usePrefix (state e)); reflexivity.
Qed.

Lemma kpercent_unsigned_same a x rest (e : env) : unsigned_of (length_ (state e)) a = Some x → args e = a :: rest →
  length (buf e) = ITOSTR_BUF_LEN → kpercent_unsigned e = percent_unsigned kernel_itostr e.
Proof.
  intros Hx Ha Hl. unfold kpercent_unsigned, percent_unsigned. unfold bind at 1 5, gets. cbv beta iota.
  apply (unsigned_conversion a x rest 10 e); [done..|lia|]. intros n e' Hn _. by replace (0 <? n) with true by lia.
Qed.

Lemma kpercent_signed_same a x rest (e : env) : signed_of (length_ (state e)) a = Some x → args e = a :: rest →
  length (buf e) = ITOSTR_BUF_LEN → length_ (state e) ≠ LONG_LONG_INT → kpercent_signed e = percent_signed kernel_itostr e.
Proof.
  intros Hx Ha Hl Hlen. unfold kpercent_signed, percent_signed. unfold bind at 1 5, gets. cbv beta iota.
  apply (signed_conversion a x rest e); [done..|]. intros n e' Hn Hb. replace (0 <? n) with true by lia.
  destruct e' as [s b l w n' st]. destruct b as [|c b]; [done|]. reflexivity.
Qed.
(** ** Sequences of characters *)

Fixpoint kformat_chars (fmt cs : list Z) (i : nat) : M env bool :=
  match cs with
  | [] => ret false
  | c :: cs => and_then (kformat_char write_func fmt i c) (kformat_chars fmt cs (S i))
  end.

Lemma kformat_chars_app fmt cs : ∀ cs' i e, kformat_chars fmt (cs ++ cs') i e =
  and_then (kformat_chars fmt cs i) (kformat_chars fmt cs' (i + length cs)) e.
Proof.
  induction cs as [|c cs IH]; intros cs' i e; cbn [app kformat_chars length]; [by rewrite Nat.add_0_r|].
  unfold and_then, bind in *. destruct (kformat_char write_func fmt i c e) as [[|] e'| | |]; try done.
  rewrite IH. by rewrite Nat.add_succ_l, <- Nat.add_succ_r.
Qed.

Lemma emits_kapp fmt cs cs' i l l' P Q R :
  emits written (kformat_chars fmt cs i) l P Q → emits written (kformat_chars fmt cs' (i + length cs)) l' Q R →
  emits written (kformat_chars fmt (cs ++ cs') i) (l ++ l') P R.
Proof. intros H K. eapply emits_ext; [intros e; symmetry; apply kformat_chars_app|]. by eapply emits_then. Qed.

Lemma kformat_char_same fmt i c (e : env) : (inPercent (state e) = true → kpercent c e = percent kernel_itostr c e) →
  kformat_char write_func fmt i c e = format_char written kernel_itostr fmt i c e.
Proof.
  intros H. unfold kformat_char, format_char, bind, gets. destruct (inPercent (state e)); [|done]. by rewrite (H eq_refl).
Qed.

Lemma kformat_chars_same fmt cs : Forall (λ c, c ∉ conversions) cs → ∀ i e,
  kformat_chars fmt cs i e = format_chars written kernel_itostr fmt cs i e.
Proof.
  induction 1 as [|c cs Hc H IH]; intros i e; [done|]. cbn [kformat_chars format_chars]. unfold and_then, bind.
  rewrite kformat_char_same by (intros _; by apply kpercent_same). destruct (format_char _ _ _ _ _ _) as [[|] e'| | |]; [done|apply IH|done..].
Qed.

Lemma header_plain d : directive_ok d →
  Forall (λ c, c ∉ conversions) (d_flags d ++ digit_chars (d_width d) ++ precision_chars (d_precision d) ++ length_chars (d_length d)).
Proof.
  intros [Hf [Hw _] Hp Hl].
  assert (D : ∀ ds, Forall (λ d, 0 <= d <= 9) ds → Forall (λ c, c ∉ conversions) (digit_chars ds)).
  { intros ds H. unfold digit_chars. rewrite Forall_fmap. eapply Forall_impl; [exact H|]. intros x Hx Hin.
    change conversions with [99; 37; 112; 120; 88; 111; 117; 100; 105] in Hin. change (ch "0") with 48 in Hin.
    rewrite !elem_of_cons in Hin. assert (48 + x ∉ []) by apply not_elem_of_nil. intuition lia. }
  apply Forall_app. split; [|apply Forall_app; split; [by apply D|apply Forall_app; split]].
  - eapply Forall_impl; [exact Hf|]. intros c Hc. rewrite !elem_of_cons in Hc.
    destruct Hc as [->|[->|[->|[->|Hc]]]]; [..|by apply not_elem_of_nil in Hc]; apply (bool_decide_unpack _); vm_compute; exact I.
  - destruct (d_precision d) as [ds|]; [|constructor]. constructor; [apply (bool_decide_unpack _); vm_compute; exact I|apply D]. by apply (Hp ds).
  - destruct (d_length d); try constructor; try constructor; try constructor; apply (bool_decide_unpack _); vm_compute; exact I.
Qed.

Lemma header_same fmt i a d (e : env) : directive_ok d → idle a (core e) →
  kformat_chars fmt (header_chars d) i e = format_chars written kernel_itostr fmt (header_chars d) i e.
Proof.
  intros Hd [b [= Es _ _]]. unfold header_chars. cbn [app kformat_chars format_chars]. unfold and_then, bind.
  rewrite kformat_char_same by (by rewrite Es). destruct (format_char _ _ _ _ _ _) as [[|] e'| | |]; [done| |done..].
  by apply kformat_chars_same, header_plain.
Qed.

(** ** Directives *)

(** A signed [long long] cannot be written. *)
Definition kdirective_ok (d : directive) : Prop :=
  directive_ok d ∧ (d_conv d = ConvD ∨ d_conv d = ConvI → d_length d ≠ LONG_LONG_INT).

Lemma conversion_same d i z ps a rest r (e : env) : kdirective_ok d → rendering_of kernel_text d a = Some r →
  core e = (described d i z ps, replicate ITOSTR_BUF_LEN 0, a :: rest) →
  kpercent (conversion_char (d_conv d)) e = percent kernel_itostr (conversion_char (d_conv d)) e.
Proof.
  intros [Hd Hll] Hr [= Es Eb Ea]. assert (L : length_ (state e) = d_length d) by (by rewrite Es).
  assert (B : length (buf e) = ITOSTR_BUF_LEN) by (by rewrite Eb). pose proof (rendering_number _ _ _ _ Hr) as Hn.
  assert (S : ∀ x, signed_of (d_length d) a = Some x → d_length d ≠ LONG_LONG_INT → kpercent_signed e = percent_signed kernel_itostr e)
    by (intros x Hx Hl; eapply (kpercent_signed_same a x rest); by rewrite ?L).
  unfold rendering_of in Hr. destruct (d_conv d) eqn:Ec; cbn [conversion_char].
  1,2: destruct (signed_of (d_length d) a) as [x|] eqn:Ex; [|done]; by apply (S x); [|apply Hll; auto].
  6,7: reflexivity.
  all: destruct Hn as (x & Hx & _); rewrite <- L in Hx.
  - by apply (kpercent_unsigned_same a x rest).
  - by apply (kpercent_hex_same (ch "x") a x rest).
  - by apply (kpercent_hex_same (ch "X") a x rest).
  - by apply (kpercent_hex_same (ch "p") a x rest).
  - by apply (kpercent_octal_same a x rest).
Qed.

Lemma directive_same fmt i d a rest r (e : env) : kdirective_ok d → rendering_of kernel_text d a = Some r → idle (a :: rest) (core e) →
  kformat_chars fmt (directive_chars d) i e = format_chars written kernel_itostr fmt (directive_chars d) i e.
Proof.
  intros Hd Hr He. unfold directive_chars. rewrite kformat_chars_app, format_chars_app. unfold and_then at 1 2, bind at 1 2.
  rewrite (header_same fmt i (a :: rest) d e (proj1 Hd) He).
  pose proof (emits_header written kernel_itostr fmt i (a :: rest) d (proj1 Hd) e He) as H. cbn [send ret] in H. destruct H as (e' & -> & _ & H).
  specialize (H eq_refl). destruct (parsed_described d i (proj1 Hd)) as (z & ps & Ep). unfold inside in H. rewrite Ep in H.
  cbn [negb Z.eqb kformat_chars format_chars]. unfold and_then, bind.
  rewrite kformat_char_same; [reflexivity|]. intros _. by eapply conversion_same.
Qed.

Lemma emits_kdirective fmt i d a rest r : kdirective_ok d → rendering_of kernel_text d a = Some r →
  Z.of_nat (length (r_body r)) < 2 ^ 31 →
  emits written (kformat_chars fmt (directive_chars d) i) (render d r) (idle (a :: rest)) (idle rest).
Proof.
  intros Hd Hr Hn e He. rewrite (directive_same fmt i d a rest r e Hd Hr He).
  by apply (emits_directive written kernel_itostr kernel_text fmt i d a rest r kernel_itostr_ok (proj1 Hd) Hr Hn).
Qed.

Lemma emits_kliteral fmt i c a : c ≠ ch "%" → emits written (kformat_chars fmt [c] i) (literal_chars c) (idle a) (idle a).
Proof.
  intros Hc e He. replace (kformat_chars fmt [c] i e) with (format_chars written kernel_itostr fmt [c] i e); [by apply emits_literal|].
  cbn [kformat_chars format_chars]. unfold and_then, bind. rewrite kformat_char_same; [done|]. destruct He as [b [= -> _ _]]. discriminate.
Qed.

(** Two percent signs. *)
Definition percent_state (i : nat) : PrintfState := (begun i) <| string := Buffer |> <| argLength := 1 |>.

Lemma kpercent_percent_run i a (e : env) : core e = (begun i, replicate ITOSTR_BUF_LEN 0, a) → ∃ e1,
  kpercent (ch "%") e = Ret false e1 ∧ sink e1 = sink e ∧ core e1 = (percent_state i, ch "%" :: replicate 64 0, a).
Proof.
  intros [= Es Eb Ea]. eexists. split; [reflexivity|]. split; [done|]. unfold core. cbn. by rewrite Es, Eb, Ea.
Qed.

Lemma emits_kpercent fmt i a : emits written (kformat_chars fmt [ch "%"; ch "%"] i) [ch "%"] (idle a) (idle a).
Proof.
  assert (H : ∀ j, emits written (kformat_chars fmt [ch "%"] j) [ch "%"] (inside (begun i) a) (idle a)).
  { intros j e He. destruct (kpercent_percent_run i a e He) as (e1 & E1 & Ek & Ec). injection He as Es _ _. injection Ec as Ec1 Ec2 Ec3.
    assert (F : kformat_chars fmt [ch "%"] j e = and_then (output written (ch "%")) (on_state (λ _, reset_printf_state) ;; ret false) e1).
    { cbn [kformat_chars]. unfold kformat_char, and_then, bind, gets. rewrite Es. cbn [inPercent begun reading]. rewrite E1, Ec1.
      change (isError (percent_state i)) with false. cbv iota. by destruct (output written (ch "%") e1) as [[|] ?| | |]. }
    rewrite F, <- Ek. change [ch "%"] with ([ch "%"] ++ []).
    pose (P := λ c, c = (percent_state i, ch "%" :: replicate 64 0, a)).
    apply (emits_then written _ _ [ch "%"] [] P P); [|apply emits_pure|unfold P, core; by rewrite Ec1, Ec2, Ec3].
    - apply (emits_output written (percent_state i) [ch "%"] (ch "%") P); [by intros c ->| |done..].
      intros k x e2 [= K1 K2 K3] Hk. destruct k as [|k]; [|done]. injection Hk as <-. unfold string_at, bind, gets, id. rewrite K1. cbn.
      by rewrite K2.
    - intros e2 [= K1 K2 K3]. eexists. split; [reflexivity|]. split; [done|]. unfold idle, core. cbn. rewrite K2, K3. by eexists. }
  apply (emits_kapp fmt [ch "%"] [ch "%"] i [] [ch "%"] (idle a) (inside (begun i) a)); [|apply H].
  intros e' He'. replace (kformat_chars fmt [ch "%"] i e') with (format_chars written kernel_itostr fmt [ch "%"] i e'); [by apply emits_percent|].
  cbn [kformat_chars format_chars]. unfold and_then, bind. rewrite kformat_char_same; [done|]. destruct He' as [b [= -> _ _]]. discriminate.
Qed.

(** ** Formats *)

Inductive kpiece := KLit (c : Z) | KDir (d : directive) | KPercent.

Definition kpiece_chars (p : kpiece) : list Z :=
  match p with KLit c => [c] | KDir d => directive_chars d | KPercent => [ch "%"; ch "%"] end.
Definition kpiece_ok (p : kpiece) : Prop :=
  match p with KLit c => c ≠ ch "%" | KDir d => kdirective_ok d | KPercent => True end.

(** The text of a format, if the arguments are those it asks for. *)
Fixpoint krendered (ps : list kpiece) (args : list arg) : option (list Z) :=
  match ps with
  | [] => Some []
  | KLit c :: ps => l ← krendered ps args; Some (literal_chars c ++ l)
  | KPercent :: ps => l ← krendered ps args; Some (ch "%" :: l)
  | KDir d :: ps =>
      match args with
      | [] => None
      | a :: args =>
          r ← rendering_of kernel_text d a;
          if Z.of_nat (length (r_body r)) <? 2 ^ 31 then l ← krendered ps args; Some (render d r ++ l) else None
      end
  end.

Lemma emits_kpieces fmt ps : Forall kpiece_ok ps → ∀ i args l, krendered ps args = Some l →
  emits written (kformat_chars fmt (ps ≫= kpiece_chars) i) l (idle args) (λ _, True).
Proof.
  induction 1 as [|p ps Hp Hps IH]; intros i args l Hl.
  - injection Hl as <-. eapply emits_weaken; [apply emits_skip|done|done].
  - rewrite bind_cons. destruct p as [c|d|]; cbn [krendered] in Hl.
    + destruct (krendered ps args) as [l'|] eqn:El; [|done]. injection Hl as <-.
      eapply emits_kapp; [by apply emits_kliteral|by apply IH].
    + destruct args as [|a args]; [done|]. destruct (rendering_of kernel_text d a) as [r|] eqn:Er; [|done]. cbn in Hl.
      destruct (Z.ltb_spec (Z.of_nat (length (r_body r))) (2 ^ 31)) as [Hn|]; [|done].
      destruct (krendered ps args) as [l'|] eqn:El; [|done]. injection Hl as <-.
      eapply emits_kapp; [by eapply emits_kdirective|by apply IH].
    + destruct (krendered ps args) as [l'|] eqn:El; [|done]. injection Hl as <-. change (ch "%" :: l') with ([ch "%"] ++ l').
      eapply emits_kapp; [by apply emits_kpercent|by apply IH].
Qed.

(** The characters of a text, one after the other. *)
Fixpoint put_all (l : list Z) : M W unit :=
  match l with
  | [] => ret tt
  | c :: l => write_func c ;; put_all l
  end.

Lemma send_written l w : send written l w = match put_all l w with Ret _ w' => Ret 0 w' | Leave w' => Leave w' | Panic => Panic | Fault f => Fault f end.
Proof.
  revert w. induction l as [|c l IH]; intros w; [done|]. cbn [send put_all]. unfold KPrintf.written, bind. destruct (write_func c w) as [[] w'|w'| |f]; [|done..].
  apply IH.
Qed.

Lemma kformat_loop_chars fmt cs : ∀ i e,
  match kformat_chars fmt cs i e with
  | Ret true _ => True
  | Ret false e' => kformat_loop write_func fmt cs i e = Ret tt e'
  | Leave e' => kformat_loop write_func fmt cs i e = Leave e'
  | Panic => kformat_loop write_func fmt cs i e = Panic
  | Fault f => kformat_loop write_func fmt cs i e = Fault f
  end.
Proof.
  induction cs as [|c cs IH]; intros i e; [done|]. cbn [kformat_chars kformat_loop]. unfold and_then, bind.
  destruct (kformat_char write_func fmt i c e) as [[|] e'|e'| |f]; try done. apply (IH (S i) e').
Qed.

(** The kernel's formatted output: for a format of characters, directives
    (flags, width, precision, length and conversion) and [%%], and arguments of
    the types the directives ask for, [_kprintf] calls [write_func] for the
    characters of the rendering of the format, one after the other. *)
Theorem kprintf_renders ps args l w : Forall kpiece_ok ps → krendered ps args = Some l →
  _kprintf write_func (ps ≫= kpiece_chars) args w = put_all l w.
Proof.
  intros Hps Hl. unfold _kprintf. set (fmt := ps ≫= kpiece_chars). set (e := {| sink := w |}).
  pose proof (emits_kpieces fmt ps Hps 0 args l Hl e (ex_intro _ [] eq_refl)) as K. pose proof (kformat_loop_chars fmt fmt 0 e) as F.
  rewrite send_written in K. fold fmt in K. change (sink e) with w in K. destruct (put_all l w) as [[] w'|w'| |f].
  - destruct K as (e' & E & <- & _). rewrite E in F. cbn in F. by rewrite F.
  - destruct K as (e' & E & <-). rewrite E in F. by rewrite F.
  - rewrite K in F. by rewrite F.
  - rewrite K in F. by rewrite F.
Qed.
End steps.

(** The conversions of numbers up to 32 bits: the text of a number is a sign
    and its digits without leading zeros, and its length is returned. *)
Theorem itoa_spec k v base : in_type k v → asked k base → k ≠ TLongLong → k ≠ TULongLong →
  ∃ cs, itoa k v base [] = Ret (Z.of_nat (length cs)) cs ∧ number_in base v cs.
Proof. intros Hv Hb N1 N2. by apply itoa_writes. Qed.

Lemma itoa_spec_witness : ∃ cs, itoa TInt (-2147483648) 10 [] = Ret (Z.of_nat (length cs)) cs ∧ number_in 10 (-2147483648) cs.
Proof. by apply itoa_spec. Defined.

(** No conversion writes beyond the 65 characters of [buf], whatever the number
    and the base. *)
Theorem itoa_fits k v base n cs : itoa k v base [] = Ret n cs → (length cs <= KITOA_BUF_LEN)%nat.
Proof. apply itoa_length. Qed.

(** The longest text there is: 64 digits in base 2. *)
Lemma itoa_fits_witness : ∃ cs, itoa TULongLong (2 ^ 64 - 1) 2 [] = Ret 64 cs ∧ (length cs <= KITOA_BUF_LEN)%nat.
Proof. eexists. split; [vm_compute; reflexivity|]. apply (itoa_fits TULongLong (2 ^ 64 - 1) 2 64). vm_compute. reflexivity. Qed.

(** [%lld] halts the kernel: [kllitoa] requires the base to be a power of two. *)
Theorem kprintf_long_long {W} (write_func : Z → M W unit) v w :
  _kprintf write_func [ch "%"; ch "l"; ch "l"; ch "d"] [LongLongArg v] w = Panic.
Proof. reflexivity. Qed.

(** The halves of a 64-bit number are written without the zeros in front of the
    lower one. *)
Example kullitoa_halves : kullitoa 0x100000000 16 [] = Ret 2 [ch "1"; ch "0"].
Proof. reflexivity. Qed.

(** ** The text ISO C defines *)

Lemma kernel_numerals : numerals kernel_text.
Proof.
  intros k v base K Hv Hb. unfold kernel_text. assert (B : 2 <= base <= 36) by (destruct K as [-> |[-> |[-> | ->]]]; cbn in Hb; lia).
  destruct (itoa_writes k v base Hv Hb) as (cs & -> & H); [by destruct K as [-> |[-> |[-> | ->]]]..|]. unfold number_in in H.
  assert (R : - 2 ^ 31 <= v < 2 ^ 32) by (destruct K as [-> |[-> |[-> | ->]]]; cbn in Hv; lia).
  destruct (decide (v < 0)) as [N|N], (Z.ltb_spec v 0); try lia.
  - destruct H as (cs' & -> & D). f_equal. apply denotes_numeral; [done|lia|done].
  - apply denotes_numeral; [done|lia|done].
Qed.

Fixpoint kiso_text (ps : list kpiece) (args : list arg) : option (list Z) :=
  match ps with
  | [] => Some []
  | KLit c :: ps => l ← kiso_text ps args; Some (literal_chars c ++ l)
  | KPercent :: ps => l ← kiso_text ps args; Some (ch "%" :: l)
  | KDir d :: ps =>
      match args with
      | [] => None
      | a :: args => t ← iso_directive d a; l ← kiso_text ps args; Some (t ++ l)
      end
  end.

(** Where [_kprintf] agrees with it, [%%] included. *)
Fixpoint kall_agree (ps : list kpiece) (args : list arg) : bool :=
  match ps with
  | [] => true
  | KLit c :: ps => negb (c =? 0) && negb (c =? ch "%") && kall_agree ps args
  | KPercent :: ps => kall_agree ps args
  | KDir d :: ps => match args with [] => false | a :: args => agrees d a && kall_agree ps args end
  end.

Lemma agrees_kdirective_ok d a : agrees d a = true → kdirective_ok d.
Proof.
  intros A. split; [by eapply agrees_directive_ok|]. intros _. unfold agrees, length_agrees in A. rewrite !andb_true_iff in A.
  destruct A as (((_ & L) & _) & _). by destruct (d_length d).
Qed.

Lemma kiso_rendered ps : ∀ args l, kall_agree ps args = true → kiso_text ps args = Some l → Forall kpiece_ok ps ∧ krendered ps args = Some l.
Proof.
  induction ps as [|[c|d|] ps IH]; intros args l A E; cbn [kall_agree kiso_text krendered] in *; [done|..].
  - apply andb_true_iff in A as [Ac A]. destruct (kiso_text ps args) as [l'|] eqn:El; [|done]. destruct (IH args l' A El) as [F ->].
    split; [|done]. constructor; [|done]. cbn. lia.
  - destruct args as [|a args]; [done|]. apply andb_true_iff in A as [Ad A]. destruct (iso_directive d a) as [t|] eqn:Ed; [|done]. cbn in E.
    destruct (kiso_text ps args) as [l'|] eqn:El; [|done]. injection E as <-. destruct (IH args l' A El) as [F R].
    destruct (iso_gives kernel_text kernel_numerals d a t Ad Ed) as (r & Er & Hn & Hr). split; [constructor; [by eapply agrees_kdirective_ok|done]|].
    rewrite Er, R. cbn. destruct (Z.ltb_spec (Z.of_nat (length (r_body r))) (2 ^ 31)); [by rewrite Hr|lia].
  - destruct (kiso_text ps args) as [l'|] eqn:El; [|done]. destruct (IH args l' A El) as [F ->]. split; [by constructor|done].
Qed.

(** ** A format *)

(** "tid: %5u cr3: %p" with a newline, and "%-4d%%" *)
Definition kdemo_directive (flags width : list Z) (c : conversion) : directive :=
  {| d_flags := flags; d_width := width; d_precision := None; d_length := DEFAULT; d_conv := c |}.
Definition kdemo_format : list kpiece :=
  (KLit <$> chars_of "tid: ") ++ [KDir (kdemo_directive [] [5] ConvU)] ++ (KLit <$> chars_of " cr3: ") ++
  [KDir (kdemo_directive [] [] ConvP); KLit 10; KDir (kdemo_directive [ch "-"] [4] ConvD); KPercent].

Lemma kdemo_format_ok : Forall kpiece_ok kdemo_format.
Proof.
  assert (D : ∀ f w c, f = [] ∨ f = [ch "-"] → Forall (λ d, 0 <= d <= 9) w → number_of w < 2 ^ 31 → kdirective_ok (kdemo_directive f w c)).
  { intros f w c Hf Hw Hn. split; [|done]. split; [|done|done|done]. destruct Hf as [-> | ->]; repeat constructor; by apply (bool_decide_unpack _). }
  unfold kdemo_format. rewrite !Forall_app, !Forall_fmap. repeat split.
  - repeat constructor; done.
  - constructor; [apply D; [by left|by repeat constructor|done]|constructor].
  - repeat constructor; done.
  - constructor; [apply D; [by left|constructor|done]|]. constructor; [done|]. constructor; [|by repeat constructor].
    apply D; [by right|by repeat constructor|done].
Qed.

Example kdemo_printed :
  _kprintf (λ c : Z, modify (λ out : list Z, out ++ [c])) (kdemo_format ≫= kpiece_chars) [IntArg 7; IntArg 0x1000; IntArg (-42)] [] =
    Ret tt (chars_of "tid:     7 cr3: 00001000" ++ [13; 10] ++ chars_of "-42 %").
Proof. rewrite (kprintf_renders _ kdemo_format [IntArg 7; IntArg 0x1000; IntArg (-42)] _ [] kdemo_format_ok eq_refl). vm_compute. reflexivity. Qed.
