(* ===== verification/KDebug.v ===== *)
(** * The kernel's debugging console: kernel/debug.c

    Ports of the machine are an interface: [in_port8] and [out_port8] run on a state
    of the hardware.  [is_vga_enabled], a constant of the file, is an argument, so
    that the code behind it is covered too; as it stands the constant is false.
    The locks are left out: SPINLOCK_ACQUIRE only waits, and nobody sets them.  The
    cells of the video memory are numbered from VIDMEM_START on; an access outside
    of the memory that the adapter shows is a fault. *)

From Stdlib Require Import Ascii.
From stdpp Require Import strings.
From S2P Require Import Prelude Machine Paging Kernel Thread Interrupt Strings Printf PrintfFormat KPrintf.

Definition SCREEN_HEIGHT : Z := 25.
Definition SCREEN_WIDTH : Z := 80.
Definition MISC_OUTPUT_RD_REG : Z := 0x3CC.
Definition MISC_OUTPUT_WR_REG : Z := 0x3C2.
Definition CRT_CONTR_INDEX : Z := 0x3D4.
Definition CRT_CONTR_DATA : Z := 0x3D5.
Definition START_ADDR_HIGH : Z := 0x0C.
Definition START_ADDR_LOW : Z := 0x0D.
Definition CHARS_PER_LINE : Z := SCREEN_WIDTH.
Definition MAX_LINES : Z := 203.
Definition COMBASE : Z := 0x3f8.

(** The 32K of text memory, in cells. *)
Definition VIDMEM_CELLS : Z := 16384.

(** Colours that are used. *)
Definition BLACK : Z := 0.
Definition GREEN : Z := 2.
Definition RED : Z := 4.
Definition GRAY : Z := 7.

Definition COLOR_ATTR (fg bg : Z) : Z := Z.lor fg (Z.shiftl bg 4).
Definition VGA_CHAR (c fg bg : Z) : Z := u16 (Z.lor c (Z.shiftl (COLOR_ATTR fg bg) 8)).
Definition CHAR_OF (c : Z) : Z := Z.land c 0xFF.

(** ** State *)

Class Ports (W : Type) := { in_port8 : Z → M W Z; out_port8 : Z → Z → M W unit }.

Record Cursor := { cx : Z; cy : Z }.

Record console {W : Type} := Console { serial_cursor : Cursor; video_cursor : Cursor; vidmem : Z → Z; hw : W }.
Arguments console : clear implicits.

Section console.
Context {W : Type} `{Ports W}.
Variable is_vga_enabled : bool.
(** How often the loop that waits for the serial port may turn. *)
Variable fuel : nat.

Abbreviation con := (console W).

#[local] Hint Extern 0 (@Update con _ ?p) =>
  derive_update (λ c : con, {| serial_cursor := serial_cursor c; video_cursor := video_cursor c; vidmem := vidmem c; hw := hw c |}) p : typeclass_instances.

Definition on_hw {A} (m : M W A) : M con A := zoom hw (λ h c, c <| hw := h |>) m.
Definition inb (port : Z) : M con Z := on_hw (in_port8 port).
Definition outb (port v : Z) : M con unit := on_hw (out_port8 port (u8 v)).

(** [vidmem[i]] and [vidmem[i] = v] *)
Definition cell (i : Z) : M con Z :=
  if (0 <=? i) && (i <? VIDMEM_CELLS) then gets (λ c, vidmem c i) else fail OutOfBounds.
Definition set_cell (i v : Z) : M con unit :=
  if (0 <=? i) && (i <? VIDMEM_CELLS) then modify (λ c, c <| vidmem ::= (λ f j, if j =? i then v else f j) |>) else fail OutOfBounds.

(** ** The serial port *)

Definition init_serial : M con unit :=
  let* v := inb (COMBASE + 3) in
  outb (COMBASE + 3) (Z.lor v 0x80) ;;
  outb COMBASE 0x03 ;;
  outb (COMBASE + 1) 0 ;;
  let* v := inb (COMBASE + 3) in
  outb (COMBASE + 3) (Z.land v 0x7f) ;;
  outb (COMBASE + 3) 3.

(** The loops that wait for a bit of the line status register. *)
Fixpoint wait_for (n : nat) (bit : Z) : M con unit :=
  match n with
  | O => fail OutOfFuel
  | S n => let* v := inb (COMBASE + 5) in if Z.land v bit =? 0 then wait_for n bit else ret tt
  end.

Definition get_debug_char : M con Z := wait_for fuel 0x01 ;; inb COMBASE.

(** ** Scrolling *)

Definition init_video : M con unit :=
  let* v := inb MISC_OUTPUT_RD_REG in
  outb MISC_OUTPUT_WR_REG (Z.lor v 1).

Definition set_scroll (addr : Z) : M con unit :=
  let high := Z.land (Z.shiftr addr 8) 0xFF in
  let low := Z.land addr 0xFF in
  outb CRT_CONTR_INDEX START_ADDR_HIGH ;;
  outb CRT_CONTR_DATA high ;;
  outb CRT_CONTR_INDEX START_ADDR_LOW ;;
  outb CRT_CONTR_DATA low.

Definition reset_scroll : M con unit := set_scroll 0.

Definition scroll (up : bool) : M con Z :=
  outb CRT_CONTR_INDEX START_ADDR_HIGH ;;
  let* high := inb CRT_CONTR_DATA in
  outb CRT_CONTR_INDEX START_ADDR_LOW ;;
  let* low := inb CRT_CONTR_DATA in
  let address := u16 (Z.lor (Z.shiftl high 8) low) in
  let '(address, r) :=
    if up then
      (if address =? 0 then CHARS_PER_LINE * MAX_LINES else u16 (address - CHARS_PER_LINE), 0)
    else
      let address := u16 (address + CHARS_PER_LINE) in
      if CHARS_PER_LINE * MAX_LINES <? address then (0, 1) else (address, 0) in
  set_scroll address ;;
  ret r.

Definition scroll_up : M con unit := scroll true ;; ret tt.
Definition scroll_down : M con Z := scroll false.

(** ** Characters on the screen *)

Definition do_new_line (x y : Z) : M con (Z * Z) :=
  let y := i32 (y + 1) in
  if SCREEN_HEIGHT <=? y then
    let* r := scroll_down in
    ret (0, if r =? 0 then y else 0)
  else ret (0, y).

(** A [char] has a sign; so has the word it is combined with the colours in. *)
Definition _put_char (c x y attrib : Z) : M con unit :=
  when is_vga_enabled
    (set_cell (CHARS_PER_LINE * y + x) (VGA_CHAR (signed 8 c) (Z.land attrib 0x0F) (Z.land (Z.shiftr attrib 4) 0x0F))).

Definition put_char (c x y : Z) : M con unit := _put_char c x y (COLOR_ATTR GRAY BLACK).

Definition print_char (c : Z) : M con unit :=
  when is_vga_enabled
    (if (c <? 32) || (126 <? c) then ret tt
     else
       let* cursor := gets video_cursor in
       let i := u32 (cy cursor * SCREEN_WIDTH + cx cursor) in
       let* w := cell i in
       set_cell i (Z.lor (Z.land w 0xFF00) (u8 c)) ;;
       let x := u32 (cx cursor + 1) in
       modify (λ s, s <| video_cursor := if SCREEN_WIDTH <=? x then {| cx := 0; cy := u32 (cy cursor + 1) |}
                                         else {| cx := x; cy := cy cursor |} |>)).

(** [n] cells from [i] on. *)
Fixpoint fill_cells (n : nat) (i v : Z) : M con unit :=
  match n with
  | O => ret tt
  | S n => set_cell i v ;; fill_cells n (i + 1) v
  end.

(** [n] lines from [line] on. *)
Fixpoint fill_lines (n : nat) (line v : Z) : M con unit :=
  match n with
  | O => ret tt
  | S n => fill_cells (Z.to_nat SCREEN_WIDTH) (CHARS_PER_LINE * line) v ;; fill_lines n (line + 1) v
  end.

Definition clear_screen : M con unit :=
  when is_vga_enabled
    (fill_cells (Z.to_nat SCREEN_WIDTH) 0 (VGA_CHAR (ch " ") BLACK GRAY) ;;
     fill_lines (Z.to_nat (SCREEN_HEIGHT - 1)) 1 (VGA_CHAR (ch " ") GRAY BLACK) ;;
     reset_scroll).

Definition inc_timer_count : M con unit :=
  when is_vga_enabled
    (let* w := cell (SCREEN_WIDTH - 1) in
     set_cell (SCREEN_WIDTH - 1) (VGA_CHAR (CHAR_OF (w + 1)) GREEN GRAY)).

(** ** Output *)

(** [if(c.y >= SCREEN_HEIGHT) scroll_down();] *)
Definition scroll_at_end (y : Z) : M con unit :=
  if SCREEN_HEIGHT <=? y then (let* _ := scroll_down in ret tt) else ret tt.

Definition put_debug_char (c : Z) : M con unit :=
  let* cur := gets serial_cursor in
  outb 0xE9 c ;;
  wait_for fuel 0x20 ;;
  outb COMBASE c ;;
  let* cur :=
    (if c =? 13 then
       let y := u32 (cy cur + 1) in
       scroll_at_end y ;; ret {| cx := 0; cy := y |}
     else if c =? 9 then ret {| cx := u32 (cx cur + 8); cy := cy cur |}
     else put_char c (i32 (cx cur)) (i32 (cy cur)) ;; ret {| cx := u32 (cx cur + 1); cy := cy cur |}) in
  let* cur :=
    (if SCREEN_WIDTH <=? cx cur then
       let y := u32 (cy cur + 1) in
       scroll_at_end y ;; ret {| cx := 0; cy := y |}
     else ret cur) in
  modify (λ s, s <| serial_cursor := cur |>).

Definition kprintf (str : list Z) (args : list arg) : M con unit := _kprintf put_debug_char str args.

Definition kprintfln (str : list Z) (args : list arg) : M con unit :=
  _kprintf put_debug_char str args ;;
  _kprintf put_debug_char [10] args.

Definition kprintf_at (x y : Z) (str : list Z) (args : list arg) : M con unit :=
  let* saved_cursor := gets video_cursor in
  modify (λ s, s <| video_cursor := {| cx := x; cy := y |} |>) ;;
  _kprintf print_char str args ;;
  modify (λ s, s <| video_cursor := saved_cursor |>).

(** [current] is the id and the root page map of the current thread, if there is
    one. *)
Definition inc_sched_count (current : option (Z * Z)) : M con unit :=
  when is_vga_enabled
    (let* w := cell 0 in
     set_cell 0 (VGA_CHAR (CHAR_OF (w + 1)) RED GRAY) ;;
     match current with
     | None => panic
     | Some (tid, root_pmap) => kprintf_at 2 0 (chars_of "tid: %5u cr3: %p") [IntArg tid; IntArg root_pmap]
     end).
End console.

(** ** Registers and stacks *)

Definition EXCEPTION_NAMES : list (list Z) :=
  chars_of <$>
  ["Divide Error"; "Debug Exception"; "NMI Interrupt"; "Breakpoint Exception"; "Overflow"; "BOUND Range Exceeded";
   "Invalid Opcode"; "Device Not Available"; "Double Fault"; "Coprocessor Segment Overrun"; "Invalid TSS";
   "Segment Not Present"; "Stack Fault"; "General Protection Exception"; "Page Fault"; "Unknown Exception";
   "x87 FPU Floating-Point Error"; "Alignment Check"; "Machine-Check"; "SIMD Floating-Point Exception";
   "Virtualization Exception"; "Control Protection Exception"; "Unknown Exception"; "Unknown Exception";
   "Unknown Exception"; "Unknown Exception"; "Unknown Exception"; "Unknown Exception"; "Unknown Exception";
   "Unknown Exception"; "Unknown Exception"].

Definition IRQ_BASE : Z := 0x20.
Definition IRQ (num : Z) : Z := IRQ_BASE + num.

Section dump.
Context {W : Type} `{Ports W}.
Variable is_vga_enabled : bool.
Variable fuel : nat.
(** Addresses the linker chooses. *)
Variables kpage_dir kboot_stack_top kernel_stack_top : Z.

(** The console and the memory. *)
Abbreviation st := (console W * machine)%type.

Definition print (str : String.string) (args : list arg) : M st unit :=
  zoom fst (λ c s, (c, snd s)) (kprintf is_vga_enabled fuel (chars_of str) args).
Definition println (str : String.string) (args : list arg) : M st unit :=
  zoom fst (λ c s, (c, snd s)) (kprintfln is_vga_enabled fuel (chars_of str) args).
Definition vmem {A} (m : M machine A) : M st A := zoom snd (λ m s, (fst s, m)) m.

Definition is_stack_top (stack_frame_ptr addr_space : Z) : bool :=
  (addr_space =? kpage_dir) && (stack_frame_ptr =? kboot_stack_top) || (stack_frame_ptr =? kernel_stack_top).

(** The words of a frame, [n] of them from the [i]-th on. *)
Fixpoint dump_words (n : nat) (i stack_frame_ptr addr_space : Z) : M st unit :=
  match n with
  | O => ret tt
  | S n =>
      let a := u32 (stack_frame_ptr + i * 4) in
      if is_stack_top a addr_space then ret tt
      else
        let* r := vmem (is_readable a addr_space) in
        (if i =? 1 then
           if r =? 1 then let* v := vmem (uload32 a) in print " [%#.08lx]" [IntArg v] else print " [???]" []
         else if (r =? 1) && negb (a =? 0) then let* v := vmem (uload32 a) in print " %#.08lx" [IntArg v]
         else print " ???" []) ;;
        dump_words n (i + 1) stack_frame_ptr addr_space
  end.

Fixpoint dump_frames (n : nat) (stack_frame_ptr addr_space : Z) : M st unit :=
  match n with
  | O => fail OutOfFuel
  | S n =>
      if stack_frame_ptr =? 0 then ret tt
      else
        let is_at_top := is_stack_top stack_frame_ptr addr_space in
        print "<%#.08lx>:%s" [IntArg stack_frame_ptr; StrArg (chars_of (if is_at_top then " TOP" else String.EmptyString))] ;;
        if is_at_top then ret tt
        else
          let* r := vmem (is_readable stack_frame_ptr addr_space) in
          if negb (r =? 1) then println " unable to read frame data." []
          else
            dump_words 7 1 stack_frame_ptr addr_space ;;
            println String.EmptyString [] ;;
            let* next := vmem (uload32 stack_frame_ptr) in
            dump_frames n next addr_space
  end.

(** [n] limits the number of frames. *)
Definition dump_stack (n : nat) (stack_frame_ptr addr_space : Z) : M st unit :=
  println (String.append (String.String (ascii_of_nat 10) (String.String (ascii_of_nat 10) "Stack Trace:"))
    (String.String (ascii_of_nat 10) "<Stack Frame>: [Return-EIP] args*")) [] ;;
  dump_frames n stack_frame_ptr addr_space.

(** [cr] has the registers read with instructions, [behind] is the address behind
    [exec_state]. *)
Definition dump_state (n : nat) (cr : control_regs) (behind : Z) (exec_state : ExecutionState) (int_num error_code : Z) : M st unit :=
  (if int_num <? IRQ_BASE then
     let* name := deref NullDeref (EXCEPTION_NAMES !! Z.to_nat int_num) in
     println "%s (exception %lu)" [StrArg name; IntArg int_num]
   else if int_num <? IRQ 24 then println "IRQ %lu" [IntArg (int_num - IRQ_BASE)]
   else if int_num <? 256 then println "Software Interrupt %lu" [IntArg int_num]
   else println "Invalid Interrupt %lu" [IntArg int_num]) ;;
  println "EAX: %#.08lx EBX: %#.08lx ECX: %#.08lx EDX: %#.08lx EFL: %#.08lx"
    [IntArg (eax exec_state); IntArg (ebx exec_state); IntArg (ecx exec_state); IntArg (edx exec_state); IntArg (eflags exec_state)] ;;
  let user := cs exec_state =? UCODE_SEL in
  println "ESI: %#.08lx EDI: %#.08lx EBP: %#.08lx ESP: %#.08lx EIP: %#.08lx"
    [IntArg (esi exec_state); IntArg (edi exec_state); IntArg (ebp exec_state);
     IntArg (if user then user_esp exec_state else u32 (behind - 8)); IntArg (eip exec_state)] ;;
  println "CS:  %#.04x DS: %#.04x ES: %#.04x FS: %#.04x GS: %#.04x SS: %#.04x"
    [IntArg (cs exec_state); IntArg (ds exec_state); IntArg (es exec_state); IntArg (fs exec_state); IntArg (gs exec_state);
     IntArg (if user then user_ss exec_state else get_ss cr)] ;;
  let* root := gets (λ s : st, cr3 (snd s)) in
  print "CR0: %#.08lx CR2: %#.08lx CR3: %#.08lx CR4: %#.08lx"
    [IntArg (get_cr0 cr); IntArg (get_cr2 cr); IntArg root; IntArg (get_cr4 cr)] ;;
  (if (int_num =? 8) || (10 <=? int_num) && (int_num <=? 14) || (int_num =? 17) || (int_num =? 21)
   then println " error code: %#.08lx" [IntArg error_code]
   else println String.EmptyString []) ;;
  dump_stack n (ebp exec_state) root.

(** [thread] is the address, the id and the root page map of a thread. *)
Definition dump_regs (n : nat) (cr : control_regs) (behind : Z) (thread : option (Z * Z * Z)) (exec_state : ExecutionState)
    (int_num error_code : Z) : M st unit :=
  match thread with Some (p, tid, _) => print "Thread: %p (TID: %u) " [IntArg p; IntArg tid] | None => ret tt end ;;
  dump_state n cr behind exec_state int_num error_code ;;
  match thread with
  | Some (_, _, root_pmap) =>
      let* root := gets (λ s : st, cr3 (snd s)) in
      println "Thread CR3: %#lx Current CR3: %#lx" [IntArg root_pmap; IntArg root]
  | None => ret tt
  end.
End dump.
