(* ===== verification/KDebugSpec.v ===== *)
(** * The console: serial port, scrolling and screen

    The laws of the hardware are those of a UART and of the CRT controller of a VGA
    adapter.  Under them [kprintf] sends the rendering of its format to the serial
    port, character by character, and scrolling moves the start address of the
    screen around the video memory line by line. *)

From Stdlib Require Import Ascii.
From stdpp Require Import strings.
From S2P Require Import Prelude Bits Machine Paging Kernel Interrupt Strings Printf PrintfSpec PrintfRender PrintfFormat PrintfStandard KPrintf KPrintfSpec KDebug.

(** ** The hardware *)

(** [sent]: the bytes that the serial port transmits; [dlab]: whether its first two
    ports are those of the divisor, bit 7 of the line control register; [delay]: how
    many reads of the line status report a full transmitter; [start]: the start
    address of the screen; [selected]: the register behind the data port of the CRT
    controller.  A byte is transmitted if it is written while the transmitter is
    empty and the divisor is not selected; of other writes nothing is said, but that
    the divisor is not transmitted. *)
Class Board (W : Type) `{Ports W} := {
  sent : W → list Z;
  start : W → Z;
  selected : W → Z;
  dlab : W → bool;
  delay : W → nat;
  max_delay : nat;
  delay_le w : (delay w <= max_delay)%nat;
  start_range w : 0 <= start w < 2 ^ 16;
  out_serial w v : 0 <= v < 256 → dlab w = false → delay w = 0%nat →
    ∃ w', out_port8 COMBASE v w = Ret tt w' ∧ sent w' = sent w ++ [v] ∧ start w' = start w ∧ dlab w' = false;
  out_divisor w p v : 0 <= v < 256 → dlab w = true → p = COMBASE ∨ p = COMBASE + 1 →
    ∃ w', out_port8 p v w = Ret tt w' ∧ sent w' = sent w ∧ start w' = start w ∧ dlab w' = true;
  in_control w : ∃ v w', in_port8 (COMBASE + 3) w = Ret v w' ∧ 0 <= v < 256 ∧ Z.testbit v 7 = dlab w ∧
    sent w' = sent w ∧ start w' = start w ∧ dlab w' = dlab w;
  out_control w v : 0 <= v < 256 →
    ∃ w', out_port8 (COMBASE + 3) v w = Ret tt w' ∧ sent w' = sent w ∧ start w' = start w ∧ dlab w' = Z.testbit v 7;
  out_e9 w v : 0 <= v < 256 → ∃ w', out_port8 0xE9 v w = Ret tt w' ∧ sent w' = sent w ∧ start w' = start w ∧ dlab w' = dlab w;
  in_status w : ∃ v w', in_port8 (COMBASE + 5) w = Ret v w' ∧ sent w' = sent w ∧ start w' = start w ∧ dlab w' = dlab w ∧
    (Z.land v 0x20 = 0 ↔ (0 < delay w)%nat) ∧ (delay w' <= Nat.pred (delay w))%nat;
  out_index w v : 0 <= v < 256 →
    ∃ w', out_port8 CRT_CONTR_INDEX v w = Ret tt w' ∧ selected w' = v ∧ sent w' = sent w ∧ start w' = start w ∧ dlab w' = dlab w;
  out_high w v : 0 <= v < 256 → selected w = START_ADDR_HIGH →
    ∃ w', out_port8 CRT_CONTR_DATA v w = Ret tt w' ∧ sent w' = sent w ∧ start w' = 256 * v + start w mod 256 ∧ dlab w' = dlab w;
  out_low w v : 0 <= v < 256 → selected w = START_ADDR_LOW →
    ∃ w', out_port8 CRT_CONTR_DATA v w = Ret tt w' ∧ sent w' = sent w ∧ start w' = 256 * (start w / 256) + v ∧ dlab w' = dlab w;
  in_high w : selected w = START_ADDR_HIGH →
    ∃ w', in_port8 CRT_CONTR_DATA w = Ret (start w / 256) w' ∧ sent w' = sent w ∧ start w' = start w ∧ dlab w' = dlab w;
  in_low w : selected w = START_ADDR_LOW →
    ∃ w', in_port8 CRT_CONTR_DATA w = Ret (start w mod 256) w' ∧ sent w' = sent w ∧ start w' = start w ∧ dlab w' = dlab w;
}.

Section spec.
Context {W : Type} {PI : Ports W} {BI : Board W}.

Abbreviation con := (console W).

Definition with_hw (h : W) (c : con) : con :=
  {| serial_cursor := serial_cursor c; video_cursor := video_cursor c; vidmem := vidmem c; hw := h |}.

Lemma wp_inb port v h c (Q : Z → con → Prop) L : in_port8 port (hw c) = Ret v h → Q v (with_hw h c) → wp (inb port) Q L c.
Proof. intros E HQ. eapply wp_of_ret; [|exact HQ]. unfold inb, on_hw, zoom. by rewrite E. Qed.

Lemma wp_outb port v h c (Q : unit → con → Prop) L : out_port8 port (u8 v) (hw c) = Ret tt h → Q tt (with_hw h c) → wp (outb port v) Q L c.
Proof. intros E HQ. eapply wp_of_ret; [|exact HQ]. unfold outb, on_hw, zoom. by rewrite E. Qed.

(** What is left of the state of the hardware. *)
Definition shows (h : W) (l : list Z) (a : Z) (d : bool) : Prop := sent h = l ∧ start h = a ∧ dlab h = d.

Lemma wp_index v c (Q : unit → con → Prop) L : 0 <= v < 256 →
  (∀ h, shows h (sent (hw c)) (start (hw c)) (dlab (hw c)) → selected h = v → Q tt (with_hw h c)) → wp (outb CRT_CONTR_INDEX v) Q L c.
Proof.
  intros Hv HQ. destruct (out_index (hw c) v Hv) as (h & E & E1 & E2 & E3 & E4).
  apply (wp_outb _ _ h); [by rewrite wrap_small|]. by apply HQ.
Qed.
Lemma wp_high v c (Q : unit → con → Prop) L : 0 <= v < 256 → selected (hw c) = START_ADDR_HIGH →
  (∀ h, shows h (sent (hw c)) (256 * v + start (hw c) mod 256) (dlab (hw c)) → Q tt (with_hw h c)) → wp (outb CRT_CONTR_DATA v) Q L c.
Proof.
  intros Hv Hs HQ. destruct (out_high (hw c) v Hv Hs) as (h & E & E1 & E2 & E3). apply (wp_outb _ _ h); [by rewrite wrap_small|]. by apply HQ.
Qed.
Lemma wp_low v c (Q : unit → con → Prop) L : 0 <= v < 256 → selected (hw c) = START_ADDR_LOW →
  (∀ h, shows h (sent (hw c)) (256 * (start (hw c) / 256) + v) (dlab (hw c)) → Q tt (with_hw h c)) → wp (outb CRT_CONTR_DATA v) Q L c.
Proof.
  intros Hv Hs HQ. destruct (out_low (hw c) v Hv Hs) as (h & E & E1 & E2 & E3). apply (wp_outb _ _ h); [by rewrite wrap_small|]. by apply HQ.
Qed.

(** ** Scrolling *)

Lemma wp_set_scroll a c (Q : unit → con → Prop) L : 0 <= a < 2 ^ 16 →
  (∀ h, shows h (sent (hw c)) a (dlab (hw c)) → Q tt (with_hw h c)) → wp (set_scroll a) Q L c.
Proof.
  intros Ha HQ. unfold set_scroll.
  assert (Z.land (Z.shiftr a 8) 0xFF = a / 256) as ->.
  { change 0xFF with (Z.ones 8). rewrite Z.land_ones, Z.shiftr_div_pow2 by lia. apply Z.mod_small. zdiv. }
  assert (Z.land a 0xFF = a mod 256) as -> by (change 0xFF with (Z.ones 8); by rewrite Z.land_ones by lia).
  assert (0 <= a / 256 < 256 ∧ 0 <= a mod 256 < 256) as [H1 H2] by (split; zdiv).
  wp_step. apply wp_index; [unfold START_ADDR_HIGH; lia|]. intros h1 (S1 & T1 & D1) E1.
  wp_step. apply wp_high; [done|done|]. intros h2 (S2 & T2 & D2). cbn [hw with_hw] in *.
  wp_step. apply wp_index; [unfold START_ADDR_LOW; lia|]. intros h3 (S3 & T3 & D3) E3. cbn [hw with_hw] in *.
  apply wp_low; [done|done|]. intros h4 (S4 & T4 & D4). cbn [hw with_hw] in *. apply HQ. split; [congruence|]. split; [|congruence].
  rewrite T4, T3, T2. pose proof (start_range (hw c)). pose proof (Z.mod_pos_bound (start h1) 256 ltac:(lia)). zdiv.
Qed.

(** The start address after a step down or up, and the result. *)
Definition next_start (up : bool) (a : Z) : Z * Z :=
  if up then (if a =? 0 then 16240 else u16 (a - 80), 0)
  else if 16240 <? u16 (a + 80) then (0, 1) else (u16 (a + 80), 0).

Lemma next_start_range up a : 0 <= fst (next_start up a) < 2 ^ 16.
Proof.
  unfold next_start. destruct up; cbn [fst]; [destruct (a =? 0); [lia|by apply wrap_range]|].
  destruct (16240 <? u16 (a + 80)); cbn [fst]; [lia|by apply wrap_range].
Qed.

Lemma wp_scroll up c (Q : Z → con → Prop) L :
  (∀ h, shows h (sent (hw c)) (fst (next_start up (start (hw c)))) (dlab (hw c)) → Q (snd (next_start up (start (hw c)))) (with_hw h c)) →
  wp (scroll up) Q L c.
Proof.
  intros HQ. unfold scroll. pose proof (start_range (hw c)) as R.
  wp_step. apply wp_index; [unfold START_ADDR_HIGH; lia|]. intros h1 (S1 & T1 & D1) E1.
  destruct (in_high h1 E1) as (h2 & E2 & S2 & T2 & D2). wp_step. apply (wp_inb _ (start h1 / 256) h2); [done|].
  wp_step. apply wp_index; [unfold START_ADDR_LOW; lia|]. intros h3 (S3 & T3 & D3) E3. cbn [hw with_hw] in *.
  destruct (in_low h3 E3) as (h4 & E4 & S4 & T4 & D4). wp_step. apply (wp_inb _ (start h3 mod 256) h4); [done|]. cbn [with_hw hw].
  assert (u16 (Z.lor (Z.shiftl (start h1 / 256) 8) (start h3 mod 256)) = start (hw c)) as ->.
  { rewrite T3, T2, T1, Z.shiftl_mul_pow2, lor_add_high by (try apply Z.mod_pos_bound; lia).
    change (2 ^ 8) with 256. rewrite (Z.mul_comm (_ / 256)), <- Z.div_mod by lia. by apply wrap_small. }
  change (CHARS_PER_LINE * MAX_LINES) with 16240. change CHARS_PER_LINE with 80. set (a := start (hw c)) in *.
  assert (F : ∀ a' r, 0 <= a' < 2 ^ 16 → (a', r) = next_start up a → wp (set_scroll a' ;; ret r) Q L (with_hw h4 c)).
  { intros a' r Ha E. wp_step. apply wp_set_scroll; [done|]. intros h5 (S5 & T5 & D5). apply wp_ret. cbn [hw with_hw] in *.
    specialize (HQ h5). rewrite <- E in HQ. apply HQ. split; [cbn; congruence|]. split; [done|cbn; congruence]. }
  pose proof (next_start_range up a) as Rn. unfold next_start in *. destruct up.
  - apply F; [exact Rn|done].
  - destruct (16240 <? u16 (a + 80)); apply F; [exact Rn|done|exact Rn|done].
Qed.

(** ** The serial port *)

(** The loop ends with the transmitter empty. *)
Lemma wp_wait n : ∀ c (Q : unit → con → Prop) L, (delay (hw c) < n)%nat →
  (∀ h, shows h (sent (hw c)) (start (hw c)) (dlab (hw c)) → delay h = 0%nat → Q tt (with_hw h c)) → wp (wait_for n 0x20) Q L c.
Proof.
  induction n as [|n IH]; intros c Q L Hn HQ; [lia|]. cbn [wait_for].
  destruct (in_status (hw c)) as (v & h & E & E1 & E2 & E3 & E4 & E5). wp_step. apply (wp_inb _ v h); [done|].
  destruct (Z.eqb_spec (Z.land v 0x20) 0) as [Z0|N].
  - apply E4 in Z0. apply IH; [cbn; lia|]. intros h' (S & T & D). cbn [hw with_hw] in *. apply (HQ h'). split; [congruence|]. split; congruence.
  - apply wp_ret. assert (¬ (0 < delay (hw c))%nat) by (intros P; by apply N, E4). apply HQ; [by split|lia].
Qed.

(** [init_serial] sets the divisor and sends nothing. *)
Theorem init_serial_opens c : ∃ c', init_serial c = Ret tt c' ∧ sent (hw c') = sent (hw c) ∧ dlab (hw c') = false.
Proof.
  apply wp_runs. intros Q L HQ. unfold init_serial. assert (U : ∀ x, 0 <= u8 x < 256) by (intros x; by apply wrap_range).
  destruct (in_control (hw c)) as (v1 & h1 & E1 & _ & _ & S1 & _). wp_step. apply (wp_inb _ v1 h1); [done|].
  destruct (out_control h1 _ (U (Z.lor v1 0x80))) as (h2 & E2 & S2 & _ & D2). wp_step. apply (wp_outb _ _ h2); [done|].
  assert (B2 : dlab h2 = true) by (rewrite D2; unfold wrap; by rewrite Z.mod_pow2_bits_low, Z.lor_spec, orb_true_r by lia).
  destruct (out_divisor h2 COMBASE _ (U 3) B2) as (h3 & E3 & S3 & _ & D3); [by left|]. wp_step. apply (wp_outb _ _ h3); [done|].
  destruct (out_divisor h3 (COMBASE + 1) _ (U 0) D3) as (h4 & E4 & S4 & _); [by right|]. wp_step. apply (wp_outb _ _ h4); [done|].
  destruct (in_control h4) as (v5 & h5 & E5 & _ & _ & S5 & _). wp_step. apply (wp_inb _ v5 h5); [done|].
  destruct (out_control h5 _ (U (Z.land v5 0x7f))) as (h6 & E6 & S6 & _). wp_step. apply (wp_outb _ _ h6); [done|].
  destruct (out_control h6 _ (U 3)) as (h7 & E7 & S7 & _ & D7). apply (wp_outb _ _ h7); [done|].
  apply HQ. split; [cbn; congruence|exact D7].
Qed.

(** ** The cursor *)

(** The start address after a line feed to line [y]. *)
Definition line_feed (y a : Z) : Z := if 25 <=? y then fst (next_start false a) else a.

(** The cursor and the start address after a character. *)
Definition advance (k : Cursor * Z) (c : Z) : Cursor * Z :=
  let '(cur, a) := k in
  let '(cur, a) :=
    if c =? 13 then ({| cx := 0; cy := u32 (cy cur + 1) |}, line_feed (u32 (cy cur + 1)) a)
    else if c =? 9 then ({| cx := u32 (cx cur + 8); cy := cy cur |}, a)
    else ({| cx := u32 (cx cur + 1); cy := cy cur |}, a) in
  if 80 <=? cx cur then ({| cx := 0; cy := u32 (cy cur + 1) |}, line_feed (u32 (cy cur + 1)) a) else (cur, a).

Lemma wp_scroll_at_end y c (Q : unit → con → Prop) L :
  (∀ h, shows h (sent (hw c)) (line_feed y (start (hw c))) (dlab (hw c)) → Q tt (with_hw h c)) → wp (scroll_at_end y) Q L c.
Proof.
  intros HQ. unfold scroll_at_end, line_feed in *. change SCREEN_HEIGHT with 25. destruct (25 <=? y).
  - wp_step. apply wp_scroll. intros h Hh. apply wp_ret. by apply HQ.
  - apply wp_ret. destruct c as [x1 x2 x3 h]. apply (HQ h). by split.
Qed.

(** The state after a character that was sent. *)
Definition after (l : list Z) (k : Cursor * Z) (c c' : con) : Prop :=
  sent (hw c') = l ∧ dlab (hw c') = false ∧ (serial_cursor c', start (hw c')) = k ∧ video_cursor c' = video_cursor c ∧ vidmem c' = vidmem c.

Lemma wp_put_debug_char fuel x c (Q : unit → con → Prop) L : (max_delay < fuel)%nat → dlab (hw c) = false →
  (∀ c', after (sent (hw c) ++ [u8 x]) (advance (serial_cursor c, start (hw c)) x) c c' → Q tt c') →
  wp (put_debug_char false fuel x) Q L c.
Proof.
  intros Hf Hd HQ. unfold put_debug_char. wp_step. apply wp_gets.
  assert (U : 0 <= u8 x < 256) by (by apply wrap_range).
  destruct (out_e9 (hw c) (u8 x) U) as (h1 & E1 & S1 & T1 & D1). wp_step. apply (wp_outb _ _ h1); [done|].
  wp_step. apply wp_wait; [cbn; pose proof (delay_le h1); lia|]. intros h2 (S2 & T2 & D2) Z2. cbn [hw with_hw] in *.
  destruct (out_serial h2 (u8 x) U) as (h3 & E3 & S3 & T3 & D3); [congruence|done|]. wp_step. apply (wp_outb _ _ h3); [done|].
  set (k := serial_cursor c) in *. unfold advance in HQ.
  assert (S4 : sent h3 = sent (hw c) ++ [u8 x]) by congruence. assert (T4 : start h3 = start (hw c)) by congruence.
  change SCREEN_WIDTH with 80 in *.
  assert (F : ∀ cur a h, sent h = sent h3 → start h = a → dlab h = false →
    (let '(cur, a) := if 80 <=? cx cur then ({| cx := 0; cy := u32 (cy cur + 1) |}, line_feed (u32 (cy cur + 1)) a) else (cur, a) in
     ∀ c', after (sent h3) (cur, a) c c' → Q tt c') →
    wp (let* cur := (if 80 <=? cx cur then let y := u32 (cy cur + 1) in scroll_at_end y ;; ret {| cx := 0; cy := y |} else ret cur) in
        modify (λ s : con, {| serial_cursor := cur; video_cursor := video_cursor s; vidmem := vidmem s; hw := hw s |})) Q L (with_hw h c)).
  { intros cur a h Sh Th Dh HF. wp_step. destruct (80 <=? cx cur).
    - cbv zeta. wp_step. apply wp_scroll_at_end. intros h' (S' & T' & D'). cbn [hw with_hw] in *. apply wp_ret. apply wp_modify. apply HF.
      split; [cbn; congruence|]. split; [cbn; congruence|]. split; [cbn; f_equal; congruence|done].
    - apply wp_ret. apply wp_modify. apply HF. split; [done|]. split; [done|]. split; [cbn; by f_equal|done]. }
  rewrite S4 in F. wp_step. destruct (x =? 13); [|destruct (x =? 9)].
  - cbv zeta. wp_step. apply wp_scroll_at_end. intros h' (S' & T' & D'). cbn [hw with_hw] in *. apply wp_ret.
    eapply (F _ (line_feed (u32 (cy k + 1)) (start (hw c)))); [congruence|congruence|congruence|]. exact HQ.
  - apply wp_ret. apply (F _ (start (hw c))); [done..|]. cbn [fst snd]. destruct (80 <=? _); exact HQ.
  - wp_step. apply wp_ret. apply wp_ret. apply (F _ (start (hw c))); [done..|]. destruct (80 <=? _); exact HQ.
Qed.

Lemma wp_put_all fuel l : ∀ c (Q : unit → con → Prop) L, (max_delay < fuel)%nat → dlab (hw c) = false →
  (∀ c', after (sent (hw c) ++ (u8 <$> l)) (foldl advance (serial_cursor c, start (hw c)) l) c c' → Q tt c') →
  wp (put_all (put_debug_char false fuel) l) Q L c.
Proof.
  induction l as [|x l IH]; intros c Q L Hf Hd HQ; cbn [put_all fmap list_fmap foldl].
  - apply wp_ret. apply HQ. split; [by rewrite app_nil_r|done].
  - wp_step. apply wp_put_debug_char; [done..|]. intros c1 (S1 & D1 & K1 & V1 & M1). apply IH; [done..|].
    intros c2 (S2 & D2 & K2 & V2 & M2). apply HQ. split; [rewrite S2, S1, <- app_assoc; done|]. split; [done|]. split; [by rewrite K2, K1|].
    split; congruence.
Qed.

(** [kprintf] sends the text of its format. *)
Lemma wp_kprintf fuel ps args l c (Q : unit → con → Prop) L : (max_delay < fuel)%nat → dlab (hw c) = false → Forall kpiece_ok ps → krendered ps args = Some l →
  (∀ c', after (sent (hw c) ++ (u8 <$> l)) (foldl advance (serial_cursor c, start (hw c)) l) c c' → Q tt c') →
  wp (kprintf false fuel (ps ≫= kpiece_chars) args) Q L c.
Proof.
  intros Hf Hd Hps Hl HQ. pose proof (wp_put_all fuel l c Q L Hf Hd HQ) as H. unfold wp in *. unfold kprintf.
  by rewrite (kprintf_renders _ ps args l c Hps Hl).
Qed.

Lemma advance_column k x : cx (fst (advance k x)) < 80.
Proof.
  destruct k as [cur a]. unfold advance. destruct (x =? 13); [|destruct (x =? 9)]; cbn [cx cy].
  all: case_match eqn:E; cbn [fst cx]; lia.
Qed.

Lemma column_after l k : cx (fst k) < 80 → cx (fst (foldl advance k l)) < 80.
Proof. revert k. induction l as [|x l IH]; intros k Hk; [done|]. apply IH, advance_column. Qed.

(** The text of a format goes to the serial port, and moves the cursor. *)
Theorem kprintf_sends fuel ps args l c :
  (max_delay < fuel)%nat → dlab (hw c) = false → Forall kpiece_ok ps → krendered ps args = Some l → cx (serial_cursor c) < 80 →
  ∃ c', kprintf false fuel (ps ≫= kpiece_chars) args c = Ret tt c' ∧
    sent (hw c') = sent (hw c) ++ (u8 <$> l) ∧ dlab (hw c') = false ∧
    (serial_cursor c', start (hw c')) = foldl advance (serial_cursor c, start (hw c)) l ∧
    cx (serial_cursor c') < 80 ∧ video_cursor c' = video_cursor c ∧ vidmem c' = vidmem c.
Proof.
  intros Hf Hd Hps Hl Hx. destruct (wp_ret_inv (kprintf false fuel (ps ≫= kpiece_chars) args)
    (λ _ c', after (sent (hw c) ++ (u8 <$> l)) (foldl advance (serial_cursor c, start (hw c)) l) c c') c) as ([] & c' & E & S & D & K & V & M).
  { apply (wp_kprintf fuel ps args l); auto. }
  exists c'. repeat (split; [done|]). split; [|done].
  change (serial_cursor c') with (fst (serial_cursor c', start (hw c'))). rewrite K. by apply column_after.
Qed.


(** Scrolling: from a line of the video memory [scroll_down] goes to the next
    line, or from the last one to the first, and [scroll_up] back again. *)
Theorem scroll_roundtrip c n : start (hw c) = 80 * n → 0 <= n <= MAX_LINES →
  ∃ r c1 c2, scroll_down c = Ret r c1 ∧ start (hw c1) = 80 * (if n =? MAX_LINES then 0 else n + 1) ∧
    r = (if n =? MAX_LINES then 1 else 0) ∧ scroll_up c1 = Ret tt c2 ∧ start (hw c2) = start (hw c).
Proof.
  unfold MAX_LINES. intros Ha Hn.
  destruct (wp_ret_inv scroll_down (λ r c1, r = snd (next_start false (start (hw c))) ∧ start (hw c1) = fst (next_start false (start (hw c)))) c)
    as (r & c1 & E1 & Hr & H1); [apply wp_scroll; intros h (_ & Hh & _); by split|].
  destruct (wp_ret_inv scroll_up (λ _ c2, start (hw c2) = fst (next_start true (start (hw c1)))) c1)
    as ([] & c2 & E2 & H2); [unfold scroll_up; wp_step; apply wp_scroll; intros h (_ & Hh & _); by apply wp_ret|].
  exists r, c1, c2. split; [done|]. rewrite Ha in *. unfold next_start in H1, Hr. rewrite (wrap_small 16 (80 * n + 80)) in * by lia.
  rewrite H2. unfold next_start. destruct (Z.eqb_spec n 203) as [->|N].
  - cbn in H1, Hr. rewrite H1. by repeat split.
  - destruct (Z.ltb_spec 16240 (80 * n + 80)); [lia|]. cbn [fst snd] in *. rewrite H1. split; [lia|]. split; [done|]. split; [done|].
    destruct (Z.eqb_spec (80 * n + 80) 0); [lia|]. cbn [fst]. rewrite wrap_small by lia. lia.
Qed.

(** ** The screen *)

Lemma wp_set_cell i v c (Q : unit → con → Prop) L : 0 <= i < VIDMEM_CELLS →
  Q tt {| serial_cursor := serial_cursor c; video_cursor := video_cursor c; vidmem := λ j, if j =? i then v else vidmem c j; hw := hw c |} →
  wp (set_cell i v) Q L c.
Proof. intros Hi HQ. unfold set_cell. replace ((0 <=? i) && (i <? VIDMEM_CELLS)) with true by lia. by apply wp_modify. Qed.

Definition with_mem (f : Z → Z) (c : con) : con :=
  {| serial_cursor := serial_cursor c; video_cursor := video_cursor c; vidmem := f; hw := hw c |}.

Lemma wp_fill_cells v n : ∀ i c (Q : unit → con → Prop) L, 0 <= i → i + Z.of_nat n <= VIDMEM_CELLS →
  (∀ f, (∀ j, f j = if (i <=? j) && (j <? i + Z.of_nat n) then v else vidmem c j) → Q tt (with_mem f c)) →
  wp (fill_cells n i v) Q L c.
Proof.
  induction n as [|n IH]; intros i c Q L Hi Hn HQ; cbn [fill_cells].
  - apply wp_ret. destruct c as [x1 x2 f h]. apply (HQ f). intros j. cbn. by destruct (Z.leb_spec i j), (Z.ltb_spec j (i + Z.of_nat 0)); try lia.
  - wp_step. apply wp_set_cell; [lia|]. apply IH; [lia|lia|]. intros f Hf. apply (HQ f). intros j. rewrite Hf. cbn [vidmem].
    destruct (Z.leb_spec (i + 1) j), (Z.leb_spec i j), (Z.ltb_spec j (i + 1 + Z.of_nat n)), (Z.ltb_spec j (i + Z.of_nat (S n))), (Z.eqb_spec j i); cbn; try done; lia.
Qed.

Lemma wp_fill_lines v n : ∀ line c (Q : unit → con → Prop) L, 0 <= line → 80 * (line + Z.of_nat n) <= VIDMEM_CELLS →
  (∀ f, (∀ j, f j = if (80 * line <=? j) && (j <? 80 * (line + Z.of_nat n)) then v else vidmem c j) → Q tt (with_mem f c)) →
  wp (fill_lines n line v) Q L c.
Proof.
  induction n as [|n IH]; intros line c Q L Hi Hn HQ; cbn [fill_lines].
  - apply wp_ret. destruct c as [x1 x2 f h]. apply (HQ f). intros j. cbn.
    by destruct (Z.leb_spec (80 * line) j), (Z.ltb_spec j (80 * (line + Z.of_nat 0))); try lia.
  - wp_step. change CHARS_PER_LINE with 80. apply wp_fill_cells; [lia|change (Z.of_nat (Z.to_nat SCREEN_WIDTH)) with 80; lia|]. intros f Hf.
    apply IH; [lia|lia|]. intros g Hg. apply (HQ g). intros j. rewrite Hg. cbn [with_mem vidmem]. rewrite Hf.
    change (Z.of_nat (Z.to_nat SCREEN_WIDTH)) with 80.
    destruct (Z.leb_spec (80 * (line + 1)) j), (Z.ltb_spec j (80 * (line + 1 + Z.of_nat n))), (Z.leb_spec (80 * line) j),
      (Z.ltb_spec j (80 * line + 80)), (Z.ltb_spec j (80 * (line + Z.of_nat (S n)))); cbn; try done; lia.
Qed.

(** [clear_screen], where the screen is in use, blanks the 25 lines of 80
    characters, the first one in inverse colours, changes nothing behind them and
    scrolls to the top. *)
Theorem clear_screen_blanks c : ∃ c', clear_screen true c = Ret tt c' ∧ start (hw c') = 0 ∧ sent (hw c') = sent (hw c) ∧
  ∀ i, vidmem c' i = if (0 <=? i) && (i <? 80) then VGA_CHAR (ch " ") BLACK GRAY
                     else if (80 <=? i) && (i <? 2000) then VGA_CHAR (ch " ") GRAY BLACK else vidmem c i.
Proof.
  destruct (wp_ret_inv (clear_screen true) (λ _ c', start (hw c') = 0 ∧ sent (hw c') = sent (hw c) ∧
    ∀ i, vidmem c' i = if (0 <=? i) && (i <? 80) then VGA_CHAR (ch " ") BLACK GRAY
                       else if (80 <=? i) && (i <? 2000) then VGA_CHAR (ch " ") GRAY BLACK else vidmem c i) c) as ([] & c' & E & H); [|by exists c'].
  unfold clear_screen, when. wp_step. apply wp_fill_cells; [lia|done|]. intros f Hf. wp_step. apply wp_fill_lines; [lia|done|].
  intros g Hg. apply wp_set_scroll; [lia|]. intros h (S & T & _). split; [done|]. split; [done|]. intros i. cbn [with_hw with_mem vidmem] in *.
  rewrite Hg, Hf. change (Z.of_nat (Z.to_nat SCREEN_WIDTH)) with 80. change (Z.of_nat (Z.to_nat (SCREEN_HEIGHT - 1))) with 24.
  destruct (Z.leb_spec (80 * 1) i), (Z.ltb_spec i (80 * (1 + 24))), (Z.leb_spec 0 i), (Z.ltb_spec i (0 + 80)), (Z.ltb_spec i 80),
    (Z.leb_spec 80 i), (Z.ltb_spec i 2000); cbn; try done; lia.
Qed.
End spec.

(** ** A machine that obeys the laws *)

Record board := { b_sent : list Z; b_start : Z; b_selected : Z; b_control : Z; b_delay : nat }.

Definition board_start (b : board) : Z := u16 (b_start b).
Definition board_delay (b : board) : nat := Nat.min (b_delay b) 3.
Definition board_dlab (b : board) : bool := Z.testbit (u8 (b_control b)) 7.

(** The screen alone. *)
Definition set_start (a : Z) (b : board) : board :=
  {| b_sent := b_sent b; b_start := a; b_selected := b_selected b; b_control := b_control b; b_delay := b_delay b |}.

(** A byte that comes while the transmitter is full is lost. *)
#[export] Instance board_ports : Ports board := {
  in_port8 port b :=
    if port =? COMBASE + 5 then
      Ret (if (board_delay b =? 0)%nat then 0x60 else 0x40)
        {| b_sent := b_sent b; b_start := b_start b; b_selected := b_selected b; b_control := b_control b; b_delay := Nat.pred (board_delay b) |}
    else if port =? COMBASE + 3 then Ret (u8 (b_control b)) b
    else if port =? CRT_CONTR_DATA then Ret (if b_selected b =? START_ADDR_HIGH then board_start b / 256 else board_start b mod 256) b
    else Ret 0 b;
  out_port8 port v b :=
    if (port =? COMBASE) && negb (board_dlab b) then
      Ret tt {| b_sent := if (board_delay b =? 0)%nat then b_sent b ++ [v] else b_sent b; b_start := b_start b; b_selected := b_selected b;
                b_control := b_control b; b_delay := 3 |}
    else if port =? COMBASE + 3 then
      Ret tt {| b_sent := b_sent b; b_start := b_start b; b_selected := b_selected b; b_control := v; b_delay := b_delay b |}
    else if port =? CRT_CONTR_INDEX then
      Ret tt {| b_sent := b_sent b; b_start := b_start b; b_selected := v; b_control := b_control b; b_delay := b_delay b |}
    else if port =? CRT_CONTR_DATA then
      Ret tt (set_start (if b_selected b =? START_ADDR_HIGH then 256 * v + board_start b mod 256 else 256 * (board_start b / 256) + v) b)
    else Ret tt b
}.

#[export] Instance board_laws : Board board.
Proof.
  refine {| sent := b_sent; start := board_start; selected := b_selected; dlab := board_dlab; delay := board_delay; max_delay := 3 |}.
  - intros w. unfold board_delay. lia.
  - intros w. by apply wrap_range.
  - intros w v Hv D Z0. cbn -[board_dlab board_delay]. rewrite D, Z0. by eexists.
  - intros w p v Hv D [-> | ->]; cbn -[board_dlab]; rewrite ?D; by eexists.
  - intros w. eexists _, _. split; [reflexivity|]. split; [by apply wrap_range|done].
  - intros w v Hv. eexists. split; [reflexivity|]. split; [done|]. split; [done|]. unfold board_dlab. cbn [b_control]. by rewrite wrap_small.
  - intros w v Hv. by eexists.
  - intros w. eexists _, _. split; [reflexivity|]. do 3 (split; [done|]). unfold board_delay at 1 2 3 4. cbn [b_delay]. unfold board_delay.
    destruct (Nat.min (b_delay w) 3) eqn:E; [split; [split; [discriminate|lia]|lia]|]. split; [split; [lia|done]|lia].
  - intros w v Hv. by eexists.
  - intros w v Hv Hs. eexists. split; [reflexivity|]. split; [done|]. split; [|done]. unfold board_start at 1. cbn [b_start set_start]. rewrite Hs. cbn.
    rewrite wrap_small; [done|]. pose proof (Z.mod_pos_bound (board_start w) 256 ltac:(lia)). lia.
  - intros w v Hv Hs. eexists. split; [reflexivity|]. split; [done|]. split; [|done]. unfold board_start at 1. cbn [b_start set_start]. rewrite Hs. cbn.
    assert (0 <= board_start w < 2 ^ 16) as R by (by apply wrap_range). rewrite wrap_small; [done|]. zdiv.
  - intros w Hs. exists w. cbn. rewrite Hs. done.
  - intros w Hs. exists w. cbn. rewrite Hs. done.
Defined.

Definition demo_console (a : Z) : console board :=
  {| serial_cursor := {| cx := 78; cy := 24 |}; video_cursor := {| cx := 0; cy := 0 |}; vidmem := λ _, 0;
     hw := {| b_sent := []; b_start := a; b_selected := 0; b_control := 3; b_delay := 2 |} |}.


Lemma scroll_roundtrip_witness : ∃ r c1 c2, scroll_down (demo_console 16240) = Ret r c1 ∧ start (hw c1) = 0 ∧ r = 1 ∧
  scroll_up c1 = Ret tt c2 ∧ start (hw c2) = 16240.
Proof.
  destruct (scroll_roundtrip (demo_console 16240) 203) as (r & c1 & c2 & E1 & E2 & E3 & E4 & E5); [reflexivity|unfold MAX_LINES; lia|].
  exists r, c1, c2. split; [exact E1|]. split; [exact E2|]. split; [exact E3|]. split; [exact E4|exact E5].
Defined.

Lemma clear_screen_blanks_witness : ∃ c', clear_screen true (demo_console 80) = Ret tt c' ∧ vidmem c' 100 = 0x0720.
Proof. destruct (clear_screen_blanks (demo_console 80)) as (c' & E & _ & _ & H). exists c'. split; [exact E|]. rewrite H. reflexivity. Defined.

(** The line of the cursor is never set back: from line 25 on each carriage return
    scrolls, and the line goes on being counted. *)
Example cursor_line_grows : fst (foldl advance ({| cx := 0; cy := 24 |}, 0) [13; 13; 13]) = {| cx := 0; cy := 27 |}.
Proof. reflexivity. Qed.

(** A newline counts as a column. *)
Example newline_is_a_column : fst (foldl advance ({| cx := 5; cy := 0 |}, 0) [13; 10]) = {| cx := 1; cy := 1 |}.
Proof. reflexivity. Qed.
