(* ===== verification/KStack.v ===== *)
(** * Stack traces

    [is_readable] of kernel/paging.c against the page walk of the processor, and
    what [dump_stack] of kernel/debug.c writes for a chain of stack frames. *)

From Stdlib Require Import Ascii.
From stdpp Require Import strings.
From S2P Require Import Prelude Bits Machine Paging PagingFacts PagingSpec Kernel Thread Interrupt.
From S2P Require Import Strings Printf PrintfSpec PrintfRender PrintfFormat KPrintf KPrintfSpec KDebug KDebugSpec.

(** ** Readable addresses *)

(** The page directory entry of an address of the current address space. *)
Definition pde_of (c : machine) (va : Z) : Z := load32 (phys c) (pde_addr c va).

(** What [is_readable] looks at. *)
Definition probe (c : machine) (va : Z) : bool :=
  if ent_page_size (pde_of c va) then ent_present (pde_of c va) else ent_present (load32 (phys c) (pte_addr (pde_of c va) va)).

(** The entry of the window after it was used. *)
Definition window_cleared (c : machine) (kt : Z) : machine := set_phys (store32 (phys c) (slot0 kt) 0) c.

Lemma window_cleared_kmap c kt : kmap c kt → kmap (window_cleared c kt) kt.
Proof. intros K. exact (kmap_frame_slot c kt (0x191 * 4096) 0 K). Qed.

Lemma pte_addr_range pde va : 0 <= pte_addr pde va < 2 ^ 32.
Proof. unfold pte_addr, ent_frame. pose proof (bits_range pde 12 20 ltac:(lia) ltac:(lia)). zdiv. Qed.

Lemma wp_is_readable c kt va (Q : Z → machine → Prop) L : kmap c kt → 0 <= va < 2 ^ 32 →
  (ent_page_size (pde_of c va) = false → pte_addr (pde_of c va) va ≠ slot0 kt) →
  Q (if probe c va then 1 else 0) (window_cleared c kt) → wp (is_readable va (cr3 c)) Q L c.
Proof.
  intros K Hva Hpte HQ. pose proof (kmap_cr3 _ _ K) as Hcr. pose proof (kmap_distinct _ _ K) as Hd.
  assert (A : pmap_addr c (cr3 c) (PDE_INDEX va) = pde_addr c va).
  { unfold pmap_addr, pde_addr. rewrite PDE_INDEX_alt by done. by destruct (cr3 c =? CURRENT_ROOT_PMAP). }
  unfold is_readable, is_accessible, read_pde. wp_step.
  apply (wp_read_pmap_entry c kt); [done|rewrite PDE_INDEX_alt by done; zdiv|done| |].
  { rewrite A. unfold pde_addr, slot0. zdiv. }
  rewrite A. fold (pde_of c va). unfold probe in HQ.
  change (pde_is_page_sized (pde_of c va)) with (ent_page_size (pde_of c va)).
  destruct (ent_page_size (pde_of c va)) eqn:Hs.
  - apply wp_ret. change (pde_is_present (pde_of c va)) with (ent_present (pde_of c va)). cbn [orb]. by rewrite andb_true_r.
  - specialize (Hpte eq_refl). unfold read_pte. wp_step.
    pose proof (bits_range (pde_of c va) 12 20 ltac:(lia) ltac:(lia)) as R. fold (ent_frame (pde_of c va)) in R.
    assert (F : PBASE_TO_PADDR (get_pde_frame_number (pde_of c va)) = 4096 * ent_frame (pde_of c va)).
    { unfold get_pde_frame_number. change (pde_is_page_sized (pde_of c va)) with (ent_page_size (pde_of c va)). rewrite Hs.
      apply PBASE_TO_PADDR_alt. exact R. }
    rewrite F.
    assert (A' : pmap_addr (window_cleared c kt) (4096 * ent_frame (pde_of c va)) (PTE_INDEX va) = pte_addr (pde_of c va) va).
    { unfold pmap_addr, pte_addr. rewrite PTE_INDEX_alt by lia. unfold CURRENT_ROOT_PMAP.
      destruct (Z.eqb_spec (4096 * ent_frame (pde_of c va)) 0xFFFFFFFF); [lia|].
      replace (4096 * ent_frame (pde_of c va) / 4096) with (ent_frame (pde_of c va)); [done|]. zdiv. }
    apply (wp_read_pmap_entry (window_cleared c kt) kt);
      [by apply window_cleared_kmap|rewrite PTE_INDEX_alt by lia; by apply Z.mod_pos_bound|lia|by rewrite A'|].
    rewrite A'. apply wp_ret. unfold window_cleared in *. cbn [phys set_phys] in *. rewrite store32_store32.
    rewrite load32_store32_ne; [change (pte_is_present ?x) with (ent_present x); cbn [orb]; by rewrite andb_true_r|].
    unfold pte_addr, slot0 in *. zdiv.
Qed.

Lemma probe_translate c va : ent_present (pde_of c va) = true → probe c va = bool_decide (is_Some (translate c va)).
Proof.
  intros Hp. unfold probe, translate. fold (pde_of c va). rewrite Hp. destruct (ent_page_size (pde_of c va)); [by rewrite bool_decide_true by eauto|].
  destruct (ent_present (load32 _ _)); [by rewrite bool_decide_true by eauto|by rewrite bool_decide_false by (by intros [? ?])].
Qed.

(** [is_readable] of the current address space and the processor: for an
    address below a page table or in a large page, the result is 1 exactly where
    the page walk gives the address a translation; only the entry of the
    temporary window is changed. *)
Theorem is_readable_translate c kt va : kmap c kt → 0 <= va < 2 ^ 32 → ent_present (pde_of c va) = true →
  (ent_page_size (pde_of c va) = false → pte_addr (pde_of c va) va ≠ slot0 kt) →
  ∃ r c', is_readable va (cr3 c) c = Ret r c' ∧ (r = 1 ↔ is_Some (translate c va)) ∧ cr3 c' = cr3 c ∧
    ∀ a, a < slot0 kt ∨ slot0 kt + 4 <= a → load8 (phys c') a = load8 (phys c) a.
Proof.
  intros K Hva Hp Hpte. destruct (wp_ret_inv (is_readable va (cr3 c)) (λ r c', r = (if probe c va then 1 else 0) ∧ c' = window_cleared c kt) c)
    as (r & c' & E & -> & ->); [by apply (wp_is_readable c kt)|].
  exists (if probe c va then 1 else 0), (window_cleared c kt). split; [exact E|]. rewrite (probe_translate c va Hp).
  split; [case_bool_decide; split; try done; lia|]. split; [done|]. intros a Ha. apply load8_store32_ne. lia.
Qed.

Lemma is_readable_translate_witness : ∃ r c', is_readable 0x5004 0x1000 demo = Ret r c' ∧ (r = 1 ↔ is_Some (translate demo 0x5004)).
Proof.
  destruct (is_readable_translate demo 2 0x5004) as (r & c' & E & H & _); [apply demo_kmap|lia|vm_compute; reflexivity|intros _; vm_compute; discriminate|].
  exists r, c'. split; [exact E|exact H].
Defined.

(** The present bit of the directory entry is not looked at where the entry is not
    that of a large page: below an entry that is 0 an address is taken to be
    readable if the word of physical page 0 that belongs to it is odd. *)
Theorem is_readable_absent c kt va : kmap c kt → 0 <= va < 2 ^ 32 → pde_of c va = 0 → slot0 kt ≠ 4 * ((va / 2 ^ 12) mod 1024) →
  translate c va = None ∧
  ∃ r c', is_readable va (cr3 c) c = Ret r c' ∧ r = (if ent_present (load32 (phys c) (4 * ((va / 2 ^ 12) mod 1024))) then 1 else 0).
Proof.
  intros K Hva Hp Hs. split; [unfold translate; fold (pde_of c va); by rewrite Hp|].
  assert (A : pte_addr (pde_of c va) va = 4 * ((va / 2 ^ 12) mod 1024)) by (unfold pte_addr; by rewrite Hp).
  destruct (wp_ret_inv (is_readable va (cr3 c)) (λ r c', r = (if probe c va then 1 else 0)) c) as (r & c' & E & ->);
    [apply (wp_is_readable c kt); [done..|by rewrite A|done]|].
  exists (if probe c va then 1 else 0), c'. split; [exact E|]. unfold probe. rewrite A. by rewrite Hp.
Qed.

(** ** Words of a stack *)

(** The byte and the word at an address of the current address space; a word may
    start anywhere. *)
Definition byte_of (c : machine) (a : Z) : option Z := load8 (phys c) <$> translate c a.
Definition word_of (c : machine) (a : Z) : option Z :=
  b0 ← byte_of c a; b1 ← byte_of c (u32 (a + 1)); b2 ← byte_of c (u32 (a + 2)); b3 ← byte_of c (u32 (a + 3));
  Some (b0 + 256 * b1 + 65536 * (b2 + 256 * b3)).

Definition window (kt a : Z) : Prop := slot0 kt <= a < slot0 kt + 4.

(** A byte whose page table entry is not the entry of the temporary window, and
    that is not a byte of this entry. *)
Record apart_byte (c : machine) (kt a : Z) : Prop := {
  apart_entry : ent_page_size (pde_of c a) = false → pte_addr (pde_of c a) a ≠ slot0 kt;
  apart_data : ∀ pa, translate c a = Some pa → ¬ window kt pa
}.

Definition apart_word (c : machine) (kt a : Z) : Prop := 0 <= a < 2 ^ 32 ∧ ∀ i, 0 <= i < 4 → apart_byte c kt (u32 (a + i)).

Lemma apart_first c kt a : apart_word c kt a → apart_byte c kt a.
Proof. intros [R H]. specialize (H 0 ltac:(lia)). by rewrite Z.add_0_r, wrap_small in H. Qed.

Lemma agree_load32 c c' kt a : agree (window kt) c c' → a mod 4 = 0 → a ≠ slot0 kt → load32 (phys c') a = load32 (phys c) a.
Proof. intros [_ H] Ha Hn. unfold load32. rewrite !H; [done|..]; unfold window, slot0 in *; zdiv. Qed.

Lemma agree_pde c c' kt va : kmap c kt → 0 <= va < 2 ^ 32 → agree (window kt) c c' → pde_of c' va = pde_of c va.
Proof.
  intros K Hva Ha. pose proof (kmap_distinct _ _ K). pose proof Ha as [Hc _]. unfold pde_of, pde_addr. rewrite Hc.
  apply (agree_load32 c c' kt); [done|zdiv|unfold slot0; zdiv].
Qed.

Lemma agree_probe c c' kt a : kmap c kt → agree (window kt) c c' → 0 <= a < 2 ^ 32 → apart_byte c kt a → probe c' a = probe c a.
Proof.
  intros K Ha R [E D]. unfold probe. rewrite (agree_pde c c' kt) by done. destruct (ent_page_size (pde_of c a)); [done|].
  rewrite (agree_load32 c c' kt); [done|done|unfold pte_addr; zdiv|by apply E].
Qed.

Lemma agree_walk c c' kt a : kmap c kt → agree (window kt) c c' → 0 <= a < 2 ^ 32 → apart_byte c kt a → translate c' a = translate c a.
Proof.
  intros K Ha R [E D]. unfold translate. fold (pde_of c a). fold (pde_of c' a). rewrite (agree_pde c c' kt) by done.
  destruct (ent_present (pde_of c a)); [|done]. destruct (ent_page_size (pde_of c a)); [done|].
  rewrite (agree_load32 c c' kt); [done|done|unfold pte_addr; zdiv|by apply E].
Qed.

Lemma agree_byte c c' kt a : kmap c kt → agree (window kt) c c' → 0 <= a < 2 ^ 32 → apart_byte c kt a → byte_of c' a = byte_of c a.
Proof.
  intros K Ha R H. unfold byte_of. rewrite (agree_walk c c' kt) by done. destruct (translate c a) as [pa|] eqn:E; [|done]. cbn. f_equal.
  apply Ha. by apply (apart_data _ _ _ H).
Qed.

Lemma agree_word c c' kt a : kmap c kt → agree (window kt) c c' → apart_word c kt a → word_of c' a = word_of c a.
Proof.
  intros K Ha H. pose proof (apart_first c kt a H). destruct H as [R H]. unfold word_of. rewrite (agree_byte c c' kt a) by done.
  rewrite !(agree_byte c c' kt (u32 _)) by (done || (by apply wrap_range) || (apply H; lia)). done.
Qed.

Lemma agree_cleared c kt : agree (window kt) c (window_cleared c kt).
Proof. split; [done|]. intros a Ha. apply load8_store32_ne. unfold window in Ha. lia. Qed.

Lemma uload32_run c a : uload32 a c = match word_of c a with Some v => Ret v c | None => Fault PageFault end.
Proof.
  assert (V : ∀ x, vload8 x c = match byte_of c x with Some v => Ret v c | None => Fault PageFault end).
  { intros x. unfold vload8, byte_of. by destruct (translate c x). }
  assert (U : u32 (u32 (a + 2) + 1) = u32 (a + 3)) by (rewrite wrap_add_l; f_equal; lia).
  unfold word_of, uload32, uload16, bind, ret. rewrite V. destruct (byte_of c a); [|done]. rewrite V. destruct (byte_of c (u32 (a + 1))); [|done].
  rewrite V. cbn [mbind option_bind]. destruct (byte_of c (u32 (a + 2))); [|done]. rewrite V, U. by destruct (byte_of c (u32 (a + 3))).
Qed.

(** ** Texts *)

Lemma krendered_lits cs ps args l : krendered ps args = Some l → krendered ((KLit <$> cs) ++ ps) args = Some ((cs ≫= literal_chars) ++ l).
Proof.
  intros H. induction cs as [|c cs IH]; [done|]. rewrite fmap_cons, bind_cons. cbn [app krendered]. rewrite IH. cbn. by rewrite <- app_assoc.
Qed.

(** [%#.08lx] *)
Definition hex8 : directive :=
  {| d_flags := [ch "#"]; d_width := []; d_precision := Some [0; 8]; d_length := LONG_INT; d_conv := ConvX |}.

Definition hex_text (v : Z) : list Z :=
  let digits := kernel_text TULong (u32 v) 16 in
  [ch "0"; ch "x"] ++ replicate (Z.to_nat (8 - Z.of_nat (length digits))) (ch "0") ++ digits.

Lemma kernel_text_length k v base : in_type k v → asked k base → k ≠ TLongLong → (length (kernel_text k v base) <= 65)%nat.
Proof.
  intros Hv Hb N. destruct (itoa_gives_text k v base Hv Hb N) as (cs & E & _). unfold kernel_text. rewrite E. by apply itoa_length in E.
Qed.

Lemma render_hex8 v r : r_negative r = false → r_prefix r = (ch "0", ch "x") → r_precision r = 8 → r_body r = kernel_text TULong (u32 v) 16 →
  render hex8 r = hex_text v.
Proof.
  intros H1 H2 H3 H4. unfold render, hex_text. rewrite H1, H2, H3, H4. set (t := kernel_text TULong (u32 v) 16).
  transitivity (let core := [ch "0"; ch "x"] ++ replicate (Z.to_nat (Z.max 0 (8 - Z.of_nat (length t)))) (ch "0") ++ t in
    replicate (Z.to_nat (0 - Z.of_nat (length core))) (ch " ") ++ core); [reflexivity|]. cbv zeta.
  replace (Z.to_nat (Z.max 0 (8 - Z.of_nat (length t)))) with (Z.to_nat (8 - Z.of_nat (length t))) by lia.
  by replace (Z.to_nat (0 - _)) with 0%nat by lia.
Qed.

Lemma krendered_hex v ps args l : krendered ps args = Some l → krendered (KDir hex8 :: ps) (IntArg v :: args) = Some (hex_text v ++ l).
Proof.
  intros H. cbn [krendered]. unfold rendering_of. cbn [hex8 d_conv d_length d_precision d_flags unsigned_of option_bind mbind].
  pose proof (kernel_text_length TULong (u32 v) 16 ltac:(by apply wrap_range) ltac:(cbn; lia) ltac:(done)) as Hl.
  cbn [r_body]. rewrite length_fmap. unfold number_text. cbn [fst snd].
  destruct (Z.ltb_spec (Z.of_nat (length (kernel_text TULong (u32 v) 16))) (2 ^ 31)); [|lia]. rewrite H. cbn [option_bind mbind].
  do 2 f_equal. apply render_hex8; [done..|]. cbn. by rewrite list_fmap_id.
Qed.

(** [%s] *)
Definition str_directive : directive := {| d_flags := []; d_width := []; d_precision := None; d_length := DEFAULT; d_conv := ConvS |}.

Lemma krendered_str s ps args l : Z.of_nat (length s) < 2 ^ 31 → krendered ps args = Some l →
  krendered (KDir str_directive :: ps) (StrArg s :: args) = Some (s ++ l).
Proof.
  intros Hs H. cbn [krendered]. unfold rendering_of. cbn [str_directive d_conv d_precision precision_of].
  destruct (Z.leb_spec (-1) (Z.of_nat (length s))); [|lia]. cbn [option_bind mbind r_body Z.eqb Pos.eqb].
  destruct (Z.ltb_spec (Z.of_nat (length s)) (2 ^ 31)); [|lia]. rewrite H. cbn [option_bind mbind]. do 2 f_equal.
  transitivity (replicate (Z.to_nat (0 - Z.of_nat (length s))) (ch " ") ++ s); [reflexivity|].
  by replace (Z.to_nat (0 - _)) with 0%nat by lia.
Qed.

Lemma hex8_ok : kdirective_ok hex8.
Proof.
  split; [|done]. split; [repeat constructor; by apply (bool_decide_unpack _)|by split|intros ds [= <-]; split; [repeat constructor; lia|done]|done].
Qed.
Lemma str_directive_ok : kdirective_ok str_directive.
Proof. split; [|done]. split; [constructor|by split|done|done]. Qed.

Lemma lits_ok cs ps : Forall (λ c, c ≠ ch "%") cs → Forall kpiece_ok ps → Forall kpiece_ok ((KLit <$> cs) ++ ps).
Proof. intros H1 H2. apply Forall_app. split; [by rewrite Forall_fmap|done]. Qed.

(** ** Traces *)

Section trace.
Context {W : Type} {PI : Ports W} {BI : Board W}.
Variable fuel : nat.
Variables kpage_dir kboot_stack_top kernel_stack_top : Z.
Hypothesis fuel_enough : (max_delay < fuel)%nat.

Abbreviation st := (console W * machine)%type.

(** The text sent from one state to another. *)
Definition says (s : st) (l : list Z) (c' : console W) : Prop := sent (hw c') = sent (hw (fst s)) ++ (u8 <$> l) ∧ dlab (hw c') = false.
Definition ready (s : st) : Prop := dlab (hw (fst s)) = false.

Lemma wp_print str ps args l s (Q : unit → st → Prop) L : ready s → chars_of str = ps ≫= kpiece_chars → Forall kpiece_ok ps → krendered ps args = Some l →
  (∀ c', says s l c' → Q tt (c', snd s)) → wp (print false fuel str args) Q L s.
Proof.
  intros Hr E Hps Hl HQ. unfold print. rewrite E. apply wp_zoom. apply (wp_kprintf fuel ps args l); [done..|].
  intros c' (S & D & _). by apply HQ.
Qed.

Lemma wp_println str ps args l s (Q : unit → st → Prop) L : ready s → chars_of str = ps ≫= kpiece_chars → Forall kpiece_ok ps → krendered ps args = Some l →
  (∀ c', says s (l ++ [13; 10]) c' → Q tt (c', snd s)) → wp (println false fuel str args) Q L s.
Proof.
  intros Hr E Hps Hl HQ. unfold println. rewrite E. apply wp_zoom. unfold kprintfln. wp_step. apply (wp_kprintf fuel ps args l); [done..|].
  intros c' (S & D & _). change [10] with ([KLit 10] ≫= kpiece_chars). apply (wp_kprintf fuel [KLit 10] args [13; 10]); [done|done|by repeat constructor|done|].
  intros c2 (S2 & D2 & _). apply HQ. split; [by rewrite S2, S, fmap_app, app_assoc|done].
Qed.

(** A text without directives. *)
Lemma wp_print_text str s (Q : unit → st → Prop) L : ready s → Forall (λ c, c ≠ ch "%") (chars_of str) →
  (∀ c', says s (chars_of str ≫= literal_chars) c' → Q tt (c', snd s)) → wp (print false fuel str []) Q L s.
Proof.
  intros Hr H HQ. apply (wp_print str (KLit <$> chars_of str) [] (chars_of str ≫= literal_chars)); [done| |by rewrite Forall_fmap| |done].
  - clear. induction (chars_of str) as [|c cs IH]; [done|]. rewrite fmap_cons, bind_cons, <- IH. done.
  - rewrite <- (app_nil_r (KLit <$> _)), <- (app_nil_r (_ ≫= literal_chars)). by apply krendered_lits.
Qed.
Lemma wp_println_text str s (Q : unit → st → Prop) L : ready s → Forall (λ c, c ≠ ch "%") (chars_of str) →
  (∀ c', says s ((chars_of str ≫= literal_chars) ++ [13; 10]) c' → Q tt (c', snd s)) → wp (println false fuel str []) Q L s.
Proof.
  intros Hr H HQ. apply (wp_println str (KLit <$> chars_of str) [] (chars_of str ≫= literal_chars)); [done| |by rewrite Forall_fmap| |done].
  - clear. induction (chars_of str) as [|c cs IH]; [done|]. rewrite fmap_cons, bind_cons, <- IH. done.
  - rewrite <- (app_nil_r (KLit <$> _)), <- (app_nil_r (_ ≫= literal_chars)). by apply krendered_lits.
Qed.

(** *** The words of a frame *)

Abbreviation top := (is_stack_top kpage_dir kboot_stack_top kernel_stack_top).

(** The text of a word: its value where [is_readable] takes it to be readable.  [None]
    is a page fault, where it is not. *)
Definition word_text (c : machine) (i a : Z) : option (list Z) :=
  if probe c a && ((i =? 1) || negb (a =? 0)) then
    v ← word_of c a; Some (if i =? 1 then chars_of " [" ++ hex_text v ++ chars_of "]" else chars_of " " ++ hex_text v)
  else Some (if i =? 1 then chars_of " [???]" else chars_of " ???").

(** Those of a frame, up to the end of the stack. *)
Fixpoint words_text (c : machine) (n : nat) (i fp : Z) : option (list Z) :=
  match n with
  | O => Some []
  | S n =>
      let a := u32 (fp + i * 4) in
      if top a (cr3 c) then Some [] else t ← word_text c i a; ts ← words_text c n (i + 1) fp; Some (t ++ ts)
  end.

Fixpoint words_apart (c : machine) (kt : Z) (n : nat) (i fp : Z) : Prop :=
  match n with
  | O => True
  | S n => apart_word c kt (u32 (fp + i * 4)) ∧ words_apart c kt n (i + 1) fp
  end.

(** Machines that differ from [c] in the entry of the window only. *)
Definition like (c : machine) (kt : Z) (c' : machine) : Prop := agree (window kt) c c' ∧ kmap c' kt.

Lemma wp_probe c kt a m (Q : Z → st → Prop) L con : kmap c kt → like c kt m → apart_word c kt a →
  (∀ r m', (r =? 1) = probe c a → like c kt m' → Q r (con, m')) →
  wp (vmem (is_readable a (cr3 c))) Q L (con, m).
Proof.
  intros K [Ha Km] Hw HQ. apply wp_zoom. cbn [snd fst]. pose proof Ha as [Hc _]. rewrite <- Hc.
  pose proof (apart_first c kt a Hw) as Hb. destruct Hw as [R _]. apply (wp_is_readable m kt); [done|done| |].
  { rewrite (agree_pde c m kt) by done. apply Hb. }
  apply HQ; [|split; [eapply agree_trans; [done|apply agree_cleared]|by apply window_cleared_kmap]].
  rewrite (agree_probe c m kt) by done. by destruct (probe c a).
Qed.

Lemma wpp_load_word c kt a m (R : option fault → Prop) (Q : Z → st → Prop) L con : kmap c kt → like c kt m → apart_word c kt a →
  (∀ v, word_of c a = Some v → Q v (con, m)) → (word_of c a = None → R (Some PageFault)) → wpp R (vmem (uload32 a)) Q L (con, m).
Proof.
  intros K [Ha _] Hw HQ HR. apply wpp_zoom. cbn [snd fst]. unfold wpp. rewrite uload32_run, (agree_word c m kt) by done.
  destruct (word_of c a); [by apply HQ|by apply HR].
Qed.

Lemma wpp_assoc {S A} R (m : M S A) (k : A → M S unit) (m' : M S unit) (Q : unit → S → Prop) L s :
  wpp R (let* _ := (let* a := m in k a) in m') Q L s → wpp R (let* a := m in let* _ := k a in m') Q L s.
Proof. unfold wpp, bind. by destruct (m s). Qed.

Lemma says_ready s l c m : says s l c → ready (c, m).
Proof. by intros [_ D]. Qed.

Lemma says_app (s : st) l1 l2 c1 m c2 : says s l1 c1 → says (c1, m) l2 c2 → says s (l1 ++ l2) c2.
Proof. unfold says. cbn [fst]. intros [H1 _] [H2 D]. split; [by rewrite H2, H1, fmap_app, app_assoc|done]. Qed.

Lemma says_nil con m : ready (con, m) → says (con, m) [] con.
Proof. intros D. split; [by rewrite app_nil_r|done]. Qed.

Lemma wp_print_hex v s (Q : unit → st → Prop) L : ready s →
  (∀ c', says s (chars_of " " ++ hex_text v) c' → Q tt (c', snd s)) → wp (print false fuel " %#.08lx" [IntArg v]) Q L s.
Proof.
  intros Hr HQ. apply (wp_print _ ((KLit <$> chars_of " ") ++ [KDir hex8]) _ (chars_of " " ++ hex_text v)); [done|reflexivity| | |done].
  - apply lits_ok; [by repeat constructor|]. constructor; [apply hex8_ok|constructor].
  - apply (krendered_lits (chars_of " ") [KDir hex8]). rewrite <- (app_nil_r (hex_text v)). by apply krendered_hex.
Qed.
Lemma wp_print_return v s (Q : unit → st → Prop) L : ready s →
  (∀ c', says s (chars_of " [" ++ hex_text v ++ chars_of "]") c' → Q tt (c', snd s)) → wp (print false fuel " [%#.08lx]" [IntArg v]) Q L s.
Proof.
  intros Hr HQ. apply (wp_print _ ((KLit <$> chars_of " [") ++ KDir hex8 :: [KLit (ch "]")]) _ (chars_of " [" ++ hex_text v ++ chars_of "]"));
    [done|reflexivity| | |done].
  - apply lits_ok; [by repeat constructor|]. constructor; [apply hex8_ok|by repeat constructor].
  - apply (krendered_lits (chars_of " [") (KDir hex8 :: _)). by apply krendered_hex.
Qed.

Lemma wpp_dump_word c kt i a con m (R : option fault → Prop) (Q : unit → st → Prop) L : kmap c kt → like c kt m → apart_word c kt a → ready (con, m) →
  (∀ l con' m', word_text c i a = Some l → says (con, m) l con' → like c kt m' → Q tt (con', m')) →
  (word_text c i a = None → R (Some PageFault)) →
  wpp R (let* r := vmem (is_readable a (cr3 c)) in
      if i =? 1 then
        if r =? 1 then let* v := vmem (uload32 a) in print false fuel " [%#.08lx]" [IntArg v] else print false fuel " [???]" []
      else if (r =? 1) && negb (a =? 0) then let* v := vmem (uload32 a) in print false fuel " %#.08lx" [IntArg v]
      else print false fuel " ???" []) Q L (con, m).
Proof.
  intros K Hm Hw Hr HQ HR. apply wpp_step. apply (wp_probe c kt); [done..|]. intros r m' Er Hm'. rewrite Er. unfold word_text in *.
  destruct (probe c a), (i =? 1); cbn [andb orb] in *; [|destruct (a =? 0); cbn [negb] in *|..].
  3: apply wpp_bind, (wpp_load_word c kt); [done..| |intros E; apply HR; by rewrite E].
  1: apply wpp_bind, (wpp_load_word c kt); [done..| |intros E; apply HR; by rewrite E].
  - intros v Ev. rewrite Ev in HQ. apply wpp_wp, wp_print_return; [done|]. intros c' Hs. by eapply HQ.
  - apply wpp_wp, wp_print_text; [done|by repeat constructor|]. intros c' Hs. by eapply HQ.
  - intros v Ev. rewrite Ev in HQ. apply wpp_wp, wp_print_hex; [done|]. intros c' Hs. by eapply HQ.
  - apply wpp_wp, wp_print_text; [done|by repeat constructor|]. intros c' Hs. by eapply HQ.
  - apply wpp_wp, wp_print_text; [done|by repeat constructor|]. intros c' Hs. by eapply HQ.
Qed.

Lemma wpp_dump_words c kt fp n : ∀ i con m (R : option fault → Prop) (Q : unit → st → Prop) L,
  kmap c kt → like c kt m → words_apart c kt n i fp → ready (con, m) →
  (∀ l con' m', words_text c n i fp = Some l → says (con, m) l con' → like c kt m' → Q tt (con', m')) →
  (words_text c n i fp = None → R (Some PageFault)) →
  wpp R (dump_words false fuel kpage_dir kboot_stack_top kernel_stack_top n i fp (cr3 c)) Q L (con, m).
Proof.
  induction n as [|n IH]; intros i con m R Q L K Hm Hw Hr HQ HR; cbn [dump_words words_text words_apart] in *.
  - by apply (HQ []); [|apply says_nil|].
  - destruct Hw as [Hw Hws]. destruct (top (u32 (fp + i * 4)) (cr3 c)); [by apply (HQ []); [|apply says_nil|]|].
    apply wpp_assoc, wpp_bind, (wpp_dump_word c kt i); [done..| |].
    2: { intros E. apply HR. by rewrite E. }
    intros l1 con1 m1 E1 S1 H1. rewrite E1 in HQ, HR. cbn [mbind option_bind] in HQ, HR.
    apply IH; [done..|by eapply says_ready| |].
    + intros l2 con2 m2 E2 S2 H2. rewrite E2 in HQ. eapply HQ; [done|by eapply says_app|done].
    + intros E. apply HR. by rewrite E.
Qed.

(** *** Frames *)

Definition head_text (fp : Z) (t : bool) : list Z := chars_of "<" ++ hex_text fp ++ chars_of ">:" ++ (if t then chars_of " TOP" else []).

(** The text of the frames from [fp] on, up to a null pointer, the end of the stack
    or a frame that is not taken to be readable; or the page fault that ends it; or
    that it has not ended after [k] frames. *)
Fixpoint frames_text (c : machine) (k : nat) (fp : Z) : list Z + fault :=
  match k with
  | O => inr OutOfFuel
  | S k =>
      if fp =? 0 then inl []
      else if top fp (cr3 c) then inl (head_text fp true)
      else if probe c fp then
        match words_text c 7 1 fp, word_of c fp with
        | Some ws, Some next =>
            match frames_text c k next with
            | inl l => inl (head_text fp false ++ ws ++ [13; 10] ++ l)
            | inr f => inr f
            end
        | _, _ => inr PageFault
        end
      else inl (head_text fp false ++ chars_of " unable to read frame data." ++ [13; 10])
  end.

(** The frames and what is behind them leave out the entry of the window. *)
Fixpoint frames_apart (c : machine) (kt : Z) (k : nat) (fp : Z) : Prop :=
  match k with
  | O => True
  | S k => fp ≠ 0 → top fp (cr3 c) = false →
      apart_word c kt fp ∧ words_apart c kt 7 1 fp ∧ ∀ next, word_of c fp = Some next → frames_apart c kt k next
  end.

Lemma wp_print_head fp t s (Q : unit → st → Prop) L : ready s → (∀ c', says s (head_text fp t) c' → Q tt (c', snd s)) →
  wp (print false fuel "<%#.08lx>:%s" [IntArg fp; StrArg (chars_of (if t then " TOP" else String.EmptyString))]) Q L s.
Proof.
  intros Hr HQ. apply (wp_print _ ((KLit <$> chars_of "<") ++ KDir hex8 :: (KLit <$> chars_of ">:") ++ [KDir str_directive]) _ (head_text fp t));
    [done|reflexivity| | |done].
  - apply lits_ok; [by repeat constructor|]. constructor; [apply hex8_ok|]. apply lits_ok; [by repeat constructor|].
    constructor; [apply str_directive_ok|constructor].
  - apply (krendered_lits (chars_of "<") (KDir hex8 :: _)). apply krendered_hex. apply (krendered_lits (chars_of ">:") [KDir str_directive]).
    assert (E : (if t then chars_of " TOP" else []) = chars_of (if t then " TOP" else String.EmptyString) ++ []) by (by destruct t). rewrite E.
    apply krendered_str; [by destruct t|done].
Qed.

Lemma wpp_dump_frames c kt k : ∀ fp con m (R : option fault → Prop) (Q : unit → st → Prop) L,
  kmap c kt → like c kt m → frames_apart c kt k fp → ready (con, m) →
  (∀ l con' m', frames_text c k fp = inl l → says (con, m) l con' → like c kt m' → Q tt (con', m')) →
  (∀ f, frames_text c k fp = inr f → R (Some f)) →
  wpp R (dump_frames false fuel kpage_dir kboot_stack_top kernel_stack_top k fp (cr3 c)) Q L (con, m).
Proof.
  induction k as [|k IH]; intros fp con m R Q L K Hm Hw Hr HQ HR; cbn [dump_frames frames_text frames_apart] in *; [by apply HR|].
  destruct (Z.eqb_spec fp 0); [by apply (HQ []); [|apply says_nil|]|]. cbv zeta.
  destruct (top fp (cr3 c)) eqn:Et.
  { apply wpp_step, (wp_print_head fp true); [done|]. intros c1 S1. by eapply HQ. }
  destruct (Hw ltac:(done) ltac:(done)) as (Wf & Ws & Wn). clear Hw.
  apply wpp_step, (wp_print_head fp false); [done|]. intros c1 S1. pose proof (says_ready _ _ _ m S1) as R1.
  apply wpp_step, (wp_probe c kt); [done..|]. intros r m1 Er Hm1. rewrite Er. destruct (probe c fp); cbn [negb].
  2: { apply wpp_wp, wp_println_text; [exact R1|by repeat constructor|]. intros c2 S2. eapply HQ; [done|by eapply says_app|done]. }
  apply wpp_bind, (wpp_dump_words c kt fp 7); [done..|exact R1| |intros E; apply HR; by rewrite E].
  intros ws c2 m2 Ew S2 H2. rewrite Ew in HQ, HR. apply wpp_step, wp_println_text; [by eapply says_ready|constructor|]. intros c3 S3.
  apply wpp_bind, (wpp_load_word c kt fp); [done..| |intros E; apply HR; by rewrite E]. intros next En. rewrite En in HQ, HR.
  apply IH; [done|done|by apply Wn|by eapply says_ready| |].
  - intros l c4 m4 El S4 H4. rewrite El in HQ. eapply HQ; [done| |done].
    eapply says_app; [exact S1|]. eapply says_app; [exact S2|]. eapply (says_app _ [13; 10]); [exact S3|exact S4].
  - intros f Ef. rewrite Ef in HR. by apply HR.
Qed.

Definition trace_title : list Z := [13; 10; 13; 10] ++ chars_of "Stack Trace:" ++ [13; 10] ++ chars_of "<Stack Frame>: [Return-EIP] args*" ++ [13; 10].

(** C40. Stack traces, in the current address space and for frames at any address that
    leave out the kernel's own entry of the temporary window: where [frames_text],
    which follows the chain of frame pointers by the page walk, comes to an end within
    [k] frames, [dump_stack] ends and transmits just this text, a line per frame with
    the return address and the words behind it; where the chain does not end within
    [k] frames, [dump_stack] does not either; and it takes a page fault exactly where
    [is_readable] takes a word for readable that has no translation.  No memory is
    changed but the entry of the window. *)
Theorem dump_stack_trace c kt fp k con : kmap c kt → frames_apart c kt k fp → dlab (hw con) = false →
  match frames_text c k fp with
  | inl l => ∃ con' c', dump_stack false fuel kpage_dir kboot_stack_top kernel_stack_top k fp (cr3 c) (con, c) = Ret tt (con', c') ∧
      sent (hw con') = sent (hw con) ++ (u8 <$> trace_title ++ l) ∧ agree (window kt) c c'
  | inr f => dump_stack false fuel kpage_dir kboot_stack_top kernel_stack_top k fp (cr3 c) (con, c) = Fault f
  end.
Proof.
  intros K Ha Hd. assert (H : wpp (λ f, ∃ g, f = Some g ∧ frames_text c k fp = inr g)
    (dump_stack false fuel kpage_dir kboot_stack_top kernel_stack_top k fp (cr3 c))
    (λ _ s, ∃ l, frames_text c k fp = inl l ∧ says (con, c) (trace_title ++ l) (fst s) ∧ agree (window kt) c (snd s)) (λ _, False) (con, c)).
  { unfold dump_stack. apply wpp_step, wp_println_text; [exact Hd|by repeat constructor|]. intros c1 S1.
    apply (wpp_dump_frames c kt k); [done|split; [apply agree_refl|done]|done|by eapply says_ready| |].
    - intros l c2 m2 E S2 [A2 _]. exists l. split; [done|]. split; [by eapply says_app|done].
    - intros f E. by exists f. }
  unfold wpp in H. destruct (dump_stack _ _ _ _ _ k fp (cr3 c) (con, c)) as [[] [con' c']| | |f].
  - destruct H as (l & -> & [S _] & A). by exists con', c'.
  - done.
  - by destruct H as (g & [=] & _).
  - destruct H as (g & [= <-] & ->). done.
Qed.

(** A chain without an end, as one that leads back to itself is, is followed for
    ever. *)
Theorem endless_trace c (f : nat → Z) :
  (∀ n, f n ≠ 0 ∧ top (f n) (cr3 c) = false ∧ probe c (f n) = true ∧ is_Some (words_text c 7 1 (f n)) ∧ word_of c (f n) = Some (f (S n))) →
  ∀ k n, frames_text c k (f n) = inr OutOfFuel.
Proof.
  intros H k. induction k as [|k IH]; intros n; [done|]. destruct (H n) as (H1 & H2 & H3 & [ws H4] & H5). cbn [frames_text].
  destruct (Z.eqb_spec (f n) 0); [done|]. by rewrite H2, H3, H4, H5, IH.
Qed.
End trace.

(** ** A stack of two frames *)

Definition stack_demo : machine :=
  {| phys := store32 (store32 demo_memory 0x4010 0x5040) 0x4014 0x80001234; cr3 := 0x1000 |}.

Lemma stack_demo_kmap : kmap stack_demo 2.
Proof. split; vm_compute; done || lia. Qed.

Lemma stack_demo_apart a : 0x5000 <= a < 0x5100 → apart_word stack_demo 2 a.
Proof.
  intros Ha. split; [lia|]. intros i Hi. rewrite wrap_small by lia. set (x := a + i). assert (Hx : 0x5000 <= x < 0x5200) by lia. clearbody x.
  assert (P : pde_of stack_demo x = 0x3003).
  { unfold pde_of, pde_addr. replace (4 * (x / 2 ^ 22)) with 0 by zdiv. vm_compute. reflexivity. }
  assert (T : pte_addr 0x3003 x = 0x3014).
  { unfold pte_addr. replace ((x / 2 ^ 12) mod 1024) with 5 by zdiv. reflexivity. }
  split; [intros _; rewrite P, T; vm_compute; discriminate|].
  unfold translate. fold (pde_of stack_demo x). rewrite P. change (ent_present 0x3003) with true. change (ent_page_size 0x3003) with false.
  cbv iota zeta. rewrite T. change (load32 (phys stack_demo) 0x3014) with 0x4003. change (ent_present 0x4003) with true. cbv iota.
  change (ent_frame 0x4003) with 4. unfold window. change (slot0 2) with 0x2644. intros pa [= <-]. zdiv.
Qed.

(** The stack ends at 0x5050. *)
Definition stack_demo_text : list Z :=
  head_text 0x5010 false ++ chars_of " [0x80001234] 0x00000000 0x00000000 0x00000000 0x00000000 0x00000000 0x00000000" ++ [13; 10] ++
  head_text 0x5040 false ++ chars_of " [0x00000000] 0x00000000 0x00000000" ++ [13; 10].

Lemma stack_demo_words n i fp : (n <= 7)%nat → 1 <= i → i + Z.of_nat n <= 8 → fp = 0x5010 ∨ fp = 0x5040 → words_apart stack_demo 2 n i fp.
Proof.
  revert i. induction n as [|n IH]; intros i Hn Hi Hs Hf; [done|]. cbn [words_apart].
  split; [|apply IH; lia]. rewrite wrap_small by lia. apply stack_demo_apart. lia.
Qed.

Lemma stack_demo_frames : frames_apart 0 0 0x5050 stack_demo 2 3 0x5010.
Proof.
  cbn [frames_apart]. intros _ _. split; [apply stack_demo_apart; lia|]. split; [apply stack_demo_words; lia|].
  intros next E. assert (next = 0x5040) as -> by (vm_compute in E; congruence). clear E. intros _ _.
  split; [apply stack_demo_apart; lia|]. split; [apply stack_demo_words; lia|].
  intros next E. assert (next = 0) as -> by (vm_compute in E; congruence). intros N. destruct N. reflexivity.
Qed.

Lemma dump_stack_trace_witness : ∃ con' c',
  dump_stack false 4 0 0 0x5050 3 0x5010 0x1000 (demo_console 0, stack_demo) = Ret tt (con', c') ∧
  sent (hw con') = u8 <$> trace_title ++ stack_demo_text.
Proof.
  assert (F : (@max_delay board _ _ < 4)%nat) by (cbn; lia).
  pose proof (dump_stack_trace 4 0 0 0x5050 F stack_demo 2 0x5010 3 (demo_console 0) stack_demo_kmap stack_demo_frames eq_refl) as H.
  assert (T : frames_text 0 0 0x5050 stack_demo 3 0x5010 = inl stack_demo_text) by (vm_compute; reflexivity).
  rewrite T in H. destruct H as (con' & c' & E & S & _). exists con', c'. split; [exact E|exact S].
Defined.

(** A frame that points to itself: no number of steps is enough. *)
Definition cyclic_demo : machine := set_phys (store32 (phys stack_demo) 0x4010 0x5010) stack_demo.

Example cyclic_trace k : frames_text 0 0 0x5050 cyclic_demo k 0x5010 = inr OutOfFuel.
Proof.
  refine (endless_trace 0 0 0x5050 cyclic_demo (λ _, 0x5010) _ k 0%nat). intros _.
  split; [discriminate|]. do 2 (split; [reflexivity|]). split; [|vm_compute; reflexivity]. vm_compute. by eexists.
Qed.

(** EXCEPTION_NAMES has 31 of its 32 names: exception 31 dereferences a null
    pointer. *)
Example dump_state_31 k cr behind st s : dump_state false 4 0 0 0x5050 k cr behind st 31 0 s = Fault NullDeref.
Proof. reflexivity. Qed.
