(* ===== verification/Loader.v ===== *)
(** * Loading the initial server: kernel/init/loader.c, kernel/init/libc.c

    The state is that of the kernel and that of the allocator of frames during
    start-up.  A structure that the code reads into a local variable with [peek] is
    copied to the address [local], a parameter, and its bytes are read from there.
    Strings are the lists of their characters without the final NUL.  The modules
    of the boot loader are a list. *)

From Stdlib Require Import Ascii.
From S2P Require Import Prelude Bits Machine Paging Kernel KList Thread Message BootMemory.

(** ** Strings: kernel/init/libc.c

    A pointer into a string is the rest of the string; the end of the list is the
    NUL. *)

Definition char0 (s : list Z) : Z := default 0 (head s).

(** [num] bytes at each of the pointers; [char] has a sign. *)
Fixpoint memcmp (m1 m2 : list Z) (num : nat) : Z :=
  match num with
  | O => 0
  | S num =>
      if signed 8 (char0 m1) =? signed 8 (char0 m2) then memcmp (tail m1) (tail m2) num
      else if signed 8 (char0 m2) <? signed 8 (char0 m1) then 1 else -1
  end.

Fixpoint strncmp (str1 str2 : list Z) (num : nat) : Z :=
  match num with
  | O => 0
  | S num =>
      if (signed 8 (char0 str1) =? signed 8 (char0 str2)) && negb (char0 str1 =? 0) then strncmp (tail str1) (tail str2) num
      else if signed 8 (char0 str2) <? signed 8 (char0 str1) then 1 else -1
  end.

(** The inner loop of [strstr]: whether [substr] is read to its end. *)
Fixpoint is_prefix (str substr : list Z) : bool :=
  match substr with
  | [] => true
  | c :: substr => match str with d :: str => (d =? c) && is_prefix str substr | [] => false end
  end.

(** [None] is the null pointer. *)
Fixpoint strstr (str substr : list Z) : option (list Z) :=
  match str with
  | [] => None
  | _ :: rest => if is_prefix str substr then Some str else strstr rest substr
  end.

(** The end of the string where [c] is not in it. *)
Fixpoint strchr (s : list Z) (c : Z) : list Z :=
  match s with
  | [] => []
  | d :: rest => if signed 8 d =? c then s else strchr rest c
  end.

Definition strlen (s : list Z) : Z := Z.of_nat (length s) - Z.of_nat (length (strchr s 0)).

(** ** ELF structures: include/elf.h *)

Definition get8 (l : list Z) (i : nat) : Z := default 0 (l !! i).
Definition get16 (l : list Z) (i : nat) : Z := get8 l i + 256 * get8 l (i + 1).
Definition get32 (l : list Z) (i : nat) : Z := get16 l i + 65536 * get16 l (i + 2).

Record elf_header_t := {
  identifier : list Z; e_type : Z; e_machine : Z; e_version : Z; entry : Z; shoff : Z; shentsize : Z; shnum : Z
}.
Definition SIZEOF_ELF_HEADER : Z := 52.
Definition elf_header_of (l : list Z) : elf_header_t :=
  {| identifier := take 16 l; e_type := get16 l 16; e_machine := get16 l 18; e_version := get32 l 20; entry := get32 l 24;
     shoff := get32 l 32; shentsize := get16 l 46; shnum := get16 l 48 |}.

Record elf_sheader_t := { sh_type : Z; sh_flags : Z; sh_addr : Z; sh_offset : Z; sh_size : Z }.
Definition SIZEOF_SHEADER : Z := 40.
Definition elf_sheader_of (l : list Z) : elf_sheader_t :=
  {| sh_type := get32 l 4; sh_flags := get32 l 8; sh_addr := get32 l 12; sh_offset := get32 l 16; sh_size := get32 l 20 |}.

Definition EI_CLASS : nat := 4.
Definition EI_VERSION : nat := 6.
Definition EV_CURRENT : Z := 1.
Definition ET_EXEC : Z := 2.
Definition EM_386 : Z := 3.
Definition ELFCLASS32 : Z := 1.
Definition SHT_PROGBITS : Z := 1.
Definition SHT_NOBITS : Z := 8.
Definition SHF_WRITE : Z := 1.
Definition SHF_ALLOC : Z := 2.

Definition VALID_ELF (image : elf_header_t) : bool :=
  (get8 (identifier image) 0 =? 0x7F) && (get8 (identifier image) 1 =? 69) && (get8 (identifier image) 2 =? 76) &&
  (get8 (identifier image) 3 =? 70).

Definition is_valid_elf_exe (image : elf_header_t) : bool :=
  VALID_ELF image && (get8 (identifier image) EI_VERSION =? EV_CURRENT) && (e_type image =? ET_EXEC) &&
  (e_machine image =? EM_386) && (e_version image =? EV_CURRENT) && (get8 (identifier image) EI_CLASS =? ELFCLASS32).

(** Bit fields of entries that only the loader sets. *)
Definition pde_set_is_user (v : Z) (b : bool) : Z := set_bit v 2 b.
Definition pde_set_was_allocated (v : Z) (b : bool) : Z := set_bit v 9 b.
Definition pte_set_was_allocated (v : Z) (b : bool) : Z := set_bit v 9 b.
Definition ADDR_TO_PBASE (addr : Z) : Z := Z.shiftr addr 12.

Definition new_pde (pde page : Z) : Z :=
  pde_set_was_allocated (pde_set_is_present (pde_set_is_user (pde_set_is_read_write (pde_set_base pde (ADDR_TO_PBASE page)) true) true) true) true.

Section loader.
(** The boot loader's data and where the kernel is. *)
Variable kphys_start ksize : Z.
Variable info : multiboot_info.
(** The address of local variables. *)
Variable local : Z.

Abbreviation lst := (kstate * boot_state)%type.

Definition kern {A} (m : M kstate A) : M lst A := zoom fst (λ k s, (k, snd s)) m.
Definition mm {A} (m : M machine A) : M lst A := kern (vm m).

Definition alloc_frame : M lst Z := λ s,
  match alloc_phys_frame kphys_start ksize info (snd s) with
  | Some (b, f) => Ret f (fst s, b)
  | None => Panic
  end.

Fixpoint local_bytes (n : nat) (a : Z) : M machine (list Z) :=
  match n with
  | O => ret []
  | S n => let* b := vload8 a in let* l := local_bytes n (u32 (a + 1)) in ret (b :: l)
  end.

(** [peek] into a local variable; [None] is an error. *)
Definition peek_local (p n : Z) : M machine (option (list Z)) :=
  let* r := peek p local n in
  if is_error r then ret None else let* l := local_bytes (Z.to_nat n) local in ret (Some l).

(** ** Sections *)

(** The page table for an address: [None] is the return of a null pointer. *)
Definition page_table (va addr_space : Z) : M lst (option Z) :=
  let* o := mm (read_pde (PDE_INDEX va) addr_space) in
  match o with
  | None => ret None
  | Some pde =>
      if negb (pde_is_present pde) then
        let* page := alloc_frame in
        if page =? INVALID_PADDR then ret None
        else
          let* _ := mm (clear_phys_frames page 1) in
          let pde := new_pde pde page in
          let* r := mm (write_pde (PDE_INDEX va) pde addr_space) in
          ret (if is_error r then None else Some pde)
      else ret (if pde_is_page_sized pde then None else Some pde)
  end.

(** The body of the loop over the pages of a section: [false] is the return of a
    null pointer. *)
Definition load_page (img addr_space : Z) (sheader : elf_sheader_t) (offset : Z) : M lst bool :=
  let va := u32 (sh_addr sheader + offset) in
  let* o := page_table va addr_space in
  match o with
  | None => ret false
  | Some pde =>
      let* o := mm (read_pte (PTE_INDEX va) (PDE_BASE pde)) in
      match o with
      | None => ret false
      | Some pte =>
          if negb (pte_is_present pte) then
            let pte := pte_set_is_present (pte_set_is_read_write (pte_set_is_user pte true) (IS_FLAG_SET (sh_flags sheader) SHF_WRITE)) true in
            let write pte := (let* r := mm (write_pte (PTE_INDEX va) pte (PDE_BASE pde)) in ret (negb (is_error r))) in
            if sh_type sheader =? SHT_PROGBITS then
              write (pte_set_base pte (ADDR_TO_PBASE (u32 (img + sh_offset sheader + offset))))
            else if sh_type sheader =? SHT_NOBITS then
              let* page := alloc_frame in
              if page =? INVALID_PADDR then ret false
              else
                let* _ := mm (clear_phys_frames page 1) in
                write (pte_set_was_allocated (pte_set_base pte (ADDR_TO_PBASE page)) true)
            else ret true
          else if sh_type sheader =? SHT_NOBITS then
            mm (memset va 0 (PAGE_SIZE - offset mod PAGE_SIZE)) ;; ret true
          else ret true
      end
  end.

(** One step per page; the offset wraps around for a size above 0xFFFFF000. *)
Fixpoint load_pages (fuel : nat) (img addr_space : Z) (sheader : elf_sheader_t) (offset : Z) : M lst bool :=
  match fuel with
  | O => fail OutOfFuel
  | S fuel =>
      if offset <? sh_size sheader then
        let* ok := load_page img addr_space sheader offset in
        if (ok : bool) then load_pages fuel img addr_space sheader (u32 (offset + PAGE_SIZE)) else ret false
      else ret true
  end.

Definition section_fuel (sheader : elf_sheader_t) : nat := S (S (Z.to_nat (sh_size sheader / PAGE_SIZE))).

(** The loop over the section headers, [n] of them from the [i]-th on. *)
Fixpoint load_sections (n : nat) (img addr_space : Z) (image : elf_header_t) (i : Z) : M lst bool :=
  match n with
  | O => ret true
  | S n =>
      let* o := mm (peek_local (u32 (img + shoff image + i * shentsize image)) SIZEOF_SHEADER) in
      match o with
      | None => ret false
      | Some l =>
          let sheader := elf_sheader_of l in
          let* ok := (if IS_FLAG_SET (sh_flags sheader) SHF_ALLOC
                      then load_pages (section_fuel sheader) img addr_space sheader 0 else ret true) in
          if (ok : bool) then load_sections n img addr_space image (i + 1) else ret false
      end
  end.

Definition load_elf_exe (img addr_space user_stack : Z) : M lst (option Z) :=
  let* o := mm (peek_local img SIZEOF_ELF_HEADER) in
  match o with
  | None => ret None
  | Some l =>
      let image := elf_header_of l in
      if negb (is_valid_elf_exe image) then ret None
      else
        let* t := kern (thread_create local (entry image) addr_space user_stack) in
        match t with
        | None => ret None
        | Some thread =>
            let* ok := load_sections (Z.to_nat (shnum image)) img addr_space image 0 in
            ret (if (ok : bool) then Some thread else None)
        end
  end.
(** ** The initial server *)

(** A cleared frame; [None] is a jump to the end. *)
Definition cleared_frame : M lst (option Z) :=
  let* page := alloc_frame in
  if page =? INVALID_PADDR then ret None
  else let* n := mm (clear_phys_frames page 1) in ret (if n =? 1 then Some page else None).

Definition INIT_SERVER_STACK_TOP : Z := align_down KERNEL_VSTART PAGE_TABLE_SIZE.
Definition STACK_PAGES : nat := 128.
Definition SIZEOF_INIT_STACK_ARGS : Z := 536.
Definition FXSAVE_OFFSET : Z := 20.
Definition VGA_RAM : Z := 0xA0000.

(** The loop that maps the pages of the stack: its size, or [None]. *)
Fixpoint stack_pages (n : nat) (p pte stack_ptab init_stack_size : Z) : M lst (option Z) :=
  match n with
  | O => ret (Some init_stack_size)
  | S n =>
      let* stack_page := alloc_frame in
      if stack_page =? INVALID_PADDR then ret None
      else
        let pte := pte_set_was_allocated (pte_set_is_present (pte_set_is_user (pte_set_is_read_write (pte_set_base pte (PADDR_TO_PBASE stack_page)) true) true) true) true in
        let* r := mm (write_pte (PTE_INDEX (u32 (INIT_SERVER_STACK_TOP - (p + 1) * PAGE_SIZE))) pte stack_ptab) in
        if is_error r then ret (if p =? 0 then None else Some init_stack_size)
        else stack_pages n (p + 1) pte stack_ptab (u32 (init_stack_size + PAGE_SIZE))
  end.

(** The loop that maps the memory below the video memory; [false] is a jump to
    the end. *)
Fixpoint low_pages (n : nat) (i ptab : Z) : M lst bool :=
  match n with
  | O => ret true
  | S n =>
      let pte := pte_set_base (pte_set_is_user (pte_set_is_read_write (pte_set_is_present 0 true) false) true) i in
      let* r := mm (write_pte i pte ptab) in
      if is_error r then ret false else low_pages n (i + 1) ptab
  end.

(** The page table for the first 4M. *)
Definition low_table (init_server_pdir : Z) : M lst (option Z) :=
  let* o := mm (read_pde 0 init_server_pdir) in
  match o with
  | None => ret None
  | Some pde =>
      if negb (pde_is_present pde) then
        let* o := cleared_frame in
        match o with
        | None => ret None
        | Some new_ptab =>
            let pde := pde_set_was_allocated (pde_set_base (pde_set_is_user (pde_set_is_read_write (pde_set_is_present 0 true) true) true) (PADDR_TO_PBASE new_ptab)) true in
            let* r := mm (write_pde 0 pde init_server_pdir) in
            ret (if is_error r then None else Some new_ptab)
        end
      else ret (Some (PDE_BASE pde))
  end.

(** The address space of the server, with its stack and the memory below 640K:
    its page directory and the size of the stack. *)
Definition init_server_space : M lst (option (Z * Z)) :=
  let* o := cleared_frame in
  match o with
  | None => ret None
  | Some init_server_pdir =>
      let* o := cleared_frame in
      match o with
      | None => ret None
      | Some stack_ptab =>
          let pde := new_pde 0 stack_ptab in
          let* r := mm (write_pde (PDE_INDEX (u32 (INIT_SERVER_STACK_TOP - PAGE_TABLE_SIZE))) pde init_server_pdir) in
          if is_error r then ret None
          else
            let* o := stack_pages STACK_PAGES 0 0 stack_ptab 0 in
            match o with
            | None => ret None
            | Some init_stack_size =>
                let* o := low_table init_server_pdir in
                match o with
                | None => ret None
                | Some ptab =>
                    let* ok := low_pages (Z.to_nat (PTE_INDEX VGA_RAM)) 0 ptab in
                    ret (if (ok : bool) then Some (init_server_pdir, init_stack_size) else None)
                end
            end
      end
  end.

Definition le32 (v : Z) : list Z := [u8 v; u8 (Z.shiftr v 8); u8 (Z.shiftr v 16); u8 (Z.shiftr v 24)].

(** [struct InitStackArgs]; [info_addr] is the physical address of the boot
    loader's data. *)
Definition stack_args (info_addr first_free init_stack_size : Z) : list Z :=
  le32 (INIT_SERVER_STACK_TOP - 4) ++ le32 info_addr ++ le32 first_free ++ le32 0 ++ le32 init_stack_size ++
  replicate 512 0 ++ [0xF4; 0x0F; 0x90; 0x0B].

Fixpoint put_bytes (a : Z) (l : list Z) : M machine unit :=
  match l with
  | [] => ret tt
  | b :: l => vstore8 a b ;; put_bytes (u32 (a + 1)) l
  end.

Definition bootstrap_init_server (init_server_img info_addr : Z) : M lst Z :=
  let* o := mm (peek_local init_server_img SIZEOF_ELF_HEADER) in
  match o with
  | None => ret E_FAIL
  | Some l =>
      if negb (is_valid_elf_exe (elf_header_of l)) then ret E_FAIL
      else
        let* o := init_server_space in
        match o with
        | None => ret E_FAIL
        | Some (init_server_pdir, init_stack_size) =>
            let* t := load_elf_exe init_server_img init_server_pdir (u32 (INIT_SERVER_STACK_TOP - SIZEOF_INIT_STACK_ARGS)) in
            kern (modify (λ s, s <| init_server_thread := t |>)) ;;
            match t with
            | None => ret E_FAIL
            | Some thread =>
                let* r := kern (thread_start thread) in
                if is_error r then let* _ := kern (thread_release thread) in ret E_FAIL
                else
                  let* b := gets snd in
                  mm (put_bytes local (stack_args info_addr (first_free_page b) init_stack_size)) ;;
                  kern (upd_tcb thread (λ tc, tc <| fxsave_state := Some (INIT_SERVER_STACK_TOP - SIZEOF_INIT_STACK_ARGS + FXSAVE_OFFSET) |>)) ;;
                  modify (λ s, (fst s, {| first_free_page := first_free_page (snd s); can_alloc_frames := false |})) ;;
                  let* r := mm (poke_virt (u32 (INIT_SERVER_STACK_TOP - SIZEOF_INIT_STACK_ARGS)) SIZEOF_INIT_STACK_ARGS local init_server_pdir) in
                  ret (if is_error r then E_FAIL else E_OK)
            end
        end
  end.

(** ** The choice of the module *)

Definition INIT_SERVER_FLAG : list Z := [45; 45; 105; 110; 105; 116].

(** The loop that looks for the flag in the string of a module.  It is left only
    when the flag is found; where [strstr] does not find it the null pointer is
    used.  Every turn goes behind an occurrence of the flag. *)
Fixpoint find_flag (fuel : nat) (str_ptr : list Z) : M lst unit :=
  match fuel with
  | O => fail OutOfFuel
  | S fuel =>
      match strstr str_ptr INIT_SERVER_FLAG with
      | None => fail NullDeref
      | Some str_ptr =>
          let separator := drop (Z.to_nat (strlen INIT_SERVER_FLAG)) str_ptr in
          let c := signed 8 (char0 separator) in
          if (c =? 0) || ((9 <=? c) && (c <=? 13)) then ret tt else find_flag fuel separator
      end
  end.

(** The loop over the modules, each with its string: the image and whether the
    flag was found.  [first] is whether the module is the first one. *)
Fixpoint choose_module (ms : list (module_t * option (list Z))) (first : bool) (img : Z) (found : bool) : M lst (Z * bool) :=
  match ms with
  | [] => ret (img, found)
  | (m, string) :: ms =>
      let img := if first then mod_start m else img in
      match string with
      | None => choose_module ms false img found
      | Some str => find_flag (S (length str)) str ;; choose_module ms false (mod_start m) true
      end
  end.

Definition load_servers (strings : list (option (list Z))) (info_addr : Z) : M lst Z :=
  let* '(img, found) := choose_module (zip (mods info) strings) true 0 false in
  if negb found && (length (mods info) =? 0)%nat then ret E_FAIL
  else let* _ := bootstrap_init_server img info_addr in ret E_OK.
End loader.
