(* ===== verification/LoaderFacts.v ===== *)
(** * The address space under construction: facts for kernel/init/loader.c

    [clear_phys_frames], the page tables of an address space that is not the
    current one, and what one page costs and changes. *)

From S2P Require Import Prelude Bits Machine Paging PagingFacts Kernel KList Thread Message BootMemory Loader.

(** ** Clearing a frame *)

Definition in_frame (f a : Z) : Prop := 4096 * f <= a < 4096 * f + 4096.

Lemma wp_fill32_temp kt f n : ∀ off c (Q : unit → machine → Prop) L,
  kmap c kt → 0 <= f < 2 ^ 20 → f ≠ kt → f ≠ cr3 c / 4096 → load32 (phys c) (slot0 kt) = temp_pte (4096 * f) →
  0 <= off → off + 4 * Z.of_nat n <= 4096 →
  (∀ c', agree (λ a, 4096 * f + off <= a < 4096 * f + off + 4 * Z.of_nat n) c c' →
     (∀ a, 4096 * f + off <= a < 4096 * f + off + 4 * Z.of_nat n → load8 (phys c') a = 0) → Q tt c') →
  wp (fill32 n (KERNEL_TEMP_START + off) 0) Q L c.
Proof.
  induction n as [|n IH]; intros off c Q L K Hf Nk Nd S0 H0 H1 HQ; cbn [fill32].
  { apply wp_ret, HQ; [apply agree_refl|lia]. }
  wp_step. eapply wp_vstore32.
  { apply (translate_temp _ kt (4096 * f)); [done|lia|lia|]. by replace (4096 * f / 4096) with f by zdiv. }
  replace (4096 * (4096 * f / 4096)) with (4096 * f) by zdiv.
  set (c1 := set_phys _ c).
  assert (A1 : agree (λ a, 4096 * f + off <= a < 4096 * f + off + 4) c c1).
  { split; [done|]. intros a Ha. apply load8_store32_ne. lia. }
  replace (u32 (KERNEL_TEMP_START + off + 4)) with (KERNEL_TEMP_START + (off + 4)) by (rewrite wrap_small; unfold KERNEL_TEMP_START; lia).
  apply IH; try done; try lia.
  - apply kmap_frame; [done| |]; apply load32_store32_ne; lia.
  - cbn [phys c1]. rewrite <- S0. apply load32_store32_ne. unfold slot0. lia.
  - intros c' A Z0. apply HQ.
    + eapply agree_trans; eapply agree_mono; [|done| |done]; cbn beta; lia.
    + intros a Ha. destruct (decide (4096 * f + (off + 4) <= a)); [apply Z0; lia|].
      rewrite (proj2 A) by lia. cbn [c1 phys set_phys]. unfold store32. rewrite !load8_store8. repeat case_decide; try lia; done.
Qed.

Lemma wp_clear_phys_frames c kt f (Q : Z → machine → Prop) L :
  kmap c kt → 0 <= f < 2 ^ 20 → f ≠ kt → f ≠ cr3 c / 4096 →
  (∀ c', agree (λ a, in_frame f a ∨ slot0 kt <= a < slot0 kt + 4) c c' → kmap c' kt → (∀ a, in_frame f a → load8 (phys c') a = 0) → Q 1 c') →
  wp (clear_phys_frames (4096 * f) 1) Q L c.
Proof.
  intros K Hf Nk Nd HQ. unfold clear_phys_frames, clear_phys_frames_with_start.
  wp_step. eapply wp_map_temp1; [done|lia|]. replace (4096 * (4096 * f / 4096)) with (4096 * f) by zdiv.
  set (c1 := set_phys _ c).
  assert (K1 : kmap c1 kt) by by apply (kmap_frame_slot c kt KERNEL_TEMP_START).
  assert (A1 : agree (λ a, slot0 kt <= a < slot0 kt + 4) c c1).
  { split; [done|]. intros a Ha. apply load8_store32_ne. lia. }
  wp_step. change (u32 (1 * PAGE_SIZE)) with 4096. unfold memset. change (negb (u8 0 =? 0)) with false. cbv iota.
  wp_step. change (memset_head 4 KERNEL_TEMP_START 4096) with (ret (S := machine) (KERNEL_TEMP_START, 4096)). wp_step.
  cbv iota beta. change (negb (4096 =? 0)) with true. wp_step. wp_step.
  change (Z.to_nat (4096 / 4)) with (1024%nat). rewrite <- (Z.add_0_r KERNEL_TEMP_START) at 1.
  apply (wp_fill32_temp kt f); try done; try lia.
  { cbn [c1 phys set_phys]. rewrite load32_store32_eq. apply wrap_small, temp_pte_range. }
  intros c2 A2 Z2. change (Z.to_nat (4096 mod 4)) with O. cbn [fill8]. wp_step. wp_step.
  assert (K2 : kmap c2 kt).
  { destruct c2 as [m2 r2]. destruct A2 as [E A2]. cbn [cr3] in E. subst r2. apply (kmap_frame c1 kt m2 K1); unfold load32; cbn [phys] in A2; rewrite !A2; try done; cbn [c1 cr3 set_phys]; lia. }
  eapply wp_unmap_temp1; [done|]. wp_step. apply HQ.
  - eapply agree_trans; [eapply agree_mono; [|exact A1]; tauto|].
    eapply agree_trans; [eapply agree_mono; [|exact A2]; unfold in_frame; cbn beta; lia|].
    split; [done|]. intros a Ha. apply load8_store32_ne. lia.
  - by apply (kmap_frame_slot c2 kt KERNEL_TEMP_START).
  - intros a Ha. cbn [phys set_phys]. unfold in_frame, slot0 in *. rewrite load8_store32_ne by lia. apply Z2. lia.
Qed.

(** ** Entries of tables in other address spaces *)

Definition slot_bytes (kt a : Z) : Prop := slot0 kt <= a < slot0 kt + 4.

Lemma pmap_addr_frame c f i : pmap_addr c (4096 * f) i = 4096 * f + 4 * i.
Proof.
  unfold pmap_addr, CURRENT_ROOT_PMAP. destruct (Z.eqb_spec (4096 * f) 0xFFFFFFFF); [lia|]. by replace (4096 * f / 4096) with f by zdiv.
Qed.

Lemma wp_read_entry c kt f i (Q : option Z → machine → Prop) L :
  kmap c kt → 0 <= f < 2 ^ 20 → 0 <= i < 1024 → f ≠ kt →
  (∀ c', agree (slot_bytes kt) c c' → Q (Some (load32 (phys c) (4096 * f + 4 * i))) c') →
  wp (read_pmap_entry (4096 * f) i) Q L c.
Proof.
  intros K Hf Hi N HQ. eapply wp_read_pmap_entry; [done|done|lia| |]; rewrite pmap_addr_frame; [unfold slot0; lia|].
  apply HQ. split; [done|]. intros a Ha. apply load8_store32_ne. unfold slot_bytes in Ha. lia.
Qed.

Lemma wp_write_entry c kt f i v (Q : Z → machine → Prop) L :
  kmap c kt → 0 <= f < 2 ^ 20 → 0 <= i < 1024 → f ≠ kt → f ≠ cr3 c / 4096 → 0 <= v < 2 ^ 32 →
  (∀ c', agree (λ a, 4096 * f + 4 * i <= a < 4096 * f + 4 * i + 4 ∨ slot_bytes kt a) c c' →
     load32 (phys c') (4096 * f + 4 * i) = v → Q E_OK c') →
  wp (write_pmap_entry (4096 * f) i v) Q L c.
Proof.
  intros K Hf Hi N D Hv HQ. eapply wp_write_pmap_entry; [done|done|lia| | | |]; rewrite pmap_addr_frame; [unfold slot0; lia|lia|lia|].
  apply HQ.
  - split; [done|]. intros a Ha. cbn [phys set_phys]. unfold slot_bytes in Ha. rewrite !load8_store32_ne by lia. done.
  - cbn [phys set_phys]. rewrite load32_store32_ne by (unfold slot0; lia). rewrite load32_store32_eq. by apply wrap_small.
Qed.

(** ** The layout

    The loader edits the address space with the page directory in frame [P], which
    may have the page tables [tabs] already, while the machine runs in another one.
    [base] is the first free page when it starts, and [lpas] are the bytes of its
    local variables. *)

Section space.
Context {kphys_start ksize : Z} {info : multiboot_info} {local : Z}.
Context {c0 : machine} {P kt base : Z} {tabs lpas : list Z}.

(** Frames the allocator may still hand out. *)
Definition fresh (f : Z) : Prop := base <= 4096 * f ∧ is_reserved_page kphys_start ksize (4096 * f) info false = false.

(** What the loader may write to. *)
Definition loads (a : Z) : Prop :=
  in_frame P a ∨ (slot0 kt <= a < slot0 kt + 4) ∨ a ∈ lpas ∨ (∃ T, T ∈ tabs ∧ in_frame T a) ∨ (∃ f, fresh f ∧ in_frame f a).

Record layout : Prop := {
  ly_kmap : kmap c0 kt;
  ly_space : 0 <= P < 2 ^ 20 ∧ P ≠ kt ∧ P ≠ cr3 c0 / 4096 ∧ P ∉ tabs ∧ ¬ fresh P;
  ly_table : kt ∉ tabs ∧ ¬ fresh kt;
  ly_dir : cr3 c0 / 4096 ∉ tabs ∧ ¬ fresh (cr3 c0 / 4096);
  ly_tabs : ∀ T, T ∈ tabs → ¬ fresh T;
  ly_vmap : vmap c0 local lpas;
  ly_walk : walk_free c0 local (length lpas) loads;
  ly_nodup : NoDup lpas;
  ly_local : 0 <= local < 2 ^ 32;
  ly_lpas : ∀ a, a ∈ lpas → ¬ in_frame P a ∧ ¬ (slot0 kt <= a < slot0 kt + 4) ∧ ¬ in_frame (cr3 c0 / 4096) a ∧
    (∀ T, T ∈ tabs → ¬ in_frame T a) ∧ (∀ f, fresh f → ¬ in_frame f a)
}.

(** The frames below the next free page. *)
Definition limit (b : boot_state) : Z := if first_free_page b =? 0 then 2 ^ 32 else first_free_page b.

Definition exhausted (b : boot_state) : Prop := alloc_phys_frame kphys_start ksize info b = Some (b, INVALID_PADDR).

Definition pde_at (c : machine) (i : Z) : Z := load32 (phys c) (4096 * P + 4 * i).
Definition user_index (i : Z) : Prop := 0 <= i < 1019.
Definition table_frame (b : boot_state) (T : Z) : Prop := T ∈ tabs ∨ fresh T ∧ 4096 * T < limit b.

(** The invariant of the loop; [dat] are the frames of data handed out so far. *)
Record space (c : machine) (b : boot_state) (dat : list Z) : Prop := {
  sp_agree : agree loads c0 c;
  sp_can : can_alloc_frames b = true;
  sp_page : page_address (first_free_page b);
  sp_base : base <= limit b;
  sp_small : ∀ i, user_index i → ent_page_size (pde_at c i) = false;
  sp_table : ∀ i, user_index i → ent_present (pde_at c i) = true → table_frame b (ent_frame (pde_at c i)) ∧ ent_frame (pde_at c i) ∉ dat;
  sp_inj : ∀ i j, user_index i → user_index j → ent_present (pde_at c i) = true → ent_present (pde_at c j) = true →
    ent_frame (pde_at c i) = ent_frame (pde_at c j) → i = j;
  sp_dat : ∀ f, f ∈ dat → fresh f ∧ 4096 * f < limit b ∧ ∀ a, in_frame f a → load8 (phys c) a = 0
}.

#[local] Arguments sp_agree {c b dat}.
#[local] Arguments sp_can {c b dat}.
#[local] Arguments sp_page {c b dat}.
#[local] Arguments sp_base {c b dat}.
#[local] Arguments sp_small {c b dat}.
#[local] Arguments sp_table {c b dat}.
#[local] Arguments sp_inj {c b dat}.
#[local] Arguments sp_dat {c b dat}.

(** The translation of an address in the new address space. *)
Definition umap (c : machine) (va : Z) : option Z := translate {| phys := phys c; cr3 := 4096 * P |} va.

(** The entries of the directory below the kernel's. *)
Definition in_dir (a : Z) : Prop := 4096 * P <= a < 4096 * P + 4076.

(** Bytes that neither the tables nor the data are in. *)
Definition idle_byte (b : boot_state) (dat : list Z) (a : Z) : Prop :=
  ¬ in_dir a ∧ (∀ T, table_frame b T → ¬ in_frame T a) ∧ (∀ f, f ∈ dat → ¬ in_frame f a).

Lemma in_frame_inj f g a : in_frame f a → in_frame g a → f = g.
Proof. unfold in_frame. lia. Qed.

Lemma in_dir_frame a : in_dir a → in_frame P a.
Proof. unfold in_dir, in_frame. lia. Qed.

Lemma slot0_in_frame a : slot0 kt <= a < slot0 kt + 4 → in_frame kt a.
Proof. unfold slot0, in_frame. lia. Qed.

Hypothesis ly : layout.

Lemma kmap_of c : agree loads c0 c → kmap c kt.
Proof.
  intros A. destruct c as [m r]. destruct (A) as [E A']. cbn [cr3] in E. subst r.
  pose proof (kmap_distinct _ _ (ly_kmap ly)) as D. destruct (ly_space ly) as (_ & _ & P2 & _), (ly_dir ly) as [D1 D2].
  assert (N : ∀ a, 4096 * (cr3 c0 / 4096) + 4088 <= a < 4096 * (cr3 c0 / 4096) + 4096 → ¬ loads a).
  { intros a Ha. assert (F : in_frame (cr3 c0 / 4096) a) by (unfold in_frame; lia).
    intros [H|[H|[H|[(T & HT & H)|(f & Hf & H)]]]].
    - apply P2. by eapply in_frame_inj.
    - apply D. apply slot0_in_frame in H. by eapply in_frame_inj.
    - apply (ly_lpas ly) in H as (_ & _ & H & _). by apply H.
    - apply D1. by rewrite (in_frame_inj _ _ _ F H).
    - apply D2. by rewrite (in_frame_inj _ _ _ F H). }
  apply (kmap_frame c0 kt m (ly_kmap ly)); apply (agree_word_free loads c0 _ _ A); intros k Hk; apply N; lia.
Qed.

Lemma idle_slot b dat a : (∀ f, f ∈ dat → fresh f) → slot0 kt <= a < slot0 kt + 4 → idle_byte b dat a.
Proof.
  intros Hd Ha. apply slot0_in_frame in Ha. destruct (ly_space ly) as (_ & P1 & _), (ly_table ly) as [T1 T2].
  split_and!.
  - intros H%in_dir_frame. apply P1. by eapply in_frame_inj.
  - intros T HT H. rewrite (in_frame_inj _ _ _ H Ha) in HT. destruct HT as [?|[? _]]; done.
  - intros f Hf H. rewrite (in_frame_inj _ _ _ H Ha) in Hf. by apply T2, Hd.
Qed.

Lemma idle_local b dat a : (∀ f, f ∈ dat → fresh f) → a ∈ lpas → idle_byte b dat a.
Proof.
  intros Hd Ha. apply (ly_lpas ly) in Ha as (H1 & _ & _ & H2 & H3). split_and!; [by intros H%in_dir_frame| |].
  - intros T [HT|[HT _]]; auto.
  - intros f Hf. auto.
Qed.

Lemma idle_fresh b dat f a : (∀ g, g ∈ dat → 4096 * g < limit b) → fresh f → limit b <= 4096 * f → in_frame f a → idle_byte b dat a.
Proof.
  intros Hd Hf Hl Ha. destruct (ly_space ly) as (_ & _ & _ & _ & PF). split_and!.
  - intros H%in_dir_frame. apply PF. by rewrite (in_frame_inj _ _ _ H Ha).
  - intros T HT H. rewrite (in_frame_inj _ _ _ H Ha) in HT. destruct HT as [HT|[_ HT]]; [by eapply (ly_tabs ly)|lia].
  - intros g Hg H. rewrite (in_frame_inj _ _ _ H Ha) in Hg. apply Hd in Hg. lia.
Qed.

(** *** Framing *)

Lemma sp_fresh c b dat f : space c b dat → f ∈ dat → fresh f.
Proof. intros S Hf. by apply (sp_dat S). Qed.

Lemma sp_below c b dat f : space c b dat → f ∈ dat → 4096 * f < limit b.
Proof. intros S Hf. by apply (sp_dat S). Qed.

Lemma pde_at_frame V c c' i : agree V c c' → (∀ a, V a → ¬ in_dir a) → user_index i → pde_at c' i = pde_at c i.
Proof.
  intros A HV Hi. apply (agree_word_free V); [done|]. intros k Hk H. apply HV in H. apply H. unfold in_dir, user_index in *. lia.
Qed.

Lemma space_frame V c c' b dat :
  space c b dat → agree V c c' → (∀ a, V a → loads a) → (∀ a, V a → ¬ in_dir a ∧ ∀ f, f ∈ dat → ¬ in_frame f a) → space c' b dat.
Proof.
  intros S A HL HV. assert (E : ∀ i, user_index i → pde_at c' i = pde_at c i).
  { intros i Hi. apply (pde_at_frame V); [done| |done]. intros a Ha. exact (proj1 (HV a Ha)). }
  destruct S as [A0 S1 S2 S3 S4 S5 S6 S7]. split; try done.
  - eapply agree_trans; [done|]. by eapply agree_mono.
  - intros i Hi. rewrite E; auto.
  - intros i Hi. rewrite E; auto.
  - intros i j Hi Hj. rewrite !E; auto.
  - intros f Hf. destruct (S7 f Hf) as (F1 & F2 & F3). split_and!; [done..|]. intros a Ha.
    rewrite (proj2 A); [by apply F3|]. intros H. exact (proj2 (HV a H) f Hf Ha).
Qed.

Definition user_address (va : Z) : Prop := 0 <= va < KERNEL_VSTART.

Lemma user_address_index va : user_address va → user_index (va / 2 ^ 22).
Proof. unfold user_address, user_index, KERNEL_VSTART. zdiv. Qed.

Lemma umap_unfold c va : 0 <= P →
  umap c va =
    (let pde := pde_at c (va / 2 ^ 22) in
     if ent_present pde then
       if ent_page_size pde then Some (4096 * ent_large_frame pde + va mod 2 ^ 22)
       else
         let pte := load32 (phys c) (4096 * ent_frame pde + 4 * ((va / 4096) mod 1024)) in
         if ent_present pte then Some (4096 * ent_frame pte + va mod 4096) else None
     else None).
Proof.
  intros HP. unfold umap, translate, pde_addr, pte_addr, pde_at. cbn [phys cr3].
  replace (4096 * P / 4096) with P by zdiv. done.
Qed.

(** Writing to idle bytes does not change the mappings. *)
Lemma umap_frame V c c' b dat va :
  space c b dat → agree V c c' → (∀ a, V a → idle_byte b dat a) → user_address va → umap c' va = umap c va.
Proof.
  intros S A HV Hva. destruct (ly_space ly) as [HP _]. rewrite !umap_unfold by lia.
  pose proof (user_address_index _ Hva) as Hi.
  rewrite (pde_at_frame V c c'); [|done|intros a Ha; exact (proj1 (HV a Ha))|done]. cbv zeta.
  destruct (ent_present (pde_at c _)) eqn:E; [|done]. rewrite (sp_small S) by done.
  destruct (sp_table S _ Hi E) as [T _].
  replace (load32 (phys c') _) with (load32 (phys c) (4096 * ent_frame (pde_at c (va / 2 ^ 22)) + 4 * ((va / 4096) mod 1024))); [done|].
  symmetry. apply (agree_word_free V); [done|]. intros k Hk H. apply HV in H as (_ & H & _). apply (H _ T). unfold in_frame. zdiv.
Qed.

Lemma space_idle V c c' b dat : space c b dat → agree V c c' → (∀ a, V a → loads a ∧ idle_byte b dat a) → space c' b dat.
Proof.
  intros S A HV. apply (space_frame V c c' b dat S A); intros a Ha; apply HV in Ha as (H1 & H2 & H3 & H4); auto.
Qed.

Lemma limit_mono_table b b' T : limit b <= limit b' → table_frame b T → table_frame b' T.
Proof. intros H [?|[? ?]]; [by left|right]. split; [done|lia]. Qed.

(** *** The allocator *)

Lemma wp_alloc b k (Q : Z → kstate * boot_state → Prop) L :
  can_alloc_frames b = true → page_address (first_free_page b) → base <= limit b →
  (exhausted b → Q INVALID_PADDR (k, b)) →
  (∀ f b', 0 <= f < 2 ^ 20 → fresh f → limit b <= 4096 * f → 4096 * f < limit b' → can_alloc_frames b' = true → page_address (first_free_page b') →
     Q (4096 * f) (k, b')) →
  wp (alloc_frame kphys_start ksize info) Q L (k, b).
Proof.
  intros C0 PA0 HB HX HF. unfold wp, alloc_frame. cbn [fst snd].
  destruct (decide (first_free_page b = 0)) as [Z0|Z0].
  - assert (E : alloc_phys_frame kphys_start ksize info b = Some (b, INVALID_PADDR)).
    { unfold alloc_phys_frame, skip_fuel. rewrite C0, Z0. done. }
    rewrite E. by apply HX.
  - destruct (alloc_phys_frame_spec kphys_start ksize info b C0 PA0) as (b' & f & E & C & PA & [[-> ->]|K]).
    { rewrite E. by apply HX. }
    rewrite E. destruct K as ([F1 F2] & _ & F3 & F4 & F5). replace f with (4096 * (f / 4096)) by zdiv.
    assert (LB : limit b = first_free_page b) by (unfold limit; destruct (Z.eqb_spec (first_free_page b) 0); done).
    rewrite LB in HB.
    replace (4096 * (f / 4096)) with f by zdiv. pose proof (HF (f / 4096) b') as G. replace (4096 * (f / 4096)) with f in G by zdiv.
    apply G; try done; [zdiv| |lia|].
    + unfold fresh. replace (4096 * (f / 4096)) with f by zdiv. split; [lia|done].
    + unfold limit. destruct (Z.eqb_spec (first_free_page b') 0); lia.
Qed.

Lemma wp_alloc_frame c b dat k (Q : Z → kstate * boot_state → Prop) L :
  space c b dat →
  (exhausted b → Q INVALID_PADDR (k, b)) →
  (∀ f b', 0 <= f < 2 ^ 20 → fresh f → limit b <= 4096 * f → 4096 * f < limit b' → can_alloc_frames b' = true → page_address (first_free_page b') →
     Q (4096 * f) (k, b')) →
  wp (alloc_frame kphys_start ksize info) Q L (k, b).
Proof. intros S. apply wp_alloc; apply S. Qed.

(** *** Page tables *)

Lemma slot_loads a : slot_bytes kt a → loads a.
Proof. intros H. by right; left. Qed.

Lemma space_slot c c' b dat : space c b dat → agree (slot_bytes kt) c c' → space c' b dat.
Proof.
  intros S A. eapply space_idle; [done|exact A|]. intros a Ha. split; [by apply slot_loads|].
  apply idle_slot; [|done]. intros f Hf. by eapply sp_fresh.
Qed.

Lemma umap_slot c c' b dat va : space c b dat → agree (slot_bytes kt) c c' → user_address va → umap c' va = umap c va.
Proof.
  intros S A. apply (umap_frame (slot_bytes kt) c c' b dat); [done..|]. intros a Ha.
  apply idle_slot; [|done]. intros f Hf. by eapply sp_fresh.
Qed.

Lemma fresh_frames f : fresh f → f ≠ kt ∧ f ≠ cr3 c0 / 4096 ∧ f ≠ P.
Proof.
  intros F. destruct (ly_space ly) as (_ & _ & _ & _ & N1), (ly_table ly) as [_ N2], (ly_dir ly) as [_ N3].
  split_and!; by intros ->.
Qed.

Lemma table_frames b T : table_frame b T → T ≠ kt ∧ T ≠ cr3 c0 / 4096 ∧ T ≠ P.
Proof.
  destruct (ly_space ly) as (_ & _ & _ & N1 & _), (ly_table ly) as [N2 _], (ly_dir ly) as [N3 _].
  intros [HT|[F _]]; [|by apply fresh_frames]. split_and!; by intros ->.
Qed.

Lemma fresh_loads f a : fresh f → in_frame f a → loads a.
Proof. intros F Ha. do 4 right. by exists f. Qed.

Lemma table_loads b T a : table_frame b T → in_frame T a → loads a.
Proof. intros [HT|[F _]] Ha; [|by eapply fresh_loads]. do 3 right; left. by exists T. Qed.

Lemma sp_cr3 c b dat : space c b dat → cr3 c = cr3 c0.
Proof. intros S. apply (sp_agree S). Qed.

Lemma sp_limit c b b' dat : space c b dat → limit b <= limit b' → can_alloc_frames b' = true → page_address (first_free_page b') → space c b' dat.
Proof.
  intros [] H ? ?. split; try done; [lia| |].
  - intros i Hi HP. destruct (sp_table0 i Hi HP) as [? ?]. split; [by eapply limit_mono_table|done].
  - intros f Hf. destruct (sp_dat0 f Hf) as (? & ? & ?). split_and!; [done|lia|done].
Qed.

(** A new table that is all zero in an empty entry. *)
Section new_table.
Context (c c' : machine) (b b' : boot_state) (dat : list Z) (i f : Z).
Hypothesis S : space c b dat.
Hypothesis Hi : user_index i.
Hypothesis Np : ent_present (pde_at c i) = false.
Hypothesis Hf : fresh f.
Hypothesis Hl : limit b <= 4096 * f < limit b'.
Hypothesis A : agree (λ a, 4096 * P + 4 * i <= a < 4096 * P + 4 * i + 4 ∨ slot_bytes kt a) c c'.
Hypothesis E1 : ent_present (pde_at c' i) = true.
Hypothesis E2 : ent_page_size (pde_at c' i) = false.
Hypothesis E3 : ent_frame (pde_at c' i) = f.

Lemma new_table_others j : user_index j → j ≠ i → pde_at c' j = pde_at c j.
Proof.
  intros Hj Hne. destruct (ly_space ly) as (HP & PK & _). apply (agree_word_free _ c c' _ A).
  unfold slot_bytes, slot0, user_index in *. lia.
Qed.

Lemma new_table_unused j : user_index j → ent_present (pde_at c j) = true → ent_frame (pde_at c j) ≠ f.
Proof.
  intros Hj Hpr EF. destruct (sp_table S j Hj Hpr) as [[HT|[_ HT]] _]; rewrite EF in HT; [by eapply (ly_tabs ly)|lia].
Qed.

Lemma new_table_bytes g a : g ≠ P → g ≠ kt → in_frame g a → load8 (phys c') a = load8 (phys c) a.
Proof.
  intros N1 N2 Ha. apply A. intros [H|H].
  - apply N1. apply (in_frame_inj _ _ a); [done|]. unfold in_frame, user_index in *. lia.
  - apply N2. apply slot0_in_frame in H. by eapply in_frame_inj.
Qed.

Lemma space_new_table : can_alloc_frames b' = true → page_address (first_free_page b') → space c' b' dat.
Proof.
  intros Hc Hp. destruct (S) as [S1 S2 S3 S4 S5 S6 S7 S8]. split; try done; try lia.
  - eapply agree_trans; [exact S1|]. eapply agree_mono; [|exact A]. intros a [Ha|Ha]; [left|by apply slot_loads].
    unfold in_frame, user_index in *. lia.
  - intros j Hj. destruct (decide (j = i)) as [->|]; [done|]. rewrite new_table_others; auto.
  - intros j Hj. destruct (decide (j = i)) as [->|]; [|rewrite new_table_others by done].
    + intros _. rewrite E3. split; [right; by split; [|lia]|]. intros HD. destruct (S8 f HD) as (_ & ? & _). lia.
    + intros Hpr. destruct (S6 j Hj Hpr). split; [|done]. eapply limit_mono_table; [|done]. lia.
  - intros j1 j2 H1 H2 P1 P2 EQ. destruct (decide (j1 = i)) as [->|N1], (decide (j2 = i)) as [->|N2]; [done|..].
    + rewrite (new_table_others j2) in P2, EQ by done. rewrite E3 in EQ. by destruct (new_table_unused j2 H2 P2).
    + rewrite (new_table_others j1) in P1, EQ by done. rewrite E3 in EQ. by destruct (new_table_unused j1 H1 P1).
    + rewrite (new_table_others j1), (new_table_others j2) in * by done. auto.
  - intros g Hg. destruct (S8 g Hg) as (G1 & G2 & G3). split_and!; [done|lia|]. intros a Ha.
    destruct (fresh_frames g G1) as (K1 & _ & K3). by rewrite (new_table_bytes g); [apply G3|..].
Qed.

Lemma umap_new_table va : (∀ a, in_frame f a → load8 (phys c) a = 0) → user_address va → umap c' va = umap c va.
Proof.
  intros Z0 Hva. destruct (ly_space ly) as (HP & _). rewrite !umap_unfold by lia. cbv zeta.
  pose proof (user_address_index _ Hva) as Hv. destruct (decide (va / 2 ^ 22 = i)) as [->|Ne].
  - rewrite E1, E2, E3, Np. destruct (fresh_frames f Hf) as (K1 & _ & K3).
    assert (B : ∀ k, 0 <= k < 4 → load8 (phys c') (4096 * f + 4 * ((va / 4096) mod 1024) + k) = 0).
    { intros k Hk. assert (F : in_frame f (4096 * f + 4 * ((va / 4096) mod 1024) + k)) by (unfold in_frame; zdiv).
      rewrite (new_table_bytes f) by done. by apply Z0. }
    unfold load32. rewrite !B by lia. pose proof (B 0) as B0. rewrite Z.add_0_r in B0. rewrite B0 by lia. reflexivity.
  - rewrite new_table_others by done. destruct (ent_present (pde_at c (va / 2 ^ 22))) eqn:Hpr; [|reflexivity]. rewrite (sp_small S) by exact Hv.
    destruct (sp_table S _ Hv Hpr) as [HT _]. destruct (table_frames _ _ HT) as (K1 & _ & K3).
    set (T := ent_frame (pde_at c (va / 2 ^ 22))) in *.
    assert (E : load32 (phys c') (4096 * T + 4 * ((va / 4096) mod 1024)) = load32 (phys c) (4096 * T + 4 * ((va / 4096) mod 1024))); [|by rewrite E].
    unfold load32. rewrite !(new_table_bytes T); unfold in_frame; [done|done|done|zdiv..].
Qed.
End new_table.

(** A frame of data. *)
Lemma space_new_data c b b' dat f :
  space c b dat → fresh f → limit b <= 4096 * f < limit b' → can_alloc_frames b' = true → page_address (first_free_page b') →
  (∀ a, in_frame f a → load8 (phys c) a = 0) → space c b' (f :: dat).
Proof.
  intros S Hf Hl Hc Hp Z0. pose proof (new_table_unused c b b' dat f S Hf Hl) as NU.
  apply (sp_limit c b b' dat) in S; [|lia|done|done]. destruct S as [S1 S2 S3 S4 S5 S6 S7 S8]. split; try done.
  - intros i Hi Hpr. destruct (S6 i Hi Hpr) as [HT HD]. split; [done|]. rewrite elem_of_cons. intros [E|?]; [|done]. by apply (NU i).
  - intros g [->|Hg]%elem_of_cons; [|by apply S8]. split_and!; [done|lia|done].
Qed.

(** An entry of a table. *)
Section map_page.
Context (c c' : machine) (b : boot_state) (dat : list Z) (i j v : Z).
Hypothesis S : space c b dat.
Hypothesis Hi : user_index i.
Hypothesis Pr : ent_present (pde_at c i) = true.
Hypothesis Hj : 0 <= j < 1024.
Abbreviation T := (ent_frame (pde_at c i)).
Hypothesis A : agree (λ a, 4096 * T + 4 * j <= a < 4096 * T + 4 * j + 4 ∨ slot_bytes kt a) c c'.
Hypothesis E : load32 (phys c') (4096 * T + 4 * j) = v.

Lemma map_page_in_table a : 4096 * T + 4 * j <= a < 4096 * T + 4 * j + 4 → in_frame T a.
Proof. unfold in_frame. lia. Qed.

Lemma space_map_page : space c' b dat.
Proof.
  destruct (sp_table S i Hi Pr) as [HT HD]. destruct (table_frames _ _ HT) as (_ & _ & NP).
  apply (space_frame _ c c' b dat S A).
  - intros a [Ha|Ha]; [|by apply slot_loads]. eapply table_loads; [done|]. by apply map_page_in_table.
  - intros a [Ha|Ha].
    + apply map_page_in_table in Ha. split; [intros H%in_dir_frame; apply NP; by eapply in_frame_inj|].
      intros f Hf H. apply HD. by rewrite (in_frame_inj _ _ _ Ha H).
    + destruct (idle_slot b dat a) as (H1 & _ & H2); [|done|done]. intros f Hf. by eapply sp_fresh.
Qed.

Lemma map_page_pde k : user_index k → pde_at c' k = pde_at c k.
Proof.
  destruct (sp_table S i Hi Pr) as [HT HD]. destruct (table_frames _ _ HT) as (_ & _ & NP), (ly_space ly) as (_ & PK & _).
  intros Hk. apply (pde_at_frame _ _ _ _ A); [|done]. intros a [Ha|Ha] H%in_dir_frame.
  - apply NP. apply map_page_in_table in Ha. by eapply in_frame_inj.
  - apply PK. apply slot0_in_frame in Ha. by eapply in_frame_inj.
Qed.

Lemma umap_map_page va : user_address va →
  umap c' va = if decide (va / 2 ^ 22 = i ∧ (va / 4096) mod 1024 = j)
               then if ent_present v then Some (4096 * ent_frame v + va mod 4096) else None
               else umap c va.
Proof.
  intros Hva. destruct (ly_space ly) as (HP & _). rewrite !umap_unfold by lia. cbv zeta.
  pose proof (user_address_index _ Hva) as Hv. rewrite map_page_pde by done. case_decide as D.
  - destruct D as [-> ->]. rewrite Pr, (sp_small S), E by done. done.
  - destruct (ent_present (pde_at c (va / 2 ^ 22))) eqn:Pv; [|reflexivity]. rewrite (sp_small S) by exact Hv.
    destruct (sp_table S _ Hv Pv) as [HT _]. destruct (table_frames _ _ HT) as (NK & _).
    set (U := ent_frame (pde_at c (va / 2 ^ 22))) in *.
    assert (EQ : load32 (phys c') (4096 * U + 4 * ((va / 4096) mod 1024)) = load32 (phys c) (4096 * U + 4 * ((va / 4096) mod 1024))); [|by rewrite EQ].
    apply (agree_word_free _ _ _ _ A). intros k Hk [H|H].
    + assert (EU : U = T) by (apply (in_frame_inj _ _ (4096 * U + 4 * ((va / 4096) mod 1024) + k)); [unfold in_frame; zdiv|by apply map_page_in_table]).
      assert (va / 2 ^ 22 = i) by by apply (sp_inj S). rewrite EU in H. apply D. split; [done|]. zdiv.
    + apply NK. apply slot0_in_frame in H. eapply in_frame_inj; [|done]. unfold in_frame. zdiv.
Qed.
End map_page.
End space.

#[global] Arguments fresh : clear implicits.
#[global] Arguments loads : clear implicits.
#[global] Arguments layout : clear implicits.
#[global] Arguments exhausted : clear implicits.
#[global] Arguments pde_at : clear implicits.
#[global] Arguments table_frame : clear implicits.
#[global] Arguments space : clear implicits.
#[global] Arguments umap : clear implicits.
#[global] Arguments idle_byte : clear implicits.
#[global] Arguments in_dir : clear implicits.
#[global] Arguments sp_agree {_ _ _ _ _ _ _ _ _ _ _ _}.
#[global] Arguments sp_can {_ _ _ _ _ _ _ _ _ _ _ _}.
#[global] Arguments sp_page {_ _ _ _ _ _ _ _ _ _ _ _}.
#[global] Arguments sp_base {_ _ _ _ _ _ _ _ _ _ _ _}.
#[global] Arguments sp_small {_ _ _ _ _ _ _ _ _ _ _ _}.
#[global] Arguments sp_table {_ _ _ _ _ _ _ _ _ _ _ _}.
#[global] Arguments sp_inj {_ _ _ _ _ _ _ _ _ _ _ _}.
#[global] Arguments sp_dat {_ _ _ _ _ _ _ _ _ _ _ _}.
