(* ===== verification/LoaderSpec.v ===== *)
(** * Correctness of the loader of the initial server

    Loading gives the new address space the bytes the ELF file asks for and leaves
    the rest of it as it was. *)

From S2P Require Import Prelude Bits Machine Paging PagingFacts Kernel KList Thread Message BootMemory Loader LoaderFacts.

Abbreviation lst := (kstate * boot_state)%type.

Lemma wp_mm {A} (m : M machine A) (Q : A → lst → Prop) (L : lst → Prop) k b :
  wp m (λ a c, Q a (k <| mach := c |>, b)) (λ c, L (k <| mach := c |>, b)) (mach k) → wp (mm m) Q L (k, b).
Proof. intros H. unfold mm, kern, vm. apply wp_zoom. cbn [fst snd]. by apply wp_zoom. Qed.

(** The same after other changes of memory. *)
Lemma wp_mm_again {A} (m : M machine A) (Q : A → lst → Prop) (L : lst → Prop) k b c :
  wp m (λ a c', Q a (k <| mach := c' |>, b)) (λ c', L (k <| mach := c' |>, b)) c → wp (mm m) Q L (k <| mach := c |>, b).
Proof. intros H. by apply wp_mm. Qed.

(** ** Entries the loader writes *)

Lemma new_pde_fields v f : 0 <= v < 2 ^ 32 → 0 <= f < 2 ^ 20 →
  0 <= new_pde v (4096 * f) < 2 ^ 32 ∧ ent_present (new_pde v (4096 * f)) = true ∧
  ent_page_size (new_pde v (4096 * f)) = ent_page_size v ∧ ent_frame (new_pde v (4096 * f)) = f.
Proof.
  intros Hv Hf. unfold new_pde, ent_present, ent_page_size, ent_frame, pde_set_was_allocated, pde_set_is_user, pde_set_is_present,
    pde_set_is_read_write, pde_set_base, ADDR_TO_PBASE.
  rewrite Z.shiftr_div_pow2 by lia. replace (4096 * f / 2 ^ 12) with f by zdiv. split; [repeat (apply set_bit_range; [lia|]); apply set_bits_range; lia|]. split_and!.
  - rewrite bit_set_ne, bit_set_eq by lia. done.
  - by rewrite !bit_set_ne, bit_set_bits_ne by lia.
  - unfold set_bit. rewrite !bits_set_ne, bits_set_eq by lia. apply wrap_small. lia.
Qed.

(** The entry of a page: that of a section in the file, or of a frame. *)
Abbreviation page_pte v writable pa :=
  (pte_set_base (pte_set_is_present (pte_set_is_read_write (pte_set_is_user v true) writable) true) (ADDR_TO_PBASE pa)).

Lemma page_pte_fields v w pa : 0 <= v < 2 ^ 32 → 0 <= pa < 2 ^ 32 →
  0 <= page_pte v w pa < 2 ^ 32 ∧ ent_present (page_pte v w pa) = true ∧ ent_frame (page_pte v w pa) = pa / 4096.
Proof.
  intros Hv Hp. unfold ent_present, ent_frame, pte_set_base, pte_set_is_present, pte_set_is_read_write, pte_set_is_user, ADDR_TO_PBASE.
  rewrite Z.shiftr_div_pow2 by lia. split; [apply set_bits_range; try lia; repeat (apply set_bit_range; [lia|]); lia|]. split_and!.
  - rewrite bit_set_bits_ne, bit_set_eq by lia. done.
  - rewrite bits_set_eq by lia. zdiv.
Qed.

Lemma was_allocated_fields v : 0 <= v < 2 ^ 32 →
  0 <= pte_set_was_allocated v true < 2 ^ 32 ∧ ent_present (pte_set_was_allocated v true) = ent_present v ∧
  ent_frame (pte_set_was_allocated v true) = ent_frame v.
Proof.
  intros Hv. unfold pte_set_was_allocated, ent_present, ent_frame. split; [apply set_bit_range; lia|]. split_and!.
  - by rewrite bit_set_ne by lia.
  - unfold set_bit. by rewrite bits_set_ne by lia.
Qed.

Lemma PDE_BASE_alt v : PDE_BASE v = 4096 * ent_frame v.
Proof. unfold PDE_BASE. apply PBASE_TO_PADDR_alt, bits_range; lia. Qed.

Lemma ent_frame_range v : 0 <= ent_frame v < 2 ^ 20.
Proof. apply bits_range; lia. Qed.

(** ** Local variables

    The block [pas] at the address [local] while other memory, [W], is written. *)

Record local_block (c : machine) (kt local : Z) (pas : list Z) (W : Z → Prop) : Prop := {
  lb_vmap : vmap c local pas;
  lb_walk : walk_free c local (length pas) W;
  lb_nodup : NoDup pas;
  lb_local : 0 <= local < 2 ^ 32;
  lb_written : ∀ a, written kt pas a → W a;
  lb_slot : ∀ a, a ∈ pas → ¬ slot_bytes kt a;
  lb_dir : ∀ a, a ∈ pas → ¬ in_frame (cr3 c / 4096) a
}.

Lemma local_block_agree c c' kt local pas W : local_block c kt local pas W → agree W c c' → local_block c' kt local pas W.
Proof.
  intros [] A. split; try done; [by eapply agree_vmap|by eapply agree_walk_free|]. by rewrite (proj1 A).
Qed.

Lemma local_block_take c kt local pas W n : local_block c kt local pas W → local_block c kt local (take n pas) W.
Proof.
  intros []. assert (Sub : ∀ a, a ∈ take n pas → a ∈ pas) by (intros a (i & Hi & _)%elem_of_take; by eapply list_elem_of_lookup_2).
  split; auto.
  - intros i pa Hi. apply lb_vmap0.
    destruct (decide (i < n)%nat); [by rewrite lookup_take_lt in Hi|by rewrite lookup_take_ge in Hi by lia].
  - intros i w k Hi. apply lb_walk0. rewrite length_take in Hi. lia.
  - eapply sublist_NoDup; [done|apply sublist_take].
  - intros a [Ha|Ha]; apply lb_written0; [left; auto|by right].
Qed.

Lemma load_peeked m kt' pas bs :
  NoDup pas → length bs = length pas → Forall (λ b, 0 <= b < 256) bs → Forall (λ a, ¬ (slot0 kt' <= a < slot0 kt' + 4)) pas →
  load8 (peeked m kt' pas bs) <$> pas = bs.
Proof.
  intros ND EL Hb HF. rewrite <- (load8_store_at_eq pas m bs) at 2 by done. apply list_fmap_ext. intros i a Ha.
  rewrite Forall_forall in HF. specialize (HF a ltac:(by eapply list_elem_of_lookup_2)). apply load8_store32_ne. lia.
Qed.

Lemma local_bytes_run pas : ∀ a c, vmap c a pas → 0 <= a < 2 ^ 32 → local_bytes (length pas) a c = Ret (load8 (phys c) <$> pas) c.
Proof.
  induction pas as [|p pas IH]; intros a c V Ha; [done|]. cbn [length local_bytes fmap list_fmap].
  unfold bind at 1. unfold vload8 at 1. rewrite (vmap_head _ _ _ _ V Ha). unfold bind.
  rewrite IH; [done|by eapply vmap_tail|apply wrap_range; lia].
Qed.

Lemma wp_peek_block c kt local pas W p (Q : option (list Z) → machine → Prop) L :
  kmap c kt → local_block c kt local pas W → (0 < length pas)%nat → 0 <= p → p + Z.of_nat (length pas) <= 2 ^ 32 →
  (∀ a, p <= a < p + Z.of_nat (length pas) → ¬ W a) →
  (∀ c', agree (written kt pas) c c' → Q (Some (load_bytes (phys c) p (length pas))) c') →
  wp (peek_local local p (Z.of_nat (length pas))) Q L c.
Proof.
  intros K [V F ND Lo Wr Sl Di] Hn Hp0 Hp1 Hp HQ.
  assert (SK : sink c kt p local pas).
  { split; [done|by eapply walk_free_mono|by apply Forall_forall| |intros a Ha Hw; by apply (Hp a Ha), Wr].
    apply Forall_forall. intros a Ha. apply Di in Ha. unfold in_frame in Ha. lia. }
  unfold peek_local. wp_step. eapply wp_peek; [done..|exact SK|]. change (is_error E_OK) with false. cbv iota. rewrite Nat2Z.id.
  set (c1 := set_phys _ c). assert (A1 : agree (written kt pas) c c1) by by apply agree_peeked.
  assert (V1 : vmap c1 local pas) by (eapply agree_vmap; [exact A1|apply SK|apply SK]).
  wp_step. eapply wp_of_ret; [by apply local_bytes_run|]. wp_step. cbn [c1 phys set_phys].
  rewrite load_peeked; [by apply HQ|done|apply length_load_bytes| |apply SK].
  apply Forall_fmap, Forall_true. intros i. apply load8_range.
Qed.

(** The end of a failed allocation. *)
Ltac no_frame HX :=
  intros X; change (INVALID_PADDR =? INVALID_PADDR) with true; cbv iota; wp_step; by apply HX.

Lemma valid_frame f : 0 <= f → (4096 * f =? INVALID_PADDR) = false.
Proof. intros H. apply Z.eqb_neq. unfold INVALID_PADDR. lia. Qed.

Section spec.
Context (kphys_start ksize : Z) (info : multiboot_info) (local : Z).
Context (c0 : machine) (P kt base : Z) (tabs lpas : list Z).
Hypothesis ly : layout kphys_start ksize info local c0 P kt base tabs lpas.

Abbreviation space := (space kphys_start ksize info c0 P kt base tabs lpas).
Abbreviation fresh := (fresh kphys_start ksize info base).
Abbreviation exhausted := (exhausted kphys_start ksize info).
Abbreviation pde_at := (pde_at P).
Abbreviation umap := (umap P).

(** The mappings of two states are the same. *)
Definition same_map (c c' : machine) : Prop := ∀ v, user_address v → umap c' v = umap c v.

(** Clearing a frame that was just handed out. *)
Lemma wp_clear_fresh k bb c b dat f (Q : Z → lst → Prop) L :
  space c b dat → 0 <= f < 2 ^ 20 → fresh f → limit b <= 4096 * f →
  (∀ c', space c' b dat → same_map c c' → (∀ i, user_index i → pde_at c' i = pde_at c i) →
     (∀ a, in_frame f a → load8 (phys c') a = 0) → Q 1 (k <| mach := c' |>, bb)) →
  wp (mm (clear_phys_frames (4096 * f) 1)) Q L (k <| mach := c |>, bb).
Proof.
  intros S Hf Ff Hl HQ. destruct (fresh_frames ly f Ff) as (FK & FD & FP). apply wp_mm_again.
  eapply wp_clear_phys_frames; [by eapply kmap_of, sp_agree|done|done|by rewrite (sp_cr3 _ _ _ S)|]. intros c' A _ Z0.
  assert (I : ∀ a, in_frame f a ∨ slot0 kt <= a < slot0 kt + 4 →
    loads kphys_start ksize info P kt base tabs lpas a ∧ idle_byte kphys_start ksize info P base tabs b dat a).
  { intros a [Ha|Ha]; split.
    - by eapply fresh_loads.
    - eapply idle_fresh; [done| |done|done|done]. intros g Hg. by eapply sp_below.
    - by apply slot_loads.
    - eapply idle_slot; [done| |done]. intros g Hg. by eapply sp_fresh. }
  apply HQ; [by apply (space_idle _ _ _ _ _ S A I)| | |done].
  - intros v Hv. eapply umap_frame; [done|exact S|exact A|apply I|done].
  - intros i Hi. apply (pde_at_frame _ _ _ i A); [|done]. intros a Ha. exact (proj1 (proj2 (I a Ha))).
Qed.

(** A new table in an empty entry of the directory. *)
Lemma wp_install_table k c b b' dat i f v (Q : Z → lst → Prop) L :
  space c b dat → user_index i → ent_present (pde_at c i) = false →
  fresh f → limit b <= 4096 * f < limit b' → can_alloc_frames b' = true → page_address (first_free_page b') →
  (∀ a, in_frame f a → load8 (phys c) a = 0) →
  0 <= v < 2 ^ 32 → ent_present v = true → ent_page_size v = false → ent_frame v = f →
  (∀ c', space c' b' dat → same_map c c' → pde_at c' i = v → (∀ j, user_index j → j ≠ i → pde_at c' j = pde_at c j) → Q E_OK (k <| mach := c' |>, b')) →
  wp (mm (write_pde i v (4096 * P))) Q L (k <| mach := c |>, b').
Proof.
  intros S Hi Np Ff Hl Hc Hp Z0 Hv V1 V2 V3 HQ. destruct (ly_space ly) as (HP & PK & PD & _). apply wp_mm_again.
  eapply wp_write_entry; [by eapply kmap_of, sp_agree|done|unfold user_index in Hi; lia|done|by rewrite (sp_cr3 _ _ _ S)|done|].
  intros c' A E. change (load32 (phys c') (4096 * P + 4 * i)) with (pde_at c' i) in E. apply HQ.
  - eapply (space_new_table ly c c' b b' dat i f); try done; by rewrite E.
  - intros u Hu. apply (umap_new_table ly c c' b dat i f); try done; by rewrite E.
  - done.
  - intros j Hj Ne. by apply (new_table_others ly c c' i).
Qed.

(** A new frame that is all zero. *)
Lemma wp_cleared_frame k c b dat (Q : option Z → lst → Prop) L :
  space c b dat → (∀ c' b', exhausted b' → Q None (k <| mach := c' |>, b')) →
  (∀ f c' b', fresh f → 0 <= f < 2 ^ 20 → limit b <= 4096 * f < limit b' → can_alloc_frames b' = true → page_address (first_free_page b') →
     space c' b dat → same_map c c' → (∀ i, user_index i → pde_at c' i = pde_at c i) → (∀ a, in_frame f a → load8 (phys c') a = 0) →
     Q (Some (4096 * f)) (k <| mach := c' |>, b')) →
  wp (cleared_frame kphys_start ksize info) Q L (k <| mach := c |>, b).
Proof.
  intros S HX HQ. unfold cleared_frame. wp_step. eapply wp_alloc_frame; [exact S|no_frame HX|].
  intros f b' Hf Ff Hl1 Hl2 Hc Hp. rewrite valid_frame by lia.
  wp_step. eapply wp_clear_fresh; [exact S|done..|]. intros c' S' M E Z0. wp_step. by apply HQ.
Qed.

Lemma wp_page_table k b dat va (Q : option Z → lst → Prop) L :
  space (mach k) b dat → user_address va →
  (∀ c' b', exhausted b' → Q None (k <| mach := c' |>, b')) →
  (∀ c' b', space c' b' dat → limit b <= limit b' → same_map (mach k) c' →
     ent_present (pde_at c' (va / 2 ^ 22)) = true → Q (Some (pde_at c' (va / 2 ^ 22))) (k <| mach := c' |>, b')) →
  wp (page_table kphys_start ksize info va (4096 * P)) Q L (k, b).
Proof.
  intros S Hva HX HQ. destruct (ly_space ly) as (HP & PK & PD & _).
  pose proof (user_address_index _ Hva) as Hi. set (i := va / 2 ^ 22) in *.
  assert (EI : PDE_INDEX va = i) by (apply PDE_INDEX_alt; unfold user_address, KERNEL_VSTART in Hva; lia).
  unfold page_table. rewrite EI. wp_step. apply wp_mm. eapply wp_read_entry; [by eapply kmap_of, sp_agree|done|unfold user_index in Hi; lia|done|].
  intros c1 A1. change (load32 (phys (mach k)) (4096 * P + 4 * i)) with (pde_at (mach k) i).
  pose proof (space_slot ly _ _ _ _ S A1) as S1.
  assert (M1 : same_map (mach k) c1) by (intros v Hv; by eapply umap_slot).
  rewrite <- (pde_at_frame _ _ _ i A1); [|intros a Ha H%in_dir_frame; apply PK; apply slot0_in_frame in Ha; by eapply in_frame_inj|done].
  change (pde_is_present ?x) with (ent_present x). destruct (ent_present (pde_at c1 i)) eqn:Pr; cbn [negb].
  { change (pde_is_page_sized ?x) with (ent_page_size x). rewrite (sp_small S1) by done. wp_step.
    apply HQ; [done|lia|done|done]. }
  wp_step. eapply wp_alloc_frame; [exact S1|no_frame HX|].
  intros f b' Hf Ff Hl1 Hl2 Hc Hp. rewrite valid_frame by lia.
  wp_step. eapply wp_clear_fresh; [exact S1|done..|]. intros c2 S2 M2 E2 Z2. specialize (E2 i Hi).
  destruct (new_pde_fields (pde_at c1 i) f) as (N1 & N2 & N3 & N4); [apply load32_range|done|]. rewrite (sp_small S1) in N3 by done.
  wp_step. eapply wp_install_table; [exact S2|done|by rewrite E2|exact Ff|lia|done..|].
  intros c3 S3 M3 E3 _. wp_step. change (is_error E_OK) with false. cbv iota. rewrite <- E3. rewrite <- E3 in N2.
  apply HQ; [done|lia| |done]. intros v Hv. rewrite M3, M2 by done. by apply M1.
Qed.

(** What a page is mapped to: a page of the file, or a frame of zeros. *)
Definition page_ok (img : Z) (sh : elf_sheader_t) (offset : Z) (c' : machine) (dat dat' : list Z) : Prop :=
  ∃ T, (∀ o, 0 <= o < 4096 → umap c' (sh_addr sh + offset + o) = Some (T + o)) ∧
    (sh_type sh = SHT_PROGBITS ∧ dat' = dat ∧ T = 4096 * (u32 (img + sh_offset sh + offset) / 4096) ∨
     sh_type sh = SHT_NOBITS ∧ ∃ f, T = 4096 * f ∧ dat' = f :: dat).

Lemma wp_map_entry k b dat c i j v (Q : Z → lst → Prop) L :
  space c b dat → user_index i → ent_present (pde_at c i) = true → 0 <= j < 1024 → 0 <= v < 2 ^ 32 → ent_present v = true →
  (∀ c', space c' b dat → (∀ i', user_index i' → pde_at c' i' = pde_at c i') →
     (∀ va, user_address va → umap c' va = if decide (va / 2 ^ 22 = i ∧ (va / 4096) mod 1024 = j) then Some (4096 * ent_frame v + va mod 4096) else umap c va) →
     Q E_OK (k <| mach := c' |>, b)) →
  wp (mm (write_pte j v (4096 * ent_frame (pde_at c i)))) Q L (k <| mach := c |>, b).
Proof.
  intros S Hi Pr Hj Hv Pv HQ. destruct (sp_table S i Hi Pr) as [HT _]. destruct (table_frames ly _ _ HT) as (N1 & N2 & _).
  apply wp_mm_again.
  eapply wp_write_entry; [by eapply kmap_of, sp_agree|apply ent_frame_range|done|done|by rewrite (sp_cr3 _ _ _ S)|done|].
  intros c' A E. apply HQ; [by eapply (space_map_page ly c c' b dat i j)| |].
  - intros i' Hi'. by apply (map_page_pde ly c c' b dat i j).
  - intros va Hva. rewrite (umap_map_page ly c c' b dat i j v) by done. by rewrite Pv.
Qed.

Lemma same_page va v : 0 <= va → 0 <= v → (v / 2 ^ 22 = va / 2 ^ 22 ∧ (v / 4096) mod 1024 = (va / 4096) mod 1024) ↔ v / 4096 = va / 4096.
Proof. intros. split; intros; zdiv. Qed.

Lemma wp_write_page k b dat c va v (Q : Z → lst → Prop) L :
  space c b dat → user_address va → va mod 4096 = 0 → ent_present (pde_at c (va / 2 ^ 22)) = true → 0 <= v < 2 ^ 32 → ent_present v = true →
  (∀ c', space c' b dat → (∀ i, user_index i → pde_at c' i = pde_at c i) → (∀ o, 0 <= o < 4096 → umap c' (va + o) = Some (4096 * ent_frame v + o)) →
     (∀ u, user_address u → u / 4096 ≠ va / 4096 → umap c' u = umap c u) → Q E_OK (k <| mach := c' |>, b)) →
  wp (mm (write_pte ((va / 4096) mod 1024) v (4096 * ent_frame (pde_at c (va / 2 ^ 22))))) Q L (k <| mach := c |>, b).
Proof.
  intros S Hva Al Pr Hv Pv HQ. pose proof (user_address_index _ Hva) as Hi.
  eapply wp_map_entry; [exact S|done|done|zdiv|done|done|]. intros c' S' E M. unfold user_address, KERNEL_VSTART in *. apply HQ; [done|done| |].
  - intros o Ho. rewrite M by zdiv. rewrite decide_True by (apply same_page; zdiv). do 2 f_equal. zdiv.
  - intros u Hu Ne. rewrite M by done. rewrite decide_False; [done|]. rewrite same_page by lia. done.
Qed.

Lemma unmapped_entry c b dat va :
  space c b dat → user_address va → ent_present (pde_at c (va / 2 ^ 22)) = true → umap c va = None →
  ent_present (load32 (phys c) (4096 * ent_frame (pde_at c (va / 2 ^ 22)) + 4 * ((va / 4096) mod 1024))) = false.
Proof.
  intros S Hva Pr. destruct (ly_space ly) as (HP & _). rewrite umap_unfold by lia. cbv zeta.
  rewrite Pr, (sp_small S) by by apply user_address_index. by destruct (ent_present (load32 _ _)).
Qed.

Lemma wp_load_page k b dat img sh offset (Q : bool → lst → Prop) L :
  let va := sh_addr sh + offset in
  space (mach k) b dat → user_address va → va mod 4096 = 0 → umap (mach k) va = None → sh_type sh = SHT_PROGBITS ∨ sh_type sh = SHT_NOBITS →
  (∀ c' b', exhausted b' → Q false (k <| mach := c' |>, b')) →
  (∀ c' b' dat', space c' b' dat' → page_ok img sh offset c' dat dat' →
     (∀ v, user_address v → v / 4096 ≠ va / 4096 → umap c' v = umap (mach k) v) → Q true (k <| mach := c' |>, b')) →
  wp (load_page kphys_start ksize info img (4096 * P) sh offset) Q L (k, b).
Proof.
  intros va S Hva Al Un Ty HX HQ. unfold load_page.
  assert (R : 0 <= va < 2 ^ 32) by (unfold user_address, KERNEL_VSTART in Hva; lia).
  rewrite (wrap_small 32 (sh_addr sh + offset)) by exact R. fold va.
  wp_step. eapply wp_page_table; [exact S|exact Hva|intros c' b' X; wp_step; by apply HX|].
  intros c1 b1 S1 L1 M1 Pr. set (i := va / 2 ^ 22) in *. pose proof (user_address_index _ Hva) as Hi. fold i in Hi.
  assert (Hj : 0 <= (va / 4096) mod 1024 < 1024) by zdiv.
  rewrite PTE_INDEX_alt by lia. change (2 ^ 12) with 4096. set (j := (va / 4096) mod 1024) in *.
  destruct (sp_table S1 i Hi Pr) as [HT _]. destruct (table_frames ly _ _ HT) as (N1 & _ & _).
  wp_step. rewrite PDE_BASE_alt at 1. apply wp_mm_again. eapply wp_read_entry; [by eapply kmap_of, sp_agree|apply ent_frame_range|done|done|].
  intros c2 A2. pose proof (unmapped_entry c1 b1 dat va S1 Hva Pr) as NP. rewrite (M1 va Hva) in NP. specialize (NP Un).
  fold i j in NP. set (v := load32 _ _) in *. change (pte_is_present v) with (ent_present v). rewrite NP. cbn [negb].
  assert (Rv : 0 <= v < 2 ^ 32) by apply load32_range.
  assert (K : P ≠ kt) by apply (ly_space ly).
  assert (E2 : pde_at c2 i = pde_at c1 i).
  { apply (pde_at_frame _ _ _ i A2); [|done]. intros a Ha H%in_dir_frame. apply K. apply slot0_in_frame in Ha. by eapply in_frame_inj. }
  rewrite <- E2 in Pr |- *. pose proof (space_slot ly _ _ _ _ S1 A2) as S2.
  assert (M2 : same_map (mach k) c2) by (intros u Hu; rewrite <- M1 by done; by eapply umap_slot).
  cbv zeta.
  destruct Ty as [Ty|Ty]; rewrite Ty.
  - change (SHT_PROGBITS =? SHT_PROGBITS) with true. cbv iota.
    destruct (page_pte_fields v (IS_FLAG_SET (sh_flags sh) SHF_WRITE) (u32 (img + sh_offset sh + offset))) as (F1 & F2 & F3); [done|by apply wrap_range|].
    wp_step. rewrite PDE_BASE_alt. eapply wp_write_page; [exact S2|done..|]. intros c3 S3 _ U3 O3. wp_step. apply (HQ c3 b1 dat S3).
    + exists (4096 * (u32 (img + sh_offset sh + offset) / 4096)). split; [by rewrite <- F3|by left].
    + intros u Hu Ne. by rewrite O3, M2.
  - change (SHT_NOBITS =? SHT_PROGBITS) with false. change (SHT_NOBITS =? SHT_NOBITS) with true. cbv iota.
    wp_step. eapply wp_alloc_frame; [exact S2|no_frame HX|].
    intros f b' Hf Ff Hl1 Hl2 Hc Hp. rewrite valid_frame by lia.
    wp_step. eapply wp_clear_fresh; [exact S2|done..|]. intros c3 S3 M3 E3 Z3. specialize (E3 i Hi). rewrite <- E3 in Pr |- *.
    destruct (page_pte_fields v (IS_FLAG_SET (sh_flags sh) SHF_WRITE) (4096 * f)) as (F1 & F2 & F3); [done|lia|].
    destruct (was_allocated_fields _ F1) as (G1 & G2 & G3). rewrite F2 in G2. rewrite F3 in G3.
    pose proof (space_new_data ly _ _ _ _ _ S3 Ff (conj Hl1 Hl2) Hc Hp Z3) as S4.
    wp_step. rewrite PDE_BASE_alt. eapply wp_write_page; [exact S4|done..|]. intros c5 S5 _ U5 O5. wp_step. apply (HQ c5 b' (f :: dat) S5).
    + exists (4096 * f). split; [|right; by eauto]. replace (4096 * f / 4096) with f in G3 by zdiv. by rewrite <- G3.
    + intros u Hu Ne. rewrite O5, M3, M2; done.
Qed.

(** ** Headers *)

Lemma space_block c b dat : space c b dat → local_block c kt local lpas (loads kphys_start ksize info P kt base tabs lpas).
Proof.
  intros S. apply (local_block_agree c0); [|apply (sp_agree S)].
  split; [apply (ly_vmap ly)|apply (ly_walk ly)|apply (ly_nodup ly)|apply (ly_local ly)|intros a [Ha|Ha]; [by do 2 right; left|by right; left]| |];
    intros a Ha; apply (ly_lpas ly) in Ha; tauto.
Qed.

Lemma wp_peek_local c b dat p n (Q : option (list Z) → machine → Prop) L :
  space c b dat → (0 < n <= length lpas)%nat → 0 <= p → p + Z.of_nat n <= 2 ^ 32 →
  (∀ a, p <= a < p + Z.of_nat n → ¬ loads kphys_start ksize info P kt base tabs lpas a) →
  (∀ c', space c' b dat → same_map c c' → Q (Some (load_bytes (phys c0) p n)) c') →
  wp (peek_local local p (Z.of_nat n)) Q L c.
Proof.
  intros S Hn Hp0 Hp1 Hp HQ. assert (EL : length (take n lpas) = n) by (rewrite length_take; lia).
  rewrite <- EL. eapply wp_peek_block; [by eapply kmap_of, sp_agree|by eapply local_block_take, space_block|rewrite ?EL; done || lia..|].
  intros c1 A1. rewrite EL.
  assert (I1 : ∀ a, written kt (take n lpas) a → loads kphys_start ksize info P kt base tabs lpas a ∧ idle_byte kphys_start ksize info P base tabs b dat a).
  { intros a [(i & Hi & _)%elem_of_take|Ha]; [apply list_elem_of_lookup_2 in Hi|]; split.
    - by do 2 right; left.
    - eapply idle_local; [done| |done]. intros f Hf. by eapply sp_fresh.
    - by apply slot_loads.
    - eapply idle_slot; [done| |done]. intros f Hf. by eapply sp_fresh. }
  rewrite (agree_load_bytes _ _ _ _ _ (sp_agree S)) by done.
  apply HQ; [by apply (space_idle _ _ _ _ _ S A1 I1)|]. intros v Hv. eapply umap_frame; [done|exact S|exact A1|apply I1|done].
Qed.

(** ** Sections *)

(** The bytes of the pages of a section. *)
Definition section_bytes (sh : elf_sheader_t) : Z := 4096 * ((sh_size sh + 4095) / 4096).

(** A section that starts at the beginning of a page, in memory as well as in the
    file, and ends below the kernel. *)
Record section_ok (img : Z) (sh : elf_sheader_t) : Prop := {
  so_type : sh_type sh = SHT_PROGBITS ∨ sh_type sh = SHT_NOBITS;
  so_align : sh_addr sh mod 4096 = 0;
  so_range : 0 <= sh_addr sh ∧ 0 <= sh_size sh ∧ sh_addr sh + section_bytes sh <= KERNEL_VSTART;
  so_image : sh_type sh = SHT_PROGBITS → (img + sh_offset sh) mod 4096 = 0 ∧ 0 <= img + sh_offset sh ∧ img + sh_offset sh + section_bytes sh <= 2 ^ 32
}.

(** Where byte [o] of the pages of a section is. *)
Definition placed (c : machine) (dat : list Z) (img : Z) (sh : elf_sheader_t) (o : Z) : Prop :=
  (sh_type sh = SHT_PROGBITS ∧ umap c (sh_addr sh + o) = Some (img + sh_offset sh + o)) ∨
  (sh_type sh = SHT_NOBITS ∧ ∃ f pa, f ∈ dat ∧ in_frame f pa ∧ umap c (sh_addr sh + o) = Some pa).

Lemma page_placed img sh j c dat dat' : section_ok img sh → 0 <= j → 4096 * j + 4096 <= section_bytes sh →
  page_ok img sh (4096 * j) c dat dat' → ∀ o, 4096 * j <= o < 4096 * j + 4096 → placed c dat' img sh o.
Proof.
  intros OK Hj Hb (T & U & [(Ty & -> & ET)|(Ty & f & ET & ->)]) o Ho; [left|right]; (split; [done|]);
    pose proof (U (o - 4096 * j)) as Uo; replace (sh_addr sh + 4096 * j + (o - 4096 * j)) with (sh_addr sh + o) in Uo by lia.
  - rewrite Uo by lia. rewrite ET. destruct (so_image _ _ OK Ty) as (I1 & I2 & I3). rewrite wrap_small by lia. f_equal. zdiv.
  - exists f, (T + (o - 4096 * j)). split; [apply elem_of_cons; by left|]. split; [unfold in_frame; lia|]. apply Uo. lia.
Qed.

Lemma wp_load_pages img sh (Q : bool → lst → Prop) L k : section_ok img sh → ∀ fuel j c b dat,
  space c b dat → 0 <= j → 4096 * j <= section_bytes sh → (section_bytes sh / 4096 - j < Z.of_nat fuel) →
  (∀ o, 4096 * j <= o < section_bytes sh → umap c (sh_addr sh + o) = None) →
  (∀ c' b', exhausted b' → Q false (k <| mach := c' |>, b')) →
  (∀ c' b' dat', space c' b' dat' → dat ⊆ dat' → (∀ o, 4096 * j <= o < section_bytes sh → placed c' dat' img sh o) →
     (∀ u, user_address u → ¬ (sh_addr sh + 4096 * j <= u < sh_addr sh + section_bytes sh) → umap c' u = umap c u) →
     Q true (k <| mach := c' |>, b')) →
  wp (load_pages kphys_start ksize info fuel img (4096 * P) sh (4096 * j)) Q L (k <| mach := c |>, b).
Proof.
  intros OK. pose proof (so_range _ _ OK) as (R1 & R2 & R3). pose proof (so_align _ _ OK) as Al. unfold KERNEL_VSTART in R3.
  induction fuel as [|fuel IH]; intros j c b dat S Hj Hb Hf Un HX HQ; [unfold section_bytes in *; zdiv|].
  cbn [load_pages]. destruct (Z.ltb_spec (4096 * j) (sh_size sh)) as [Lt|Ge].
  2: { wp_step. apply (HQ c b dat S); [done|unfold section_bytes; zdiv|done]. }
  assert (Hn : 4096 * j + 4096 <= section_bytes sh) by (unfold section_bytes; zdiv).
  wp_step. eapply (wp_load_page (k <| mach := c |>)); [exact S|unfold user_address, KERNEL_VSTART; lia|zdiv|apply Un; lia|apply (so_type _ _ OK)| |].
  { intros c' b' X. wp_step. by apply (HX c' b'). }
  intros c1 b1 dat1 S1 OK1 O1. change (mach (k <| mach := c |>)) with c in O1.
  pose proof (page_placed _ _ _ _ _ _ OK Hj Hn OK1) as PL.
  assert (Sub : dat ⊆ dat1) by (destruct OK1 as (T & _ & [(_ & -> & _)|(_ & f & _ & ->)]); [done|intros x Hx; by right]).
  replace (u32 (4096 * j + PAGE_SIZE)) with (4096 * (j + 1)) by (rewrite wrap_small; unfold PAGE_SIZE; lia).
  apply (IH (j + 1) c1 b1 dat1 S1); [lia|lia|lia| |done|].
  - intros o Ho. rewrite O1; [apply Un; lia|unfold user_address, KERNEL_VSTART; lia|zdiv].
  - intros c2 b2 dat2 S2 Sub2 PL2 O2. apply (HQ c2 b2 dat2 S2).
    + by etrans.
    + intros o Ho. destruct (decide (4096 * (j + 1) <= o)) as [|Nl]; [apply PL2; lia|].
      assert (EU : umap c2 (sh_addr sh + o) = umap c1 (sh_addr sh + o)) by (apply O2; [unfold user_address, KERNEL_VSTART|]; lia).
      destruct (PL o ltac:(lia)) as [[Ty U]|(Ty & f & pa & Hf' & Hp & U)]; [left|right]; (split; [done|]).
      * by rewrite EU.
      * exists f, pa. rewrite EU. auto.
    + intros u Hu Ne. rewrite O2, O1; [done|done|zdiv|done|lia].
Qed.

(** ** The sections of a file *)

Definition section_at (img : Z) (image : elf_header_t) (i : Z) : elf_sheader_t :=
  elf_sheader_of (load_bytes (phys c0) (img + shoff image + i * shentsize image) 40).

Definition allocated (sh : elf_sheader_t) : Prop := IS_FLAG_SET (sh_flags sh) SHF_ALLOC = true.

Definition in_section (sh : elf_sheader_t) (u : Z) : Prop := sh_addr sh <= u < sh_addr sh + section_bytes sh.

(** The headers and the contents are outside of [W], and the sections with
    an address are apart from each other. *)
Record file_ok (W : Z → Prop) (img : Z) (image : elf_header_t) : Prop := {
  fo_header : ∀ i, 0 <= i < shnum image →
    let p := img + shoff image + i * shentsize image in
    0 <= p ∧ p + 40 <= 2 ^ 32 ∧ ∀ a, p <= a < p + 40 → ¬ W a;
  fo_section : ∀ i, 0 <= i < shnum image → allocated (section_at img image i) → section_ok img (section_at img image i);
  fo_apart : ∀ i j u, 0 <= i < shnum image → 0 <= j < shnum image → allocated (section_at img image i) → allocated (section_at img image j) →
    in_section (section_at img image i) u → in_section (section_at img image j) u → i = j;
  fo_bytes : ∀ i o, 0 <= i < shnum image → allocated (section_at img image i) → sh_type (section_at img image i) = SHT_PROGBITS →
    0 <= o < section_bytes (section_at img image i) →
    ¬ W (img + sh_offset (section_at img image i) + o)
}.

(** The sections from the [i]-th on. *)
Definition later_section (img : Z) (image : elf_header_t) (i : Z) (u : Z) : Prop :=
  ∃ j, i <= j < shnum image ∧ allocated (section_at img image j) ∧ in_section (section_at img image j) u.

Lemma placed_mono c c' dat dat' img sh o : placed c dat img sh o → dat ⊆ dat' → umap c' (sh_addr sh + o) = umap c (sh_addr sh + o) → placed c' dat' img sh o.
Proof.
  intros PL Sub E. destruct PL as [[Ty U]|(Ty & f & pa & Hf & Hp & U)]; [left|right]; (split; [done|]); rewrite E; [done|].
  exists f, pa. auto.
Qed.

Lemma in_section_user img sh u : section_ok img sh → in_section sh u → user_address u.
Proof. intros OK Hu. pose proof (so_range _ _ OK). unfold in_section, user_address in *. lia. Qed.

Lemma wp_load_sections img image (Q : bool → lst → Prop) L k : file_ok (loads kphys_start ksize info P kt base tabs lpas) img image → (40 <= length lpas)%nat → ∀ n i c b dat,
  space c b dat → 0 <= i → i + Z.of_nat n = shnum image →
  (∀ u, later_section img image i u → umap c u = None) →
  (∀ c' b', exhausted b' → Q false (k <| mach := c' |>, b')) →
  (∀ c' b' dat', space c' b' dat' → dat ⊆ dat' →
     (∀ j o, i <= j < shnum image → allocated (section_at img image j) → 0 <= o < section_bytes (section_at img image j) → placed c' dat' img (section_at img image j) o) →
     (∀ u, user_address u → ¬ later_section img image i u → umap c' u = umap c u) →
     Q true (k <| mach := c' |>, b')) →
  wp (load_sections kphys_start ksize info local n img (4096 * P) image i) Q L (k <| mach := c |>, b).
Proof.
  intros FO Hlen. induction n as [|n IH]; intros i c b dat S Hi En Un HX HQ; cbn [load_sections].
  { wp_step. apply (HQ c b dat S); [done|lia|done]. }
  destruct (fo_header _ _ _ FO i ltac:(lia)) as (P1 & P2 & P3). set (p := img + shoff image + i * shentsize image) in *.
  wp_step. apply wp_mm_again. replace (u32 p) with p by (rewrite wrap_small; lia). change SIZEOF_SHEADER with (Z.of_nat 40).
  eapply wp_peek_local; [exact S|lia|done|done|exact P3|]. intros c1 S1 M1.
  change (elf_sheader_of (load_bytes (phys c0) p 40)) with (section_at img image i). set (sh := section_at img image i) in *.
  assert (Un1 : ∀ u, user_address u → later_section img image i u → umap c1 u = None) by (intros u Hu Hl; rewrite M1; auto).
  assert (US : ∀ u, later_section img image i u → user_address u).
  { intros u (j & Hj & Aj & Ij). eapply in_section_user; [|done]. apply (fo_section _ _ _ FO); [lia|done]. }
  wp_step. destruct (IS_FLAG_SET (sh_flags sh) SHF_ALLOC) eqn:Al.
  - assert (OK : section_ok img sh) by (apply (fo_section _ _ _ FO); [lia|done]). pose proof (so_range _ _ OK) as (R1 & R2 & R3).
    assert (IS : ∀ o, 0 <= o < section_bytes sh → in_section sh (sh_addr sh + o)) by (unfold in_section; lia).
    assert (LS : ∀ u, in_section sh u → later_section img image i u) by (intros u Hu; exists i; split; [lia|done]).
    apply (wp_load_pages img sh _ _ k OK (section_fuel sh) 0 c1 b dat S1); [lia|unfold section_bytes; zdiv|unfold section_fuel, section_bytes, PAGE_SIZE; zdiv| | |].
    + intros o Ho. apply Un1; [apply US|]; apply LS, IS; lia.
    + intros c' b' X. wp_step. by apply HX.
    + intros c2 b2 dat2 S2 Sub2 PL2 O2.
      apply (IH (i + 1) c2 b2 dat2 S2); [lia|lia| |done|].
      * intros u Hu. pose proof Hu as (j & Hj & Aj & Ij). assert (HL : later_section img image i u) by (exists j; split; [lia|done]).
        rewrite O2; [by apply Un1; [apply US|]|by apply US|]. intros Hin. assert (i = j); [|lia].
        apply (fo_apart _ _ _ FO i j u); [lia|lia|done|done|fold sh; unfold in_section; lia|done].
      * intros c3 b3 dat3 S3 Sub3 PL3 O3. apply (HQ c3 b3 dat3 S3); [by etrans| |].
        -- intros j o Hj Aj Ho. destruct (decide (j = i)) as [->|]; [|apply PL3; [lia|done|done]].
           fold sh in Ho |- *. eapply placed_mono; [apply PL2; lia|done|]. apply O3; [apply US, LS, IS; lia|]. intros (j & Hj' & Aj' & Ij'). assert (i = j); [|lia].
           apply (fo_apart _ _ _ FO i j (sh_addr sh + o)); [lia|lia|done|done|apply IS; lia|done].
        -- intros u Hu Nl. rewrite O3, O2, M1; [done|done|done| |done|].
           ++ intros Hin. apply Nl, LS. unfold in_section. lia.
           ++ intros (j & Hj & Aj & Ij). apply Nl. exists j. split; [lia|done].
  - assert (LS : ∀ u, later_section img image i u → later_section img image (i + 1) u).
    { intros u (j & Hj & Aj & Ij). exists j. split; [|done]. destruct (decide (j = i)) as [->|]; [|lia]. unfold allocated in Aj. fold sh in Aj. congruence. }
    wp_step. apply (IH (i + 1) c1 b dat S1); [lia|lia| |done|].
    + intros u (j & Hj & Aj & Ij). assert (HL : later_section img image i u) by (exists j; split; [lia|done]). by apply Un1; [apply US|].
    + intros c3 b3 dat3 S3 Sub3 PL3 O3. apply (HQ c3 b3 dat3 S3); [done| |].
      * intros j o Hj Aj Ho. destruct (decide (j = i)) as [->|]; [unfold allocated in Aj; fold sh in Aj; congruence|]. apply PL3; [lia|done|done].
      * intros u Hu Nl. rewrite O3, M1; [done|done|done|]. intros (j & Hj & Aj & Ij). apply Nl. exists j. split; [lia|done].
Qed.
End spec.
