(* ===== verification/LoaderInit.v ===== *)
(** * The address space of the initial server

    [init_server_space] makes a page directory, a stack of 512K below the kernel
    and a view of the memory below 640K.  The result is an address space into which
    [load_elf_exe] can load. *)

From S2P Require Import Prelude Bits Machine Paging PagingFacts Kernel KList Thread ThreadFacts Message.
From S2P Require Import BootMemory Loader LoaderFacts LoaderSpec.

(** ** Entries *)

Lemma stack_pte_fields v f : 0 <= v < 2 ^ 32 → 0 <= f < 2 ^ 20 →
  let e := pte_set_was_allocated (pte_set_is_present (pte_set_is_user (pte_set_is_read_write (pte_set_base v (PADDR_TO_PBASE (4096 * f))) true) true) true) true in
  0 <= e < 2 ^ 32 ∧ ent_present e = true ∧ ent_frame e = f.
Proof.
  intros Hv Hf e. unfold e, ent_present, ent_frame, pte_set_was_allocated, pte_set_base, pte_set_is_present, pte_set_is_read_write, pte_set_is_user, PADDR_TO_PBASE.
  rewrite Z.shiftr_div_pow2 by lia. replace (4096 * f / 2 ^ 12) with f by zdiv.
  split; [repeat (apply set_bit_range; [lia|]); apply set_bits_range; lia|]. split.
  - rewrite bit_set_ne, bit_set_eq by lia. done.
  - unfold set_bit. rewrite !bits_set_ne, bits_set_eq by lia. apply wrap_small. lia.
Qed.

Lemma low_pde_fields f : 0 <= f < 2 ^ 20 →
  let e := pde_set_was_allocated (pde_set_base (pde_set_is_user (pde_set_is_read_write (pde_set_is_present 0 true) true) true) (PADDR_TO_PBASE (4096 * f))) true in
  0 <= e < 2 ^ 32 ∧ ent_present e = true ∧ ent_page_size e = false ∧ ent_frame e = f.
Proof.
  intros Hf e. unfold e, ent_present, ent_page_size, ent_frame, pde_set_was_allocated, pde_set_base, pde_set_is_present, pde_set_is_read_write, pde_set_is_user, PADDR_TO_PBASE.
  rewrite Z.shiftr_div_pow2 by lia. replace (4096 * f / 2 ^ 12) with f by zdiv.
  split; [apply set_bit_range; [lia|]; apply set_bits_range; try lia; repeat (apply set_bit_range; [lia|]); lia|]. split_and!.
  - rewrite bit_set_ne, bit_set_bits_ne, !bit_set_ne, bit_set_eq by lia. done.
  - rewrite bit_set_ne, bit_set_bits_ne, !bit_set_ne by lia. done.
  - unfold set_bit at 1. rewrite bits_set_ne, bits_set_eq by lia. apply wrap_small. lia.
Qed.

Lemma low_pte_fields i : 0 <= i < 2 ^ 20 →
  let e := pte_set_base (pte_set_is_user (pte_set_is_read_write (pte_set_is_present 0 true) false) true) i in
  0 <= e < 2 ^ 32 ∧ ent_present e = true ∧ ent_frame e = i.
Proof.
  intros Hi e. unfold e, ent_present, ent_frame, pte_set_base, pte_set_is_present, pte_set_is_read_write, pte_set_is_user.
  split; [apply set_bits_range; try lia; repeat (apply set_bit_range; [lia|]); lia|]. split.
  - rewrite bit_set_bits_ne, !bit_set_ne, bit_set_eq by lia. done.
  - rewrite bits_set_eq by lia. apply wrap_small. lia.
Qed.

Section spaces.
Context (kphys_start ksize : Z) (info : multiboot_info) (local : Z).
Context (c0 : machine) (P kt base : Z) (tabs lpas : list Z).
Hypothesis ly : layout kphys_start ksize info local c0 P kt base tabs lpas.

Abbreviation space := (space kphys_start ksize info c0 P kt base tabs lpas).
Abbreviation fresh := (fresh kphys_start ksize info base).
Abbreviation exhausted := (exhausted kphys_start ksize info).
Abbreviation pde_at := (pde_at P).
Abbreviation umap := (umap P).
Abbreviation top := INIT_SERVER_STACK_TOP.

(** Page [p] of the stack, counted from the top. *)
Definition stack_page (p : Z) : Z := top - 4096 * (p + 1).

Definition same_tables (c c' : machine) : Prop := ∀ i, user_index i → pde_at c' i = pde_at c i.

(** The frames of the pages of the stack from page [p] on. *)
Definition stack_frames (b b' : boot_state) (c' : machine) (p : Z) (fs : list Z) : Prop :=
  NoDup fs ∧ ∀ q f, fs !! q = Some f → fresh f ∧ limit b <= 4096 * f < limit b' ∧
    ∀ o, 0 <= o < 4096 → umap c' (stack_page (p + Z.of_nat q) + o) = Some (4096 * f + o).

Lemma wp_stack_pages k T (Q : option Z → lst → Prop) L m : ∀ p c b pte,
  space c b [] → ent_present (pde_at c 1018) = true → ent_frame (pde_at c 1018) = T → 0 <= pte < 2 ^ 32 → 0 <= p → p + Z.of_nat m = 128 →
  (∀ c' b', exhausted b' → Q None (k <| mach := c' |>, b')) →
  (∀ c' b' fs, space c' b' [] → limit b <= limit b' → same_tables c c' → length fs = m → stack_frames b b' c' p fs →
     (∀ u, user_address u → u < stack_page 127 ∨ stack_page p + 4096 <= u → umap c' u = umap c u) →
     Q (Some (4096 * 128)) (k <| mach := c' |>, b')) →
  wp (stack_pages kphys_start ksize info m p pte (4096 * T) (4096 * p)) Q L (k <| mach := c |>, b).
Proof.
  induction m as [|m IH]; intros p c b pte S Pr ET Hpte Hp Hm HX HQ; cbn [stack_pages].
  { wp_step. replace (4096 * p) with (4096 * 128) by lia. apply (HQ c b []); [done|lia|done|done| |done].
    split; [constructor|]. intros q f Hq. done. }
  wp_step. eapply wp_alloc_frame; [exact S|no_frame HX|].
  intros f b1 Hf Ff Hl1 Hl2 Hc1 Hp1. rewrite valid_frame by lia.
  destruct (stack_pte_fields pte f Hpte Hf) as (F1 & F2 & F3). set (e := pte_set_was_allocated _ true) in *.
  pose proof (sp_limit _ _ b1 _ S ltac:(lia) Hc1 Hp1) as S1.
  assert (HT : top = 0xFEC00000) by reflexivity.
  assert (UV : user_address (stack_page p)) by (unfold user_address, stack_page, KERNEL_VSTART; lia).
  replace (u32 (top - (p + 1) * PAGE_SIZE)) with (stack_page p) by (rewrite wrap_small; unfold stack_page, PAGE_SIZE; lia).
  assert (E22 : stack_page p / 2 ^ 22 = 1018) by (unfold stack_page; zdiv).
  rewrite PTE_INDEX_alt by (unfold stack_page; lia). change (2 ^ 12) with 4096. rewrite <- ET, <- E22. rewrite <- E22 in Pr.
  wp_step. eapply wp_write_page; [exact ly|exact S1|done|unfold stack_page; zdiv|done|done|done|]. intros c2 S2 E2 U2 O2.
  change (is_error E_OK) with false. cbv iota. rewrite F3 in U2.
  replace (u32 (4096 * p + PAGE_SIZE)) with (4096 * (p + 1)) by (rewrite wrap_small; unfold PAGE_SIZE; lia).
  assert (EP : pde_at c2 1018 = pde_at c (stack_page p / 2 ^ 22)) by (rewrite E22; apply E2; unfold user_index; lia).
  replace (ent_frame (pde_at c (stack_page p / 2 ^ 22))) with T by (by rewrite E22).
  apply (IH (p + 1) c2 b1 e S2); [by rewrite EP|by rewrite EP, E22|done|lia|lia|done|].
  intros c3 b3 fs S3 L3 E3 Len3 [ND3 SF3] O3.
  assert (U3 : ∀ o, 0 <= o < 4096 → umap c3 (stack_page p + o) = Some (4096 * f + o)).
  { intros o Ho. rewrite O3, U2; [done|done|unfold user_address, stack_page, KERNEL_VSTART; lia|unfold stack_page; lia]. }
  apply (HQ c3 b3 (f :: fs) S3); [lia|intros i Hi; by rewrite E3, E2|by cbn; rewrite Len3| |].
  - split.
    + constructor; [|done]. intros (q & Hq)%list_elem_of_lookup. apply SF3 in Hq as (_ & ? & _). lia.
    + intros [|q] g Hq; cbn in Hq.
      * injection Hq as <-. split_and!; [done|lia|lia|]. by rewrite Z.add_0_r.
      * apply SF3 in Hq as (G1 & G2 & G3). split_and!; [done|lia|lia|]. rewrite Nat2Z.inj_succ. by replace (p + Z.succ (Z.of_nat q)) with (p + 1 + Z.of_nat q) by lia.
  - intros u Hu Ho. rewrite O3, O2; [done|done|unfold stack_page in *; zdiv|done|unfold stack_page in *; lia].
Qed.

Lemma wp_low_pages k T (Q : bool → lst → Prop) L m : ∀ i c b,
  space c b [] → ent_present (pde_at c 0) = true → ent_frame (pde_at c 0) = T → 0 <= i → i + Z.of_nat m <= 1024 →
  (∀ c', space c' b [] → same_tables c c' → (∀ u, 4096 * i <= u < 4096 * (i + Z.of_nat m) → umap c' u = Some u) →
     (∀ u, user_address u → ¬ (4096 * i <= u < 4096 * (i + Z.of_nat m)) → umap c' u = umap c u) → Q true (k <| mach := c' |>, b)) →
  wp (low_pages m i (4096 * T)) Q L (k <| mach := c |>, b).
Proof.
  induction m as [|m IH]; intros i c b S Pr ET Hi Hm HQ; cbn [low_pages].
  { wp_step. apply (HQ c); [done|done|lia|done]. }
  destruct (low_pte_fields i ltac:(lia)) as (F1 & F2 & F3). set (e := pte_set_base _ i) in *.
  assert (UV : user_address (4096 * i)) by (unfold user_address, KERNEL_VSTART; lia).
  assert (E22 : 4096 * i / 2 ^ 22 = 0) by zdiv.
  assert (EJ : (4096 * i / 4096) mod 1024 = i) by zdiv. rewrite <- EJ at 1. rewrite <- ET, <- E22. rewrite <- E22 in Pr.
  wp_step. eapply wp_write_page; [exact ly|exact S|done|zdiv|done|done|done|]. intros c2 S2 E2 U2 O2.
  change (is_error E_OK) with false. cbv iota. rewrite F3 in U2.
  assert (EP : pde_at c2 0 = pde_at c (4096 * i / 2 ^ 22)) by (rewrite E22; apply E2; unfold user_index; lia).
  replace (ent_frame (pde_at c (4096 * i / 2 ^ 22))) with T by (by rewrite E22).
  apply (IH (i + 1) c2 b S2); [by rewrite EP|by rewrite EP, E22|lia|lia|].
  intros c3 S3 E3 U3 O3. unfold user_address, KERNEL_VSTART in *. apply (HQ c3 S3).
  - intros j Hj. by rewrite E3, E2.
  - intros u Hu. destruct (decide (4096 * (i + 1) <= u)); [apply U3; lia|]. rewrite O3 by lia.
    replace u with (4096 * i + (u - 4096 * i)) at 1 by lia. rewrite U2 by lia. f_equal. lia.
  - intros u Hu Ne. rewrite O3, O2; [done|done|zdiv|done|lia].
Qed.

Lemma wp_low_table k c b dat (Q : option Z → lst → Prop) L :
  space c b dat → pde_at c 0 = 0 →
  (∀ c' b', exhausted b' → Q None (k <| mach := c' |>, b')) →
  (∀ f c' b', fresh f → limit b <= 4096 * f < limit b' → space c' b' dat → same_map P c c' →
     ent_present (pde_at c' 0) = true → ent_frame (pde_at c' 0) = f → (∀ i, user_index i → i ≠ 0 → pde_at c' i = pde_at c i) →
     Q (Some (4096 * f)) (k <| mach := c' |>, b')) →
  wp (low_table kphys_start ksize info (4096 * P)) Q L (k <| mach := c |>, b).
Proof.
  intros S E0 HX HQ. destruct (ly_space ly) as (HP & PK & _). assert (U0 : user_index 0) by (unfold user_index; lia).
  unfold low_table. wp_step. apply wp_mm_again. eapply wp_read_entry; [by eapply kmap_of, sp_agree|done|lia|done|].
  intros c1 A1. change (load32 (phys c) (4096 * P + 4 * 0)) with (pde_at c 0). rewrite E0.
  pose proof (space_slot ly _ _ _ _ S A1) as S1.
  assert (E1 : same_tables c c1).
  { intros i Hi. apply (pde_at_frame _ _ _ i A1); [|done]. intros a Ha H%in_dir_frame. apply PK. apply slot0_in_frame in Ha. by eapply in_frame_inj. }
  change (negb (pde_is_present 0)) with true. cbv iota. wp_step.
  eapply wp_cleared_frame; [exact ly|exact S1|intros c' b' X; wp_step; by apply HX|].
  intros f c2 b2 Ff Hf Hl Hc Hp S2 M2 E2 Z2. destruct (low_pde_fields f Hf) as (F1 & F2 & F3 & F4). set (e := pde_set_was_allocated _ true) in *.
  wp_step. eapply wp_install_table; [exact ly|exact S2|exact U0| |exact Ff|exact Hl|done..|].
  { rewrite E2, E1, E0 by done. done. }
  intros c3 S3 M3 E3 O3. wp_step. change (is_error E_OK) with false. cbv iota. apply (HQ f c3 b2); [done|done|done| |by rewrite E3|by rewrite E3|].
  - intros u Hu. rewrite M3, M2 by done. by eapply umap_slot.
  - intros i Hi Ne. rewrite O3, E2, E1 by done. done.
Qed.
End spaces.

(** ** From the state after start-up *)

Section init.
Context (kphys_start ksize : Z) (info : multiboot_info) (local : Z) (kt base : Z) (lpas : list Z).
Abbreviation fresh := (fresh kphys_start ksize info base).
Abbreviation exhausted := (exhausted kphys_start ksize info).
Abbreviation top := INIT_SERVER_STACK_TOP.

(** What may be written to before there is an address space. *)
Definition boot_writes (a : Z) : Prop :=
  slot_bytes kt a ∨ a ∈ lpas ∨ ∃ f, fresh f ∧ in_frame f a.

Record booting (c : machine) (b : boot_state) : Prop := {
  bt_kmap : kmap c kt;
  bt_can : can_alloc_frames b = true;
  bt_page : page_address (first_free_page b);
  bt_base : base <= limit b;
  bt_table : ¬ fresh kt;
  bt_dir : ¬ fresh (cr3 c / 4096);
  bt_vmap : vmap c local lpas;
  bt_walk : walk_free c local (length lpas) boot_writes;
  bt_nodup : NoDup lpas;
  bt_local : 0 <= local < 2 ^ 32;
  bt_lpas : ∀ a, a ∈ lpas → ¬ slot_bytes kt a ∧ ¬ in_frame (cr3 c / 4096) a ∧ ∀ f, fresh f → ¬ in_frame f a
}.

(** The directory is made. *)
Lemma booting_layout c b b1 c1 P :
  booting c b → fresh P → 0 <= P < 2 ^ 20 → limit b <= 4096 * P < limit b1 →
  agree (λ a, in_frame P a ∨ slot_bytes kt a) c c1 → kmap c1 kt →
  layout kphys_start ksize info local c1 P kt (limit b1) [] lpas ∧
  (∀ a, loads kphys_start ksize info P kt (limit b1) [] lpas a → boot_writes a).
Proof.
  intros [B1 B2 B3 B4 B5 B6 B7 B8 B9 B10 B11] FP HP HL A K1.
  assert (FR : ∀ f, LoaderFacts.fresh kphys_start ksize info (limit b1) f → fresh f) by (intros f [H1 H2]; split; [lia|done]).
  assert (LW : ∀ a, loads kphys_start ksize info P kt (limit b1) [] lpas a → boot_writes a).
  { intros a [H|[H|[H|[(T & H & _)|(f & Hf & H)]]]].
    - right; right. by exists P.
    - by left.
    - by right; left.
    - by apply elem_of_nil in H.
    - right; right. exists f. split; [by apply FR|done]. }
  assert (AW : agree boot_writes c c1).
  { eapply agree_mono; [|exact A]. intros a [H|H]; [right; right; by exists P|by left]. }
  split; [|done]. assert (EC : cr3 c1 = cr3 c) by apply A. split; rewrite ?EC.
  - done.
  - split_and!; [lia..| | |apply not_elem_of_nil|intros [H _]; lia]; intros ->; by auto.
  - split; [apply not_elem_of_nil|]. intros H%FR. done.
  - split; [apply not_elem_of_nil|]. intros H%FR. done.
  - intros T HT. by apply elem_of_nil in HT.
  - by eapply agree_vmap.
  - eapply walk_free_mono; [exact LW|]. by eapply agree_walk_free.
  - done.
  - done.
  - intros a Ha. destruct (B11 a Ha) as (H1 & H2 & H3). split_and!; [by apply H3|done|done| |].
    + intros T HT. by apply elem_of_nil in HT.
    + intros f Hf. by apply H3, FR.
Qed.

(** The address space that is made: [P] is its directory, [T0] and [T1] its two
    tables and [fs] the frames of its stack, from the top down. *)
Record server_space (c c' : machine) (b' : boot_state) (P T0 T1 : Z) (fs : list Z) : Prop := {
  ss_layout : layout kphys_start ksize info local c' P kt (limit b') [T0; T1] lpas;
  ss_space : space kphys_start ksize info c' P kt (limit b') [T0; T1] lpas c' b' [];
  ss_agree : agree boot_writes c c';
  ss_frames : fresh P ∧ fresh T0 ∧ fresh T1 ∧ NoDup fs ∧ length fs = STACK_PAGES ∧ base <= limit b';
  ss_low : ∀ u, 0 <= u < VGA_RAM → umap P c' u = Some u;
  ss_stack : ∀ q f, fs !! q = Some f → fresh f ∧ 4096 * f < limit b' ∧ f ≠ P ∧ f ≠ T0 ∧ f ≠ T1 ∧
    ∀ o, 0 <= o < 4096 → umap P c' (stack_page (Z.of_nat q) + o) = Some (4096 * f + o);
  ss_none : ∀ u, user_address u → VGA_RAM <= u → u < stack_page 127 → umap P c' u = None
}.
End init.

(** ** Starting over from a later state *)

Section rebase.
Context (kphys_start ksize : Z) (info : multiboot_info) (local : Z).
Context (c0 : machine) (P kt base : Z) (lpas : list Z).
Hypothesis ly : layout kphys_start ksize info local c0 P kt base [] lpas.
Abbreviation fresh := (fresh kphys_start ksize info base).

(** The tables that were made become the tables to start from, and the frames that
    were handed out are no longer free. *)
Lemma rebase c b T0 T1 :
  space kphys_start ksize info c0 P kt base [] lpas c b [] → fresh T0 → fresh T1 → 4096 * T0 < limit b → 4096 * T1 < limit b →
  (∀ i, user_index i → ent_present (pde_at P c i) = true → ent_frame (pde_at P c i) ∈ [T0; T1]) →
  layout kphys_start ksize info local c P kt (limit b) [T0; T1] lpas ∧
  space kphys_start ksize info c P kt (limit b) [T0; T1] lpas c b [].
Proof.
  intros S F0 F1 L0 L1 HT. pose proof (sp_base S) as HB. pose proof (sp_agree S) as A. pose proof (sp_cr3 _ _ _ S) as EC.
  assert (FT : ∀ T, T ∈ [T0; T1] → fresh T ∧ 4096 * T < limit b) by (intros T; rewrite elem_of_cons, list_elem_of_singleton; intros [->| ->]; done).
  assert (FR : ∀ f, LoaderFacts.fresh kphys_start ksize info (limit b) f → fresh f) by (intros f [H1 H2]; split; [lia|done]).
  assert (LW : ∀ a, loads kphys_start ksize info P kt (limit b) [T0; T1] lpas a → loads kphys_start ksize info P kt base [] lpas a).
  { intros a [H|[H|[H|[(T & HT' & H)|(f & Hf & H)]]]]; [by left|by right; left|by do 2 right; left|do 4 right..].
    - exists T. split; [by apply FT|done].
    - exists f. split; [by apply FR|done]. }
  split; split; rewrite ?EC.
  - by eapply kmap_of.
  - destruct (ly_space ly) as (P1 & P2 & P3 & _ & P5). split_and!; [lia..|done|done| |by intros H%FR]. intros [H _]%FT. done.
  - destruct (ly_table ly) as [_ K2]. split; [by intros [H _]%FT|by intros H%FR].
  - destruct (ly_dir ly) as [_ K2]. split; [by intros [H _]%FT|by intros H%FR].
  - intros T [_ H]%FT [H1 _]. lia.
  - eapply agree_vmap; [exact A|apply (ly_walk ly)|apply (ly_vmap ly)].
  - eapply walk_free_mono; [exact LW|]. eapply agree_walk_free; [exact A|apply (ly_walk ly)].
  - apply (ly_nodup ly).
  - apply (ly_local ly).
  - intros a Ha. destruct (ly_lpas ly a Ha) as (H1 & H2 & H3 & _ & H5). split_and!; [done..| |].
    + intros T HT'. by apply H5, FT.
    + intros f Hf. by apply H5, FR.
  - apply agree_refl.
  - apply (sp_can S).
  - apply (sp_page S).
  - done.
  - apply (sp_small S).
  - intros i Hi Pr. split; [left; by apply HT|apply not_elem_of_nil].
  - apply (sp_inj S).
  - intros f Hf. by apply elem_of_nil in Hf.
Qed.
End rebase.

Section make.
Context (kphys_start ksize : Z) (info : multiboot_info) (local : Z) (kt base : Z) (lpas : list Z).
Abbreviation fresh := (fresh kphys_start ksize info base).
Abbreviation exhausted := (exhausted kphys_start ksize info).
Abbreviation space1 P b1 c1 := (space kphys_start ksize info c1 P kt (limit b1) [] lpas).

Lemma zero_pde P c i : (∀ a, in_frame P a → load8 (phys c) a = 0) → user_index i → pde_at P c i = 0.
Proof. intros Z0 Hi. unfold pde_at, load32, user_index in *. rewrite !Z0 by (unfold in_frame; lia). reflexivity. Qed.

Lemma empty_space c1 b1 P :
  can_alloc_frames b1 = true → page_address (first_free_page b1) → (∀ i, user_index i → pde_at P c1 i = 0) → space1 P b1 c1 c1 b1 [].
Proof.
  intros C A Z0. split; try done.
  - intros i Hi. by rewrite Z0.
  - intros i Hi. by rewrite Z0.
  - intros i j Hi Hj. by rewrite (Z0 i).
  - intros f Hf. by apply elem_of_nil in Hf.
Qed.

Lemma empty_umap c P u : 0 <= P → (∀ i, user_index i → pde_at P c i = 0) → user_address u → umap P c u = None.
Proof. intros HP Z0 Hu. rewrite umap_unfold by done. by rewrite Z0 by by apply user_address_index. Qed.

(** Only memory is changed. *)
Definition memory_only (k k' : kstate) : Prop := same_threads k k' ∧ irq_handlers k' = irq_handlers k ∧ kernel_stack_top k' = kernel_stack_top k.

(** The directory. *)
Lemma wp_directory k b (Q : option Z → lst → Prop) L :
  booting kphys_start ksize info local kt base lpas (mach k) b →
  (∀ s', exhausted (snd s') → memory_only k (fst s') → Q None s') →
  (∀ P c1 b1, 0 <= P < 2 ^ 20 → fresh P → limit b <= 4096 * P < limit b1 →
     layout kphys_start ksize info local c1 P kt (limit b1) [] lpas → space1 P b1 c1 c1 b1 [] →
     agree (boot_writes kphys_start ksize info kt base lpas) (mach k) c1 →
     (∀ a, loads kphys_start ksize info P kt (limit b1) [] lpas a → boot_writes kphys_start ksize info kt base lpas a) →
     (∀ i, user_index i → pde_at P c1 i = 0) → Q (Some (4096 * P)) (k <| mach := c1 |>, b1)) →
  wp (cleared_frame kphys_start ksize info) Q L (k, b).
Proof.
  intros B HX HQ. pose proof B as [B1 B2 B3 B4 B5 B6 _ _ _ _ _]. unfold cleared_frame.
  wp_step. eapply (wp_alloc (base := base)); [done..|no_frame HX|]. intros P b1 HP FP Hl1 Hl2 Hc Hp. rewrite valid_frame by lia.
  wp_step. apply wp_mm. eapply wp_clear_phys_frames; [exact B1|done|intros ->; done|intros ->; done|].
  intros c1 A1 K1 Z1. wp_step. change (1 =? 1) with true. cbv iota.
  destruct (booting_layout kphys_start ksize info local kt base lpas (mach k) b b1 c1 P B FP HP (conj Hl1 Hl2) A1 K1) as [ly LW].
  assert (Z0 : ∀ i, user_index i → pde_at P c1 i = 0) by (intros i Hi; by apply zero_pde).
  apply HQ; [done|done|lia|done|by apply empty_space| |done|done].
  eapply agree_mono; [|exact A1]. intros a [H|H]; [right; right; by exists P|by left].
Qed.

(** The stack and its table. *)
Lemma wp_stack k c1 b1 P (Q : option (Z * Z) → lst → Prop) L (K : Z → M lst (option (Z * Z))) :
  layout kphys_start ksize info local c1 P kt (limit b1) [] lpas → space1 P b1 c1 c1 b1 [] → (∀ i, user_index i → pde_at P c1 i = 0) →
  (∀ s', exhausted (snd s') → memory_only k (fst s') → Q None s') →
  (∀ T1 c' b2 b' fs, LoaderFacts.fresh kphys_start ksize info (limit b1) T1 → limit b1 <= 4096 * T1 < limit b2 → limit b2 <= limit b' → space1 P b1 c1 c' b' [] →
     length fs = STACK_PAGES → stack_frames kphys_start ksize info P (limit b1) b2 b' c' 0 fs →
     ent_present (pde_at P c' 1018) = true → ent_frame (pde_at P c' 1018) = T1 → (∀ i, user_index i → i ≠ 1018 → pde_at P c' i = 0) →
     (∀ u, user_address u → u < stack_page 127 → umap P c' u = None) →
     wp (K (4096 * 128)) Q L (k <| mach := c' |>, b')) →
  wp (let* o := cleared_frame kphys_start ksize info in
      match o with
      | None => ret None
      | Some stack_ptab =>
          let pde := new_pde 0 stack_ptab in
          let* r := mm (write_pde (PDE_INDEX (u32 (INIT_SERVER_STACK_TOP - PAGE_TABLE_SIZE))) pde (4096 * P)) in
          if is_error r then ret None
          else
            let* o := stack_pages kphys_start ksize info STACK_PAGES 0 0 stack_ptab 0 in
            match o with None => ret None | Some init_stack_size => K init_stack_size end
      end) Q L (k <| mach := c1 |>, b1).
Proof.
  intros ly S1 Z0 HX HQ. destruct (ly_space ly) as (HP & _). assert (U : user_index 1018) by (unfold user_index; lia).
  wp_step. eapply wp_cleared_frame; [exact ly|exact S1|intros c' b' X; wp_step; by apply HX|].
  intros T1 c2 b2 F1 Hf Hl Hc Hp S2 M2 E2 Z2. cbv zeta.
  change (PDE_INDEX (u32 (INIT_SERVER_STACK_TOP - PAGE_TABLE_SIZE))) with 1018.
  destruct (new_pde_fields 0 T1) as (N1 & N2 & N3 & N4); [lia|done|].
  wp_step. eapply wp_install_table; [exact ly|exact S2|exact U|by rewrite E2, Z0|exact F1|exact Hl|done..|].
  intros c3 S3 M3 E3 O3. change (is_error E_OK) with false. cbv iota. wp_step.
  apply (wp_stack_pages kphys_start ksize info local c1 P kt (limit b1) [] lpas ly k T1 _ _ STACK_PAGES 0 c3 b2 0 S3);
    [by rewrite E3|by rewrite E3|lia|lia|done|intros c' b' X; wp_step; by apply HX|].
  intros c4 b4 fs S4 L4 E4 Len SF O4. apply (HQ T1 c4 b2 b4 fs); [done|done|done|done|done|done|by rewrite E4, E3|by rewrite E4, E3| |].
  - intros i Hi Ne. by rewrite E4, O3, E2, Z0.
  - intros u Hu Hlt. rewrite O4, M3, M2 by auto. by apply empty_umap; [lia|..].
Qed.

Lemma wp_init_server_space k b (Q : option (Z * Z) → lst → Prop) L :
  booting kphys_start ksize info local kt base lpas (mach k) b →
  (∀ s', exhausted (snd s') → memory_only k (fst s') → Q None s') →
  (∀ c' b' P T0 T1 fs, 0 <= P < 2 ^ 20 → server_space kphys_start ksize info local kt base lpas (mach k) c' b' P T0 T1 fs →
     Q (Some (4096 * P, 4096 * 128)) (k <| mach := c' |>, b')) →
  wp (init_server_space kphys_start ksize info) Q L (k, b).
Proof.
  intros B HX HQ. unfold init_server_space. wp_step. eapply wp_directory; [exact B|intros s' X M; wp_step; by apply HX|].
  intros P c1 b1 HP FP HL1 ly S1 A1 LW Z1.
  apply (wp_stack k c1 b1 P Q L (λ size, let* o := low_table kphys_start ksize info (4096 * P) in
    match o with None => ret None | Some ptab =>
      let* ok := low_pages (Z.to_nat (PTE_INDEX VGA_RAM)) 0 ptab in ret (if (ok : bool) then Some (4096 * P, size) else None) end)); [done|done|done|done|].
  intros T1 c2 b2 b3 fs F1 LT1 L23 S2 Len [ND SF] Pr1 ET1 Z2 N2. cbv beta.
  wp_step. eapply wp_low_table; [exact ly|exact S2|apply Z2; [unfold user_index|]; lia|intros c' b' X; wp_step; by apply HX|].
  intros T0 c3 b4 F0 LT0 S3 M3 Pr0 ET0 O3.
  wp_step. change (Z.to_nat (PTE_INDEX VGA_RAM)) with 160%nat.
  eapply (wp_low_pages kphys_start ksize info local c1 P kt (limit b1) [] lpas ly k T0 _ _ 160 0 c3 b4 S3); [done|done|lia|lia|].
  intros c4 S4 E4 U4 O4. wp_step. change (4096 * (0 + Z.of_nat 160)) with VGA_RAM in *. change (4096 * 0) with 0 in *.
  assert (HB : base <= limit b1) by (pose proof (bt_base _ _ _ _ _ _ _ _ _ B); lia).
  assert (FR : ∀ f, LoaderFacts.fresh kphys_start ksize info (limit b1) f → fresh f) by (intros f [H1 H2]; split; [lia|done]).
  assert (TB : ∀ i, user_index i → ent_present (pde_at P c4 i) = true → ent_frame (pde_at P c4 i) ∈ [T0; T1]).
  { intros i Hi. rewrite E4 by done. destruct (decide (i = 0)) as [->|N0]; [rewrite ET0; by left|]. rewrite O3 by done.
    destruct (decide (i = 1018)) as [->|N1]; [rewrite ET1; by right; left|]. by rewrite Z2. }
  destruct (rebase kphys_start ksize info local c1 P kt (limit b1) lpas ly c4 b4 T0 T1 S4 F0 F1 ltac:(lia) ltac:(lia) TB) as [ly' S'].
  assert (UA : ∀ u, 0 <= u < KERNEL_VSTART → user_address u) by done.
  apply (HQ c4 b4 P T0 T1 fs HP). split; [done|done| | |done| |].
  - eapply agree_trans; [exact A1|]. eapply agree_mono; [exact LW|apply (sp_agree S4)].
  - split_and!; [done|by apply FR|by apply FR|done|done|lia].
  - intros q f Hq. destruct (SF q f Hq) as (G1 & G2 & G3). pose proof (lookup_lt_Some _ _ _ Hq) as Lq. rewrite Len in Lq. unfold STACK_PAGES in Lq.
    split_and!; [by apply FR|lia|lia|lia|lia|]. intros o Ho. rewrite <- G3 by done. rewrite Z.add_0_l.
    assert (HU : user_address (stack_page (Z.of_nat q) + o) ∧ VGA_RAM <= stack_page (Z.of_nat q) + o).
    { unfold user_address, stack_page, VGA_RAM. change INIT_SERVER_STACK_TOP with KERNEL_VSTART. unfold KERNEL_VSTART. lia. }
    destruct HU as [HU1 HU2]. rewrite O4; [|done|lia]. by apply M3.
  - intros u Hu H1 H2. rewrite O4; [|done|lia]. rewrite M3 by done. by apply N2.
Qed.
End make.
