(* ===== verification/LoaderExe.v ===== *)
(** * Loading an executable: the whole of load_elf_exe

    The thread and its address space: the theorem about [load_elf_exe] puts the
    creation of threads, the page maps, the allocator of frames and the loader
    together, and a small ELF file is loaded. *)

From S2P Require Import Prelude Bits Machine Paging PagingFacts PagingSpec Kernel KList Thread ThreadFacts ThreadSpec Message.
From S2P Require Import BootMemory Loader LoaderFacts LoaderSpec.

(** ** The creation of the thread *)

Lemma agree_new_space c kt nf lp :
  agree (λ a, 4096 * nf + 4076 <= a < 4096 * nf + 4096 ∨ slot_bytes kt a ∨ lp <= a < lp + 4) c
    (set_phys (new_space_memory (phys c) (cr3 c / 4096) kt nf lp) c).
Proof.
  split; [done|]. intros a Ha. cbn [phys set_phys]. unfold new_space_memory, slot_bytes in *.
  rewrite !load8_poked by (rewrite length_load_bytes; unfold touched; lia). apply load8_store32_ne. lia.
Qed.

Lemma get16_nonneg m p n i : 0 <= get16 (load_bytes m p n) i.
Proof.
  assert (G : ∀ j, 0 <= get8 (load_bytes m p n) j).
  { intros j. unfold get8, load_bytes. rewrite list_lookup_fmap. destruct (seq 0 n !! j); cbn; [apply load8_range|lia]. }
  unfold get16. pose proof (G i). pose proof (G (i + 1)%nat). lia.
Qed.

Section exe.
Context {kphys_start ksize : Z} {info : multiboot_info} {local lp : Z} {n : nat}.
Context {c0 : machine} {P kt base : Z} {tabs : list Z}.
Hypothesis Hn : (52 <= n)%nat.
Abbreviation lpas := (consec lp n).
Hypothesis ly : layout kphys_start ksize info local c0 P kt base tabs lpas.
Abbreviation space := (space kphys_start ksize info c0 P kt base tabs lpas).
Abbreviation umap := (umap P).

Lemma lp_apart f : (∀ a, a ∈ lpas → ¬ in_frame f a) → lp + 4 <= 4096 * f ∨ 4096 * f + 4096 <= lp.
Proof.
  intros H. destruct (decide (lp + 4 <= 4096 * f)); [by left|]. destruct (decide (4096 * f + 4096 <= lp)); [by right|].
  exfalso. apply (H (Z.max lp (4096 * f))); [apply elem_of_consec; lia|unfold in_frame; lia].
Qed.

Lemma loader_new_space c b dat : space c b dat → new_space c kt P local lp.
Proof.
  intros S. pose proof (sp_cr3 _ _ _ S) as EC. destruct (ly_space ly) as (H1 & H2 & H3 & _).
  pose proof (ly_local ly). split; try done; rewrite ?EC; try done.
  - eapply (agree_vmap _ c0); [apply (sp_agree S)| |].
    + intros i w k Hi. apply (ly_walk ly). rewrite length_consec in *. lia.
    + intros i pa Hi. apply (ly_vmap ly). apply consec_lookup in Hi as [-> ?]. apply consec_lookup. split; [done|lia].
  - eapply walk_free_mono; [|eapply agree_walk_free; [apply (sp_agree S)|]].
    + intros a [Ha|[Ha|Ha]]; [by left|by right; left|]. do 2 right; left. apply elem_of_consec. lia.
    + intros i w k Hi. apply (ly_walk ly). rewrite length_consec. lia.
  - apply lp_apart. intros a Ha. by destruct (ly_lpas ly a Ha) as (? & _ & ? & _).
  - apply lp_apart. intros a Ha. by destruct (ly_lpas ly a Ha) as (? & _ & ? & _).
  - destruct (decide (lp + 4 <= slot0 kt)); [by left|]. destruct (decide (slot0 kt + 4 <= lp)); [by right|].
    exfalso. destruct (ly_lpas ly (Z.max lp (slot0 kt))) as (_ & N & _); [apply elem_of_consec; lia|]. lia.
Qed.

Lemma space_created c b dat : space c b dat →
  let c' := set_phys (new_space_memory (phys c) (cr3 c / 4096) kt P lp) c in
  space c' b dat ∧ same_map P c c'.
Proof.
  intros S c'. pose proof (agree_new_space c kt P lp) as A. fold c' in A.
  assert (I : ∀ a, 4096 * P + 4076 <= a < 4096 * P + 4096 ∨ slot_bytes kt a ∨ lp <= a < lp + 4 →
    loads kphys_start ksize info P kt base tabs lpas a ∧ idle_byte kphys_start ksize info P base tabs b dat a).
  { intros a [Ha|[Ha|Ha]]; split.
    - left. unfold in_frame. lia.
    - assert (F : in_frame P a) by (unfold in_frame; lia). split_and!; [unfold in_dir; lia| |].
      + intros T HT H. destruct (table_frames ly _ _ HT) as (_ & _ & N). apply N. by eapply in_frame_inj.
      + intros f Hf H. destruct (fresh_frames ly f) as (_ & _ & N); [by eapply sp_fresh|]. apply N. by eapply in_frame_inj.
    - by apply slot_loads.
    - eapply idle_slot; [done| |done]. intros f Hf. by eapply sp_fresh.
    - do 2 right; left. apply elem_of_consec. lia.
    - eapply idle_local; [done| |apply elem_of_consec; lia]. intros f Hf. by eapply sp_fresh. }
  split; [by apply (space_idle _ _ _ _ _ S A I)|]. intros v Hv. eapply umap_frame; [done|exact S|exact A|apply I|done].
Qed.

(** ** Executables *)

(** The byte at an address of the new address space. *)
Definition byte_at (c : machine) (u : Z) : option Z := load8 (phys c) <$> umap c u.

(** What the file says about byte [o] of the pages of a section. *)
Definition file_byte (img : Z) (sh : elf_sheader_t) (o : Z) : Z :=
  if sh_type sh =? SHT_PROGBITS then load8 (phys c0) (img + sh_offset sh + o) else 0.

Lemma placed_byte c b dat img image j o :
  space c b dat → file_ok c0 (loads kphys_start ksize info P kt base tabs lpas) img image →
  0 <= j < shnum image → let sh := section_at c0 img image j in
  allocated sh → 0 <= o < section_bytes sh → placed P c dat img sh o → byte_at c (sh_addr sh + o) = Some (file_byte img sh o).
Proof.
  intros S FO Hj sh Al Ho [[Ty U]|(Ty & f & pa & Hf & Hp & U)]; unfold byte_at, file_byte; rewrite U, Ty; cbn [fmap option_fmap option_map].
  - change (SHT_PROGBITS =? SHT_PROGBITS) with true. cbv iota. f_equal. apply (sp_agree S). by apply (fo_bytes _ _ _ _ FO).
  - change (SHT_NOBITS =? SHT_PROGBITS) with false. cbv iota. f_equal. by apply (sp_dat S f Hf).
Qed.
End exe.

#[global] Arguments byte_at : clear implicits.
#[global] Arguments file_byte : clear implicits.

Section load.
Context (kphys_start ksize : Z) (info : multiboot_info) (local lp : Z) (n : nat).
Context (P kt base : Z) (tabs : list Z).
Hypothesis Hn : (52 <= n)%nat.
Abbreviation lpas := (consec lp n).

(** What the loader may write to. *)
Abbreviation written_by := (loads kphys_start ksize info P kt base tabs lpas).

(** An executable at [img] outside of [W]. *)
Record executable (c : machine) (W : Z → Prop) (img : Z) (image : elf_header_t) : Prop := {
  ex_range : 0 <= img ∧ img + 52 <= 2 ^ 32;
  ex_apart : ∀ a, img <= a < img + 52 → ¬ W a;
  ex_image : image = elf_header_of (load_bytes (phys c) img 52);
  ex_valid : is_valid_elf_exe image = true;
  ex_file : file_ok c W img image
}.

(** An executable that fits the address space with the directory [P]. *)
Record loadable (c0 : machine) (b : boot_state) (img : Z) (image : elf_header_t) : Prop := {
  lo_layout : layout kphys_start ksize info local c0 P kt base tabs lpas;
  lo_space : space kphys_start ksize info c0 P kt base tabs lpas c0 b [];
  lo_exe : executable c0 written_by img image;
  lo_unmapped : ∀ u, later_section c0 img image 0 u → umap P c0 u = None
}.

(** A block for a new thread. *)
Record can_create (k : kstate) (Q : queues) (t : Z) : Prop := {
  cc_kinv : kinv k Q;
  cc_lock : lock_tcb_table k = false;
  cc_last : 0 <= last_tid k < NUM_TCBS;
  cc_free : first_free k (last_tid k) t;
  cc_queues : Q (SenderQ t) = [] ∧ Q (ReceiverQ t) = []
}.

(** The same processors, interrupt handlers and kernel stack. *)
Definition same_system (k k' : kstate) : Prop :=
  processors k' = processors k ∧ num_processors k' = num_processors k ∧ irq_handlers k' = irq_handlers k ∧ kernel_stack_top k' = kernel_stack_top k.

Lemma same_system_trans k1 k2 k3 : same_system k1 k2 → same_system k2 k3 → same_system k1 k3.
Proof. intros (A1 & A2 & A3 & A4) (B1 & B2 & B3 & B4). split_and!; congruence. Qed.

(** The state after an executable is loaded for thread [t]. *)
Record loaded (k : kstate) (Q : queues) (t img : Z) (image : elf_header_t) (user_stack : Z) (k' : kstate) : Prop := {
  ld_kinv : kinv k' (enq PausedQ t Q);
  ld_thread : core_tcb <$> tcb_table k' !! t = Some (new_tcb (4096 * P) (entry image) user_stack);
  ld_threads : ∀ u, u ≠ t → core_tcb <$> tcb_table k' !! u = core_tcb <$> tcb_table k !! u;
  ld_system : same_system k k';
  ld_bytes : ∀ j o, 0 <= j < shnum image → allocated (section_at (mach k) img image j) → 0 <= o < section_bytes (section_at (mach k) img image j) →
    byte_at P (mach k') (sh_addr (section_at (mach k) img image j) + o) = Some (file_byte (mach k) img (section_at (mach k) img image j) o);
  ld_others : ∀ u, user_address u → ¬ later_section (mach k) img image 0 u → umap P (mach k') u = umap P (mach k) u
}.

Lemma wp_create k c b dat Q t entry user_stack (Post : option Z → kstate * boot_state → Prop) L :
  layout kphys_start ksize info local (mach k) P kt base tabs lpas →
  space kphys_start ksize info (mach k) P kt base tabs lpas c b dat → can_create k Q t →
  (∀ s', space kphys_start ksize info (mach k) P kt base tabs lpas (mach s') b dat → same_map P c (mach s') → kinv s' (enq PausedQ t Q) →
     core_tcb <$> tcb_table s' !! t = Some (new_tcb (4096 * P) entry user_stack) →
     (∀ u, u ≠ t → core_tcb <$> tcb_table s' !! u = core_tcb <$> tcb_table k !! u) → same_system k s' → Post (Some t) (s', b)) →
  wp (kern (thread_create local entry (4096 * P) user_stack)) Post L (k <| mach := c |>, b).
Proof.
  intros ly S [K Lk La Fr [Q1 Q2]] HP. destruct (space_created Hn ly c b dat S) as [S' M'].
  set (m := set_phys _ c) in S', M'. unfold kern. apply wp_zoom. cbn [fst snd].
  assert (EP : space_of (k <| mach := c |>) (4096 * P) = 4096 * P).
  { unfold space_of, CURRENT_ROOT_PMAP. destruct (Z.eqb_spec (4096 * P) 0xFFFFFFFF); [lia|done]. }
  eapply (wp_thread_create (k <| mach := c |>) Q local entry (4096 * P) user_stack t m); try done.
  - apply (kinv_same k); [repeat split|done].
  - rewrite EP. apply wp_run. intros Q' L' HQ'. eapply wp_initialize_root_pmap; [by eapply kmap_of, sp_agree|by eapply loader_new_space|]. exact HQ'.
  - intros s' K' C. rewrite EP in C.
    assert (Hu : ∀ u, core_tcb <$> tcb_table s' !! u = tcb_table (upd t (λ _, new_tcb (4096 * P) entry user_stack) (core k)) !! u).
    { intros u. by rewrite <- core_lookup, C. }
    assert (Em : mach s' = m) by (change (mach s') with (mach (core s')); by rewrite C).
    destruct Fr as (_ & Hin & _). apply fmap_Some in Hin as (tc & Htc & _).
    apply HP; [by rewrite Em|by rewrite Em|done| | |].
    + by rewrite Hu, lookup_upd, core_lookup, Htc.
    + intros u Hne. by rewrite Hu, lookup_upd_ne, core_lookup.
    + change (same_system k (core s')). by rewrite C.
Qed.

(** The pages of the sections are where they should be. *)
Definition all_placed (c0 c : machine) (dat : list Z) (img : Z) (image : elf_header_t) : Prop :=
  ∀ j o, 0 <= j < shnum image → allocated (section_at c0 img image j) → 0 <= o < section_bytes (section_at c0 img image j) →
    placed P c dat img (section_at c0 img image j) o.

Lemma wp_load_elf_exe k b Q t img image user_stack (Post : option Z → kstate * boot_state → Prop) L :
  loadable (mach k) b img image → can_create k Q t →
  (∀ s', exhausted kphys_start ksize info (snd s') → kinv (fst s') (enq PausedQ t Q) → same_system k (fst s') → Post None s') →
  (∀ k' b' dat, space kphys_start ksize info (mach k) P kt base tabs lpas (mach k') b' dat → all_placed (mach k) (mach k') dat img image →
     loaded k Q t img image user_stack k' → Post (Some t) (k', b')) →
  wp (load_elf_exe kphys_start ksize info local img (4096 * P) user_stack) Post L (k, b).
Proof.
  intros [ly S [[R1 R2] Ap Im Va FO] Un] CC HX HP. unfold load_elf_exe.
  wp_step. change SIZEOF_ELF_HEADER with (Z.of_nat 52). apply wp_mm.
  eapply wp_peek_local; [exact ly|exact S|rewrite length_consec; lia|done|done|exact Ap|]. intros c1 S1 M1.
  rewrite <- Im, Va. cbn [negb]. wp_step. eapply wp_create; [exact ly|exact S1|exact CC|].
  intros s2 S2 M2 K2 T2 O2 Y2. wp_step.
  replace (s2, b) with (s2 <| mach := mach s2 |>, b) by (by destruct s2).
  eapply wp_load_sections; [exact ly|exact FO|rewrite length_consec; lia|exact S2|lia| | | |].
  - rewrite Im. cbn [elf_header_of shnum]. pose proof (get16_nonneg (phys (mach k)) img 52 48). lia.
  - intros u Hu. assert (UA : user_address u).
    { pose proof Hu as (j & Hj & Aj & Ij). eapply in_section_user; [|exact Ij]. by apply (fo_section _ _ _ _ FO). }
    rewrite M2, M1 by done. auto.
  - intros c' b' X. wp_step. apply HX; [exact X|apply (kinv_same s2); [repeat split|exact K2]|exact Y2].
  - intros c3 b3 dat S3 _ PL O3. wp_step. apply (HP _ b3 dat); [exact S3|exact PL|]. split.
    + apply (kinv_same s2); [repeat split|done].
    + done.
    + done.
    + done.
    + intros j o Hj Al Ho. eapply placed_byte; [exact S3|exact FO|done|done|done|]. by apply PL.
    + intros u Hu Nl. change (umap P c3 u = umap P (mach k) u). rewrite O3, M2, M1 by done. done.
Qed.

(** C7. Loading an executable with [load_elf_exe] returns.  It fails only when no
    frame is left.  Otherwise a thread is created, paused, with the entry point of
    the file and the given stack; every byte of the pages of a section of the new
    address space is that of the file, or zero for a section without contents; the
    other mappings below the kernel and the other threads are unchanged. *)
Theorem load_elf_exe_loads k b Q t img image user_stack :
  loadable (mach k) b img image → can_create k Q t →
  ∃ o s', load_elf_exe kphys_start ksize info local img (4096 * P) user_stack (k, b) = Ret o s' ∧
    (o = None ∧ exhausted kphys_start ksize info (snd s') ∨
     o = Some t ∧ loaded k Q t img image user_stack (fst s')).
Proof.
  intros LO CC. apply wp_ret_inv. eapply wp_load_elf_exe; [done|done| |].
  - intros s' X _ _. by left.
  - intros k' b' dat _ _ LD. by right.
Qed.
End load.

(** ** A small file

    It has a section with five bytes of contents at 4M and one without contents in
    the next page. *)

Definition section_header (type_ flags addr offset size : Z) : list Z :=
  le32 0 ++ le32 type_ ++ le32 flags ++ le32 addr ++ le32 offset ++ le32 size ++ replicate 16 0.

Definition exe_file : list Z :=
  [0x7F; 69; 76; 70; 1; 1; 1; 0; 0; 0; 0; 0; 0; 0; 0; 0; 2; 0; 3; 0] ++ le32 1 ++ le32 0x400000 ++ le32 0 ++ le32 52 ++ le32 0 ++
  [52; 0; 0; 0; 0; 0; 40; 0; 3; 0; 0; 0] ++
  section_header 0 0 0 0 0 ++ section_header 1 6 0x400000 0x1000 5 ++ section_header 8 3 0x401000 0x1005 100.

(** The machine of the paging examples with the file at 32K. *)
Definition exe_machine : machine :=
  set_phys (Machine.store_bytes (Machine.store_bytes demo_memory 0x8000 exe_file) 0x9000 [10; 20; 30; 40; 50]) demo.

Definition exe_info : multiboot_info :=
  {| mmap := [{| base_addr_low := 0; base_addr_high := 0; length_low := 0x10000000; length_high := 0; type := MBI_TYPE_AVAIL |}]; mods := [] |}.
Definition exe_boot : boot_state := {| first_free_page := 0x200000; can_alloc_frames := true |}.
Definition exe_kstate : kstate := boot <| mach := exe_machine |>.
Abbreviation exe_run := (load_elf_exe 0x100000 0x100000 exe_info 0x5100 0x8000 (4096 * 5) 0x7000 (exe_kstate, exe_boot)).

Lemma exe_file_length : length exe_file = 172%nat.
Proof. reflexivity. Qed.

Lemma exe_low a : a < 0x8000 → load8 (phys exe_machine) a = load8 demo_memory a.
Proof.
  intros Ha. unfold exe_machine. cbn [phys set_phys]. rewrite !load8_store_bytes, exe_file_length.
  rewrite !decide_False; [done|lia|cbn; lia].
Qed.

Lemma exe_empty a : 0x5000 <= a < 0x6000 → load8 (phys exe_machine) a = 0.
Proof.
  intros Ha. rewrite exe_low by lia. unfold demo_memory. rewrite load8_store_bytes, decide_False by (cbn; lia).
  rewrite !load8_store32_ne by lia. reflexivity.
Qed.

Lemma exe_pde i : user_index i → pde_at 5 exe_machine i = 0.
Proof. intros Hi. unfold pde_at, load32, user_index in *. rewrite !exe_empty by lia. reflexivity. Qed.

Abbreviation exe_loads := (loads 0x100000 0x100000 exe_info 5 2 0x200000 [] (consec 0x4100 536)).

Lemma exe_not_loads a : a < 0x5000 ∨ 0x6000 <= a < 0x200000 → ¬ (0x2644 <= a < 0x2648) → ¬ (0x4100 <= a < 0x4318) → ¬ exe_loads a.
Proof.
  intros H1 H2 H3 [H|[H|[H|[(T & H & _)|(f & [Hf _] & H)]]]].
  - unfold in_frame in H. lia.
  - unfold slot0 in H. lia.
  - apply elem_of_consec in H. lia.
  - by apply elem_of_nil in H.
  - unfold in_frame in H. lia.
Qed.

Lemma exe_agree : agree (λ a, 0x8000 <= a) demo exe_machine.
Proof. split; [done|]. intros a Ha. apply exe_low. lia. Qed.

Lemma exe_layout : layout 0x100000 0x100000 exe_info 0x5100 exe_machine 5 2 0x200000 [] (consec 0x4100 536).
Proof.
  assert (C : cr3 exe_machine / 4096 = 1) by reflexivity.
  assert (WF : walk_free demo 0x5100 536 (λ a, 0x8000 <= a)) by (apply demo_walk_free; lia).
  assert (NF : ∀ f, f < 512 → ¬ fresh 0x100000 0x100000 exe_info 0x200000 f) by (intros f Hf [H _]; lia).
  split; rewrite ?C.
  - split; vm_compute; done || lia.
  - split_and!; try lia; [apply not_elem_of_nil|apply NF; lia].
  - split; [apply not_elem_of_nil|apply NF; lia].
  - split; [apply not_elem_of_nil|apply NF; lia].
  - intros T HT. by apply elem_of_nil in HT.
  - eapply agree_vmap; [apply exe_agree|by rewrite length_consec|]. apply (demo_vmap 0x5100 536); lia.
  - rewrite length_consec. eapply (agree_walk_free_any _ _ demo); [apply exe_agree|done|].
    apply demo_walk_free; [lia|lia|]. intros a Ha. apply exe_not_loads; lia.
  - apply NoDup_fmap_2_strong; [intros i j _ _ E; lia|apply NoDup_seq].
  - lia.
  - intros a Ha. apply elem_of_consec in Ha. unfold in_frame, slot0. split_and!; try lia.
    + intros T HT. by apply elem_of_nil in HT.
    + intros f [Hf _]. lia.
Qed.

Lemma exe_space : space 0x100000 0x100000 exe_info exe_machine 5 2 0x200000 [] (consec 0x4100 536) exe_machine exe_boot [].
Proof.
  split.
  - apply agree_refl.
  - reflexivity.
  - vm_compute. split; [split|]; discriminate || reflexivity.
  - vm_compute. discriminate.
  - intros i Hi. rewrite exe_pde by exact Hi. reflexivity.
  - intros i Hi. rewrite exe_pde by exact Hi. discriminate.
  - intros i j Hi Hj. rewrite (exe_pde i) by exact Hi. intros E. exfalso. revert E. apply Bool.diff_false_true.
  - intros f Hf. by apply elem_of_nil in Hf.
Qed.

Definition exe_image : elf_header_t := elf_header_of (load_bytes (phys exe_machine) 0x8000 52).

Lemma exe_shnum : shnum exe_image = 3.
Proof. vm_compute. reflexivity. Qed.

Definition exe_text : elf_sheader_t := {| sh_type := 1; sh_flags := 6; sh_addr := 0x400000; sh_offset := 0x1000; sh_size := 5 |}.
Definition exe_bss : elf_sheader_t := {| sh_type := 8; sh_flags := 3; sh_addr := 0x401000; sh_offset := 0x1005; sh_size := 100 |}.

Lemma exe_allocated i : 0 <= i < 3 → allocated (section_at exe_machine 0x8000 exe_image i) →
  i = 1 ∧ section_at exe_machine 0x8000 exe_image i = exe_text ∨ i = 2 ∧ section_at exe_machine 0x8000 exe_image i = exe_bss.
Proof.
  intros Hi Al. assert (i = 0 ∨ i = 1 ∨ i = 2) as [->|[->| ->]] by lia.
  - vm_compute in Al. discriminate.
  - left. split; [reflexivity|vm_compute; reflexivity].
  - right. split; [reflexivity|vm_compute; reflexivity].
Qed.

Lemma exe_text_ok : section_ok 0x8000 exe_text.
Proof. split; [by left|reflexivity|vm_compute; split_and!; discriminate|intros _; vm_compute; split_and!; discriminate || reflexivity]. Qed.

Lemma exe_bss_ok : section_ok 0x8000 exe_bss.
Proof. split; [by right|reflexivity|vm_compute; split_and!; discriminate|discriminate]. Qed.

Lemma exe_local : (52 <= 536)%nat.
Proof. lia. Qed.

Lemma exe_runs : match exe_run with Ret (Some 1) _ => true | _ => false end = true.
Proof. vm_compute. reflexivity. Qed.

(** It can be loaded wherever its own bytes are not written to. *)
Lemma exe_any_executable W : (∀ a, 0x8000 <= a < 0xA000 → ¬ W a) → executable exe_machine W 0x8000 exe_image.
Proof.
  intros HW. split; [lia|intros a Ha; apply HW; lia|reflexivity|vm_compute; reflexivity|]. split; rewrite exe_shnum.
  - intros i Hi. change (shoff exe_image) with 52. change (shentsize exe_image) with 40. cbv zeta.
    split_and!; [lia..|]. intros a Ha. apply HW. lia.
  - intros i Hi Al. destruct (exe_allocated i Hi Al) as [[_ E]|[_ E]]; rewrite E; [exact exe_text_ok|exact exe_bss_ok].
  - intros i j u Hi Hj Ai Aj. destruct (exe_allocated i Hi Ai) as [[Ei Si]|[Ei Si]], (exe_allocated j Hj Aj) as [[Ej Sj]|[Ej Sj]];
      [congruence| | |congruence]; rewrite Si, Sj; unfold in_section, section_bytes, exe_text, exe_bss; cbn [sh_addr sh_size]; intros; zdiv.
  - intros i o Hi Al Ty Ho. destruct (exe_allocated i Hi Al) as [[_ E]|[_ E]]; rewrite E in Ty, Ho |- *; [|discriminate Ty].
    unfold section_bytes, exe_text in *. cbn [sh_size sh_offset] in *. change ((5 + 4095) / 4096) with 1 in Ho. apply HW. lia.
Qed.

Lemma exe_loads_executable : executable exe_machine exe_loads 0x8000 exe_image.
Proof. apply exe_any_executable. intros a Ha. apply exe_not_loads; lia. Qed.

Lemma exe_loadable : loadable 0x100000 0x100000 exe_info 0x5100 0x4100 536 5 2 0x200000 [] exe_machine exe_boot 0x8000 exe_image.
Proof.
  split.
  - apply exe_layout.
  - apply exe_space.
  - apply exe_loads_executable.
  - intros u (j & Hj & Aj & Ij). assert (UA : user_address u).
    { eapply in_section_user; [|exact Ij]. apply (fo_section _ _ _ _ (ex_file _ _ _ _ exe_loads_executable)); assumption. }
    rewrite umap_unfold by lia. rewrite exe_pde by (apply user_address_index, UA). reflexivity.
Qed.

Lemma exe_can_create : can_create exe_kstate Q0 1.
Proof.
  split.
  - apply (kinv_same boot); [repeat split|apply kinv_boot].
  - reflexivity.
  - change (last_tid exe_kstate) with 0. unfold NUM_TCBS. lia.
  - change (last_tid exe_kstate) with 0. split; [unfold NUM_TCBS; lia|]. split; [by rewrite boot_tcb|]. lia.
  - split; reflexivity.
Qed.

Lemma load_elf_exe_loads_witness :
  ∃ s', exe_run = Ret (Some 1) s' ∧ loaded 5 exe_kstate Q0 1 0x8000 exe_image 0x7000 (fst s').
Proof.
  destruct (load_elf_exe_loads 0x100000 0x100000 exe_info 0x5100 0x4100 536 5 2 0x200000 [] exe_local exe_kstate exe_boot Q0 1 0x8000 exe_image 0x7000
    exe_loadable exe_can_create) as (o & s' & E & H).
  pose proof exe_runs as R. rewrite E in R.
  destruct H as [[-> _]|[-> H]]; [discriminate R|]. exists s'. split; [exact E|exact H].
Defined.
