(* ===== verification/LoaderBoot.v ===== *)
(** * Starting the initial server: the whole of bootstrap_init_server

    The address space, the executable, the thread and the data on its stack, put
    together from the state after start-up. *)

From S2P Require Import Prelude Bits Machine Paging PagingFacts PagingSpec Kernel KList Thread ThreadFacts ThreadSpec Message.
From S2P Require Import BootMemory Loader LoaderFacts LoaderSpec LoaderInit LoaderExe.

(** ** Writing to a page of another address space *)

Lemma wp_put_bytes (W : Z → Prop) bs : ∀ pas a c (Q : unit → machine → Prop) L,
  vmap c a pas → walk_free c a (length pas) W → NoDup pas → 0 <= a < 2 ^ 32 → Forall W pas → length pas = length bs → Forall (λ b, 0 <= b < 256) bs →
  (∀ c', agree (λ x, x ∈ pas) c c' → load8 (phys c') <$> pas = bs → Q tt c') →
  wp (put_bytes a bs) Q L c.
Proof.
  induction bs as [|b bs IH]; intros [|pa pas] a c Q L V F ND Ha HW EL Hb HQ; try done; cbn [put_bytes].
  { wp_step. apply HQ; [apply agree_refl|done]. }
  wp_step. eapply wp_vstore8; [by eapply vmap_head|]. set (c1 := set_phys _ c).
  apply NoDup_cons in ND as [N1 N2]. apply Forall_cons in HW as [W1 W2]. apply Forall_cons in Hb as [B1 B2].
  assert (A : agree (λ x, x = pa) c c1) by (split; [done|]; intros x Hx; apply load8_store8_ne; congruence).
  assert (AW : agree W c c1) by (eapply agree_mono; [|exact A]; by intros x ->).
  eapply IH; [eapply agree_vmap; [exact AW|by apply walk_free_tail|by eapply vmap_tail]|
    eapply agree_walk_free; [exact AW|by apply walk_free_tail]|done|by apply wrap_range|done|cbn in EL; lia|done|].
  intros c' A' E'. apply HQ.
  - eapply agree_trans; eapply agree_mono; [|exact A| |exact A']; intros x Hx; apply elem_of_cons; [by left|by right].
  - cbn [fmap list_fmap]. f_equal; [|exact E']. rewrite (proj2 A') by done. cbn [c1 phys set_phys]. rewrite load8_store8_eq. by apply wrap_small.
Qed.

(** The bytes of [bs] are in memory from [p] on. *)
Definition bytes_in (c : machine) (p : Z) (bs : list Z) : Prop := load_bytes (phys c) p (length bs) = bs.

Section page.
Context (kt P T f : Z) (va : Z) (c : machine).
Hypothesis K : kmap c kt.
Hypothesis HP : 0 <= P < 2 ^ 20 ∧ P ≠ kt ∧ P ≠ cr3 c / 4096.
Hypothesis Hva : 0 < va < 2 ^ 32.
Abbreviation pde := (load32 (phys c) (4096 * P + 4 * (va / 2 ^ 22))).
Abbreviation pte := (load32 (phys c) (4096 * T + 4 * ((va / 4096) mod 1024))).
Hypothesis Hpde : ent_present pde = true ∧ ent_page_size pde = false ∧ ent_frame pde = T.
Hypothesis Hpte : ent_present pte = true ∧ ent_frame pte = f.
Hypothesis HT : T ≠ kt.

Lemma wp_access_mem_base (Q : Z + Z → machine → Prop) L :
  (∀ c', agree (slot_bytes kt) c c' → kmap c' kt → Q (inl (4096 * f)) c') → wp (access_mem_base va (4096 * P)) Q L c.
Proof.
  intros HQ. destruct HP as (P1 & P2 & P3), Hpde as (D1 & D2 & D3), Hpte as (E1 & E2).
  assert (KA : ∀ m m', kmap m kt → agree (slot_bytes kt) m m' → kmap m' kt).
  { intros m [m' r] Km [Er Am]. cbn [cr3] in Er. subst r. pose proof (kmap_distinct _ _ Km).
    apply (kmap_frame m kt m' Km); unfold load32; cbn [phys] in Am; rewrite !Am; try done; unfold slot_bytes, slot0; lia. }
  unfold access_mem_base. rewrite PDE_INDEX_alt by lia. wp_step. eapply wp_read_entry; [exact K|done|zdiv|done|]. intros c1 A1.
  change (pde_is_present pde) with (ent_present pde). change (pde_is_page_sized pde) with (ent_page_size pde). rewrite D1, D2.
  change (pde_base pde) with (ent_frame pde). rewrite D3, PTE_INDEX_alt by lia. change (2 ^ 12) with 4096.
  assert (RT : 0 <= T < 2 ^ 20) by (rewrite <- D3; apply ent_frame_range). rewrite PBASE_TO_PADDR_alt by done.
  wp_step. eapply wp_read_entry; [by eapply KA|done|zdiv|done|]. intros c2 A2.
  rewrite (agree_word_free _ _ _ _ A1) by (unfold slot_bytes, slot0; intros j Hj; zdiv).
  change (pte_is_present pte) with (ent_present pte). rewrite E1. wp_step.
  replace (PTE_BASE pte) with (4096 * f); [apply HQ; [by eapply agree_trans|eapply KA; [by eapply KA|done]]|].
  rewrite <- E2. symmetry. unfold PTE_BASE. apply PBASE_TO_PADDR_alt, ent_frame_range.
Qed.

(** [poke_virt] of a block that lies in one page. *)
Lemma wp_poke_virt_page local pas W (Q : Z → machine → Prop) L :
  local_block c kt local pas W → (∀ a, in_frame f a → W a) → (∀ a, a ∈ pas → ¬ in_frame f a) →
  f ≠ kt → f ≠ cr3 c / 4096 → (0 < length pas)%nat → va mod 4096 + Z.of_nat (length pas) <= 4096 →
  (∀ c', agree (λ a, in_frame f a ∨ slot_bytes kt a) c c' → bytes_in c' (4096 * f + va mod 4096) (load8 (phys c) <$> pas) → Q E_OK c') →
  wp (poke_virt va (Z.of_nat (length pas)) local (4096 * P)) Q L c.
Proof.
  intros LB WF PF F1 F2 Hn Hfit HQ. destruct HP as (P1 & P2 & P3). pose proof (kmap_cr3 _ _ K) as Hcr.
  assert (Rf : 0 <= f < 2 ^ 20) by (destruct Hpte as (_ & <-); apply ent_frame_range).
  unfold poke_virt, get_root_page_map. wp_step. wp_step. rewrite land_base_mask by done.
  destruct (Z.eqb_spec (4096 * P) (4096 * (cr3 c / 4096))) as [|_]; [lia|].
  destruct (Z.eqb_spec (4096 * P) CURRENT_ROOT_PMAP) as [E|_]; [unfold CURRENT_ROOT_PMAP in E; lia|]. cbn [orb].
  unfold access_mem. wp_step. apply wp_kassert; [by destruct (Z.eqb_spec va 0); [lia|]|].
  cbn [access_mem_loop]. destruct (Z.eqb_spec (Z.of_nat (length pas)) 0) as [|_]; [lia|]. cbv zeta.
  change (Z.land va (PAGE_SIZE - 1)) with (PAGE_OFFSET va). rewrite PAGE_OFFSET_alt.
  destruct (Z.ltb_spec (PAGE_SIZE - va mod 4096) (Z.of_nat (length pas))) as [|_]; [unfold PAGE_SIZE in *; lia|].
  wp_step. apply wp_access_mem_base. intros c1 A1 K1.
  assert (SW : ∀ a, slot_bytes kt a → W a) by (intros a Ha; apply (lb_written _ _ _ _ _ LB); by right).
  assert (LB1 : local_block c1 kt local pas W) by (eapply local_block_agree; [done|by eapply agree_mono]).
  rewrite Z.add_0_r, (wrap_small 32 local) by apply LB. rewrite wrap_small by zdiv.
  wp_step. eapply wp_poke; [exact K1|zdiv|zdiv|apply LB|lia| | |].
  { unfold apart. rewrite (proj1 A1). unfold slot0. zdiv. }
  { assert (TW : ∀ a, touched kt (4096 * f + va mod 4096) (Z.of_nat (length pas)) a → W a ∧ (in_frame f a ∨ slot_bytes kt a)).
    { intros a [Ha|Ha]; [|split; [by apply SW|by right]]. assert (in_frame f a) by (unfold in_frame; zdiv). auto. }
    split; [apply LB1|eapply walk_free_mono; [|apply LB1]; intros a Ha; by apply TW|].
    apply Forall_forall. intros a Ha [_ [H|H]]%TW; [by apply (PF a)|by apply (lb_slot _ _ _ _ _ LB a)]. }
  change (is_error E_OK) with false. cbv iota. rewrite Z.sub_diag. destruct (Z.to_nat (Z.of_nat (length pas))) eqn:EN; [lia|].
  cbn [access_mem_loop]. change (0 =? 0) with true. cbv iota. wp_step.
  rewrite (fmap_load8_agree (slot_bytes kt) c c1) by (done || (apply Forall_forall; apply LB)).
  assert (EL : length (load8 (phys c) <$> pas) = length pas) by apply length_fmap. apply HQ.
  - eapply agree_trans; [eapply agree_mono; [|exact A1]; by right|]. split; [done|]. intros a Ha. apply load8_poked.
    rewrite EL. intros [H|H]; apply Ha; [left; unfold in_frame; zdiv|by right].
  - unfold bytes_in. etrans; [|apply (load_bytes_store_bytes (phys c1) (4096 * f + va mod 4096)), load8_bytes].
    unfold load_bytes. apply list_fmap_ext. intros i x [-> Hi]%lookup_seq. rewrite EL in Hi. apply load8_store32_ne. unfold slot0. zdiv.
Qed.
End page.

(** ** The state after start-up *)

Section boot.
Context (kphys_start ksize : Z) (info : multiboot_info) (local lp : Z) (kt base : Z).
Abbreviation lpas := (consec lp 536).
Abbreviation boot_writes := (boot_writes kphys_start ksize info kt base lpas).
Abbreviation booting := (booting kphys_start ksize info local kt base lpas).
Abbreviation exhausted := (exhausted kphys_start ksize info).
Abbreviation top := INIT_SERVER_STACK_TOP.

Lemma booting_block c b : booting c b → local_block c kt local lpas boot_writes.
Proof.
  intros [B1 B2 B3 B4 B5 B6 B7 B8 B9 B10 B11]. split; [done..|intros a [Ha|Ha]; [by right; left|by left]| |]; intros a Ha; apply B11 in Ha; tauto.
Qed.

Lemma booting_kmap c b c' : booting c b → agree boot_writes c c' → kmap c' kt.
Proof.
  intros B A. destruct c' as [m r]. destruct (A) as [E _]. cbn [cr3] in E. subst r.
  pose proof (bt_kmap _ _ _ _ _ _ _ _ _ B) as K. pose proof (kmap_distinct _ _ K) as D.
  assert (N : ∀ a, in_frame (cr3 c / 4096) a → ¬ boot_writes a).
  { intros a Ha [H|[H|(f & Hf & H)]].
    - apply D. apply slot0_in_frame in H. by eapply in_frame_inj.
    - apply (bt_lpas _ _ _ _ _ _ _ _ _ B) in H. tauto.
    - apply (bt_dir _ _ _ _ _ _ _ _ _ B). by rewrite (in_frame_inj _ _ _ Ha H). }
  apply (kmap_frame c kt m K); apply (agree_word_free boot_writes c _ _ A); intros k Hk; apply N; unfold in_frame; lia.
Qed.

Lemma booting_agree c b c' : booting c b → agree boot_writes c c' → booting c' b.
Proof.
  intros B A. pose proof (booting_kmap _ _ _ B A) as K. destruct (local_block_agree _ _ _ _ _ _ (booting_block _ _ B) A) as [V F _ _ _ _ _].
  destruct B. split; try done; rewrite (proj1 A); done.
Qed.

(** An executable stays one while [W] is written. *)
Lemma executable_agree c c' (W W' : Z → Prop) img image :
  executable c W img image → agree W c c' → (∀ a, W' a → W a) →
  executable c' W' img image ∧ ∀ i, 0 <= i < shnum image → section_at c' img image i = section_at c img image i.
Proof.
  intros [E1 E2 E3 E4 FO] A Sub.
  assert (ES : ∀ i, 0 <= i < shnum image → section_at c' img image i = section_at c img image i).
  { intros i Hi. destruct (fo_header _ _ _ _ FO i Hi) as (_ & _ & H). unfold section_at. f_equal. by eapply agree_load_bytes. }
  split; [|done]. split; [done|intros a Ha H; by apply (E2 a Ha), Sub| |done|].
  - rewrite E3. f_equal. symmetry. by eapply agree_load_bytes.
  - destruct FO as [F1 F2 F3 F4]. split.
    + intros i Hi. destruct (F1 i Hi) as (H1 & H2 & H3). split_and!; [done..|]. intros a Ha H. by apply (H3 a Ha), Sub.
    + intros i Hi. rewrite ES by done. by apply F2.
    + intros i j u Hi Hj. rewrite (ES i), (ES j) by done. by apply F3.
    + intros i o Hi. rewrite ES by done. intros H1 H2 H3 H4. by apply (F4 i o Hi H1 H2 H3), Sub.
Qed.

Lemma stack_args_bytes i n m : length (stack_args i n m) = 536%nat ∧ Forall (λ b, 0 <= b < 256) (stack_args i n m).
Proof.
  assert (LE : ∀ v, Forall (λ b, 0 <= b < 256) (le32 v)) by (intros v; repeat constructor; apply (wrap_range 8); lia).
  split; [done|]. unfold stack_args. repeat (apply Forall_app; split; [apply LE|]). apply Forall_app. split; [|repeat constructor; lia].
  apply Forall_replicate. lia.
Qed.

(** A mapping, taken apart. *)
Lemma umap_walk c b dat c0 P kb tabs va pa :
  space kphys_start ksize info c0 P kt kb tabs lpas c b dat → 0 <= P → user_address va → umap P c va = Some pa →
  let pde := load32 (phys c) (4096 * P + 4 * (va / 2 ^ 22)) in
  let pte := load32 (phys c) (4096 * ent_frame pde + 4 * ((va / 4096) mod 1024)) in
  (ent_present pde = true ∧ ent_page_size pde = false) ∧ ent_present pte = true ∧ 4096 * ent_frame pte + va mod 4096 = pa.
Proof.
  intros S HP Hva U pde pte. rewrite umap_unfold in U by done. cbv zeta in U.
  change (pde_at P c (va / 2 ^ 22)) with pde in U. fold pte in U.
  pose proof (sp_small S _ (user_address_index _ Hva)) as Sm. change (ent_page_size pde = false) in Sm. rewrite Sm in U.
  destruct (ent_present pde); [|done]. destruct (ent_present pte); [|done]. split_and!; [done..|]. congruence.
Qed.

(** ** The thread *)

Lemma wp_start_new k Q t pmap entry_addr stack (Post : Z → kstate → Prop) L :
  kinv k (enq PausedQ t Q) → 0 < t < NUM_TCBS → core_tcb <$> tcb_table k !! t = Some (new_tcb pmap entry_addr stack) →
  (∀ k', kinv k' (enq (RunQ NORMAL_PRIORITY) t (enq PausedQ t Q)) → core k' = upd t (λ tc, tc <| thread_state := READY |>) (core k) → Post E_OK k') →
  wp (thread_start t) Post L k.
Proof.
  intros K Ht E HP. apply fmap_Some in E as (tc & Htc & Ec).
  assert (Es : thread_state tc = PAUSED) by (change (thread_state tc) with (thread_state (core_tcb tc)); by rewrite <- Ec).
  assert (Ep : priority tc = NORMAL_PRIORITY) by (change (priority tc) with (priority (core_tcb tc)); by rewrite <- Ec).
  eapply wp_thread_start; [done|done|done|]. rewrite Es, Ep. intros k' [K' C]. rewrite Es in C. by apply HP.
Qed.

(** ** The end of the start *)

Section tail.
Context (c c1 c3 : machine) (b b1 b3 : boot_state) (P T0 T1 : Z) (fs dat : list Z) (f0 : Z).
Hypothesis B : booting c b.
Hypothesis HP : 0 <= P < 2 ^ 20.
Hypothesis ss : server_space kphys_start ksize info local kt base lpas c c1 b1 P T0 T1 fs.
Hypothesis S3 : space kphys_start ksize info c1 P kt (limit b1) [T0; T1] lpas c3 b3 dat.
Hypothesis F0 : fs !! 0%nat = Some f0.

Lemma server_writes a : loads kphys_start ksize info P kt (limit b1) [T0; T1] lpas a → boot_writes a.
Proof.
  destruct (ss_frames _ _ _ _ _ _ _ _ _ _ _ _ _ _ ss) as (FP & FT0 & FT1 & _ & _ & HB).
  intros [H|[H|[H|[(T & HT & H)|(f & [H1 H2] & H)]]]].
  - right; right. by exists P.
  - by left.
  - by right; left.
  - right; right. exists T. split; [|done]. apply elem_of_cons in HT as [->|HT]; [done|]. by apply list_elem_of_singleton in HT as ->.
  - right; right. exists f. split; [split; [lia|done]|done].
Qed.

Lemma server_agree : agree boot_writes c c3.
Proof.
  eapply agree_trans; [apply (ss_agree _ _ _ _ _ _ _ _ _ _ _ _ _ _ ss)|]. eapply agree_mono; [apply server_writes|apply (sp_agree S3)].
Qed.

(** What is written at the end. *)
Definition tail_writes (a : Z) : Prop := a ∈ lpas ∨ in_frame f0 a ∨ slot_bytes kt a.

Lemma tail_boot a : tail_writes a → boot_writes a.
Proof.
  destruct (ss_stack _ _ _ _ _ _ _ _ _ _ _ _ _ _ ss _ _ F0) as (FF & _).
  intros [H|[H|H]]; [by right; left|right; right; by exists f0|by left].
Qed.

Lemma tail_idle a : tail_writes a → idle_byte kphys_start ksize info P (limit b1) [T0; T1] b3 dat a.
Proof.
  destruct (ss_stack _ _ _ _ _ _ _ _ _ _ _ _ _ _ ss _ _ F0) as (_ & LF & NP & N0 & N1 & _).
  pose proof (ss_layout _ _ _ _ _ _ _ _ _ _ _ _ _ _ ss) as ly.
  assert (FR : ∀ g, fresh kphys_start ksize info (limit b1) g → g ≠ f0) by (intros g [H _] ->; lia).
  intros [H|[H|H]].
  - eapply idle_local; [exact ly| |done]. intros f Hf. by eapply sp_fresh.
  - split_and!.
    + intros G%in_dir_frame. apply NP. by eapply in_frame_inj.
    + intros T HT G. assert (T = f0) as -> by by eapply in_frame_inj. destruct HT as [HT|[HT _]]; [|by apply (FR f0)].
      apply elem_of_cons in HT as [?|HT]; [done|]. by apply list_elem_of_singleton in HT.
    + intros f Hf G. assert (f = f0) as -> by by eapply in_frame_inj. by apply (FR f0); [eapply sp_fresh|].
  - eapply idle_slot; [exact ly| |done]. intros f Hf. by eapply sp_fresh.
Qed.

Lemma tail_umap c5 u : agree tail_writes c3 c5 → user_address u → umap P c5 u = umap P c3 u.
Proof.
  intros A Hu. eapply umap_frame; [apply (ss_layout _ _ _ _ _ _ _ _ _ _ _ _ _ _ ss)|exact S3|exact A|exact tail_idle|done].
Qed.

(** The bytes of the sections stay. *)
Lemma tail_byte c5 img image j o :
  agree tail_writes c3 c5 → executable c boot_writes img image → all_placed P c1 c3 dat img image →
  0 <= j < shnum image → let sh := section_at c img image j in
  allocated sh → 0 <= o < section_bytes sh → byte_at P c5 (sh_addr sh + o) = Some (file_byte c img sh o).
Proof.
  intros A5 EX PL Hj sh Al Ho. pose proof (ex_file _ _ _ _ EX) as FO.
  destruct (executable_agree _ c1 _ boot_writes _ _ EX (ss_agree _ _ _ _ _ _ _ _ _ _ _ _ _ _ ss)) as [_ ES]; [done|]. specialize (ES j Hj). fold sh in ES.
  assert (UA : user_address (sh_addr sh + o)).
  { eapply in_section_user; [by apply (fo_section _ _ _ _ FO)|]. unfold in_section. fold sh. lia. }
  pose proof (PL j o Hj) as G. rewrite ES in G. specialize (G Al Ho). unfold byte_at, file_byte.
  rewrite tail_umap by done. destruct G as [[Ty U]|(Ty & f & pa & Hf & Hp & U)]; rewrite U, Ty; cbn [fmap option_fmap option_map].
  - change (SHT_PROGBITS =? SHT_PROGBITS) with true. cbv iota. f_equal.
    assert (NB : ¬ boot_writes (img + sh_offset sh + o)) by by apply (fo_bytes _ _ _ _ FO).
    rewrite (proj2 A5) by (intros H; by apply NB, tail_boot). by apply server_agree.
  - change (SHT_NOBITS =? SHT_PROGBITS) with false. cbv iota. f_equal. rewrite (proj2 A5).
    + by apply (sp_dat S3 f Hf).
    + intros H. apply tail_idle in H as (_ & _ & H). by apply (H f Hf).
Qed.

Definition fxsave_area : Z := top - SIZEOF_INIT_STACK_ARGS + FXSAVE_OFFSET.

Lemma wp_poke_args c4 (Q : Z → machine → Prop) L :
  agree (λ a, a ∈ lpas) c3 c4 → (∀ o, 0 <= o < 4096 → umap P c3 (stack_page 0 + o) = Some (4096 * f0 + o)) →
  (∀ c5, agree tail_writes c3 c5 → bytes_in c5 (4096 * f0 + 3560) (load8 (phys c4) <$> lpas) → Q E_OK c5) →
  wp (poke_virt (u32 (top - SIZEOF_INIT_STACK_ARGS)) SIZEOF_INIT_STACK_ARGS local (4096 * P)) Q L c4.
Proof.
  intros A4 U HQ.
  assert (T4 : agree tail_writes c3 c4) by (eapply agree_mono; [|exact A4]; intros a Ha; by left).
  assert (B4 : agree boot_writes c c4) by (eapply agree_trans; [apply server_agree|]; eapply agree_mono; [apply tail_boot|exact T4]).
  assert (S4 : space kphys_start ksize info c1 P kt (limit b1) [T0; T1] lpas c4 b3 dat).
  { eapply space_idle; [exact S3|exact A4|]. intros a Ha. split; [by do 2 right; left|]. apply tail_idle. by left. }
  pose proof (ss_layout _ _ _ _ _ _ _ _ _ _ _ _ _ _ ss) as ly. destruct (ly_space ly) as (_ & PK & PD & _).
  assert (UA : user_address (top - SIZEOF_INIT_STACK_ARGS)) by (by vm_compute).
  destruct (umap_walk c4 b3 dat c1 P (limit b1) [T0; T1] (top - SIZEOF_INIT_STACK_ARGS) (4096 * f0 + 3560) S4) as ([D1 D2] & E1 & E2); [lia|done| |].
  { rewrite tail_umap by done. exact (U 3560 ltac:(lia)). }
  change ((top - SIZEOF_INIT_STACK_ARGS) mod 4096) with 3560 in E2.
  set (pde := load32 (phys c4) (4096 * P + 4 * ((top - SIZEOF_INIT_STACK_ARGS) / 2 ^ 22))) in *.
  destruct (sp_table S4 _ (user_address_index _ UA) D1) as [HT _]. destruct (table_frames ly _ _ HT) as (NT & _).
  destruct (ss_stack _ _ _ _ _ _ _ _ _ _ _ _ _ _ ss _ _ F0) as (FF & _).
  change (u32 (top - SIZEOF_INIT_STACK_ARGS)) with (top - SIZEOF_INIT_STACK_ARGS).
  change (poke_virt (top - SIZEOF_INIT_STACK_ARGS) SIZEOF_INIT_STACK_ARGS) with (poke_virt (top - SIZEOF_INIT_STACK_ARGS) (Z.of_nat 536)).
  rewrite <- (length_consec lp 536) at 1.
  apply (wp_poke_virt_page kt P (ent_frame pde) f0 (top - SIZEOF_INIT_STACK_ARGS) c4) with (W := boot_writes); rewrite ?length_consec.
  - by eapply booting_kmap.
  - split_and!; [lia..|done|]. by rewrite (sp_cr3 _ _ _ S4).
  - by vm_compute.
  - done.
  - split; [done|]. lia.
  - done.
  - eapply (local_block_agree c); [by eapply booting_block|exact B4].
  - intros a Ha. right; right. by exists f0.
  - intros a Ha. by apply (bt_lpas _ _ _ _ _ _ _ _ _ B).
  - intros ->. by apply (bt_table _ _ _ _ _ _ _ _ _ B).
  - rewrite (proj1 B4). intros ->. by apply (bt_dir _ _ _ _ _ _ _ _ _ B).
  - lia.
  - by vm_compute.
  - intros c5 A5 E5. apply HQ; [|exact E5]. eapply agree_trans; [exact T4|]. eapply agree_mono; [|exact A5]. intros a [H|H]; [by right; left|by right; right].
Qed.

(** The data on the stack. *)
Lemma wp_hand_over k Q t info_addr size (Post : Z → lst → Prop) L :
  mach k = c3 → kinv k Q → 0 < t < NUM_TCBS → (∀ o, 0 <= o < 4096 → umap P c3 (stack_page 0 + o) = Some (4096 * f0 + o)) →
  let b' := {| first_free_page := first_free_page b3; can_alloc_frames := false |} in
  (∀ k', agree tail_writes c3 (mach k') → bytes_in (mach k') (4096 * f0 + 3560) (stack_args info_addr (first_free_page b3) size) →
     kinv k' Q → init_server_thread k' = init_server_thread k →
     (∀ u, core_tcb <$> tcb_table k' !! u = tcb_table (upd t (λ tc, tc <| fxsave_state := Some fxsave_area |>) (core k)) !! u) →
     same_system k k' → Post E_OK (k', b')) →
  wp (let* b := gets snd in
      mm (put_bytes local (stack_args info_addr (first_free_page b) size)) ;;
      kern (upd_tcb t (λ tc, tc <| fxsave_state := Some fxsave_area |>)) ;;
      modify (λ s, (fst s, {| first_free_page := first_free_page (snd s); can_alloc_frames := false |})) ;;
      let* r := mm (poke_virt (u32 (top - SIZEOF_INIT_STACK_ARGS)) SIZEOF_INIT_STACK_ARGS local (4096 * P)) in
      ret (if is_error r then E_FAIL else E_OK)) Post L (k, b3).
Proof.
  intros Ek K Ht U b' HQ. pose proof (local_block_agree _ _ _ _ _ _ (booting_block _ _ B) server_agree) as LB.
  destruct (stack_args_bytes info_addr (first_free_page b3) size) as [SL SB].
  wp_step. wp_step. cbn [snd]. wp_step. apply wp_mm. rewrite Ek.
  eapply (wp_put_bytes boot_writes _ lpas); [apply LB|apply LB|apply LB|apply LB| |by rewrite length_consec|exact SB|].
  { apply Forall_forall. intros a Ha. by right; left. }
  intros c4 A4 E4. wp_step. unfold kern. apply wp_zoom. cbn [fst snd].
  eapply (wp_upd_quiet _ Q); [by repeat split|by apply (kinv_same k); [repeat split|]|lia|]. intros k5 K5 C5.
  wp_step. wp_step. cbn [fst snd]. fold b'. wp_step. apply wp_mm.
  assert (Em : mach k5 = c4) by (change (mach k5) with (mach (core k5)); by rewrite C5). rewrite Em.
  eapply wp_poke_args; [exact A4|exact U|]. intros c5 A5 E5. rewrite E4 in E5. wp_step. apply HQ.
  - exact A5.
  - exact E5.
  - apply (kinv_same k5); [repeat split|done].
  - change (init_server_thread (core k5) = init_server_thread k). by rewrite C5.
  - intros u. change (core_tcb <$> tcb_table k5 !! u = tcb_table (upd t (λ tc, tc <| fxsave_state := Some fxsave_area |>) (core k)) !! u).
    by rewrite <- core_lookup, C5.
  - change (same_system k (core k5)). by rewrite C5.
Qed.
End tail.

(** ** The whole *)

(** The sections are between the memory below 640K and the stack. *)
Definition between (c : machine) (img : Z) (image : elf_header_t) : Prop :=
  ∀ u, later_section c img image 0 u → VGA_RAM <= u < stack_page 127.

(** The state in which the initial server [t] is ready to run in the address space
    with the directory [P]. *)
Record started (k : kstate) (Q : queues) (t img : Z) (image : elf_header_t) (info_addr P : Z) (k' : kstate) (b' : boot_state) : Prop := {
  st_kinv : kinv k' (enq (RunQ NORMAL_PRIORITY) t (enq PausedQ t Q));
  st_server : init_server_thread k' = Some t;
  st_thread : core_tcb <$> tcb_table k' !! t =
    Some ((new_tcb (4096 * P) (entry image) (top - SIZEOF_INIT_STACK_ARGS)) <| thread_state := READY |> <| fxsave_state := Some fxsave_area |>);
  st_threads : ∀ u, u ≠ t → core_tcb <$> tcb_table k' !! u = core_tcb <$> tcb_table k !! u;
  st_system : same_system k k';
  st_memory : agree boot_writes (mach k) (mach k');
  st_frames : can_alloc_frames b' = false;
  st_bytes : ∀ j o, 0 <= j < shnum image → allocated (section_at (mach k) img image j) → 0 <= o < section_bytes (section_at (mach k) img image j) →
    byte_at P (mach k') (sh_addr (section_at (mach k) img image j) + o) = Some (file_byte (mach k) img (section_at (mach k) img image j) o);
  st_low : ∀ u, 0 <= u < VGA_RAM → umap P (mach k') u = Some u;
  st_stack : ∀ u, stack_page 127 <= u < top → is_Some (umap P (mach k') u);
  st_args : ∀ i v, stack_args info_addr (first_free_page b') (4096 * 128) !! i = Some v →
    byte_at P (mach k') (top - SIZEOF_INIT_STACK_ARGS + Z.of_nat i) = Some v
}.

(** The state in which there is no server: at most a thread [t] that is paused. *)
Definition stalled (k : kstate) (Q : queues) (t : Z) (k' : kstate) : Prop :=
  same_system k k' ∧ (kinv k' Q ∨ kinv k' (enq PausedQ t Q)).

Lemma can_create_mach k Q t c : can_create k Q t → can_create (k <| mach := c |>) Q t.
Proof. intros [K ? ? ? ?]. split; try done. by apply (kinv_same k); [repeat split|]. Qed.

Lemma server_space_from c c' c1 b1 P T0 T1 fs :
  agree boot_writes c c' → server_space kphys_start ksize info local kt base lpas c' c1 b1 P T0 T1 fs →
  server_space kphys_start ksize info local kt base lpas c c1 b1 P T0 T1 fs.
Proof. intros A []. split; try done. by eapply agree_trans. Qed.

(** The server's address space is one the executable can be loaded into. *)
Lemma server_loadable c c1 b1 P T0 T1 fs img image :
  server_space kphys_start ksize info local kt base lpas c c1 b1 P T0 T1 fs → executable c boot_writes img image → between c img image →
  loadable kphys_start ksize info local lp 536 P kt (limit b1) [T0; T1] c1 b1 img image ∧ ∀ u, later_section c1 img image 0 u ↔ later_section c img image 0 u.
Proof.
  intros ss EX BT. destruct (executable_agree _ c1 _ _ _ _ EX (ss_agree _ _ _ _ _ _ _ _ _ _ _ _ _ _ ss) (server_writes _ _ _ _ _ _ _ ss)) as [EX1 ES].
  assert (LS : ∀ u, later_section c1 img image 0 u ↔ later_section c img image 0 u).
  { intros u. split; intros (j & Hj & H); exists j; (split; [done|]); [rewrite <- ES by done|rewrite ES by done]; done. }
  split; [|done]. split; [apply ss|apply ss|done|]. intros u Hu%LS. pose proof (BT u Hu) as [H1 H2].
  apply (ss_none _ _ _ _ _ _ _ _ _ _ _ _ _ _ ss); [|done|done]. destruct Hu as (j & Hj & Aj & Ij).
  eapply in_section_user; [|exact Ij]. by apply (fo_section _ _ _ _ (ex_file _ _ _ _ EX)).
Qed.

Lemma stack_mapped c c1 b1 P T0 T1 fs u :
  server_space kphys_start ksize info local kt base lpas c c1 b1 P T0 T1 fs → stack_page 127 <= u < top → is_Some (umap P c1 u).
Proof.
  intros ss Hu. destruct (ss_frames _ _ _ _ _ _ _ _ _ _ _ _ _ _ ss) as (_ & _ & _ & _ & EL & _). unfold STACK_PAGES in EL.
  assert (Hq : (Z.to_nat ((top - 1 - u) / 4096) < length fs)%nat) by (unfold stack_page in *; rewrite EL; zdiv).
  apply lookup_lt_is_Some_2 in Hq as [f Hf]. destruct (ss_stack _ _ _ _ _ _ _ _ _ _ _ _ _ _ ss _ _ Hf) as (_ & _ & _ & _ & _ & US).
  rewrite Z2Nat.id in US by zdiv. set (q := (top - 1 - u) / 4096) in *.
  specialize (US (u - stack_page q)). replace (stack_page q + (u - stack_page q)) with u in US by lia.
  rewrite US; [done|]. unfold q, stack_page in *. zdiv.
Qed.

Lemma bytes_in_lookup c p bs i v : bytes_in c p bs → bs !! i = Some v → Some (load8 (phys c) (p + Z.of_nat i)) = Some v.
Proof.
  unfold bytes_in. intros E Hi. rewrite <- E in Hi. unfold load_bytes in Hi. rewrite list_lookup_fmap in Hi.
  destruct (seq 0 (length bs) !! i) as [x|] eqn:Ex; [|done]. by apply lookup_seq in Ex as [-> _].
Qed.

Lemma started_intro k k1 k2 k3 Q t img image info_addr c1 b1 b3 P T0 T1 fs dat f0 :
  0 <= P < 2 ^ 20 → server_space kphys_start ksize info local kt base lpas (mach k) c1 b1 P T0 T1 fs → fs !! 0%nat = Some f0 →
  executable (mach k) boot_writes img image → between (mach k) img image →
  space kphys_start ksize info c1 P kt (limit b1) [T0; T1] lpas (mach k1) b3 dat → all_placed P c1 (mach k1) dat img image →
  loaded P (k <| mach := c1 |>) Q t img image (top - SIZEOF_INIT_STACK_ARGS) k1 →
  core k2 = upd t (λ tc, tc <| thread_state := READY |>) (core (k1 <| init_server_thread := Some t |>)) →
  agree (tail_writes f0) (mach k1) (mach k3) → bytes_in (mach k3) (4096 * f0 + 3560) (stack_args info_addr (first_free_page b3) (4096 * 128)) →
  kinv k3 (enq (RunQ NORMAL_PRIORITY) t (enq PausedQ t Q)) → init_server_thread k3 = init_server_thread k2 →
  (∀ u, core_tcb <$> tcb_table k3 !! u = tcb_table (upd t (λ tc, tc <| fxsave_state := Some fxsave_area |>) (core k2)) !! u) →
  same_system k2 k3 →
  started k Q t img image info_addr P k3 {| first_free_page := first_free_page b3; can_alloc_frames := false |}.
Proof.
  intros HP ss F0 EX BT S3 PL [LK LT LTs Y1 _ LO] C2 A3 AR K3 I3 T3 Y3.
  destruct (server_loadable _ _ _ _ _ _ _ _ _ ss EX BT) as [_ LS].
  assert (UM : ∀ u, user_address u → u < VGA_RAM ∨ stack_page 127 <= u → umap P (mach k3) u = umap P c1 u).
  { intros u Hu Ho. rewrite (tail_umap (mach k) c1 (mach k1) b1 b3 P T0 T1 fs dat f0 ss S3 F0) by done.
    apply LO; [done|]. intros H%LS%BT. lia. }
  assert (T2 : ∀ u, tcb_table (core k2) !! u = tcb_table (upd t (λ tc, tc <| thread_state := READY |>) (core k1)) !! u) by (intros u; by rewrite C2).
  assert (ET : top = KERNEL_VSTART) by reflexivity.
  split.
  - done.
  - rewrite I3. change (init_server_thread k2) with (init_server_thread (core k2)). by rewrite C2.
  - rewrite T3, lookup_upd, T2, lookup_upd, core_lookup, LT. reflexivity.
  - intros u Hu. rewrite T3, lookup_upd_ne, T2, lookup_upd_ne, core_lookup by exact Hu. exact (LTs u Hu).
  - assert (Y2 : same_system k1 k2) by (change (same_system k1 (core k2)); by rewrite C2).
    exact (same_system_trans _ _ _ Y1 (same_system_trans _ _ _ Y2 Y3)).
  - eapply agree_trans; [eapply server_agree; [exact ss|exact S3]|]. eapply agree_mono; [|exact A3]. intros a. eapply tail_boot; [exact ss|exact F0].
  - done.
  - intros j o Hj Al Ho. by eapply tail_byte.
  - intros u Hu. rewrite UM; [by apply (ss_low _ _ _ _ _ _ _ _ _ _ _ _ _ _ ss)|unfold user_address, VGA_RAM, KERNEL_VSTART in *; lia|left; lia].
  - intros u Hu. rewrite UM; [by eapply stack_mapped|unfold user_address, stack_page in *; rewrite ET in *; unfold KERNEL_VSTART in *; lia|right; lia].
  - intros i v Hi. pose proof (lookup_lt_Some _ _ _ Hi) as Li. rewrite (proj1 (stack_args_bytes _ _ _)) in Li.
    destruct (ss_stack _ _ _ _ _ _ _ _ _ _ _ _ _ _ ss _ _ F0) as (_ & _ & _ & _ & _ & US).
    assert (EA : top - SIZEOF_INIT_STACK_ARGS + Z.of_nat i = stack_page 0 + (3560 + Z.of_nat i)) by (unfold stack_page, SIZEOF_INIT_STACK_ARGS; lia).
    unfold byte_at. rewrite EA, UM, US; [|lia|unfold user_address, stack_page; rewrite ET; unfold KERNEL_VSTART; lia|right; unfold stack_page; lia].
    rewrite <- (bytes_in_lookup _ _ _ i v AR Hi). cbn [fmap option_fmap option_map]. do 2 f_equal. lia.
Qed.

Lemma wp_bootstrap_init_server k b Q t img image info_addr (Post : Z → lst → Prop) L :
  booting (mach k) b → executable (mach k) boot_writes img image → between (mach k) img image → can_create k Q t →
  (∀ s', exhausted (snd s') → stalled k Q t (fst s') → Post E_FAIL s') →
  (∀ P s', started k Q t img image info_addr P (fst s') (snd s') → Post E_OK s') →
  wp (bootstrap_init_server kphys_start ksize info local img info_addr) Post L (k, b).
Proof.
  intros B EX BT CC HX HP'. unfold bootstrap_init_server. pose proof (cc_free _ _ _ CC) as ((Ht1 & Ht2) & _ & _). pose proof (cc_last _ _ _ CC) as Hl.
  pose proof EX as [[R1 R2] E2 E3 E4 _].
  assert (EL : length (take 52 lpas) = 52%nat) by (rewrite length_take, length_consec; lia).
  wp_step. change SIZEOF_ELF_HEADER with (Z.of_nat 52). rewrite <- EL at 1. apply wp_mm.
  eapply wp_peek_block; [apply B|eapply local_block_take, booting_block; exact B|rewrite ?EL; done || lia..|]. intros c0 A0. rewrite EL, <- E3, E4. cbn [negb].
  assert (AB : agree boot_writes (mach k) c0).
  { eapply agree_mono; [|exact A0]. intros a [(i & Hi & _)%elem_of_take|Ha]; [right; left; by eapply list_elem_of_lookup_2|by left]. }
  wp_step. eapply (wp_init_server_space _ _ _ _ _ _ _ (k <| mach := c0 |>)); [by eapply booting_agree| |].
  { intros s' X [ST [SI SK]]. wp_step. apply HX; [exact X|]. split; [|left; by eapply kinv_same, cc_kinv, can_create_mach].
    destruct ST as (_ & _ & _ & _ & S5 & S6). split_and!; [exact S5|exact S6|exact SI|exact SK]. }
  intros c1 b1 P T0 T1 fs HP ss%(server_space_from _ _ _ _ _ _ _ _ AB).
  destruct (server_loadable _ _ _ _ _ _ _ _ _ ss EX BT) as [LO _].
  destruct (lookup_lt_is_Some_2 fs 0) as [f0 F0].
  { destruct (ss_frames _ _ _ _ _ _ _ _ _ _ _ _ _ _ ss) as (_ & _ & _ & _ & -> & _). unfold STACK_PAGES. lia. }
  wp_step. change (u32 (top - SIZEOF_INIT_STACK_ARGS)) with (top - SIZEOF_INIT_STACK_ARGS).
  assert (N52 : (52 <= 536)%nat) by lia.
  set (k0 := k <| mach := c1 |>). change c1 with (mach k0) in LO. pose proof (can_create_mach k Q t c1 CC) as CC1. fold k0 in CC1.
  apply (wp_load_elf_exe kphys_start ksize info local lp 536 P kt (limit b1) [T0; T1] N52 k0 b1 Q t img image).
  1: exact LO.
  1: exact CC1.
  { intros s' X K' Y'. wp_step. unfold kern. apply wp_zoom. wp_step. apply HX; [exact X|]. split; [exact Y'|right].
    by apply (kinv_same (fst s')); [repeat split|]. }
  intros k1 b3 dat S3 PL LD. wp_step. unfold kern at 1. apply wp_zoom. wp_step. cbn [fst snd].
  wp_step. unfold kern at 1. apply wp_zoom. cbn [fst snd].
  eapply (wp_start_new (k1 <| init_server_thread := Some t |>)); [by apply (kinv_same k1); [repeat split|apply LD]|lia|apply LD|]. intros k2 K2 C2.
  change (is_error E_OK) with false. cbv iota.
  assert (M2 : mach k2 = mach k1) by (change (mach k2) with (mach (core k2)); by rewrite C2).
  eapply wp_hand_over; [exact B|exact HP|exact ss|exact S3|exact F0|exact M2|exact K2|lia| |].
  - intros o Ho. destruct (ss_stack _ _ _ _ _ _ _ _ _ _ _ _ _ _ ss _ _ F0) as (_ & _ & _ & _ & _ & US). rewrite <- US by done. apply LD.
    + unfold user_address, stack_page. change top with KERNEL_VSTART. unfold KERNEL_VSTART. lia.
    + intros H%(proj2 (server_loadable _ _ _ _ _ _ _ _ _ ss EX BT))%BT. unfold stack_page in H. lia.
  - intros k3 A3 AR K3 I3 T3 Y3. apply (HP' P). by eapply started_intro.
Qed.

(** C8. Starting the initial server with [bootstrap_init_server] returns.  It fails
    only when no frame is left.  Otherwise its thread is ready, with the entry point
    of the file; its address space has the sections of the file, the memory below
    640K at its own addresses and a stack of 512K with the arguments on top; the
    other threads are unchanged and no more frames can be handed out. *)
Theorem bootstrap_starts k b Q t img image info_addr :
  booting (mach k) b → executable (mach k) boot_writes img image → between (mach k) img image → can_create k Q t →
  ∃ r s', bootstrap_init_server kphys_start ksize info local img info_addr (k, b) = Ret r s' ∧
    (r = E_FAIL ∧ exhausted (snd s') ∧ stalled k Q t (fst s') ∨ r = E_OK ∧ ∃ P, started k Q t img image info_addr P (fst s') (snd s')).
Proof.
  intros B EX BT CC. apply wp_ret_inv. eapply wp_bootstrap_init_server; [done..| |].
  - intros s' X Y. by left.
  - intros P s' S. right. split; [done|]. by exists P.
Qed.
End boot.

(** ** The small file as the initial server *)

Abbreviation exe_boot_run := (bootstrap_init_server 0x100000 0x100000 exe_info 0x5100 0x8000 0x9500 (exe_kstate, exe_boot)).
Abbreviation exe_boot_writes := (boot_writes 0x100000 0x100000 exe_info 2 0x200000 (consec 0x4100 536)).

Lemma exe_booting : booting 0x100000 0x100000 exe_info 0x5100 2 0x200000 (consec 0x4100 536) exe_machine exe_boot.
Proof.
  pose proof exe_layout as ly. assert (C : cr3 exe_machine / 4096 = 1) by reflexivity.
  split.
  - apply ly.
  - reflexivity.
  - change (page_address 0x200000). unfold page_address. split; [lia|reflexivity].
  - change (0x200000 <= 0x200000). lia.
  - apply ly.
  - apply ly.
  - apply ly.
  - eapply walk_free_mono; [|apply (ly_walk ly)]. intros a [H|[H|H]]; [by right; left|by do 2 right; left|by do 4 right].
  - apply ly.
  - apply ly.
  - intros a Ha. destruct (ly_lpas ly a Ha) as (_ & H1 & H2 & _ & H3). split; [exact H1|]. split; [exact H2|exact H3].
Qed.

Lemma exe_boot_loads a : exe_boot_writes a → loads 0x100000 0x100000 exe_info 5 2 0x200000 [] (consec 0x4100 536) a.
Proof. intros [H|[H|H]]; [by right; left|by do 2 right; left|by do 4 right]. Qed.

Lemma exe_executable : executable exe_machine exe_boot_writes 0x8000 exe_image.
Proof.
  apply (executable_agree exe_machine exe_machine _ _ 0x8000 exe_image (lo_exe _ _ _ _ _ _ _ _ _ _ _ _ _ _ exe_loadable));
    [apply agree_refl|exact exe_boot_loads].
Qed.

Lemma exe_between : between exe_machine 0x8000 exe_image.
Proof.
  intros u (j & Hj & Aj & Ij). rewrite exe_shnum in Hj. destruct (exe_allocated j Hj Aj) as [[_ E]|[_ E]]; rewrite E in Ij;
    unfold in_section, section_bytes, exe_text, exe_bss in Ij; cbn [sh_addr sh_size] in Ij; unfold VGA_RAM;
    change (stack_page 127) with 0xFEB80000; zdiv.
Qed.

Lemma exe_boot_runs : match exe_boot_run with Ret r _ => r =? E_OK | _ => false end = true.
Proof. vm_compute. reflexivity. Qed.

Lemma bootstrap_starts_witness :
  ∃ s' P, exe_boot_run = Ret E_OK s' ∧ started 0x100000 0x100000 exe_info 0x4100 2 0x200000 exe_kstate Q0 1 0x8000 exe_image 0x9500 P (fst s') (snd s').
Proof.
  destruct (bootstrap_starts 0x100000 0x100000 exe_info 0x5100 0x4100 2 0x200000 exe_kstate exe_boot Q0 1 0x8000 exe_image 0x9500
    exe_booting exe_executable exe_between exe_can_create) as (r & s' & E & H).
  pose proof exe_boot_runs as R. rewrite E in R. destruct H as [[-> _]|[-> [P H]]]; [discriminate R|]. exists s', P. split; [exact E|exact H].
Defined.
