(* ===== verification/LoaderStrings.v ===== *)
(** * The strings of the boot modules: kernel/init/libc.c

    What [strstr] finds, which module becomes the initial server, and the cases in
    which the comparison of strings and the search for the flag go wrong. *)

From S2P Require Import Prelude Bits Machine Kernel BootMemory Loader.

Lemma is_prefix_spec s t : is_prefix s t = true ↔ t `prefix_of` s.
Proof.
  revert s. induction t as [|c t IH]; intros s.
  { split; [intros _; apply prefix_nil|]. intros _. by destruct s. }
  destruct s as [|d s]; cbn [is_prefix]; [split; [done|]; intros H; by apply prefix_nil_not in H|]. rewrite andb_true_iff, IH, Z.eqb_eq. split.
  - intros [-> H]. by apply prefix_cons.
  - intros H. split; [symmetry; by eapply prefix_cons_inv_1|by eapply prefix_cons_inv_2].
Qed.

(** [r] is the rest of [s] from the first place where [t] occurs. *)
Definition first_at (s t r : list Z) : Prop :=
  r ≠ [] ∧ t `prefix_of` r ∧ ∃ pre, s = pre ++ r ∧ ∀ pre' r', s = pre' ++ r' → (length pre' < length pre)%nat → ¬ t `prefix_of` r'.

Lemma strstr_cases s t :
  match strstr s t with Some r => first_at s t r | None => ∀ pre r, s = pre ++ r → r ≠ [] → ¬ t `prefix_of` r end.
Proof.
  induction s as [|d s IH]; cbn [strstr].
  { intros pre r E. symmetry in E. by apply app_nil in E as [_ ->]. }
  destruct (is_prefix (d :: s) t) eqn:E.
  { apply is_prefix_spec in E. split; [done|]. split; [done|]. exists []. split; [done|]. intros pre' r' _ H. cbn in H. lia. }
  assert (N : ¬ t `prefix_of` d :: s) by (intros H; apply is_prefix_spec in H; congruence).
  destruct (strstr s t) as [r|].
  - destruct IH as (R & Pr & pre & -> & F). split; [done|]. split; [done|]. exists (d :: pre). split; [done|].
    intros [|x pre'] r' E' H; [cbn in E'; by subst r'|]. cbn in E'. injection E' as -> E'. apply (F pre'); [done|cbn in H; lia].
  - intros [|x pre] r E' R; [cbn in E'; by subst r|]. cbn in E'. injection E' as -> E'. by apply (IH pre).
Qed.

(** ** The choice of the module *)

(** The flag is followed by the end of the string or by a control character. *)
Definition flag_ends (r : list Z) : bool :=
  let c := signed 8 (char0 (drop 6 r)) in (c =? 0) || ((9 <=? c) && (c <=? 13)).

(** A string in which the flag is found: somewhere it ends so, and the search gets
    there by going from one occurrence to the next. *)
Inductive flagged : list Z → Prop :=
| flag_here s r : strstr s INIT_SERVER_FLAG = Some r → flag_ends r = true → flagged s
| flag_later s r : strstr s INIT_SERVER_FLAG = Some r → flag_ends r = false → flagged (drop 6 r) → flagged s.

Lemma strstr_shorter s r : strstr s INIT_SERVER_FLAG = Some r → (length (drop 6 r) < length s)%nat.
Proof.
  intros E. pose proof (strstr_cases s INIT_SERVER_FLAG) as H. rewrite E in H. destruct H as (R & _ & pre & -> & _).
  rewrite length_drop, length_app. destruct r; [done|]. cbn [length]. lia.
Qed.

(** The search either finds the flag or uses a null pointer. *)
Lemma find_flag_outcome n : ∀ s st, (length s < n)%nat → (flagged s ∧ find_flag n s st = Ret tt st) ∨ (¬ flagged s ∧ find_flag n s st = Fault NullDeref).
Proof.
  induction n as [|n IH]; intros s st Hn; [lia|]. cbn [find_flag].
  destruct (strstr s INIT_SERVER_FLAG) as [r|] eqn:E.
  - change (Z.to_nat (strlen INIT_SERVER_FLAG)) with 6%nat. fold (flag_ends r). destruct (flag_ends r) eqn:F.
    + left. split; [by eapply flag_here|done].
    + apply strstr_shorter in E as L. destruct (IH (drop 6 r) st ltac:(lia)) as [[H1 H2]|[H1 H2]]; [left|right]; (split; [|exact H2]).
      * by eapply flag_later.
      * intros G. inversion G; simplify_eq; congruence.
  - right. split; [|done]. intros G. inversion G; congruence.
Qed.

(** The module that is taken: the last one with a string, or else the first. *)
Definition last_named (ms : list (module_t * option (list Z))) : option module_t :=
  fst <$> last (filter (λ m, is_Some (snd m)) ms).

Lemma choose_module_spec ms : ∀ first img found st,
  (∀ m s, (m, Some s) ∈ ms → flagged s) →
  choose_module ms first img found st =
    Ret (match last_named ms with
         | Some m => (mod_start m, true)
         | None => (if first then default img (mod_start ∘ fst <$> head ms) else img, found)
         end) st.
Proof.
  induction ms as [|[m [s|]] ms IH]; intros first img found st Hf; cbn [choose_module].
  - by destruct first.
  - destruct (find_flag_outcome (S (length s)) s st) as [[_ E]|[N _]]; [lia|..].
    + unfold bind. rewrite E. rewrite IH by (intros m' s' Hin; apply (Hf m'); by right). f_equal. unfold last_named.
      rewrite filter_cons_True by (by eexists). rewrite last_cons. by destruct (last (filter _ ms)).
    + destruct N. apply (Hf m). by left.
  - by rewrite IH by (intros m' s' Hin; apply (Hf m'); by right).
Qed.

(** A module whose string has no [--init] in it stops the kernel. *)
Theorem choose_module_faults ms first img found st m s :
  ¬ flagged s → choose_module ((m, Some s) :: ms) first img found st = Fault NullDeref.
Proof.
  intros N. cbn [choose_module]. destruct (find_flag_outcome (S (length s)) s st) as [[H _]|[_ E]]; [lia|done|]. unfold bind. by rewrite E.
Qed.

(** Without such a module the choice goes as in [choose_module_spec]. *)
Lemma choose_module_outcome ms : ∀ first img found st,
  (∀ m s, (m, Some s) ∈ ms → flagged s) ∨
  (∃ m s, (m, Some s) ∈ ms ∧ ¬ flagged s) ∧ choose_module ms first img found st = Fault NullDeref.
Proof.
  induction ms as [|[m [s|]] ms IH]; intros first img found st.
  - left. intros m s H. by apply not_elem_of_nil in H.
  - destruct (find_flag_outcome (S (length s)) s st) as [[F E]|[N E]]; [lia|..].
    + destruct (IH false (mod_start m) true st) as [H|[(m' & s' & H1 & H2) H]]; [left|right].
      * intros m' s' [[= -> ->]|Hin]%elem_of_cons; [done|by eapply H].
      * split; [exists m', s'; split; [by right|done]|]. cbn [choose_module]. unfold bind. by rewrite E.
    + right. split; [exists m, s; split; [by left|done]|]. cbn [choose_module]. unfold bind. by rewrite E.
  - cbn [choose_module]. match goal with |- context [choose_module ms ?a ?b ?c st] => destruct (IH a b c st) as [H|[(m' & s' & H1 & H2) H]] end; [left|right].
    + intros m' s' [[=]|Hin]%elem_of_cons; by eapply H.
    + split; [exists m', s'; split; [by right|done]|done].
Qed.

(** A blank behind the flag does not end it. *)
Example flag_before_blank st : find_flag 40 (INIT_SERVER_FLAG ++ [32; 97]) st = Fault NullDeref.
Proof. reflexivity. Qed.

(** ** Comparison *)

Lemma strncmp_common s : ∀ t n, Forall (λ c, 0 < c < 128) s → (length s <= n)%nat → strncmp (s ++ t) s n = strncmp t [] (n - length s).
Proof.
  induction s as [|c s IH]; intros t n Hs Hn; cbn [app length]; [by rewrite Nat.sub_0_r|].
  destruct n as [|n]; [cbn in Hn; lia|]. apply Forall_cons in Hs as [Hc Hs]. cbn [strncmp tail].
  change (char0 (c :: s ++ t)) with c. change (char0 (c :: s)) with c. rewrite Z.eqb_refl. destruct (Z.eqb_spec c 0); [lia|]. cbn [negb andb]. cbn [Nat.sub]. apply IH; [done|cbn in Hn; lia].
Qed.

(** Two equal strings that are shorter than the limit are reported as different. *)
Theorem strncmp_equal s n : Forall (λ c, 0 < c < 128) s → (length s < n)%nat → strncmp s s n = -1.
Proof.
  intros Hs Hn. pose proof (strncmp_common s [] n Hs ltac:(lia)) as E. rewrite app_nil_r in E. rewrite E.
  destruct (n - length s)%nat eqn:D; [lia|reflexivity].
Qed.
