(* ===== verification/BootPaging.v ===== *)
(** * The first page map: init_paging and setup_tss of kernel/init/memory.c

    The code runs with the segments that kernel/entry.S loads, whose base takes a
    virtual address of the kernel to its physical address, until it turns paging on;
    from there on an access is translated by the page map it has made.  Where the
    linker puts the tables, the descriptor table and the task state segment is a
    parameter. *)

From S2P Require Import Prelude Bits Machine Paging PagingFacts PagingSpec BootMemory LoaderFacts.

(** ** Constants: kernel/link.ld, include/kernel/lowlevel.h, include/kernel/mm.h *)

Definition KERNEL_START : Z := 0x100000.
Definition KERNEL_LOWER_MEM : Z := 0xFF800000.
Definition VGA_START : Z := 0xA0000.
Definition KCODE : Z := 0x08.
Definition KDATA : Z := 0x10.
Definition TSS_SEL : Z := 0x28.
Definition SIZEOF_TSS : Z := 8296.
Definition SIZEOF_GDT : Z := 64.
Definition CR4_BOOT : Z := 0x698.
Definition CR0_PG_MP : Z := 0x80000002.

(** [GDT_BASE(0x100000, 0xFEC00000)] of kernel/mem.c: the base of the segments used
    before paging. *)
Definition BOOT_BASE : Z := u32 (KERNEL_START - KERNEL_VSTART).

Definition pte_set_pwt (v : Z) (b : bool) : Z := set_bit v 3 b.
Definition pte_set_pcd (v : Z) (b : bool) : Z := set_bit v 4 b.
Definition pte_set_global (v : Z) (b : bool) : Z := set_bit v 8 b.
Definition pde_set_is_page_sized (v : Z) (b : bool) : Z := set_bit v 7 b.

(** ** The processor while the kernel starts *)

Record cpu := Cpu {
  mem : machine; cr0 : Z; cr4 : Z; gdtr : Z * Z; code_sel : Z; data_sel : Z; extra_sel : Z; task_sel : Z
}.

#[export] Hint Extern 0 (@Update cpu _ ?p) =>
  derive_update (λ c : cpu, {| mem := mem c; cr0 := cr0 c; cr4 := cr4 c; gdtr := gdtr c; code_sel := code_sel c;
    data_sel := data_sel c; extra_sel := extra_sel c; task_sel := task_sel c |}) p : typeclass_instances.

Definition on_mem {A} (m : M machine A) : M cpu A := zoom mem (λ c s, s <| mem := c |>) m.

(** The address behind a pointer before paging is on. *)
Definition boot_address (p : Z) : Z := u32 (p + BOOT_BASE).

(** [table[i].value], before paging is on *)
Definition load_entry (table i : Z) : M cpu Z := gets (λ s, load32 (phys (mem s)) (boot_address (table + 4 * i))).
Definition store_entry (table i v : Z) : M cpu unit :=
  on_mem (modify (λ c, set_phys (store32 (phys c) (boot_address (table + 4 * i)) v) c)).

(** Assignments to fields of [table[i]]. *)
Definition update_entry (table i : Z) (f : Z → Z) : M cpu unit :=
  let* v := load_entry table i in store_entry table i (f v).

Section init.
(** Symbols of the linker: the tables, the code and the data of the kernel. *)
Variable kpage_dir kernel_page_table klower_mem_ptab kcode kdata ksize : Z.
Variable kernel_gdt tss kernel_stack_top : Z.

Fixpoint clear_tables (n : nat) (i : Z) : M cpu unit :=
  match n with
  | O => ret tt
  | S n =>
      store_entry kpage_dir i 0 ;;
      store_entry kernel_page_table i 0 ;;
      store_entry klower_mem_ptab i 0 ;;
      clear_tables n (i + 1)
  end.

Definition low_pte (i v : Z) : Z :=
  let is_mmio := VGA_START / PAGE_SIZE <=? i in
  pte_set_base (pte_set_pwt (pte_set_pcd (pte_set_is_read_write (pte_set_is_present v true) true) is_mmio) is_mmio) i.

Fixpoint map_low_memory (n : nat) (i : Z) : M cpu unit :=
  match n with
  | O => ret tt
  | S n => store_entry klower_mem_ptab i 0 ;; update_entry klower_mem_ptab i (low_pte i) ;; map_low_memory n (i + 1)
  end.

Definition kernel_pte (phys virt v : Z) : Z :=
  pte_set_is_present (pte_set_is_read_write (pte_set_base (pte_set_global v true) (PADDR_TO_PBASE phys))
    ((virt <? kcode) || (kdata <=? virt))) true.

Fixpoint map_kernel (fuel : nat) (phys virt : Z) : M cpu unit :=
  match fuel with
  | O => fail OutOfFuel
  | S fuel =>
      if phys <? u32 (KERNEL_START + ksize) then
        update_entry kernel_page_table (PTE_INDEX virt) (kernel_pte phys virt) ;;
        map_kernel fuel (u32 (phys + PAGE_SIZE)) (u32 (virt + PAGE_SIZE))
      else ret tt
  end.

(** An entry for the table at [p]. *)
Definition table_pde (p v : Z) : Z :=
  pde_set_is_read_write (pde_set_is_present (pde_set_base v (PADDR_TO_PBASE (u32 (p + KERNEL_START - KERNEL_VSTART)))) true) true.

Definition identity_pde (v : Z) : Z :=
  pde_set_is_present (pde_set_is_read_write (pde_set_is_page_sized (pde_set_base v 0) true) true) true.

Definition setup_tss : M machine unit :=
  let tss_desc := u32 (kernel_gdt + TSS_SEL) in
  let tss_limit := SIZEOF_TSS in
  ustore16 (u32 (tss_desc + 2)) (Z.land tss 0xFFFF) ;;
  vstore8 (u32 (tss_desc + 4)) (Z.land (Z.shiftr tss 16) 0xFF) ;;
  vstore8 (u32 (tss_desc + 7)) (Z.land (Z.shiftr tss 24) 0xFF) ;;
  ustore16 tss_desc (Z.land tss_limit 0xFFFF) ;;
  let* v := vload8 (u32 (tss_desc + 6)) in
  vstore8 (u32 (tss_desc + 6)) (set_bits v 0 4 (u8 (Z.shiftr tss_limit 16))) ;;
  ustore16 (u32 (tss + 8)) KDATA ;;
  ustore32 (u32 (tss + 4)) kernel_stack_top.

(** One step for every page of the kernel, and one more. *)
Definition kernel_fuel : nat := S (S (Z.to_nat (ksize / PAGE_SIZE))).

(** The part before paging is turned on. *)
Definition make_tables : M cpu unit :=
  clear_tables 1024 0 ;;
  map_low_memory (Z.to_nat (EXTENDED_MEMORY / PAGE_SIZE)) 0 ;;
  update_entry kpage_dir (PDE_INDEX KERNEL_LOWER_MEM) (table_pde klower_mem_ptab) ;;
  update_entry kpage_dir 0 identity_pde ;;
  update_entry kpage_dir (PDE_INDEX KERNEL_VSTART) (table_pde kernel_page_table) ;;
  map_kernel kernel_fuel KERNEL_START KERNEL_VSTART ;;
  update_entry kpage_dir KERNEL_RECURSIVE_PDE (table_pde kpage_dir).

Definition init_paging : M cpu unit :=
  make_tables ;;
  on_mem (modify (λ c, {| phys := phys c; Machine.cr3 := u32 (kpage_dir + KERNEL_START - KERNEL_VSTART) |})) ;;
  modify (λ s, s <| cr4 := CR4_BOOT |>) ;;
  modify (λ s, s <| cr0 ::= (λ old_cr0, Z.lor old_cr0 CR0_PG_MP) |>) ;;
  modify (λ s, s <| data_sel := KDATA |> <| extra_sel := 0 |>) ;;
  modify (λ s, s <| code_sel := KCODE |>) ;;
  modify (λ s, s <| gdtr := (u16 SIZEOF_GDT, kernel_gdt) |>) ;;
  on_mem setup_tss ;;
  modify (λ s, s <| task_sel := TSS_SEL |>).
End init.
