(* ===== verification/BootPagingSpec.v ===== *)
(** * The first page map: what init_paging leaves behind

    The entries of the three tables, the addresses they map, and the descriptor of
    the task state segment.  That the kernel can use its temporary window and its
    recursive entry, which every other operation on page maps relies on, follows. *)

From S2P Require Import Prelude Bits Machine Paging PagingFacts PagingSpec BootMemory LoaderFacts BootPaging.

(** Entry [i] of the table in frame [f]. *)
Definition ent (c : machine) (f i : Z) : Z := load32 (phys c) (4096 * f + 4 * i).

Lemma ent_store c f i v g j : 0 <= i < 1024 → 0 <= j < 1024 →
  ent (set_phys (store32 (phys c) (4096 * f + 4 * i) v) c) g j = if (g =? f) && (j =? i) then u32 v else ent c g j.
Proof.
  intros Hi Hj. unfold ent. cbn [phys set_phys]. destruct ((g =? f) && (j =? i)) eqn:E.
  - replace g with f by lia. replace j with i by lia. apply load32_store32_eq.
  - apply load32_store32_ne. lia.
Qed.

(** The pages the loop of [init_paging] maps for a kernel of [ksize] bytes, in bytes. *)
Definition kernel_span (ksize : Z) : Z := 4096 * ((ksize + 4095) / 4096).

Section spec.
(** Pages of the kernel that hold the page directory, the table of the kernel and
    that of the low memory. *)
Context (d k l ksize kcode kdata : Z).

Definition page (n : Z) : Z := KERNEL_VSTART + 4096 * n.
Definition frame (n : Z) : Z := 256 + n.

Record image_ok : Prop := {
  im_size : 0 < ksize <= 0x400000;
  im_dir : 0 <= d < kernel_span ksize / 4096;
  im_kernel : 0 <= k < kernel_span ksize / 4096;
  im_low : 0 <= l < kernel_span ksize / 4096;
  im_distinct : d ≠ k ∧ d ≠ l ∧ k ≠ l
}.

Hypothesis im : image_ok.

Lemma span_size : 0 < kernel_span ksize <= 0x400000 ∧ kernel_span ksize mod 4096 = 0 ∧ ksize <= kernel_span ksize < ksize + 4096.
Proof. destruct im as [Sz _ _ _ _]. unfold kernel_span. zdiv. Qed.

Lemma image_small : kernel_span ksize / 4096 <= 1024.
Proof. pose proof span_size. zdiv. Qed.

Definition tables (a : Z) : Prop := in_frame (frame d) a ∨ in_frame (frame k) a ∨ in_frame (frame l) a.

Lemma boot_address_page n i : 0 <= n < kernel_span ksize / 4096 → 0 <= i < 1024 → boot_address (page n + 4 * i) = 4096 * frame n + 4 * i.
Proof.
  intros Hn Hi. pose proof image_small as S. unfold boot_address, page, frame.
  change BOOT_BASE with (2 ^ 32 + (KERNEL_START - KERNEL_VSTART)). unfold KERNEL_START, KERNEL_VSTART, wrap.
  replace (_ + 4 * i + _) with (4096 * (256 + n) + 4 * i + 1 * 2 ^ 32) by lia. rewrite Z.mod_add by lia. apply Z.mod_small. lia.
Qed.

Lemma wp_store_entry n i v s (Q : unit → cpu → Prop) L :
  0 <= n < kernel_span ksize / 4096 → 0 <= i < 1024 →
  Q tt (s <| mem := set_phys (store32 (phys (mem s)) (4096 * frame n + 4 * i) v) (mem s) |>) →
  wp (store_entry (page n) i v) Q L s.
Proof. intros Hn Hi HQ. unfold store_entry. rewrite boot_address_page by done. apply wp_zoom, wp_modify, HQ. Qed.

Lemma wp_update_entry n i f s (Q : unit → cpu → Prop) L :
  0 <= n < kernel_span ksize / 4096 → 0 <= i < 1024 →
  Q tt (s <| mem := set_phys (store32 (phys (mem s)) (4096 * frame n + 4 * i) (f (ent (mem s) (frame n) i))) (mem s) |>) →
  wp (update_entry (page n) i f) Q L s.
Proof.
  intros Hn Hi HQ. unfold update_entry, load_entry. rewrite boot_address_page by done. wp_step. apply wp_gets. by apply wp_store_entry.
Qed.

(** The tables hold the entries [E]; the rest of the memory is that of [c0]. *)
Definition edited (c0 c : machine) (E : Z → Z → Z) : Prop :=
  agree tables c0 c ∧ ∀ n i, n = d ∨ n = k ∨ n = l → 0 <= i < 1024 → ent c (frame n) i = E n i.

(** One assignment. *)
Definition put (E : Z → Z → Z) (n i v : Z) : Z → Z → Z := λ m j, if (m =? n) && (j =? i) then v else E m j.

Lemma put_ne E n i v m j : m ≠ n ∨ j ≠ i → put E n i v m j = E m j.
Proof. intros H. unfold put. by replace ((m =? n) && (j =? i)) with false by lia. Qed.

Lemma edited_put c0 c E n i v : edited c0 c E → n = d ∨ n = k ∨ n = l → 0 <= i < 1024 → 0 <= v < 2 ^ 32 →
  edited c0 (set_phys (store32 (phys c) (4096 * frame n + 4 * i) v) c) (put E n i v).
Proof.
  intros [A HE] Hn Hi Hv. split.
  - eapply agree_trans; [exact A|]. split; [done|]. intros a Ha. apply load8_store32_ne.
    unfold tables, in_frame in Ha. destruct Hn as [-> | [-> | ->]]; lia.
  - intros m j Hm Hj. rewrite ent_store by done. unfold put, frame.
    replace (256 + m =? 256 + n) with (m =? n) by lia. destruct ((m =? n) && (j =? i)); [by apply wrap_small|by apply HE].
Qed.

Lemma edited_ext c0 c E E' : edited c0 c E → (∀ n i, n = d ∨ n = k ∨ n = l → 0 <= i < 1024 → E' n i = E n i) → edited c0 c E'.
Proof. intros [A H] HE. split; [done|]. intros n i Hn Hi. by rewrite HE, H. Qed.

Lemma table_index n : n = d ∨ n = k ∨ n = l → 0 <= n < kernel_span ksize / 4096.
Proof. destruct im. lia. Qed.

Lemma wp_store_edited c0 E n i v s (Q : unit → cpu → Prop) L :
  edited c0 (mem s) E → n = d ∨ n = k ∨ n = l → 0 <= i < 1024 → 0 <= v < 2 ^ 32 →
  (∀ c', edited c0 c' (put E n i v) → Q tt (s <| mem := c' |>)) → wp (store_entry (page n) i v) Q L s.
Proof. intros HE Hn Hi Hv HQ. apply wp_store_entry; [by apply table_index|done|]. by apply HQ, edited_put. Qed.

Lemma wp_update_edited c0 E n i f s (Q : unit → cpu → Prop) L :
  edited c0 (mem s) E → n = d ∨ n = k ∨ n = l → 0 <= i < 1024 → 0 <= f (E n i) < 2 ^ 32 →
  (∀ c', edited c0 c' (put E n i (f (E n i))) → Q tt (s <| mem := c' |>)) → wp (update_entry (page n) i f) Q L s.
Proof.
  intros HE Hn Hi Hv HQ. apply wp_update_entry; [by apply table_index|done|]. rewrite (proj2 HE n i Hn Hi). by apply HQ, edited_put.
Qed.

Abbreviation clear := (clear_tables (page d) (page k) (page l)).

Lemma wp_clear_tables c0 n : ∀ i E s (Q : unit → cpu → Prop) L,
  0 <= i → i + Z.of_nat n = 1024 → edited c0 (mem s) E →
  (∀ c', edited c0 c' (λ m j, if i <=? j then 0 else E m j) → Q tt (s <| mem := c' |>)) → wp (clear n i) Q L s.
Proof.
  induction n as [|n IH]; intros i E s Q L Hi Hn HE HQ; cbn [clear_tables].
  - wp_step. assert (ED : edited c0 (mem s) (λ m j, if i <=? j then 0 else E m j)).
    { eapply edited_ext; [exact HE|]. intros m j _ Hj. by replace (i <=? j) with false by lia. }
    destruct s. exact (HQ _ ED).
  - wp_step. eapply wp_store_edited; [exact HE|by left|lia|lia|]. intros c1 E1.
    wp_step. eapply wp_store_edited; [exact E1|by right; left|lia|lia|]. intros c2 E2.
    wp_step. eapply wp_store_edited; [exact E2|by right; right|lia|lia|]. intros c3 E3.
    eapply IH; [lia|lia|exact E3|]. intros c4 E4. apply HQ. eapply edited_ext; [exact E4|].
    intros m j Hm Hj. cbv beta. unfold put. destruct (Z.leb_spec i j), (Z.leb_spec (i + 1) j); try lia; try done.
    + replace (j =? i) with true by lia. destruct Hm as [-> | [-> | ->]]; rewrite Z.eqb_refl; cbn [andb];
        repeat match goal with |- context [if ?b then 0 else _] => destruct b end; done.
    + replace (j =? i) with false by lia. by rewrite !andb_false_r.
Qed.

(** Entries fit in a word. *)
Ltac word := repeat first [apply set_bit_range|apply set_bits_range]; lia.

Lemma low_pte_range i : 0 <= low_pte i 0 < 2 ^ 32.
Proof. unfold low_pte, pte_set_base, pte_set_pwt, pte_set_pcd, pte_set_is_read_write, pte_set_is_present. word. Qed.

Lemma kernel_pte_range p v : 0 <= kernel_pte kcode kdata p v 0 < 2 ^ 32.
Proof. unfold kernel_pte, pte_set_base, pte_set_global, pte_set_is_read_write, pte_set_is_present. word. Qed.

Lemma wp_map_low_memory c0 n : ∀ i E s (Q : unit → cpu → Prop) L,
  0 <= i → i + Z.of_nat n = 256 → edited c0 (mem s) E →
  (∀ c', edited c0 c' (λ m j, if (m =? l) && (i <=? j) && (j <? 256) then low_pte j 0 else E m j) → Q tt (s <| mem := c' |>)) →
  wp (map_low_memory (page l) n i) Q L s.
Proof.
  induction n as [|n IH]; intros i E s Q L Hi Hn HE HQ; cbn [map_low_memory].
  - wp_step. assert (ED : edited c0 (mem s) (λ m j, if (m =? l) && (i <=? j) && (j <? 256) then low_pte j 0 else E m j)).
    { eapply edited_ext; [exact HE|]. intros m j _ Hj. by replace ((m =? l) && (i <=? j) && (j <? 256)) with false by lia. }
    destruct s. exact (HQ _ ED).
  - wp_step. eapply wp_store_edited; [exact HE|by right; right|lia|lia|]. intros c1 E1.
    assert (PE : put E l i 0 l i = 0) by (unfold put; by rewrite !Z.eqb_refl).
    wp_step. eapply wp_update_edited; [exact E1|by right; right|lia|rewrite PE; apply low_pte_range|]. rewrite PE. intros c2 E2.
    eapply IH; [lia|lia|exact E2|]. intros c4 E4. apply HQ. eapply edited_ext; [exact E4|].
    intros m j Hm Hj. cbv beta. unfold put. destruct (Z.eqb_spec m l), (Z.leb_spec i j), (Z.leb_spec (i + 1) j), (Z.ltb_spec j 256), (Z.eqb_spec j i); try lia; subst; done.
Qed.

(** Pages of the kernel. *)
Abbreviation N := (kernel_span ksize / 4096).

Definition kernel_entry (j : Z) : Z := kernel_pte kcode kdata (4096 * frame j) (page j) 0.

Lemma map_kernel_S n phys virt : map_kernel (page k) kcode kdata ksize (S n) phys virt =
  if phys <? u32 (KERNEL_START + ksize) then
    update_entry (page k) (PTE_INDEX virt) (kernel_pte kcode kdata phys virt) ;;
    map_kernel (page k) kcode kdata ksize n (u32 (phys + PAGE_SIZE)) (u32 (virt + PAGE_SIZE))
  else ret tt.
Proof. reflexivity. Qed.

Lemma wp_map_kernel c0 n : ∀ fuel i E s (Q : unit → cpu → Prop) L,
  (n <= fuel)%nat → 0 <= i → i + Z.of_nat n = N → edited c0 (mem s) E → (∀ j, i <= j < N → E k j = 0) →
  (∀ c', edited c0 c' (λ m j, if (m =? k) && (i <=? j) && (j <? N) then kernel_entry j else E m j) → Q tt (s <| mem := c' |>)) →
  wp (map_kernel (page k) kcode kdata ksize (S fuel) (4096 * frame i) (page i)) Q L s.
Proof.
  pose proof image_small as IS. pose proof span_size as (Sz & IP & Sk). pose proof (im_size im) as Sz'.
  assert (EK : u32 (KERNEL_START + ksize) = KERNEL_START + ksize) by (unfold KERNEL_START; by rewrite wrap_small by lia).
  induction n as [|n IH]; intros fuel i E s Q L Hf Hi Hn HE HZ HQ; rewrite map_kernel_S, EK.
  - replace (_ <? _) with false by (unfold frame, KERNEL_START; zdiv).
    wp_step. assert (ED : edited c0 (mem s) (λ m j, if (m =? k) && (i <=? j) && (j <? N) then kernel_entry j else E m j)).
    { eapply edited_ext; [exact HE|]. intros m j _ Hj. by replace ((m =? k) && (i <=? j) && (j <? N)) with false by lia. }
    destruct s. exact (HQ _ ED).
  - replace (_ <? _) with true by (unfold frame, KERNEL_START; zdiv).
    assert (EI : PTE_INDEX (page i) = i) by (unfold page, KERNEL_VSTART in *; rewrite PTE_INDEX_alt by lia; zdiv).
    rewrite EI. wp_step. eapply wp_update_edited; [exact HE|by right; left|lia|rewrite HZ by lia; apply kernel_pte_range|].
    rewrite HZ by lia. intros c1 E1.
    replace (u32 (4096 * frame i + PAGE_SIZE)) with (4096 * frame (i + 1)) by (unfold frame, PAGE_SIZE; rewrite wrap_small; lia).
    replace (u32 (page i + PAGE_SIZE)) with (page (i + 1)) by (unfold page, KERNEL_VSTART, PAGE_SIZE; rewrite wrap_small; lia).
    destruct fuel as [|fuel]; [lia|]. eapply IH; [lia|lia|lia|exact E1| |].
    { intros j Hj. unfold put. replace (j =? i) with false by lia. rewrite andb_false_r. apply HZ. lia. }
    intros c2 E2. apply HQ. eapply edited_ext; [exact E2|].
    intros m j Hm Hj. cbv beta. unfold put. destruct (Z.eqb_spec m k), (Z.leb_spec i j), (Z.leb_spec (i + 1) j), (Z.ltb_spec j N), (Z.eqb_spec j i); try lia; subst; done.
Qed.

(** ** The tables that are made *)

Definition dir_entry (i : Z) : Z :=
  if i =? 1022 then table_pde (page l) 0 else if i =? 0 then identity_pde 0
  else if i =? 1019 then table_pde (page k) 0 else if i =? 1023 then table_pde (page d) 0 else 0.

Record boot_map (c : machine) : Prop := {
  bm_cr3 : Machine.cr3 c = 4096 * frame d;
  bm_dir : ∀ i, 0 <= i < 1024 → ent c (frame d) i = dir_entry i;
  bm_kernel : ∀ i, 0 <= i < 1024 → ent c (frame k) i = if i <? N then kernel_entry i else 0;
  bm_low : ∀ i, 0 <= i < 256 → ent c (frame l) i = low_pte i 0
}.

(** The window behind the low memory, at first. *)
Definition window_empty (c : machine) : Prop := ∀ i, 256 <= i < 1024 → ent c (frame l) i = 0.

(** The entries that stay. *)
Definition pinned (a : Z) : Prop := in_frame (frame d) a ∨ in_frame (frame k) a ∨ 4096 * frame l <= a < 4096 * frame l + 1024.

Lemma pinned_tables a : pinned a → tables a.
Proof. unfold pinned, tables, in_frame. lia. Qed.

Lemma table_pde_fields n : 0 <= n < N →
  ent_present (table_pde (page n) 0) = true ∧ ent_page_size (table_pde (page n) 0) = false ∧ ent_frame (table_pde (page n) 0) = frame n.
Proof.
  intros Hn. pose proof image_small. unfold table_pde, ent_present, ent_page_size, ent_frame, pde_set_is_read_write, pde_set_is_present, pde_set_base.
  assert (EF : PADDR_TO_PBASE (u32 (page n + KERNEL_START - KERNEL_VSTART)) = frame n).
  { unfold PADDR_TO_PBASE, page, KERNEL_START, frame. rewrite Z.shiftr_div_pow2, wrap_small by lia. zdiv. }
  rewrite EF. split_and!.
  - rewrite bit_set_ne by lia. by rewrite bit_set_eq.
  - rewrite !bit_set_ne by lia. rewrite bit_set_bits_ne by lia. done.
  - unfold set_bit. rewrite !bits_set_ne by lia. rewrite bits_set_eq by lia. apply Z.mod_small. unfold frame. lia.
Qed.

Lemma low_entry_fields i : 0 <= i < 256 → ent_present (low_pte i 0) = true ∧ ent_frame (low_pte i 0) = i.
Proof.
  intros Hi. unfold low_pte, ent_present, ent_frame, pte_set_base, pte_set_pwt, pte_set_pcd, pte_set_is_read_write, pte_set_is_present. split.
  - rewrite bit_set_bits_ne by lia. rewrite !bit_set_ne by lia. by rewrite bit_set_eq.
  - rewrite bits_set_eq by lia. apply Z.mod_small. lia.
Qed.

Lemma kernel_entry_fields j : 0 <= j < N →
  ent_present (kernel_entry j) = true ∧ ent_frame (kernel_entry j) = frame j ∧
  pte_is_read_write (kernel_entry j) = ((page j <? kcode) || (kdata <=? page j)).
Proof.
  intros Hj. pose proof image_small. unfold kernel_entry, kernel_pte, ent_present, ent_frame, pte_is_read_write, pte_set_base, pte_set_global, pte_set_is_read_write, pte_set_is_present.
  assert (EF : PADDR_TO_PBASE (4096 * frame j) = frame j) by (unfold PADDR_TO_PBASE; rewrite Z.shiftr_div_pow2 by lia; zdiv).
  rewrite EF. split_and!.
  - by rewrite bit_set_eq.
  - unfold set_bit. rewrite !bits_set_ne by lia. rewrite bits_set_eq by lia. apply Z.mod_small. unfold frame. lia.
  - rewrite bit_set_ne by lia. by rewrite bit_set_eq.
Qed.

(** ** What is mapped *)

Lemma bm_pde c va : boot_map c → 0 <= va < 2 ^ 32 → load32 (phys c) (pde_addr c va) = dir_entry (va / 2 ^ 22).
Proof.
  intros B Hva. unfold pde_addr. rewrite (bm_cr3 _ B). replace (4096 * (4096 * frame d / 4096)) with (4096 * frame d) by zdiv.
  apply (bm_dir _ B). zdiv.
Qed.

(** An address behind the table in page [n]. *)
Lemma bm_table c va n : boot_map c → 0 <= va < 2 ^ 32 → 0 <= n < N → dir_entry (va / 2 ^ 22) = table_pde (page n) 0 →
  let e := ent c (frame n) ((va / 2 ^ 12) mod 1024) in
  translate c va = (if ent_present e then Some (4096 * ent_frame e + va mod 2 ^ 12) else None) ∧
  walk c va = [4096 * frame d + 4 * (va / 2 ^ 22); 4096 * frame n + 4 * ((va / 2 ^ 12) mod 1024)].
Proof.
  intros B Hva Hn E. destruct (table_pde_fields n Hn) as (F1 & F2 & F3). unfold translate, walk. rewrite bm_pde, E, F1, F2 by done.
  unfold pte_addr, pde_addr. rewrite F3, (bm_cr3 _ B). split; [done|]. cbn [andb negb]. do 3 f_equal. zdiv.
Qed.

Definition kernel_address (va : Z) : Prop := KERNEL_VSTART <= va < KERNEL_VSTART + kernel_span ksize.

Lemma kernel_index va : kernel_address va → va / 2 ^ 22 = 1019 ∧ 0 <= (va / 2 ^ 12) mod 1024 < N ∧ va = page ((va / 2 ^ 12) mod 1024) + va mod 2 ^ 12.
Proof. unfold kernel_address, page, KERNEL_VSTART. pose proof span_size as (Sz & IP & Sk). intros H. split_and!; zdiv. Qed.

(** The kernel at its own addresses. *)
Lemma bm_translate_kernel c va : boot_map c → kernel_address va →
  translate c va = Some (va - KERNEL_VSTART + KERNEL_START) ∧
  walk c va = [4096 * frame d + 4 * (va / 2 ^ 22); 4096 * frame k + 4 * ((va / 2 ^ 12) mod 1024)].
Proof.
  intros B Hva. destruct (kernel_index va Hva) as (E1 & E2 & E3). unfold kernel_address, KERNEL_VSTART in Hva. pose proof span_size as (Sz & IP & Sk).
  destruct (bm_table c va k B ltac:(lia) (im_kernel im)) as [T W]; [by rewrite E1|]. split; [|exact W]. rewrite T.
  rewrite (bm_kernel _ B) by (pose proof image_small; lia). replace (_ <? N) with true by lia.
  destruct (kernel_entry_fields _ E2) as (F1 & F2 & _). rewrite F1, F2. f_equal. rewrite E3 at 3. unfold page, frame, KERNEL_START. lia.
Qed.

(** The first megabyte behind the kernel. *)
Lemma bm_translate_low c va : boot_map c → KERNEL_LOWER_MEM <= va < KERNEL_LOWER_MEM + EXTENDED_MEMORY →
  translate c va = Some (va - KERNEL_LOWER_MEM).
Proof.
  unfold KERNEL_LOWER_MEM, EXTENDED_MEMORY. intros B Hva. assert (E1 : va / 2 ^ 22 = 1022) by zdiv.
  assert (E2 : 0 <= (va / 2 ^ 12) mod 1024 < 256) by zdiv.
  destruct (bm_table c va l B ltac:(lia) (im_low im)) as [T _]; [by rewrite E1|]. rewrite T.
  rewrite (bm_low _ B) by lia. destruct (low_entry_fields _ E2) as [F1 F2]. rewrite F1, F2. f_equal. zdiv.
Qed.

(** The first 4M at their own addresses. *)
Lemma bm_translate_identity c va : boot_map c → 0 <= va < 0x400000 → translate c va = Some va.
Proof.
  intros B Hva. unfold translate. rewrite bm_pde by (done || lia). replace (va / 2 ^ 22) with 0 by zdiv.
  change (ent_present (dir_entry 0)) with true. change (ent_page_size (dir_entry 0)) with true. change (ent_large_frame (dir_entry 0)) with 0.
  cbv iota. f_equal. zdiv.
Qed.

(** Nothing else is mapped below the recursive entry. *)
Lemma bm_translate_unmapped c va : boot_map c → window_empty c → 0x400000 <= va < KERNEL_TEMP_END → ¬ kernel_address va →
  ¬ KERNEL_LOWER_MEM <= va < KERNEL_LOWER_MEM + EXTENDED_MEMORY → translate c va = None.
Proof.
  unfold KERNEL_LOWER_MEM, EXTENDED_MEMORY, kernel_address, KERNEL_VSTART, KERNEL_TEMP_END. intros B WE Hva NK NL.
  assert (H0 : ent_present 0 = false) by reflexivity.
  destruct (decide (va / 2 ^ 22 = 1019)) as [E1|N1]; [|destruct (decide (va / 2 ^ 22 = 1022)) as [E1|N2]].
  - destruct (bm_table c va k B ltac:(lia) (im_kernel im)) as [T _]; [by rewrite E1|]. rewrite T, (bm_kernel _ B) by zdiv.
    destruct im. replace (_ <? N) with false by zdiv. by rewrite H0.
  - destruct (bm_table c va l B ltac:(lia) (im_low im)) as [T _]; [by rewrite E1|]. rewrite T, WE by zdiv. by rewrite H0.
  - unfold translate. rewrite bm_pde by (done || lia). unfold dir_entry. assert (va / 2 ^ 22 ≠ 0 ∧ va / 2 ^ 22 ≠ 1023) by (split; zdiv).
    rewrite !(proj2 (Z.eqb_neq _ _)) by tauto. by rewrite H0.
Qed.

(** The temporary window and the recursive entry can be used. *)
Lemma bm_kmap c : boot_map c → kmap c (frame l).
Proof.
  intros B. pose proof image_small. assert (EC : Machine.cr3 c / 4096 = frame d) by (rewrite (bm_cr3 _ B); zdiv).
  pose proof (bm_dir _ B 1023 ltac:(lia)) as ER. pose proof (bm_dir _ B 1022 ltac:(lia)) as EL. unfold ent in ER, EL.
  change (4 * 1023) with 4092 in ER. change (4 * 1022) with 4088 in EL. change (dir_entry 1023) with (table_pde (page d) 0) in ER.
  change (dir_entry 1022) with (table_pde (page l) 0) in EL.
  destruct (table_pde_fields d (im_dir im)) as (D1 & D2 & D3), (table_pde_fields l (im_low im)) as (L1 & L2 & L3).
  split; rewrite ?EC, ?ER, ?EL; try done.
  - rewrite (bm_cr3 _ B). destruct im. unfold frame. lia.
  - destruct im. unfold frame. lia.
Qed.

(** Writing elsewhere keeps the map. *)
Lemma bm_agree W c c' : boot_map c → agree W c c' → (∀ a, W a → ¬ pinned a) → boot_map c'.
Proof.
  intros [B1 B2 B3 B4] A HW.
  assert (HE : ∀ f i, (∀ j, 0 <= j < 4 → pinned (4096 * f + 4 * i + j)) → ent c' f i = ent c f i).
  { intros f i Hp. eapply agree_word_free; [exact A|]. intros j Hj Wj. by apply (HW _ Wj), Hp. }
  split; [by rewrite (proj1 A)|intros i Hi; rewrite HE; [auto|unfold pinned, in_frame; lia]..].
Qed.

Lemma window_agree W c c' : window_empty c → agree W c c' → (∀ a, W a → ¬ tables a) → window_empty c'.
Proof.
  intros WE A HW i Hi. rewrite <- (WE i Hi). eapply agree_word_free; [exact A|]. intros j Hj Wj. apply (HW _ Wj). unfold tables, in_frame. lia.
Qed.

(** ** The task state segment *)

Definition kphys (va : Z) : Z := va - KERNEL_VSTART + KERNEL_START.

Lemma wp_kernel_store8 c va v (Q : unit → machine → Prop) L :
  boot_map c → kernel_address va → Q tt (set_phys (store8 (phys c) (kphys va) v) c) → wp (vstore8 va v) Q L c.
Proof. intros B Hva HQ. eapply wp_vstore8; [by apply bm_translate_kernel|exact HQ]. Qed.

Lemma bm_store8 c va v : boot_map c → ¬ tables (kphys va) → boot_map (set_phys (store8 (phys c) (kphys va) v) c).
Proof.
  intros B N. apply (bm_agree (λ a, a = kphys va) c); [done| |intros a -> H; by apply N, pinned_tables].
  split; [done|]. intros a Ha. apply load8_store8_ne. congruence.
Qed.

Lemma wp_kernel_byte m r va v (Q : unit → machine → Prop) L :
  boot_map (Machine m r) → kernel_address va → ¬ tables (kphys va) →
  (boot_map (Machine (store8 m (kphys va) v) r) → Q tt (Machine (store8 m (kphys va) v) r)) → wp (vstore8 va v) Q L (Machine m r).
Proof. intros B Hva NT HQ. apply wp_kernel_store8; [done|done|]. by apply HQ, (bm_store8 (Machine m r)). Qed.

(** Blocks of the kernel's memory. *)
Lemma bm_vmap c va n : boot_map c → KERNEL_VSTART <= va → va + Z.of_nat n <= KERNEL_VSTART + kernel_span ksize → vmap c va (consec (kphys va) n).
Proof.
  intros B H1 H2 i pa Hi. apply consec_lookup in Hi as [-> Hi]. pose proof span_size as (Sz & IP & Sk). unfold KERNEL_VSTART in *.
  rewrite wrap_small by lia. destruct (bm_translate_kernel c (va + Z.of_nat i) B) as [-> _]; [unfold kernel_address, KERNEL_VSTART; lia|].
  f_equal. unfold kphys, KERNEL_VSTART. lia.
Qed.

Lemma bm_walk_free c va n (W : Z → Prop) : boot_map c → KERNEL_VSTART <= va → va + Z.of_nat n <= KERNEL_VSTART + kernel_span ksize →
  (∀ a, W a → ¬ in_frame (frame d) a ∧ ¬ in_frame (frame k) a) → walk_free c va n W.
Proof.
  intros B H1 H2 HW i w j Hi Hw Hj Hc. pose proof span_size as (Sz & IP & Sk). unfold KERNEL_VSTART in *. rewrite wrap_small in Hw by lia.
  assert (KA : kernel_address (va + Z.of_nat i)) by (unfold kernel_address, KERNEL_VSTART; lia).
  destruct (bm_translate_kernel c _ B KA) as [_ EW]. rewrite EW in Hw. destruct (kernel_index _ KA) as (E1 & E2 & _). rewrite E1 in Hw.
  pose proof image_small. apply HW in Hc as [N1 N2]. rewrite !elem_of_cons in Hw. unfold in_frame in *. destruct Hw as [->|[->|Hw]]; [lia|lia|by apply elem_of_nil in Hw].
Qed.

Context (kernel_gdt tss kernel_stack_top : Z).

Record segments_ok : Prop := {
  sg_gdt : KERNEL_VSTART <= kernel_gdt ∧ kernel_gdt + SIZEOF_GDT <= KERNEL_VSTART + kernel_span ksize;
  sg_tss : KERNEL_VSTART <= tss ∧ tss + SIZEOF_TSS <= KERNEL_VSTART + kernel_span ksize;
  sg_apart : tss + SIZEOF_TSS <= kernel_gdt ∨ kernel_gdt + SIZEOF_GDT <= tss;
  sg_gdt_tables : ∀ a, kernel_gdt <= a < kernel_gdt + SIZEOF_GDT → ¬ tables (kphys a);
  sg_tss_tables : ∀ a, tss <= a < tss + SIZEOF_TSS → ¬ tables (kphys a);
  sg_stack : 0 <= kernel_stack_top < 2 ^ 32
}.

(** Bytes of the descriptor, and what it says. *)
Definition tss_desc (c : machine) (i : Z) : Z := load8 (phys c) (kphys (kernel_gdt + TSS_SEL) + i).

Record tss_set (c c' : machine) : Prop := {
  ts_base : tss_desc c' 2 + 2 ^ 8 * tss_desc c' 3 + 2 ^ 16 * tss_desc c' 4 + 2 ^ 24 * tss_desc c' 7 = tss;
  ts_limit : tss_desc c' 0 + 2 ^ 8 * tss_desc c' 1 + 2 ^ 16 * bits (tss_desc c' 6) 0 4 = SIZEOF_TSS;
  ts_access : tss_desc c' 5 = tss_desc c 5;
  ts_flags : bits (tss_desc c' 6) 4 4 = bits (tss_desc c 6) 4 4;
  ts_esp0 : load32 (phys c') (kphys tss + 4) = kernel_stack_top;
  ts_ss0 : load8 (phys c') (kphys tss + 8) + 256 * load8 (phys c') (kphys tss + 9) = KDATA
}.

Definition tss_writes (a : Z) : Prop :=
  kphys (kernel_gdt + TSS_SEL) <= a < kphys (kernel_gdt + TSS_SEL) + 8 ∨ kphys tss + 4 <= a < kphys tss + 10.

Lemma tss_writes_apart : segments_ok → ∀ a, tss_writes a → ¬ tables a.
Proof.
  intros [] a Ha. replace a with (kphys (a - KERNEL_START + KERNEL_VSTART)) by (unfold kphys; lia).
  unfold tss_writes, kphys, SIZEOF_GDT, SIZEOF_TSS, TSS_SEL in *. destruct Ha; [apply sg_gdt_tables0|apply sg_tss_tables0]; lia.
Qed.

Lemma wp_segment_store8 m r va v (Q : unit → machine → Prop) L :
  segments_ok → boot_map (Machine m r) → kernel_gdt <= va < kernel_gdt + SIZEOF_GDT ∨ tss <= va < tss + SIZEOF_TSS →
  (boot_map (Machine (store8 m (kphys va) v) r) → Q tt (Machine (store8 m (kphys va) v) r)) → wp (vstore8 va v) Q L (Machine m r).
Proof.
  intros [] B Hva HQ. apply wp_kernel_byte; [done|unfold kernel_address; lia| |done].
  destruct Hva; [by apply sg_gdt_tables0|by apply sg_tss_tables0].
Qed.

Lemma load8_store8_at m a b v : b = a → load8 (store8 m a v) b = u8 v.
Proof. intros ->. apply load8_store8_eq. Qed.

Lemma tss_bytes v : 0 <= v < 2 ^ 32 →
  u8 (u8 (Z.land v 0xFFFF)) + 2 ^ 8 * u8 (u8 (Z.land v 0xFFFF / 256)) + 2 ^ 16 * u8 (Z.land (Z.shiftr v 16) 0xFF) +
  2 ^ 24 * u8 (Z.land (Z.shiftr v 24) 0xFF) = v.
Proof.
  intros Hv. change 0xFFFF with (2 ^ 16 - 1). change 0xFF with (2 ^ 8 - 1). rewrite !land_low_mask, !Z.shiftr_div_pow2 by lia. unfold wrap. zdiv.
Qed.

Lemma word_bytes v : 0 <= v < 2 ^ 32 →
  u8 (u8 (u16 v)) + 2 ^ 8 * u8 (u8 (u16 v / 256)) + 2 ^ 16 * u8 (u8 (u16 (v / 65536))) + 2 ^ 24 * u8 (u8 (u16 (v / 65536) / 256)) = v.
Proof. unfold wrap. intros. zdiv. Qed.

(** One store to the segments. *)
Ltac seg G B := wp_steps; eapply wp_segment_store8; [exact G|exact B|unfold SIZEOF_GDT, SIZEOF_TSS; lia|]; clear B; intros B.

Lemma wp_setup_tss c (Q : unit → machine → Prop) L :
  segments_ok → boot_map c → (∀ c', boot_map c' → agree tss_writes c c' → tss_set c c' → Q tt c') →
  wp (setup_tss kernel_gdt tss kernel_stack_top) Q L c.
Proof.
  destruct c as [m r]. intros G B HQ. pose proof G as [G1 G2 G3 _ _ G6]. pose proof span_size as (Sz & IP & Sk).
  unfold SIZEOF_GDT, SIZEOF_TSS, KERNEL_VSTART in G1, G2, G3.
  assert (U : ∀ x, 0 <= x < 2 ^ 32 → u32 x = x) by (intros x Hx; by apply wrap_small).
  unfold setup_tss, ustore32, ustore16, TSS_SEL. cbv zeta. repeat match goal with |- context [wrap 32 ?x] => rewrite (U x) by lia end.
  do 6 seg G B. wp_step. eapply wp_vload8; [apply bm_translate_kernel; [exact B|unfold kernel_address, KERNEL_VSTART; lia]|].
  do 6 seg G B. eapply wp_segment_store8; [exact G|exact B|unfold SIZEOF_GDT, SIZEOF_TSS; lia|]; clear B; intros B.
  clear U. apply HQ; [exact B| |]; clear B HQ.
  - split; [done|]. intros a Ha. unfold tss_writes, kphys, TSS_SEL in Ha. cbn [phys]. unfold kphys. rewrite !load8_store8_ne by lia. reflexivity.
  - unfold kphys, KERNEL_VSTART, KERNEL_START. split; unfold tss_desc, kphys, KERNEL_VSTART, KERNEL_START, TSS_SEL; cbn [phys].
    all: repeat first [rewrite load8_store8_ne by lia|rewrite load8_store8_at by lia].
    + apply tss_bytes. lia.
    + change (u8 (u8 (Z.land SIZEOF_TSS 0xFFFF)) + 2 ^ 8 * u8 (u8 (Z.land SIZEOF_TSS 0xFFFF / 256))) with SIZEOF_TSS.
      rewrite wrap_small by (apply set_bits_range; try lia; apply load8_range). by rewrite bits_set_eq by lia.
    + reflexivity.
    + rewrite wrap_small by (apply set_bits_range; try lia; apply load8_range). rewrite bits_set_ne by lia. do 2 f_equal. lia.
    + unfold load32. repeat first [rewrite load8_store8_ne by lia|rewrite load8_store8_at by lia]. by apply word_bytes.
    + reflexivity.
Qed.

(** ** The whole function *)

Abbreviation paging_run := (init_paging (page d) (page k) (page l) kcode kdata ksize kernel_gdt tss kernel_stack_top).

(** The registers at the end. *)
Record registers_set (s s' : cpu) : Prop := {
  rg_cr0 : cr0 s' = Z.lor (cr0 s) CR0_PG_MP;
  rg_cr4 : cr4 s' = CR4_BOOT;
  rg_gdtr : gdtr s' = (SIZEOF_GDT, kernel_gdt);
  rg_sel : code_sel s' = KCODE ∧ data_sel s' = KDATA ∧ extra_sel s' = 0 ∧ task_sel s' = TSS_SEL
}.

Lemma identity_pde_range : 0 <= identity_pde 0 < 2 ^ 32.
Proof. vm_compute. split; [discriminate|reflexivity]. Qed.

Lemma table_pde_range p : 0 <= table_pde p 0 < 2 ^ 32.
Proof. unfold table_pde, pde_set_is_read_write, pde_set_is_present, pde_set_base. word. Qed.

(** The entries after the first four steps. *)
Definition tables_made (n i : Z) : Z :=
  if n =? d then dir_entry i else if n =? k then if i <? N then kernel_entry i else 0 else if i <? 256 then low_pte i 0 else 0.

Lemma wp_make_tables s (Q : unit → cpu → Prop) L :
  (∀ c', edited (mem s) c' tables_made → Q tt (s <| mem := c' |>)) →
  wp (make_tables (page d) (page k) (page l) kcode kdata ksize) Q L s.
Proof.
  intros HQ. unfold make_tables. pose proof (im_distinct im) as ND. pose proof image_small as IS. pose proof (im_dir im).
  assert (E0 : edited (mem s) (mem s) (λ n i, ent (mem s) (frame n) i)) by (split; [apply agree_refl|done]).
  wp_step. eapply wp_clear_tables; [lia|done|exact E0|]. intros c1 E1.
  wp_step. eapply wp_map_low_memory; [lia|done|exact E1|]. intros c2 E2.
  change (PDE_INDEX KERNEL_LOWER_MEM) with 1022. change (PDE_INDEX KERNEL_VSTART) with 1019. change KERNEL_RECURSIVE_PDE with 1023.
  set (F := λ m j, _) in E2. assert (FD : ∀ i, 0 <= i < 1024 → F d i = 0).
  { intros i Hi. unfold F. replace (d =? l) with false by lia. cbn [andb]. by replace (0 <=? i) with true by lia. }
  assert (FK : ∀ i, 0 <= i < 1024 → F k i = 0).
  { intros i Hi. unfold F. replace (k =? l) with false by lia. cbn [andb]. by replace (0 <=? i) with true by lia. }
  assert (FL : ∀ i, 0 <= i < 1024 → F l i = if i <? 256 then low_pte i 0 else 0).
  { intros i Hi. unfold F. rewrite Z.eqb_refl. replace (0 <=? i) with true by lia. done. }
  clearbody F. clear E0 E1.
  wp_step. eapply wp_update_edited; [exact E2|by left|lia|rewrite FD by lia; apply table_pde_range|]. rewrite FD by lia. intros c3 E3.
  wp_step. eapply wp_update_edited; [exact E3|by left|lia|rewrite put_ne, FD by lia; apply identity_pde_range|]. rewrite put_ne, FD by lia. intros c4 E4.
  wp_step. eapply wp_update_edited; [exact E4|by left|lia|rewrite !put_ne, FD by lia; apply table_pde_range|]. rewrite !put_ne, FD by lia. intros c5 E5.
  wp_step. change KERNEL_START with (4096 * frame 0). change KERNEL_VSTART with (page 0).
  eapply (wp_map_kernel _ (Z.to_nat N)); [pose proof (im_size im); unfold PAGE_SIZE, kernel_span in *; zdiv|lia|lia|exact E5|intros j Hj; by rewrite !put_ne, FK by lia|]. intros c6 E6.
  eapply wp_update_edited; [exact E6|by left|lia|..]; cbv beta; replace (d =? k) with false by lia; cbn [andb]; rewrite !put_ne, FD by lia; [apply table_pde_range|].
  intros c7 E7. apply HQ. eapply edited_ext; [exact E7|]. intros n i Hn Hi. unfold tables_made, dir_entry, put.
  destruct Hn as [-> | [-> | ->]].
  - rewrite Z.eqb_refl. cbn [andb]. replace (d =? k) with false by lia. cbn [andb].
    destruct (Z.eqb_spec i 1023), (Z.eqb_spec i 1022), (Z.eqb_spec i 0), (Z.eqb_spec i 1019); try lia; try reflexivity. by rewrite FD.
  - replace (k =? d) with false by lia. rewrite Z.eqb_refl. cbn [andb]. replace (0 <=? i) with true by lia. by rewrite FK.
  - replace (l =? d) with false by lia. replace (l =? k) with false by lia. cbn [andb]. by rewrite FL.
Qed.

Lemma tables_boot_map c0 c : edited c0 c tables_made → let c' := {| phys := phys c; Machine.cr3 := u32 (page d + KERNEL_START - KERNEL_VSTART) |} in
  boot_map c' ∧ window_empty c'.
Proof.
  intros [_ E]. pose proof (im_distinct im) as ND. pose proof image_small. pose proof (im_dir im).
  assert (EL : ∀ i, 0 <= i < 1024 → ent c (frame l) i = if i <? 256 then low_pte i 0 else 0).
  { intros i Hi. etransitivity; [apply (E l); [by right; right|done]|]. unfold tables_made. replace (l =? d) with false by lia. by replace (l =? k) with false by lia. }
  split; [split; [|intros i Hi..]|].
  - cbn [Machine.cr3]. unfold page, frame, KERNEL_START. rewrite wrap_small; lia.
  - etransitivity; [apply (E d); [by left|done]|]. unfold tables_made. by rewrite Z.eqb_refl.
  - etransitivity; [apply (E k); [by right; left|done]|]. unfold tables_made. replace (k =? d) with false by lia. by rewrite Z.eqb_refl.
  - etransitivity; [apply EL; lia|]. by replace (i <? 256) with true by lia.
  - intros i Hi. etransitivity; [apply EL; lia|]. by replace (i <? 256) with false by lia.
Qed.

Lemma tss_set_from c c1 c' : segments_ok → (∀ a, ¬ tables a → load8 (phys c1) a = load8 (phys c) a) → tss_set c1 c' → tss_set c c'.
Proof.
  intros G H []. assert (D : ∀ i, 0 <= i < 8 → tss_desc c1 i = tss_desc c i).
  { intros i Hi. unfold tss_desc. apply H. replace (_ + i) with (kphys (kernel_gdt + TSS_SEL + i)) by (unfold kphys; lia).
    apply (sg_gdt_tables G). unfold TSS_SEL, SIZEOF_GDT. lia. }
  split; rewrite <- ?D by lia; done.
Qed.

Lemma wp_init_paging s (Q : unit → cpu → Prop) L : segments_ok →
  (∀ s', boot_map (mem s') → window_empty (mem s') → (∀ a, ¬ tables a → ¬ tss_writes a → load8 (phys (mem s')) a = load8 (phys (mem s)) a) →
    tss_set (mem s) (mem s') → registers_set s s' → Q tt s') →
  wp paging_run Q L s.
Proof.
  intros G HQ. unfold init_paging. wp_step. apply wp_make_tables. intros c1 E1.
  wp_step. apply wp_zoom. wp_step. do 5 (wp_step; wp_step). wp_step. apply wp_zoom.
  destruct (tables_boot_map (mem s) c1 E1) as [B1 W1]. apply wp_setup_tss; [done|exact B1|]. intros c2 B2 A2 T2. wp_step.
  apply HQ; [exact B2|eapply window_agree; [exact W1|exact A2|by apply tss_writes_apart]| | |by split].
  - intros a N1 N2. cbn [mem]. rewrite (proj2 A2) by done. apply E1. done.
  - eapply tss_set_from; [done| |exact T2]. intros a Ha. by apply E1.
Qed.

(** The address space in which the kernel runs from then on. *)
Record kernel_space (c : machine) : Prop := {
  ks_kernel : ∀ va, kernel_address va → translate c va = Some (kphys va);
  ks_writable : ∀ va, kernel_address va →
    pte_is_read_write (ent c (frame k) ((va / 2 ^ 12) mod 1024)) = ((va - va mod 4096 <? kcode) || (kdata <=? va - va mod 4096));
  ks_low : ∀ va, KERNEL_LOWER_MEM <= va < KERNEL_LOWER_MEM + EXTENDED_MEMORY → translate c va = Some (va - KERNEL_LOWER_MEM);
  ks_identity : ∀ va, 0 <= va < 0x400000 → translate c va = Some va;
  ks_unmapped : ∀ va, 0x400000 <= va < KERNEL_TEMP_END → ¬ kernel_address va →
    ¬ KERNEL_LOWER_MEM <= va < KERNEL_LOWER_MEM + EXTENDED_MEMORY → translate c va = None;
  ks_window : kmap c (frame l)
}.

Lemma bm_kernel_space c : boot_map c → window_empty c → kernel_space c.
Proof.
  intros B WE. split.
  - intros va Hva. by apply bm_translate_kernel.
  - intros va Hva. destruct (kernel_index va Hva) as (_ & E2 & E3). rewrite (bm_kernel _ B) by (pose proof image_small; lia).
    replace (_ <? N) with true by lia. destruct (kernel_entry_fields _ E2) as (_ & _ & F). rewrite F.
    change (2 ^ 12) with 4096 in *. by replace (page ((va / 4096) mod 1024)) with (va - va mod 4096) by lia.
  - intros va Hva. by apply bm_translate_low.
  - intros va Hva. by apply bm_translate_identity.
  - intros va H1 H2 H3. by apply bm_translate_unmapped.
  - by apply bm_kmap.
Qed.

End spec.

(** C9. [init_paging], from the state in which the boot loader leaves the machine,
    returns with paging on.  The kernel is mapped at its own addresses, its code and
    constants read-only, the first megabyte behind it and the first 4M at their own
    addresses; nothing else is mapped, but for the temporary window and the recursive
    entry, which can be used.  The task register, its descriptor and the task state
    segment are set, and no other memory is written. *)
Theorem init_paging_maps d k l ksize kcode kdata kernel_gdt tss kernel_stack_top s :
  image_ok d k l ksize → segments_ok d k l ksize kernel_gdt tss kernel_stack_top →
  ∃ s', init_paging (page d) (page k) (page l) kcode kdata ksize kernel_gdt tss kernel_stack_top s = Ret tt s' ∧
    kernel_space k l ksize kcode kdata (mem s') ∧
    registers_set kernel_gdt s s' ∧
    tss_set kernel_gdt tss kernel_stack_top (mem s) (mem s') ∧
    ∀ a, ¬ tables d k l a → ¬ tss_writes kernel_gdt tss a → load8 (phys (mem s')) a = load8 (phys (mem s)) a.
Proof.
  intros IM G. apply wp_runs. intros Q L HQ. eapply wp_init_paging; [exact IM|exact G|]. intros s' B WE A T R.
  apply HQ. split_and!; [by eapply bm_kernel_space|done..].
Qed.

(** ** A small kernel *)

Definition small_cpu : cpu :=
  {| mem := {| phys := ∅; Machine.cr3 := 0 |}; cr0 := 1; cr4 := 0; gdtr := (64, 0x105000); code_sel := 0x30; data_sel := 0x38;
     extra_sel := 0; task_sel := 0 |}.

Lemma small_image : image_ok 1 2 3 0xF800.
Proof. split; try lia; change (kernel_span 0xF800 / 4096) with 16; lia. Qed.

Lemma small_segments : segments_ok 1 2 3 0xF800 0xFEC05000 0xFEC06000 0xFEC0A000.
Proof.
  unfold SIZEOF_GDT, SIZEOF_TSS.
  split; change (kernel_span 0xF800) with 0x10000; unfold KERNEL_VSTART, SIZEOF_GDT, SIZEOF_TSS; try lia; intros a Ha; unfold tables, in_frame, frame, kphys, KERNEL_VSTART, KERNEL_START; lia.
Qed.

Lemma init_paging_maps_witness :
  ∃ s', init_paging 0xFEC01000 0xFEC02000 0xFEC03000 0xFEC04000 0xFEC05000 0xF800 0xFEC05000 0xFEC06000 0xFEC0A000 small_cpu = Ret tt s' ∧
    translate (mem s') 0xFEC04123 = Some 0x104123 ∧ translate (mem s') 0xFF8B8000 = Some 0xB8000 ∧ translate (mem s') 0x800000 = None.
Proof.
  destruct (init_paging_maps 1 2 3 0xF800 0xFEC04000 0xFEC05000 0xFEC05000 0xFEC06000 0xFEC0A000 small_cpu small_image small_segments)
    as (s' & E & [K1 K2 K3 K4 K5 K6] & _).
  exists s'. split; [exact E|]. split_and!.
  - rewrite K1; [reflexivity|]. unfold kernel_address, KERNEL_VSTART. change (kernel_span 0xF800) with 0x10000. lia.
  - rewrite K3; [reflexivity|]. unfold KERNEL_LOWER_MEM, EXTENDED_MEMORY. lia.
  - apply K5; unfold kernel_address; change (kernel_span 0xF800) with 0x10000; unfold KERNEL_TEMP_END, KERNEL_VSTART, KERNEL_LOWER_MEM, EXTENDED_MEMORY; lia.
Defined.
