(* ===== verification/Acpi.v ===== *)
(** * Reading the ACPI tables: kernel/init/acpi.c

    The root pointer is searched for in the low memory that is mapped behind the
    kernel; the tables are read with [peek].  As in Loader.v, a structure that the
    code reads into a local variable goes to the address [local].  What is printed is
    left out. *)

From S2P Require Import Prelude Bits Machine Paging Kernel KList Thread Message BootMemory Loader BootPaging.

Definition BIOS_EXT_ROM : Z := 0xE0000.
Definition PARAGRAPH_LEN : Z := 16.
Definition SIZEOF_RSDP : nat := 36.
Definition RSDP_LENGTH_OFFSET : nat := 20.
Definition SIZEOF_DT_HEADER : Z := 36.
Definition SIZEOF_MADT_HEADER : Z := 44.
Definition SIZEOF_BUFFER : Z := 128.
Definition TYPE_PROC_LAPIC : Z := 0.
Definition TYPE_IOAPIC : Z := 1.
Definition PROC_LAPIC_ENABLED : Z := 1.
Definition PROC_LAPIC_ONLINE : Z := 2.

(** "RSD PTR " and "APIC" *)
Definition RSDP_SIGNATURE : list Z := [82; 83; 68; 32; 80; 84; 82; 32].
Definition MADT_SIGNATURE : list Z := [65; 80; 73; 67].

Definition PHYS_TO_VIRT (addr : Z) : Z := u32 (addr + KERNEL_LOWER_MEM).

(** ** Structures, as the bytes at the start of each *)

Definition rsdt_address (rsdp : list Z) : Z := get32 rsdp 16.
Definition dt_length (header : list Z) : Z := get32 header 4.
Definition lapic_address (madt_header : list Z) : Z := get32 madt_header 36.
Definition ic_type (l : list Z) : Z := get8 l 0.
Definition ic_length (l : list Z) : Z := get8 l 1.

(** The globals of kernel/apic.c. *)
Record apic_state := { lapic_ptr : Z; ioapic_ptr : Z }.

#[export] Hint Extern 0 (@Update apic_state _ ?p) =>
  derive_update (λ c : apic_state, {| lapic_ptr := lapic_ptr c; ioapic_ptr := ioapic_ptr c |}) p : typeclass_instances.

(** The loops that add bytes to a checksum. *)
Definition sum8 (checksum : Z) (bs : list Z) : Z := foldl (λ c b, u8 (c + b)) checksum bs.

Section acpi.
(** The address of local variables. *)
Variable local : Z.

Abbreviation ast := (kstate * apic_state)%type.

Definition akern {A} (m : M kstate A) : M ast A := zoom fst (λ k s, (k, snd s)) m.
Definition am {A} (m : M machine A) : M ast A := akern (vm m).

(** ** Checksums *)

Fixpoint checksum_loop (fuel : nat) (phys_address bytes_read header_len checksum : Z) : M machine (option Z) :=
  match fuel with
  | O => fail OutOfFuel
  | S fuel =>
      if bytes_read <? header_len then
        let bytes_to_read := Z.min SIZEOF_BUFFER (header_len - bytes_read) in
        let* o := peek_local local (u32 (phys_address + bytes_read)) bytes_to_read in
        match o with
        | None => ret None
        | Some buffer => checksum_loop fuel phys_address (u32 (bytes_read + bytes_to_read)) header_len (sum8 checksum buffer)
        end
      else ret (Some checksum)
  end.

(** A step reads 128 bytes, but for the last one. *)
Definition checksum_fuel (header_len : Z) : nat := S (S (Z.to_nat (header_len / SIZEOF_BUFFER))).

Definition is_valid_acpi_header (phys_address : Z) : M machine bool :=
  let* o := peek_local local phys_address SIZEOF_DT_HEADER in
  match o with
  | None => ret false
  | Some header =>
      let header_len := dt_length header in
      let* o := checksum_loop (checksum_fuel header_len) phys_address SIZEOF_DT_HEADER header_len (sum8 0 header) in
      ret (match o with Some checksum => checksum =? 0 | None => false end)
  end.

(** ** The root pointer *)

(** The loop over the paragraphs: the bytes of the structure, or [None]. *)
Fixpoint find_rsdp (n : nat) (ptr : Z) : M machine (option (list Z)) :=
  match n with
  | O => ret None
  | S n =>
      let* signature := local_bytes 8 ptr in
      if memcmp signature RSDP_SIGNATURE 8 =? 0 then
        let* l := local_bytes RSDP_LENGTH_OFFSET ptr in
        if sum8 0 l =? 0 then let* rsdp := local_bytes SIZEOF_RSDP ptr in ret (Some rsdp)
        else find_rsdp n (u32 (ptr + PARAGRAPH_LEN))
      else find_rsdp n (u32 (ptr + PARAGRAPH_LEN))
  end.

Definition paragraphs : nat := Z.to_nat ((EXTENDED_MEMORY - BIOS_EXT_ROM) / PARAGRAPH_LEN).

(** ** The table of interrupt controllers *)

(** A processor's local APIC: the number of processors found. *)
Definition add_processor (header : list Z) (processors_found : Z) : M ast Z :=
  let flags := get32 header 4 in
  if IS_FLAG_SET flags PROC_LAPIC_ENABLED || IS_FLAG_SET flags PROC_LAPIC_ONLINE then
    akern (let* c := processor_at processors_found in
           modify (λ s, s <| processors ::= insert processors_found
             (c <| lapic_id := get8 header 3 |> <| acpi_uid := get8 header 2 |> <| is_online := IS_FLAG_SET flags PROC_LAPIC_ENABLED |>) |>)) ;;
    ret (processors_found + 1)
  else ret processors_found.

(** The body of the loop: the processors found and the length of the entry; [None]
    is the return of an error. *)
Definition madt_entry (table madt_offset processors_found : Z) : M ast (option (Z * Z)) :=
  let* o := am (peek_local local (u32 (table + madt_offset)) 2) in
  match o with
  | None => ret None
  | Some ic_header =>
      if ic_type ic_header =? TYPE_PROC_LAPIC then
        let* o := am (peek_local local (u32 (table + madt_offset)) 8) in
        match o with
        | None => ret None
        | Some header => let* n := add_processor header processors_found in ret (Some (n, ic_length ic_header))
        end
      else if ic_type ic_header =? TYPE_IOAPIC then
        let* o := am (peek_local local (u32 (table + madt_offset)) 12) in
        match o with
        | None => ret None
        | Some header =>
            modify (λ s : ast, (fst s, (snd s) <| ioapic_ptr := get32 header 4 |>)) ;;
            ret (Some (processors_found, ic_length ic_header))
        end
      else ret (Some (processors_found, ic_length ic_header))
  end.

Fixpoint madt_loop (fuel : nat) (table madt_offset length processors_found : Z) : M ast (option Z) :=
  match fuel with
  | O => fail OutOfFuel
  | S fuel =>
      if madt_offset <? length then
        let* o := madt_entry table madt_offset processors_found in
        match o with
        | None => ret None
        | Some (n, ic_len) => madt_loop fuel table (u32 (madt_offset + ic_len)) length n
        end
      else ret (Some processors_found)
  end.

(** An entry that has a length takes up at least one byte. *)
Definition madt_fuel (length : Z) : nat := S (Z.to_nat length).

Definition read_madt (table processors_found : Z) : M ast (option Z) :=
  let* o := am (peek_local local table SIZEOF_MADT_HEADER) in
  match o with
  | None => ret None
  | Some madt_header =>
      modify (λ s : ast, (fst s, (snd s) <| lapic_ptr := lapic_address madt_header |>)) ;;
      madt_loop (madt_fuel (dt_length madt_header)) table SIZEOF_MADT_HEADER (dt_length madt_header) processors_found
  end.

(** ** The tables *)

(** The loop over the root table, [n] entries from the [rsdt_index]-th on. *)
Fixpoint rsdt_loop (n : nat) (rsdt_address rsdt_index processors_found : Z) : M ast (option Z) :=
  match n with
  | O => ret (Some processors_found)
  | S n =>
      let* o := am (peek_local local (u32 (rsdt_address + SIZEOF_DT_HEADER + rsdt_index * 4)) 4) in
      match o with
      | None => ret None
      | Some l =>
          let table := get32 l 0 in
          let* valid := am (is_valid_acpi_header table) in
          if (valid : bool) then
            let* o := am (peek_local local table SIZEOF_DT_HEADER) in
            match o with
            | None => rsdt_loop n rsdt_address (rsdt_index + 1) processors_found
            | Some header =>
                if memcmp header MADT_SIGNATURE 4 =? 0 then
                  let* o := read_madt table processors_found in
                  match o with
                  | None => ret None
                  | Some processors_found => rsdt_loop n rsdt_address (rsdt_index + 1) processors_found
                  end
                else rsdt_loop n rsdt_address (rsdt_index + 1) processors_found
            end
          else rsdt_loop n rsdt_address (rsdt_index + 1) processors_found
      end
  end.

Definition read_acpi_tables : M ast Z :=
  let* o := am (find_rsdp paragraphs (PHYS_TO_VIRT BIOS_EXT_ROM)) in
  match o with
  | None => ret 0
  | Some rsdp =>
      let address := rsdt_address rsdp in
      let* valid := (if negb (address =? 0) then am (is_valid_acpi_header address) else ret false) in
      if (valid : bool) then
        let* o := am (peek_local local address SIZEOF_DT_HEADER) in
        match o with
        | None => ret E_FAIL
        | Some rsdt =>
            let total_entries := u32 (dt_length rsdt - SIZEOF_DT_HEADER) / 4 in
            let* o := rsdt_loop (Z.to_nat total_entries) address 0 0 in
            ret (default E_FAIL o)
        end
      else ret 0
  end.
End acpi.
