(* ===== verification/AcpiSpec.v ===== *)
(** * Reading the ACPI tables: the processors that are found

    The tables are described by the bytes of physical memory: checksums, the root
    table with its pointers, and tables of interrupt controllers as lists of
    entries. *)

From S2P Require Import Prelude Bits Machine Paging PagingFacts PagingSpec Kernel KList Thread ThreadSpec Message BootMemory.
From S2P Require Import Loader LoaderFacts LoaderSpec BootPaging BootPagingSpec Acpi.

Abbreviation ast := (kstate * apic_state)%type.

Lemma wp_am {A} (m : M machine A) (Q : A → ast → Prop) (L : ast → Prop) k b :
  wp m (λ a c, Q a (k <| mach := c |>, b)) (λ c, L (k <| mach := c |>, b)) (mach k) → wp (am m) Q L (k, b).
Proof. intros H. unfold am, akern, vm. apply wp_zoom. cbn [fst snd]. by apply wp_zoom. Qed.

(** ** Checksums and comparisons *)

Lemma sum8_app c l1 l2 : sum8 c (l1 ++ l2) = sum8 (sum8 c l1) l2.
Proof. apply foldl_app. Qed.

(** The checksum is the sum of the bytes, modulo 256. *)
Lemma sum8_mod l : ∀ c, 0 <= c < 256 → sum8 c l = (c + foldr Z.add 0 l) mod 256.
Proof.
  unfold sum8. induction l as [|b l IH]; intros c Hc; cbn [foldl foldr]; [rewrite Z.add_0_r; symmetry; by apply Z.mod_small|].
  rewrite IH by (apply (wrap_range 8); lia). unfold wrap. change (2 ^ 8) with 256. rewrite Zplus_mod_idemp_l. f_equal. lia.
Qed.

Lemma signed8_inj a b : 0 <= a < 256 → 0 <= b < 256 → signed 8 a = signed 8 b → a = b.
Proof. unfold signed. intros Ha Hb. rewrite !wrap_small by lia. repeat case_match; lia. Qed.

Lemma memcmp_zero n : ∀ m1 m2, (n <= length m1)%nat → (n <= length m2)%nat → Forall (λ b, 0 <= b < 256) m1 → Forall (λ b, 0 <= b < 256) m2 →
  memcmp m1 m2 n = 0 ↔ take n m1 = take n m2.
Proof.
  induction n as [|n IH]; intros [|a m1] [|b m2] L1 L2 B1 B2; cbn [length] in *; try lia; try done.
  apply Forall_cons in B1 as [A1 B1], B2 as [A2 B2]. cbn [memcmp firstn].
  change (char0 (a :: m1)) with a. change (char0 (b :: m2)) with b.
  destruct (Z.eqb_spec (signed 8 a) (signed 8 b)) as [E|N].
  - apply signed8_inj in E as ->; [|done..]. cbv iota. change (tail (b :: m1)) with m1. change (tail (b :: m2)) with m2. rewrite IH by (done || lia). split; [congruence|by intros [=]].
  - split; [destruct (_ <? _); discriminate|]. intros [= -> _]. done.
Qed.

(** ** Reading tables *)

(** ** Entries of the table of interrupt controllers *)

Definition entry_ok (e : list Z) : Prop :=
  ic_length e = Z.of_nat (length e) ∧ 2 <= ic_length e ∧ (ic_type e = TYPE_PROC_LAPIC → 8 <= ic_length e) ∧ (ic_type e = TYPE_IOAPIC → 12 <= ic_length e).

Definition usable (e : list Z) : bool :=
  (ic_type e =? TYPE_PROC_LAPIC) && (IS_FLAG_SET (get32 e 4) PROC_LAPIC_ENABLED || IS_FLAG_SET (get32 e 4) PROC_LAPIC_ONLINE).

Definition processor_of (e : list Z) (c : Processor) : Processor :=
  c <| lapic_id := get8 e 3 |> <| acpi_uid := get8 e 2 |> <| is_online := IS_FLAG_SET (get32 e 4) PROC_LAPIC_ENABLED |>.

(** The processors of a list of entries, from number [i] on. *)
Fixpoint install (P : gmap Z Processor) (i : Z) (es : list (list Z)) : gmap Z Processor :=
  match es with
  | [] => P
  | e :: es => if usable e then install (alter (processor_of e) i P) (i + 1) es else install P i es
  end.

Definition count (es : list (list Z)) : Z := Z.of_nat (length (filter (λ e, usable e = true) es)).
Definition last_ioapic (es : list (list Z)) (p : Z) : Z := foldl (λ p e, if ic_type e =? TYPE_IOAPIC then get32 e 4 else p) p es.
Definition total (es : list (list Z)) : Z := Z.of_nat (length (concat es)).

Lemma get8_take l n i : (i < n)%nat → get8 (take n l) i = get8 l i.
Proof. intros H. unfold get8. by rewrite lookup_take_lt. Qed.

Lemma get8_app l r i : (i < length l)%nat → get8 (l ++ r) i = get8 l i.
Proof. intros H. unfold get8. by rewrite lookup_app_l. Qed.

Lemma get32_take l n i : (i + 3 < n)%nat → get32 (take n l) i = get32 l i.
Proof. intros H. unfold get32, get16. by rewrite !get8_take by lia. Qed.

Lemma get32_app l r i : (i + 3 < length l)%nat → get32 (l ++ r) i = get32 l i.
Proof. intros H. unfold get32, get16. by rewrite !get8_app by lia. Qed.

Lemma count_cons e es : count (e :: es) = (if usable e then 1 else 0) + count es.
Proof. unfold count. rewrite filter_cons. case_decide as H; [rewrite H|apply not_true_is_false in H; rewrite H]; cbn [length]; lia. Qed.

Section spec.
(** The local variables of the functions, the memory before they run, and the bytes
    that may change while they run. *)
Context (local kt : Z) (lpas : list Z) (c0 : machine) (W : Z → Prop).

Record acpi_env : Prop := {
  ae_kmap : kmap c0 kt;
  ae_local : local_block c0 kt local lpas W;
  ae_dir : ∀ a, in_frame (Machine.cr3 c0 / 4096) a → ¬ W a;
  ae_length : (128 <= length lpas)%nat
}.
Hypothesis env : acpi_env.

Definition bytes (p n : Z) : list Z := load_bytes (phys c0) p (Z.to_nat n).
Definition readable (p n : Z) : Prop := 0 <= p ∧ p + n <= 2 ^ 32 ∧ ∀ a, p <= a < p + n → ¬ W a.

Lemma env_kmap c : agree W c0 c → kmap c kt.
Proof.
  intros A. destruct c as [m r]. destruct (A) as [E A']. cbn [Machine.cr3] in E. subst r.
  apply (kmap_frame c0 kt m (ae_kmap env)); apply (agree_word_free W c0 _ _ A); intros k Hk; apply (ae_dir env); unfold in_frame; lia.
Qed.

Lemma readable_sub p n q m : readable p n → p <= q → 0 <= m → q + m <= p + n → readable q m.
Proof. intros (H1 & H2 & H3) Hq Hm Hn. split_and!; [lia|lia|]. intros a Ha. apply H3. lia. Qed.

Lemma bytes_length p n : 0 <= n → Z.of_nat (length (bytes p n)) = n.
Proof. intros. unfold bytes. rewrite length_load_bytes. lia. Qed.

Lemma table_bytes_range p n : Forall (λ b, 0 <= b < 256) (bytes p n).
Proof. unfold bytes, load_bytes. apply Forall_fmap, Forall_true. intros i. apply load8_range. Qed.

Lemma table_bytes_app p n m : 0 <= n → 0 <= m → bytes p (n + m) = bytes p n ++ bytes (p + n) m.
Proof.
  intros Hn Hm. unfold bytes. rewrite Z2Nat.inj_add, load_bytes_app by lia. do 2 f_equal. lia.
Qed.

(** A [peek] gives the bytes of the table. *)
Lemma wp_read p n c (Q : option (list Z) → machine → Prop) L :
  agree W c0 c → 0 < n <= 128 → readable p n → (∀ c', agree W c0 c' → Q (Some (bytes p n)) c') → wp (peek_local local p n) Q L c.
Proof.
  intros A Hn (R1 & R2 & R3) HQ. pose proof (ae_length env) as EL.
  assert (LT : length (take (Z.to_nat n) lpas) = Z.to_nat n) by (rewrite length_take; lia).
  replace n with (Z.of_nat (length (take (Z.to_nat n) lpas))) at 1 by lia.
  eapply (wp_peek_block c kt local _ W); [by apply env_kmap|apply local_block_take; eapply local_block_agree; [apply env|done]|lia|done|lia| |].
  - intros a Ha. apply R3. lia.
  - intros c' A'. rewrite LT, (agree_load_bytes W c0) by (try done; intros a Ha; apply R3; lia). apply HQ.
    eapply agree_trans; [exact A|]. eapply agree_mono; [|exact A']. intros a H. apply (lb_written _ _ _ _ _ (ae_local env)).
    destruct H as [H|H]; [left|by right]. apply elem_of_take in H as (i & H & _). by eapply list_elem_of_lookup_2.
Qed.

(** ** Checksums *)

Definition table_length (p : Z) : Z := dt_length (bytes p SIZEOF_DT_HEADER).
Definition table_size (p : Z) : Z := Z.max SIZEOF_DT_HEADER (table_length p).
Definition checksum_ok (p : Z) : bool := sum8 0 (bytes p (table_size p)) =? 0.

Lemma get8_range l i : Forall (λ b, 0 <= b < 256) l → 0 <= get8 l i < 256.
Proof.
  intros F. unfold get8. destruct (l !! i) as [x|] eqn:E; cbn; [|lia]. rewrite Forall_forall in F. by eapply F, list_elem_of_lookup_2.
Qed.

Lemma get32_range l i : Forall (λ b, 0 <= b < 256) l → 0 <= get32 l i < 2 ^ 32.
Proof.
  intros F. unfold get32, get16. pose proof (get8_range l i F). pose proof (get8_range l (i + 1) F).
  pose proof (get8_range l (i + 2) F). pose proof (get8_range l (i + 2 + 1) F). lia.
Qed.

Lemma table_length_range p : 0 <= table_length p < 2 ^ 32.
Proof. apply get32_range, table_bytes_range. Qed.

Lemma wp_checksum_loop p len (Q : option Z → machine → Prop) L : 0 <= len < 2 ^ 32 → ∀ fuel br sum c,
  agree W c0 c → 0 <= br → readable p (Z.max br len) → (Z.to_nat ((len - br + 127) / 128) < fuel)%nat →
  (∀ c', agree W c0 c' → Q (Some (sum8 sum (bytes (p + br) (Z.max 0 (len - br))))) c') →
  wp (checksum_loop local fuel p br len sum) Q L c.
Proof.
  intros Hlen. induction fuel as [|fuel IH]; intros br sum c A Hbr R Hf HQ; [lia|]. cbn [checksum_loop]. unfold SIZEOF_BUFFER.
  destruct (Z.ltb_spec br len) as [Lt|Ge]; [|wp_step; specialize (HQ c A); by replace (Z.max 0 (len - br)) with 0 in HQ by lia].
  set (n := Z.min 128 (len - br)). rewrite wrap_small by (destruct R; lia).
  wp_step. apply wp_read; [done|lia|eapply readable_sub; [exact R|lia..]|]. intros c1 A1. rewrite wrap_small by lia.
  apply IH; [done|lia|eapply readable_sub; [exact R|lia..]|zdiv|].
  intros c2 A2. rewrite <- sum8_app. specialize (HQ c2 A2).
  replace (Z.max 0 (len - br)) with (n + Z.max 0 (len - (br + n))) in HQ by lia. rewrite table_bytes_app in HQ by lia. by rewrite Z.add_assoc.
Qed.

Lemma wp_is_valid_acpi_header p c (Q : bool → machine → Prop) L :
  agree W c0 c → readable p (table_size p) → (∀ c', agree W c0 c' → Q (checksum_ok p) c') → wp (is_valid_acpi_header local p) Q L c.
Proof.
  intros A R HQ. unfold is_valid_acpi_header. pose proof (table_length_range p) as RL. unfold table_size, SIZEOF_DT_HEADER in *.
  wp_step. apply wp_read; [done|lia|eapply readable_sub; [exact R|lia..]|]. intros c1 A1. cbv zeta. change (dt_length (bytes p 36)) with (table_length p).
  wp_step. apply wp_checksum_loop; [done|done|lia|done|unfold checksum_fuel, SIZEOF_BUFFER; zdiv|]. intros c2 A2. wp_step.
  rewrite <- sum8_app, <- table_bytes_app by lia. specialize (HQ c2 A2). unfold checksum_ok, table_size, SIZEOF_DT_HEADER in HQ.
  replace (36 + Z.max 0 (table_length p - 36)) with (Z.max 36 (table_length p)) by lia. exact HQ.
Qed.

Lemma table_bytes_take p n m : 0 <= n <= m → bytes p n = take (Z.to_nat n) (bytes p m).
Proof.
  intros H. replace m with (n + (m - n)) by lia. rewrite table_bytes_app by lia. rewrite take_app_le; [|pose proof (bytes_length p n); lia].
  rewrite take_ge; [done|]. pose proof (bytes_length p n). lia.
Qed.

(** What the code sees of the first of some entries. *)
Lemma entry_bytes p e es n : bytes p (total (e :: es)) = concat (e :: es) → 0 <= n <= Z.of_nat (length e) → bytes p n = take (Z.to_nat n) e.
Proof.
  intros E Hn. rewrite (table_bytes_take p n (total (e :: es))), E by (unfold total; cbn [concat]; rewrite length_app; lia).
  cbn [concat]. by rewrite take_app_le by lia.
Qed.

Lemma wp_add_processor e found n k a (Q : Z → ast → Prop) L :
  ic_type e = TYPE_PROC_LAPIC → 8 <= Z.of_nat n → (usable e = true → is_Some (processors k !! found)) →
  Q (found + if usable e then 1 else 0) ((if usable e then k <| processors ::= alter (processor_of e) found |> else k), a) →
  wp (add_processor (take n e) found) Q L (k, a).
Proof.
  intros Ty Hn HP HQ. unfold add_processor, usable in *. rewrite get32_take, !get8_take by lia. rewrite Ty, Z.eqb_refl in HQ, HP. cbn [andb] in HQ, HP.
  destruct (IS_FLAG_SET (get32 e 4) PROC_LAPIC_ENABLED || IS_FLAG_SET (get32 e 4) PROC_LAPIC_ONLINE).
  - destruct (HP eq_refl) as [c Hc]. wp_step. unfold akern. apply wp_zoom. wp_step. unfold processor_at. wp_step. wp_step. cbn [fst]. rewrite Hc. cbn [deref]. wp_step. wp_step. wp_step.
    assert (E : alter (processor_of e) found (processors k) = <[found := processor_of e c]> (processors k)).
    { apply map_eq. intros j. destruct (decide (found = j)) as [<-|Ne]; [by rewrite lookup_alter_eq, lookup_insert_eq, Hc|].
      by rewrite lookup_alter_ne, lookup_insert_ne. }
    unfold update in HQ. rewrite E in HQ. exact HQ.
  - wp_step. by rewrite Z.add_0_r in HQ.
Qed.

(** The entries [es] are what is in memory at [p]. *)
Record entries_at (p : Z) (es : list (list Z)) : Prop := {
  ea_bytes : bytes p (total es) = concat es;
  ea_readable : readable p (total es);
  ea_ok : Forall entry_ok es
}.

Lemma total_cons e es : total (e :: es) = Z.of_nat (length e) + total es.
Proof. unfold total. cbn [concat]. rewrite length_app. lia. Qed.

Lemma entries_tail p e es : entries_at p (e :: es) → entries_at (p + Z.of_nat (length e)) es.
Proof.
  intros [B R O]. apply Forall_cons in O as [_ O]. assert (0 <= total es) by (unfold total; lia). split; [|eapply readable_sub; [exact R|rewrite ?total_cons; lia..]|done].
  rewrite total_cons, table_bytes_app in B by lia. cbn [concat] in B. apply app_inj_1 in B as [_ B]; [done|].
  pose proof (bytes_length p (Z.of_nat (length e))). lia.
Qed.

Lemma wp_madt_entry t off e es found k a (Q : option (Z * Z) → ast → Prop) L :
  agree W c0 (mach k) → 0 <= t → 0 <= off → entries_at (t + off) (e :: es) → (usable e = true → is_Some (processors k !! found)) →
  (∀ c', agree W c0 c' →
    Q (Some (found + (if usable e then 1 else 0), Z.of_nat (length e)))
      ((if usable e then k <| processors ::= alter (processor_of e) found |> else k) <| mach := c' |>, a <| ioapic_ptr := last_ioapic [e] (ioapic_ptr a) |>)) →
  wp (madt_entry local t off found) Q L (k, a).
Proof.
  intros A Ht Hoff EA HP HQ. pose proof (Forall_inv (ea_ok _ _ EA)) as (O1 & O2 & O3 & O4). pose proof (ea_readable _ _ EA) as R.
  rewrite total_cons in R. assert (T0 : 0 <= total es) by (unfold total; lia).
  unfold madt_entry. rewrite !wrap_small by (destruct R; lia).
  wp_step. apply wp_am. apply wp_read; [done|lia|eapply readable_sub; [exact R|lia..]|]. intros c1 A1.
  rewrite (entry_bytes _ e es) by (apply EA || lia). change (Z.to_nat 2) with 2%nat.
  assert (ET : ic_type (take 2 e) = ic_type e) by (unfold ic_type; by rewrite get8_take by lia).
  assert (EN : ic_length (take 2 e) = Z.of_nat (length e)) by (rewrite <- O1; unfold ic_length; by rewrite get8_take by lia).
  cbv iota. rewrite ET, EN.
  destruct (Z.eqb_spec (ic_type e) TYPE_PROC_LAPIC) as [T|T].
  { wp_step. apply wp_am. apply wp_read; [done|lia|eapply readable_sub; [exact R|lia..]|]. intros c2 A2.
    rewrite (entry_bytes _ e es) by (apply EA || lia). wp_step. apply wp_add_processor; [done|lia|exact HP|]. wp_step.
    specialize (HQ c2 A2). unfold last_ioapic in HQ. cbn [foldl] in HQ. rewrite T in HQ. change (TYPE_PROC_LAPIC =? TYPE_IOAPIC) with false in HQ. cbv iota in HQ.
    destruct (usable e), a; exact HQ. }
  assert (UF : usable e = false) by (unfold usable; by rewrite (proj2 (Z.eqb_neq _ _) T)). rewrite UF, Z.add_0_r in HQ.
  destruct (Z.eqb_spec (ic_type e) TYPE_IOAPIC) as [T1|T1].
  { wp_step. apply wp_am. apply wp_read; [done|lia|eapply readable_sub; [exact R|lia..]|]. intros c2 A2.
    rewrite (entry_bytes _ e es) by (apply EA || lia). wp_step. wp_step. wp_step. rewrite get32_take by lia.
    specialize (HQ c2 A2). unfold last_ioapic in HQ. cbn [foldl] in HQ. rewrite T1, Z.eqb_refl in HQ. exact HQ. }
  wp_step. specialize (HQ c1 A1). unfold last_ioapic in HQ. cbn [foldl] in HQ. rewrite (proj2 (Z.eqb_neq _ _) T1) in HQ. destruct a. exact HQ.
Qed.

(** Entries of the array [processors]. *)
Definition all_processors (k : kstate) : Prop := ∀ i, 0 <= i < 64 → is_Some (processors k !! i).

Lemma wp_madt_loop t len (Q : option Z → ast → Prop) L : 0 <= t → len < 2 ^ 32 → ∀ es fuel off found k a,
  agree W c0 (mach k) → 0 <= off → entries_at (t + off) es → off + total es = len → (length es < fuel)%nat →
  0 <= found → found + count es <= 64 → all_processors k →
  (∀ c', agree W c0 c' →
    Q (Some (found + count es)) (k <| processors := install (processors k) found es |> <| mach := c' |>, a <| ioapic_ptr ::= last_ioapic es |>)) →
  wp (madt_loop local fuel t off len found) Q L (k, a).
Proof.
  intros Ht Hlen. induction es as [|e es IH]; intros [|fuel] off found k a A Hoff EA HT Hf H0 H64 HP HQ; try (cbn in Hf; lia).
  - cbn [madt_loop]. unfold total in HT. cbn in HT. replace (off <? len) with false by lia. wp_step.
    specialize (HQ _ A). unfold count in HQ. cbn in HQ. rewrite Z.add_0_r in HQ. destruct k, a. exact HQ.
  - cbn [madt_loop]. rewrite total_cons in HT. pose proof (Forall_inv (ea_ok _ _ EA)) as (O1 & O2 & _).
    rewrite count_cons in H64, HQ. assert (T0 : 0 <= total es) by (unfold total; lia). assert (C0 : 0 <= count es) by (unfold count; lia).
    replace (off <? len) with true by lia. wp_step.
    eapply wp_madt_entry; [done|done|done|exact EA|intros U; rewrite U in H64; apply HP; lia|]. intros c1 A1. rewrite wrap_small by lia.
    apply IH; [done|lia|replace (t + (off + Z.of_nat (length e))) with (t + off + Z.of_nat (length e)) by lia; by apply entries_tail|lia|cbn in Hf; lia|destruct (usable e); lia|destruct (usable e); lia| |].
    { intros i Hi. destruct (usable e); cbn; [|by apply HP]. destruct (decide (found = i)) as [<-|Ne];
        [rewrite lookup_alter_eq; by apply fmap_is_Some, HP|rewrite lookup_alter_ne by done; by apply HP]. }
    intros c2 A2. specialize (HQ c2 A2). cbn [install] in HQ. rewrite <- Z.add_assoc. destruct (usable e); [exact HQ|]. rewrite (Z.add_0_r found). exact HQ.
Qed.

(** A table of interrupt controllers with the entries [es]. *)
Record madt_at (t : Z) (es : list (list Z)) : Prop := {
  ma_header : readable t SIZEOF_MADT_HEADER;
  ma_length : table_length t = SIZEOF_MADT_HEADER + total es;
  ma_entries : entries_at (t + SIZEOF_MADT_HEADER) es
}.

Lemma entries_short es : Forall entry_ok es → Z.of_nat (length es) <= total es.
Proof.
  induction 1 as [|e es (O1 & O2 & _) _ IH]; [unfold total; cbn; lia|]. rewrite total_cons. cbn [length]. lia.
Qed.

Lemma wp_read_madt t es found k a (Q : option Z → ast → Prop) L :
  madt_at t es → agree W c0 (mach k) → 0 <= found → found + count es <= 64 → all_processors k →
  (∀ c', agree W c0 c' →
    Q (Some (found + count es)) (k <| processors := install (processors k) found es |> <| mach := c' |>,
      a <| lapic_ptr := lapic_address (bytes t SIZEOF_MADT_HEADER) |> <| ioapic_ptr ::= last_ioapic es |>)) →
  wp (read_madt local t found) Q L (k, a).
Proof.
  intros [R ML EA] A H0 H64 HP HQ. pose proof (table_length_range t) as TR. pose proof (entries_short es (ea_ok _ _ EA)) as SH.
  unfold read_madt. wp_step. apply wp_am. apply wp_read; [done|unfold SIZEOF_MADT_HEADER; lia|done|]. intros c1 A1.
  assert (EL : dt_length (bytes t SIZEOF_MADT_HEADER) = table_length t).
  { unfold table_length, dt_length. rewrite (table_bytes_take t SIZEOF_DT_HEADER SIZEOF_MADT_HEADER) by (unfold SIZEOF_DT_HEADER, SIZEOF_MADT_HEADER; lia).
    rewrite get32_take; [done|]. unfold SIZEOF_DT_HEADER. lia. }
  wp_step. wp_step. rewrite EL. unfold SIZEOF_MADT_HEADER in *. destruct R as [R _].
  eapply (wp_madt_loop t (table_length t)); [done|lia|done|lia|exact EA|lia|unfold madt_fuel; lia|done|done|done|]. exact HQ.
Qed.

(** ** The root table *)

(** What a pointer of the root table points to: a table of interrupt controllers
    with its entries, or something else. *)
Inductive table_kind (t : Z) : option (list (list Z)) → Prop :=
| other_table : readable t (table_size t) → checksum_ok t = false ∨ take 4 (bytes t SIZEOF_DT_HEADER) ≠ MADT_SIGNATURE → table_kind t None
| madt_table es : readable t (table_size t) → checksum_ok t = true → take 4 (bytes t SIZEOF_DT_HEADER) = MADT_SIGNATURE →
    madt_at t es → table_kind t (Some es).

(** The tables [ts] from the [i]-th pointer on. *)
Fixpoint tables_from (r i : Z) (ts : list (Z * option (list (list Z)))) : Prop :=
  match ts with
  | [] => True
  | (t, o) :: ts => get32 (bytes (r + SIZEOF_DT_HEADER + i * 4) 4) 0 = t ∧ table_kind t o ∧ tables_from r (i + 1) ts
  end.

Definition all_entries (ts : list (Z * option (list (list Z)))) : list (list Z) := concat ((default [] ∘ snd) <$> ts).

Definition apic_after (ts : list (Z * option (list (list Z)))) (a : apic_state) : apic_state :=
  foldl (λ a '(t, o), match o with
                      | Some es => a <| lapic_ptr := lapic_address (bytes t SIZEOF_MADT_HEADER) |> <| ioapic_ptr ::= last_ioapic es |>
                      | None => a
                      end) a ts.

Lemma install_app es1 es2 : ∀ P i, install P i (es1 ++ es2) = install (install P i es1) (i + count es1) es2.
Proof.
  induction es1 as [|e es1 IH]; intros P i; cbn [app install]; [unfold count; cbn; by rewrite Z.add_0_r|].
  rewrite count_cons. destruct (usable e); rewrite IH; f_equal; lia.
Qed.

Lemma count_app es1 es2 : count (es1 ++ es2) = count es1 + count es2.
Proof. unfold count. rewrite filter_app, length_app. lia. Qed.

Lemma install_Some es : ∀ P i j, is_Some (P !! j) → is_Some (install P i es !! j).
Proof.
  induction es as [|e es IH]; intros P i j H; cbn [install]; [done|]. destruct (usable e); apply IH; [|done].
  destruct (decide (i = j)) as [<-|Ne]; [rewrite lookup_alter_eq; by apply fmap_is_Some|by rewrite lookup_alter_ne].
Qed.

Lemma signature_test t : (memcmp (bytes t SIZEOF_DT_HEADER) MADT_SIGNATURE 4 =? 0) = bool_decide (take 4 (bytes t SIZEOF_DT_HEADER) = MADT_SIGNATURE).
Proof.
  apply eq_true_iff_eq. rewrite Z.eqb_eq, bool_decide_eq_true. pose proof (bytes_length t SIZEOF_DT_HEADER) as BL. unfold SIZEOF_DT_HEADER in *.
  apply memcmp_zero; [lia|done|apply table_bytes_range|repeat constructor; lia].
Qed.

Lemma wp_rsdt_loop r (Q : option Z → ast → Prop) L : ∀ ts i found k a,
  agree W c0 (mach k) → 0 <= i → readable r (SIZEOF_DT_HEADER + 4 * (i + Z.of_nat (length ts))) → tables_from r i ts →
  0 <= found → found + count (all_entries ts) <= 64 → all_processors k →
  (∀ c', agree W c0 c' →
    Q (Some (found + count (all_entries ts))) (k <| processors := install (processors k) found (all_entries ts) |> <| mach := c' |>, apic_after ts a)) →
  wp (rsdt_loop local (length ts) r i found) Q L (k, a).
Proof.
  induction ts as [|[t o] ts IH]; intros i found k a A Hi R HT H0 H64 HP HQ; cbn [length rsdt_loop].
  { wp_step. specialize (HQ _ A). unfold count, all_entries in HQ. cbn in HQ. rewrite Z.add_0_r in HQ. destruct k, a. exact HQ. }
  destruct HT as (Et & TK & HT). cbn [length] in R. unfold SIZEOF_DT_HEADER in R. assert (R0 := R). destruct R0 as (R1 & R2 & _).
  rewrite (wrap_small 32 (r + _ + _)) by (unfold SIZEOF_DT_HEADER; lia).
  wp_step. apply wp_am. apply wp_read; [done|lia|eapply readable_sub; [exact R|unfold SIZEOF_DT_HEADER; lia..]|]. intros c1 A1. cbv zeta. rewrite Et.
  change (all_entries ((t, o) :: ts)) with (default [] o ++ all_entries ts) in H64, HQ. rewrite count_app in H64, HQ.
  assert (C1 : 0 <= count (default [] o)) by (unfold count; lia). assert (C2 : 0 <= count (all_entries ts)) by (unfold count; lia).
  assert (R' : readable r (SIZEOF_DT_HEADER + 4 * (i + 1 + Z.of_nat (length ts)))) by (eapply readable_sub; [exact R|unfold SIZEOF_DT_HEADER; lia..]).
  assert (RT : readable t (table_size t)) by by destruct TK.
  wp_step. apply wp_am. apply wp_is_valid_acpi_header; [exact A1|exact RT|]. intros c2 A2.
  assert (SKIP : o = None → ∀ c, agree W c0 c → wp (rsdt_loop local (length ts) r (i + 1) found) Q L (k <| mach := c |>, a)).
  { intros -> c Ac. apply IH; [done|lia|done|done|done|lia|exact HP|]. intros c' A'. exact (HQ c' A'). }
  destruct (checksum_ok t) eqn:CO; [|inversion TK; subst; [by apply SKIP|congruence]].
  wp_step. apply wp_am. apply wp_read; [exact A2|unfold SIZEOF_DT_HEADER; lia|eapply readable_sub; [exact RT|unfold table_size, SIZEOF_DT_HEADER; lia..]|]. intros c3 A3.
  rewrite signature_test. case_bool_decide as SG; [|inversion TK; subst; [by apply SKIP|congruence]].
  inversion TK as [? [?|?]|es ? _ _ MA]; subst; [congruence|congruence|]. change (default [] (Some es)) with es in *.
  wp_step. eapply wp_read_madt; [exact MA|exact A3|done|lia|exact HP|]. intros c4 A4.
  apply IH; [exact A4|lia|exact R'|exact HT|lia|lia|intros j Hj; by apply install_Some, HP|]. intros c5 A5. specialize (HQ c5 A5).
  rewrite <- Z.add_assoc. rewrite install_app in HQ. exact HQ.
Qed.

(** ** The root pointer *)

(** The memory of the BIOS behind the kernel, which reading tables does not change. *)
Record bios_mapped : Prop := {
  bi_translate : ∀ a, BIOS_EXT_ROM <= a < EXTENDED_MEMORY → translate c0 (KERNEL_LOWER_MEM + a) = Some a;
  bi_walk : ∀ a w i, BIOS_EXT_ROM <= a < EXTENDED_MEMORY → w ∈ walk c0 (KERNEL_LOWER_MEM + a) → 0 <= i < 4 → ¬ W (w + i);
  bi_apart : ∀ a, BIOS_EXT_ROM <= a < EXTENDED_MEMORY → ¬ W a
}.

Definition rsdp_valid (q : Z) : bool := bool_decide (bytes q 8 = RSDP_SIGNATURE) && (sum8 0 (bytes q 20) =? 0).

(** The first paragraph of the BIOS with a valid root pointer. *)
Record rsdp_at (q : Z) : Prop := {
  rp_range : BIOS_EXT_ROM <= q ∧ q + 36 <= EXTENDED_MEMORY;
  rp_paragraph : q mod 16 = 0;
  rp_valid : rsdp_valid q = true;
  rp_first : ∀ p, BIOS_EXT_ROM <= p < q → p mod 16 = 0 → rsdp_valid p = false
}.

Hypothesis bios : bios_mapped.

Lemma bios_bytes n a c : agree W c0 c → BIOS_EXT_ROM <= a → a + Z.of_nat n <= EXTENDED_MEMORY →
  local_bytes n (KERNEL_LOWER_MEM + a) c = Ret (bytes a (Z.of_nat n)) c.
Proof.
  intros A H1 H2. unfold BIOS_EXT_ROM, EXTENDED_MEMORY in *. unfold bytes. rewrite Nat2Z.id.
  rewrite <- (agree_load_bytes W c0 c) by (try done; intros x Hx; apply (bi_apart bios); unfold BIOS_EXT_ROM, EXTENDED_MEMORY; lia).
  rewrite <- load8_consec, <- (length_consec a n) at 1. apply local_bytes_run; [|unfold KERNEL_LOWER_MEM; lia].
  intros i pa Hi. apply consec_lookup in Hi as [-> Hi]. rewrite wrap_small by (unfold KERNEL_LOWER_MEM; lia). rewrite <- Z.add_assoc.
  assert (HB : BIOS_EXT_ROM <= a + Z.of_nat i < EXTENDED_MEMORY) by (unfold BIOS_EXT_ROM, EXTENDED_MEMORY; lia).
  destruct (translate_frame c0 c (KERNEL_LOWER_MEM + (a + Z.of_nat i))) as [-> _]; [apply A| |by apply (bi_translate bios)].
  intros w Hw. apply (agree_word_free W); [done|]. intros j Hj. by eapply (bi_walk bios).
Qed.

Lemma rsdp_signature q : (memcmp (bytes q 8) RSDP_SIGNATURE 8 =? 0) = bool_decide (bytes q 8 = RSDP_SIGNATURE).
Proof.
  apply eq_true_iff_eq. rewrite Z.eqb_eq, bool_decide_eq_true. pose proof (bytes_length q 8 ltac:(lia)) as BL.
  rewrite memcmp_zero; [|lia|done|apply table_bytes_range|repeat constructor; lia]. rewrite take_ge by lia. done.
Qed.

(** One paragraph. *)
Lemma wp_paragraph n p (Q : option (list Z) → machine → Prop) L c :
  agree W c0 c → BIOS_EXT_ROM <= p → p + 36 <= EXTENDED_MEMORY →
  (rsdp_valid p = true → Q (Some (bytes p 36)) c) →
  (rsdp_valid p = false → wp (find_rsdp n (KERNEL_LOWER_MEM + (p + 16))) Q L c) →
  wp (find_rsdp (S n) (KERNEL_LOWER_MEM + p)) Q L c.
Proof.
  intros A H1 H2 HT HF. cbn [find_rsdp]. unfold rsdp_valid in HT, HF.
  assert (EN : u32 (KERNEL_LOWER_MEM + p + PARAGRAPH_LEN) = KERNEL_LOWER_MEM + (p + 16)).
  { unfold KERNEL_LOWER_MEM, PARAGRAPH_LEN, BIOS_EXT_ROM, EXTENDED_MEMORY in *. rewrite wrap_small; lia. }
  rewrite EN. wp_step. eapply wp_of_ret; [apply (bios_bytes 8); [exact A|exact H1|lia]|]. cbv beta. rewrite rsdp_signature.
  destruct (bool_decide (bytes p 8 = RSDP_SIGNATURE)); [|by apply HF].
  wp_step. eapply wp_of_ret; [apply (bios_bytes 20); [exact A|exact H1|lia]|]. cbv beta. change (Z.of_nat 20) with 20.
  destruct (sum8 0 (bytes p 20) =? 0); [|by apply HF].
  wp_step. eapply wp_of_ret; [apply (bios_bytes 36); [exact A|exact H1|lia]|]. wp_step. by apply HT.
Qed.

Lemma wp_find_rsdp q (Q : option (list Z) → machine → Prop) L c : rsdp_at q → agree W c0 c → Q (Some (bytes q 36)) c → ∀ m n p,
  BIOS_EXT_ROM <= p → p mod 16 = 0 → q = p + 16 * Z.of_nat m → (m < n)%nat → wp (find_rsdp n (KERNEL_LOWER_MEM + p)) Q L c.
Proof.
  intros [[R1 R2] RP RV RF] A HQ. induction m as [|m IH]; intros n p Hp Pp Eq Hn; (destruct n as [|n]; [lia|]);
    (apply wp_paragraph; [exact A|exact Hp|lia|intros V|intros V]).
  - replace p with q by lia. exact HQ.
  - replace p with q in V by lia. congruence.
  - rewrite (RF p) in V by (lia || exact Pp). discriminate V.
  - apply IH; [lia|zdiv|lia|lia].
Qed.

(** ** All tables *)

Record acpi_tables (q : Z) (ts : list (Z * option (list (list Z)))) : Prop := {
  at_rsdp : rsdp_at q;
  at_root : rsdt_address (bytes q 36) ≠ 0;
  at_readable : readable (rsdt_address (bytes q 36)) (table_size (rsdt_address (bytes q 36)));
  at_checksum : checksum_ok (rsdt_address (bytes q 36)) = true;
  at_length : table_length (rsdt_address (bytes q 36)) = SIZEOF_DT_HEADER + 4 * Z.of_nat (length ts);
  at_tables : tables_from (rsdt_address (bytes q 36)) 0 ts;
  at_fit : count (all_entries ts) <= 64
}.

Lemma wp_read_acpi_tables q ts k a (Q : Z → ast → Prop) L :
  acpi_tables q ts → agree W c0 (mach k) → all_processors k →
  (∀ c', agree W c0 c' → Q (count (all_entries ts)) (k <| processors := install (processors k) 0 (all_entries ts) |> <| mach := c' |>, apic_after ts a)) →
  wp (read_acpi_tables local) Q L (k, a).
Proof.
  intros [RA RN RR RC RL RT RF] A HP HQ. set (r := rsdt_address (bytes q 36)) in *. pose proof (table_length_range r) as TR.
  unfold read_acpi_tables. wp_step. apply wp_am. pose proof (rp_range _ RA) as [Q1 Q2]. pose proof (rp_paragraph _ RA) as QP. unfold BIOS_EXT_ROM, EXTENDED_MEMORY in Q1, Q2.
  change (PHYS_TO_VIRT BIOS_EXT_ROM) with (KERNEL_LOWER_MEM + BIOS_EXT_ROM).
  eapply (wp_find_rsdp q) with (m := Z.to_nat ((q - BIOS_EXT_ROM) / 16));
    [exact RA|exact A| |lia|reflexivity|unfold BIOS_EXT_ROM; zdiv|unfold paragraphs, BIOS_EXT_ROM, EXTENDED_MEMORY, PARAGRAPH_LEN; zdiv].
  fold r. cbv zeta.
  replace (negb (r =? 0)) with true by lia. cbv iota. wp_step. apply wp_am. apply wp_is_valid_acpi_header; [exact A|exact RR|]. intros c1 A1. rewrite RC.
  wp_step. apply wp_am. apply wp_read; [exact A1|unfold SIZEOF_DT_HEADER; lia|eapply readable_sub; [exact RR|unfold table_size, SIZEOF_DT_HEADER; lia..]|]. intros c2 A2.
  fold (table_length r). cbv zeta. rewrite RL. replace (Z.to_nat _) with (length ts) by (unfold SIZEOF_DT_HEADER in *; rewrite wrap_small by lia; zdiv).
  wp_step. apply wp_rsdt_loop; [exact A2|lia|eapply readable_sub; [exact RR|unfold table_size, SIZEOF_DT_HEADER in *; lia..]|exact RT|lia|lia|exact HP|].
  intros c3 A3. wp_step. exact (HQ c3 A3).
Qed.

End spec.

(** The processors of the entries, and the others. *)
Lemma install_lookup es : ∀ P j i e, filter (λ e, usable e = true) es !! i = Some e →
  install P j es !! (j + Z.of_nat i) = processor_of e <$> P !! (j + Z.of_nat i).
Proof.
  induction es as [|x es IH]; intros P j i e H; [done|]. cbn [install]. rewrite filter_cons in H. case_decide as U.
  - rewrite U. destruct i as [|i]; cbn in H.
    + injection H as ->. rewrite Z.add_0_r. clear IH. assert (HI : ∀ es P n, j < n → install P n es !! j = P !! j).
      { clear. induction es as [|x es IH]; intros P n Hn; cbn [install]; [done|]. destruct (usable x); rewrite IH by lia; [|done]. by rewrite lookup_alter_ne by lia. }
      rewrite HI by lia. by rewrite lookup_alter_eq.
    + replace (j + Z.of_nat (S i)) with (j + 1 + Z.of_nat i) by lia. rewrite (IH _ (j + 1) i e H). by rewrite lookup_alter_ne by lia.
  - apply not_true_is_false in U. rewrite U. by apply IH.
Qed.

Lemma install_others es : ∀ P j i, ¬ j <= i < j + count es → install P j es !! i = P !! i.
Proof.
  induction es as [|x es IH]; intros P j i H; cbn [install]; [done|]. rewrite count_cons in H. assert (0 <= count es) by (unfold count; lia).
  destruct (usable x); rewrite IH by lia; [|done]. by rewrite lookup_alter_ne by lia.
Qed.

(** An entry without a length keeps the loop where it is: it has no end. *)
Theorem madt_loop_endless local kt lpas W t off len found k a :
  acpi_env local kt lpas (mach k) W → 0 <= t → 0 <= off < len → len < 2 ^ 32 → readable W (t + off) 2 → bytes (mach k) (t + off) 2 = [9; 0] →
  ∀ fuel, madt_loop local fuel t off len found (k, a) = Fault OutOfFuel.
Proof.
  intros EN Ht Hoff Hlen R E fuel.
  assert (G : ∀ c, agree W (mach k) c → madt_loop local fuel t off len found (k <| mach := c |>, a) = Fault OutOfFuel).
  { induction fuel as [|fuel IH]; intros c A; [done|]. cbn [madt_loop]. replace (off <? len) with true by lia.
    destruct (wp_ret_inv (madt_entry local t off found) (λ o s, o = Some (found, 0) ∧ ∃ c', agree W (mach k) c' ∧ s = (k <| mach := c' |>, a)) (k <| mach := c |>, a))
      as (o & s & E1 & -> & c' & A' & ->).
    - unfold madt_entry. rewrite wrap_small by (destruct R; lia). wp_step. apply wp_am. eapply wp_read; [exact EN|exact A|lia|exact R|]. intros c' A'.
      rewrite E. apply (wp_ret (Some (found, 0))). split; [done|]. eauto.
    - unfold bind. rewrite E1. rewrite Z.add_0_r, wrap_small by lia. by apply IH. }
  destruct k. apply G, agree_refl.
Qed.

(** C19. [read_acpi_tables] returns the number of processors that the ACPI tables list
    as enabled or online: it finds the root pointer in the memory of the BIOS, checks
    the sums, and goes through all tables and all entries of the tables of interrupt
    controllers.  The processors get their numbers in this order, the addresses of the
    interrupt controllers are those of the last entries, and nothing else changes but
    bytes of [W], among which are the local variables and the temporary window. *)
Theorem read_acpi_tables_finds local kt lpas W k a q ts :
  acpi_env local kt lpas (mach k) W → bios_mapped (mach k) W → acpi_tables (mach k) W q ts → all_processors k →
  ∃ c' P, read_acpi_tables local (k, a) = Ret (count (all_entries ts)) (k <| processors := P |> <| mach := c' |>, apic_after (mach k) ts a) ∧
    agree W (mach k) c' ∧
    (∀ i e, filter (λ e, usable e = true) (all_entries ts) !! i = Some e → P !! Z.of_nat i = processor_of e <$> processors k !! Z.of_nat i) ∧
    (∀ i, ¬ 0 <= i < count (all_entries ts) → P !! i = processors k !! i).
Proof.
  intros EN BI AT AP. destruct (wp_ret_inv (read_acpi_tables local)
    (λ r s, r = count (all_entries ts) ∧ ∃ c', agree W (mach k) c' ∧
      s = (k <| processors := install (processors k) 0 (all_entries ts) |> <| mach := c' |>, apic_after (mach k) ts a)) (k, a)) as (r & s & E & -> & c' & A & ->).
  - eapply wp_read_acpi_tables; [exact EN|exact BI|exact AT|apply agree_refl|exact AP|]. intros c' A. eauto.
  - exists c', (install (processors k) 0 (all_entries ts)). split_and!; [exact E|exact A| |].
    + intros i e H. apply (install_lookup _ _ 0 i e H).
    + intros i H. by apply install_others.
Qed.

(** ** The tables while other memory is written *)

Section other_memory.
Context (W : Z → Prop) (c c' : machine).
Hypothesis apart : ∀ a, ¬ W a → load8 (phys c') a = load8 (phys c) a.
Hypothesis low : ∀ a, W a → EXTENDED_MEMORY <= a.

Lemma bytes_same p n : readable W p n → bytes c' p n = bytes c p n.
Proof.
  intros (_ & _ & R). unfold bytes, load_bytes. apply list_fmap_ext. intros i x Hx. apply lookup_seq in Hx as [-> Hi]. apply apart, R. lia.
Qed.

Lemma low_readable p n : 0 <= p → p + n <= EXTENDED_MEMORY → readable W p n.
Proof. unfold EXTENDED_MEMORY. intros H1 H2. split_and!; [lia|lia|]. intros a Ha Wa. apply low in Wa. unfold EXTENDED_MEMORY in Wa. lia. Qed.

Lemma length_same p : readable W p SIZEOF_DT_HEADER → table_length c' p = table_length c p.
Proof. intros R. unfold table_length. by rewrite bytes_same. Qed.

Lemma header_readable p : readable W p (table_size c p) → readable W p SIZEOF_DT_HEADER.
Proof. intros R. eapply readable_sub; [exact R|unfold table_size, SIZEOF_DT_HEADER; lia..]. Qed.

Lemma size_same p : readable W p (table_size c p) → table_size c' p = table_size c p.
Proof. intros R. unfold table_size. by rewrite length_same by by apply header_readable. Qed.

Lemma checksum_same p : readable W p (table_size c p) → checksum_ok c' p = checksum_ok c p.
Proof. intros R. unfold checksum_ok. rewrite size_same by done. by rewrite bytes_same. Qed.

Lemma madt_same t es : madt_at c W t es → madt_at c' W t es.
Proof.
  intros [R ML [E1 E2 E3]]. split; [done| |split; [|done|done]].
  - rewrite length_same; [done|]. eapply readable_sub; [exact R|unfold SIZEOF_DT_HEADER, SIZEOF_MADT_HEADER; lia..].
  - by rewrite bytes_same.
Qed.

Lemma kind_same t o : table_kind c W t o → table_kind c' W t o.
Proof.
  intros [R H|es R C S MA]; assert (RH := header_readable t R).
  - apply other_table; [by rewrite size_same|]. by rewrite checksum_same, bytes_same.
  - apply madt_table; [by rewrite size_same|by rewrite checksum_same|by rewrite bytes_same|by apply madt_same].
Qed.

Lemma tables_same r ts : ∀ i, 0 <= i → readable W r (SIZEOF_DT_HEADER + 4 * (i + Z.of_nat (length ts))) → tables_from c W r i ts → tables_from c' W r i ts.
Proof.
  induction ts as [|[t o] ts IH]; intros i Hi R H; [done|]. destruct H as (H1 & H2 & H3). cbn [length] in R. unfold SIZEOF_DT_HEADER in R. split_and!.
  - rewrite bytes_same; [done|]. eapply readable_sub; [exact R|unfold SIZEOF_DT_HEADER; lia..].
  - by apply kind_same.
  - apply IH; [lia| |done]. eapply readable_sub; [exact R|unfold SIZEOF_DT_HEADER; lia..].
Qed.

Lemma rsdp_same q : BIOS_EXT_ROM <= q → q + 20 <= EXTENDED_MEMORY → rsdp_valid c' q = rsdp_valid c q.
Proof. unfold BIOS_EXT_ROM. intros H1 H2. unfold rsdp_valid. by rewrite !bytes_same by (apply low_readable; lia). Qed.

Lemma acpi_tables_same q ts : acpi_tables c W q ts → acpi_tables c' W q ts.
Proof.
  intros [[RR RP RV RF] RN R RC RL RT RF']. assert (RR' := RR). unfold BIOS_EXT_ROM in RR'.
  assert (EQ : bytes c' q 36 = bytes c q 36) by (apply bytes_same, low_readable; lia). split; rewrite ?EQ.
  - split; [done|done|rewrite rsdp_same by lia; done|]. intros p H1 H2. rewrite rsdp_same by lia. by apply RF.
  - done.
  - by rewrite size_same.
  - by rewrite checksum_same.
  - rewrite length_same; [done|by apply header_readable].
  - apply tables_same; [lia| |done]. eapply readable_sub; [exact R|unfold table_size, SIZEOF_DT_HEADER in *; lia..].
  - done.
Qed.
End other_memory.

(** What the tables say of the interrupt controllers stays. *)
Lemma apic_after_same (W : Z → Prop) c c' r ts : (∀ a, ¬ W a → load8 (phys c') a = load8 (phys c) a) →
  ∀ i a, tables_from c W r i ts → apic_after c' ts a = apic_after c ts a.
Proof.
  intros apart. unfold apic_after. induction ts as [|[t o] ts IH]; intros i a H; [done|]. destruct H as (_ & HK & HT). cbn [foldl].
  destruct HK as [|es _ _ _ [RH _ _]]; [by eapply IH|]. rewrite (bytes_same W c c' apart) by exact RH. by eapply IH.
Qed.

(** Where less is written. *)
Section less.
Context (V W : Z → Prop) (c : machine).
Hypothesis sub : ∀ a, V a → W a.

Lemma readable_less p n : readable W p n → readable V p n.
Proof. intros (H1 & H2 & H3). split_and!; [done|done|]. intros a Ha Va. by apply (H3 a Ha), sub. Qed.

Lemma kind_less t o : table_kind c W t o → table_kind c V t o.
Proof.
  intros [R H|es R C S [M1 M2 [E1 E2 E3]]].
  - apply other_table; [by apply readable_less|done].
  - apply madt_table; [by apply readable_less|done|done|]. split; [by apply readable_less|done|]. split; [done|by apply readable_less|done].
Qed.

Lemma tables_less r ts : ∀ i, tables_from c W r i ts → tables_from c V r i ts.
Proof.
  induction ts as [|[t o] ts IH]; intros i H; [done|]. destruct H as (H1 & H2 & H3). split_and!; [done|by apply kind_less|by apply IH].
Qed.

Lemma acpi_tables_less q ts : acpi_tables c W q ts → acpi_tables c V q ts.
Proof. intros [H1 H2 H3 H4 H5 H6 H7]. split; [done|done|by apply readable_less|done|done|by apply tables_less|done]. Qed.
End less.

(** ** After init_paging

    [n] bytes of local variables in the kernel's memory; [W] leaves out the page
    tables, but for the temporary window, and the memory of the BIOS. *)

Section boot.
Context (d k l ksize kcode kdata : Z) (W : Z → Prop) (c : machine).
Hypothesis im : image_ok d k l ksize.
Hypothesis B : boot_map d k l ksize kcode kdata c.
Hypothesis W_pinned : ∀ a, W a → ¬ pinned d k l a.
Hypothesis W_high : ∀ a, W a → EXTENDED_MEMORY <= a.

Lemma boot_bios : bios_mapped c W.
Proof.
  pose proof (im_low _ _ _ _ im) as IL. split; unfold BIOS_EXT_ROM, EXTENDED_MEMORY.
  - intros a Ha. rewrite (bm_translate_low _ _ _ _ _ _ im c _ B) by (unfold EXTENDED_MEMORY; lia). f_equal. lia.
  - intros a w i Ha Hw Hi HW. assert (E1 : (KERNEL_LOWER_MEM + a) / 2 ^ 22 = 1022) by (unfold KERNEL_LOWER_MEM; zdiv).
    destruct (bm_table _ _ _ _ _ _ im c (KERNEL_LOWER_MEM + a) l B) as [_ EW]; [unfold KERNEL_LOWER_MEM; lia|exact IL|by rewrite E1|].
    assert (EP : 0 <= ((KERNEL_LOWER_MEM + a) / 2 ^ 12) mod 1024 < 256) by (unfold KERNEL_LOWER_MEM; zdiv).
    rewrite EW, E1 in Hw. apply W_pinned in HW. unfold pinned, in_frame in HW. rewrite !elem_of_cons in Hw.
    destruct Hw as [->|[->|Hw]]; [lia|lia|by apply elem_of_nil in Hw].
  - intros a Ha HW. apply W_high in HW. unfold EXTENDED_MEMORY in HW. lia.
Qed.
Context (local : Z) (n : nat).
Hypothesis lo : KERNEL_VSTART <= local ∧ local + Z.of_nat n <= KERNEL_VSTART + kernel_span ksize.
Hypothesis la : ∀ a, local <= a < local + Z.of_nat n → ¬ tables d k l (kphys a).
Hypothesis W_written : ∀ a, written (frame l) (consec (kphys local) n) a → W a.

Abbreviation pas := (consec (kphys local) n).

Lemma boot_local_bytes a : a ∈ pas → ¬ tables d k l a.
Proof.
  intros H. apply elem_of_consec in H. replace a with (kphys (a - KERNEL_START + KERNEL_VSTART)) by (unfold kphys; lia). apply la. unfold kphys in H. lia.
Qed.

Lemma boot_cr3 : Machine.cr3 c / 4096 = frame d.
Proof. rewrite (bm_cr3 _ _ _ _ _ _ _ B). zdiv. Qed.

Lemma boot_local_block : local_block c (frame l) local pas W.
Proof.
  pose proof (span_size _ _ _ _ im) as (Sz & IP & Sk). unfold KERNEL_VSTART in lo. split.
  - eapply bm_vmap; [exact im|exact B|unfold KERNEL_VSTART; lia..].
  - rewrite length_consec. eapply bm_walk_free; [exact im|exact B|unfold KERNEL_VSTART; lia..|].
    intros a Ha. apply W_pinned in Ha. unfold pinned in Ha. tauto.
  - apply NoDup_fmap_2_strong; [intros i j _ _ E; lia|apply NoDup_seq].
  - lia.
  - exact W_written.
  - intros a Ha. apply boot_local_bytes in Ha. unfold tables, in_frame in Ha. unfold slot_bytes, slot0, frame in *. lia.
  - intros a Ha. rewrite boot_cr3. apply boot_local_bytes in Ha. unfold tables in Ha. tauto.
Qed.

Lemma boot_acpi_env : (128 <= n)%nat → acpi_env local (frame l) pas c W.
Proof.
  intros Hn. split; [by eapply bm_kmap|apply boot_local_block| |by rewrite length_consec].
  intros a Ha Wa. rewrite boot_cr3 in Ha. apply W_pinned in Wa. unfold pinned in Wa. tauto.
Qed.

End boot.

(** ** Tables of a small machine *)

(** The byte [i] makes the sum zero. *)
Definition checksummed (i : nat) (bs : list Z) : list Z := <[i := u8 (- sum8 0 bs)]> bs.

Definition a_header (signature : list Z) (len : Z) : list Z := signature ++ le32 len ++ replicate 28 0.

Definition a_rsdp : list Z := checksummed 8 (RSDP_SIGNATURE ++ replicate 8 0 ++ le32 0x50000 ++ replicate 16 0).
Definition a_rsdt : list Z := checksummed 9 (a_header [82; 83; 68; 84] 44 ++ le32 0x51000 ++ le32 0x52000).
Definition a_fadt : list Z := checksummed 9 (a_header [70; 65; 67; 80] 36).
Definition a_entries : list (list Z) :=
  [[0; 8; 1; 0; 1; 0; 0; 0]; [0; 8; 2; 1; 0; 0; 0; 0]; [1; 12; 2; 0] ++ le32 0xFEC00000 ++ le32 0; [0; 8; 3; 2; 2; 0; 0; 0]].
Definition a_madt : list Z := checksummed 9 (a_header MADT_SIGNATURE 80 ++ le32 0xFEE00000 ++ le32 1 ++ concat a_entries).

Definition a_memory : memory :=
  store_bytes (store_bytes (store_bytes (store_bytes ∅ 0xE0010 a_rsdp) 0x50000 a_rsdt) 0x51000 a_fadt) 0x52000 a_madt.
Definition a_machine : machine := {| phys := a_memory; Machine.cr3 := 0 |}.
Definition a_cpu : cpu := small_cpu <| mem := a_machine |>.
Definition a_tables : list (Z * option (list (list Z))) := [(0x51000, None); (0x52000, Some a_entries)].

Abbreviation a_pas := (consec (kphys 0xFEC09000) 128).

Lemma a_local a : 0xFEC09000 <= a < 0xFEC09000 + Z.of_nat 128 → ¬ tables 1 2 3 (kphys a).
Proof. intros Ha. unfold tables, in_frame, frame, kphys, KERNEL_VSTART, KERNEL_START. lia. Qed.

Lemma a_written a : written (frame 3) a_pas a → ¬ pinned 1 2 3 a ∧ EXTENDED_MEMORY <= a.
Proof.
  intros [H|H]; [apply elem_of_consec in H; unfold kphys, KERNEL_VSTART, KERNEL_START in H|unfold slot0, frame in H];
    unfold pinned, in_frame, frame, EXTENDED_MEMORY; lia.
Qed.

Section small.
Context (c : machine) (W : Z → Prop).
Hypothesis high : ∀ a, W a → EXTENDED_MEMORY <= a.
Hypothesis same : ∀ p n, 0x50000 <= p → p + n <= 0x100000 → bytes c p n = bytes a_machine p n.

Lemma a_readable p n : 0 <= p → p + n <= 0x100000 → readable W p n.
Proof.
  intros H1 H2. by apply low_readable.
Qed.

Lemma a_lengths : table_length c 0x50000 = 44 ∧ table_length c 0x51000 = 36 ∧ table_length c 0x52000 = 80.
Proof. unfold table_length, SIZEOF_DT_HEADER. rewrite !same by lia. vm_compute. done. Qed.

Lemma a_checksums : checksum_ok c 0x50000 = true ∧ checksum_ok c 0x51000 = true ∧ checksum_ok c 0x52000 = true.
Proof.
  destruct a_lengths as (L1 & L2 & L3). unfold checksum_ok, table_size. rewrite L1, L2, L3. rewrite !same by (vm_compute; discriminate). vm_compute. done.
Qed.

Lemma a_madt_at : madt_at c W 0x52000 a_entries.
Proof.
  destruct a_lengths as (_ & _ & L3). split; [apply a_readable; unfold SIZEOF_MADT_HEADER; lia|rewrite L3; reflexivity|]. split.
  - rewrite same by (vm_compute; discriminate). vm_compute. reflexivity.
  - apply a_readable; vm_compute; discriminate.
  - repeat constructor; vm_compute; try discriminate; try done; intros; lia.
Qed.

Lemma a_acpi_tables : acpi_tables c W 0xE0010 a_tables.
Proof.
  destruct a_lengths as (L1 & L2 & L3), a_checksums as (C1 & C2 & C3).
  assert (ER : rsdt_address (bytes c 0xE0010 36) = 0x50000) by (rewrite same by lia; vm_compute; reflexivity).
  assert (V : ∀ p, 0x50000 <= p → p + 20 <= 0x100000 → rsdp_valid c p = rsdp_valid a_machine p) by (intros p Hp0 Hp; unfold rsdp_valid; by rewrite !same by lia).
  split; rewrite ?ER; try done.
  - split; unfold BIOS_EXT_ROM, EXTENDED_MEMORY; [lia|reflexivity|rewrite V by lia; vm_compute; reflexivity|].
    intros p H1 H2. replace p with 0xE0000 by zdiv. rewrite V by lia. vm_compute. reflexivity.
  - unfold table_size. rewrite L1. apply a_readable; vm_compute; discriminate.
  - cbn [tables_from a_tables]. split_and!; [rewrite same by (vm_compute; discriminate); vm_compute; reflexivity| |rewrite same by (vm_compute; discriminate); vm_compute; reflexivity| |done].
    + apply other_table; [unfold table_size; rewrite L2; apply a_readable; vm_compute; discriminate|]. right. rewrite same by (vm_compute; discriminate). vm_compute. discriminate.
    + apply madt_table; [unfold table_size; rewrite L3; apply a_readable; vm_compute; discriminate|done| |apply a_madt_at].
      rewrite same by (vm_compute; discriminate). vm_compute. reflexivity.
Qed.
End small.

Lemma read_acpi_tables_finds_witness :
  ∃ s c' P, init_paging 0xFEC01000 0xFEC02000 0xFEC03000 0xFEC04000 0xFEC05000 0xF800 0xFEC05000 0xFEC06000 0xFEC0A000 a_cpu = Ret tt s ∧
    read_acpi_tables 0xFEC09000 (boot <| mach := mem s |>, {| lapic_ptr := 0; ioapic_ptr := 0 |}) =
      Ret 2 (boot <| mach := mem s |> <| processors := P |> <| mach := c' |>, {| lapic_ptr := 0xFEE00000; ioapic_ptr := 0xFEC00000 |}) ∧
    (λ c, (acpi_uid c, lapic_id c, is_online c)) <$> P !! 1 = Some (3, 2, false).
Proof.
  destruct (wp_ret_inv (init_paging (page 1) (page 2) (page 3) 0xFEC04000 0xFEC05000 0xF800 0xFEC05000 0xFEC06000 0xFEC0A000)
    (λ _ s, boot_map 1 2 3 0xF800 0xFEC04000 0xFEC05000 (mem s) ∧ ∀ p n, 0x50000 <= p → p + n <= 0x100000 → bytes (mem s) p n = bytes a_machine p n) a_cpu)
    as ([] & s & E & BM & SM).
  - eapply wp_init_paging; [apply small_image|apply small_segments|]. intros s BM _ U _ _. split; [exact BM|]. intros p n _ Hn.
    unfold bytes, load_bytes. apply list_fmap_ext. intros i x Hx. apply lookup_seq in Hx as [-> Hi].
    apply U; unfold tables, tss_writes, in_frame, frame, kphys, TSS_SEL, KERNEL_VSTART, KERNEL_START; lia.
  - assert (HA : apic_after (mem s) a_tables {| lapic_ptr := 0; ioapic_ptr := 0 |} = {| lapic_ptr := 0xFEE00000; ioapic_ptr := 0xFEC00000 |}).
    { unfold apic_after, a_tables. cbn [foldl]. rewrite SM by (vm_compute; discriminate). vm_compute. reflexivity. }
    destruct (read_acpi_tables_finds 0xFEC09000 (frame 3) a_pas (written (frame 3) a_pas) (boot <| mach := mem s |>) {| lapic_ptr := 0; ioapic_ptr := 0 |} 0xE0010 a_tables)
      as (c' & P & ER & _ & HP & _).
    + eapply boot_acpi_env; [apply small_image|exact BM|intros a Ha; by apply a_written|change (kernel_span 0xF800) with 0x10000; unfold KERNEL_VSTART; lia|exact a_local|done|lia].
    + eapply boot_bios; [apply small_image|exact BM|intros a Ha; by apply a_written|intros a Ha; by apply a_written].
    + apply a_acpi_tables; [intros a Ha; by apply a_written|exact SM].
    + intros i Hi. cbn. rewrite array_lookup. by rewrite decide_True by lia.
    + exists s, c', P. split; [exact E|]. split; [rewrite <- HA; exact ER|]. change 1 with (Z.of_nat 1). rewrite (HP 1%nat [0; 8; 3; 2; 2; 0; 0; 0]) by reflexivity. vm_compute. reflexivity.
Defined.
