(* ===== verification/KInit.v ===== *)
(** * Starting the kernel: kernel/init/init.c

    Interrupt gates, the interrupt controllers, the timer, and [init], which puts the
    parts of start-up together and switches to the initial server.  Ports are the
    interface of KDebug.v, and the registers of the local APIC one of the same kind.
    What is printed is left out, and with it [show_mb_info_flags] and
    [show_cpu_features]; [stop_init] halts the machine. *)

From S2P Require Import Prelude Bits Machine Paging Kernel KList Thread Message Interrupt KDebug BootMemory Loader BootPaging Acpi.

Definition NUM_EXCEPTIONS : Z := 32.
Definition IRQ_BASE : Z := 0x20.
Definition IRQ (num : Z) : Z := IRQ_BASE + u8 num.
Definition I_INT : Z := 0x0E.
Definition SIZEOF_IDT_ENTRY : Z := 8.
Definition KERNEL_IDT_LEN : Z := 64 * SIZEOF_IDT_ENTRY.
Definition PIC1_PORT : Z := 0x20.
Definition PIC2_PORT : Z := 0xA0.
Definition PIC2_IRQ_START : Z := 8.
Definition TIMER0 : Z := 0x40.
Definition TIMER_CTRL : Z := 0x43.
Definition PIT_MODE : Z := 0x30.
Definition PIT_LATCH : Z := 0x00.
Definition LAPIC_VADDR : Z := 0xFF990000.
Definition IOAPIC_VADDR : Z := 0xFF980000.
Definition LAPIC_TIMER : Z := 0x320.
Definition LAPIC_TIMER_IC : Z := 0x380.
Definition LAPIC_TIMER_CC : Z := 0x390.
Definition LAPIC_TIMER_DCR : Z := 0x3E0.
Definition LAPIC_MASKED : Z := 2 ^ 18.
Definition NUM_ITERS : nat := 10.
Definition SYSENTER_CS_MSR : Z := 0x174.
Definition SYSENTER_ESP_MSR : Z := 0x175.
Definition SYSENTER_EIP_MSR : Z := 0x176.

Definition pte_set_pat (v : Z) (b : bool) : Z := set_bit v 7 b.

(** ** Interrupt gates *)

Section idt.
Variable kernel_idt : Z.

(** [gate_type], [is_storage], [dpl] and [is_present], in one byte. *)
Definition gate_byte (dpl v : Z) : Z :=
  set_bit (set_bits (set_bit (set_bits v 0 4 I_INT) 4 false) 5 2 (Z.min dpl 3)) 7 true.

Definition add_idt_entry (f entry_num dpl : Z) : M machine unit :=
  kassert (entry_num <? 256) ;;
  let new_entry := u32 (kernel_idt + SIZEOF_IDT_ENTRY * entry_num) in
  ustore16 new_entry (u16 (Z.land f 0xFFFF)) ;;
  ustore16 (u32 (new_entry + 2)) KCODE ;;
  vstore8 (u32 (new_entry + 4)) 0 ;;
  let* v := vload8 (u32 (new_entry + 5)) in
  vstore8 (u32 (new_entry + 5)) (gate_byte dpl v) ;;
  ustore16 (u32 (new_entry + 6)) (u16 (Z.shiftr f 16)).

(** The loops of [init_interrupts] over the exceptions and the interrupts. *)
Fixpoint add_gates (n : nat) (i : Z) (isrs : Z → Z) (vector : Z → Z) : M machine unit :=
  match n with
  | O => ret tt
  | S n => add_idt_entry (isrs i) (vector i) 0 ;; add_gates n (i + 1) isrs vector
  end.
End idt.

(** ** Ports *)

Section ports.
Context {W : Type} `{Ports W}.

Definition enable_irq (irq : Z) : M W unit :=
  kassert (irq <? 16) ;;
  if irq <? PIC2_IRQ_START then
    let* v := in_port8 (Z.lor PIC1_PORT 1) in out_port8 (Z.lor PIC1_PORT 1) (u8 (Z.land v (Z.lnot (Z.shiftl 1 irq))))
  else
    let* v := in_port8 (Z.lor PIC2_PORT 1) in out_port8 (Z.lor PIC2_PORT 1) (u8 (Z.land v (Z.lnot (Z.shiftl 1 (irq - PIC2_IRQ_START))))).

Definition disable_irq (irq : Z) : M W unit :=
  kassert (irq <? 16) ;;
  if irq <? PIC2_IRQ_START then
    let* v := in_port8 (Z.lor PIC1_PORT 1) in out_port8 (Z.lor PIC1_PORT 1) (u8 (Z.lor v (Z.shiftl 1 irq)))
  else
    let* v := in_port8 (Z.lor PIC2_PORT 1) in out_port8 (Z.lor PIC2_PORT 1) (u8 (Z.lor v (Z.shiftl 1 (irq - PIC2_IRQ_START)))).

Fixpoint disable_irqs (n : nat) (i : Z) : M W unit :=
  match n with O => ret tt | S n => disable_irq i ;; disable_irqs n (i + 1) end.

(** The frequency of the timer is 3579545 / 3. *)
Definition pit_count (microseconds : Z) : Z :=
  let num := wrap 64 (3579545 * microseconds) in
  let denom := u32 (3 * 1000000) in
  u16 (num / denom).

Definition setup_pit_sleep (microseconds : Z) : M W Z :=
  if 50000 <? microseconds then panic
  else
    let count := pit_count microseconds in
    out_port8 TIMER_CTRL PIT_MODE ;;
    out_port8 TIMER0 (Z.land count 0xFF) ;;
    out_port8 TIMER0 (Z.shiftr count 8) ;;
    ret 0.

Definition get_pit_count : M W Z :=
  let* low := in_port8 TIMER0 in
  let* hi := in_port8 TIMER0 in
  ret (u16 (Z.lor low (Z.shiftl hi 8))).
End ports.

(** ** The local APIC *)

Class Lapic (W : Type) := { lapic_load : Z → M W Z; lapic_store : Z → Z → M W unit }.

Section timer.
Context {W : Type} `{Ports W} `{Lapic W}.
(** How often the loop that waits for the timer may turn. *)
Variable fuel : nat.

Fixpoint wait_pit (n : nat) : M W unit :=
  match n with
  | O => fail OutOfFuel
  | S n =>
      let* low := in_port8 TIMER0 in
      let* hi := in_port8 TIMER0 in
      if (low =? 0) && (hi =? 0) then ret tt else wait_pit n
  end.

(** The loop over the measurements: the counts that are left of 0xFFFFFFFF. *)
Fixpoint measure (n : nat) : M W (list Z) :=
  match n with
  | O => ret []
  | S n =>
      let* _ := setup_pit_sleep 10000 in
      lapic_store LAPIC_TIMER_IC 0xFFFFFFFF ;;
      out_port8 TIMER0 PIT_LATCH ;;
      wait_pit fuel ;;
      let* current_count := lapic_load LAPIC_TIMER_CC in
      let* counts := measure n in
      ret (u32 (0xFFFFFFFF - current_count) :: counts)
  end.

(** The result is [apic_ticks]. *)
Definition init_apic_timer : M W Z :=
  lapic_store LAPIC_TIMER (Z.lor LAPIC_MASKED (IRQ 0)) ;;
  lapic_store LAPIC_TIMER_DCR 0 ;;
  let* counts := measure NUM_ITERS in
  ret (foldl (λ t c, u32 (t + c)) 0 counts / 10).
End timer.

(** The entries for the pages of the interrupt controllers. *)
Definition lapic_pte (lapic_ptr v : Z) : Z :=
  pte_set_is_present (pte_set_base (pte_set_pwt (pte_set_pcd (pte_set_pat (pte_set_global (pte_set_is_read_write v true) true) false) true) true)
    (PADDR_TO_PBASE lapic_ptr)) true.
Definition ioapic_pte (ioapic_ptr v : Z) : Z :=
  pte_set_is_present (pte_set_base (pte_set_pwt (pte_set_pcd (pte_set_global (pte_set_is_read_write v true) true) true) true)
    (PADDR_TO_PBASE ioapic_ptr)) true.

Definition enable_apic (a : apic_state) : M machine Z :=
  vstore32 (CURRENT_PTE LAPIC_VADDR) 0 ;;
  pte_update (CURRENT_PTE LAPIC_VADDR) (lapic_pte (lapic_ptr a)) ;;
  vstore32 (CURRENT_PTE IOAPIC_VADDR) 0 ;;
  pte_update (CURRENT_PTE IOAPIC_VADDR) (ioapic_pte (ioapic_ptr a)) ;;
  ret 0.

(** ** The whole of start-up *)

Record sys {W : Type} := Sys {
  sk : kstate; sb : boot_state; sa : apic_state; hardware : W; idtr : Z * Z; msr : gmap Z Z; apic_ticks : Z
}.
Arguments sys : clear implicits.

#[export] Hint Extern 0 (@Update (sys ?W) _ ?p) =>
  derive_update (λ s : sys W, {| sk := sk s; sb := sb s; sa := sa s; hardware := hardware s; idtr := idtr s; msr := msr s; apic_ticks := apic_ticks s |}) p : typeclass_instances.

Section init.
Context {W : Type} `{Ports W} `{Lapic W}.
Variable fuel : nat.
(** Symbols of the linker, the handlers, and the data of the boot loader. *)
Variable kphys_start ksize kernel_idt sysenter_entry local : Z.
Variable CPU_EX_ISRS IRQ_ISRS : Z → Z.
Variable info : multiboot_info.
Variable strings : list (option (list Z)).
Variable mem_upper info_addr : Z.

Abbreviation st := (sys W).

Definition on_kernel {A} (m : M kstate A) : M st A := zoom sk (λ k s, s <| sk := k |>) m.
Definition on_machine {A} (m : M machine A) : M st A := on_kernel (vm m).
Definition on_hardware {A} (m : M W A) : M st A := zoom hardware (λ h s, s <| hardware := h |>) m.
Definition on_acpi {A} (m : M (kstate * apic_state) A) : M st A :=
  zoom (λ s, (sk s, sa s)) (λ p s, s <| sk := fst p |> <| sa := snd p |>) m.
Definition on_loader {A} (m : M (kstate * boot_state) A) : M st A :=
  zoom (λ s, (sk s, sb s)) (λ p s, s <| sk := fst p |> <| sb := snd p |>) m.

Definition stop_init {A} : M st A := panic.

Definition load_idt : M st unit := modify (λ s, s <| idtr := (u16 KERNEL_IDT_LEN, kernel_idt) |>).

Definition init_interrupts : M st unit :=
  on_machine (add_gates kernel_idt (Z.to_nat NUM_EXCEPTIONS) 0 CPU_EX_ISRS (λ i, i)) ;;
  on_machine (add_gates kernel_idt (Z.to_nat NUM_IRQS) 0 IRQ_ISRS IRQ) ;;
  on_hardware (disable_irqs 16 0) ;;
  load_idt.

Definition wrmsr (register v : Z) : M st unit := modify (λ s, s <| msr ::= insert register v |>).

Definition init : M st unit :=
  let '(b, enough) := init_memory kphys_start ksize mem_upper in
  modify (λ s, s <| sb := b |>) ;;
  if negb enough then stop_init
  else
    init_interrupts ;;
    let* retval := on_acpi (read_acpi_tables local) in
    if is_error retval then stop_init
    else
      on_kernel (modify (λ k, k <| num_processors := if retval =? 0 then 1 else retval |>)) ;;
      let* a := gets sa in
      let* _ := on_machine (enable_apic a) in
      let* ticks := on_hardware (init_apic_timer fuel) in
      modify (λ s, s <| apic_ticks := ticks |>) ;;
      let* r := on_loader (load_servers kphys_start ksize info local strings info_addr) in
      if is_error r then stop_init
      else
        wrmsr SYSENTER_CS_MSR KCODE ;;
        let* k := gets sk in
        wrmsr SYSENTER_ESP_MSR (kernel_stack_top k) ;;
        wrmsr SYSENTER_EIP_MSR sysenter_entry ;;
        let* t := on_kernel (schedule 0) in
        on_kernel (thread_switch_context (A := unit) t false) ;;
        stop_init.
End init.
