(* ===== verification/KInitSpec.v ===== *)
(** * Starting the kernel: gates, interrupt controllers, timer *)

From S2P Require Import Prelude Bits Machine Paging PagingFacts PagingSpec Kernel KList Thread ThreadSpec Message Interrupt KDebug BootMemory.
From S2P Require Import Loader LoaderFacts LoaderSpec BootPaging BootPagingSpec Acpi AcpiSpec KInit.

(** ** Interrupt gates *)

Section gates.
Context (d k l ksize kcode kdata kernel_idt : Z).
Hypothesis im : image_ok d k l ksize.

Definition VECTORS : Z := 56.

(** The table is in the kernel's data. *)
Record idt_ok : Prop := {
  id_range : KERNEL_VSTART <= kernel_idt ∧ kernel_idt + 8 * VECTORS <= KERNEL_VSTART + kernel_span ksize;
  id_tables : ∀ a, kernel_idt <= a < kernel_idt + 8 * VECTORS → ¬ tables d k l (kphys a)
}.
Hypothesis io : idt_ok.

Abbreviation boot_map := (boot_map d k l ksize kcode kdata).

Definition gate_bytes (v a : Z) : Prop := kphys kernel_idt + 8 * v <= a < kphys kernel_idt + 8 * v + 8.
Definition idt_bytes (a : Z) : Prop := kphys kernel_idt <= a < kphys kernel_idt + 8 * VECTORS.

Definition gate (c : machine) (v i : Z) : Z := load8 (phys c) (kphys kernel_idt + 8 * v + i).

(** A present interrupt gate of the kernel to the handler [f]. *)
Record gate_to (c : machine) (v f dpl : Z) : Prop := {
  gt_offset : gate c v 0 + 2 ^ 8 * gate c v 1 + 2 ^ 16 * gate c v 6 + 2 ^ 24 * gate c v 7 = f;
  gt_selector : gate c v 2 + 2 ^ 8 * gate c v 3 = KCODE;
  gt_reserved : gate c v 4 = 0;
  gt_type : bits (gate c v 5) 0 4 = I_INT;
  gt_storage : bit (gate c v 5) 4 = false;
  gt_dpl : bits (gate c v 5) 5 2 = dpl;
  gt_present : bit (gate c v 5) 7 = true
}.

Lemma gate_byte_fields dpl v : 0 <= v < 256 → 0 <= dpl <= 3 →
  0 <= gate_byte dpl v < 256 ∧ bits (gate_byte dpl v) 0 4 = I_INT ∧ bit (gate_byte dpl v) 4 = false ∧ bits (gate_byte dpl v) 5 2 = dpl ∧ bit (gate_byte dpl v) 7 = true.
Proof.
  intros Hv Hd. unfold gate_byte. rewrite Z.min_l by lia.
  split; [change 256 with (2 ^ 8) in *; repeat first [apply set_bit_range|apply set_bits_range]; lia|]. split_and!.
  - unfold set_bit. rewrite !bits_set_ne by lia. by rewrite bits_set_eq by lia.
  - rewrite bit_set_ne by lia. rewrite bit_set_bits_ne by lia. by rewrite bit_set_eq.
  - unfold set_bit at 1. rewrite bits_set_ne by lia. rewrite bits_set_eq by lia. apply Z.mod_small. lia.
  - by rewrite bit_set_eq.
Qed.

Lemma offset_bytes f : 0 <= f < 2 ^ 32 →
  u8 (u8 (u16 (Z.land f 0xFFFF))) + 2 ^ 8 * u8 (u8 (u16 (Z.land f 0xFFFF) / 256)) + 2 ^ 16 * u8 (u8 (u16 (Z.shiftr f 16))) + 2 ^ 24 * u8 (u8 (u16 (Z.shiftr f 16) / 256)) = f.
Proof.
  intros Hf. change 0xFFFF with (2 ^ 16 - 1). rewrite land_low_mask, Z.shiftr_div_pow2 by lia. unfold wrap. zdiv.
Qed.

(** One store to the table of gates. *)
Ltac kbyte im B KA := wp_steps; eapply wp_kernel_byte; [exact im|exact B|apply KA; lia|apply KA; lia|]; clear B; intros B.

Lemma wp_add_idt_entry c f v dpl (Q : unit → machine → Prop) L :
  boot_map c → 0 <= v < VECTORS → 0 <= f < 2 ^ 32 → 0 <= dpl <= 3 →
  (∀ c', boot_map c' → agree (gate_bytes v) c c' → gate_to c' v f dpl → Q tt c') →
  wp (add_idt_entry kernel_idt f v dpl) Q L c.
Proof.
  destruct c as [m r]. intros B Hv Hf Hd HQ. pose proof io as [I1 I2]. pose proof (span_size _ _ _ _ im) as (Sz & IP & Sk). unfold VECTORS in Hv, I1, I2.
  assert (KA : ∀ a, kernel_idt <= a < kernel_idt + 8 * 56 → kernel_address ksize a ∧ ¬ tables d k l (kphys a)).
  { intros a Ha. split; [unfold kernel_address; lia|by apply I2]. }
  unfold KERNEL_VSTART in I1. assert (U : ∀ x, 0 <= x < 2 ^ 32 → u32 x = x) by (intros x Hx; by apply wrap_small).
  unfold add_idt_entry, ustore16, SIZEOF_IDT_ENTRY, KCODE. replace (v <? 256) with true by lia. cbn [kassert]. cbv zeta.
  repeat match goal with |- context [wrap 32 ?x] => rewrite (U x) by lia end. clear U.
  do 5 kbyte im B KA. wp_step. eapply wp_vload8; [eapply bm_translate_kernel; [exact im|exact B|apply KA; lia]|].
  do 2 kbyte im B KA. eapply wp_kernel_byte; [exact im|exact B|apply KA; lia|apply KA; lia|]; clear B; intros B.
  apply HQ; [exact B| |]; clear B HQ KA.
  - split; [done|]. intros a Ha. unfold gate_bytes, kphys in Ha. cbn [phys]. unfold kphys. rewrite !load8_store8_ne by lia. reflexivity.
  - unfold kphys, KERNEL_VSTART, KERNEL_START. split; unfold gate, kphys, KERNEL_VSTART, KERNEL_START; cbn [phys];
      repeat first [rewrite load8_store8_ne by lia|rewrite load8_store8_at by lia].
    all: first [reflexivity|by apply offset_bytes|
      match goal with |- context [gate_byte ?p ?x] => destruct (gate_byte_fields p x) as (G1 & G2 & G3 & G4 & G5); [apply load8_range|lia|rewrite (wrap_small 8) by exact G1; done] end].
Qed.

Lemma gate_to_other c c' v f dpl (W : Z → Prop) : agree W c c' → (∀ a, gate_bytes v a → ¬ W a) → gate_to c v f dpl → gate_to c' v f dpl.
Proof.
  intros [_ A] Hv [G1 G2 G3 G4 G5 G6 G7].
  assert (E : ∀ i, 0 <= i < 8 → gate c' v i = gate c v i) by (intros i Hi; apply A, Hv; unfold gate_bytes; lia).
  split; rewrite ?E by lia; assumption.
Qed.

Definition gates_bytes (v n a : Z) : Prop := kphys kernel_idt + 8 * v <= a < kphys kernel_idt + 8 * (v + n).

(** The loops set the gates one after the other and leave the other ones. *)
Lemma wp_add_gates isrs vector base n : ∀ i c (Q : unit → machine → Prop) L,
  boot_map c → (∀ j, i <= j < i + Z.of_nat n → vector j = base + j ∧ 0 <= base + j < VECTORS ∧ 0 <= isrs j < 2 ^ 32) →
  (∀ c', boot_map c' → agree (gates_bytes (base + i) (Z.of_nat n)) c c' →
     (∀ j, i <= j < i + Z.of_nat n → gate_to c' (base + j) (isrs j) 0) → Q tt c') →
  wp (add_gates kernel_idt n i isrs vector) Q L c.
Proof.
  induction n as [|n IH]; intros i c Q L B HV HQ; cbn [add_gates].
  { wp_steps. apply HQ; [done|apply agree_refl|lia]. }
  destruct (HV i ltac:(lia)) as (V1 & V2 & V3). rewrite V1. wp_step. eapply wp_add_idt_entry; [done|done|done|lia|].
  intros c1 B1 A1 G1. apply IH; [done|intros j Hj; apply HV; lia|]. intros c2 B2 A2 G2. apply HQ; [done| |].
  - eapply agree_trans; [eapply agree_mono; [|exact A1]|eapply agree_mono; [|exact A2]]; intros a; unfold gate_bytes, gates_bytes; lia.
  - intros j Hj. destruct (decide (j = i)) as [->|N]; [|apply G2; lia].
    eapply gate_to_other; [exact A2| |exact G1]. intros a. unfold gate_bytes, gates_bytes. lia.
Qed.
End gates.

(** ** The pages of the interrupt controllers *)

Section apic.
Context (d k l ksize kcode kdata : Z).
Hypothesis im : image_ok d k l ksize.
Abbreviation boot_map := (boot_map d k l ksize kcode kdata).

Lemma apic_pte_fields p : 0 <= p < 2 ^ 32 →
  ent_present (lapic_pte p 0) = true ∧ ent_frame (lapic_pte p 0) = p / 4096 ∧ bit (lapic_pte p 0) 4 = true ∧ 0 <= lapic_pte p 0 < 2 ^ 32 ∧
  ioapic_pte p 0 = lapic_pte p 0.
Proof.
  intros Hp. assert (EF : PADDR_TO_PBASE p = p / 4096) by (unfold PADDR_TO_PBASE; by rewrite Z.shiftr_div_pow2 by lia).
  unfold lapic_pte, ioapic_pte, ent_present, ent_frame, pte_set_base, pte_set_pwt, pte_set_pcd, pte_set_pat, pte_set_global, pte_set_is_read_write, pte_set_is_present.
  rewrite EF. split; [|split; [|split; [|split]]].
  - by rewrite bit_set_eq.
  - unfold set_bit. rewrite !bits_set_ne by lia. rewrite bits_set_eq by lia. apply Z.mod_small. zdiv.
  - rewrite bit_set_ne by lia. rewrite bit_set_bits_ne by lia. rewrite bit_set_ne by lia. by rewrite bit_set_eq.
  - repeat first [apply set_bit_range|apply set_bits_range]; lia.
  - reflexivity.
Qed.

Definition apic_slots (a : Z) : Prop :=
  slot (frame l) LAPIC_VADDR <= a < slot (frame l) LAPIC_VADDR + 4 ∨ slot (frame l) IOAPIC_VADDR <= a < slot (frame l) IOAPIC_VADDR + 4.

Lemma apic_slots_free a : apic_slots a → ¬ pinned d k l a.
Proof.
  unfold apic_slots, slot. change ((LAPIC_VADDR / 4096) mod 1024) with 400. change ((IOAPIC_VADDR / 4096) mod 1024) with 384.
  destruct im. unfold pinned, in_frame, frame. lia.
Qed.

(** A page of the controllers, uncached. *)
Definition device_page (c : machine) (va pa : Z) : Prop :=
  (∀ i, 0 <= i < 4096 → translate c (va + i) = Some (4096 * (pa / 4096) + i)) ∧ bit (load32 (phys c) (slot (frame l) va)) 4 = true.

Lemma device_page_from c va pa : boot_map c → va = LAPIC_VADDR ∨ va = IOAPIC_VADDR → 0 <= pa < 2 ^ 32 →
  load32 (phys c) (slot (frame l) va) = lapic_pte pa 0 → device_page c va pa.
Proof.
  intros B Hva Hp E. destruct (apic_pte_fields pa Hp) as (F1 & F2 & F3 & _). split; [|by rewrite E].
  intros i Hi. assert (V : va / 4096 = 0xFF990 ∨ va / 4096 = 0xFF980) by (destruct Hva as [-> | ->]; [left|right]; reflexivity).
  assert (V' : va mod 4096 = 0) by (destruct Hva as [-> | ->]; reflexivity).
  destruct (bm_table _ _ _ _ _ _ im c (va + i) l B ltac:(zdiv) (im_low _ _ _ _ im)) as [T _].
  { replace ((va + i) / 2 ^ 22) with 1022 by zdiv. reflexivity. }
  rewrite T. unfold ent. replace (4096 * frame l + 4 * _) with (slot (frame l) va) by (unfold slot; zdiv).
  rewrite E, F1, F2. f_equal. zdiv.
Qed.

Lemma wp_enable_apic c a (Q : Z → machine → Prop) L : boot_map c → 0 <= lapic_ptr a < 2 ^ 32 → 0 <= ioapic_ptr a < 2 ^ 32 →
  (∀ c', boot_map c' → agree apic_slots c c' → device_page c' LAPIC_VADDR (lapic_ptr a) → device_page c' IOAPIC_VADDR (ioapic_ptr a) → Q 0 c') →
  wp (enable_apic a) Q L c.
Proof.
  intros B HL HI HQ. pose proof (bm_kmap _ _ _ _ _ _ im c B) as K. destruct (apic_pte_fields _ HL) as (_ & _ & _ & L1 & _), (apic_pte_fields _ HI) as (_ & _ & _ & I1 & I2).
  unfold enable_apic. wp_step. eapply wp_vstore32_slot; [exact K|by unfold in_window, KERNEL_TEMP_END, LAPIC_VADDR|done|].
  wp_step. eapply wp_pte_update_slot; [exact K|by unfold in_window, KERNEL_TEMP_END, LAPIC_VADDR|done|]. change (u32 0) with 0.
  wp_step. eapply wp_vstore32_slot; [by apply kmap_frame_slot|by unfold in_window, KERNEL_TEMP_END, IOAPIC_VADDR|done|].
  wp_step. eapply wp_pte_update_slot; [by apply kmap_frame_slot|by unfold in_window, KERNEL_TEMP_END, IOAPIC_VADDR|done|]. change (u32 0) with 0. wp_step.
  rewrite I2. match goal with |- Q 0 ?x => set (c' := x) end.
  assert (A : agree apic_slots c c').
  { split; [done|]. intros x Hx. unfold apic_slots in Hx. cbn [phys c' set_phys]. rewrite !load8_store32_ne by lia. done. }
  assert (B' : boot_map c') by (eapply bm_agree; [exact B|exact A|apply apic_slots_free]).
  apply HQ; [done|done| |]; apply device_page_from; auto; cbn [phys c' set_phys].
  - rewrite load32_store32_ne by (unfold slot; change ((LAPIC_VADDR / 4096) mod 1024) with 400; change ((IOAPIC_VADDR / 4096) mod 1024) with 384; lia). rewrite load32_store32_eq. by apply wrap_small.
  - rewrite load32_store32_eq. by apply wrap_small.
Qed.
End apic.

(** ** The chips *)

(** [mask p]: the interrupt mask behind the port [p] of the two 8259 controllers;
    [readings]: the values read from the current count of the local APIC's timer.
    Nothing is said of the counts that are read from the 8254 timer. *)
Class Chipset (W : Type) `{Ports W} `{Lapic W} := {
  mask : Z → W → Z;
  readings : W → list Z;
  mask_range p w : 0 <= mask p w < 256;
  in_mask p w : p = 0x21 ∨ p = 0xA1 → ∃ w', in_port8 p w = Ret (mask p w) w' ∧ (∀ q, mask q w' = mask q w) ∧ readings w' = readings w;
  out_mask p v w : p = 0x21 ∨ p = 0xA1 → 0 <= v < 256 →
    ∃ w', out_port8 p v w = Ret tt w' ∧ mask p w' = v ∧ (∀ q, q ≠ p → mask q w' = mask q w) ∧ readings w' = readings w;
  out_timer p v w : p = TIMER0 ∨ p = TIMER_CTRL → 0 <= v < 256 →
    ∃ w', out_port8 p v w = Ret tt w' ∧ (∀ q, mask q w' = mask q w) ∧ readings w' = readings w;
  in_timer w : ∃ v w', in_port8 TIMER0 w = Ret v w' ∧ (∀ q, mask q w' = mask q w) ∧ readings w' = readings w;
  store_timer r v w : r ∈ [LAPIC_TIMER; LAPIC_TIMER_IC; LAPIC_TIMER_DCR] →
    ∃ w', lapic_store r v w = Ret tt w' ∧ (∀ q, mask q w' = mask q w) ∧ readings w' = readings w;
  load_timer w : ∃ v w', lapic_load LAPIC_TIMER_CC w = Ret v w' ∧ 0 <= v < 2 ^ 32 ∧
    (∀ q, mask q w' = mask q w) ∧ readings w' = readings w ++ [v];
}.

Section chips.
Context {W : Type} {PI : Ports W} {LI : Lapic W} {CI : Chipset W}.

Definition irq_port (irq : Z) : Z := if irq <? 8 then 0x21 else 0xA1.

(** Whether the interrupt request [irq] is masked. *)
Definition masked (w : W) (irq : Z) : bool := Z.testbit (mask (irq_port irq) w) (irq mod 8).

Lemma masked_update w w' irq f b : 0 <= irq < 16 →
  mask (irq_port irq) w' = f (mask (irq_port irq) w) → (∀ q, q ≠ irq_port irq → mask q w' = mask q w) →
  (∀ v i, 0 <= v < 256 → 0 <= i < 8 → Z.testbit (f v) i = if i =? irq mod 8 then b else Z.testbit v i) →
  masked w' irq = b ∧ ∀ j, 0 <= j < 16 → j ≠ irq → masked w' j = masked w j.
Proof.
  intros Hi E E' Hf. unfold masked. split.
  - rewrite E, Hf; [by rewrite Z.eqb_refl|apply mask_range|zdiv].
  - intros j Hj N. destruct (decide (irq_port j = irq_port irq)) as [P|P]; [|by rewrite E'].
    rewrite P, E, Hf; [|apply mask_range|zdiv]. replace (j mod 8 =? irq mod 8) with false; [done|].
    symmetry. apply Z.eqb_neq. revert P. unfold irq_port. destruct (Z.ltb_spec j 8), (Z.ltb_spec irq 8); intros P; try discriminate; zdiv.
Qed.

Lemma set_mask_bit v b i : 0 <= v < 256 → 0 <= b < 8 → 0 <= i < 8 →
  Z.testbit (u8 (Z.lor v (Z.shiftl 1 b))) i = if i =? b then true else Z.testbit v i.
Proof.
  intros Hv Hb Hi. unfold wrap. rewrite Z.mod_pow2_bits_low, Z.lor_spec, Z.shiftl_spec by lia.
  destruct (Z.eqb_spec i b) as [->|N]; [rewrite Z.sub_diag; by rewrite orb_true_r|].
  replace (Z.testbit 1 (i - b)) with false; [by rewrite orb_false_r|]. symmetry.
  destruct (Z.ltb_spec i b); [by apply Z.testbit_neg_r; lia|]. rewrite (Z.bits_above_log2 1); [done|lia|cbn; lia].
Qed.

Lemma clear_mask_bit v b i : 0 <= v < 256 → 0 <= b < 8 → 0 <= i < 8 →
  Z.testbit (u8 (Z.land v (Z.lnot (Z.shiftl 1 b)))) i = if i =? b then false else Z.testbit v i.
Proof.
  intros Hv Hb Hi. unfold wrap. rewrite Z.mod_pow2_bits_low, Z.land_spec, Z.lnot_spec, Z.shiftl_spec by lia.
  destruct (Z.eqb_spec i b) as [->|N]; [rewrite Z.sub_diag; by rewrite andb_false_r|].
  replace (Z.testbit 1 (i - b)) with false; [by rewrite andb_true_r|]. symmetry.
  destruct (Z.ltb_spec i b); [by apply Z.testbit_neg_r; lia|]. rewrite (Z.bits_above_log2 1); [done|lia|cbn; lia].
Qed.

(** A read of a mask and a write of the value computed from it. *)
Lemma wp_edit_mask p f w (Q : unit → W → Prop) L : p = 0x21 ∨ p = 0xA1 →
  (∀ w', mask p w' = u8 (f (mask p w)) → (∀ q, q ≠ p → mask q w' = mask q w) → readings w' = readings w → Q tt w') →
  wp (let* v := in_port8 p in out_port8 p (u8 (f v))) Q L w.
Proof.
  intros Hp HQ. destruct (in_mask p w Hp) as (w1 & E1 & M1 & R1).
  destruct (out_mask p (u8 (f (mask p w))) w1 Hp ltac:(apply wrap_range; lia)) as (w2 & E2 & M2 & M2' & R2).
  wp_step. eapply wp_of_ret; [exact E1|]. eapply wp_of_ret; [exact E2|]. apply HQ; [done| |congruence].
  intros q Hq. rewrite M2', M1; done.
Qed.

(** [enable_irq] and [disable_irq] change one bit, in the controller that has it. *)
Lemma wp_change_irq (f : Z → Z → Z) b irq w (Q : unit → W → Prop) L : 0 <= irq < 16 →
  (∀ v n i, 0 <= v < 256 → 0 <= n < 8 → 0 <= i < 8 → Z.testbit (u8 (f v n)) i = if i =? n then b else Z.testbit v i) →
  (∀ w', masked w' irq = b → (∀ j, 0 <= j < 16 → j ≠ irq → masked w' j = masked w j) → readings w' = readings w → Q tt w') →
  wp (if irq <? PIC2_IRQ_START then let* v := in_port8 (Z.lor PIC1_PORT 1) in out_port8 (Z.lor PIC1_PORT 1) (u8 (f v irq))
      else let* v := in_port8 (Z.lor PIC2_PORT 1) in out_port8 (Z.lor PIC2_PORT 1) (u8 (f v (irq - PIC2_IRQ_START)))) Q L w.
Proof.
  intros Hi Hf HQ. unfold PIC2_IRQ_START.
  destruct (Z.ltb_spec irq 8) as [Lo|Hi8];
    [apply (wp_edit_mask 0x21 (λ v, f v irq)); [by left|] | apply (wp_edit_mask 0xA1 (λ v, f v (irq - 8))); [by right|]]; intros w' M M' R.
  - destruct (masked_update w w' irq (λ v, u8 (f v irq)) b Hi) as [A B]; [..|by apply HQ];
      unfold irq_port; replace (irq <? 8) with true by lia; [done..|]. intros v i Hv Hb. rewrite Hf by lia. by rewrite Z.mod_small by lia.
  - destruct (masked_update w w' irq (λ v, u8 (f v (irq - 8))) b Hi) as [A B]; [..|by apply HQ];
      unfold irq_port; replace (irq <? 8) with false by lia; [done..|]. intros v i Hv Hb. rewrite Hf by lia. by replace (irq mod 8) with (irq - 8) by zdiv.
Qed.

Lemma wp_disable_irq irq w (Q : unit → W → Prop) L : 0 <= irq < 16 →
  (∀ w', masked w' irq = true → (∀ j, 0 <= j < 16 → j ≠ irq → masked w' j = masked w j) → readings w' = readings w → Q tt w') →
  wp (disable_irq irq) Q L w.
Proof.
  intros Hi HQ. unfold disable_irq. replace (irq <? 16) with true by lia. cbn [kassert]. wp_step. wp_step.
  apply (wp_change_irq (λ v n, Z.lor v (Z.shiftl 1 n)) true); [done| |done]. intros v n i. apply set_mask_bit.
Qed.

Lemma wp_enable_irq irq w (Q : unit → W → Prop) L : 0 <= irq < 16 →
  (∀ w', masked w' irq = false → (∀ j, 0 <= j < 16 → j ≠ irq → masked w' j = masked w j) → readings w' = readings w → Q tt w') →
  wp (enable_irq irq) Q L w.
Proof.
  intros Hi HQ. unfold enable_irq. replace (irq <? 16) with true by lia. cbn [kassert]. wp_step. wp_step.
  apply (wp_change_irq (λ v n, Z.land v (Z.lnot (Z.shiftl 1 n))) false); [done| |done]. intros v n i. apply clear_mask_bit.
Qed.

Lemma wp_disable_irqs n : ∀ i w (Q : unit → W → Prop) L, 0 <= i → i + Z.of_nat n <= 16 →
  (∀ w', (∀ j, i <= j < i + Z.of_nat n → masked w' j = true) → (∀ j, 0 <= j < i → masked w' j = masked w j) → readings w' = readings w → Q tt w') →
  wp (disable_irqs n i) Q L w.
Proof.
  induction n as [|n IH]; intros i w Q L Hi Hn HQ; cbn [disable_irqs].
  { wp_steps. apply HQ; [lia|done|done]. }
  wp_step. apply wp_disable_irq; [lia|]. intros w1 M1 O1 R1. apply IH; [lia..|]. intros w2 M2 O2 R2.
  apply HQ; [|intros j Hj; rewrite O2, O1 by lia; done|congruence].
  intros j Hj. destruct (decide (j = i)) as [->|N]; [rewrite O2 by lia; done|apply M2; lia].
Qed.

(** ** The timer *)

(** No count of at most 50 ms is cut off, and it is within one tick of the frequency. *)
Lemma pit_count_exact us : 0 <= us <= 50000 → pit_count us = 3579545 * us / 3000000 ∧ 0 <= pit_count us <= 59659.
Proof.
  intros Hu. unfold pit_count. rewrite (wrap_small 64) by lia. change (u32 (3 * 1000000)) with 3000000.
  rewrite (wrap_small 16) by zdiv. split; [done|zdiv].
Qed.

Definition same_masks (w w' : W) : Prop := ∀ q, mask q w' = mask q w.

Lemma same_masks_masked w w' j : same_masks w w' → masked w' j = masked w j.
Proof. intros S. unfold masked. by rewrite S. Qed.

Lemma wp_out_timer p v w (Q : unit → W → Prop) L : p = TIMER0 ∨ p = TIMER_CTRL → 0 <= v < 256 →
  (∀ w', same_masks w w' → readings w' = readings w → Q tt w') → wp (out_port8 p v) Q L w.
Proof. intros Hp Hv HQ. destruct (out_timer p v w Hp Hv) as (w' & E & M & R). eapply wp_of_ret; [exact E|]. by apply HQ. Qed.

Lemma wp_store_timer r v w (Q : unit → W → Prop) L : r ∈ [LAPIC_TIMER; LAPIC_TIMER_IC; LAPIC_TIMER_DCR] →
  (∀ w', same_masks w w' → readings w' = readings w → Q tt w') → wp (lapic_store r v) Q L w.
Proof. intros Hr HQ. destruct (store_timer r v w Hr) as (w' & E & M & R). eapply wp_of_ret; [exact E|]. by apply HQ. Qed.

Lemma wp_setup_pit_sleep us w (Q : Z → W → Prop) L : 0 <= us <= 50000 →
  (∀ w', same_masks w w' → readings w' = readings w → Q 0 w') → wp (setup_pit_sleep us) Q L w.
Proof.
  intros Hu HQ. destruct (pit_count_exact us Hu) as [_ R]. unfold setup_pit_sleep. replace (50000 <? us) with false by lia. cbv zeta.
  wp_step. apply wp_out_timer; [by right|by split|]. intros w1 M1 R1.
  wp_step. apply wp_out_timer; [by left|change 0xFF with (2 ^ 8 - 1); rewrite land_low_mask by lia; zdiv|]. intros w2 M2 R2.
  wp_step. apply wp_out_timer; [by left|rewrite Z.shiftr_div_pow2 by lia; zdiv|]. intros w3 M3 R3. wp_step.
  apply HQ; [intros q; by rewrite M3, M2, M1|congruence].
Qed.

(** The loop that waits ends when it reads two zeros, if ever. *)
Definition waiting (f : option fault) : Prop := f = Some OutOfFuel.

Lemma wpp_wait_pit n : ∀ w (Q : unit → W → Prop) L,
  (∀ w', same_masks w w' → readings w' = readings w → Q tt w') → wpp waiting (wait_pit n) Q L w.
Proof.
  induction n as [|n IH]; intros w Q L HQ; [done|]. cbn [wait_pit].
  destruct (in_timer w) as (low & w1 & E1 & M1 & R1), (in_timer w1) as (hi & w2 & E2 & M2 & R2).
  apply wpp_bind. eapply wpp_of_ret; [exact E1|]. apply wpp_bind. eapply wpp_of_ret; [exact E2|].
  assert (M : same_masks w w2) by (intros q; by rewrite M2, M1).
  destruct ((low =? 0) && (hi =? 0)); [apply HQ; [done|congruence]|]. apply IH. intros w' M' R'. apply HQ; [intros q; by rewrite M', M|congruence].
Qed.

(** A timer whose count stays away from zero keeps [init] waiting for ever.  The
    command that should latch the count is written to the port of the counter, where
    it is the first byte of a new count, and the second is never written. *)
Theorem wait_pit_endless (P : W → Prop) n : (∀ w, P w → ∃ v w', in_port8 TIMER0 w = Ret v w' ∧ v ≠ 0 ∧ P w') →
  ∀ w, P w → wait_pit n w = Fault OutOfFuel.
Proof.
  intros H. induction n as [|n IH]; intros w Hw; [done|]. cbn [wait_pit].
  destruct (H w Hw) as (low & w1 & E1 & N1 & P1), (H w1 P1) as (hi & w2 & E2 & _ & P2).
  unfold bind. rewrite E1, E2. replace (low =? 0) with false by lia. by apply IH.
Qed.

Definition elapsed (v : Z) : Z := 0xFFFFFFFF - v.

Lemma wpp_measure fuel n : ∀ w (Q : list Z → W → Prop) L,
  (∀ w' vs, length vs = n → Forall (λ v, 0 <= v < 2 ^ 32) vs → same_masks w w' → readings w' = readings w ++ vs → Q (elapsed <$> vs) w') →
  wpp waiting (measure fuel n) Q L w.
Proof.
  induction n as [|n IH]; intros w Q L HQ; cbn [measure].
  { apply (HQ w []); [done|constructor|done|by rewrite app_nil_r]. }
  apply wpp_step, wp_setup_pit_sleep; [lia|]. intros w1 M1 R1. apply wpp_step, wp_store_timer; [set_solver|]. intros w2 M2 R2.
  apply wpp_step, wp_out_timer; [by left|done|]. intros w3 M3 R3. apply wpp_bind, wpp_wait_pit. intros w4 M4 R4.
  destruct (load_timer w4) as (v & w5 & E5 & V5 & M5 & R5). apply wpp_bind. eapply wpp_of_ret; [exact E5|].
  apply wpp_bind, IH. intros w6 vs Hl Hv M6 R6. apply wpp_wp. wp_step. rewrite wrap_small by lia. apply (HQ w6 (v :: vs)); [by rewrite <- Hl|by constructor| |].
  - intros q. by rewrite M6, M5, M4, M3, M2, M1.
  - rewrite R6, R5, R4, R3, R2, R1, <- app_assoc. done.
Qed.

Lemma foldl_u32 l : ∀ t, 0 <= t < 2 ^ 32 → foldl (λ t c, u32 (t + c)) t l = u32 (t + foldr Z.add 0 l).
Proof.
  induction l as [|c l IH]; intros t Ht; cbn; [rewrite wrap_small by lia; lia|].
  rewrite IH by (apply wrap_range; lia). unfold wrap. rewrite Zplus_mod_idemp_l. f_equal. lia.
Qed.

(** [apic_ticks] is the average of ten measurements, unless one never ends. *)
Lemma wpp_init_apic_timer fuel w (Q : Z → W → Prop) L :
  (∀ w' vs, length vs = 10%nat → Forall (λ v, 0 <= v < 2 ^ 32) vs → same_masks w w' → readings w' = readings w ++ vs →
     Q (u32 (foldr Z.add 0 (elapsed <$> vs)) / 10) w') →
  wpp waiting (init_apic_timer fuel) Q L w.
Proof.
  intros HQ. unfold init_apic_timer. apply wpp_step, wp_store_timer; [set_solver|]. intros w1 M1 R1.
  apply wpp_step, wp_store_timer; [set_solver|]. intros w2 M2 R2. apply wpp_bind, wpp_measure. intros w3 vs Hl Hv M3 R3. apply wpp_wp. wp_step.
  rewrite foldl_u32 by lia. apply (HQ w3 vs); [done|done|intros q; by rewrite M3, M2, M1|by rewrite R3, R2, R1].
Qed.

Lemma apic_timer_outcome fuel w : init_apic_timer fuel w = Fault OutOfFuel ∨
  ∃ w' vs, init_apic_timer fuel w = Ret (u32 (foldr Z.add 0 (elapsed <$> vs)) / 10) w' ∧
    length vs = 10%nat ∧ same_masks w w' ∧ readings w' = readings w ++ vs.
Proof.
  pose proof (wpp_init_apic_timer fuel w (λ a w', ∃ vs, a = u32 (foldr Z.add 0 (elapsed <$> vs)) / 10 ∧
    length vs = 10%nat ∧ same_masks w w' ∧ readings w' = readings w ++ vs) (λ _, False)) as H.
  assert (K : ∀ w' vs, length vs = 10%nat → Forall (λ v, 0 <= v < 2 ^ 32) vs → same_masks w w' → readings w' = readings w ++ vs →
    ∃ vs', u32 (foldr Z.add 0 (elapsed <$> vs)) / 10 = u32 (foldr Z.add 0 (elapsed <$> vs')) / 10 ∧
      length vs' = 10%nat ∧ same_masks w w' ∧ readings w' = readings w ++ vs') by (intros w' vs ? _ ? ?; by exists vs).
  specialize (H K). unfold wpp, waiting in H. destruct (init_apic_timer fuel w) as [a w'| | |f]; [|done|done|left; congruence].
  right. destruct H as (vs & -> & H). by exists w', vs.
Qed.
End chips.

(** Chips that obey the laws: the timer is at zero after six reads. *)
Record chips := { c_mask1 : Z; c_mask2 : Z; c_left : nat; c_readings : list Z }.

Definition chip_left (w : chips) : nat := Nat.min (c_left w) 6.

#[export] Instance chip_ports : Ports chips := {
  in_port8 p w :=
    if p =? 0x21 then Ret (u8 (c_mask1 w)) w
    else if p =? 0xA1 then Ret (u8 (c_mask2 w)) w
    else if p =? TIMER0 then
      Ret (if (chip_left w =? 0)%nat then 0 else 1) {| c_mask1 := c_mask1 w; c_mask2 := c_mask2 w; c_left := Nat.pred (chip_left w); c_readings := c_readings w |}
    else Ret 0 w;
  out_port8 p v w :=
    if p =? 0x21 then Ret tt {| c_mask1 := v; c_mask2 := c_mask2 w; c_left := c_left w; c_readings := c_readings w |}
    else if p =? 0xA1 then Ret tt {| c_mask1 := c_mask1 w; c_mask2 := v; c_left := c_left w; c_readings := c_readings w |}
    else if p =? TIMER0 then Ret tt {| c_mask1 := c_mask1 w; c_mask2 := c_mask2 w; c_left := 6; c_readings := c_readings w |}
    else Ret tt w
}.

#[export] Instance chip_lapic : Lapic chips := {
  lapic_load r w :=
    if r =? LAPIC_TIMER_CC then Ret 0xFFFF0000 {| c_mask1 := c_mask1 w; c_mask2 := c_mask2 w; c_left := c_left w; c_readings := c_readings w ++ [0xFFFF0000] |}
    else Ret 0 w;
  lapic_store _ _ w := Ret tt w
}.

Definition chip_mask (p : Z) (w : chips) : Z := if p =? 0x21 then u8 (c_mask1 w) else if p =? 0xA1 then u8 (c_mask2 w) else 0.

#[export] Instance chip_laws : Chipset chips.
Proof.
  refine {| mask := chip_mask; readings := c_readings |}.
  - intros p w. unfold chip_mask. repeat case_match; try lia; apply wrap_range; lia.
  - intros p w [-> | ->]; (eexists; split; [reflexivity|done]).
  - intros p v w [-> | ->] Hv; (eexists; split; [reflexivity|]); (split; [by apply wrap_small|]); (split; [|done]); intros q Hq; unfold chip_mask;
      repeat case_match; simplify_eq; try done; lia.
  - intros p v w [-> | ->] Hv; (eexists; split; [reflexivity|done]).
  - intros w. do 2 eexists. split; [reflexivity|done].
  - intros r v w _. eexists. split; [reflexivity|done].
  - intros w. do 2 eexists. split; [reflexivity|]. split; [lia|done].
Defined.

(** ** Interrupts, all of them *)

Section interrupts.
Context {W : Type} {PI : Ports W} {LI : Lapic W} {CI : Chipset W}.
Context (d k l ksize kcode kdata kernel_idt : Z) (CPU_EX_ISRS IRQ_ISRS : Z → Z).
Hypothesis im : image_ok d k l ksize.
Hypothesis io : idt_ok d k l ksize kernel_idt.
Hypothesis ex_range : ∀ i, 0 <= i < NUM_EXCEPTIONS → 0 <= CPU_EX_ISRS i < 2 ^ 32.
Hypothesis irq_range : ∀ i, 0 <= i < NUM_IRQS → 0 <= IRQ_ISRS i < 2 ^ 32.
Abbreviation boot_map := (boot_map d k l ksize kcode kdata).
Abbreviation st := (sys W).

(** The handler of an interrupt vector. *)
Definition handler (v : Z) : Z := if v <? NUM_EXCEPTIONS then CPU_EX_ISRS v else IRQ_ISRS (v - IRQ_BASE).

Lemma wp_on_machine {A} (m : M machine A) (Q : A → st → Prop) L (s : st) :
  wp m (λ a c, Q a (s <| sk := (sk s) <| mach := c |> |>)) (λ c, L (s <| sk := (sk s) <| mach := c |> |>)) (mach (sk s)) → wp (on_machine m) Q L s.
Proof. intros H. unfold on_machine, on_kernel, vm. apply wp_zoom. by apply wp_zoom. Qed.

Lemma wp_on_hardware {A} (m : M W A) (Q : A → st → Prop) L (s : st) :
  wp m (λ a h, Q a (s <| hardware := h |>)) (λ h, L (s <| hardware := h |>)) (hardware s) → wp (on_hardware m) Q L s.
Proof. intros H. unfold on_hardware. by apply wp_zoom. Qed.

Lemma wp_init_interrupts (s : st) (Q : unit → st → Prop) L : boot_map (mach (sk s)) →
  (∀ c' w', boot_map c' → agree (idt_bytes kernel_idt) (mach (sk s)) c' →
     (∀ v, 0 <= v < VECTORS → gate_to kernel_idt c' v (handler v) 0) → (∀ j, 0 <= j < 16 → masked w' j = true) → readings w' = readings (hardware s) →
     Q tt (s <| sk := (sk s) <| mach := c' |> |> <| hardware := w' |> <| idtr := (KERNEL_IDT_LEN, kernel_idt) |>)) →
  wp (init_interrupts kernel_idt CPU_EX_ISRS IRQ_ISRS) Q L s.
Proof.
  intros B HQ. unfold init_interrupts. wp_step. apply wp_on_machine.
  eapply (wp_add_gates _ _ _ _ _ _ _ im io _ _ 0); [exact B|intros j Hj; change (Z.of_nat (Z.to_nat NUM_EXCEPTIONS)) with 32 in Hj;
    split; [done|]; unfold VECTORS; split; [lia|apply ex_range; unfold NUM_EXCEPTIONS; lia]|].
  intros c1 B1 A1 G1. wp_step. apply wp_on_machine.
  eapply (wp_add_gates _ _ _ _ _ _ _ im io _ _ 32); [exact B1|intros j Hj; change (Z.of_nat (Z.to_nat NUM_IRQS)) with 24 in Hj;
    split; [unfold IRQ, IRQ_BASE; rewrite wrap_small by lia; lia|]; unfold VECTORS; split; [lia|apply irq_range; unfold NUM_IRQS; lia]|].
  intros c2 B2 A2 G2. wp_step. apply wp_on_hardware. apply wp_disable_irqs; [lia..|]. intros w' Mw _ Rw.
  unfold load_idt. wp_step. change (u16 KERNEL_IDT_LEN) with KERNEL_IDT_LEN.
  change (Z.of_nat (Z.to_nat NUM_EXCEPTIONS)) with 32 in *. change (Z.of_nat (Z.to_nat NUM_IRQS)) with 24 in *.
  apply HQ; [exact B2| | |intros j Hj; apply Mw; lia|exact Rw].
  - eapply agree_trans; [eapply agree_mono; [|exact A1]|eapply agree_mono; [|exact A2]]; intros a; unfold gates_bytes, idt_bytes, VECTORS; lia.
  - intros v Hv. unfold VECTORS in Hv. unfold handler, NUM_EXCEPTIONS, IRQ_BASE. destruct (Z.ltb_spec v 32).
    + eapply gate_to_other; [exact A2| |replace v with (0 + v) at 1 by lia; apply G1; lia]. intros a. unfold gate_bytes, gates_bytes. lia.
    + replace v with (32 + (v - 32)) at 1 by lia. apply G2. lia.
Qed.

(** The state after [init_interrupts]. *)
Record interrupts_set (s s' : st) : Prop := {
  is_gates : ∀ v, 0 <= v < VECTORS → gate_to kernel_idt (mach (sk s')) v (handler v) 0;
  is_masks : ∀ j, 0 <= j < 16 → masked (hardware s') j = true;
  is_idtr : idtr s' = (KERNEL_IDT_LEN, kernel_idt);
  is_map : boot_map (mach (sk s'));
  is_memory : agree (idt_bytes kernel_idt) (mach (sk s)) (mach (sk s'));
  is_rest : (sk s') <| mach := mach (sk s) |> = sk s ∧ sb s' = sb s ∧ sa s' = sa s ∧ msr s' = msr s ∧ apic_ticks s' = apic_ticks s
}.

(** C20. [init_interrupts] runs to its end with the first page map in use.  Then every
    one of the 56 vectors has a present interrupt gate of the kernel to its handler,
    all requests of the two interrupt controllers are masked, the table is loaded,
    and no other byte of memory is changed. *)
Theorem init_interrupts_installs s : boot_map (mach (sk s)) →
  ∃ s', init_interrupts kernel_idt CPU_EX_ISRS IRQ_ISRS s = Ret tt s' ∧ interrupts_set s s'.
Proof.
  intros B. apply wp_runs. intros Q L HQ. apply wp_init_interrupts; [exact B|]. intros c' w' B' A G M _. apply HQ.
  split; [exact G|exact M|done|exact B'|exact A|]. by destruct s as [[] ? ? ? ? ? ?].
Qed.
End interrupts.

Definition small_sys (c : machine) : sys chips :=
  {| sk := boot <| mach := c |>; sb := {| first_free_page := 0; can_alloc_frames := false |}; sa := {| lapic_ptr := 0; ioapic_ptr := 0 |};
     hardware := {| c_mask1 := 0xB8; c_mask2 := 0x8E; c_left := 0; c_readings := [] |}; idtr := (0, 0); msr := ∅; apic_ticks := 0 |}.

Lemma small_idt : idt_ok 1 2 3 0xF800 0xFEC08000.
Proof. split; [by unfold KERNEL_VSTART, VECTORS|]. intros a Ha. unfold VECTORS, tables, in_frame, frame, kphys, KERNEL_VSTART, KERNEL_START in *. lia. Qed.

Lemma init_interrupts_installs_witness :
  ∃ s s', init_paging 0xFEC01000 0xFEC02000 0xFEC03000 0xFEC04000 0xFEC05000 0xF800 0xFEC05000 0xFEC06000 0xFEC0A000 small_cpu = Ret tt s ∧
    init_interrupts 0xFEC08000 (λ i, 0xFEC04000 + 16 * i) (λ i, 0xFEC04800 + 16 * i) (small_sys (mem s)) = Ret tt s' ∧
    gate_to 0xFEC08000 (mach (sk s')) 14 0xFEC040E0 0 ∧ gate_to 0xFEC08000 (mach (sk s')) 33 0xFEC04810 0.
Proof.
  destruct (wp_ret_inv (init_paging (page 1) (page 2) (page 3) 0xFEC04000 0xFEC05000 0xF800 0xFEC05000 0xFEC06000 0xFEC0A000)
    (λ _ s, boot_map 1 2 3 0xF800 0xFEC04000 0xFEC05000 (mem s)) small_cpu) as ([] & s & E & BM).
  { eapply wp_init_paging; [apply small_image|apply small_segments|]. intros s BM _ _ _ _. exact BM. }
  destruct (init_interrupts_installs 1 2 3 0xF800 0xFEC04000 0xFEC05000 0xFEC08000 (λ i, 0xFEC04000 + 16 * i) (λ i, 0xFEC04800 + 16 * i)
    small_image small_idt) with (s := small_sys (mem s)) as (s' & E' & G).
  - unfold NUM_EXCEPTIONS. lia.
  - unfold NUM_IRQS. lia.
  - exact BM.
  - exists s, s'. split; [exact E|]. split; [exact E'|].
    split; [apply (is_gates _ _ _ _ _ _ _ _ _ _ _ G 14)|apply (is_gates _ _ _ _ _ _ _ _ _ _ _ G 33)]; unfold VECTORS; lia.
Defined.
