(* ===== verification/KInitBoot.v ===== *)
(** * Starting the kernel: from the first page map to the initial server

    The parts of start-up put together: interrupts, ACPI tables, interrupt
    controllers, the timer and the loader, up to the switch to the server. *)

From stdpp Require Import functions.
From S2P Require Import Prelude Bits Machine Paging PagingFacts PagingSpec Kernel KList Thread ThreadFacts ThreadSpec Message Interrupt KDebug BootMemory.
From S2P Require Import Loader LoaderFacts LoaderSpec LoaderInit LoaderExe LoaderBoot LoaderStrings BootPaging BootPagingSpec Acpi AcpiSpec KInit KInitSpec.

(** ** What start-up writes to *)

Section memory.
Context (d k l ksize kcode kdata kernel_idt local : Z) (info : multiboot_info).
Hypothesis im : image_ok d k l ksize.
Hypothesis io : idt_ok d k l ksize kernel_idt.
Abbreviation boot_map := (boot_map d k l ksize kcode kdata).
Abbreviation base := (KERNEL_START + kernel_span ksize).
Abbreviation lp := (kphys local).
Abbreviation boot_writes := (boot_writes KERNEL_START ksize info (frame l) base (consec lp 536)).
Abbreviation booting := (booting KERNEL_START ksize info local (frame l) base (consec lp 536)).

(** The local variables are in the kernel's data. *)
Record local_ok : Prop := {
  lc_range : KERNEL_VSTART <= local ∧ local + Z.of_nat 536 <= KERNEL_VSTART + kernel_span ksize;
  lc_tables : ∀ a, local <= a < local + Z.of_nat 536 → ¬ tables d k l (kphys a);
  lc_idt : ∀ a, local <= a < local + Z.of_nat 536 → ¬ idt_bytes kernel_idt (kphys a)
}.
Hypothesis lc : local_ok.

Definition startup_writes (a : Z) : Prop := idt_bytes kernel_idt a ∨ apic_slots l a ∨ boot_writes a.

Lemma local_bytes_at a : a ∈ consec lp 536 → ∃ v, a = kphys v ∧ local <= v < local + Z.of_nat 536.
Proof. intros H%elem_of_consec. exists (a - KERNEL_START + KERNEL_VSTART). unfold kphys in *. lia. Qed.

Lemma fresh_high f : fresh KERNEL_START ksize info base f → base <= 4096 * f.
Proof. by intros [H _]. Qed.

Lemma tables_low a : tables d k l a → EXTENDED_MEMORY <= a < base.
Proof. destruct im. unfold tables, in_frame, frame, KERNEL_START, EXTENDED_MEMORY. zdiv. Qed.

Lemma idt_bytes_at a : idt_bytes kernel_idt a → EXTENDED_MEMORY <= a < base ∧ ¬ tables d k l a.
Proof.
  destruct io as [I1 I2]. unfold idt_bytes, EXTENDED_MEMORY. intros H. unfold kphys, KERNEL_START in *. split; [lia|].
  replace a with (kphys (a - KERNEL_START + KERNEL_VSTART)) by (unfold kphys; lia). apply I2. unfold KERNEL_START. lia.
Qed.

Lemma boot_writes_free a : boot_writes a → ¬ pinned d k l a ∧ EXTENDED_MEMORY <= a.
Proof.
  intros [H|[(v & -> & H)%local_bytes_at|(f & Hf%fresh_high & H)]].
  - unfold slot_bytes, slot0 in H. split; [|destruct im; unfold frame, EXTENDED_MEMORY in *; lia].
    intros [P|[P|P]]; destruct im; unfold in_frame, frame in *; lia.
  - split; [intros P%pinned_tables; by apply (lc_tables lc v)|]. pose proof (lc_range lc). unfold kphys, KERNEL_START, EXTENDED_MEMORY. lia.
  - unfold in_frame in H. pose proof (span_size _ _ _ _ im) as (Sz & IP & Sk). split; [|unfold KERNEL_START, EXTENDED_MEMORY in *; lia].
    intros P%pinned_tables%tables_low. lia.
Qed.

Lemma startup_writes_free a : startup_writes a → ¬ pinned d k l a ∧ EXTENDED_MEMORY <= a.
Proof.
  intros [H|[H|H]].
  - apply idt_bytes_at in H as [H1 H2]. split; [by intros P%pinned_tables|lia].
  - split; [by eapply apic_slots_free|]. unfold apic_slots, slot in H. change ((LAPIC_VADDR / 4096) mod 1024) with 400 in H.
    change ((IOAPIC_VADDR / 4096) mod 1024) with 384 in H. destruct im. unfold frame, EXTENDED_MEMORY in *. lia.
  - by apply boot_writes_free.
Qed.

Lemma boot_map_startup c c' : boot_map c → agree startup_writes c c' → boot_map c'.
Proof. intros B A. eapply bm_agree; [exact B|exact A|]. intros a H. by apply startup_writes_free. Qed.

Lemma startup_written a : written (frame l) (consec lp 536) a → startup_writes a.
Proof. intros [H|H]; [by right; right; right; left|by right; right; left]. Qed.

(** The gates are written once. *)
Lemma later_writes_idt a : apic_slots l a ∨ boot_writes a → ¬ idt_bytes kernel_idt a.
Proof.
  intros H HI. pose proof (idt_bytes_at a HI) as [H1 H2]. destruct H as [H|[H|[(v & -> & H)%local_bytes_at|(f & Hf%fresh_high & H)]]].
  - apply H2. unfold apic_slots, slot in H. change ((LAPIC_VADDR / 4096) mod 1024) with 400 in H. change ((IOAPIC_VADDR / 4096) mod 1024) with 384 in H.
    unfold tables, in_frame. lia.
  - apply H2. unfold slot_bytes, slot0 in H. unfold tables, in_frame. lia.
  - by apply (lc_idt lc v).
  - unfold in_frame in H. lia.
Qed.

Lemma gates_kept c c' (V : Z → Prop) h : (∀ a, V a → apic_slots l a ∨ boot_writes a) → agree V c c' →
  (∀ v, 0 <= v < VECTORS → gate_to kernel_idt c v (h v) 0) → ∀ v, 0 <= v < VECTORS → gate_to kernel_idt c' v (h v) 0.
Proof.
  intros HV A G v Hv. eapply gate_to_other; [exact A| |by apply G]. intros a Ha Va%HV. apply (later_writes_idt a Va).
  unfold gate_bytes, idt_bytes in *. lia.
Qed.

(** ** The state the loader starts from *)

Lemma init_memory_page mem_upper : first_free_page (fst (init_memory KERNEL_START ksize mem_upper)) = base.
Proof.
  pose proof (span_size _ _ _ _ im) as (Sz & IP & Sk). pose proof (im_size _ _ _ _ im). unfold init_memory. cbn [fst first_free_page].
  unfold align_up, FRAME_SIZE. change 0x1000 with (2 ^ 12). rewrite wrap_small, align_down_pow2 by (unfold KERNEL_START; lia).
  unfold KERNEL_START. change (2 ^ 12) with 4096.
  destruct (Z.eqb_spec (0x100000 + ksize) (0x100000 + ksize - (0x100000 + ksize) mod 4096)); [zdiv|]. rewrite wrap_small; zdiv.
Qed.

Lemma boot_booting c mem_upper : boot_map c → booting c (fst (init_memory KERNEL_START ksize mem_upper)).
Proof.
  intros B. pose proof (span_size _ _ _ _ im) as (Sz & IP & Sk). pose proof (im_size _ _ _ _ im). pose proof (init_memory_page mem_upper) as EP.
  assert (NT : ∀ f, 0 <= f < kernel_span ksize / 4096 → ¬ fresh KERNEL_START ksize info base (frame f)).
  { intros f Hf Ff%fresh_high. unfold frame, KERNEL_START in Ff. zdiv. }
  assert (LB : local_block c (frame l) local (consec lp 536) startup_writes).
  { eapply boot_local_block; [exact im|exact B|intros a Ha; by apply startup_writes_free|apply lc|apply lc|apply startup_written]. }
  assert (EC : cr3 c / 4096 = frame d) by (rewrite (bm_cr3 _ _ _ _ _ _ _ B); zdiv).
  split.
  - by eapply bm_kmap.
  - done.
  - rewrite EP. unfold page_address, KERNEL_START. split; [lia|zdiv].
  - unfold limit. rewrite EP. destruct (Z.eqb_spec base 0); [unfold KERNEL_START in *; lia|lia].
  - apply NT, im.
  - rewrite EC. apply NT, im.
  - apply LB.
  - eapply walk_free_mono; [|apply LB]. intros a Ha. by right; right.
  - apply LB.
  - apply LB.
  - intros a Ha. split; [by apply LB|]. split; [by apply LB|]. intros f Hf%fresh_high Hi.
    apply local_bytes_at in Ha as (v & -> & Hv). pose proof (lc_range lc). unfold in_frame, kphys in Hi. lia.
Qed.
End memory.

(** ** The kernel's threads and processors *)

(** No processor runs a thread, and no thread is ready. *)
Definition idle (k : kstate) (Q : queues) : Prop := (∀ p t, running k p ≠ Some (Some t)) ∧ ∀ p, Q (RunQ p) = [].

Lemma kinv_processors s Q P n : kinv s Q → idle s Q → (∀ p, running_thread <$> P !! p = running s p) → 0 < n <= MAX_PROCESSORS →
  kinv (s <| processors := P |> <| num_processors := n |>) Q.
Proof.
  intros [W I] [N _] HP Hn. destruct I as [H1 H2 H3 H4 H5 H6 H7 H8]. set (s' := s <| processors := P |> <| num_processors := n |>).
  assert (R : ∀ p, running (core s') p = running (core s) p) by exact HP. split; [exact W|]. split.
  - exact H1.
  - exact H2.
  - exact H3.
  - intros p t. rewrite R. intros E. by apply N in E.
  - intros t tc Ht Hs. destruct (H5 t tc Ht Hs) as [p Hp]. by apply N in Hp.
  - intros p p' t. rewrite R. intros E. by apply N in E.
  - exact Hn.
  - intros p. rewrite R. apply H8.
Qed.

Lemma install_running es : ∀ P i p, running_thread <$> install P i es !! p = running_thread <$> P !! p.
Proof.
  induction es as [|e es IH]; intros P i p; cbn [install]; [done|]. destruct (usable e); rewrite IH; [|done].
  destruct (decide (p = i)) as [->|N]; [|by rewrite lookup_alter_ne]. rewrite lookup_alter_eq. by destruct (P !! i).
Qed.

Lemma can_create_processors k Q t P n : can_create k Q t → idle k Q → (∀ p, running_thread <$> P !! p = running k p) → 0 < n <= MAX_PROCESSORS →
  can_create (k <| processors := P |> <| num_processors := n |>) Q t ∧ idle (k <| processors := P |> <| num_processors := n |>) Q.
Proof.
  intros [K Lk La Fr HQ] I HP Hn. split.
  - split; [by apply kinv_processors|done..].
  - split; [|apply I]. intros p u. unfold running. cbn. rewrite HP. apply I.
Qed.

(** The first thread is the only one to choose. *)
Lemma wp_first_schedule k Q t (Post : Z → kstate → Prop) L :
  let Q' := enq (RunQ NORMAL_PRIORITY) t (enq PausedQ t Q) in
  kinv k Q' → idle k Q → (∀ k', dispatched k Q' 0 None t k' → Post t k') → wp (schedule 0) Post L k.
Proof.
  intros Q' K [N E] HP. pose proof K as [_ I].
  assert (QE : ∀ p, Q' (RunQ p) = if decide (p = NORMAL_PRIORITY) then [t] else []).
  { intros p. unfold Q', enq, Qdel. destruct (decide (p = NORMAL_PRIORITY)) as [->|Hp].
    - rewrite fn_lookup_insert, fn_lookup_insert_ne by done. by rewrite E.
    - rewrite !fn_lookup_insert_ne by congruence. by rewrite E. }
  assert (R : running k 0 = Some None).
  { destruct (proj2 (ci_array _ _ I 0)) as [o Ho]; [unfold MAX_PROCESSORS; lia|]. change (running (core k) 0) with (running k 0) in Ho.
    destruct o as [u|]; [by apply N in Ho|done]. }
  eapply wp_schedule; [exact K|exact R|pose proof (ci_processors _ _ I); change (num_processors (core k)) with (num_processors k) in *; lia| |].
  - intros H. specialize (H NORMAL_PRIORITY). rewrite QE in H. by rewrite decide_True in H by done; discriminate H.
  - intros z k' (pr & ys & _ & Ez & _) D. rewrite QE in Ez. destruct (decide _); [|by destruct ys]. destruct ys as [|y [|]]; try discriminate Ez.
    injection Ez as ->. by apply HP.
Qed.

Lemma stalled_panics k Q t k' : stalled k Q t k' → idle k Q → schedule 0 k' = Panic.
Proof.
  intros [(E1 & _) K] [N E].
  assert (KP : ∃ Q', kinv k' Q' ∧ ∀ p, Q' (RunQ p) = []).
  { destruct K as [K|K]; [by exists Q|]. exists (enq PausedQ t Q). split; [done|]. intros p. unfold enq, Qdel.
    rewrite fn_lookup_insert_ne by congruence. by rewrite E. }
  destruct KP as (Q' & K' & E'). pose proof K' as [_ I]. eapply schedule_panics; [exact K'| | |intros i _; apply E'].
  - destruct (proj2 (ci_array _ _ I 0)) as [o Ho]; [unfold MAX_PROCESSORS; lia|]. change (running (core k') 0) with (running k' 0) in Ho.
    unfold running in Ho. rewrite E1 in Ho. destruct o as [u|]; [by apply N in Ho|]. unfold running. by rewrite E1.
  - pose proof (ci_processors _ _ I). change (num_processors (core k')) with (num_processors k') in *. lia.
Qed.

(** The addresses of the interrupt controllers have 32 bits. *)
Lemma last_ioapic_range es : ∀ p, 0 <= p < 2 ^ 32 → Forall (Forall (λ b, 0 <= b < 256)) es → 0 <= last_ioapic es p < 2 ^ 32.
Proof.
  unfold last_ioapic. induction es as [|e es IH]; intros p Hp F; [done|]. apply Forall_cons in F as [F1 F2]. cbn [foldl]. apply IH; [|done].
  destruct (_ =? _); [by apply get32_range|done].
Qed.

Lemma apic_after_range c W r ts : ∀ i a, tables_from c W r i ts → 0 <= lapic_ptr a < 2 ^ 32 → 0 <= ioapic_ptr a < 2 ^ 32 →
  0 <= lapic_ptr (apic_after c ts a) < 2 ^ 32 ∧ 0 <= ioapic_ptr (apic_after c ts a) < 2 ^ 32.
Proof.
  unfold apic_after. induction ts as [|[t o] ts IH]; intros i a H H1 H2; [done|]. destruct H as (_ & HK & HT). cbn [foldl].
  eapply (IH (i + 1)); [exact HT|..]; destruct o as [es|]; try done; cbn.
  - apply get32_range, table_bytes_range.
  - apply last_ioapic_range; [done|]. inversion HK as [|es' _ _ _ [_ _ [EB _ _]] EE]. apply Forall_concat. rewrite <- EB. apply table_bytes_range.
Qed.

(** ** The choice of the server *)

(** The last module with a string, or else the first one. *)
Definition server_image (info : multiboot_info) (strings : list (option (list Z))) : Z :=
  let ms := zip (mods info) strings in
  match last_named ms with Some m => mod_start m | None => default 0 (mod_start ∘ fst <$> head ms) end.

(** There is a module, and every string has the flag. *)
Definition modules_ok (info : multiboot_info) (strings : list (option (list Z))) : Prop :=
  mods info ≠ [] ∧ ∀ m s, (m, Some s) ∈ zip (mods info) strings → flagged s.

Section servers.
Context (kphys_start ksize : Z) (info : multiboot_info) (local lp kt base : Z) (strings : list (option (list Z))) (info_addr : Z).
Abbreviation boot_writes := (boot_writes kphys_start ksize info kt base (consec lp 536)).
Abbreviation img := (server_image info strings).

Lemma load_servers_runs k b Q t image :
  modules_ok info strings → booting kphys_start ksize info local kt base (consec lp 536) (mach k) b →
  executable (mach k) boot_writes img image → between (mach k) img image → can_create k Q t →
  ∃ s', load_servers kphys_start ksize info local strings info_addr (k, b) = Ret E_OK s' ∧
    (exhausted kphys_start ksize info (snd s') ∧ stalled k Q t (fst s') ∨
     ∃ P, started kphys_start ksize info lp kt base k Q t img image info_addr P (fst s') (snd s')).
Proof.
  intros [MN MF] B EX BT CC. apply wp_runs. intros Post L HP. unfold load_servers. wp_step.
  eapply wp_of_ret; [apply choose_module_spec; exact MF|]. set (r := match last_named _ with Some m => _ | None => _ end).
  assert (Er : r = (img, snd r)) by (unfold r, server_image; by destruct (last_named _)). rewrite Er.
  replace (length (mods info) =? 0)%nat with false by (destruct (mods info); done). rewrite andb_false_r. wp_step.
  eapply wp_bootstrap_init_server; [exact B|exact EX|exact BT|exact CC| |].
  - intros s' X Y. wp_step. apply HP. by left.
  - intros P s' S. wp_step. apply HP. right. by exists P.
Qed.

(** Without a module, or with a string that lacks the flag. *)
Lemma load_servers_outcome s :
  modules_ok info strings ∨
  (mods info = [] ∧ load_servers kphys_start ksize info local strings info_addr s = Ret E_FAIL s) ∨
  (∃ m text, (m, Some text) ∈ zip (mods info) strings ∧ ¬ flagged text) ∧
    load_servers kphys_start ksize info local strings info_addr s = Fault NullDeref.
Proof.
  destruct (decide (mods info = [])) as [E|E].
  { right. left. split; [done|]. unfold load_servers. by rewrite E. }
  destruct (choose_module_outcome (zip (mods info) strings) true 0 false s) as [H|[H1 H2]]; [by left|]. right. right.
  split; [done|]. unfold load_servers, bind. by rewrite H2.
Qed.
End servers.

(** ** The executable while other memory is written *)

Lemma between_agree c c' (W : Z → Prop) img image : executable c W img image → agree W c c' → between c img image → between c' img image.
Proof.
  intros EX A BT u (j & Hj & Aj & Ij). apply BT. exists j. split; [done|].
  destruct (executable_agree c c' W W img image EX A) as [_ ES]; [done|]. rewrite <- ES by done. done.
Qed.

Lemma file_byte_agree c c' (W : Z → Prop) img image j o : executable c W img image → agree W c c' →
  0 <= j < shnum image → let sh := section_at c img image j in
  allocated sh → 0 <= o < section_bytes sh → file_byte c' img sh o = file_byte c img sh o.
Proof.
  intros EX A Hj sh Al Ho. unfold file_byte. destruct (Z.eqb_spec (sh_type sh) SHT_PROGBITS) as [Ty|]; [|done].
  apply A. by apply (fo_bytes _ _ _ _ (ex_file _ _ _ _ EX)).
Qed.

(** ** The switch to the server *)

Section enter.
Context (kphys_start ksize : Z) (info : multiboot_info) (lp kt base : Z).

(** The server [t] runs on the first processor, in its address space. *)
Record entered (k : kstate) (Q : queues) (t entry P : Z) (k' : kstate) : Prop := {
  en_kinv : kinv k' (Qdel t (enq (RunQ NORMAL_PRIORITY) t (enq PausedQ t Q)));
  en_running : running k' 0 = Some (Some t);
  en_regs : regs k' = user_exec_state (new_tcb (4096 * P) entry (INIT_SERVER_STACK_TOP - SIZEOF_INIT_STACK_ARGS));
  en_mach : mach k' = {| phys := phys (mach k); cr3 := 4096 * P |};
  en_esp0 : tss_esp0 k' = kernel_stack_top k;
  en_count : num_processors k' = num_processors k
}.

Lemma wp_enter_server {A} k Q t img image info_addr P k1 b1 (Post : A → kstate → Prop) L :
  started kphys_start ksize info lp kt base k Q t img image info_addr P k1 b1 → idle k Q →
  (∀ k', entered k1 Q t (entry image) P k' → L k') →
  wp (let* t := schedule 0 in thread_switch_context t false) Post L k1.
Proof.
  intros S [N E] HL. pose proof (st_system _ _ _ _ _ _ _ _ _ _ _ _ _ _ _ S) as (E1 & _).
  wp_step. eapply wp_first_schedule; [apply S|split; [|exact E]; intros p u; unfold running; rewrite E1; apply N|]. intros k2 [K2 C2].
  set (f := λ tc : tcb_t, tc <| thread_state := RUNNING |>) in *.
  assert (T : core_tcb <$> tcb_table k2 !! t = Some (f ((new_tcb (4096 * P) (entry image) (INIT_SERVER_STACK_TOP - SIZEOF_INIT_STACK_ARGS)) <| thread_state := READY |> <| fxsave_state := Some fxsave_area |>))).
  { rewrite <- core_lookup, C2. change (tcb_table (run 0 t (preempt None (core k1))) !! t) with (tcb_table (upd t f (core k1)) !! t).
    rewrite lookup_upd, core_lookup, (st_thread _ _ _ _ _ _ _ _ _ _ _ _ _ _ _ S). done. }
  apply fmap_Some in T as (tc & Htc & Etc).
  assert (U : ∀ tc y, let tc' := f (tc <| thread_state := READY |> <| fxsave_state := y |>) in
    user_exec_state tc' = user_exec_state tc ∧ root_pmap tc' = root_pmap tc ∧ thread_state tc' = RUNNING) by done.
  edestruct U as (U1 & U2 & U3). rewrite Etc in U1, U2, U3. clear U.
  assert (F : ∀ B (g : kstate → B), g (core k2) = g (run 0 t (preempt None (core k1)))) by (intros B g; by rewrite C2).
  assert (R2 : running k2 0 = Some (Some t)).
  { change (running (core k2) 0 = Some (Some t)). rewrite (F _ (λ k, running k 0)). unfold running, run, preempt. cbn. rewrite lookup_alter_eq.
    destruct (proj2 (ci_array _ _ (proj2 (st_kinv _ _ _ _ _ _ _ _ _ _ _ _ _ _ _ S)) 0)) as [o Ho]; [unfold MAX_PROCESSORS; lia|].
    unfold running in Ho. apply fmap_Some in Ho as (cc & Hc & _). change (processors (core k1)) with (processors k1) in Hc. by rewrite Hc. }
  eapply (wp_thread_switch_context _ t tc t tc); [exact Htc| |exact R2| |exact Htc|].
  - change (thread_state tc) with (thread_state (core_tcb tc)). rewrite <- Etc. reflexivity.
  - change (init_server_thread (core k2) = Some t). rewrite (F _ init_server_thread). apply S.
  - intros k3 [W1 W2 W3 W4 _] _. apply HL. split.
    + by eapply kinv_same.
    + destruct W1 as (_ & _ & _ & _ & W1 & _). unfold running. rewrite W1. exact R2.
    + rewrite W2. exact U1.
    + rewrite W3. f_equal.
      * f_equal. change (mach (core k2) = mach k1). by rewrite (F _ mach).
      * exact U2.
    + rewrite W4. change (kernel_stack_top (core k2) = kernel_stack_top k1). by rewrite (F _ kernel_stack_top).
    + destruct W1 as (_ & _ & _ & _ & _ & W1). rewrite W1. change (num_processors (core k2) = num_processors k1). by rewrite (F _ num_processors).
Qed.
End enter.

(** ** The whole of start-up *)

Section init.
Context {W : Type} {PI : Ports W} {LI : Lapic W} {CI : Chipset W}.
Context (fuel : nat) (d k l ksize kcode kdata kernel_idt sysenter_entry local : Z) (CPU_EX_ISRS IRQ_ISRS : Z → Z).
Context (info : multiboot_info) (strings : list (option (list Z))) (mem_upper info_addr : Z).
Hypothesis im : image_ok d k l ksize.
Hypothesis io : idt_ok d k l ksize kernel_idt.
Hypothesis lc : local_ok d k l ksize kernel_idt local.
Abbreviation st := (sys W).
Abbreviation boot_map := (boot_map d k l ksize kcode kdata).
Abbreviation base := (KERNEL_START + kernel_span ksize).
Abbreviation lp := (kphys local).
Abbreviation startup_writes := (startup_writes l ksize kernel_idt local info).
Abbreviation img := (server_image info strings).
Abbreviation boot_writes := (boot_writes KERNEL_START ksize info (frame l) base (consec lp 536)).
Abbreviation handler := (handler CPU_EX_ISRS IRQ_ISRS).
Abbreviation serve := (load_servers KERNEL_START ksize info local strings info_addr).
Abbreviation first_frames := (fst (init_memory KERNEL_START ksize mem_upper)).
Abbreviation start := (init fuel KERNEL_START ksize kernel_idt sysenter_entry local CPU_EX_ISRS IRQ_ISRS info strings mem_upper info_addr).

(** The state in which [init] is called: the first page map is in use, the BIOS has
    its tables in memory, the boot loader has left an executable where the choice of
    the module leads to, and no thread runs. *)
Record powered_on (s : st) (Q : queues) (t q : Z) (ts : list (Z * option (list (list Z)))) (image : elf_header_t) : Prop := {
  po_map : boot_map (mach (sk s));
  po_exceptions : ∀ i, 0 <= i < NUM_EXCEPTIONS → 0 <= CPU_EX_ISRS i < 2 ^ 32;
  po_irqs : ∀ i, 0 <= i < NUM_IRQS → 0 <= IRQ_ISRS i < 2 ^ 32;
  po_apic : 0 <= lapic_ptr (sa s) < 2 ^ 32 ∧ 0 <= ioapic_ptr (sa s) < 2 ^ 32;
  po_acpi : acpi_tables (mach (sk s)) startup_writes q ts;
  po_strings : length strings = length (mods info);
  po_exe : modules_ok info strings → executable (mach (sk s)) startup_writes img image ∧ between (mach (sk s)) img image;
  po_create : can_create (sk s) Q t;
  po_idle : idle (sk s) Q
}.

(** How many processors the tables have; one, where they have none. *)
Definition processors_found (ts : list (Z * option (list (list Z)))) : Z :=
  if count (all_entries ts) =? 0 then 1 else count (all_entries ts).

(** The state when the loader starts. *)
Record prepared (s : st) (ts : list (Z * option (list (list Z)))) (s1 : st) : Prop := {
  pr_memory : agree startup_writes (mach (sk s)) (mach (sk s1));
  pr_map : boot_map (mach (sk s1));
  pr_gates : ∀ v, 0 <= v < VECTORS → gate_to kernel_idt (mach (sk s1)) v (handler v) 0;
  pr_masks : ∀ j, 0 <= j < 16 → masked (hardware s1) j = true;
  pr_lapic : device_page l (mach (sk s1)) LAPIC_VADDR (lapic_ptr (apic_after (mach (sk s)) ts (sa s)));
  pr_ioapic : device_page l (mach (sk s1)) IOAPIC_VADDR (ioapic_ptr (apic_after (mach (sk s)) ts (sa s)));
  pr_kernel : sk s1 = (sk s) <| processors := install (processors (sk s)) 0 (all_entries ts) |> <| num_processors := processors_found ts |> <| mach := mach (sk s1) |>;
  pr_frames : sb s1 = first_frames;
  pr_idtr : idtr s1 = (KERNEL_IDT_LEN, kernel_idt);
  pr_msr : msr s1 = msr s;
  pr_ticks : ∃ vs, length vs = 10%nat ∧ readings (hardware s1) = readings (hardware s) ++ vs ∧ apic_ticks s1 = u32 (foldr Z.add 0 (elapsed <$> vs)) / 10
}.

(** What [init] does from the loader on. *)
Definition from_loader : M st unit :=
  let* r := on_loader serve in
  if is_error r then stop_init
  else
    wrmsr SYSENTER_CS_MSR KCODE ;;
    let* k := gets sk in
    wrmsr SYSENTER_ESP_MSR (kernel_stack_top k) ;;
    wrmsr SYSENTER_EIP_MSR sysenter_entry ;;
    let* t := on_kernel (schedule 0) in
    on_kernel (thread_switch_context (A := unit) t false) ;;
    stop_init.

Lemma count_range es : 0 <= count es.
Proof. unfold count. lia. Qed.

Lemma wpp_prepare (R : option fault → Prop) s Q t q ts image (Post : unit → st → Prop) L :
  powered_on s Q t q ts image → (snd (init_memory KERNEL_START ksize mem_upper) = false → R None) →
  (∀ w, readings w = readings (hardware s) → init_apic_timer fuel w = Fault OutOfFuel → R (Some OutOfFuel)) →
  (∀ s1, prepared s ts s1 → wpp R from_loader Post L s1) → wpp R start Post L s.
Proof.
  intros [B EX IQ [LA IA] AT _ _ CC ID] HN HT HF. pose proof (cc_kinv _ _ _ CC) as [_ I].
  assert (WF := startup_writes_free d k l ksize kernel_idt local info im io lc).
  unfold init. destruct (init_memory KERNEL_START ksize mem_upper) as [b enough] eqn:EM.
  apply wpp_step. wp_step. destruct enough; cbn [negb]; [|by apply HN].
  apply wpp_step. eapply wp_init_interrupts; [exact im|exact io|exact EX|exact IQ|exact B|]. intros c1 w1 B1 A1 G1 M1 R1.
  assert (S1 : agree startup_writes (mach (sk s)) c1) by (eapply agree_mono; [|exact A1]; intros a Ha; by left).
  apply wpp_step. unfold on_acpi. apply wp_zoom. cbn [fst snd].
  set (V := written (frame l) (consec lp 536)).
  assert (VW : ∀ a, V a → apic_slots l a ∨ boot_writes a) by (intros a [H|H]; right; [by right; left|by left]).
  assert (VS : ∀ a, V a → startup_writes a) by (intros a Ha; by apply startup_written).
  assert (AT1 : acpi_tables c1 V q ts).
  { eapply acpi_tables_less; [exact VS|]. eapply acpi_tables_same; [apply S1|intros a Ha; by apply WF|exact AT]. }
  eapply (wp_read_acpi_tables local (frame l) (consec lp 536) c1 V).
  { eapply boot_acpi_env; [exact im|exact B1|intros a Ha; by apply WF, VS|apply lc|apply lc|done|lia]. }
  { eapply boot_bios; [exact im|exact B1|intros a Ha; by apply WF, VS|intros a Ha; by apply WF, VS]. }
  { exact AT1. }
  { apply agree_refl. }
  { intros i Hi. destruct (proj2 (ci_array _ _ I i) Hi) as [o Ho]. unfold running in Ho. apply fmap_Some in Ho as (cc & Hc & _). by exists cc. }
  intros c2 A2. pose proof (count_range (all_entries ts)) as CR. unfold is_error. replace (_ <? 0) with false by lia.
  assert (S2 : agree startup_writes (mach (sk s)) c2) by (eapply agree_trans; [exact S1|]; by eapply agree_mono).
  rewrite (apic_after_same startup_writes (mach (sk s)) c1 _ ts (proj2 S1) 0 _ (at_tables _ _ _ _ AT)).
  destruct (apic_after_range (mach (sk s)) startup_writes _ ts 0 (sa s) (at_tables _ _ _ _ AT) LA IA) as [LA' IA'].
  apply wpp_step. unfold on_kernel at 1. apply wp_zoom. wp_step. apply wpp_step. wp_step.
  apply wpp_step. apply wp_on_machine.
  eapply wp_enable_apic; [exact im|eapply boot_map_startup; [exact im|exact io|exact lc|exact B|exact S2]|exact LA'|exact IA'|]. intros c3 B3 A3 D1 D2.
  assert (S3 : agree startup_writes (mach (sk s)) c3) by (eapply agree_trans; [exact S2|]; eapply agree_mono; [|exact A3]; intros a Ha; by right; left).
  apply wpp_bind. unfold on_hardware, zoom. unfold wpp at 1. cbn [hardware].
  match goal with |- context [init_apic_timer fuel ?w] => destruct (apic_timer_outcome fuel w) as [ET|(w3 & vs & ET & VL & M3 & R3)]; rewrite ET end.
  { by eapply HT. }
  apply wpp_step. wp_step.
  apply HF. split.
  - exact S3.
  - exact B3.
  - eapply gates_kept with (info := info); [exact io|exact lc|by left|exact A3|]. eapply gates_kept; [exact io|exact lc|exact VW|exact A2|exact G1].
  - intros j Hj. rewrite (same_masks_masked _ _ _ M3). by apply M1.
  - exact D1.
  - exact D2.
  - reflexivity.
  - by rewrite EM.
  - reflexivity.
  - reflexivity.
  - exists vs. split; [exact VL|]. split; [|reflexivity]. etrans; [exact R3|]. f_equal. exact R1.
Qed.

(** The initial server [t] runs: what the processor sees in its address space, and
    what the kernel has set up. *)
Record serving (s : st) (Q : queues) (t : Z) (ts : list (Z * option (list (list Z)))) (image : elf_header_t) (s' : st) : Prop := {
  sv_kinv : kinv (sk s') (Qdel t (enq (RunQ NORMAL_PRIORITY) t (enq PausedQ t Q)));
  sv_running : running (sk s') 0 = Some (Some t);
  sv_regs : regs (sk s') = user_exec_state (new_tcb (cr3 (mach (sk s'))) (entry image) (INIT_SERVER_STACK_TOP - SIZEOF_INIT_STACK_ARGS));
  sv_bytes : ∀ j o, 0 <= j < shnum image → let sh := section_at (mach (sk s)) img image j in allocated sh → 0 <= o < section_bytes sh →
    load8 (phys (mach (sk s'))) <$> translate (mach (sk s')) (sh_addr sh + o) = Some (file_byte (mach (sk s)) img sh o);
  sv_low : ∀ u, 0 <= u < VGA_RAM → translate (mach (sk s')) u = Some u;
  sv_stack : ∀ u, stack_page 127 <= u < INIT_SERVER_STACK_TOP → is_Some (translate (mach (sk s')) u);
  sv_args : ∀ i v, stack_args info_addr (first_free_page (sb s')) (4096 * 128) !! i = Some v →
    load8 (phys (mach (sk s'))) <$> translate (mach (sk s')) (INIT_SERVER_STACK_TOP - SIZEOF_INIT_STACK_ARGS + Z.of_nat i) = Some v;
  sv_frames : can_alloc_frames (sb s') = false;
  sv_gates : ∀ v, 0 <= v < VECTORS → gate_to kernel_idt (mach (sk s')) v (handler v) 0;
  sv_masks : ∀ j, 0 <= j < 16 → masked (hardware s') j = true;
  sv_idtr : idtr s' = (KERNEL_IDT_LEN, kernel_idt);
  sv_msr : msr s' = <[SYSENTER_EIP_MSR := sysenter_entry]> (<[SYSENTER_ESP_MSR := kernel_stack_top (sk s)]> (<[SYSENTER_CS_MSR := KCODE]> (msr s)));
  sv_esp0 : tss_esp0 (sk s') = kernel_stack_top (sk s);
  sv_processors : num_processors (sk s') = processors_found ts
}.

(** The loader takes all frames. *)
Definition out_of_frames (s : st) (ts : list (Z * option (list (list Z)))) : Prop :=
  ∃ s1 s2, prepared s ts s1 ∧ serve (sk s1, first_frames) = Ret E_OK s2 ∧ exhausted KERNEL_START ksize info (snd s2).

Lemma wp_on_kernel_seq {A B C} (m : M kstate A) (f : A → M kstate B) (g : M st C) (Post : C → st → Prop) L (s : st) :
  wp (let* a := m in f a) (λ _ k', wp g Post L (s <| sk := k' |>)) (λ k', L (s <| sk := k' |>)) (sk s) →
  wp (let* a := on_kernel m in on_kernel (f a) ;; g) Post L s.
Proof.
  unfold wp, bind, on_kernel, zoom. destruct (m (sk s)) as [a k'|k'| |]; [|done..]. change (sk (s <| sk := k' |>)) with k'.
  by destruct (f a k').
Qed.

(** How [init] can end without a server: there is less than 64M, or no module; the
    loader takes all frames; the string of a module lacks the flag; the timer, in
    [fuel] turns, never reads zero. *)
Inductive stops (s : st) (ts : list (Z * option (list (list Z)))) : option fault → Prop :=
| stops_memory : snd (init_memory KERNEL_START ksize mem_upper) = false → stops s ts None
| stops_modules : mods info = [] → stops s ts None
| stops_frames : out_of_frames s ts → stops s ts None
| stops_string m text : (m, Some text) ∈ zip (mods info) strings → ¬ flagged text → stops s ts (Some NullDeref)
| stops_timer w : readings w = readings (hardware s) → init_apic_timer fuel w = Fault OutOfFuel → stops s ts (Some OutOfFuel).

Lemma wpp_kernel_panics {A C} R (m : M kstate A) (g : A → M st C) (Post : C → st → Prop) L (s : st) :
  m (sk s) = Panic → R None → wpp R (let* a := on_kernel m in g a) Post L s.
Proof. intros E HR. unfold wpp, bind, on_kernel, zoom. by rewrite E. Qed.

Lemma serving_from s Q t q ts image s1 P k2 b2 k3 s' : modules_ok info strings →
  powered_on s Q t q ts image → prepared s ts s1 → started KERNEL_START ksize info lp (frame l) base (sk s1) Q t img image info_addr P k2 b2 →
  entered k2 Q t (entry image) P k3 →
  sk s' = k3 → sb s' = b2 → hardware s' = hardware s1 → idtr s' = idtr s1 →
  msr s' = <[SYSENTER_EIP_MSR := sysenter_entry]> (<[SYSENTER_ESP_MSR := kernel_stack_top k2]> (<[SYSENTER_CS_MSR := KCODE]> (msr s1))) →
  serving s Q t ts image s'.
Proof.
  intros MO PO [S1 B1 G1 M1 _ _ E1 F1 I1 R1 _] ST [EK ER EG EM EE EC] U1 U2 U3 U4 U5.
  assert (BW : ∀ a, boot_writes a → startup_writes a) by (intros a Ha; by right; right).
  destruct (po_exe _ _ _ _ _ _ PO MO) as [XE0 _].
  destruct (executable_agree _ _ _ _ _ _ XE0 S1 BW) as [XE ES].
  pose proof (st_system _ _ _ _ _ _ _ _ _ _ _ _ _ _ _ ST) as (_ & Y2 & _ & Y4).
  assert (Y4' : kernel_stack_top k2 = kernel_stack_top (sk s)) by (rewrite Y4, E1; reflexivity).
  assert (PH : phys (mach k3) = phys (mach k2)) by (by rewrite EM).
  split; rewrite ?U1, ?U2, ?U3, ?U4, ?U5.
  - exact EK.
  - exact ER.
  - rewrite EM. exact EG.
  - intros j o Hj sh Al Ho. rewrite PH, EM. pose proof (st_bytes _ _ _ _ _ _ _ _ _ _ _ _ _ _ _ ST j o Hj) as H. rewrite ES in H by done.
    specialize (H Al Ho). unfold byte_at, umap in H. fold sh in H. rewrite H. f_equal. by eapply file_byte_agree; [exact XE0|exact S1|..].
  - intros u Hu. rewrite EM. by apply (st_low _ _ _ _ _ _ _ _ _ _ _ _ _ _ _ ST).
  - intros u Hu. rewrite EM. by apply (st_stack _ _ _ _ _ _ _ _ _ _ _ _ _ _ _ ST).
  - intros i v Hi. rewrite PH, EM. by apply (st_args _ _ _ _ _ _ _ _ _ _ _ _ _ _ _ ST).
  - apply ST.
  - intros v Hv. assert (GG : ∀ v, 0 <= v < VECTORS → gate_to kernel_idt (mach k2) v (handler v) 0).
    { eapply gates_kept with (info := info); [exact io|exact lc|by right|apply ST|exact G1]. }
    destruct (GG v Hv). split; unfold gate in *; rewrite PH; done.
  - exact M1.
  - exact I1.
  - rewrite Y4', R1. reflexivity.
  - rewrite EE. exact Y4'.
  - rewrite EC, Y2, E1. reflexivity.
Qed.

Lemma wpp_serve s Q t q ts image s1 (Post : unit → st → Prop) L : modules_ok info strings →
  powered_on s Q t q ts image → prepared s ts s1 → (∀ s', serving s Q t ts image s' → L s') → wpp (stops s ts) from_loader Post L s1.
Proof.
  intros MO PO PR HL. pose proof PR as [S1 B1 G1 M1 _ _ E1 F1 I1 R1 _].
  assert (BW : ∀ a, boot_writes a → startup_writes a) by (intros a Ha; by right; right).
  destruct (po_exe _ _ _ _ _ _ PO MO) as [XE0 BT0].
  destruct (executable_agree _ _ _ _ _ _ XE0 S1 BW) as [XE ES]. pose proof (between_agree _ _ _ _ _ XE0 S1 BT0) as BT.
  pose proof (at_fit _ _ _ _ (po_acpi _ _ _ _ _ _ PO)) as FT. pose proof (count_range (all_entries ts)) as CR.
  destruct (can_create_processors (sk s) Q t (install (processors (sk s)) 0 (all_entries ts)) (processors_found ts) (po_create _ _ _ _ _ _ PO) (po_idle _ _ _ _ _ _ PO)) as [CC ID].
  { intros p. apply install_running. }
  { unfold processors_found, MAX_PROCESSORS. destruct (Z.eqb_spec (count (all_entries ts)) 0); lia. }
  apply (can_create_mach _ _ _ (mach (sk s1))) in CC. rewrite <- E1 in CC.
  assert (ID1 : idle (sk s1) Q) by (rewrite E1; exact ID). clear ID.
  destruct (load_servers_runs KERNEL_START ksize info local lp (frame l) base strings info_addr (sk s1) first_frames Q t image
    MO (boot_booting _ _ _ _ _ _ _ _ _ im io lc _ _ B1) XE BT CC) as (s2 & E2 & H2).
  unfold from_loader, wrmsr. apply wpp_step. unfold on_loader. apply wp_zoom. rewrite F1. eapply wp_of_ret; [exact E2|]. change (is_error E_OK) with false. cbv iota.
  do 4 (apply wpp_step; wp_step). destruct H2 as [[X Y]|[P ST]].
  - apply wpp_kernel_panics; [exact (stalled_panics _ _ _ _ Y ID1)|]. apply stops_frames. by exists s1, s2.
  - apply wpp_wp. apply wp_on_kernel_seq.
    eapply wp_enter_server; [exact ST|exact ID1|]. intros k3 EN. apply HL. eapply serving_from; [exact MO|exact PO|exact PR|exact ST|exact EN|reflexivity..].
Qed.

Lemma wpp_finish s Q t q ts image s1 (Post : unit → st → Prop) L :
  powered_on s Q t q ts image → prepared s ts s1 → (∀ s', serving s Q t ts image s' → L s') → wpp (stops s ts) from_loader Post L s1.
Proof.
  intros PO PR HL. destruct (load_servers_outcome KERNEL_START ksize info local strings info_addr (sk s1, sb s1)) as [MO|[[E H]|[(m & text & H1 & H2) H]]].
  - by eapply wpp_serve.
  - unfold wpp, from_loader, bind, on_loader, zoom. rewrite H. by apply stops_modules.
  - unfold wpp, from_loader, bind, on_loader, zoom. rewrite H. by eapply stops_string.
Qed.

(** C3. From the first page map, with ACPI tables that the BIOS has left, one string
    per module, and an executable at the module that is chosen, [init] never returns
    to its caller.  It leaves the kernel with the initial server running on the first
    processor: at the entry point of its file and in an address space with the
    sections of the file, the memory below 640K, and a stack with the arguments on
    top; every interrupt vector has its gate, all requests are masked, the processors
    of the tables are counted, and no more frames can be handed out.  The only other
    ends are these: it stops where there is less than 64M of memory, no module, or no
    frame left for the loader; it uses a null pointer where the string of a module
    lacks the flag [--init]; and it waits for ever where the 8254 timer never reads
    zero, of which nothing is assumed. *)
Theorem init_starts_server s Q t q ts image : powered_on s Q t q ts image →
  match start s with
  | Ret _ _ => False
  | Leave s' => serving s Q t ts image s'
  | Panic => stops s ts None
  | Fault f => stops s ts (Some f)
  end.
Proof.
  intros PO. assert (H : wpp (stops s ts) start (λ _ _, False) (serving s Q t ts image) s); [|exact H].
  eapply wpp_prepare; [exact PO|apply stops_memory|intros w; apply stops_timer|].
  intros s1 PR. eapply wpp_finish; [exact PO|exact PR|done].
Qed.
End init.

(** ** A small machine *)

(** The tables of AcpiSpec.v and the executable of LoaderExe.v in low memory, and
    the small kernel of BootPagingSpec.v. *)
Definition w_memory : memory := store_bytes (store_bytes a_memory 0x8000 exe_file) 0x9000 [10; 20; 30; 40; 50].
Definition w_cpu : cpu := small_cpu <| mem := {| phys := w_memory; Machine.cr3 := 0 |} |>.
Definition w_info : multiboot_info := {| mmap := mmap exe_info; mods := [{| mod_start := 0x8000; mod_end := 0x9005 |}] |}.
Definition w_strings : list (option (list Z)) := [Some INIT_SERVER_FLAG].
Definition w_exceptions (i : Z) : Z := 0xFEC04000 + 16 * i.
Definition w_irqs (i : Z) : Z := 0xFEC04800 + 16 * i.
Abbreviation w_paging := (init_paging 0xFEC01000 0xFEC02000 0xFEC03000 0xFEC04000 0xFEC05000 0xF800 0xFEC05000 0xFEC06000 0xFEC0A000 w_cpu).
Abbreviation w_init c := (init 8 KERNEL_START 0xF800 0xFEC08000 0xFEC04F00 0xFEC09000 w_exceptions w_irqs w_info w_strings 0x1F000 0x9500 (small_sys c)).
Abbreviation w_writes := (startup_writes 3 0xF800 0xFEC08000 0xFEC09000 w_info).

Lemma w_runs : match w_paging with Ret _ s => match w_init (mem s) with Leave _ => true | _ => false end | _ => false end = true.
Proof. vm_compute. reflexivity. Qed.

Lemma w_local : local_ok 1 2 3 0xF800 0xFEC08000 0xFEC09000.
Proof.
  split; [change (kernel_span 0xF800) with 0x10000; unfold KERNEL_VSTART; lia|intros a Ha; unfold tables, in_frame, frame, kphys, KERNEL_VSTART, KERNEL_START; lia|].
  intros a Ha. unfold idt_bytes, VECTORS, kphys, KERNEL_VSTART, KERNEL_START. lia.
Qed.

Lemma w_high a : w_writes a → EXTENDED_MEMORY <= a.
Proof. intros Ha. by apply (startup_writes_free 1 2 3 _ _ _ _ small_image small_idt w_local a Ha). Qed.

Lemma w_exe_bytes a : 0x8000 <= a < 0xA000 → load8 w_memory a = load8 (phys exe_machine) a.
Proof.
  intros Ha. unfold w_memory, exe_machine. cbn [phys set_phys]. rewrite !load8_store_bytes, exe_file_length. repeat case_decide; try done.
  unfold a_memory, demo_memory. rewrite !load8_store_bytes. repeat (rewrite decide_False by (vm_compute length; lia)).
  rewrite !load8_store32_ne by lia. reflexivity.
Qed.

Lemma w_table_bytes p n : 0x50000 <= p → bytes {| phys := w_memory; Machine.cr3 := 0 |} p n = bytes a_machine p n.
Proof.
  intros Hp. unfold bytes, load_bytes. apply list_fmap_ext. intros i x Hx. apply lookup_seq in Hx as [-> _]. cbn [phys a_machine].
  unfold w_memory. rewrite !load8_store_bytes, exe_file_length, !decide_False by (cbn; lia). done.
Qed.

(** An executable is in physical memory. *)
Lemma executable_phys c c' (W : Z → Prop) img image : executable c W img image → between c img image →
  (∀ a, ¬ W a → load8 (phys c') a = load8 (phys c) a) → executable c' W img image ∧ between c' img image.
Proof.
  intros EX BT H. set (c1 := {| phys := phys c'; cr3 := cr3 c |}). assert (A : agree W c c1) by (split; [done|exact H]).
  destruct (executable_agree c c1 W W img image EX A) as [[X1 X2 X3 X4 [X5 X6 X7 X8]] _]; [done|].
  split; [|exact (between_agree c c1 W img image EX A BT)].
  split; [exact X1|exact X2|exact X3|exact X4|]. split; [exact X5|exact X6|exact X7|exact X8].
Qed.

Lemma w_executable c : (∀ a, a < 0x100000 → load8 (phys c) a = load8 w_memory a) → executable c w_writes 0x8000 exe_image ∧ between c 0x8000 exe_image.
Proof.
  intros S. set (V a := ¬ 0x8000 <= a < 0xA000).
  destruct (executable_phys exe_machine c V 0x8000 exe_image) as [EX BT]; [apply exe_any_executable; unfold V; tauto|apply exe_between| |].
  { intros a Ha. unfold V in Ha. rewrite S by lia. apply w_exe_bytes. lia. }
  split; [|exact BT]. apply (executable_agree c c V w_writes 0x8000 exe_image EX (agree_refl V c)).
  intros a Ha%w_high. unfold V, EXTENDED_MEMORY in *. lia.
Qed.

Lemma w_text c : (∀ a, a < 0x100000 → load8 (phys c) a = load8 w_memory a) → section_at c 0x8000 exe_image 1 = exe_text.
Proof.
  intros S. unfold section_at. assert (E : load_bytes (phys c) (0x8000 + shoff exe_image + 1 * shentsize exe_image) 40 =
    load_bytes w_memory (0x8000 + shoff exe_image + 1 * shentsize exe_image) 40).
  { apply list_fmap_ext. intros i x Hx. apply lookup_seq in Hx as [-> Hi]. apply S. change (shoff exe_image) with 52. change (shentsize exe_image) with 40. lia. }
  rewrite E. vm_compute. reflexivity.
Qed.

Lemma w_idle c : idle (boot <| mach := c |>) Q0.
Proof.
  split; [|done]. intros p t. unfold running. cbn. rewrite array_lookup. by case_decide.
Qed.

Lemma w_powered_on c : boot_map 1 2 3 0xF800 0xFEC04000 0xFEC05000 c → (∀ a, a < 0x100000 → load8 (phys c) a = load8 w_memory a) →
  powered_on 1 2 3 0xF800 0xFEC04000 0xFEC05000 0xFEC08000 0xFEC09000 w_exceptions w_irqs w_info w_strings (small_sys c) Q0 1 0xE0010 a_tables exe_image.
Proof.
  intros BM S. destruct (w_executable c S) as [EX BT]. split.
  - exact BM.
  - unfold NUM_EXCEPTIONS, w_exceptions. lia.
  - unfold NUM_IRQS, w_irqs. lia.
  - cbn. lia.
  - apply a_acpi_tables; [apply w_high|]. intros p n H1 H2. rewrite <- w_table_bytes by done. unfold bytes, load_bytes.
    apply list_fmap_ext. intros i x Hx. apply lookup_seq in Hx as [-> Hi]. apply S. lia.
  - reflexivity.
  - intros _. split; [exact EX|exact BT].
  - apply (can_create_mach _ _ _ c exe_can_create).
  - apply w_idle.
Qed.

Lemma init_starts_server_witness :
  ∃ s s', w_paging = Ret tt s ∧ w_init (mem s) = Leave s' ∧ running (sk s') 0 = Some (Some 1) ∧ eip (regs (sk s')) = 0x400000 ∧
    load8 (phys (mach (sk s'))) <$> translate (mach (sk s')) 0x400002 = Some 30.
Proof.
  destruct (wp_ret_inv (init_paging (page 1) (page 2) (page 3) 0xFEC04000 0xFEC05000 0xF800 0xFEC05000 0xFEC06000 0xFEC0A000)
    (λ _ s, boot_map 1 2 3 0xF800 0xFEC04000 0xFEC05000 (mem s) ∧ ∀ a, a < 0x100000 → load8 (phys (mem s)) a = load8 w_memory a) w_cpu)
    as ([] & s & E & BM & SM).
  { eapply wp_init_paging; [apply small_image|apply small_segments|]. intros s BM _ U _ _. split; [exact BM|]. intros a Ha.
    apply U; unfold tables, tss_writes, in_frame, frame, kphys, TSS_SEL, KERNEL_VSTART, KERNEL_START; lia. }
  pose proof w_runs as R. change w_paging with (init_paging (page 1) (page 2) (page 3) 0xFEC04000 0xFEC05000 0xF800 0xFEC05000 0xFEC06000 0xFEC0A000 w_cpu) in R.
  rewrite E in R. cbv iota in R.
  pose proof (init_starts_server 8 1 2 3 0xF800 0xFEC04000 0xFEC05000 0xFEC08000 0xFEC04F00 0xFEC09000 w_exceptions w_irqs w_info w_strings 0x1F000 0x9500
    small_image small_idt w_local (small_sys (mem s)) Q0 1 0xE0010 a_tables exe_image (w_powered_on _ BM SM)) as SV.
  destruct (w_init (mem s)) as [|s'| |] eqn:EL; [discriminate R| |discriminate R|discriminate R].
  exists s, s'. split; [exact E|]. split; [exact EL|]. split; [apply SV|]. split.
  - rewrite (sv_regs _ _ _ _ _ _ _ _ _ _ _ _ _ SV). reflexivity.
  - pose proof (sv_bytes _ _ _ _ _ _ _ _ _ _ _ _ _ SV 1 2) as H. rewrite exe_shnum in H. cbv zeta in H.
    change (server_image w_info w_strings) with 0x8000 in H. change (mach (sk (small_sys (mem s)))) with (mem s) in H. rewrite (w_text _ SM) in H.
    change (sh_addr exe_text + 2) with 0x400002 in H. rewrite H; [|lia|reflexivity|by split].
    change (Some (load8 (phys (mem s)) 0x9002) = Some 30). rewrite SM by lia. vm_compute. reflexivity.
Defined.
